(* ===== verification/_CoqProject ===== *)
-Q . S2P
Prelude.v
TextModel.v
BoundedDocuments.v
Identifiers.v
LocalFraming.v
SecretStorage.v
TrustedDevices.v
AddressBook.v
AddressBookProofs.v
TrustedAliases.v
LocalGrants.v
AuthorizationStore.v
AuthorizationOps.v
AuthorizationSpec.v
AuthorizationCodec.v
AuthorizationSteps.v
AuthorizationInvariant.v
AuthorizationProofs.v
AuthorizationHistory.v
AuthorizationTheorems.v
AuthorizationRuntime.v
AuthorizationRuntimeProofs.v
AuthorizationDaemon.v
AuthorizationMessages.v
AuthorizationHandshake.v
AuthorizationAgreement.v
AuthorizationExchange.v
Membership.v
CollaborationPolicy.v
Application.v
RelayModel.v
Wire.v
WireProofs.v
PageDecoding.v
ReferenceCodec.v
PolicyContract.v
ApplicationContract.v
PolicyExamples.v
RelayStore.v
RelayStoreProofs.v
RelayReplay.v
RelayExamples.v
Rendezvous.v
RelayPrincipals.v
ShortCode.v
ShortCodeProofs.v
Handshake.v
ShortCodeLimits.v
ShortCodeExamples.v
RelayService.v
ServiceExamples.v
A2AContracts.v
A2AArtifacts.v
A2ATaskModel.v
A2AStore.v
A2AStoreSpec.v
A2AStoreProofs.v
A2AStoreOps.v
A2AStoreRun.v
A2ALifecycle.v
A2AListing.v
A2AExamples.v
AuthorizationExamples.v
HandshakeExamples.v
AddressBookExamples.v
A2ASources.v
A2AResponses.v
A2AArtifactForm.v
A2AEffects.v
A2AGateway.v
A2ABridge.v
A2ASystem.v
A2AAuthenticity.v
A2ASystemExamples.v
