(* ===== verification/Prelude.v ===== *)
(** * Konclave: a verified model of the domain core, the relay, the local authority and the A2A task path

    Konclave lets agents on different devices talk in end-to-end encrypted conversations.
    Devices exchange opaque envelopes through a relay; who is in a conversation is decided
    by signed membership changes; what a peer may ask for is decided by collaboration
    policies; on a device, a daemon serves only the sessions whose grants its authorization
    store holds active; and an A2A gateway turns requests of the A2A protocol into Konclave
    requests and keeps a durable task for each of them.  This library translates those parts
    from the Rust sources and proves the properties they rely on.

    ** How the code is modelled

    - A Rust function is a Rocq function of the same name; [Result] is [result], the [?]
      operator is the bind notation, and every early return is kept with its error.
    - Integers are [Z]; the width is written where the source checks, saturates or
      converts ([checked_add], [U64_MAX], [is_u64], ...).
    - Text and byte vectors are lists of bytes; limits on text are limits on UTF-8 bytes.
    - A SQLite database is a record of tables ([gmap] by primary key, or a list where
      the row order matters); a transaction is a function from a database to an answer
      and a database, which is the old one when the answer is an error ([transact]).
    - Code outside the repository is a parameter with named hypotheses: SHA-256 (no
      collision among the values that occur, stated where it is used), the generated
      protobuf codecs (decoding inverts encoding), and the JSON, URL and base64
      libraries.  Each theorem with such a hypothesis has a witness at an instance.
    - An asynchronous function of the gateway or the bridge is a program: a tree of the
      effects it awaits (store calls, clock, deadline, requests to the local service,
      spawned observers, output), which other programs may interleave.  An operation of the
      authorization runtime is a [Task] on a [World]: before each of its atomic actions the
      schedule of the world lets other tasks and processes make any steps.  A side of the
      authorization handshake is a program as well; a network runs any number of them, and
      what a stream delivers, the random bytes, the decisions and the deadlines are actions
      of the environment.  A request of the relay application is a task made of the stages
      between its awaits.

    ** Files

    Foundations
    - [Prelude]: results, bytes, integers, sorting, binary search, transactions.
    - [TextModel]: characters, control and white space characters, decimal numbers.
    - [BoundedDocuments]: JSON values, duplicate keys (Konclave.BoundedDocuments).
    - [Identifiers]: identifiers, error codes, versions, roles, bounds
      (Konclave.DomainCore: identifiers.rs, error.rs, model.rs).

    Local daemon
    - [LocalFraming]: length-prefixed frames (Konclave.LocalFraming).
    - [SecretStorage]: sealed records (Konclave.SecretStorage: sealed_blob.rs).
    - [TrustedDevices]: aliases and what current memberships say about a stored root
      (Konclave.DomainCore: trusted_devices.rs).
    - [AddressBook], [AddressBookProofs]: the sealed binding tables and the plain list they
      refine (Konclave.LocalDaemon: trusted_device_persistence.rs).
    - [TrustedAliases], [AddressBookExamples]: gathering evidence over the conversations,
      binding and resolving an alias (conversation.rs).
    - [LocalGrants]: evidence, policies, session grants and the live registry
      (Konclave.LocalServiceTransport: identifiers.rs, grant.rs, authorization_binding.rs).
    - [AuthorizationStore], [AuthorizationOps]: the tables of the authorization store, their
      decoding and validation, and every operation of a handle on them
      (Konclave.LocalAuthorizationStore: store.rs, model.rs, error.rs);
      [AuthorizationSpec]: the typed store it implements, with its calls and its invariant;
      [AuthorizationCodec], [AuthorizationSteps], [AuthorizationInvariant],
      [AuthorizationProofs]: the refinement; [AuthorizationHistory],
      [AuthorizationTheorems]: bootstrap, reachable stores and what holds in them.
    - [AuthorizationRuntime], [AuthorizationRuntimeProofs], [AuthorizationDaemon]: the
      projection of the store in the daemon, its reloads and its operations, and what
      every interleaving keeps (Konclave.LocalDaemon: authorization_runtime.rs,
      authorization_reload.rs); [AuthorizationExamples]: a store and a daemon that run.
    - [AuthorizationMessages], [AuthorizationHandshake]: the messages and transcripts of the
      handshake that binds a connection to an issuer or a grant, both its sides, and a
      network of them with an adversary (Konclave.LocalServiceTransport:
      authorization_message.rs, authorization_transcript.rs, authorization_handshake.rs);
      [AuthorizationAgreement]: what a completed handshake proves;
      [AuthorizationExchange]: a client and a service over a channel, and the daemon behind
      the service; [HandshakeExamples]: a handshake that runs.

    Conversations and policies
    - [Membership]: snapshots, signed changes, the request-service channel (model.rs,
      request_service.rs).
    - [CollaborationPolicy]: policy bundles and their evaluation
      (collaboration_policy.rs).
    - [Application]: application messages, delivery receipts, request-service traffic.
    - [PolicyContract], [ApplicationContract], [PolicyExamples], [ReferenceCodec]: their
      wire forms and content identities (Konclave.ProtocolContracts,
      Konclave.CryptographicCore: collaboration_policy.rs).

    Relay
    - [RelayModel], [Wire], [WireProofs]: envelopes, replay pages, wire contract and the
      hand-written encoders (Konclave.ProtocolContracts: v1/relay.rs); [PageDecoding]: the
      decoder on the pages these encoders write.
    - [RelayStore], [RelayStoreProofs], [RelayReplay], [RelayExamples]: the durable
      envelope store (Konclave.RelayCore: sqlite.rs) and a client that pages through it.
    - [Rendezvous], [RelayPrincipals]: pairing mailboxes and registered principals.
    - [ShortCode], [ShortCodeProofs], [Handshake], [ShortCodeLimits],
      [ShortCodeExamples]: pairing with a short code (short_code_pairing.rs).
    - [RelayService], [ServiceExamples]: authorization, the service, and the requests of the
      application as tasks that interleave at their awaits (service.rs;
      Konclave.CommunityRelay: access.rs, application.rs).

    A2A
    - [A2AContracts]: validation of requests and their mapping to Konclave requests
      (Konclave.A2AContracts, Konclave.A2ADomain).
    - [A2AArtifacts]: artifacts, canonical JSON, encrypted references (artifact.rs).
    - [A2ATaskModel]: task values, identity digests, the state policy
      (Konclave.A2ATaskStore).
    - [A2AStore]: the SQLite task store; [A2AStoreSpec]: the abstract task system;
      [A2AStoreProofs], [A2AStoreOps], [A2AStoreRun]: the refinement;
      [A2ALifecycle], [A2AListing], [A2ASources]: what it gives a client;
      [A2AExamples]: runs (Konclave.A2ATaskStoreSqlite).
    - [A2AResponses], [A2AArtifactForm]: validation and encoding of responses, and the
      stability of canonical artifacts (Konclave.A2AContracts: task_response.rs,
      stream_response.rs, list_tasks_response.rs, protojson.rs, artifact.rs).
    - [A2AEffects], [A2AGateway], [A2ABridge]: programs, the operations of the gateway
      (Konclave.A2AGateway: application.rs, projection.rs, artifact_publication.rs) and
      the bridge to the local service (Konclave.A2AKonclaveBridge: lib.rs).
    - [A2ASystem]: the process, the programs of one gateway and its bridge interleaved, the
      only writers of their task store, and a weakest precondition for one program among
      others; [A2AAuthenticity]: the gateway and the bridge verified
      against it; [A2ASystemExamples]: a scheduler and a run.

    ** What the theorems show

    - Membership: the stored snapshot is the fold of the accepted changes; a generation
      changes by exactly one signed change; an invitation admits once; the request-service
      channel only sees the changes its topology allows.
    - Policies: the evaluator's answer is characterized branch by branch; local controls
      only tighten a decision; a verified proposal has the digest of its content; wire
      forms round trip.
    - Relay store: cursors of a route are consecutive and unique for every sequence of
      calls, commits are linear in epochs, resubmission is idempotent, and whoever follows
      the pages, of [replay] or decoded from the encoded answers of the relay, receives every
      envelope once and in order and no page fails; for the encoded pages this needs that no
      envelope nests so deeply that the decoder refuses it inside a page.
    - Pairing: the short-code store refines a handshake in which the capability is
      reached only after both confirmations; guesses are limited in every window aligned to
      the clock, and so to twice as many in any span of that length; the mailbox refines a
      single-take store.
    - Relay service: however requests interleave, what is stored was submitted by a principal
      authorized before, nothing is announced that is not stored or announced twice, and a
      revoked principal is refused by every later request; a submission that was authorized
      before the revocation may still commit.
    - Address book: the sealed tables refine a list of bindings for every sequence of
      calls; an alias is bound only to a root all current conversations agree on and is
      never taken from another device whose root is current, unless two operations
      overlap; resolution is exact, over all pages; a full book is answered as corrupt.
    - Authorization store: for every sequence of calls by any handles the tables are those of
      a typed store whose calls have no storage failure, so validation never refuses what an
      operation wrote; rows have the types and keys of the schema; a generation counts the
      changes; a snapshot lists only unexpired grants with their full authority and within
      the quotas; a revoked grant is never listed again; the retry of a recorded issuance is
      answered with the recorded grant whatever became of it, and changes only what the
      recovery read would.
    - Authorization runtime: whatever the tasks of the daemon and other processes do in
      between, a grant that was revoked or retired is not let through once its generation is
      projected; snapshots are always accepted; a failed projection recovers at the next
      undisturbed reload; a grant that was just issued is served; and the early check of a
      request decides as the check of the store does, with the same code except for a
      registration that does not cover the request.
    - Authorization handshake: a payload has one reading and fits the bound before
      authentication; in every network whose streams an adversary controls without forging
      signatures, a service that completes has been asked by the holder of the presented key
      for this binding at this service, once for each proof, and a client that completes has
      been answered by the service it pins; a client and a service over a channel that
      delivers agree on the outcome; a retired grant gets no connection; and the kind of the
      last message is not authenticated, so a rejection can be turned into an acceptance.
    - Frames: any frames written to a stream are read back, however the stream is cut.
    - A2A: the mapping of a request binds every field of it; the SQLite store refines
      an abstract task system for every sequence of calls that write, with retention; tasks are
      kept as long as promised, creation is idempotent, histories follow the lifecycle
      and listing by cursors is complete; canonical JSON is bounded sorting and stable,
      and an artifact reference binds its context.
    - A2A process: for every interleaving and every answer of the local service, a
      message shown for a task is the client's request or the exact response of the
      addressed device, a directed request is sent only for a durable task a client asked
      for, every task of the store is of the route and asked for by a client, and each row of
      its history is its submission or justified by an answer of the local service.

    ** Bounds and fuel

    Recursion is structural or on a list the source iterates over.  The paged loop over
    the conversations takes one more step than there are conversations, and equals one
    pass over them ([gather_pages_all]).  [list_all] and the
    replay client take a number of pages and their theorems say how many suffice (one
    more than there are entries).  The field scan of a decoder takes the number of fields the
    source admits.  [format_u64] uses twenty digits, which cover a 64-bit
    number.  [canonicalize_json] recurses to the depth limit of the source.  Retention
    uses the batch size of the source.  Limits on sizes are the source's constants.
    Waiting and streaming take the number of polls that fit before the deadline
    ([max_polls]); the rounds of an observer are arbitrary, because its deadline may end
    it after any of them.  The schedule of a [World], the wakes of the reload loop and the
    clocks of a waiting handshake are lists of any length; an exhausted schedule means that
    nothing interferes.  Issuing draws at most the four identifiers of the source.

    ** Not modelled

    - Network, process and platform code: the HTTP and websocket surfaces, the command
      line, the admin console, key stores, user presence, sockets.
    - Cryptography: MLS, signatures, AES-256-GCM and hashing are parameters or absent.  In a
      network of handshakes the adversary forges no signature of a key that only the
      endpoints use ([forges]), and these keys sign elsewhere only under other domains.
    - The Protocol Buffers library is a parameter; what is relied on of it for decoding a page
      is the class [ProstLaws], instantiated by [ReferenceCodec].  The broadcast channel of
      the relay is represented by the notifications handed to it, not by their delivery.
    - SQLite itself: schema creation and migration, pragmas, engine failures and
      concurrency between connections; a transaction is atomic.  The authorization runtime
      is verified for storage failures that roll back, late and lost workers; the paths and
      the protection of the files of its store are absent.
    - In the bridge, the answers of the shutdown flag, the observer table and the
      semaphore are arbitrary; shutdown and the submission locks are absent.  In the
      gateway, agent cards and panics of blocking tasks are absent.
    - The version 1 handshake and the request protocol of the local service, the rest of the
      local daemon, the client library and the adapter protocol, whose core is asynchronous
      orchestration of I/O, and the contracts of the pairing messages.
*)

From Stdlib Require Export ZArith Lia.
From Stdlib.Strings Require Export Byte.
From stdpp Require Export base sorting countable numbers gmap strings list.

Open Scope Z_scope.

(** ** Results

    Rust's [Result<A, E>].  The monad instances give stdpp's notation
    [x ← m; k], which is the [?] operator of the source. *)

Inductive result (E A : Type) : Type :=
| Ok (a : A)
| Err (e : E).
Arguments Ok {E A} a.
Arguments Err {E A} e.

Global Instance result_ret {E} : MRet (result E) := fun A a => Ok a.
Global Instance result_bind {E} : MBind (result E) :=
  fun A B k m => match m with Ok a => k a | Err e => Err e end.
Global Instance result_fmap {E} : FMap (result E) :=
  fun A B f m => match m with Ok a => Ok (f a) | Err e => Err e end.

Global Instance result_eq_dec `{EqDecision E, EqDecision A} : EqDecision (result E A).
Proof. solve_decision. Defined.

(** [Result::map_err], and the [From] conversion that [?] applies to an error. *)
Definition map_err {E F A} (f : E -> F) (m : result E A) : result F A :=
  match m with Ok a => Ok a | Err e => Err (f e) end.

(** [Option::ok_or]. *)
Definition ok_or {E A} (o : option A) (e : E) : result E A :=
  match o with Some a => Ok a | None => Err e end.

(** [if condition { return Err(error); }]. *)
Definition fail_if {E} (b : bool) (e : E) : result E unit :=
  if b then Err e else Ok tt.

(** [option.map(f).transpose()]. *)
Definition opt_traverse {E A B} (f : A -> result E B) (o : option A) : result E (option B) :=
  match o with None => Ok None | Some a => Some <$> f a end.

(** [iter.map(f).collect::<Result<Vec<_>, _>>()]: the first error wins. *)
Fixpoint traverse {E A B} (f : A -> result E B) (l : list A) : result E (list B) :=
  match l with
  | [] => Ok []
  | a :: l => b ← f a; bs ← traverse f l; Ok (b :: bs)
  end.

(** A database transaction, as a function from the database: commit on success, roll
    back on error. *)
Definition transact {E D A} (db : D) (m : result E (A * D)) : result E A * D :=
  match m with Ok (a, db') => (Ok a, db') | Err e => (Err e, db) end.

Definition is_ok {E A} (m : result E A) : bool :=
  match m with Ok _ => true | Err _ => false end.

(** [Option::is_some_and] and [Option::is_none_or]. *)
Definition is_some_and {A} (o : option A) (f : A -> bool) : bool :=
  match o with Some a => f a | None => false end.
Definition is_none_or {A} (o : option A) (f : A -> bool) : bool :=
  match o with Some a => f a | None => true end.
Definition is_some {A} (o : option A) : bool :=
  match o with Some _ => true | None => false end.
Definition is_none {A} (o : option A) : bool :=
  match o with Some _ => false | None => true end.

Lemma bind_Ok {E A B} (m : result E A) (k : A -> result E B) b :
  m ≫= k = Ok b ↔ ∃ a, m = Ok a ∧ k a = Ok b.
Proof. destruct m; simpl; naive_solver. Qed.

Lemma fail_if_Ok {E} (b : bool) (e : E) u : fail_if b e = Ok u ↔ b = false.
Proof. destruct b, u; simpl; naive_solver. Qed.

Lemma Ok_inj {E A} (x y : A) : @Ok E A x = Ok y → x = y.
Proof. by intros [= ->]. Qed.

Lemma fail_if_Err {E} (b : bool) (e e' : E) : fail_if b e = Err e' ↔ b = true ∧ e = e'.
Proof. destruct b; simpl; naive_solver. Qed.

Lemma map_err_Ok {E F A} (f : E -> F) (m : result E A) a : map_err f m = Ok a ↔ m = Ok a.
Proof. destruct m; simpl; naive_solver. Qed.

Lemma ok_or_Ok {E A} (o : option A) (e : E) a : ok_or o e = Ok a ↔ o = Some a.
Proof. destruct o; simpl; naive_solver. Qed.

Lemma is_some_true {A} (o : option A) : is_some o = true ↔ is_Some o.
Proof. destruct o; naive_solver. Qed.

Lemma is_some_iff {A B} (a : option A) (b : option B) :
  (is_Some a ↔ is_Some b) → is_some a = is_some b.
Proof. intros H. apply eq_true_iff_eq. by rewrite !is_some_true. Qed.

Lemma fmap_Ok {E A B} (f : A -> B) (m : result E A) b :
  f <$> m = Ok b ↔ ∃ a, m = Ok a ∧ b = f a.
Proof. destruct m; simpl; naive_solver. Qed.

Lemma opt_traverse_Ok {E A B} (f : A -> result E B) o o' :
  opt_traverse f o = Ok o' ↔
  (o = None ∧ o' = None) ∨ (∃ a b, o = Some a ∧ o' = Some b ∧ f a = Ok b).
Proof.
  destruct o as [a|]; simpl; [|naive_solver].
  rewrite fmap_Ok. naive_solver.
Qed.

Lemma traverse_Ok {E A B} (f : A -> result E B) l l' :
  traverse f l = Ok l' ↔ Forall2 (λ a b, f a = Ok b) l l'.
Proof.
  revert l'. induction l as [|a l IH]; intros l'; simpl.
  { split; [intros [= <-]; constructor|by inversion 1]. }
  rewrite bind_Ok. setoid_rewrite bind_Ok. setoid_rewrite IH. split.
  - intros (b & Hb & bs & Hbs & [= <-]). by constructor.
  - inversion 1; subst. eauto 10.
Qed.

(** A traversal that only validates. *)
Lemma traverse_same {E A} (f : A -> result E A) l l' :
  (∀ a b, f a = Ok b → b = a) →
  traverse f l = Ok l' ↔ l' = l ∧ ∀ a, a ∈ l → f a = Ok a.
Proof.
  intros Hf. rewrite traverse_Ok. split.
  - induction 1 as [|a b l l' Hab _ [-> IH]]; [split; [done|]; intros a Ha; by apply elem_of_nil in Ha|].
    pose proof (Hf a b Hab) as ->. split; [done|]. intros c [->|Hc]%elem_of_cons; auto.
  - intros [-> H]. induction l as [|a l IH]; constructor; [apply H; left|].
    apply IH. intros c Hc. apply H. by right.
Qed.

(** ** Bytes, text and byte order

    A Rust [String] is its UTF-8 bytes, so text and byte vectors share one type;
    [str::cmp], [Vec<u8>::cmp] and the derived order of [[u8; N]] are all the
    lexicographic order on bytes. *)

Global Instance byte_eq_dec : EqDecision byte := Byte.byte_eq_dec.
Global Instance byte_countable : Countable byte :=
  inj_countable Byte.to_N Byte.of_N Byte.of_to_N.

Abbreviation bytes := (list byte).
Abbreviation text := (list byte).

(** The bytes of a source literal. *)
Definition lit (s : string) : text := String.list_byte_of_string s.

(** [Vec::len] and [str::len]. *)
Definition len {A} (l : list A) : Z := Z.of_nat (length l).

Lemma len_nonneg {A} (l : list A) : 0 <= len l.
Proof. unfold len. lia. Qed.

Lemma len_app {A} (l k : list A) : len (l ++ k) = len l + len k.
Proof. unfold len. rewrite length_app. lia. Qed.

Lemma len_zero {A} (l : list A) : len l = 0 ↔ l = [].
Proof. unfold len. destruct l; simpl; split; (done || lia). Qed.

(** [std::cmp::Ord] as the development uses it. *)
Class TotalCompare {A} (cmp : A -> A -> comparison) : Prop := {
  compare_eq : ∀ x y, cmp x y = Eq ↔ x = y;
  compare_flip : ∀ x y, cmp y x = CompOpp (cmp x y);
  compare_lt_trans : ∀ x y z, cmp x y = Lt → cmp y z = Lt → cmp x z = Lt }.

Arguments compare_eq {A} cmp {_} x y.
Arguments compare_flip {A} cmp {_} x y.
Arguments compare_lt_trans {A} cmp {_} x y z.

(** [Ordering::then_with]. *)
Definition then_with (c d : comparison) : comparison :=
  match c with Eq => d | _ => c end.

Definition byte_compare (x y : byte) : comparison :=
  N.compare (Byte.to_N x) (Byte.to_N y).

Fixpoint list_compare {A} (cmp : A -> A -> comparison) (l k : list A) : comparison :=
  match l, k with
  | [], [] => Eq
  | [], _ :: _ => Lt
  | _ :: _, [] => Gt
  | x :: l, y :: k => then_with (cmp x y) (list_compare cmp l k)
  end.

(** The derived order of [Option]: [None] is least. *)
Definition option_compare {A} (cmp : A -> A -> comparison) (x y : option A) : comparison :=
  match x, y with
  | None, None => Eq
  | None, Some _ => Lt
  | Some _, None => Gt
  | Some x, Some y => cmp x y
  end.

Definition pair_compare {A B} (ca : A -> A -> comparison) (cb : B -> B -> comparison)
    (x y : A * B) : comparison :=
  then_with (ca x.1 y.1) (cb x.2 y.2).

Definition bytes_compare : bytes -> bytes -> comparison := list_compare byte_compare.

Lemma byte_to_N_inj x y : Byte.to_N x = Byte.to_N y → x = y.
Proof.
  intros H. apply (f_equal Byte.of_N) in H. rewrite !Byte.of_to_N in H. by injection H.
Qed.

Section compare.
Context {A} (cmp : A -> A -> comparison) `{!TotalCompare cmp}.

Lemma compare_refl x : cmp x x = Eq.
Proof. by apply (compare_eq cmp). Qed.

Lemma compare_gt_lt x y : cmp x y = Gt ↔ cmp y x = Lt.
Proof. rewrite (compare_flip cmp x y). destruct (cmp x y); naive_solver. Qed.

Lemma compare_not_gt_trans x y z : cmp x y ≠ Gt → cmp y z ≠ Gt → cmp x z ≠ Gt.
Proof.
  intros Hxy Hyz Hxz.
  destruct (cmp x y) eqn:E1; [apply (compare_eq cmp) in E1; congruence| |done].
  destruct (cmp y z) eqn:E2; [apply (compare_eq cmp) in E2; congruence| |done].
  rewrite (compare_lt_trans cmp x y z) in Hxz; done.
Qed.

Lemma compare_lt_not_gt_trans x y z : cmp x y = Lt → cmp y z ≠ Gt → cmp x z = Lt.
Proof.
  intros Hxy Hyz. destruct (cmp y z) eqn:E; [|by eapply (compare_lt_trans cmp)|done].
  apply (compare_eq cmp) in E. congruence.
Qed.

End compare.

Global Instance byte_compare_total : TotalCompare byte_compare.
Proof.
  split; unfold byte_compare.
  - intros x y. rewrite N.compare_eq_iff. split; [apply byte_to_N_inj|congruence].
  - intros x y. apply N.compare_antisym.
  - intros x y z. rewrite !N.compare_lt_iff. lia.
Qed.

Global Instance Z_compare_total : TotalCompare Z.compare.
Proof.
  split.
  - intros x y. apply Z.compare_eq_iff.
  - intros x y. apply Z.compare_antisym.
  - intros x y z. rewrite !Z.compare_lt_iff. lia.
Qed.

Global Instance list_compare_total {A} (cmp : A -> A -> comparison) :
  TotalCompare cmp → TotalCompare (list_compare cmp).
Proof.
  intros T. split.
  - induction x as [|a x IH]; intros [|b y]; simpl; try naive_solver.
    destruct (cmp a b) eqn:E; simpl.
    + apply (compare_eq cmp) in E. rewrite IH. naive_solver.
    + split; [done|]. intros [= -> ->]. by rewrite (compare_refl cmp) in E.
    + split; [done|]. intros [= -> ->]. by rewrite (compare_refl cmp) in E.
  - induction x as [|a x IH]; intros [|b y]; simpl; try done.
    rewrite (compare_flip cmp a b), IH. by destruct (cmp a b).
  - induction x as [|a x IH]; intros [|b y] [|c z]; simpl; try done.
    destruct (cmp a b) eqn:E1, (cmp b c) eqn:E2; simpl; try done.
    + apply (compare_eq cmp) in E1 as ->. rewrite E2. simpl. apply IH.
    + apply (compare_eq cmp) in E1 as ->. by rewrite E2.
    + apply (compare_eq cmp) in E2 as ->. by rewrite E1.
    + by rewrite (compare_lt_trans cmp a b c).
Qed.

Global Instance bytes_compare_total : TotalCompare bytes_compare.
Proof. apply _. Qed.

Global Instance option_compare_total {A} (cmp : A -> A -> comparison) :
  TotalCompare cmp → TotalCompare (option_compare cmp).
Proof.
  intros T. split.
  - intros [x|] [y|]; simpl; try done. rewrite (compare_eq cmp). naive_solver.
  - intros [x|] [y|]; simpl; try done. apply (compare_flip cmp).
  - intros [x|] [y|] [z|]; simpl; try done. apply (compare_lt_trans cmp).
Qed.

Global Instance pair_compare_total {A B} (ca : A -> A -> comparison) (cb : B -> B -> comparison) :
  TotalCompare ca → TotalCompare cb → TotalCompare (pair_compare ca cb).
Proof.
  intros TA TB. split; unfold pair_compare.
  - intros [a b] [a' b']; simpl. destruct (ca a a') eqn:E; simpl.
    + apply (compare_eq ca) in E. rewrite (compare_eq cb). naive_solver.
    + split; [done|]. intros [= -> ->]. by rewrite (compare_refl ca) in E.
    + split; [done|]. intros [= -> ->]. by rewrite (compare_refl ca) in E.
  - intros [a b] [a' b']; simpl. rewrite (compare_flip ca a a'), (compare_flip cb b b').
    by destruct (ca a a').
  - intros [a b] [a' b'] [a'' b'']; simpl.
    destruct (ca a a') eqn:E1, (ca a' a'') eqn:E2; simpl; try done.
    + apply (compare_eq ca) in E1 as ->. rewrite E2. simpl. apply (compare_lt_trans cb).
    + apply (compare_eq ca) in E1 as ->. by rewrite E2.
    + apply (compare_eq ca) in E2 as ->. by rewrite E1.
    + by rewrite (compare_lt_trans ca a a' a'').
Qed.

(** ** Sorting and searching

    [sort_by key cmp] is the standard library's stable sort under the order
    [cmp] on [key]: insertion from the right keeps equal keys in input order.
    [binary_search_by] is the loop of [slice::binary_search_by]. *)

Section sorting.
Context {A K : Type} (key : A -> K) (cmp : K -> K -> comparison) `{!TotalCompare cmp}.

Fixpoint sort_insert (x : A) (l : list A) : list A :=
  match l with
  | [] => [x]
  | y :: l' =>
      match cmp (key x) (key y) with
      | Gt => y :: sort_insert x l'
      | _ => x :: l
      end
  end.

Definition sort_by (l : list A) : list A := foldr sort_insert [] l.

Definition key_le (x y : A) : Prop := cmp (key x) (key y) ≠ Gt.
Definition key_lt (x y : A) : Prop := cmp (key x) (key y) = Lt.

Lemma sort_insert_perm x l : sort_insert x l ≡ₚ x :: l.
Proof.
  induction l as [|y l IH]; simpl; [done|].
  destruct (cmp (key x) (key y)); [done..|]. rewrite IH. constructor.
Qed.

Lemma sort_by_perm l : sort_by l ≡ₚ l.
Proof. induction l as [|x l IH]; simpl; [done|]. by rewrite sort_insert_perm, IH. Qed.

Lemma sort_insert_sorted x l :
  StronglySorted key_le l → StronglySorted key_le (sort_insert x l).
Proof.
  induction 1 as [|y l Hl IH Hy]; simpl; [repeat constructor|].
  destruct (cmp (key x) (key y)) eqn:E.
  1,2: constructor; [by constructor|constructor; [unfold key_le; by rewrite E|]];
    eapply Forall_impl; [exact Hy|]; intros z Hz;
    eapply compare_not_gt_trans; [apply _| |exact Hz]; by rewrite E.
  constructor; [done|]. rewrite sort_insert_perm. constructor; [|done].
  unfold key_le. apply (compare_gt_lt cmp) in E. by rewrite E.
Qed.

Lemma sort_by_sorted l : StronglySorted key_le (sort_by l).
Proof. induction l; simpl; [constructor|]. by apply sort_insert_sorted. Qed.

(** [slice.windows(2).any(|pair| f(&pair[0], &pair[1]))]. *)
Fixpoint adjacent_any (f : A -> A -> bool) (l : list A) : bool :=
  match l with
  | x :: ((y :: _) as l') => f x y || adjacent_any f l'
  | _ => false
  end.

Definition same_key `{EqDecision K} (x y : A) : bool := bool_decide (key x = key y).

Lemma sorted_adjacent_strict `{EqDecision K} l :
  StronglySorted key_le l →
  adjacent_any same_key l = false ↔ StronglySorted key_lt l.
Proof.
  induction 1 as [|x l Hl IH Hx]; [split; [constructor|done]|].
  destruct l as [|y l]; [split; [repeat constructor|done]|].
  change (adjacent_any same_key (x :: y :: l))
    with (same_key x y || adjacent_any same_key (y :: l)).
  rewrite orb_false_iff, IH. unfold same_key. rewrite bool_decide_eq_false. split.
  - intros [Hne Hlt]. constructor; [done|].
    assert (key_lt x y) as Hxy.
    { inversion Hx as [|?? Hxy ?]; subst. unfold key_le, key_lt in *.
      destruct (cmp (key x) (key y)) eqn:E; [|done..].
      by apply (compare_eq cmp) in E. }
    constructor; [done|]. inversion Hlt as [|?? _ Hy]; subst.
    eapply Forall_impl; [exact Hy|]. intros z Hz. by eapply (compare_lt_trans cmp).
  - inversion 1 as [|?? Hlt Hx']; subst. split; [|done].
    inversion Hx' as [|?? Hxy _]; subst. unfold key_lt in Hxy. intros Heq.
    rewrite Heq, (compare_refl cmp) in Hxy. done.
Qed.

Lemma strictly_sorted_NoDup l : StronglySorted key_lt l → NoDup (key <$> l).
Proof.
  induction 1 as [|x l Hl IH Hx]; simpl; constructor; [|done].
  rewrite list_elem_of_fmap. intros (y & Hkey & Hy).
  rewrite Forall_forall in Hx. specialize (Hx y Hy). unfold key_lt in Hx.
  rewrite Hkey, (compare_refl cmp) in Hx. done.
Qed.

Lemma NoDup_strictly_sorted l :
  StronglySorted key_le l → NoDup (key <$> l) → StronglySorted key_lt l.
Proof.
  induction 1 as [|x l Hl IH Hx]; simpl; [constructor|].
  inversion 1 as [|?? Hnin Hnd]; subst. constructor; [by apply IH|].
  rewrite Forall_forall in Hx |- *. intros y Hy. specialize (Hx y Hy).
  unfold key_le, key_lt in *. destruct (cmp (key x) (key y)) eqn:E; [|done..].
  apply (compare_eq cmp) in E. exfalso. apply Hnin. rewrite E.
  by apply list_elem_of_fmap_2.
Qed.

Lemma strictly_sorted_unique l k :
  StronglySorted key_lt l → StronglySorted key_lt k → l ≡ₚ k → l = k.
Proof.
  intros Hl. revert k. induction Hl as [|x l Hl IH Hx]; intros k Hk Hp.
  { by apply Permutation_nil_l in Hp as ->. }
  destruct Hk as [|y k Hk Hy]; [by apply Permutation_nil_r in Hp|].
  assert (x = y) as ->.
  { assert (x ∈ y :: k) as Hxk by (rewrite <- Hp; left).
    assert (y ∈ x :: l) as Hyl by (rewrite Hp; left).
    apply elem_of_cons in Hxk as [?|Hxk]; [done|].
    apply elem_of_cons in Hyl as [?|Hyl]; [done|].
    rewrite Forall_forall in Hx, Hy. specialize (Hx y Hyl). specialize (Hy x Hxk).
    unfold key_lt in *. rewrite (compare_flip cmp), Hx in Hy. done. }
  f_equal. apply IH; [done|]. by eapply Permutation_cons_inv.
Qed.

(** Sorting a strictly sorted list changes nothing. *)
Lemma sort_by_id l : StronglySorted key_lt l → sort_by l = l.
Proof.
  intros Hl. apply strictly_sorted_unique; [|done|apply sort_by_perm].
  apply NoDup_strictly_sorted; [apply sort_by_sorted|].
  rewrite sort_by_perm. by apply strictly_sorted_NoDup.
Qed.

(** Sorting forgets the input order as soon as keys are distinct. *)
Lemma sort_by_perm_eq l k : NoDup (key <$> l) → l ≡ₚ k → sort_by l = sort_by k.
Proof.
  intros Hnd Hp.
  assert (∀ m, m ≡ₚ l → StronglySorted key_lt (sort_by m)) as Hs.
  { intros m Hm. apply NoDup_strictly_sorted; [apply sort_by_sorted|].
    by rewrite sort_by_perm, Hm. }
  apply strictly_sorted_unique; [by apply Hs|by apply Hs; symmetry|].
  by rewrite !sort_by_perm.
Qed.

(** The duplicate check the constructors make after sorting. *)
Lemma sort_by_duplicates `{EqDecision K} l :
  adjacent_any same_key (sort_by l) = false ↔ NoDup (key <$> l).
Proof.
  rewrite sorted_adjacent_strict by apply sort_by_sorted. split.
  - intros H%strictly_sorted_NoDup. by rewrite sort_by_perm in H.
  - intros H. apply NoDup_strictly_sorted; [apply sort_by_sorted|]. by rewrite sort_by_perm.
Qed.

Fixpoint binary_search_loop (fuel : nat) (f : A -> comparison) (l : list A)
    (base size : nat) : nat :=
  match fuel with
  | O => base
  | S fuel =>
      if (size <=? 1)%nat then base
      else
        let half := (size / 2)%nat in
        let mid := (base + half)%nat in
        let base := match f <$> l !! mid with
                    | Some Gt | None => base
                    | _ => mid
                    end in
        binary_search_loop fuel f l base (size - half)
  end.

(** [slice.binary_search_by(f).is_ok()]. *)
Definition binary_search_by (f : A -> comparison) (l : list A) : bool :=
  match l !! binary_search_loop (length l) f l 0 (length l) with
  | Some x => bool_decide (f x = Eq)
  | None => false
  end.

Lemma sorted_lookup_le l i j x y :
  StronglySorted key_le l → l !! i = Some x → l !! j = Some y → (i <= j)%nat → key_le x y.
Proof.
  intros Hl. revert i j. induction Hl as [|z l Hl IH Hz]; intros [|i] [|j]; simpl;
    intros Hi Hj Hij; try done; try lia.
  - simplify_eq. unfold key_le. by rewrite (compare_refl cmp).
  - simplify_eq. rewrite Forall_lookup in Hz. by eapply Hz.
  - eapply IH; eauto. lia.
Qed.

Lemma binary_search_loop_spec fuel k l base size :
  StronglySorted key_le l →
  (1 <= size)%nat → (base + size <= length l)%nat → (size <= S fuel)%nat →
  (∃ i x, (base <= i < base + size)%nat ∧ l !! i = Some x ∧ key x = k) →
  ∃ x, l !! binary_search_loop fuel (λ x, cmp (key x) k) l base size = Some x ∧ key x = k.
Proof.
  intros Hs. revert base size.
  induction fuel as [|fuel IH]; intros base size H1 Hlen Hfuel (i & x & Hi & Hx & Hk).
  { cbn [binary_search_loop]. replace base with i by lia. eauto. }
  cbn [binary_search_loop]. destruct (Nat.leb_spec size 1); [replace base with i by lia; eauto|].
  assert (size / 2 < size)%nat by (apply Nat.div_lt; lia).
  assert (1 <= size / 2)%nat by (apply Nat.div_le_lower_bound; lia).
  assert (size / 2 <= size - size / 2)%nat.
  { pose proof (Nat.div_mod_eq size 2). pose proof (Nat.mod_upper_bound size 2). lia. }
  cbv zeta. remember (size / 2)%nat as half eqn:Hhalf. remember (base + half)%nat as mid eqn:Hmid.
  destruct (l !! mid) as [y|] eqn:Hy.
  2:{ apply lookup_ge_None in Hy. lia. }
  cbn [fmap option_fmap option_map]. destruct (cmp (key y) k) eqn:E.
  - apply IH; [lia..|]. exists mid, y. apply (compare_eq cmp) in E. split; [lia|done].
  - apply IH; [lia..|]. exists i, x. split; [|done].
    destruct (decide (mid <= i)%nat); [lia|].
    exfalso. assert (key_le x y) as Hle by (eapply (sorted_lookup_le l i mid); eauto; lia).
    unfold key_le in Hle. rewrite Hk in Hle. apply Hle. by apply (compare_gt_lt cmp).
  - apply IH; [lia..|]. exists i, x. split; [|done].
    destruct (decide (i < mid)%nat); [lia|].
    exfalso. assert (key_le y x) as Hle by (eapply (sorted_lookup_le l mid i); eauto; lia).
    unfold key_le in Hle. by rewrite Hk in Hle.
Qed.

(** On a sorted slice the search finds a key exactly when it is present. *)
Lemma binary_search_by_spec k l :
  StronglySorted key_le l →
  binary_search_by (λ x, cmp (key x) k) l = true ↔ k ∈ key <$> l.
Proof.
  intros Hs. unfold binary_search_by. split.
  - destruct (l !! _) as [x|] eqn:Hx; [|done].
    rewrite bool_decide_eq_true, (compare_eq cmp). intros <-.
    apply list_elem_of_fmap_2. by eapply list_elem_of_lookup_2.
  - rewrite list_elem_of_fmap. intros (x & -> & Hx).
    apply list_elem_of_lookup in Hx as [i Hi]. apply lookup_lt_Some in Hi as Hlt.
    destruct (binary_search_loop_spec (length l) (key x) l 0 (length l)) as (y & Hy & Hk);
      [done|lia..| |].
    { exists i, x. split; [lia|done]. }
    rewrite Hy, bool_decide_eq_true, Hk. apply (compare_refl cmp).
Qed.

End sorting.

(** ** Machine integers

    Integers are [Z]; the width shows where the source checks it.  [usize] is
    that of a 64-bit target. *)

Definition U32_MAX : Z := 4294967295.
Definition U64_MAX : Z := 18446744073709551615.
Definition I64_MAX : Z := 9223372036854775807.
Definition USIZE_MAX : Z := U64_MAX.

Definition is_u32 (z : Z) : Prop := 0 <= z <= U32_MAX.
Definition is_u64 (z : Z) : Prop := 0 <= z <= U64_MAX.

(** [checked_add] and [saturating_add] at the width whose maximum is [max]. *)
Definition checked_add (max a b : Z) : option Z :=
  if a + b <=? max then Some (a + b) else None.
Definition saturating_add (max a b : Z) : Z := Z.min max (a + b).

Lemma checked_add_fits max a b : a + b <= max → checked_add max a b = Some (a + b).
Proof. unfold checked_add. intros. by destruct (Z.leb_spec (a + b) max); [|lia]. Qed.

Lemma checked_add_Some max a b c :
  checked_add max a b = Some c ↔ a + b <= max ∧ c = a + b.
Proof. unfold checked_add. destruct (Z.leb_spec (a + b) max); naive_solver lia. Qed.

Lemma checked_add_None max a b : checked_add max a b = None ↔ max < a + b.
Proof. unfold checked_add. destruct (Z.leb_spec (a + b) max); naive_solver lia. Qed.

(** ** Byte classes and byte strings of integers *)

(** [value as u8]. *)
Definition u8 (value : Z) : byte := default x00 (Byte.of_N (Z.to_N (value mod 256))).
Definition byte_value (b : byte) : Z := Z.of_N (Byte.to_N b).

Lemma byte_value_bounds b : 0 <= byte_value b < 256.
Proof. unfold byte_value. pose proof (Byte.to_N_bounded b). lia. Qed.

Lemma byte_value_u8 v : 0 <= v < 256 → byte_value (u8 v) = v.
Proof.
  intros H. unfold u8, byte_value. rewrite Z.mod_small by done.
  destruct (Byte.of_N (Z.to_N v)) as [b|] eqn:E; simpl.
  - apply Byte.to_of_N in E. rewrite E. lia.
  - apply Byte.of_N_None_iff in E. lia.
Qed.

Definition byte_in (lo hi b : byte) : bool :=
  (Byte.to_N lo <=? Byte.to_N b)%N && (Byte.to_N b <=? Byte.to_N hi)%N.

(** [u8::is_ascii], [is_ascii_lowercase], [is_ascii_uppercase], [is_ascii_digit] and
    [is_ascii_alphanumeric]. *)
Definition is_ascii (b : byte) : bool := byte_in x00 x7f b.
Definition is_ascii_lowercase (b : byte) : bool := byte_in "a" "z" b.
Definition is_ascii_uppercase (b : byte) : bool := byte_in "A" "Z" b.
Definition is_ascii_digit (b : byte) : bool := byte_in "0" "9" b.
Definition is_ascii_alphanumeric (b : byte) : bool :=
  is_ascii_lowercase b || is_ascii_uppercase b || is_ascii_digit b.

(** [str::split] at every byte of a set of ASCII separators; there is always at least
    one segment, and segments may be empty. *)
Fixpoint split_at (is_separator : byte -> bool) (value : text) : list text :=
  match value with
  | [] => [[]]
  | b :: rest =>
      match is_separator b, split_at is_separator rest with
      | true, segments => [] :: segments
      | false, segment :: segments => (b :: segment) :: segments
      | false, [] => [[b]]
      end
  end.

(** [to_be_bytes] of an unsigned integer of [n] bytes. *)
Fixpoint be_bytes (n : nat) (value : Z) : bytes :=
  match n with
  | O => []
  | S n => be_bytes n (value / 256) ++ [u8 value]
  end.

Lemma be_bytes_length n value : length (be_bytes n value) = n.
Proof. revert value. induction n as [|n IH]; intros v; simpl; [done|]. rewrite length_app, IH. simpl. lia. Qed.

Lemma be_bytes_inj n v w :
  0 <= v < 256 ^ Z.of_nat n → 0 <= w < 256 ^ Z.of_nat n →
  be_bytes n v = be_bytes n w → v = w.
Proof.
  revert v w. induction n as [|n IH]; intros v w Hv Hw; simpl; [simpl in *; lia|].
  rewrite Nat2Z.inj_succ, Z.pow_succ_r in Hv, Hw by lia.
  intros [H1 [= H2]]%app_inj_2; [|done].
  apply (f_equal byte_value) in H2. unfold u8 in H2.
  rewrite <- (Z.mod_mod v 256), <- (Z.mod_mod w 256) in H2 by lia.
  fold (u8 (v mod 256)) (u8 (w mod 256)) in H2.
  rewrite !byte_value_u8 in H2 by (apply Z.mod_pos_bound; lia).
  apply IH in H1; [|split; [apply Z.div_pos|apply Z.div_lt_upper_bound]; lia..].
  rewrite (Z.div_mod v 256), (Z.div_mod w 256) by lia. congruence.
Qed.

(** [from_be_bytes] of an unsigned integer. *)
Definition be_value (b : bytes) : Z := foldl (fun acc x => acc * 256 + byte_value x) 0 b.

Lemma be_value_bytes n v : 0 <= v < 256 ^ Z.of_nat n → be_value (be_bytes n v) = v.
Proof.
  unfold be_value. revert v. induction n as [|n IH]; intros v Hv; simpl; [simpl in Hv; lia|].
  rewrite Nat2Z.inj_succ, Z.pow_succ_r in Hv by lia. rewrite foldl_snoc, IH
    by (split; [apply Z.div_pos|apply Z.div_lt_upper_bound]; lia).
  assert (byte_value (u8 v) = v mod 256) as ->.
  { rewrite <- (byte_value_u8 (v mod 256)) by (apply Z.mod_pos_bound; lia). unfold u8. by rewrite Z.mod_mod by lia. }
  pose proof (Z.div_mod v 256). lia.
Qed.

Lemma be_value_bounds b : 0 <= be_value b < 256 ^ Z.of_nat (length b).
Proof.
  unfold be_value. induction b as [|x b IH] using rev_ind; [done|].
  rewrite foldl_snoc, length_app, Nat.add_1_r, Nat2Z.inj_succ, Z.pow_succ_r by lia.
  pose proof (byte_value_bounds x). nia.
Qed.

Lemma u8_byte_value x : u8 (byte_value x) = x.
Proof. by destruct x. Qed.

Lemma be_bytes_value b : be_bytes (length b) (be_value b) = b.
Proof.
  induction b as [|x b IH] using rev_ind; [done|]. rewrite length_app, Nat.add_1_r. cbn [be_bytes]. unfold be_value in *.
  rewrite foldl_snoc. pose proof (byte_value_bounds x). rewrite Z.div_add_l, (Z.div_small (byte_value x)), Z.add_0_r, IH by lia.
  f_equal. f_equal. unfold u8. rewrite Z.add_comm, Z.mod_add by lia. fold (u8 (byte_value x)). apply u8_byte_value.
Qed.

(** A length-prefixed component can be read back from the front of a byte string. *)
Lemma prefixed_inj n (x y r s : bytes) :
  len x < 256 ^ Z.of_nat n → len y < 256 ^ Z.of_nat n →
  be_bytes n (len x) ++ x ++ r = be_bytes n (len y) ++ y ++ s → x = y ∧ r = s.
Proof.
  intros Hx Hy [Hl H]%app_inj_1; [|by rewrite !be_bytes_length].
  apply be_bytes_inj in Hl; [|split; [apply len_nonneg|done]..].
  apply app_inj_1 in H; [done|]. unfold len in Hl. lia.
Qed.

(** ** Uniqueness checks

    [require_unique] of the source walks a sequence with a [BTreeSet] of the
    values seen. *)

Fixpoint all_unique_from {A} `{EqDecision A} (seen : list A) (l : list A) : bool :=
  match l with
  | [] => true
  | x :: l => bool_decide (x ∉ seen) && all_unique_from (x :: seen) l
  end.

Definition all_unique {A} `{EqDecision A} (l : list A) : bool := all_unique_from [] l.

Lemma all_unique_from_spec {A} `{EqDecision A} (seen l : list A) :
  all_unique_from seen l = true ↔ NoDup l ∧ ∀ x, x ∈ l → x ∉ seen.
Proof.
  revert seen. induction l as [|a l IH]; intros seen; simpl.
  { split; [|done]. intros _. split; [constructor|]. intros x Hx. by apply elem_of_nil in Hx. }
  rewrite andb_true_iff, bool_decide_eq_true, IH, NoDup_cons. split.
  - intros (Ha & Hnd & Hl). split; [split; [|done]|].
    + intros Hin. apply (Hl a Hin). left.
    + intros x [->|Hx]%elem_of_cons; [done|]. intros Hs. apply (Hl x Hx). by right.
  - intros ((Ha & Hnd) & Hl). split; [apply Hl; left|]. split; [done|].
    intros x Hx [->|Hs]%elem_of_cons; [done|]. apply (Hl x); [by right|done].
Qed.

Lemma all_unique_spec {A} `{EqDecision A} (l : list A) : all_unique l = true ↔ NoDup l.
Proof.
  unfold all_unique. rewrite all_unique_from_spec. split; [by intros []|].
  intros. split; [done|]. intros x _. apply not_elem_of_nil.
Qed.

(** Rewriting the right conjunct under the left one. *)
Lemma and_congr_l (P Q R : Prop) : (P → Q ↔ R) → P ∧ Q ↔ P ∧ R.
Proof. tauto. Qed.

(** A proposition equivalent to a decidable one is decidable. *)
Definition decision_of_iff {P Q : Prop} (H : Q ↔ P) {D : Decision P} : Decision Q :=
  match D with
  | left p => left (proj2 H p)
  | right n => right (fun q => n (proj1 H q))
  end.

Lemma seqZ_snoc m n : 0 <= n → seqZ m (n + 1) = seqZ m n ++ [m + n].
Proof. intros Hn. rewrite seqZ_app by lia. f_equal. Qed.

(** ** Range queries on contiguous columns *)

Lemma filter_filter {A} (p q : A → bool) (l : list A) :
  List.filter q (List.filter p l) = List.filter (fun x => p x && q x) l.
Proof. induction l as [|x l IH]; simpl; [done|]. destruct (p x); simpl; by rewrite IH. Qed.

Lemma filter_ext_all {A} (p q : A → bool) (l : list A) :
  (∀ x, p x = q x) → List.filter p l = List.filter q l.
Proof. intros H. induction l as [|x l IH]; simpl; [done|]. by rewrite H, IH. Qed.

Lemma seqZ_cons_inv {A} (f : A → Z) (rows : list A) k n x :
  f <$> x :: rows = seqZ k n → 0 < n ∧ f x = k ∧ f <$> rows = seqZ (k + 1) (n - 1).
Proof.
  intros H. assert (0 < n) as Hn.
  { apply (f_equal length) in H. rewrite length_fmap, length_seqZ in H. simpl in H. lia. }
  rewrite seqZ_cons in H by lia. rewrite fmap_cons in H. simplify_eq.
  split; [done|]. split; [done|]. by rewrite <- Z.add_1_r, <- Z.sub_1_r in *.
Qed.

Lemma filter_above {A} (f : A → Z) (rows : list A) k n after :
  f <$> rows = seqZ k n →
  List.filter (fun x => after <? f x) rows = drop (Z.to_nat (after + 1 - k)) rows.
Proof.
  revert k n. induction rows as [|x rows IH]; intros k n H; simpl; [by rewrite drop_nil|].
  destruct (seqZ_cons_inv _ _ _ _ _ H) as (Hn & Hx & Hrest). rewrite (IH _ _ Hrest), Hx.
  destruct (Z.ltb_spec after k).
  - replace (Z.to_nat (after + 1 - k)) with 0%nat by lia.
    replace (Z.to_nat (after + 1 - (k + 1))) with 0%nat by lia. done.
  - replace (Z.to_nat (after + 1 - k)) with (S (Z.to_nat (after + 1 - (k + 1)))) by lia. done.
Qed.

Lemma filter_upto {A} (f : A → Z) (rows : list A) k n upto :
  f <$> rows = seqZ k n →
  List.filter (fun x => f x <=? upto) rows = take (Z.to_nat (upto + 1 - k)) rows.
Proof.
  revert k n. induction rows as [|x rows IH]; intros k n H; simpl; [by rewrite take_nil|].
  destruct (seqZ_cons_inv _ _ _ _ _ H) as (Hn & Hx & Hrest). rewrite (IH _ _ Hrest), Hx.
  destruct (Z.leb_spec k upto).
  - replace (Z.to_nat (upto + 1 - k)) with (S (Z.to_nat (upto + 1 - (k + 1)))) by lia. done.
  - replace (Z.to_nat (upto + 1 - k)) with 0%nat by lia.
    replace (Z.to_nat (upto + 1 - (k + 1))) with 0%nat by lia. done.
Qed.

Lemma contiguous_sorted {A} (f : A → Z) (rows : list A) k n :
  f <$> rows = seqZ k n → StronglySorted (key_lt f Z.compare) rows.
Proof.
  revert k n. induction rows as [|x rows IH]; intros k n H; [constructor|].
  destruct (seqZ_cons_inv _ _ _ _ _ H) as (Hn & Hx & Hrest). constructor; [by eapply IH|].
  apply Forall_forall. intros y Hy. unfold key_lt. apply Z.compare_lt_iff.
  assert (Hin : f y ∈ seqZ (k + 1) (n - 1)) by (rewrite <- Hrest; by apply list_elem_of_fmap_2).
  apply elem_of_seqZ in Hin. lia.
Qed.

Lemma contiguous_drop {A} (f : A → Z) (rows : list A) k n m :
  f <$> rows = seqZ k n → f <$> drop m rows = seqZ (k + Z.of_nat m) (n - Z.of_nat m).
Proof.
  revert k n m. induction rows as [|x rows IH]; intros k n m H.
  - apply (f_equal length) in H. rewrite length_seqZ in H. simpl in H. rewrite drop_nil. simpl.
    symmetry. apply nil_length_inv. rewrite length_seqZ. lia.
  - destruct m as [|m]; [simpl drop; by rewrite Z.add_0_r, Z.sub_0_r|].
    destruct (seqZ_cons_inv _ _ _ _ _ H) as (Hn & Hx & Hrest). simpl drop.
    rewrite (IH _ _ m Hrest). f_equal; lia.
Qed.

(** ** Numbered rows *)

Lemma drop_imap {A B} (f : nat → A → B) k (l : list A) :
  drop k (imap f l) = imap (λ i, f (k + i)%nat) (drop k l).
Proof.
  revert f l. induction k as [|k IH]; intros f [|x l]; [done..|]. simpl. by rewrite IH.
Qed.

Lemma take_imap {A B} (f : nat → A → B) k (l : list A) : take k (imap f l) = imap f (take k l).
Proof.
  revert f l. induction k as [|k IH]; intros f [|x l]; [done..|]. simpl. by rewrite IH.
Qed.

Lemma find_imap {A B} (f : nat → A → B) (P : A → Prop) `{∀ x, Decision (P x)} (p : B → bool) l :
  (∀ i x, p (f i x) = bool_decide (P x)) →
  List.find p (imap f l) = (λ ix, f ix.1 ix.2) <$> list_find P l.
Proof.
  revert f. induction l as [|x l IH]; intros f Hp; [done|]. cbn [imap List.find list_find].
  rewrite Hp. destruct (decide (P x)) as [Hx|Hx].
  - by rewrite bool_decide_eq_true_2.
  - rewrite bool_decide_eq_false_2 by done. rewrite (IH (f ∘ S)) by (intros; apply Hp).
    by destruct (list_find P l) as [[i y]|].
Qed.

Lemma existsb_imap {A B} (f : nat → A → B) (p : B → bool) (q : A → bool) l :
  (∀ i x, p (f i x) = q x) → existsb p (imap f l) = existsb q l.
Proof.
  revert f. induction l as [|x l IH]; intros f Hp; [done|]. cbn [imap existsb].
  rewrite Hp, (IH (f ∘ S)); [done|]. intros. apply Hp.
Qed.

Lemma imap_numbers {A B} (f : nat → A → B) (g : B → Z) (l : list A) k :
  (∀ i x, g (f i x) = Z.of_nat i + k) → g <$> imap f l = seqZ k (len l).
Proof.
  revert f k. induction l as [|x l IH]; intros f k Hf; [done|]. cbn [imap]. rewrite fmap_cons, Hf.
  rewrite seqZ_cons by (unfold len; simpl; lia).
  rewrite (IH (f ∘ S) (k + 1)) by (intros i y; simpl; rewrite Hf; lia).
  f_equal. f_equal; unfold len; simpl; lia.
Qed.

Lemma andb_true_r_impl (b c : bool) : (c = true → b = true) → b && c = c.
Proof. destruct b, c; auto. Qed.

Lemma filter_all {A} (p : A → bool) (l : list A) : (∀ x, x ∈ l → p x = true) → List.filter p l = l.
Proof.
  induction l as [|x l IH]; intros Hp; simpl; [done|]. rewrite Hp by left. f_equal. apply IH.
  intros y Hy. apply Hp. by right.
Qed.

Lemma filter_elem {A} (f : A → bool) l x : x ∈ List.filter f l ↔ x ∈ l ∧ f x = true.
Proof. by rewrite !list_elem_of_In, filter_In. Qed.

Lemma filter_sublist {A} (f : A → bool) l : List.filter f l `sublist_of` l.
Proof. induction l as [|x l IH]; simpl; [constructor|]. destruct (f x); by constructor. Qed.

Lemma filter_none {A} (f : A → bool) l : (∀ x, x ∈ l → f x = false) → List.filter f l = [].
Proof.
  induction l as [|x l IH]; intros Hf; simpl; [done|]. rewrite (Hf x) by by left. apply IH.
  intros y Hy. apply Hf. by right.
Qed.

Lemma elem_unique {A B} (f : A → B) l x y : NoDup (f <$> l) → x ∈ l → y ∈ l → f x = f y → x = y.
Proof.
  induction l as [|z l IH]; simpl; intros Hnd Hx Hy E; [by apply elem_of_nil in Hx|].
  apply NoDup_cons in Hnd as [Hz Hnd]. apply elem_of_cons in Hx as [->|Hx], Hy as [Hy|Hy]; subst; try done.
  - destruct Hz. rewrite E. by apply list_elem_of_fmap_2.
  - destruct Hz. rewrite <- E. by apply list_elem_of_fmap_2.
  - by apply IH.
Qed.

(** Not an instance: its conclusion unifies with every order. *)
Lemma flip_compare_total {A} (cmp : A -> A -> comparison) :
  TotalCompare cmp → TotalCompare (λ x y, cmp y x).
Proof.
  intros T. split.
  - intros x y. rewrite (compare_eq cmp). naive_solver.
  - intros x y. apply (compare_flip cmp).
  - intros x y z Hxy Hyz. by apply (compare_lt_trans cmp z y x).
Qed.

(** Newest first, then oldest first again. *)
(** Selecting what a strictly sorted list has after one of its elements. *)
Lemma filter_after_lookup {A K} (key : A → K) (cmp : K → K → comparison) `{!TotalCompare cmp}
    (l : list A) i x :
  StronglySorted (key_lt key cmp) l → l !! i = Some x →
  List.filter (λ y, bool_decide (cmp (key x) (key y) = Lt)) l = drop (S i) l.
Proof.
  intros Hl. revert i. induction Hl as [|y l Hl IH Hy]; intros i Hi; [done|].
  rewrite Forall_forall in Hy. destruct i as [|i]; simpl in Hi.
  - injection Hi as ->. simpl. rewrite bool_decide_eq_false_2 by (by rewrite (compare_refl cmp)).
    rewrite drop_0. apply filter_all. intros z Hz. apply bool_decide_eq_true. by apply Hy.
  - simpl. rewrite bool_decide_eq_false_2; [by apply IH|].
    apply list_elem_of_lookup_2, Hy in Hi. unfold key_lt in Hi. rewrite (compare_flip cmp), Hi. done.
Qed.

Lemma sorted_filter {A} (R : A → A → Prop) (p : A → bool) (l : list A) :
  StronglySorted R l → StronglySorted R (List.filter p l).
Proof.
  induction 1 as [|x l Hl IH Hx]; simpl; [constructor|]. destruct (p x); [|done].
  constructor; [done|]. rewrite Forall_forall in *. intros y Hy.
  apply Hx. apply list_elem_of_In in Hy. apply filter_In in Hy as [? _]. by apply list_elem_of_In.
Qed.

Lemma filter_permutation {A} (p : A → bool) (l k : list A) :
  l ≡ₚ k → List.filter p l ≡ₚ List.filter p k.
Proof.
  induction 1 as [|x l k _ IH|x y l|l k m _ IH1 _ IH2]; simpl; [done|by destruct (p x); rewrite IH| |by etransitivity].
  destruct (p x), (p y); try done. constructor.
Qed.

Lemma sort_by_fmap {A B K} (f : A → B) (key : B → K) (cmp : K → K → comparison) (l : list A) :
  sort_by key cmp (f <$> l) = f <$> sort_by (key ∘ f) cmp l.
Proof.
  assert (∀ x k, sort_insert key cmp (f x) (f <$> k) = f <$> sort_insert (key ∘ f) cmp x k) as Hins.
  { intros x k. induction k as [|y k IH]; simpl; [done|]. change ((key ∘ f) x) with (key (f x)); change ((key ∘ f) y) with (key (f y)). destruct (cmp _ _); [done..|]. simpl. f_equal. exact IH. }
  induction l as [|x l IH]; [done|]. cbn [sort_by foldr fmap list_fmap]. rewrite <- Hins. f_equal. exact IH.
Qed.

(** Filtering commutes with sorting on distinct keys. *)
Lemma sort_by_filter {A K} (key : A → K) (cmp : K → K → comparison) `{!TotalCompare cmp}
    (p : A → bool) (l : list A) :
  NoDup (key <$> l) → sort_by key cmp (List.filter p l) = List.filter p (sort_by key cmp l).
Proof.
  intros Hn. assert (StronglySorted (key_lt key cmp) (sort_by key cmp l)) as Hs.
  { apply NoDup_strictly_sorted; [done|by apply sort_by_sorted|by rewrite sort_by_perm]. }
  rewrite (sort_by_perm_eq key cmp _ (List.filter p (sort_by key cmp l))).
  - apply sort_by_id; [done|]. by apply sorted_filter.
  - assert (StronglySorted (key_lt key cmp) (List.filter p (sort_by key cmp l))) as Hf by by apply sorted_filter.
    apply (strictly_sorted_NoDup key cmp) in Hf. by rewrite (filter_permutation p _ _ (sort_by_perm key cmp l)) in Hf.
  - apply filter_permutation. by rewrite sort_by_perm.
Qed.

Lemma sort_by_desc {A K} (key : A → K) (cmp : K → K → comparison) `{!TotalCompare cmp} (l : list A) :
  StronglySorted (key_lt key cmp) l → sort_by key (λ x y, cmp y x) l = reverse l.
Proof.
  intros Hl. pose proof (flip_compare_total cmp _) as T.
  apply (strictly_sorted_unique key (λ x y, cmp y x)).
  - apply NoDup_strictly_sorted; [done|by apply sort_by_sorted|].
    rewrite sort_by_perm. by apply (strictly_sorted_NoDup key cmp).
  - induction Hl as [|x l Hl IH Hx]; [constructor|]. rewrite reverse_cons.
    apply StronglySorted_app_2; [|done|repeat constructor].
    intros y z Hy Hz%list_elem_of_singleton. subst z. rewrite elem_of_reverse in Hy.
    rewrite Forall_forall in Hx. by apply Hx.
  - by rewrite sort_by_perm, reverse_Permutation.
Qed.

(** ** Automation *)

Create Rewrite HintDb bprop.
#[export] Hint Rewrite orb_false_iff orb_true_iff andb_true_iff andb_false_iff
  negb_true_iff negb_false_iff @bool_decide_eq_true @bool_decide_eq_false
  Z.eqb_eq Z.eqb_neq Z.ltb_lt Z.ltb_ge Z.leb_le Z.leb_gt : bprop.

(** Turn the boolean guards of the source into propositions. *)
Ltac bool_prop := autorewrite with bprop in *.
Tactic Notation "bool_prop" "in" hyp(H) := autorewrite with bprop in H.

(** Decompose one hypothesis saying that a computation succeeded. *)
Ltac inv_ok_step :=
  match goal with
  | H : mbind _ _ = Ok _ |- _ =>
      let a := fresh "r" in let Ha := fresh "Hr" in
      apply bind_Ok in H as (a & Ha & H); cbv beta in H
  | H : fail_if _ _ = Ok _ |- _ => apply fail_if_Ok in H
  | H : map_err _ _ = Ok _ |- _ => apply map_err_Ok in H
  | H : ok_or _ _ = Ok _ |- _ => apply ok_or_Ok in H
  | H : fmap _ _ = Ok _ |- _ =>
      let a := fresh "r" in let Ha := fresh "Hr" in
      apply fmap_Ok in H as (a & Ha & H); cbv beta in H
  | H : Ok _ = Ok _ |- _ => injection H as H
  | H : Err _ = Ok _ |- _ => discriminate H
  | H : Ok _ = Err _ |- _ => discriminate H
  | H : (if ?b then _ else _) = Ok _ |- _ =>
      let E := fresh "Hb" in destruct b eqn:E
  end.
Ltac inv_ok := repeat inv_ok_step.

(** The guard [if x != y { return Err(..) }] passes when the two are equal. *)
Lemma bool_decide_neq_false {A} `{EqDecision A} (x y : A) : x = y → bool_decide (x ≠ y) = false.
Proof. intros ->. apply bool_decide_eq_false_2. congruence. Qed.

Lemma fail_if_pass {E} (b : bool) (e : E) : b = false → fail_if b e = Ok ().
Proof. by intros ->. Qed.

(** Step over the first guard of the goal, proving that it passes. *)
Tactic Notation "pass_guard" "by" tactic3(tac) :=
  match goal with
  | |- context [fail_if ?b ?e] =>
      rewrite (fail_if_pass b e) by tac; cbn [mbind result_bind]
  end.

Create HintDb konclave discriminated.
#[export] Hint Resolve len_nonneg : konclave.
