(* ===== verification/TextModel.v ===== *)
(** * Text of the standard library

    What the source uses of [str], [char] and integer formatting beyond bytes: the
    characters of a UTF-8 string, [trim], and the decimal [Display] and [FromStr] of
    unsigned integers. *)

From S2P Require Import Prelude.
Open Scope Z_scope.

(** ** Characters *)

Definition continuation (b : byte) : Z := byte_value b mod 64.

(** [str::chars], as scalar values; the text of a [str] is well-formed UTF-8. *)
Fixpoint chars (value : text) : list Z :=
  match value with
  | [] => []
  | a :: rest =>
      let v := byte_value a in
      if v <? 128 then v :: chars rest
      else match rest with
           | [] => [v]
           | b :: rest =>
               if v <? 224 then (v mod 32) * 64 + continuation b :: chars rest
               else match rest with
                    | [] => [v]
                    | c :: rest =>
                        if v <? 240
                        then (v mod 16) * 4096 + continuation b * 64 + continuation c :: chars rest
                        else match rest with
                             | [] => [v]
                             | d :: rest =>
                                 (v mod 8) * 262144 + continuation b * 4096
                                 + continuation c * 64 + continuation d :: chars rest
                             end
                    end
           end
  end.

Definition in_range (lo hi c : Z) : bool := (lo <=? c) && (c <=? hi).

(** [char::is_control]: the general category Cc. *)
Definition is_control (c : Z) : bool := in_range 0 31 c || in_range 127 159 c.

(** [char::is_whitespace]: the property White_Space. *)
Definition is_whitespace (c : Z) : bool :=
  in_range 9 13 c || (c =? 32) || (c =? 133) || (c =? 160) || (c =? 5760)
  || in_range 8192 8202 c || (c =? 8232) || (c =? 8233) || (c =? 8239) || (c =? 8287)
  || (c =? 12288).

Fixpoint trim_start (cs : list Z) : list Z :=
  match cs with
  | c :: rest => if is_whitespace c then trim_start rest else cs
  | [] => []
  end.

(** The characters of [str::trim]. *)
Definition trim (cs : list Z) : list Z := reverse (trim_start (reverse (trim_start cs))).

(** [value.trim() == value]. *)
Definition is_trimmed (value : text) : bool := bool_decide (trim (chars value) = chars value).

(** ** Decimal integers *)

Definition digit (n : Z) : byte := u8 (byte_value "0" + n).

(** [Display] of an unsigned integer below [10 ^ fuel]. *)
Fixpoint decimal_digits (fuel : nat) (n : Z) : text :=
  match fuel with
  | O => []
  | S fuel => if n <? 10 then [digit n] else decimal_digits fuel (n / 10) ++ [digit (n mod 10)]
  end.

Definition format_u64 (n : Z) : text := decimal_digits 20 n.

(** [str::parse::<u64>]: an optional plus sign and at least one digit, in range. *)
Fixpoint parse_digits (acc : Z) (value : text) : option Z :=
  match value with
  | [] => Some acc
  | b :: rest =>
      if is_ascii_digit b
      then let acc := 10 * acc + (byte_value b - byte_value "0") in
           if U64_MAX <? acc then None else parse_digits acc rest
      else None
  end.

Definition parse_u64 (value : text) : option Z :=
  let digits := match value with
                | b :: rest => if bool_decide (b = "+"%byte) then rest else value
                | [] => []
                end in
  match digits with [] => None | _ => parse_digits 0 digits end.

Lemma digit_facts n :
  0 <= n < 10 → is_ascii_digit (digit n) = true ∧ byte_value (digit n) = 48 + n ∧ digit n ≠ "+"%byte.
Proof.
  intros Hn. assert (n = 0 ∨ n = 1 ∨ n = 2 ∨ n = 3 ∨ n = 4 ∨ n = 5 ∨ n = 6 ∨ n = 7 ∨ n = 8 ∨ n = 9)
    as Hcases by lia.
  by repeat destruct Hcases as [->|Hcases]; subst.
Qed.

Lemma decimal_digits_nonempty fuel n : (0 < fuel)%nat → decimal_digits fuel n ≠ [].
Proof.
  destruct fuel; [lia|]. intros _. simpl. destruct (n <? 10); [done|]. by intros []%app_nil.
Qed.

Lemma decimal_digits_only fuel n :
  0 <= n → forallb is_ascii_digit (decimal_digits fuel n) = true.
Proof.
  revert n. induction fuel as [|fuel IH]; intros n Hn; simpl; [done|].
  destruct (Z.ltb_spec n 10).
  - simpl. by rewrite (proj1 (digit_facts n ltac:(lia))).
  - rewrite forallb_app, IH by (apply Z.div_pos; lia). simpl.
    by rewrite (proj1 (digit_facts (n mod 10) ltac:(pose proof (Z.mod_pos_bound n 10); lia))).
Qed.

Lemma decimal_digits_length fuel n : (length (decimal_digits fuel n) <= fuel)%nat.
Proof.
  revert n. induction fuel as [|fuel IH]; intros n; simpl; [done|].
  destruct (n <? 10); simpl; [lia|]. rewrite length_app. specialize (IH (n / 10)). simpl. lia.
Qed.

Lemma parse_digits_app acc x y :
  parse_digits acc (x ++ y) = z ← parse_digits acc x; parse_digits z y.
Proof.
  revert acc. induction x as [|b x IH]; intros acc; simpl; [done|].
  destruct (is_ascii_digit b); [|done]. destruct (U64_MAX <? _); [done|]. apply IH.
Qed.

Lemma parse_decimal_digits fuel n :
  0 <= n < 10 ^ Z.of_nat fuel → n <= U64_MAX → parse_digits 0 (decimal_digits fuel n) = Some n.
Proof.
  revert n. induction fuel as [|fuel IH]; intros n Hn Hmax; [change (10 ^ Z.of_nat 0) with 1 in Hn; simpl; f_equal; lia|].
  rewrite Nat2Z.inj_succ, Z.pow_succ_r in Hn by lia. cbn [decimal_digits].
  destruct (Z.ltb_spec n 10).
  - destruct (digit_facts n ltac:(lia)) as (Hd & Hv & _). cbn [parse_digits]. rewrite Hd, Hv.
    change (byte_value "0") with 48. rewrite (proj2 (Z.ltb_ge _ _)) by lia. f_equal. lia.
  - pose proof (Z.div_mod n 10 ltac:(lia)) as Hdm. pose proof (Z.mod_pos_bound n 10 ltac:(lia)).
    destruct (digit_facts (n mod 10) ltac:(lia)) as (Hd & Hv & _).
    rewrite parse_digits_app, IH by lia.
    cbn [mbind option_bind parse_digits]. rewrite Hd, Hv. change (byte_value "0") with 48.
    rewrite (proj2 (Z.ltb_ge _ _)) by lia. f_equal. lia.
Qed.

Lemma parse_format_u64 n : 0 <= n <= U64_MAX → parse_u64 (format_u64 n) = Some n.
Proof.
  intros Hn. unfold parse_u64, format_u64.
  assert (∃ b rest, decimal_digits 20 n = b :: rest ∧ b ≠ "+"%byte) as (b & rest & E & Hb).
  { pose proof (decimal_digits_only 20 n ltac:(lia)) as Hd.
    pose proof (decimal_digits_nonempty 20 n ltac:(lia)) as Hne.
    destruct (decimal_digits 20 n) as [|b rest]; [done|]. exists b, rest. split; [done|].
    intros ->. simpl in Hd. done. }
  rewrite E, bool_decide_eq_false_2 by done. rewrite <- E.
  apply parse_decimal_digits; unfold U64_MAX in *; lia.
Qed.
