(* ===== verification/BoundedDocuments.v ===== *)
(** * Strict JSON documents

    The JSON half of [Konclave.BoundedDocuments]: a document is decoded only if it fits its
    bound and no object of it repeats a key.  The JSON grammar and the derived decoders are
    third-party code and enter as parameters. *)

From S2P Require Import Prelude.
Open Scope Z_scope.

Set Warnings "-register-all".

(** A JSON document as its tokens nest: object members in document order, repeated keys
    included.  Numbers keep their spelling. *)
Inductive json :=
| JNull
| JBool (b : bool)
| JNumber (n : text)
| JString (s : text)
| JArray (values : list json)
| JObject (members : list (text * json)).

(** Induction through the nested lists. *)
Fixpoint json_ind' (P : json → Prop) (Hnull : P JNull) (Hbool : ∀ b, P (JBool b))
    (Hnumber : ∀ n, P (JNumber n)) (Hstring : ∀ s, P (JString s))
    (Harray : ∀ l, Forall P l → P (JArray l))
    (Hobject : ∀ l, Forall (fun m => P m.2) l → P (JObject l)) (v : json) : P v :=
  let rec := json_ind' P Hnull Hbool Hnumber Hstring Harray Hobject in
  match v with
  | JNull => Hnull
  | JBool b => Hbool b
  | JNumber n => Hnumber n
  | JString s => Hstring s
  | JArray l =>
      Harray l ((fix go l : Forall P l :=
                   match l with [] => Forall_nil_2 P | x :: l => Forall_cons_2 P x l (rec x) (go l) end) l)
  | JObject l =>
      Hobject l ((fix go l : Forall (fun m => P m.2) l :=
                    match l with
                    | [] => Forall_nil_2 _
                    | m :: l => Forall_cons_2 (fun m => P m.2) m l (rec m.2) (go l)
                    end) l)
  end.

Inductive BoundedDocumentError :=
| FileUnavailable
| DocumentTooLarge (maximum : Z)
| InvalidJson
| UnsafeCatalogPath.

(** [BTreeSet::insert] over the keys of one object: whether none repeats. *)
Fixpoint distinct_keys (seen : gset text) (members : list (text * json)) : bool :=
  match members with
  | [] => true
  | m :: rest => bool_decide (m.1 ∉ seen) && distinct_keys ({[m.1]} ∪ seen) rest
  end.

(** [UniqueJsonVisitor]. *)
Fixpoint unique_json (v : json) : bool :=
  match v with
  | JArray l => forallb unique_json l
  | JObject l => distinct_keys ∅ l && forallb (fun m => unique_json m.2) l
  | _ => true
  end.

(** [serde_json::Deserializer] followed by [end()], for the document as it stands and for
    a type [A]. *)
Section strict.
Context {A : Type} (parse_json : bytes -> option json) (deserialize : bytes -> option A).

Definition reject_duplicate_json_keys (document : bytes) : result BoundedDocumentError unit :=
  match parse_json document with
  | Some v => fail_if (negb (unique_json v)) InvalidJson
  | None => Err InvalidJson
  end.

Definition deserialize_strict (document : bytes) (maximum : Z) : result BoundedDocumentError A :=
  fail_if (maximum <? len document) (DocumentTooLarge maximum);;
  reject_duplicate_json_keys document;;
  ok_or (deserialize document) InvalidJson.

End strict.

(** No object of the document, at any depth, has two members of the same key. *)
Inductive json_unique : json → Prop :=
| unique_null : json_unique JNull
| unique_bool b : json_unique (JBool b)
| unique_number n : json_unique (JNumber n)
| unique_string s : json_unique (JString s)
| unique_array l : Forall json_unique l → json_unique (JArray l)
| unique_object l : NoDup (fst <$> l) → Forall (fun m => json_unique m.2) l → json_unique (JObject l).

Lemma distinct_keys_spec seen l :
  distinct_keys seen l = true ↔ NoDup (fst <$> l) ∧ (∀ k, k ∈ fst <$> l → k ∉ seen).
Proof.
  revert seen. induction l as [|m l IH]; intros seen; simpl; [split; [split; [constructor|set_solver]|done]|].
  rewrite andb_true_iff, bool_decide_eq_true, IH, NoDup_cons. set_solver.
Qed.

Lemma forallb_Forall_iff {A} (p : A → bool) (P : A → Prop) l :
  Forall (fun x => p x = true ↔ P x) l → forallb p l = true ↔ Forall P l.
Proof.
  induction 1 as [|x l Hx _ IH]; simpl; [split; [constructor|done]|].
  rewrite andb_true_iff, Hx, IH, Forall_cons. done.
Qed.

Lemma unique_json_spec v : unique_json v = true ↔ json_unique v.
Proof.
  induction v using json_ind'; try (split; [constructor|done]).
  - cbn [unique_json]. rewrite (forallb_Forall_iff _ json_unique) by done.
    split; [by constructor|by inversion 1].
  - cbn [unique_json]. rewrite andb_true_iff, distinct_keys_spec.
    rewrite (forallb_Forall_iff _ (fun m => json_unique m.2)) by done.
    split; [intros [[? _] ?]; by constructor|inversion 1; subst; set_solver].
Qed.
