(* ===== verification/Identifiers.v ===== *)
(** * Identifiers, protocol versions and domain errors

    [crates/Konclave.DomainCore/src/identifiers.rs] and [error.rs], the
    identifier part of [crates/Konclave.RelayAuthentication/src/lib.rs] and the
    version, role and bounds at the top of [model.rs].

    The macro [define_fixed_bytes!] stamps out one newtype per identifier.  Here
    [id_kind] lists the invocations with their length and field name, and
    [FixedBytes k] is the newtype of kind [k], so that a [DeviceId] and a
    [ConversationId] are different types although both hold 32 bytes. *)

From Stdlib Require Import Eqdep_dec.
From S2P Require Import Prelude.

Inductive id_kind :=
| KDeviceId | KConversationId | KMessageId | KEnvelopeId | KNotificationId
| KAdapterConsumerId | KAdapterLeaseId | KInvitationId | KPairingId
| KPairingMessageId | KPairingRendezvousId | KPairingRendezvousNonce
| KShortCodePairingAttemptId | KShortCodeCapabilityTakeId
| KRepeatPairingOperationId | KShortCodePairingLocator
| KShortCodePairingTranscriptHash | KPairingNonce | KPairingContextHash
| KRoutingId | KMembershipOperationId | KCredentialBindingHash
| KCollaborationPolicyDigest | KCollaborationPolicyProposalId
| KEd25519PublicKey | KEd25519Signature | KInvitationNonce
| KRelayPrincipalId | KRelayEnrollmentAuthorityId | KEnrollmentRequestId.

(** [$name::LENGTH]. *)
Definition id_length (k : id_kind) : nat :=
  match k with
  | KDeviceId | KConversationId | KPairingRendezvousId | KShortCodePairingLocator
  | KShortCodePairingTranscriptHash | KPairingContextHash | KRoutingId
  | KCredentialBindingHash | KCollaborationPolicyDigest | KEd25519PublicKey
  | KInvitationNonce | KRelayPrincipalId | KRelayEnrollmentAuthorityId => 32
  | KEd25519Signature => 64
  | KPairingRendezvousNonce | KPairingNonce => 12
  | KMessageId | KEnvelopeId | KNotificationId | KAdapterConsumerId | KAdapterLeaseId
  | KInvitationId | KPairingId | KPairingMessageId | KShortCodePairingAttemptId
  | KShortCodeCapabilityTakeId | KRepeatPairingOperationId | KMembershipOperationId
  | KCollaborationPolicyProposalId | KEnrollmentRequestId => 16
  end.

(** The [$field] literal of each invocation. *)
Definition id_field (k : id_kind) : string :=
  match k with
  | KDeviceId => "device_id"
  | KConversationId => "conversation_id"
  | KMessageId => "message_id"
  | KEnvelopeId => "envelope_id"
  | KNotificationId => "notification_id"
  | KAdapterConsumerId => "adapter_consumer_id"
  | KAdapterLeaseId => "adapter_lease_id"
  | KInvitationId => "invitation_id"
  | KPairingId => "pairing_id"
  | KPairingMessageId => "pairing_message_id"
  | KPairingRendezvousId => "pairing_rendezvous_id"
  | KPairingRendezvousNonce => "pairing_rendezvous_nonce"
  | KShortCodePairingAttemptId => "short_code_pairing_attempt_id"
  | KShortCodeCapabilityTakeId => "short_code_capability_take_id"
  | KRepeatPairingOperationId => "repeat_pairing_operation_id"
  | KShortCodePairingLocator => "short_code_pairing_locator"
  | KShortCodePairingTranscriptHash => "short_code_pairing_transcript_hash"
  | KPairingNonce => "pairing_nonce"
  | KPairingContextHash => "pairing_context_hash"
  | KRoutingId => "routing_id"
  | KMembershipOperationId => "membership_operation_id"
  | KCredentialBindingHash => "credential_binding_hash"
  | KCollaborationPolicyDigest => "collaboration_policy_digest"
  | KCollaborationPolicyProposalId => "collaboration_policy_proposal_id"
  | KEd25519PublicKey => "ed25519_public_key"
  | KEd25519Signature => "ed25519_signature"
  | KInvitationNonce => "invitation_nonce"
  | KRelayPrincipalId => "relay_principal_id"
  | KRelayEnrollmentAuthorityId => "relay_enrollment_authority_id"
  | KEnrollmentRequestId => "enrollment_request_id"
  end.

(** One identifier: exactly [id_length k] bytes.  The boolean length proof is
    unique, so identifiers are equal when their bytes are. *)
Record FixedBytes (k : id_kind) := from_bytes {
  as_bytes : bytes;
  bytes_length : (length as_bytes =? id_length k)%nat = true }.
Arguments from_bytes {k} as_bytes bytes_length.
Arguments as_bytes {k} f.
Arguments bytes_length {k} f.

Lemma as_bytes_inj {k} (x y : FixedBytes k) : as_bytes x = as_bytes y → x = y.
Proof.
  destruct x as [xs Hx], y as [ys Hy]. simpl. intros ->. f_equal.
  apply UIP_dec. apply bool_dec.
Qed.

Global Instance FixedBytes_eq_dec k : EqDecision (FixedBytes k).
Proof.
  intros x y. destruct (decide (as_bytes x = as_bytes y)) as [H|H].
  - left. by apply as_bytes_inj.
  - right. congruence.
Defined.

(** [<[u8; N]>::try_from(&[u8])]. *)
Definition fixed_of_slice (k : id_kind) (value : bytes) : option (FixedBytes k) :=
  match bool_dec (length value =? id_length k)%nat true with
  | left H => Some (from_bytes value H)
  | right _ => None
  end.

Lemma fixed_of_slice_as_bytes {k} (x : FixedBytes k) : fixed_of_slice k (as_bytes x) = Some x.
Proof.
  unfold fixed_of_slice. destruct (bool_dec _ _) as [H|H].
  - f_equal. by apply as_bytes_inj.
  - exfalso. apply H, bytes_length.
Qed.

Lemma fixed_of_slice_Some k value x :
  fixed_of_slice k value = Some x → as_bytes x = value.
Proof. unfold fixed_of_slice. destruct (bool_dec _ _); naive_solver. Qed.

Lemma fixed_of_slice_None k value :
  fixed_of_slice k value = None ↔ length value ≠ id_length k.
Proof.
  unfold fixed_of_slice. destruct (bool_dec _ _) as [H|H].
  - pose proof (proj1 (Nat.eqb_eq _ _) H) as E. split; [done|by rewrite E].
  - split; [|done]. intros _ E. apply H. by apply Nat.eqb_eq.
Qed.

Global Instance FixedBytes_countable k : Countable (FixedBytes k) :=
  inj_countable as_bytes (fixed_of_slice k) fixed_of_slice_as_bytes.

Abbreviation DeviceId := (FixedBytes KDeviceId).
Abbreviation ConversationId := (FixedBytes KConversationId).
Abbreviation MessageId := (FixedBytes KMessageId).
Abbreviation EnvelopeId := (FixedBytes KEnvelopeId).
Abbreviation InvitationId := (FixedBytes KInvitationId).
Abbreviation PairingId := (FixedBytes KPairingId).
Abbreviation PairingMessageId := (FixedBytes KPairingMessageId).
Abbreviation PairingRendezvousId := (FixedBytes KPairingRendezvousId).
Abbreviation PairingRendezvousNonce := (FixedBytes KPairingRendezvousNonce).
Abbreviation ShortCodePairingAttemptId := (FixedBytes KShortCodePairingAttemptId).
Abbreviation ShortCodeCapabilityTakeId := (FixedBytes KShortCodeCapabilityTakeId).
Abbreviation RepeatPairingOperationId := (FixedBytes KRepeatPairingOperationId).
Abbreviation ShortCodePairingLocator := (FixedBytes KShortCodePairingLocator).
Abbreviation ShortCodePairingTranscriptHash := (FixedBytes KShortCodePairingTranscriptHash).
Abbreviation PairingNonce := (FixedBytes KPairingNonce).
Abbreviation PairingContextHash := (FixedBytes KPairingContextHash).
Abbreviation RoutingId := (FixedBytes KRoutingId).
Abbreviation MembershipOperationId := (FixedBytes KMembershipOperationId).
Abbreviation CredentialBindingHash := (FixedBytes KCredentialBindingHash).
Abbreviation CollaborationPolicyDigest := (FixedBytes KCollaborationPolicyDigest).
Abbreviation CollaborationPolicyProposalId := (FixedBytes KCollaborationPolicyProposalId).
Abbreviation Ed25519PublicKey := (FixedBytes KEd25519PublicKey).
Abbreviation Ed25519Signature := (FixedBytes KEd25519Signature).
Abbreviation InvitationNonce := (FixedBytes KInvitationNonce).
Abbreviation RelayPrincipalId := (FixedBytes KRelayPrincipalId).
Abbreviation EnrollmentRequestId := (FixedBytes KEnrollmentRequestId).

(** The derived [Ord] of an identifier. *)
Definition id_compare {k} (x y : FixedBytes k) : comparison :=
  bytes_compare (as_bytes x) (as_bytes y).

Global Instance id_compare_total k : TotalCompare (@id_compare k).
Proof.
  split; unfold id_compare.
  - intros x y. rewrite (compare_eq bytes_compare). split; [apply as_bytes_inj|congruence].
  - intros x y. apply (compare_flip bytes_compare).
  - intros x y z. apply (compare_lt_trans bytes_compare).
Qed.

(** The identifier made of one repeated byte, as the source's tests build them. *)
Lemma repeat_id_length (k : id_kind) (b : byte) :
  (length (replicate (id_length k) b) =? id_length k)%nat = true.
Proof. destruct k; reflexivity. Defined.

Definition repeat_id (k : id_kind) (b : byte) : FixedBytes k :=
  from_bytes (replicate (id_length k) b) (repeat_id_length k b).

(** ** Errors *)

(** [request_service.rs]: refusals at the request-service boundary. *)
Inductive RequestServiceError :=
| IdenticalEndpoints | ConversationMismatch | InvalidOperator | InvalidRequester
| ForeignMember | SenderNotMember | OperatorCannotRequest | InvalidTarget
| UnsolicitedText | RequesterCannotReply | MissingRequest | InvalidReply
| UnsupportedOperation | ReplyAlreadyCompleted.

(** [request_delivery.rs]. *)
Inductive RequestDeliveryError :=
| InvalidReceipt | InvalidExpiry | UnknownOutcome | ConflictingOutcome.

(** [error.rs]. *)
Inductive KonclaveDomainError :=
| InvalidLength (field : string) (expected actual : Z)
| InvalidProtocolMajor
| ZeroValue (field : string)
| OutOfRange (field : string) (minimum maximum actual : Z)
| EmptyText (field : string)
| TextTooLong (field : string) (maximum actual : Z)
| NonCanonicalText (field : string)
| DuplicateIdentifier (field : string)
| MismatchedInvitedDevice
| MismatchedInvitedConversation
| RequestServiceInvitationMismatch
| RequestService (source : RequestServiceError)
| RequestDelivery (source : RequestDeliveryError)
| MemberJoinedAfterStateEpoch (joined_epoch state_epoch : Z)
| MissingAdministrator
| MembershipVersionMismatch
| MembershipConversationMismatch
| StaleMembershipEpoch
| InvalidMembershipEpochAdvance
| UnauthorizedMembershipChange
| MemberAlreadyExists
| MemberNotFound
| InvitationAlreadyConsumed
| InvalidExpectedParentEpoch (delivery_class : string)
| InvalidReplayOrder
| InvalidPairingEnvelope (field : string)
| ShortCodePairingExpired
| InvalidShortCodePairingTransition
| TrustedDeviceAliasConflict
| TrustedDeviceRootMismatch
| TrustedDeviceRemoved
| TrustedDeviceRepeatPairingUnsupported.

(** [KonclaveDomainError::code]. *)
Definition code (e : KonclaveDomainError) : string :=
  match e with
  | InvalidLength _ _ _ => "invalid_length"
  | InvalidProtocolMajor => "invalid_protocol_major"
  | ZeroValue _ | OutOfRange _ _ _ _ | TextTooLong _ _ _ => "out_of_range"
  | EmptyText _ => "empty_value"
  | NonCanonicalText _ => "non_canonical_value"
  | DuplicateIdentifier _ => "duplicate_identifier"
  | MismatchedInvitedDevice => "mismatched_invited_device"
  | MismatchedInvitedConversation => "mismatched_invited_conversation"
  | RequestServiceInvitationMismatch => "request_service_invitation_mismatch"
  | RequestService _ => "request_service_rejected"
  | RequestDelivery _ => "request_delivery_rejected"
  | MemberJoinedAfterStateEpoch _ _ => "member_joined_after_state_epoch"
  | MissingAdministrator => "missing_administrator"
  | MembershipVersionMismatch => "membership_version_mismatch"
  | MembershipConversationMismatch => "membership_conversation_mismatch"
  | StaleMembershipEpoch => "stale_membership_epoch"
  | InvalidMembershipEpochAdvance => "invalid_membership_epoch_advance"
  | UnauthorizedMembershipChange => "unauthorized_membership_change"
  | MemberAlreadyExists => "member_already_exists"
  | MemberNotFound => "member_not_found"
  | InvitationAlreadyConsumed => "invitation_already_consumed"
  | InvalidExpectedParentEpoch _ => "invalid_expected_parent_epoch"
  | InvalidReplayOrder => "invalid_replay_order"
  | InvalidPairingEnvelope _ => "invalid_pairing_envelope"
  | ShortCodePairingExpired => "short_code_pairing_expired"
  | InvalidShortCodePairingTransition => "invalid_short_code_pairing_transition"
  | TrustedDeviceAliasConflict => "trusted_device_alias_conflict"
  | TrustedDeviceRootMismatch => "trusted_device_root_mismatch"
  | TrustedDeviceRemoved => "trusted_device_removed"
  | TrustedDeviceRepeatPairingUnsupported => "trusted_device_repeat_pairing_unsupported"
  end.

Global Instance RequestServiceError_eq_dec : EqDecision RequestServiceError.
Proof. solve_decision. Defined.
Global Instance RequestDeliveryError_eq_dec : EqDecision RequestDeliveryError.
Proof. solve_decision. Defined.
Global Instance KonclaveDomainError_eq_dec : EqDecision KonclaveDomainError.
Proof. solve_decision. Defined.

(** [$name::from_slice]. *)
Definition from_slice (k : id_kind) (value : bytes) : result KonclaveDomainError (FixedBytes k) :=
  ok_or (fixed_of_slice k value)
    (InvalidLength (id_field k) (Z.of_nat (id_length k)) (len value)).

Lemma from_slice_as_bytes {k} (x : FixedBytes k) : from_slice k (as_bytes x) = Ok x.
Proof. unfold from_slice. by rewrite fixed_of_slice_as_bytes. Qed.

Lemma from_slice_Ok k value x : from_slice k value = Ok x → as_bytes x = value.
Proof.
  unfold from_slice. intros H. apply ok_or_Ok in H. by apply fixed_of_slice_Some.
Qed.

(** ** Versions, roles and bounds ([model.rs]) *)

Definition APPLICATION_PROTOCOL_MAJOR : Z := 1.
Definition APPLICATION_PROTOCOL_MINOR : Z := 0.
Definition MAX_RELAY_ENVELOPE_BYTES : Z := 1024 * 1024.
Definition MAX_RELAY_PAYLOAD_BYTES : Z := MAX_RELAY_ENVELOPE_BYTES - 1024.
Definition MAX_APPLICATION_MESSAGE_BYTES : Z := 256 * 1024.
Definition MAX_TEXT_BODY_BYTES : Z := MAX_APPLICATION_MESSAGE_BYTES - 1024.
Definition MAX_REPEAT_PAIRING_CAPABILITY_BYTES : Z := 16 * 1024.
Definition MAX_MEMBERS : Z := 128.
Definition MAX_CONSUMED_INVITATIONS : Z := 1024.
Definition MAX_MLS_KEY_PACKAGE_BYTES : Z := 64 * 1024.
Definition MAX_PAIRING_CIPHERTEXT_BYTES : Z := MAX_RELAY_PAYLOAD_BYTES - 1024.
Definition MAX_PAIRING_RELAY_ENDPOINT_BYTES : Z := 2 * 1024.
Definition MAX_PAIRING_WELCOME_BYTES : Z := MAX_RELAY_PAYLOAD_BYTES - 1024.
Definition MIN_PAIRING_CIPHERTEXT_BYTES : Z := 16.
Definition MAX_REPLAY_PAGE_SIZE : Z := 100.
Definition MAX_REPLAY_PAGE_BYTES : Z := 16 * 1024 * 1024.
Definition MAX_RELAY_CONTROL_MESSAGE_BYTES : Z := 1024.

Record ProtocolVersion := mk_ProtocolVersion { major : Z; minor : Z }.
Global Instance ProtocolVersion_eq_dec : EqDecision ProtocolVersion.
Proof. solve_decision. Defined.

(** [ProtocolVersion::new]. *)
Definition ProtocolVersion_new (major minor : Z) : result KonclaveDomainError ProtocolVersion :=
  fail_if (major =? 0) InvalidProtocolMajor;;
  Ok (mk_ProtocolVersion major minor).

Definition application_v1 : ProtocolVersion :=
  mk_ProtocolVersion APPLICATION_PROTOCOL_MAJOR APPLICATION_PROTOCOL_MINOR.

Inductive ConversationRole := Administrator | Member_role.
Global Instance ConversationRole_eq_dec : EqDecision ConversationRole.
Proof. solve_decision. Defined.

Inductive SignatureScheme := Ed25519.

(** ** Shared validation helpers at the end of [model.rs] *)

Definition require_positive (value : Z) (field : string) : result KonclaveDomainError unit :=
  fail_if (value =? 0) (ZeroValue field).

Definition require_length_range (actual minimum maximum : Z) (field : string)
    : result KonclaveDomainError unit :=
  fail_if (negb ((minimum <=? actual) && (actual <=? maximum)))
    (OutOfRange field minimum maximum actual).

(** [require_unique]: every value is inserted in a [BTreeSet]; the first one that
    is already there is refused. *)
Definition require_unique {T} `{EqDecision T} (values : list T) (field : string)
    : result KonclaveDomainError unit :=
  fail_if (negb (all_unique values)) (DuplicateIdentifier field).

Lemma require_positive_Ok value field u : require_positive value field = Ok u ↔ value ≠ 0.
Proof. unfold require_positive. rewrite fail_if_Ok. lia. Qed.

Lemma require_length_range_Ok actual minimum maximum field u :
  require_length_range actual minimum maximum field = Ok u ↔ minimum <= actual <= maximum.
Proof. unfold require_length_range. rewrite fail_if_Ok. lia. Qed.

Lemma require_unique_Ok {T} `{EqDecision T} (values : list T) field u :
  require_unique values field = Ok u ↔ NoDup values.
Proof.
  unfold require_unique. rewrite fail_if_Ok, negb_false_iff. apply all_unique_spec.
Qed.

(** ** Hashing *)

(** [sha2::Sha256]: a digest is 32 bytes. *)
Class Sha256 := {
  sha256 : bytes -> bytes;
  sha256_length : ∀ b, length (sha256 b) = 32%nat }.
