(* ===== verification/LocalFraming.v ===== *)
(** * Frames of the local channels

    [Konclave.LocalFraming]: a payload is preceded by its length in four bytes.  A stream
    is the bytes it still delivers before it ends; reading takes bytes from its front. *)

From S2P Require Import Prelude.
Open Scope Z_scope.

Definition FRAME_HEADER_LENGTH : nat := 4.

Inductive FrameError := FrameTooLarge | FrameMalformed | FrameClosed.

Definition decode_frame_length (header : bytes) (limit : Z) : result FrameError Z :=
  let declared := be_value header in
  fail_if (declared =? 0) FrameMalformed;;
  fail_if (limit <? declared) FrameTooLarge;;
  Ok declared.

Definition encode_frame (payload : bytes) (limit : Z) : result FrameError bytes :=
  fail_if (len payload =? 0) FrameMalformed;;
  fail_if (limit <? len payload) FrameTooLarge;;
  fail_if (U32_MAX <? len payload) FrameTooLarge;;
  Ok (be_bytes FRAME_HEADER_LENGTH (len payload) ++ payload).

(** [AsyncReadExt::read_exact]: an early end of the stream is an error, and what was there
    is consumed. *)
Definition read_exact (n : nat) (stream : bytes) : result FrameError bytes * bytes :=
  if (n <=? length stream)%nat then (Ok (take n stream), drop n stream) else (Err FrameClosed, []).

Definition read_frame (stream : bytes) (limit : Z) : result FrameError bytes * bytes :=
  match read_exact FRAME_HEADER_LENGTH stream with
  | (Err e, stream) => (Err e, stream)
  | (Ok header, stream) =>
      match decode_frame_length header limit with
      | Err e => (Err e, stream)
      | Ok length => read_exact (Z.to_nat length) stream
      end
  end.

(** Writing to a stream that takes [None] (its peer has stopped) or all bytes. *)
Definition write_frame (stream : option bytes) (payload : bytes) (limit : Z)
    : result FrameError unit * option bytes :=
  match encode_frame payload limit with
  | Err e => (Err e, stream)
  | Ok frame =>
      match stream with
      | None => (Err FrameClosed, None)
      | Some sent => (Ok tt, Some (sent ++ frame))
      end
  end.

(** A writer of several payloads and the reader of as many frames. *)
Fixpoint write_frames (stream : option bytes) (payloads : list bytes) (limit : Z)
    : result FrameError unit * option bytes :=
  match payloads with
  | [] => (Ok tt, stream)
  | payload :: rest =>
      match write_frame stream payload limit with
      | (Err e, stream) => (Err e, stream)
      | (Ok _, stream) => write_frames stream rest limit
      end
  end.

Fixpoint read_frames (n : nat) (stream : bytes) (limit : Z) : result FrameError (list bytes) * bytes :=
  match n with
  | O => (Ok [], stream)
  | S n =>
      match read_frame stream limit with
      | (Err e, stream) => (Err e, stream)
      | (Ok payload, stream) =>
          match read_frames n stream limit with
          | (Err e, stream) => (Err e, stream)
          | (Ok rest, stream) => (Ok (payload :: rest), stream)
          end
      end
  end.

(** ** One frame *)

Lemma encode_frame_Ok payload limit frame :
  encode_frame payload limit = Ok frame ↔
  frame = be_bytes FRAME_HEADER_LENGTH (len payload) ++ payload
  ∧ 0 < len payload <= limit ∧ len payload <= U32_MAX.
Proof.
  unfold encode_frame. rewrite !bind_Ok. pose proof (len_nonneg payload). split.
  - intros ([] & H1%fail_if_Ok & H2). apply bind_Ok in H2 as ([] & H2%fail_if_Ok & H3).
    apply bind_Ok in H3 as ([] & H3%fail_if_Ok & [= <-]). split; [done|]. lia.
  - intros (-> & Hlimit & Hmax). exists tt. rewrite fail_if_Ok. split; [lia|].
    rewrite (proj2 (Z.ltb_ge limit (len payload))) by lia.
    by rewrite (proj2 (Z.ltb_ge U32_MAX (len payload))) by lia.
Qed.

Lemma read_exact_app n x rest : length x = n → read_exact n (x ++ rest) = (Ok x, rest).
Proof.
  intros <-. unfold read_exact. rewrite length_app, (proj2 (Nat.leb_le _ _)) by lia.
  by rewrite take_app_length, drop_app_length.
Qed.

Lemma decode_frame_length_own (payload : bytes) limit :
  0 < len payload <= limit → len payload <= U32_MAX →
  decode_frame_length (be_bytes FRAME_HEADER_LENGTH (len payload)) limit = Ok (len payload).
Proof.
  intros Hl Hmax. unfold decode_frame_length.
  rewrite be_value_bytes by (unfold U32_MAX in Hmax; change (256 ^ Z.of_nat FRAME_HEADER_LENGTH) with 4294967296; lia).
  cbv zeta.
  rewrite (proj2 (Z.eqb_neq _ _)) by lia. cbn [fail_if mbind result_bind].
  by rewrite (proj2 (Z.ltb_ge _ _)) by lia.
Qed.

Lemma read_frame_own payload limit frame rest :
  encode_frame payload limit = Ok frame → read_frame (frame ++ rest) limit = (Ok payload, rest).
Proof.
  intros (-> & Hl & Hmax)%encode_frame_Ok. unfold read_frame. rewrite <- (assoc_L (++)).
  rewrite read_exact_app by apply be_bytes_length. rewrite decode_frame_length_own by done.
  apply read_exact_app. unfold len. lia.
Qed.

Lemma read_frame_truncated payload limit frame k :
  encode_frame payload limit = Ok frame → (k < length frame)%nat →
  read_frame (take k frame) limit = (Err FrameClosed, []).
Proof.
  intros (-> & Hl & Hmax)%encode_frame_Ok Hk. rewrite length_app, be_bytes_length in Hk.
  unfold read_frame, read_exact at 1. rewrite length_take, length_app, be_bytes_length.
  destruct (Nat.leb_spec FRAME_HEADER_LENGTH (k `min` (FRAME_HEADER_LENGTH + length payload))) as [H|H]; [|done].
  rewrite take_app_ge by (rewrite be_bytes_length; lia). rewrite be_bytes_length.
  rewrite take_app_length', drop_app_length' by (symmetry; apply be_bytes_length).
  rewrite decode_frame_length_own by done. unfold read_exact. rewrite length_take, (proj2 (Nat.leb_gt _ _)); [done|].
  unfold len. lia.
Qed.

(** ** Streams of frames *)

Lemma write_frames_Ok payloads : ∀ sent limit stream,
  write_frames (Some sent) payloads limit = (Ok tt, stream) →
  ∃ frames, stream = Some (sent ++ mjoin frames)
    ∧ Forall2 (fun payload frame => encode_frame payload limit = Ok frame) payloads frames.
Proof.
  induction payloads as [|p payloads IH]; intros sent limit stream E; simpl in E.
  - injection E as <-. exists []. by rewrite app_nil_r.
  - unfold write_frame in E. destruct (encode_frame p limit) as [frame|e] eqn:Hf; [|done].
    destruct (IH _ _ _ E) as (frames & -> & Hall). exists (frame :: frames). simpl.
    rewrite (assoc_L (++)). split; [done|by constructor].
Qed.

(** What a writer puts on a local channel is what the reader takes from it: after any
    payloads were written, reading as many frames gives the payloads in order and
    leaves exactly the bytes that follow them; and if the channel ends inside the last
    frame, the reader reports a closed channel and nothing of that frame. *)
Theorem frames_roundtrip payloads sent limit stream rest :
  write_frames (Some sent) payloads limit = (Ok tt, stream) →
  ∃ written, stream = Some (sent ++ written)
    ∧ read_frames (length payloads) (written ++ rest) limit = (Ok payloads, rest)
    ∧ ∀ payload frame k, encode_frame payload limit = Ok frame → (k < length frame)%nat →
        read_frames (S (length payloads)) (written ++ take k frame) limit = (Err FrameClosed, []).
Proof.
  intros (frames & -> & Hall)%write_frames_Ok. exists (mjoin frames). split; [done|].
  assert (∀ n tail, read_frames (length payloads + n) (mjoin frames ++ tail) limit
    = match read_frames n tail limit with
      | (Ok more, stream) => (Ok (payloads ++ more), stream)
      | (Err e, stream) => (Err e, stream)
      end) as Hread.
  { clear rest. intros n tail. induction Hall as [|p frame payloads frames Hp _ IH]; simpl.
    - by destruct (read_frames n tail limit) as [[]].
    - rewrite <- (assoc_L (++)), (read_frame_own _ _ _ _ Hp), IH.
      by destruct (read_frames n tail limit) as [[]]. }
  split.
  - rewrite <- (Nat.add_0_r (length payloads)), Hread. simpl. by rewrite app_nil_r.
  - intros payload frame k Hf Hk. rewrite <- Nat.add_1_r, Hread. simpl.
    by rewrite (read_frame_truncated _ _ _ _ Hf Hk).
Qed.

Lemma frames_roundtrip_witness :
  ∃ written, Some (lit "old" ++ [x00; x00; x00; x02] ++ lit "hi" ++ [x00; x00; x00; x01] ++ lit "!")
      = Some (lit "old" ++ written)
    ∧ read_frames 2 (written ++ lit "next") 64 = (Ok [lit "hi"; lit "!"], lit "next").
Proof.
  destruct (frames_roundtrip [lit "hi"; lit "!"] (lit "old") 64
              (Some (lit "old" ++ [x00; x00; x00; x02] ++ lit "hi" ++ [x00; x00; x00; x01] ++ lit "!"))
              (lit "next")) as (written & Hw & Hr & _); [vm_compute; reflexivity|].
  exists written. split; [exact Hw|exact Hr].
Defined.
