(* ===== verification/SecretStorage.v ===== *)
(** * Sealed records

    [Konclave.SecretStorage]: [sealed_blob.rs] and the part of [authenticated_cipher.rs]
    it uses.  A sealed record is a clear header followed by AES-256-GCM ciphertext, whose
    associated data binds the header and the context of the record.  The cipher under the
    wrapping key is the class [Aead]; the nonce a call draws from the system's random
    source is an argument, [None] when the source fails. *)

From S2P Require Import Prelude Identifiers.
Open Scope Z_scope.

Definition SEAL_MAGIC : bytes := lit "KSC1".
Definition SEAL_FORMAT_VERSION : byte := x01.
Definition ALGORITHM_AES_256_GCM : byte := x01.
Definition KEY_SLOT : Z := 1.
Definition NONCE_BYTES : Z := 12.
Definition TAG_BYTES : Z := 16.
Definition HEADER_BYTES : Z := 4 + 1 + 1 + 4 + NONCE_BYTES.
Definition AAD_DOMAIN : bytes := lit "konclave-sealed-secret-aad-v1" ++ [x00].
Definition CONTEXT_DERIVATION_DOMAIN : bytes := lit "konclave-secret-record-context-v1" ++ [x00].
Definition MAX_RECORD_IDENTIFIER_BYTES : Z := 128.
Definition MAX_CONTEXT_COMPONENTS : Z := 8.
Definition MAX_SECRET_PLAINTEXT_BYTES : Z := 16 * 1024 * 1024.
Definition MAX_SEALED_BLOB_BYTES : Z := HEADER_BYTES + MAX_SECRET_PLAINTEXT_BYTES + TAG_BYTES.

Inductive SecretStorageError :=
| InvalidRecordIdentifier (maximum : Z)
| PlaintextTooLarge (maximum actual : Z)
| SealedBlobTooLarge (maximum actual : Z)
| InvalidSealedBlob
| AuthenticationFailed
| RandomGenerationFailed.

Inductive SecretRecordKind :=
| KindDeviceRootIdentity | KindMlsKeyPackage | KindMlsGroupState | KindMlsPriorEpoch
| KindConversationSigningMaterial | KindRelayAccessCredential | KindConversationPolicyState
| KindConversationCredentialBinding | KindLocalApplicationMessage | KindLocalOperation
| KindRemoteEvent | KindRemoteEventDeliveryState | KindRemoteEventJournalHead
| KindRemoteEventDeliveryPolicy | KindPairingOperation | KindRelayEnrollmentIntent
| KindLocalServiceRequestOutcome | KindCollaborationPolicyBundle | KindCollaborationPolicyBinding
| KindCollaborationPolicyExchangeRecord | KindCollaborationPolicyExchangeState
| KindCollaborationPolicyOperation | KindCollaborationPolicyOperationState
| KindDirectedRequestHandling | KindDirectedRequestHandlingState | KindShortCodePairingOperation
| KindTrustedDeviceBinding | KindTrustedDeviceBindingState | KindRepeatPairingOperation
| KindRepeatPairingOperationState.

(** [kind as u8]. *)
Definition kind_code (kind : SecretRecordKind) : byte :=
  match kind with
  | KindDeviceRootIdentity => x01 | KindMlsKeyPackage => x02 | KindMlsGroupState => x03
  | KindMlsPriorEpoch => x04 | KindConversationSigningMaterial => x05
  | KindRelayAccessCredential => x06 | KindConversationPolicyState => x07
  | KindConversationCredentialBinding => x08 | KindLocalApplicationMessage => x09
  | KindLocalOperation => x0a | KindRemoteEvent => x0b | KindRemoteEventDeliveryState => x0c
  | KindRemoteEventJournalHead => x0d | KindRemoteEventDeliveryPolicy => x0e
  | KindPairingOperation => x0f | KindRelayEnrollmentIntent => x10
  | KindLocalServiceRequestOutcome => x11 | KindCollaborationPolicyBundle => x12
  | KindCollaborationPolicyBinding => x13 | KindCollaborationPolicyExchangeRecord => x14
  | KindCollaborationPolicyExchangeState => x15 | KindCollaborationPolicyOperation => x16
  | KindCollaborationPolicyOperationState => x17 | KindDirectedRequestHandling => x18
  | KindDirectedRequestHandlingState => x19 | KindShortCodePairingOperation => x1a
  | KindTrustedDeviceBinding => x1b | KindTrustedDeviceBindingState => x1c
  | KindRepeatPairingOperation => x1d | KindRepeatPairingOperationState => x1e
  end.

Record SecretRecordContext := mk_SecretRecordContext {
  context_kind : SecretRecordKind;
  context_identifier : bytes }.

(** [aws_lc_rs::aead] with AES-256-GCM under one key. *)
Class Aead := {
  aead_seal : bytes -> bytes -> bytes -> option bytes;
  aead_open : bytes -> bytes -> bytes -> option bytes }.

(** Plaintexts within the bound of the source are sealed, the tag is appended to a ciphertext
    as long as the plaintext, and what was sealed opens under the same nonce and associated
    data. *)
Record aead_laws `{Aead} : Prop := {
  law_aead_seals : ∀ nonce aad plaintext, len nonce = NONCE_BYTES →
    len plaintext <= MAX_SECRET_PLAINTEXT_BYTES → is_Some (aead_seal nonce aad plaintext);
  law_aead_length : ∀ nonce aad plaintext ciphertext,
    aead_seal nonce aad plaintext = Some ciphertext → len ciphertext = len plaintext + TAG_BYTES;
  law_aead_open : ∀ nonce aad plaintext ciphertext,
    aead_seal nonce aad plaintext = Some ciphertext → aead_open nonce aad ciphertext = Some plaintext }.

(** ** Contexts *)

Definition SecretRecordContext_new (kind : SecretRecordKind) (identifier : bytes)
    : result SecretStorageError SecretRecordContext :=
  fail_if ((len identifier =? 0) || (MAX_RECORD_IDENTIFIER_BYTES <? len identifier))
    (InvalidRecordIdentifier MAX_RECORD_IDENTIFIER_BYTES);;
  Ok (mk_SecretRecordContext kind identifier).

(** The loop of [derive]: what it feeds to the hash after the running total. *)
Fixpoint derive_components (total : Z) (components : list bytes) : result SecretStorageError bytes :=
  match components with
  | [] => Ok []
  | component :: rest =>
      total ← ok_or (checked_add USIZE_MAX total (len component))
                (InvalidRecordIdentifier MAX_RECORD_IDENTIFIER_BYTES);
      fail_if (MAX_SECRET_PLAINTEXT_BYTES <? total) (InvalidRecordIdentifier MAX_RECORD_IDENTIFIER_BYTES);;
      rest ← derive_components total rest;
      Ok (be_bytes 8 (len component) ++ component ++ rest)
  end.

Definition derive `{Sha256} (kind : SecretRecordKind) (components : list bytes)
    : result SecretStorageError SecretRecordContext :=
  fail_if ((len components =? 0) || (MAX_CONTEXT_COMPONENTS <? len components)
           || existsb (fun component => len component =? 0) components)
    (InvalidRecordIdentifier MAX_RECORD_IDENTIFIER_BYTES);;
  fail_if (255 <? len components) (InvalidRecordIdentifier MAX_RECORD_IDENTIFIER_BYTES);;
  encoded ← derive_components 0 components;
  SecretRecordContext_new kind
    (sha256 (CONTEXT_DERIVATION_DOMAIN ++ [kind_code kind; u8 (len components)] ++ encoded)).

(** ** Sealing *)

Definition header (nonce : bytes) : bytes :=
  SEAL_MAGIC ++ [SEAL_FORMAT_VERSION; ALGORITHM_AES_256_GCM] ++ be_bytes 4 KEY_SLOT ++ nonce.

Definition validate_header (blob : bytes) : result SecretStorageError bytes :=
  fail_if (MAX_SEALED_BLOB_BYTES <? len blob) (SealedBlobTooLarge MAX_SEALED_BLOB_BYTES (len blob));;
  fail_if ((len blob <? HEADER_BYTES + TAG_BYTES)
           || bool_decide (take 4 blob ≠ SEAL_MAGIC)
           || bool_decide (blob !! 4%nat ≠ Some SEAL_FORMAT_VERSION)
           || bool_decide (blob !! 5%nat ≠ Some ALGORITHM_AES_256_GCM)
           || bool_decide (take 4 (drop 6 blob) ≠ be_bytes 4 KEY_SLOT)) InvalidSealedBlob;;
  Ok (take (Z.to_nat HEADER_BYTES) blob).

Definition associated_data (context : SecretRecordContext) (header : bytes) : bytes :=
  AAD_DOMAIN ++ header ++ [kind_code (context_kind context)]
    ++ be_bytes 2 (len (context_identifier context)) ++ context_identifier context.

Definition validate_ciphertext_length (actual maximum_plaintext_bytes : Z)
    : result SecretStorageError unit :=
  maximum ← ok_or (checked_add USIZE_MAX maximum_plaintext_bytes TAG_BYTES)
              (SealedBlobTooLarge maximum_plaintext_bytes actual);
  fail_if ((actual <? TAG_BYTES) || (maximum <? actual)) (SealedBlobTooLarge maximum actual).

(** [SealedBlob::from_bytes]. *)
Definition SealedBlob_from_bytes (blob : bytes) : result SecretStorageError bytes :=
  validate_header blob;; Ok blob.

Section sealing.
Context `{Aead}.

Definition seal (random : option bytes) (context : SecretRecordContext) (plaintext : bytes)
    : result SecretStorageError bytes :=
  fail_if (MAX_SECRET_PLAINTEXT_BYTES <? len plaintext)
    (PlaintextTooLarge MAX_SECRET_PLAINTEXT_BYTES (len plaintext));;
  nonce ← ok_or random RandomGenerationFailed;
  ciphertext ← ok_or (aead_seal nonce (associated_data context (header nonce)) plaintext)
                 AuthenticationFailed;
  validate_ciphertext_length (len ciphertext) MAX_SECRET_PLAINTEXT_BYTES;;
  SealedBlob_from_bytes (header nonce ++ ciphertext).

Definition open (context : SecretRecordContext) (blob : bytes) : result SecretStorageError bytes :=
  header ← validate_header blob;
  let nonce := drop 10 header in
  let ciphertext := drop (Z.to_nat HEADER_BYTES) blob in
  validate_ciphertext_length (len ciphertext) MAX_SECRET_PLAINTEXT_BYTES;;
  ok_or (aead_open nonce (associated_data context header) ciphertext) AuthenticationFailed.

End sealing.

(** ** Sealed records open *)

Lemma header_length nonce : len nonce = NONCE_BYTES → length (header nonce) = Z.to_nat HEADER_BYTES.
Proof. unfold len, HEADER_BYTES, NONCE_BYTES. intros H. unfold header. rewrite !length_app, be_bytes_length. simpl. lia. Qed.

Lemma validate_header_built nonce rest :
  len nonce = NONCE_BYTES → TAG_BYTES <= len rest → len (header nonce ++ rest) <= MAX_SEALED_BLOB_BYTES →
  validate_header (header nonce ++ rest) = Ok (header nonce).
Proof.
  intros Hn Hrest Hmax. pose proof (header_length nonce Hn) as Hh. unfold validate_header.
  destruct (Z.ltb_spec MAX_SEALED_BLOB_BYTES (len (header nonce ++ rest))); [lia|]. cbn [fail_if mbind result_bind].
  assert ((len (header nonce ++ rest) <? HEADER_BYTES + TAG_BYTES) = false) as ->.
  { apply Z.ltb_ge. unfold len in *. rewrite length_app, Hh. unfold HEADER_BYTES, NONCE_BYTES. lia. }
  rewrite <- Hh, take_app_length. done.
Qed.

Section roundtrip.
Context `{Aead} (laws : aead_laws).

Lemma seal_Ok random context plaintext blob :
  (∀ nonce, random = Some nonce → len nonce = NONCE_BYTES) → seal random context plaintext = Ok blob →
  ∃ nonce ciphertext, random = Some nonce ∧ blob = header nonce ++ ciphertext
    ∧ aead_seal nonce (associated_data context (header nonce)) plaintext = Some ciphertext
    ∧ len plaintext <= MAX_SECRET_PLAINTEXT_BYTES
    ∧ len ciphertext = len plaintext + TAG_BYTES.
Proof.
  intros Hrandom E. unfold seal in E. apply bind_Ok in E as ([] & Hp & E). apply fail_if_Ok, Z.ltb_ge in Hp.
  apply bind_Ok in E as (nonce & Hn%ok_or_Ok & E). apply bind_Ok in E as (c & Hc%ok_or_Ok & E).
  apply bind_Ok in E as ([] & _ & E). apply bind_Ok in E as (h & _ & [= <-]).
  exists nonce, c. split_and!; try done. by eapply law_aead_length.
Qed.

Lemma seal_succeeds nonce context plaintext :
  len nonce = NONCE_BYTES → len plaintext <= MAX_SECRET_PLAINTEXT_BYTES →
  ∃ blob, seal (Some nonce) context plaintext = Ok blob.
Proof.
  intros Hn Hp. destruct (law_aead_seals laws nonce (associated_data context (header nonce)) plaintext Hn Hp) as [c Hc].
  pose proof (law_aead_length laws _ _ _ _ Hc) as Hl. pose proof (header_length nonce Hn) as Hh.
  pose proof (len_nonneg plaintext). exists (header nonce ++ c). unfold seal.
  rewrite (proj2 (Z.ltb_ge _ _)) by done. cbn [fail_if ok_or mbind result_bind]. rewrite Hc.
  cbn [ok_or mbind result_bind]. unfold validate_ciphertext_length. rewrite checked_add_fits by (vm_compute; done).
  cbn [ok_or mbind result_bind]. rewrite (proj2 (orb_false_iff _ _)) by (split; apply Z.ltb_ge; unfold len in *; lia).
  cbn [fail_if mbind result_bind]. unfold SealedBlob_from_bytes. rewrite validate_header_built; [done|done| |].
  - lia.
  - unfold MAX_SEALED_BLOB_BYTES, len in *. rewrite length_app, Hh, Nat2Z.inj_add, Z2Nat.id by done. lia.
Qed.

(** A sealed record opens, under the context it was sealed for, to exactly the
    plaintext; it is 38 bytes longer than the plaintext, and its framing is accepted. *)
Lemma sealed_record_roundtrip random context plaintext blob :
  (∀ nonce, random = Some nonce → len nonce = NONCE_BYTES) →
  seal random context plaintext = Ok blob →
  open context blob = Ok plaintext ∧ len blob = len plaintext + 38
  ∧ SealedBlob_from_bytes blob = Ok blob.
Proof.
  intros Hrandom E.
  destruct (seal_Ok _ _ _ _ Hrandom E) as (nonce & c & Hn & -> & Hc & Hp & Hl). specialize (Hrandom nonce Hn).
  pose proof (header_length nonce Hrandom) as Hh.
  assert (validate_header (header nonce ++ c) = Ok (header nonce)) as Hv.
  { apply validate_header_built; [done|unfold len in *; lia|].
    unfold MAX_SEALED_BLOB_BYTES, len in *. rewrite length_app, Hh, Nat2Z.inj_add, Z2Nat.id by done. lia. }
  unfold open, SealedBlob_from_bytes. rewrite Hv. cbn [mbind result_bind]. split_and!; [| |done].
  - cbv zeta. rewrite <- Hh, drop_app_length.
    assert (drop 10 (header nonce) = nonce) as -> by done.
    assert (validate_ciphertext_length (len c) MAX_SECRET_PLAINTEXT_BYTES = Ok ()) as ->.
    { unfold validate_ciphertext_length. rewrite checked_add_fits by (vm_compute; done).
      cbn [ok_or mbind result_bind]. apply fail_if_Ok, orb_false_iff.
      split; apply Z.ltb_ge; unfold len in *; lia. }
    cbn [mbind result_bind]. by rewrite (law_aead_open laws _ _ _ _ Hc).
  - unfold len in *. rewrite length_app, Hh, Nat2Z.inj_add, Hl. unfold TAG_BYTES, HEADER_BYTES, NONCE_BYTES. lia.
Qed.

End roundtrip.

(** ** Contexts are bound *)

Lemma kind_code_inj k k' : kind_code k = kind_code k' → k = k'.
Proof. destruct k, k'; simpl; done. Qed.

(** The bytes [derive] hashes. *)
Definition context_preimage (kind : SecretRecordKind) (components : list bytes) : bytes :=
  CONTEXT_DERIVATION_DOMAIN ++ [kind_code kind; u8 (len components)]
    ++ mjoin ((fun c => be_bytes 8 (len c) ++ c) <$> components).

Lemma derive_components_Ok components : ∀ total encoded,
  derive_components total components = Ok encoded →
  encoded = mjoin ((fun c => be_bytes 8 (len c) ++ c) <$> components)
  ∧ (0 <= total → Forall (fun c => len c <= MAX_SECRET_PLAINTEXT_BYTES) components).
Proof.
  induction components as [|c components IH]; intros total encoded E; simpl in E; [by injection E as <-|].
  apply bind_Ok in E as (total' & Ht%ok_or_Ok & E). apply checked_add_Some in Ht as [_ ->].
  apply bind_Ok in E as ([] & Hm & E). apply fail_if_Ok, Z.ltb_ge in Hm.
  apply bind_Ok in E as (rest & Hrest & [= <-]). destruct (IH _ _ Hrest) as [-> Hall]. simpl.
  split; [done|]. intros H0. pose proof (len_nonneg c).
  constructor; [lia|]. apply Hall. lia.
Qed.

Lemma components_inj (l l' : list bytes) : 
  Forall (fun c => len c <= MAX_SECRET_PLAINTEXT_BYTES) l →
  Forall (fun c => len c <= MAX_SECRET_PLAINTEXT_BYTES) l' → length l = length l' →
  mjoin ((fun c => be_bytes 8 (len c) ++ c) <$> l) = mjoin ((fun c => be_bytes 8 (len c) ++ c) <$> l') → l = l'.
Proof.
  revert l'. induction l as [|c l IH]; intros [|c' l'] Hl Hl' Hlen E; try done.
  rewrite !fmap_cons in E. cbn [mjoin list_join] in E. simpl in Hlen.
  apply Forall_cons in Hl as [Hc Hl]. apply Forall_cons in Hl' as [Hc' Hl'].
  rewrite <- !(assoc_L (++)) in E. unfold MAX_SECRET_PLAINTEXT_BYTES in *.
  apply prefixed_inj in E as [-> E]; [|change (256 ^ Z.of_nat 8) with 18446744073709551616; lia..].
  f_equal. apply IH; [done..|lia|done].
Qed.

Section contexts.
Context `{Sha256}.

Lemma derive_Ok kind components context :
  derive kind components = Ok context →
  context = mk_SecretRecordContext kind (sha256 (context_preimage kind components))
  ∧ Forall (fun c => len c <= MAX_SECRET_PLAINTEXT_BYTES) components ∧ len components <= MAX_CONTEXT_COMPONENTS.
Proof.
  intros E. unfold derive in E. apply bind_Ok in E as ([] & Hc & E). apply bind_Ok in E as ([] & _ & E).
  apply bind_Ok in E as (encoded & He & E). destruct (derive_components_Ok _ _ _ He) as [-> Hall].
  apply bind_Ok in E as ([] & _ & [= <-]). apply fail_if_Ok in Hc. rewrite !orb_false_iff in Hc.
  destruct Hc as [[_ Hc] _]. apply Z.ltb_ge in Hc. split_and!; [done|by apply Hall|done].
Qed.

(** The associated data of a sealed record binds its header, its kind and every
    component of its context: two records whose associated data agree were sealed for the
    same kind and the same list of components, unless SHA-256 collides on their contexts. *)
Lemma record_context_binds kind components context header kind' components' context' header' :
  derive kind components = Ok context → derive kind' components' = Ok context' →
  len header = HEADER_BYTES → len header' = HEADER_BYTES →
  (sha256 (context_preimage kind components) = sha256 (context_preimage kind' components') →
   context_preimage kind components = context_preimage kind' components') →
  associated_data context header = associated_data context' header' →
  header = header' ∧ kind = kind' ∧ components = components'.
Proof.
  intros Hd Hd' Hh Hh' Hfree E. destruct (derive_Ok _ _ _ Hd) as (-> & Hall & Hmax).
  destruct (derive_Ok _ _ _ Hd') as (-> & Hall' & Hmax'). unfold associated_data in E.
  cbn [context_kind context_identifier] in E.
  apply app_inv_head in E. apply app_inj_1 in E as [-> E]; [|unfold len in *; lia].
  injection E as Hk _ _ E.
  split; [done|]. apply Hfree in E. unfold context_preimage in E. apply app_inv_head in E.
  injection E as _ Hcount E. split; [by apply kind_code_inj|]. apply components_inj; try done.
  apply (f_equal byte_value) in Hcount. unfold MAX_CONTEXT_COMPONENTS in *.
  rewrite !byte_value_u8 in Hcount by (pose proof (len_nonneg components); pose proof (len_nonneg components'); lia).
  unfold len in Hcount. lia.
Qed.

End contexts.
