(* ===== verification/TrustedDevices.v ===== *)
(** * Trusted devices

    [Konclave.DomainCore: trusted_devices.rs]: local aliases for device roots, the status
    of a stored alias against the current memberships, and the decision on an alias
    command. *)

From Stdlib Require Import Eqdep_dec.
From S2P Require Import Prelude Identifiers.
Open Scope Z_scope.

Definition MAX_TRUSTED_DEVICE_ALIAS_BYTES : Z := 32.

(** ** Data *)

Definition check_alias (value : text) : result KonclaveDomainError unit :=
  fail_if ((len value =? 0) || (MAX_TRUSTED_DEVICE_ALIAS_BYTES <? len value))
    (OutOfRange "trusted_device_alias" 1 MAX_TRUSTED_DEVICE_ALIAS_BYTES (len value));;
  fail_if (negb (forallb (fun b => is_ascii_lowercase b || is_ascii_digit b || bool_decide (b = "-"%byte)) value)
           || bool_decide (head value = Some "-"%byte) || bool_decide (last value = Some "-"%byte))
    (NonCanonicalText "trusted_device_alias").

(** The alias carries that its text was accepted; the boolean proof is unique. *)
Record TrustedDeviceAlias := mk_TrustedDeviceAlias {
  alias_str : text;
  alias_valid : is_ok (check_alias alias_str) = true }.

Definition TrustedDeviceAlias_parse (value : text) : result KonclaveDomainError TrustedDeviceAlias :=
  match bool_dec (is_ok (check_alias value)) true, check_alias value with
  | left H, _ => Ok (mk_TrustedDeviceAlias value H)
  | right _, Err e => Err e
  | right _, Ok _ => Err (NonCanonicalText "trusted_device_alias")
  end.

Lemma alias_str_inj x y : alias_str x = alias_str y → x = y.
Proof. destruct x as [xs Hx], y as [ys Hy]. simpl. intros ->. f_equal. apply UIP_dec. apply bool_dec. Qed.

Global Instance TrustedDeviceAlias_eq_dec : EqDecision TrustedDeviceAlias.
Proof.
  intros x y. destruct (decide (alias_str x = alias_str y)) as [H|H].
  - left. by apply alias_str_inj.
  - right. congruence.
Defined.

Lemma TrustedDeviceAlias_parse_str x : TrustedDeviceAlias_parse (alias_str x) = Ok x.
Proof.
  unfold TrustedDeviceAlias_parse. destruct (bool_dec _ _) as [H|H]; [f_equal; by apply alias_str_inj|].
  exfalso. apply H, alias_valid.
Qed.

Lemma alias_str_length x : 0 < len (alias_str x) <= MAX_TRUSTED_DEVICE_ALIAS_BYTES.
Proof.
  pose proof (alias_valid x) as H. unfold check_alias in H. pose proof (len_nonneg (alias_str x)).
  destruct ((len (alias_str x) =? 0) || (MAX_TRUSTED_DEVICE_ALIAS_BYTES <? len (alias_str x))) eqn:E; [done|].
  apply orb_false_iff in E. lia.
Qed.

Record TrustedDeviceBinding := mk_TrustedDeviceBinding {
  binding_alias : TrustedDeviceAlias;
  binding_device_id : DeviceId;
  binding_root : Ed25519PublicKey }.

Global Instance TrustedDeviceBinding_eq_dec : EqDecision TrustedDeviceBinding.
Proof. solve_decision. Defined.

Record TrustedDeviceEvidence := mk_TrustedDeviceEvidence {
  evidence_conversation_id : ConversationId;
  evidence_device_id : DeviceId;
  evidence_root : Ed25519PublicKey;
  evidence_supports_repeat_pairing : bool }.

Inductive TrustedDeviceBindingStatus := BindingActive | BindingRemoved | BindingRootMismatch | BindingUnsupported.

Inductive TrustedDeviceAliasDecision := AliasInsert | AliasIdentical | AliasRename | AliasRebindStale.

Global Instance TrustedDeviceAliasDecision_eq_dec : EqDecision TrustedDeviceAliasDecision.
Proof. solve_decision. Defined.

Record TrustedDeviceResolution := mk_TrustedDeviceResolution {
  resolution_device_id : DeviceId;
  resolution_root : Ed25519PublicKey;
  resolution_bootstrap : ConversationId }.

(** ** Decisions *)

(** The four flags of the loop. *)
Record seen_flags := mk_seen {
  saw_device : bool; saw_matching_root : bool; saw_compatible_root : bool; saw_conflicting_root : bool }.

Definition see (binding : TrustedDeviceBinding) (seen : seen_flags) (candidate : TrustedDeviceEvidence) : seen_flags :=
  if bool_decide (evidence_device_id candidate ≠ binding_device_id binding) then seen
  else if bool_decide (evidence_root candidate = binding_root binding)
  then mk_seen true true (saw_compatible_root seen || evidence_supports_repeat_pairing candidate)
         (saw_conflicting_root seen)
  else mk_seen true (saw_matching_root seen) (saw_compatible_root seen) true.

Definition trusted_device_binding_status (binding : TrustedDeviceBinding)
    (evidence : list TrustedDeviceEvidence) : TrustedDeviceBindingStatus :=
  let seen := foldl (see binding) (mk_seen false false false false) evidence in
  if saw_conflicting_root seen then BindingRootMismatch
  else if saw_compatible_root seen then BindingActive
  else if saw_matching_root seen then BindingUnsupported
  else if saw_device seen then BindingRootMismatch
  else BindingRemoved.

(** [Iterator::min]. *)
Definition min_id (ids : list ConversationId) : option ConversationId := head (sort_by id id_compare ids).

Definition resolve_trusted_device (binding : TrustedDeviceBinding) (evidence : list TrustedDeviceEvidence)
    : result KonclaveDomainError TrustedDeviceResolution :=
  match trusted_device_binding_status binding evidence with
  | BindingRemoved => Err TrustedDeviceRemoved
  | BindingRootMismatch => Err TrustedDeviceRootMismatch
  | BindingUnsupported => Err TrustedDeviceRepeatPairingUnsupported
  | BindingActive =>
      bootstrap ← ok_or (min_id (evidence_conversation_id <$>
                    List.filter (fun candidate =>
                      bool_decide (evidence_device_id candidate = binding_device_id binding)
                      && bool_decide (evidence_root candidate = binding_root binding)
                      && evidence_supports_repeat_pairing candidate) evidence))
                    TrustedDeviceRemoved;
      Ok (mk_TrustedDeviceResolution (binding_device_id binding) (binding_root binding) bootstrap)
  end.

Definition decide_trusted_device_alias (candidate : TrustedDeviceBinding)
    (existing_by_alias existing_by_device : option TrustedDeviceBinding)
    (evidence : list TrustedDeviceEvidence) : result KonclaveDomainError TrustedDeviceAliasDecision :=
  resolve_trusted_device candidate evidence;;
  match existing_by_alias with
  | Some existing =>
      if bool_decide (binding_device_id existing = binding_device_id candidate)
         && bool_decide (binding_root existing = binding_root candidate)
      then Ok (if bool_decide (binding_alias existing = binding_alias candidate)
               then AliasIdentical else AliasRename)
      else
        match trusted_device_binding_status existing evidence with
        | BindingActive | BindingUnsupported => Err TrustedDeviceAliasConflict
        | BindingRemoved | BindingRootMismatch => Ok AliasRebindStale
        end
  | None =>
      match existing_by_device with
      | Some existing =>
          if bool_decide (binding_root existing = binding_root candidate) then Ok AliasRename
          else
            match trusted_device_binding_status existing evidence with
            | BindingActive | BindingUnsupported => Err TrustedDeviceRootMismatch
            | BindingRemoved | BindingRootMismatch => Ok AliasRebindStale
            end
      | None => Ok AliasInsert
      end
  end.

(** ** What the current memberships say about a root *)

(** Some current conversation has the device with this root, and none has it with another. *)
Definition root_current (evidence : list TrustedDeviceEvidence) (device : DeviceId) (root : Ed25519PublicKey) : Prop :=
  (∃ e, e ∈ evidence ∧ evidence_device_id e = device)
  ∧ ∀ e, e ∈ evidence → evidence_device_id e = device → evidence_root e = root.

(** A conversation of the device in which every member can repeat the pairing. *)
Definition bootstraps (evidence : list TrustedDeviceEvidence) (device : DeviceId) (root : Ed25519PublicKey)
    (conversation : ConversationId) : Prop :=
  ∃ e, e ∈ evidence ∧ evidence_device_id e = device ∧ evidence_root e = root
    ∧ evidence_supports_repeat_pairing e = true ∧ evidence_conversation_id e = conversation.

Section status.
Context (binding : TrustedDeviceBinding).

Definition same_device (e : TrustedDeviceEvidence) : bool := bool_decide (evidence_device_id e = binding_device_id binding).
Definition same_root (e : TrustedDeviceEvidence) : bool := bool_decide (evidence_root e = binding_root binding).

Lemma foldl_see evidence : ∀ seen,
  foldl (see binding) seen evidence
  = mk_seen (saw_device seen || existsb same_device evidence)
      (saw_matching_root seen || existsb (fun e => same_device e && same_root e) evidence)
      (saw_compatible_root seen
       || existsb (fun e => same_device e && same_root e && evidence_supports_repeat_pairing e) evidence)
      (saw_conflicting_root seen || existsb (fun e => same_device e && negb (same_root e)) evidence).
Proof.
  induction evidence as [|e evidence IH]; intros [d m c x]; simpl; [by rewrite !orb_false_r|].
  rewrite IH. unfold see, same_device, same_root. simpl.
  repeat case_bool_decide; try done; simpl; destruct d, m, c, x, (evidence_supports_repeat_pairing e); simpl; done.
Qed.

Lemma binding_status_spec evidence :
  trusted_device_binding_status binding evidence
  = if existsb (fun e => same_device e && negb (same_root e)) evidence then BindingRootMismatch
    else if existsb (fun e => same_device e && same_root e && evidence_supports_repeat_pairing e) evidence
    then BindingActive
    else if existsb same_device evidence then BindingUnsupported else BindingRemoved.
Proof.
  unfold trusted_device_binding_status. rewrite foldl_see. simpl.
  destruct (existsb (fun e => same_device e && negb (same_root e)) evidence) eqn:Hx; [done|].
  destruct (existsb (fun e => same_device e && same_root e && _) evidence); [done|].
  assert (existsb (fun e => same_device e && same_root e) evidence = existsb same_device evidence) as ->.
  { clear -Hx. induction evidence as [|e evidence IH]; simpl in *; [done|].
    apply orb_false_iff in Hx as [H1 H2]. rewrite (IH H2). f_equal. by destruct (same_device e), (same_root e). }
  by destruct (existsb same_device evidence).
Qed.

Lemma existsb_elem {A} (f : A → bool) l : existsb f l = true ↔ ∃ x, x ∈ l ∧ f x = true.
Proof. rewrite existsb_exists. by setoid_rewrite list_elem_of_In. Qed.

Lemma no_conflict evidence :
  existsb (fun e => same_device e && negb (same_root e)) evidence = false ↔
  ∀ e, e ∈ evidence → evidence_device_id e = binding_device_id binding → evidence_root e = binding_root binding.
Proof.
  rewrite <- not_true_iff_false, existsb_elem. unfold same_device, same_root. split.
  - intros H e He Hd. destruct (decide (evidence_root e = binding_root binding)) as [|Hr]; [done|].
    exfalso. apply H. exists e. by rewrite bool_decide_eq_true_2, bool_decide_eq_false_2 by done.
  - intros H (e & He & Hb). rewrite andb_true_iff, negb_true_iff, bool_decide_eq_true, bool_decide_eq_false in Hb.
    destruct Hb. naive_solver.
Qed.

Lemma some_device evidence :
  existsb same_device evidence = true ↔ ∃ e, e ∈ evidence ∧ evidence_device_id e = binding_device_id binding.
Proof. rewrite existsb_elem. unfold same_device. by setoid_rewrite bool_decide_eq_true. Qed.

Lemma some_bootstrap evidence :
  existsb (fun e => same_device e && same_root e && evidence_supports_repeat_pairing e) evidence = true ↔
  ∃ c, bootstraps evidence (binding_device_id binding) (binding_root binding) c.
Proof.
  rewrite existsb_elem. unfold same_device, same_root, bootstraps. split.
  - intros (e & He & H). rewrite !andb_true_iff, !bool_decide_eq_true in H. naive_solver.
  - intros (c & e & He & Hd & Hr & Hs & _). exists e. by rewrite !bool_decide_eq_true_2, Hs by done.
Qed.

(** The status says whether the root is current and can bootstrap. *)
Lemma binding_status_cases evidence :
  match trusted_device_binding_status binding evidence with
  | BindingActive => root_current evidence (binding_device_id binding) (binding_root binding)
      ∧ ∃ c, bootstraps evidence (binding_device_id binding) (binding_root binding) c
  | BindingUnsupported => root_current evidence (binding_device_id binding) (binding_root binding)
      ∧ ∀ c, ¬ bootstraps evidence (binding_device_id binding) (binding_root binding) c
  | BindingRemoved => ∀ e, e ∈ evidence → evidence_device_id e ≠ binding_device_id binding
  | BindingRootMismatch =>
      ∃ e, e ∈ evidence ∧ evidence_device_id e = binding_device_id binding ∧ evidence_root e ≠ binding_root binding
  end.
Proof.
  rewrite binding_status_spec.
  destruct (existsb (fun e => same_device e && negb (same_root e)) evidence) eqn:Hx.
  { apply existsb_elem in Hx as (e & He & H). unfold same_device, same_root in H.
    rewrite andb_true_iff, negb_true_iff, bool_decide_eq_true, bool_decide_eq_false in H. naive_solver. }
  pose proof (proj1 (no_conflict evidence) Hx) as Hroots.
  destruct (existsb (fun e => same_device e && same_root e && _) evidence) eqn:Hb.
  { apply some_bootstrap in Hb as (c & Hb). pose proof Hb as (e & He & Hd & _). split; [|eauto]. split; [eauto|done]. }
  destruct (existsb same_device evidence) eqn:Hd.
  - apply some_device in Hd. split; [by split|]. intros c Hc.
    apply not_true_iff_false in Hb. apply Hb, some_bootstrap. eauto.
  - intros e He E. apply not_true_iff_false in Hd. apply Hd, some_device. eauto.
Qed.

Lemma status_current evidence :
  match trusted_device_binding_status binding evidence with BindingActive | BindingUnsupported => true | _ => false end = true
  ↔ root_current evidence (binding_device_id binding) (binding_root binding).
Proof.
  pose proof (binding_status_cases evidence) as H.
  destruct (trusted_device_binding_status binding evidence); split; try done; try (by destruct H).
  - intros [(e & He & Hd) _]. naive_solver.
  - intros [_ Hr]. naive_solver.
Qed.

Lemma status_active evidence :
  trusted_device_binding_status binding evidence = BindingActive ↔
  root_current evidence (binding_device_id binding) (binding_root binding)
  ∧ ∃ c, bootstraps evidence (binding_device_id binding) (binding_root binding) c.
Proof.
  pose proof (binding_status_cases evidence) as H.
  destruct (trusted_device_binding_status binding evidence); split; try done.
  - intros [[(e & He & Hd) _] _]. naive_solver.
  - intros [[_ Hr] _]. naive_solver.
  - intros [_ [c Hc]]. by destruct H as [_ H]; destruct (H c).
Qed.

End status.

Lemma min_id_Some l c : min_id l = Some c ↔ c ∈ l ∧ ∀ c', c' ∈ l → id_compare c c' ≠ Gt.
Proof.
  unfold min_id. pose proof (sort_by_perm id id_compare l) as Hp. pose proof (sort_by_sorted id id_compare l) as Hs.
  destruct (sort_by id id_compare l) as [|m rest] eqn:E; simpl.
  - apply Permutation_nil in Hp as ->. split; [done|]. by intros [?%elem_of_nil _].
  - apply StronglySorted_inv in Hs as [_ Hm]. rewrite Forall_forall in Hm.
    assert (∀ c', c' ∈ l → id_compare m c' ≠ Gt) as Hmin.
    { intros c' Hc'. rewrite <- Hp in Hc'. apply elem_of_cons in Hc' as [->|Hc']; [|by apply Hm].
      by rewrite (compare_refl id_compare). }
    split.
    + intros [= <-]. split; [rewrite <- Hp; by left|done].
    + intros [Hc Hle]. f_equal. assert (m ∈ l) as Hml by (rewrite <- Hp; by left).
      apply (compare_eq id_compare). specialize (Hmin c Hc). specialize (Hle m Hml).
      destruct (id_compare m c) eqn:Ec; [done| |done]. destruct Hle. by apply (compare_gt_lt id_compare).
Qed.

(** An alias resolves exactly while its stored root is the only root that current
    conversations have for the device and one of them supports repeated pairing; it then
    resolves to that device and root, and to the lowest such conversation. *)
Lemma trusted_device_resolves binding evidence r :
  resolve_trusted_device binding evidence = Ok r ↔
  root_current evidence (binding_device_id binding) (binding_root binding)
  ∧ resolution_device_id r = binding_device_id binding ∧ resolution_root r = binding_root binding
  ∧ bootstraps evidence (binding_device_id binding) (binding_root binding) (resolution_bootstrap r)
  ∧ ∀ c, bootstraps evidence (binding_device_id binding) (binding_root binding) c →
      id_compare (resolution_bootstrap r) c ≠ Gt.
Proof.
  set (f := fun candidate => bool_decide (evidence_device_id candidate = binding_device_id binding)
                      && bool_decide (evidence_root candidate = binding_root binding)
                      && evidence_supports_repeat_pairing candidate).
  assert (∀ c, c ∈ evidence_conversation_id <$> List.filter f evidence ↔
            bootstraps evidence (binding_device_id binding) (binding_root binding) c) as Hin.
  { intros c. rewrite list_elem_of_fmap. unfold bootstraps. split.
    - intros (e & -> & He). apply list_elem_of_In, filter_In in He as [He Hf]. apply list_elem_of_In in He.
      unfold f in Hf. rewrite !andb_true_iff, !bool_decide_eq_true in Hf. naive_solver.
    - intros (e & He & Hd & Hr & Hs & <-). exists e. split; [done|]. apply list_elem_of_In, filter_In.
      split; [by apply list_elem_of_In|]. unfold f. by rewrite !bool_decide_eq_true_2, Hs by done. }
  unfold resolve_trusted_device. fold f.
  pose proof (status_active binding evidence) as Ha.
  destruct (trusted_device_binding_status binding evidence).
  2-4: split; [done|]; intros (Hc & _ & _ & Hb & _); discriminate (proj2 Ha (conj Hc (ex_intro _ _ Hb))).
  rewrite bind_Ok. setoid_rewrite ok_or_Ok. setoid_rewrite min_id_Some. split.
  - intros (c & [Hc Hmin] & [= <-]). simpl. split_and!; [by apply Ha|done..|by apply Hin|].
    intros c' Hc'. by apply Hmin, Hin.
  - intros (_ & Hd & Hr & Hb & Hmin). destruct r as [d root c]; simpl in *. subst. exists c.
    split; [split; [by apply Hin|]|done]. intros c' Hc'. by apply Hmin, Hin.
Qed.
