(* ===== verification/AddressBook.v ===== *)
(** * The address book of the local daemon

    [Konclave.LocalDaemon]: [trusted_device_persistence.rs], the sealed table of aliases,
    and the alias operations of [conversation.rs] on top of it.  The table is the list of
    its rows in the order of the primary key.  Every row is sealed for the profile and the
    device, and one sealed record commits to the number and the digest of all rows. *)

From S2P Require Import Prelude Identifiers SecretStorage TrustedDevices.
Open Scope Z_scope.

Definition MAX_TRUSTED_DEVICE_BINDINGS : Z := 256.
Definition TRUSTED_DEVICE_BINDING_VERSION : byte := x01.
Definition TRUSTED_DEVICE_BINDING_STATE_VERSION : byte := x01.
Definition MAX_TRUSTED_DEVICE_BINDING_BYTES : Z := 2 + MAX_TRUSTED_DEVICE_ALIAS_BYTES + 32 + 32.
Definition MAX_SEALED_TRUSTED_DEVICE_BINDING_BYTES : Z := MAX_TRUSTED_DEVICE_BINDING_BYTES + 64.
Definition TRUSTED_DEVICE_BINDING_DIGEST_BYTES : Z := 32.
Definition TRUSTED_DEVICE_BINDING_STATE_BYTES : Z := 1 + 8 + TRUSTED_DEVICE_BINDING_DIGEST_BYTES.
Definition MAX_SEALED_TRUSTED_DEVICE_BINDING_STATE_BYTES : Z := TRUSTED_DEVICE_BINDING_STATE_BYTES + 64.
Definition TRUSTED_DEVICE_BINDING_CONTEXT_VERSION : bytes := lit "trusted-device-binding-v1".
Definition TRUSTED_DEVICE_BINDING_STATE_CONTEXT_VERSION : bytes := lit "trusted-device-binding-state-v1".
Definition TRUSTED_DEVICE_BINDING_DIGEST_DOMAIN : bytes := lit "trusted-device-binding-map-v1" ++ [x00].

(** The errors of [ProfileStoreError] these operations return. *)
Inductive ProfileStoreError :=
| ProfileStorage
| ProfileCorruptData
| ProfileTrustedDeviceNotFound
| ProfileTrustedDeviceAliasConflict
| ProfileTrustedDeviceRootMismatch
| ProfileTrustedDeviceRemoved
| ProfileTrustedDeviceRepeatPairingUnsupported
| ProfileTrustedDeviceCapacityExceeded.

Record AddressTables := mk_AddressTables {
  binding_rows : list (DeviceId * bytes);
  binding_state : option bytes }.

Record TrustedDeviceBindingState := mk_TrustedDeviceBindingState {
  committed_count : Z;
  committed_digest : bytes }.

(** ** Encoding *)

Definition encode_trusted_device_binding (binding : TrustedDeviceBinding) : bytes :=
  let alias := alias_str (binding_alias binding) in
  [TRUSTED_DEVICE_BINDING_VERSION; u8 (len alias)] ++ alias
    ++ as_bytes (binding_device_id binding) ++ as_bytes (binding_root binding).

(** An alias that is not UTF-8 has a byte outside ASCII, which [parse] refuses as well. *)
Definition decode_trusted_device_binding (encoded : bytes) : result ProfileStoreError TrustedDeviceBinding :=
  fail_if ((len encoded <? 2 + 32 + 32) || (MAX_TRUSTED_DEVICE_BINDING_BYTES <? len encoded)
           || bool_decide (head encoded ≠ Some TRUSTED_DEVICE_BINDING_VERSION)) ProfileCorruptData;;
  let alias_length := default 0 (byte_value <$> encoded !! 1%nat) in
  let device_start := 2 + alias_length in
  let root_start := device_start + 32 in
  fail_if ((alias_length =? 0) || (MAX_TRUSTED_DEVICE_ALIAS_BYTES <? alias_length)
           || negb (root_start + 32 =? len encoded)) ProfileCorruptData;;
  alias ← map_err (fun _ => ProfileCorruptData)
            (TrustedDeviceAlias_parse (take (Z.to_nat alias_length) (drop 2 encoded)));
  device ← map_err (fun _ => ProfileCorruptData)
             (from_slice KDeviceId (take 32 (drop (Z.to_nat device_start) encoded)));
  root ← map_err (fun _ => ProfileCorruptData)
           (from_slice KEd25519PublicKey (drop (Z.to_nat root_start) encoded));
  Ok (mk_TrustedDeviceBinding alias device root).

Definition validate_sealed_length (length maximum : Z) : result ProfileStoreError Z :=
  fail_if ((length =? 0) || (maximum <? length)) ProfileCorruptData;;
  Ok length.

(** Whether a [BTreeSet] refuses a second insertion of an alias. *)
Definition validate_trusted_device_binding_set (bindings : list TrustedDeviceBinding)
    : result ProfileStoreError unit :=
  fail_if (negb (all_unique ((fun b => alias_str (binding_alias b)) <$> bindings))) ProfileCorruptData.

Definition map_domain_error (e : KonclaveDomainError) : ProfileStoreError :=
  match e with
  | TrustedDeviceAliasConflict => ProfileTrustedDeviceAliasConflict
  | TrustedDeviceRootMismatch => ProfileTrustedDeviceRootMismatch
  | TrustedDeviceRemoved => ProfileTrustedDeviceRemoved
  | TrustedDeviceRepeatPairingUnsupported => ProfileTrustedDeviceRepeatPairingUnsupported
  | _ => ProfileCorruptData
  end.

Section store.
Context `{Sha256} `{Aead} (profile_id : bytes).

Definition trusted_device_binding_digest (bindings : list TrustedDeviceBinding) : bytes :=
  sha256 (TRUSTED_DEVICE_BINDING_DIGEST_DOMAIN ++ be_bytes 8 (len bindings)
          ++ mjoin ((fun b => let encoded := encode_trusted_device_binding b in
                              be_bytes 2 (len encoded) ++ encoded) <$> bindings)).

Definition trusted_device_binding_context (device : DeviceId) : result ProfileStoreError SecretRecordContext :=
  map_err (fun _ => ProfileStorage)
    (derive KindTrustedDeviceBinding
       [TRUSTED_DEVICE_BINDING_CONTEXT_VERSION; profile_id; as_bytes device]).

Definition trusted_device_binding_state_context : result ProfileStoreError SecretRecordContext :=
  map_err (fun _ => ProfileStorage)
    (derive KindTrustedDeviceBindingState [TRUSTED_DEVICE_BINDING_STATE_CONTEXT_VERSION; profile_id]).

(** ** Reading *)

Definition load_row (row : DeviceId * bytes) : result ProfileStoreError TrustedDeviceBinding :=
  let '(device, sealed) := row in
  sealed_length ← validate_sealed_length (len sealed) MAX_SEALED_TRUSTED_DEVICE_BINDING_BYTES;
  fail_if (negb (len sealed =? sealed_length)) ProfileCorruptData;;
  sealed ← map_err (fun _ => ProfileCorruptData) (SealedBlob_from_bytes sealed);
  context ← trusted_device_binding_context device;
  plaintext ← map_err (fun _ => ProfileCorruptData) (open context sealed);
  binding ← decode_trusted_device_binding plaintext;
  fail_if (bool_decide (binding_device_id binding ≠ device)) ProfileCorruptData;;
  Ok binding.

Definition load_trusted_device_bindings_from (db : AddressTables)
    : result ProfileStoreError (list TrustedDeviceBinding) :=
  fail_if (MAX_TRUSTED_DEVICE_BINDINGS <? len (binding_rows db)) ProfileCorruptData;;
  traverse load_row (binding_rows db).

Definition open_trusted_device_binding_state (db : AddressTables)
    : result ProfileStoreError TrustedDeviceBindingState :=
  sealed ← ok_or (binding_state db) ProfileCorruptData;
  sealed_length ← validate_sealed_length (len sealed) MAX_SEALED_TRUSTED_DEVICE_BINDING_STATE_BYTES;
  fail_if (negb (len sealed =? sealed_length)) ProfileCorruptData;;
  sealed ← map_err (fun _ => ProfileCorruptData) (SealedBlob_from_bytes sealed);
  context ← trusted_device_binding_state_context;
  plaintext ← map_err (fun _ => ProfileCorruptData) (open context sealed);
  fail_if (negb (len plaintext =? TRUSTED_DEVICE_BINDING_STATE_BYTES)
           || bool_decide (head plaintext ≠ Some TRUSTED_DEVICE_BINDING_STATE_VERSION)) ProfileCorruptData;;
  Ok (mk_TrustedDeviceBindingState (be_value (take 8 (drop 1 plaintext))) (drop 9 plaintext)).

Definition verify_trusted_device_bindings (db : AddressTables) : result ProfileStoreError unit :=
  bindings ← load_trusted_device_bindings_from db;
  committed ← open_trusted_device_binding_state db;
  fail_if (negb (committed_count committed =? len bindings)
           || bool_decide (committed_digest committed ≠ trusted_device_binding_digest bindings)
           || (MAX_TRUSTED_DEVICE_BINDINGS <? len bindings)) ProfileCorruptData;;
  validate_trusted_device_binding_set bindings.

Definition by_alias (alias : TrustedDeviceAlias) (b : TrustedDeviceBinding) : bool :=
  bool_decide (binding_alias b = alias).
Definition by_device (device : DeviceId) (b : TrustedDeviceBinding) : bool :=
  bool_decide (binding_device_id b = device).

Definition trusted_device_binding (db : AddressTables) (alias : TrustedDeviceAlias)
    : result ProfileStoreError TrustedDeviceBinding :=
  bindings ← load_trusted_device_bindings_from db;
  ok_or (find (by_alias alias) bindings) ProfileTrustedDeviceNotFound.

(** ** Writing *)

Definition seal_trusted_device_binding (random : option bytes) (binding : TrustedDeviceBinding)
    : result ProfileStoreError bytes :=
  context ← trusted_device_binding_context (binding_device_id binding);
  map_err (fun _ => ProfileStorage) (seal random context (encode_trusted_device_binding binding)).

Definition seal_trusted_device_binding_state (random : option bytes) (bindings : list TrustedDeviceBinding)
    : result ProfileStoreError bytes :=
  context ← trusted_device_binding_state_context;
  map_err (fun _ => ProfileStorage)
    (seal random context
       ([TRUSTED_DEVICE_BINDING_STATE_VERSION] ++ be_bytes 8 (len bindings)
        ++ trusted_device_binding_digest bindings)).

(** The tables of a new profile. *)
Definition initialize_trusted_device_schema (random : option bytes) : result ProfileStoreError AddressTables :=
  sealed_state ← seal_trusted_device_binding_state random [];
  Ok (mk_AddressTables [] (Some sealed_state)).

(** [DELETE .. WHERE device_id = ?1] and [INSERT], which refuses a key that is there. *)
Definition delete_row (device : DeviceId) (rows : list (DeviceId * bytes)) : list (DeviceId * bytes) :=
  List.filter (fun row => negb (bool_decide (row.1 = device))) rows.

Definition insert_row (device : DeviceId) (sealed : bytes) (rows : list (DeviceId * bytes))
    : result ProfileStoreError (list (DeviceId * bytes)) :=
  fail_if (existsb (fun row => bool_decide (row.1 = device)) rows) ProfileStorage;;
  Ok (sort_insert fst id_compare (device, sealed) rows).

(** The transaction: [random] and [random'] are what the two seals draw. *)
Definition write_trusted_device_binding (db : AddressTables) (candidate : TrustedDeviceBinding)
    (existing_by_alias existing_by_device : option TrustedDeviceBinding)
    (decision : TrustedDeviceAliasDecision) (random random' : option bytes)
    : result ProfileStoreError (TrustedDeviceAliasDecision * AddressTables) :=
  let rows := binding_rows db in
  let rows := match existing_by_alias with
              | Some existing => delete_row (binding_device_id existing) rows
              | None => rows
              end in
  let rows := if is_some_and existing_by_device (fun existing =>
                   is_none_or existing_by_alias (fun by_alias =>
                     negb (bool_decide (binding_device_id by_alias = binding_device_id existing))))
              then delete_row (binding_device_id candidate) rows else rows in
  sealed ← seal_trusted_device_binding random candidate;
  rows ← insert_row (binding_device_id candidate) sealed rows;
  let db := mk_AddressTables rows (binding_state db) in
  updated ← load_trusted_device_bindings_from db;
  fail_if (MAX_TRUSTED_DEVICE_BINDINGS <? len updated) ProfileTrustedDeviceCapacityExceeded;;
  validate_trusted_device_binding_set updated;;
  sealed_state ← seal_trusted_device_binding_state random' updated;
  fail_if (is_none (binding_state db)) ProfileCorruptData;;
  Ok (decision, mk_AddressTables rows (Some sealed_state)).

Definition store_trusted_device_binding (db : AddressTables) (candidate : TrustedDeviceBinding)
    (evidence : list TrustedDeviceEvidence) (random random' : option bytes)
    : result ProfileStoreError TrustedDeviceAliasDecision * AddressTables :=
  transact db
    (bindings ← load_trusted_device_bindings_from db;
     let existing_by_alias := find (by_alias (binding_alias candidate)) bindings in
     let existing_by_device := find (by_device (binding_device_id candidate)) bindings in
     decision ← map_err map_domain_error
                  (decide_trusted_device_alias candidate existing_by_alias existing_by_device evidence);
     if bool_decide (decision = AliasIdentical) then Ok (decision, db)
     else
       committed ← open_trusted_device_binding_state db;
       fail_if (negb (committed_count committed =? len bindings)
                || bool_decide (committed_digest committed ≠ trusted_device_binding_digest bindings))
         ProfileCorruptData;;
       write_trusted_device_binding db candidate existing_by_alias existing_by_device decision random random').

End store.
