(* ===== verification/AddressBookProofs.v ===== *)
(** * The address book refines a list of bindings

    The sealed tables behave as a plain list of bindings, in the order of the device
    identifiers, in which no two bindings share an alias or a device. *)

From S2P Require Import Prelude Identifiers SecretStorage TrustedDevices AddressBook.
Open Scope Z_scope.

(** ** The abstract address book *)

Definition replaced (candidate b : TrustedDeviceBinding) : bool :=
  by_alias (binding_alias candidate) b || by_device (binding_device_id candidate) b.

(** The candidate takes its alias and its device; all other bindings stay. *)
Definition rebound (candidate : TrustedDeviceBinding) (book : list TrustedDeviceBinding) : list TrustedDeviceBinding :=
  sort_insert binding_device_id id_compare candidate (List.filter (fun b => negb (replaced candidate b)) book).

Definition write_decision (candidate : TrustedDeviceBinding) (book : list TrustedDeviceBinding)
    : TrustedDeviceAliasDecision :=
  match find (by_alias (binding_alias candidate)) book, find (by_device (binding_device_id candidate)) book with
  | None, None => AliasInsert
  | None, Some b => if bool_decide (binding_root b = binding_root candidate) then AliasRename else AliasRebindStale
  | Some _, _ => AliasRebindStale
  end.

(** The alias is free, or belongs to a root that is no longer current. *)
Definition alias_available (evidence : list TrustedDeviceEvidence) (candidate : TrustedDeviceBinding)
    (book : list TrustedDeviceBinding) : Prop :=
  (candidate ∉ book)
  ∧ ∀ b, b ∈ book → binding_alias b = binding_alias candidate →
      ¬ root_current evidence (binding_device_id b) (binding_root b).

Inductive book_step (evidence : list TrustedDeviceEvidence) (candidate : TrustedDeviceBinding)
    (book : list TrustedDeviceBinding)
    : result ProfileStoreError TrustedDeviceAliasDecision → list TrustedDeviceBinding → Prop :=
| book_unresolved e :
    resolve_trusted_device candidate evidence = Err e →
    book_step evidence candidate book (Err (map_domain_error e)) book
| book_identical r :
    resolve_trusted_device candidate evidence = Ok r → candidate ∈ book →
    book_step evidence candidate book (Ok AliasIdentical) book
| book_conflict r b :
    resolve_trusted_device candidate evidence = Ok r → b ∈ book → b ≠ candidate →
    binding_alias b = binding_alias candidate →
    root_current evidence (binding_device_id b) (binding_root b) →
    book_step evidence candidate book (Err ProfileTrustedDeviceAliasConflict) book
| book_written r :
    resolve_trusted_device candidate evidence = Ok r → alias_available evidence candidate book →
    len (rebound candidate book) <= MAX_TRUSTED_DEVICE_BINDINGS →
    book_step evidence candidate book (Ok (write_decision candidate book)) (rebound candidate book)
| book_full r :
    resolve_trusted_device candidate evidence = Ok r → alias_available evidence candidate book →
    MAX_TRUSTED_DEVICE_BINDINGS < len (rebound candidate book) →
    book_step evidence candidate book (Err ProfileCorruptData) book.

(** ** Encodings are read back *)

Lemma fixed_length {k} (x : FixedBytes k) : length (as_bytes x) = id_length k.
Proof. apply Nat.eqb_eq, bytes_length. Qed.

Lemma encode_binding_length b :
  len (encode_trusted_device_binding b) = 66 + len (alias_str (binding_alias b)).
Proof.
  unfold encode_trusted_device_binding, len. rewrite !length_app, !fixed_length.
  cbn [length id_length]. lia.
Qed.

Lemma decode_encode_binding b : decode_trusted_device_binding (encode_trusted_device_binding b) = Ok b.
Proof.
  pose proof (alias_str_length (binding_alias b)) as Ha. pose proof (encode_binding_length b) as Hl.
  unfold MAX_TRUSTED_DEVICE_ALIAS_BYTES in Ha. unfold decode_trusted_device_binding. rewrite Hl.
  set (alias := alias_str (binding_alias b)) in *.
  assert ((66 + len alias <? 2 + 32 + 32) || (MAX_TRUSTED_DEVICE_BINDING_BYTES <? 66 + len alias) = false) as ->.
  { apply orb_false_iff. unfold MAX_TRUSTED_DEVICE_BINDING_BYTES, MAX_TRUSTED_DEVICE_ALIAS_BYTES.
    split; apply Z.ltb_ge; lia. }
  unfold encode_trusted_device_binding. fold alias. rewrite bool_decide_eq_false_2 by (intros E; by apply E).
  cbn [orb fail_if mbind result_bind app lookup list_lookup].
  change (default 0 (byte_value <$> Some (u8 (len alias)))) with (byte_value (u8 (len alias))).
  rewrite byte_value_u8 by lia. cbv zeta.
  assert ((len alias =? 0) || (MAX_TRUSTED_DEVICE_ALIAS_BYTES <? len alias)
          || negb (2 + len alias + 32 + 32 =? 66 + len alias) = false) as ->.
  { rewrite !orb_false_iff. unfold MAX_TRUSTED_DEVICE_ALIAS_BYTES. lia. }
  cbn [fail_if mbind result_bind drop].
  assert (Z.to_nat (len alias) = length alias) as Hna by (unfold len; lia).
  assert (Z.to_nat (2 + len alias) = (2 + length alias)%nat) as -> by (unfold len; lia).
  assert (Z.to_nat (2 + len alias + 32) = (2 + (length alias + 32))%nat) as -> by (unfold len; lia).
  rewrite Hna, drop_0, take_app_length. rewrite (TrustedDeviceAlias_parse_str (binding_alias b) : TrustedDeviceAlias_parse alias = _).
  cbn [map_err mbind result_bind Nat.add]. rewrite !skipn_cons.
  rewrite drop_app_length, take_app_length' by (by rewrite fixed_length). rewrite from_slice_as_bytes.
  cbn [map_err mbind result_bind]. rewrite <- drop_drop, drop_app_length.
  rewrite drop_app_length' by (by rewrite fixed_length). rewrite from_slice_as_bytes. by destruct b.
Qed.

(** ** Representation *)

Section refinement.
Context `{Sha256} `{Aead} (laws : aead_laws) (profile_id : bytes).
(** A profile identifier is not empty, and short. *)
Context (Hprofile : 0 < len profile_id <= 1024).

Definition sealed_row (row : DeviceId * bytes) (b : TrustedDeviceBinding) : Prop :=
  row.1 = binding_device_id b
  ∧ ∃ nonce, len nonce = NONCE_BYTES ∧ seal_trusted_device_binding profile_id (Some nonce) b = Ok row.2.

Definition device_lt (b b' : TrustedDeviceBinding) : Prop :=
  id_compare (binding_device_id b) (binding_device_id b') = Lt.

Record book_ok (book : list TrustedDeviceBinding) : Prop := {
  book_size : len book <= MAX_TRUSTED_DEVICE_BINDINGS;
  book_aliases : NoDup ((fun b => alias_str (binding_alias b)) <$> book);
  book_sorted : StronglySorted device_lt book }.

Record represents (db : AddressTables) (book : list TrustedDeviceBinding) : Prop := {
  rep_rows : Forall2 sealed_row (binding_rows db) book;
  rep_ok : book_ok book;
  rep_state : ∃ nonce sealed, len nonce = NONCE_BYTES ∧ binding_state db = Some sealed
    ∧ seal_trusted_device_binding_state profile_id (Some nonce) book = Ok sealed }.

Lemma nonce_only (nonce : bytes) : len nonce = NONCE_BYTES → ∀ n, Some nonce = Some n → len n = NONCE_BYTES.
Proof. by intros Hn n [= <-]. Qed.

Lemma load_row_sealed row b : sealed_row row b → load_row profile_id row = Ok b.
Proof.
  destruct row as [d sealed]. intros [Hd (nonce & Hn & Hs)]. simpl in *. subst d.
  unfold seal_trusted_device_binding in Hs. apply bind_Ok in Hs as (context & Hc & Hs).
  apply map_err_Ok in Hs.
  destruct (sealed_record_roundtrip laws _ _ _ _ (nonce_only nonce Hn) Hs) as (Hopen & Hlen & Hframe).
  pose proof (alias_str_length (binding_alias b)) as Ha. rewrite encode_binding_length in Hlen.
  unfold load_row, validate_sealed_length.
  rewrite (proj2 (orb_false_iff _ _)) by (unfold MAX_SEALED_TRUSTED_DEVICE_BINDING_BYTES,
    MAX_TRUSTED_DEVICE_BINDING_BYTES, MAX_TRUSTED_DEVICE_ALIAS_BYTES in *; split; lia).
  cbn [fail_if mbind result_bind]. rewrite Z.eqb_refl. cbn [negb fail_if mbind result_bind].
  rewrite Hframe. cbn [map_err mbind result_bind]. rewrite Hc. cbn [mbind result_bind]. rewrite Hopen.
  cbn [map_err mbind result_bind]. rewrite decode_encode_binding. cbn [mbind result_bind].
  by rewrite bool_decide_eq_false_2 by auto.
Qed.

Lemma load_rows rows state book :
  Forall2 sealed_row rows book →
  load_trusted_device_bindings_from profile_id (mk_AddressTables rows state)
  = if MAX_TRUSTED_DEVICE_BINDINGS <? len book then Err ProfileCorruptData else Ok book.
Proof.
  intros Hrows. unfold load_trusted_device_bindings_from. simpl.
  assert (len rows = len book) as -> by (unfold len; by rewrite (Forall2_length _ _ _ Hrows)).
  destruct (MAX_TRUSTED_DEVICE_BINDINGS <? len book); [done|]. simpl. apply traverse_Ok.
  eapply Forall2_impl; [exact Hrows|]. intros row b. apply load_row_sealed.
Qed.

Lemma load_represented db book :
  represents db book → load_trusted_device_bindings_from profile_id db = Ok book.
Proof.
  intros [Hrows [Hsize _ _] _]. destruct db as [rows state]. rewrite (load_rows rows state book Hrows).
  by rewrite (proj2 (Z.ltb_ge _ _)).
Qed.

Lemma digest_length bindings : length (trusted_device_binding_digest bindings) = 32%nat.
Proof. apply sha256_length. Qed.

Lemma open_represented db book :
  represents db book →
  open_trusted_device_binding_state profile_id db
  = Ok (mk_TrustedDeviceBindingState (len book) (trusted_device_binding_digest book)).
Proof.
  intros [_ [Hsize _ _] (nonce & sealed & Hn & Hstate & Hs)].
  unfold seal_trusted_device_binding_state in Hs. apply bind_Ok in Hs as (context & Hc & Hs).
  apply map_err_Ok in Hs.
  destruct (sealed_record_roundtrip laws _ _ _ _ (nonce_only nonce Hn) Hs) as (Hopen & Hlen & Hframe).
  set (plaintext := [TRUSTED_DEVICE_BINDING_STATE_VERSION] ++ be_bytes 8 (len book)
        ++ trusted_device_binding_digest book) in *.
  assert (len plaintext = 41) as Hp.
  { unfold plaintext, len. rewrite !length_app, be_bytes_length, digest_length. done. }
  assert (drop 9 plaintext = trusted_device_binding_digest book) as Hdigest.
  { unfold plaintext. rewrite (assoc_L (++)). apply drop_app_length'. by rewrite length_app, be_bytes_length. }
  assert (take 8 (drop 1 plaintext) = be_bytes 8 (len book)) as Hcount.
  { unfold plaintext. rewrite drop_app_length' by done. apply take_app_length'. by rewrite be_bytes_length. }
  assert (head plaintext = Some TRUSTED_DEVICE_BINDING_STATE_VERSION) as Hversion by done.
  clearbody plaintext. unfold open_trusted_device_binding_state, validate_sealed_length. rewrite Hstate.
  cbn [ok_or mbind result_bind].
  rewrite (proj2 (orb_false_iff _ _)) by (rewrite Hlen, Hp; done).
  cbn [fail_if mbind result_bind]. rewrite Z.eqb_refl. cbn [negb fail_if mbind result_bind].
  rewrite Hframe. cbn [map_err mbind result_bind]. rewrite Hc. cbn [mbind result_bind]. rewrite Hopen.
  cbn [map_err mbind result_bind]. rewrite Hp, bool_decide_eq_false_2 by (intros E; by apply E).
  change (negb (41 =? TRUSTED_DEVICE_BINDING_STATE_BYTES) || false) with false.
  cbn [fail_if mbind result_bind]. rewrite Hcount, Hdigest.
  rewrite be_value_bytes; [done|]. pose proof (len_nonneg book). unfold MAX_TRUSTED_DEVICE_BINDINGS in Hsize.
  change (256 ^ Z.of_nat 8) with 18446744073709551616. lia.
Qed.

Lemma validate_set_ok book : book_ok book → validate_trusted_device_binding_set book = Ok ().
Proof.
  intros [_ Ha _]. unfold validate_trusted_device_binding_set. apply fail_if_Ok, negb_false_iff.
  by apply all_unique_spec.
Qed.

Lemma verify_represented db book : represents db book → verify_trusted_device_bindings profile_id db = Ok ().
Proof.
  intros Hrep. unfold verify_trusted_device_bindings. rewrite (load_represented _ _ Hrep). cbn [mbind result_bind].
  rewrite (open_represented _ _ Hrep). cbn [mbind result_bind committed_count committed_digest].
  rewrite Z.eqb_refl, bool_decide_eq_false_2 by auto. destruct Hrep as [_ Hok _]. pose proof (book_size _ Hok).
  rewrite (proj2 (Z.ltb_ge _ _)) by done. cbn [negb orb fail_if mbind result_bind]. by apply validate_set_ok.
Qed.

Lemma derives kind components :
  0 < len components <= 8 → Forall (fun c => 0 < len c <= 1024) components →
  ∃ context, derive kind components = Ok context.
Proof.
  intros Hn Hall. unfold derive.
  assert (existsb (fun c => len c =? 0) components = false) as ->.
  { apply not_true_iff_false. rewrite existsb_elem. intros (c & Hc & E). rewrite Forall_forall in Hall.
    specialize (Hall c Hc). lia. }
  rewrite (proj2 (Z.eqb_neq _ _)) by lia. unfold MAX_CONTEXT_COMPONENTS. rewrite !(proj2 (Z.ltb_ge _ _)) by lia.
  cbn [orb fail_if mbind result_bind].
  assert (∀ total, 0 <= total → total + 1024 * len components <= 1024 * 16 →
    ∃ encoded, derive_components total components = Ok encoded) as Hd.
  { clear Hn. induction Hall as [|c components Hc _ IH]; intros total Hpos Ht; [by eexists|]. simpl.
    assert (len (c :: components) = 1 + len components) as El by (unfold len; simpl; lia). rewrite El in Ht. pose proof (len_nonneg components).
    rewrite checked_add_fits by (change USIZE_MAX with 18446744073709551615; lia).
    cbn [ok_or mbind result_bind]. unfold MAX_SECRET_PLAINTEXT_BYTES. rewrite (proj2 (Z.ltb_ge _ _)) by lia.
    cbn [fail_if mbind result_bind]. destruct (IH (total + len c)) as [encoded ->]; [lia..|]. by eexists. }
  destruct (Hd 0) as [encoded ->]; [lia..|]. cbn [mbind result_bind]. unfold SecretRecordContext_new, len.
  rewrite sha256_length. by eexists.
Qed.

(** ** Writing *)

Lemma seal_binding_succeeds nonce b :
  len nonce = NONCE_BYTES → ∃ sealed, seal_trusted_device_binding profile_id (Some nonce) b = Ok sealed.
Proof.
  intros Hn. unfold seal_trusted_device_binding, trusted_device_binding_context.
  destruct (derives KindTrustedDeviceBinding
    [TRUSTED_DEVICE_BINDING_CONTEXT_VERSION; profile_id; as_bytes (binding_device_id b)]) as [context ->]; [done| |].
  { repeat constructor; try done; try apply Hprofile; unfold len; by rewrite fixed_length. }
  cbn [map_err mbind result_bind].
  destruct (seal_succeeds laws nonce context (encode_trusted_device_binding b) Hn) as [sealed ->]; [|by eexists].
  rewrite encode_binding_length. pose proof (alias_str_length (binding_alias b)) as Ha.
  unfold MAX_TRUSTED_DEVICE_ALIAS_BYTES, MAX_SECRET_PLAINTEXT_BYTES in *. lia.
Qed.

Lemma seal_state_succeeds nonce book :
  len nonce = NONCE_BYTES → ∃ sealed, seal_trusted_device_binding_state profile_id (Some nonce) book = Ok sealed.
Proof.
  intros Hn. unfold seal_trusted_device_binding_state, trusted_device_binding_state_context.
  destruct (derives KindTrustedDeviceBindingState
    [TRUSTED_DEVICE_BINDING_STATE_CONTEXT_VERSION; profile_id]) as [context ->]; [done| |].
  { by repeat constructor; try apply Hprofile. }
  cbn [map_err mbind result_bind].
  edestruct (seal_succeeds laws nonce context) as [sealed ->]; [exact Hn| |by eexists].
  unfold len. rewrite !length_app, be_bytes_length, digest_length. done.
Qed.

Lemma delete_rows d rows book :
  Forall2 sealed_row rows book →
  Forall2 sealed_row (delete_row d rows) (List.filter (fun b => negb (by_device d b)) book).
Proof.
  induction 1 as [|row b rows book Hrow _ IH]; simpl; [constructor|]. unfold by_device at 1.
  pose proof Hrow as [<- _]. destruct (bool_decide (row.1 = d)); simpl; [done|by constructor].
Qed.

Lemma insert_rows row b rows book :
  sealed_row row b → Forall2 sealed_row rows book →
  Forall2 sealed_row (sort_insert fst id_compare row rows) (sort_insert binding_device_id id_compare b book).
Proof.
  intros Hrow. induction 1 as [|row' b' rows book Hrow' Hrest IH]; simpl; [constructor; [exact Hrow|constructor]|].
  pose proof Hrow as [<- _]. pose proof Hrow' as [<- _].
  destruct (id_compare row.1 row'.1);
    [constructor; [exact Hrow|by constructor]..|constructor; [exact Hrow'|exact IH]].
Qed.

Lemma filter_sorted {A} (R S : A → A → Prop) (f : A → bool) l :
  (∀ x y, R x y → S x y) → StronglySorted R l → StronglySorted S (List.filter f l).
Proof.
  intros HRS. induction 1 as [|x l _ IH Hx]; simpl; [constructor|]. destruct (f x); [|done].
  constructor; [done|]. rewrite Forall_forall in *. intros y [Hy _]%filter_elem. auto.
Qed.

Lemma book_devices book : StronglySorted device_lt book → NoDup (binding_device_id <$> book).
Proof. apply (strictly_sorted_NoDup binding_device_id id_compare). Qed.

Lemma rebound_perm candidate book :
  rebound candidate book ≡ₚ candidate :: List.filter (fun b => negb (replaced candidate b)) book.
Proof. apply sort_insert_perm. Qed.

Lemma kept_elem candidate book b :
  b ∈ List.filter (fun b => negb (replaced candidate b)) book ↔
  b ∈ book ∧ binding_alias b ≠ binding_alias candidate ∧ binding_device_id b ≠ binding_device_id candidate.
Proof.
  rewrite filter_elem. unfold replaced, by_alias, by_device.
  rewrite negb_true_iff, orb_false_iff, !bool_decide_eq_false. done.
Qed.

Lemma rebound_elem candidate book b :
  b ∈ rebound candidate book ↔
  b = candidate
  ∨ (b ∈ book ∧ binding_alias b ≠ binding_alias candidate ∧ binding_device_id b ≠ binding_device_id candidate).
Proof. by rewrite rebound_perm, elem_of_cons, kept_elem. Qed.

Lemma rebound_ok candidate book :
  book_ok book → len (rebound candidate book) <= MAX_TRUSTED_DEVICE_BINDINGS → book_ok (rebound candidate book).
Proof.
  intros [_ Ha Hs] Hsize. pose proof (book_devices _ Hs) as Hd. split; [done| |].
  - rewrite rebound_perm. simpl. constructor.
    + intros (b & E & Hb)%list_elem_of_fmap. apply kept_elem in Hb as (_ & Hne & _).
      by apply Hne, alias_str_inj.
    + eapply sublist_NoDup; [exact Ha|apply fmap_sublist, filter_sublist].
  - apply (NoDup_strictly_sorted binding_device_id id_compare).
    + apply (sort_insert_sorted binding_device_id id_compare).
      apply (filter_sorted device_lt); [|exact Hs]. intros x y Hlt. unfold key_le. by rewrite Hlt.
    + rewrite rebound_perm. simpl. constructor.
      * intros (b & E & Hb)%list_elem_of_fmap. apply kept_elem in Hb as (_ & _ & Hne). by apply Hne.
      * eapply sublist_NoDup; [exact Hd|apply fmap_sublist, filter_sublist].
Qed.

Lemma find_elem {A} (f : A → bool) l x : find f l = Some x → x ∈ l ∧ f x = true.
Proof. intros [Hin Hf]%find_some. by rewrite list_elem_of_In. Qed.

Lemma find_absent {A} (f : A → bool) l : find f l = None → ∀ x, x ∈ l → f x = false.
Proof. intros Hn x Hx. apply (find_none f l Hn). by apply list_elem_of_In. Qed.

Lemma find_alias_Some alias book b :
  find (by_alias alias) book = Some b → b ∈ book ∧ binding_alias b = alias.
Proof. intros [Hb E]%find_elem. split; [done|]. by apply bool_decide_eq_true in E. Qed.

Lemma find_device_Some device book b :
  find (by_device device) book = Some b → b ∈ book ∧ binding_device_id b = device.
Proof. intros [Hb E]%find_elem. split; [done|]. by apply bool_decide_eq_true in E. Qed.

(** The two deletions drop exactly the bindings that share the alias or the device. *)
Definition second_delete (owner own : option TrustedDeviceBinding) : bool :=
  is_some_and own (fun existing => is_none_or owner (fun by_alias =>
    negb (bool_decide (binding_device_id by_alias = binding_device_id existing)))).

Lemma deleted_rows candidate rows book :
  Forall2 sealed_row rows book → book_ok book →
  let owner := find (by_alias (binding_alias candidate)) book in
  let own := find (by_device (binding_device_id candidate)) book in
  Forall2 sealed_row
    (let rows := match owner with Some b => delete_row (binding_device_id b) rows | None => rows end in
     if second_delete owner own then delete_row (binding_device_id candidate) rows else rows)
    (List.filter (fun b => negb (replaced candidate b)) book).
Proof.
  intros Hrows [_ Ha Hs] owner own. pose proof (book_devices _ Hs) as Hd. cbv zeta.
  assert (Forall2 sealed_row (match owner with Some b => delete_row (binding_device_id b) rows | None => rows end)
    (List.filter (fun b => negb (by_alias (binding_alias candidate) b)) book)) as H1.
  { destruct owner as [o|] eqn:Ho; unfold owner in Ho.
    - apply find_alias_Some in Ho as [Ho Ea]. apply (delete_rows (binding_device_id o)) in Hrows.
      erewrite filter_ext_in; [exact Hrows|]. intros b Hb%list_elem_of_In. simpl. f_equal.
      apply bool_decide_ext. rewrite <- Ea. split; intros E.
      + f_equal. eapply (elem_unique (fun b => alias_str (binding_alias b))); [exact Ha|done..|by rewrite E].
      + f_equal. by eapply (elem_unique binding_device_id).
    - rewrite filter_all; [done|]. intros b Hb. by rewrite (find_absent _ _ Ho b Hb). }
  assert (List.filter (fun b => negb (replaced candidate b)) book
    = List.filter (fun b => negb (by_device (binding_device_id candidate) b))
        (List.filter (fun b => negb (by_alias (binding_alias candidate) b)) book)) as ->.
  { clear. induction book as [|b book IH]; simpl; [done|]. unfold replaced at 1.
    destruct (by_alias _ b); simpl; [done|]. by destruct (by_device _ b); simpl; rewrite IH. }
  destruct (second_delete owner own) eqn:Hsecond; [by apply delete_rows|].
  rewrite filter_all; [done|]. intros b [Hb Hb']%filter_elem. apply negb_true_iff, not_true_iff_false. intros Hdev.
  unfold second_delete in Hsecond. destruct own as [w|] eqn:Hw; unfold own in Hw.
  2:{ by rewrite (find_absent _ _ Hw b Hb) in Hdev. }
  destruct owner as [o|] eqn:Ho; [|done]. unfold owner in Ho. apply find_alias_Some in Ho as [Ho Ea].
  apply find_device_Some in Hw as [Hw Ed]. cbn [is_some_and is_none_or] in Hsecond.
  apply negb_false_iff, bool_decide_eq_true in Hsecond. apply bool_decide_eq_true in Hdev.
  assert (b = o) as -> by (eapply (elem_unique binding_device_id); [done..|congruence]).
  unfold by_alias in Hb'. by rewrite bool_decide_eq_true_2 in Hb'.
Qed.

(** ** Decisions *)

Lemma resolve_current candidate evidence r :
  resolve_trusted_device candidate evidence = Ok r →
  root_current evidence (binding_device_id candidate) (binding_root candidate).
Proof.
  unfold resolve_trusted_device. pose proof (status_active candidate evidence) as Ha.
  destruct (trusted_device_binding_status candidate evidence); try done. intros _. by apply Ha.
Qed.

Lemma same_alias book b b' : book_ok book → b ∈ book → b' ∈ book → binding_alias b = binding_alias b' → b = b'.
Proof.
  intros [_ Ha _] Hb Hb' E. eapply (elem_unique (fun b => alias_str (binding_alias b))); [exact Ha|done..|].
  simpl. by rewrite E.
Qed.

Lemma decide_cases candidate book evidence r :
  book_ok book → resolve_trusted_device candidate evidence = Ok r →
  let decision := decide_trusted_device_alias candidate (find (by_alias (binding_alias candidate)) book)
                    (find (by_device (binding_device_id candidate)) book) evidence in
  (candidate ∈ book ∧ decision = Ok AliasIdentical)
  ∨ (∃ b, b ∈ book ∧ b ≠ candidate ∧ binding_alias b = binding_alias candidate
       ∧ root_current evidence (binding_device_id b) (binding_root b)
       ∧ decision = Err TrustedDeviceAliasConflict)
  ∨ (alias_available evidence candidate book ∧ decision = Ok (write_decision candidate book)).
Proof.
  intros Hok Hr decision. unfold decision, decide_trusted_device_alias, write_decision. rewrite Hr.
  cbn [mbind result_bind].
  destruct (find (by_alias (binding_alias candidate)) book) as [o|] eqn:Ho.
  - apply find_alias_Some in Ho as [Ho Ea].
    destruct (bool_decide_reflect (binding_device_id o = binding_device_id candidate)) as [Ed|Ed];
      [destruct (bool_decide_reflect (binding_root o = binding_root candidate)) as [Er|Er]|]; cbn [andb].
    { left. assert (o = candidate) as -> by (destruct o, candidate; simpl in *; congruence).
      by rewrite bool_decide_eq_true_2. }
    all: assert (o ≠ candidate) as Hne by congruence; right;
      pose proof (status_current o evidence) as Hc;
      (destruct (trusted_device_binding_status o evidence);
       [left; exists o; split_and!; try done; by apply Hc|right| right|left; exists o; split_and!; try done; by apply Hc]);
      (split; [|done]); (split; [intros Hin; apply Hne; by eapply same_alias|]);
      intros b Hb E; (assert (b = o) as -> by (eapply same_alias; [done..|congruence]));
      intros Hcur; by apply Hc in Hcur.
  - right. right.
    assert (alias_available evidence candidate book) as Hav.
    { split.
      - intros Hin. pose proof (find_absent _ _ Ho candidate Hin) as Hf. unfold by_alias in Hf.
        by rewrite bool_decide_eq_true_2 in Hf.
      - intros b Hb E. pose proof (find_absent _ _ Ho b Hb) as Hf. unfold by_alias in Hf.
        by rewrite bool_decide_eq_true_2 in Hf. }
    split; [done|]. destruct (find (by_device (binding_device_id candidate)) book) as [w|] eqn:Hw; [|done].
    destruct (bool_decide_reflect (binding_root w = binding_root candidate)) as [Er|Er]; [done|].
    apply find_device_Some in Hw as [_ Ed]. pose proof (binding_status_cases w evidence) as Hcase.
    destruct (resolve_current _ _ _ Hr) as [(e & He & Hd) Hroot]. rewrite <- Ed in Hroot, Hd.
    destruct (trusted_device_binding_status w evidence); try done;
      destruct Hcase as [[_ Hw] _]; destruct Er; by rewrite <- (Hroot e He Hd), (Hw e He Hd).
Qed.

(** ** The refinement *)

Lemma write_represented db book candidate decision nonce nonce' :
  represents db book → len nonce = NONCE_BYTES → len nonce' = NONCE_BYTES →
  let owner := find (by_alias (binding_alias candidate)) book in
  let own := find (by_device (binding_device_id candidate)) book in
  (len (rebound candidate book) <= MAX_TRUSTED_DEVICE_BINDINGS ∧
   ∃ db', write_trusted_device_binding profile_id db candidate owner own decision (Some nonce) (Some nonce')
          = Ok (decision, db') ∧ represents db' (rebound candidate book))
  ∨ (MAX_TRUSTED_DEVICE_BINDINGS < len (rebound candidate book) ∧
     write_trusted_device_binding profile_id db candidate owner own decision (Some nonce) (Some nonce')
     = Err ProfileCorruptData).
Proof.
  intros [Hrows Hok (n0 & sealed0 & Hn0 & Hstate & _)] Hn Hn' owner own.
  pose proof (deleted_rows candidate _ _ Hrows Hok) as Hdeleted. fold owner own in Hdeleted. cbv zeta in Hdeleted.
  destruct (seal_binding_succeeds nonce candidate Hn) as [sealed Hsealed].
  assert (sealed_row (binding_device_id candidate, sealed) candidate) as Hnew by (split; [done|eauto]).
  pose proof (insert_rows _ _ _ _ Hnew Hdeleted) as Hinserted. fold (rebound candidate book) in Hinserted.
  unfold write_trusted_device_binding. fold (second_delete owner own).
  set (rows := if second_delete owner own then _ else _) in *. clearbody rows.
  rewrite Hsealed. cbn [mbind result_bind]. unfold insert_row.
  assert (existsb (fun row => bool_decide (row.1 = binding_device_id candidate)) rows = false) as ->.
  { apply not_true_iff_false. rewrite existsb_elem. intros (row & Hrow & E%bool_decide_eq_true).
    apply list_elem_of_lookup in Hrow as [i Hi]. destruct (Forall2_lookup_l _ _ _ _ _ Hdeleted Hi) as (b & Hb & Ed & _).
    apply list_elem_of_lookup_2, kept_elem in Hb as (_ & _ & Hne). apply Hne. by rewrite <- Ed. }
  cbn [fail_if mbind result_bind]. rewrite (load_rows _ _ _ Hinserted).
  destruct (Z.ltb_spec MAX_TRUSTED_DEVICE_BINDINGS (len (rebound candidate book))) as [Hfull|Hroom];
    [by right|left]. split; [done|].
  cbn [mbind result_bind]. rewrite (proj2 (Z.ltb_ge _ _)) by done. cbn [fail_if mbind result_bind].
  pose proof (rebound_ok candidate book Hok Hroom) as Hok'. rewrite (validate_set_ok _ Hok'). cbn [mbind result_bind].
  destruct (seal_state_succeeds nonce' (rebound candidate book) Hn') as [sealed' Hsealed'].
  rewrite Hsealed'. cbn [mbind result_bind binding_state]. rewrite Hstate. cbn [is_none fail_if mbind result_bind].
  eexists. split; [done|]. split; [exact Hinserted|exact Hok'|]. exists nonce', sealed'. by split_and!.
Qed.

Lemma store_refines db book candidate evidence nonce nonce' :
  represents db book → len nonce = NONCE_BYTES → len nonce' = NONCE_BYTES →
  let '(answer, db') := store_trusted_device_binding profile_id db candidate evidence (Some nonce) (Some nonce') in
  ∃ book', book_step evidence candidate book answer book' ∧ represents db' book'.
Proof.
  intros Hrep Hn Hn'. pose proof (rep_ok _ _ Hrep) as Hok. unfold store_trusted_device_binding.
  rewrite (load_represented _ _ Hrep). cbn [mbind result_bind].
  destruct (resolve_trusted_device candidate evidence) as [r|e] eqn:Hr.
  2:{ unfold decide_trusted_device_alias. rewrite Hr. cbn [mbind result_bind map_err transact].
      exists book. split; [by constructor|done]. }
  destruct (decide_cases candidate book evidence r Hok Hr)
    as [[Hin ->]|[(b & Hb & Hne & Ea & Hcur & ->)|[Hav ->]]]; cbn [map_err mbind result_bind map_domain_error].
  - rewrite bool_decide_eq_true_2 by done. exists book. split; [by econstructor|done].
  - exists book. split; [by econstructor|done].
  - assert (write_decision candidate book ≠ AliasIdentical) as Hd.
    { unfold write_decision. repeat case_match; done. }
    rewrite bool_decide_eq_false_2 by done. rewrite (open_represented _ _ Hrep).
    cbn [mbind result_bind committed_count committed_digest].
    rewrite Z.eqb_refl, bool_decide_eq_false_2 by auto. cbn [negb orb fail_if mbind result_bind].
    destruct (write_represented db book candidate (write_decision candidate book) nonce nonce' Hrep Hn Hn')
      as [[Hroom (db' & -> & Hrep')]|[Hfull ->]]; cbn [transact].
    + exists (rebound candidate book). split; [by econstructor|done].
    + exists book. split; [by econstructor|done].
Qed.

Lemma initialize_represents nonce db :
  len nonce = NONCE_BYTES → initialize_trusted_device_schema profile_id (Some nonce) = Ok db → represents db [].
Proof.
  intros Hn E. unfold initialize_trusted_device_schema in E. apply bind_Ok in E as (sealed & Hs & [= <-]).
  split; [constructor| |by exists nonce, sealed]. split; [done|constructor..].
Qed.

(** ** Every run *)

(** A nonce from the operating system, or a failure of its generator. *)
Definition entropy (random : option bytes) : Prop := ∀ nonce, random = Some nonce → len nonce = NONCE_BYTES.

(** The tables after the profile is created and after any sequence of calls of the store. *)
Inductive tables_reachable : AddressTables → Prop :=
| tables_initialized random db :
    entropy random → initialize_trusted_device_schema profile_id random = Ok db → tables_reachable db
| tables_stored db candidate evidence random random' answer db' :
    tables_reachable db → entropy random → entropy random' →
    store_trusted_device_binding profile_id db candidate evidence random random' = (answer, db') →
    tables_reachable db'.

Lemma seal_needs_entropy random context plaintext blob :
  seal random context plaintext = Ok blob → ∃ nonce, random = Some nonce.
Proof. intros E. apply bind_Ok in E as ([] & _ & E). apply bind_Ok in E as (nonce & Hn%ok_or_Ok & _). eauto. Qed.

Lemma write_needs_entropy db candidate owner own decision random random' out :
  write_trusted_device_binding profile_id db candidate owner own decision random random' = Ok out →
  ∃ nonce nonce', random = Some nonce ∧ random' = Some nonce'.
Proof.
  intros E. unfold write_trusted_device_binding in E. cbv zeta in E.
  apply bind_Ok in E as (sealed & Hs & E). apply bind_Ok in E as (rows & _ & E).
  apply bind_Ok in E as (updated & _ & E). apply bind_Ok in E as ([] & _ & E).
  apply bind_Ok in E as ([] & _ & E). apply bind_Ok in E as (sealed' & Hs' & _).
  apply bind_Ok in Hs as (c & _ & [nonce Hn]%map_err_Ok%seal_needs_entropy).
  apply bind_Ok in Hs' as (c' & _ & [nonce' Hn']%map_err_Ok%seal_needs_entropy). eauto.
Qed.

Lemma store_needs_entropy db candidate evidence random random' decision db' :
  store_trusted_device_binding profile_id db candidate evidence random random' = (Ok decision, db') →
  db' = db ∨ ∃ nonce nonce', random = Some nonce ∧ random' = Some nonce'.
Proof.
  unfold store_trusted_device_binding, transact. intros E.
  destruct (load_trusted_device_bindings_from profile_id db ≫= _) as [[decision' db'']|] eqn:Hm; [|done].
  injection E as -> ->.
  apply bind_Ok in Hm as (bindings & _ & Hm). apply bind_Ok in Hm as (d & _ & Hm).
  case_bool_decide; [left; by injection Hm|right].
  apply bind_Ok in Hm as (committed & _ & Hm). apply bind_Ok in Hm as ([] & _ & Hm).
  by eapply write_needs_entropy.
Qed.

Lemma reachable_represents db : tables_reachable db → ∃ book, represents db book.
Proof.
  induction 1 as [random db Hr E|db candidate evidence random random' answer db' _ [book Hrep] Hr Hr' E].
  - pose proof E as E'. apply bind_Ok in E' as (sealed & Hs & _).
    apply bind_Ok in Hs as (c & _ & [nonce ->]%map_err_Ok%seal_needs_entropy).
    exists []. by eapply initialize_represents; [apply Hr|].
  - destruct answer as [decision|e]; [destruct (store_needs_entropy _ _ _ _ _ _ _ E) as [->|(nonce & nonce' & -> & ->)]|].
    + by exists book.
    + pose proof (store_refines db book candidate evidence nonce nonce' Hrep (Hr _ eq_refl) (Hr' _ eq_refl)) as H'.
      rewrite E in H'. destruct H' as (book' & _ & ?). by exists book'.
    + exists book. unfold store_trusted_device_binding, transact in E.
      destruct (load_trusted_device_bindings_from profile_id db ≫= _) as [[]|]; [done|]. by injection E as _ <-.
Qed.

(** C19: in every profile reached by creating it and calling the store any number of times, the
    sealed tables are a list of bindings that opening the profile verifies, and each further
    call does exactly one step of the abstract address book on that list: it refuses a candidate
    the evidence does not support, answers [Identical] for a binding that is there, refuses an
    alias whose root is current, or replaces the bindings of the alias and of the device. *)
Theorem address_book_refines db candidate evidence nonce nonce' :
  tables_reachable db → len nonce = NONCE_BYTES → len nonce' = NONCE_BYTES →
  ∃ book answer db' book',
    load_trusted_device_bindings_from profile_id db = Ok book
    ∧ verify_trusted_device_bindings profile_id db = Ok ()
    ∧ store_trusted_device_binding profile_id db candidate evidence (Some nonce) (Some nonce') = (answer, db')
    ∧ book_step evidence candidate book answer book'
    ∧ load_trusted_device_bindings_from profile_id db' = Ok book'
    ∧ verify_trusted_device_bindings profile_id db' = Ok ().
Proof.
  intros [book Hrep]%reachable_represents Hn Hn'.
  pose proof (store_refines db book candidate evidence nonce nonce' Hrep Hn Hn') as H'.
  destruct (store_trusted_device_binding _ _ _ _ _ _) as [answer db']. destruct H' as (book' & Hs & Hrep').
  exists book, answer, db', book'. split_and!; eauto using load_represented, verify_represented.
Qed.

Lemma store_err_unchanged db candidate evidence random random' e db' :
  store_trusted_device_binding profile_id db candidate evidence random random' = (Err e, db') → db' = db.
Proof.
  unfold store_trusted_device_binding, transact.
  destruct (load_trusted_device_bindings_from profile_id db ≫= _) as [[]|]; [done|]. by intros [= _ <-].
Qed.

(** C37: when the address book holds 256 bindings, a further device with a free alias and full
    support is answered as corrupt data, although nothing is corrupt, and the tables stay as
    they were: the rows are loaded again before they are counted, and loading refuses more
    than 256 rows. *)
Theorem full_book_reports_corruption db book candidate evidence r nonce nonce' :
  tables_reachable db → load_trusted_device_bindings_from profile_id db = Ok book →
  len book = MAX_TRUSTED_DEVICE_BINDINGS → resolve_trusted_device candidate evidence = Ok r →
  (∀ b, b ∈ book → binding_alias b ≠ binding_alias candidate ∧ binding_device_id b ≠ binding_device_id candidate) →
  len nonce = NONCE_BYTES → len nonce' = NONCE_BYTES →
  store_trusted_device_binding profile_id db candidate evidence (Some nonce) (Some nonce')
  = (Err ProfileCorruptData, db).
Proof.
  intros [book' Hrep]%reachable_represents Hload Hfull Hr Hfree Hn Hn'.
  rewrite (load_represented _ _ Hrep) in Hload. injection Hload as ->.
  pose proof (store_refines db book candidate evidence nonce nonce' Hrep Hn Hn') as H'.
  destruct (store_trusted_device_binding _ _ _ _ _ _) as [answer db'] eqn:E. destruct H' as (book' & Hs & _).
  assert (len (rebound candidate book) = len book + 1) as Hlen.
  { unfold len. rewrite (Permutation_length (rebound_perm candidate book)). cbn [length].
    rewrite filter_all; [lia|]. intros b Hb. destruct (Hfree b Hb). unfold replaced, by_alias, by_device.
    by rewrite !bool_decide_eq_false_2. }
  inversion Hs as [e Hr'|? _ Hin|? b _ Hb _ Ea _|? _ _ Hroom|]; subst.
  - congruence.
  - by destruct (Hfree _ Hin).
  - by destruct (Hfree b Hb).
  - lia.
  - by rewrite (store_err_unchanged _ _ _ _ _ _ _ E).
Qed.

Lemma binding_represented db book alias b :
  represents db book →
  trusted_device_binding profile_id db alias = Ok b ↔ b ∈ book ∧ binding_alias b = alias.
Proof.
  intros Hrep. unfold trusted_device_binding. rewrite (load_represented _ _ Hrep). cbn [mbind result_bind].
  rewrite ok_or_Ok. split; [apply find_alias_Some|]. intros [Hb Ea].
  destruct (find (by_alias alias) book) as [b'|] eqn:Hf.
  - apply find_alias_Some in Hf as [Hb' Ea']. f_equal. eapply same_alias; [apply Hrep|done..|congruence].
  - pose proof (find_absent _ _ Hf b Hb) as Hb'. unfold by_alias in Hb'. by rewrite bool_decide_eq_true_2 in Hb'.
Qed.

End refinement.
