(* ===== verification/TrustedAliases.v ===== *)
(** * Alias operations of the conversation coordinator

    [Konclave.LocalDaemon: conversation.rs]: gathering the evidence of the current
    memberships page by page, binding an alias and resolving it.  The conversations of the
    profile are the rows of [daemon_conversation] in the order of their identifiers, as
    [load_conversation] returns them.  Binding an alias is two steps, because the evidence is
    gathered before the address book is locked. *)

From S2P Require Import Prelude Identifiers SecretStorage TrustedDevices AddressBook AddressBookProofs.
Open Scope Z_scope.

Definition MAX_TRUSTED_DEVICE_EVIDENCE : Z := 4096.
Definition MAX_CONVERSATION_PAGE_SIZE : Z := 100.

(** What the operations use of a verified credential binding and of a conversation. *)
Record MemberBinding := mk_MemberBinding {
  member_device_id : DeviceId;
  member_root : Ed25519PublicKey;
  member_supports_repeat_pairing : bool }.

Record LocalConversation := mk_LocalConversation {
  local_members : list DeviceId;
  local_bindings : list MemberBinding }.

(** The errors of [ConversationCoordinatorError] these operations return. *)
Inductive CoordinatorError :=
| CoordinatorProfile (e : ProfileStoreError)
| CoordinatorConversationNotFound
| CoordinatorStateMismatch
| CoordinatorTrustedDeviceSelf
| CoordinatorTrustedDeviceRemoved
| CoordinatorTrustedDeviceRootMismatch
| CoordinatorTrustedDeviceRepeatPairingUnsupported
| CoordinatorTrustedDeviceEvidenceCapacity.

Definition coordinator_domain_error (e : KonclaveDomainError) : CoordinatorError :=
  match e with
  | TrustedDeviceRootMismatch => CoordinatorTrustedDeviceRootMismatch
  | TrustedDeviceRemoved => CoordinatorTrustedDeviceRemoved
  | TrustedDeviceRepeatPairingUnsupported => CoordinatorTrustedDeviceRepeatPairingUnsupported
  | _ => CoordinatorStateMismatch
  end.

Section evidence.
Context (conversations : list (ConversationId * LocalConversation)) (local_device : DeviceId).

Definition conversation_ids (after : option ConversationId) (limit : Z) : list ConversationId :=
  take (Z.to_nat limit)
    (fst <$> List.filter (fun c => is_none_or after (fun a => bool_decide (id_compare a c.1 = Lt))) conversations).

Definition load_conversation (id : ConversationId) : result CoordinatorError LocalConversation :=
  ok_or (snd <$> find (fun c => bool_decide (c.1 = id)) conversations) CoordinatorConversationNotFound.

Definition supports_repeat_pairing (c : LocalConversation) : bool :=
  forallb (fun member => existsb (fun b => bool_decide (member_device_id b = member)
                                           && member_supports_repeat_pairing b) (local_bindings c))
    (local_members c).

(** The loop over the members of a conversation. *)
Fixpoint gather_members (id : ConversationId) (c : LocalConversation) (targets : gset DeviceId)
    (members : list DeviceId) (evidence : list TrustedDeviceEvidence)
    : result CoordinatorError (list TrustedDeviceEvidence) :=
  match members with
  | [] => Ok evidence
  | device :: members =>
      if bool_decide (device = local_device) || negb (bool_decide (device ∈ targets))
      then gather_members id c targets members evidence
      else
        binding ← ok_or (find (fun b => bool_decide (member_device_id b = device)) (local_bindings c))
                    CoordinatorStateMismatch;
        fail_if (len evidence =? MAX_TRUSTED_DEVICE_EVIDENCE) CoordinatorTrustedDeviceEvidenceCapacity;;
        gather_members id c targets members
          (evidence ++ [mk_TrustedDeviceEvidence id device (member_root binding) (supports_repeat_pairing c)])
  end.

Definition gather (targets : gset DeviceId) (id : ConversationId) (c : LocalConversation)
    (evidence : list TrustedDeviceEvidence) : result CoordinatorError (list TrustedDeviceEvidence) :=
  if negb (bool_decide (local_device ∈ local_members c)) then Ok evidence
  else gather_members id c targets (local_members c) evidence.

(** The loop over one page of conversations. *)
Fixpoint gather_page (targets : gset DeviceId) (ids : list ConversationId)
    (evidence : list TrustedDeviceEvidence) : result CoordinatorError (list TrustedDeviceEvidence) :=
  match ids with
  | [] => Ok evidence
  | id :: ids =>
      c ← load_conversation id;
      evidence ← gather targets id c evidence;
      gather_page targets ids evidence
  end.

Fixpoint gather_pages (fuel : nat) (targets : gset DeviceId) (after : option ConversationId)
    (evidence : list TrustedDeviceEvidence) : result CoordinatorError (list TrustedDeviceEvidence) :=
  match fuel with
  | O => Ok evidence
  | S fuel =>
      let ids := conversation_ids after MAX_CONVERSATION_PAGE_SIZE in
      match last ids with
      | None => Ok evidence
      | Some final =>
          evidence ← gather_page targets ids evidence;
          if len ids <? MAX_CONVERSATION_PAGE_SIZE then Ok evidence
          else gather_pages fuel targets (Some final) evidence
      end
  end.

Definition trusted_device_evidence (targets : gset DeviceId)
    : result CoordinatorError (list TrustedDeviceEvidence) :=
  if bool_decide (targets = ∅) then Ok []
  else gather_pages (S (length conversations)) targets None [].

(** The loop that finds the one current root of a device. *)
Fixpoint find_root (device : DeviceId) (evidence : list TrustedDeviceEvidence)
    (current : option Ed25519PublicKey) : result CoordinatorError (option Ed25519PublicKey) :=
  match evidence with
  | [] => Ok current
  | candidate :: evidence =>
      if bool_decide (evidence_device_id candidate = device) then
        match current with
        | None => find_root device evidence (Some (evidence_root candidate))
        | Some root =>
            if bool_decide (root = evidence_root candidate) then find_root device evidence current
            else Err CoordinatorTrustedDeviceRootMismatch
        end
      else find_root device evidence current
  end.

Section aliases.
Context `{Sha256} `{Aead} (profile_id : bytes).

Definition bound_devices (bindings : list TrustedDeviceBinding) : gset DeviceId :=
  list_to_set (binding_device_id <$> bindings).

(** The first step of [set_trusted_device_alias]: what it reads before it stores. *)
Definition prepare_trusted_device_alias (db : AddressTables) (device : DeviceId) (alias : TrustedDeviceAlias)
    : result CoordinatorError (TrustedDeviceBinding * list TrustedDeviceEvidence) :=
  fail_if (bool_decide (device = local_device)) CoordinatorTrustedDeviceSelf;;
  existing ← map_err CoordinatorProfile (load_trusted_device_bindings_from profile_id db);
  evidence ← trusted_device_evidence ({[device]} ∪ bound_devices existing);
  current_root ← find_root device evidence None;
  current_root ← ok_or current_root CoordinatorTrustedDeviceRemoved;
  Ok (mk_TrustedDeviceBinding alias device current_root, evidence).

(** The second step: the call of the store. *)
Definition commit_trusted_device_alias (db : AddressTables)
    (prepared : TrustedDeviceBinding * list TrustedDeviceEvidence) (random random' : option bytes)
    : result CoordinatorError TrustedDeviceAliasDecision * AddressTables :=
  let '(answer, db) := store_trusted_device_binding profile_id db prepared.1 prepared.2 random random' in
  (map_err CoordinatorProfile answer, db).

Definition set_trusted_device_alias (db : AddressTables) (device : DeviceId) (alias : TrustedDeviceAlias)
    (random random' : option bytes) : result CoordinatorError TrustedDeviceAliasDecision * AddressTables :=
  match prepare_trusted_device_alias db device alias with
  | Err e => (Err e, db)
  | Ok prepared => commit_trusted_device_alias db prepared random random'
  end.

Definition resolve_trusted_device_alias (db : AddressTables) (alias : TrustedDeviceAlias)
    : result CoordinatorError TrustedDeviceResolution :=
  binding ← map_err CoordinatorProfile (trusted_device_binding profile_id db alias);
  evidence ← trusted_device_evidence {[binding_device_id binding]};
  map_err coordinator_domain_error (resolve_trusted_device binding evidence).

Definition verify_repeat_pairing_peer (id : ConversationId) (peer : DeviceId) (root : Ed25519PublicKey)
    : result CoordinatorError unit :=
  c ← load_conversation id;
  fail_if (negb (bool_decide (local_device ∈ local_members c)) || negb (bool_decide (peer ∈ local_members c)))
    CoordinatorTrustedDeviceRemoved;;
  binding ← ok_or (find (fun b => bool_decide (member_device_id b = peer)) (local_bindings c))
              CoordinatorStateMismatch;
  fail_if (negb (supports_repeat_pairing c)) CoordinatorTrustedDeviceRepeatPairingUnsupported;;
  if bool_decide (member_root binding = root) then Ok ()
  else Err CoordinatorTrustedDeviceRootMismatch.

Record TrustedDeviceSummary := mk_TrustedDeviceSummary {
  summary_alias : text;
  summary_device_id : DeviceId;
  summary_status : TrustedDeviceBindingStatus }.

Definition trusted_devices (db : AddressTables) : result CoordinatorError (list TrustedDeviceSummary) :=
  bindings ← map_err CoordinatorProfile (load_trusted_device_bindings_from profile_id db);
  evidence ← trusted_device_evidence (bound_devices bindings);
  Ok (sort_by summary_alias bytes_compare
        ((fun b => mk_TrustedDeviceSummary (alias_str (binding_alias b)) (binding_device_id b)
                     (trusted_device_binding_status b evidence)) <$> bindings)).

End aliases.

(** ** The pages are one pass over the conversations *)

Fixpoint gather_all (targets : gset DeviceId) (l : list (ConversationId * LocalConversation))
    (evidence : list TrustedDeviceEvidence) : result CoordinatorError (list TrustedDeviceEvidence) :=
  match l with
  | [] => Ok evidence
  | (id, c) :: l => evidence ← gather targets id c evidence; gather_all targets l evidence
  end.

(** The primary key of the table. *)
Context (Hsorted : StronglySorted (key_lt fst id_compare) conversations).

Lemma conversation_keys : NoDup (fst <$> conversations).
Proof. by apply (strictly_sorted_NoDup fst id_compare). Qed.

Lemma load_listed_conversation id c : (id, c) ∈ conversations → load_conversation id = Ok c.
Proof.
  intros Hin. unfold load_conversation.
  destruct (find (fun c => bool_decide (c.1 = id)) conversations) as [[id' c']|] eqn:Hf.
  - apply find_elem in Hf as [Hin' E%bool_decide_eq_true]. simpl in E. subst.
    assert ((id, c') = (id, c)) as [= ->] by by eapply (elem_unique fst); [apply conversation_keys|..]. done.
  - pose proof (find_absent _ _ Hf _ Hin) as E. simpl in E. by rewrite bool_decide_eq_true_2 in E.
Qed.

Lemma gather_page_all targets l : ∀ evidence,
  l ⊆ conversations → gather_page targets (fst <$> l) evidence = gather_all targets l evidence.
Proof.
  induction l as [|[id c] l IH]; intros evidence Hl; simpl; [done|].
  rewrite (load_listed_conversation id c) by (apply Hl; by left). cbn [mbind result_bind].
  destruct (gather targets id c evidence); [|done]. cbn [mbind result_bind]. apply IH.
  intros x Hx. apply Hl. by right.
Qed.

Lemma gather_all_app targets l l' : ∀ evidence,
  gather_all targets (l ++ l') evidence = (gather_all targets l evidence ≫= gather_all targets l').
Proof.
  induction l as [|[id c] l IH]; intros evidence; simpl; [done|].
  by destruct (gather targets id c evidence); simpl.
Qed.

(** What is left after the conversations of the earlier pages. *)
Definition follows (after : option ConversationId) (rest : list (ConversationId * LocalConversation)) : Prop :=
  ∃ seen, conversations = seen ++ rest ∧ after = fst <$> last seen.

Lemma conversation_ids_rest after rest limit :
  follows after rest → conversation_ids after limit = fst <$> take (Z.to_nat limit) rest.
Proof.
  intros (seen & E & ->). unfold conversation_ids. rewrite <- fmap_take. do 2 f_equal. rewrite E, List.filter_app.
  rewrite E in Hsorted. destruct seen as [|final seen _] using rev_ind.
  { simpl. apply filter_all. done. }
  rewrite last_snoc. simpl. apply StronglySorted_app in Hsorted as (Hcross & Hseen & _).
  assert (∀ x, x ∈ rest → key_lt fst id_compare final x) as Hlater.
  { intros x Hx. apply Hcross; [|done]. apply elem_of_app. right. by left. }
  assert (∀ x, x ∈ seen ++ [final] → id_compare final.1 x.1 ≠ Lt) as Hearlier.
  { intros x Hx Hlt. apply elem_of_app in Hx as [Hx|Hx%list_elem_of_singleton].
    - apply StronglySorted_app in Hseen as (Hcross' & _ & _).
      pose proof (Hcross' x final Hx ltac:(by left)) as Hlt'. unfold key_lt in Hlt'.
      rewrite (compare_flip id_compare x.1 final.1) in Hlt. by rewrite Hlt' in Hlt.
    - subst x. by rewrite (compare_refl id_compare) in Hlt. }
  rewrite (filter_none _ (seen ++ [final])), (filter_all _ rest); [done|..].
  - intros x Hx. apply bool_decide_eq_true_2. by apply Hlater.
  - intros x Hx. apply bool_decide_eq_false_2. by apply Hearlier.
Qed.

Lemma gather_pages_all targets fuel : ∀ rest after evidence,
  (length rest < fuel)%nat → follows after rest →
  gather_pages fuel targets after evidence = gather_all targets rest evidence.
Proof.
  induction fuel as [|fuel IH]; intros rest after evidence Hfuel Hf; [lia|]. cbn [gather_pages].
  rewrite (conversation_ids_rest after rest _ Hf). destruct Hf as (seen & E & Ha).
  set (page := take (Z.to_nat MAX_CONVERSATION_PAGE_SIZE) rest).
  assert (rest = page ++ drop (Z.to_nat MAX_CONVERSATION_PAGE_SIZE) rest) as Hrest by (symmetry; apply take_drop).
  rewrite fmap_last. destruct (last page) as [final|] eqn:Hlast; simpl.
  2:{ apply last_None in Hlast. destruct rest; [done|]. by unfold page in Hlast. }
  rewrite gather_page_all by (intros x Hx; rewrite E; apply elem_of_app; right; rewrite Hrest; apply elem_of_app; by left).
  replace (gather_all targets rest evidence)
    with (gather_all targets (page ++ drop (Z.to_nat MAX_CONVERSATION_PAGE_SIZE) rest) evidence) by (by rewrite <- Hrest).
  rewrite gather_all_app. destruct (gather_all targets page evidence) as [evidence'|]; [|done].
  cbn [mbind result_bind]. unfold len at 1. rewrite length_fmap.
  destruct (Z.ltb_spec (Z.of_nat (length page)) MAX_CONVERSATION_PAGE_SIZE) as [Hshort|Hlong].
  - rewrite drop_ge; [done|]. unfold page in Hshort. rewrite length_take in Hshort.
    unfold MAX_CONVERSATION_PAGE_SIZE in *. lia.
  - apply IH.
    + rewrite length_drop. unfold page in Hlong. rewrite length_take in Hlong.
      unfold MAX_CONVERSATION_PAGE_SIZE in *. lia.
    + exists (seen ++ page). rewrite <- (assoc_L (++)), <- Hrest. split; [done|].
      by rewrite last_app, Hlast.
Qed.

Lemma gather_nothing l : ∀ evidence, gather_all ∅ l evidence = Ok evidence.
Proof.
  induction l as [|[id c] l IH]; intros evidence; simpl; [done|].
  assert (gather ∅ id c evidence = Ok evidence) as ->; [|apply IH].
  unfold gather. destruct (negb _); [done|]. generalize (local_members c) at 1. intros members. revert evidence.
  induction members as [|m members IHm]; intros evidence; simpl; [done|]. rewrite orb_true_r. apply IHm.
Qed.

Lemma trusted_device_evidence_all targets :
  trusted_device_evidence targets = gather_all targets conversations [].
Proof.
  unfold trusted_device_evidence. case_bool_decide as Ht; [by rewrite Ht, gather_nothing|].
  apply gather_pages_all; [lia|]. by exists [].
Qed.

(** ** What the evidence says *)

(** A current conversation of this device has the member with this root. *)
Definition attests (e : TrustedDeviceEvidence) : Prop :=
  ∃ c b, (evidence_conversation_id e, c) ∈ conversations ∧ local_device ∈ local_members c
    ∧ evidence_device_id e ∈ local_members c ∧ evidence_device_id e ≠ local_device
    ∧ find (fun b => bool_decide (member_device_id b = evidence_device_id e)) (local_bindings c) = Some b
    ∧ evidence_root e = member_root b ∧ evidence_supports_repeat_pairing e = supports_repeat_pairing c.

Definition member_attests (id : ConversationId) (c : LocalConversation) (targets : gset DeviceId)
    (members : list DeviceId) (e : TrustedDeviceEvidence) : Prop :=
  evidence_conversation_id e = id ∧ evidence_device_id e ∈ members ∧ evidence_device_id e ≠ local_device
  ∧ evidence_device_id e ∈ targets
  ∧ ∃ b, find (fun b => bool_decide (member_device_id b = evidence_device_id e)) (local_bindings c) = Some b
      ∧ evidence_root e = member_root b ∧ evidence_supports_repeat_pairing e = supports_repeat_pairing c.

Lemma gather_members_elem id c targets members : ∀ evidence evidence',
  gather_members id c targets members evidence = Ok evidence' →
  ∀ e, e ∈ evidence' ↔ e ∈ evidence ∨ member_attests id c targets members e.
Proof.
  induction members as [|m members IH]; intros evidence evidence' E e; simpl in E.
  - injection E as <-. split; [by left|]. intros [|(_ & Hm & _)]; [done|]. by apply elem_of_nil in Hm.
  - destruct (bool_decide (m = local_device) || negb (bool_decide (m ∈ targets))) eqn:Hskip.
    + rewrite (IH _ _ E e). apply or_iff_compat_l. split; intros (? & Hm & ? & ? & ?); (split; [done|]).
      * split; [by right|done].
      * apply elem_of_cons in Hm as [Hm|Hm]; [|done]. subst m. exfalso.
        apply orb_true_iff in Hskip as [Hs%bool_decide_eq_true|Hs]; [done|].
        apply negb_true_iff, bool_decide_eq_false in Hs. done.
    + apply orb_false_iff in Hskip as [Hs1%bool_decide_eq_false Hs2]. apply negb_false_iff, bool_decide_eq_true in Hs2.
      apply bind_Ok in E as (b & Hb%ok_or_Ok & E). apply bind_Ok in E as ([] & _ & E).
      rewrite (IH _ _ E e), elem_of_app, list_elem_of_singleton. split.
      * intros [[He| ->]|(? & Hm & ?)]; [by left|right|right]; (split; [done|]).
        -- split; [by left|]. by eauto 10.
        -- split; [by right|done].
      * intros [He|(Hid & Hm & Hrest)]; [by left; left|]. apply elem_of_cons in Hm as [Hm|Hm];
          [|by right; split; [|split]]. left. right.
        destruct Hrest as (_ & _ & b' & Hb' & Hroot & Hsup). rewrite Hm in Hb'. rewrite Hb in Hb'.
        injection Hb' as <-. destruct e; simpl in *. by subst.
Qed.

Lemma gather_all_elem targets l : ∀ evidence evidence',
  gather_all targets l evidence = Ok evidence' →
  ∀ e, e ∈ evidence' ↔ e ∈ evidence ∨ ∃ id c, (id, c) ∈ l ∧ local_device ∈ local_members c
                          ∧ member_attests id c targets (local_members c) e.
Proof.
  induction l as [|[id c] l IH]; intros evidence evidence' E e; simpl in E.
  - injection E as <-. split; [by left|]. intros [|(? & ? & Hin & _)]; [done|]. by apply elem_of_nil in Hin.
  - apply bind_Ok in E as (evidence1 & E1 & E). rewrite (IH _ _ E e).
    assert (e ∈ evidence1 ↔ e ∈ evidence ∨ (local_device ∈ local_members c
      ∧ member_attests id c targets (local_members c) e)) as ->.
    { unfold gather in E1. destruct (bool_decide_reflect (local_device ∈ local_members c)) as [Hin|Hin];
        cbn [negb] in E1.
      - rewrite (gather_members_elem _ _ _ _ _ _ E1 e). tauto.
      - injection E1 as ->. tauto. }
    setoid_rewrite elem_of_cons. split.
    + intros [[?|[? ?]]|(id' & c' & ? & ?)]; [by left|right; exists id, c; auto|right; exists id', c'; auto].
    + intros [?|(id' & c' & [E'|?] & ?)]; [by left; left|injection E' as -> ->; by left; right|right; eauto].
Qed.

Lemma evidence_attests targets evidence :
  trusted_device_evidence targets = Ok evidence →
  ∀ e, e ∈ evidence ↔ attests e ∧ evidence_device_id e ∈ targets.
Proof.
  rewrite trusted_device_evidence_all. intros E e. rewrite (gather_all_elem _ _ _ _ E e). split.
  - intros [He|(id & c & Hin & Hlocal & <- & Hm & Hne & Ht & b & ?)]; [by apply elem_of_nil in He|].
    split; [|done]. exists c, b. tauto.
  - intros [(c & b & Hin & Hlocal & Hm & Hne & Hb) Ht]. right. exists (evidence_conversation_id e), c.
    split; [done|]. split; [done|]. split; [done|]. split_and!; try done. by exists b.
Qed.

(** The root of a device, when every current conversation that has the device agrees on it. *)
Definition attested_root (device : DeviceId) (root : Ed25519PublicKey) : Prop :=
  (∃ e, attests e ∧ evidence_device_id e = device)
  ∧ ∀ e, attests e → evidence_device_id e = device → evidence_root e = root.

Lemma root_current_attested targets evidence device root :
  trusted_device_evidence targets = Ok evidence → device ∈ targets →
  root_current evidence device root ↔ attested_root device root.
Proof.
  intros E Hd. pose proof (evidence_attests _ _ E) as He. unfold root_current, attested_root.
  split; intros [(e & Hin & Ee) Hall]; (split; [exists e|]).
  - split; [by apply He|done].
  - intros e' Hin' Ee'. apply Hall; [|done]. apply He. split; [done|by rewrite Ee'].
  - split; [apply He; split; [done|by rewrite Ee]|done].
  - intros e' Hin' Ee'. apply Hall; [by apply He|done].
Qed.

Section outcome.
Context `{Sha256} `{Aead} (laws : aead_laws) (profile_id : bytes) (Hprofile : 0 < len profile_id <= 1024).

Lemma prepare_spec db book device alias candidate evidence :
  represents profile_id db book →
  prepare_trusted_device_alias profile_id db device alias = Ok (candidate, evidence) →
  binding_alias candidate = alias ∧ binding_device_id candidate = device
  ∧ trusted_device_evidence ({[device]} ∪ bound_devices book) = Ok evidence.
Proof.
  intros Hrep E. unfold prepare_trusted_device_alias in E. apply bind_Ok in E as ([] & _ & E).
  rewrite (load_represented laws profile_id _ _ Hrep) in E. cbn [map_err mbind result_bind] in E.
  apply bind_Ok in E as (evidence' & He & E). apply bind_Ok in E as (o & _ & E).
  apply bind_Ok in E as (root & _ & [= <- <-]). done.
Qed.

Lemma bound_device book b : b ∈ book → binding_device_id b ∈ bound_devices book.
Proof. intros Hb. apply elem_of_list_to_set, list_elem_of_fmap. eauto. Qed.

Lemma set_alias_step db book device alias nonce nonce' answer db' :
  represents profile_id db book → len nonce = NONCE_BYTES → len nonce' = NONCE_BYTES →
  set_trusted_device_alias profile_id db device alias (Some nonce) (Some nonce') = (answer, db') →
  (∃ e, answer = Err e ∧ db' = db)
  ∨ ∃ candidate evidence decision book',
      answer = Ok decision
      ∧ prepare_trusted_device_alias profile_id db device alias = Ok (candidate, evidence)
      ∧ book_step evidence candidate book (Ok decision) book' ∧ represents profile_id db' book'.
Proof.
  intros Hrep Hn Hn' E. unfold set_trusted_device_alias in E.
  destruct (prepare_trusted_device_alias profile_id db device alias) as [[candidate evidence]|e] eqn:Hp;
    [|injection E as <- <-; left; eauto].
  unfold commit_trusted_device_alias in E. cbn [fst snd] in E.
  pose proof (store_refines laws profile_id Hprofile db book candidate evidence nonce nonce' Hrep Hn Hn') as Hs.
  destruct (store_trusted_device_binding _ _ _ _ _ _) as [[decision|e] db''] eqn:Hst; injection E as <- <-.
  - right. destruct Hs as (book' & Hs & Hrep'). exists candidate, evidence, decision, book'. by split_and!.
  - left. exists (CoordinatorProfile e). split; [done|]. by eapply store_err_unchanged.
Qed.

(** What a successful step leaves in the book. *)
Lemma book_step_Ok evidence candidate book decision book' :
  book_ok book → book_step evidence candidate book (Ok decision) book' →
  root_current evidence (binding_device_id candidate) (binding_root candidate)
  ∧ (∀ b, b ∈ book → binding_alias b = binding_alias candidate →
       binding_device_id b ≠ binding_device_id candidate →
       ¬ root_current evidence (binding_device_id b) (binding_root b))
  ∧ ∀ b, b ∈ book' ↔ b = candidate ∨ (b ∈ book ∧ binding_alias b ≠ binding_alias candidate
                                        ∧ binding_device_id b ≠ binding_device_id candidate).
Proof.
  intros Hok Hs. inversion Hs as [|r Hr Hin|?|r Hr [Hnew Hav] _|]; subst; (split; [by eapply resolve_current|]).
  - split.
    + intros b Hb Ea Hne. destruct Hne. by rewrite (same_alias book' b candidate).
    + intros b. split; [|by intros [->|[? _]]]. intros Hb.
      destruct (decide (b = candidate)) as [|Hne]; [by left|right]. split; [done|].
      split; intros E; apply Hne; [by eapply same_alias|].
      eapply (elem_unique binding_device_id); [apply book_devices, Hok|done..].
  - split; [by intros b Hb Ea _; apply Hav|]. intros b. apply rebound_elem.
Qed.

(** C20: binding an alias succeeds only for a device whose root every current conversation
    agrees on, and never takes the alias from another device whose root is current.
    Afterwards the alias names the device with that root, and every other alias names what it
    named before, unless it named this device. *)
Theorem set_alias_outcome db device alias nonce nonce' decision db' :
  tables_reachable profile_id db → len nonce = NONCE_BYTES → len nonce' = NONCE_BYTES →
  set_trusted_device_alias profile_id db device alias (Some nonce) (Some nonce') = (Ok decision, db') →
  ∃ root, attested_root device root
    ∧ trusted_device_binding profile_id db' alias = Ok (mk_TrustedDeviceBinding alias device root)
    ∧ (∀ b, trusted_device_binding profile_id db alias = Ok b → binding_device_id b ≠ device →
         ¬ attested_root (binding_device_id b) (binding_root b))
    ∧ ∀ alias' b, alias' ≠ alias →
        trusted_device_binding profile_id db' alias' = Ok b ↔
        trusted_device_binding profile_id db alias' = Ok b ∧ binding_device_id b ≠ device.
Proof.
  intros [book Hrep]%(reachable_represents laws profile_id Hprofile) Hn Hn' E.
  destruct (set_alias_step _ _ _ _ _ _ _ _ Hrep Hn Hn' E) as [(? & ? & _)|(c & ev & d & book' & _ & Hp & Hs & Hrep')];
    [done|].
  destruct (prepare_spec _ _ _ _ _ _ Hrep Hp) as (<- & <- & Hev).
  destruct (book_step_Ok _ _ _ _ _ (rep_ok _ _ _ Hrep) Hs) as (Hcur & Hstale & Hbook).
  pose proof (fun a b => binding_represented laws profile_id db book a b Hrep) as Hdb.
  pose proof (fun a b => binding_represented laws profile_id db' book' a b Hrep') as Hdb'.
  exists (binding_root c). split_and!.
  - rewrite <- root_current_attested; [exact Hcur|exact Hev|set_solver].
  - apply Hdb'. destruct c. split; [|done]. apply Hbook. by left.
  - intros b [Hb Ea]%Hdb Hne. rewrite <- root_current_attested; [by apply Hstale|exact Hev|].
    apply elem_of_union_r. by apply bound_device.
  - intros alias' b Ha. rewrite Hdb, Hdb', Hbook. split.
    + intros [[->|(? & ? & ?)] ?]; [done|by split_and!].
    + intros [[? <-] ?]. split; [right; by split_and!|done].
Qed.

Lemma evidence_of_targets targets evidence e :
  trusted_device_evidence targets = Ok evidence → e ∈ evidence → evidence_device_id e ∈ targets.
Proof. intros Hev He. by apply (evidence_attests _ _ Hev) in He as [_ ?]. Qed.

(** An insertion says that neither the alias nor the device was bound. *)
Lemma insert_step evidence candidate book book' :
  book_ok book → book_step evidence candidate book (Ok AliasInsert) book' →
  book' = rebound candidate book ∧ (∃ r, resolve_trusted_device candidate evidence = Ok r)
  ∧ ∀ b, b ∈ book → binding_alias b ≠ binding_alias candidate ∧ binding_device_id b ≠ binding_device_id candidate.
Proof.
  intros Hok Hs. inversion Hs as [| | |r Hr Hav Hroom Hd|]; subst. split; [done|]. split; [by exists r|].
  unfold write_decision in Hd.
  destruct (find (by_alias (binding_alias candidate)) book) as [o|] eqn:Ho; [done|].
  destruct (find (by_device (binding_device_id candidate)) book) as [o|] eqn:Hw; [by case_bool_decide|].
  intros b Hb. pose proof (find_absent _ _ Ho b Hb) as Ha. pose proof (find_absent _ _ Hw b Hb) as Hb'.
  unfold by_alias in Ha. unfold by_device in Hb'. by apply bool_decide_eq_false in Ha, Hb'.
Qed.

(** The rows that stay when the owner of the alias goes leave room for the candidate. *)
Lemma rebound_room candidate book b :
  b ∈ book → replaced candidate b = true → len (rebound candidate book) <= len book.
Proof.
  intros Hb Hr. unfold len. rewrite (Permutation_length (rebound_perm candidate book)). cbn [length].
  apply list_elem_of_split in Hb as (l1 & l2 & ->). rewrite List.filter_app, !length_app. cbn [List.filter length].
  rewrite Hr. cbn [negb].
  pose proof (List.filter_length_le (fun b => negb (replaced candidate b)) l1).
  pose proof (List.filter_length_le (fun b => negb (replaced candidate b)) l2). lia.
Qed.

(** A current conversation that has the device with the root, and supports repeated pairing. *)
Definition pairable (device : DeviceId) (root : Ed25519PublicKey) (conversation : ConversationId) : Prop :=
  ∃ e, attests e ∧ evidence_device_id e = device ∧ evidence_root e = root
    ∧ evidence_supports_repeat_pairing e = true ∧ evidence_conversation_id e = conversation.

Lemma bootstraps_pairable targets evidence device root conversation :
  trusted_device_evidence targets = Ok evidence → device ∈ targets →
  bootstraps evidence device root conversation ↔ pairable device root conversation.
Proof.
  intros E Hd. pose proof (evidence_attests _ _ E) as He. unfold bootstraps, pairable.
  split; intros (e & Hin & Ee & Hrest); exists e; (split; [|done]); apply He; [done|].
  split; [done|by rewrite Ee].
Qed.

Lemma pairable_verified device root conversation :
  pairable device root conversation → verify_repeat_pairing_peer conversation device root = Ok ().
Proof.
  intros (e & (c & b & Hin & Hlocal & Hm & Hne & Hb & Hroot & Hsup) & <- & <- & Hs & <-).
  unfold verify_repeat_pairing_peer. rewrite (load_listed_conversation _ _ Hin). cbn [mbind result_bind].
  rewrite !bool_decide_eq_true_2 by done. cbn [negb orb fail_if mbind result_bind].
  rewrite Hb. cbn [ok_or mbind result_bind]. rewrite <- Hsup, Hs. cbn [negb fail_if mbind result_bind].
  by rewrite bool_decide_eq_true_2.
Qed.

(** an alias resolves exactly while every current conversation agrees on the root it is
    bound to and one of them supports repeated pairing.  It then resolves to the bound device
    and root and to the lowest such conversation, over all pages of conversations, and the
    check that later starts the repeated pairing accepts them. *)
Theorem resolve_alias_outcome db alias b evidence r :
  trusted_device_binding profile_id db alias = Ok b →
  trusted_device_evidence {[binding_device_id b]} = Ok evidence →
  (resolve_trusted_device_alias profile_id db alias = Ok r ↔
   attested_root (binding_device_id b) (binding_root b)
   ∧ resolution_device_id r = binding_device_id b ∧ resolution_root r = binding_root b
   ∧ pairable (binding_device_id b) (binding_root b) (resolution_bootstrap r)
   ∧ ∀ c, pairable (binding_device_id b) (binding_root b) c → id_compare (resolution_bootstrap r) c ≠ Gt)
  ∧ (resolve_trusted_device_alias profile_id db alias = Ok r →
     verify_repeat_pairing_peer (resolution_bootstrap r) (resolution_device_id r) (resolution_root r) = Ok ()).
Proof.
  intros Hb Hev. unfold resolve_trusted_device_alias. rewrite Hb. cbn [map_err mbind result_bind].
  rewrite Hev. cbn [mbind result_bind]. rewrite map_err_Ok, trusted_device_resolves.
  rewrite (root_current_attested _ _ _ _ Hev) by (by apply elem_of_singleton).
  assert (∀ c, bootstraps evidence (binding_device_id b) (binding_root b) c
            ↔ pairable (binding_device_id b) (binding_root b) c) as Hp
    by (intros c; apply (bootstraps_pairable _ _ _ _ _ Hev); by apply elem_of_singleton).
  setoid_rewrite Hp. split; [done|]. clear Hp.
  intros (_ & -> & -> & Hp & _). by apply pairable_verified.
Qed.

Lemma find_root_Some device evidence : ∀ current root,
  find_root device evidence current = Ok (Some root) →
  current = Some root ∨ ∃ e, e ∈ evidence ∧ evidence_device_id e = device ∧ evidence_root e = root.
Proof.
  induction evidence as [|e evidence IH]; intros current root E; simpl in E; [left; by injection E|].
  case_bool_decide as Hd; [destruct current as [root'|]|].
  - case_bool_decide as Hr; [|done]. destruct (IH _ _ E) as [?|(e' & ? & ?)]; [by left|].
    right. exists e'. split; [by right|done].
  - destruct (IH _ _ E) as [[= <-]|(e' & ? & ?)]; right; [exists e; split; [by left|done]|].
    exists e'. split; [by right|done].
  - destruct (IH _ _ E) as [?|(e' & ? & ?)]; [by left|]. right. exists e'. split; [by right|done].
Qed.

Lemma prepare_root db book device alias candidate evidence root :
  represents profile_id db book →
  prepare_trusted_device_alias profile_id db device alias = Ok (candidate, evidence) →
  attested_root device root → binding_root candidate = root.
Proof.
  intros Hrep Hp [_ Hall]. destruct (prepare_spec _ _ _ _ _ _ Hrep Hp) as (_ & _ & Hev).
  unfold prepare_trusted_device_alias in Hp. apply bind_Ok in Hp as ([] & _ & E).
  rewrite (load_represented laws profile_id _ _ Hrep) in E. cbn [map_err mbind result_bind] in E.
  rewrite Hev in E. cbn [mbind result_bind] in E. apply bind_Ok in E as (o & Ho & E).
  apply bind_Ok in E as (root' & ->%ok_or_Ok & [= <-]). simpl.
  destruct (find_root_Some _ _ _ _ Ho) as [?|(e & He & Hd & <-)]; [done|]. apply Hall; [|done].
  by apply (evidence_attests _ _ Hev) in He as [? _].
Qed.

Lemma resolve_evidence targets evidence targets' evidence' candidate r :
  trusted_device_evidence targets = Ok evidence → binding_device_id candidate ∈ targets →
  trusted_device_evidence targets' = Ok evidence' → binding_device_id candidate ∈ targets' →
  resolve_trusted_device candidate evidence = Ok r → resolve_trusted_device candidate evidence' = Ok r.
Proof.
  intros E Hd E' Hd'. rewrite !trusted_device_resolves.
  rewrite (root_current_attested _ _ _ _ E Hd), (root_current_attested _ _ _ _ E' Hd').
  intros (? & ? & ? & Hb & Hmin). split_and!; try done.
  - rewrite (bootstraps_pairable _ _ _ _ _ E' Hd'). by rewrite <- (bootstraps_pairable _ _ _ _ _ E Hd).
  - intros c Hc. apply Hmin. rewrite (bootstraps_pairable _ _ _ _ _ E Hd).
    by rewrite <- (bootstraps_pairable _ _ _ _ _ E' Hd').
Qed.

Lemma commit_step db book candidate evidence nonce nonce' :
  represents profile_id db book → len nonce = NONCE_BYTES → len nonce' = NONCE_BYTES →
  ∃ answer db' book',
    commit_trusted_device_alias profile_id db (candidate, evidence) (Some nonce) (Some nonce')
    = (map_err CoordinatorProfile answer, db')
    ∧ book_step evidence candidate book answer book' ∧ represents profile_id db' book'
    ∧ (is_ok answer = false → db' = db).
Proof.
  intros Hrep Hn Hn'. unfold commit_trusted_device_alias. cbn [fst snd].
  pose proof (store_refines laws profile_id Hprofile db book candidate evidence nonce nonce' Hrep Hn Hn') as Hs.
  destruct (store_trusted_device_binding _ _ _ _ _ _) as [answer db'] eqn:Hst. destruct Hs as (book' & Hs & Hrep').
  exists answer, db', book'. split_and!; [done..|]. destruct answer; [done|]. intros _. by eapply store_err_unchanged.
Qed.

(** What an insertion says of its preparation. *)
Lemma prepared_inserted db book device alias candidate evidence nonce nonce' db' :
  represents profile_id db book → len nonce = NONCE_BYTES → len nonce' = NONCE_BYTES →
  prepare_trusted_device_alias profile_id db device alias = Ok (candidate, evidence) →
  commit_trusted_device_alias profile_id db (candidate, evidence) (Some nonce) (Some nonce') = (Ok AliasInsert, db') →
  attested_root device (binding_root candidate) ∧ (∃ r, resolve_trusted_device candidate evidence = Ok r)
  ∧ represents profile_id db' (rebound candidate book)
  ∧ ∀ b, b ∈ book → binding_alias b ≠ alias ∧ binding_device_id b ≠ device.
Proof.
  intros Hrep Hn Hn' Hp Hc. destruct (prepare_spec _ _ _ _ _ _ Hrep Hp) as (<- & <- & Hev).
  destruct (commit_step db book candidate evidence nonce nonce' Hrep Hn Hn') as (answer & ? & book' & E & Hs & Hrep' & _).
  rewrite E in Hc. destruct answer; [|done]. injection Hc as -> ->.
  destruct (insert_step _ _ _ _ (rep_ok _ _ _ Hrep) Hs) as (-> & [r Hr] & Hfree).
  split; [|split; [by exists r|done]].
  rewrite <- root_current_attested; [by eapply resolve_current|exact Hev|set_solver].
Qed.

(** The second operation, with the evidence it gathered late or early. *)
Section overlap.
Context (book : list TrustedDeviceBinding) (owner candidate : TrustedDeviceBinding).
Context (Halias : binding_alias owner = binding_alias candidate).
Context (Hdevice : binding_device_id owner ≠ binding_device_id candidate).
Context (Hfree : ∀ b, b ∈ book → binding_alias b ≠ binding_alias candidate).

Lemma overlap_owner b : b ∈ rebound owner book → binding_alias b = binding_alias candidate → b = owner.
Proof. intros [->|(Hb & _)]%rebound_elem Ha; [done|]. by destruct (Hfree b Hb). Qed.

Lemma overlap_absent : candidate ∉ rebound owner book.
Proof. intros Hin. destruct Hdevice. by rewrite (overlap_owner candidate Hin eq_refl). Qed.

Lemma overlap_late evidence r answer book' :
  resolve_trusted_device candidate evidence = Ok r →
  root_current evidence (binding_device_id owner) (binding_root owner) →
  book_step evidence candidate (rebound owner book) answer book' →
  answer = Err ProfileTrustedDeviceAliasConflict.
Proof.
  intros Hr Hcur Hs. assert (owner ∈ rebound owner book) as Hin by (apply rebound_elem; by left).
  inversion Hs as [e Hr'|? _ Hc|?|? _ [_ Hav]|? _ [_ Hav]]; subst; [congruence|by destruct (overlap_absent Hc)|done|..];
    by destruct (Hav owner Hin Halias).
Qed.

Lemma overlap_early targets evidence r answer book' :
  resolve_trusted_device candidate evidence = Ok r → trusted_device_evidence targets = Ok evidence →
  binding_device_id owner ∉ targets → len (rebound owner book) <= MAX_TRUSTED_DEVICE_BINDINGS →
  book_step evidence candidate (rebound owner book) answer book' →
  answer = Ok AliasRebindStale ∧ candidate ∈ book'.
Proof.
  intros Hr Hev Ht Hroom Hs. assert (owner ∈ rebound owner book) as Hin by (apply rebound_elem; by left).
  inversion Hs as [e Hr'|? _ Hc|? b _ Hb _ Ha [(e & He & Hd) _]|? _ _ _|? _ _ Hfull]; subst.
  - congruence.
  - by destruct (overlap_absent Hc).
  - rewrite (overlap_owner b Hb Ha) in Hd. destruct Ht. rewrite <- Hd. by eapply evidence_of_targets.
  - split; [|apply rebound_elem; by left]. unfold write_decision.
    destruct (find (by_alias (binding_alias candidate)) (rebound owner book)) eqn:Hf; [done|].
    pose proof (find_absent _ _ Hf owner Hin) as Hf'. unfold by_alias in Hf'.
    by rewrite bool_decide_eq_true_2 in Hf'.
  - pose proof (rebound_room candidate (rebound owner book) owner Hin) as Hlen.
    unfold replaced, by_alias in Hlen. rewrite bool_decide_eq_true_2 in Hlen by done. specialize (Hlen eq_refl). lia.
Qed.

End overlap.

(** C35: two alias operations that overlap break what they keep when they do not.  Both
    devices could take the free alias alone.  When the second operation gathers its evidence
    before the first one stores, it takes the alias from the first device as if that device
    were stale, although its root is still current; had it started afterwards, it would have
    been refused with an alias conflict. *)
Theorem alias_race db first second alias nonce nonce' prepared fresh alone db1 :
  tables_reachable profile_id db → first ≠ second → len nonce = NONCE_BYTES → len nonce' = NONCE_BYTES →
  prepare_trusted_device_alias profile_id db second alias = Ok prepared →
  commit_trusted_device_alias profile_id db prepared (Some nonce) (Some nonce') = (Ok AliasInsert, alone) →
  set_trusted_device_alias profile_id db first alias (Some nonce) (Some nonce') = (Ok AliasInsert, db1) →
  prepare_trusted_device_alias profile_id db1 second alias = Ok fresh →
  (∃ root, attested_root first root)
  ∧ commit_trusted_device_alias profile_id db1 fresh (Some nonce) (Some nonce')
    = (Err (CoordinatorProfile ProfileTrustedDeviceAliasConflict), db1)
  ∧ ∃ db2, commit_trusted_device_alias profile_id db1 prepared (Some nonce) (Some nonce') = (Ok AliasRebindStale, db2)
      ∧ trusted_device_binding profile_id db2 alias = Ok prepared.1
      ∧ binding_device_id prepared.1 = second.
Proof.
  intros [book Hrep]%(reachable_represents laws profile_id Hprofile) Hne Hn Hn' Hp Hc Hset Hf.
  unfold set_trusted_device_alias in Hset.
  destruct (prepare_trusted_device_alias profile_id db first alias) as [[c1 ev1]|] eqn:Hp1; [|done].
  destruct prepared as [c2 ev2], fresh as [c3 ev3].
  destruct (prepared_inserted _ _ _ _ _ _ _ _ _ Hrep Hn Hn' Hp1 Hset) as (Hatt1 & _ & Hrep1 & Hfree1).
  destruct (prepared_inserted _ _ _ _ _ _ _ _ _ Hrep Hn Hn' Hp Hc) as (Hatt2 & [r Hr2] & _ & _).
  destruct (prepare_spec _ _ _ _ _ _ Hrep Hp1) as (Ha1 & Hd1 & _).
  destruct (prepare_spec _ _ _ _ _ _ Hrep Hp) as (Ha2 & Hd2 & Hev2).
  destruct (prepare_spec _ _ _ _ _ _ Hrep1 Hf) as (Ha3 & Hd3 & Hev3).
  assert (c3 = c2) as ->.
  { pose proof (prepare_root _ _ _ _ _ _ _ Hrep1 Hf Hatt2). destruct c2, c3. simpl in *. congruence. }
  assert (∀ b, b ∈ book → binding_alias b ≠ binding_alias c2) as Hfree by (intros b Hb; rewrite Ha2; by apply Hfree1).
  assert (binding_alias c1 = binding_alias c2) as Ha by congruence.
  assert (binding_device_id c1 ≠ binding_device_id c2) as Hd by congruence.
  split; [by eexists|]. split.
  - destruct (commit_step _ _ c2 ev3 nonce nonce' Hrep1 Hn Hn') as (answer & db' & book' & -> & Hs & _ & Hsame).
    assert (resolve_trusted_device c2 ev3 = Ok r) as Hr3.
    { eapply (resolve_evidence _ ev2 _ ev3); [exact Hev2|set_solver|exact Hev3|set_solver|done]. }
    assert (root_current ev3 (binding_device_id c1) (binding_root c1)) as Hcur.
    { rewrite (root_current_attested _ _ _ _ Hev3), Hd1; [done|].
      apply elem_of_union_r, bound_device, rebound_elem. by left. }
    rewrite (overlap_late book c1 c2 Ha Hd Hfree ev3 r answer book' Hr3 Hcur Hs) in Hsame |- *. by rewrite Hsame.
  - destruct (commit_step _ _ c2 ev2 nonce nonce' Hrep1 Hn Hn') as (answer & db' & book' & -> & Hs & Hrep2 & _).
    exists db'. destruct (overlap_early book c1 c2 Ha Hd Hfree _ ev2 r answer book' Hr2 Hev2) as [-> Hin]; [|by apply Hrep1|done|].
    + rewrite elem_of_union, elem_of_singleton, Hd1. intros [?|Hb]; [done|].
      apply elem_of_list_to_set, list_elem_of_fmap in Hb as (b & Eb & Hb). by destruct (Hfree1 b Hb).
    + split; [done|]. split; [|done]. by apply (binding_represented laws profile_id _ _ _ _ Hrep2).
Qed.

End outcome.

End evidence.
