(* ===== verification/LocalGrants.v ===== *)
(** * Session grants of the local service

    [Konclave.LocalServiceTransport: identifiers.rs, grant.rs, authorization_binding.rs,
    handshake.rs]: the values of the authorization protocol and the registry that answers,
    for a live connection, which issuers and grants are active.  A value with a checked
    constructor is a [checked] raw value, as its private field makes it in the source. *)

From Stdlib Require Import Eqdep_dec.
From S2P Require Import Prelude Identifiers.
Open Scope Z_scope.

(** ** Checked values *)

Record checked {A} (ok : A → bool) := mk_checked { raw : A; raw_ok : ok raw = true }.
Arguments mk_checked {A ok} raw raw_ok.
Arguments raw {A ok} c.
Arguments raw_ok {A ok} c.

Lemma raw_inj {A} (ok : A → bool) (x y : checked ok) : raw x = raw y → x = y.
Proof. destruct x as [x Hx], y as [y Hy]. simpl. intros ->. f_equal. apply UIP_dec, bool_dec. Qed.

Global Instance checked_eq_dec `{EqDecision A} (ok : A → bool) : EqDecision (checked ok).
Proof.
  intros x y. destruct (decide (raw x = raw y)) as [H|H]; [left; by apply raw_inj|right; congruence].
Defined.

Definition check {E A} (ok : A → bool) (e : E) (value : A) : result E (checked ok) :=
  match bool_dec (ok value) true with left H => Ok (mk_checked value H) | right _ => Err e end.

Lemma check_raw {E A} (ok : A → bool) (e : E) (x : checked ok) : check ok e (raw x) = Ok x.
Proof.
  unfold check. destruct (bool_dec (ok (raw x)) true) as [H|H]; [f_equal; by apply raw_inj|].
  destruct H. apply raw_ok.
Qed.

Lemma check_Ok {E A} (ok : A → bool) (e : E) value x : check ok e value = Ok x → raw x = value.
Proof. unfold check. destruct (bool_dec _ _); [|done]. by intros [= <-]. Qed.

Lemma check_pass {E A} (ok : A → bool) (e : E) value :
  ok value = true → ∃ x, check ok e value = Ok x ∧ raw x = value.
Proof. intros H. unfold check. destruct (bool_dec _ _); [by eexists|done]. Qed.

(** The derived order of a wrapper. *)
Definition raw_compare {A} {ok : A → bool} (cmp : A → A → comparison) (x y : checked ok) : comparison :=
  cmp (raw x) (raw y).

Global Instance raw_compare_total {A} {ok : A → bool} (cmp : A → A → comparison) :
  TotalCompare cmp → TotalCompare (@raw_compare A ok cmp).
Proof.
  intros T. split; unfold raw_compare.
  - intros x y. rewrite (compare_eq cmp). split; [apply raw_inj|congruence].
  - intros x y. apply (compare_flip cmp).
  - intros x y z. apply (compare_lt_trans cmp).
Qed.

(** ** Identifiers *)

Inductive LocalServiceTransportError :=
| UnsupportedVersion | ClientUpgradeRequired | ServiceUpgradeRequired
| TransportFrameTooLarge | MalformedFrame | UnknownMessageKind | UnexpectedMessage
| ChannelClosed | HandshakeTimeout | ChallengeExhausted
| InvalidIdentifier (field : string)
| UnknownHarnessKind | UnknownErrorCode | InvalidEvidence | InvalidCapabilities | InvalidGrant
| DuplicateGrant | GrantLimitReached | UnknownAdapterRegistration
| HarnessNotAuthorized | ProfileNotAuthorized | DuplicateRegistration | RegistrationLimitReached
| UnauthenticClient | UnauthenticService | ServiceKeyMismatch | RequestOutOfBounds
| InvalidEndpoint | EndpointUnavailable | EndpointNotOwnerProtected | EndpointInUse
| UnauthorizedPeer | PeerVerificationUnavailable | UnusableKeyMaterial.

(** A fixed-length identifier. *)
Definition array_ok (n : nat) (value : bytes) : bool := (length value =? n)%nat.

Abbreviation IssuerKeyId := (checked (array_ok 16)).
Abbreviation ClientInstanceId := (checked (array_ok 16)).
Abbreviation RequestId := (checked (array_ok 16)).
Abbreviation SessionGrantId := (checked (array_ok 16)).

Definition array_compare {n} : checked (array_ok n) → checked (array_ok n) → comparison := raw_compare bytes_compare.

Global Instance array_compare_total n : TotalCompare (@array_compare n).
Proof. apply raw_compare_total, _. Qed.

Definition issuer_key_version_ok (value : Z) : bool := (1 <=? value) && (value <=? U32_MAX).
Abbreviation IssuerKeyVersion := (checked issuer_key_version_ok).

Definition IssuerKeyVersion_new (value : Z) : result LocalServiceTransportError IssuerKeyVersion :=
  check issuer_key_version_ok (InvalidIdentifier "issuer_key_version") value.

Inductive HarnessKind := Copilot | ClaudeCode | Codex | Generic | A2AGateway.

Global Instance HarnessKind_eq_dec : EqDecision HarnessKind.
Proof. solve_decision. Defined.

Definition wire_value (h : HarnessKind) : Z :=
  match h with Copilot => 1 | ClaudeCode => 2 | Codex => 3 | Generic => 4 | A2AGateway => 5 end.

Definition from_wire_value (value : Z) : result LocalServiceTransportError HarnessKind :=
  match value with
  | 1 => Ok Copilot | 2 => Ok ClaudeCode | 3 => Ok Codex | 4 => Ok Generic | 5 => Ok A2AGateway
  | _ => Err UnknownHarnessKind
  end.

Lemma from_wire_value_own h : from_wire_value (wire_value h) = Ok h.
Proof. by destruct h. Qed.

Definition MAX_PROFILE_ID_LENGTH : Z := 32.

Definition service_profile_ok (value : text) : bool :=
  negb ((len value =? 0) || (MAX_PROFILE_ID_LENGTH <? len value))
  && forallb (fun b => is_ascii_lowercase b || is_ascii_digit b
                       || bool_decide (b = "-"%byte) || bool_decide (b = "_"%byte)) value.

Abbreviation ServiceProfileId := (checked service_profile_ok).

Definition ServiceProfileId_parse (value : text) : result LocalServiceTransportError ServiceProfileId :=
  check service_profile_ok (InvalidIdentifier "profile") value.

Lemma service_profile_length (p : ServiceProfileId) : 1 <= len (raw p) <= 32.
Proof.
  destruct p as [value H]. cbn [raw]. unfold service_profile_ok, MAX_PROFILE_ID_LENGTH in H. bool_prop in H.
  pose proof (len_nonneg value). lia.
Qed.

Inductive ProfileAuthorization :=
| AuthProfile (allowed : ServiceProfileId)
| AuthNamespace (label : ServiceProfileId)
| AuthAll.

Global Instance ProfileAuthorization_eq_dec : EqDecision ProfileAuthorization.
Proof. solve_decision. Defined.

Definition permits (a : ProfileAuthorization) (profile : ServiceProfileId) : bool :=
  match a with
  | AuthProfile allowed => bool_decide (allowed = profile)
  | AuthNamespace label =>
      let label := raw label in
      let requested := raw profile in
      bool_decide (requested = label)
      || ((len label <? len requested)
          && bool_decide (take (length label) requested = label)
          && bool_decide (requested !! length label = Some "-"%byte))
  | AuthAll => true
  end.

(** [AuthorizationRegistration], under its name in protocol version 2. *)
Record IssuerRegistration := mk_IssuerRegistration {
  registration_public_key : Ed25519PublicKey;
  registration_harness : HarnessKind;
  registration_profiles : ProfileAuthorization }.

Global Instance IssuerRegistration_eq_dec : EqDecision IssuerRegistration.
Proof. solve_decision. Defined.

Record InstalledIssuerRegistration := mk_InstalledIssuerRegistration {
  installed_key_id : IssuerKeyId;
  installed_key_version : IssuerKeyVersion;
  installed_registration : IssuerRegistration }.

(** ** Evidence, policies and capabilities *)

Definition MAX_POLICY_CLAUSES : Z := 8.
Definition MAX_SESSION_GRANTS : Z := 256.
Definition MAX_GRANTS_PER_ISSUER : Z := 128.
Definition MAX_GRANTS_PER_PROFILE : Z := 32.
Definition MAX_ADAPTER_REGISTRATIONS : Z := 256.

Inductive AuthorizationEvidenceKind := AccountTrusted | UserPresence | HarnessAttested | WorkloadIdentity.

Definition evidence_bit (kind : AuthorizationEvidenceKind) : Z :=
  match kind with AccountTrusted => 1 | UserPresence => 2 | HarnessAttested => 4 | WorkloadIdentity => 8 end.

Definition EVIDENCE_KNOWN_BITS : Z := 15.

(** [bits == 0 || bits & !KNOWN_BITS != 0] refuses. *)
Definition evidence_ok (bits : Z) : bool :=
  (0 <=? bits) && negb ((bits =? 0) || negb (Z.ldiff bits EVIDENCE_KNOWN_BITS =? 0)).

Abbreviation AuthorizationEvidenceSet := (checked evidence_ok).

Definition AuthorizationEvidenceSet_from_bits (bits : Z) : result LocalServiceTransportError AuthorizationEvidenceSet :=
  check evidence_ok InvalidEvidence bits.

(** The loop of [AuthorizationEvidenceSet::new]. *)
Fixpoint evidence_bits_of (bits : Z) (evidence : list AuthorizationEvidenceKind) : result LocalServiceTransportError Z :=
  match evidence with
  | [] => Ok bits
  | kind :: evidence =>
      fail_if (negb (Z.land bits (evidence_bit kind) =? 0)) InvalidEvidence;;
      evidence_bits_of (Z.lor bits (evidence_bit kind)) evidence
  end.

Definition AuthorizationEvidenceSet_new (evidence : list AuthorizationEvidenceKind)
    : result LocalServiceTransportError AuthorizationEvidenceSet :=
  bits ← evidence_bits_of 0 evidence; AuthorizationEvidenceSet_from_bits bits.

Definition satisfies (evidence required : AuthorizationEvidenceSet) : bool :=
  Z.land (raw evidence) (raw required) =? raw required.

Lemma known_bits_range bits : 0 <= bits → Z.ldiff bits 15 = 0 → bits <= 15.
Proof.
  intros H0 H. change 15 with (Z.ones 4) in H. rewrite Z.ldiff_ones_r in H by lia.
  apply Z.shiftl_eq_0_iff in H; [|lia]. rewrite Z.shiftr_div_pow2 in H by lia.
  destruct (Z.div_small_iff bits (2 ^ 4) ltac:(lia)) as [Hd _]. destruct (Hd H); lia.
Qed.

Lemma evidence_range (e : AuthorizationEvidenceSet) : 1 <= raw e <= 15.
Proof.
  destruct e as [bits H]. cbn [raw]. unfold evidence_ok, EVIDENCE_KNOWN_BITS in H. bool_prop in H.
  destruct H as [H0 [H1 H2]]. pose proof (known_bits_range _ H0 H2). lia.
Qed.

Definition policy_version_ok (value : Z) : bool := 1 <=? value.
Abbreviation AuthorizationPolicyVersion := (checked policy_version_ok).

Definition AuthorizationPolicyVersion_new (value : Z) : result LocalServiceTransportError AuthorizationPolicyVersion :=
  check policy_version_ok (InvalidIdentifier "authorization_policy_version") value.

Record PolicyClauses := mk_PolicyClauses {
  clauses_version : AuthorizationPolicyVersion;
  clauses_list : list AuthorizationEvidenceSet }.

Global Instance PolicyClauses_eq_dec : EqDecision PolicyClauses.
Proof. solve_decision. Defined.

Definition ascending (x y : AuthorizationEvidenceSet) : bool := raw x <? raw y.

(** Between one and eight clauses in strictly ascending order. *)
Definition policy_ok (p : PolicyClauses) : bool :=
  (1 <=? len (clauses_list p)) && (len (clauses_list p) <=? MAX_POLICY_CLAUSES)
  && negb (adjacent_any (fun x y => negb (ascending x y)) (clauses_list p)).

Abbreviation AuthorizationPolicy := (checked policy_ok).

Definition policy_version (p : AuthorizationPolicy) : AuthorizationPolicyVersion := clauses_version (raw p).
Definition policy_clauses (p : AuthorizationPolicy) : list AuthorizationEvidenceSet := clauses_list (raw p).

Definition AuthorizationPolicy_new (version : AuthorizationPolicyVersion) (clauses : list AuthorizationEvidenceSet)
    : result LocalServiceTransportError AuthorizationPolicy :=
  let clauses := sort_by id (raw_compare Z.compare) clauses in
  fail_if ((len clauses =? 0) || (MAX_POLICY_CLAUSES <? len clauses)
           || adjacent_any (fun x y => bool_decide (x = y)) clauses) InvalidEvidence;;
  check policy_ok InvalidEvidence (mk_PolicyClauses version clauses).

Definition policy_accepts (p : AuthorizationPolicy) (evidence : AuthorizationEvidenceSet) : bool :=
  existsb (satisfies evidence) (policy_clauses p).

Definition CAPABILITIES_KNOWN_BITS : Z := 15.

Definition capabilities_ok (bits : Z) : bool :=
  (0 <=? bits) && negb ((bits =? 0) || negb (Z.ldiff bits CAPABILITIES_KNOWN_BITS =? 0)).

Abbreviation SessionCapabilities := (checked capabilities_ok).

Definition SessionCapabilities_from_bits (bits : Z) : result LocalServiceTransportError SessionCapabilities :=
  check capabilities_ok InvalidCapabilities bits.

Lemma capabilities_range (c : SessionCapabilities) : 1 <= raw c <= 15.
Proof.
  destruct c as [bits H]. cbn [raw]. unfold capabilities_ok, CAPABILITIES_KNOWN_BITS in H. bool_prop in H.
  destruct H as [H0 [H1 H2]]. pose proof (known_bits_range _ H0 H2). lia.
Qed.

(** ** Grants *)

Record SessionGrantClaims := mk_SessionGrantClaims {
  claims_grant_id : SessionGrantId;
  claims_issuer_key_id : IssuerKeyId;
  claims_issuer_key_version : IssuerKeyVersion;
  claims_profile : ServiceProfileId;
  claims_session_public_key : Ed25519PublicKey;
  claims_harness : HarnessKind;
  claims_evidence : AuthorizationEvidenceSet;
  claims_policy_version : AuthorizationPolicyVersion;
  claims_issued_at : Z;
  claims_expires_at : Z;
  claims_capabilities : SessionCapabilities }.

Global Instance SessionGrantClaims_eq_dec : EqDecision SessionGrantClaims.
Proof. solve_decision. Defined.

(** Expiry is after issuance; both are unsigned. *)
Definition grant_ok (c : SessionGrantClaims) : bool :=
  (0 <=? claims_issued_at c) && (claims_issued_at c <? claims_expires_at c).

Abbreviation SessionGrant := (checked grant_ok).

Definition SessionGrant_new (c : SessionGrantClaims) : result LocalServiceTransportError SessionGrant :=
  fail_if (claims_expires_at c <=? claims_issued_at c) InvalidGrant;;
  check grant_ok InvalidGrant c.

Definition grant_id (g : SessionGrant) : SessionGrantId := claims_grant_id (raw g).
Definition grant_issuer_key_id (g : SessionGrant) : IssuerKeyId := claims_issuer_key_id (raw g).
Definition grant_issuer_key_version (g : SessionGrant) : IssuerKeyVersion := claims_issuer_key_version (raw g).
Definition grant_profile (g : SessionGrant) : ServiceProfileId := claims_profile (raw g).
Definition grant_session_public_key (g : SessionGrant) : Ed25519PublicKey := claims_session_public_key (raw g).
Definition grant_harness (g : SessionGrant) : HarnessKind := claims_harness (raw g).
Definition grant_evidence (g : SessionGrant) : AuthorizationEvidenceSet := claims_evidence (raw g).
Definition grant_policy_version (g : SessionGrant) : AuthorizationPolicyVersion := claims_policy_version (raw g).
Definition grant_issued_at (g : SessionGrant) : Z := claims_issued_at (raw g).
Definition grant_expires_at (g : SessionGrant) : Z := claims_expires_at (raw g).
Definition grant_capabilities (g : SessionGrant) : SessionCapabilities := claims_capabilities (raw g).

Lemma grant_times (g : SessionGrant) : 0 <= grant_issued_at g < grant_expires_at g.
Proof.
  destruct g as [c H]. unfold grant_issued_at, grant_expires_at. cbn [raw]. unfold grant_ok in H. bool_prop in H.
  exact H.
Qed.

Lemma SessionGrant_new_raw (g : SessionGrant) : SessionGrant_new (raw g) = Ok g.
Proof.
  unfold SessionGrant_new. pose proof (grant_times g) as H. unfold grant_issued_at, grant_expires_at in H.
  pass_guard by (apply Z.leb_gt; lia). apply check_raw.
Qed.

Definition issuer_key (g : SessionGrant) : IssuerKeyId * IssuerKeyVersion :=
  (grant_issuer_key_id g, grant_issuer_key_version g).

(** A registration covers the harness and the profile of a grant. *)
Definition harness_allowed (r : IssuerRegistration) (h : HarnessKind) : bool :=
  bool_decide (registration_harness r = h) || bool_decide (registration_harness r = Generic).

(** ** The live registry *)

Record GrantRegistry := mk_GrantRegistry {
  registry_issuers : list (IssuerKeyId * IssuerKeyVersion * IssuerRegistration);
  registry_grants : list SessionGrant }.

Definition empty_registry : GrantRegistry := mk_GrantRegistry [] [].

Definition find_issuer (key : IssuerKeyId * IssuerKeyVersion)
    (issuers : list (IssuerKeyId * IssuerKeyVersion * IssuerRegistration)) : option IssuerRegistration :=
  snd <$> find (fun entry => bool_decide (entry.1 = key)) issuers.

Definition count {A} (p : A → bool) (l : list A) : Z := len (List.filter p l).

(** The three quotas on active grants. *)
Definition grants_full (grants : list SessionGrant) (g : SessionGrant) : bool :=
  (MAX_SESSION_GRANTS <=? len grants)
  || (MAX_GRANTS_PER_ISSUER <=? count (fun e => bool_decide (grant_issuer_key_id e = grant_issuer_key_id g)) grants)
  || (MAX_GRANTS_PER_PROFILE <=? count (fun e => bool_decide (grant_profile e = grant_profile g)) grants).

(** The loop over the issuers of [replace]. *)
Fixpoint replace_issuers (issuers : list InstalledIssuerRegistration)
    (replacement : list (IssuerKeyId * IssuerKeyVersion * IssuerRegistration))
    : result LocalServiceTransportError (list (IssuerKeyId * IssuerKeyVersion * IssuerRegistration)) :=
  match issuers with
  | [] => Ok replacement
  | issuer :: issuers =>
      let key := (installed_key_id issuer, installed_key_version issuer) in
      fail_if (existsb (fun entry => bool_decide (entry.1 = key)) replacement) DuplicateRegistration;;
      replace_issuers issuers (replacement ++ [(key, installed_registration issuer)])
  end.

(** The loop over the grants of [replace]. *)
Fixpoint replace_grants (issuers : list (IssuerKeyId * IssuerKeyVersion * IssuerRegistration)) (now : Z)
    (grants replacement : list SessionGrant) : result LocalServiceTransportError (list SessionGrant) :=
  match grants with
  | [] => Ok replacement
  | grant :: grants =>
      fail_if (grant_expires_at grant <=? now) InvalidGrant;;
      registration ← ok_or (find_issuer (issuer_key grant) issuers) UnknownAdapterRegistration;
      fail_if (negb (harness_allowed registration (grant_harness grant))) HarnessNotAuthorized;;
      fail_if (negb (permits (registration_profiles registration) (grant_profile grant))) ProfileNotAuthorized;;
      fail_if (existsb (fun e => bool_decide (grant_id e = grant_id grant)) replacement) DuplicateGrant;;
      fail_if (grants_full replacement grant) GrantLimitReached;;
      replace_grants issuers now grants (replacement ++ [grant])
  end.

(** The registry is unchanged on failure. *)
Definition registry_replace (issuers : list InstalledIssuerRegistration) (grants : list SessionGrant) (now : Z)
    : result LocalServiceTransportError GrantRegistry :=
  fail_if (MAX_ADAPTER_REGISTRATIONS <? len issuers) RegistrationLimitReached;;
  issuers ← replace_issuers issuers [];
  grants ← replace_grants issuers now grants [];
  Ok (mk_GrantRegistry issuers grants).

Definition registry_register_issuer (r : GrantRegistry) (key : IssuerKeyId * IssuerKeyVersion)
    (registration : IssuerRegistration) : result LocalServiceTransportError GrantRegistry :=
  fail_if (existsb (fun entry => bool_decide (entry.1 = key)) (registry_issuers r)) DuplicateRegistration;;
  fail_if (len (registry_issuers r) =? MAX_ADAPTER_REGISTRATIONS) RegistrationLimitReached;;
  Ok (mk_GrantRegistry (registry_issuers r ++ [(key, registration)]) (registry_grants r)).

(** Expired grants are reclaimed even when the grant is refused. *)
Definition registry_issue_grant (r : GrantRegistry) (g : SessionGrant) (now : Z)
    : result LocalServiceTransportError unit * GrantRegistry :=
  let kept := List.filter (fun e => now <? grant_expires_at e) (registry_grants r) in
  let reclaimed := mk_GrantRegistry (registry_issuers r) kept in
  if existsb (fun e => bool_decide (grant_id e = grant_id g)) kept then (Err DuplicateGrant, reclaimed)
  else if grants_full kept g then (Err GrantLimitReached, reclaimed)
  else (Ok (), mk_GrantRegistry (registry_issuers r) (kept ++ [g])).

Definition registry_revoke_grant (r : GrantRegistry) (id : SessionGrantId) : bool * GrantRegistry :=
  let kept := List.filter (fun e => negb (bool_decide (grant_id e = id))) (registry_grants r) in
  (negb (len (registry_grants r) =? len kept), mk_GrantRegistry (registry_issuers r) kept).

Definition registry_active_issuer (r : GrantRegistry) (key : IssuerKeyId * IssuerKeyVersion) : option IssuerRegistration :=
  find_issuer key (registry_issuers r).

Definition registry_active_grant (r : GrantRegistry) (id : SessionGrantId) (now : Z) : option SessionGrant :=
  find (fun e => bool_decide (grant_id e = id) && (now <? grant_expires_at e)) (registry_grants r).

(** The number of active grants in all, of one issuer and of one profile; expired grants are reclaimed. *)
Definition registry_grant_capacity (r : GrantRegistry) (id : IssuerKeyId) (profile : ServiceProfileId) (now : Z)
    : (Z * Z * Z) * GrantRegistry :=
  let kept := List.filter (fun e => now <? grant_expires_at e) (registry_grants r) in
  ((len kept, count (fun e => bool_decide (grant_issuer_key_id e = id)) kept,
    count (fun e => bool_decide (grant_profile e = profile)) kept), mk_GrantRegistry (registry_issuers r) kept).

Inductive AuthorizationBinding :=
| BindingIssuer (key : IssuerKeyId * IssuerKeyVersion) (public_key : Ed25519PublicKey)
    (client : ClientInstanceId) (harness : HarnessKind)
| BindingSession (grant : SessionGrant) (client : ClientInstanceId).

Definition registry_authorizes_binding (r : GrantRegistry) (binding : AuthorizationBinding) (now : Z) : bool :=
  match binding with
  | BindingIssuer key public_key _ harness =>
      is_some_and (registry_active_issuer r key) (fun registration =>
        bool_decide (registration_public_key registration = public_key) && harness_allowed registration harness)
  | BindingSession grant _ =>
      is_some_and (registry_active_grant r (grant_id grant) now) (fun active => bool_decide (active = grant))
  end.
