(* ===== verification/AuthorizationStore.v ===== *)
(** * The durable authorization store of the local service

    [Konclave.LocalAuthorizationStore: store.rs, model.rs, error.rs].  The database is a record
    of tables whose rows are in the order of their primary keys; a column that the schema
    constrains to a fixed-length blob holds an identifier, every other column its SQL value.
    An operation runs in one immediate transaction and returns its answer, the tables and the
    generation this process has observed.  The WebAuthn document parser is a parameter. *)

From S2P Require Import Prelude Identifiers LocalGrants.
Open Scope Z_scope.

Definition MAX_TERMINAL_GRANT_RECORDS : Z := 256.
Definition MAX_GRANT_IDENTIFIERS : Z := 1048576.
Definition MAX_AUTHORIZATION_AUDIT_RECORDS : Z := 256.
Definition MAX_SUSPENDED_PROFILES : Z := 256.
Definition MAX_USER_PRESENCE_CREDENTIAL_IDENTIFIERS : Z := 256.
Definition MAX_USER_PRESENCE_PROVIDER_ID_LENGTH : Z := 64.
Definition MAX_USER_PRESENCE_CREDENTIAL_ID_LENGTH : Z := 1024.
Definition MAX_NATIVE_WEBAUTHN_DOCUMENT_BYTES : Z := 65536.

Inductive LocalAuthorizationStoreError :=
| AuthInvalidInput | AuthStorageUnavailable | AuthInvalidStorage | AuthCorruptStorage
| AuthUnsafeStorage | AuthUnsupportedSchema | AuthInstallationMismatch | AuthGenerationRollback
| AuthConflict | AuthNotFound | AuthProfileSuspended | AuthIssuerDisabled
| AuthRequiredEvidenceUnavailable | AuthCapacity.

Abbreviation store_result := (result LocalAuthorizationStoreError).

(** Decoding failures of a row. *)
Definition invalid {E A} (m : result E A) : store_result A := map_err (fun _ => AuthInvalidStorage) m.

(** ** Values *)

Inductive IssuerAvailability := Enabled | Disabled.
Inductive ExistingGrantDisposition := RetainUntilExpiry | RevokeExisting.

Inductive GrantState :=
| StateActive | StateRetired | StateRevoked | StateExpired
| StateProfileSuspended | StateIssuerDisabled | StatePolicyInvalid.

Inductive AuthorizationAuditKind :=
| AuditBootstrap | AuditGrantIssued | AuditGrantRetired | AuditGrantRevoked
| AuditProfileSuspended | AuditProfileResumed | AuditIssuerStateChanged | AuditPolicyReplaced
| AuditIssuerRegistered | AuditIssuerRemoved | AuditGrantsExpired
| AuditCredentialRegistered | AuditCredentialReplaced | AuditCredentialRemoved | AuditCredentialUpdated.

Global Instance IssuerAvailability_eq_dec : EqDecision IssuerAvailability.
Proof. solve_decision. Defined.
Global Instance ExistingGrantDisposition_eq_dec : EqDecision ExistingGrantDisposition.
Proof. solve_decision. Defined.
Global Instance GrantState_eq_dec : EqDecision GrantState.
Proof. solve_decision. Defined.
Global Instance AuthorizationAuditKind_eq_dec : EqDecision AuthorizationAuditKind.
Proof. solve_decision. Defined.

Record AuthorizationIssuerRecord := mk_AuthorizationIssuerRecord {
  issuer_key_id : IssuerKeyId;
  issuer_key_version : IssuerKeyVersion;
  issuer_registration : IssuerRegistration;
  issuer_availability : IssuerAvailability;
  issuer_disposition : ExistingGrantDisposition }.

Record GrantIssuanceKey := mk_GrantIssuanceKey {
  issuance_client_instance : ClientInstanceId;
  issuance_request_id : RequestId }.

Global Instance GrantIssuanceKey_eq_dec : EqDecision GrantIssuanceKey.
Proof. solve_decision. Defined.

Record StoredGrant := mk_StoredGrant {
  stored_grant : SessionGrant;
  stored_state : GrantState;
  stored_terminal_generation : option Z }.

Record AuthorizationAuditEvent := mk_AuditEvent {
  audit_generation : Z;
  audit_kind : AuthorizationAuditKind;
  audit_occurred_at : Z }.

Inductive MutationEffect := Applied | Unchanged.

Record AuthorizationMutation := mk_AuthorizationMutation {
  mutation_generation : Z;
  mutation_effect : MutationEffect }.

(** ** Codes *)

Definition availability_code (a : IssuerAvailability) : Z := match a with Enabled => 1 | Disabled => 0 end.

Definition availability_from_code (value : Z) : store_result IssuerAvailability :=
  match value with 1 => Ok Enabled | 0 => Ok Disabled | _ => Err AuthInvalidStorage end.

Definition disposition_code (d : ExistingGrantDisposition) : Z :=
  match d with RetainUntilExpiry => 1 | RevokeExisting => 2 end.

Definition disposition_from_code (value : Z) : store_result ExistingGrantDisposition :=
  match value with 1 => Ok RetainUntilExpiry | 2 => Ok RevokeExisting | _ => Err AuthInvalidStorage end.

Definition grant_state_code (s : GrantState) : Z :=
  match s with
  | StateActive => 1 | StateRetired => 2 | StateRevoked => 3 | StateExpired => 4
  | StateProfileSuspended => 5 | StateIssuerDisabled => 6 | StatePolicyInvalid => 7
  end.

Definition grant_state_from_code (value : Z) : store_result GrantState :=
  match value with
  | 1 => Ok StateActive | 2 => Ok StateRetired | 3 => Ok StateRevoked | 4 => Ok StateExpired
  | 5 => Ok StateProfileSuspended | 6 => Ok StateIssuerDisabled | 7 => Ok StatePolicyInvalid
  | _ => Err AuthInvalidStorage
  end.

Definition audit_kind_code (k : AuthorizationAuditKind) : Z :=
  match k with
  | AuditBootstrap => 1 | AuditGrantIssued => 2 | AuditGrantRetired => 3 | AuditGrantRevoked => 4
  | AuditProfileSuspended => 5 | AuditProfileResumed => 6 | AuditIssuerStateChanged => 7
  | AuditPolicyReplaced => 8 | AuditIssuerRegistered => 9 | AuditIssuerRemoved => 10
  | AuditGrantsExpired => 11 | AuditCredentialRegistered => 12 | AuditCredentialReplaced => 13
  | AuditCredentialRemoved => 14 | AuditCredentialUpdated => 15
  end.

Definition audit_kind_from_code (value : Z) : store_result AuthorizationAuditKind :=
  match value with
  | 1 => Ok AuditBootstrap | 2 => Ok AuditGrantIssued | 3 => Ok AuditGrantRetired
  | 4 => Ok AuditGrantRevoked | 5 => Ok AuditProfileSuspended | 6 => Ok AuditProfileResumed
  | 7 => Ok AuditIssuerStateChanged | 8 => Ok AuditPolicyReplaced | 9 => Ok AuditIssuerRegistered
  | 10 => Ok AuditIssuerRemoved | 11 => Ok AuditGrantsExpired | 12 => Ok AuditCredentialRegistered
  | 13 => Ok AuditCredentialReplaced | 14 => Ok AuditCredentialRemoved | 15 => Ok AuditCredentialUpdated
  | _ => Err AuthInvalidStorage
  end.

(** ** Integers *)

Definition to_sql (value : Z) : store_result Z := if value <=? I64_MAX then Ok value else Err AuthInvalidInput.

Definition validate_timestamp (value : Z) : store_result unit := to_sql value;; Ok ().

Definition u64_from_sql (value : Z) : store_result Z := if 0 <=? value then Ok value else Err AuthInvalidStorage.

Definition u64_from_positive_sql (value : Z) : store_result Z :=
  value ← u64_from_sql value;
  fail_if (value =? 0) AuthInvalidStorage;;
  Ok value.

Definition next_generation (current : Z) : option Z :=
  match checked_add U64_MAX current 1 with
  | Some value => if value <=? I64_MAX then Some value else None
  | None => None
  end.

Definition proposed_generation (current : Z) : Z := default current (next_generation current).

(** ** User-presence credentials *)

(** [serde_json] on the credential document: its schema version, its provider and the
    identifier of its passkey. *)
Class WebAuthnDocuments := {
  decode_document : bytes → option (Z * text * bytes) }.

Definition PROVIDER_ID : text := lit "windows-native-webauthn-v1".
Definition CREDENTIAL_DOCUMENT_VERSION : Z := 1.

Record UserPresenceCredentialRecord := mk_CredentialRecord {
  credential_provider_id : text;
  credential_credential_id : bytes;
  credential_digest : bytes;
  credential_document : bytes }.

Global Instance UserPresenceCredentialRecord_eq_dec : EqDecision UserPresenceCredentialRecord.
Proof. solve_decision. Defined.

Section documents.
Context `{Sha256} `{WebAuthnDocuments}.

(** [NativeWebAuthnCredential::from_bytes], [from_passkey] and the digest of the identifier. *)
Definition from_document (document : bytes) : store_result UserPresenceCredentialRecord :=
  fail_if ((len document =? 0) || (MAX_NATIVE_WEBAUTHN_DOCUMENT_BYTES <? len document)) AuthInvalidInput;;
  decoded ← ok_or (decode_document document) AuthInvalidInput;
  let '(version, provider, credential_id) := decoded in
  fail_if (negb (version =? CREDENTIAL_DOCUMENT_VERSION) || bool_decide (provider ≠ PROVIDER_ID)) AuthInvalidInput;;
  fail_if ((len credential_id =? 0) || (MAX_USER_PRESENCE_CREDENTIAL_ID_LENGTH <? len credential_id)) AuthInvalidInput;;
  Ok (mk_CredentialRecord PROVIDER_ID credential_id (sha256 credential_id) document).

End documents.

(** ** Tables *)

Record IssuerRow := mk_IssuerRow {
  ir_key_id : IssuerKeyId;
  ir_key_version : Z;
  ir_public_key : Ed25519PublicKey;
  ir_harness : Z;
  ir_profile_kind : Z;
  ir_profile_id : text;
  ir_enabled : Z;
  ir_disposition : Z }.

Record GrantRow := mk_GrantRow {
  gr_grant_id : SessionGrantId;
  gr_issuer_key_id : IssuerKeyId;
  gr_issuer_key_version : Z;
  gr_profile_id : text;
  gr_session_public_key : Ed25519PublicKey;
  gr_client_instance : ClientInstanceId;
  gr_request_id : RequestId;
  gr_harness : Z;
  gr_evidence : Z;
  gr_policy_version : Z;
  gr_issued_at : Z;
  gr_expires_at : Z;
  gr_capabilities : Z;
  gr_state : Z;
  gr_terminal_generation : option Z;
  gr_terminal_at : option Z }.

Record CredentialRow := mk_CredentialRow {
  cr_provider_id : text;
  cr_credential_id : bytes;
  cr_digest : bytes;
  cr_document : bytes }.

Record AuthTables := mk_AuthTables {
  t_fingerprint : bytes;
  t_generation : Z;
  t_policy_version : Z;
  t_clauses : list (Z * Z);
  t_issuer_identifiers : list (IssuerKeyId * Z);
  t_issuers : list IssuerRow;
  t_suspended : list text;
  t_grant_identifiers : list SessionGrantId;
  t_grants : list GrantRow;
  t_credential_identifiers : list bytes;
  t_credential : option CredentialRow;
  t_audit : list (Z * Z * Z) }.

Definition set_generation (v : Z) (db : AuthTables) : AuthTables :=
  mk_AuthTables (t_fingerprint db) v (t_policy_version db) (t_clauses db) (t_issuer_identifiers db) (t_issuers db)
    (t_suspended db) (t_grant_identifiers db) (t_grants db) (t_credential_identifiers db) (t_credential db) (t_audit db).
Definition set_policy (v : Z) (clauses : list (Z * Z)) (db : AuthTables) : AuthTables :=
  mk_AuthTables (t_fingerprint db) (t_generation db) v clauses (t_issuer_identifiers db) (t_issuers db)
    (t_suspended db) (t_grant_identifiers db) (t_grants db) (t_credential_identifiers db) (t_credential db) (t_audit db).
Definition set_issuers (ids : list (IssuerKeyId * Z)) (rows : list IssuerRow) (db : AuthTables) : AuthTables :=
  mk_AuthTables (t_fingerprint db) (t_generation db) (t_policy_version db) (t_clauses db) ids rows
    (t_suspended db) (t_grant_identifiers db) (t_grants db) (t_credential_identifiers db) (t_credential db) (t_audit db).
Definition set_suspended (l : list text) (db : AuthTables) : AuthTables :=
  mk_AuthTables (t_fingerprint db) (t_generation db) (t_policy_version db) (t_clauses db) (t_issuer_identifiers db)
    (t_issuers db) l (t_grant_identifiers db) (t_grants db) (t_credential_identifiers db) (t_credential db) (t_audit db).
Definition set_grants (ids : list SessionGrantId) (rows : list GrantRow) (db : AuthTables) : AuthTables :=
  mk_AuthTables (t_fingerprint db) (t_generation db) (t_policy_version db) (t_clauses db) (t_issuer_identifiers db)
    (t_issuers db) (t_suspended db) ids rows (t_credential_identifiers db) (t_credential db) (t_audit db).
Definition set_credentials (ids : list bytes) (row : option CredentialRow) (db : AuthTables) : AuthTables :=
  mk_AuthTables (t_fingerprint db) (t_generation db) (t_policy_version db) (t_clauses db) (t_issuer_identifiers db)
    (t_issuers db) (t_suspended db) (t_grant_identifiers db) (t_grants db) ids row (t_audit db).
Definition set_audit (l : list (Z * Z * Z)) (db : AuthTables) : AuthTables :=
  mk_AuthTables (t_fingerprint db) (t_generation db) (t_policy_version db) (t_clauses db) (t_issuer_identifiers db)
    (t_issuers db) (t_suspended db) (t_grant_identifiers db) (t_grants db) (t_credential_identifiers db)
    (t_credential db) l.

(** ** Reading rows *)

Definition load_generation (db : AuthTables) : store_result Z := u64_from_positive_sql (t_generation db).

(** [u8::try_from] and [AuthorizationEvidenceSet::from_bits]. *)
Definition decode_evidence (bits : Z) : store_result AuthorizationEvidenceSet :=
  fail_if (negb ((0 <=? bits) && (bits <=? 255))) AuthInvalidStorage;;
  invalid (AuthorizationEvidenceSet_from_bits bits).

Fixpoint load_clauses (expected : Z) (rows : list (Z * Z)) : store_result (list AuthorizationEvidenceSet) :=
  match rows with
  | [] => Ok []
  | (ordinal, bits) :: rows =>
      fail_if (negb (ordinal =? expected)) AuthInvalidStorage;;
      clause ← decode_evidence bits;
      clauses ← load_clauses (expected + 1) rows;
      Ok (clause :: clauses)
  end.

Definition load_policy (db : AuthTables) : store_result AuthorizationPolicy :=
  version ← u64_from_positive_sql (t_policy_version db);
  version ← invalid (AuthorizationPolicyVersion_new version);
  let rows := take 9 (t_clauses db) in
  fail_if ((len rows =? 0) || (MAX_POLICY_CLAUSES <? len rows)) AuthInvalidStorage;;
  clauses ← load_clauses 0 rows;
  fail_if (adjacent_any (fun x y => negb (ascending x y)) clauses) AuthInvalidStorage;;
  invalid (AuthorizationPolicy_new version clauses).

Definition decode_version (value : Z) : store_result IssuerKeyVersion :=
  fail_if (negb ((0 <=? value) && (value <=? U32_MAX))) AuthInvalidStorage;;
  invalid (IssuerKeyVersion_new value).

Definition decode_harness (value : Z) : store_result HarnessKind :=
  fail_if (negb ((0 <=? value) && (value <=? 65535))) AuthInvalidStorage;;
  invalid (from_wire_value value).

Definition decode_profiles (kind : Z) (profile_id : text) : store_result ProfileAuthorization :=
  match kind with
  | 1 => AuthProfile <$> invalid (ServiceProfileId_parse profile_id)
  | 2 => AuthNamespace <$> invalid (ServiceProfileId_parse profile_id)
  | 3 => if bool_decide (profile_id = []) then Ok AuthAll else Err AuthInvalidStorage
  | _ => Err AuthInvalidStorage
  end.

Definition decode_issuer (row : IssuerRow) : store_result AuthorizationIssuerRecord :=
  version ← decode_version (ir_key_version row);
  harness ← decode_harness (ir_harness row);
  profiles ← decode_profiles (ir_profile_kind row) (ir_profile_id row);
  availability ← availability_from_code (ir_enabled row);
  disposition ← disposition_from_code (ir_disposition row);
  Ok (mk_AuthorizationIssuerRecord (ir_key_id row) version
        (mk_IssuerRegistration (ir_public_key row) harness profiles) availability disposition).

Definition load_issuers (db : AuthTables) : store_result (list AuthorizationIssuerRecord) :=
  let rows := take 257 (t_issuers db) in
  fail_if (MAX_ADAPTER_REGISTRATIONS <? len rows) AuthInvalidStorage;;
  traverse decode_issuer rows.

Definition issuer_row_is (id : IssuerKeyId) (version : IssuerKeyVersion) (row : IssuerRow) : bool :=
  bool_decide (ir_key_id row = id) && (ir_key_version row =? raw version).

Definition load_issuer (db : AuthTables) (id : IssuerKeyId) (version : IssuerKeyVersion)
    : store_result (option AuthorizationIssuerRecord) :=
  opt_traverse decode_issuer (find (issuer_row_is id version) (t_issuers db)).

Definition issuer_identifier_exists (db : AuthTables) (id : IssuerKeyId) (version : IssuerKeyVersion) : bool :=
  existsb (fun e => bool_decide (e.1 = id) && (e.2 =? raw version)) (t_issuer_identifiers db).

Definition load_suspended_profiles (db : AuthTables) : store_result (list ServiceProfileId) :=
  let rows := take 257 (t_suspended db) in
  fail_if (MAX_SUSPENDED_PROFILES <? len rows) AuthInvalidStorage;;
  traverse (fun p => invalid (ServiceProfileId_parse p)) rows.

Definition is_profile_suspended (db : AuthTables) (profile : ServiceProfileId) : bool :=
  existsb (fun p => bool_decide (p = raw profile)) (t_suspended db).

Definition decode_grant_claims (row : GrantRow) : store_result SessionGrantClaims :=
  version ← decode_version (gr_issuer_key_version row);
  profile ← invalid (ServiceProfileId_parse (gr_profile_id row));
  harness ← decode_harness (gr_harness row);
  evidence ← decode_evidence (gr_evidence row);
  policy_version ← u64_from_positive_sql (gr_policy_version row);
  policy_version ← invalid (AuthorizationPolicyVersion_new policy_version);
  issued_at ← u64_from_sql (gr_issued_at row);
  expires_at ← u64_from_positive_sql (gr_expires_at row);
  capabilities ← u64_from_positive_sql (gr_capabilities row);
  capabilities ← invalid (SessionCapabilities_from_bits capabilities);
  Ok (mk_SessionGrantClaims (gr_grant_id row) (gr_issuer_key_id row) version profile (gr_session_public_key row)
        harness evidence policy_version issued_at expires_at capabilities).

Definition decode_grant (row : GrantRow) : store_result StoredGrant :=
  claims ← decode_grant_claims row;
  grant ← invalid (SessionGrant_new claims);
  state ← grant_state_from_code (gr_state row);
  terminal_generation ← opt_traverse u64_from_positive_sql (gr_terminal_generation row);
  terminal_at ← opt_traverse u64_from_sql (gr_terminal_at row);
  fail_if ((bool_decide (state = StateActive) && (is_some terminal_generation || is_some terminal_at))
           || (negb (bool_decide (state = StateActive)) && (is_none terminal_generation || is_none terminal_at))
           || is_some_and terminal_at (fun at_ => at_ <? grant_issued_at grant)) AuthInvalidStorage;;
  Ok (mk_StoredGrant grant state terminal_generation).

Definition load_all_grants (db : AuthTables) : store_result (list StoredGrant) :=
  let rows := take 513 (t_grants db) in
  fail_if (MAX_SESSION_GRANTS + MAX_TERMINAL_GRANT_RECORDS <? len rows) AuthInvalidStorage;;
  traverse decode_grant rows.

(** [state = 1 AND expires_at_unix_milliseconds > ?1]. *)
Definition row_live (now : Z) (row : GrantRow) : bool := (gr_state row =? 1) && (now <? gr_expires_at row).

Definition load_active_grants (db : AuthTables) (now : Z) : store_result (list SessionGrant) :=
  now ← to_sql now;
  let rows := take 257 (List.filter (row_live now) (t_grants db)) in
  fail_if (MAX_SESSION_GRANTS <? len rows) AuthInvalidStorage;;
  traverse (fun row =>
    stored ← decode_grant row;
    if bool_decide (stored_state stored = StateActive) then Ok (stored_grant stored)
    else Err AuthInvalidStorage) rows.

Definition load_grant_by_id (db : AuthTables) (id : SessionGrantId) : store_result (option StoredGrant) :=
  opt_traverse decode_grant (find (fun row => bool_decide (gr_grant_id row = id)) (t_grants db)).

Definition row_issued_for (id : IssuerKeyId) (version : IssuerKeyVersion) (key : GrantIssuanceKey) (row : GrantRow) : bool :=
  bool_decide (gr_issuer_key_id row = id) && (gr_issuer_key_version row =? raw version)
  && bool_decide (gr_client_instance row = issuance_client_instance key)
  && bool_decide (gr_request_id row = issuance_request_id key).

Definition load_grant_by_issuance (db : AuthTables) (id : IssuerKeyId) (version : IssuerKeyVersion)
    (key : GrantIssuanceKey) : store_result (option StoredGrant) :=
  opt_traverse decode_grant (find (row_issued_for id version key) (t_grants db)).

Definition same_issuance_request (existing candidate : SessionGrant) : bool :=
  bool_decide (grant_issuer_key_id existing = grant_issuer_key_id candidate)
  && bool_decide (grant_issuer_key_version existing = grant_issuer_key_version candidate)
  && bool_decide (grant_profile existing = grant_profile candidate)
  && bool_decide (grant_session_public_key existing = grant_session_public_key candidate)
  && bool_decide (grant_harness existing = grant_harness candidate).

Definition grant_identifier_exists (db : AuthTables) (id : SessionGrantId) : bool :=
  existsb (fun e => bool_decide (e = id)) (t_grant_identifiers db).

Definition load_audit_events_inner (db : AuthTables) (limit : Z) : store_result (list AuthorizationAuditEvent) :=
  traverse (fun e =>
      generation ← u64_from_positive_sql e.1.1;
      kind ← audit_kind_from_code e.1.2;
      occurred_at ← u64_from_sql e.2;
      Ok (mk_AuditEvent generation kind occurred_at))
    (take (Z.to_nat limit) (reverse (t_audit db))).

Definition user_presence_credential_identifier_exists (db : AuthTables) (digest : bytes) : bool :=
  existsb (fun e => bool_decide (e = digest)) (t_credential_identifiers db).

(** ** Validation *)

(** [COALESCE(MAX(..), 0)]. *)
Definition max_of {A} (f : A → Z) (rows : list A) : Z := foldr (fun row m => Z.max (f row) m) 0 rows.

Definition opt_rows {A} (o : option A) : list A := match o with Some a => [a] | None => [] end.

Section store.
Context `{Sha256} `{WebAuthnDocuments}.

Definition load_user_presence_credential (db : AuthTables) : store_result (option UserPresenceCredentialRecord) :=
  match t_credential db with
  | None => Ok None
  | Some row =>
      record ← invalid (from_document (cr_document row));
      fail_if (bool_decide (cr_provider_id row ≠ credential_provider_id record)
               || bool_decide (cr_credential_id row ≠ credential_credential_id record)
               || bool_decide (cr_digest row ≠ credential_digest record)) AuthInvalidStorage;;
      Ok (Some record)
  end.

Definition verify_identity_and_high_water (db : AuthTables) (fingerprint : bytes) (high_water : option Z) : store_result unit :=
  fail_if (negb (len (t_fingerprint db) =? 32)) AuthInvalidStorage;;
  generation ← u64_from_positive_sql (t_generation db);
  fail_if (is_some_and high_water (fun h => generation <? h)) AuthGenerationRollback;;
  fail_if (bool_decide (t_fingerprint db ≠ fingerprint)) AuthInstallationMismatch.

Definition validate_row_bounds (db : AuthTables) : store_result unit :=
  let ids := t_issuer_identifiers db in
  let issuers := t_issuers db in
  let suspended := t_suspended db in
  let grant_ids := t_grant_identifiers db in
  let grants := t_grants db in
  let credential_ids := t_credential_identifiers db in
  let credentials := opt_rows (t_credential db) in
  let active := count (fun row => gr_state row =? 1) grants in
  let terminal := len grants - active in
  let unreserved_issuers := count (fun i => negb (existsb (fun e => bool_decide (e.1 = ir_key_id i)
                                                    && (e.2 =? ir_key_version i)) ids)) issuers in
  let unreserved_grants := count (fun g => negb (existsb (fun e => bool_decide (e = gr_grant_id g)) grant_ids)) grants in
  fail_if (negb (len (t_fingerprint db) =? 32)
    || (len (t_clauses db) =? 0) || (MAX_POLICY_CLAUSES <? len (t_clauses db))
    || (MAX_ADAPTER_REGISTRATIONS <? len ids)
    || ((0 <? len ids) && (negb (max_of (fun e => len (raw e.1)) ids =? 16) || (max_of snd ids <? 1)
                           || (U32_MAX <? max_of snd ids)))
    || (MAX_ADAPTER_REGISTRATIONS <? len issuers)
    || ((0 <? len issuers) && (negb (max_of (fun r => len (raw (ir_key_id r))) issuers =? 16)
                               || negb (max_of (fun r => len (as_bytes (ir_public_key r))) issuers =? 32)
                               || (32 <? max_of (fun r => len (ir_profile_id r)) issuers)))
    || (MAX_SUSPENDED_PROFILES <? len suspended) || (32 <? max_of len suspended)
    || (MAX_GRANT_IDENTIFIERS <? len grant_ids)
    || ((0 <? len grant_ids) && negb (max_of (fun e => len (raw e)) grant_ids =? 16))
    || (MAX_SESSION_GRANTS + MAX_TERMINAL_GRANT_RECORDS <? len grants)
    || ((0 <? len grants) && (negb (max_of (fun r => len (raw (gr_grant_id r))) grants =? 16)
                              || negb (max_of (fun r => len (raw (gr_issuer_key_id r))) grants =? 16)
                              || negb (max_of (fun r => len (as_bytes (gr_session_public_key r))) grants =? 32)
                              || negb (max_of (fun r => len (raw (gr_client_instance r))) grants =? 16)
                              || negb (max_of (fun r => len (raw (gr_request_id r))) grants =? 16)
                              || (32 <? max_of (fun r => len (gr_profile_id r)) grants)))
    || (MAX_SESSION_GRANTS <? active) || (MAX_TERMINAL_GRANT_RECORDS <? terminal)
    || (len (t_audit db) =? 0) || (MAX_AUTHORIZATION_AUDIT_RECORDS <? len (t_audit db))
    || (MAX_USER_PRESENCE_CREDENTIAL_IDENTIFIERS <? len credential_ids)
    || ((0 <? len credential_ids) && negb (max_of len credential_ids =? 32))
    || (1 <? len credentials)
    || ((0 <? len credentials)
        && ((max_of (fun c => len (cr_provider_id c)) credentials <? 1)
            || (64 <? max_of (fun c => len (cr_provider_id c)) credentials)
            || (max_of (fun c => len (cr_credential_id c)) credentials <? 1)
            || (1024 <? max_of (fun c => len (cr_credential_id c)) credentials)
            || negb (max_of (fun c => len (cr_digest c)) credentials =? 32)
            || (max_of (fun c => len (cr_document c)) credentials <? 1)
            || (MAX_NATIVE_WEBAUTHN_DOCUMENT_BYTES <? max_of (fun c => len (cr_document c)) credentials)))
    || negb (unreserved_issuers =? 0) || negb (unreserved_grants =? 0)) AuthInvalidStorage.

(** The checks of one grant against the issuers, the policy and the suspensions. *)
Definition validate_stored_grant (policy : AuthorizationPolicy) (issuers : list AuthorizationIssuerRecord)
    (suspended : list ServiceProfileId) (stored : StoredGrant) : store_result unit :=
  let grant := stored_grant stored in
  issuer ← ok_or (find (fun i => bool_decide (issuer_key_id i = grant_issuer_key_id grant)
                                 && bool_decide (issuer_key_version i = grant_issuer_key_version grant)) issuers)
             AuthInvalidStorage;
  fail_if ((negb (bool_decide (registration_harness (issuer_registration issuer) = grant_harness grant))
            && negb (bool_decide (registration_harness (issuer_registration issuer) = Generic)))
           || negb (permits (registration_profiles (issuer_registration issuer)) (grant_profile grant))
           || (raw (policy_version policy) <? raw (grant_policy_version grant))) AuthInvalidStorage;;
  fail_if (bool_decide (stored_state stored = StateActive)
           && (existsb (fun p => bool_decide (p = grant_profile grant)) suspended
               || negb (policy_accepts policy (grant_evidence grant))
               || (bool_decide (issuer_availability issuer = Disabled)
                   && bool_decide (issuer_disposition issuer = RevokeExisting)))) AuthInvalidStorage.

Definition is_active (stored : StoredGrant) : bool := bool_decide (stored_state stored = StateActive).

(** [PRAGMA foreign_key_check] reports a row whose parent is missing. *)
Definition foreign_key_violation (db : AuthTables) : bool :=
  existsb (fun i => negb (existsb (fun e => bool_decide (e.1 = ir_key_id i) && (e.2 =? ir_key_version i))
                            (t_issuer_identifiers db))) (t_issuers db)
  || existsb (fun g => negb (existsb (fun e => bool_decide (e = gr_grant_id g)) (t_grant_identifiers db))
                       || negb (existsb (fun i => bool_decide (ir_key_id i = gr_issuer_key_id g)
                                                  && (ir_key_version i =? gr_issuer_key_version g)) (t_issuers db)))
       (t_grants db)
  || existsb (fun c => negb (existsb (fun e => bool_decide (e = cr_digest c)) (t_credential_identifiers db)))
       (opt_rows (t_credential db)).

(** The last checks: the audit log ends with the generation and has no gap. *)
Definition validate_audit (generation : Z) (audit : list AuthorizationAuditEvent) : store_result unit :=
  let expected := Z.min generation MAX_AUTHORIZATION_AUDIT_RECORDS in
  fail_if (negb (len audit =? expected)
           || bool_decide (audit_generation <$> head audit ≠ Some generation)
           || bool_decide (audit_generation <$> last audit ≠ Some (generation - (expected - 1)))) AuthInvalidStorage;;
  fail_if ((generation <=? MAX_AUTHORIZATION_AUDIT_RECORDS)
           && bool_decide (audit_kind <$> last audit ≠ Some AuditBootstrap)) AuthInvalidStorage.

Definition validate_store (db : AuthTables) (fingerprint : bytes) : store_result unit :=
  verify_identity_and_high_water db fingerprint None;;
  validate_row_bounds db;;
  generation ← load_generation db;
  policy ← load_policy db;
  issuers ← load_issuers db;
  suspended ← load_suspended_profiles db;
  grants ← load_all_grants db;
  credential ← load_user_presence_credential db;
  audit ← load_audit_events_inner db MAX_AUTHORIZATION_AUDIT_RECORDS;
  let active := List.filter is_active grants in
  fail_if ((MAX_ADAPTER_REGISTRATIONS <? len issuers) || (MAX_SUSPENDED_PROFILES <? len suspended)
           || (MAX_SESSION_GRANTS <? len active)
           || (MAX_TERMINAL_GRANT_RECORDS <? count (fun g => negb (is_active g)) grants)
           || (len audit =? 0) || (MAX_AUTHORIZATION_AUDIT_RECORDS <? len audit)
           || (MAX_USER_PRESENCE_CREDENTIAL_IDENTIFIERS <? len (t_credential_identifiers db))) AuthInvalidStorage;;
  fail_if (is_some_and credential (fun c => negb (user_presence_credential_identifier_exists db (credential_digest c))))
    AuthInvalidStorage;;
  fail_if (existsb (fun g =>
      (MAX_GRANTS_PER_ISSUER <? count (fun c => bool_decide (grant_issuer_key_id (stored_grant c)
                                                  = grant_issuer_key_id (stored_grant g))) active)
      || (MAX_GRANTS_PER_PROFILE <? count (fun c => bool_decide (grant_profile (stored_grant c)
                                                      = grant_profile (stored_grant g))) active)) active)
    AuthInvalidStorage;;
  fail_if (existsb (fun g => is_some_and (stored_terminal_generation g) (fun t => generation <? t)) grants)
    AuthInvalidStorage;;
  traverse (validate_stored_grant policy issuers suspended) grants;;
  fail_if (foreign_key_violation db) AuthInvalidStorage;;
  validate_audit generation audit.

End store.
