(* ===== verification/AuthorizationOps.v ===== *)
(** * Operations of the authorization store

    [Konclave.LocalAuthorizationStore: store.rs]: the statements that write the tables and the
    operations of a store handle.  An operation validates the store it reads, runs in one
    transaction, and returns its answer with the tables and the generation the handle has
    observed; a refused operation leaves the tables as they were. *)

From S2P Require Import Prelude Identifiers LocalGrants AuthorizationStore.
Open Scope Z_scope.

(** ** Writing *)

(** The [CHECK] constraints of [authorization_grant]. *)
Definition grant_row_checks (row : GrantRow) : bool :=
  (1 <=? gr_issuer_key_version row) && (gr_issuer_key_version row <=? 4294967295)
  && (1 <=? len (gr_profile_id row)) && (len (gr_profile_id row) <=? 32)
  && (1 <=? gr_harness row) && (gr_harness row <=? 5)
  && (1 <=? gr_evidence row) && (gr_evidence row <=? 15)
  && (1 <=? gr_policy_version row) && (0 <=? gr_issued_at row) && (gr_issued_at row <? gr_expires_at row)
  && (1 <=? gr_capabilities row) && (gr_capabilities row <=? 15)
  && (1 <=? gr_state row) && (gr_state row <=? 7)
  && (if gr_state row =? 1 then is_none (gr_terminal_generation row) && is_none (gr_terminal_at row)
      else is_some_and (gr_terminal_generation row) (fun g => 1 <=? g)
           && is_some_and (gr_terminal_at row) (fun t => (0 <=? t) && (gr_issued_at row <=? t))).

Definition grant_row_of (key : GrantIssuanceKey) (g : SessionGrant) : GrantRow :=
  mk_GrantRow (grant_id g) (grant_issuer_key_id g) (raw (grant_issuer_key_version g)) (raw (grant_profile g))
    (grant_session_public_key g) (issuance_client_instance key) (issuance_request_id key)
    (wire_value (grant_harness g)) (raw (grant_evidence g)) (raw (grant_policy_version g))
    (grant_issued_at g) (grant_expires_at g) (raw (grant_capabilities g)) 1 None None.

(** [INSERT INTO authorization_grant]: the [CHECK]s, the two keys and the two parents. *)
Definition insert_grant (db : AuthTables) (key : GrantIssuanceKey) (g : SessionGrant) : store_result AuthTables :=
  to_sql (raw (grant_policy_version g));;
  to_sql (grant_issued_at g);;
  to_sql (grant_expires_at g);;
  to_sql (raw (grant_capabilities g));;
  let row := grant_row_of key g in
  fail_if (negb (grant_row_checks row)
           || existsb (fun r => bool_decide (gr_grant_id r = grant_id g)) (t_grants db)
           || existsb (row_issued_for (grant_issuer_key_id g) (grant_issuer_key_version g) key) (t_grants db)
           || negb (grant_identifier_exists db (grant_id g))
           || negb (existsb (issuer_row_is (grant_issuer_key_id g) (grant_issuer_key_version g)) (t_issuers db)))
    AuthStorageUnavailable;;
  Ok (set_grants (t_grant_identifiers db) (sort_insert gr_grant_id array_compare row (t_grants db)) db).

Definition reserve_grant_identifier (db : AuthTables) (id : SessionGrantId) : store_result AuthTables :=
  fail_if (grant_identifier_exists db id) AuthStorageUnavailable;;
  Ok (set_grants (sort_insert (fun x => x) array_compare id (t_grant_identifiers db)) (t_grants db) db).

Definition profile_kind_code (a : ProfileAuthorization) : Z :=
  match a with AuthProfile _ => 1 | AuthNamespace _ => 2 | AuthAll => 3 end.
Definition profile_kind_id (a : ProfileAuthorization) : text :=
  match a with AuthProfile p | AuthNamespace p => raw p | AuthAll => [] end.

Definition issuer_row_key (r : IssuerRow) : IssuerKeyId * Z := (ir_key_id r, ir_key_version r).
Definition key_compare : IssuerKeyId * Z → IssuerKeyId * Z → comparison := pair_compare array_compare Z.compare.

Definition insert_issuer (db : AuthTables) (issuer : InstalledIssuerRegistration) : store_result AuthTables :=
  let id := installed_key_id issuer in
  let version := installed_key_version issuer in
  let registration := installed_registration issuer in
  fail_if (issuer_identifier_exists db id version) AuthStorageUnavailable;;
  fail_if (existsb (issuer_row_is id version) (t_issuers db)) AuthStorageUnavailable;;
  Ok (set_issuers (sort_insert (fun x => x) key_compare (id, raw version) (t_issuer_identifiers db))
        (sort_insert issuer_row_key key_compare
           (mk_IssuerRow id (raw version) (registration_public_key registration)
              (wire_value (registration_harness registration))
              (profile_kind_code (registration_profiles registration))
              (profile_kind_id (registration_profiles registration)) 1 1) (t_issuers db)) db).

(** [SET state = .., terminal_generation = .., terminal_at = ..] on the rows a condition selects. *)
Definition terminalize (state generation : Z) (at_ : GrantRow → Z) (row : GrantRow) : GrantRow :=
  mk_GrantRow (gr_grant_id row) (gr_issuer_key_id row) (gr_issuer_key_version row) (gr_profile_id row)
    (gr_session_public_key row) (gr_client_instance row) (gr_request_id row) (gr_harness row) (gr_evidence row)
    (gr_policy_version row) (gr_issued_at row) (gr_expires_at row) (gr_capabilities row)
    state (Some generation) (Some (at_ row)).

Definition update_rows (p : GrantRow → bool) (f : GrantRow → GrantRow) (rows : list GrantRow) : list GrantRow :=
  (fun row => if p row then f row else row) <$> rows.

(** The number of updated rows; a row that breaks a [CHECK] refuses the statement. *)
Definition update_grants (p : GrantRow → bool) (state generation : Z) (at_ : GrantRow → Z) (db : AuthTables)
    : store_result (Z * AuthTables) :=
  let update := terminalize state generation at_ in
  fail_if (existsb (fun row => p row && negb (grant_row_checks (update row))) (t_grants db)) AuthStorageUnavailable;;
  Ok (count p (t_grants db), set_grants (t_grant_identifiers db) (update_rows p update (t_grants db)) db).

(** [max(?, issued_at_unix_milliseconds)]. *)
Definition terminal_time (now : Z) (row : GrantRow) : Z := Z.max now (gr_issued_at row).

Definition expire_grants (db : AuthTables) (now generation : Z) : store_result (Z * AuthTables) :=
  generation ← to_sql generation;
  now ← to_sql now;
  update_grants (fun row => (gr_state row =? 1) && (gr_expires_at row <=? now)) 4 generation (fun _ => now) db.

Definition terminalize_exact_grant (db : AuthTables) (id : SessionGrantId) (requested : GrantState) (now generation : Z)
    : store_result (bool * AuthTables) :=
  existing ← load_grant_by_id db id;
  existing ← ok_or existing AuthNotFound;
  if negb (is_active existing) || (grant_expires_at (stored_grant existing) <=? now) then Ok (false, db)
  else
    generation ← to_sql generation;
    now ← to_sql now;
    updated ← update_grants (fun row => bool_decide (gr_grant_id row = id) && (gr_state row =? 1))
                (grant_state_code requested) generation (terminal_time now) db;
    fail_if (negb (updated.1 =? 1)) AuthConflict;;
    Ok (true, updated.2).

Definition terminalize_profile_grants (db : AuthTables) (profile : ServiceProfileId) (now generation : Z)
    : store_result AuthTables :=
  generation ← to_sql generation;
  now ← to_sql now;
  updated ← update_grants (fun row => row_live now row && bool_decide (gr_profile_id row = raw profile))
              5 generation (terminal_time now) db;
  Ok updated.2.

Definition terminalize_issuer_grants (db : AuthTables) (id : IssuerKeyId) (version : IssuerKeyVersion) (now generation : Z)
    : store_result AuthTables :=
  generation ← to_sql generation;
  now ← to_sql now;
  updated ← update_grants (fun row => row_live now row && bool_decide (gr_issuer_key_id row = id)
                                      && (gr_issuer_key_version row =? raw version))
              6 generation (terminal_time now) db;
  Ok updated.2.

(** The loop of [terminalize_policy_invalid_grants]. *)
Fixpoint terminalize_policy_rows (policy : AuthorizationPolicy) (now generation : Z) (rows : list (SessionGrantId * Z))
    (db : AuthTables) : store_result AuthTables :=
  match rows with
  | [] => Ok db
  | (id, bits) :: rows =>
      evidence ← decode_evidence bits;
      if policy_accepts policy evidence then terminalize_policy_rows policy now generation rows db
      else
        generation' ← to_sql generation;
        now' ← to_sql now;
        updated ← update_grants (fun row => bool_decide (gr_grant_id row = id) && (gr_state row =? 1))
                    7 generation' (terminal_time now') db;
        fail_if (negb (updated.1 =? 1)) AuthInvalidStorage;;
        terminalize_policy_rows policy now generation rows updated.2
  end.

Definition terminalize_policy_invalid_grants (db : AuthTables) (policy : AuthorizationPolicy) (now generation : Z)
    : store_result AuthTables :=
  now' ← to_sql now;
  let rows := take 257 ((fun row => (gr_grant_id row, gr_evidence row)) <$> List.filter (row_live now') (t_grants db)) in
  fail_if (MAX_SESSION_GRANTS <? len rows) AuthInvalidStorage;;
  terminalize_policy_rows policy now generation rows db.

(** The ordinals of [insert_policy_clauses]. *)
Definition clause_rows (policy : AuthorizationPolicy) : list (Z * Z) :=
  imap (fun i clause => (Z.of_nat i, raw clause)) (policy_clauses policy).

Definition replace_policy_rows (db : AuthTables) (policy : AuthorizationPolicy) : store_result AuthTables :=
  fail_if ((len (policy_clauses policy) =? 0) || (MAX_POLICY_CLAUSES <? len (policy_clauses policy))) AuthInvalidInput;;
  version ← to_sql (raw (policy_version policy));
  Ok (set_policy version (clause_rows policy) db).

(** An insertion into the audit log, whose key is the generation. *)
Definition commit_generation (db : AuthTables) (generation : Z) (kind : AuthorizationAuditKind) (now : Z)
    : store_result AuthTables :=
  generation ← to_sql generation;
  now ← to_sql now;
  fail_if (existsb (fun e => e.1.1 =? generation) (t_audit db)) AuthStorageUnavailable;;
  Ok (set_audit (sort_insert (fun e => e.1.1) Z.compare (generation, audit_kind_code kind, now) (t_audit db))
        (set_generation generation db)).

(** [ORDER BY terminal_generation DESC, grant_id DESC LIMIT -1 OFFSET ?1]. *)
Definition prune_key (row : GrantRow) : option Z * SessionGrantId := (gr_terminal_generation row, gr_grant_id row).
Definition prune_compare (x y : option Z * SessionGrantId) : comparison :=
  pair_compare (option_compare Z.compare) array_compare y x.

Definition prune_bounded_history (db : AuthTables) : AuthTables :=
  let terminal row := negb (gr_state row =? 1) in
  let doomed := gr_grant_id <$> drop (Z.to_nat MAX_TERMINAL_GRANT_RECORDS)
                  (sort_by prune_key prune_compare (List.filter terminal (t_grants db))) in
  let db := set_grants (t_grant_identifiers db)
              (List.filter (fun row => negb (terminal row && existsb (fun id => bool_decide (id = gr_grant_id row)) doomed))
                 (t_grants db)) db in
  let dropped := (fun e => e.1.1) <$> drop (Z.to_nat MAX_AUTHORIZATION_AUDIT_RECORDS) (reverse (t_audit db)) in
  set_audit (List.filter (fun e => negb (existsb (fun g => g =? e.1.1) dropped)) (t_audit db)) db.

Definition enforce_grant_capacity (db : AuthTables) (candidate : SessionGrant) (now : Z) : store_result unit :=
  now ← to_sql now;
  let live := List.filter (row_live now) (t_grants db) in
  fail_if ((MAX_SESSION_GRANTS <=? len live)
           || (MAX_GRANTS_PER_ISSUER <=? count (fun row => bool_decide (gr_issuer_key_id row = grant_issuer_key_id candidate)) live)
           || (MAX_GRANTS_PER_PROFILE <=? count (fun row => bool_decide (gr_profile_id row = raw (grant_profile candidate))) live))
    AuthCapacity.

Definition validate_grant_authority (db : AuthTables) (candidate : SessionGrant) : store_result unit :=
  fail_if (is_profile_suspended db (grant_profile candidate)) AuthProfileSuspended;;
  issuer ← load_issuer db (grant_issuer_key_id candidate) (grant_issuer_key_version candidate);
  issuer ← ok_or issuer AuthNotFound;
  fail_if (bool_decide (issuer_availability issuer = Disabled)) AuthIssuerDisabled;;
  fail_if ((negb (bool_decide (registration_harness (issuer_registration issuer) = grant_harness candidate))
            && negb (bool_decide (registration_harness (issuer_registration issuer) = Generic)))
           || negb (permits (registration_profiles (issuer_registration issuer)) (grant_profile candidate))) AuthConflict;;
  policy ← load_policy db;
  fail_if (bool_decide (grant_policy_version candidate ≠ policy_version policy)) AuthConflict;;
  fail_if (negb (policy_accepts policy (grant_evidence candidate))) AuthRequiredEvidenceUnavailable.

Definition count_active_issuer_grants (db : AuthTables) (id : IssuerKeyId) (version : IssuerKeyVersion) (now : Z)
    : store_result Z :=
  now ← to_sql now;
  Ok (count (fun row => row_live now row && bool_decide (gr_issuer_key_id row = id)
                        && (gr_issuer_key_version row =? raw version)) (t_grants db)).

(** ** User-presence credentials *)

(** The answer of an operation, the committed tables and the generation the handle has observed. *)
Abbreviation outcome A := (store_result A * (AuthTables * Z))%type.

Section credentials.
Context `{Sha256} `{WebAuthnDocuments}.

Definition credential_row_of (c : UserPresenceCredentialRecord) : CredentialRow :=
  mk_CredentialRow (credential_provider_id c) (credential_credential_id c) (credential_digest c) (credential_document c).

Definition credential_row_checks (row : CredentialRow) : bool :=
  (1 <=? len (cr_provider_id row)) && (len (cr_provider_id row) <=? 64)
  && (1 <=? len (cr_credential_id row)) && (len (cr_credential_id row) <=? 1024)
  && (len (cr_digest row) =? 32)
  && (1 <=? len (cr_document row)) && (len (cr_document row) <=? 65536).

Definition reserve_user_presence_credential_identifier (db : AuthTables) (digest : bytes) : store_result AuthTables :=
  fail_if (user_presence_credential_identifier_exists db digest) AuthConflict;;
  fail_if (MAX_USER_PRESENCE_CREDENTIAL_IDENTIFIERS <=? len (t_credential_identifiers db)) AuthCapacity;;
  fail_if (negb (len digest =? 32)) AuthStorageUnavailable;;
  Ok (set_credentials (sort_insert (fun x => x) bytes_compare digest (t_credential_identifiers db)) (t_credential db) db).

(** The constraints a credential row has to meet. *)
Definition credential_refused (db : AuthTables) (c : UserPresenceCredentialRecord) : bool :=
  negb (credential_row_checks (credential_row_of c))
  || negb (user_presence_credential_identifier_exists db (credential_digest c)).

Definition insert_user_presence_credential (db : AuthTables) (c : UserPresenceCredentialRecord) : store_result AuthTables :=
  fail_if (is_some (t_credential db) || credential_refused db c) AuthStorageUnavailable;;
  Ok (set_credentials (t_credential_identifiers db) (Some (credential_row_of c)) db).

Definition update_credential_row (db : AuthTables) (c : UserPresenceCredentialRecord) : store_result AuthTables :=
  match t_credential db with
  | None => Err AuthInvalidStorage
  | Some _ =>
      fail_if (credential_refused db c) AuthStorageUnavailable;;
      Ok (set_credentials (t_credential_identifiers db) (Some (credential_row_of c)) db)
  end.

Definition advance_user_presence_credential (db : AuthTables) (expected updated : UserPresenceCredentialRecord)
    : store_result (bool * AuthTables) :=
  existing ← load_user_presence_credential db;
  existing ← ok_or existing AuthNotFound;
  fail_if (bool_decide (existing ≠ expected)
           || bool_decide (credential_digest expected ≠ credential_digest updated)
           || bool_decide (credential_provider_id expected ≠ credential_provider_id updated)
           || bool_decide (credential_credential_id expected ≠ credential_credential_id updated)) AuthConflict;;
  if bool_decide (existing = updated) then Ok (false, db)
  else db ← update_credential_row db updated; Ok (true, db).

(** ** The handle *)

(** What every operation checks before it reads. *)
Definition open_checks (fingerprint : bytes) (high_water : Z) (db : AuthTables) : store_result Z :=
  verify_identity_and_high_water db fingerprint (Some high_water);;
  validate_store db fingerprint;;
  load_generation db.

(** The body of [mutate] after the observed generation is recorded. *)
Definition mutate_body (fingerprint : bytes) (db : AuthTables) (now : Z) (kind : AuthorizationAuditKind)
    (operation : AuthTables → Z → store_result (bool * AuthTables)) (current : Z)
    : store_result (AuthorizationMutation * AuthTables) :=
  let proposed := proposed_generation current in
  changed ← operation db proposed;
  expired ← expire_grants changed.2 now proposed;
  if negb changed.1 && (expired.1 =? 0) then Ok (mk_AuthorizationMutation current Unchanged, expired.2)
  else
    fail_if (proposed =? current) AuthCapacity;;
    db ← commit_generation expired.2 proposed (if changed.1 then kind else AuditGrantsExpired) now;
    let db := prune_bounded_history db in
    validate_store db fingerprint;;
    Ok (mk_AuthorizationMutation proposed (if changed.1 then Applied else Unchanged), db).

Definition mutate (fingerprint : bytes) (high_water : Z) (db : AuthTables) (now : Z) (kind : AuthorizationAuditKind)
    (operation : AuthTables → Z → store_result (bool * AuthTables)) : outcome AuthorizationMutation :=
  match validate_timestamp now;; open_checks fingerprint high_water db with
  | Err e => (Err e, (db, high_water))
  | Ok current =>
      match mutate_body fingerprint db now kind operation current with
      | Err e => (Err e, (db, current))
      | Ok (mutation, db) => (Ok mutation, (db, mutation_generation mutation))
      end
  end.

(** [expire_for_read]: the generation after grants that reached their expiry are terminal. *)
Definition expire_for_read (db : AuthTables) (now : Z) : store_result (Z * AuthTables) :=
  current ← load_generation db;
  let proposed := proposed_generation current in
  expired ← expire_grants db now proposed;
  if expired.1 =? 0 then Ok (current, expired.2)
  else
    fail_if (proposed =? current) AuthCapacity;;
    db ← commit_generation expired.2 proposed AuditGrantsExpired now;
    Ok (proposed, prune_bounded_history db).

(** A read that expires grants first: it is validated before and after, and records the
    generation it committed. *)
Definition expiring_read {A} (fingerprint : bytes) (high_water required : Z) (db : AuthTables) (now : Z)
    (query : AuthTables → Z → store_result A) : outcome A :=
  match
    validate_timestamp now;;
    open_checks fingerprint required db;;
    expired ← expire_for_read db now;
    answer ← query expired.2 expired.1;
    validate_store expired.2 fingerprint;;
    Ok (answer, expired)
  with
  | Err e => (Err e, (db, high_water))
  | Ok (answer, (generation, db)) => (Ok answer, (db, generation))
  end.

(** The caller may ask for a later generation than the handle has observed. *)
Definition required_high_water (high_water : option Z) (observed : Z) : Z :=
  match high_water with Some candidate => if observed <? candidate then candidate else observed | None => observed end.

Record AuthorizationSnapshot := mk_AuthorizationSnapshot {
  snapshot_generation : Z;
  snapshot_policy : AuthorizationPolicy;
  snapshot_issuers : list AuthorizationIssuerRecord;
  snapshot_suspended : list ServiceProfileId;
  snapshot_grants : list SessionGrant;
  snapshot_credential : option UserPresenceCredentialRecord }.

Definition read_snapshot (now : Z) (db : AuthTables) (generation : Z) : store_result AuthorizationSnapshot :=
  policy ← load_policy db;
  issuers ← load_issuers db;
  suspended ← load_suspended_profiles db;
  grants ← load_active_grants db now;
  credential ← load_user_presence_credential db;
  Ok (mk_AuthorizationSnapshot generation policy issuers suspended grants credential).

Definition load_snapshot (fingerprint : bytes) (observed : Z) (db : AuthTables) (now : Z) (high_water : option Z)
    : outcome AuthorizationSnapshot :=
  expiring_read fingerprint observed (required_high_water high_water observed) db now (read_snapshot now).

Definition active_grant_for_request (fingerprint : bytes) (observed : Z) (db : AuthTables) (id : IssuerKeyId)
    (version : IssuerKeyVersion) (key : GrantIssuanceKey) (now : Z) : outcome (option SessionGrant) :=
  expiring_read fingerprint observed observed db now (fun db _ =>
    stored ← load_grant_by_issuance db id version key;
    Ok (match stored with
        | Some stored => if is_active stored && (now <? grant_expires_at (stored_grant stored))
                         then Some (stored_grant stored) else None
        | None => None
        end)).

(** ** Issuing grants *)

Record GrantIssuanceResult := mk_GrantIssuanceResult {
  issuance_mutation : AuthorizationMutation;
  issuance_grant : SessionGrant }.

(** The replay of a recorded request. *)
Definition replay_issuance (fingerprint : bytes) (db : AuthTables) (existing : StoredGrant) (candidate : SessionGrant)
    (now current : Z) : store_result (GrantIssuanceResult * AuthTables) :=
  let proposed := proposed_generation current in
  fail_if (negb (same_issuance_request (stored_grant existing) candidate)) AuthConflict;;
  expired ← expire_grants db now proposed;
  settled ←
    (if expired.1 =? 0 then Ok (current, expired.2)
     else
       fail_if (proposed =? current) AuthCapacity;;
       db ← commit_generation expired.2 proposed AuditGrantsExpired now;
       Ok (proposed, prune_bounded_history db));
  validate_store settled.2 fingerprint;;
  Ok (mk_GrantIssuanceResult (mk_AuthorizationMutation settled.1 Unchanged) (stored_grant existing), settled.2).

(** The issuance of a grant no request has been recorded for. *)
Definition first_issuance (fingerprint : bytes) (db : AuthTables) (key : GrantIssuanceKey) (candidate : SessionGrant)
    (now current : Z) : store_result (GrantIssuanceResult * AuthTables) :=
  let proposed := proposed_generation current in
  by_id ← load_grant_by_id db (grant_id candidate);
  fail_if (is_some by_id || grant_identifier_exists db (grant_id candidate)) AuthConflict;;
  fail_if (MAX_GRANT_IDENTIFIERS <=? len (t_grant_identifiers db)) AuthCapacity;;
  validate_grant_authority db candidate;;
  enforce_grant_capacity db candidate now;;
  db ← reserve_grant_identifier db (grant_id candidate);
  db ← insert_grant db key candidate;
  expired ← expire_grants db now proposed;
  fail_if (proposed =? current) AuthCapacity;;
  db ← commit_generation expired.2 proposed AuditGrantIssued now;
  let db := prune_bounded_history db in
  validate_store db fingerprint;;
  Ok (mk_GrantIssuanceResult (mk_AuthorizationMutation proposed Applied) candidate, db).

Definition issue_grant_for_request (fingerprint : bytes) (high_water : Z) (db : AuthTables) (key : GrantIssuanceKey)
    (candidate : SessionGrant) (now : Z) : outcome GrantIssuanceResult :=
  if (now <? grant_issued_at candidate) || (grant_expires_at candidate <=? now)
  then (Err AuthInvalidInput, (db, high_water))
  else
    match open_checks fingerprint high_water db with
    | Err e => (Err e, (db, high_water))
    | Ok current =>
        match
          existing ← load_grant_by_issuance db (grant_issuer_key_id candidate) (grant_issuer_key_version candidate) key;
          match existing with
          | Some existing => replay_issuance fingerprint db existing candidate now current
          | None => first_issuance fingerprint db key candidate now current
          end
        with
        | Err e => (Err e, (db, current))
        | Ok (issued, db) => (Ok issued, (db, mutation_generation (issuance_mutation issued)))
        end
    end.

Definition issue_grant (fingerprint : bytes) (high_water : Z) (db : AuthTables) (candidate : SessionGrant) (now : Z)
    : outcome AuthorizationMutation :=
  let '(answer, rest) := issue_grant_for_request fingerprint high_water db
                           (mk_GrantIssuanceKey (grant_id candidate) (grant_id candidate)) candidate now in
  (issuance_mutation <$> answer, rest).

(** ** Mutations *)

Definition retire_grant (fingerprint : bytes) (high_water : Z) (db : AuthTables) (id : SessionGrantId) (now : Z)
    : outcome AuthorizationMutation :=
  mutate fingerprint high_water db now AuditGrantRetired
    (fun db generation => terminalize_exact_grant db id StateRetired now generation).

Definition revoke_grant (fingerprint : bytes) (high_water : Z) (db : AuthTables) (id : SessionGrantId) (now : Z)
    : outcome AuthorizationMutation :=
  mutate fingerprint high_water db now AuditGrantRevoked
    (fun db generation => terminalize_exact_grant db id StateRevoked now generation).

Definition suspend_operation (profile : ServiceProfileId) (now : Z) (db : AuthTables) (generation : Z)
    : store_result (bool * AuthTables) :=
  if is_profile_suspended db profile then Ok (false, db)
  else
    fail_if (MAX_SUSPENDED_PROFILES <=? len (t_suspended db)) AuthCapacity;;
    let db := set_suspended (sort_insert (fun x => x) bytes_compare (raw profile) (t_suspended db)) db in
    db ← terminalize_profile_grants db profile now generation;
    Ok (true, db).

Definition suspend_profile (fingerprint : bytes) (high_water : Z) (db : AuthTables) (profile : ServiceProfileId) (now : Z)
    : outcome AuthorizationMutation :=
  mutate fingerprint high_water db now AuditProfileSuspended (suspend_operation profile now).

Definition resume_operation (profile : ServiceProfileId) (db : AuthTables) (_generation : Z)
    : store_result (bool * AuthTables) :=
  let named p := bool_decide (p = raw profile) in
  Ok (count named (t_suspended db) =? 1, set_suspended (List.filter (fun p => negb (named p)) (t_suspended db)) db).

Definition resume_profile (fingerprint : bytes) (high_water : Z) (db : AuthTables) (profile : ServiceProfileId) (now : Z)
    : outcome AuthorizationMutation :=
  mutate fingerprint high_water db now AuditProfileResumed (resume_operation profile).

Definition set_issuer_row (availability : IssuerAvailability) (disposition : ExistingGrantDisposition) (row : IssuerRow)
    : IssuerRow :=
  mk_IssuerRow (ir_key_id row) (ir_key_version row) (ir_public_key row) (ir_harness row) (ir_profile_kind row)
    (ir_profile_id row) (availability_code availability) (disposition_code disposition).

Definition set_issuer_operation (id : IssuerKeyId) (version : IssuerKeyVersion) (availability : IssuerAvailability)
    (disposition : ExistingGrantDisposition) (now : Z) (db : AuthTables) (generation : Z)
    : store_result (bool * AuthTables) :=
  issuer ← load_issuer db id version;
  issuer ← ok_or issuer AuthNotFound;
  if bool_decide (issuer_availability issuer = availability) && bool_decide (issuer_disposition issuer = disposition)
  then Ok (false, db)
  else
    fail_if (negb (count (issuer_row_is id version) (t_issuers db) =? 1)) AuthInvalidStorage;;
    let db := set_issuers (t_issuer_identifiers db)
                ((fun row => if issuer_row_is id version row then set_issuer_row availability disposition row else row)
                   <$> t_issuers db) db in
    db ← (if bool_decide (availability = Disabled) && bool_decide (disposition = RevokeExisting)
          then terminalize_issuer_grants db id version now generation else Ok db);
    Ok (true, db).

Definition set_issuer_state (fingerprint : bytes) (high_water : Z) (db : AuthTables) (id : IssuerKeyId)
    (version : IssuerKeyVersion) (availability : IssuerAvailability) (disposition : ExistingGrantDisposition) (now : Z)
    : outcome AuthorizationMutation :=
  mutate fingerprint high_water db now AuditIssuerStateChanged
    (set_issuer_operation id version availability disposition now).

Definition replace_policy_operation (policy : AuthorizationPolicy) (now : Z) (db : AuthTables) (generation : Z)
    : store_result (bool * AuthTables) :=
  current ← load_policy db;
  fail_if (raw (policy_version policy) <=? raw (policy_version current)) AuthConflict;;
  db ← replace_policy_rows db policy;
  db ← terminalize_policy_invalid_grants db policy now generation;
  Ok (true, db).

Definition replace_policy (fingerprint : bytes) (high_water : Z) (db : AuthTables) (policy : AuthorizationPolicy) (now : Z)
    : outcome AuthorizationMutation :=
  mutate fingerprint high_water db now AuditPolicyReplaced (replace_policy_operation policy now).

Definition register_issuer_operation (issuer : InstalledIssuerRegistration) (db : AuthTables) (_generation : Z)
    : store_result (bool * AuthTables) :=
  let id := installed_key_id issuer in
  let version := installed_key_version issuer in
  fail_if (issuer_identifier_exists db id version) AuthConflict;;
  fail_if (MAX_ADAPTER_REGISTRATIONS <=? len (t_issuer_identifiers db)) AuthCapacity;;
  fail_if (existsb (fun e => bool_decide (e.1 = id) && (raw version <=? e.2)) (t_issuer_identifiers db)) AuthConflict;;
  db ← insert_issuer db issuer;
  Ok (true, db).

Definition register_issuer (fingerprint : bytes) (high_water : Z) (db : AuthTables) (issuer : InstalledIssuerRegistration)
    (now : Z) : outcome AuthorizationMutation :=
  mutate fingerprint high_water db now AuditIssuerRegistered (register_issuer_operation issuer).

(** [DELETE FROM authorization_issuer]: a remaining grant would refuse it. *)
Definition delete_issuer (db : AuthTables) (id : IssuerKeyId) (version : IssuerKeyVersion) : store_result AuthTables :=
  fail_if (existsb (fun row => bool_decide (gr_issuer_key_id row = id) && (gr_issuer_key_version row =? raw version))
             (t_grants db)) AuthStorageUnavailable;;
  fail_if (negb (count (issuer_row_is id version) (t_issuers db) =? 1)) AuthInvalidStorage;;
  Ok (set_issuers (t_issuer_identifiers db) (List.filter (fun row => negb (issuer_row_is id version row)) (t_issuers db)) db).

Definition remove_issuer_operation (id : IssuerKeyId) (version : IssuerKeyVersion) (disposition : ExistingGrantDisposition)
    (now : Z) (db : AuthTables) (generation : Z) : store_result (bool * AuthTables) :=
  issuer ← load_issuer db id version;
  if is_none issuer then
    if issuer_identifier_exists db id version then Ok (false, db) else Err AuthNotFound
  else
    active ← count_active_issuer_grants db id version now;
    db ← (if 0 <? active then
            if bool_decide (disposition = RetainUntilExpiry) then Err AuthConflict
            else terminalize_issuer_grants db id version now generation
          else Ok db);
    let db := set_grants (t_grant_identifiers db)
                (List.filter (fun row => negb (bool_decide (gr_issuer_key_id row = id)
                                               && (gr_issuer_key_version row =? raw version))) (t_grants db)) db in
    db ← delete_issuer db id version;
    Ok (true, db).

Definition remove_issuer (fingerprint : bytes) (high_water : Z) (db : AuthTables) (id : IssuerKeyId)
    (version : IssuerKeyVersion) (disposition : ExistingGrantDisposition) (now : Z) : outcome AuthorizationMutation :=
  mutate fingerprint high_water db now AuditIssuerRemoved (remove_issuer_operation id version disposition now).

(** ** Mutations of the credential *)

Definition register_credential_operation (c : UserPresenceCredentialRecord) (db : AuthTables) (_generation : Z)
    : store_result (bool * AuthTables) :=
  existing ← load_user_presence_credential db;
  match existing with
  | Some existing => if bool_decide (existing = c) then Ok (false, db) else Err AuthConflict
  | None =>
      db ← reserve_user_presence_credential_identifier db (credential_digest c);
      db ← insert_user_presence_credential db c;
      Ok (true, db)
  end.

Definition register_user_presence_credential (fingerprint : bytes) (high_water : Z) (db : AuthTables)
    (c : UserPresenceCredentialRecord) (now : Z) : outcome AuthorizationMutation :=
  mutate fingerprint high_water db now AuditCredentialRegistered (register_credential_operation c).

Definition replace_credential_operation (expected : bytes) (replacement : UserPresenceCredentialRecord) (db : AuthTables)
    (_generation : Z) : store_result (bool * AuthTables) :=
  existing ← load_user_presence_credential db;
  existing ← ok_or existing AuthNotFound;
  fail_if (bool_decide (credential_digest existing ≠ expected)) AuthConflict;;
  if bool_decide (existing = replacement) then Ok (false, db)
  else
    fail_if (bool_decide (credential_digest replacement = expected)) AuthConflict;;
    db ← reserve_user_presence_credential_identifier db (credential_digest replacement);
    db ← update_credential_row db replacement;
    Ok (true, db).

Definition replace_user_presence_credential (fingerprint : bytes) (high_water : Z) (db : AuthTables) (expected : bytes)
    (replacement : UserPresenceCredentialRecord) (now : Z) : outcome AuthorizationMutation :=
  mutate fingerprint high_water db now AuditCredentialReplaced (replace_credential_operation expected replacement).

Definition update_user_presence_credential (fingerprint : bytes) (high_water : Z) (db : AuthTables)
    (expected updated : UserPresenceCredentialRecord) (now : Z) : outcome AuthorizationMutation :=
  mutate fingerprint high_water db now AuditCredentialUpdated
    (fun db _ => advance_user_presence_credential db expected updated).

(** The evidence of user presence alone has its one bit. *)
Definition presence_evidence (evidence : AuthorizationEvidenceSet) : bool :=
  match AuthorizationEvidenceSet_new [UserPresence] with
  | Ok presence => satisfies evidence presence
  | Err _ => false
  end.

Definition update_user_presence_credential_for_grant (fingerprint : bytes) (high_water : Z) (db : AuthTables)
    (expected updated : UserPresenceCredentialRecord) (grant : SessionGrant) (now : Z) : outcome AuthorizationMutation :=
  if negb (presence_evidence (grant_evidence grant)) then (Err AuthInvalidInput, (db, high_water))
  else
    mutate fingerprint high_water db now AuditCredentialUpdated (fun db _ =>
      validate_grant_authority db grant;;
      advance_user_presence_credential db expected updated).

Definition remove_credential_operation (expected : bytes) (db : AuthTables) (_generation : Z)
    : store_result (bool * AuthTables) :=
  existing ← load_user_presence_credential db;
  match existing with
  | None => if user_presence_credential_identifier_exists db expected then Ok (false, db) else Err AuthNotFound
  | Some existing =>
      fail_if (bool_decide (credential_digest existing ≠ expected)) AuthConflict;;
      Ok (true, set_credentials (t_credential_identifiers db) None db)
  end.

Definition remove_user_presence_credential (fingerprint : bytes) (high_water : Z) (db : AuthTables) (expected : bytes)
    (now : Z) : outcome AuthorizationMutation :=
  mutate fingerprint high_water db now AuditCredentialRemoved (remove_credential_operation expected).

(** ** Diagnostics *)

Record AuthorizationCapacity := mk_AuthorizationCapacity {
  capacity_active_global : Z;
  capacity_maximum_global : Z;
  capacity_active_for_issuer : Z;
  capacity_maximum_for_issuer : Z;
  capacity_active_for_profile : Z;
  capacity_maximum_for_profile : Z }.

Record AuthorizationStoreStatus := mk_AuthorizationStoreStatus {
  status_generation : Z;
  status_policy_version : AuthorizationPolicyVersion;
  status_issuer_records : Z;
  status_issuer_identifiers : Z;
  status_disabled_issuers : Z;
  status_suspended_profiles : Z;
  status_active_grants : Z;
  status_terminal_grants : Z;
  status_grant_identifiers : Z;
  status_audit_records : Z;
  status_credentials : Z;
  status_credential_identifiers : Z;
  status_capacity : AuthorizationCapacity }.

Definition load_status_inner (id : IssuerKeyId) (profile : ServiceProfileId) (now : Z) (db : AuthTables) (generation : Z)
    : store_result AuthorizationStoreStatus :=
  now ← to_sql now;
  policy ← load_policy db;
  let live := List.filter (row_live now) (t_grants db) in
  Ok (mk_AuthorizationStoreStatus generation (policy_version policy) (len (t_issuers db)) (len (t_issuer_identifiers db))
        (count (fun row => ir_enabled row =? 0) (t_issuers db)) (len (t_suspended db)) (len live)
        (count (fun row => negb (gr_state row =? 1)) (t_grants db)) (len (t_grant_identifiers db)) (len (t_audit db))
        (len (opt_rows (t_credential db))) (len (t_credential_identifiers db))
        (mk_AuthorizationCapacity (len live) MAX_SESSION_GRANTS
           (count (fun row => bool_decide (gr_issuer_key_id row = id)) live) MAX_GRANTS_PER_ISSUER
           (count (fun row => bool_decide (gr_profile_id row = raw profile)) live) MAX_GRANTS_PER_PROFILE)).

Definition load_status (fingerprint : bytes) (observed : Z) (db : AuthTables) (now : Z) (high_water : option Z)
    (id : IssuerKeyId) (profile : ServiceProfileId) : outcome AuthorizationStoreStatus :=
  expiring_read fingerprint observed (required_high_water high_water observed) db now (load_status_inner id profile now).

Definition load_audit_events (fingerprint : bytes) (observed : Z) (db : AuthTables) (limit : Z) (high_water : option Z)
    : outcome (list AuthorizationAuditEvent) :=
  match
    fail_if ((limit =? 0) || (MAX_AUTHORIZATION_AUDIT_RECORDS <? limit)) AuthInvalidInput;;
    generation ← open_checks fingerprint (required_high_water high_water observed) db;
    events ← load_audit_events_inner db limit;
    Ok (events, generation)
  with
  | Err e => (Err e, (db, observed))
  | Ok (events, generation) => (Ok events, (db, generation))
  end.

(** ** Bootstrap and opening *)

Definition installed_key (i : InstalledIssuerRegistration) : IssuerKeyId * Z :=
  (installed_key_id i, raw (installed_key_version i)).

Definition validate_bootstrap (policy : AuthorizationPolicy) (issuers : list InstalledIssuerRegistration) : store_result unit :=
  fail_if ((len (policy_clauses policy) =? 0) || (MAX_POLICY_CLAUSES <? len (policy_clauses policy))
           || (len issuers =? 0) || (MAX_ADAPTER_REGISTRATIONS <? len issuers)) AuthInvalidInput;;
  fail_if (adjacent_any (fun x y => bool_decide (x = y)) (sort_by (fun x => x) key_compare (installed_key <$> issuers)))
    AuthInvalidInput.

(** The loop over the ordered issuers. *)
Fixpoint insert_issuers (issuers : list InstalledIssuerRegistration) (db : AuthTables) : store_result AuthTables :=
  match issuers with
  | [] => Ok db
  | issuer :: issuers => db ← insert_issuer db issuer; insert_issuers issuers db
  end.

Definition bootstrap_store (fingerprint : bytes) (policy : AuthorizationPolicy) (issuers : list InstalledIssuerRegistration)
    (now : Z) : store_result AuthTables :=
  version ← to_sql (raw (policy_version policy));
  let db := mk_AuthTables fingerprint 1 version (clause_rows policy) [] [] [] [] [] [] None [] in
  db ← insert_issuers (sort_by installed_key key_compare issuers) db;
  now ← to_sql now;
  Ok (set_audit [(1, audit_kind_code AuditBootstrap, now)] db).

(** What [open_inner] does to an empty database, and what it checks of any. *)
Definition bootstrap (fingerprint : bytes) (policy : AuthorizationPolicy) (issuers : list InstalledIssuerRegistration)
    (now : Z) : store_result (AuthTables * Z) :=
  validate_timestamp now;;
  validate_bootstrap policy issuers;;
  db ← bootstrap_store fingerprint policy issuers now;
  validate_store db fingerprint;;
  generation ← load_generation db;
  Ok (db, generation).

Definition open_store (fingerprint : bytes) (process_high_water : option Z) (db : AuthTables) : store_result Z :=
  validate_store db fingerprint;;
  generation ← load_generation db;
  fail_if (is_some_and process_high_water (fun h => generation <? h)) AuthGenerationRollback;;
  Ok generation.

End credentials.
