(* ===== verification/AuthorizationSpec.v ===== *)
(** * What the authorization store promises

    The typed state the tables of [AuthorizationStore] encode, the operations on that state
    without tables, constraints or validation, and the invariant every committed state has.
    [tables_of] is the encoding; [AuthorizationProofs] shows that the operations of
    [AuthorizationOps] on encoded states are the operations of this file. *)

From S2P Require Import Prelude Identifiers LocalGrants AuthorizationStore AuthorizationOps.
Open Scope Z_scope.

(** ** The state *)

(** A grant, the request it was issued for and, once it has ended, why, at which generation and when. *)
Record GrantEntry := mk_GrantEntry {
  entry_key : GrantIssuanceKey;
  entry_grant : SessionGrant;
  entry_end : option (GrantState * Z * Z) }.

Record AuthState := mk_AuthState {
  s_generation : Z;
  s_policy : AuthorizationPolicy;
  s_issuer_ids : list (IssuerKeyId * IssuerKeyVersion);
  s_issuers : list AuthorizationIssuerRecord;
  s_suspended : list ServiceProfileId;
  s_grant_ids : list SessionGrantId;
  s_grants : list GrantEntry;
  s_credential_ids : list bytes;
  s_credential : option UserPresenceCredentialRecord;
  s_audit : list AuthorizationAuditEvent }.

Definition with_policy (v : AuthorizationPolicy) (s : AuthState) : AuthState :=
  mk_AuthState (s_generation s) v (s_issuer_ids s) (s_issuers s) (s_suspended s) (s_grant_ids s) (s_grants s)
    (s_credential_ids s) (s_credential s) (s_audit s).
Definition with_issuers (ids : list (IssuerKeyId * IssuerKeyVersion)) (l : list AuthorizationIssuerRecord) (s : AuthState)
    : AuthState :=
  mk_AuthState (s_generation s) (s_policy s) ids l (s_suspended s) (s_grant_ids s) (s_grants s)
    (s_credential_ids s) (s_credential s) (s_audit s).
Definition with_suspended (l : list ServiceProfileId) (s : AuthState) : AuthState :=
  mk_AuthState (s_generation s) (s_policy s) (s_issuer_ids s) (s_issuers s) l (s_grant_ids s) (s_grants s)
    (s_credential_ids s) (s_credential s) (s_audit s).
Definition with_grants (ids : list SessionGrantId) (l : list GrantEntry) (s : AuthState) : AuthState :=
  mk_AuthState (s_generation s) (s_policy s) (s_issuer_ids s) (s_issuers s) (s_suspended s) ids l
    (s_credential_ids s) (s_credential s) (s_audit s).
Definition with_credential (ids : list bytes) (c : option UserPresenceCredentialRecord) (s : AuthState) : AuthState :=
  mk_AuthState (s_generation s) (s_policy s) (s_issuer_ids s) (s_issuers s) (s_suspended s) (s_grant_ids s) (s_grants s)
    ids c (s_audit s).
Definition with_audit (generation : Z) (l : list AuthorizationAuditEvent) (s : AuthState) : AuthState :=
  mk_AuthState generation (s_policy s) (s_issuer_ids s) (s_issuers s) (s_suspended s) (s_grant_ids s) (s_grants s)
    (s_credential_ids s) (s_credential s) l.

(** ** The encoding *)

Definition key_cell (k : IssuerKeyId * IssuerKeyVersion) : IssuerKeyId * Z := (k.1, raw k.2).

Definition issuer_key_of (i : AuthorizationIssuerRecord) : IssuerKeyId * IssuerKeyVersion :=
  (issuer_key_id i, issuer_key_version i).

Definition issuer_row (i : AuthorizationIssuerRecord) : IssuerRow :=
  let registration := issuer_registration i in
  mk_IssuerRow (issuer_key_id i) (raw (issuer_key_version i)) (registration_public_key registration)
    (wire_value (registration_harness registration)) (profile_kind_code (registration_profiles registration))
    (profile_kind_id (registration_profiles registration)) (availability_code (issuer_availability i))
    (disposition_code (issuer_disposition i)).

Definition grant_row (e : GrantEntry) : GrantRow :=
  match entry_end e with
  | None => grant_row_of (entry_key e) (entry_grant e)
  | Some (state, generation, at_) =>
      terminalize (grant_state_code state) generation (fun _ => at_) (grant_row_of (entry_key e) (entry_grant e))
  end.

Definition audit_row (e : AuthorizationAuditEvent) : Z * Z * Z :=
  (audit_generation e, audit_kind_code (audit_kind e), audit_occurred_at e).

Definition tables_of (fingerprint : bytes) (s : AuthState) : AuthTables :=
  mk_AuthTables fingerprint (s_generation s) (raw (policy_version (s_policy s))) (clause_rows (s_policy s))
    (key_cell <$> s_issuer_ids s) (issuer_row <$> s_issuers s) (raw <$> s_suspended s) (s_grant_ids s)
    (grant_row <$> s_grants s) (s_credential_ids s) (credential_row_of <$> s_credential s) (audit_row <$> s_audit s).

(** ** Steps *)

Definition entry_id (e : GrantEntry) : SessionGrantId := grant_id (entry_grant e).
Definition entry_active (e : GrantEntry) : bool := is_none (entry_end e).
Definition entry_live (now : Z) (e : GrantEntry) : bool := entry_active e && (now <? grant_expires_at (entry_grant e)).
Definition entry_expired (now : Z) (e : GrantEntry) : bool :=
  entry_active e && (grant_expires_at (entry_grant e) <=? now).

Definition end_entry (state : GrantState) (generation : Z) (at_ : GrantEntry → Z) (e : GrantEntry) : GrantEntry :=
  mk_GrantEntry (entry_key e) (entry_grant e) (Some (state, generation, at_ e)).

Definition end_where (p : GrantEntry → bool) (state : GrantState) (generation : Z) (at_ : GrantEntry → Z) (s : AuthState)
    : AuthState :=
  with_grants (s_grant_ids s) ((fun e => if p e then end_entry state generation at_ e else e) <$> s_grants s) s.

Definition end_time (now : Z) (e : GrantEntry) : Z := Z.max now (grant_issued_at (entry_grant e)).

Definition expire (now generation : Z) (s : AuthState) : AuthState :=
  end_where (entry_expired now) StateExpired generation (fun _ => now) s.

(** The rank of an ended grant in the bounded history. *)
Definition entry_prune_key (e : GrantEntry) : option Z * SessionGrantId :=
  ((fun end_ => end_.1.2) <$> entry_end e, entry_id e).

Definition pruned_ids (l : list GrantEntry) : list SessionGrantId :=
  entry_id <$> drop (Z.to_nat MAX_TERMINAL_GRANT_RECORDS)
    (sort_by entry_prune_key prune_compare (List.filter (fun e => negb (entry_active e)) l)).

Definition prune_grants (l : list GrantEntry) : list GrantEntry :=
  List.filter (fun e => entry_active e || negb (existsb (fun id => bool_decide (id = entry_id e)) (pruned_ids l))) l.

(** The next generation with its audit event, and the histories within their bounds. *)
Definition commit (generation : Z) (kind : AuthorizationAuditKind) (now : Z) (s : AuthState) : AuthState :=
  let audit := s_audit s ++ [mk_AuditEvent generation kind now] in
  with_audit generation (drop (length audit - Z.to_nat MAX_AUTHORIZATION_AUDIT_RECORDS) audit)
    (with_grants (s_grant_ids s) (prune_grants (s_grants s)) s).

(** ** Operations *)

Abbreviation step_result := (store_result (bool * AuthState)).

Definition spec_mutate (now : Z) (kind : AuthorizationAuditKind) (operation : AuthState → Z → step_result) (s : AuthState)
    : store_result (AuthorizationMutation * AuthState) :=
  let proposed := proposed_generation (s_generation s) in
  changed ← operation s proposed;
  let expired := existsb (entry_expired now) (s_grants changed.2) in
  if negb (changed.1 || expired) then Ok (mk_AuthorizationMutation (s_generation s) Unchanged, changed.2)
  else
    fail_if (proposed =? s_generation s) AuthCapacity;;
    Ok (mk_AuthorizationMutation proposed (if changed.1 then Applied else Unchanged),
        commit proposed (if changed.1 then kind else AuditGrantsExpired) now (expire now proposed changed.2)).

(** Expiry on its own. *)
Definition spec_expire_for_read (now : Z) (s : AuthState) : store_result (Z * AuthState) :=
  mutated ← spec_mutate now AuditGrantsExpired (fun s _ => Ok (false, s)) s;
  Ok (mutation_generation mutated.1, mutated.2).

Definition find_issuer_record (s : AuthState) (id : IssuerKeyId) (version : IssuerKeyVersion)
    : option AuthorizationIssuerRecord :=
  find (fun i => bool_decide (issuer_key_of i = (id, version))) (s_issuers s).

Definition suspended (s : AuthState) (p : ServiceProfileId) : bool := existsb (fun q => bool_decide (q = p)) (s_suspended s).

Definition spec_terminalize (id : SessionGrantId) (state : GrantState) (now : Z) (s : AuthState) (generation : Z)
    : step_result :=
  e ← ok_or (find (fun e => bool_decide (entry_id e = id)) (s_grants s)) AuthNotFound;
  if entry_live now e
  then Ok (true, end_where (fun e => bool_decide (entry_id e = id) && entry_active e) state generation (end_time now) s)
  else Ok (false, s).

Definition spec_suspend (profile : ServiceProfileId) (now : Z) (s : AuthState) (generation : Z) : step_result :=
  if suspended s profile then Ok (false, s)
  else
    fail_if (MAX_SUSPENDED_PROFILES <=? len (s_suspended s)) AuthCapacity;;
    Ok (true, end_where (fun e => entry_live now e && bool_decide (grant_profile (entry_grant e) = profile))
                StateProfileSuspended generation (end_time now)
                (with_suspended (sort_insert raw bytes_compare profile (s_suspended s)) s)).

Definition spec_resume (profile : ServiceProfileId) (s : AuthState) (_generation : Z) : step_result :=
  Ok (suspended s profile, with_suspended (List.filter (fun p => negb (bool_decide (p = profile))) (s_suspended s)) s).

(** The grants of one issuer key version. *)
Definition issued_by (id : IssuerKeyId) (version : IssuerKeyVersion) (e : GrantEntry) : bool :=
  bool_decide (issuer_key (entry_grant e) = (id, version)).

Definition end_issuer (id : IssuerKeyId) (version : IssuerKeyVersion) (now generation : Z) (s : AuthState) : AuthState :=
  end_where (fun e => entry_live now e && issued_by id version e) StateIssuerDisabled generation (end_time now) s.

Definition set_availability (availability : IssuerAvailability) (disposition : ExistingGrantDisposition)
    (i : AuthorizationIssuerRecord) : AuthorizationIssuerRecord :=
  mk_AuthorizationIssuerRecord (issuer_key_id i) (issuer_key_version i) (issuer_registration i) availability disposition.

Definition spec_set_issuer (id : IssuerKeyId) (version : IssuerKeyVersion) (availability : IssuerAvailability)
    (disposition : ExistingGrantDisposition) (now : Z) (s : AuthState) (generation : Z) : step_result :=
  issuer ← ok_or (find_issuer_record s id version) AuthNotFound;
  if bool_decide (issuer_availability issuer = availability) && bool_decide (issuer_disposition issuer = disposition)
  then Ok (false, s)
  else
    let s := with_issuers (s_issuer_ids s)
               ((fun i => if bool_decide (issuer_key_of i = (id, version)) then set_availability availability disposition i
                          else i) <$> s_issuers s) s in
    Ok (true, if bool_decide (availability = Disabled) && bool_decide (disposition = RevokeExisting)
              then end_issuer id version now generation s else s).

Definition spec_replace_policy (policy : AuthorizationPolicy) (now : Z) (s : AuthState) (generation : Z) : step_result :=
  fail_if (raw (policy_version policy) <=? raw (policy_version (s_policy s))) AuthConflict;;
  to_sql (raw (policy_version policy));;
  Ok (true, end_where (fun e => entry_live now e && negb (policy_accepts policy (grant_evidence (entry_grant e))))
              StatePolicyInvalid generation (end_time now) (with_policy policy s)).

Definition new_issuer (i : InstalledIssuerRegistration) : AuthorizationIssuerRecord :=
  mk_AuthorizationIssuerRecord (installed_key_id i) (installed_key_version i) (installed_registration i)
    Enabled RetainUntilExpiry.

Definition add_issuer (i : InstalledIssuerRegistration) (s : AuthState) : AuthState :=
  with_issuers (sort_insert key_cell key_compare (issuer_key_of (new_issuer i)) (s_issuer_ids s))
    (sort_insert (fun r => key_cell (issuer_key_of r)) key_compare (new_issuer i) (s_issuers s)) s.

(** A new version of a key is above every version the key ever had. *)
Definition spec_register_issuer (i : InstalledIssuerRegistration) (s : AuthState) (_generation : Z) : step_result :=
  fail_if (existsb (fun k => bool_decide (k = issuer_key_of (new_issuer i))) (s_issuer_ids s)) AuthConflict;;
  fail_if (MAX_ADAPTER_REGISTRATIONS <=? len (s_issuer_ids s)) AuthCapacity;;
  fail_if (existsb (fun k => bool_decide (k.1 = installed_key_id i) && (raw (installed_key_version i) <=? raw k.2))
             (s_issuer_ids s)) AuthConflict;;
  Ok (true, add_issuer i s).

Definition spec_remove_issuer (id : IssuerKeyId) (version : IssuerKeyVersion) (disposition : ExistingGrantDisposition)
    (now : Z) (s : AuthState) (_generation : Z) : step_result :=
  match find_issuer_record s id version with
  | None =>
      if existsb (fun k => bool_decide (k = (id, version))) (s_issuer_ids s) then Ok (false, s) else Err AuthNotFound
  | Some _ =>
      fail_if (existsb (fun e => entry_live now e && issued_by id version e) (s_grants s)
               && bool_decide (disposition = RetainUntilExpiry)) AuthConflict;;
      Ok (true, with_issuers (s_issuer_ids s)
                  (List.filter (fun i => negb (bool_decide (issuer_key_of i = (id, version)))) (s_issuers s))
                  (with_grants (s_grant_ids s) (List.filter (fun e => negb (issued_by id version e)) (s_grants s)) s))
  end.

(** ** Operations on the credential *)

Definition spec_reserve_digest (digest : bytes) (s : AuthState) : store_result (list bytes) :=
  fail_if (existsb (fun d => bool_decide (d = digest)) (s_credential_ids s)) AuthConflict;;
  fail_if (MAX_USER_PRESENCE_CREDENTIAL_IDENTIFIERS <=? len (s_credential_ids s)) AuthCapacity;;
  Ok (sort_insert (fun x => x) bytes_compare digest (s_credential_ids s)).

Definition spec_register_credential (c : UserPresenceCredentialRecord) (s : AuthState) (_generation : Z) : step_result :=
  match s_credential s with
  | Some existing => if bool_decide (existing = c) then Ok (false, s) else Err AuthConflict
  | None => ids ← spec_reserve_digest (credential_digest c) s; Ok (true, with_credential ids (Some c) s)
  end.

Definition spec_replace_credential (expected : bytes) (c : UserPresenceCredentialRecord) (s : AuthState) (_generation : Z)
    : step_result :=
  existing ← ok_or (s_credential s) AuthNotFound;
  fail_if (bool_decide (credential_digest existing ≠ expected)) AuthConflict;;
  if bool_decide (existing = c) then Ok (false, s)
  else
    fail_if (bool_decide (credential_digest c = expected)) AuthConflict;;
    ids ← spec_reserve_digest (credential_digest c) s;
    Ok (true, with_credential ids (Some c) s).

Definition spec_advance_credential (expected updated : UserPresenceCredentialRecord) (s : AuthState) (_generation : Z)
    : step_result :=
  existing ← ok_or (s_credential s) AuthNotFound;
  fail_if (bool_decide (existing ≠ expected)
           || bool_decide (credential_digest expected ≠ credential_digest updated)
           || bool_decide (credential_provider_id expected ≠ credential_provider_id updated)
           || bool_decide (credential_credential_id expected ≠ credential_credential_id updated)) AuthConflict;;
  if bool_decide (existing = updated) then Ok (false, s)
  else Ok (true, with_credential (s_credential_ids s) (Some updated) s).

Definition spec_remove_credential (expected : bytes) (s : AuthState) (_generation : Z) : step_result :=
  match s_credential s with
  | None => if existsb (fun d => bool_decide (d = expected)) (s_credential_ids s) then Ok (false, s) else Err AuthNotFound
  | Some existing =>
      fail_if (bool_decide (credential_digest existing ≠ expected)) AuthConflict;;
      Ok (true, with_credential (s_credential_ids s) None s)
  end.

(** ** Issuing *)

(** The authority a new grant needs. *)
Definition spec_authority (candidate : SessionGrant) (s : AuthState) : store_result unit :=
  fail_if (suspended s (grant_profile candidate)) AuthProfileSuspended;;
  issuer ← ok_or (find_issuer_record s (grant_issuer_key_id candidate) (grant_issuer_key_version candidate)) AuthNotFound;
  fail_if (bool_decide (issuer_availability issuer = Disabled)) AuthIssuerDisabled;;
  fail_if (negb (harness_allowed (issuer_registration issuer) (grant_harness candidate))
           || negb (permits (registration_profiles (issuer_registration issuer)) (grant_profile candidate))) AuthConflict;;
  fail_if (bool_decide (grant_policy_version candidate ≠ policy_version (s_policy s))) AuthConflict;;
  fail_if (negb (policy_accepts (s_policy s) (grant_evidence candidate))) AuthRequiredEvidenceUnavailable.

(** The quotas, counted on the grants that are live. *)
Definition live_grants (now : Z) (s : AuthState) : list SessionGrant :=
  entry_grant <$> List.filter (entry_live now) (s_grants s).

Definition issued_for (id : IssuerKeyId) (version : IssuerKeyVersion) (key : GrantIssuanceKey) (e : GrantEntry) : bool :=
  issued_by id version e && bool_decide (entry_key e = key).

Definition add_grant (key : GrantIssuanceKey) (candidate : SessionGrant) (s : AuthState) : AuthState :=
  with_grants (sort_insert (fun x => x) array_compare (grant_id candidate) (s_grant_ids s))
    (sort_insert entry_id array_compare (mk_GrantEntry key candidate None) (s_grants s)) s.

Definition spec_first_issuance (key : GrantIssuanceKey) (candidate : SessionGrant) (now : Z) (s : AuthState)
    (_generation : Z) : step_result :=
  fail_if (existsb (fun i => bool_decide (i = grant_id candidate)) (s_grant_ids s)) AuthConflict;;
  fail_if (MAX_GRANT_IDENTIFIERS <=? len (s_grant_ids s)) AuthCapacity;;
  spec_authority candidate s;;
  to_sql now;;
  fail_if (grants_full (live_grants now s) candidate) AuthCapacity;;
  to_sql (grant_expires_at candidate);;
  Ok (true, add_grant key candidate s).

Definition spec_issue (key : GrantIssuanceKey) (candidate : SessionGrant) (now : Z) (s : AuthState)
    : store_result (GrantIssuanceResult * AuthState) :=
  match find (issued_for (grant_issuer_key_id candidate) (grant_issuer_key_version candidate) key) (s_grants s) with
  | Some e =>
      fail_if (negb (same_issuance_request (entry_grant e) candidate)) AuthConflict;;
      to_sql now;;
      read ← spec_expire_for_read now s;
      Ok (mk_GrantIssuanceResult (mk_AuthorizationMutation read.1 Unchanged) (entry_grant e), read.2)
  | None =>
      mutated ← spec_mutate now AuditGrantIssued (spec_first_issuance key candidate now) s;
      Ok (mk_GrantIssuanceResult mutated.1 candidate, mutated.2)
  end.

(** ** Reads *)

Definition spec_snapshot (now : Z) (s : AuthState) : AuthorizationSnapshot :=
  mk_AuthorizationSnapshot (s_generation s) (s_policy s) (s_issuers s) (s_suspended s) (live_grants now s) (s_credential s).

Definition spec_active_grant (id : IssuerKeyId) (version : IssuerKeyVersion) (key : GrantIssuanceKey) (now : Z)
    (s : AuthState) : option SessionGrant :=
  match find (issued_for id version key) (s_grants s) with
  | Some e => if entry_live now e then Some (entry_grant e) else None
  | None => None
  end.

Definition spec_status (id : IssuerKeyId) (profile : ServiceProfileId) (now : Z) (s : AuthState) : AuthorizationStoreStatus :=
  let live := live_grants now s in
  mk_AuthorizationStoreStatus (s_generation s) (policy_version (s_policy s)) (len (s_issuers s)) (len (s_issuer_ids s))
    (count (fun i => bool_decide (issuer_availability i = Disabled)) (s_issuers s)) (len (s_suspended s)) (len live)
    (count (fun e => negb (entry_active e)) (s_grants s)) (len (s_grant_ids s)) (len (s_audit s))
    (len (opt_rows (s_credential s))) (len (s_credential_ids s))
    (mk_AuthorizationCapacity (len live) MAX_SESSION_GRANTS
       (count (fun g => bool_decide (grant_issuer_key_id g = id)) live) MAX_GRANTS_PER_ISSUER
       (count (fun g => bool_decide (grant_profile g = profile)) live) MAX_GRANTS_PER_PROFILE).

(** ** Calls *)

Inductive AuthorizationCall :=
| CallIssue (key : GrantIssuanceKey) (candidate : SessionGrant) (now : Z)
| CallRetire (id : SessionGrantId) (now : Z)
| CallRevoke (id : SessionGrantId) (now : Z)
| CallSuspend (profile : ServiceProfileId) (now : Z)
| CallResume (profile : ServiceProfileId) (now : Z)
| CallSetIssuer (id : IssuerKeyId) (version : IssuerKeyVersion) (availability : IssuerAvailability)
    (disposition : ExistingGrantDisposition) (now : Z)
| CallReplacePolicy (policy : AuthorizationPolicy) (now : Z)
| CallRegisterIssuer (issuer : InstalledIssuerRegistration) (now : Z)
| CallRemoveIssuer (id : IssuerKeyId) (version : IssuerKeyVersion) (disposition : ExistingGrantDisposition) (now : Z)
| CallRegisterCredential (c : UserPresenceCredentialRecord) (now : Z)
| CallReplaceCredential (expected : bytes) (c : UserPresenceCredentialRecord) (now : Z)
| CallUpdateCredential (expected updated : UserPresenceCredentialRecord) (now : Z)
| CallUpdateCredentialForGrant (expected updated : UserPresenceCredentialRecord) (grant : SessionGrant) (now : Z)
| CallRemoveCredential (expected : bytes) (now : Z)
| CallSnapshot (now : Z) (high_water : option Z)
| CallActiveGrant (id : IssuerKeyId) (version : IssuerKeyVersion) (key : GrantIssuanceKey) (now : Z)
| CallStatus (now : Z) (high_water : option Z) (id : IssuerKeyId) (profile : ServiceProfileId)
| CallAuditEvents (limit : Z) (high_water : option Z).

Inductive AuthorizationAnswer :=
| AnswerMutation (m : AuthorizationMutation)
| AnswerIssuance (r : GrantIssuanceResult)
| AnswerSnapshot (snapshot : AuthorizationSnapshot)
| AnswerGrant (g : option SessionGrant)
| AnswerStatus (status : AuthorizationStoreStatus)
| AnswerAudit (events : list AuthorizationAuditEvent).

(** The step of a mutation, with its audit kind and its clock. *)
Definition mutation_step (c : AuthorizationCall)
    : option (AuthorizationAuditKind * Z * (AuthState → Z → step_result)) :=
  match c with
  | CallRetire id now => Some (AuditGrantRetired, now, spec_terminalize id StateRetired now)
  | CallRevoke id now => Some (AuditGrantRevoked, now, spec_terminalize id StateRevoked now)
  | CallSuspend profile now => Some (AuditProfileSuspended, now, spec_suspend profile now)
  | CallResume profile now => Some (AuditProfileResumed, now, spec_resume profile)
  | CallSetIssuer id version availability disposition now =>
      Some (AuditIssuerStateChanged, now, spec_set_issuer id version availability disposition now)
  | CallReplacePolicy policy now => Some (AuditPolicyReplaced, now, spec_replace_policy policy now)
  | CallRegisterIssuer issuer now => Some (AuditIssuerRegistered, now, spec_register_issuer issuer)
  | CallRemoveIssuer id version disposition now =>
      Some (AuditIssuerRemoved, now, spec_remove_issuer id version disposition now)
  | CallRegisterCredential c now => Some (AuditCredentialRegistered, now, spec_register_credential c)
  | CallReplaceCredential expected c now => Some (AuditCredentialReplaced, now, spec_replace_credential expected c)
  | CallUpdateCredential expected updated now =>
      Some (AuditCredentialUpdated, now, spec_advance_credential expected updated)
  | CallUpdateCredentialForGrant expected updated grant now =>
      Some (AuditCredentialUpdated, now, fun s generation =>
              spec_authority grant s;; spec_advance_credential expected updated s generation)
  | CallRemoveCredential expected now => Some (AuditCredentialRemoved, now, spec_remove_credential expected)
  | _ => None
  end.

(** A write records the generation it finds even when it is refused; a read only when it succeeds. *)
Definition spec_write {A} (observed : Z) (s : AuthState) (m : store_result (A * AuthState))
    : store_result A * (AuthState * Z) :=
  if s_generation s <? observed then (Err AuthGenerationRollback, (s, observed))
  else match m with
       | Err e => (Err e, (s, s_generation s))
       | Ok (a, s') => (Ok a, (s', s_generation s'))
       end.

Definition spec_read {A} (observed required : Z) (s : AuthState) (m : store_result (A * AuthState))
    : store_result A * (AuthState * Z) :=
  if s_generation s <? required then (Err AuthGenerationRollback, (s, observed))
  else match m with
       | Err e => (Err e, (s, observed))
       | Ok (a, s') => (Ok a, (s', s_generation s'))
       end.

Definition answer {A} (f : A → AuthorizationAnswer) (r : store_result A * (AuthState * Z))
    : store_result AuthorizationAnswer * (AuthState * Z) := (f <$> r.1, r.2).

Definition timed {A} (now observed : Z) (s : AuthState) (r : store_result A * (AuthState * Z))
    : store_result A * (AuthState * Z) :=
  if I64_MAX <? now then (Err AuthInvalidInput, (s, observed)) else r.

Definition spec_query {A} (observed required now : Z) (query : AuthState → A) (s : AuthState)
    : store_result A * (AuthState * Z) :=
  timed now observed s (spec_read observed required s
    (read ← spec_expire_for_read now s; Ok (query read.2, read.2))).

(** One call of a handle that has observed a generation. *)
Definition spec_call (observed : Z) (c : AuthorizationCall) (s : AuthState)
    : store_result AuthorizationAnswer * (AuthState * Z) :=
  match c with
  | CallIssue key candidate now =>
      if (now <? grant_issued_at candidate) || (grant_expires_at candidate <=? now)
      then (Err AuthInvalidInput, (s, observed))
      else answer AnswerIssuance (spec_write observed s (spec_issue key candidate now s))
  | CallSnapshot now high_water =>
      answer AnswerSnapshot (spec_query observed (required_high_water high_water observed) now (spec_snapshot now) s)
  | CallActiveGrant id version key now =>
      answer AnswerGrant (spec_query observed observed now (spec_active_grant id version key now) s)
  | CallStatus now high_water id profile =>
      answer AnswerStatus (spec_query observed (required_high_water high_water observed) now (spec_status id profile now) s)
  | CallAuditEvents limit high_water =>
      if (limit =? 0) || (MAX_AUTHORIZATION_AUDIT_RECORDS <? limit) then (Err AuthInvalidInput, (s, observed))
      else answer AnswerAudit (spec_read observed (required_high_water high_water observed) s
             (Ok (take (Z.to_nat limit) (reverse (s_audit s)), s)))
  | _ =>
      match mutation_step c with
      | None => (Err AuthInvalidInput, (s, observed))
      | Some (kind, now, operation) =>
          let refused := match c with
                         | CallUpdateCredentialForGrant _ _ grant _ => negb (presence_evidence (grant_evidence grant))
                         | _ => false
                         end in
          if refused then (Err AuthInvalidInput, (s, observed))
          else answer AnswerMutation (timed now observed s (spec_write observed s (spec_mutate now kind operation s)))
      end
  end.

(** The same call on the tables. *)
Section tables.
Context `{Sha256} `{WebAuthnDocuments}.

Definition answer_of {A} (f : A → AuthorizationAnswer) (r : outcome A) : outcome AuthorizationAnswer := (f <$> r.1, r.2).

Definition run_call (fingerprint : bytes) (observed : Z) (c : AuthorizationCall) (db : AuthTables)
    : outcome AuthorizationAnswer :=
  match c with
  | CallIssue key candidate now =>
      answer_of AnswerIssuance (issue_grant_for_request fingerprint observed db key candidate now)
  | CallRetire id now => answer_of AnswerMutation (retire_grant fingerprint observed db id now)
  | CallRevoke id now => answer_of AnswerMutation (revoke_grant fingerprint observed db id now)
  | CallSuspend profile now => answer_of AnswerMutation (suspend_profile fingerprint observed db profile now)
  | CallResume profile now => answer_of AnswerMutation (resume_profile fingerprint observed db profile now)
  | CallSetIssuer id version availability disposition now =>
      answer_of AnswerMutation (set_issuer_state fingerprint observed db id version availability disposition now)
  | CallReplacePolicy policy now => answer_of AnswerMutation (replace_policy fingerprint observed db policy now)
  | CallRegisterIssuer issuer now => answer_of AnswerMutation (register_issuer fingerprint observed db issuer now)
  | CallRemoveIssuer id version disposition now =>
      answer_of AnswerMutation (remove_issuer fingerprint observed db id version disposition now)
  | CallRegisterCredential c now => answer_of AnswerMutation (register_user_presence_credential fingerprint observed db c now)
  | CallReplaceCredential expected c now =>
      answer_of AnswerMutation (replace_user_presence_credential fingerprint observed db expected c now)
  | CallUpdateCredential expected updated now =>
      answer_of AnswerMutation (update_user_presence_credential fingerprint observed db expected updated now)
  | CallUpdateCredentialForGrant expected updated grant now =>
      answer_of AnswerMutation
        (update_user_presence_credential_for_grant fingerprint observed db expected updated grant now)
  | CallRemoveCredential expected now =>
      answer_of AnswerMutation (remove_user_presence_credential fingerprint observed db expected now)
  | CallSnapshot now high_water => answer_of AnswerSnapshot (load_snapshot fingerprint observed db now high_water)
  | CallActiveGrant id version key now =>
      answer_of AnswerGrant (active_grant_for_request fingerprint observed db id version key now)
  | CallStatus now high_water id profile =>
      answer_of AnswerStatus (load_status fingerprint observed db now high_water id profile)
  | CallAuditEvents limit high_water => answer_of AnswerAudit (load_audit_events fingerprint observed db limit high_water)
  end.

(** ** The invariant *)

(** An installation fingerprint is a digest. *)
Definition fingerprint_ok (fingerprint : bytes) : Prop := length fingerprint = 32%nat.

Definition credential_valid (c : UserPresenceCredentialRecord) : Prop := from_document (credential_document c) = Ok c.

(** The authority a stored grant keeps: its issuer is registered for it and, while it is
    active, its profile is not suspended, the policy accepts its evidence and its issuer does
    not revoke its grants. *)
Definition scope_ok (s : AuthState) (g : SessionGrant) (i : AuthorizationIssuerRecord) : Prop :=
  find_issuer_record s (grant_issuer_key_id g) (grant_issuer_key_version g) = Some i
  ∧ harness_allowed (issuer_registration i) (grant_harness g) = true
  ∧ permits (registration_profiles (issuer_registration i)) (grant_profile g) = true
  ∧ raw (grant_policy_version g) <= raw (policy_version (s_policy s)).

Definition authority_ok (s : AuthState) (g : SessionGrant) (i : AuthorizationIssuerRecord) : Prop :=
  suspended s (grant_profile g) = false
  ∧ policy_accepts (s_policy s) (grant_evidence g) = true
  ∧ ¬ (issuer_availability i = Disabled ∧ issuer_disposition i = RevokeExisting).

Definition end_ok (bound : Z) (g : SessionGrant) (end_ : GrantState * Z * Z) : Prop :=
  end_.1.1 ≠ StateActive ∧ 1 <= end_.1.2 <= bound ∧ grant_issued_at g <= end_.2 <= I64_MAX.

(** [alive] tells which grants are held to their authority and counted in the quotas. *)
Definition entry_ok (alive : GrantEntry → bool) (bound : Z) (s : AuthState) (e : GrantEntry) : Prop :=
  entry_id e ∈ s_grant_ids s
  ∧ grant_expires_at (entry_grant e) <= I64_MAX
  ∧ (∃ i, scope_ok s (entry_grant e) i ∧ (alive e = true → authority_ok s (entry_grant e) i))
  ∧ (∀ end_, entry_end e = Some end_ → end_ok bound (entry_grant e) end_).

Definition quotas_ok (alive : GrantEntry → bool) (l : list GrantEntry) : Prop :=
  count alive l <= MAX_SESSION_GRANTS
  ∧ (∀ id, count (fun e => alive e && bool_decide (grant_issuer_key_id (entry_grant e) = id)) l <= MAX_GRANTS_PER_ISSUER)
  ∧ (∀ p, count (fun e => alive e && bool_decide (grant_profile (entry_grant e) = p)) l <= MAX_GRANTS_PER_PROFILE).

Definition entry_request (e : GrantEntry) : IssuerKeyId * IssuerKeyVersion * GrantIssuanceKey :=
  (issuer_key (entry_grant e), entry_key e).

Record store_inv (alive : GrantEntry → bool) (bound : Z) (s : AuthState) : Prop := {
  inv_policy : raw (policy_version (s_policy s)) <= I64_MAX;
  inv_issuer_ids : NoDup (s_issuer_ids s) ∧ len (s_issuer_ids s) <= MAX_ADAPTER_REGISTRATIONS;
  inv_issuers : NoDup (issuer_key_of <$> s_issuers s) ∧ (∀ i, i ∈ s_issuers s → issuer_key_of i ∈ s_issuer_ids s);
  inv_suspended : NoDup (s_suspended s) ∧ len (s_suspended s) <= MAX_SUSPENDED_PROFILES;
  inv_grant_ids : NoDup (s_grant_ids s) ∧ len (s_grant_ids s) <= MAX_GRANT_IDENTIFIERS;
  inv_ids : NoDup (entry_id <$> s_grants s);
  inv_requests : NoDup (entry_request <$> s_grants s);
  inv_entries : ∀ e, e ∈ s_grants s → entry_ok alive bound s e;
  inv_quotas : quotas_ok alive (s_grants s);
  inv_credential_ids : NoDup (s_credential_ids s) ∧ len (s_credential_ids s) <= MAX_USER_PRESENCE_CREDENTIAL_IDENTIFIERS
                       ∧ (∀ d, d ∈ s_credential_ids s → length d = 32%nat);
  inv_credential : ∀ c, s_credential s = Some c → credential_valid c ∧ credential_digest c ∈ s_credential_ids s }.

(** The audit log has the last generations in order, back to the bootstrap at most. *)
Definition audit_ok (generation : Z) (l : list AuthorizationAuditEvent) : Prop :=
  let n := Z.min generation MAX_AUTHORIZATION_AUDIT_RECORDS in
  audit_generation <$> l = seqZ (generation - n + 1) n
  ∧ (∀ e, e ∈ l → 0 <= audit_occurred_at e <= I64_MAX)
  ∧ (generation <= MAX_AUTHORIZATION_AUDIT_RECORDS → audit_kind <$> head l = Some AuditBootstrap).

(** A committed state. *)
Record state_ok (s : AuthState) : Prop := {
  ok_generation : 1 <= s_generation s <= I64_MAX;
  ok_inv : store_inv entry_active (s_generation s) s;
  ok_history : count (fun e => negb (entry_active e)) (s_grants s) <= MAX_TERMINAL_GRANT_RECORDS;
  ok_audit : audit_ok (s_generation s) (s_audit s) }.

(** The arguments of a call: clocks are unsigned and credential records come from documents. *)
Definition call_ok (c : AuthorizationCall) : Prop :=
  match c with
  | CallIssue _ _ now | CallRetire _ now | CallRevoke _ now | CallSuspend _ now | CallResume _ now
  | CallSetIssuer _ _ _ _ now | CallReplacePolicy _ now | CallRegisterIssuer _ now | CallRemoveIssuer _ _ _ now
  | CallRemoveCredential _ now | CallSnapshot now _ | CallActiveGrant _ _ _ now | CallStatus now _ _ _ => 0 <= now
  | CallRegisterCredential c now | CallReplaceCredential _ c now | CallUpdateCredential _ c now
  | CallUpdateCredentialForGrant _ c _ now => 0 <= now ∧ credential_valid c
  | CallAuditEvents limit _ => 0 <= limit
  end.

End tables.
