(* ===== verification/AuthorizationCodec.v ===== *)
(** * Reading the encoded authorization store

    Every loader of [AuthorizationStore] on the encoding of a state returns the part of the
    state it is named after, and the encoding of a committed state passes [validate_store]. *)

From S2P Require Import Prelude Identifiers LocalGrants AuthorizationStore AuthorizationOps AuthorizationSpec.
Open Scope Z_scope.

(** ** Lists under an encoding *)

Section encoded.
Context {A B : Type} (f : A → B).

Lemma existsb_encoded (p : B → bool) (q : A → bool) (l : list A) :
  (∀ x, x ∈ l → p (f x) = q x) → existsb p (f <$> l) = existsb q l.
Proof. induction l as [|x l IH]; intros H; cbn; [done|]. rewrite H by left. by rewrite IH by set_solver. Qed.

Lemma find_encoded (p : B → bool) (q : A → bool) (l : list A) :
  (∀ x, x ∈ l → p (f x) = q x) → find p (f <$> l) = f <$> find q l.
Proof.
  induction l as [|x l IH]; intros H; cbn; [done|]. rewrite H by left. rewrite IH by set_solver. by destruct (q x).
Qed.

Lemma filter_encoded (p : B → bool) (q : A → bool) (l : list A) :
  (∀ x, x ∈ l → p (f x) = q x) → List.filter p (f <$> l) = f <$> List.filter q l.
Proof.
  induction l as [|x l IH]; intros H; cbn; [done|]. rewrite H by left. rewrite IH by set_solver. by destruct (q x).
Qed.

Lemma len_encoded (l : list A) : len (f <$> l) = len l.
Proof. unfold len. by rewrite length_fmap. Qed.

Lemma count_encoded (p : B → bool) (q : A → bool) (l : list A) :
  (∀ x, x ∈ l → p (f x) = q x) → count p (f <$> l) = count q l.
Proof. intros H. unfold count. rewrite (filter_encoded p q) by done. apply len_encoded. Qed.

Lemma sort_insert_encoded {K} (key : B → K) (key' : A → K) (cmp : K → K → comparison) x l :
  (∀ x, key (f x) = key' x) → sort_insert key cmp (f x) (f <$> l) = f <$> sort_insert key' cmp x l.
Proof.
  intros H. induction l as [|y l IH]; cbn; [done|]. rewrite !H, IH. by destruct (cmp _ _).
Qed.

Lemma traverse_encoded {E} (d : B → result E A) (l : list A) :
  (∀ x, x ∈ l → d (f x) = Ok x) → traverse d (f <$> l) = Ok l.
Proof.
  induction l as [|x l IH]; intros H; cbn; [done|]. rewrite H by left. cbn [mbind result_bind].
  rewrite IH by set_solver. done.
Qed.

End encoded.

Lemma max_of_const {A} (g : A → Z) (l : list A) n :
  0 <= n → (∀ x, x ∈ l → g x = n) → 0 < len l → max_of g l = n.
Proof.
  intros Hn. unfold max_of. induction l as [|x l IH]; intros H Hl; [unfold len in Hl; cbn in Hl; lia|].
  cbn [foldr]. rewrite H by left. destruct l as [|y l]; [cbn; lia|].
  rewrite IH; [lia|set_solver|unfold len; cbn; lia].
Qed.

Lemma max_of_bound {A} (g : A → Z) (l : list A) n : 0 <= n → (∀ x, x ∈ l → g x <= n) → max_of g l <= n.
Proof.
  intros Hn. unfold max_of. induction l as [|x l IH]; intros H; cbn [foldr]; [done|].
  pose proof (H x ltac:(left)). specialize (IH ltac:(set_solver)). lia.
Qed.

Lemma max_of_lower {A} (g : A → Z) (l : list A) n : (∀ x, x ∈ l → n <= g x) → 0 < len l → n <= max_of g l.
Proof.
  unfold max_of. destruct l as [|x l]; intros H Hl; [unfold len in Hl; cbn in Hl; lia|].
  cbn [foldr]. pose proof (H x ltac:(left)). lia.
Qed.

Lemma find_agree {A} (p q : A → bool) (l : list A) : (∀ x, p x = q x) → find p l = find q l.
Proof. intros Hpq. induction l as [|x l IH]; [done|]. cbn. by rewrite Hpq, IH. Qed.

Lemma guarded_false (n : Z) (b : bool) : (0 < n → b = false) → (0 <? n) && b = false.
Proof. intros Hb. destruct (0 <? n) eqn:E; [|done]. apply Hb. lia. Qed.

Lemma count_all {A} (p : A → bool) (l : list A) : (∀ x, x ∈ l → p x = false) → count p l = 0.
Proof.
  unfold count. intros H. induction l as [|x l IH]; [done|]. cbn. rewrite H by left. apply IH. set_solver.
Qed.

Lemma count_split {A} (p : A → bool) (l : list A) : count p l + count (fun x => negb (p x)) l = len l.
Proof. unfold count, len. induction l as [|x l IH]; cbn; [done|]. destruct (p x); cbn; lia. Qed.

Lemma take_all_len {A} (n : nat) (l : list A) : len l <= Z.of_nat n → take n l = l.
Proof. intros H. apply take_ge. unfold len in H. lia. Qed.

Lemma existsb_false {A} (p : A → bool) (l : list A) : (∀ x, x ∈ l → p x = false) → existsb p l = false.
Proof.
  intros H. induction l as [|x l IH]; [done|]. cbn. rewrite H by left. apply IH. set_solver.
Qed.

Lemma existsb_true {A} (p : A → bool) (l : list A) x : x ∈ l → p x = true → existsb p l = true.
Proof. intros Hx Hp. apply existsb_exists. exists x. by rewrite <- list_elem_of_In. Qed.

Lemma existsb_is {A} `{EqDecision A} (x : A) (l : list A) : existsb (fun y => bool_decide (y = x)) l = true ↔ x ∈ l.
Proof.
  rewrite existsb_exists. split.
  - intros (y & Hy & Heq). apply bool_decide_eq_true in Heq as ->. by apply list_elem_of_In.
  - intros Hx. exists x. rewrite <- list_elem_of_In. split; [done|by apply bool_decide_eq_true].
Qed.

(** ** Cells *)

Lemma decode_version_raw (v : IssuerKeyVersion) : decode_version (raw v) = Ok v.
Proof.
  unfold decode_version. pass_guard by (destruct v as [v H]; cbn [raw]; unfold issuer_key_version_ok in H; bool_prop in H; lia).
  unfold IssuerKeyVersion_new. by rewrite check_raw.
Qed.

Lemma decode_harness_wire h : decode_harness (wire_value h) = Ok h.
Proof. by destruct h. Qed.

Lemma parse_profile (p : ServiceProfileId) : invalid (ServiceProfileId_parse (raw p)) = Ok p.
Proof. unfold ServiceProfileId_parse. by rewrite check_raw. Qed.

Lemma decode_profiles_cells a : decode_profiles (profile_kind_code a) (profile_kind_id a) = Ok a.
Proof. destruct a; cbn; by rewrite ?parse_profile. Qed.

Lemma decode_evidence_raw (e : AuthorizationEvidenceSet) : decode_evidence (raw e) = Ok e.
Proof.
  unfold decode_evidence. pass_guard by (pose proof (evidence_range e); lia).
  unfold AuthorizationEvidenceSet_from_bits. by rewrite check_raw.
Qed.

Lemma positive_sql z : 1 <= z → u64_from_positive_sql z = Ok z.
Proof.
  intros H. unfold u64_from_positive_sql, u64_from_sql. destruct (0 <=? z) eqn:E; [|lia]. cbn.
  by rewrite fail_if_pass by lia.
Qed.

Lemma unsigned_sql z : 0 <= z → u64_from_sql z = Ok z.
Proof. intros H. unfold u64_from_sql. destruct (0 <=? z) eqn:E; [done|lia]. Qed.

Lemma to_sql_pass z : z <= I64_MAX → to_sql z = Ok z.
Proof. intros H. unfold to_sql. destruct (z <=? I64_MAX) eqn:E; [done|lia]. Qed.

Lemma to_sql_fail z : I64_MAX < z → to_sql z = Err AuthInvalidInput.
Proof. intros H. unfold to_sql. destruct (z <=? I64_MAX) eqn:E; [lia|done]. Qed.

Lemma policy_version_range (v : AuthorizationPolicyVersion) : 1 <= raw v.
Proof. destruct v as [v H]. cbn [raw]. unfold policy_version_ok in H. lia. Qed.

Lemma decode_issuer_row i : decode_issuer (issuer_row i) = Ok i.
Proof.
  destruct i as [id version [pk h profiles] availability disposition]. unfold decode_issuer, issuer_row.
  cbn [ir_key_version ir_harness ir_profile_kind ir_profile_id ir_enabled ir_disposition ir_key_id ir_public_key
       issuer_key_version issuer_registration issuer_availability issuer_disposition issuer_key_id
       registration_public_key registration_harness registration_profiles].
  rewrite decode_version_raw. cbn [mbind result_bind]. rewrite decode_harness_wire. cbn [mbind result_bind].
  rewrite decode_profiles_cells. cbn [mbind result_bind]. by destruct availability, disposition.
Qed.

Lemma load_clauses_rows l : ∀ k, load_clauses (Z.of_nat k) (imap (fun i (c : AuthorizationEvidenceSet) => (Z.of_nat (k + i), raw c)) l) = Ok l.
Proof.
  induction l as [|c l IH]; intros k; [done|]. cbn [imap load_clauses].
  pass_guard by (by rewrite Nat.add_0_r, Z.eqb_refl). rewrite decode_evidence_raw. cbn [mbind result_bind].
  replace (Z.of_nat k + 1) with (Z.of_nat (S k)) by lia.
  rewrite (imap_ext _ (fun i (c : AuthorizationEvidenceSet) => (Z.of_nat (S k + i), raw c))).
  { by rewrite IH. }
  intros i x _. cbn. do 2 f_equal. lia.
Qed.

Lemma policy_parts (p : AuthorizationPolicy) :
  1 <= len (policy_clauses p) <= 8 ∧ adjacent_any (fun x y => negb (ascending x y)) (policy_clauses p) = false.
Proof.
  destruct p as [[v l] H]. unfold policy_clauses. cbn [raw clauses_list]. unfold policy_ok, MAX_POLICY_CLAUSES in H.
  cbn [clauses_list] in H. bool_prop in H. destruct H as [[H1 H2] H3]. split; [lia|done].
Qed.

Lemma sort_ascending (l : list AuthorizationEvidenceSet) :
  adjacent_any (fun x y => negb (ascending x y)) l = false → StronglySorted (key_lt id (raw_compare Z.compare)) l.
Proof.
  intros H. apply Sorted_StronglySorted.
  { intros x y z Hxy Hyz. unfold key_lt, raw_compare, id in *. by apply (compare_lt_trans Z.compare (raw x) (raw y)). }
  induction l as [|x l IH]; [constructor|]. destruct l as [|y l]; [repeat constructor|].
  cbn in H. apply orb_false_iff in H as [Hxy H]. constructor; [by apply IH|]. constructor.
  unfold ascending in Hxy. unfold key_lt, raw_compare, id. apply Z.compare_lt_iff. bool_prop in Hxy. lia.
Qed.

Lemma policy_new_parts (p : AuthorizationPolicy) : AuthorizationPolicy_new (policy_version p) (policy_clauses p) = Ok p.
Proof.
  destruct (policy_parts p) as [Hlen Hadj]. unfold AuthorizationPolicy_new.
  rewrite sort_by_id by (try apply _; by apply sort_ascending). cbv zeta.
  pass_guard by (apply orb_false_iff; split; [unfold MAX_POLICY_CLAUSES; lia|]; apply not_true_is_false; intros H;
    clear Hlen; induction (policy_clauses p) as [|x [|y l] IH]; [done|done|]; cbn in H, Hadj, IH;
    apply orb_false_iff in Hadj as [Hxy Hadj]; apply orb_true_iff in H as [H|H];
    [apply bool_decide_eq_true in H; subst; unfold ascending in Hxy; bool_prop in Hxy; lia|by apply IH]).
  replace (mk_PolicyClauses _ _) with (raw p) by (by destruct p as [[] ?]). by rewrite check_raw.
Qed.

Section loaders.
Context (fingerprint : bytes) (s : AuthState).

Lemma load_generation_of : 1 <= s_generation s → load_generation (tables_of fingerprint s) = Ok (s_generation s).
Proof. intros H. unfold load_generation. cbn. by apply positive_sql. Qed.

Lemma load_policy_of : load_policy (tables_of fingerprint s) = Ok (s_policy s).
Proof.
  destruct (policy_parts (s_policy s)) as [Hlen Hadj].
  unfold load_policy, tables_of. cbn [t_policy_version t_clauses].
  rewrite positive_sql by apply policy_version_range. cbn [mbind result_bind].
  unfold AuthorizationPolicyVersion_new. rewrite check_raw. cbn [invalid map_err mbind result_bind].
  assert (len (clause_rows (s_policy s)) = len (policy_clauses (s_policy s))) as Hc.
  { unfold clause_rows, len. by rewrite length_imap. }
  rewrite take_all_len by lia. rewrite Hc. pass_guard by (unfold MAX_POLICY_CLAUSES; lia).
  pose proof (load_clauses_rows (policy_clauses (s_policy s)) 0) as Hl.
  change (load_clauses 0 (clause_rows (s_policy s)) = Ok (policy_clauses (s_policy s))) in Hl.
  rewrite Hl. cbn [mbind result_bind]. rewrite Hadj. cbn [fail_if mbind result_bind].
  by rewrite policy_new_parts.
Qed.

Lemma load_issuers_of :
  len (s_issuers s) <= MAX_ADAPTER_REGISTRATIONS → load_issuers (tables_of fingerprint s) = Ok (s_issuers s).
Proof.
  intros H. unfold load_issuers, tables_of, MAX_ADAPTER_REGISTRATIONS in *. cbn [t_issuers].
  rewrite take_all_len by (rewrite len_encoded; lia). rewrite len_encoded. pass_guard by lia.
  apply traverse_encoded. intros; apply decode_issuer_row.
Qed.

Lemma key_cell_is (k : IssuerKeyId * IssuerKeyVersion) id version :
  bool_decide ((key_cell k).1 = id) && ((key_cell k).2 =? raw version) = bool_decide (k = (id, version)).
Proof.
  destruct k as [i v]. cbn. apply eq_true_iff_eq. rewrite andb_true_iff, !bool_decide_eq_true, Z.eqb_eq. split.
  - intros [-> Hv]. apply raw_inj in Hv as ->. done.
  - by intros [= -> ->].
Qed.

Lemma issuer_row_is_of id version i :
  issuer_row_is id version (issuer_row i) = bool_decide (issuer_key_of i = (id, version)).
Proof. apply (key_cell_is (issuer_key_of i)). Qed.

Lemma load_issuer_of id version :
  load_issuer (tables_of fingerprint s) id version = Ok (find_issuer_record s id version).
Proof.
  unfold load_issuer, find_issuer_record, tables_of. cbn [t_issuers].
  rewrite (find_encoded issuer_row _ (fun i => bool_decide (issuer_key_of i = (id, version))))
    by (intros; apply issuer_row_is_of).
  destruct (find _ _) as [i|]; cbn; [|done]. by rewrite decode_issuer_row.
Qed.

Lemma issuer_identifier_exists_of id version :
  issuer_identifier_exists (tables_of fingerprint s) id version
  = existsb (fun k => bool_decide (k = (id, version))) (s_issuer_ids s).
Proof. unfold issuer_identifier_exists, tables_of. cbn [t_issuer_identifiers]. apply existsb_encoded. intros; apply key_cell_is. Qed.

Lemma load_suspended_of :
  len (s_suspended s) <= MAX_SUSPENDED_PROFILES → load_suspended_profiles (tables_of fingerprint s) = Ok (s_suspended s).
Proof.
  intros H. unfold load_suspended_profiles, tables_of, MAX_SUSPENDED_PROFILES in *. cbn [t_suspended].
  rewrite take_all_len by (rewrite len_encoded; lia). rewrite len_encoded. pass_guard by lia.
  apply traverse_encoded. intros; apply parse_profile.
Qed.

Lemma profile_cell_is (p q : ServiceProfileId) : bool_decide (raw p = raw q) = bool_decide (p = q).
Proof. apply bool_decide_ext. split; [apply raw_inj|congruence]. Qed.

Lemma is_profile_suspended_of p : is_profile_suspended (tables_of fingerprint s) p = suspended s p.
Proof. unfold is_profile_suspended, suspended, tables_of. cbn [t_suspended]. apply existsb_encoded. intros; apply profile_cell_is. Qed.

End loaders.

(** ** Grants *)

(** What a row of an entry reads back as. *)
Definition stored_of (e : GrantEntry) : StoredGrant :=
  mk_StoredGrant (entry_grant e) (match entry_end e with Some end_ => end_.1.1 | None => StateActive end)
    ((fun end_ => end_.1.2) <$> entry_end e).

Definition end_stored (e : GrantEntry) : Prop :=
  ∀ end_, entry_end e = Some end_ → end_.1.1 ≠ StateActive ∧ 1 <= end_.1.2 ∧ grant_issued_at (entry_grant e) <= end_.2.

Lemma grant_state_code_own st : grant_state_from_code (grant_state_code st) = Ok st.
Proof. by destruct st. Qed.

Lemma decode_claims_row e : decode_grant_claims (grant_row e) = Ok (raw (entry_grant e)).
Proof.
  destruct e as [key g o]. pose proof (grant_times g) as Ht. pose proof (capabilities_range (grant_capabilities g)) as Hc.
  assert (decode_grant_claims (grant_row_of key g) = Ok (raw g)) as H.
  { unfold decode_grant_claims, grant_row_of.
    cbn [gr_issuer_key_version gr_profile_id gr_harness gr_evidence gr_policy_version gr_issued_at gr_expires_at
         gr_capabilities gr_grant_id gr_issuer_key_id gr_session_public_key].
    rewrite decode_version_raw. cbn [mbind result_bind]. rewrite parse_profile. cbn [mbind result_bind].
    rewrite decode_harness_wire. cbn [mbind result_bind]. rewrite decode_evidence_raw. cbn [mbind result_bind].
    rewrite (positive_sql (raw (grant_policy_version g))) by apply policy_version_range. cbn [mbind result_bind].
    unfold AuthorizationPolicyVersion_new. rewrite check_raw. cbn [invalid map_err mbind result_bind].
    rewrite unsigned_sql by lia. cbn [mbind result_bind].
    rewrite (positive_sql (grant_expires_at g)) by lia. cbn [mbind result_bind].
    rewrite (positive_sql (raw (grant_capabilities g))) by lia. cbn [mbind result_bind].
    unfold SessionCapabilities_from_bits. rewrite check_raw. cbn [invalid map_err mbind result_bind].
    by destruct g as [[] ?]. }
  unfold grant_row. cbn [entry_end entry_key entry_grant]. by destruct o as [[[st gen] t]|].
Qed.

Lemma decode_grant_row e : end_stored e → decode_grant (grant_row e) = Ok (stored_of e).
Proof.
  intros He. unfold decode_grant. rewrite decode_claims_row. cbn [mbind result_bind].
  rewrite SessionGrant_new_raw. cbn [invalid map_err mbind result_bind].
  destruct e as [key g o]. cbn [entry_grant] in *. unfold grant_row, stored_of. cbn [entry_end entry_grant entry_key].
  pose proof (grant_times g) as Ht. destruct o as [[[st gen] t]|]; [|done].
  destruct (He _ eq_refl) as (Hst & Hgen & Hat). cbn [fst snd entry_grant] in *.
  cbn [gr_state gr_terminal_generation gr_terminal_at terminalize].
  rewrite grant_state_code_own. cbn [mbind result_bind]. cbn [opt_traverse]. rewrite positive_sql by done. cbn [mbind result_bind].
  rewrite unsigned_sql by lia. cbn [mbind result_bind]. rewrite bool_decide_eq_false_2 by done.
  cbn [is_some is_none andb orb negb is_some_and]. cbn. rewrite (fail_if_pass (t <? _)) by lia. done.
Qed.

Lemma gr_grant_id_of e : gr_grant_id (grant_row e) = entry_id e.
Proof. unfold grant_row. by destruct (entry_end e) as [[[??]?]|]. Qed.

Lemma gr_state_of e : end_stored e → (gr_state (grant_row e) =? 1) = entry_active e.
Proof.
  intros He. unfold grant_row, entry_active. destruct (entry_end e) as [[[st gen] t]|] eqn:E; [|done].
  destruct (He _ E) as [Hst _]. cbn in *. by destruct st.
Qed.

Lemma gr_fields_of e :
  gr_expires_at (grant_row e) = grant_expires_at (entry_grant e)
  ∧ gr_issued_at (grant_row e) = grant_issued_at (entry_grant e)
  ∧ gr_profile_id (grant_row e) = raw (grant_profile (entry_grant e))
  ∧ gr_issuer_key_id (grant_row e) = grant_issuer_key_id (entry_grant e)
  ∧ gr_issuer_key_version (grant_row e) = raw (grant_issuer_key_version (entry_grant e))
  ∧ gr_evidence (grant_row e) = raw (grant_evidence (entry_grant e))
  ∧ gr_client_instance (grant_row e) = issuance_client_instance (entry_key e)
  ∧ gr_request_id (grant_row e) = issuance_request_id (entry_key e)
  ∧ gr_terminal_generation (grant_row e) = (fun end_ => end_.1.2) <$> entry_end e.
Proof. unfold grant_row. by destruct (entry_end e) as [[[??]?]|]. Qed.

Section grants.
Context (fingerprint : bytes) (s : AuthState) (Hs : ∀ e, e ∈ s_grants s → end_stored e).

Lemma row_live_of now e : e ∈ s_grants s → row_live now (grant_row e) = entry_live now e.
Proof.
  intros He. unfold row_live, entry_live. rewrite gr_state_of by auto. by destruct (gr_fields_of e) as [-> _].
Qed.

Lemma load_all_grants_of :
  len (s_grants s) <= MAX_SESSION_GRANTS + MAX_TERMINAL_GRANT_RECORDS →
  load_all_grants (tables_of fingerprint s) = Ok (stored_of <$> s_grants s).
Proof using Hs.
  intros H. unfold load_all_grants, tables_of, MAX_SESSION_GRANTS, MAX_TERMINAL_GRANT_RECORDS in *. cbn [t_grants].
  rewrite take_all_len by (rewrite len_encoded; lia). rewrite len_encoded. pass_guard by lia.
  clear H. induction (s_grants s) as [|e l IH]; [done|]. cbn [fmap list_fmap traverse].
  rewrite decode_grant_row by (apply Hs; left). cbn [mbind result_bind].
  change (list_fmap _ _ grant_row l) with (grant_row <$> l). rewrite IH by set_solver. done.
Qed.

Lemma load_active_grants_of now :
  now <= I64_MAX → count (entry_live now) (s_grants s) <= MAX_SESSION_GRANTS →
  load_active_grants (tables_of fingerprint s) now = Ok (live_grants now s).
Proof using Hs.
  intros Hnow H. unfold load_active_grants, live_grants, tables_of, MAX_SESSION_GRANTS, count in *. cbn [t_grants].
  rewrite to_sql_pass by done. cbn [mbind result_bind].
  rewrite (filter_encoded grant_row _ (entry_live now)) by (intros; by apply row_live_of).
  rewrite take_all_len by (rewrite len_encoded; lia). rewrite len_encoded. pass_guard by lia.
  assert (∀ e, e ∈ List.filter (entry_live now) (s_grants s) → end_stored e ∧ entry_active e = true) as Hl.
  { intros e [He%list_elem_of_In Hv]%list_elem_of_In%filter_In.
    split; [auto|]. unfold entry_live in Hv. by apply andb_true_iff in Hv as [? _]. }
  clear H. induction (List.filter _ _) as [|e l IH]; [done|]. cbn [fmap list_fmap traverse].
  destruct (Hl e ltac:(left)) as [He Ha]. rewrite decode_grant_row by done. cbn [mbind result_bind].
  rewrite bool_decide_eq_true_2 by (unfold stored_of; cbn [stored_state]; unfold entry_active in Ha; by destruct (entry_end e)).
  cbn [mbind result_bind].
  change (list_fmap _ _ grant_row l) with (grant_row <$> l). rewrite IH by set_solver. done.
Qed.

Lemma load_grant_by_id_of id :
  load_grant_by_id (tables_of fingerprint s) id
  = Ok (stored_of <$> find (fun e => bool_decide (entry_id e = id)) (s_grants s)).
Proof using Hs.
  unfold load_grant_by_id, tables_of. cbn [t_grants].
  rewrite (find_encoded grant_row _ (fun e => bool_decide (entry_id e = id))) by (intros; by rewrite gr_grant_id_of).
  destruct (find _ _) as [e|] eqn:E; [|done]. apply find_some in E as [He%list_elem_of_In _]. cbn.
  by rewrite decode_grant_row by auto.
Qed.

Lemma row_issued_for_of id version key e :
  row_issued_for id version key (grant_row e) = issued_for id version key e.
Proof.
  unfold row_issued_for, issued_for, issued_by, issuer_key. destruct (gr_fields_of e) as (_ & _ & _ & -> & -> & _ & -> & -> & _).
  destruct key as [c r], (entry_key e) as [c' r']. cbn. apply eq_true_iff_eq.
  rewrite !andb_true_iff, !bool_decide_eq_true, Z.eqb_eq. split.
  - intros [[[-> Hv] ->] ->]. apply raw_inj in Hv as ->. done.
  - by intros [[= -> ->] [= -> ->]].
Qed.

Lemma load_grant_by_issuance_of id version key :
  load_grant_by_issuance (tables_of fingerprint s) id version key
  = Ok (stored_of <$> find (issued_for id version key) (s_grants s)).
Proof using Hs.
  unfold load_grant_by_issuance, tables_of. cbn [t_grants].
  rewrite (find_encoded grant_row _ (issued_for id version key)) by (intros; apply row_issued_for_of).
  destruct (find _ _) as [e|] eqn:E; [|done]. apply find_some in E as [He%list_elem_of_In _]. cbn.
  by rewrite decode_grant_row by auto.
Qed.

End grants.

Lemma audit_kind_code_own k : audit_kind_from_code (audit_kind_code k) = Ok k.
Proof. by destruct k. Qed.

Lemma load_audit_of fingerprint s limit :
  (∀ e, e ∈ s_audit s → 1 <= audit_generation e ∧ 0 <= audit_occurred_at e) →
  load_audit_events_inner (tables_of fingerprint s) limit = Ok (take (Z.to_nat limit) (reverse (s_audit s))).
Proof.
  intros H. unfold load_audit_events_inner, tables_of. cbn [t_audit].
  rewrite <- fmap_reverse, <- fmap_take. apply (traverse_encoded audit_row). intros e He.
  assert (e ∈ s_audit s) as Hin.
  { apply elem_of_reverse. rewrite <- (take_drop (Z.to_nat limit) (reverse _)). apply elem_of_app. by left. }
  destruct (H e Hin) as [Hg Ht]. destruct e as [g k t]. cbn [audit_row audit_generation audit_kind audit_occurred_at fst snd] in *.
  rewrite positive_sql by done. cbn [mbind result_bind]. rewrite audit_kind_code_own. cbn [mbind result_bind].
  by rewrite unsigned_sql.
Qed.

(** ** Validation *)

Lemma array_len {n} (x : checked (array_ok n)) : len (raw x) = Z.of_nat n.
Proof. destruct x as [v H]. cbn [raw]. unfold array_ok in H. apply Nat.eqb_eq in H. unfold len. by rewrite H. Qed.

Section validation.
Context `{Sha256} `{WebAuthnDocuments}.

Lemma load_credential_of fingerprint s :
  (∀ c, s_credential s = Some c → credential_valid c) →
  load_user_presence_credential (tables_of fingerprint s) = Ok (s_credential s).
Proof.
  intros Hc. unfold load_user_presence_credential, tables_of. cbn [t_credential].
  destruct (s_credential s) as [c|]; [|done]. cbn [fmap option_fmap option_map].
  specialize (Hc c eq_refl). unfold credential_valid in Hc. unfold credential_row_of. cbn [cr_document cr_provider_id cr_credential_id cr_digest].
  rewrite Hc. cbn [invalid map_err mbind result_bind]. by rewrite !bool_decide_neq_false.
Qed.

Lemma credential_cells c : credential_valid c → credential_row_checks (credential_row_of c) = true.
Proof.
  unfold credential_valid. intros Hc. unfold from_document in Hc. inv_ok.
  destruct r0 as [[version provider] cid]. inv_ok.
  unfold credential_row_checks, credential_row_of. cbn [cr_document cr_provider_id cr_credential_id cr_digest].
  rewrite <- Hc at 1 2 3 4 5. cbn [credential_provider_id credential_credential_id credential_digest].
  pose proof (sha256_length cid) as Hsha. pose proof (len_nonneg cid). pose proof (len_nonneg (credential_document c)).
  assert (len (sha256 cid) = 32) as Hd by (unfold len; by rewrite Hsha).
  assert (len PROVIDER_ID = 26) as Hp by done.
  unfold MAX_USER_PRESENCE_CREDENTIAL_ID_LENGTH, MAX_NATIVE_WEBAUTHN_DOCUMENT_BYTES in *. bool_prop. lia.
Qed.

Lemma profile_kind_len a : len (profile_kind_id a) <= 32.
Proof. destruct a as [p|p|]; cbn [profile_kind_id]; [apply service_profile_length..|done]. Qed.

Lemma public_key_len (k : Ed25519PublicKey) : len (as_bytes k) = 32.
Proof. destruct k as [v H1]. cbn. apply Nat.eqb_eq in H1. unfold len. by rewrite H1. Qed.

Lemma credential_rows_bounded (o : option UserPresenceCredentialRecord) :
  (∀ c, o = Some c → credential_valid c) →
  (1 <? len (opt_rows (credential_row_of <$> o))) = false
  ∧ (0 <? len (opt_rows (credential_row_of <$> o)))
    && negb (forallb credential_row_checks (opt_rows (credential_row_of <$> o))) = false.
Proof.
  intros Hc. destruct o as [c|]; [|done]. cbn [fmap option_fmap option_map opt_rows forallb].
  by rewrite credential_cells by auto.
Qed.

Section committed.
Context (fingerprint : bytes) (s : AuthState) (Hs : state_ok s).

Lemma entries_stored e : e ∈ s_grants s → end_stored e.
Proof using Hs.
  intros He end_ Hend. destruct (inv_entries _ _ _ (ok_inv _ Hs) e He) as (_ & _ & _ & Hok).
  destruct (Hok _ Hend) as (? & ? & ?). repeat split; [done|lia|lia].
Qed.

Lemma issuers_len : len (s_issuers s) <= MAX_ADAPTER_REGISTRATIONS.
Proof using Hs.
  destruct (ok_inv _ Hs) as [_ [_ Hids] [Hnd Hsub] _ _ _ _ _ _ _ _].
  assert (length (issuer_key_of <$> s_issuers s) ≤ length (s_issuer_ids s))%nat as Hle.
  { apply submseteq_length, NoDup_submseteq; [done|]. intros k Hk. apply list_elem_of_fmap in Hk as (i & -> & Hi). auto. }
  rewrite length_fmap in Hle. unfold len in *. lia.
Qed.

Lemma grants_len : len (s_grants s) <= MAX_SESSION_GRANTS + MAX_TERMINAL_GRANT_RECORDS.
Proof using Hs.
  rewrite <- (count_split entry_active). destruct (inv_quotas _ _ _ (ok_inv _ Hs)) as [Hq _].
  pose proof (ok_history _ Hs). lia.
Qed.

Lemma reserved_cells i : i ∈ s_issuers s →
  existsb (fun e => bool_decide (e.1 = ir_key_id (issuer_row i)) && (e.2 =? ir_key_version (issuer_row i)))
    (key_cell <$> s_issuer_ids s) = true.
Proof using Hs.
  intros Hi. rewrite (existsb_encoded key_cell _ (fun k => bool_decide (k = issuer_key_of i)))
    by (intros; apply (key_cell_is _ (issuer_key_id i) (issuer_key_version i))).
  apply existsb_is. by apply (inv_issuers _ _ _ (ok_inv _ Hs)).
Qed.

Lemma reserved_ids e : e ∈ s_grants s →
  existsb (fun id => bool_decide (id = gr_grant_id (grant_row e))) (s_grant_ids s) = true.
Proof using Hs.
  intros He. rewrite gr_grant_id_of. apply existsb_is. by destruct (inv_entries _ _ _ (ok_inv _ Hs) e He) as [? _].
Qed.

Lemma active_rows : count (fun row => gr_state row =? 1) (grant_row <$> s_grants s) = count entry_active (s_grants s).
Proof using Hs. apply count_encoded. intros e He. by apply gr_state_of, entries_stored. Qed.

Lemma audit_len : len (s_audit s) = Z.min (s_generation s) MAX_AUTHORIZATION_AUDIT_RECORDS.
Proof using Hs.
  destruct (ok_audit _ Hs) as [Ha _]. pose proof (ok_generation _ Hs). unfold MAX_AUTHORIZATION_AUDIT_RECORDS in *.
  rewrite <- (len_encoded audit_generation), Ha. unfold len. rewrite length_seqZ. lia.
Qed.

Lemma validate_row_bounds_of : fingerprint_ok fingerprint → validate_row_bounds (tables_of fingerprint s) = Ok ().
Proof using Hs.
  intros Hfp.
  pose proof (ok_generation _ Hs) as Hgen. pose proof grants_len. pose proof issuers_len. pose proof audit_len as Haud.
  destruct (ok_inv _ Hs) as [_ [_ Hids] [_ Hsub] [_ Hsusp] [_ Hgids] _ _ Hent [Hq _] (_ & Hcids & Hcl) Hcred].
  destruct (policy_parts (s_policy s)) as [Hclauses _].
  pose proof (ok_history _ Hs) as Hhist.
  unfold validate_row_bounds, tables_of. cbn [t_fingerprint t_clauses t_issuer_identifiers t_issuers t_suspended
    t_grant_identifiers t_grants t_credential_identifiers t_credential t_audit]. cbv zeta.
  rewrite active_rows, !len_encoded. unfold clause_rows.
  replace (len (imap _ _)) with (len (policy_clauses (s_policy s))) by (unfold len; by rewrite length_imap).
  rewrite <- (count_split entry_active (s_grants s)).
  apply fail_if_pass.
  repeat match goal with |- _ || _ = false => apply orb_false_iff; split end;
    try (unfold MAX_POLICY_CLAUSES, MAX_ADAPTER_REGISTRATIONS, MAX_SUSPENDED_PROFILES, MAX_GRANT_IDENTIFIERS,
           MAX_SESSION_GRANTS, MAX_TERMINAL_GRANT_RECORDS, MAX_AUTHORIZATION_AUDIT_RECORDS,
           MAX_USER_PRESENCE_CREDENTIAL_IDENTIFIERS in *; lia).
  - unfold len. by rewrite Hfp.
  - apply guarded_false. intros Hl.
    rewrite <- (len_encoded key_cell) in Hl.
    rewrite (max_of_const (fun e => len (raw e.1)) _ 16 ltac:(done) (fun r _ => @array_len 16 _) Hl).
    assert (∀ k, k ∈ key_cell <$> s_issuer_ids s → 1 <= k.2 <= U32_MAX) as Hk.
    { intros k (k' & -> & _)%list_elem_of_fmap. destruct k' as [i [v Hv]]. cbn. unfold issuer_key_version_ok in Hv. bool_prop in Hv. lia. }
    pose proof (max_of_lower snd (key_cell <$> s_issuer_ids s) 1 (fun k Hin => proj1 (Hk k Hin)) Hl).
    pose proof (max_of_bound snd (key_cell <$> s_issuer_ids s) U32_MAX ltac:(done) (fun k Hin => proj2 (Hk k Hin))). lia.
  - apply guarded_false. intros Hl.
    rewrite <- (len_encoded issuer_row) in Hl.
    rewrite (max_of_const (fun r => len (raw (ir_key_id r))) _ 16 ltac:(done) (fun r _ => @array_len 16 _) Hl).
    rewrite (max_of_const (fun r => len (as_bytes (ir_public_key r))) _ 32 ltac:(done) (fun r _ => public_key_len _) Hl).
    pose proof (max_of_bound (fun r => len (ir_profile_id r)) (issuer_row <$> s_issuers s) 32 ltac:(done)) as Hm.
    destruct (32 <? _) eqn:E; [|done]. apply Z.ltb_lt in E. specialize (Hm ltac:(intros r (i & -> & _)%list_elem_of_fmap; apply profile_kind_len)). lia.
  - apply Z.ltb_ge, max_of_bound; [done|]. intros p (q & -> & _)%list_elem_of_fmap. apply service_profile_length.
  - apply guarded_false. intros Hl.
    by rewrite (max_of_const (fun e => len (raw e)) _ 16 ltac:(done) (fun r _ => @array_len 16 _) Hl).
  - rewrite count_split. apply guarded_false. intros Hl.
    rewrite <- (len_encoded grant_row) in Hl.
    rewrite (max_of_const (fun r => len (raw (gr_grant_id r))) _ 16 ltac:(done) (fun r _ => @array_len 16 _) Hl).
    rewrite (max_of_const (fun r => len (raw (gr_issuer_key_id r))) _ 16 ltac:(done) (fun r _ => @array_len 16 _) Hl).
    rewrite (max_of_const (fun r => len (as_bytes (gr_session_public_key r))) _ 32 ltac:(done) (fun r _ => public_key_len _) Hl).
    rewrite (max_of_const (fun r => len (raw (gr_client_instance r))) _ 16 ltac:(done) (fun r _ => @array_len 16 _) Hl).
    rewrite (max_of_const (fun r => len (raw (gr_request_id r))) _ 16 ltac:(done) (fun r _ => @array_len 16 _) Hl).
    cbn [negb orb Z.eqb Pos.eqb]. apply Z.ltb_ge, max_of_bound; [done|]. intros r (e & -> & _)%list_elem_of_fmap.
    destruct (gr_fields_of e) as (_ & _ & -> & _). apply service_profile_length.
  - apply guarded_false. intros Hl. rewrite max_of_const with (n := 32); [done|done| |done].
    intros d Hd. unfold len. by rewrite (Hcl d Hd).
  - by destruct (s_credential s).
  - destruct (s_credential s) as [c|]; [|done]. destruct (Hcred c eq_refl) as [Hv _]. apply credential_cells in Hv.
    unfold credential_row_checks in Hv. bool_prop in Hv. unfold MAX_NATIVE_WEBAUTHN_DOCUMENT_BYTES, max_of.
    cbn [fmap option_fmap option_map opt_rows foldr]. apply guarded_false. intros _. bool_prop. lia.
  - rewrite count_all; [done|]. intros r (i & -> & Hi)%list_elem_of_fmap. by rewrite reserved_cells.
  - rewrite count_all; [done|]. intros r (e & -> & He)%list_elem_of_fmap. by rewrite reserved_ids.
Qed.

Lemma foreign_keys_of : foreign_key_violation (tables_of fingerprint s) = false.
Proof using Hs.
  unfold foreign_key_violation, tables_of. cbn [t_issuer_identifiers t_issuers t_grant_identifiers t_grants
    t_credential_identifiers t_credential]. rewrite !orb_false_iff. repeat split.
  - apply existsb_false. intros r (i & -> & Hi)%list_elem_of_fmap. by rewrite reserved_cells.
  - apply existsb_false. intros r (e & -> & He)%list_elem_of_fmap. rewrite reserved_ids by done. cbn [negb orb].
    destruct (inv_entries _ _ _ (ok_inv _ Hs) e He) as (_ & _ & (i & [Hi _] & _) & _).
    apply find_some in Hi as [Hi%list_elem_of_In Hk%bool_decide_eq_true].
    apply negb_false_iff, (existsb_true _ _ (issuer_row i)); [by apply list_elem_of_fmap_2|].
    destruct (gr_fields_of e) as (_ & _ & _ & -> & -> & _). injection Hk as Hk1 Hk2.
    cbn [issuer_row ir_key_id ir_key_version]. rewrite Hk1, Hk2, Z.eqb_refl. by rewrite bool_decide_eq_true_2.
  - apply existsb_false. intros r Hr. destruct (s_credential s) as [c|] eqn:Ec; [|by apply not_elem_of_nil in Hr].
    apply list_elem_of_singleton in Hr as ->. apply negb_false_iff, existsb_is.
    by destruct (inv_credential _ _ _ (ok_inv _ Hs) c Ec).
Qed.

Lemma validate_audit_of : validate_audit (s_generation s) (reverse (s_audit s)) = Ok ().
Proof using Hs.
  pose proof audit_len as Hlen. destruct (ok_audit _ Hs) as (Hseq & _ & Hboot). pose proof (ok_generation _ Hs) as Hg.
  unfold validate_audit, MAX_AUTHORIZATION_AUDIT_RECORDS in *. cbv zeta.
  replace (len (reverse (s_audit s))) with (len (s_audit s)) by (unfold len; by rewrite length_reverse).
  assert (audit_generation <$> last (s_audit s) = Some (s_generation s)) as Hlast.
  { rewrite <- fmap_last, Hseq. replace (s_generation s `min` 256) with (s_generation s `min` 256 - 1 + 1) at 2 by lia.
    rewrite seqZ_snoc by lia. rewrite last_snoc. f_equal. lia. }
  assert (audit_generation <$> head (s_audit s) = Some (s_generation s - (s_generation s `min` 256 - 1))) as Hhead.
  { rewrite head_lookup, <- list_lookup_fmap, Hseq. rewrite seqZ_cons by lia. cbn. f_equal. lia. }
  rewrite head_reverse, last_reverse, Hlast, Hhead. pass_guard by (rewrite !bool_decide_neq_false by done; rewrite Hlen; rewrite Z.eqb_refl; done).
  apply fail_if_pass. destruct (_ <=? _) eqn:E; [|done]. rewrite Hboot by lia. by rewrite bool_decide_neq_false.
Qed.

Lemma entry_scope e : e ∈ s_grants s →
  validate_stored_grant (s_policy s) (s_issuers s) (s_suspended s) (stored_of e) = Ok ().
Proof using Hs.
  intros He. destruct (inv_entries _ _ _ (ok_inv _ Hs) e He) as (_ & _ & (i & (Hi & Hh & Hp & Hv) & Ha) & Hend).
  unfold validate_stored_grant. cbn [stored_of stored_grant stored_state]. cbv zeta.
  assert (find (fun i => bool_decide (issuer_key_id i = grant_issuer_key_id (entry_grant e))
                         && bool_decide (issuer_key_version i = grant_issuer_key_version (entry_grant e))) (s_issuers s) = Some i) as ->.
  { rewrite <- Hi. apply find_agree. intros j. apply eq_true_iff_eq.
    rewrite andb_true_iff, !bool_decide_eq_true. unfold issuer_key_of. split; [by intros [-> ->]|by intros [= -> ->]]. }
  cbn [ok_or mbind result_bind].
  unfold harness_allowed in Hh.
  pass_guard by (rewrite Hp; destruct (bool_decide (_ = grant_harness _)); cbn in Hh |- *; [lia|rewrite Hh; cbn; lia]).
  apply fail_if_pass. destruct (entry_end e) as [end_|] eqn:Ee.
  - rewrite bool_decide_eq_false_2; [done|]. by destruct (Hend _ eq_refl) as [? _].
  - rewrite bool_decide_eq_true_2 by done. destruct Ha as (Hs1 & Hs2 & Hs3); [unfold entry_active; by rewrite Ee|].
    unfold suspended in Hs1. rewrite Hs1, Hs2. cbn. apply andb_false_iff.
    destruct (decide (issuer_availability i = Disabled)); [right|left]; apply bool_decide_eq_false_2; [intros Hd; by apply Hs3|done].
Qed.

Lemma active_stored : List.filter is_active (stored_of <$> s_grants s) = stored_of <$> List.filter entry_active (s_grants s).
Proof using Hs.
  apply filter_encoded. intros e He. unfold is_active, stored_of, entry_active. cbn [stored_state].
  destruct (entry_end e) as [end_|] eqn:Ee; [|done].
  destruct (entries_stored e He end_ Ee) as [Hst _]. by apply bool_decide_eq_false_2.
Qed.

(** A store with its quotas: no active grant is over one of them. *)
Lemma quotas_pass (p : GrantEntry → bool) (q : StoredGrant → bool) n :
  (∀ e, q (stored_of e) = p e) → count (fun e => entry_active e && p e) (s_grants s) <= n →
  (n <? count q (stored_of <$> List.filter entry_active (s_grants s))) = false.
Proof.
  intros Hpq Hle. rewrite (count_encoded stored_of q p) by auto. unfold count in *. rewrite filter_filter.
  by apply Z.ltb_ge.
Qed.

Lemma audit_events_positive e : e ∈ s_audit s → 1 <= audit_generation e ∧ 0 <= audit_occurred_at e.
Proof using Hs.
  intros He. destruct (ok_audit _ Hs) as (Hseq & Ht & _). pose proof (ok_generation _ Hs). split.
  - assert (audit_generation e ∈ audit_generation <$> s_audit s) as Hin by by apply list_elem_of_fmap_2.
    rewrite Hseq in Hin. apply elem_of_seqZ in Hin. lia.
  - by apply Ht.
Qed.

Lemma validate_ok : fingerprint_ok fingerprint → validate_store (tables_of fingerprint s) fingerprint = Ok ().
Proof using Hs.
  intros Hfp. pose proof (ok_generation _ Hs) as Hgen. pose proof issuers_len as Hil. pose proof grants_len as Hgl.
  pose proof audit_len as Hal.
  destruct (ok_inv _ Hs) as [_ _ _ [_ Hsusp] _ _ _ Hent (Hq & Hqi & Hqp) (_ & Hcids & _) Hcred].
  unfold validate_store, verify_identity_and_high_water.
  rewrite (fail_if_pass (negb (len (t_fingerprint _) =? 32))) by (cbn [tables_of t_fingerprint]; unfold len; by rewrite Hfp).
  cbn [mbind result_bind]. change (u64_from_positive_sql (t_generation ?d)) with (load_generation d).
  rewrite load_generation_of by lia. cbn [mbind result_bind is_some_and].
  rewrite (fail_if_pass false) by done. cbn [mbind result_bind].
  rewrite (fail_if_pass (bool_decide (t_fingerprint _ ≠ _))) by (by apply bool_decide_neq_false). cbn [mbind result_bind].
  rewrite validate_row_bounds_of by done. cbn [mbind result_bind]. rewrite load_policy_of. cbn [mbind result_bind].
  rewrite load_issuers_of by done. cbn [mbind result_bind]. rewrite load_suspended_of by done. cbn [mbind result_bind].
  rewrite load_all_grants_of by (done || apply entries_stored). cbn [mbind result_bind].
  rewrite load_credential_of by (intros c Hc; by apply Hcred). cbn [mbind result_bind].
  rewrite load_audit_of by apply audit_events_positive. cbn [mbind result_bind]. cbv zeta.
  rewrite take_all_len by (unfold len in *; rewrite length_reverse; unfold MAX_AUTHORIZATION_AUDIT_RECORDS in *; lia).
  rewrite active_stored, len_encoded.
  rewrite (count_encoded stored_of _ (fun e => negb (entry_active e))).
  2: { intros e He. f_equal. unfold is_active, stored_of, entry_active. cbn [stored_state].
       destruct (entry_end e) as [end_|] eqn:Ee; [|done]. destruct (entries_stored e He end_ Ee) as [Hst _].
       by apply bool_decide_eq_false_2. }
  pose proof (ok_history _ Hs) as Hhist.
  replace (len (reverse (s_audit s))) with (len (s_audit s)) by (unfold len; by rewrite length_reverse).
  unfold count in Hq. rewrite Hal.
  pass_guard by (unfold MAX_SUSPENDED_PROFILES, MAX_SESSION_GRANTS, MAX_TERMINAL_GRANT_RECORDS,
    MAX_AUTHORIZATION_AUDIT_RECORDS, MAX_ADAPTER_REGISTRATIONS, MAX_USER_PRESENCE_CREDENTIAL_IDENTIFIERS in *;
    cbn [tables_of t_credential_identifiers]; lia).
  pass_guard by (destruct (s_credential s) as [c|]; [|done]; cbn [is_some_and]; apply negb_false_iff, existsb_is;
    by apply Hcred).
  pass_guard by (apply existsb_false; intros g Hg; apply orb_false_iff; split;
    [by eapply quotas_pass; [|apply Hqi]|by eapply quotas_pass; [|apply Hqp]]).
  pass_guard by (apply existsb_false; intros g (e & -> & He)%list_elem_of_fmap; cbn [stored_of stored_terminal_generation];
    destruct (entry_end e) as [end_|] eqn:Ee; [|done]; destruct (Hent e He) as (_ & _ & _ & Hok);
    destruct (Hok _ Ee) as (_ & ? & _); cbn; lia).
  assert (∀ l, (∀ e, e ∈ l → e ∈ s_grants s) →
    traverse (validate_stored_grant (s_policy s) (s_issuers s) (s_suspended s)) (stored_of <$> l) = Ok ((fun _ => ()) <$> l)) as Ht.
  { induction l as [|e l IH]; intros Hl; [done|]. cbn [fmap list_fmap traverse].
    rewrite entry_scope by (apply Hl; left). cbn [mbind result_bind].
    change (list_fmap _ _ stored_of l) with (stored_of <$> l). rewrite IH by set_solver. done. }
  rewrite Ht by done. cbn [mbind result_bind]. rewrite foreign_keys_of. cbn [fail_if mbind result_bind].
  apply validate_audit_of.
Qed.

End committed.
End validation.
