(* ===== verification/AuthorizationSteps.v ===== *)
(** * Writing the encoded authorization store

    Every statement of [AuthorizationOps] on the encoding of a state writes the encoding of the
    state the operation of [AuthorizationSpec] makes. *)

From S2P Require Import Prelude Identifiers LocalGrants AuthorizationStore AuthorizationOps AuthorizationSpec AuthorizationCodec.
Open Scope Z_scope.

(** ** Lists *)

Lemma sort_insert_last {A K} (key : A → K) (cmp : K → K → comparison) x l :
  (∀ y, y ∈ l → cmp (key x) (key y) = Gt) → sort_insert key cmp x l = l ++ [x].
Proof.
  induction l as [|y l IH]; intros H; [done|]. cbn. rewrite H by left. f_equal. apply IH. set_solver.
Qed.

Lemma sort_by_key_agree {A K} (key key' : A → K) (cmp : K → K → comparison) l :
  (∀ x, key x = key' x) → sort_by key cmp l = sort_by key' cmp l.
Proof.
  intros H. unfold sort_by. induction l as [|x l IH]; [done|]. cbn [foldr]. rewrite IH.
  generalize (foldr (sort_insert key' cmp) [] l) as k. clear IH l.
  induction k as [|y k IH]; [done|]. cbn. rewrite !H. by rewrite IH.
Qed.

Lemma filter_agree {A} (p q : A → bool) (l : list A) :
  (∀ x, x ∈ l → p x = q x) → List.filter p l = List.filter q l.
Proof. intros H. rewrite <- (list_fmap_id l) at 1. rewrite (filter_encoded id p q) by auto. by rewrite list_fmap_id. Qed.

Lemma NoDup_fmap_filtered {A K} (f : A → K) (p : A → bool) (l : list A) :
  NoDup (f <$> l) → NoDup (f <$> List.filter p l).
Proof. intros Hnd. eapply sublist_NoDup; [exact Hnd|apply fmap_sublist, filter_sublist]. Qed.

Lemma filter_after_prefix {A} (f : A → Z) (k : nat) (l : list A) :
  NoDup (f <$> l) →
  List.filter (fun x => negb (existsb (fun g => g =? f x) (f <$> take k l))) l = drop k l.
Proof.
  intros Hnd. set (p := fun x : A => negb _). transitivity (List.filter p (take k l ++ drop k l)); [by rewrite take_drop|].
  rewrite List.filter_app. subst p.
  assert (NoDup (f <$> (take k l ++ drop k l))) as Hnd' by by rewrite take_drop.
  rewrite fmap_app in Hnd'. apply NoDup_app in Hnd' as (_ & Hdis & _).
  replace (List.filter _ (take k l)) with (@nil A).
  - cbn. apply filter_all. intros x Hx. apply negb_true_iff, existsb_false. intros g Hg. apply Z.eqb_neq. intros ->.
    apply (Hdis (f x)); [done|]. by apply list_elem_of_fmap_2.
  - symmetry. apply filter_none. intros x Hx.
    apply negb_false_iff, (existsb_true _ _ (f x)); [by apply list_elem_of_fmap_2|apply Z.eqb_refl].
Qed.

(** ** Ending grants *)

Definition entries_ok (s : AuthState) : Prop := ∀ e, e ∈ s_grants s → end_stored e.

Lemma grant_cells key g :
  1 <= raw (grant_issuer_key_version g) <= 4294967295 ∧ 1 <= len (raw (grant_profile g)) <= 32
  ∧ 1 <= wire_value (grant_harness g) <= 5 ∧ grant_row_checks (grant_row_of key g) = true.
Proof.
  pose proof (service_profile_length (grant_profile g)). pose proof (evidence_range (grant_evidence g)).
  pose proof (policy_version_range (grant_policy_version g)). pose proof (capabilities_range (grant_capabilities g)).
  pose proof (grant_times g).
  assert (1 <= raw (grant_issuer_key_version g) <= 4294967295) as Hv.
  { destruct (grant_issuer_key_version g) as [v Hv]. cbn [raw]. unfold issuer_key_version_ok, U32_MAX in Hv. bool_prop in Hv. lia. }
  assert (1 <= wire_value (grant_harness g) <= 5) as Hh by (destruct (grant_harness g); cbn; lia).
  repeat split; try lia. unfold grant_row_checks, grant_row_of.
  cbn [gr_issuer_key_version gr_profile_id gr_harness gr_evidence gr_policy_version gr_issued_at gr_expires_at
       gr_capabilities gr_state gr_terminal_generation gr_terminal_at is_none is_some_and].
  rewrite !andb_true_iff. repeat split; lia.
Qed.

Lemma ended_cells key g st generation at_ :
  st ≠ StateActive → 1 <= generation → grant_issued_at g <= at_ →
  grant_row_checks (terminalize (grant_state_code st) generation (fun _ => at_) (grant_row_of key g)) = true.
Proof.
  intros Hst Hgen Hat. destruct (grant_cells key g) as (_ & _ & _ & Hc). pose proof (grant_times g) as Ht.
  unfold grant_row_checks, terminalize, grant_row_of in *.
  cbn [gr_issuer_key_version gr_profile_id gr_harness gr_evidence gr_policy_version gr_issued_at gr_expires_at
       gr_capabilities gr_state gr_terminal_generation gr_terminal_at is_none is_some_and] in *.
  rewrite !andb_true_iff in *. destruct Hc as ((([] & _) & _) & _).
  assert (2 <= grant_state_code st <= 7) as Hcode by (destruct st; cbn; first [done|lia]).
  repeat split; try tauto; try lia. destruct (grant_state_code st =? 1) eqn:E; [lia|].
  rewrite !andb_true_iff. repeat split; lia.
Qed.

(** An update ends the grants it selects and keeps the others. *)
Lemma update_grants_of fingerprint s (p : GrantRow → bool) (q : GrantEntry → bool) st generation at_ at' :
  entries_ok s → st ≠ StateActive → 1 <= generation →
  (∀ e, e ∈ s_grants s → p (grant_row e) = q e) →
  (∀ e, e ∈ s_grants s → q e = true →
     entry_active e = true ∧ at_ (grant_row e) = at' e ∧ grant_issued_at (entry_grant e) <= at' e) →
  update_grants p (grant_state_code st) generation at_ (tables_of fingerprint s)
  = Ok (count q (s_grants s), tables_of fingerprint (end_where q st generation at' s)).
Proof.
  intros Hs Hst Hgen Hpq Hq. unfold update_grants, tables_of. cbn [t_grants t_grant_identifiers]. cbv zeta.
  assert (∀ e, e ∈ s_grants s → q e = true →
    terminalize (grant_state_code st) generation at_ (grant_row e)
    = grant_row (end_entry st generation at' e)) as Hrow.
  { intros e He Hqe. destruct (Hq e He Hqe) as (Ha & Hat & _). unfold entry_active in Ha.
    unfold grant_row in *. cbn [end_entry entry_end entry_key entry_grant].
    destruct (entry_end e) as [?|]; [done|]. unfold terminalize. by rewrite Hat. }
  pass_guard by (apply existsb_false; intros r (e & -> & He)%list_elem_of_fmap; rewrite Hpq by done;
    destruct (q e) eqn:Eq; [|done]; rewrite Hrow by done; cbn [andb]; apply negb_false_iff;
    unfold grant_row; cbn [end_entry entry_end entry_key entry_grant]; apply ended_cells; [done|done|by apply Hq]).
  f_equal. f_equal; [by apply count_encoded|]. unfold set_grants, end_where, with_grants. cbn. f_equal.
  unfold update_rows. rewrite <- !list_fmap_compose. apply list_fmap_ext. intros i e Hi%list_elem_of_lookup_2. cbn.
  rewrite Hpq by done. destruct (q e) eqn:Eq; [by apply Hrow|done].
Qed.

Lemma expire_grants_of fingerprint s now generation :
  entries_ok s → 0 <= now <= I64_MAX → 1 <= generation <= I64_MAX →
  expire_grants (tables_of fingerprint s) now generation
  = Ok (count (entry_expired now) (s_grants s), tables_of fingerprint (expire now generation s)).
Proof.
  intros Hs Hnow Hgen. unfold expire_grants. rewrite !to_sql_pass by lia. cbn [mbind result_bind].
  apply (update_grants_of _ _ _ _ StateExpired); [done|done|lia|..].
  - intros e He. unfold entry_expired. rewrite gr_state_of by auto. by destruct (gr_fields_of e) as [-> _].
  - intros e He Hq. unfold entry_expired in Hq. apply andb_true_iff in Hq as [Ha Hx]. pose proof (grant_times (entry_grant e)).
    repeat split; [done|]. lia.
Qed.

Lemma end_where_ok fingerprint s p q st now generation :
  entries_ok s → st ≠ StateActive → 0 <= now <= I64_MAX → 1 <= generation <= I64_MAX →
  (∀ e, e ∈ s_grants s → p (grant_row e) = q e) → (∀ e, q e = true → entry_active e = true) →
  update_grants p (grant_state_code st) generation (terminal_time now) (tables_of fingerprint s)
  = Ok (count q (s_grants s), tables_of fingerprint (end_where q st generation (end_time now) s)).
Proof.
  intros Hs Hst Hnow Hgen Hpq Ha. apply update_grants_of; [done|done|lia|done|].
  intros e He Hq. unfold terminal_time, end_time. destruct (gr_fields_of e) as (_ & -> & _).
  repeat split; [by apply Ha|lia].
Qed.

Lemma live_active now e : entry_live now e = true → entry_active e = true.
Proof. unfold entry_live. by intros [? _]%andb_true_iff. Qed.

Lemma issued_by_of id version e :
  bool_decide (gr_issuer_key_id (grant_row e) = id) && (gr_issuer_key_version (grant_row e) =? raw version)
  = issued_by id version e.
Proof. destruct (gr_fields_of e) as (_ & _ & _ & -> & -> & _). apply (key_cell_is (issuer_key (entry_grant e))). Qed.

Lemma terminalize_profile_of fingerprint s profile now generation :
  entries_ok s → 0 <= now <= I64_MAX → 1 <= generation <= I64_MAX →
  terminalize_profile_grants (tables_of fingerprint s) profile now generation
  = Ok (tables_of fingerprint
          (end_where (fun e => entry_live now e && bool_decide (grant_profile (entry_grant e) = profile))
             StateProfileSuspended generation (end_time now) s)).
Proof.
  intros Hs Hnow Hgen. unfold terminalize_profile_grants. rewrite (to_sql_pass generation) by lia. cbn [mbind result_bind].
  rewrite (to_sql_pass now) by lia. cbn [mbind result_bind].
  rewrite (end_where_ok _ _ _ (fun e => entry_live now e && bool_decide (grant_profile (entry_grant e) = profile))
             StateProfileSuspended); try done.
  - intros e He. rewrite (row_live_of s) by done. destruct (gr_fields_of e) as (_ & _ & -> & _). f_equal. apply profile_cell_is.
  - intros e [Hl _]%andb_true_iff. by apply (live_active now).
Qed.

Lemma terminalize_issuer_of fingerprint s id version now generation :
  entries_ok s → 0 <= now <= I64_MAX → 1 <= generation <= I64_MAX →
  terminalize_issuer_grants (tables_of fingerprint s) id version now generation
  = Ok (tables_of fingerprint (end_issuer id version now generation s)).
Proof.
  intros Hs Hnow Hgen. unfold terminalize_issuer_grants. rewrite (to_sql_pass generation) by lia. cbn [mbind result_bind].
  rewrite (to_sql_pass now) by lia. cbn [mbind result_bind].
  rewrite (end_where_ok _ _ _ (fun e => entry_live now e && issued_by id version e) StateIssuerDisabled); try done.
  - intros e He. rewrite (row_live_of s), <- andb_assoc by done. f_equal. apply issued_by_of.
  - intros e [Hl _]%andb_true_iff. by apply (live_active now).
Qed.

(** ** Operations on grants *)

(** The answer of a step, with the state encoded. *)
Definition encoded_step (fingerprint : bytes) (r : step_result) : store_result (bool * AuthTables) :=
  (fun x => (x.1, tables_of fingerprint x.2)) <$> r.

Lemma count_one {A K} `{EqDecision K} (f : A → K) (p : A → bool) (l : list A) x :
  NoDup (f <$> l) → x ∈ l → p x = true → count (fun y => bool_decide (f y = f x) && p y) l = 1.
Proof.
  intros Hnd Hx Hp. unfold count. induction l as [|y l IH]; [by apply not_elem_of_nil in Hx|].
  cbn in Hnd. apply NoDup_cons in Hnd as [Hy Hnd]. cbn [List.filter]. apply elem_of_cons in Hx as [<-|Hx].
  - rewrite bool_decide_eq_true_2, Hp by done. cbn. unfold len. cbn. rewrite filter_none; [done|].
    intros z Hz. rewrite bool_decide_eq_false_2; [done|]. intros Hfz. apply Hy. rewrite <- Hfz. by apply list_elem_of_fmap_2.
  - rewrite bool_decide_eq_false_2; [by apply IH|]. intros Hfy. apply Hy. rewrite Hfy. by apply list_elem_of_fmap_2.
Qed.

Lemma count_positive {A} (p : A → bool) (l : list A) : (0 <? count p l) = existsb p l.
Proof.
  unfold count, len. induction l as [|x l IH]; [done|]. cbn. destruct (p x); [done|]. exact IH.
Qed.

Lemma find_is {A K} `{EqDecision K} (f : A → K) (k : K) (l : list A) x :
  find (fun y => bool_decide (f y = k)) l = Some x → x ∈ l ∧ f x = k.
Proof. intros [H%list_elem_of_In Hk%bool_decide_eq_true]%find_some. done. Qed.

Lemma terminalize_exact_of fingerprint s id st now generation :
  entries_ok s → NoDup (entry_id <$> s_grants s) → st ≠ StateActive →
  0 <= now <= I64_MAX → 1 <= generation <= I64_MAX →
  terminalize_exact_grant (tables_of fingerprint s) id st now generation
  = encoded_step fingerprint (spec_terminalize id st now s generation).
Proof.
  intros Hs Hnd Hst Hnow Hgen. unfold terminalize_exact_grant, spec_terminalize. rewrite load_grant_by_id_of by done.
  cbn [mbind result_bind]. destruct (find _ _) as [e|] eqn:Ef; [|done]. cbn [fmap option_fmap option_map ok_or mbind result_bind].
  apply find_is in Ef as [He Hid].
  assert (negb (is_active (stored_of e)) || (grant_expires_at (stored_grant (stored_of e)) <=? now) = negb (entry_live now e)) as ->.
  { unfold is_active, stored_of, entry_live, entry_active. cbn [stored_state stored_grant].
    destruct (entry_end e) as [end_|] eqn:Ee.
    - destruct (Hs e He end_ Ee) as [Hne _]. by rewrite bool_decide_eq_false_2.
    - rewrite bool_decide_eq_true_2 by done. cbn. by rewrite Z.ltb_antisym, negb_involutive. }
  destruct (entry_live now e) eqn:El; [|done]. cbn [negb].
  rewrite (to_sql_pass generation) by lia. cbn [mbind result_bind]. rewrite (to_sql_pass now) by lia. cbn [mbind result_bind].
  rewrite (end_where_ok _ _ _ (fun e => bool_decide (entry_id e = id) && entry_active e) st); try done.
  - cbn [mbind result_bind fst snd]. subst id.
    rewrite (count_one entry_id entry_active) by (done || by apply (live_active now)). done.
  - intros x Hx. by rewrite gr_grant_id_of, gr_state_of by auto.
  - by intros x [_ ?]%andb_true_iff.
Qed.

Lemma spec_suspend_of fingerprint s profile now generation :
  entries_ok s → 0 <= now <= I64_MAX → 1 <= generation <= I64_MAX →
  suspend_operation profile now (tables_of fingerprint s) generation
  = encoded_step fingerprint (spec_suspend profile now s generation).
Proof.
  intros Hs Hnow Hgen. unfold suspend_operation, spec_suspend. rewrite is_profile_suspended_of.
  destruct (suspended s profile); [done|]. cbn [tables_of t_suspended]. rewrite len_encoded.
  destruct (MAX_SUSPENDED_PROFILES <=? _); [done|]. cbn [fail_if mbind result_bind]. cbv zeta.
  rewrite (sort_insert_encoded raw _ raw) by done.
  change (set_suspended (raw <$> ?l) _) with (tables_of fingerprint (with_suspended l s)).
  rewrite terminalize_profile_of by done. done.
Qed.

Lemma suspended_count s (profile : ServiceProfileId) :
  NoDup (s_suspended s) → (count (fun p => bool_decide (p = profile)) (s_suspended s) =? 1) = suspended s profile.
Proof.
  intros Hnd. unfold suspended. destruct (existsb _ _) eqn:E.
  - apply existsb_is in E. rewrite <- (list_fmap_id (s_suspended s)) in Hnd.
    pose proof (count_one id (fun _ => true) _ _ Hnd E eq_refl) as Hc.
    apply Z.eqb_eq. rewrite <- Hc. unfold count. f_equal. apply filter_ext_all. intros p. cbn. by rewrite andb_true_r.
  - apply Z.eqb_neq. rewrite count_all; [done|]. intros p Hp. apply bool_decide_eq_false_2. intros ->.
    apply existsb_is in Hp. congruence.
Qed.

Lemma spec_resume_of fingerprint s profile generation :
  NoDup (s_suspended s) →
  resume_operation profile (tables_of fingerprint s) generation
  = encoded_step fingerprint (spec_resume profile s generation).
Proof.
  intros Hnd. unfold resume_operation, spec_resume, encoded_step. cbn [tables_of t_suspended fmap result_fmap fst snd].
  rewrite (count_encoded raw _ (fun p => bool_decide (p = profile))) by (intros; apply profile_cell_is).
  rewrite suspended_count by done.
  rewrite (filter_encoded raw _ (fun p => negb (bool_decide (p = profile)))) by (intros; by rewrite profile_cell_is). done.
Qed.

(** ** Issuers *)

Lemma issuer_rows_count s id version i :
  NoDup (issuer_key_of <$> s_issuers s) → find_issuer_record s id version = Some i →
  count (issuer_row_is id version) (issuer_row <$> s_issuers s) = 1.
Proof.
  intros Hnd Hi. apply find_is in Hi as [Hin Hk].
  rewrite (count_encoded issuer_row _ (fun j => bool_decide (issuer_key_of j = issuer_key_of i) && true)).
  - by apply (count_one issuer_key_of (fun _ => true)).
  - intros j _. by rewrite issuer_row_is_of, Hk, andb_true_r.
Qed.

Lemma spec_set_issuer_of fingerprint s id version availability disposition now generation :
  entries_ok s → NoDup (issuer_key_of <$> s_issuers s) → 0 <= now <= I64_MAX → 1 <= generation <= I64_MAX →
  set_issuer_operation id version availability disposition now (tables_of fingerprint s) generation
  = encoded_step fingerprint (spec_set_issuer id version availability disposition now s generation).
Proof.
  intros Hs Hnd Hnow Hgen. unfold set_issuer_operation, spec_set_issuer. rewrite load_issuer_of. cbn [mbind result_bind].
  destruct (find_issuer_record s id version) as [i|] eqn:Ei; [|done]. cbn [ok_or mbind result_bind].
  destruct (bool_decide (issuer_availability i = availability) && _); [done|].
  cbn [tables_of t_issuers]. rewrite (issuer_rows_count _ _ _ i) by done. rewrite (fail_if_pass (negb _)) by done.
  cbn [mbind result_bind]. cbv zeta.
  set (s' := with_issuers _ _ s).
  assert (set_issuers (t_issuer_identifiers (tables_of fingerprint s))
            ((fun row => if issuer_row_is id version row then set_issuer_row availability disposition row else row)
               <$> (issuer_row <$> s_issuers s)) (tables_of fingerprint s) = tables_of fingerprint s') as Htab.
  { unfold set_issuers, s', with_issuers, tables_of. cbn. f_equal. rewrite <- !list_fmap_compose.
    apply list_fmap_ext. intros k j _. cbn. rewrite issuer_row_is_of. by destruct (bool_decide _). }
  change (t_issuer_identifiers (mk_AuthTables _ _ _ _ ?x _ _ _ _ _ _ _)) with x in *.
  match goal with |- context [set_issuers ?a ?b ?c] => change (set_issuers a b c) with
    (set_issuers (t_issuer_identifiers (tables_of fingerprint s)) b (tables_of fingerprint s)) end.
  rewrite Htab. destruct (bool_decide (availability = Disabled) && _).
  - by rewrite terminalize_issuer_of.
  - done.
Qed.

Lemma key_cell_inj : Inj (=) (=) key_cell.
Proof. intros [i v] [j w]. cbn. intros [= -> Hv]. apply raw_inj in Hv as ->. done. Qed.

Lemma spec_insert_issuer_of fingerprint s i :
  existsb (fun k => bool_decide (k = issuer_key_of (new_issuer i))) (s_issuer_ids s) = false →
  (∀ j, j ∈ s_issuers s → issuer_key_of j ∈ s_issuer_ids s) →
  insert_issuer (tables_of fingerprint s) i = Ok (tables_of fingerprint (add_issuer i s)).
Proof.
  intros Hfresh Hsub. unfold insert_issuer. cbv zeta. rewrite issuer_identifier_exists_of.
  change (existsb _ (s_issuer_ids s)) with (existsb (fun k => bool_decide (k = issuer_key_of (new_issuer i))) (s_issuer_ids s)).
  rewrite Hfresh. cbn [fail_if mbind result_bind].
  change (t_issuers (tables_of fingerprint s)) with (issuer_row <$> s_issuers s).
  rewrite (existsb_encoded issuer_row _ (fun j => bool_decide (issuer_key_of j = issuer_key_of (new_issuer i))))
    by (intros; apply issuer_row_is_of).
  pass_guard by (apply existsb_false; intros j Hj; apply bool_decide_eq_false_2; intros Hk; apply Hsub in Hj;
    rewrite Hk in Hj; apply existsb_is in Hj; congruence).
  unfold set_issuers, add_issuer, with_issuers, tables_of. cbn. do 2 f_equal.
  - apply (sort_insert_encoded key_cell (fun x => x) key_cell key_compare (issuer_key_of (new_issuer i))). done.
  - apply (sort_insert_encoded issuer_row issuer_row_key (fun r => key_cell (issuer_key_of r)) key_compare (new_issuer i)). done.
Qed.

Lemma spec_register_issuer_of fingerprint s i generation :
  (∀ j, j ∈ s_issuers s → issuer_key_of j ∈ s_issuer_ids s) →
  register_issuer_operation i (tables_of fingerprint s) generation
  = encoded_step fingerprint (spec_register_issuer i s generation).
Proof.
  intros Hsub. unfold register_issuer_operation, spec_register_issuer. cbv zeta. rewrite issuer_identifier_exists_of.
  change (existsb (fun k => bool_decide (k = (installed_key_id i, _))) (s_issuer_ids s))
    with (existsb (fun k => bool_decide (k = issuer_key_of (new_issuer i))) (s_issuer_ids s)).
  destruct (existsb _ (s_issuer_ids s)) eqn:Efresh; [done|]. cbn [fail_if mbind result_bind].
  cbn [tables_of t_issuer_identifiers]. rewrite len_encoded. destruct (MAX_ADAPTER_REGISTRATIONS <=? _); [done|].
  cbn [fail_if mbind result_bind]. 
  match goal with |- _ = encoded_step _ (fail_if (existsb ?q _) _ ≫= _) => rewrite (existsb_encoded key_cell _ q) end.
  2: done.
  change (mk_AuthTables _ _ _ _ _ _ _ _ _ _ _ _) with (tables_of fingerprint s).
  rewrite spec_insert_issuer_of; [|exact Efresh|exact Hsub]. match goal with |- fail_if ?b _ ≫= _ = _ => by destruct b end.
Qed.

Lemma spec_remove_issuer_of fingerprint s id version disposition now generation :
  entries_ok s → NoDup (issuer_key_of <$> s_issuers s) → 0 <= now <= I64_MAX → 1 <= generation <= I64_MAX →
  remove_issuer_operation id version disposition now (tables_of fingerprint s) generation
  = encoded_step fingerprint (spec_remove_issuer id version disposition now s generation).
Proof.
  intros Hs Hnd Hnow Hgen. unfold remove_issuer_operation, spec_remove_issuer. rewrite load_issuer_of. cbn [mbind result_bind].
  destruct (find_issuer_record s id version) as [i|] eqn:Ei; cbn [is_none].
  2: { rewrite issuer_identifier_exists_of. by destruct (existsb _ _). }
  unfold count_active_issuer_grants. rewrite (to_sql_pass now) by lia. cbn [mbind result_bind].
  change (t_grants (tables_of fingerprint s)) with (grant_row <$> s_grants s).
  rewrite (count_encoded grant_row _ (fun e => entry_live now e && issued_by id version e)).
  2: { intros e He. rewrite (row_live_of s), <- andb_assoc by done. f_equal. apply issued_by_of. }
  set (live := fun e => entry_live now e && issued_by id version e).
  assert ((0 <? count live (s_grants s)) = existsb live (s_grants s)) as -> by apply count_positive.
  assert (∀ s', s_issuers s' = s_issuers s → s_issuer_ids s' = s_issuer_ids s →
    tables_of fingerprint s' = set_grants (s_grant_ids s) (grant_row <$> s_grants s') (tables_of fingerprint s) →
    List.filter (fun e => negb (issued_by id version e)) (s_grants s')
      = List.filter (fun e => negb (issued_by id version e)) (s_grants s) →
    (let db := set_grants (t_grant_identifiers (tables_of fingerprint s'))
       (List.filter (fun row => negb (bool_decide (gr_issuer_key_id row = id) && (gr_issuer_key_version row =? raw version)))
          (t_grants (tables_of fingerprint s'))) (tables_of fingerprint s') in
     db ← delete_issuer db id version; Ok (true, db))
    = encoded_step fingerprint (Ok (true, with_issuers (s_issuer_ids s)
        (List.filter (fun i => negb (bool_decide (issuer_key_of i = (id, version)))) (s_issuers s))
        (with_grants (s_grant_ids s) (List.filter (fun e => negb (issued_by id version e)) (s_grants s)) s)))) as Hdel.
  { intros s' Hi Hids Htab Hf. cbv zeta. change (t_grants (tables_of fingerprint s')) with (grant_row <$> s_grants s').
    rewrite (filter_encoded grant_row _ (fun e => negb (issued_by id version e))) by (intros; by rewrite issued_by_of).
    rewrite Hf, Htab. unfold delete_issuer. cbn [set_grants tables_of t_grants t_issuers t_grant_identifiers t_issuer_identifiers].
    pass_guard by (apply existsb_false; intros r (e & -> & [_ He]%list_elem_of_In%filter_In)%list_elem_of_fmap;
      rewrite issued_by_of; by apply negb_true_iff in He).
    rewrite (issuer_rows_count _ _ _ i) by done. rewrite (fail_if_pass (negb _)) by done. cbn [mbind result_bind].
    rewrite (filter_encoded issuer_row _ (fun i => negb (bool_decide (issuer_key_of i = (id, version)))))
      by (intros; by rewrite issuer_row_is_of). done. }
  destruct (existsb live (s_grants s)) eqn:Elive; cbn [andb].
  - destruct (bool_decide (disposition = RetainUntilExpiry)) eqn:Ed; [done|].
    rewrite terminalize_issuer_of by done. cbn [mbind result_bind fail_if]. apply Hdel; [done..|].
    unfold end_issuer, end_where. cbn [with_grants s_grants]. fold live.
    rewrite (filter_encoded _ _ (fun e => negb (issued_by id version e))) by (intros e _; cbv beta; by destruct (entry_live now e && _)).
    rewrite <- (list_fmap_id (List.filter _ (s_grants s))) at 2. apply list_fmap_ext.
    intros k e [_ He%negb_true_iff]%list_elem_of_lookup_2%list_elem_of_In%filter_In. cbn. by rewrite He, andb_false_r.
  - cbn [mbind result_bind fail_if]. by apply Hdel.
Qed.

(** ** The policy *)

Lemma with_grants_same s : with_grants (s_grant_ids s) (s_grants s) s = s.
Proof. by destruct s. Qed.

Lemma end_where_agree p q st generation at_ s :
  (∀ e, e ∈ s_grants s → p e = q e) → end_where p st generation at_ s = end_where q st generation at_ s.
Proof.
  intros H. unfold end_where. f_equal. apply list_fmap_ext. intros k e He%list_elem_of_lookup_2. cbn. by rewrite H.
Qed.

Lemma end_where_none p st generation at_ s :
  (∀ e, e ∈ s_grants s → p e = false) → end_where p st generation at_ s = s.
Proof.
  intros H. unfold end_where. transitivity (with_grants (s_grant_ids s) (s_grants s) s); [|apply with_grants_same]. f_equal.
  rewrite <- list_fmap_id. apply list_fmap_ext. intros k e He%list_elem_of_lookup_2. cbn. by rewrite H.
Qed.

Lemma end_where_entries p st generation now s :
  entries_ok s → st ≠ StateActive → 1 <= generation → entries_ok (end_where p st generation (end_time now) s).
Proof.
  intros Hs Hst Hgen e (x & -> & Hx)%list_elem_of_fmap. destruct (p x); [|by apply Hs].
  intros end_ [= <-]. cbn. repeat split; [done|lia|unfold end_time; lia].
Qed.

Lemma end_where_ids p st generation at_ s : entry_id <$> s_grants (end_where p st generation at_ s) = entry_id <$> s_grants s.
Proof.
  unfold end_where. cbn [with_grants s_grants]. rewrite <- list_fmap_compose. apply list_fmap_ext.
  intros k e _. cbn. by destruct (p e).
Qed.

(** The grants of a list that a policy refuses. *)
Definition refused_in (policy : AuthorizationPolicy) (l : list GrantEntry) (e : GrantEntry) : bool :=
  existsb (fun x => bool_decide (entry_id x = entry_id e) && negb (policy_accepts policy (grant_evidence (entry_grant x)))) l
  && entry_active e.

Lemma policy_rows_of fingerprint policy now generation l : ∀ s,
  entries_ok s → NoDup (entry_id <$> s_grants s) → 0 <= now <= I64_MAX → 1 <= generation <= I64_MAX →
  (∀ e, e ∈ l → e ∈ s_grants s ∧ entry_active e = true) → NoDup (entry_id <$> l) →
  terminalize_policy_rows policy now generation ((fun e => (entry_id e, raw (grant_evidence (entry_grant e)))) <$> l)
    (tables_of fingerprint s)
  = Ok (tables_of fingerprint (end_where (refused_in policy l) StatePolicyInvalid generation (end_time now) s)).
Proof.
  induction l as [|x l IH]; intros s Hs Hnd Hnow Hgen Hin Hl.
  { cbn [fmap list_fmap terminalize_policy_rows]. by rewrite end_where_none. }
  cbn [fmap list_fmap terminalize_policy_rows]. rewrite decode_evidence_raw. cbn [mbind result_bind].
  change (list_fmap _ _ ?f l) with (f <$> l).
  apply NoDup_cons in Hl as [Hx Hl]. destruct (Hin x ltac:(left)) as [Hxin Hxa].
  destruct (policy_accepts policy (grant_evidence (entry_grant x))) eqn:Eacc.
  { rewrite IH by (done || set_solver). do 2 f_equal. apply end_where_agree. intros e _. unfold refused_in. cbn [existsb].
    by rewrite Eacc, andb_false_r. }
  rewrite (to_sql_pass generation) by lia. cbn [mbind result_bind]. rewrite (to_sql_pass now) by lia. cbn [mbind result_bind].
  set (q := fun e => bool_decide (entry_id e = entry_id x) && entry_active e).
  rewrite (end_where_ok _ _ _ q StatePolicyInvalid); [|done|done|done|done| |by intros e [_ ?]%andb_true_iff].
  2: { intros e He. unfold q. by rewrite gr_grant_id_of, gr_state_of by auto. }
  cbn [mbind result_bind fst snd]. assert (count q (s_grants s) = 1) as -> by (by apply (count_one entry_id entry_active)).
  rewrite (fail_if_pass (negb _)) by done. cbn [mbind result_bind].
  rewrite IH; [|by apply end_where_entries; [..|lia]|by rewrite end_where_ids|done|done| |done].
  - do 2 f_equal. unfold end_where. cbn [with_grants s_grants s_grant_ids]. unfold with_grants. cbn. f_equal.
    rewrite <- list_fmap_compose. apply list_fmap_ext. intros k e He. cbn. unfold q, refused_in. cbn [existsb].
    rewrite Eacc. cbn [negb]. rewrite andb_true_r, (bool_decide_ext (entry_id e = entry_id x) (entry_id x = entry_id e)) by naive_solver.
    destruct (bool_decide (entry_id x = entry_id e)) eqn:Ex; cbn [andb orb]; [|done].
    destruct (entry_active e) eqn:Ea; [|by rewrite Ea, andb_false_r].
    change (entry_active (end_entry _ _ _ _)) with false. by rewrite andb_false_r.
  - intros e He. destruct (Hin e ltac:(by right)) as [Hein Hea]. split; [|done].
    apply list_elem_of_fmap. exists e. split; [|done]. unfold q. rewrite bool_decide_eq_false_2; [done|].
    intros Hid. apply Hx. rewrite <- Hid. by apply list_elem_of_fmap_2.
Qed.

Lemma refused_live policy now l e :
  NoDup (entry_id <$> l) → e ∈ l →
  refused_in policy (List.filter (entry_live now) l) e
  = entry_live now e && negb (policy_accepts policy (grant_evidence (entry_grant e))).
Proof.
  intros Hnd He. unfold refused_in. apply eq_true_iff_eq. rewrite !andb_true_iff, existsb_exists. split.
  - intros [(x & [Hx%list_elem_of_In Hl]%filter_In & [Hid%bool_decide_eq_true Hacc]%andb_true_iff) _].
    by rewrite <- (elem_unique entry_id l x e).
  - intros [Hl Hacc]. split; [|by apply (live_active now)]. exists e. split.
    + apply filter_In. by rewrite <- list_elem_of_In.
    + apply andb_true_iff. by rewrite bool_decide_eq_true_2.
Qed.

Lemma spec_replace_policy_of fingerprint s policy now generation :
  entries_ok s → NoDup (entry_id <$> s_grants s) → count (entry_live now) (s_grants s) <= MAX_SESSION_GRANTS →
  0 <= now <= I64_MAX → 1 <= generation <= I64_MAX →
  replace_policy_operation policy now (tables_of fingerprint s) generation
  = encoded_step fingerprint (spec_replace_policy policy now s generation).
Proof.
  intros Hs Hnd Hq Hnow Hgen. unfold replace_policy_operation, spec_replace_policy. rewrite load_policy_of. cbn [mbind result_bind].
  destruct (raw (policy_version policy) <=? _); [done|]. cbn [fail_if mbind result_bind].
  unfold replace_policy_rows. destruct (policy_parts policy) as [Hlen _].
  pass_guard by (unfold MAX_POLICY_CLAUSES; lia).
  destruct (to_sql (raw (policy_version policy))) as [v|e] eqn:Ev; [|done]. cbn [mbind result_bind].
  assert (v = raw (policy_version policy)) as ->.
  { unfold to_sql in Ev. destruct (_ <=? _); [|done]. by injection Ev. }
  change (set_policy _ _ _) with (tables_of fingerprint (with_policy policy s)).
  unfold terminalize_policy_invalid_grants. rewrite (to_sql_pass now) by lia. cbn [mbind result_bind]. cbv zeta.
  change (t_grants _) with (grant_row <$> s_grants s).
  rewrite (filter_encoded grant_row _ (entry_live now)) by (intros; by apply (row_live_of s)).
  rewrite <- list_fmap_compose. unfold count, MAX_SESSION_GRANTS in *.
  rewrite take_all_len by (rewrite len_encoded; lia). rewrite len_encoded. pass_guard by lia.
  assert (((fun row => (gr_grant_id row, gr_evidence row)) ∘ grant_row <$> List.filter (entry_live now) (s_grants s))
          = ((fun e => (entry_id e, raw (grant_evidence (entry_grant e)))) <$> List.filter (entry_live now) (s_grants s))) as ->.
  { apply list_fmap_ext. intros k e _. cbn. rewrite gr_grant_id_of. by destruct (gr_fields_of e) as (_ & _ & _ & _ & _ & -> & _). }
  rewrite policy_rows_of; [|done|done|done|done| |].
  - cbn [mbind result_bind]. unfold encoded_step. cbn [fmap result_fmap fst snd]. do 3 f_equal. apply end_where_agree.
    intros e He. by apply refused_live.
  - intros e [He%list_elem_of_In Hl]%list_elem_of_In%filter_In. split; [done|by apply (live_active now)].
  - by apply NoDup_fmap_filtered.
Qed.

(** ** Committing *)

(** The audit log before a commit: it ends at an earlier generation. *)
Definition log_before (generation : Z) (l : list AuthorizationAuditEvent) : Prop :=
  NoDup (audit_generation <$> l) ∧ ∀ e, e ∈ l → audit_generation e < generation.

Lemma commit_generation_of fingerprint s generation kind now :
  log_before generation (s_audit s) → 1 <= generation <= I64_MAX → 0 <= now <= I64_MAX →
  commit_generation (tables_of fingerprint s) generation kind now
  = Ok (tables_of fingerprint (with_audit generation (s_audit s ++ [mk_AuditEvent generation kind now]) s)).
Proof.
  intros [_ Hlt] Hgen Hnow. unfold commit_generation. rewrite !to_sql_pass by lia. cbn [mbind result_bind].
  change (t_audit (tables_of fingerprint s)) with (audit_row <$> s_audit s).
  pass_guard by (apply existsb_false; intros r (e & -> & He)%list_elem_of_fmap; apply Z.eqb_neq; pose proof (Hlt e He); cbn; lia).
  rewrite sort_insert_last.
  - unfold set_audit, set_generation, with_audit, tables_of. cbn. do 2 f_equal. by rewrite fmap_app.
  - intros r (e & -> & He)%list_elem_of_fmap. pose proof (Hlt e He). cbn. apply Z.compare_gt_iff. lia.
Qed.

Lemma prune_grant_rows s :
  entries_ok s →
  List.filter (fun row => negb (negb (gr_state row =? 1)
      && existsb (fun id => bool_decide (id = gr_grant_id row))
           (gr_grant_id <$> drop (Z.to_nat MAX_TERMINAL_GRANT_RECORDS)
              (sort_by prune_key prune_compare (List.filter (fun row => negb (gr_state row =? 1)) (grant_row <$> s_grants s))))))
    (grant_row <$> s_grants s)
  = grant_row <$> prune_grants (s_grants s).
Proof.
  intros Hs. unfold prune_grants. apply filter_encoded. intros e He. rewrite gr_state_of by auto.
  rewrite negb_andb, negb_involutive. f_equal. f_equal. rewrite gr_grant_id_of.
  rewrite (filter_encoded grant_row _ (fun e => negb (entry_active e))) by (intros x Hx; by rewrite gr_state_of by auto).
  rewrite sort_by_fmap, <- fmap_drop, <- list_fmap_compose. unfold pruned_ids.
  rewrite (sort_by_key_agree (prune_key ∘ grant_row) entry_prune_key).
  - f_equal. apply list_fmap_ext. intros k x _. apply gr_grant_id_of.
  - intros x. unfold prune_key, entry_prune_key. cbn. rewrite gr_grant_id_of.
    by destruct (gr_fields_of x) as (_ & _ & _ & _ & _ & _ & _ & _ & ->).
Qed.

Lemma prune_of fingerprint s :
  entries_ok s → NoDup (audit_generation <$> s_audit s) →
  prune_bounded_history (tables_of fingerprint s)
  = tables_of fingerprint
      (with_audit (s_generation s) (drop (length (s_audit s) - Z.to_nat MAX_AUTHORIZATION_AUDIT_RECORDS) (s_audit s))
         (with_grants (s_grant_ids s) (prune_grants (s_grants s)) s)).
Proof.
  intros Hs Hnd. unfold prune_bounded_history. cbv zeta.
  change (t_grants (tables_of fingerprint s)) with (grant_row <$> s_grants s).
  rewrite prune_grant_rows by done. unfold set_grants, set_audit, with_audit, with_grants, tables_of.
  cbn [t_fingerprint t_generation t_policy_version t_clauses t_issuer_identifiers t_issuers t_suspended t_grant_identifiers
       t_grants t_credential_identifiers t_credential t_audit s_generation s_policy s_issuer_ids s_issuers s_suspended
       s_grant_ids s_grants s_credential_ids s_credential s_audit]. f_equal.
  rewrite <- fmap_reverse, <- fmap_drop. change (Z.to_nat MAX_AUTHORIZATION_AUDIT_RECORDS) with 256%nat.
  rewrite <- list_fmap_compose.
  set (k := (length (s_audit s) - 256)%nat).
  rewrite (filter_encoded audit_row _ (fun e => negb (existsb (fun g => g =? audit_generation e)
             (audit_generation <$> take k (s_audit s))))).
  - by rewrite filter_after_prefix.
  - intros e He. f_equal.
    transitivity (existsb (fun g => g =? audit_generation e) (reverse (audit_generation <$> take k (s_audit s)))).
    { unfold k. rewrite <- fmap_reverse, <- drop_reverse. done. }
    apply eq_true_iff_eq. rewrite !existsb_exists.
    split; intros (x & Hx%list_elem_of_In & Heq); exists x; (split; [apply list_elem_of_In|done]); by apply elem_of_reverse.
Qed.

(** A commit and the pruning after it. *)
Lemma commit_of fingerprint s generation kind now :
  entries_ok s → log_before generation (s_audit s) → 1 <= generation <= I64_MAX → 0 <= now <= I64_MAX →
  ∃ db, commit_generation (tables_of fingerprint s) generation kind now = Ok db
        ∧ prune_bounded_history db = tables_of fingerprint (commit generation kind now s).
Proof.
  intros Hs Hlog Hgen Hnow. eexists. split; [by apply commit_generation_of|]. rewrite prune_of; [done|done|].
  cbn [with_audit s_audit]. rewrite fmap_app. apply NoDup_app. destruct Hlog as [Hnd Hlt]. split; [done|split].
  - intros g (e & -> & He)%list_elem_of_fmap. cbn. rewrite list_elem_of_singleton. pose proof (Hlt e He). lia.
  - apply NoDup_singleton.
Qed.

(** ** Credentials *)

Section credential_steps.
Context `{Sha256} `{WebAuthnDocuments}.

Lemma credential_digest_length c : credential_valid c → length (credential_digest c) = 32%nat.
Proof.
  unfold credential_valid, from_document. intros Hc. inv_ok. destruct r0 as [[version provider] cid]. inv_ok.
  rewrite <- Hc. apply sha256_length.
Qed.

Lemma reserve_digest_of fingerprint s c :
  credential_valid c →
  reserve_user_presence_credential_identifier (tables_of fingerprint s) (credential_digest c)
  = (fun ids => tables_of fingerprint (with_credential ids (s_credential s) s)) <$> spec_reserve_digest (credential_digest c) s.
Proof.
  intros Hc. unfold reserve_user_presence_credential_identifier, spec_reserve_digest, user_presence_credential_identifier_exists.
  change (t_credential_identifiers (tables_of fingerprint s)) with (s_credential_ids s).
  destruct (existsb _ _); [done|]. cbn [fail_if mbind result_bind].
  destruct (MAX_USER_PRESENCE_CREDENTIAL_IDENTIFIERS <=? _); [done|]. cbn [fail_if mbind result_bind].
  pass_guard by (unfold len; by rewrite credential_digest_length). done.
Qed.

Lemma reserved_digest s c ids :
  spec_reserve_digest (credential_digest c) s = Ok ids → credential_digest c ∈ ids.
Proof. unfold spec_reserve_digest. intros Hi. inv_ok. rewrite <- Hi, sort_insert_perm. left. Qed.

Lemma credential_accepted fingerprint s c :
  credential_valid c → credential_digest c ∈ s_credential_ids s → credential_refused (tables_of fingerprint s) c = false.
Proof.
  intros Hc Hin. unfold credential_refused, user_presence_credential_identifier_exists. rewrite credential_cells by done.
  cbn [negb orb]. apply negb_false_iff. by apply existsb_is.
Qed.

Lemma spec_register_credential_of fingerprint s c generation :
  (∀ c, s_credential s = Some c → credential_valid c) → credential_valid c →
  register_credential_operation c (tables_of fingerprint s) generation
  = encoded_step fingerprint (spec_register_credential c s generation).
Proof.
  intros Hold Hc. unfold register_credential_operation, spec_register_credential. rewrite load_credential_of by done.
  cbn [mbind result_bind]. destruct (s_credential s) as [existing|] eqn:Ec; [by destruct (bool_decide _)|].
  rewrite reserve_digest_of by done. destruct (spec_reserve_digest _ _) as [ids|e] eqn:Er; [|done].
  cbn [fmap result_fmap mbind result_bind]. unfold insert_user_presence_credential.
  rewrite (fail_if_pass (is_some _ || _)).
  - cbn [mbind result_bind]. done.
  - apply orb_false_iff. split; [by cbn; rewrite Ec|]. apply credential_accepted; [done|].
    cbn [with_credential s_credential_ids]. by apply (reserved_digest s).
Qed.

Lemma update_credential_of fingerprint s c :
  is_Some (s_credential s) → credential_valid c → credential_digest c ∈ s_credential_ids s →
  update_credential_row (tables_of fingerprint s) c = Ok (tables_of fingerprint (with_credential (s_credential_ids s) (Some c) s)).
Proof.
  intros [old Hold] Hc Hin. unfold update_credential_row.
  replace (t_credential (tables_of fingerprint s)) with (Some (credential_row_of old)) by (cbn; by rewrite Hold).
  rewrite credential_accepted by done. done.
Qed.

Lemma spec_replace_credential_of fingerprint s expected c generation :
  (∀ c, s_credential s = Some c → credential_valid c) → credential_valid c →
  replace_credential_operation expected c (tables_of fingerprint s) generation
  = encoded_step fingerprint (spec_replace_credential expected c s generation).
Proof.
  intros Hold Hc. unfold replace_credential_operation, spec_replace_credential. rewrite load_credential_of by done.
  cbn [mbind result_bind]. destruct (s_credential s) as [existing|] eqn:Ec; [|done]. cbn [ok_or mbind result_bind].
  destruct (bool_decide (credential_digest existing ≠ expected)); [done|]. cbn [fail_if mbind result_bind].
  destruct (bool_decide (existing = c)); [done|].
  destruct (bool_decide (credential_digest c = expected)); [done|]. cbn [fail_if mbind result_bind].
  rewrite reserve_digest_of by done. destruct (spec_reserve_digest _ _) as [ids|e] eqn:Er; [|done].
  cbn [fmap result_fmap mbind result_bind]. rewrite update_credential_of; [done| |done|].
  - cbn. by rewrite Ec.
  - cbn [with_credential s_credential_ids]. by apply (reserved_digest s).
Qed.

Lemma spec_advance_credential_of fingerprint s expected updated generation :
  (∀ c, s_credential s = Some c → credential_valid c ∧ credential_digest c ∈ s_credential_ids s) → credential_valid updated →
  advance_user_presence_credential (tables_of fingerprint s) expected updated
  = encoded_step fingerprint (spec_advance_credential expected updated s generation).
Proof.
  intros Hold Hc. unfold advance_user_presence_credential, spec_advance_credential.
  rewrite load_credential_of by (intros; by apply Hold).
  cbn [mbind result_bind]. destruct (s_credential s) as [existing|] eqn:Ec; [|done]. cbn [ok_or mbind result_bind].
  destruct (bool_decide (existing ≠ expected) || _ || _ || _) eqn:Eg; [done|]. cbn [fail_if mbind result_bind].
  destruct (bool_decide (existing = updated)); [done|]. rewrite update_credential_of; [done|by rewrite Ec|done|].
  bool_prop in Eg. destruct Eg as [[[E1 E2] _] _]. apply dec_stable in E1 as ->. apply dec_stable in E2 as <-.
  by apply Hold.
Qed.

Lemma spec_remove_credential_of fingerprint s expected generation :
  (∀ c, s_credential s = Some c → credential_valid c) →
  remove_credential_operation expected (tables_of fingerprint s) generation
  = encoded_step fingerprint (spec_remove_credential expected s generation).
Proof.
  intros Hold. unfold remove_credential_operation, spec_remove_credential. rewrite load_credential_of by done.
  cbn [mbind result_bind]. destruct (s_credential s) as [existing|] eqn:Ec.
  - by destruct (bool_decide _).
  - unfold user_presence_credential_identifier_exists. change (t_credential_identifiers _) with (s_credential_ids s).
    by destruct (existsb _ _).
Qed.

End credential_steps.

(** ** Authority *)

Lemma authority_of fingerprint s candidate :
  validate_grant_authority (tables_of fingerprint s) candidate = spec_authority candidate s.
Proof.
  unfold validate_grant_authority, spec_authority. rewrite is_profile_suspended_of.
  destruct (suspended s _); [done|]. cbn [fail_if mbind result_bind]. rewrite load_issuer_of. cbn [mbind result_bind].
  destruct (find_issuer_record s _ _) as [i|]; [|done]. cbn [ok_or mbind result_bind].
  destruct (bool_decide (issuer_availability i = Disabled)); [done|]. cbn [fail_if mbind result_bind].
  rewrite load_policy_of. unfold harness_allowed. rewrite negb_orb. done.
Qed.

Lemma capacity_of fingerprint s candidate now :
  entries_ok s →
  enforce_grant_capacity (tables_of fingerprint s) candidate now
  = (to_sql now;; fail_if (grants_full (live_grants now s) candidate) AuthCapacity).
Proof.
  intros Hs. unfold enforce_grant_capacity. destruct (to_sql now) as [now'|e] eqn:En; [|done]. cbn [mbind result_bind].
  assert (now' = now) as ->. { unfold to_sql in En. destruct (_ <=? _); [|done]. by injection En. }
  change (t_grants (tables_of fingerprint s)) with (grant_row <$> s_grants s). cbv zeta.
  rewrite (filter_encoded grant_row _ (entry_live now)) by (intros; by apply (row_live_of s)).
  unfold grants_full, live_grants. rewrite !len_encoded.
  rewrite (count_encoded grant_row _ (fun e => bool_decide (grant_issuer_key_id (entry_grant e) = grant_issuer_key_id candidate)))
    by (intros e _; by destruct (gr_fields_of e) as (_ & _ & _ & -> & _)).
  rewrite (count_encoded grant_row _ (fun e => bool_decide (grant_profile (entry_grant e) = grant_profile candidate)))
    by (intros e _; destruct (gr_fields_of e) as (_ & _ & -> & _); apply profile_cell_is).
  rewrite (count_encoded entry_grant _ (fun e => bool_decide (grant_issuer_key_id (entry_grant e) = grant_issuer_key_id candidate))) by done.
  rewrite (count_encoded entry_grant _ (fun e => bool_decide (grant_profile (entry_grant e) = grant_profile candidate))) by done.
  done.
Qed.

(** The rows of a new grant. *)
Lemma add_grant_of fingerprint s key g :
  grant_id g ∉ s_grant_ids s → (∀ e, e ∈ s_grants s → entry_id e ∈ s_grant_ids s) →
  find (issued_for (grant_issuer_key_id g) (grant_issuer_key_version g) key) (s_grants s) = None →
  is_Some (find_issuer_record s (grant_issuer_key_id g) (grant_issuer_key_version g)) →
  raw (grant_policy_version g) <= I64_MAX → grant_issued_at g <= I64_MAX →
  (db ← reserve_grant_identifier (tables_of fingerprint s) (grant_id g); insert_grant db key g)
  = (to_sql (grant_expires_at g);; Ok (tables_of fingerprint (add_grant key g s))).
Proof.
  intros Hfresh Hsub Hreq [i Hi] Hpv Hat. unfold reserve_grant_identifier, grant_identifier_exists.
  change (t_grant_identifiers (tables_of fingerprint s)) with (s_grant_ids s).
  pass_guard by (apply not_true_is_false; by intros ?%existsb_is).
  unfold insert_grant. rewrite (to_sql_pass (raw (grant_policy_version g))) by done. cbn [mbind result_bind].
  rewrite (to_sql_pass (grant_issued_at g)) by done. cbn [mbind result_bind].
  destruct (to_sql (grant_expires_at g)) as [?|?]; [|done]. cbn [mbind result_bind].
  rewrite (to_sql_pass (raw (grant_capabilities g))) by (pose proof (capabilities_range (grant_capabilities g)); unfold I64_MAX; lia).
  cbn [mbind result_bind]. cbv zeta.
  change (t_grants (set_grants _ _ _)) with (grant_row <$> s_grants s).
  change (t_issuers (set_grants _ _ _)) with (issuer_row <$> s_issuers s).
  destruct (grant_cells key g) as (_ & _ & _ & ->).
  rewrite (fail_if_pass (_ || _)).
  - cbn [mbind result_bind]. unfold set_grants, add_grant, with_grants, tables_of. cbn. do 2 f_equal.
    apply (sort_insert_encoded grant_row gr_grant_id entry_id array_compare (mk_GrantEntry key g None)), gr_grant_id_of.
  - cbn [negb orb]. rewrite !orb_false_iff. repeat split.
    + apply existsb_false. intros r (e & -> & He)%list_elem_of_fmap. apply bool_decide_eq_false_2. rewrite gr_grant_id_of.
      intros Hid. apply Hfresh. rewrite <- Hid. auto.
    + apply existsb_false. intros r (e & -> & He)%list_elem_of_fmap. rewrite row_issued_for_of.
      by apply (find_none _ _ Hreq), list_elem_of_In.
    + apply negb_false_iff. unfold grant_identifier_exists. cbn [set_grants t_grant_identifiers]. apply existsb_is.
      rewrite sort_insert_perm. left.
    + apply negb_false_iff. apply find_is in Hi as [Hin Hk]. apply (existsb_true _ _ (issuer_row i)); [by apply list_elem_of_fmap_2|].
      rewrite issuer_row_is_of. by apply bool_decide_eq_true_2.
Qed.
