(* ===== verification/AuthorizationInvariant.v ===== *)
(** * The invariant of the authorization store

    Every operation of [AuthorizationSpec] keeps the invariant: between its write and the
    commit for the grants that are live at its clock, and after the commit for all active
    grants and with the bounded histories. *)

From S2P Require Import Prelude Identifiers LocalGrants AuthorizationStore AuthorizationOps AuthorizationSpec AuthorizationCodec AuthorizationSteps.
Open Scope Z_scope.

(** ** Counting *)

Lemma count_fmap_le {A} (f : A → A) (p q : A → bool) (l : list A) :
  (∀ x, x ∈ l → p (f x) = true → q x = true) → count p (f <$> l) <= count q l.
Proof.
  unfold count, len. induction l as [|x l IH]; intros H; cbn; [lia|].
  specialize (IH ltac:(set_solver)). specialize (H x ltac:(left)).
  destruct (p (f x)), (q x); cbn in *; first [lia|by specialize (H eq_refl)].
Qed.

Lemma count_le {A} (p q : A → bool) (l : list A) :
  (∀ x, x ∈ l → p x = true → q x = true) → count p l <= count q l.
Proof. intros H. rewrite <- (list_fmap_id l) at 1. by apply count_fmap_le. Qed.

Lemma count_filter_le {A} (p q : A → bool) (l : list A) : count p (List.filter q l) <= count p l.
Proof. unfold count. rewrite filter_filter. apply count_le. by intros x _ [_ ?]%andb_true_iff. Qed.

Lemma count_perm {A} (p : A → bool) (l k : list A) : l ≡ₚ k → count p l = count p k.
Proof. intros Hp. unfold count, len. by rewrite (Permutation_length (filter_permutation p _ _ Hp)). Qed.

Lemma count_cons {A} (p : A → bool) (x : A) (l : list A) : count p (x :: l) = (if p x then 1 else 0) + count p l.
Proof. unfold count, len. cbn. destruct (p x); cbn; lia. Qed.

(** ** Quotas *)

Lemma quotas_map (alive alive' : GrantEntry → bool) (f : GrantEntry → GrantEntry) l :
  quotas_ok alive l → (∀ e, entry_grant (f e) = entry_grant e) →
  (∀ e, e ∈ l → alive' (f e) = true → alive e = true) → quotas_ok alive' (f <$> l).
Proof.
  intros (Hq & Hi & Hp) Hg Ha. split_and!.
  - etransitivity; [|exact Hq]. by apply count_fmap_le.
  - intros id. etransitivity; [|apply (Hi id)]. apply count_fmap_le. intros e He. rewrite Hg, !andb_true_iff. naive_solver.
  - intros p. etransitivity; [|apply (Hp p)]. apply count_fmap_le. intros e He. rewrite Hg, !andb_true_iff. naive_solver.
Qed.

Lemma quotas_weaken (alive alive' : GrantEntry → bool) l :
  quotas_ok alive l → (∀ e, e ∈ l → alive' e = true → alive e = true) → quotas_ok alive' l.
Proof. intros Hq Ha. rewrite <- (list_fmap_id l). by apply (quotas_map alive). Qed.

Lemma quotas_filter alive (p : GrantEntry → bool) l : quotas_ok alive l → quotas_ok alive (List.filter p l).
Proof.
  intros (Hq & Hi & Hp). split_and!; [|intros id|intros q]; (etransitivity; [apply count_filter_le|done]).
Qed.

Lemma quotas_add now l key candidate :
  quotas_ok (entry_live now) l →
  grants_full (entry_grant <$> List.filter (entry_live now) l) candidate = false →
  quotas_ok (entry_live now) (sort_insert entry_id array_compare (mk_GrantEntry key candidate None) l).
Proof.
  intros (Hq & Hi & Hp) Hfull. unfold grants_full in Hfull. rewrite !orb_false_iff in Hfull. destruct Hfull as [[H1 H2] H3].
  rewrite !Z.leb_gt in *. rewrite len_encoded in H1.
  rewrite (count_encoded entry_grant _ (fun e => bool_decide (grant_issuer_key_id (entry_grant e) = grant_issuer_key_id candidate))) in H2 by done.
  rewrite (count_encoded entry_grant _ (fun e => bool_decide (grant_profile (entry_grant e) = grant_profile candidate))) in H3 by done.
  unfold count in H2, H3. rewrite filter_filter in H2, H3.
  split_and!; [|intros id|intros p]; rewrite (count_perm _ _ _ (sort_insert_perm _ _ _ _)), count_cons.
  - unfold count. destruct (entry_live now _); lia.
  - specialize (Hi id). cbn [entry_grant]. destruct (decide (grant_issuer_key_id candidate = id)) as [<-|Hne].
    + unfold count. destruct (_ && _); lia.
    + rewrite (bool_decide_eq_false_2 (_ = id)), andb_false_r by done. lia.
  - specialize (Hp p). cbn [entry_grant]. destruct (decide (grant_profile candidate = p)) as [<-|Hne].
    + unfold count. destruct (_ && _); lia.
    + rewrite (bool_decide_eq_false_2 (_ = p)), andb_false_r by done. lia.
Qed.

(** ** Steps *)

Section invariant.
Context `{Sha256} `{WebAuthnDocuments}.

Lemma inv_weaken alive alive' b b' s :
  store_inv alive b s → (∀ e, e ∈ s_grants s → alive' e = true → alive e = true) → b <= b' → store_inv alive' b' s.
Proof.
  intros [? ? ? ? ? ? ? Hent Hq ? ?] Ha Hb. constructor; try done; [|by apply (quotas_weaken alive)].
  intros e He. destruct (Hent e He) as (Hid & Hx & (i & Hsc & Hau) & Hend). split_and!; [done|done| |].
  - exists i. split; [done|]. auto.
  - intros end_ Hend'. destruct (Hend end_ Hend') as (? & ? & ?). split_and!; [done|lia|lia|lia|lia].
Qed.

Lemma inv_entries_stored alive b s : store_inv alive b s → entries_ok s.
Proof.
  intros Hs e He end_ Hend. destruct (inv_entries _ _ _ Hs e He) as (_ & _ & _ & Hok).
  destruct (Hok _ Hend) as (? & ? & ?). split_and!; [done|lia|lia].
Qed.

(** Ending grants keeps the invariant of those that stay. *)
Lemma end_where_inv alive alive' b p st generation at_ s :
  store_inv alive b s → st ≠ StateActive → 1 <= generation <= b →
  (∀ e, e ∈ s_grants s → p e = true → grant_issued_at (entry_grant e) <= at_ e <= I64_MAX) →
  (∀ e, e ∈ s_grants s → p e = false → alive' e = true → alive e = true) →
  (∀ e, alive' (end_entry st generation at_ e) = false) →
  store_inv alive' b (end_where p st generation at_ s).
Proof.
  intros [? ? ? ? ? Hids Hreq Hent Hq ? ?] Hst Hgen Hat Hal Hdead.
  set (f := fun e => if p e then end_entry st generation at_ e else e).
  assert (∀ e, entry_grant (f e) = entry_grant e) as Hg by (intros e; unfold f; by destruct (p e)).
  assert (∀ e, entry_key (f e) = entry_key e) as Hk by (intros e; unfold f; by destruct (p e)).
  constructor; try done; unfold end_where; cbn [with_grants s_grants]; fold f.
  - rewrite <- list_fmap_compose. erewrite list_fmap_ext; [exact Hids|]. intros k e _. cbn. unfold entry_id. by rewrite Hg.
  - rewrite <- list_fmap_compose. erewrite list_fmap_ext; [exact Hreq|]. intros k e _. cbn. unfold entry_request. by rewrite Hg, Hk.
  - intros x (e & -> & He)%list_elem_of_fmap. destruct (Hent e He) as (Hid & Hx & (i & Hsc & Hau) & Hend).
    unfold entry_ok, entry_id. rewrite Hg. split_and!; [done|done| |].
    + exists i. split; [done|]. unfold f. destruct (p e) eqn:Ep; [by rewrite Hdead|]. intros Ha. by apply Hau, Hal.
    + unfold f. destruct (p e) eqn:Ep; [|done]. intros end_ [= <-]. destruct (Hat e He Ep). repeat split; cbn; [done|lia|lia|lia|lia].
  - apply (quotas_map alive); [done|done|]. intros e He. unfold f. destruct (p e) eqn:Ep; [by rewrite Hdead|]. by apply Hal.
Qed.

Lemma end_live_inv b p st generation now s :
  store_inv (fun e => entry_live now e && negb (p e)) b s → st ≠ StateActive → 1 <= generation <= b → 0 <= now <= I64_MAX →
  store_inv (entry_live now) b (end_where p st generation (end_time now) s).
Proof.
  intros Hs Hst Hgen Hnow. apply (end_where_inv _ _ _ _ _ _ _ _ Hs); try done.
  - intros e He _. unfold end_time. pose proof (grant_times (entry_grant e)).
    destruct (inv_entries _ _ _ Hs e He) as (_ & ? & _). lia.
  - intros e _ Hp Hl. by rewrite Hl, Hp.
Qed.

Lemma expire_inv b generation now s :
  store_inv (entry_live now) b s → 1 <= generation <= b → 0 <= now <= I64_MAX →
  store_inv entry_active b (expire now generation s).
Proof.
  intros Hs Hgen Hnow. apply (end_where_inv _ _ _ _ _ _ _ _ Hs); try done.
  - intros e He [_ Hx]%andb_true_iff. pose proof (grant_times (entry_grant e)). lia.
  - intros e _ Hp Ha. unfold entry_live, entry_expired in *. rewrite Ha in *. cbn in *. lia.
Qed.

(** Dropping grants. *)
Lemma filter_grants_inv alive b (p : GrantEntry → bool) s :
  store_inv alive b s → store_inv alive b (with_grants (s_grant_ids s) (List.filter p (s_grants s)) s).
Proof.
  intros [? ? ? ? ? Hids Hreq Hent Hq ? ?]. constructor; try done; cbn [with_grants s_grants].
  - by apply NoDup_fmap_filtered.
  - by apply NoDup_fmap_filtered.
  - intros e [He _]%filter_elem. apply (Hent e He).
  - by apply quotas_filter.
Qed.

(** Changing what authority depends on: every grant keeps its scope and the live ones their authority. *)
Lemma env_inv alive alive' b s policy ids issuers suspensions :
  store_inv alive b s →
  let s' := with_suspended suspensions (with_issuers ids issuers (with_policy policy s)) in
  raw (policy_version policy) <= I64_MAX →
  NoDup ids ∧ len ids <= MAX_ADAPTER_REGISTRATIONS →
  NoDup (issuer_key_of <$> issuers) ∧ (∀ i, i ∈ issuers → issuer_key_of i ∈ ids) →
  NoDup suspensions ∧ len suspensions <= MAX_SUSPENDED_PROFILES →
  (∀ e, e ∈ s_grants s → alive' e = true → alive e = true) →
  (∀ e i, e ∈ s_grants s → scope_ok s (entry_grant e) i → (alive' e = true → authority_ok s (entry_grant e) i) →
     ∃ i', scope_ok s' (entry_grant e) i' ∧ (alive' e = true → authority_ok s' (entry_grant e) i')) →
  store_inv alive' b s'.
Proof.
  intros [? ? ? ? ? Hids Hreq Hent Hq ? ?] s' Hp Hi Hii Hsu Hal Hkeep. constructor; try done.
  - intros e He. destruct (Hent e He) as (Hid & Hx & (i & Hsc & Hau) & Hend). split_and!; [done|done| |done].
    apply (Hkeep e i He Hsc). auto.
  - by apply (quotas_weaken alive).
Qed.

Lemma with_all_same s : with_suspended (s_suspended s) (with_issuers (s_issuer_ids s) (s_issuers s) (with_policy (s_policy s) s)) = s.
Proof. by destruct s. Qed.

Lemma find_issuer_unique s i :
  NoDup (issuer_key_of <$> s_issuers s) → i ∈ s_issuers s →
  find_issuer_record s (issuer_key_id i) (issuer_key_version i) = Some i.
Proof.
  intros Hnd Hin. unfold find_issuer_record. destruct (find _ _) as [j|] eqn:Ej.
  - apply find_is in Ej as [Hj Hk]. f_equal. by apply (elem_unique issuer_key_of (s_issuers s)).
  - apply list_elem_of_In, (find_none _ _ Ej i) in Hin. by rewrite bool_decide_eq_true_2 in Hin.
Qed.

Lemma add_issuer_inv alive b i s :
  store_inv alive b s → issuer_key_of (new_issuer i) ∉ s_issuer_ids s → len (s_issuer_ids s) < MAX_ADAPTER_REGISTRATIONS →
  store_inv alive b (add_issuer i s).
Proof.
  intros Hs Hnew Hcap.
  set (ids := sort_insert key_cell key_compare (issuer_key_of (new_issuer i)) (s_issuer_ids s)).
  set (issuers := sort_insert (fun r => key_cell (issuer_key_of r)) key_compare (new_issuer i) (s_issuers s)).
  assert (ids ≡ₚ issuer_key_of (new_issuer i) :: s_issuer_ids s) as Hpi by apply sort_insert_perm.
  assert (issuers ≡ₚ new_issuer i :: s_issuers s) as Hpr by apply sort_insert_perm.
  pose proof (env_inv _ alive b s (s_policy s) ids issuers (s_suspended s) Hs) as Henv. cbv zeta in Henv.
  change (with_suspended _ _) with (add_issuer i s) in Henv.
  destruct (inv_issuer_ids _ _ _ Hs) as [Hnd Hlen]. destruct (inv_issuers _ _ _ Hs) as [Hndi Hsub].
  assert (NoDup (issuer_key_of <$> issuers)) as Hndr.
  { rewrite Hpr. cbn. apply NoDup_cons. split; [|done]. intros (j & Hj & Hin)%list_elem_of_fmap. apply Hnew. rewrite Hj. auto. }
  apply Henv; clear Henv; [apply Hs| | |apply Hs|done|].
  - split; [rewrite Hpi; by apply NoDup_cons|]. unfold len in *. rewrite (Permutation_length Hpi). cbn. lia.
  - split; [done|]. intros j. rewrite Hpr, Hpi, !elem_of_cons. intros [->|Hj]; [by left|]. right. auto.
  - intros e j He (Hj & Hh & Hp & Hv) Hau. exists j. split; [|done]. split_and!; try done.
    apply find_is in Hj as [Hin Hk]. injection Hk as Hk1 Hk2. rewrite <- Hk1, <- Hk2. apply find_issuer_unique; [done|].
    change (j ∈ issuers). rewrite Hpr. by right.
Qed.

Context (now b : Z) (Hnow : 0 <= now <= I64_MAX).

Definition kept (s : AuthState) (r : step_result) : Prop :=
  ∀ changed s', r = Ok (changed, s') →
  store_inv (entry_live now) b s' ∧ (changed = false → s' = s)
  ∧ s_generation s' = s_generation s ∧ s_audit s' = s_audit s.

Lemma kept_same s : store_inv (entry_live now) b s → kept s (Ok (false, s)).
Proof. by intros Hs changed s' [= <- <-]. Qed.

Lemma kept_changed s s' :
  store_inv (entry_live now) b s' → s_generation s' = s_generation s → s_audit s' = s_audit s → kept s (Ok (true, s')).
Proof. by intros Hs Hg Ha changed x [= <- <-]. Qed.

Lemma kept_err s e : kept s (Err e).
Proof. by intros changed s'. Qed.

Lemma terminalize_kept id st s :
  st ≠ StateActive → 1 <= b → store_inv (entry_live now) b s → kept s (spec_terminalize id st now s b).
Proof using Hnow.
  intros Hst Hb Hs. unfold spec_terminalize. destruct (find _ _) as [e|]; [|apply kept_err]. cbn [ok_or mbind result_bind].
  destruct (entry_live now e); [|by apply kept_same]. apply kept_changed; [|done|done].
  apply end_live_inv; [|done|lia|done]. apply (inv_weaken _ _ _ _ _ Hs); [|done]. by intros x _ [? _]%andb_true_iff.
Qed.

Lemma suspend_kept profile s :
  1 <= b → store_inv (entry_live now) b s → kept s (spec_suspend profile now s b).
Proof using Hnow.
  intros Hb Hs. unfold spec_suspend. destruct (suspended s profile) eqn:Esus; [by apply kept_same|].
  destruct (MAX_SUSPENDED_PROFILES <=? _) eqn:Ecap; [apply kept_err|]. cbn [fail_if mbind result_bind].
  apply kept_changed; [|done|done].
  assert (sort_insert raw bytes_compare profile (s_suspended s) ≡ₚ profile :: s_suspended s) as Hperm by apply sort_insert_perm.
  apply end_live_inv; [|done|lia|done].
  pose proof (env_inv _ (fun e => entry_live now e && negb (entry_live now e && bool_decide (grant_profile (entry_grant e) = profile)))
    b s (s_policy s) (s_issuer_ids s) (s_issuers s) (sort_insert raw bytes_compare profile (s_suspended s)) Hs) as Henv.
  cbv zeta in Henv. replace (with_issuers (s_issuer_ids s) (s_issuers s) (with_policy (s_policy s) s)) with s in Henv by by destruct s.
  apply Henv; clear Henv; [apply Hs|apply Hs|apply Hs| | |].
  - destruct (inv_suspended _ _ _ Hs) as [Hnd Hlen]. split.
    + rewrite Hperm. apply NoDup_cons. split; [|done]. intros Hin. unfold suspended in Esus. apply existsb_is in Hin. congruence.
    + unfold len in *. rewrite (Permutation_length Hperm). cbn. lia.
  - by intros e _ [? _]%andb_true_iff.
  - intros e i He Hsc Hau. exists i. split; [done|]. intros Hal. destruct (Hau Hal) as (Hs1 & Hs2 & Hs3). split_and!; [|done|done].
    apply andb_true_iff in Hal as [Hl Hn]. rewrite Hl in Hn. cbn in Hn. apply negb_true_iff, bool_decide_eq_false in Hn.
    unfold suspended in *. cbn [with_suspended s_suspended]. apply not_true_is_false. intros Hin%existsb_is.
    rewrite Hperm in Hin. apply elem_of_cons in Hin as [Heq|Hin]; [by symmetry in Heq|]. apply existsb_is in Hin. congruence.
Qed.

Lemma resume_kept profile s : store_inv (entry_live now) b s → kept s (spec_resume profile s b).
Proof.
  intros Hs changed s' [= <- <-]. split_and!; [| |done|done].
  - pose proof (env_inv _ (entry_live now) b s (s_policy s) (s_issuer_ids s) (s_issuers s)
      (List.filter (fun p => negb (bool_decide (p = profile))) (s_suspended s)) Hs) as Henv.
    cbv zeta in Henv. replace (with_issuers (s_issuer_ids s) (s_issuers s) (with_policy (s_policy s) s)) with s in Henv by by destruct s.
    apply Henv; clear Henv; [apply Hs|apply Hs|apply Hs| |done|].
    + destruct (inv_suspended _ _ _ Hs) as [Hnd Hlen]. split.
      * rewrite <- (list_fmap_id (List.filter _ _)). apply NoDup_fmap_filtered. by rewrite list_fmap_id.
      * etransitivity; [|exact Hlen]. unfold len. apply inj_le. apply sublist_length, filter_sublist.
    + intros e i He Hsc Hau. exists i. split; [done|]. intros Hal. destruct (Hau Hal) as (Hs1 & Hs2 & Hs3). split_and!; [|done|done].
      unfold suspended in *. cbn [with_suspended s_suspended]. apply not_true_is_false. intros [Hin _]%existsb_is%filter_elem.
      apply existsb_is in Hin. congruence.
  - intros Hno. unfold suspended in Hno. rewrite filter_all; [by destruct s|]. intros p Hp.
    apply negb_true_iff, bool_decide_eq_false_2. intros ->. apply existsb_is in Hp. congruence.
Qed.

Lemma policy_kept policy s :
  1 <= b → store_inv (entry_live now) b s → kept s (spec_replace_policy policy now s b).
Proof using Hnow.
  intros Hb Hs. unfold spec_replace_policy. destruct (_ <=? _) eqn:Ev; [apply kept_err|]. cbn [fail_if mbind result_bind].
  destruct (to_sql _) as [v|e] eqn:Esql; [|apply kept_err]. cbn [mbind result_bind]. apply kept_changed; [|done|done].
  apply Z.leb_gt in Ev. unfold to_sql in Esql. destruct (_ <=? I64_MAX) eqn:Ele; [|done]. apply Z.leb_le in Ele.
  apply end_live_inv; [|done|lia|done].
  pose proof (env_inv _ (fun e => entry_live now e && negb (entry_live now e && negb (policy_accepts policy (grant_evidence (entry_grant e)))))
    b s policy (s_issuer_ids s) (s_issuers s) (s_suspended s) Hs) as Henv.
  cbv zeta in Henv. change (with_suspended (s_suspended s) (with_issuers (s_issuer_ids s) (s_issuers s) (with_policy policy s)))
    with (with_policy policy s) in Henv.
  apply Henv; clear Henv; [done|apply Hs|apply Hs|apply Hs| |].
  - by intros e _ [? _]%andb_true_iff.
  - intros e i He (Hi & Hh & Hp & Hv) Hau. exists i. split.
    { split_and!; [done|done|done|]. cbn [with_policy s_policy]. lia. }
    intros Hal. destruct (Hau Hal) as (Hs1 & Hs2 & Hs3). split_and!; [done| |done].
    apply andb_true_iff in Hal as [Hl Hn]. rewrite Hl in Hn. cbn in Hn. by rewrite negb_involutive in Hn.
Qed.

(** Looking an issuer up among updated records. *)
Lemma find_issuer_updated s (f : AuthorizationIssuerRecord → AuthorizationIssuerRecord) ids id version :
  (∀ i, issuer_key_of (f i) = issuer_key_of i) →
  find_issuer_record (with_issuers ids (f <$> s_issuers s) s) id version = f <$> find_issuer_record s id version.
Proof. intros Hf. unfold find_issuer_record. cbn [with_issuers s_issuers]. apply find_encoded. intros i _. by rewrite Hf. Qed.

Lemma set_issuer_kept id version availability disposition s :
  1 <= b → store_inv (entry_live now) b s → kept s (spec_set_issuer id version availability disposition now s b).
Proof using Hnow.
  intros Hb Hs. unfold spec_set_issuer. destruct (find_issuer_record s id version) as [i0|] eqn:Ei; [|apply kept_err].
  cbn [ok_or mbind result_bind]. destruct (bool_decide (issuer_availability i0 = _) && _); [by apply kept_same|]. cbv zeta.
  set (f := fun i => if bool_decide (issuer_key_of i = (id, version)) then set_availability availability disposition i else i).
  assert (∀ i, issuer_key_of (f i) = issuer_key_of i) as Hf by (intros i; unfold f; by destruct (bool_decide _)).
  set (revoke := bool_decide (availability = Disabled) && bool_decide (disposition = RevokeExisting)).
  set (p := fun e => revoke && (entry_live now e && issued_by id version e)).
  assert (store_inv (fun e => entry_live now e && negb (p e)) b (with_issuers (s_issuer_ids s) (f <$> s_issuers s) s)) as Hinv.
  { pose proof (env_inv _ (fun e => entry_live now e && negb (p e)) b s (s_policy s) (s_issuer_ids s) (f <$> s_issuers s)
      (s_suspended s) Hs) as Henv. cbv zeta in Henv.
    change (with_suspended (s_suspended s) (with_issuers ?a ?l (with_policy (s_policy s) s))) with (with_issuers a l s) in Henv.
    apply Henv; clear Henv; [apply Hs|apply Hs| |apply Hs| |].
    - destruct (inv_issuers _ _ _ Hs) as [Hnd Hsub]. split.
      + rewrite <- list_fmap_compose. erewrite list_fmap_ext; [exact Hnd|]. intros k i _. cbn. apply Hf.
      + intros i (j & -> & Hj)%list_elem_of_fmap. rewrite Hf. auto.
    - by intros e _ [? _]%andb_true_iff.
    - intros e i He (Hi & Hh & Hp & Hv) Hau. exists (f i). split.
      { split_and!; [by rewrite find_issuer_updated, Hi by done| | |done]; unfold f; by destruct (bool_decide (issuer_key_of i = _)). }
      intros Hal. destruct (Hau Hal) as (Hs1 & Hs2 & Hs3). split_and!; [done|done|].
      apply andb_true_iff in Hal as [Hl Hn]. unfold f. destruct (bool_decide (issuer_key_of i = _)) eqn:Ek; [|done].
      cbn [set_availability issuer_availability issuer_disposition]. intros [-> ->]. unfold p, revoke in Hn. cbn in Hn.
      rewrite Hl in Hn. apply bool_decide_eq_true in Ek. apply find_is in Hi as [_ Hi].
      assert (issued_by id version e = true) as Hib by (apply bool_decide_eq_true_2; unfold issuer_key; congruence).
      by rewrite Hib in Hn. }
  destruct revoke eqn:Er; (apply kept_changed; [|done|done]).
  - apply end_live_inv; [|done|lia|done]. by unfold p in Hinv.
  - apply (inv_weaken _ _ _ _ _ Hinv); [|done]. intros e _ Hl. unfold p. by rewrite Hl.
Qed.

Lemma register_kept i s : store_inv (entry_live now) b s → kept s (spec_register_issuer i s b).
Proof.
  intros Hs. unfold spec_register_issuer.
  match goal with |- kept _ (fail_if ?c _ ≫= _) => destruct c eqn:Efresh; [apply kept_err|] end. cbn [fail_if mbind result_bind].
  destruct (MAX_ADAPTER_REGISTRATIONS <=? _) eqn:Ecap; [apply kept_err|]. cbn [fail_if mbind result_bind].
  match goal with |- kept _ (fail_if ?c _ ≫= _) => destruct c; [apply kept_err|] end. cbn [fail_if mbind result_bind].
  apply kept_changed; [|done|done]. apply add_issuer_inv; [done| |lia]. intros Hin%existsb_is. congruence.
Qed.

Lemma remove_issuer_kept id version disposition s :
  store_inv (entry_live now) b s → kept s (spec_remove_issuer id version disposition now s b).
Proof.
  intros Hs. unfold spec_remove_issuer. destruct (find_issuer_record s id version) as [i0|] eqn:Ei.
  2: { destruct (existsb _ _); [by apply kept_same|apply kept_err]. }
  destruct (_ && _); [apply kept_err|]. cbn [fail_if mbind result_bind]. apply kept_changed; [|done|done].
  set (s1 := with_grants (s_grant_ids s) (List.filter (fun e => negb (issued_by id version e)) (s_grants s)) s).
  assert (store_inv (entry_live now) b s1) as Hs1 by by apply filter_grants_inv.
  set (issuers := List.filter (fun i => negb (bool_decide (issuer_key_of i = (id, version)))) (s_issuers s)).
  pose proof (env_inv _ (entry_live now) b s1 (s_policy s) (s_issuer_ids s) issuers (s_suspended s) Hs1) as Henv. cbv zeta in Henv.
  change (with_suspended _ _) with (with_issuers (s_issuer_ids s) issuers s1) in Henv.
  destruct (inv_issuers _ _ _ Hs) as [Hnd Hsub].
  assert (NoDup (issuer_key_of <$> issuers)) as Hndi by by apply NoDup_fmap_filtered.
  apply Henv; clear Henv; [apply Hs|apply Hs| |apply Hs|done|].
  - split; [done|]. intros i [Hi _]%filter_elem. auto.
  - intros e j He (Hj & Hh & Hp & Hv) Hau. exists j. split; [|done]. split_and!; try done.
    apply find_is in Hj as [Hin Hk]. injection Hk as Hk1 Hk2. rewrite <- Hk1, <- Hk2. apply find_issuer_unique; [done|].
    apply filter_elem. split; [done|]. apply filter_elem in He as [_ He]. apply negb_true_iff, bool_decide_eq_false in He.
    apply negb_true_iff, bool_decide_eq_false_2. intros Hkk. apply He. unfold issuer_key. rewrite <- Hk1, <- Hk2. done.
Qed.

(** ** Credentials *)

Lemma credential_inv alive s ids c :
  store_inv alive b s →
  NoDup ids ∧ len ids <= MAX_USER_PRESENCE_CREDENTIAL_IDENTIFIERS ∧ (∀ d, d ∈ ids → length d = 32%nat) →
  (∀ x, c = Some x → credential_valid x ∧ credential_digest x ∈ ids) →
  store_inv alive b (with_credential ids c s).
Proof. intros [? ? ? ? ? ? ? ? ? ? ?] Hids Hc. by constructor. Qed.

Lemma reserve_inv alive s c ids :
  store_inv alive b s → credential_valid c → spec_reserve_digest (credential_digest c) s = Ok ids →
  store_inv alive b (with_credential ids (Some c) s).
Proof.
  intros Hs Hc Hids. pose proof (reserved_digest _ _ _ Hids) as Hin. unfold spec_reserve_digest in Hids. inv_ok. subst ids.
  assert (sort_insert (fun x => x) bytes_compare (credential_digest c) (s_credential_ids s)
          ≡ₚ credential_digest c :: s_credential_ids s) as Hp by apply sort_insert_perm.
  destruct (inv_credential_ids _ _ _ Hs) as (Hnd & Hlen & Hl). apply credential_inv; [done| |].
  - split_and!.
    + rewrite Hp. apply NoDup_cons. split; [|done]. intros Hi. apply existsb_is in Hi. congruence.
    + unfold len in *. rewrite (Permutation_length Hp). cbn. lia.
    + intros d. rewrite Hp, elem_of_cons. intros [->|Hd]; [by apply credential_digest_length|auto].
  - by intros x [= <-].
Qed.

Lemma register_credential_kept c s :
  credential_valid c → store_inv (entry_live now) b s → kept s (spec_register_credential c s b).
Proof.
  intros Hc Hs. unfold spec_register_credential. destruct (s_credential s) as [x|].
  { destruct (bool_decide _); [by apply kept_same|apply kept_err]. }
  destruct (spec_reserve_digest _ _) as [ids|e] eqn:E; [|apply kept_err]. cbn [mbind result_bind].
  apply kept_changed; [|done|done]. by apply reserve_inv.
Qed.

Lemma replace_credential_kept expected c s :
  credential_valid c → store_inv (entry_live now) b s → kept s (spec_replace_credential expected c s b).
Proof.
  intros Hc Hs. unfold spec_replace_credential. destruct (s_credential s) as [x|]; [|apply kept_err]. cbn [ok_or mbind result_bind].
  destruct (bool_decide (_ ≠ _)); [apply kept_err|]. cbn [fail_if mbind result_bind].
  destruct (bool_decide (x = c)); [by apply kept_same|].
  destruct (bool_decide (_ = expected)); [apply kept_err|]. cbn [fail_if mbind result_bind].
  destruct (spec_reserve_digest _ _) as [ids|e] eqn:E; [|apply kept_err]. cbn [mbind result_bind].
  apply kept_changed; [|done|done]. by apply reserve_inv.
Qed.

Lemma advance_credential_kept expected updated s :
  credential_valid updated → store_inv (entry_live now) b s → kept s (spec_advance_credential expected updated s b).
Proof.
  intros Hc Hs. unfold spec_advance_credential. destruct (s_credential s) as [x|] eqn:Ex; [|apply kept_err]. cbn [ok_or mbind result_bind].
  destruct (bool_decide (x ≠ expected) || _ || _ || _) eqn:Eg; [apply kept_err|]. cbn [fail_if mbind result_bind].
  destruct (bool_decide (x = updated)); [by apply kept_same|]. apply kept_changed; [|done|done].
  bool_prop in Eg. destruct Eg as [[[E1 E2] _] _]. apply dec_stable in E1 as ->. apply dec_stable in E2 as E2.
  apply credential_inv; [done|apply Hs|]. intros y [= <-]. split; [done|]. rewrite <- E2. by apply (inv_credential _ _ _ Hs).
Qed.

Lemma remove_credential_kept expected s :
  store_inv (entry_live now) b s → kept s (spec_remove_credential expected s b).
Proof.
  intros Hs. unfold spec_remove_credential. destruct (s_credential s) as [x|].
  - destruct (bool_decide _); [apply kept_err|]. cbn [fail_if mbind result_bind]. apply kept_changed; [|done|done].
    apply credential_inv; [done|apply Hs|done].
  - destruct (existsb _ _); [by apply kept_same|apply kept_err].
Qed.

(** ** Issuing *)

Lemma issue_kept key candidate s :
  store_inv (entry_live now) b s →
  find (issued_for (grant_issuer_key_id candidate) (grant_issuer_key_version candidate) key) (s_grants s) = None →
  kept s (spec_first_issuance key candidate now s b).
Proof.
  intros Hs Hreq changed s' Hok. unfold spec_first_issuance in Hok.
  apply bind_Ok in Hok as (? & Hfresh%fail_if_Ok & Hok). apply bind_Ok in Hok as (? & Hcap%fail_if_Ok & Hok).
  apply bind_Ok in Hok as (? & Hauth & Hok). apply bind_Ok in Hok as (? & _ & Hok).
  apply bind_Ok in Hok as (? & Hfull%fail_if_Ok & Hok). apply bind_Ok in Hok as (? & Hexp & Hok).
  injection Hok as <- <-. split_and!; [|done|done|done].
  assert (grant_id candidate ∉ s_grant_ids s) as Hnew. { intros Hin%existsb_is. congruence. }
  assert (grant_expires_at candidate <= I64_MAX) as Hx.
  { unfold to_sql in Hexp. destruct (grant_expires_at candidate <=? I64_MAX) eqn:E; [lia|done]. }
  unfold spec_authority in Hauth. apply bind_Ok in Hauth as (? & Hsus%fail_if_Ok & Hauth).
  apply bind_Ok in Hauth as (i & Hi%ok_or_Ok & Hauth). apply bind_Ok in Hauth as (? & Hav%fail_if_Ok & Hauth).
  apply bind_Ok in Hauth as (? & Hscope%fail_if_Ok & Hauth). apply bind_Ok in Hauth as (? & Hpv%fail_if_Ok & Hacc%fail_if_Ok).
  apply orb_false_iff in Hscope as [Hh%negb_false_iff Hp%negb_false_iff].
  apply bool_decide_eq_false in Hpv. apply dec_stable in Hpv. apply negb_false_iff in Hacc. apply bool_decide_eq_false in Hav.
  destruct Hs as [? ? ? ? [Hgnd Hglen] Hids Hrnd Hent Hq ? ?].
  set (e0 := mk_GrantEntry key candidate None).
  assert (sort_insert (fun x => x) array_compare (grant_id candidate) (s_grant_ids s) ≡ₚ grant_id candidate :: s_grant_ids s) as Hpi
    by apply sort_insert_perm.
  assert (sort_insert entry_id array_compare e0 (s_grants s) ≡ₚ e0 :: s_grants s) as Hpe by apply sort_insert_perm.
  constructor; try done; unfold add_grant; cbn [with_grants s_grants s_grant_ids]; fold e0.
  - split; [rewrite Hpi; by apply NoDup_cons|]. unfold len in *. rewrite (Permutation_length Hpi). cbn. lia.
  - rewrite Hpe. cbn. apply NoDup_cons. split; [|done]. intros (e & Heq & He)%list_elem_of_fmap. apply Hnew.
    change (entry_id e0 ∈ s_grant_ids s). rewrite Heq. by destruct (Hent e He) as [? _].
  - rewrite Hpe. cbn. apply NoDup_cons. split; [|done]. intros (e & Heq & He)%list_elem_of_fmap.
    apply list_elem_of_In, (find_none _ _ Hreq) in He. unfold issued_for, issued_by in He. unfold entry_request in Heq.
    cbn in Heq. injection Heq as Hk1 Hk2 Hk3. rewrite !bool_decide_eq_true_2 in He by (unfold issuer_key; congruence). done.
  - intros e Hin. rewrite Hpe in Hin. apply elem_of_cons in Hin as [->|He].
    + split_and!; [change (grant_id candidate ∈ sort_insert (fun x => x) array_compare (grant_id candidate) (s_grant_ids s)); rewrite Hpi; left|done| |done]. exists i. split.
      * split_and!; [done|done|done|]. change (raw (grant_policy_version candidate) <= raw (policy_version (s_policy s))). by rewrite Hpv.
      * intros _. split_and!; [done|done|]. by intros [? _].
    + destruct (Hent e He) as (Hid & ?). split; [|done]. cbn. rewrite Hpi. by right.
  - by apply quotas_add.
Qed.

End invariant.

(** ** Commits *)

Lemma pruned_history l :
  NoDup (entry_id <$> l) → count (fun e => negb (entry_active e)) (prune_grants l) <= MAX_TERMINAL_GRANT_RECORDS.
Proof.
  intros Hnd. set (ended := List.filter (fun e => negb (entry_active e)) l).
  set (ranked := sort_by entry_prune_key prune_compare ended).
  assert (ranked ≡ₚ ended) as Hperm by apply sort_by_perm.
  set (n := Z.to_nat MAX_TERMINAL_GRANT_RECORDS).
  set (kept := List.filter (fun e => negb (entry_active e)) (prune_grants l)).
  assert (entry_id <$> kept ⊆+ entry_id <$> take n ranked) as Hsub.
  { apply NoDup_submseteq.
    - apply NoDup_fmap_filtered. by apply NoDup_fmap_filtered.
    - intros id (e & -> & He)%list_elem_of_fmap. apply filter_elem in He as [[He Hk]%filter_elem Ha].
      apply negb_true_iff in Ha. rewrite Ha in Hk. cbn in Hk. apply negb_true_iff in Hk.
      assert (e ∈ ranked) as Hr. { rewrite Hperm. apply filter_elem. by rewrite Ha. }
      rewrite <- (take_drop n ranked) in Hr. apply elem_of_app in Hr as [Hr|Hr]; [by apply list_elem_of_fmap_2|].
      exfalso. apply not_true_iff_false in Hk. apply Hk, existsb_is. unfold pruned_ids. by apply list_elem_of_fmap_2. }
  apply submseteq_length in Hsub. rewrite !length_fmap, length_take in Hsub. unfold count, len. fold kept.
  unfold n, MAX_TERMINAL_GRANT_RECORDS in *. lia.
Qed.

Lemma drop_seqZ m n (k : nat) : Z.of_nat k <= n → drop k (seqZ m n) = seqZ (m + Z.of_nat k) (n - Z.of_nat k).
Proof.
  intros Hk. replace n with (Z.of_nat k + (n - Z.of_nat k)) at 1 by lia. rewrite seqZ_app by lia.
  apply drop_app_length'. rewrite length_seqZ. lia.
Qed.

Lemma commit_audit generation l kind now :
  1 <= generation → 0 <= now <= I64_MAX → audit_ok generation l →
  audit_ok (generation + 1)
    (drop (length (l ++ [mk_AuditEvent (generation + 1) kind now]) - Z.to_nat MAX_AUTHORIZATION_AUDIT_RECORDS)
       (l ++ [mk_AuditEvent (generation + 1) kind now])).
Proof.
  intros Hg Hnow (Hseq & Ht & Hboot). unfold audit_ok, MAX_AUTHORIZATION_AUDIT_RECORDS in *.
  assert (Z.of_nat (length l) = generation `min` 256) as Hlen.
  { rewrite <- (length_fmap audit_generation), Hseq, length_seqZ. lia. }
  rewrite length_app. cbn [length]. change (Z.to_nat 256) with 256%nat.
  assert (∀ e, e ∈ l ++ [mk_AuditEvent (generation + 1) kind now] → 0 <= audit_occurred_at e <= I64_MAX) as Ht'.
  { intros e [He|He%list_elem_of_singleton]%elem_of_app; [auto|by subst e]. }
  split_and!.
  - rewrite fmap_drop, fmap_app, Hseq. cbn [fmap list_fmap audit_generation].
    replace [generation + 1] with [generation - generation `min` 256 + 1 + generation `min` 256] by (f_equal; lia).
    rewrite <- seqZ_snoc by lia. rewrite drop_seqZ by lia. f_equal; lia.
  - intros e He. apply Ht'. rewrite <- (take_drop (length l + 1 - 256) (l ++ _)). apply elem_of_app. by right.
  - intros Hle. replace (length l + 1 - 256)%nat with 0%nat by lia. rewrite drop_0.
    destruct l as [|x l]; [cbn in Hlen; lia|]. apply Hboot. lia.
Qed.
