(* ===== verification/AuthorizationProofs.v ===== *)
(** * The authorization store refines its specification

    Every call on the encoding of a committed state answers what [spec_call] answers and
    commits the encoding of the state it makes, which is again a committed state: no
    operation ever fails on its own validation. *)

From S2P Require Import Prelude Identifiers LocalGrants AuthorizationStore AuthorizationOps AuthorizationSpec.
From S2P Require Import AuthorizationCodec AuthorizationSteps AuthorizationInvariant.
Open Scope Z_scope.

Section refinement.
Context `{Sha256} `{WebAuthnDocuments}.

Lemma next_generation_cases g :
  1 <= g <= I64_MAX → (proposed_generation g = g + 1 ∧ g + 1 <= I64_MAX) ∨ (proposed_generation g = g ∧ g = I64_MAX).
Proof.
  intros Hg. unfold proposed_generation, next_generation.
  rewrite checked_add_fits by (unfold I64_MAX, U64_MAX in *; lia).
  destruct (g + 1 <=? I64_MAX) eqn:E; cbn; [left|right]; lia.
Qed.

Lemma proposed_range g : 1 <= g <= I64_MAX → g <= proposed_generation g <= I64_MAX.
Proof. intros Hg. destruct (next_generation_cases g Hg) as [[-> ?]|[-> ?]]; lia. Qed.

Lemma log_before_ok s g : state_ok s → s_generation s < g → log_before g (s_audit s).
Proof.
  intros Hs Hg. destruct (ok_audit _ Hs) as (Hseq & _ & _). split.
  - rewrite Hseq. apply NoDup_seqZ.
  - intros e He. assert (audit_generation e ∈ audit_generation <$> s_audit s) as Hin by by apply list_elem_of_fmap_2.
    rewrite Hseq in Hin. apply elem_of_seqZ in Hin. lia.
Qed.

Lemma inv_with_audit alive b g l s : store_inv alive b s → store_inv alive b (with_audit g l s).
Proof. intros [? ? ? ? ? ? ? ? ? ? ?]. by constructor. Qed.

(** A committed state holds for the grants that are live, at any clock. *)
Lemma state_live now b s : state_ok s → s_generation s <= b → store_inv (entry_live now) b s.
Proof.
  intros Hs Hb. apply (inv_weaken _ _ _ _ _ (ok_inv _ Hs)); [|done]. intros e _. apply live_active.
Qed.

Lemma commit_ok now kind s s1 :
  state_ok s → 0 <= now <= I64_MAX → s_generation s + 1 <= I64_MAX →
  store_inv (entry_live now) (s_generation s + 1) s1 → s_generation s1 = s_generation s → s_audit s1 = s_audit s →
  state_ok (commit (s_generation s + 1) kind now (expire now (s_generation s + 1) s1)).
Proof.
  intros Hs Hnow Hmax Hinv Hg Ha. pose proof (ok_generation _ Hs) as Hgen.
  apply (expire_inv _ (s_generation s + 1)) in Hinv; [|lia|done].
  constructor; cbn [commit with_audit s_generation s_grants s_audit with_grants].
  - lia.
  - by apply inv_with_audit, filter_grants_inv.
  - apply pruned_history, Hinv.
  - unfold expire, end_where. cbn [with_grants s_audit]. rewrite Ha.
    apply commit_audit; [lia|done|apply Hs].
Qed.

Definition step_kept (now : Z) (operation : AuthState → Z → step_result) : Prop :=
  ∀ s, state_ok s → kept now (proposed_generation (s_generation s)) s (operation s (proposed_generation (s_generation s))).

Lemma spec_mutate_ok now kind operation s m s' :
  state_ok s → 0 <= now <= I64_MAX → kept now (proposed_generation (s_generation s)) s (operation s (proposed_generation (s_generation s))) →
  spec_mutate now kind operation s = Ok (m, s') → state_ok s' ∧ mutation_generation m = s_generation s'.
Proof.
  intros Hs Hnow Hk Hok. unfold spec_mutate in Hok. cbv zeta in Hok.
  apply bind_Ok in Hok as ([changed s1] & Hop & Hok). cbn [fst snd] in Hok.
  destruct (Hk _ _ Hop) as (Hinv & Hsame & Hg & Ha).
  destruct (negb (changed || _)) eqn:Eno.
  - injection Hok as <- <-. apply negb_true_iff, orb_false_iff in Eno as [-> _]. by rewrite Hsame.
  - apply bind_Ok in Hok as ([] & Hcap%fail_if_Ok & Hok). injection Hok as <- <-.
    destruct (next_generation_cases (s_generation s) (ok_generation _ Hs)) as [[-> Hmax]|[Hp _]]; [|lia].
    split; [|done]. destruct (next_generation_cases (s_generation s) (ok_generation _ Hs)) as [[Hp _]|[? ?]]; [|lia].
    rewrite Hp in Hinv. by apply (commit_ok now _ s).
Qed.

(** ** Simulation *)

Definition encoded {A} (fingerprint : bytes) (r : store_result A * (AuthState * Z)) : outcome A :=
  (r.1, (tables_of fingerprint r.2.1, r.2.2)).

Section handle.
Context (fingerprint : bytes) (Hfp : fingerprint_ok fingerprint).

Lemma open_checks_of s observed :
  state_ok s →
  open_checks fingerprint observed (tables_of fingerprint s)
  = (if s_generation s <? observed then Err AuthGenerationRollback else Ok (s_generation s)).
Proof using Hfp.
  intros Hs. unfold open_checks, verify_identity_and_high_water.
  change (t_fingerprint (tables_of fingerprint s)) with fingerprint.
  pass_guard by (unfold len; by rewrite Hfp). change (u64_from_positive_sql (t_generation ?d)) with (load_generation d).
  rewrite load_generation_of by apply Hs. cbn [mbind result_bind is_some_and].
  destruct (s_generation s <? observed); [done|]. cbn [fail_if mbind result_bind].
  pass_guard by (by apply bool_decide_neq_false). rewrite validate_ok by done. done.
Qed.

Lemma no_expiry s now g : existsb (entry_expired now) (s_grants s) = false → expire now g s = s.
Proof.
  intros Hno. apply end_where_none. intros e He. apply not_true_is_false. intros Hx.
  apply (existsb_true _ _ e He) in Hx. congruence.
Qed.

(** The end of every write: expiry, then the commit of the proposed generation. *)
Lemma settle_of s s1 now kind :
  let g := proposed_generation (s_generation s) in
  state_ok s → 0 <= now <= I64_MAX → store_inv (entry_live now) g s1 →
  s_generation s1 = s_generation s → s_audit s1 = s_audit s →
  (∃ n, expire_grants (tables_of fingerprint s1) now g = Ok (n, tables_of fingerprint (expire now g s1))
        ∧ (n =? 0) = negb (existsb (entry_expired now) (s_grants s1)))
  ∧ ((g =? s_generation s) = false →
     ∃ db, commit_generation (tables_of fingerprint (expire now g s1)) g kind now = Ok db
           ∧ prune_bounded_history db = tables_of fingerprint (commit g kind now (expire now g s1))
           ∧ state_ok (commit g kind now (expire now g s1))).
Proof.
  intros g Hs Hnow Hinv Hg Ha. pose proof (proposed_range _ (ok_generation _ Hs)) as Hr. fold g in Hr.
  pose proof (ok_generation _ Hs) as Hgen. split.
  - eexists. split; [apply expire_grants_of; [by apply (inv_entries_stored (entry_live now) g)|done|lia]|].
    rewrite <- count_positive. pose proof (len_nonneg (List.filter (entry_expired now) (s_grants s1))). unfold count. lia.
  - intros Hne. destruct (next_generation_cases (s_generation s) Hgen) as [[Hp Hmax]|[Hp _]]; fold g in Hp; [|lia].
    assert (store_inv entry_active g (expire now g s1)) as Hexp by (apply expire_inv; [done|lia|done]).
    destruct (commit_of fingerprint (expire now g s1) g kind now) as (db & Hc & Hprune); [..|done|].
    + by apply (inv_entries_stored entry_active g).
    + cbn [expire end_where with_grants s_audit]. rewrite Ha. apply log_before_ok; [done|lia].
    + lia.
    + exists db. split_and!; [done|done|]. rewrite Hp in *. by apply (commit_ok now _ s).
Qed.

(** What a mutation does to the encoded state after its checks. *)
Lemma mutate_body_of s now kind (op : AuthTables → Z → store_result (bool * AuthTables)) operation :
  let g := proposed_generation (s_generation s) in
  state_ok s → 0 <= now <= I64_MAX →
  op (tables_of fingerprint s) g = encoded_step fingerprint (operation s g) →
  kept now g s (operation s g) →
  mutate_body fingerprint (tables_of fingerprint s) now kind op (s_generation s)
  = (fun r => (r.1, tables_of fingerprint r.2)) <$> spec_mutate now kind operation s.
Proof using Hfp.
  intros g Hs Hnow Hsim Hk. unfold mutate_body, spec_mutate. cbv zeta. fold g. rewrite Hsim. unfold encoded_step.
  destruct (operation s g) as [[changed s1]|e] eqn:Eop; [|done]. cbn [fmap result_fmap mbind result_bind fst snd].
  destruct (Hk _ _ eq_refl) as (Hinv & Hsame & Hg & Ha).
  pose proof (settle_of s s1 now (if changed then kind else AuditGrantsExpired) Hs Hnow Hinv Hg Ha) as Hset.
  cbv zeta in Hset. fold g in Hset. destruct Hset as [(n & -> & Hn) Hcommit].
  cbn [mbind result_bind fst snd]. rewrite Hn, <- negb_orb.
  destruct (negb (changed || existsb (entry_expired now) (s_grants s1))) eqn:Eno.
  { cbn [fmap result_fmap fst snd]. do 3 f_equal. apply negb_true_iff, orb_false_iff in Eno as [_ Eno]. by apply no_expiry. }
  destruct (g =? s_generation s) eqn:Ecap; [done|]. cbn [fail_if mbind result_bind].
  destruct (Hcommit eq_refl) as (db & -> & Hprune & Hok). cbn [mbind result_bind]. by rewrite Hprune, validate_ok.
Qed.

Lemma timestamp_cases now : validate_timestamp now = (if I64_MAX <? now then Err AuthInvalidInput else Ok ()).
Proof. unfold validate_timestamp, to_sql. rewrite Z.leb_antisym. by destruct (I64_MAX <? now). Qed.

Lemma mutate_of s observed now kind (op : AuthTables → Z → store_result (bool * AuthTables)) operation :
  state_ok s → 0 <= now →
  (now <= I64_MAX → op (tables_of fingerprint s) (proposed_generation (s_generation s))
                    = encoded_step fingerprint (operation s (proposed_generation (s_generation s)))) →
  (now <= I64_MAX → kept now (proposed_generation (s_generation s)) s (operation s (proposed_generation (s_generation s)))) →
  mutate fingerprint observed (tables_of fingerprint s) now kind op
  = encoded fingerprint (timed now observed s (spec_write observed s (spec_mutate now kind operation s))).
Proof using Hfp.
  intros Hs Hnow Hsim Hk. unfold mutate, timed, spec_write. rewrite timestamp_cases.
  destruct (I64_MAX <? now) eqn:En; [done|]. cbn [mbind result_bind]. rewrite open_checks_of by done.
  destruct (s_generation s <? observed); [done|].
  rewrite (mutate_body_of s now kind op operation) by (first [done|lia|by apply Hsim; lia|by apply Hk; lia]).
  destruct (spec_mutate now kind operation s) as [[m s']|e] eqn:Em; [|done]. cbn [fmap result_fmap fst snd].
  apply spec_mutate_ok in Em as [_ ->]; [done|done|lia|by apply Hk; lia].
Qed.

Lemma expire_for_read_of s now :
  state_ok s → 0 <= now <= I64_MAX →
  expire_for_read (tables_of fingerprint s) now
  = (fun r => (r.1, tables_of fingerprint r.2)) <$> spec_expire_for_read now s.
Proof using Hfp.
  intros Hs Hnow. unfold expire_for_read. rewrite load_generation_of by apply Hs. cbn [mbind result_bind]. cbv zeta.
  pose proof (proposed_range _ (ok_generation _ Hs)) as Hr.
  assert (store_inv (entry_live now) (proposed_generation (s_generation s)) s) as Hl by (apply state_live; [done|lia]).
  destruct (settle_of s s now AuditGrantsExpired Hs Hnow Hl eq_refl eq_refl) as [(n & -> & Hn) Hcommit].
  unfold spec_expire_for_read, spec_mutate. cbv zeta. cbn [mbind result_bind fst snd orb]. rewrite Hn.
  destruct (negb (existsb _ _)) eqn:Eno.
  { cbn. do 3 f_equal. apply negb_true_iff in Eno. by apply no_expiry. }
  destruct (_ =? s_generation s) eqn:Ecap; [done|]. cbn [fail_if mbind result_bind].
  destruct (Hcommit eq_refl) as (db & -> & Hprune & _). cbn [mbind result_bind]. by rewrite Hprune.
Qed.

Lemma spec_expire_ok s now g s' :
  state_ok s → 0 <= now <= I64_MAX → spec_expire_for_read now s = Ok (g, s') → state_ok s' ∧ g = s_generation s'.
Proof.
  intros Hs Hnow Hok. unfold spec_expire_for_read in Hok. apply bind_Ok in Hok as ([m s1] & Hm & Hok). injection Hok as <- <-.
  apply spec_mutate_ok in Hm as [? ->]; [done|done|done|]. apply kept_same, state_live; [done|].
  apply proposed_range, Hs.
Qed.

Lemma expiring_read_of {A} s observed required now (query : AuthTables → Z → store_result A) (f : AuthState → A) :
  state_ok s → 0 <= now →
  (∀ s', state_ok s' → now <= I64_MAX → query (tables_of fingerprint s') (s_generation s') = Ok (f s')) →
  expiring_read fingerprint observed required (tables_of fingerprint s) now query
  = encoded fingerprint (spec_query observed required now f s).
Proof using Hfp.
  intros Hs Hnow Hq. unfold expiring_read, spec_query, timed, spec_read. rewrite timestamp_cases.
  destruct (I64_MAX <? now) eqn:En; [done|]. cbn [mbind result_bind]. rewrite open_checks_of by done.
  destruct (s_generation s <? required); [done|]. cbn [mbind result_bind]. rewrite expire_for_read_of by (done || lia).
  destruct (spec_expire_for_read now s) as [[g s']|e] eqn:Ee; [|done]. cbn [fmap result_fmap mbind result_bind fst snd].
  apply spec_expire_ok in Ee as [Hok ->]; [|done|lia]. rewrite Hq by (done || lia). cbn [mbind result_bind].
  rewrite validate_ok by done. done.
Qed.

Lemma live_count s now : state_ok s → count (entry_live now) (s_grants s) <= MAX_SESSION_GRANTS.
Proof.
  intros Hs. destruct (inv_quotas _ _ _ (ok_inv _ Hs)) as [Hq _]. etransitivity; [|exact Hq].
  apply count_le. intros e _. apply live_active.
Qed.

Lemma credentials_valid s : state_ok s → ∀ c, s_credential s = Some c → credential_valid c.
Proof. intros Hs c Hc. by apply (inv_credential _ _ _ (ok_inv _ Hs)). Qed.

Lemma read_snapshot_of s now :
  state_ok s → now <= I64_MAX → read_snapshot now (tables_of fingerprint s) (s_generation s) = Ok (spec_snapshot now s).
Proof.
  intros Hs Hnow. unfold read_snapshot. rewrite load_policy_of. cbn [mbind result_bind].
  rewrite load_issuers_of by by apply issuers_len. cbn [mbind result_bind].
  rewrite load_suspended_of by apply (inv_suspended _ _ _ (ok_inv _ Hs)). cbn [mbind result_bind].
  rewrite load_active_grants_of by (first [done|by apply entries_stored|by apply live_count]). cbn [mbind result_bind].
  rewrite load_credential_of by by apply credentials_valid. done.
Qed.

Lemma stored_live e now : end_stored e →
  is_active (stored_of e) && (now <? grant_expires_at (stored_grant (stored_of e))) = entry_live now e.
Proof.
  intros He. unfold is_active, stored_of, entry_live, entry_active. cbn [stored_state stored_grant].
  destruct (entry_end e) as [end_|] eqn:Ee; [|done]. destruct (He end_ Ee) as [Hst _]. by rewrite bool_decide_eq_false_2.
Qed.

Lemma active_grant_of s id version key now :
  state_ok s →
  (stored ← load_grant_by_issuance (tables_of fingerprint s) id version key;
   Ok (match stored with
       | Some stored => if is_active stored && (now <? grant_expires_at (stored_grant stored))
                        then Some (stored_grant stored) else None
       | None => None
       end))
  = Ok (spec_active_grant id version key now s).
Proof.
  intros Hs. rewrite load_grant_by_issuance_of by exact (entries_stored s Hs). cbn [mbind result_bind].
  unfold spec_active_grant. destruct (find _ _) as [e|] eqn:Ef; [|done]. cbn [fmap option_fmap option_map].
  apply find_some in Ef as [He%list_elem_of_In _]. by rewrite stored_live by by apply (entries_stored s).
Qed.

Lemma status_of s id profile now :
  state_ok s → now <= I64_MAX →
  load_status_inner id profile now (tables_of fingerprint s) (s_generation s) = Ok (spec_status id profile now s).
Proof.
  intros Hs Hnow. unfold load_status_inner. rewrite to_sql_pass by done. cbn [mbind result_bind].
  rewrite load_policy_of. cbn [mbind result_bind]. cbv zeta.
  change (t_grants (tables_of fingerprint s)) with (grant_row <$> s_grants s).
  rewrite (filter_encoded grant_row _ (entry_live now)) by (intros; by apply (row_live_of s); [apply entries_stored|]).
  unfold spec_status, live_grants. cbn [tables_of t_issuers t_issuer_identifiers t_suspended t_grant_identifiers t_audit
    t_credential t_credential_identifiers]. rewrite !len_encoded.
  rewrite (count_encoded issuer_row _ (fun i => bool_decide (issuer_availability i = Disabled)))
    by (intros i _; cbn; by destruct (issuer_availability i)).
  rewrite (count_encoded grant_row _ (fun e => negb (entry_active e)))
    by (intros e He; by rewrite gr_state_of by by apply (entries_stored s)).
  rewrite (count_encoded grant_row _ (fun e => bool_decide (grant_issuer_key_id (entry_grant e) = id)))
    by (intros e _; by destruct (gr_fields_of e) as (_ & _ & _ & -> & _)).
  rewrite (count_encoded grant_row _ (fun e => bool_decide (grant_profile (entry_grant e) = profile)))
    by (intros e _; destruct (gr_fields_of e) as (_ & _ & -> & _); apply profile_cell_is).
  rewrite (count_encoded entry_grant _ (fun e => bool_decide (grant_issuer_key_id (entry_grant e) = id))) by done.
  rewrite (count_encoded entry_grant _ (fun e => bool_decide (grant_profile (entry_grant e) = profile))) by done.
  by destruct (s_credential s).
Qed.

Lemma to_sql_value z v : to_sql z = Ok v → v = z ∧ z <= I64_MAX.
Proof. unfold to_sql. destruct (z <=? I64_MAX) eqn:E; [|done]. intros [= ->]. lia. Qed.

Lemma bind_assoc {E A B C} (m : result E A) (f : A → result E B) (k : B → result E C) :
  (m ≫= fun x => f x ≫= k) = (m ≫= f) ≫= k.
Proof. by destruct m. Qed.

Lemma first_issuance_of s key candidate now :
  state_ok s → grant_issued_at candidate <= now →
  find (issued_for (grant_issuer_key_id candidate) (grant_issuer_key_version candidate) key) (s_grants s) = None →
  first_issuance fingerprint (tables_of fingerprint s) key candidate now (s_generation s)
  = (fun r => (mk_GrantIssuanceResult r.1 candidate, tables_of fingerprint r.2))
      <$> spec_mutate now AuditGrantIssued (spec_first_issuance key candidate now) s.
Proof using Hfp.
  intros Hs Hissued Hreq. pose proof (grant_times candidate) as Ht.
  assert (∀ e, e ∈ s_grants s → entry_id e ∈ s_grant_ids s) as Hsub.
  { intros e He. by destruct (inv_entries _ _ _ (ok_inv _ Hs) e He) as [? _]. }
  unfold first_issuance, spec_mutate. cbv zeta. set (g := proposed_generation (s_generation s)).
  assert (now <= I64_MAX → kept now g s (spec_first_issuance key candidate now s g)) as Hk.
  { intros Hnow. apply issue_kept; [|done]. apply state_live; [done|]. apply proposed_range, Hs. }
  unfold spec_first_issuance at 1. rewrite load_grant_by_id_of by exact (entries_stored s Hs). cbn [mbind result_bind].
  assert (is_some (stored_of <$> find (fun e => bool_decide (entry_id e = grant_id candidate)) (s_grants s))
          || grant_identifier_exists (tables_of fingerprint s) (grant_id candidate)
          = existsb (fun i => bool_decide (i = grant_id candidate)) (s_grant_ids s)) as ->.
  { unfold grant_identifier_exists. change (t_grant_identifiers _) with (s_grant_ids s).
    destruct (existsb _ (s_grant_ids s)) eqn:Ex; [by rewrite orb_true_r|]. rewrite orb_false_r.
    destruct (find (fun e => bool_decide (entry_id e = grant_id candidate)) (s_grants s)) as [e|] eqn:Ef; [|done]. apply find_is in Ef as [He Hid]. apply Hsub in He. rewrite Hid in He.
    apply existsb_is in He. congruence. }
  destruct (existsb _ (s_grant_ids s)) eqn:Efresh; [done|]. cbn [fail_if mbind result_bind].
  change (t_grant_identifiers (tables_of fingerprint s)) with (s_grant_ids s).
  destruct (MAX_GRANT_IDENTIFIERS <=? _) eqn:Ecap; [done|]. cbn [fail_if mbind result_bind].
  rewrite authority_of. destruct (spec_authority candidate s) as [[]|e] eqn:Eauth; [|done]. cbn [mbind result_bind].
  rewrite capacity_of by exact (entries_stored s Hs). destruct (to_sql now) as [v|e] eqn:Enow; [|done]. cbn [mbind result_bind].
  destruct (to_sql_value _ _ Enow) as [-> Hmax].
  destruct (grants_full _ _) eqn:Efull; [done|]. cbn [fail_if mbind result_bind].
  assert (is_Some (find_issuer_record s (grant_issuer_key_id candidate) (grant_issuer_key_version candidate))
          ∧ raw (grant_policy_version candidate) <= I64_MAX) as [Hi Hpv].
  { unfold spec_authority in Eauth. inv_ok. split; [by eexists|]. pose proof (inv_policy _ _ _ (ok_inv _ Hs)).
    match goal with Hv : bool_decide (grant_policy_version candidate ≠ _) = false |- _ => bool_prop in Hv; apply dec_stable in Hv as -> end. done. }
  rewrite bind_assoc, add_grant_of; [|intros ?%existsb_is; congruence|done|done|done|done|lia].
  destruct (to_sql (grant_expires_at candidate)) as [v|e] eqn:Eexp; [|done]. cbn [mbind result_bind fst snd orb negb].
  assert (spec_first_issuance key candidate now s g = Ok (true, add_grant key candidate s)) as Hstep.
  { unfold spec_first_issuance. rewrite Efresh. cbn [fail_if mbind result_bind]. rewrite Ecap. cbn [fail_if mbind result_bind].
    rewrite Eauth, Enow. cbn [mbind result_bind]. rewrite Efull. cbn [fail_if mbind result_bind]. by rewrite Eexp. }
  destruct (Hk Hmax _ _ Hstep) as (Hinv & _ & Hg & Ha).
  pose proof (settle_of s _ now AuditGrantIssued Hs ltac:(lia) Hinv Hg Ha) as Hset. cbv zeta in Hset. fold g in Hset.
  destruct Hset as [(n & -> & _) Hcommit]. cbn [mbind result_bind fst snd].
  destruct (g =? s_generation s) eqn:Eg; [done|]. cbn [fail_if mbind result_bind].
  destruct (Hcommit eq_refl) as (db & -> & Hprune & Hok). cbn [mbind result_bind]. by rewrite Hprune, validate_ok.
Qed.

Lemma replay_issuance_of s e candidate now :
  state_ok s → 0 <= now →
  replay_issuance fingerprint (tables_of fingerprint s) (stored_of e) candidate now (s_generation s)
  = (fun r => (r.1, tables_of fingerprint r.2)) <$>
      (fail_if (negb (same_issuance_request (entry_grant e) candidate)) AuthConflict;;
       to_sql now;;
       read ← spec_expire_for_read now s;
       Ok (mk_GrantIssuanceResult (mk_AuthorizationMutation read.1 Unchanged) (entry_grant e), read.2)).
Proof using Hfp.
  intros Hs Hnow. unfold replay_issuance. cbn [stored_of stored_grant].
  destruct (negb (same_issuance_request _ _)); [done|]. cbn [fail_if mbind result_bind].
  pose proof (proposed_range _ (ok_generation _ Hs)) as Hr.
  destruct (to_sql now) as [v|x] eqn:Enow.
  2: { unfold expire_grants. rewrite (to_sql_pass (proposed_generation _)) by lia. cbn [mbind result_bind]. by rewrite Enow. }
  destruct (to_sql_value _ _ Enow) as [-> Hmax]. cbn [mbind result_bind].
  pose proof (expire_for_read_of s now Hs ltac:(lia)) as He. unfold expire_for_read in He.
  rewrite load_generation_of in He by apply Hs. cbn [mbind result_bind] in He. cbv zeta in He.
  set (m := expire_grants _ _ _) in *. rewrite bind_assoc.
  destruct (spec_expire_for_read now s) as [[gen s']|x] eqn:Es; cbn [fmap result_fmap fst snd mbind result_bind] in He |- *.
  - setoid_rewrite He. cbn [mbind result_bind fst snd]. apply spec_expire_ok in Es as [Hok _]; [|done|lia]. by rewrite validate_ok.
  - setoid_rewrite He. done.
Qed.

Lemma first_issuance_clock key candidate now s g r :
  spec_first_issuance key candidate now s g = Ok r → now <= I64_MAX.
Proof.
  unfold spec_first_issuance. intros Hok. apply bind_Ok in Hok as (? & _ & Hok). apply bind_Ok in Hok as (? & _ & Hok).
  apply bind_Ok in Hok as (? & _ & Hok). apply bind_Ok in Hok as (v & Hnow & _). by apply to_sql_value in Hnow as [_ ?].
Qed.

Lemma issue_of s observed key candidate now :
  state_ok s → 0 <= now →
  issue_grant_for_request fingerprint observed (tables_of fingerprint s) key candidate now
  = encoded fingerprint
      (if (now <? grant_issued_at candidate) || (grant_expires_at candidate <=? now) then (Err AuthInvalidInput, (s, observed))
       else spec_write observed s (spec_issue key candidate now s)).
Proof using Hfp.
  intros Hs Hnow. unfold issue_grant_for_request. destruct (_ || _) eqn:Et; [done|].
  rewrite open_checks_of by done. unfold spec_write. destruct (s_generation s <? observed); [done|].
  rewrite load_grant_by_issuance_of by exact (entries_stored s Hs). cbn [mbind result_bind]. unfold spec_issue.
  destruct (find (issued_for _ _ _) (s_grants s)) as [e|] eqn:Ef; cbn [fmap option_fmap option_map].
  - rewrite replay_issuance_of by done. destruct (negb (same_issuance_request _ _)); [done|]. cbn [fail_if mbind result_bind].
    destruct (to_sql now) as [v|x] eqn:Enow; [|done]. destruct (to_sql_value _ _ Enow) as [-> Hmax]. cbn [mbind result_bind].
    destruct (spec_expire_for_read now s) as [[g s']|x] eqn:Es; [|done]. cbn.
    apply spec_expire_ok in Es as [_ ->]; [done|done|lia].
  - bool_prop in Et. rewrite first_issuance_of by (done || lia).
    destruct (spec_mutate now AuditGrantIssued (spec_first_issuance key candidate now) s) as [[m s']|x] eqn:Em; [|done]. cbn.
    assert (now <= I64_MAX) as Hmax.
    { unfold spec_mutate in Em. apply bind_Ok in Em as (? & Hop & _). by apply first_issuance_clock in Hop. }
    apply spec_mutate_ok in Em as [_ ->]; [done|done|lia|]. apply issue_kept; [|done].
    apply state_live; [done|]. apply proposed_range, Hs.
Qed.

(** The concrete step of each mutation computes the abstract one and keeps the invariant. *)
Lemma mutation_sound s c kind now operation :
  state_ok s → call_ok c → mutation_step c = Some (kind, now, operation) → now <= I64_MAX →
  kept now (proposed_generation (s_generation s)) s (operation s (proposed_generation (s_generation s))).
Proof.
  intros Hs Hc Hm Hnow. pose proof (proposed_range _ (ok_generation _ Hs)) as Hr. pose proof (ok_generation _ Hs) as Hg.
  assert (store_inv (entry_live now) (proposed_generation (s_generation s)) s) as Hl by (apply state_live; [done|lia]).
  destruct c; cbn in Hm; try discriminate; injection Hm as <- <- <-; cbn in Hc.
  - apply terminalize_kept; [lia|done|lia|done].
  - apply terminalize_kept; [lia|done|lia|done].
  - apply suspend_kept; [lia|lia|done].
  - by apply resume_kept.
  - apply set_issuer_kept; [lia|lia|done].
  - apply policy_kept; [lia|lia|done].
  - by apply register_kept.
  - by apply remove_issuer_kept.
  - destruct Hc. by apply register_credential_kept.
  - destruct Hc. by apply replace_credential_kept.
  - destruct Hc. by apply advance_credential_kept.
  - destruct (spec_authority grant s); [|apply kept_err]. destruct Hc. by apply advance_credential_kept.
  - by apply remove_credential_kept.
Qed.

(** A call that answers leaves a committed state. *)
Lemma spec_call_ok s observed c : state_ok s → call_ok c → state_ok (spec_call observed c s).2.1.
Proof.
  assert (∀ A (m : store_result (A * AuthState)), state_ok s → (∀ a s', m = Ok (a, s') → state_ok s') →
    state_ok (spec_write observed s m).2.1) as Hw.
  { intros A m Hs Hm. unfold spec_write. destruct (_ <? _); [done|]. destruct m as [[a s']|]; [by eapply Hm|done]. }
  assert (∀ A required now (f : AuthState → A), state_ok s → 0 <= now →
    state_ok (spec_query observed required now f s).2.1) as Hq.
  { intros A required now f Hs Hnow. unfold spec_query, timed, spec_read. destruct (I64_MAX <? now) eqn:En; [done|].
    destruct (s_generation s <? required); [done|]. destruct (spec_expire_for_read now s) as [[g s']|] eqn:Es; [|done]. cbn.
    apply spec_expire_ok in Es as [? _]; [done|done|lia]. }
  intros Hs Hc.
  assert (mutation_step c = None ∨ ∃ kind now operation, mutation_step c = Some (kind, now, operation)) as [Hm|(kind & now & operation & Hm)].
  { destruct (mutation_step c) as [[[??]?]|]; eauto 10. }
  - destruct c; try discriminate; cbn in Hc |- *.
    + destruct (_ || _) eqn:Et; [done|]. cbn. bool_prop in Et. apply Hw; [done|]. intros a s' Hok. unfold spec_issue in Hok.
      destruct (find (issued_for _ _ _) (s_grants s)) as [e|] eqn:Ef.
      * apply bind_Ok in Hok as (? & _ & Hok). apply bind_Ok in Hok as (v & Hv & Hok). apply to_sql_value in Hv as [_ Hmax].
        apply bind_Ok in Hok as ([g s1] & Hx & Hok). injection Hok as <- <-.
        apply spec_expire_ok in Hx as [? _]; [done|done|lia].
      * apply bind_Ok in Hok as ([m s1] & Hmut & Hok). injection Hok as <- <-.
        assert (now <= I64_MAX) as Hmax.
        { unfold spec_mutate in Hmut. apply bind_Ok in Hmut as (? & Hop & _). by apply first_issuance_clock in Hop. }
        apply spec_mutate_ok in Hmut as [? _]; [done|done|lia|]. apply issue_kept; [|done].
        apply state_live; [done|]. apply proposed_range, Hs.
    + by apply Hq.
    + by apply Hq.
    + by apply Hq.
    + destruct (_ || _); [done|]. cbn. unfold spec_read. by destruct (_ <? _).
  - assert (state_ok (timed now observed s (spec_write observed s (spec_mutate now kind operation s))).2.1) as Hmut.
    { unfold timed. destruct (I64_MAX <? now) eqn:En; [done|]. apply Hw; [done|]. intros a s' Hok.
      assert (0 <= now) by (destruct c; cbn in Hm, Hc; try discriminate; injection Hm as <- <- <-; lia).
      apply spec_mutate_ok in Hok as [? _]; [done|done|lia|]. apply (mutation_sound s c kind); [done|done|done|lia]. }
    destruct c; cbn in Hm; try discriminate; cbn [spec_call mutation_step]; injection Hm as <- <- <-;
      try (destruct (negb (presence_evidence _)); [done|]); exact Hmut.
Qed.

Lemma answer_encoded {A} (f : A → AuthorizationAnswer) (r : store_result A * (AuthState * Z)) :
  answer_of f (encoded fingerprint r) = encoded fingerprint (answer f r).
Proof. done. Qed.

Lemma run_call_of s observed c :
  state_ok s → call_ok c →
  run_call fingerprint observed c (tables_of fingerprint s) = encoded fingerprint (spec_call observed c s).
Proof using Hfp.
  intros Hs Hc. pose proof (proposed_range _ (ok_generation _ Hs)) as Hr. pose proof (ok_generation _ Hs) as Hg.
  pose proof (ok_inv _ Hs) as Hinv. pose proof (entries_stored s Hs) as Hent. pose proof (credentials_valid s Hs) as Hcred.
  pose proof (mutation_sound s c) as Hk.
  assert (∀ kind now operation op, mutation_step c = Some (kind, now, operation) → 0 <= now →
    (now <= I64_MAX → op (tables_of fingerprint s) (proposed_generation (s_generation s))
                      = encoded_step fingerprint (operation s (proposed_generation (s_generation s)))) →
    answer_of AnswerMutation (mutate fingerprint observed (tables_of fingerprint s) now kind op)
    = encoded fingerprint (answer AnswerMutation (timed now observed s (spec_write observed s (spec_mutate now kind operation s))))) as Hmut.
  { intros kind now operation op Hm Hnow Hsim. rewrite (mutate_of s observed now kind op operation); [done|done|done|done|].
    by apply (Hk kind now operation Hs Hc Hm). }
  destruct c; cbn [run_call spec_call mutation_step]; cbn in Hc.
  - rewrite issue_of by done. by destruct (_ || _).
  - apply Hmut; [done|done|]. intros. apply terminalize_exact_of; [done|apply Hinv|done|lia|lia].
  - apply Hmut; [done|done|]. intros. apply terminalize_exact_of; [done|apply Hinv|done|lia|lia].
  - apply Hmut; [done|done|]. intros. apply spec_suspend_of; [done|lia|lia].
  - apply Hmut; [done|done|]. intros. apply spec_resume_of, Hinv.
  - apply Hmut; [done|done|]. intros. apply spec_set_issuer_of; [done|apply Hinv|lia|lia].
  - apply Hmut; [done|done|]. intros. apply spec_replace_policy_of; [done|apply Hinv|by apply live_count|lia|lia].
  - apply Hmut; [done|done|]. intros. apply spec_register_issuer_of, Hinv.
  - apply Hmut; [done|done|]. intros. apply spec_remove_issuer_of; [done|apply Hinv|lia|lia].
  - destruct Hc. apply Hmut; [done|done|]. intros. by apply spec_register_credential_of.
  - destruct Hc. apply Hmut; [done|done|]. intros. by apply spec_replace_credential_of.
  - destruct Hc. apply Hmut; [done|done|]. intros. apply spec_advance_credential_of; [apply Hinv|done].
  - destruct Hc. unfold update_user_presence_credential_for_grant. destruct (negb (presence_evidence _)); [done|].
    apply Hmut; [done|done|]. intros. rewrite authority_of. destruct (spec_authority grant s); [|done].
    apply spec_advance_credential_of; [apply Hinv|done].
  - apply Hmut; [done|done|]. intros. by apply spec_remove_credential_of.
  - unfold load_snapshot. rewrite (expiring_read_of s observed _ now _ (spec_snapshot now)); [done|done|done|].
    intros. by apply read_snapshot_of.
  - unfold active_grant_for_request. rewrite (expiring_read_of s observed _ now _ (spec_active_grant id version key now)); [done|done|done|].
    intros. by apply active_grant_of.
  - unfold load_status. rewrite (expiring_read_of s observed _ now _ (spec_status id profile now)); [done|done|done|].
    intros. by apply status_of.
  - unfold load_audit_events. destruct (_ || _); [done|]. cbn [fail_if mbind result_bind]. rewrite open_checks_of by done.
    unfold spec_read. destruct (s_generation s <? _); [done|]. cbn [mbind result_bind].
    rewrite load_audit_of by by apply audit_events_positive. done.
Qed.

End handle.
End refinement.
