(* ===== verification/AuthorizationHistory.v ===== *)
(** * Histories of the authorization store

    The stores a bootstrap and any sequence of calls of any handles can reach, and what holds
    along every such history. *)

From S2P Require Import Prelude Identifiers LocalGrants AuthorizationStore AuthorizationOps AuthorizationSpec.
From S2P Require Import AuthorizationCodec AuthorizationSteps AuthorizationInvariant AuthorizationProofs.
Open Scope Z_scope.

Section history.
Context `{Sha256} `{WebAuthnDocuments}.

(** ** Bootstrap *)

Definition empty_state (policy : AuthorizationPolicy) : AuthState := mk_AuthState 1 policy [] [] [] [] [] [] None [].

Definition add_issuers (l : list InstalledIssuerRegistration) (s : AuthState) : AuthState :=
  foldl (fun s i => add_issuer i s) s l.

Definition bootstrapped (policy : AuthorizationPolicy) (issuers : list InstalledIssuerRegistration) (now : Z) : AuthState :=
  with_audit 1 [mk_AuditEvent 1 AuditBootstrap now]
    (add_issuers (sort_by installed_key key_compare issuers) (empty_state policy)).

Lemma empty_inv policy : raw (policy_version policy) <= I64_MAX → store_inv entry_active 1 (empty_state policy).
Proof.
  intros Hp. constructor; cbn; try done; try (split; [constructor|done]).
  - split; [constructor|]. intros i Hi. by apply not_elem_of_nil in Hi.
  - constructor.
  - constructor.
  - intros e He. by apply not_elem_of_nil in He.
  - split_and!; [constructor|done|]. intros d Hd. by apply not_elem_of_nil in Hd.
Qed.

Lemma add_issuers_ok fingerprint l : ∀ s,
  store_inv entry_active 1 s → NoDup (installed_key <$> l) →
  (∀ i, i ∈ l → issuer_key_of (new_issuer i) ∉ s_issuer_ids s) →
  len (s_issuer_ids s) + len l <= MAX_ADAPTER_REGISTRATIONS →
  insert_issuers l (tables_of fingerprint s) = Ok (tables_of fingerprint (add_issuers l s))
  ∧ store_inv entry_active 1 (add_issuers l s)
  ∧ s_generation (add_issuers l s) = s_generation s ∧ s_grants (add_issuers l s) = s_grants s.
Proof.
  induction l as [|i l IH]; intros s Hs Hnd Hnew Hcap; [done|]. cbn [insert_issuers add_issuers foldl].
  change (foldl _ ?x l) with (add_issuers l x). cbn [fmap list_fmap] in Hnd. apply NoDup_cons in Hnd as [Hi Hnd].
  assert (len (i :: l) = 1 + len l) as Hl by (unfold len; cbn; lia). pose proof (len_nonneg l).
  assert (s_issuer_ids (add_issuer i s) ≡ₚ issuer_key_of (new_issuer i) :: s_issuer_ids s) as Hperm by apply sort_insert_perm.
  rewrite spec_insert_issuer_of; [|apply not_true_is_false; intros Hin%existsb_is; by apply (Hnew i ltac:(left))|apply Hs].
  cbn [mbind result_bind]. refine (IH (add_issuer i s) _ Hnd _ _).
  - apply add_issuer_inv; [done|apply Hnew; left|lia].
  - intros j Hj. rewrite Hperm, elem_of_cons. intros [Hk|Hin]; [|by apply (Hnew j ltac:(by right))].
    apply Hi. apply list_elem_of_fmap. exists j. split; [|done]. unfold installed_key. cbn in Hk. by injection Hk as -> ->.
  - unfold len in *. rewrite (Permutation_length Hperm). cbn. lia.
Qed.

(** The issuers a bootstrap accepts. *)
Definition bootstrap_ok (policy : AuthorizationPolicy) (issuers : list InstalledIssuerRegistration) (now : Z) : Prop :=
  now <= I64_MAX ∧ raw (policy_version policy) <= I64_MAX ∧ 1 <= len issuers <= MAX_ADAPTER_REGISTRATIONS
  ∧ NoDup (installed_key <$> issuers).

Lemma adjacent_equal {A} `{EqDecision A} (cmp : A → A → comparison) `{!TotalCompare cmp} (l : list A) :
  adjacent_any (fun x y => bool_decide (x = y)) (sort_by (fun x => x) cmp l) = false ↔ NoDup l.
Proof.
  pose proof (sort_by_duplicates (fun x => x) cmp l) as Hd. unfold same_key in Hd. rewrite Hd. by rewrite list_fmap_id.
Qed.

Lemma bootstrapped_ok policy issuers now :
  0 <= now → bootstrap_ok policy issuers now → state_ok (bootstrapped policy issuers now).
Proof.
  intros Hnow (Hmax & Hp & Hlen & Hnd).
  assert (sort_by installed_key key_compare issuers ≡ₚ issuers) as Hperm by apply sort_by_perm.
  destruct (add_issuers_ok [] (sort_by installed_key key_compare issuers) (empty_state policy)) as (_ & Hinv & Hg & Hgr).
  { by apply empty_inv. }
  { by rewrite Hperm. }
  { intros i _ Hin. by apply not_elem_of_nil in Hin. }
  { unfold len in *. rewrite (Permutation_length Hperm). cbn. lia. }
  constructor; cbn [bootstrapped with_audit s_generation s_grants s_audit].
  - unfold I64_MAX. lia.
  - by apply inv_with_audit.
  - by rewrite Hgr.
  - split_and!; [done| |done]. intros e He%list_elem_of_singleton. by subst e.
Qed.

Lemma bootstrap_of fingerprint policy issuers now :
  fingerprint_ok fingerprint → 0 <= now → bootstrap_ok policy issuers now →
  bootstrap fingerprint policy issuers now = Ok (tables_of fingerprint (bootstrapped policy issuers now), 1).
Proof.
  intros Hfp Hnow Hok. pose proof (bootstrapped_ok _ _ _ Hnow Hok) as Hstate. destruct Hok as (Hmax & Hp & Hlen & Hnd).
  destruct (policy_parts policy) as [Hc _].
  assert (sort_by installed_key key_compare issuers ≡ₚ issuers) as Hperm by apply sort_by_perm.
  unfold bootstrap, validate_bootstrap. rewrite timestamp_cases. destruct (I64_MAX <? now) eqn:En; [lia|]. cbn [mbind result_bind].
  pass_guard by (unfold MAX_POLICY_CLAUSES; lia). pass_guard by (by apply (adjacent_equal key_compare)).
  unfold bootstrap_store. rewrite (to_sql_pass (raw (policy_version policy))) by done. cbn [mbind result_bind]. cbv zeta.
  change (mk_AuthTables fingerprint 1 _ _ _ _ _ _ _ _ _ _) with (tables_of fingerprint (empty_state policy)).
  destruct (add_issuers_ok fingerprint (sort_by installed_key key_compare issuers) (empty_state policy)) as (-> & Hinv & Hg & _).
  { by apply empty_inv. }
  { by rewrite Hperm. }
  { intros i _ Hin. by apply not_elem_of_nil in Hin. }
  { unfold len in *. rewrite (Permutation_length Hperm). cbn. lia. }
  cbn [mbind result_bind]. rewrite (to_sql_pass now) by done. cbn [mbind result_bind].
  match goal with |- context [validate_store ?db _] => assert (db = tables_of fingerprint (bootstrapped policy issuers now)) as -> end.
  { unfold set_audit, bootstrapped, with_audit, tables_of. cbn [t_fingerprint t_generation t_policy_version t_clauses
      t_issuer_identifiers t_issuers t_suspended t_grant_identifiers t_grants t_credential_identifiers t_credential
      s_generation s_policy s_issuer_ids s_issuers s_suspended s_grant_ids s_grants s_credential_ids s_credential s_audit].
    by rewrite Hg. }
  rewrite validate_ok by done. cbn [mbind result_bind]. by rewrite load_generation_of by apply Hstate.
Qed.

(** ** Reachable stores *)

(** One bootstrap, then calls of handles that may have observed any generation. *)
Inductive reachable (fingerprint : bytes) : AuthTables → Prop :=
| reachable_bootstrap policy issuers now db generation :
    0 <= now → bootstrap fingerprint policy issuers now = Ok (db, generation) → reachable fingerprint db
| reachable_call db observed c :
    reachable fingerprint db → call_ok c → reachable fingerprint (run_call fingerprint observed c db).2.1.

Lemma bootstrap_accepts fingerprint policy issuers now db g :
  bootstrap fingerprint policy issuers now = Ok (db, g) → bootstrap_ok policy issuers now.
Proof.
  unfold bootstrap. rewrite timestamp_cases. intros Hok. apply bind_Ok in Hok as (? & Hnow & Hok).
  destruct (I64_MAX <? now) eqn:En; [done|]. apply bind_Ok in Hok as (? & Hv & Hok). apply bind_Ok in Hok as (? & Hb & _).
  unfold validate_bootstrap in Hv. apply bind_Ok in Hv as (? & Hlen%fail_if_Ok & Hdup%fail_if_Ok).
  apply (adjacent_equal key_compare) in Hdup. unfold bootstrap_store in Hb. apply bind_Ok in Hb as (v & Hver%to_sql_value & _).
  rewrite !orb_false_iff in Hlen. destruct Hlen as [[_ H1] H2]. pose proof (len_nonneg issuers).
  unfold bootstrap_ok, MAX_ADAPTER_REGISTRATIONS in *. split_and!; [lia|lia|lia|lia|done].
Qed.

Lemma reachable_state fingerprint db :
  fingerprint_ok fingerprint → reachable fingerprint db → ∃ s, state_ok s ∧ db = tables_of fingerprint s.
Proof.
  intros Hfp. induction 1 as [policy issuers now db g Hnow Hboot|db observed c _ IH Hc].
  - pose proof (bootstrap_accepts _ _ _ _ _ _ Hboot) as Hok. rewrite bootstrap_of in Hboot by done. injection Hboot as <- <-.
    eexists. split; [|done]. by apply bootstrapped_ok.
  - destruct IH as (s & Hs & ->). exists (spec_call observed c s).2.1. split; [by apply spec_call_ok|].
    by rewrite run_call_of.
Qed.

(** ** Grants only end *)

(** The identifiers are kept and an active grant was active before or is new. *)
Definition grants_only_end (s s' : AuthState) : Prop :=
  (∀ id, id ∈ s_grant_ids s → id ∈ s_grant_ids s')
  ∧ (∀ e, e ∈ s_grants s' → entry_active e = true → e ∈ s_grants s ∨ entry_id e ∉ s_grant_ids s).

Lemma only_end_refl s : grants_only_end s s.
Proof. split; [done|]. intros e He _. by left. Qed.

Lemma only_end_same s s' : s_grant_ids s' = s_grant_ids s → s_grants s' = s_grants s → grants_only_end s s'.
Proof. intros Hi Hg. split; [by rewrite Hi|]. rewrite Hg. intros e He _. by left. Qed.

Lemma only_end_trans s1 s2 s3 :
  grants_only_end s1 s2 → s_grant_ids s3 = s_grant_ids s2 →
  (∀ e, e ∈ s_grants s3 → entry_active e = true → e ∈ s_grants s2) → grants_only_end s1 s3.
Proof. intros [Hi Hg] Hi' Hg'. split; [by rewrite Hi'|]. intros e He Ha. apply Hg; [by apply Hg'|done]. Qed.

Lemma end_where_active p st g at_ s e :
  e ∈ s_grants (end_where p st g at_ s) → entry_active e = true → e ∈ s_grants s.
Proof. intros (x & -> & Hx)%list_elem_of_fmap. by destruct (p x). Qed.

Lemma end_where_only_end p st g at_ s s' :
  s_grant_ids s' = s_grant_ids s → s_grants s' = s_grants s → grants_only_end s (end_where p st g at_ s').
Proof.
  intros Hi Hg. apply (only_end_trans s s'); [by apply only_end_same|done|]. intros e. apply end_where_active.
Qed.

Lemma advance_only_ends expected updated s g changed s' :
  spec_advance_credential expected updated s g = Ok (changed, s') → grants_only_end s s'.
Proof.
  unfold spec_advance_credential. intros Hok. apply bind_Ok in Hok as (? & _ & Hok). apply bind_Ok in Hok as (? & _ & Hok).
  destruct (bool_decide _); injection Hok as <- <-; [apply only_end_refl|by apply only_end_same].
Qed.

Lemma mutation_only_ends s c kind now operation g changed s' :
  mutation_step c = Some (kind, now, operation) → operation s g = Ok (changed, s') → grants_only_end s s'.
Proof.
  intros Hm. destruct c; cbn in Hm; try discriminate; injection Hm as <- <- <-.
  - unfold spec_terminalize. intros Hok. apply bind_Ok in Hok as (e & _ & Hok).
    destruct (entry_live _ _); injection Hok as <- <-; [by apply end_where_only_end|apply only_end_refl].
  - unfold spec_terminalize. intros Hok. apply bind_Ok in Hok as (e & _ & Hok).
    destruct (entry_live _ _); injection Hok as <- <-; [by apply end_where_only_end|apply only_end_refl].
  - unfold spec_suspend. destruct (suspended s profile); [intros [= <- <-]; apply only_end_refl|].
    intros Hok. apply bind_Ok in Hok as (? & _ & Hok). injection Hok as <- <-. by apply end_where_only_end.
  - intros [= <- <-]. by apply only_end_same.
  - unfold spec_set_issuer. intros Hok. apply bind_Ok in Hok as (i & _ & Hok).
    destruct (bool_decide (_ = availability) && _); injection Hok as <- <-; [apply only_end_refl|].
    destruct (_ && _); [by apply end_where_only_end|by apply only_end_same].
  - unfold spec_replace_policy. intros Hok. apply bind_Ok in Hok as (? & _ & Hok). apply bind_Ok in Hok as (? & _ & Hok).
    injection Hok as <- <-. by apply end_where_only_end.
  - unfold spec_register_issuer. intros Hok. apply bind_Ok in Hok as (? & _ & Hok). apply bind_Ok in Hok as (? & _ & Hok).
    apply bind_Ok in Hok as (? & _ & Hok). injection Hok as <- <-. by apply only_end_same.
  - unfold spec_remove_issuer. destruct (find_issuer_record _ _ _).
    + intros Hok. apply bind_Ok in Hok as (? & _ & Hok). injection Hok as <- <-.
      split; [done|]. intros e [He _]%filter_elem _. by left.
    + destruct (existsb _ _); [intros [= <- <-]; apply only_end_refl|done].
  - unfold spec_register_credential. destruct (s_credential s).
    + destruct (bool_decide _); [intros [= <- <-]; apply only_end_refl|done].
    + intros Hok. apply bind_Ok in Hok as (? & _ & Hok). injection Hok as <- <-. by apply only_end_same.
  - unfold spec_replace_credential. intros Hok. apply bind_Ok in Hok as (? & _ & Hok). apply bind_Ok in Hok as (? & _ & Hok).
    destruct (bool_decide _); [injection Hok as <- <-; apply only_end_refl|]. apply bind_Ok in Hok as (? & _ & Hok).
    apply bind_Ok in Hok as (? & _ & Hok). injection Hok as <- <-. by apply only_end_same.
  - apply advance_only_ends.
  - intros Hok. apply bind_Ok in Hok as (? & _ & Hok). revert Hok. apply advance_only_ends.
  - unfold spec_remove_credential. destruct (s_credential s).
    + intros Hok. apply bind_Ok in Hok as (? & _ & Hok). injection Hok as <- <-. by apply only_end_same.
    + destruct (existsb _ _); [intros [= <- <-]; apply only_end_refl|done].
Qed.

Lemma commit_active g kind now s e :
  e ∈ s_grants (commit g kind now (expire now g s)) → entry_active e = true →
  e ∈ s_grants s ∧ entry_expired now e = false.
Proof.
  cbn [commit with_audit s_grants with_grants]. intros [He _]%filter_elem Ha.
  apply list_elem_of_fmap in He as (x & -> & Hx). destruct (entry_expired now x) eqn:Ex; [done|]. done.
Qed.

Lemma spec_mutate_only_ends now kind operation s m s' :
  (∀ changed s1, operation s (proposed_generation (s_generation s)) = Ok (changed, s1) → grants_only_end s s1) →
  spec_mutate now kind operation s = Ok (m, s') → grants_only_end s s'.
Proof.
  intros Hop Hok. unfold spec_mutate in Hok. apply bind_Ok in Hok as ([changed s1] & Hs1 & Hok). apply Hop in Hs1. cbn in Hok.
  destruct (negb _); [by injection Hok as <- <-|]. apply bind_Ok in Hok as (? & _ & Hok). injection Hok as <- <-.
  apply (only_end_trans s s1); [done|done|]. intros e He Ha. by apply commit_active in He as [? _].
Qed.

Lemma spec_expire_only_ends now s g s' : spec_expire_for_read now s = Ok (g, s') → grants_only_end s s'.
Proof.
  intros Hok. apply bind_Ok in Hok as ([m s1] & Hm & Hok). injection Hok as <- <-. revert Hm. apply spec_mutate_only_ends.
  intros changed s2 [= <- <-]. apply only_end_refl.
Qed.

Lemma first_issuance_only_ends key candidate now s g changed s' :
  spec_first_issuance key candidate now s g = Ok (changed, s') → grants_only_end s s'.
Proof.
  intros Hok. unfold spec_first_issuance in Hok. apply bind_Ok in Hok as (? & Hfresh%fail_if_Ok & Hok).
  do 5 apply bind_Ok in Hok as (? & _ & Hok). injection Hok as <- <-. unfold add_grant. split; cbn [with_grants s_grants s_grant_ids].
  - intros id Hid. rewrite sort_insert_perm. by right.
  - intros e He _. rewrite sort_insert_perm in He. apply elem_of_cons in He as [->|He]; [right|by left].
    change (grant_id candidate ∉ s_grant_ids s). intros Hin%existsb_is. congruence.
Qed.

Lemma spec_query_only_ends {A} observed required now (f : AuthState → A) s :
  grants_only_end s (spec_query observed required now f s).2.1.
Proof.
  unfold spec_query, timed, spec_read. destruct (I64_MAX <? now); [apply only_end_refl|].
  destruct (s_generation s <? required); [apply only_end_refl|].
  destruct (spec_expire_for_read now s) as [[g s']|] eqn:Es; [|apply only_end_refl]. by apply spec_expire_only_ends in Es.
Qed.

Lemma spec_call_only_ends observed c s : grants_only_end s (spec_call observed c s).2.1.
Proof.
  assert (∀ A (m : store_result (A * AuthState)), (∀ a s', m = Ok (a, s') → grants_only_end s s') →
    grants_only_end s (spec_write observed s m).2.1) as Hw.
  { intros A m Hm. unfold spec_write. destruct (s_generation s <? observed); [apply only_end_refl|].
    destruct m as [[a s']|]; [by apply (Hm a)|apply only_end_refl]. }
  assert (mutation_step c = None ∨ ∃ kind now operation, mutation_step c = Some (kind, now, operation)) as [Hm|(kind & now & operation & Hm)].
  { destruct (mutation_step c) as [[[??]?]|]; eauto 10. }
  - destruct c; try discriminate; cbn [spec_call].
    + destruct (_ || _); [apply only_end_refl|]. apply Hw. intros a s' Hok. unfold spec_issue in Hok.
      destruct (find _ _) as [e|].
      * apply bind_Ok in Hok as (? & _ & Hok). apply bind_Ok in Hok as (? & _ & Hok). apply bind_Ok in Hok as ([g s1] & Hx & Hok).
        injection Hok as <- <-. by apply spec_expire_only_ends in Hx.
      * apply bind_Ok in Hok as ([m s1] & Hx & Hok). injection Hok as <- <-. revert Hx. apply spec_mutate_only_ends.
        intros changed s2. apply first_issuance_only_ends.
    + apply spec_query_only_ends.
    + apply spec_query_only_ends.
    + apply spec_query_only_ends.
    + destruct (_ || _); [apply only_end_refl|]. cbn. unfold spec_read. destruct (s_generation s <? _); apply only_end_refl.
  - assert (grants_only_end s (timed now observed s (spec_write observed s (spec_mutate now kind operation s))).2.1) as Hmut.
    { unfold timed. destruct (I64_MAX <? now); [apply only_end_refl|]. apply Hw. intros a s'. apply spec_mutate_only_ends.
      intros changed s1. by apply (mutation_only_ends s c kind now). }
    destruct c; cbn in Hm; try discriminate; cbn [spec_call mutation_step]; injection Hm as <- <- <-;
      try (destruct (negb (presence_evidence _)); [apply only_end_refl|]); exact Hmut.
Qed.

(** ** Generations *)

(** A call leaves the state alone, or commits the next generation with its audit event. *)
Definition generation_step (s s' : AuthState) : Prop :=
  s' = s ∨ (s_generation s' = s_generation s + 1
            ∧ ∃ kind at_, last (s_audit s') = Some (mk_AuditEvent (s_generation s') kind at_)).

Lemma mutation_unchanged s c kind now operation g s' :
  mutation_step c = Some (kind, now, operation) → operation s g = Ok (false, s') → s' = s.
Proof.
  assert (∀ expected updated, spec_advance_credential expected updated s g = Ok (false, s') → s' = s) as Hadv.
  { intros expected updated Hok. unfold spec_advance_credential in Hok. apply bind_Ok in Hok as (? & _ & Hok).
    apply bind_Ok in Hok as (? & _ & Hok). destruct (bool_decide _); by injection Hok. }
  intros Hm. destruct c; cbn in Hm; try discriminate; injection Hm as <- <- <-; try (by apply Hadv).
  - unfold spec_terminalize. intros Hok. apply bind_Ok in Hok as (e & _ & Hok). destruct (entry_live _ _); by injection Hok.
  - unfold spec_terminalize. intros Hok. apply bind_Ok in Hok as (e & _ & Hok). destruct (entry_live _ _); by injection Hok.
  - unfold spec_suspend. destruct (suspended s profile); [by intros [= <-]|].
    intros Hok. apply bind_Ok in Hok as (? & _ & Hok). discriminate.
  - unfold spec_resume, suspended. intros [= Hs <-]. rewrite filter_all; [by destruct s|]. intros p Hp.
    apply negb_true_iff, not_true_is_false. intros Hx. assert (existsb (fun q => bool_decide (q = profile)) (s_suspended s) = true); [|congruence].
    by apply (existsb_true _ _ p).
  - unfold spec_set_issuer. intros Hok. apply bind_Ok in Hok as (i & _ & Hok).
    destruct (bool_decide (_ = availability) && _); by injection Hok.
  - unfold spec_replace_policy. intros Hok. apply bind_Ok in Hok as (? & _ & Hok). apply bind_Ok in Hok as (? & _ & Hok). discriminate.
  - unfold spec_register_issuer. intros Hok. do 3 apply bind_Ok in Hok as (? & _ & Hok). discriminate.
  - unfold spec_remove_issuer. destruct (find_issuer_record _ _ _).
    + intros Hok. apply bind_Ok in Hok as (? & _ & Hok). discriminate.
    + destruct (existsb _ _); [by intros [= <-]|done].
  - unfold spec_register_credential. destruct (s_credential s).
    + destruct (bool_decide _); [by intros [= <-]|done].
    + intros Hok. apply bind_Ok in Hok as (? & _ & Hok). discriminate.
  - unfold spec_replace_credential. intros Hok. do 2 apply bind_Ok in Hok as (? & _ & Hok).
    destruct (bool_decide _); [by injection Hok|]. do 2 apply bind_Ok in Hok as (? & _ & Hok). discriminate.
  - intros Hok. apply bind_Ok in Hok as (? & _ & Hok). by apply Hadv in Hok.
  - unfold spec_remove_credential. destruct (s_credential s).
    + intros Hok. apply bind_Ok in Hok as (? & _ & Hok). discriminate.
    + destruct (existsb _ _); [by intros [= <-]|done].
Qed.

Lemma commit_last g kind now s : last (s_audit (commit g kind now s)) = Some (mk_AuditEvent g kind now).
Proof.
  cbn [commit with_audit s_audit]. rewrite drop_app_le; [apply last_snoc|]. rewrite length_app. cbn [length].
  unfold MAX_AUTHORIZATION_AUDIT_RECORDS. lia.
Qed.

Lemma spec_mutate_generation now kind operation s m s' :
  (∀ s1, operation s (proposed_generation (s_generation s)) = Ok (false, s1) → s1 = s) →
  state_ok s → spec_mutate now kind operation s = Ok (m, s') →
  mutation_generation m = s_generation s' ∧ generation_step s s'.
Proof.
  intros Hun Hs Hok. unfold spec_mutate in Hok. apply bind_Ok in Hok as ([changed s1] & Hs1 & Hok). cbn [fst snd] in Hok.
  destruct (negb _) eqn:Eno.
  - injection Hok as <- <-. apply negb_true_iff, orb_false_iff in Eno as [-> _]. apply Hun in Hs1 as ->. split; [done|by left].
  - apply bind_Ok in Hok as (? & Hne%fail_if_Ok & Hok). injection Hok as <- <-. split; [done|]. right.
    cbn [commit with_audit s_generation]. destruct (next_generation_cases _ (ok_generation _ Hs)) as [[Hp _]|[Hp _]]; [|lia].
    split; [done|]. eexists _, now. apply commit_last.
Qed.

Lemma spec_expire_generation now s g s' : state_ok s → spec_expire_for_read now s = Ok (g, s') → generation_step s s'.
Proof.
  intros Hs Hok. apply bind_Ok in Hok as ([m s1] & Hm & Hok). injection Hok as <- <-.
  apply spec_mutate_generation in Hm as [_ ?]; [done| |done]. by intros s2 [= <-].
Qed.

Lemma spec_query_generation {A} observed required now (f : AuthState → A) s :
  state_ok s → generation_step s (spec_query observed required now f s).2.1.
Proof.
  intros Hs. unfold spec_query, timed, spec_read. destruct (I64_MAX <? now); [by left|].
  destruct (s_generation s <? required); [by left|].
  destruct (spec_expire_for_read now s) as [[g s']|] eqn:Es; [|by left]. by apply spec_expire_generation in Es.
Qed.

Lemma spec_write_generation {A} observed s (m : store_result (A * AuthState)) :
  (∀ a s', m = Ok (a, s') → generation_step s s') → generation_step s (spec_write observed s m).2.1.
Proof.
  intros Hm. unfold spec_write. destruct (s_generation s <? observed); [by left|].
  destruct m as [[a s']|]; [by apply (Hm a)|by left].
Qed.

Lemma spec_issue_generation key candidate now s r s' :
  state_ok s → spec_issue key candidate now s = Ok (r, s') →
  mutation_generation (issuance_mutation r) = s_generation s' ∧ generation_step s s'.
Proof.
  intros Hs Hok. unfold spec_issue in Hok. destruct (find _ _) as [e|].
  - apply bind_Ok in Hok as (? & _ & Hok). apply bind_Ok in Hok as (? & _ & Hok).
    apply bind_Ok in Hok as ([g s1] & Hx & Hok). injection Hok as <- <-. cbn.
    unfold spec_expire_for_read in Hx. apply bind_Ok in Hx as ([m s2] & Hm & Hx). injection Hx as <- <-.
    apply spec_mutate_generation in Hm; [done| |done]. by intros s3 [= <-].
  - apply bind_Ok in Hok as ([m s1] & Hx & Hok). injection Hok as <- <-.
    apply spec_mutate_generation in Hx; [done| |done]. unfold spec_first_issuance. intros s2 Hop.
    do 6 apply bind_Ok in Hop as (? & _ & Hop). discriminate.
Qed.

Lemma spec_call_generation observed c s : state_ok s → generation_step s (spec_call observed c s).2.1.
Proof.
  intros Hs. destruct (mutation_step c) as [[[kind now] operation]|] eqn:Hm.
  - assert (generation_step s (timed now observed s (spec_write observed s (spec_mutate now kind operation s))).2.1) as Hmut.
    { unfold timed. destruct (I64_MAX <? now); [by left|]. apply spec_write_generation. intros a s' Hok.
      apply spec_mutate_generation in Hok as [_ ?]; [done| |done]. intros s1. by apply (mutation_unchanged s c kind now). }
    destruct c; cbn in Hm; try discriminate; cbn [spec_call mutation_step]; injection Hm as <- <- <-;
      try (destruct (negb (presence_evidence _)); [by left|]); exact Hmut.
  - destruct c; try discriminate; cbn [spec_call]; try (by apply spec_query_generation).
    + destruct (_ || _); [by left|]. apply spec_write_generation. intros a s' Hok. by apply spec_issue_generation in Hok as [_ ?].
    + destruct (_ || _); [by left|]. cbn. unfold spec_read. destruct (s_generation s <? _); by left.
Qed.

(** What a handle has observed after a call that had observed [observed]. *)
Definition observes {A} (observed : Z) (s : AuthState) (r : store_result A * (AuthState * Z)) : Prop :=
  observed <= r.2.2 <= Z.max observed (s_generation r.2.1) ∧ match r.1 with Ok _ => r.2.2 = s_generation r.2.1 | Err _ => r.2.1 = s end.

Lemma generation_step_le s s' : generation_step s s' → s_generation s <= s_generation s'.
Proof. intros [->|[-> _]]; lia. Qed.

Lemma spec_write_observes {A} observed s (m : store_result (A * AuthState)) :
  (∀ a s', m = Ok (a, s') → generation_step s s') → observes observed s (spec_write observed s m).
Proof.
  intros Hm. unfold spec_write, observes. destruct (s_generation s <? observed) eqn:E; [cbn; split; [lia|done]|].
  destruct m as [[a s']|]; cbn; [|split; [lia|done]]. split; [|done]. pose proof (generation_step_le _ _ (Hm a s' eq_refl)). lia.
Qed.

Lemma spec_read_observes {A} observed required s (m : store_result (A * AuthState)) :
  observed <= required → (∀ a s', m = Ok (a, s') → generation_step s s') → observes observed s (spec_read observed required s m).
Proof.
  intros Hr Hm. unfold spec_read, observes. destruct (s_generation s <? required) eqn:E; [cbn; split; [lia|done]|].
  destruct m as [[a s']|]; cbn; [|split; [lia|done]]. split; [|done]. pose proof (generation_step_le _ _ (Hm a s' eq_refl)). lia.
Qed.

Lemma timed_observes {A} now observed s (r : store_result A * (AuthState * Z)) :
  observes observed s r → observes observed s (timed now observed s r).
Proof. intros Hr. unfold timed. destruct (I64_MAX <? now); [|done]. split; cbn; [lia|done]. Qed.

Lemma answer_observes {A} (f : A → AuthorizationAnswer) observed s r : observes observed s r → observes observed s (answer f r).
Proof. unfold observes, answer. destruct r as [[a|e] [s' g]]; done. Qed.

Lemma spec_query_observes {A} observed required now (f : AuthState → A) s :
  state_ok s → observed <= required → observes observed s (spec_query observed required now f s).
Proof.
  intros Hs Hr. apply timed_observes, spec_read_observes; [done|]. intros a s' Hok. apply bind_Ok in Hok as ([g s1] & Hx & Hok).
  injection Hok as <- <-. by apply spec_expire_generation in Hx.
Qed.

Lemma required_above high_water observed : observed <= required_high_water high_water observed.
Proof. destruct high_water as [h|]; cbn; [|lia]. destruct (observed <? h) eqn:E; lia. Qed.

Lemma spec_call_observes observed c s : state_ok s → observes observed s (spec_call observed c s).
Proof.
  intros Hs. destruct (mutation_step c) as [[[kind now] operation]|] eqn:Hm.
  - assert (observes observed s (timed now observed s (spec_write observed s (spec_mutate now kind operation s)))) as Hmut.
    { apply timed_observes, spec_write_observes. intros a s' Hok.
      apply spec_mutate_generation in Hok as [_ ?]; [done| |done]. intros s1. by apply (mutation_unchanged s c kind now). }
    destruct c; cbn in Hm; try discriminate; cbn [spec_call mutation_step]; injection Hm as <- <- <-;
      try (destruct (negb (presence_evidence _)); [split; cbn; [lia|done]|]); apply answer_observes, Hmut.
  - destruct c; try discriminate; cbn [spec_call].
    + destruct (_ || _); [split; cbn; [lia|done]|]. apply answer_observes, spec_write_observes.
      intros a s' Hok. by apply spec_issue_generation in Hok as [_ ?].
    + apply answer_observes, spec_query_observes; [done|]. apply required_above.
    + by apply answer_observes, spec_query_observes.
    + apply answer_observes, spec_query_observes; [done|]. apply required_above.
    + destruct (_ || _); [split; cbn; [lia|done]|]. apply answer_observes, spec_read_observes.
      * apply required_above.
      * intros a s' [= _ <-]. by left.
Qed.

(** What the calls after a store lead to. *)
Inductive later (fingerprint : bytes) (db : AuthTables) : AuthTables → Prop :=
| later_now : later fingerprint db db
| later_call db' observed c :
    later fingerprint db db' → call_ok c → later fingerprint db (run_call fingerprint observed c db').2.1.

(** No active grant of the state has the identifier, which is reserved. *)
Definition ended (id : SessionGrantId) (s : AuthState) : Prop :=
  id ∈ s_grant_ids s ∧ ∀ e, e ∈ s_grants s → entry_id e = id → entry_active e = false.

Lemma ended_step id s s' : ended id s → grants_only_end s s' → ended id s'.
Proof.
  intros [Hid He] [Hi Hg]. split; [auto|]. intros e Hin Heq. apply not_true_is_false. intros Ha.
  destruct (Hg e Hin Ha) as [Hold|Hnew]; [by rewrite (He e Hold Heq) in Ha|]. by rewrite Heq in Hnew.
Qed.

Lemma later_ended fingerprint s id db' :
  fingerprint_ok fingerprint → state_ok s → ended id s → later fingerprint (tables_of fingerprint s) db' →
  ∃ s', state_ok s' ∧ db' = tables_of fingerprint s' ∧ ended id s'.
Proof.
  intros Hfp Hs He. induction 1 as [|db' observed c _ IH Hc]; [by exists s|].
  destruct IH as (s' & Hs' & -> & He'). exists (spec_call observed c s').2.1. split_and!.
  - by apply spec_call_ok.
  - by rewrite run_call_of.
  - apply (ended_step id s'); [done|apply spec_call_only_ends].
Qed.

(** A snapshot of an encoded state is the snapshot of the state after its expiry. *)
Lemma load_snapshot_inv fingerprint s observed now high_water snapshot db' g :
  fingerprint_ok fingerprint → state_ok s → 0 <= now →
  load_snapshot fingerprint observed (tables_of fingerprint s) now high_water = (Ok snapshot, (db', g)) →
  ∃ s', spec_expire_for_read now s = Ok (s_generation s', s') ∧ state_ok s' ∧ db' = tables_of fingerprint s'
        ∧ g = s_generation s' ∧ snapshot = spec_snapshot now s' ∧ now <= I64_MAX
        ∧ required_high_water high_water observed <= s_generation s.
Proof.
  intros Hfp Hs Hnow Hsn. unfold load_snapshot in Hsn.
  rewrite (expiring_read_of _ Hfp s observed _ now _ (spec_snapshot now)) in Hsn by (first [done|intros; by apply read_snapshot_of]).
  unfold spec_query, timed, spec_read in Hsn. destruct (I64_MAX <? now) eqn:En; [done|].
  destruct (s_generation s <? _) eqn:Er; [done|]. destruct (spec_expire_for_read now s) as [[g' s']|] eqn:Es; [|done].
  pose proof (spec_expire_ok s now g' s' Hs ltac:(lia) Es) as [Hok ->]. cbn in Hsn. injection Hsn as <- <- <-.
  exists s'. split_and!; (done || lia).
Qed.

End history.
