(* ===== verification/AuthorizationTheorems.v ===== *)
(** * What the authorization store guarantees

    The theorems on every store a bootstrap and any calls can reach. *)

From S2P Require Import Prelude Identifiers LocalGrants AuthorizationStore AuthorizationOps AuthorizationSpec.
From S2P Require Import AuthorizationCodec AuthorizationSteps AuthorizationInvariant AuthorizationProofs AuthorizationHistory.
Open Scope Z_scope.

Section theorems.
Context `{Sha256} `{WebAuthnDocuments}.

(** C6: every call on every reachable authorization store answers what the specification
    answers, commits exactly the state the specification makes, and that state is again a
    committed one, so the validation an operation runs before and after its write never
    refuses: [spec_call] has no storage, schema or constraint failure in it. *)
Theorem authorization_store_refines fingerprint db observed c :
  fingerprint_ok fingerprint → reachable fingerprint db → call_ok c →
  ∃ s, db = tables_of fingerprint s ∧ state_ok s
       ∧ run_call fingerprint observed c db = encoded fingerprint (spec_call observed c s)
       ∧ state_ok (spec_call observed c s).2.1.
Proof.
  intros Hfp Hr Hc. destruct (reachable_state _ _ Hfp Hr) as (s & Hs & ->). exists s. split_and!; try done.
  - by apply run_call_of.
  - by apply spec_call_ok.
Qed.

(** ** Well-formed tables *)

Definition sql_integer (z : Z) : Prop := 0 <= z <= I64_MAX.

Definition grant_cells_fit (row : GrantRow) : Prop :=
  sql_integer (gr_policy_version row) ∧ sql_integer (gr_issued_at row) ∧ sql_integer (gr_expires_at row)
  ∧ (∀ g, gr_terminal_generation row = Some g → sql_integer g) ∧ (∀ t, gr_terminal_at row = Some t → sql_integer t).

(** The [UNIQUE] columns of the grants. *)
Definition grant_request_key (row : GrantRow) : IssuerKeyId * Z * (ClientInstanceId * RequestId) :=
  (gr_issuer_key_id row, gr_issuer_key_version row, (gr_client_instance row, gr_request_id row)).

Definition request_cell (r : IssuerKeyId * IssuerKeyVersion * GrantIssuanceKey) : IssuerKeyId * Z * (ClientInstanceId * RequestId) :=
  (key_cell r.1, (issuance_client_instance r.2, issuance_request_id r.2)).

Lemma request_cell_inj : Inj (=) (=) request_cell.
Proof.
  intros [k [c q]] [k' [c' q']] [= Hi Hv -> ->]. assert (k = k') as -> by (apply key_cell_inj; unfold key_cell; by f_equal). done.
Qed.

Lemma grant_request_key_of e : grant_request_key (grant_row e) = request_cell (entry_request e).
Proof.
  unfold grant_request_key. destruct (gr_fields_of e) as (_ & _ & _ & -> & -> & _ & -> & -> & _). done.
Qed.

Lemma grant_row_fits bound s e :
  raw (policy_version (s_policy s)) <= I64_MAX → bound <= I64_MAX → entry_ok entry_active bound s e →
  grant_row_checks (grant_row e) = true ∧ grant_cells_fit (grant_row e).
Proof.
  intros Hp Hb (_ & Hx & (i & (_ & _ & _ & Hv) & _) & Hend). pose proof (grant_times (entry_grant e)) as Ht.
  pose proof (policy_version_range (grant_policy_version (entry_grant e))) as Hpv.
  destruct (gr_fields_of e) as (Hf1 & Hf2 & _). unfold grant_cells_fit. rewrite Hf1, Hf2.
  unfold grant_row. destruct (entry_end e) as [[[st g] t]|] eqn:Ee.
  - destruct (Hend _ eq_refl) as (Hst & Hg & Hat). cbn in Hst, Hg, Hat. split; [by apply ended_cells; [..|lia|lia]|].
    unfold sql_integer. split_and!; cbn; try lia.
    + intros g' [= <-]. lia.
    + intros t' [= <-]. lia.
  - destruct (grant_cells (entry_key e) (entry_grant e)) as (_ & _ & _ & Hc). split; [done|].
    unfold sql_integer. split_and!; cbn; try lia; done.
Qed.

(** C14: in every reachable store the rows have the types and keys the schema asks for: each
    grant row meets the [CHECK] constraints and holds integers of 63 bits; the keys are unique:
    grant identifiers, the issuer key, client instance and request of a grant, reserved grant,
    issuer and credential identifiers, issuer keys and suspended profiles; no row lacks its
    parent; and the audit log holds the last generations without a gap. *)
Theorem authorization_tables_well_typed fingerprint db :
  fingerprint_ok fingerprint → reachable fingerprint db →
  sql_integer (t_generation db) ∧ sql_integer (t_policy_version db)
  ∧ (∀ row, row ∈ t_grants db → grant_row_checks row = true ∧ grant_cells_fit row)
  ∧ NoDup (gr_grant_id <$> t_grants db) ∧ NoDup (grant_request_key <$> t_grants db)
  ∧ NoDup (t_grant_identifiers db) ∧ NoDup (t_issuer_identifiers db) ∧ NoDup (issuer_row_key <$> t_issuers db)
  ∧ NoDup (t_suspended db) ∧ NoDup (t_credential_identifiers db) ∧ foreign_key_violation db = false
  ∧ (fun e => e.1.1) <$> t_audit db
    = seqZ (t_generation db - Z.min (t_generation db) MAX_AUTHORIZATION_AUDIT_RECORDS + 1)
        (Z.min (t_generation db) MAX_AUTHORIZATION_AUDIT_RECORDS).
Proof.
  intros Hfp Hr. destruct (reachable_state _ _ Hfp Hr) as (s & Hs & ->). pose proof (ok_generation _ Hs) as Hg.
  pose proof (ok_inv _ Hs) as Hinv. pose proof (inv_policy _ _ _ Hinv) as Hp.
  pose proof (policy_version_range (policy_version (s_policy s))).
  cbn [tables_of t_generation t_policy_version t_grants t_grant_identifiers t_issuer_identifiers t_issuers t_suspended
    t_credential_identifiers t_audit].
  split_and!; try (unfold sql_integer; lia).
  - intros row (e & -> & He)%list_elem_of_fmap. apply (grant_row_fits (s_generation s) s); [done|lia|].
    by apply (inv_entries _ _ _ Hinv).
  - rewrite <- list_fmap_compose. erewrite list_fmap_ext; [apply (inv_ids _ _ _ Hinv)|]. intros k e _. apply gr_grant_id_of.
  - rewrite <- list_fmap_compose. erewrite list_fmap_ext; [|intros k e _; apply grant_request_key_of].
    change (fun e => request_cell (entry_request e)) with (request_cell ∘ entry_request). rewrite list_fmap_compose.
    apply NoDup_fmap_2; [apply request_cell_inj|apply Hinv].
  - apply Hinv.
  - apply NoDup_fmap_2; [apply key_cell_inj|apply Hinv].
  - rewrite <- list_fmap_compose. change (issuer_row_key ∘ issuer_row) with (key_cell ∘ issuer_key_of).
    rewrite list_fmap_compose. apply NoDup_fmap_2; [apply key_cell_inj|apply Hinv].
  - apply NoDup_fmap_2; [intros x y; apply raw_inj|apply Hinv].
  - apply Hinv.
  - by apply foreign_keys_of.
  - rewrite <- list_fmap_compose. apply (ok_audit _ Hs).
Qed.

(** ** Snapshots *)

(** Whether a snapshot of a committed state lists a grant with its authority. *)
Definition snapshot_backs (now : Z) (snapshot : AuthorizationSnapshot) (g : SessionGrant) : Prop :=
  now < grant_expires_at g
  ∧ (grant_profile g ∉ snapshot_suspended snapshot)
  ∧ policy_accepts (snapshot_policy snapshot) (grant_evidence g) = true
  ∧ ∃ i, i ∈ snapshot_issuers snapshot ∧ issuer_key_of i = issuer_key g
         ∧ harness_allowed (issuer_registration i) (grant_harness g) = true
         ∧ permits (registration_profiles (issuer_registration i)) (grant_profile g) = true
         ∧ ¬ (issuer_availability i = Disabled ∧ issuer_disposition i = RevokeExisting).

Definition within_quotas (l : list SessionGrant) : Prop :=
  len l <= MAX_SESSION_GRANTS
  ∧ (∀ id, count (fun g => bool_decide (grant_issuer_key_id g = id)) l <= MAX_GRANTS_PER_ISSUER)
  ∧ (∀ p, count (fun g => bool_decide (grant_profile g = p)) l <= MAX_GRANTS_PER_PROFILE).

Lemma live_grants_elem now s g :
  g ∈ live_grants now s ↔ (∃ e, e ∈ s_grants s ∧ entry_live now e = true ∧ entry_grant e = g).
Proof.
  unfold live_grants. rewrite list_elem_of_fmap. setoid_rewrite filter_elem. naive_solver.
Qed.

Lemma spec_snapshot_backs now s g : state_ok s → g ∈ live_grants now s → snapshot_backs now (spec_snapshot now s) g.
Proof.
  intros Hs (e & He & Hl & <-)%live_grants_elem.
  destruct (inv_entries _ _ _ (ok_inv _ Hs) e He) as (_ & _ & (i & (Hi & Hh & Hp & _) & Hau) & _).
  destruct (Hau (live_active _ _ Hl)) as (Hs1 & Hs2 & Hs3). apply find_is in Hi as [Hin Hk].
  unfold entry_live in Hl. apply andb_true_iff in Hl as [_ Hl]. split_and!; [lia| |done|].
  - cbn. intros Hsus%existsb_is. unfold suspended in Hs1. congruence.
  - by exists i.
Qed.

Lemma live_ids now s : state_ok s → NoDup (grant_id <$> live_grants now s).
Proof. intros Hs. unfold live_grants. rewrite <- list_fmap_compose. apply NoDup_fmap_filtered, (inv_ids _ _ _ (ok_inv _ Hs)). Qed.

Lemma live_quotas now s : state_ok s → within_quotas (live_grants now s).
Proof.
  intros Hs. destruct (inv_quotas _ _ _ (ok_inv _ Hs)) as (Hq & Hi & Hp). unfold within_quotas, live_grants.
  assert (∀ (p : GrantEntry → bool) (q : SessionGrant → bool), (∀ e, q (entry_grant e) = p e) →
    count q (entry_grant <$> List.filter (entry_live now) (s_grants s)) <= count (fun e => entry_active e && p e) (s_grants s)) as Hc.
  { intros p q Hpq. rewrite (count_encoded entry_grant q p) by auto. unfold count. rewrite filter_filter. apply count_le.
    intros e _ [Hl ->]%andb_true_iff. apply live_active in Hl. by rewrite Hl. }
  split_and!.
  - rewrite len_encoded. by apply live_count.
  - intros id. etransitivity; [by apply Hc|apply (Hi id)].
  - intros p. etransitivity; [by apply Hc|apply (Hp p)].
Qed.

(** C12: a snapshot of a reachable store lists only grants that have not expired at its clock,
    whose issuer it lists with a registration covering the harness and the profile and not
    revoking its grants, whose profile it does not list as suspended and whose evidence its
    policy accepts; each grant once, within the three quotas. *)
Theorem snapshot_authorized fingerprint db observed now high_water snapshot rest :
  fingerprint_ok fingerprint → reachable fingerprint db → 0 <= now →
  load_snapshot fingerprint observed db now high_water = (Ok snapshot, rest) →
  (∀ g, g ∈ snapshot_grants snapshot → snapshot_backs now snapshot g)
  ∧ NoDup (grant_id <$> snapshot_grants snapshot) ∧ within_quotas (snapshot_grants snapshot).
Proof.
  intros Hfp Hr Hnow Hsn. destruct (reachable_state _ _ Hfp Hr) as (s & Hs & ->). destruct rest as [db' g].
  apply load_snapshot_inv in Hsn as (s' & _ & Hs' & _ & _ & -> & _); [|done..]. split_and!.
  - intros g'. by apply spec_snapshot_backs.
  - by apply live_ids.
  - by apply live_quotas.
Qed.

(** ** Generations *)

(** C23: whatever a handle calls, a refused call leaves every table as it was; a call that
    succeeds leaves them as they were or commits the next generation with its audit event, and
    the handle has then observed the generation of the tables. What a handle has observed
    never goes back. *)
Theorem generation_counts_changes fingerprint db observed c r db' g :
  fingerprint_ok fingerprint → reachable fingerprint db → call_ok c →
  run_call fingerprint observed c db = (r, (db', g)) →
  observed <= g
  ∧ match r with Err _ => db' = db | Ok _ => g = t_generation db' end
  ∧ (db' = db ∨ (t_generation db' = t_generation db + 1
                 ∧ ∃ kind at_, last (t_audit db') = Some (t_generation db', audit_kind_code kind, at_))).
Proof.
  intros Hfp Hr Hc Hrun. destruct (reachable_state _ _ Hfp Hr) as (s & Hs & ->). rewrite run_call_of in Hrun by done.
  destruct (spec_call_observes observed c s Hs) as [[Hle _] Hout]. pose proof (spec_call_generation observed c s Hs) as Hstep.
  destruct (spec_call observed c s) as [r0 [s' g']]. injection Hrun as <- <- <-. cbn [fst snd] in *. split_and!; [done| |].
  - destruct r0; [done|]. by rewrite Hout.
  - destruct Hstep as [->|[Hg (kind & at_ & Hl)]]; [by left|]. right. split; [done|]. exists kind, at_.
    cbn [tables_of t_audit t_generation]. by rewrite fmap_last, Hl.
Qed.

(** ** Revocation *)

Lemma terminalize_ends id st now s g changed s1 :
  state_ok s → spec_terminalize id st now s g = Ok (changed, s1) →
  id ∈ s_grant_ids s1 ∧ ∀ e, e ∈ s_grants s1 → entry_id e = id → entry_live now e = false.
Proof.
  intros Hs Hok. unfold spec_terminalize in Hok. apply bind_Ok in Hok as (e0 & Hf%ok_or_Ok & Hok).
  apply find_is in Hf as [Hin Hid].
  assert (id ∈ s_grant_ids s) as Hres. { rewrite <- Hid. by destruct (inv_entries _ _ _ (ok_inv _ Hs) e0 Hin) as [? _]. }
  destruct (entry_live now e0) eqn:El; injection Hok as <- <-; (split; [done|]).
  - intros e (x & -> & Hx)%list_elem_of_fmap. destruct (bool_decide (entry_id x = id) && entry_active x) eqn:Ep; [done|].
    intros Hxid. rewrite bool_decide_eq_true_2 in Ep by done. cbn [andb] in Ep. unfold entry_live. by rewrite Ep.
  - intros e He Heq. by rewrite (elem_unique entry_id (s_grants s) e e0 (inv_ids _ _ _ (ok_inv _ Hs)) He Hin ltac:(congruence)).
Qed.

Lemma spec_terminalize_mutate_ends id st now kind s m s' :
  state_ok s → spec_mutate now kind (spec_terminalize id st now) s = Ok (m, s') → ended id s'.
Proof.
  intros Hs Hok. unfold spec_mutate in Hok. apply bind_Ok in Hok as ([changed s1] & Hop & Hok). cbn in Hok.
  destruct (terminalize_ends _ _ _ _ _ _ _ Hs Hop) as [Hid Hlive].
  destruct (negb _) eqn:Eno.
  - injection Hok as <- <-. split; [done|]. intros e He Heq. specialize (Hlive e He Heq).
    apply negb_true_iff, orb_false_iff in Eno as [_ Eno]. unfold entry_live in Hlive.
    apply not_true_is_false. intros Ha. rewrite Ha in Hlive. cbn in Hlive.
    assert (entry_expired now e = true) as Hx by (unfold entry_expired; rewrite Ha; cbn; lia).
    apply (existsb_true _ _ e He) in Hx. congruence.
  - apply bind_Ok in Hok as (? & _ & Hok). injection Hok as <- <-. split; [done|]. intros e He Heq.
    apply not_true_is_false. intros Ha. apply commit_active in He as [He Hx]; [|done]. specialize (Hlive e He Heq).
    unfold entry_live, entry_expired in *. rewrite Ha in *. cbn in *. lia.
Qed.

Lemma ended_not_listed id now s : ended id s → id ∉ grant_id <$> live_grants now s.
Proof.
  intros [_ He] (g & Hid & Hg)%list_elem_of_fmap. apply live_grants_elem in Hg as (e & Hin & Hl & <-).
  apply live_active in Hl. by rewrite (He e Hin) in Hl.
Qed.

Lemma revoke_ends fingerprint s observed id now m db' g :
  fingerprint_ok fingerprint → state_ok s → 0 <= now →
  revoke_grant fingerprint observed (tables_of fingerprint s) id now = (Ok m, (db', g)) →
  ∃ s', state_ok s' ∧ db' = tables_of fingerprint s' ∧ ended id s'.
Proof.
  intros Hfp Hs Hnow Hrev.
  pose proof (run_call_of fingerprint Hfp s observed (CallRevoke id now) Hs Hnow) as Hrun.
  pose proof (spec_call_ok s observed (CallRevoke id now) Hs Hnow) as Hok.
  cbn [run_call] in Hrun. rewrite Hrev in Hrun. cbn [spec_call mutation_step] in Hrun, Hok.
  unfold answer_of, encoded, answer, timed, spec_write in *. cbn [fst snd fmap result_fmap] in *.
  destruct (I64_MAX <? now); [done|]. destruct (s_generation s <? observed); [done|].
  destruct (spec_mutate now AuditGrantRevoked _ s) as [[m' s']|] eqn:Em; [|done]. cbn in Hrun, Hok. injection Hrun as <- -> _.
  exists s'. split_and!; [done|done|]. by apply spec_terminalize_mutate_ends in Em.
Qed.

(** C13: once a revocation has succeeded, no later snapshot lists the grant: whatever calls any
    handles make in between, at any clocks, even after the record of the grant is pruned, its
    issuer removed and registered again or its profile suspended and resumed. *)
Theorem revocation_is_final fingerprint db observed id now m db' g later_db observed' now' high_water snapshot rest :
  fingerprint_ok fingerprint → reachable fingerprint db → 0 <= now → 0 <= now' →
  revoke_grant fingerprint observed db id now = (Ok m, (db', g)) →
  later fingerprint db' later_db →
  load_snapshot fingerprint observed' later_db now' high_water = (Ok snapshot, rest) →
  id ∉ grant_id <$> snapshot_grants snapshot.
Proof.
  intros Hfp Hr Hnow Hnow' Hrev Hlater Hsn. destruct (reachable_state _ _ Hfp Hr) as (s & Hs & ->).
  apply revoke_ends in Hrev as (s' & Hs' & -> & Hend); [|done..].
  apply (later_ended _ _ id) in Hlater as (s2 & Hs2 & -> & Hend2); [|done..]. destruct rest as [db3 g3].
  apply load_snapshot_inv in Hsn as (s3 & Hx & _ & _ & _ & -> & _); [|done..].
  apply ended_not_listed, (ended_step id s2); [done|]. by apply (spec_expire_only_ends now' s2 (s_generation s3)).
Qed.

(** ** Replays *)

Lemma spec_expire_succeeds now s : state_ok s → s_generation s < I64_MAX → ∃ s', spec_expire_for_read now s = Ok (s_generation s', s').
Proof.
  intros Hs Hg. unfold spec_expire_for_read, spec_mutate. cbn [mbind result_bind fst snd orb].
  destruct (existsb _ _); cbn [negb]; [|by exists s].
  destruct (next_generation_cases _ (ok_generation _ Hs)) as [[Hp _]|[_ Hp]]; [|lia].
  rewrite fail_if_pass by lia. cbn [mbind result_bind fst snd]. match goal with |- ∃ _, Ok (_, ?c) = _ => by exists c end.
Qed.

Lemma expire_keeps_live now s g s' e :
  spec_expire_for_read now s = Ok (g, s') → e ∈ s_grants s → entry_live now e = true → e ∈ s_grants s'.
Proof.
  intros Hok He Hl. apply bind_Ok in Hok as ([m s1] & Hm & Hok). injection Hok as <- <-. unfold spec_mutate in Hm.
  cbn [mbind result_bind fst snd] in Hm. destruct (negb _); [by injection Hm as _ <-|].
  apply bind_Ok in Hm as (? & _ & Hm). injection Hm as _ <-. cbn [commit with_audit s_grants with_grants].
  apply filter_elem. split.
  - apply list_elem_of_fmap. exists e. split; [|done]. unfold entry_live, entry_expired in *. apply andb_true_iff in Hl as [-> Hl].
    cbn. destruct (grant_expires_at (entry_grant e) <=? now) eqn:E; [lia|done].
  - apply live_active in Hl. by rewrite Hl.
Qed.

Lemma issued_for_request id version key e : issued_for id version key e = true ↔ entry_request e = (id, version, key).
Proof.
  unfold issued_for, issued_by, entry_request. rewrite andb_true_iff, !bool_decide_eq_true. split.
  - by intros [-> ->].
  - intros Heq. injection Heq as H1 H2 H3. unfold issuer_key. by rewrite H1, H2, H3.
Qed.

(** Expiry keeps what a record says, and whether its grant is live. *)
Lemma expire_entry now s g s' e' :
  spec_expire_for_read now s = Ok (g, s') → e' ∈ s_grants s' →
  ∃ e, e ∈ s_grants s ∧ entry_request e' = entry_request e ∧ entry_live now e' = entry_live now e.
Proof.
  intros Hok He. apply bind_Ok in Hok as ([m s1] & Hm & Hok). injection Hok as <- <-. unfold spec_mutate in Hm.
  cbn [mbind result_bind fst snd] in Hm. destruct (negb _); [injection Hm as _ <-; by exists e'|].
  apply bind_Ok in Hm as (? & _ & Hm). injection Hm as _ <-. cbn [commit with_audit s_grants with_grants] in He.
  apply filter_elem in He as [He _]. apply list_elem_of_fmap in He as (e & -> & He). exists e. split; [done|].
  destruct (entry_expired now e) eqn:Ex; [|done]. split; [done|]. unfold entry_live, entry_expired in *. cbn.
  apply andb_true_iff in Ex as [-> Ex]. cbn. symmetry. lia.
Qed.

(** After expiry, the recovery read finds a recorded request exactly when its grant is live. *)
Lemma expired_active_grant id version key now s g s' e :
  state_ok s → state_ok s' → spec_expire_for_read now s = Ok (g, s') → find (issued_for id version key) (s_grants s) = Some e →
  spec_active_grant id version key now s' = if entry_live now e then Some (entry_grant e) else None.
Proof.
  intros Hs Hs' Hx Hf. apply find_some in Hf as [Hin%list_elem_of_In Hreq%issued_for_request]. unfold spec_active_grant.
  destruct (find _ (s_grants s')) as [e'|] eqn:Ef'.
  - apply find_some in Ef' as [Hin'%list_elem_of_In Hreq'%issued_for_request].
    destruct (expire_entry _ _ _ _ _ Hx Hin') as (e0 & Hin0 & Hr0 & Hl).
    assert (e0 = e) as -> by (apply (elem_unique entry_request (s_grants s)); [apply (ok_inv _ Hs)|done|done|congruence]).
    rewrite Hl. destruct (entry_live now e) eqn:El; [|done]. pose proof (expire_keeps_live _ _ _ _ _ Hx Hin El) as Hk.
    by rewrite (elem_unique entry_request (s_grants s') e' e (inv_requests _ _ _ (ok_inv _ Hs')) Hin' Hk Hr0).
  - destruct (entry_live now e) eqn:El; [|done]. pose proof (expire_keeps_live _ _ _ _ _ Hx Hin El) as Hk.
    apply list_elem_of_In, (find_none _ _ Ef') in Hk. by apply issued_for_request in Hreq; rewrite Hreq in Hk.
Qed.

Lemma live_stored now e : end_stored e → is_active (stored_of e) && (now <? grant_expires_at (stored_grant (stored_of e))) = entry_live now e.
Proof.
  intros He. unfold is_active, entry_live, entry_active, stored_of. cbn. destruct (entry_end e) as [end_|] eqn:Ee; [|done].
  destruct (He _ Ee) as [Hne _]. by rewrite bool_decide_eq_false_2.
Qed.

(** C39: a retry of a recorded issuance, under any request key, answers unchanged with the
    grant of the record, whatever became of that grant: neither its state nor its evidence,
    policy, capabilities or times are compared.  The retry leaves the tables a recovery read
    of the same request leaves at the same clock, the expiry of what is over and nothing
    else; that read answers the grant only while it is active and not expired.  Under the key
    [issue_grant] uses, [issue_grant] answers the same mutation. *)
Theorem ended_grant_replays fingerprint db observed key candidate now stored :
  fingerprint_ok fingerprint → reachable fingerprint db → 0 <= now <= I64_MAX →
  observed <= t_generation db → t_generation db < I64_MAX →
  grant_issued_at candidate <= now < grant_expires_at candidate →
  load_grant_by_issuance db (grant_issuer_key_id candidate) (grant_issuer_key_version candidate) key = Ok (Some stored) →
  same_issuance_request (stored_grant stored) candidate = true →
  ∃ db', let unchanged := mk_AuthorizationMutation (t_generation db') Unchanged in
    issue_grant_for_request fingerprint observed db key candidate now
    = (Ok (mk_GrantIssuanceResult unchanged (stored_grant stored)), (db', t_generation db'))
    ∧ active_grant_for_request fingerprint observed db (grant_issuer_key_id candidate)
        (grant_issuer_key_version candidate) key now
      = (Ok (if is_active stored && (now <? grant_expires_at (stored_grant stored)) then Some (stored_grant stored) else None),
         (db', t_generation db'))
    ∧ (key = mk_GrantIssuanceKey (grant_id candidate) (grant_id candidate) →
       issue_grant fingerprint observed db candidate now = (Ok unchanged, (db', t_generation db'))).
Proof.
  intros Hfp Hr Hnow Hobs Hg Ht Hst Hsame. destruct (reachable_state _ _ Hfp Hr) as (s & Hs & ->).
  rewrite load_grant_by_issuance_of in Hst by exact (entries_stored s Hs).
  destruct (find _ (s_grants s)) as [e|] eqn:Ef; [|done]. injection Hst as <-. cbn [tables_of t_generation] in Hobs, Hg.
  destruct (spec_expire_succeeds now s Hs Hg) as [s' Hx]. destruct (spec_expire_ok s now _ _ Hs ltac:(lia) Hx) as [Hs' _].
  assert (issue_grant_for_request fingerprint observed (tables_of fingerprint s) key candidate now
    = (Ok (mk_GrantIssuanceResult (mk_AuthorizationMutation (s_generation s') Unchanged) (entry_grant e)),
       (tables_of fingerprint s', s_generation s'))) as Hissue.
  { rewrite issue_of by (done || lia). destruct (_ || _) eqn:Et; [exfalso; lia|]. unfold spec_write.
    destruct (s_generation s <? observed) eqn:Eo; [lia|]. unfold spec_issue. cbn in Hsame. rewrite Ef, Hsame.
    cbn [fail_if negb mbind result_bind]. rewrite to_sql_pass by lia. cbn [mbind result_bind]. by rewrite Hx. }
  exists (tables_of fingerprint s'). cbv zeta. split_and!; [exact Hissue| |].
  - unfold active_grant_for_request.
    rewrite (expiring_read_of fingerprint Hfp s observed _ now _ (spec_active_grant (grant_issuer_key_id candidate)
      (grant_issuer_key_version candidate) key now)); [|done|lia|intros; by apply active_grant_of].
    unfold spec_query, timed, spec_read. destruct (I64_MAX <? now) eqn:En; [lia|].
    destruct (s_generation s <? observed) eqn:Eo; [lia|]. rewrite Hx. cbn [mbind result_bind fst snd encoded].
    rewrite (expired_active_grant _ _ _ _ _ _ _ e Hs Hs' Hx Ef), live_stored; [done|].
    apply (entries_stored s Hs). by apply find_some in Ef as [Hin%list_elem_of_In _].
  - intros ->. unfold issue_grant. by rewrite Hissue.
Qed.

End theorems.
