(* ===== verification/AuthorizationRuntime.v ===== *)
(** * The authorization runtime of the daemon

    [Konclave.LocalDaemon: authorization_runtime.rs, authorization_reload.rs]: the projection of
    the authorization store that live connections are checked against, its reloads, and the
    operations that issue, recover and retire grants for a connected issuer.

    The daemon shares its store with the processes of the command line, and its tasks run
    concurrently: reloads do not take the lock of the operations.  An operation is a [Task] on
    a [World], which holds the store, the runtime, the snapshots other tasks have read and not
    yet published, and a schedule.  Each of its atomic actions (a store transaction, a section
    under the projection lock) first lets the others make the steps of the next [Turn]; the
    turn also says what becomes of the worker thread. *)

From S2P Require Import Prelude Identifiers LocalGrants AuthorizationStore AuthorizationOps AuthorizationSpec.
Open Scope Z_scope.

(** ** Reloads *)

Inductive AuthorizationReloadState := ReloadActive | ReloadFailedClosed.
Inductive AuthorizationReloadEvent := SnapshotVerified | ObservationFailed | WorkerFailed | ReloadShutdown.
Inductive AuthorizationReloadTransition :=
| TransitionPublish (next : AuthorizationReloadState)
| TransitionFailClosed (next : AuthorizationReloadState)
| TransitionStopService
| TransitionStopCleanly.

Definition resolve_authorization_reload_transition (_state : AuthorizationReloadState) (event : AuthorizationReloadEvent)
    : AuthorizationReloadTransition :=
  match event with
  | SnapshotVerified => TransitionPublish ReloadActive
  | ObservationFailed => TransitionFailClosed ReloadFailedClosed
  | WorkerFailed => TransitionStopService
  | ReloadShutdown => TransitionStopCleanly
  end.

(** ** Values *)

Inductive AuthorizationRuntimeError :=
| RuntimeStore (e : LocalAuthorizationStoreError)
| InvalidProjection
| ObservationDeadlineExceeded
| BlockingOperationFailed
| UnexpectedStop.

Inductive AuthorizationRuntimeStatus :=
| RuntimeActive (generation : Z)
| RuntimeFailed (e : AuthorizationRuntimeError).

Inductive LocalServiceErrorCode :=
| CodeInvalidRequest | CodeUnknownOperation | CodeNotAuthorized | CodeProfileUnavailable | CodeBusy
| CodeDeadlineExceeded | CodePayloadTooLarge | CodeConflict | CodeInternal | CodeCancelled
| CodeReconciliationPending | CodeProfileSuspended | CodeIssuerDisabled | CodeRequiredEvidenceUnavailable
| CodeCapacity.

Inductive LocalRequestInterruption :=
| InterruptedByCaller | InterruptedByDeadline | InterruptedByShutdown
| AuthorizationLost | AuthorizationUnavailable | InterruptedByProfile.

Global Instance LocalAuthorizationStoreError_eq_dec : EqDecision LocalAuthorizationStoreError.
Proof. solve_decision. Defined.
Global Instance MutationEffect_eq_dec : EqDecision MutationEffect.
Proof. solve_decision. Defined.
Global Instance AuthorizationRuntimeError_eq_dec : EqDecision AuthorizationRuntimeError.
Proof. solve_decision. Defined.

Record AuthorizationProjection := mk_AuthorizationProjection {
  projection_generation : Z;
  projection_policy : AuthorizationPolicy;
  projection_issuers : list AuthorizationIssuerRecord;
  projection_suspended : list ServiceProfileId;
  projection_credential : option UserPresenceCredentialRecord;
  projection_failure : option AuthorizationRuntimeError }.

Record GrantIssuanceContext := mk_GrantIssuanceContext {
  context_generation : Z;
  context_policy_version : AuthorizationPolicyVersion }.

Record GrantRequest := mk_GrantRequest {
  request_issuer_key_id : IssuerKeyId;
  request_issuer_key_version : IssuerKeyVersion;
  request_key : GrantIssuanceKey;
  request_grant_id : option SessionGrantId;
  request_profile : ServiceProfileId;
  request_session_public_key : Ed25519PublicKey;
  request_harness : HarnessKind;
  request_evidence : AuthorizationEvidenceSet;
  request_policy_version : option AuthorizationPolicyVersion;
  request_capabilities : SessionCapabilities;
  request_issued_at : Z;
  request_expires_at : Z }.

Definition GRANT_IDENTIFIER_ATTEMPTS : nat := 4.

Definition authorization_reload_event (e : AuthorizationRuntimeError) : AuthorizationReloadEvent :=
  match e with
  | RuntimeStore _ | InvalidProjection | ObservationDeadlineExceeded => ObservationFailed
  | BlockingOperationFailed | UnexpectedStop => WorkerFailed
  end.

Definition should_refresh_after_mutation_error (e : LocalAuthorizationStoreError) : bool :=
  match e with
  | AuthProfileSuspended | AuthIssuerDisabled | AuthRequiredEvidenceUnavailable | AuthCapacity | AuthNotFound => true
  | _ => false
  end.

(** ** The world *)

(** The live runtime. *)
Record LiveAuthorizationRuntime := mk_LiveAuthorizationRuntime {
  runtime_registry : GrantRegistry;
  runtime_projection : AuthorizationProjection;
  runtime_status : AuthorizationRuntimeStatus }.

(** A step another task or process makes: a call of another process, a call or a snapshot of
    another task through the store handle of the daemon, the publication of such a snapshot,
    a failure, or a count of the registry that drops expired grants. *)
Inductive Interference :=
| OtherProcess (observed : Z) (c : AuthorizationCall)
| OtherTask (c : AuthorizationCall)
| OtherSnapshot (now : Z) (high_water : option Z)
| OtherPublish (n : nat)
| OtherFailure (e : AuthorizationRuntimeError)
| OtherCount (id : IssuerKeyId) (profile : ServiceProfileId) (now : Z).

(** The fate of a blocking store operation: it returns in time, its storage fails and the
    transaction is rolled back, it returns after the observation deadline, or its worker is
    lost, in time or not, with its transaction committed or not. *)
Inductive WorkerFate :=
| InTime
| StorageFails (e : LocalAuthorizationStoreError)
| TooLate
| Lost (committed in_time : bool).

Record Turn := mk_Turn { turn_others : list Interference; turn_fate : WorkerFate }.

Record World := mk_World {
  w_store : AuthTables;
  w_observed : Z;
  w_runtime : LiveAuthorizationRuntime;
  w_in_flight : list (AuthorizationSnapshot * Z);
  w_entropy : list (option SessionGrantId);
  w_schedule : list Turn }.

Definition set_store (rest : AuthTables * Z) (w : World) : World :=
  mk_World rest.1 rest.2 (w_runtime w) (w_in_flight w) (w_entropy w) (w_schedule w).
Definition set_runtime (r : LiveAuthorizationRuntime) (w : World) : World :=
  mk_World (w_store w) (w_observed w) r (w_in_flight w) (w_entropy w) (w_schedule w).
Definition set_in_flight (l : list (AuthorizationSnapshot * Z)) (w : World) : World :=
  mk_World (w_store w) (w_observed w) (w_runtime w) l (w_entropy w) (w_schedule w).

(** ** Sections under the projection lock *)

Definition fail_closed (e : AuthorizationRuntimeError) (r : LiveAuthorizationRuntime) : LiveAuthorizationRuntime :=
  let p := runtime_projection r in
  if bool_decide (projection_failure p = Some e) then r
  else mk_LiveAuthorizationRuntime (runtime_registry r)
         (mk_AuthorizationProjection (projection_generation p) (projection_policy p) (projection_issuers p)
            (projection_suspended p) (projection_credential p) (Some e))
         (RuntimeFailed e).

(** The registry a snapshot gives. *)
Definition replace_registry (snapshot : AuthorizationSnapshot) (now : Z) : result AuthorizationRuntimeError GrantRegistry :=
  let issuers := (fun i => mk_InstalledIssuerRegistration (issuer_key_id i) (issuer_key_version i) (issuer_registration i))
                   <$> snapshot_issuers snapshot in
  map_err (fun _ => InvalidProjection) (registry_replace issuers (snapshot_grants snapshot) now).

Definition project (snapshot : AuthorizationSnapshot) (registry : GrantRegistry) : LiveAuthorizationRuntime :=
  mk_LiveAuthorizationRuntime registry
    (mk_AuthorizationProjection (snapshot_generation snapshot) (snapshot_policy snapshot) (snapshot_issuers snapshot)
       (snapshot_suspended snapshot) (snapshot_credential snapshot) None)
    (RuntimeActive (snapshot_generation snapshot)).

Definition from_snapshot (snapshot : AuthorizationSnapshot) (now : Z)
    : result AuthorizationRuntimeError LiveAuthorizationRuntime :=
  registry ← replace_registry snapshot now; Ok (project snapshot registry).

(** A verified snapshot resolves to [TransitionPublish ReloadActive] in both states. *)
Definition publish (snapshot : AuthorizationSnapshot) (now : Z) (r : LiveAuthorizationRuntime)
    : result AuthorizationRuntimeError unit * LiveAuthorizationRuntime :=
  if snapshot_generation snapshot <? projection_generation (runtime_projection r) then (Ok (), r)
  else
    match replace_registry snapshot now with
    | Err _ => (Err InvalidProjection, fail_closed InvalidProjection r)
    | Ok registry => (Ok (), project snapshot registry)
    end.

Definition current_failure (r : LiveAuthorizationRuntime) : option AuthorizationRuntimeError :=
  projection_failure (runtime_projection r).

Definition current_generation (r : LiveAuthorizationRuntime) : option Z :=
  if is_none (current_failure r) then Some (projection_generation (runtime_projection r)) else None.

Definition reload_generation (r : LiveAuthorizationRuntime) : Z := projection_generation (runtime_projection r).

Definition reload_state (r : LiveAuthorizationRuntime) : AuthorizationReloadState :=
  if is_some (current_failure r) then ReloadFailedClosed else ReloadActive.

(** ** Lookups *)

Definition active_issuer (r : LiveAuthorizationRuntime) (key : IssuerKeyId * IssuerKeyVersion) : option IssuerRegistration :=
  if is_some (current_failure r) then None else registry_active_issuer (runtime_registry r) key.

Definition active_grant (r : LiveAuthorizationRuntime) (id : SessionGrantId) (now : Z) : option SessionGrant :=
  if is_some (current_failure r) then None else registry_active_grant (runtime_registry r) id now.

Definition issuer_is_known (r : LiveAuthorizationRuntime) (key : IssuerKeyId * IssuerKeyVersion)
    (public_key : Ed25519PublicKey) (harness : HarnessKind) : bool :=
  is_some_and (active_issuer r key) (fun registration =>
    bool_decide (registration_public_key registration = public_key) && harness_allowed registration harness).

Definition grant_interruption (r : LiveAuthorizationRuntime) (grant : SessionGrant) (now : Z)
    : option LocalRequestInterruption :=
  if is_some (current_failure r) then Some AuthorizationUnavailable
  else if is_some_and (registry_active_grant (runtime_registry r) (grant_id grant) now)
            (fun active => bool_decide (active = grant))
       then None
       else Some AuthorizationLost.

Definition grant_is_active (r : LiveAuthorizationRuntime) (grant : SessionGrant) (now : Z) : bool :=
  is_none (grant_interruption r grant now).

(** Counting drops the expired grants of the registry. *)
Definition status_snapshot (id : IssuerKeyId) (profile : ServiceProfileId) (now : Z) (r : LiveAuthorizationRuntime)
    : option (Z * (Z * Z * Z) * AuthorizationPolicy) * LiveAuthorizationRuntime :=
  if is_none (current_failure r) then
    let '(capacity, registry) := registry_grant_capacity (runtime_registry r) id profile now in
    (Some (projection_generation (runtime_projection r), capacity, projection_policy (runtime_projection r)),
     mk_LiveAuthorizationRuntime registry (runtime_projection r) (runtime_status r))
  else (None, r).

(** One pass of the wait of a handshake: no answer while the projection has failed. *)
Definition authorize_handshake_look (r : LiveAuthorizationRuntime) (binding : AuthorizationBinding) (now : Z) : option bool :=
  if is_none (current_failure r) then Some (registry_authorizes_binding (runtime_registry r) binding now) else None.

Definition issuance_context (r : LiveAuthorizationRuntime) (id : IssuerKeyId) (version : IssuerKeyVersion)
    (profile : ServiceProfileId) (harness : HarnessKind) (evidence : AuthorizationEvidenceSet)
    : result LocalServiceErrorCode GrantIssuanceContext :=
  let p := runtime_projection r in
  fail_if (is_some (projection_failure p)) CodeInternal;;
  fail_if (existsb (fun candidate => bool_decide (candidate = profile)) (projection_suspended p)) CodeProfileSuspended;;
  issuer ← ok_or (find (fun i => bool_decide (issuer_key_id i = id) && bool_decide (issuer_key_version i = version))
                    (projection_issuers p)) CodeNotAuthorized;
  fail_if (bool_decide (issuer_availability issuer = Disabled)) CodeIssuerDisabled;;
  fail_if (negb (permits (registration_profiles (issuer_registration issuer)) profile)
           || (bool_decide (registration_harness (issuer_registration issuer) ≠ harness)
               && bool_decide (registration_harness (issuer_registration issuer) ≠ Generic))) CodeNotAuthorized;;
  fail_if (negb (policy_accepts (projection_policy p) evidence)) CodeRequiredEvidenceUnavailable;;
  Ok (mk_GrantIssuanceContext (projection_generation p) (policy_version (projection_policy p))).

(** ** Tasks *)

Definition Task (A : Type) : Type := World → A * World.

Definition ret {A} (a : A) : Task A := fun w => (a, w).
Definition then_ {A B} (m : Task A) (k : A → Task B) : Task B := fun w => let '(a, w) := m w in k a w.

(** The [?] of the source. *)
Definition attempt {E A B} (m : Task (result E A)) (k : A → Task (result E B)) : Task (result E B) :=
  then_ m (fun a => match a with Ok a => k a | Err e => ret (Err e) end).

Notation "'let!' x := m 'in' k" := (then_ m (fun x => k)) (at level 10, x binder, k at level 200).
Notation "'let?' x := m 'in' k" := (attempt m (fun x => k)) (at level 10, x binder, k at level 200).

(** An error with its result replaced. *)
Definition as_internal {E A} (m : Task (result E A)) : Task (result LocalServiceErrorCode A) :=
  then_ m (fun a => ret (map_err (fun _ => CodeInternal) a)).

Section runtime.
Context `{Sha256} `{WebAuthnDocuments}.
Variable fingerprint : bytes.

(** *** The steps of the others *)

Definition interfere (w : World) (i : Interference) : World :=
  match i with
  | OtherProcess observed c => set_store ((run_call fingerprint observed c (w_store w)).2.1, w_observed w) w
  | OtherTask c => set_store (run_call fingerprint (w_observed w) c (w_store w)).2 w
  | OtherSnapshot now high_water =>
      let '(snapshot, rest) := load_snapshot fingerprint (w_observed w) (w_store w) now high_water in
      let w := set_store rest w in
      match snapshot with Ok snapshot => set_in_flight (w_in_flight w ++ [(snapshot, now)]) w | Err _ => w end
  | OtherPublish n =>
      match w_in_flight w !! n with
      | Some (snapshot, now) => set_runtime (publish snapshot now (w_runtime w)).2 w
      | None => w
      end
  | OtherFailure e => set_runtime (fail_closed e (w_runtime w)) w
  | OtherCount id profile now => set_runtime (status_snapshot id profile now (w_runtime w)).2 w
  end.

(** The next turn: the others make their steps. *)
Definition next_turn : Task WorkerFate := fun w =>
  match w_schedule w with
  | [] => (InTime, w)
  | turn :: schedule =>
      let w := mk_World (w_store w) (w_observed w) (w_runtime w) (w_in_flight w) (w_entropy w) schedule in
      (turn_fate turn, fold_left interfere (turn_others turn) w)
  end.

(** A section under the projection lock. *)
Definition locked {A} (f : LiveAuthorizationRuntime → A * LiveAuthorizationRuntime) : Task A :=
  let! _ := next_turn in fun w => let '(a, r) := f (w_runtime w) in (a, set_runtime r w).

Definition look {A} (f : LiveAuthorizationRuntime → A) : Task A := locked (fun r => (f r, r)).
Definition fail_task (e : AuthorizationRuntimeError) : Task unit := locked (fun r => ((), fail_closed e r)).

(** The transaction of a worker thread: its answer, unless the worker is lost. *)
Definition run_worker {A} (f : Z → AuthTables → outcome A) (fate : WorkerFate) : Task (option (store_result A)) := fun w =>
  let '(answer, rest) := f (w_observed w) (w_store w) in
  match fate with
  | InTime | TooLate => (Some answer, set_store rest w)
  | StorageFails e => (Some (Err e), w)
  | Lost committed _ => (None, if committed then set_store rest w else w)
  end.

(** The wait of a mutation for its worker: no deadline, and a lost worker fails closed. *)
Definition store_operation {A} (f : Z → AuthTables → outcome A) : Task (result LocalServiceErrorCode (store_result A)) :=
  let! fate := next_turn in
  let! answer := run_worker f fate in
  match answer with
  | Some answer => ret (Ok answer)
  | None => let! _ := fail_task BlockingOperationFailed in ret (Err CodeInternal)
  end.

(** *** Refreshing *)

Definition in_time (fate : WorkerFate) : bool :=
  match fate with InTime | StorageFails _ => true | TooLate => false | Lost _ b => b end.

(** A worker lost before the deadline is reported without failing closed. *)
Definition refresh_locked (now high_water : Z) : Task (result AuthorizationRuntimeError unit) :=
  let observe observed db := load_snapshot fingerprint observed db now (Some high_water) in
  let! fate := next_turn in
  if in_time fate then
    let! joined := run_worker observe fate in
    match joined with
    | None => ret (Err BlockingOperationFailed)
    | Some (Ok snapshot) => locked (publish snapshot now)
    | Some (Err e) => let! _ := fail_task (RuntimeStore e) in ret (Err (RuntimeStore e))
    end
  else
    let! _ := fail_task ObservationDeadlineExceeded in
    let! _ := next_turn in
    let! joined := run_worker observe fate in
    match joined with
    | Some _ => ret (Err ObservationDeadlineExceeded)
    | None => let! _ := fail_task BlockingOperationFailed in ret (Err BlockingOperationFailed)
    end.

Definition refresh_after_mutation (m : AuthorizationMutation) (now : Z) : Task (result AuthorizationRuntimeError unit) :=
  refresh_locked now (mutation_generation m).

Definition reload_once (now : Z) : Task (result AuthorizationRuntimeError unit) :=
  let! high_water := look reload_generation in refresh_locked now high_water.

(** *** Mutations *)

Definition map_mutation_error (e : LocalAuthorizationStoreError) : Task LocalServiceErrorCode :=
  match e with
  | AuthProfileSuspended => ret CodeProfileSuspended
  | AuthIssuerDisabled => ret CodeIssuerDisabled
  | AuthRequiredEvidenceUnavailable => ret CodeRequiredEvidenceUnavailable
  | AuthCapacity => ret CodeCapacity
  | AuthConflict => ret CodeConflict
  | AuthNotFound => ret CodeNotAuthorized
  | AuthInvalidInput => ret CodeInternal
  | AuthStorageUnavailable | AuthInvalidStorage | AuthCorruptStorage | AuthUnsafeStorage | AuthUnsupportedSchema
  | AuthInstallationMismatch | AuthGenerationRollback => let! _ := fail_task (RuntimeStore e) in ret CodeInternal
  end.

Definition refuse {A} (e : LocalAuthorizationStoreError) : Task (result LocalServiceErrorCode A) :=
  let! code := map_mutation_error e in ret (Err code).

Definition random_identifier : Task (result LocalServiceErrorCode SessionGrantId) := fun w =>
  match w_entropy w with
  | Some id :: rest => (Ok id, mk_World (w_store w) (w_observed w) (w_runtime w) (w_in_flight w) rest (w_schedule w))
  | None :: rest => (Err CodeInternal, mk_World (w_store w) (w_observed w) (w_runtime w) (w_in_flight w) rest (w_schedule w))
  | [] => (Err CodeInternal, w)
  end.

(** The context of a request, and the policy version the request asks for. *)
Definition request_context (q : GrantRequest) : Task (result LocalServiceErrorCode GrantIssuanceContext) :=
  let? context := look (fun r => issuance_context r (request_issuer_key_id q) (request_issuer_key_version q)
                              (request_profile q) (request_harness q) (request_evidence q)) in
  if is_some_and (request_policy_version q) (fun expected => bool_decide (expected ≠ context_policy_version context))
  then ret (Err CodeConflict) else ret (Ok context).

Definition request_claims (q : GrantRequest) (id : SessionGrantId) (version : AuthorizationPolicyVersion) : SessionGrantClaims :=
  mk_SessionGrantClaims id (request_issuer_key_id q) (request_issuer_key_version q) (request_profile q)
    (request_session_public_key q) (request_harness q) (request_evidence q) version (request_issued_at q)
    (request_expires_at q) (request_capabilities q).

(** The loop over the attempts. *)
Fixpoint issue_attempts (attempts : nat) (q : GrantRequest) (context : GrantIssuanceContext)
    : Task (result LocalServiceErrorCode SessionGrant) :=
  match attempts with
  | O => ret (Err CodeConflict)
  | S attempts =>
      let? id := match request_grant_id q with Some id => ret (Ok id) | None => random_identifier end in
      let? grant := ret (map_err (fun _ => CodeInternal) (SessionGrant_new (request_claims q id (context_policy_version context)))) in
      let? answer := store_operation (fun observed db =>
                  issue_grant_for_request fingerprint observed db (request_key q) grant (request_issued_at q)) in
      match answer with
      | Ok issuance =>
          let? _ := as_internal (refresh_after_mutation (issuance_mutation issuance) (request_issued_at q)) in
          ret (Ok (issuance_grant issuance))
      | Err AuthConflict =>
          let? _ := as_internal (refresh_locked (request_issued_at q) (context_generation context)) in
          let? context := request_context q in
          issue_attempts attempts q context
      | Err e =>
          if should_refresh_after_mutation_error e then
            let? _ := as_internal (refresh_locked (request_issued_at q) (context_generation context)) in refuse e
          else refuse e
      end
  end.

Definition issue_grant_locked (q : GrantRequest) : Task (result LocalServiceErrorCode SessionGrant) :=
  let? context := request_context q in
  issue_attempts (if is_some (request_grant_id q) then 1 else GRANT_IDENTIFIER_ATTEMPTS) q context.

Definition ALL_CAPABILITIES : SessionCapabilities := mk_checked 15 eq_refl.

Record AccountTrustedGrantRequest := mk_AccountTrustedGrantRequest {
  trusted_issuer_key_id : IssuerKeyId;
  trusted_issuer_key_version : IssuerKeyVersion;
  trusted_client_instance : ClientInstanceId;
  trusted_request_id : RequestId;
  trusted_profile : ServiceProfileId;
  trusted_session_public_key : Ed25519PublicKey;
  trusted_harness : HarnessKind;
  trusted_issued_at : Z;
  trusted_expires_at : Z }.

Definition evidence_set (kinds : list AuthorizationEvidenceKind) : result LocalServiceErrorCode AuthorizationEvidenceSet :=
  map_err (fun _ => CodeInternal) (AuthorizationEvidenceSet_new kinds).

Definition issue_account_trusted_grant (t : AccountTrustedGrantRequest) : Task (result LocalServiceErrorCode SessionGrant) :=
  let? evidence := ret (evidence_set [AccountTrusted]) in
  issue_grant_locked (mk_GrantRequest (trusted_issuer_key_id t) (trusted_issuer_key_version t)
    (mk_GrantIssuanceKey (trusted_client_instance t) (trusted_request_id t)) None (trusted_profile t)
    (trusted_session_public_key t) (trusted_harness t) evidence None ALL_CAPABILITIES (trusted_issued_at t)
    (trusted_expires_at t)).

(** The credential is read in a section of its own. *)
Definition user_presence_context (id : IssuerKeyId) (version : IssuerKeyVersion) (profile : ServiceProfileId)
    (harness : HarnessKind)
    : Task (result LocalServiceErrorCode
              (bytes * AuthorizationPolicyVersion * AuthorizationEvidenceSet * UserPresenceCredentialRecord)) :=
  let? presence := ret (evidence_set [UserPresence]) in
  let! first := look (fun r => issuance_context r id version profile harness presence) in
  let? chosen :=
    match first with
    | Ok context => ret (Ok (context, presence))
    | Err CodeRequiredEvidenceUnavailable =>
        let? combined := ret (evidence_set [AccountTrusted; UserPresence]) in
        let? context := look (fun r => issuance_context r id version profile harness combined) in
        ret (Ok (context, combined))
    | Err e => ret (Err e)
    end in
  let? credential := look (fun r => ok_or (projection_credential (runtime_projection r)) CodeRequiredEvidenceUnavailable) in
  ret (Ok (fingerprint, context_policy_version chosen.1, chosen.2, credential)).

Record UserPresenceGrantRequest := mk_UserPresenceGrantRequest {
  presence_issuer_key_id : IssuerKeyId;
  presence_issuer_key_version : IssuerKeyVersion;
  presence_request_key : GrantIssuanceKey;
  presence_grant_id : SessionGrantId;
  presence_profile : ServiceProfileId;
  presence_session_public_key : Ed25519PublicKey;
  presence_harness : HarnessKind;
  presence_policy_version : AuthorizationPolicyVersion;
  presence_evidence_set : AuthorizationEvidenceSet;
  presence_capabilities : SessionCapabilities;
  presence_expected_credential : UserPresenceCredentialRecord;
  presence_updated_credential : option bytes; (* the serialized credential of the authenticator *)
  presence_issued_at : Z;
  presence_expires_at : Z }.

(** The same request once its credential is advanced. *)
Definition presence_request (u : UserPresenceGrantRequest) : GrantRequest :=
  mk_GrantRequest (presence_issuer_key_id u) (presence_issuer_key_version u) (presence_request_key u)
    (Some (presence_grant_id u)) (presence_profile u) (presence_session_public_key u) (presence_harness u)
    (presence_evidence_set u) (Some (presence_policy_version u)) (presence_capabilities u) (presence_issued_at u)
    (presence_expires_at u).

Definition issue_user_presence_grant (u : UserPresenceGrantRequest) : Task (result LocalServiceErrorCode SessionGrant) :=
  let? document := ret (ok_or (presence_updated_credential u) CodeInternal) in
  let? updated := ret (map_err (fun _ => CodeInternal) (from_document document)) in
  let? candidate := ret (map_err (fun _ => CodeInternal)
                           (SessionGrant_new (request_claims (presence_request u) (presence_grant_id u) (presence_policy_version u)))) in
  let? answer := store_operation (fun observed db => update_user_presence_credential_for_grant fingerprint observed db
                   (presence_expected_credential u) updated candidate (presence_issued_at u)) in
  match answer with
  | Err e => refuse e
  | Ok mutation =>
      let? _ := as_internal (refresh_after_mutation mutation (presence_issued_at u)) in
      issue_grant_locked (presence_request u)
  end.

Definition recover_user_presence_grant (id : IssuerKeyId) (version : IssuerKeyVersion) (key : GrantIssuanceKey) (now : Z)
    : Task (result LocalServiceErrorCode (option SessionGrant)) :=
  let? answer := store_operation (fun observed db => active_grant_for_request fingerprint observed db id version key now) in
  match answer with
  | Err e => refuse e
  | Ok grant =>
      let? high_water := look (fun r => ok_or (current_generation r) CodeInternal) in
      let? _ := as_internal (refresh_locked now high_water) in
      ret (Ok grant)
  end.

Definition retire_session_grant (id : SessionGrantId) (now : Z) : Task (result LocalServiceErrorCode bool) :=
  let? answer := store_operation (fun observed db => retire_grant fingerprint observed db id now) in
  match answer with
  | Ok mutation =>
      let? _ := as_internal (refresh_after_mutation mutation now) in
      ret (Ok (bool_decide (mutation_effect mutation = Applied)))
  | Err AuthNotFound =>
      let? high_water := look (fun r => ok_or (current_generation r) CodeInternal) in
      let? _ := as_internal (refresh_locked now high_water) in
      ret (Ok false)
  | Err e => refuse e
  end.

(** *** The reload loop *)

(** What wakes the loop: a change of the shutdown channel, which is closed or set or neither,
    or a request or a tick of the interval. *)
Inductive ReloadWake := WakeShutdown (stop : bool) | WakeReload (now : Z).

Inductive ReloadEnd := ReloadReturned (r : result AuthorizationRuntimeError unit) | ReloadPanicked.

(** The body of one reload; nothing when the loop goes on. *)
Definition reload_pass (now : Z) : Task (option ReloadEnd) :=
  let! failure := look (fun r => (current_failure r, reload_state r)) in
  let stop := is_some_and failure.1 (fun e =>
                match resolve_authorization_reload_transition failure.2 (authorization_reload_event e) with
                | TransitionStopService => true | _ => false end) in
  if stop then ret (Some (ReloadReturned (match failure.1 with Some e => Err e | None => Ok () end)))
  else
    let! reloaded := reload_once now in
    match reloaded with
    | Ok _ => ret None
    | Err e =>
        let! state := look reload_state in
        match resolve_authorization_reload_transition state (authorization_reload_event e) with
        | TransitionFailClosed _ => let! _ := fail_task e in ret None
        | TransitionStopService => ret (Some (ReloadReturned (Err e)))
        | TransitionPublish _ | TransitionStopCleanly => ret (Some ReloadPanicked)
        end
    end.

(** Nothing when the loop still runs after the wakes. *)
Fixpoint run_reload_loop (wakes : list ReloadWake) : Task (option ReloadEnd) :=
  match wakes with
  | [] => ret None
  | WakeShutdown false :: wakes => run_reload_loop wakes
  | WakeShutdown true :: _ =>
      let! state := look reload_state in
      match resolve_authorization_reload_transition state ReloadShutdown with
      | TransitionStopCleanly => ret (Some (ReloadReturned (Ok ())))
      | TransitionPublish _ | TransitionFailClosed _ | TransitionStopService => ret (Some ReloadPanicked)
      end
  | WakeReload now :: wakes =>
      let! ended := reload_pass now in
      match ended with None => run_reload_loop wakes | Some _ => ret ended end
  end.

(** The wait of a handshake for a verified projection, over the clocks of its looks. *)
Fixpoint authorize_handshake_binding (binding : AuthorizationBinding) (clocks : list Z) : Task (option bool) :=
  match clocks with
  | [] => ret None
  | now :: clocks =>
      let! answer := look (fun r => authorize_handshake_look r binding now) in
      match answer with Some authorized => ret (Some authorized) | None => authorize_handshake_binding binding clocks end
  end.

(** The start of the daemon on its store. *)
Definition open_runtime (db : AuthTables) (now : Z) : store_result (result AuthorizationRuntimeError World) :=
  opened ← open_store fingerprint None db;
  match load_snapshot fingerprint opened db now None with
  | (Err e, _) => Err e
  | (Ok snapshot, rest) =>
      Ok (runtime ← from_snapshot snapshot now; Ok (mk_World rest.1 rest.2 runtime [] [] []))
  end.

End runtime.
