(* ===== verification/AuthorizationRuntimeProofs.v ===== *)
(** * The runtime against its store

    The registry of a snapshot, and what every interleaving of the tasks of the daemon with
    other processes keeps: the runtime never serves a grant its store ended at or before the
    generation the runtime has projected. *)

From stdpp Require Import sorting.
From S2P Require Import Prelude Identifiers LocalGrants AuthorizationStore AuthorizationOps AuthorizationSpec.
From S2P Require Import AuthorizationCodec AuthorizationSteps AuthorizationInvariant AuthorizationProofs.
From S2P Require Import AuthorizationHistory AuthorizationTheorems AuthorizationRuntime.
Open Scope Z_scope.

(** ** The registry of a snapshot *)

Definition installed (i : AuthorizationIssuerRecord) : InstalledIssuerRegistration :=
  mk_InstalledIssuerRegistration (issuer_key_id i) (issuer_key_version i) (issuer_registration i).

Definition registry_entry (i : AuthorizationIssuerRecord) : IssuerKeyId * IssuerKeyVersion * IssuerRegistration :=
  (issuer_key_of i, issuer_registration i).

Lemma replace_issuers_ok l acc :
  NoDup (issuer_key_of <$> acc ++ l) →
  replace_issuers (installed <$> l) (registry_entry <$> acc) = Ok (registry_entry <$> acc ++ l).
Proof.
  revert acc. induction l as [|i l IH]; intros acc Hnd; cbn [fmap list_fmap replace_issuers]; [by rewrite app_nil_r|].
  rewrite fail_if_pass.
  - cbn [mbind result_bind]. replace (acc ++ i :: l) with ((acc ++ [i]) ++ l) in * by by rewrite <- app_assoc.
    rewrite <- IH by done. by rewrite fmap_app.
  - apply not_true_is_false. intros (x & Hx & Heq)%existsb_exists. apply list_elem_of_In, list_elem_of_fmap in Hx as (j & -> & Hj).
    apply bool_decide_eq_true in Heq. rewrite fmap_app, NoDup_app in Hnd. destruct Hnd as (_ & Hnd & _).
    apply (Hnd (issuer_key_of j)); [by apply list_elem_of_fmap_2|]. apply elem_of_cons. by left.
Qed.

Lemma find_registered l i :
  NoDup (issuer_key_of <$> l) → i ∈ l → find_issuer (issuer_key_of i) (registry_entry <$> l) = Some (issuer_registration i).
Proof.
  intros Hnd Hi. unfold find_issuer. destruct (find _ _) as [x|] eqn:Ef.
  - apply (find_is fst) in Ef as [Hx Hk]. apply list_elem_of_fmap in Hx as (j & -> & Hj).
    by rewrite (elem_unique issuer_key_of l j i Hnd Hj Hi Hk).
  - apply (find_none _ _) with (x := registry_entry i) in Ef; [|by apply list_elem_of_In, list_elem_of_fmap_2].
    by rewrite bool_decide_eq_false in Ef.
Qed.

(** What a registry asks of each grant. *)
Definition registered (issuers : list AuthorizationIssuerRecord) (now : Z) (g : SessionGrant) : Prop :=
  now < grant_expires_at g
  ∧ ∃ i, i ∈ issuers ∧ issuer_key_of i = issuer_key g ∧ harness_allowed (issuer_registration i) (grant_harness g) = true
         ∧ permits (registration_profiles (issuer_registration i)) (grant_profile g) = true.

Lemma within_quotas_room acc g l : within_quotas (acc ++ g :: l) → grants_full acc g = false.
Proof.
  intros (Hl & Hi & Hp). specialize (Hi (grant_issuer_key_id g)). specialize (Hp (grant_profile g)). unfold count in *.
  rewrite List.filter_app in Hi, Hp. cbn [List.filter] in Hi, Hp. rewrite bool_decide_eq_true_2 in Hi, Hp by done.
  unfold grants_full, count. rewrite len_app in Hl, Hi, Hp. unfold len in *. cbn [length] in *.
  rewrite !orb_false_iff, !Z.leb_gt. lia.
Qed.

Lemma replace_grants_ok issuers now l acc :
  NoDup (issuer_key_of <$> issuers) → NoDup (grant_id <$> acc ++ l) → within_quotas (acc ++ l) →
  (∀ g, g ∈ l → registered issuers now g) →
  replace_grants (registry_entry <$> issuers) now l acc = Ok (acc ++ l).
Proof.
  intros Hni. revert acc. induction l as [|g l IH]; intros acc Hnd Hq Hr; cbn [replace_grants]; [by rewrite app_nil_r|].
  destruct (Hr g ltac:(left)) as [Hx (i & Hi & Hk & Hh & Hp)].
  pass_guard by lia. rewrite <- Hk, find_registered by done. cbn [ok_or mbind result_bind].
  pass_guard by (by rewrite Hh). pass_guard by (by rewrite Hp).
  assert (existsb (fun e => bool_decide (grant_id e = grant_id g)) acc = false) as Hfresh.
  { apply not_true_is_false. intros (x & Hin & Heq)%existsb_exists. apply list_elem_of_In in Hin. apply bool_decide_eq_true in Heq.
    rewrite fmap_app, NoDup_app in Hnd. destruct Hnd as (_ & Hnd & _).
    apply (Hnd (grant_id x)); [by apply list_elem_of_fmap_2|]. rewrite Heq. cbn. apply elem_of_cons. by left. }
  pass_guard by done. pass_guard by (by apply within_quotas_room in Hq). rewrite IH; rewrite <- ?app_assoc; [done..|].
  intros g' Hg'. apply Hr. by right.
Qed.

(** A snapshot that a registry accepts. *)
Definition publishable (now : Z) (snapshot : AuthorizationSnapshot) : Prop :=
  replace_registry snapshot now = Ok (mk_GrantRegistry (registry_entry <$> snapshot_issuers snapshot) (snapshot_grants snapshot)).

Lemma spec_snapshot_publishable `{Sha256} `{WebAuthnDocuments} now s : state_ok s → publishable now (spec_snapshot now s).
Proof.
  intros Hs. unfold publishable, replace_registry, registry_replace.
  cbn [spec_snapshot snapshot_issuers snapshot_grants]. change (fun i => mk_InstalledIssuerRegistration _ _ _) with installed.
  pose proof (issuers_len s Hs) as Hlen. pose proof (inv_issuers _ _ _ (ok_inv _ Hs)) as [Hnd _].
  rewrite fail_if_pass by (unfold len in *; rewrite length_fmap; lia). cbn [mbind result_bind].
  change (@nil (IssuerKeyId * IssuerKeyVersion * IssuerRegistration)) with (registry_entry <$> []).
  rewrite replace_issuers_ok by done. cbn [mbind result_bind app]. rewrite replace_grants_ok; [done|done| | |].
  - cbn [app]. by apply live_ids.
  - by apply live_quotas.
  - intros g (Hx & _ & _ & i & Hi & Hk & Hh & Hp & _)%(spec_snapshot_backs now s); [|done]. split; [done|]. by exists i.
Qed.

(** ** Views *)

(** A generation and the grants served at it. *)
Definition registry_view (r : LiveAuthorizationRuntime) : Z * list SessionGrant :=
  (projection_generation (runtime_projection r), registry_grants (runtime_registry r)).
Definition snapshot_view (snapshot : AuthorizationSnapshot) : Z * list SessionGrant :=
  (snapshot_generation snapshot, snapshot_grants snapshot).

(** A view of the past or of the present of a store. *)
Definition current_view (s : AuthState) (v : Z * list SessionGrant) : Prop :=
  v.1 <= s_generation s
  ∧ (v.1 = s_generation s → ∀ g, g ∈ v.2 → ∃ e, e ∈ s_grants s ∧ entry_active e = true ∧ entry_grant e = g).

(** A view from generation [bound] on does not serve the identifier. *)
Definition avoids (id : SessionGrantId) (bound : Z) (v : Z * list SessionGrant) : Prop :=
  bound <= v.1 → id ∉ grant_id <$> v.2.

(** Later states of a store: a generation names one state, and ended grants stay ended. *)
Definition evolves (s s' : AuthState) : Prop :=
  s_generation s <= s_generation s' ∧ (s_generation s' = s_generation s → s' = s) ∧ (∀ id, ended id s → ended id s').

Lemma evolves_refl s : evolves s s.
Proof. split_and!; [lia|done|done]. Qed.

Lemma evolves_trans s1 s2 s3 : evolves s1 s2 → evolves s2 s3 → evolves s1 s3.
Proof.
  intros (H1 & H2 & H3) (H4 & H5 & H6). split_and!; [lia| |auto]. intros He.
  rewrite H5 by lia. apply H2. lia.
Qed.

Lemma evolves_view s s' v : evolves s s' → current_view s v → current_view s' v.
Proof.
  intros (H1 & H2 & _) [Hle Hin]. split; [lia|]. intros He. rewrite H2 by lia. apply Hin. lia.
Qed.

Lemma evolves_step s s' : generation_step s s' → grants_only_end s s' → evolves s s'.
Proof.
  intros Hg He. split_and!.
  - by apply generation_step_le.
  - destruct Hg as [->|[Hg _]]; [done|lia].
  - intros id Hid. by apply (ended_step id s).
Qed.

(** ** Worlds *)

Section worlds.
Context `{Sha256} `{WebAuthnDocuments}.
Variable fingerprint : bytes.
Hypothesis Hfp : fingerprint_ok fingerprint.

Definition interference_ok (i : Interference) : Prop :=
  match i with
  | OtherProcess _ c | OtherTask c => call_ok c
  | OtherSnapshot now _ => 0 <= now
  | OtherPublish _ | OtherFailure _ | OtherCount _ _ _ => True
  end.

(** A world whose views are views of its store. *)
Record world_ok (w : World) (s : AuthState) : Prop := {
  world_store : w_store w = tables_of fingerprint s;
  world_state : state_ok s;
  world_observed : w_observed w <= s_generation s;
  world_registry : current_view s (registry_view (w_runtime w));
  world_flight : ∀ p, p ∈ w_in_flight w → current_view s (snapshot_view p.1) ∧ publishable p.2 p.1;
  world_schedule : ∀ t, t ∈ w_schedule w → ∀ i, i ∈ turn_others t → interference_ok i }.

(** The store has ended the grant at a generation, and no view from that generation on serves it. *)
Record gone (id : SessionGrantId) (bound : Z) (w : World) (s : AuthState) : Prop := {
  gone_store : ended id s;
  gone_bound : bound <= s_generation s;
  gone_registry : avoids id bound (registry_view (w_runtime w));
  gone_flight : ∀ p, p ∈ w_in_flight w → avoids id bound (snapshot_view p.1) }.

(** What every step keeps. *)
Record progress (w : World) (s : AuthState) (w' : World) (s' : AuthState) : Prop := {
  progress_ok : world_ok w' s';
  progress_store : evolves s s';
  progress_projection : (registry_view (w_runtime w)).1 <= (registry_view (w_runtime w')).1;
  progress_gone : ∀ id bound, gone id bound w s → gone id bound w' s' }.

Lemma progress_refl w s : world_ok w s → progress w s w s.
Proof. intros Hw. split; [done|apply evolves_refl|lia|done]. Qed.

Lemma progress_trans w1 s1 w2 s2 w3 s3 : progress w1 s1 w2 s2 → progress w2 s2 w3 s3 → progress w1 s1 w3 s3.
Proof.
  intros [H1 H2 H3 H4] [H5 H6 H7 H8]. split; [done|by eapply evolves_trans|lia|auto].
Qed.

(** A change of the store alone. *)
Lemma store_progress w s s' observed :
  world_ok w s → state_ok s' → evolves s s' → observed <= s_generation s' →
  progress w s (set_store (tables_of fingerprint s', observed) w) s'.
Proof.
  intros Hw Hs' He Ho. split.
  - destruct Hw as [_ _ _ Hr Hf Hsc]. split; try done.
    + by apply (evolves_view s).
    + intros p Hp. destruct (Hf p Hp). split; [by apply (evolves_view s)|done].
  - done.
  - cbn. lia.
  - intros id bound [Hg1 Hg2 Hg3 Hg4]. destruct He as (H1 & _ & H3). split; [auto|lia|done|done].
Qed.

Lemma call_evolves s observed c : state_ok s → call_ok c → evolves s (spec_call observed c s).2.1.
Proof. intros Hs Hc. apply evolves_step; [by apply spec_call_generation|apply spec_call_only_ends]. Qed.

(** A call of the handle of the daemon. *)
Lemma own_call_progress w s c :
  world_ok w s → call_ok c →
  progress w s (set_store (run_call fingerprint (w_observed w) c (w_store w)).2 w) (spec_call (w_observed w) c s).2.1.
Proof.
  intros Hw Hc. pose proof (world_state _ _ Hw) as Hs. rewrite (world_store _ _ Hw), run_call_of by done.
  pose proof (spec_call_ok s (w_observed w) c Hs Hc) as Hs'. pose proof (call_evolves s (w_observed w) c Hs Hc) as He.
  destruct (spec_call_observes (w_observed w) c s Hs) as [[_ Ho] _]. pose proof (world_observed _ _ Hw).
  destruct (spec_call (w_observed w) c s) as [r [s' g]]. cbn [encoded fst snd] in *. apply store_progress; try done.
  destruct He as [? _]. lia.
Qed.

Lemma other_call_progress w s observed c :
  world_ok w s → call_ok c →
  progress w s (set_store ((run_call fingerprint observed c (w_store w)).2.1, w_observed w) w) (spec_call observed c s).2.1.
Proof.
  intros Hw Hc. pose proof (world_state _ _ Hw) as Hs. rewrite (world_store _ _ Hw), run_call_of by done.
  pose proof (spec_call_ok s observed c Hs Hc) as Hs'. pose proof (call_evolves s observed c Hs Hc) as He.
  pose proof (world_observed _ _ Hw). destruct (spec_call observed c s) as [r [s' g]]. cbn [encoded fst snd] in *.
  apply store_progress; try done. destruct He as [? _]. lia.
Qed.

(** A change of the runtime alone, after some steps. *)
Lemma runtime_progress w0 s0 w s r :
  progress w0 s0 w s → (registry_view (w_runtime w)).1 <= (registry_view r).1 → current_view s (registry_view r) →
  (∀ id bound, gone id bound w0 s0 → avoids id bound (registry_view r)) → progress w0 s0 (set_runtime r w) s.
Proof.
  intros [[H1 H2 H3 H4 H5 H6] Hev Hmono Hgone] Hle Hv Hav. split; [by split|done|cbn in *; lia|].
  intros id bound Hg. pose proof (Hgone id bound Hg) as [G1 G2 G3 G4]. split; [done|done|by apply Hav|done].
Qed.

Lemma fail_closed_view e r : registry_view (fail_closed e r) = registry_view r.
Proof. unfold fail_closed. by destruct (bool_decide _). Qed.

Lemma fail_progress w s e : world_ok w s → progress w s (set_runtime (fail_closed e (w_runtime w)) w) s.
Proof.
  intros Hw. apply runtime_progress; rewrite ?fail_closed_view; [by apply progress_refl|lia|apply Hw|].
  intros id bound Hg. apply Hg.
Qed.

(** *** Publication *)

Lemma publish_publishable snapshot now r :
  publishable now snapshot →
  publish snapshot now r
  = (Ok (), if snapshot_generation snapshot <? projection_generation (runtime_projection r) then r
            else project snapshot (mk_GrantRegistry (registry_entry <$> snapshot_issuers snapshot) (snapshot_grants snapshot))).
Proof. intros Hp. unfold publish. rewrite Hp. by destruct (_ <? _). Qed.

Lemma publish_progress w0 s0 w s snapshot now :
  progress w0 s0 w s → current_view s (snapshot_view snapshot) → publishable now snapshot →
  (∀ id bound, gone id bound w0 s0 → avoids id bound (snapshot_view snapshot)) →
  progress w0 s0 (set_runtime (publish snapshot now (w_runtime w)).2 w) s.
Proof.
  intros Hpr Hv Hp Hav. rewrite publish_publishable by done. destruct (_ <? _) eqn:E; cbn [snd].
  - apply runtime_progress; [done|lia|apply Hpr|]. intros id bound Hg. by apply (progress_gone _ _ _ _ Hpr).
  - apply runtime_progress; [done|cbn; lia|done|done].
Qed.

(** *** Snapshots *)

Lemma snapshot_own w s now high_water answer rest :
  world_ok w s → 0 <= now →
  load_snapshot fingerprint (w_observed w) (w_store w) now high_water = (answer, rest) →
  ∃ s', progress w s (set_store rest w) s'
        ∧ (∀ snapshot, answer = Ok snapshot →
             required_high_water high_water (w_observed w) <= snapshot_generation snapshot
             ∧ snapshot = spec_snapshot now s').
Proof.
  intros Hw Hnow Hsn. destruct answer as [snapshot|e].
  - destruct rest as [db' g]. rewrite (world_store _ _ Hw) in Hsn. pose proof (world_state _ _ Hw) as Hs.
    pose proof (load_snapshot_inv _ _ _ _ _ _ _ _ Hfp Hs Hnow Hsn) as (s' & Hx & Hs' & -> & -> & -> & _ & Hreq).
    assert (evolves s s') as He.
    { apply evolves_step; [by apply (spec_expire_generation now s (s_generation s'))|].
      by apply (spec_expire_only_ends now s (s_generation s')). }
    exists s'. split; [by apply store_progress|]. intros snapshot [= <-]. split; [|done]. cbn. destruct He as [? _]. lia.
  - pose proof (own_call_progress w s (CallSnapshot now high_water) Hw Hnow) as Hp.
    cbn [run_call] in Hp. rewrite Hsn in Hp. eexists. split; [exact Hp|done].
Qed.

Lemma spec_snapshot_view now s : state_ok s → current_view s (snapshot_view (spec_snapshot now s)).
Proof.
  intros Hs. split; cbn; [lia|]. intros _ g (e & He & Hl & <-)%live_grants_elem. exists e. split_and!; [done| |done].
  by apply live_active in Hl.
Qed.

Lemma spec_snapshot_avoids id bound now s : ended id s → avoids id bound (snapshot_view (spec_snapshot now s)).
Proof. intros He _. by apply ended_not_listed. Qed.

(** *** The others *)

Lemma interfere_progress w s i :
  world_ok w s → interference_ok i → ∃ s', progress w s (interfere fingerprint w i) s'.
Proof.
  intros Hw Hi. destruct i as [observed c|c|now high_water|n|e|id profile now]; cbn [interfere interference_ok] in *.
  - eexists. by apply other_call_progress.
  - eexists. by apply own_call_progress.
  - destruct (load_snapshot _ _ _ _ _) as [answer rest] eqn:Esn.
    destruct (snapshot_own w s now high_water answer rest Hw Hi Esn) as (s' & Hp & Hsnap). exists s'.
    destruct answer as [snapshot|e]; [|done]. destruct (Hsnap snapshot eq_refl) as [_ ->]. apply (progress_trans _ _ _ _ _ _ Hp).
    pose proof (progress_ok _ _ _ _ Hp) as Hw'. pose proof (world_state _ _ Hw') as Hs'. split.
    + destruct Hw' as [H1 H2 H3 H4 H5 H6]. split; try done. intros p [Hin|Hin%list_elem_of_singleton]%elem_of_app; [by apply H5|].
      subst p. split; [by apply spec_snapshot_view|by apply spec_snapshot_publishable].
    + apply evolves_refl.
    + cbn. lia.
    + intros id bound [G1 G2 G3 G4]. split; try done. intros p [Hin|Hin%list_elem_of_singleton]%elem_of_app; [by apply G4|].
      subst p. by apply spec_snapshot_avoids.
  - exists s. destruct (w_in_flight w !! n) as [[snapshot now]|] eqn:En; [|by apply progress_refl].
    apply list_elem_of_lookup_2 in En. destruct (world_flight _ _ Hw _ En). apply publish_progress; [by apply progress_refl|done|done|].
    intros id bound Hg. by apply (gone_flight _ _ _ _ Hg _ En).
  - exists s. by apply fail_progress.
  - exists s. unfold status_snapshot. destruct (is_none _); cbn [snd]; [|by destruct w; apply progress_refl].
    destruct (world_registry _ _ Hw) as [Hle Hv]. apply runtime_progress; [by apply progress_refl|cbn; lia| |].
    + split; [done|]. cbn. intros Heq g [Hg _]%filter_elem. by apply Hv.
    + intros id' bound Hg Hb (g & -> & Hin)%list_elem_of_fmap. cbn in Hin. apply filter_elem in Hin as [Hin _].
      apply (gone_registry _ _ _ _ Hg Hb). by apply list_elem_of_fmap_2.
Qed.

Lemma interferences_progress l w s :
  world_ok w s → (∀ i, i ∈ l → interference_ok i) → ∃ s', progress w s (fold_left (interfere fingerprint) l w) s'.
Proof.
  revert w s. induction l as [|i l IH]; intros w s Hw Hl; [exists s; by apply progress_refl|]. cbn [fold_left].
  destruct (interfere_progress w s i Hw ltac:(apply Hl; left)) as [s1 H1].
  destruct (IH _ s1 (progress_ok _ _ _ _ H1) ltac:(intros; apply Hl; by right)) as [s2 H2]. exists s2. by eapply progress_trans.
Qed.

(** ** Tasks *)

(** A task that keeps what every step keeps. *)
Definition safe {A} (m : Task A) : Prop := ∀ w s, world_ok w s → ∃ s', progress w s (m w).2 s'.

Lemma safe_ret {A} (a : A) : safe (ret a).
Proof. intros w s Hw. exists s. by apply progress_refl. Qed.

Lemma safe_then {A B} (m : Task A) (k : A → Task B) : safe m → (∀ a, safe (k a)) → safe (then_ m k).
Proof.
  intros Hm Hk w s Hw. destruct (Hm w s Hw) as [s1 H1]. unfold then_. destruct (m w) as [a w1]. cbn in H1.
  destruct (Hk a w1 s1 (progress_ok _ _ _ _ H1)) as [s2 H2]. exists s2. by eapply progress_trans.
Qed.

Lemma safe_attempt {E A B} (m : Task (result E A)) (k : A → Task (result E B)) :
  safe m → (∀ a, safe (k a)) → safe (attempt m k).
Proof. intros Hm Hk. apply safe_then; [done|]. intros [a|e]; [done|apply safe_ret]. Qed.

Lemma safe_as_internal {E A} (m : Task (result E A)) : safe m → safe (as_internal m).
Proof. intros Hm. apply safe_then; [done|]. intros a. apply safe_ret. Qed.

Lemma safe_next_turn : safe (next_turn fingerprint).
Proof.
  intros w s Hw. unfold next_turn. destruct (w_schedule w) as [|t l] eqn:Es; [exists s; by apply progress_refl|].
  cbn [snd]. assert (world_ok (mk_World (w_store w) (w_observed w) (w_runtime w) (w_in_flight w) (w_entropy w) l) s) as Hw'.
  { destruct Hw as [H1 H2 H3 H4 H5 H6]. split; try done. cbn. intros t' Ht'. apply H6. rewrite Es. by right. }
  destruct (interferences_progress (turn_others t) _ s Hw') as [s' Hp].
  { intros i. apply (world_schedule _ _ Hw t). rewrite Es. left. }
  exists s'. apply (progress_trans _ s (mk_World (w_store w) (w_observed w) (w_runtime w) (w_in_flight w) (w_entropy w) l) s);
    [|done]. split; [done|apply evolves_refl|cbn; lia|]. intros id bound [G1 G2 G3 G4]. by split.
Qed.

Lemma safe_locked {A} (f : LiveAuthorizationRuntime → A * LiveAuthorizationRuntime) :
  (∀ w s, world_ok w s → progress w s (set_runtime (f (w_runtime w)).2 w) s) → safe (locked fingerprint f).
Proof.
  intros Hf. apply safe_then; [apply safe_next_turn|]. intros _ w s Hw. exists s. specialize (Hf w s Hw).
  by destruct (f (w_runtime w)).
Qed.

Lemma safe_look {A} (f : LiveAuthorizationRuntime → A) : safe (look fingerprint f).
Proof. apply safe_locked. intros w s Hw. cbn. destruct w. by apply progress_refl. Qed.

Lemma safe_fail e : safe (fail_task fingerprint e).
Proof. apply safe_locked. intros w s Hw. by apply fail_progress. Qed.

(** A store operation that is a call. *)
Definition is_call {A} (f : Z → AuthTables → outcome A) (c : AuthorizationCall) : Prop :=
  call_ok c ∧ ∀ observed db, (f observed db).2 = (run_call fingerprint observed c db).2.

Lemma safe_worker {A} (f : Z → AuthTables → outcome A) c fate : is_call f c → safe (run_worker f fate).
Proof.
  intros [Hc Hf] w s Hw. pose proof (own_call_progress w s c Hw Hc) as Hp. rewrite <- Hf in Hp. unfold run_worker.
  destruct (f (w_observed w) (w_store w)) as [answer rest]. cbn in Hp.
  destruct fate as [|e| |[] in_time]; cbn [snd]; eauto using progress_refl.
Qed.

Lemma safe_operation {A} (f : Z → AuthTables → outcome A) c : is_call f c → safe (store_operation fingerprint f).
Proof.
  intros Hf. apply safe_then; [apply safe_next_turn|]. intros fate. apply safe_then; [by apply (safe_worker f c)|].
  intros [answer|]; [apply safe_ret|]. apply safe_then; [apply safe_fail|]. intros _. apply safe_ret.
Qed.

(** *** Refreshing *)

Definition refreshed (high_water : Z) (w : World) (s : AuthState)
    (m : result AuthorizationRuntimeError unit * World) : Prop :=
  ∃ s', progress w s m.2 s' ∧ m.1 ≠ Err InvalidProjection
        ∧ (m.1 = Ok () → high_water <= (registry_view (w_runtime m.2)).1).

Lemma refreshed_error high_water w s (m : Task unit) e :
  safe m → e ≠ InvalidProjection → world_ok w s → refreshed high_water w s ((let! _ := m in ret (Err e)) w).
Proof.
  intros Hm He Hw. destruct (Hm w s Hw) as [s' Hp]. unfold refreshed, then_. destruct (m w) as [u w']. exists s'.
  split_and!; [done|cbn; congruence|done].
Qed.

Lemma refreshed_after high_water w s w1 s1 m :
  progress w s w1 s1 → refreshed high_water w1 s1 m → refreshed high_water w s m.
Proof. intros Hp (s2 & H2 & H3). exists s2. split; [by eapply progress_trans|done]. Qed.

Lemma publish_refreshes w s now high_water :
  world_ok w s → high_water <= s_generation s →
  refreshed high_water w s (locked fingerprint (publish (spec_snapshot now s) now) w).
Proof.
  intros Hw Hle. pose proof (world_state _ _ Hw) as Hs. destruct (safe_next_turn w s Hw) as [s2 H2].
  unfold locked, then_. destruct (next_turn fingerprint w) as [fate w2]. cbn [snd] in H2.
  pose proof (spec_snapshot_publishable now s Hs) as Hpub. exists s2.
  assert (progress w s (set_runtime (publish (spec_snapshot now s) now (w_runtime w2)).2 w2) s2) as Hp.
  { apply publish_progress; [done| |done|].
    - apply (evolves_view s); [apply H2|by apply spec_snapshot_view].
    - intros id bound Hg. apply spec_snapshot_avoids, Hg. }
  rewrite publish_publishable in Hp |- * by done. cbn [fst snd] in *. split_and!; [done|done|]. intros _.
  destruct (_ <? _) eqn:E; cbn in *; lia.
Qed.

Lemma refresh_ok w s now high_water :
  world_ok w s → 0 <= now → refreshed high_water w s (refresh_locked fingerprint now high_water w).
Proof.
  intros Hw Hnow. destruct (safe_next_turn w s Hw) as [s1 H1]. unfold refresh_locked. cbv zeta. unfold then_ at 1.
  destruct (next_turn fingerprint w) as [fate w1]. cbn [snd] in H1. apply (refreshed_after _ _ _ _ _ _ H1).
  pose proof (progress_ok _ _ _ _ H1) as Hw1. set (observe := fun (o : Z) (db : AuthTables) => _).
  assert (is_call observe (CallSnapshot now (Some high_water))) as Hcall by (split; [done|intros; done]).
  destruct (in_time fate) eqn:Et.
  - unfold then_ at 1. unfold run_worker, observe at 1.
    destruct (load_snapshot fingerprint (w_observed w1) (w_store w1) now (Some high_water)) as [answer rest] eqn:Esn.
    destruct (snapshot_own w1 s1 now (Some high_water) answer rest Hw1 Hnow Esn) as (s2 & H2 & Hsnap).
    pose proof (progress_ok _ _ _ _ H2) as Hw2. destruct fate as [|e| |committed b]; try discriminate.
    + apply (refreshed_after _ _ _ _ _ _ H2). destruct answer as [snapshot|e].
      * destruct (Hsnap snapshot eq_refl) as [Hle ->]. apply publish_refreshes; [done|]. cbn in Hle.
        destruct (w_observed w1 <? high_water) eqn:E; lia.
      * apply refreshed_error; [apply safe_fail|done|done].
    + apply refreshed_error; [apply safe_fail|done|done].
    + exists (if committed then s2 else s1). cbn. split_and!; [|done|done]. destruct committed; [done|by apply progress_refl].
  - assert (safe (let! _ := fail_task fingerprint ObservationDeadlineExceeded in
                  let! _ := next_turn fingerprint in run_worker observe fate)) as Hsafe.
    { apply safe_then; [apply safe_fail|]. intros _. apply safe_then; [apply safe_next_turn|]. intros _.
      by apply (safe_worker observe (CallSnapshot now (Some high_water))). }
    destruct (Hsafe w1 s1 Hw1) as [s2 H2]. unfold then_ in H2 |- *. destruct (fail_task _ _ w1) as [u w2].
    destruct (next_turn fingerprint w2) as [fate' w3]. destruct (run_worker observe fate w3) as [joined w4]. cbn [snd] in H2.
    apply (refreshed_after _ _ _ _ _ _ H2). pose proof (progress_ok _ _ _ _ H2) as Hw4. destruct joined.
    + exists s2. split_and!; [by apply progress_refl|done|done].
    + apply (refreshed_error _ _ _ (fail_task fingerprint BlockingOperationFailed)); [apply safe_fail|done|done].
Qed.

End worlds.
