(* ===== verification/AuthorizationDaemon.v ===== *)
(** * The daemon and its authorization store

    Every world of a running daemon, whatever its operations, its reloads and the other
    processes on its store do in between; and what the runtime promises there: a grant the
    store has ended is not served once its generation is projected, a snapshot is always
    accepted, a failed projection recovers, and a grant that was just issued is served. *)

From S2P Require Import Prelude Identifiers LocalGrants AuthorizationStore AuthorizationOps AuthorizationSpec.
From S2P Require Import AuthorizationCodec AuthorizationSteps AuthorizationInvariant AuthorizationProofs.
From S2P Require Import AuthorizationHistory AuthorizationTheorems AuthorizationRuntime AuthorizationRuntimeProofs.
Open Scope Z_scope.

Section daemon.
Context `{Sha256} `{WebAuthnDocuments}.
Variable fingerprint : bytes.

(** ** The worlds of a daemon *)

Inductive DaemonOperation :=
| DaemonIssueTrusted (t : AccountTrustedGrantRequest)
| DaemonPresenceContext (id : IssuerKeyId) (version : IssuerKeyVersion) (profile : ServiceProfileId) (harness : HarnessKind)
| DaemonIssuePresence (u : UserPresenceGrantRequest)
| DaemonRecover (id : IssuerKeyId) (version : IssuerKeyVersion) (key : GrantIssuanceKey) (now : Z)
| DaemonRetire (id : SessionGrantId) (now : Z)
| DaemonReload (wakes : list ReloadWake)
| DaemonHandshake (binding : AuthorizationBinding) (clocks : list Z).

Definition run_operation (operation : DaemonOperation) (w : World) : World :=
  match operation with
  | DaemonIssueTrusted t => (issue_account_trusted_grant fingerprint t w).2
  | DaemonPresenceContext id version profile harness => (user_presence_context fingerprint id version profile harness w).2
  | DaemonIssuePresence u => (issue_user_presence_grant fingerprint u w).2
  | DaemonRecover id version key now => (recover_user_presence_grant fingerprint id version key now w).2
  | DaemonRetire id now => (retire_session_grant fingerprint id now w).2
  | DaemonReload wakes => (run_reload_loop fingerprint wakes w).2
  | DaemonHandshake binding clocks => (authorize_handshake_binding fingerprint binding clocks w).2
  end.

(** Clocks are unsigned. *)
Definition operation_ok (operation : DaemonOperation) : Prop :=
  match operation with
  | DaemonIssueTrusted t => 0 <= trusted_issued_at t
  | DaemonIssuePresence u => 0 <= presence_issued_at u
  | DaemonRecover _ _ _ now | DaemonRetire _ now => 0 <= now
  | DaemonReload wakes => ∀ now, WakeReload now ∈ wakes → 0 <= now
  | DaemonPresenceContext _ _ _ _ | DaemonHandshake _ _ => True
  end.

(** The same world with other turns and identifiers to come. *)
Definition with_turns (entropy : list (option SessionGrantId)) (schedule : list Turn) (w : World) : World :=
  mk_World (w_store w) (w_observed w) (w_runtime w) (w_in_flight w) entropy schedule.

Inductive daemon_world : World → Prop :=
| daemon_open db now w :
    reachable fingerprint db → 0 <= now → open_runtime fingerprint db now = Ok (Ok w) → daemon_world w
| daemon_turns w entropy schedule :
    daemon_world w → (∀ t, t ∈ schedule → ∀ i, i ∈ turn_others t → interference_ok i) →
    daemon_world (with_turns entropy schedule w)
| daemon_operation w operation : daemon_world w → operation_ok operation → daemon_world (run_operation operation w)
| daemon_others w i : daemon_world w → interference_ok i → daemon_world (interfere fingerprint w i).

(** The worlds a world leads to. *)
Inductive daemon_later (w : World) : World → Prop :=
| later_same : daemon_later w w
| later_turns w' entropy schedule :
    daemon_later w w' → (∀ t, t ∈ schedule → ∀ i, i ∈ turn_others t → interference_ok i) →
    daemon_later w (with_turns entropy schedule w')
| later_operation w' operation : daemon_later w w' → operation_ok operation → daemon_later w (run_operation operation w')
| later_others w' i : daemon_later w w' → interference_ok i → daemon_later w (interfere fingerprint w' i).

Hypothesis Hfp : fingerprint_ok fingerprint.

Lemma safe_refresh now high_water : 0 <= now → safe fingerprint (refresh_locked fingerprint now high_water).
Proof. intros Hnow w s Hw. destruct (refresh_ok fingerprint Hfp w s now high_water Hw Hnow) as (s' & Hp & _). by exists s'. Qed.

Lemma safe_map_error e : safe fingerprint (map_mutation_error fingerprint e).
Proof. destruct e; cbn; try apply safe_ret; (apply safe_then; [by apply safe_fail|intros; apply safe_ret]). Qed.

Lemma safe_refuse {A} e : safe fingerprint (refuse (A := A) fingerprint e).
Proof. apply safe_then; [apply safe_map_error|]. intros. apply safe_ret. Qed.

Lemma safe_random : safe fingerprint random_identifier.
Proof.
  intros w s Hw. exists s. unfold random_identifier.
  assert (∀ rest, progress fingerprint w s (mk_World (w_store w) (w_observed w) (w_runtime w) (w_in_flight w) rest (w_schedule w)) s) as Hr.
  { intros rest. destruct Hw as [H1 H2 H3 H4 H5 H6]. split; [by split|apply evolves_refl|cbn; lia|]. intros id bound [G1 G2 G3 G4]. by split. }
  destruct (w_entropy w) as [|[id|] l]; [by apply progress_refl|apply Hr|apply Hr].
Qed.

Lemma safe_request_context q : safe fingerprint (request_context fingerprint q).
Proof. apply safe_attempt; [by apply safe_look|]. intros context. destruct (is_some_and _ _); apply safe_ret. Qed.

Lemma safe_issue_attempts n q context : 0 <= request_issued_at q → safe fingerprint (issue_attempts fingerprint n q context).
Proof.
  intros Hnow. revert context. induction n as [|n IH]; intros context; cbn [issue_attempts]; [apply safe_ret|].
  apply safe_attempt; [destruct (request_grant_id q); [apply safe_ret|apply safe_random]|]. intros id.
  apply safe_attempt; [apply safe_ret|]. intros grant.
  apply safe_attempt; [by apply (safe_operation _ Hfp _ (CallIssue (request_key q) grant (request_issued_at q)))|].
  assert (∀ hw, safe fingerprint (as_internal (refresh_locked fingerprint (request_issued_at q) hw))) as Hr.
  { intros hw. by apply safe_as_internal, safe_refresh. }
  intros [issuance|e].
  - apply safe_attempt; [apply Hr|]. intros. apply safe_ret.
  - destruct e; cbn [should_refresh_after_mutation_error]; try apply safe_refuse;
      (apply safe_attempt; [apply Hr|]; intros; try apply safe_refuse).
    apply safe_attempt; [apply safe_request_context|]. intros. apply IH.
Qed.

Lemma safe_issue_locked q : 0 <= request_issued_at q → safe fingerprint (issue_grant_locked fingerprint q).
Proof. intros Hnow. apply safe_attempt; [apply safe_request_context|]. intros. by apply safe_issue_attempts. Qed.

Lemma safe_presence_context id version profile harness :
  safe fingerprint (user_presence_context fingerprint id version profile harness).
Proof.
  apply safe_attempt; [apply safe_ret|]. intros presence. apply safe_then; [by apply safe_look|]. intros first.
  apply safe_attempt.
  - destruct first as [context|e]; [apply safe_ret|]. destruct e; try apply safe_ret.
    apply safe_attempt; [apply safe_ret|]. intros. apply safe_attempt; [by apply safe_look|]. intros. apply safe_ret.
  - intros chosen. apply safe_attempt; [by apply safe_look|]. intros. apply safe_ret.
Qed.

Lemma safe_recover id version key now : 0 <= now → safe fingerprint (recover_user_presence_grant fingerprint id version key now).
Proof.
  intros Hnow. apply safe_attempt; [by apply (safe_operation _ Hfp _ (CallActiveGrant id version key now))|].
  intros [grant|e]; [|apply safe_refuse]. apply safe_attempt; [by apply safe_look|]. intros.
  apply safe_attempt; [by apply safe_as_internal, safe_refresh|]. intros. apply safe_ret.
Qed.

Lemma safe_retire id now : 0 <= now → safe fingerprint (retire_session_grant fingerprint id now).
Proof.
  intros Hnow. apply safe_attempt; [by apply (safe_operation _ Hfp _ (CallRetire id now))|].
  intros [mutation|e].
  - apply safe_attempt; [by apply safe_as_internal, safe_refresh|]. intros. apply safe_ret.
  - destruct e; try apply safe_refuse. apply safe_attempt; [by apply safe_look|]. intros.
    apply safe_attempt; [by apply safe_as_internal, safe_refresh|]. intros. apply safe_ret.
Qed.

Lemma from_document_valid document c : from_document document = Ok c → credential_valid c.
Proof.
  unfold credential_valid. intros Hok. assert (credential_document c = document) as ->; [|done].
  unfold from_document in Hok. apply bind_Ok in Hok as (? & _ & Hok). apply bind_Ok in Hok as ([[version provider] cid] & _ & Hok).
  do 2 apply bind_Ok in Hok as (? & _ & Hok). by injection Hok as <-.
Qed.

Lemma safe_value {E A B} (r : result E A) (k : A → Task (result E B)) :
  (∀ a, r = Ok a → safe fingerprint (k a)) → safe fingerprint (attempt (ret r) k).
Proof. intros Hk. destruct r as [a|e]; [exact (Hk a eq_refl)|apply safe_ret]. Qed.

Lemma safe_issue_presence u : 0 <= presence_issued_at u → safe fingerprint (issue_user_presence_grant fingerprint u).
Proof.
  intros Hnow. apply safe_value. intros document _. apply safe_value. intros updated Hup.
  assert (credential_valid updated) as Hv.
  { destruct (from_document document) as [c|] eqn:Ed; [|done]. injection Hup as <-. by apply (from_document_valid document). }
  apply safe_attempt; [apply safe_ret|]. intros candidate.
  apply safe_attempt; [by apply (safe_operation _ Hfp _
    (CallUpdateCredentialForGrant (presence_expected_credential u) updated candidate (presence_issued_at u)))|].
  intros [mutation|e]; [|apply safe_refuse]. apply safe_attempt; [by apply safe_as_internal, safe_refresh|].
  intros. by apply safe_issue_locked.
Qed.

Lemma safe_reload_pass now : 0 <= now → safe fingerprint (reload_pass fingerprint now).
Proof.
  intros Hnow. apply safe_then; [by apply safe_look|]. intros failure. cbv zeta. destruct (is_some_and _ _); [apply safe_ret|].
  apply safe_then.
  - apply safe_then; [by apply safe_look|]. intros. by apply safe_refresh.
  - intros [u|e]; [apply safe_ret|]. apply safe_then; [by apply safe_look|]. intros state.
    destruct (resolve_authorization_reload_transition _ _); try apply safe_ret.
    apply safe_then; [by apply safe_fail|]. intros. apply safe_ret.
Qed.

Lemma safe_reload_loop wakes :
  (∀ now, WakeReload now ∈ wakes → 0 <= now) → safe fingerprint (run_reload_loop fingerprint wakes).
Proof.
  induction wakes as [|[[]|now] wakes IH]; intros Hl; cbn [run_reload_loop]; [apply safe_ret| | |].
  - apply safe_then; [by apply safe_look|]. intros. apply safe_ret.
  - apply IH. intros now Hn. apply Hl. by right.
  - apply safe_then; [apply safe_reload_pass, Hl; left|]. intros [ended|]; [apply safe_ret|].
    apply IH. intros now' Hn. apply Hl. by right.
Qed.

Lemma safe_handshake binding clocks : safe fingerprint (authorize_handshake_binding fingerprint binding clocks).
Proof.
  induction clocks as [|now clocks IH]; cbn [authorize_handshake_binding]; [apply safe_ret|].
  apply safe_then; [by apply safe_look|]. intros [authorized|]; [apply safe_ret|done].
Qed.

Lemma operation_safe operation w s :
  operation_ok operation → world_ok fingerprint w s → ∃ s', progress fingerprint w s (run_operation operation w) s'.
Proof.
  intros Ho. destruct operation; cbn [operation_ok run_operation] in *.
  - apply safe_value. intros evidence _. by apply safe_issue_locked.
  - apply safe_presence_context.
  - by apply safe_issue_presence.
  - by apply safe_recover.
  - by apply safe_retire.
  - by apply safe_reload_loop.
  - apply safe_handshake.
Qed.

(** Opening a store that bootstrap and calls have made. *)
Lemma open_runtime_of s now r :
  state_ok s → 0 <= now → open_runtime fingerprint (tables_of fingerprint s) now = Ok r →
  ∃ w s', r = Ok w ∧ world_ok fingerprint w s' ∧ evolves s s'.
Proof.
  intros Hs Hnow Hok. unfold open_runtime in Hok. apply bind_Ok in Hok as (opened & Hop & Hok).
  destruct (load_snapshot _ _ _ _ _) as [[snapshot|e] [db g]] eqn:Esn; [|done]. injection Hok as <-.
  apply load_snapshot_inv in Esn as (s' & Hx & Hs' & -> & -> & -> & _); [|done..].
  unfold from_snapshot. rewrite (spec_snapshot_publishable now s' Hs'). cbn [mbind result_bind]. eexists _, s'.
  split_and!; [done| |].
  - pose proof (spec_snapshot_view now s' Hs') as Hv. split; [done|done|cbn; lia|exact Hv| |].
    + by intros p Hp%not_elem_of_nil.
    + by intros p Hp%not_elem_of_nil.
  - apply evolves_step; [by apply (spec_expire_generation now s (s_generation s'))|].
    by apply (spec_expire_only_ends now s (s_generation s')).
Qed.

Lemma daemon_world_ok w : daemon_world w → ∃ s, world_ok fingerprint w s.
Proof.
  induction 1 as [db now w Hr Hnow Hop|w entropy schedule _ [s Hw] Hsch|w operation _ [s Hw] Ho|w i _ [s Hw] Hi].
  - destruct (reachable_state _ _ Hfp Hr) as (s & Hs & ->).
    destruct (open_runtime_of s now (Ok w) Hs Hnow Hop) as (w' & s' & [= <-] & Hw & _). by exists s'.
  - exists s. destruct Hw as [H1 H2 H3 H4 H5 H6]. by split.
  - destruct (operation_safe operation w s Ho Hw) as [s' Hp]. exists s'. apply Hp.
  - destruct (interfere_progress fingerprint Hfp w s i Hw Hi) as [s' Hp]. exists s'. apply Hp.
Qed.

Lemma daemon_later_progress w s w' :
  world_ok fingerprint w s → daemon_later w w' → ∃ s', progress fingerprint w s w' s'.
Proof.
  intros Hw. induction 1 as [|w' entropy schedule _ [s' Hp] Hsch|w' operation _ [s' Hp] Ho|w' i _ [s' Hp] Hi].
  - exists s. by apply progress_refl.
  - exists s'. destruct Hp as [[H1 H2 H3 H4 H5 H6] Hev Hmono Hgone]. split; [by split|done|done|].
    intros id bound Hg. destruct (Hgone id bound Hg) as [G1 G2 G3 G4]. by split.
  - destruct (operation_safe operation w' s' Ho (progress_ok _ _ _ _ _ Hp)) as [s2 H2]. exists s2. by eapply progress_trans.
  - destruct (interfere_progress fingerprint Hfp w' s' i (progress_ok _ _ _ _ _ Hp) Hi) as [s2 H2]. exists s2. by eapply progress_trans.
Qed.

(** ** Ended grants *)

(** The call that ends one grant. *)
Lemma ending_call s observed id st now kind m s' g :
  state_ok s →
  timed now observed s (spec_write observed s (spec_mutate now kind (spec_terminalize id st now) s)) = (Ok m, (s', g)) →
  mutation_generation m = s_generation s' ∧ generation_step s s' ∧ ended id s'.
Proof.
  intros Hs Hok. unfold timed, spec_write in Hok. destruct (I64_MAX <? now); [done|]. destruct (s_generation s <? observed); [done|].
  destruct (spec_mutate _ _ _ _) as [[m' s1]|] eqn:Em; [|done]. injection Hok as -> -> <-.
  pose proof (spec_terminalize_mutate_ends _ _ _ _ _ _ _ Hs Em) as He.
  apply spec_mutate_generation in Em as [Hg Hstep]; [done| |done]. unfold spec_terminalize. intros s2 Hop.
  apply bind_Ok in Hop as (e & _ & Hop). destruct (entry_live _ _); by injection Hop.
Qed.

Lemma ending_run s observed c id now m db' g :
  state_ok s → 0 <= now → (c = CallRetire id now ∨ c = CallRevoke id now) →
  run_call fingerprint observed c (tables_of fingerprint s) = (Ok (AnswerMutation m), (db', g)) →
  ∃ s', db' = tables_of fingerprint s' ∧ state_ok s' ∧ g = s_generation s' ∧ mutation_generation m = s_generation s'
        ∧ generation_step s s' ∧ grants_only_end s s' ∧ ended id s'.
Proof.
  intros Hs Hnow Hc Hrun. assert (call_ok c) as Hok by (by destruct Hc as [-> | ->]).
  rewrite run_call_of in Hrun by done. pose proof (spec_call_ok s observed c Hs Hok) as Hs'.
  pose proof (spec_call_only_ends observed c s) as Hends. destruct (spec_call_observes observed c s Hs) as [_ Hobs].
  destruct (spec_call observed c s) as [r [s' g']] eqn:Ec. injection Hrun as -> <- <-. cbn [fst snd] in *.
  assert (∃ st kind, timed now observed s (spec_write observed s (spec_mutate now kind (spec_terminalize id st now) s)) = (Ok m, (s', g')))
    as (st & kind & Ht).
  { destruct Hc as [-> | ->]; cbn [spec_call mutation_step] in Ec; unfold answer in Ec; [exists StateRetired, AuditGrantRetired|exists StateRevoked, AuditGrantRevoked];
      (destruct (timed _ _ _ _) as [[m'|e'] rest]; [by injection Ec as -> ->|discriminate]). }
  apply ending_call in Ht as (Hm & Hstep & He); [|done]. by exists s'.
Qed.

(** A view of the state before does not serve the grant from the generation that ends it on. *)
Lemma ended_avoids s s' id v : generation_step s s' → ended id s' → current_view s v → avoids id (s_generation s') v.
Proof.
  intros [->|[Hg _]] He [Hle Hin] Hb; [|lia]. intros (x & -> & Hx)%list_elem_of_fmap.
  destruct (Hin ltac:(lia) x Hx) as (e & Hine & Ha & <-). destruct He as [_ He]. by rewrite (He e Hine) in Ha.
Qed.

Lemma ending_gone w s s' observed id :
  world_ok fingerprint w s → state_ok s' → generation_step s s' → grants_only_end s s' → ended id s' →
  observed <= s_generation s' →
  progress fingerprint w s (set_store (tables_of fingerprint s', observed) w) s'
  ∧ gone id (s_generation s') (set_store (tables_of fingerprint s', observed) w) s'.
Proof.
  intros Hw Hs' Hg Hends He Ho. split; [apply store_progress; try done; by apply evolves_step|].
  destruct Hw as [_ _ _ Hr Hf _]. split; [done|lia| |].
  - by apply (ended_avoids s).
  - intros p Hp. apply (ended_avoids s); [done|done|]. by apply Hf.
Qed.

(** The registry does not hold a grant that is gone, once its generation is projected. *)
Lemma gone_inactive id bound w s grant clock :
  gone id bound w s → bound <= (registry_view (w_runtime w)).1 → grant_id grant = id →
  registry_active_grant (runtime_registry (w_runtime w)) (grant_id grant) clock = None.
Proof.
  intros Hg Hb <-. destruct (registry_active_grant _ _ _) as [active|] eqn:Ea; [|done].
  unfold registry_active_grant in Ea. apply find_some in Ea as [Hin Hp]. apply list_elem_of_In in Hin.
  apply andb_true_iff in Hp as [Hid _]. apply bool_decide_eq_true in Hid. destruct (gone_registry _ _ _ _ Hg Hb).
  rewrite <- Hid. by apply list_elem_of_fmap_2.
Qed.

Lemma gone_interrupted id bound w s grant clock :
  gone id bound w s → bound <= (registry_view (w_runtime w)).1 → grant_id grant = id →
  grant_interruption (w_runtime w) grant clock ≠ None.
Proof.
  intros Hg Hb Hid. unfold grant_interruption. destruct (is_some _); [done|].
  by rewrite (gone_inactive id bound w s grant clock).
Qed.

(** C4: when any process revokes a grant of the store of a running daemon, then whatever the
    tasks of the daemon and other processes do next, in any interleaving, with any reload
    late, failed or out of order, the daemon does not let the grant through once it has
    projected the generation of the revocation: never again, at any clock. *)
Theorem revoked_grant_not_served w observed id now m db' g w' grant clock :
  daemon_world w → 0 <= now →
  revoke_grant fingerprint observed (w_store w) id now = (Ok m, (db', g)) →
  daemon_later (set_store (db', w_observed w) w) w' →
  mutation_generation m <= projection_generation (runtime_projection (w_runtime w')) →
  grant_id grant = id → grant_interruption (w_runtime w') grant clock ≠ None.
Proof.
  intros Hd Hnow Hrev Hlater Hgen Hid. destruct (daemon_world_ok w Hd) as [s Hw]. pose proof (world_state _ _ _ Hw) as Hs.
  rewrite (world_store _ _ _ Hw) in Hrev.
  destruct (ending_run s observed (CallRevoke id now) id now m db' g) as (s1 & -> & Hs1 & -> & Hm & Hstep & Hends & He);
    [done|done|by right|by cbn; rewrite Hrev|].
  pose proof (generation_step_le _ _ Hstep). pose proof (world_observed _ _ _ Hw).
  destruct (ending_gone w s s1 (w_observed w) id Hw Hs1 Hstep Hends He ltac:(lia)) as [Hp Hg].
  destruct (daemon_later_progress _ s1 w' (progress_ok _ _ _ _ _ Hp) Hlater) as [s2 Hp2].
  apply (progress_gone _ _ _ _ _ Hp2) in Hg. by apply (gone_interrupted id (s_generation s1) w' s2); [..|cbn; lia|].
Qed.

(** The answer of a store operation comes from one transaction of the daemon. *)
Lemma store_operation_answer {A} (f : Z → AuthTables → outcome A) w s a w' :
  world_ok fingerprint w s → store_operation fingerprint f w = (Ok (Ok a), w') →
  ∃ w1 s1 rest, progress fingerprint w s w1 s1 ∧ f (w_observed w1) (w_store w1) = (Ok a, rest) ∧ w' = set_store rest w1.
Proof.
  intros Hw Hop. destruct (safe_next_turn fingerprint Hfp w s Hw) as [s1 H1]. unfold store_operation, then_ in Hop.
  destruct (next_turn fingerprint w) as [fate w1]. cbn [snd] in H1. unfold run_worker in Hop.
  destruct (f (w_observed w1) (w_store w1)) as [answer rest] eqn:Ef. exists w1, s1, rest.
  destruct fate as [|e| |committed b].
  - injection Hop as -> <-. done.
  - discriminate.
  - injection Hop as -> <-. done.
  - destruct (fail_task _ _ _). discriminate.
Qed.

(** The answer that a grant is retired comes when the registry has projected it. *)
Lemma retired_gone w id now w1 :
  daemon_world w → 0 <= now → retire_session_grant fingerprint id now w = (Ok true, w1) →
  ∃ s bound, world_ok fingerprint w1 s ∧ gone id bound w1 s ∧ bound <= (registry_view (w_runtime w1)).1.
Proof.
  intros Hd Hnow Hret. destruct (daemon_world_ok w Hd) as [s Hw]. unfold retire_session_grant, attempt, then_ in Hret.
  destruct (store_operation _ _ w) as [[[m|e]|e] wa] eqn:Eop; [| |done].
  - destruct (store_operation_answer _ w s m wa Hw Eop) as (wb & sb & rest & Hpb & Hf & ->). destruct rest as [db' g].
    pose proof (progress_ok _ _ _ _ _ Hpb) as Hwb. rewrite (world_store _ _ _ Hwb) in Hf.
    destruct (ending_run sb (w_observed wb) (CallRetire id now) id now m db' g) as (sc & -> & Hsc & -> & Hm & Hstep & Hends & He);
      [apply Hwb|done|by left|by cbn; rewrite Hf|].
    destruct (ending_gone wb sb sc (s_generation sc) id Hwb Hsc Hstep Hends He ltac:(lia)) as [Hpc Hg].
    pose proof (refresh_ok fingerprint Hfp _ sc now (mutation_generation m) (progress_ok _ _ _ _ _ Hpc) Hnow) as (sd & Hpd & _ & Hle).
    unfold as_internal, refresh_after_mutation, then_ in Hret.
    destruct (refresh_locked _ _ _ _) as [[[]|e] wd] eqn:Er; [|done]. injection Hret as _ <-. cbn [fst snd] in *.
    exists sd, (s_generation sc). split_and!; [apply Hpd|by apply (progress_gone _ _ _ _ _ Hpd)|]. specialize (Hle eq_refl). lia.
  - destruct e; unfold refuse, then_ in Hret; try (destruct (map_mutation_error _ _ _) in Hret; discriminate).
    destruct (look _ _ _) as [[hw|] wb] in Hret; [|done]. unfold as_internal, then_ in Hret.
    destruct (refresh_locked _ _ _ _) as [[[]|] wc] in Hret; discriminate.
Qed.

(** A grant that is gone stays so. *)
Lemma gone_later id bound w s w' :
  world_ok fingerprint w s → gone id bound w s → bound <= (registry_view (w_runtime w)).1 → daemon_later w w' →
  ∃ s', world_ok fingerprint w' s' ∧ gone id bound w' s' ∧ bound <= (registry_view (w_runtime w')).1.
Proof.
  intros Hw Hg Hb Hl. destruct (daemon_later_progress w s w' Hw Hl) as [s' Hp]. exists s'.
  split_and!; [apply Hp|by apply (progress_gone _ _ _ _ _ Hp)|]. pose proof (progress_projection _ _ _ _ _ Hp). lia.
Qed.

(** A handshake for a grant that is gone is refused, however long it waits. *)
Lemma gone_refused id bound clocks w s grant client :
  world_ok fingerprint w s → gone id bound w s → bound <= (registry_view (w_runtime w)).1 → grant_id grant = id →
  (authorize_handshake_binding fingerprint (BindingSession grant client) clocks w).1 ≠ Some true.
Proof.
  intros Hw Hg Hb Hid. revert w s Hw Hg Hb. induction clocks as [|now clocks IH]; intros w s Hw Hg Hb; [done|].
  cbn [authorize_handshake_binding]. unfold then_ at 1. unfold look, locked. unfold then_ at 1.
  destruct (safe_next_turn fingerprint Hfp w s Hw) as [s1 Hp]. destruct (next_turn fingerprint w) as [fate w1]. cbn [snd] in Hp.
  apply (progress_gone _ _ _ _ _ Hp) in Hg. pose proof (progress_projection _ _ _ _ _ Hp).
  unfold authorize_handshake_look. destruct (is_none (current_failure (w_runtime w1))).
  - cbn [registry_authorizes_binding]. rewrite (gone_inactive id bound w1 s1 grant now) by (done || lia). done.
  - assert (set_runtime (w_runtime w1) w1 = w1) as -> by (by destruct w1). apply (IH w1 s1); [apply Hp|done|lia].
Qed.

(** C10: when the daemon answers a session that its grant is retired, then from the moment of
    the answer on, and whatever the tasks of the daemon and other processes do in between and
    afterwards, the grant is not let through again. *)
Theorem retired_grant_not_served w id now w1 w2 grant clock :
  daemon_world w → 0 <= now → retire_session_grant fingerprint id now w = (Ok true, w1) →
  daemon_later w1 w2 → grant_id grant = id → grant_interruption (w_runtime w2) grant clock ≠ None.
Proof.
  intros Hd Hnow Hret Hlater Hid. destruct (retired_gone w id now w1 Hd Hnow Hret) as (s & bound & Hw & Hg & Hb).
  destruct (gone_later id bound w1 s w2 Hw Hg Hb Hlater) as (s2 & _ & Hg2 & Hb2). by apply (gone_interrupted id bound w2 s2).
Qed.

(** ** Publication and recovery *)

(** The registry of the daemon accepts every snapshot its store gives: a daemon that can
    read its store starts, and no refresh, whatever happens around it, finds its projection
    invalid. *)
Theorem projection_never_invalid db now r w now' high_water :
  reachable fingerprint db → 0 <= now → open_runtime fingerprint db now = Ok r →
  daemon_world w → 0 <= now' →
  (∃ started, r = Ok started) ∧ (refresh_locked fingerprint now' high_water w).1 ≠ Err InvalidProjection.
Proof.
  intros Hr Hnow Hop Hd Hnow'. destruct (reachable_state _ _ Hfp Hr) as (s & Hs & ->). split.
  - destruct (open_runtime_of s now r Hs Hnow Hop) as (w0 & _ & -> & _). by exists w0.
  - destruct (daemon_world_ok w Hd) as [s' Hw]. by destruct (refresh_ok fingerprint Hfp w s' now' high_water Hw Hnow') as (? & _ & ? & _).
Qed.

Lemma next_turn_quiet w : w_schedule w = [] → next_turn fingerprint w = (InTime, w).
Proof. intros Hq. unfold next_turn. by rewrite Hq. Qed.

Lemma locked_quiet {A} (f : LiveAuthorizationRuntime → A * LiveAuthorizationRuntime) w :
  w_schedule w = [] → locked fingerprint f w = ((f (w_runtime w)).1, set_runtime (f (w_runtime w)).2 w).
Proof. intros Hq. unfold locked, then_. rewrite next_turn_quiet by done. by destruct (f (w_runtime w)). Qed.

Lemma look_quiet {A} (f : LiveAuthorizationRuntime → A) w : w_schedule w = [] → look fingerprint f w = (f (w_runtime w), w).
Proof. intros Hq. unfold look. rewrite locked_quiet by done. by destruct w. Qed.

Lemma refresh_quiet_eq w now high_water :
  w_schedule w = [] →
  refresh_locked fingerprint now high_water w
  = match load_snapshot fingerprint (w_observed w) (w_store w) now (Some high_water) with
    | (Ok snapshot, rest) =>
        ((publish snapshot now (w_runtime w)).1, set_runtime (publish snapshot now (w_runtime w)).2 (set_store rest w))
    | (Err e, rest) =>
        (Err (RuntimeStore e), set_runtime (fail_closed (RuntimeStore e) (w_runtime w)) (set_store rest w))
    end.
Proof.
  intros Hq. unfold refresh_locked. cbv zeta. unfold then_ at 1. rewrite next_turn_quiet by done. cbn [in_time].
  unfold then_ at 1. unfold run_worker. destruct (load_snapshot _ _ _ _ _) as [[snapshot|e] rest].
  - by rewrite locked_quiet.
  - unfold then_, fail_task. by rewrite locked_quiet.
Qed.

(** The world after a refresh that nothing interrupts. *)
Definition refreshed_world (now : Z) (s : AuthState) (w : World) : World :=
  set_runtime (project (spec_snapshot now s) (mk_GrantRegistry (registry_entry <$> s_issuers s) (live_grants now s)))
    (set_store (tables_of fingerprint s, s_generation s) w).

Lemma quiet_refresh w s now high_water :
  world_ok fingerprint w s → w_schedule w = [] → 0 <= now → high_water <= s_generation s →
  if I64_MAX <? now then (refresh_locked fingerprint now high_water w).1 = Err (RuntimeStore AuthInvalidInput)
  else match spec_expire_for_read now s with
       | Err e => (refresh_locked fingerprint now high_water w).1 = Err (RuntimeStore e)
       | Ok (_, s') => refresh_locked fingerprint now high_water w = (Ok (), refreshed_world now s' w) ∧ state_ok s'
       end.
Proof.
  intros Hw Hq Hnow Hle. pose proof (world_state _ _ _ Hw) as Hs. pose proof (world_observed _ _ _ Hw) as Ho.
  rewrite refresh_quiet_eq by done. rewrite (world_store _ _ _ Hw). unfold load_snapshot.
  rewrite (expiring_read_of _ Hfp s (w_observed w) _ now _ (spec_snapshot now)) by (first [done|lia|intros; by apply read_snapshot_of]).
  unfold spec_query, timed, spec_read. destruct (I64_MAX <? now) eqn:En; [done|].
  destruct (s_generation s <? required_high_water (Some high_water) (w_observed w)) eqn:Er.
  { cbn in Er. destruct (w_observed w <? high_water); lia. }
  destruct (spec_expire_for_read now s) as [[g s']|e] eqn:Ex; [|done]. cbn [mbind result_bind encoded fst snd].
  apply spec_expire_ok in Ex as Hx; [|done|lia]. destruct Hx as [Hs' ->]. split; [|done].
  rewrite publish_publishable by by apply spec_snapshot_publishable.
  apply spec_expire_generation, generation_step_le in Ex; [|done]. destruct (world_registry _ _ _ Hw) as [Hv _].
  cbn in Hv. cbn [spec_snapshot snapshot_generation]. destruct (s_generation s' <? projection_generation (runtime_projection (w_runtime w))) eqn:E; [lia|done].
Qed.

Lemma refreshed_world_ok now s s' w :
  world_ok fingerprint w s → state_ok s' → evolves s s' → world_ok fingerprint (refreshed_world now s' w) s'.
Proof.
  intros [H1 H2 H3 H4 H5 H6] Hs' He. split; [done|done|cbn; lia|by apply (spec_snapshot_view now)| |done].
  intros p Hp. destruct (H5 p Hp). split; [by apply (evolves_view s)|done].
Qed.

(** What a refreshed world serves. *)
Lemma refreshed_serves now s w grant clock :
  state_ok s → grant_interruption (w_runtime (refreshed_world now s w)) grant clock = None
               ↔ grant ∈ live_grants now s ∧ clock < grant_expires_at grant.
Proof.
  intros Hs. pose proof (live_ids now s Hs) as Hnd. unfold grant_interruption, registry_active_grant. cbn.
  destruct (find _ _) as [active|] eqn:Ef; cbn [is_some_and].
  - apply find_some in Ef as [Hin Hp]. apply list_elem_of_In in Hin. apply andb_true_iff in Hp as [Hid Hx].
    apply bool_decide_eq_true in Hid. destruct (bool_decide (active = grant)) eqn:Ea.
    + apply bool_decide_eq_true in Ea as ->. split; [intros _; split; [done|lia]|done].
    + split; [done|]. intros [Hg _]. apply bool_decide_eq_false in Ea. destruct Ea.
      by apply (elem_unique grant_id (live_grants now s)).
  - split; [done|]. intros [Hg Hx]. apply (find_none _ _) with (x := grant) in Ef; [|by apply list_elem_of_In].
    rewrite bool_decide_eq_true_2 in Ef by done. cbn in Ef. lia.
Qed.

(** C21: a projection that a failed observation closed opens again: at the next reload that
    nothing interrupts, a store below its last generation is projected at its own
    generation, and the daemon lets through exactly the grants the store holds active. *)
Theorem reload_recovers w now :
  daemon_world w → w_schedule w = [] → 0 <= now <= I64_MAX → t_generation (w_store w) < I64_MAX →
  is_some_and (current_failure (w_runtime w)) (fun e => match authorization_reload_event e with WorkerFailed => true | _ => false end) = false →
  ∃ w' grants, reload_pass fingerprint now w = (None, w')
    ∧ current_failure (w_runtime w') = None
    ∧ projection_generation (runtime_projection (w_runtime w')) = t_generation (w_store w')
    ∧ load_active_grants (w_store w') now = Ok grants
    ∧ (∀ grant, grant_interruption (w_runtime w') grant now = None ↔ grant ∈ grants).
Proof.
  intros Hd Hq Hnow Hgen Hfail. destruct (daemon_world_ok w Hd) as [s Hw]. pose proof (world_state _ _ _ Hw) as Hs.
  rewrite (world_store _ _ _ Hw) in Hgen. cbn in Hgen.
  destruct (spec_expire_succeeds now s Hs Hgen) as [s' Hx].
  pose proof (quiet_refresh w s now (reload_generation (w_runtime w)) Hw Hq ltac:(lia)) as Hr.
  destruct (world_registry _ _ _ Hw) as [Hv _]. specialize (Hr Hv). destruct (I64_MAX <? now) eqn:En; [lia|].
  rewrite Hx in Hr. destruct Hr as [Hr Hs']. exists (refreshed_world now s' w), (live_grants now s'). split_and!.
  - unfold reload_pass, then_. rewrite look_quiet by done. cbn [fst snd]. cbv zeta.
    destruct (current_failure (w_runtime w)) as [e|] eqn:Ef; cbn [is_some_and] in *.
    + destruct (authorization_reload_event e) eqn:Ee; cbn [resolve_authorization_reload_transition]; try done;
        unfold reload_once, then_; rewrite look_quiet by done; by rewrite Hr.
    + unfold reload_once, then_. rewrite look_quiet by done. by rewrite Hr.
  - done.
  - done.
  - cbn. apply load_active_grants_of; [by apply entries_stored|lia|by apply live_count].
  - intros grant. rewrite refreshed_serves by done. split; [by intros [? _]|]. intros Hg. split; [done|].
    by destruct (spec_snapshot_backs now s' grant Hs' Hg) as [? _].
Qed.

(** ** Issuance *)

Lemma issuer_key_pair i id version :
  bool_decide (issuer_key_id i = id) && bool_decide (issuer_key_version i = version) = bool_decide (issuer_key_of i = (id, version)).
Proof.
  apply eq_true_iff_eq. rewrite andb_true_iff, !bool_decide_eq_true. unfold issuer_key_of. split; [by intros [-> ->]|by intros [= -> ->]].
Qed.

Lemma find_same {A} (p q : A → bool) l : (∀ x, p x = q x) → find p l = find q l.
Proof. intros Hpq. induction l as [|x l IH]; cbn; [done|]. rewrite Hpq. by destruct (q x). Qed.

(** C24: on a projection of the store as it is, the early check of the daemon on a request
    decides as the check of the store does on the grant it leads to.  It passes for the same
    requests, with the generation and the policy version of the store.  It refuses with the
    code the daemon gives for the refusal of the store, which does not make the runtime fail
    closed, except where the registration of the issuer does not cover the harness or the
    profile: there the store reports a conflict, and the early check answers that the request
    is not authorized. *)
Theorem context_agrees_with_store db observed now high_water snapshot db' g registry candidate w :
  reachable fingerprint db → 0 <= now →
  load_snapshot fingerprint observed db now high_water = (Ok snapshot, (db', g)) →
  grant_policy_version candidate = policy_version (snapshot_policy snapshot) →
  let context := issuance_context (project snapshot registry) (grant_issuer_key_id candidate) (grant_issuer_key_version candidate)
                   (grant_profile candidate) (grant_harness candidate) (grant_evidence candidate) in
  match validate_grant_authority db' candidate with
  | Ok _ => context = Ok (mk_GrantIssuanceContext (t_generation db') (grant_policy_version candidate))
  | Err AuthConflict =>
      context = Err CodeNotAuthorized
      ∧ ∃ i, i ∈ snapshot_issuers snapshot ∧ issuer_key_of i = issuer_key candidate
             ∧ harness_allowed (issuer_registration i) (grant_harness candidate)
               && permits (registration_profiles (issuer_registration i)) (grant_profile candidate) = false
  | Err e => context = Err (map_mutation_error fingerprint e w).1 ∧ (map_mutation_error fingerprint e w).2 = w
  end.
Proof.
  intros Hr Hnow Hsn Hv. destruct (reachable_state _ _ Hfp Hr) as (s & Hs & ->).
  apply load_snapshot_inv in Hsn as (s' & _ & _ & -> & _ & -> & _); [|done..]. cbn in Hv. rewrite authority_of.
  unfold issuance_context, spec_authority, find_issuer_record. cbn [project runtime_projection projection_failure projection_suspended
    projection_issuers projection_policy projection_generation spec_snapshot snapshot_generation snapshot_policy snapshot_issuers
    snapshot_suspended is_some fail_if mbind result_bind tables_of t_generation]. rewrite Hv.
  change (existsb _ (s_suspended s')) with (suspended s' (grant_profile candidate)).
  destruct (suspended s' _); [done|]. cbn [fail_if mbind result_bind].
  rewrite (find_same _ _ (s_issuers s') (fun i => issuer_key_pair i _ _)).
  destruct (find _ (s_issuers s')) as [i|] eqn:Ei; [|done]. cbn [ok_or mbind result_bind]. apply find_is in Ei as [Hi Hk].
  destruct (bool_decide (issuer_availability i = Disabled)); [done|]. cbn [fail_if mbind result_bind].
  unfold harness_allowed. rewrite !bool_decide_not, negb_orb, orb_comm.
  destruct (_ || _) eqn:Ecover.
  { split; [done|]. exists i. split_and!; [done|done|]. unfold harness_allowed. rewrite <- negb_orb, <- negb_andb in Ecover.
    apply negb_true_iff in Ecover. by rewrite andb_comm. }
  cbn [fail_if mbind result_bind]. rewrite bool_decide_eq_true_2 by done. cbn [negb fail_if mbind result_bind].
  by destruct (policy_accepts _ _).
Qed.

(** An issued grant is live in the state that commits it, and expiry at its clock keeps it. *)
Lemma issued_live key candidate now s m s' :
  grant_issued_at candidate <= now < grant_expires_at candidate →
  spec_mutate now AuditGrantIssued (spec_first_issuance key candidate now) s = Ok (m, s') →
  mk_GrantEntry key candidate None ∈ s_grants s'.
Proof.
  intros Ht Hok. unfold spec_mutate in Hok. apply bind_Ok in Hok as ([changed s1] & Hop & Hok). cbn [fst snd] in Hok.
  unfold spec_first_issuance in Hop. do 6 apply bind_Ok in Hop as (? & _ & Hop). injection Hop as <- <-. cbn [orb negb] in Hok.
  apply bind_Ok in Hok as (? & _ & Hok). injection Hok as <- <-. cbn [commit with_audit s_grants with_grants].
  apply filter_elem. split; [|done]. apply list_elem_of_fmap. exists (mk_GrantEntry key candidate None). split.
  - unfold entry_expired. cbn. destruct (grant_expires_at candidate <=? now) eqn:E; [lia|done].
  - cbn [add_grant with_grants s_grants]. rewrite sort_insert_perm. left.
Qed.

(** Expiry records no request. *)
Lemma expire_unrecorded now s g s' id version key :
  spec_expire_for_read now s = Ok (g, s') → find (issued_for id version key) (s_grants s) = None →
  find (issued_for id version key) (s_grants s') = None.
Proof.
  intros Hok Hnone. apply bind_Ok in Hok as ([m s1] & Hm & Hok). injection Hok as <- <-. unfold spec_mutate in Hm.
  cbn [mbind result_bind fst snd] in Hm. destruct (negb _); [by injection Hm as _ <-|].
  apply bind_Ok in Hm as (? & _ & Hm). injection Hm as _ <-. cbn [commit with_audit s_grants with_grants].
  match goal with |- ?f = None => destruct f as [e|] eqn:Ef; [|done] end.
  apply find_some in Ef as [Hin Hp]. apply list_elem_of_In, filter_elem in Hin as [Hin _].
  apply list_elem_of_fmap in Hin as (e' & -> & He'). apply (find_none _ _) with (x := e') in Hnone; [|by apply list_elem_of_In].
  assert (issued_for id version key e' = true) by (by destruct (entry_expired now e')). congruence.
Qed.

Lemma refuse_err {A} e w : ∃ code, (refuse (A := A) fingerprint e w).1 = Err code.
Proof. unfold refuse, then_. destruct (map_mutation_error _ _ _) as [code w']. by exists code. Qed.

Lemma attempt_refuse_err {A B} (m : Task (result LocalServiceErrorCode A)) e w :
  ∃ code, (attempt m (fun _ => refuse (A := B) fingerprint e) w).1 = Err code.
Proof.
  unfold attempt, then_ at 1. destruct (m w) as [[a|code] w1]; [apply refuse_err|by exists code].
Qed.

Lemma store_operation_quiet {A} (f : Z → AuthTables → outcome A) w :
  w_schedule w = [] →
  store_operation fingerprint f w
  = (Ok (f (w_observed w) (w_store w)).1, set_store (f (w_observed w) (w_store w)).2 w).
Proof.
  intros Hq. unfold store_operation, then_. rewrite next_turn_quiet by done. unfold run_worker.
  by destruct (f (w_observed w) (w_store w)).
Qed.

Lemma request_identifier_quiet q w id w0 :
  w_schedule w = [] →
  (match request_grant_id q with Some id => ret (Ok id) | None => random_identifier end) w = (Ok id, w0) →
  w0 = with_turns (w_entropy w0) [] w.
Proof.
  intros Hq. destruct (request_grant_id q); [intros [= _ <-]; destruct w; cbn in *; by subst|]. unfold random_identifier.
  destruct (w_entropy w) as [|[id'|] l] eqn:El; [done| |done]. intros [= _ <-]. cbn. by rewrite Hq.
Qed.

(** The request of a grant that was just issued. *)
Definition served (q : GrantRequest) (grant : SessionGrant) (w : World) : Prop :=
  (∃ id version, raw grant = request_claims q id version)
  ∧ ∀ clock, clock < grant_expires_at grant → grant_interruption (w_runtime w) grant clock = None.

Lemma issue_served w s q grant0 issuance w1 :
  world_ok fingerprint w s → w_schedule w = [] → 0 <= request_issued_at q →
  find (issued_for (request_issuer_key_id q) (request_issuer_key_version q) (request_key q)) (s_grants s) = None →
  grant_issuer_key_id grant0 = request_issuer_key_id q → grant_issuer_key_version grant0 = request_issuer_key_version q →
  issue_grant_for_request fingerprint (w_observed w) (w_store w) (request_key q) grant0 (request_issued_at q)
    = (Ok issuance, (w_store w1, w_observed w1)) →
  w1 = set_store (w_store w1, w_observed w1) w →
  ∃ s1, world_ok fingerprint w1 s1 ∧ issuance_grant issuance = grant0
        ∧ mutation_generation (issuance_mutation issuance) = s_generation s1
        ∧ mk_GrantEntry (request_key q) grant0 None ∈ s_grants s1 ∧ request_issued_at q < grant_expires_at grant0.
Proof.
  intros Hw Hq Hnow Hnone Hi Hv Hiss Hw1.
  pose proof (own_call_progress fingerprint Hfp w s (CallIssue (request_key q) grant0 (request_issued_at q)) Hw Hnow) as Hp.
  cbn [run_call] in Hp. rewrite Hiss in Hp. cbn [answer_of snd] in Hp. rewrite <- Hw1 in Hp.
  rewrite (world_store _ _ _ Hw), issue_of in Hiss by (done || apply Hw). cbn [spec_call] in Hp.
  destruct (_ || _) eqn:Et; [done|]. pose proof (world_observed _ _ _ Hw) as Ho. unfold spec_write in *.
  destruct (s_generation s <? w_observed w) eqn:E; [done|]. unfold spec_issue in *. rewrite Hi, Hv, Hnone in *.
  destruct (spec_mutate _ _ _ s) as [[m s1]|e] eqn:Em; [|done]. injection Hiss as <- Hst Hob. cbn in Hp. exists s1. split_and!.
  - apply Hp.
  - done.
  - cbn. apply spec_mutate_generation in Em as [? _]; [done| |apply Hw]. unfold spec_first_issuance. intros s2 Hop.
    do 6 apply bind_Ok in Hop as (? & _ & Hop). discriminate.
  - apply (issued_live _ _ (request_issued_at q) s m); [lia|done].
  - lia.
Qed.

Lemma refused_issue_ok w s key grant0 now e rest :
  world_ok fingerprint w s → 0 <= now →
  issue_grant_for_request fingerprint (w_observed w) (w_store w) key grant0 now = (Err e, rest) →
  world_ok fingerprint (set_store rest w) s.
Proof.
  intros Hw Hnow Ei. pose proof (world_state _ _ _ Hw) as Hs.
  pose proof (own_call_progress fingerprint Hfp w s (CallIssue key grant0 now) Hw Hnow) as Hp.
  destruct (spec_call_observes (w_observed w) (CallIssue key grant0 now) s Hs) as [_ Hsame].
  pose proof (run_call_of fingerprint Hfp s (w_observed w) (CallIssue key grant0 now) Hs Hnow) as Hrun.
  rewrite <- (world_store _ _ _ Hw) in Hrun. cbn [run_call] in Hrun, Hp. rewrite Ei in Hrun, Hp.
  destruct (spec_call _ _ s) as [r [s1 g]]. injection Hrun as <- _. cbn in Hsame, Hp. rewrite <- Hsame. apply Hp.
Qed.

Lemma request_context_quiet q w context w' :
  w_schedule w = [] → request_context fingerprint q w = (Ok context, w') →
  w' = w ∧ context_generation context = reload_generation (w_runtime w).
Proof.
  intros Hq Hok. unfold request_context, attempt, then_ in Hok. rewrite look_quiet in Hok by done.
  destruct (issuance_context _ _ _ _ _ _) as [c|] eqn:Ec; [|done]. destruct (is_some_and _ _) in Hok; [done|].
  injection Hok as <- <-. split; [done|]. unfold issuance_context in Ec. do 6 apply bind_Ok in Ec as (? & _ & Ec).
  by injection Ec as <-.
Qed.

Lemma attempts_served n q context w s grant w' :
  world_ok fingerprint w s → w_schedule w = [] → 0 <= request_issued_at q →
  find (issued_for (request_issuer_key_id q) (request_issuer_key_version q) (request_key q)) (s_grants s) = None →
  context_generation context <= s_generation s →
  issue_attempts fingerprint n q context w = (Ok grant, w') → served q grant w'.
Proof.
  revert context w s. induction n as [|n IH]; intros context w s Hw Hq Hnow Hnone Hctx Hok; [done|]. cbn [issue_attempts] in Hok.
  unfold attempt at 1, then_ at 1 in Hok. destruct (_ w) as [[id|e] w0] eqn:Eid in Hok; [|done].
  apply request_identifier_quiet in Eid as Hw0; [|done].
  assert (world_ok fingerprint w0 s ∧ w_schedule w0 = []) as [Hwo Hq0].
  { rewrite Hw0. destruct Hw as [H1 H2 H3 H4 H5 H6]. split; [|done]. split; try done. by intros t Ht%not_elem_of_nil. }
  unfold attempt at 1, then_ at 1, ret at 1 in Hok. destruct (SessionGrant_new _) as [grant0|e] eqn:Enew in Hok; [|done].
  cbn [map_err] in Hok. unfold attempt at 1, then_ at 1 in Hok. rewrite store_operation_quiet in Hok by done.
  assert (raw grant0 = request_claims q id (context_policy_version context)) as Hraw.
  { unfold SessionGrant_new in Enew. apply bind_Ok in Enew as (? & _ & Enew). by apply check_Ok in Enew. }
  assert (grant_issuer_key_id grant0 = request_issuer_key_id q ∧ grant_issuer_key_version grant0 = request_issuer_key_version q)
    as [Hik Hiv] by (unfold grant_issuer_key_id, grant_issuer_key_version; by rewrite Hraw).
  destruct (issue_grant_for_request _ _ _ _ _ _) as [[issuance|e] [db1 g1]] eqn:Ei; cbn [fst snd] in Hok.
  - destruct (issue_served w0 s q grant0 issuance (set_store (db1, g1) w0) Hwo Hq0 Hnow Hnone Hik Hiv Ei eq_refl)
      as (s1 & Hw1 & Hg & Hm & Hin & Hx).
    unfold attempt, then_, as_internal, then_, refresh_after_mutation in Hok. rewrite Hm in Hok.
    pose proof (quiet_refresh _ s1 (request_issued_at q) (s_generation s1) Hw1 Hq0 Hnow ltac:(lia)) as Hr.
    destruct (refresh_locked _ _ _ _) as [r w2] eqn:Er in Hr, Hok. destruct (I64_MAX <? _); [by cbn in Hr; subst r|].
    destruct (spec_expire_for_read _ s1) as [[g s2]|e] eqn:Ex; [|by cbn in Hr; subst r]. destruct Hr as [[= -> ->] Hs2].
    injection Hok as <- <-. rewrite Hg. split; [by eexists _, _|]. intros clock Hc. apply refreshed_serves; [done|]. split; [|done].
    assert (entry_live (request_issued_at q) (mk_GrantEntry (request_key q) grant0 None) = true) as Hl by (cbn; lia).
    apply live_grants_elem. eexists. split_and!; [by apply (expire_keeps_live _ _ _ _ _ Ex Hin)|done|done].
  - pose proof (refused_issue_ok w0 s _ grant0 _ e (db1, g1) Hwo Hnow Ei) as Hw1.
    pose proof (quiet_refresh _ s (request_issued_at q) (context_generation context) Hw1 Hq0 Hnow Hctx) as Hr.
    destruct (decide (e = AuthConflict)) as [->|Hne].
    + unfold attempt at 1, then_ at 1, as_internal, then_ at 1 in Hok. destruct (refresh_locked _ _ _ _) as [r w2] eqn:Er in Hr, Hok.
      destruct (I64_MAX <? _); [by cbn in Hr; subst r|].
      destruct (spec_expire_for_read _ s) as [[g s2]|e] eqn:Ex; [|by cbn in Hr; subst r]. destruct Hr as [[= -> ->] Hs2].
      cbn [map_err ret] in Hok. unfold attempt at 1, then_ at 1 in Hok.
      destruct (request_context _ _ _) as [[context'|] w3] eqn:Ec in Hok; [|done].
      apply request_context_quiet in Ec as [-> Hc]; [|done].
      apply (IH context' _ s2) in Hok; [done| |done|done|by apply (expire_unrecorded _ _ _ _ _ _ _ Ex)|rewrite Hc; cbn; lia].
      apply (refreshed_world_ok _ s); [done|done|]. apply (spec_expire_generation _ _ _ _ (world_state _ _ _ Hwo)) in Ex as Hstep.
      apply evolves_step; [done|]. by apply spec_expire_only_ends in Ex.
    + destruct (refuse_err (A := SessionGrant) e (set_store (db1, g1) w0)) as [c1 Hc1].
      destruct (attempt_refuse_err (B := SessionGrant) (as_internal (refresh_locked fingerprint (request_issued_at q) (context_generation context)))
        e (set_store (db1, g1) w0)) as [c2 Hc2].
      destruct e; cbn [should_refresh_after_mutation_error] in Hok; first [congruence | by rewrite Hok in Hc1 | by rewrite Hok in Hc2].
Qed.

(** a grant the daemon issues for a request not recorded before has the claims of the
    request and is let through from the answer on until it expires, unless something ends it:
    here nothing interrupts the operation. *)
Theorem issued_grant_served w q grant w' :
  daemon_world w → w_schedule w = [] → 0 <= request_issued_at q →
  load_grant_by_issuance (w_store w) (request_issuer_key_id q) (request_issuer_key_version q) (request_key q) = Ok None →
  issue_grant_locked fingerprint q w = (Ok grant, w') → served q grant w'.
Proof.
  intros Hd Hq Hnow Hnone Hok. destruct (daemon_world_ok w Hd) as [s Hw]. pose proof (world_state _ _ _ Hw) as Hs.
  rewrite (world_store _ _ _ Hw), load_grant_by_issuance_of in Hnone by exact (entries_stored s Hs).
  destruct (find _ (s_grants s)) eqn:Ef; [done|]. unfold issue_grant_locked, attempt, then_ in Hok.
  destruct (request_context _ _ _) as [[context|] w1] eqn:Ec; [|done]. apply request_context_quiet in Ec as [-> Hc]; [|done].
  apply (attempts_served _ _ _ _ s) in Hok; try done. rewrite Hc. by destruct (world_registry _ _ _ Hw).
Qed.

End daemon.
