(* ===== verification/AuthorizationMessages.v ===== *)
(** * Messages and transcripts of the authorization handshake

    [Konclave.LocalServiceTransport: authorization_message.rs, authorization_transcript.rs]:
    the frames that a client and the service exchange before any request, and the byte
    strings that the two sign.  A payload is decoded only if it is the encoding of the
    message it decodes to, and different transcripts give different byte strings to sign. *)

From S2P Require Import Prelude Identifiers LocalGrants.
Open Scope Z_scope.

Definition SESSION_GRANT_PROTOCOL_VERSION : Z := 2.
Definition MAX_AUTHORIZATION_HANDSHAKE_FRAME_BYTES : Z := 256.
Definition CHALLENGE_LENGTH : nat := 32.
Definition SESSION_GRANT_ID_LENGTH : nat := 16.

Abbreviation LocalServiceChallenge := (checked (array_ok CHALLENGE_LENGTH)).

Inductive AuthorizationHandshakeMessage :=
| IssuerHello (version : Z) (issuer_key_id : IssuerKeyId) (issuer_key_version : IssuerKeyVersion)
    (issuer_public_key : Ed25519PublicKey) (client_instance : ClientInstanceId) (harness : HarnessKind)
    (challenge : LocalServiceChallenge)
| SessionHello (version : Z) (grant : SessionGrant) (client_instance : ClientInstanceId)
    (challenge : LocalServiceChallenge)
| ServiceChallenge (service_public_key : Ed25519PublicKey) (challenge : LocalServiceChallenge)
| ClientAuth (signature : Ed25519Signature)
| ServiceAccept (signature : Ed25519Signature)
| ServiceReject (signature : Ed25519Signature).

Definition KIND_ISSUER_HELLO : byte := x05.
Definition KIND_SESSION_HELLO : byte := x06.
Definition KIND_SERVICE_CHALLENGE : byte := x02.
Definition KIND_CLIENT_AUTH : byte := x03.
Definition KIND_SERVICE_ACCEPT : byte := x04.
Definition KIND_SERVICE_REJECT : byte := x07.

(** ** Encoding *)

(** The profile after its length, which saturates at [u16::MAX]. *)
Definition encode_profile (profile : ServiceProfileId) : bytes :=
  be_bytes 2 (Z.min (len (raw profile)) 65535) ++ raw profile.

Definition encode_grant (grant : SessionGrant) : bytes :=
  raw (grant_id grant) ++ raw (grant_issuer_key_id grant) ++ be_bytes 4 (raw (grant_issuer_key_version grant))
  ++ as_bytes (grant_session_public_key grant) ++ be_bytes 2 (wire_value (grant_harness grant))
  ++ encode_profile (grant_profile grant) ++ [u8 (raw (grant_evidence grant))]
  ++ be_bytes 8 (raw (grant_policy_version grant)) ++ be_bytes 8 (grant_issued_at grant)
  ++ be_bytes 8 (grant_expires_at grant) ++ be_bytes 8 (raw (grant_capabilities grant)).

Definition encode_message (message : AuthorizationHandshakeMessage) : bytes :=
  match message with
  | IssuerHello version issuer_key_id issuer_key_version issuer_public_key client_instance harness challenge =>
      [KIND_ISSUER_HELLO] ++ be_bytes 2 version ++ raw issuer_key_id ++ be_bytes 4 (raw issuer_key_version)
      ++ as_bytes issuer_public_key ++ raw client_instance ++ be_bytes 2 (wire_value harness) ++ raw challenge
  | SessionHello version grant client_instance challenge =>
      [KIND_SESSION_HELLO] ++ be_bytes 2 version ++ encode_grant grant ++ raw client_instance ++ raw challenge
  | ServiceChallenge service_public_key challenge =>
      [KIND_SERVICE_CHALLENGE] ++ as_bytes service_public_key ++ raw challenge
  | ClientAuth signature => [KIND_CLIENT_AUTH] ++ as_bytes signature
  | ServiceAccept signature => [KIND_SERVICE_ACCEPT] ++ as_bytes signature
  | ServiceReject signature => [KIND_SERVICE_REJECT] ++ as_bytes signature
  end.

(** ** Decoding

    A function that advances [rest] returns its value with the new [rest]. *)

Abbreviation Parser A := (bytes → result LocalServiceTransportError (A * bytes)).

Definition take_bytes (n : nat) : Parser (checked (array_ok n)) := fun rest =>
  fail_if (length rest <? n)%nat MalformedFrame;;
  head ← check (array_ok n) MalformedFrame (take n rest);
  Ok (head, drop n rest).

(** [uN::from_be_bytes(take::<N>(rest)?)]. *)
Definition take_integer (n : nat) : Parser Z := fun rest =>
  '(value, rest) ← take_bytes n rest; Ok (be_value (raw value), rest).

(** A checked value of an integer. *)
Definition take_checked {A} (n : nat) (new : Z → result LocalServiceTransportError A) : Parser A := fun rest =>
  '(value, rest) ← take_integer n rest; value ← new value; Ok (value, rest).

(** [Ed25519PublicKey::from_bytes] and [Ed25519Signature::from_bytes] of an array. *)
Definition public_key_of (value : checked (array_ok 32)) : Ed25519PublicKey :=
  @from_bytes KEd25519PublicKey (raw value) (raw_ok value).
Definition signature_of (value : checked (array_ok 64)) : Ed25519Signature :=
  @from_bytes KEd25519Signature (raw value) (raw_ok value).

Definition take_public_key : Parser Ed25519PublicKey := fun rest =>
  '(value, rest) ← take_bytes 32 rest; Ok (public_key_of value, rest).

Definition take_signature : Parser Ed25519Signature := fun rest =>
  '(value, rest) ← take_bytes 64 rest; Ok (signature_of value, rest).

Definition take_version : Parser Z := fun rest =>
  '(version, rest) ← take_integer 2 rest;
  fail_if (version =? 1) ClientUpgradeRequired;;
  fail_if (negb (version =? SESSION_GRANT_PROTOCOL_VERSION)) UnsupportedVersion;;
  Ok (version, rest).

(** A profile that is not UTF-8 has a byte outside ASCII, which [parse] refuses with the same error. *)
Definition take_profile : Parser ServiceProfileId := fun rest =>
  '(length, rest) ← take_integer 2 rest;
  fail_if ((length =? 0) || (MAX_PROFILE_ID_LENGTH <? length) || (len rest <? length)) (InvalidIdentifier "profile");;
  profile ← ServiceProfileId_parse (take (Z.to_nat length) rest);
  Ok (profile, drop (Z.to_nat length) rest).

Definition decode_grant : Parser SessionGrant := fun rest =>
  '(grant_id, rest) ← take_bytes SESSION_GRANT_ID_LENGTH rest;
  '(issuer_key_id, rest) ← take_bytes 16 rest;
  '(issuer_key_version, rest) ← take_checked 4 IssuerKeyVersion_new rest;
  '(session_public_key, rest) ← take_public_key rest;
  '(harness, rest) ← take_checked 2 from_wire_value rest;
  '(profile, rest) ← take_profile rest;
  '(evidence, rest) ← take_checked 1 AuthorizationEvidenceSet_from_bits rest;
  '(policy_version, rest) ← take_checked 8 AuthorizationPolicyVersion_new rest;
  '(issued_at, rest) ← take_integer 8 rest;
  '(expires_at, rest) ← take_integer 8 rest;
  '(capabilities, rest) ← take_checked 8 SessionCapabilities_from_bits rest;
  grant ← SessionGrant_new (mk_SessionGrantClaims grant_id issuer_key_id issuer_key_version profile session_public_key
            harness evidence policy_version issued_at expires_at capabilities);
  Ok (grant, rest).

(** The fields after the kind. *)
Definition decode_fields (kind : byte) : Parser AuthorizationHandshakeMessage := fun rest =>
  match kind with
  | x05 =>
      '(version, rest) ← take_version rest;
      '(issuer_key_id, rest) ← take_bytes 16 rest;
      '(issuer_key_version, rest) ← take_checked 4 IssuerKeyVersion_new rest;
      '(issuer_public_key, rest) ← take_public_key rest;
      '(client_instance, rest) ← take_bytes 16 rest;
      '(harness, rest) ← take_checked 2 from_wire_value rest;
      '(challenge, rest) ← take_bytes CHALLENGE_LENGTH rest;
      Ok (IssuerHello version issuer_key_id issuer_key_version issuer_public_key client_instance harness challenge, rest)
  | x06 =>
      '(version, rest) ← take_version rest;
      '(grant, rest) ← decode_grant rest;
      '(client_instance, rest) ← take_bytes 16 rest;
      '(challenge, rest) ← take_bytes CHALLENGE_LENGTH rest;
      Ok (SessionHello version grant client_instance challenge, rest)
  | x02 =>
      '(service_public_key, rest) ← take_public_key rest;
      '(challenge, rest) ← take_bytes CHALLENGE_LENGTH rest;
      Ok (ServiceChallenge service_public_key challenge, rest)
  | x03 => '(signature, rest) ← take_signature rest; Ok (ClientAuth signature, rest)
  | x04 => '(signature, rest) ← take_signature rest; Ok (ServiceAccept signature, rest)
  | x07 => '(signature, rest) ← take_signature rest; Ok (ServiceReject signature, rest)
  | x01 => Err ClientUpgradeRequired
  | _ => Err UnknownMessageKind
  end.

Definition decode_message (payload : bytes) : result LocalServiceTransportError AuthorizationHandshakeMessage :=
  '(kind, rest) ← ok_or (match payload with [] => None | kind :: rest => Some (kind, rest) end) MalformedFrame;
  '(message, rest) ← decode_fields kind rest;
  fail_if (negb (len rest =? 0)) MalformedFrame;;
  Ok message.

(** ** Transcripts *)

Definition CLIENT_SIGNATURE_DOMAIN : bytes := lit "konclave.local-service.v2.client".
Definition SERVICE_SIGNATURE_DOMAIN : bytes := lit "konclave.local-service.v2.accept".
Definition ROLE_ISSUER : byte := x01.
Definition ROLE_SESSION : byte := x02.

Record AuthorizationTranscript := mk_AuthorizationTranscript {
  transcript_binding : AuthorizationBinding;
  transcript_client_challenge : LocalServiceChallenge;
  transcript_service_challenge : LocalServiceChallenge;
  transcript_service_public_key : Ed25519PublicKey }.

Definition encode_binding (binding : AuthorizationBinding) : bytes :=
  match binding with
  | BindingIssuer (issuer_key_id, issuer_key_version) issuer_public_key client_instance harness =>
      [ROLE_ISSUER] ++ raw issuer_key_id ++ be_bytes 4 (raw issuer_key_version) ++ as_bytes issuer_public_key
      ++ raw client_instance ++ be_bytes 2 (wire_value harness)
  | BindingSession grant client_instance =>
      [ROLE_SESSION] ++ raw (grant_id grant) ++ raw (grant_issuer_key_id grant)
      ++ be_bytes 4 (raw (grant_issuer_key_version grant)) ++ as_bytes (grant_session_public_key grant)
      ++ raw client_instance ++ be_bytes 2 (wire_value (grant_harness grant)) ++ encode_profile (grant_profile grant)
      ++ [u8 (raw (grant_evidence grant))] ++ be_bytes 8 (raw (grant_policy_version grant))
      ++ be_bytes 8 (grant_issued_at grant) ++ be_bytes 8 (grant_expires_at grant)
      ++ be_bytes 8 (raw (grant_capabilities grant))
  end.

Definition encode_transcript (t : AuthorizationTranscript) : bytes :=
  be_bytes 2 SESSION_GRANT_PROTOCOL_VERSION ++ encode_binding (transcript_binding t)
  ++ raw (transcript_client_challenge t) ++ raw (transcript_service_challenge t)
  ++ as_bytes (transcript_service_public_key t).

Definition client_signing_message (t : AuthorizationTranscript) : bytes :=
  CLIENT_SIGNATURE_DOMAIN ++ encode_transcript t.

Definition service_signing_message (t : AuthorizationTranscript) : bytes :=
  SERVICE_SIGNATURE_DOMAIN ++ encode_transcript t.

Arguments client_signing_message : simpl never.
Arguments service_signing_message : simpl never.

(** ** Values that fit their width

    The clocks of a grant and the version of its policy are [u64]. *)

Definition grant_fits (grant : SessionGrant) : Prop :=
  raw (grant_policy_version grant) <= U64_MAX ∧ grant_expires_at grant <= U64_MAX.

Definition binding_fits (binding : AuthorizationBinding) : Prop :=
  match binding with BindingIssuer _ _ _ _ => True | BindingSession grant _ => grant_fits grant end.

Definition message_fits (message : AuthorizationHandshakeMessage) : Prop :=
  match message with
  | IssuerHello version _ _ _ _ _ _ => version = SESSION_GRANT_PROTOCOL_VERSION
  | SessionHello version grant _ _ => version = SESSION_GRANT_PROTOCOL_VERSION ∧ grant_fits grant
  | ServiceChallenge _ _ | ClientAuth _ | ServiceAccept _ | ServiceReject _ => True
  end.

(** ** Parsers that accept exactly one encoding *)

Class Codec {A} (parse : Parser A) (print : A → bytes) (fits : A → Prop) : Prop :=
  codec_spec input x rest : parse input = Ok (x, rest) ↔ fits x ∧ input = print x ++ rest.

(** Invert, or take, one field of a decoder. *)
Ltac parsed_field H := let F := fresh "Hf" in apply bind_Ok in H as ([? ?] & [F ->]%codec_spec & H).
Ltac parse_field :=
  apply bind_Ok; eexists (_, _); split; [eapply (proj2 (codec_spec _ _ _)); refine (conj _ eq_refl); done|cbv beta iota].

Lemma codec_map {A B} (parse : Parser A) print fits (f : A → B) (g : B → A) :
  (∀ b, f (g b) = b) → (∀ a, g (f a) = a) → Codec parse print fits →
  Codec (fun rest => '(x, rest) ← parse rest; Ok (f x, rest)) (print ∘ g) (fits ∘ g).
Proof.
  intros Hfg Hgf Hc input y rest. rewrite bind_Ok. split.
  - intros ([x r] & Hp & [= <- <-]). cbn. rewrite Hgf. by apply Hc.
  - intros [Hf ->]. exists (g y, rest). split; [by apply Hc|]. by rewrite Hfg.
Qed.

Lemma array_length {n} (x : checked (array_ok n)) : length (raw x) = n.
Proof. apply Nat.eqb_eq, (raw_ok x). Qed.

Global Instance codec_bytes n : Codec (take_bytes n) raw (fun _ => True).
Proof.
  intros input x rest. unfold take_bytes. split.
  - intros H. inv_ok. apply Nat.ltb_ge in Hr. subst. apply check_Ok in Hr0. split; [done|].
    rewrite Hr0. by rewrite take_drop.
  - intros [_ ->]. pass_guard by (apply Nat.ltb_ge; rewrite length_app, array_length; lia).
    rewrite take_app_length' , drop_app_length' by (symmetry; apply array_length). by rewrite check_raw.
Qed.

Global Instance codec_integer n : Codec (take_integer n) (be_bytes n) (fun v => 0 <= v < 256 ^ Z.of_nat n).
Proof.
  intros input v rest. unfold take_integer. rewrite bind_Ok. split.
  - intros ([x r] & [_ ->]%codec_bytes & [= <- <-]). pose proof (be_value_bounds (raw x)) as Hb.
    rewrite array_length in Hb. split; [done|]. rewrite <- (array_length x) at 2. by rewrite be_bytes_value.
  - intros [Hv ->]. destruct (check_pass (E := unit) (array_ok n) () (be_bytes n v)) as (x & _ & Hx).
    { apply Nat.eqb_eq, be_bytes_length. }
    exists (x, rest). split; [apply codec_bytes; by rewrite Hx|]. cbn. by rewrite Hx, be_value_bytes.
Qed.

(** An integer with a checked constructor. *)
Lemma codec_checked {A} n (new : Z → result LocalServiceTransportError A) (value : A → Z) (fits : A → Prop) :
  (∀ v x, 0 <= v < 256 ^ Z.of_nat n → new v = Ok x → fits x ∧ value x = v) →
  (∀ x, fits x → new (value x) = Ok x ∧ 0 <= value x < 256 ^ Z.of_nat n) →
  Codec (take_checked n new) (be_bytes n ∘ value) fits.
Proof.
  intros H1 H2 input x rest. unfold take_checked. rewrite bind_Ok. split.
  - intros ([v r] & [Hv ->]%codec_integer & H). apply bind_Ok in H as (y & Hy & [= <- <-]).
    destruct (H1 v y Hv Hy) as [Hf <-]. done.
  - intros [Hf ->]. destruct (H2 x Hf) as [Hn Hv]. exists (value x, rest). split; [by apply codec_integer|]. by rewrite Hn.
Qed.

Global Instance codec_key_version : Codec (take_checked 4 IssuerKeyVersion_new) (be_bytes 4 ∘ raw) (fun _ => True).
Proof.
  apply codec_checked.
  - intros v x _ Hx%check_Ok. done.
  - intros x _. split; [apply check_raw|]. destruct x as [v H]. cbn [raw]. unfold issuer_key_version_ok, U32_MAX in H. bool_prop in H.
    change (256 ^ Z.of_nat 4) with 4294967296. lia.
Qed.

Global Instance codec_harness : Codec (take_checked 2 from_wire_value) (be_bytes 2 ∘ wire_value) (fun _ => True).
Proof.
  apply codec_checked.
  - intros v x _ Hx. split; [done|]. unfold from_wire_value in Hx. repeat case_match; simplify_eq; done.
  - intros x _. split; [apply from_wire_value_own|]. by destruct x.
Qed.

Global Instance codec_evidence : Codec (take_checked 1 AuthorizationEvidenceSet_from_bits) (be_bytes 1 ∘ raw) (fun _ => True).
Proof.
  apply codec_checked.
  - intros v x _ Hx%check_Ok. done.
  - intros x _. split; [apply check_raw|]. pose proof (evidence_range x). simpl; lia.
Qed.

Global Instance codec_capabilities : Codec (take_checked 8 SessionCapabilities_from_bits) (be_bytes 8 ∘ raw) (fun _ => True).
Proof.
  apply codec_checked.
  - intros v x _ Hx%check_Ok. done.
  - intros x _. split; [apply check_raw|]. pose proof (capabilities_range x). simpl; lia.
Qed.

Global Instance codec_policy_version :
  Codec (take_checked 8 AuthorizationPolicyVersion_new) (be_bytes 8 ∘ raw) (fun x => raw x <= U64_MAX).
Proof.
  apply codec_checked.
  - intros v x Hv Hx%check_Ok. unfold U64_MAX. change (256 ^ Z.of_nat 8) with 18446744073709551616 in Hv. lia.
  - intros x Hx. split; [apply check_raw|]. destruct x as [v H]. cbn [raw] in *. unfold policy_version_ok in H. bool_prop in H.
    unfold U64_MAX in Hx. change (256 ^ Z.of_nat 8) with 18446744073709551616. lia.
Qed.

Global Instance codec_public_key : Codec take_public_key as_bytes (fun _ => True).
Proof.
  assert (∀ k : Ed25519PublicKey, array_ok 32 (as_bytes k) = true) as Hk by (intros k; apply (bytes_length k)).
  apply (codec_map (take_bytes 32) raw (fun _ => True) public_key_of (fun k => mk_checked (as_bytes k) (Hk k))).
  - intros k. by apply as_bytes_inj.
  - intros a. by apply raw_inj.
  - apply codec_bytes.
Qed.

Global Instance codec_signature : Codec take_signature as_bytes (fun _ => True).
Proof.
  assert (∀ k : Ed25519Signature, array_ok 64 (as_bytes k) = true) as Hk by (intros k; apply (bytes_length k)).
  apply (codec_map (take_bytes 64) raw (fun _ => True) signature_of (fun k => mk_checked (as_bytes k) (Hk k))).
  - intros k. by apply as_bytes_inj.
  - intros a. by apply raw_inj.
  - apply codec_bytes.
Qed.

Global Instance codec_version : Codec take_version (be_bytes 2) (fun v => v = SESSION_GRANT_PROTOCOL_VERSION).
Proof.
  intros input v rest. unfold take_version. rewrite bind_Ok. split.
  - intros ([v' r] & [Hv ->]%codec_integer & H). inv_ok. simplify_eq. bool_prop. done.
  - intros [-> ->]. exists (SESSION_GRANT_PROTOCOL_VERSION, rest). split; [by apply codec_integer|done].
Qed.

Lemma encode_profile_eq (p : ServiceProfileId) : encode_profile p = be_bytes 2 (len (raw p)) ++ raw p.
Proof. unfold encode_profile. pose proof (service_profile_length p). by rewrite Z.min_l by lia. Qed.

Global Instance codec_profile : Codec take_profile encode_profile (fun _ => True).
Proof.
  intros input p rest. unfold take_profile. rewrite bind_Ok, encode_profile_eq. split.
  - intros ([n r] & [Hn ->]%codec_integer & H). inv_ok. simplify_eq. bool_prop. apply check_Ok in Hr0.
    split; [done|]. unfold len in *. rewrite <- (assoc_L (++)). rewrite Hr0, length_take, Nat.min_l by lia.
    rewrite Z2Nat.id by lia. by rewrite take_drop.
  - intros [_ ->]. pose proof (service_profile_length p) as Hp. rewrite <- (assoc_L (++)). exists (len (raw p), raw p ++ rest).
    split; [apply codec_integer; split; [simpl; lia|done]|].
    pass_guard by (bool_prop; unfold MAX_PROFILE_ID_LENGTH, len in *; rewrite length_app; lia).
    unfold len. rewrite Nat2Z.id, take_app_length, drop_app_length. unfold ServiceProfileId_parse. by rewrite check_raw.
Qed.

Lemma SessionGrant_new_Ok c g : SessionGrant_new c = Ok g → raw g = c.
Proof. unfold SessionGrant_new. intros H. inv_ok. by apply check_Ok in H. Qed.

Lemma u8_bytes v : [u8 v] = be_bytes 1 v.
Proof. done. Qed.

Global Instance codec_grant : Codec decode_grant encode_grant grant_fits.
Proof.
  intros input g rest. unfold decode_grant. split.
  - intros H. do 11 parsed_field H. apply bind_Ok in H as (g' & Hg%SessionGrant_new_Ok & [= <- <-]).
    unfold encode_grant, grant_fits, grant_id, grant_issuer_key_id, grant_issuer_key_version, grant_session_public_key,
      grant_harness, grant_profile, grant_evidence, grant_policy_version, grant_issued_at, grant_expires_at, grant_capabilities.
    rewrite Hg. cbn [claims_grant_id claims_issuer_key_id claims_issuer_key_version claims_session_public_key claims_harness
      claims_profile claims_evidence claims_policy_version claims_issued_at claims_expires_at claims_capabilities].
    split; [|by rewrite <- !(assoc_L (++))].
    change (256 ^ Z.of_nat 8) with 18446744073709551616 in *. unfold U64_MAX in *. lia.
  - intros [[Hp He] ->]. pose proof (grant_times g). unfold encode_grant. rewrite u8_bytes, <- !(assoc_L (++)).
    assert (∀ v, 0 <= v <= U64_MAX → 0 <= v < 256 ^ Z.of_nat 8) as Hw
      by (intros v; change (256 ^ Z.of_nat 8) with 18446744073709551616; unfold U64_MAX; lia).
    assert (0 <= grant_issued_at g < 256 ^ Z.of_nat 8) by (apply Hw; lia).
    assert (0 <= grant_expires_at g < 256 ^ Z.of_nat 8) by (apply Hw; lia).
    do 11 parse_field. apply bind_Ok. exists g. split; [|done].
    etrans; [|apply (SessionGrant_new_raw g)]. f_equal. clear. by destruct g as [[] ?].
Qed.

Lemma decode_fields_kind message rest :
  message_fits message →
  ∃ kind fields, encode_message message = kind :: fields ∧ decode_fields kind (fields ++ rest) = Ok (message, rest).
Proof.
  destruct message; intros Hf; cbn [message_fits] in Hf; eexists _, _; (split; [reflexivity|]); cbn [decode_fields];
    rewrite <- ?(assoc_L (++)).
  - by do 7 parse_field.
  - destruct Hf. by do 4 parse_field.
  - by do 2 parse_field.
  - by parse_field.
  - by parse_field.
  - by parse_field.
Qed.

Lemma decode_fields_inv kind input message rest :
  decode_fields kind input = Ok (message, rest) → message_fits message ∧ kind :: input = encode_message message ++ rest.
Proof.
  intros H. destruct kind; try discriminate H; cbn [decode_fields] in H.
  - do 2 parsed_field H. injection H as <- <-. split; [done|]. cbn [encode_message]. by rewrite <- !(assoc_L (++)).
  - parsed_field H. injection H as <- <-. done.
  - parsed_field H. injection H as <- <-. done.
  - do 7 parsed_field H. injection H as <- <-. split; [done|]. cbn [encode_message]. by rewrite <- !(assoc_L (++)).
  - do 4 parsed_field H. injection H as <- <-. split; [done|]. cbn [encode_message]. by rewrite <- !(assoc_L (++)).
  - parsed_field H. injection H as <- <-. done.
Qed.

Lemma decode_message_spec payload message :
  decode_message payload = Ok message ↔ message_fits message ∧ payload = encode_message message.
Proof.
  unfold decode_message. split.
  - intros H. inv_ok. destruct payload as [|kind input]; [done|]. injection Hr as <-.
    apply bind_Ok in H as ([m rest] & Hd & H). inv_ok. subst m. bool_prop. destruct rest; [|unfold len in *; simpl in *; lia].
    apply decode_fields_inv in Hd. by rewrite app_nil_r in Hd.
  - intros [Hf ->]. destruct (decode_fields_kind message [] Hf) as (kind & fields & -> & Hd). rewrite app_nil_r in Hd.
    cbn [ok_or mbind result_bind]. by rewrite Hd.
Qed.

Lemma encode_message_length message : 0 < len (encode_message message) <= MAX_AUTHORIZATION_HANDSHAKE_FRAME_BYTES.
Proof.
  unfold len, MAX_AUTHORIZATION_HANDSHAKE_FRAME_BYTES.
  assert (∀ k : Ed25519PublicKey, length (as_bytes k) = 32%nat) as Hk by (intros k; apply Nat.eqb_eq, (bytes_length k)).
  assert (∀ k : Ed25519Signature, length (as_bytes k) = 64%nat) as Hs by (intros k; apply Nat.eqb_eq, (bytes_length k)).
  destruct message; cbn [encode_message]; unfold encode_grant; rewrite ?encode_profile_eq, !length_app, ?be_bytes_length,
    ?array_length, ?Hk, ?Hs; unfold CHALLENGE_LENGTH; simpl length; try lia.
  pose proof (service_profile_length (grant_profile grant)) as Hp. unfold len in Hp. lia.
Qed.

(** ** Transcripts are what they encode to *)

Lemma codec_inj {A} (parse : Parser A) print fits {C : Codec parse print fits} x y r s :
  fits x → fits y → print x ++ r = print y ++ s → x = y ∧ r = s.
Proof.
  intros Hx Hy E. assert (parse (print x ++ r) = Ok (x, r)) as H1 by (by apply codec_spec).
  assert (parse (print y ++ s) = Ok (y, s)) as H2 by (by apply codec_spec). rewrite E, H2 in H1. by injection H1 as -> ->.
Qed.

(** Take one field from both sides of an equation between encodings. *)
Ltac peel E parse :=
  let C := constr:(_ : Codec parse _ _) in
  let F := fresh "Ef" in apply (codec_inj parse _ _ (C := C)) in E as [F E]; [|done..].

Lemma grant_fields (g h : SessionGrant) :
  grant_id g = grant_id h → grant_issuer_key_id g = grant_issuer_key_id h →
  grant_issuer_key_version g = grant_issuer_key_version h → grant_session_public_key g = grant_session_public_key h →
  grant_harness g = grant_harness h → grant_profile g = grant_profile h → grant_evidence g = grant_evidence h →
  grant_policy_version g = grant_policy_version h → grant_issued_at g = grant_issued_at h →
  grant_expires_at g = grant_expires_at h → grant_capabilities g = grant_capabilities h → g = h.
Proof. destruct g as [[] ?], h as [[] ?]. intros. apply raw_inj. cbn in *. congruence. Qed.

Lemma encode_binding_inj b c r s :
  binding_fits b → binding_fits c → encode_binding b ++ r = encode_binding c ++ s → b = c ∧ r = s.
Proof.
  intros Hb Hc E. destruct b as [[i v] k n h|g n], c as [[i' v'] k' n' h'|g' n']; try discriminate E;
    cbn [encode_binding binding_fits] in *; rewrite <- !(assoc_L (++)) in E; apply app_inv_head in E.
  - peel E (take_bytes 16). peel E (take_checked 4 IssuerKeyVersion_new). peel E take_public_key. peel E (take_bytes 16).
    peel E (take_checked 2 from_wire_value). by subst.
  - destruct Hb as [Hp He], Hc as [Hp' He']. pose proof (grant_times g). pose proof (grant_times g'). rewrite !u8_bytes in E.
    peel E (take_bytes 16). peel E (take_bytes 16). peel E (take_checked 4 IssuerKeyVersion_new). peel E take_public_key.
    peel E (take_bytes 16). peel E (take_checked 2 from_wire_value). peel E take_profile.
    peel E (take_checked 1 AuthorizationEvidenceSet_from_bits). peel E (take_checked 8 AuthorizationPolicyVersion_new).
    assert (∀ x, 0 <= x <= U64_MAX → 0 <= x < 256 ^ Z.of_nat 8) as Hw
      by (intros x; change (256 ^ Z.of_nat 8) with 18446744073709551616; unfold U64_MAX; lia).
    apply (codec_inj (take_integer 8) _ _) in E as [? E]; [|apply Hw; lia..].
    apply (codec_inj (take_integer 8) _ _) in E as [? E]; [|apply Hw; lia..].
    peel E (take_checked 8 SessionCapabilities_from_bits). split; [|done]. f_equal; [by apply grant_fields|done].
Qed.

Lemma encode_transcript_inj t u :
  binding_fits (transcript_binding t) → binding_fits (transcript_binding u) →
  encode_transcript t = encode_transcript u → t = u.
Proof.
  destruct t as [b c s k], u as [b' c' s' k']. cbn [transcript_binding]. intros Hb Hb' E.
  unfold encode_transcript in E. cbn [transcript_binding transcript_client_challenge transcript_service_challenge
    transcript_service_public_key] in E.
  apply app_inv_head in E. apply encode_binding_inj in E as [-> E]; [|done..].
  rewrite <- (app_nil_r (as_bytes k)), <- (app_nil_r (as_bytes k')) in E.
  peel E (take_bytes CHALLENGE_LENGTH). peel E (take_bytes CHALLENGE_LENGTH). peel E take_public_key. by subst.
Qed.

Lemma domains_apart x y : CLIENT_SIGNATURE_DOMAIN ++ x ≠ SERVICE_SIGNATURE_DOMAIN ++ y.
Proof. intros E. apply app_inj_1 in E as [E _]; [|reflexivity]. discriminate E. Qed.

(** C33: the payload of a handshake frame has one reading and a message one payload: a
    payload is accepted as a message exactly if it is the encoding of that message and the
    message holds a version-2 hello or none, with integers of their width; so no byte can be
    added, dropped or changed without changing the message.  Every payload fits the bound on
    frames before authentication, whatever the profile of the grant. *)
Theorem handshake_payload_canonical payload message :
  (decode_message payload = Ok message ↔ message_fits message ∧ payload = encode_message message)
  ∧ 0 < len (encode_message message) <= MAX_AUTHORIZATION_HANDSHAKE_FRAME_BYTES.
Proof. split; [apply decode_message_spec|apply encode_message_length]. Qed.
