(* ===== verification/AuthorizationHandshake.v ===== *)
(** * The authorization handshake

    [Konclave.LocalServiceTransport: authorization_handshake.rs]: the exchange that binds a
    local connection to an issuer or to one session grant before any request.  An endpoint
    is a program, the tree of the effects it awaits; a network is any number of endpoints in
    any number of processes whose streams an adversary reads, changes and cuts.  The last
    part runs a client against a service over a channel. *)

From S2P Require Import Prelude Identifiers LocalFraming LocalGrants AuthorizationMessages.
Open Scope Z_scope.

(** ** Programs *)

Inductive Program (A : Type) :=
| Return (a : A)
| WriteFrame (payload : bytes) (k : result FrameError unit → Program A)
| ReadFrame (k : result FrameError bytes → Program A)
| NextChallenge (k : result LocalServiceTransportError LocalServiceChallenge → Program A)
| Sign (message : bytes) (k : option Ed25519Signature → Program A)
| Verify (public_key : Ed25519PublicKey) (message : bytes) (signature : Ed25519Signature) (k : bool → Program A)
| Authorize (binding : AuthorizationBinding) (k : result LocalServiceTransportError bool → Program A).
Arguments Return {A} a.
Arguments WriteFrame {A} payload k.
Arguments ReadFrame {A} k.
Arguments NextChallenge {A} k.
Arguments Sign {A} message k.
Arguments Verify {A} public_key message signature k.
Arguments Authorize {A} binding k.

Global Instance program_ret : MRet Program := @Return.

Fixpoint program_bind_fix {A B} (k : A → Program B) (p : Program A) : Program B :=
  match p with
  | Return a => k a
  | WriteFrame payload q => WriteFrame payload (fun r => program_bind_fix k (q r))
  | ReadFrame q => ReadFrame (fun r => program_bind_fix k (q r))
  | NextChallenge q => NextChallenge (fun r => program_bind_fix k (q r))
  | Sign message q => Sign message (fun r => program_bind_fix k (q r))
  | Verify public_key message signature q => Verify public_key message signature (fun r => program_bind_fix k (q r))
  | Authorize binding q => Authorize binding (fun r => program_bind_fix k (q r))
  end.

Global Instance program_bind : MBind Program := @program_bind_fix.

(** A program that may fail, and the [?] operator on it. *)
Abbreviation Fallible A := (Program (result LocalServiceTransportError A)).

Definition attempt {A B} (m : Fallible A) (k : A → Fallible B) : Fallible B :=
  r ← m; match r with Ok a => k a | Err e => Return (Err e) end.

Notation "'let?' x ':=' m 'in' k" := (attempt m (fun x => k))
  (at level 10, x binder, k at level 200, format "'let?'  x  ':='  m  'in' '//' k").

(** ** Messages *)

(** [From<FrameError> for LocalServiceTransportError]. *)
Definition from_frame_error (e : FrameError) : LocalServiceTransportError :=
  match e with
  | FrameTooLarge => TransportFrameTooLarge
  | FrameMalformed => MalformedFrame
  | FrameClosed => ChannelClosed
  end.

Definition read_message : Fallible AuthorizationHandshakeMessage :=
  ReadFrame (fun r => Return (payload ← map_err from_frame_error r; decode_message payload)).

Definition read_service_message : Fallible AuthorizationHandshakeMessage :=
  r ← read_message;
  Return (match r with Err ChannelClosed => Err ServiceUpgradeRequired | result => result end).

Definition write_message (message : AuthorizationHandshakeMessage) : Fallible unit :=
  WriteFrame (encode_message message) (fun r => Return (map_err from_frame_error r)).

(** ** Signatures *)

Definition sign_as_client (t : AuthorizationTranscript) : Fallible Ed25519Signature :=
  Sign (client_signing_message t) (fun s => Return (ok_or s UnusableKeyMaterial)).

Definition sign_as_service (t : AuthorizationTranscript) : Fallible Ed25519Signature :=
  Sign (service_signing_message t) (fun s => Return (ok_or s UnusableKeyMaterial)).

Definition verify_client_signature (t : AuthorizationTranscript) (public_key : Ed25519PublicKey)
    (signature : Ed25519Signature) : Fallible unit :=
  Verify public_key (client_signing_message t) signature (fun valid =>
    Return (if valid then Ok tt else Err UnauthenticClient)).

Definition verify_service_signature (t : AuthorizationTranscript) (signature : Ed25519Signature) : Fallible unit :=
  Verify (transcript_service_public_key t) (service_signing_message t) signature (fun valid =>
    Return (if valid then Ok tt else Err UnauthenticService)).

(** ** The client *)

(** The hello that opens a connection for a binding. *)
Definition hello_of (binding : AuthorizationBinding) (challenge : LocalServiceChallenge) : AuthorizationHandshakeMessage :=
  match binding with
  | BindingIssuer (issuer_key_id, issuer_key_version) issuer_public_key client_instance harness =>
      IssuerHello SESSION_GRANT_PROTOCOL_VERSION issuer_key_id issuer_key_version issuer_public_key client_instance harness challenge
  | BindingSession grant client_instance =>
      SessionHello SESSION_GRANT_PROTOCOL_VERSION grant client_instance challenge
  end.

Definition complete_client (binding : AuthorizationBinding) (expected_service_key : Ed25519PublicKey)
    : Fallible AuthorizationBinding :=
  let? client_challenge := NextChallenge Return in
  let? _ := write_message (hello_of binding client_challenge) in
  let? answer := read_service_message in
  match answer with
  | ServiceChallenge service_public_key service_challenge =>
      if bool_decide (service_public_key ≠ expected_service_key) then Return (Err ServiceKeyMismatch) else
      let transcript := mk_AuthorizationTranscript binding client_challenge service_challenge service_public_key in
      let? signature := sign_as_client transcript in
      let? _ := write_message (ClientAuth signature) in
      let? decision := read_message in
      match decision with
      | ServiceAccept signature =>
          let? _ := verify_service_signature transcript signature in
          Return (Ok (transcript_binding transcript))
      | ServiceReject signature =>
          let? _ := verify_service_signature transcript signature in
          Return (Err UnauthenticClient)
      | _ => Return (Err UnexpectedMessage)
      end
  | _ => Return (Err UnexpectedMessage)
  end.

Definition complete_issuer_client_handshake (key : IssuerKeyId * IssuerKeyVersion) (client_instance : ClientInstanceId)
    (harness : HarnessKind) (issuer_identity expected_service_key : Ed25519PublicKey) : Fallible AuthorizationBinding :=
  complete_client (BindingIssuer key issuer_identity client_instance harness) expected_service_key.

Definition complete_session_client_handshake (grant : SessionGrant) (client_instance : ClientInstanceId)
    (session_identity expected_service_key : Ed25519PublicKey) : Fallible AuthorizationBinding :=
  if bool_decide (grant_session_public_key grant ≠ session_identity) then Return (Err UnauthenticClient) else
  complete_client (BindingSession grant client_instance) expected_service_key.

(** ** The service *)

(** The key whose possession a binding asks for. *)
Definition presented_key (binding : AuthorizationBinding) : Ed25519PublicKey :=
  match binding with
  | BindingIssuer _ issuer_public_key _ _ => issuer_public_key
  | BindingSession grant _ => grant_session_public_key grant
  end.

(** What a hello asks for, with the challenge of the client. *)
Definition opened_by (hello : AuthorizationHandshakeMessage)
    : result LocalServiceTransportError (AuthorizationBinding * LocalServiceChallenge) :=
  match hello with
  | IssuerHello _ issuer_key_id issuer_key_version issuer_public_key client_instance harness challenge =>
      Ok (BindingIssuer (issuer_key_id, issuer_key_version) issuer_public_key client_instance harness, challenge)
  | SessionHello _ grant client_instance challenge => Ok (BindingSession grant client_instance, challenge)
  | _ => Err UnexpectedMessage
  end.

(** [observe] is told the challenge for the diagnostics and cannot change the exchange. *)
Definition complete_observed_authorization_service_handshake (service_identity : Ed25519PublicKey)
    : Fallible AuthorizationBinding :=
  let? hello := read_message in
  let? opened := Return (opened_by hello) in
  let binding := opened.1 in
  let client_challenge := opened.2 in
  let? service_challenge := NextChallenge Return in
  let? _ := write_message (ServiceChallenge service_identity service_challenge) in
  let transcript := mk_AuthorizationTranscript binding client_challenge service_challenge service_identity in
  let? proof := read_message in
  match proof with
  | ClientAuth signature =>
      let? _ := verify_client_signature transcript (presented_key binding) signature in
      let? authorized := Authorize binding Return in
      if negb authorized then
        let? signature := sign_as_service transcript in
        let? _ := write_message (ServiceReject signature) in
        Return (Err UnauthenticClient)
      else
        let? signature := sign_as_service transcript in
        let? _ := write_message (ServiceAccept signature) in
        Return (Ok (transcript_binding transcript))
  | _ => Return (Err UnexpectedMessage)
  end.

(** ** Challenges

    The process counts its challenges and writes the count over the last eight random bytes. *)
Definition next_challenge (issued_before : Z) (random : option LocalServiceChallenge)
    : result LocalServiceTransportError LocalServiceChallenge * Z :=
  if U64_MAX <=? issued_before then (Err ChallengeExhausted, issued_before) else
  let issued := issued_before + 1 in
  (random ← ok_or random ChallengeExhausted;
   check (array_ok CHALLENGE_LENGTH) ChallengeExhausted (take 24 (raw random) ++ be_bytes 8 issued), issued).

(** ** A network of endpoints

    An identity signs under its public key; the provider may refuse. *)
Class LocalServiceSignatures := {
  identity_sign : Ed25519PublicKey → bytes → option Ed25519Signature;
  verify_local_service_signature : Ed25519PublicKey → bytes → Ed25519Signature → bool }.

(** An endpoint with the identity it signs with and, for a client, the service key it pins. *)
Inductive Endpoint :=
| IssuerClient (key : IssuerKeyId * IssuerKeyVersion) (client : ClientInstanceId) (harness : HarnessKind)
    (identity expected : Ed25519PublicKey)
| SessionClient (grant : SessionGrant) (client : ClientInstanceId) (identity expected : Ed25519PublicKey)
| ServiceEnd (identity : Ed25519PublicKey).

Definition endpoint_identity (e : Endpoint) : Ed25519PublicKey :=
  match e with IssuerClient _ _ _ identity _ | SessionClient _ _ identity _ | ServiceEnd identity => identity end.

Definition endpoint_program (e : Endpoint) : Fallible AuthorizationBinding :=
  match e with
  | IssuerClient key client harness identity expected => complete_issuer_client_handshake key client harness identity expected
  | SessionClient grant client identity expected => complete_session_client_handshake grant client identity expected
  | ServiceEnd identity => complete_observed_authorization_service_handshake identity
  end.

(** The binding a client asks for and the key it pins. *)
Definition endpoint_asks (e : Endpoint) : option (AuthorizationBinding * Ed25519PublicKey) :=
  match e with
  | IssuerClient key client harness identity expected => Some (BindingIssuer key identity client harness, expected)
  | SessionClient grant client _ expected => Some (BindingSession grant client, expected)
  | ServiceEnd _ => None
  end.

Definition endpoint_fits (e : Endpoint) : Prop :=
  match endpoint_asks e with Some (binding, _) => binding_fits binding | None => True end.

(** What an endpoint has done. *)
Inductive Event :=
| Drew (challenge : LocalServiceChallenge)
| Signed (message : bytes)
| Verified (public_key : Ed25519PublicKey) (message : bytes)
| Decided (binding : AuthorizationBinding) (decision : result LocalServiceTransportError bool).

Record Connection := mk_Connection {
  conn_process : nat;
  conn_endpoint : Endpoint;
  conn_program : Fallible AuthorizationBinding;
  conn_history : list Event }.

Record Network := mk_Network {
  net_counters : gmap nat Z;
  net_connections : list Connection;
  net_signed : list (Ed25519PublicKey * bytes) }.

Definition empty_network : Network := mk_Network ∅ [] [].

(** What the environment of an endpoint decides: whether a write goes out, the bytes a read
    finds before the stream ends, the random bytes, the decision of the authorizer, and when
    the deadline of the whole exchange passes. *)
Inductive Answer :=
| StreamTakes (taken : bool)
| StreamHolds (stream : bytes)
| Randomness (random : option LocalServiceChallenge)
| Computed
| AuthorizerSays (decision : result LocalServiceTransportError bool)
| DeadlinePasses.

Inductive Action :=
| Open (process : nat) (endpoint : Endpoint)
| Turn (connection : nat) (answer : Answer)
| SignElsewhere (public_key : Ed25519PublicKey) (message : bytes).

Section network.
Context `{LocalServiceSignatures}.

(** One effect: the rest of the program, what it adds to the history, the challenge counter
    and what was signed. *)
Definition advance (identity : Ed25519PublicKey) (counter : Z) (p : Fallible AuthorizationBinding) (answer : Answer)
    : Fallible AuthorizationBinding * list Event * Z * list (Ed25519PublicKey * bytes) :=
  match p, answer with
  | Return _, _ => (p, [], counter, [])
  | _, DeadlinePasses => (Return (Err HandshakeTimeout), [], counter, [])
  | WriteFrame payload k, StreamTakes taken =>
      (k (write_frame (if taken then Some [] else None) payload MAX_AUTHORIZATION_HANDSHAKE_FRAME_BYTES).1, [], counter, [])
  | ReadFrame k, StreamHolds stream => (k (read_frame stream MAX_AUTHORIZATION_HANDSHAKE_FRAME_BYTES).1, [], counter, [])
  | NextChallenge k, Randomness random =>
      let '(r, counter) := next_challenge counter random in
      (k r, match r with Ok challenge => [Drew challenge] | Err _ => [] end, counter, [])
  | Sign message k, Computed =>
      match identity_sign identity message with
      | Some signature => (k (Some signature), [Signed message], counter, [(identity, message)])
      | None => (k None, [], counter, [])
      end
  | Verify public_key message signature k, Computed =>
      if verify_local_service_signature public_key message signature
      then (k true, [Verified public_key message], counter, [])
      else (k false, [], counter, [])
  | Authorize binding k, AuthorizerSays decision => (k decision, [Decided binding decision], counter, [])
  | _, _ => (p, [], counter, [])
  end.

Definition challenges_of (net : Network) (process : nat) : Z := default 0 (net_counters net !! process).

Definition act (net : Network) (action : Action) : Network :=
  match action with
  | Open process endpoint =>
      mk_Network (net_counters net)
        (net_connections net ++ [mk_Connection process endpoint (endpoint_program endpoint) []]) (net_signed net)
  | Turn i answer =>
      match net_connections net !! i with
      | None => net
      | Some c =>
          let '(p, events, counter, signed) :=
            advance (endpoint_identity (conn_endpoint c)) (challenges_of net (conn_process c)) (conn_program c) answer in
          mk_Network (<[conn_process c := counter]> (net_counters net))
            (<[i := mk_Connection (conn_process c) (conn_endpoint c) p (events ++ conn_history c)]> (net_connections net))
            (signed ++ net_signed net)
      end
  | SignElsewhere public_key message =>
      mk_Network (net_counters net) (net_connections net) ((public_key, message) :: net_signed net)
  end.

(** An action that presents a valid signature of a key nobody but these endpoints holds, over
    bytes that were never signed with it. *)
Definition forges (honest : Ed25519PublicKey → Prop) (net : Network) (action : Action) : Prop :=
  ∃ i c public_key message signature k,
    action = Turn i Computed ∧ net_connections net !! i = Some c
    ∧ conn_program c = Verify public_key message signature k
    ∧ verify_local_service_signature public_key message signature = true
    ∧ honest public_key ∧ (public_key, message) ∉ net_signed net.

(** Clients ask for grants whose fields have their width, and the identities sign elsewhere
    only under other domains. *)
Definition action_ok (action : Action) : Prop :=
  match action with
  | Open _ endpoint => endpoint_fits endpoint
  | Turn _ _ => True
  | SignElsewhere _ message => ∀ t, message ≠ client_signing_message t ∧ message ≠ service_signing_message t
  end.

(** Every network that endpoints and an adversary who forges no signature can make. *)
Inductive network_run (honest : Ed25519PublicKey → Prop) : Network → Prop :=
| network_start : network_run honest empty_network
| network_act net action :
    network_run honest net → action_ok action → ¬ forges honest net action → network_run honest (act net action).

End network.

(** ** A client and a service over a channel *)

Record Party := mk_Party {
  party_identity : Ed25519PublicKey;
  party_counter : Z;
  party_random : option LocalServiceChallenge;
  party_decides : AuthorizationBinding → result LocalServiceTransportError bool }.

Section exchange.
Context `{LocalServiceSignatures}.

(** Run an endpoint until it returns or waits for bytes that may still come. *)
Fixpoint run_party (party : Party) (closed : bool) (p : Fallible AuthorizationBinding) (inbox sent : bytes)
    : Fallible AuthorizationBinding * bytes :=
  match p with
  | Return _ => (p, sent)
  | WriteFrame payload k =>
      let '(r, stream) := write_frame (Some sent) payload MAX_AUTHORIZATION_HANDSHAKE_FRAME_BYTES in
      run_party party closed (k r) inbox (default sent stream)
  | ReadFrame k =>
      if (len inbox =? 0) && negb closed then (p, sent) else
      let '(r, inbox) := read_frame inbox MAX_AUTHORIZATION_HANDSHAKE_FRAME_BYTES in run_party party closed (k r) inbox sent
  | NextChallenge k => run_party party closed (k (next_challenge (party_counter party) (party_random party)).1) inbox sent
  | Sign message k => run_party party closed (k (identity_sign (party_identity party) message)) inbox sent
  | Verify public_key message signature k =>
      run_party party closed (k (verify_local_service_signature public_key message signature)) inbox sent
  | Authorize binding k => run_party party closed (k (party_decides party binding)) inbox sent
  end.

(** The four messages of an exchange; [tamper] is what the channel does to the last one, after
    which the service closes it. *)
Definition exchange (tamper : bytes → bytes) (client service : Party) (binding : AuthorizationBinding)
    (expected : Ed25519PublicKey) : Fallible AuthorizationBinding * Fallible AuthorizationBinding :=
  let '(c1, hello) := run_party client false (complete_client binding expected) [] [] in
  let '(s1, challenge) :=
    run_party service false (complete_observed_authorization_service_handshake (party_identity service)) hello [] in
  let '(c2, proof) := run_party client false c1 challenge [] in
  let '(s2, decision) := run_party service false s1 proof [] in
  let '(c3, _) := run_party client true c2 (tamper decision) [] in
  (c3, s2).

End exchange.
