(* ===== verification/AuthorizationAgreement.v ===== *)
(** * What a completed handshake proves

    Invariants of every network of endpoints whose streams an adversary controls, and the
    agreement they give: a service that completes a handshake answers one connection of the
    holder of the presented key, and a client that completes one is answered by the service it
    pins.  The last part follows the messages of a client and a service over a channel. *)

From S2P Require Import Prelude Identifiers LocalFraming LocalGrants AuthorizationMessages AuthorizationHandshake.
Open Scope Z_scope.

(** ** Histories of a program

    Whatever the environment answers, the history satisfies [trail] at every effect, and a
    successful return [post]. *)
Fixpoint keeps (trail : list Event → Prop) (post : list Event → AuthorizationBinding → Prop)
    (p : Fallible AuthorizationBinding) (h : list Event) : Prop :=
  trail h ∧
  match p with
  | Return (Ok binding) => post h binding
  | Return (Err _) => True
  | WriteFrame _ k => ∀ r, keeps trail post (k r) h
  | ReadFrame k => ∀ r, keeps trail post (k r) h
  | NextChallenge k => (∀ c, keeps trail post (k (Ok c)) (Drew c :: h)) ∧ ∀ e, keeps trail post (k (Err e)) h
  | Sign m k => keeps trail post (k None) h ∧ ∀ s, keeps trail post (k (Some s)) (Signed m :: h)
  | Verify key m _ k => keeps trail post (k true) (Verified key m :: h) ∧ keeps trail post (k false) h
  | Authorize b k => ∀ d, keeps trail post (k d) (Decided b d :: h)
  end.

Definition client_full (binding : AuthorizationBinding) (expected : Ed25519PublicKey) (cc sc : LocalServiceChallenge)
    : list Event :=
  let t := mk_AuthorizationTranscript binding cc sc expected in
  [Verified expected (service_signing_message t); Signed (client_signing_message t); Drew cc].

Definition service_full (identity : Ed25519PublicKey) (binding : AuthorizationBinding) (cc sc : LocalServiceChallenge)
    (decision : result LocalServiceTransportError bool) : list Event :=
  let t := mk_AuthorizationTranscript binding cc sc identity in
  [Signed (service_signing_message t); Decided binding decision;
   Verified (presented_key binding) (client_signing_message t); Drew sc].

Definition client_trail (binding : AuthorizationBinding) (expected : Ed25519PublicKey) (h : list Event) : Prop :=
  h = [] ∨ ∃ cc sc, h `suffix_of` client_full binding expected cc sc.

Definition service_trail (identity : Ed25519PublicKey) (h : list Event) : Prop :=
  h = [] ∨ ∃ binding cc sc, binding_fits binding
    ∧ ((∃ decision, h `suffix_of` drop 1 (service_full identity binding cc sc decision))
       ∨ ∃ authorized, h = service_full identity binding cc sc (Ok authorized)).

Definition client_post (binding : AuthorizationBinding) (expected : Ed25519PublicKey) (h : list Event)
    (result : AuthorizationBinding) : Prop :=
  result = binding ∧ ∃ cc sc, h = client_full binding expected cc sc.

Definition service_post (identity : Ed25519PublicKey) (h : list Event) (result : AuthorizationBinding) : Prop :=
  binding_fits result ∧ ∃ cc sc, h = service_full identity result cc sc (Ok true).

Lemma client_keeps binding expected :
  keeps (client_trail binding expected) (client_post binding expected) (complete_client binding expected) [].
Proof.
  set (T := client_trail binding expected). set (P := client_post binding expected).
  assert (∀ cc sc, T [Drew cc] ∧ T (drop 1 (client_full binding expected cc sc)) ∧ T (client_full binding expected cc sc)) as HT.
  { intros cc sc. split_and!; right; exists cc, sc; [by do 2 apply suffix_cons_r|by apply suffix_cons_r|done]. }
  split; [by left|]. split; [|intros e; split; [by left|done]]. intros cc. destruct (HT cc cc) as [T1 _].
  split; [done|]. intros [[]|e]; [|done]. cbn. split; [done|]. intros r.
  destruct r as [payload|e]; [|by destruct e]. cbn. destruct (decode_message payload) as [m|e] eqn:Hd; [|by destruct e].
  destruct m as [| |key sc| | |]; try by split. cbn. case_bool_decide as Hk; [by split|]. subst key.
  destruct (HT cc sc) as (_ & T2 & T3). cbn. split; [done|]. split; [by split|]. intros s. cbn. split; [done|].
  intros [[]|e]; [|done]. cbn. split; [done|]. intros r. destruct r as [payload'|e]; [|by split]. cbn.
  destruct (decode_message payload') as [m|e]; [|by split]. destruct m; cbn; try by split.
  split; [done|]. split; [|by split]. split; [done|]. split; [done|]. by exists cc, sc.
Qed.

Lemma opened_by_fits m binding cc : message_fits m → opened_by m = Ok (binding, cc) → binding_fits binding.
Proof. destruct m; try done; intros Hm [= <- <-]; [done|]. apply Hm. Qed.

Lemma service_keeps identity :
  keeps (service_trail identity) (service_post identity) (complete_observed_authorization_service_handshake identity) [].
Proof.
  set (T := service_trail identity). set (P := service_post identity). split; [by left|].
  assert (T []) as T0 by (by left).
  intros r. destruct r as [payload|e]; [|by split]. cbn. destruct (decode_message payload) as [m|e] eqn:Hd; [|by split].
  apply decode_message_spec in Hd as [Hm _]. cbn. destruct (opened_by m) as [[binding cc]|e] eqn:Ho; [|by split].
  apply opened_by_fits in Ho; [|done]. cbn. split; [done|]. split; [|by split]. intros sc. cbn.
  assert (∀ d n, T (drop n (drop 1 (service_full identity binding cc sc d)))) as HT.
  { intros d n. right. exists binding, cc, sc. split; [done|]. left. exists d. apply suffix_drop. }
  assert (∀ authorized, T (service_full identity binding cc sc (Ok authorized))) as HS.
  { intros authorized. right. exists binding, cc, sc. split; [done|]. right. by exists authorized. }
  assert (T [Drew sc]) as T1 by apply (HT (Ok true) 2%nat). split; [done|]. intros [[]|e]; [|by split]. cbn. split; [done|].
  intros r. destruct r as [payload'|e]; [|by split]. cbn. destruct (decode_message payload') as [m'|e]; [|by split].
  destruct m'; try (by split). cbn. split; [done|]. split; [|by split]. split; [apply (HT (Ok true) 1%nat)|]. cbn. intros d.
  destruct d as [[]|e].
  - cbn. split; [apply (HT (Ok true) 0%nat)|]. split; [by split; [apply (HT (Ok true) 0%nat)|]|]. intros s.
    assert (T (service_full identity binding cc sc (Ok true))) as T4 by apply HS.
    cbn. split; [done|]. intros [[]|e]; [|by split]. split; [done|]. split; [done|]. by exists cc, sc.
  - cbn. split; [apply (HT (Ok false) 0%nat)|]. split; [by split; [apply (HT (Ok false) 0%nat)|]|]. intros s.
    assert (T (service_full identity binding cc sc (Ok false))) as T4 by apply HS.
    cbn. split; [done|]. intros [[]|e]; by split.
  - by split; [apply (HT (Err e) 0%nat)|].
Qed.

Lemma keeps_now trail post p h : keeps trail post p h → trail h.
Proof. by destruct p; intros [? _]. Qed.

Lemma keeps_mono (T T' : list Event → Prop) (P P' : list Event → AuthorizationBinding → Prop) p h :
  (∀ h, T h → T' h) → (∀ h b, P h b → P' h b) → keeps T P p h → keeps T' P' p h.
Proof.
  intros HT HP. revert h. induction p; intros h [Ht Hk]; (split; [by apply HT|]); try naive_solver.
  destruct a; [by apply HP|done].
Qed.

(** ** Endpoints *)

Definition endpoint_trail (e : Endpoint) (h : list Event) : Prop :=
  match endpoint_asks e with
  | Some (binding, expected) => client_trail binding expected h ∧ (h ≠ [] → presented_key binding = endpoint_identity e)
  | None => service_trail (endpoint_identity e) h
  end.

Definition endpoint_post (e : Endpoint) (h : list Event) (result : AuthorizationBinding) : Prop :=
  match endpoint_asks e with
  | Some (binding, expected) => client_post binding expected h result
  | None => service_post (endpoint_identity e) h result
  end.

Lemma endpoint_keeps e : keeps (endpoint_trail e) (endpoint_post e) (endpoint_program e) [].
Proof.
  assert (∀ binding expected, endpoint_asks e = Some (binding, expected) → presented_key binding = endpoint_identity e →
    keeps (endpoint_trail e) (endpoint_post e) (complete_client binding expected) []) as Hc.
  { intros binding expected Ha Hk. apply (keeps_mono (client_trail binding expected) _ (client_post binding expected)).
    - intros h Ht. unfold endpoint_trail. by rewrite Ha.
    - intros h b Hp. unfold endpoint_post. by rewrite Ha.
    - apply client_keeps. }
  destruct e as [key client harness identity expected|grant client identity expected|identity]; cbn [endpoint_program].
  - by apply Hc.
  - unfold complete_session_client_handshake. case_bool_decide as Hk.
    + split; [|done]. split; [by left|done].
    + apply Hc; [done|]. cbn. by destruct (decide (grant_session_public_key grant = identity)).
  - apply service_keeps.
Qed.

(** ** Challenges *)

(** The count that a challenge carries. *)
Definition count_of (challenge : LocalServiceChallenge) : Z := be_value (drop 24 (raw challenge)).

Lemma next_challenge_cases counter random r counter' :
  0 <= counter → next_challenge counter random = (r, counter') →
  match r with Ok c => counter' = counter + 1 ∧ count_of c = counter + 1 | Err _ => counter <= counter' end.
Proof.
  intros Hc. unfold next_challenge. destruct (U64_MAX <=? counter) eqn:Em; intros [= <- <-]; [lia|].
  apply Z.leb_gt in Em. destruct random as [x|]; cbn [ok_or mbind result_bind]; [|lia].
  destruct (check _ _ _) as [c|e] eqn:Ec; [|lia]. apply check_Ok in Ec. split; [done|]. unfold count_of. rewrite Ec.
  rewrite drop_app_length' by (rewrite length_take, array_length; done).
  apply (be_value_bytes 8 (counter + 1)). change (256 ^ Z.of_nat 8) with 18446744073709551616. unfold U64_MAX in Em. lia.
Qed.

(** ** Effects *)

Section network.
Context `{LocalServiceSignatures}.

Lemma advance_keeps trail post identity counter p answer p' events counter' signed h :
  advance identity counter p answer = (p', events, counter', signed) →
  keeps trail post p h → keeps trail post p' (events ++ h).
Proof.
  intros Ha Hk. pose proof (keeps_now _ _ _ _ Hk) as Ht. unfold advance in Ha.
  destruct p, answer; destruct Hk as [_ Hk]; try (injection Ha as <- <- <- <-; solve [by split | apply Hk]).
  - destruct (next_challenge counter random) as [r n]. injection Ha as <- <- <- <-. destruct r; apply Hk.
  - destruct (identity_sign identity message); injection Ha as <- <- <- <-; apply Hk.
  - destruct (verify_local_service_signature _ _ _); injection Ha as <- <- <- <-; apply Hk.
Qed.

Inductive effect (identity : Ed25519PublicKey) (counter : Z) (p : Fallible AuthorizationBinding) (answer : Answer)
    : list Event → Z → list (Ed25519PublicKey * bytes) → Prop :=
| effect_silent counter' : counter <= counter' → effect identity counter p answer [] counter' []
| effect_drew c : count_of c = counter + 1 → effect identity counter p answer [Drew c] (counter + 1) []
| effect_signed m : effect identity counter p answer [Signed m] counter [(identity, m)]
| effect_verified key m s k :
    p = Verify key m s k → answer = Computed → verify_local_service_signature key m s = true →
    effect identity counter p answer [Verified key m] counter []
| effect_decided b d : effect identity counter p answer [Decided b d] counter [].

Lemma advance_effect identity counter p answer p' events counter' signed :
  0 <= counter → advance identity counter p answer = (p', events, counter', signed) →
  effect identity counter p answer events counter' signed.
Proof.
  intros Hc Ha. unfold advance in Ha.
  destruct p as [|? k|k|k|m k|key m s k|b k], answer as [taken|stream|random| |d|];
    try (injection Ha as <- <- <- <-; constructor; lia).
  - destruct (next_challenge counter random) as [[c|e] n] eqn:En; injection Ha as <- <- <- <-;
      apply next_challenge_cases in En; [destruct En as [-> ?]|done| |done]; by constructor.
  - destruct (identity_sign identity m); injection Ha as <- <- <- <-; constructor; lia.
  - destruct (verify_local_service_signature key m s) eqn:Ev; injection Ha as <- <- <- <-; [|constructor; lia].
    by apply (effect_verified _ _ _ _ _ _ s k).
Qed.

(** ** The invariant of a network *)

Variable honest : Ed25519PublicKey → Prop.

Record net_ok (net : Network) : Prop := {
  ok_keeps i c : net_connections net !! i = Some c →
    keeps (endpoint_trail (conn_endpoint c)) (endpoint_post (conn_endpoint c)) (conn_program c) (conn_history c);
  ok_fits i c : net_connections net !! i = Some c → endpoint_fits (conn_endpoint c);
  ok_signed key m : (key, m) ∈ net_signed net →
    (∃ i c, net_connections net !! i = Some c ∧ endpoint_identity (conn_endpoint c) = key ∧ Signed m ∈ conn_history c)
    ∨ ∀ t, m ≠ client_signing_message t ∧ m ≠ service_signing_message t;
  ok_verified i c key m : net_connections net !! i = Some c → Verified key m ∈ conn_history c → honest key →
    (key, m) ∈ net_signed net;
  ok_counter process : 0 <= challenges_of net process;
  ok_drawn i c x : net_connections net !! i = Some c → Drew x ∈ conn_history c →
    count_of x <= challenges_of net (conn_process c);
  ok_fresh i j c d x : net_connections net !! i = Some c → net_connections net !! j = Some d →
    conn_process c = conn_process d → Drew x ∈ conn_history c → Drew x ∈ conn_history d → i = j }.

Lemma challenges_of_insert counters conns signed conns' signed' process counter process' :
  challenges_of (mk_Network counters conns signed) process <= counter →
  challenges_of (mk_Network counters conns signed) process' <= challenges_of (mk_Network (<[process:=counter]> counters) conns' signed') process'
  ∧ challenges_of (mk_Network (<[process:=counter]> counters) conns' signed') process = counter.
Proof.
  unfold challenges_of. cbn. intros Hle. rewrite lookup_insert_eq. split; [|done].
  destruct (decide (process = process')) as [<-|Hn]; [by rewrite lookup_insert_eq|by rewrite lookup_insert_ne].
Qed.

Lemma effect_counter identity counter p answer events counter' signed :
  effect identity counter p answer events counter' signed → counter <= counter'.
Proof. destruct 1; lia. Qed.

Lemma effect_drawn identity counter p answer events counter' signed x :
  effect identity counter p answer events counter' signed → Drew x ∈ events → count_of x = counter + 1 ∧ counter' = counter + 1.
Proof. by destruct 1; intros Hx; [apply not_elem_of_nil in Hx|apply list_elem_of_singleton in Hx; simplify_eq..]. Qed.

Lemma effect_signs identity counter p answer events counter' signed key m :
  effect identity counter p answer events counter' signed → (key, m) ∈ signed → key = identity ∧ Signed m ∈ events.
Proof.
  destruct 1; intros Hm; try (by apply not_elem_of_nil in Hm). apply list_elem_of_singleton in Hm as [= -> ->].
  split; [done|]. by left.
Qed.

Lemma effect_verifies identity counter p answer events counter' signed key m :
  effect identity counter p answer events counter' signed → Verified key m ∈ events →
  ∃ s k, p = Verify key m s k ∧ answer = Computed ∧ verify_local_service_signature key m s = true.
Proof.
  destruct 1; intros Hm; [by apply not_elem_of_nil in Hm|apply list_elem_of_singleton in Hm; simplify_eq..]. by eauto.
Qed.

Lemma net_ok_turn net i answer : net_ok net → ¬ forges honest net (Turn i answer) → net_ok (act net (Turn i answer)).
Proof.
  intros [Hk Hf Hs Hv H0 Hd Hn] Hforge. unfold act. destruct (net_connections net !! i) as [c|] eqn:Ei; [|by split].
  destruct (advance _ _ _ _) as [[[p events] counter] signed] eqn:Ea.
  pose proof (advance_keeps _ _ _ _ _ _ _ _ _ _ _ Ea (Hk i c Ei)) as Hk'. apply advance_effect in Ea; [|apply H0].
  pose proof (effect_counter _ _ _ _ _ _ _ Ea) as Hle. pose proof (fun x => effect_drawn _ _ _ _ _ _ _ x Ea) as Hdrew.
  destruct net as [counters conns sig]. cbn [net_connections net_signed net_counters] in *.
  set (new := mk_Connection (conn_process c) (conn_endpoint c) p (events ++ conn_history c)).
  set (net' := mk_Network (<[conn_process c:=counter]> counters) (<[i:=new]> conns) (signed ++ sig)).
  assert (∀ process, challenges_of (mk_Network counters conns sig) process <= challenges_of net' process
                     ∧ challenges_of net' (conn_process c) = counter) as Hc
    by (intros process; by apply challenges_of_insert).
  assert (∀ j d, net_connections net' !! j = Some d → (j = i ∧ d = new) ∨ (j ≠ i ∧ conns !! j = Some d)) as Hj.
  { intros j d [(<- & <- & _)|[? ?]]%list_lookup_insert_Some; [by left|by right]. }
  assert (net_connections net' !! i = Some new) as Hi by (apply list_lookup_insert_eq; by eapply lookup_lt_Some).
  assert (∀ j d, j ≠ i → conns !! j = Some d → net_connections net' !! j = Some d) as Hother
    by (intros j d Hne Hjd; etrans; [by apply list_lookup_insert_ne|done]).
  assert (∀ x j d, Drew x ∈ events → conns !! j = Some d → conn_process d = conn_process c → Drew x ∈ conn_history d → False) as Hfresh.
  { intros x j d Hx Hjd Hp Hdx. destruct (Hdrew x Hx) as [Hcx _]. specialize (Hd j d x Hjd Hdx). rewrite Hp in Hd. lia. }
  split; cbn [net_connections net_signed].
  - intros j d [[-> ->]|[_ Hd']]%Hj; [done|by apply (Hk j)].
  - intros j d [[-> ->]|[_ Hd']]%Hj; [exact (Hf i c Ei)|by apply (Hf j)].
  - intros key m [Hm|Hm]%elem_of_app.
    + left. exists i, new. destruct (effect_signs _ _ _ _ _ _ _ _ _ Ea Hm) as [-> Hin]. split_and!; [exact Hi|reflexivity|].
      apply elem_of_app. by left.
    + destruct (Hs key m Hm) as [(j & d & Hjd & Hid & Hin)|Ho]; [|by right]. left. destruct (decide (j = i)) as [->|Hne].
      * exists i, new. rewrite Ei in Hjd. injection Hjd as ->. split_and!; [exact Hi|exact Hid|]. apply elem_of_app. by right.
      * exists j, d. split; [by apply Hother|]. by split.
  - intros j d key m [[-> ->]|[_ Hd']]%Hj Hin Hh; apply elem_of_app; [|right; by apply (Hv j d)].
    apply elem_of_app in Hin as [Hin|Hin]; [|right; by apply (Hv i c)].
    destruct (effect_verifies _ _ _ _ _ _ _ _ _ Ea Hin) as (s & k & Hp & -> & Hver). right.
    destruct (decide ((key, m) ∈ sig)) as [|Hno]; [done|]. destruct Hforge. by exists i, c, key, m, s, k.
  - intros process. specialize (H0 process). destruct (Hc process). lia.
  - intros j d x [[-> ->]|[_ Hd']]%Hj Hin.
    + change (conn_process new) with (conn_process c). destruct (Hc (conn_process c)) as [Hmono Hnew].
      apply elem_of_app in Hin as [Hin|Hin]; [destruct (Hdrew x Hin)|specialize (Hd i c x Ei Hin)]; lia.
    + destruct (Hc (conn_process d)) as [Hmono _]. specialize (Hd j d x Hd' Hin). lia.
  - intros j1 j2 d1 d2 x [[-> ->]|[N1 D1]]%Hj [[-> ->]|[N2 D2]]%Hj Hp X1 X2; [done| | |by apply (Hn j1 j2 d1 d2 x)].
    + apply elem_of_app in X1 as [X1|X1]; [|by apply (Hn i j2 c d2 x)]. by destruct (Hfresh x j2 d2).
    + apply elem_of_app in X2 as [X2|X2]; [|by apply (Hn j1 i d1 c x)]. by destruct (Hfresh x j1 d1).
Qed.

Lemma net_ok_open net process endpoint : net_ok net → endpoint_fits endpoint → net_ok (act net (Open process endpoint)).
Proof.
  intros [Hk Hf Hs Hv H0 Hd Hn] He. destruct net as [counters conns sig]. cbn [act net_connections net_signed net_counters] in *.
  set (new := mk_Connection process endpoint (endpoint_program endpoint) []).
  assert (∀ j d, (conns ++ [new]) !! j = Some d → conns !! j = Some d ∨ d = new) as Hj.
  { intros j d [?|(_ & Hd')]%lookup_app_Some; [by left|]. right. by apply list_lookup_singleton_Some in Hd' as [_ <-]. }
  split; cbn [net_connections net_signed].
  - intros j d [Hj' | ->]%Hj; [by apply (Hk j)|]. apply endpoint_keeps.
  - intros j d [Hj' | ->]%Hj; [by apply (Hf j)|done].
  - intros key m [(j & d & Hj' & ?)|Ho]%Hs; [|by right]. left. exists j, d. by rewrite lookup_app_l by (by eapply lookup_lt_Some).
  - intros j d key m [Hj' | ->]%Hj Hin; [by apply (Hv j d)|by apply not_elem_of_nil in Hin].
  - exact H0.
  - intros j d x [Hj' | ->]%Hj Hin; [by apply (Hd j d)|by apply not_elem_of_nil in Hin].
  - intros j1 j2 d1 d2 x [D1 | ->]%Hj [D2 | ->]%Hj Hp X1 X2; [by apply (Hn j1 j2 d1 d2 x)|solve [by apply not_elem_of_nil in X1|by apply not_elem_of_nil in X2]..].
Qed.

Lemma net_ok_elsewhere net key message :
  net_ok net → action_ok (SignElsewhere key message) → net_ok (act net (SignElsewhere key message)).
Proof.
  intros [Hk Hf Hs Hv H0 Hd Hn] Hm. split; try done.
  - intros key' m [[= -> ->]|Hin]%elem_of_cons; [by right|by apply Hs].
  - intros i c key' m Hc Hin Hh. apply elem_of_cons. right. by apply (Hv i c).
Qed.

Lemma network_ok net : network_run honest net → net_ok net.
Proof.
  induction 1 as [|net action _ IH Ha Hf].
  - split; try done; cbn; intros; set_solver.
  - destruct action; [by apply net_ok_open|by apply net_ok_turn|by apply net_ok_elsewhere].
Qed.

(** ** Agreement *)

Lemma suffix_last {A} (h l : list A) x : h `suffix_of` l ++ [x] → h ≠ [] → x ∈ h.
Proof.
  intros Hs Hne. destruct h as [|y h _] using rev_ind; [done|]. apply suffix_snoc_inv_1 in Hs as ->.
  apply elem_of_app. right. by left.
Qed.

Lemma elem_of_suffix {A} (h l : list A) x : h `suffix_of` l → x ∈ h → x ∈ l.
Proof. intros [pre ->] Hx. apply elem_of_app. by right. Qed.

Lemma elem_of_not_nil {A} (h : list A) x : x ∈ h → h ≠ [].
Proof. intros Hx ->. by apply not_elem_of_nil in Hx. Qed.

(** A client signs once, as the transcript of the binding it asks for. *)
Lemma client_signature net i c binding expected m :
  net_ok net → net_connections net !! i = Some c → endpoint_asks (conn_endpoint c) = Some (binding, expected) →
  Signed m ∈ conn_history c →
  ∃ cc sc, m = client_signing_message (mk_AuthorizationTranscript binding cc sc expected) ∧ Drew cc ∈ conn_history c
           ∧ binding_fits binding ∧ presented_key binding = endpoint_identity (conn_endpoint c)
           ∧ ∀ m', Signed m' ∈ conn_history c → m' = m.
Proof.
  intros Hok Hc Ha Hm. pose proof (keeps_now _ _ _ _ (ok_keeps _ Hok i c Hc)) as Ht. pose proof (ok_fits _ Hok i c Hc) as Hf.
  unfold endpoint_trail, endpoint_fits in *. rewrite Ha in Ht, Hf. destruct Ht as [[Hn|(cc & sc & Hs)] Hkey].
  { by apply elem_of_not_nil in Hm. }
  assert (∀ m', Signed m' ∈ conn_history c → m' = client_signing_message (mk_AuthorizationTranscript binding cc sc expected)) as Hall.
  { intros m' Hm'. apply (elem_of_suffix _ _ _ Hs) in Hm'. unfold client_full in Hm'. rewrite !elem_of_cons in Hm'.
    destruct Hm' as [?|[[= ->]|[?|Hm'%not_elem_of_nil]]]; done. }
  apply elem_of_not_nil in Hm as Hne. exists cc, sc. split_and!; [by apply Hall| |done|by apply Hkey|].
  - by apply (suffix_last _ (take 2 (client_full binding expected cc sc))).
  - intros m' Hm'. by rewrite (Hall m Hm), (Hall m' Hm').
Qed.

(** A service signs once, after its decision on a proof it has verified. *)
Lemma service_signature net i c m :
  net_ok net → net_connections net !! i = Some c → endpoint_asks (conn_endpoint c) = None → Signed m ∈ conn_history c →
  ∃ binding cc sc authorized,
    binding_fits binding ∧ conn_history c = service_full (endpoint_identity (conn_endpoint c)) binding cc sc (Ok authorized)
    ∧ m = service_signing_message (mk_AuthorizationTranscript binding cc sc (endpoint_identity (conn_endpoint c))).
Proof.
  intros Hok Hc Ha Hm. pose proof (keeps_now _ _ _ _ (ok_keeps _ Hok i c Hc)) as Ht. unfold endpoint_trail in Ht. rewrite Ha in Ht.
  destruct Ht as [Hn|(binding & cc & sc & Hf & [[d Hs]|[authorized Hs]])].
  - by apply elem_of_not_nil in Hm.
  - apply (elem_of_suffix _ _ _ Hs) in Hm. cbn in Hm. rewrite !elem_of_cons in Hm. destruct Hm as [?|[?|[?|Hm%not_elem_of_nil]]]; done.
  - exists binding, cc, sc, authorized. split_and!; [done|done|]. rewrite Hs in Hm. unfold service_full in Hm. rewrite !elem_of_cons in Hm.
    destruct Hm as [[= ->]|[?|[?|[?|Hm%not_elem_of_nil]]]]; done.
Qed.

Lemma signed_as_client net key t :
  net_ok net → (key, client_signing_message t) ∈ net_signed net → binding_fits (transcript_binding t) →
  ∃ i c, net_connections net !! i = Some c ∧ Signed (client_signing_message t) ∈ conn_history c
    ∧ endpoint_asks (conn_endpoint c) = Some (transcript_binding t, transcript_service_public_key t)
    ∧ endpoint_identity (conn_endpoint c) = key ∧ presented_key (transcript_binding t) = key
    ∧ Drew (transcript_client_challenge t) ∈ conn_history c
    ∧ ∀ m, Signed m ∈ conn_history c → m = client_signing_message t.
Proof.
  intros Hok Hin Hf. destruct (ok_signed _ Hok _ _ Hin) as [(i & c & Hc & Hid & Hm)|Ho]; [|by destruct (Ho t)].
  exists i, c. destruct (endpoint_asks (conn_endpoint c)) as [[binding expected]|] eqn:Ha.
  - destruct (client_signature net i c binding expected _ Hok Hc Ha Hm) as (cc & sc & E & Hd & Hb & Hk & Hall).
    apply app_inv_head, encode_transcript_inj in E; [|done..]. subst t. split_and!; try done. by etrans.
  - destruct (service_signature net i c _ Hok Hc Ha Hm) as (binding & cc & sc & a & _ & _ & E). by apply domains_apart in E.
Qed.

Lemma signed_as_service net key t :
  net_ok net → (key, service_signing_message t) ∈ net_signed net → binding_fits (transcript_binding t) →
  ∃ i c authorized, net_connections net !! i = Some c ∧ endpoint_asks (conn_endpoint c) = None
    ∧ endpoint_identity (conn_endpoint c) = key ∧ transcript_service_public_key t = key
    ∧ conn_history c = service_full key (transcript_binding t) (transcript_client_challenge t)
                         (transcript_service_challenge t) (Ok authorized).
Proof.
  intros Hok Hin Hf. destruct (ok_signed _ Hok _ _ Hin) as [(i & c & Hc & Hid & Hm)|Ho]; [|by destruct (Ho t)].
  exists i, c. destruct (endpoint_asks (conn_endpoint c)) as [[binding expected]|] eqn:Ha.
  - destruct (client_signature net i c binding expected _ Hok Hc Ha Hm) as (cc & sc & E & _). symmetry in E. by apply domains_apart in E.
  - destruct (service_signature net i c _ Hok Hc Ha Hm) as (binding & cc & sc & a & Hb & Hh & E). exists a.
    apply app_inv_head, encode_transcript_inj in E; [|done..]. subst t. rewrite Hid in *. done.
Qed.

(** A service completes only what its authorizer has decided for. *)
Lemma completed_history net i c binding :
  net_ok net → net_connections net !! i = Some c → endpoint_asks (conn_endpoint c) = None →
  conn_program c = Return (Ok binding) → service_post (endpoint_identity (conn_endpoint c)) (conn_history c) binding.
Proof.
  intros Hok Hc Ha Hp. pose proof (ok_keeps _ Hok i c Hc) as Hk. rewrite Hp in Hk. destruct Hk as [_ Hpost].
  unfold endpoint_post in Hpost. by rewrite Ha in Hpost.
Qed.

Lemma completed_decided net i c binding :
  net_ok net → net_connections net !! i = Some c → endpoint_asks (conn_endpoint c) = None →
  conn_program c = Return (Ok binding) → Decided binding (Ok true) ∈ conn_history c.
Proof.
  intros Hok Hc Ha Hp. destruct (completed_history net i c binding Hok Hc Ha Hp) as [_ (cc & sc & ->)]. right. left.
Qed.

(** The challenge of a service is in every proof it accepts. *)
Lemma service_verified_draws identity h key t :
  service_trail identity h → binding_fits (transcript_binding t) → Verified key (client_signing_message t) ∈ h →
  Drew (transcript_service_challenge t) ∈ h.
Proof.
  intros Ht Hf Hv. apply elem_of_not_nil in Hv as Hne. destruct Ht as [->|(binding & cc & sc & Hb & Hs)]; [done|].
  assert (∃ d, h `suffix_of` service_full identity binding cc sc d) as [d Hd].
  { destruct Hs as [[d Hs]|[a ->]]; [|by eexists]. exists d. by apply suffix_cons_r. }
  pose proof (elem_of_suffix _ _ _ Hd Hv) as Hin. unfold service_full in Hin. rewrite !elem_of_cons in Hin.
  destruct Hin as [?|[?|[E|[?|Hin%not_elem_of_nil]]]]; try done.
  assert (client_signing_message t = client_signing_message (mk_AuthorizationTranscript binding cc sc identity)) as E' by congruence.
  apply app_inv_head, encode_transcript_inj in E'; [|done..].
  subst t. by apply (suffix_last _ (take 3 (service_full identity binding cc sc d))).
Qed.

(** C3: a service that completes a handshake under a presented key which only its owner
    uses has been asked for exactly this binding by the owner: some client connection with
    that identity asks for the binding at this very service, drew the client challenge, and
    signed the proof for the challenge this service connection drew; the authorizer has
    decided for the binding; and no other connection of the service process accepted a proof
    of that client connection, so a captured proof opens nothing a second time. *)
Theorem service_agrees_with_client net i c binding :
  network_run honest net → net_connections net !! i = Some c → endpoint_asks (conn_endpoint c) = None →
  conn_program c = Return (Ok binding) → honest (presented_key binding) →
  Decided binding (Ok true) ∈ conn_history c
  ∧ ∃ j d cc sc,
      net_connections net !! j = Some d
      ∧ endpoint_asks (conn_endpoint d) = Some (binding, endpoint_identity (conn_endpoint c))
      ∧ endpoint_identity (conn_endpoint d) = presented_key binding
      ∧ Drew cc ∈ conn_history d ∧ Drew sc ∈ conn_history c
      ∧ Signed (client_signing_message (mk_AuthorizationTranscript binding cc sc (endpoint_identity (conn_endpoint c))))
          ∈ conn_history d
      ∧ ∀ i' c' key m, net_connections net !! i' = Some c' → conn_process c' = conn_process c →
          endpoint_asks (conn_endpoint c') = None → Verified key m ∈ conn_history c' → Signed m ∈ conn_history d → i' = i.
Proof.
  intros Hok%network_ok Hc Ha Hp Hh. destruct (completed_history net i c binding Hok Hc Ha Hp) as [Hf (cc & sc & Hhist)].
  set (t := mk_AuthorizationTranscript binding cc sc (endpoint_identity (conn_endpoint c))).
  assert (Drew sc ∈ conn_history c) as Hsc by (rewrite Hhist; do 3 right; left).
  split; [rewrite Hhist; right; left|].
  destruct (signed_as_client net (presented_key binding) t Hok) as (j & d & Hd & Hm & Had & Hid & _ & Hcc & Hall); [|done|].
  { apply (ok_verified _ Hok i c); [done| |done]. rewrite Hhist. do 2 right; left. }
  exists j, d, cc, sc. split_and!; try done. intros i' c' key m Hc' Hpr Ha' Hv Hsm. apply Hall in Hsm as ->.
  apply (ok_fresh _ Hok i' i c' c sc); try done.
  pose proof (keeps_now _ _ _ _ (ok_keeps _ Hok i' c' Hc')) as Ht. unfold endpoint_trail in Ht. rewrite Ha' in Ht.
  by apply (service_verified_draws (endpoint_identity (conn_endpoint c')) _ key t).
Qed.

(** The challenge of a client is in every answer it accepts. *)
Lemma client_verified_draws binding expected h key t :
  client_trail binding expected h → binding_fits binding → binding_fits (transcript_binding t) →
  Verified key (service_signing_message t) ∈ h → Drew (transcript_client_challenge t) ∈ h.
Proof.
  intros Ht Hb Hf Hv. apply elem_of_not_nil in Hv as Hne. destruct Ht as [->|(cc & sc & Hs)]; [done|].
  pose proof (elem_of_suffix _ _ _ Hs Hv) as Hin. unfold client_full in Hin. rewrite !elem_of_cons in Hin.
  destruct Hin as [E|[?|[?|Hin%not_elem_of_nil]]]; try done.
  assert (service_signing_message t = service_signing_message (mk_AuthorizationTranscript binding cc sc expected)) as E' by congruence.
  apply app_inv_head, encode_transcript_inj in E'; [|done..]. subst t.
  by apply (suffix_last _ (take 2 (client_full binding expected cc sc))).
Qed.

(** C5: a client that completes a handshake with a pinned service key which only the service
    uses holds the binding it asked for, and one connection of that service ran this very
    exchange: it drew the service challenge, verified the proof of possession over both
    challenges, and decided on the binding; no other connection of the client process
    accepted the answer of that service connection. *)
Theorem client_agrees_with_service net j d asked pinned binding :
  network_run honest net → net_connections net !! j = Some d → endpoint_asks (conn_endpoint d) = Some (asked, pinned) →
  conn_program d = Return (Ok binding) → honest pinned →
  binding = asked
  ∧ ∃ i c cc sc authorized,
      net_connections net !! i = Some c ∧ endpoint_asks (conn_endpoint c) = None
      ∧ endpoint_identity (conn_endpoint c) = pinned
      ∧ Drew cc ∈ conn_history d ∧ Drew sc ∈ conn_history c
      ∧ Verified (presented_key binding) (client_signing_message (mk_AuthorizationTranscript binding cc sc pinned))
          ∈ conn_history c
      ∧ Decided binding (Ok authorized) ∈ conn_history c
      ∧ ∀ j' d' key m, net_connections net !! j' = Some d' → conn_process d' = conn_process d →
          endpoint_asks (conn_endpoint d') ≠ None → Verified key m ∈ conn_history d' → Signed m ∈ conn_history c → j' = j.
Proof.
  intros Hok%network_ok Hd Ha Hp Hh. pose proof (ok_keeps _ Hok j d Hd) as Hk. rewrite Hp in Hk. destruct Hk as [_ Hpost].
  pose proof (ok_fits _ Hok j d Hd) as Hf. unfold endpoint_fits in Hf. rewrite Ha in Hf.
  unfold endpoint_post in Hpost. rewrite Ha in Hpost. destruct Hpost as [-> (cc & sc & Hhist)]. split; [done|].
  set (t := mk_AuthorizationTranscript asked cc sc pinned).
  assert (Drew cc ∈ conn_history d) as Hcc by (rewrite Hhist; do 2 right; left).
  destruct (signed_as_service net pinned t Hok) as (i & c & a & Hc & Hac & Hid & _ & Hh'); [|done|].
  { apply (ok_verified _ Hok j d); [done| |done]. rewrite Hhist. left. }
  exists i, c, cc, sc, a. rewrite Hh'. split_and!; try done; [do 3 right; left|do 2 right; left|right; left|].
  intros j' d' key m Hd' Hpr Ha' Hv Hsm. unfold service_full in Hsm. rewrite !elem_of_cons in Hsm.
  destruct Hsm as [Em|[?|[?|[?|Hsm%not_elem_of_nil]]]]; try done. change (Signed m = Signed (service_signing_message t)) in Em.
  assert (m = service_signing_message t) as -> by congruence.
  apply (ok_fresh _ Hok j' j d' d cc); try done.
  pose proof (keeps_now _ _ _ _ (ok_keeps _ Hok j' d' Hd')) as Ht. pose proof (ok_fits _ Hok j' d' Hd') as Hf'.
  unfold endpoint_trail, endpoint_fits in *. destruct (endpoint_asks (conn_endpoint d')) as [[b' e']|]; [|done].
  by apply (client_verified_draws b' e' _ key t); [apply Ht|..].
Qed.

End network.
