(* ===== verification/AuthorizationExchange.v ===== *)
(** * A handshake over a channel

    The four messages between a client and a service that both work: what the two return on
    each decision of the authorizer, over a channel that delivers and over one that changes
    the kind of the last message.  The second part joins the handshake to the authorization
    runtime of the daemon, which decides for it. *)

From S2P Require Import Prelude Identifiers LocalFraming LocalGrants AuthorizationStore AuthorizationSpec AuthorizationRuntime AuthorizationDaemon.
From S2P Require Import AuthorizationMessages AuthorizationHandshake AuthorizationAgreement.
Open Scope Z_scope.

(** The bytes of a message on a stream. *)
Definition frame_of (m : AuthorizationHandshakeMessage) : bytes :=
  be_bytes FRAME_HEADER_LENGTH (len (encode_message m)) ++ encode_message m.

Lemma encode_frame_message m : encode_frame (encode_message m) MAX_AUTHORIZATION_HANDSHAKE_FRAME_BYTES = Ok (frame_of m).
Proof.
  apply encode_frame_Ok. pose proof (encode_message_length m) as Hl. unfold MAX_AUTHORIZATION_HANDSHAKE_FRAME_BYTES, U32_MAX in *.
  split; [done|]. lia.
Qed.

(** A channel that turns a signed rejection into an acceptance by its kind, the byte after the
    length. *)
Definition accept_instead (frame : bytes) : bytes := <[FRAME_HEADER_LENGTH := KIND_SERVICE_ACCEPT]> frame.

Lemma accept_instead_frame s : accept_instead (frame_of (ServiceReject s)) = frame_of (ServiceAccept s).
Proof. done. Qed.

Lemma next_challenge_works counter random :
  0 <= counter < U64_MAX → ∃ c, (next_challenge counter (Some random)).1 = Ok c.
Proof.
  intros Hc. unfold next_challenge. rewrite (proj2 (Z.leb_gt _ _)) by lia. cbn [ok_or mbind result_bind fst].
  destruct (check_pass (array_ok CHALLENGE_LENGTH) ChallengeExhausted (take 24 (raw random) ++ be_bytes 8 (counter + 1))) as (c & Hok & _).
  { apply Nat.eqb_eq. rewrite length_app, length_take, array_length, be_bytes_length. done. }
  exists c. exact Hok.
Qed.

Section exchange.
Context `{LocalServiceSignatures}.

Lemma run_write party closed m k inbox sent :
  run_party party closed (WriteFrame (encode_message m) k) inbox sent
  = run_party party closed (k (Ok tt)) inbox (sent ++ frame_of m).
Proof. cbn [run_party]. unfold write_frame. by rewrite encode_frame_message. Qed.

Lemma run_read party closed m k rest sent :
  run_party party closed (ReadFrame k) (frame_of m ++ rest) sent = run_party party closed (k (Ok (encode_message m))) rest sent.
Proof.
  cbn [run_party]. rewrite (read_frame_own _ _ _ rest (encode_frame_message m)).
  rewrite (proj2 (Z.eqb_neq (len (frame_of m ++ rest)) 0)); [done|].
  unfold len. rewrite length_app. unfold frame_of. rewrite length_app, be_bytes_length. unfold FRAME_HEADER_LENGTH. lia.
Qed.

Lemma run_challenge party closed k inbox sent :
  run_party party closed (NextChallenge k) inbox sent
  = run_party party closed (k (next_challenge (party_counter party) (party_random party)).1) inbox sent.
Proof. done. Qed.

(** Providers that sign, and signatures that verify. *)
Definition provider_works : Prop :=
  ∀ key m, ∃ s, identity_sign key m = Some s ∧ verify_local_service_signature key m s = true.

Definition party_ready (party : Party) : Prop :=
  0 <= party_counter party < U64_MAX ∧ party_random party ≠ None.

Lemma party_challenge party :
  party_ready party → ∃ c, (next_challenge (party_counter party) (party_random party)).1 = Ok c.
Proof. intros [Hc Hr]. destruct (party_random party) as [r|]; [|done]. by apply next_challenge_works. Qed.

Lemma run_wait party k sent : run_party party false (ReadFrame k) [] sent = (ReadFrame k, sent).
Proof. done. Qed.

Lemma run_closed party k sent :
  run_party party true (ReadFrame k) [] sent = run_party party true (k (Err FrameClosed)) [] sent.
Proof. done. Qed.

Lemma run_sign party closed m k inbox sent :
  run_party party closed (Sign m k) inbox sent = run_party party closed (k (identity_sign (party_identity party) m)) inbox sent.
Proof. done. Qed.

Lemma run_verify party closed key m s k inbox sent :
  run_party party closed (Verify key m s k) inbox sent
  = run_party party closed (k (verify_local_service_signature key m s)) inbox sent.
Proof. done. Qed.

Lemma run_authorize party closed b k inbox sent :
  run_party party closed (Authorize b k) inbox sent = run_party party closed (k (party_decides party b)) inbox sent.
Proof. done. Qed.

Lemma run_return party closed a inbox sent : run_party party closed (Return a) inbox sent = (Return a, sent).
Proof. done. Qed.

Lemma hello_fits binding challenge : binding_fits binding → message_fits (hello_of binding challenge).
Proof. by destruct binding as [[]|]. Qed.

Lemma opened_by_hello binding challenge : opened_by (hello_of binding challenge) = Ok (binding, challenge).
Proof. by destruct binding as [[]|]. Qed.

Ltac unfold_program :=
  cbn [attempt mbind program_bind program_bind_fix result_bind write_message read_message read_service_message sign_as_client
       sign_as_service verify_client_signature verify_service_signature map_err ok_or fst snd negb
       transcript_binding transcript_service_public_key].

(** The last message of the service. *)
Definition decision_message (authorized : bool) (s : Ed25519Signature) : AuthorizationHandshakeMessage :=
  if authorized then ServiceAccept s else ServiceReject s.

Definition decision_result (binding : AuthorizationBinding) (authorized : bool)
    : result LocalServiceTransportError AuthorizationBinding :=
  if authorized then Ok binding else Err UnauthenticClient.

Section parties.
Variables (client service : Party) (binding : AuthorizationBinding).
Hypothesis Hworks : provider_works.
Hypothesis Hclient : party_ready client.
Hypothesis Hservice : party_ready service.
Hypothesis Hfits : binding_fits binding.
Hypothesis Hidentity : party_identity client = presented_key binding.

(** What the two return, from what the channel makes of the last message. *)
Lemma exchange_outcome tamper received :
  match party_decides service binding, received with
  | Ok d, Some d' => ∀ s, tamper (frame_of (decision_message d s)) = frame_of (decision_message d' s)
  | Err _, None => tamper [] = []
  | _, _ => False
  end →
  exchange tamper client service binding (party_identity service)
  = (Return (match received with Some d => decision_result binding d | None => Err ChannelClosed end),
     Return (d ← party_decides service binding; decision_result binding d)).
Proof.
  destruct (party_challenge client Hclient) as [cc Hcc]. destruct (party_challenge service Hservice) as [sc Hsc]. intros Htamper.
  set (t := mk_AuthorizationTranscript binding cc sc (party_identity service)).
  destruct (Hworks (presented_key binding) (client_signing_message t)) as (proof & Hsign & Hproof).
  destruct (Hworks (party_identity service) (service_signing_message t)) as (seal & Hseal & Hsealed). subst t.
  assert (∀ m, message_fits m → decode_message (encode_message m) = Ok m) as Hd by (intros m Hm; by apply decode_message_spec).
  unfold exchange, complete_client. unfold_program. rewrite run_challenge, Hcc. unfold_program. rewrite run_write. unfold_program.
  rewrite run_wait. cbn [app]. rewrite <- (app_nil_r (frame_of (hello_of _ _))).
  unfold complete_observed_authorization_service_handshake. unfold_program. rewrite run_read. unfold_program.
  rewrite (Hd _ (hello_fits _ cc Hfits)), opened_by_hello. unfold_program. rewrite run_challenge, Hsc. unfold_program.
  rewrite run_write. unfold_program. rewrite run_wait. cbn [app]. rewrite <- (app_nil_r (frame_of (ServiceChallenge _ _))).
  rewrite run_read. unfold_program. rewrite (Hd (ServiceChallenge _ _) I). unfold_program.
  rewrite bool_decide_neq_false by done. unfold_program. rewrite run_sign, Hidentity, Hsign. unfold_program. rewrite run_write.
  unfold_program. rewrite run_wait. cbn [app]. rewrite <- (app_nil_r (frame_of (ClientAuth _))), run_read. unfold_program.
  rewrite (Hd (ClientAuth _) I). unfold_program. rewrite run_verify, Hproof. unfold_program. rewrite run_authorize.
  destruct (party_decides service binding) as [d|e]; destruct received as [d'|]; try done; unfold_program.
  - destruct d; unfold_program; rewrite run_sign, Hseal; unfold_program; rewrite run_write; unfold_program; rewrite run_return; cbn [app];
      [rewrite (Htamper seal : tamper (frame_of (ServiceAccept seal)) = _)|rewrite (Htamper seal : tamper (frame_of (ServiceReject seal)) = _)];
      rewrite <- (app_nil_r (frame_of (decision_message d' _))), run_read; unfold_program;
      rewrite (Hd (decision_message d' _)) by (by destruct d'); destruct d'; cbn [decision_message]; unfold_program; rewrite run_verify, Hsealed; done.
  - rewrite run_return, Htamper. done.
Qed.

(** C22: over a channel that delivers, a client and the service it pins agree on the outcome,
    whatever the binding: both hold it when the authorizer decides for it, both report an
    unauthentic client when it decides against it, and when it cannot decide the service
    reports why and the client a closed channel, never a refusal. *)
Theorem exchange_delivers :
  exchange id client service binding (party_identity service)
  = match party_decides service binding with
    | Ok true => (Return (Ok binding), Return (Ok binding))
    | Ok false => (Return (Err UnauthenticClient), Return (Err UnauthenticClient))
    | Err e => (Return (Err ChannelClosed), Return (Err e))
    end.
Proof.
  rewrite (exchange_outcome id (match party_decides service binding with Ok d => Some d | Err _ => None end));
    by destruct (party_decides service binding) as [[]|].
Qed.

(** C38: the signature of the service is over the same bytes whatever it decides, so only the
    kind of the last message tells a rejection from an acceptance: a channel that changes
    that one byte makes the client hold a binding that the service has refused. *)
Theorem rejection_read_as_acceptance :
  party_decides service binding = Ok false →
  exchange accept_instead client service binding (party_identity service)
  = (Return (Ok binding), Return (Err UnauthenticClient)).
Proof. intros Hd. rewrite (exchange_outcome accept_instead (Some true)); by rewrite Hd. Qed.

End parties.
End exchange.

(** ** The daemon behind the service *)

Section daemon.
Context `{Sha256} `{WebAuthnDocuments} `{LocalServiceSignatures}.
Variables (fingerprint : bytes) (honest : Ed25519PublicKey → Prop).
Hypothesis Hfp : fingerprint_ok fingerprint.

(** The service asks the authorization runtime, at a world that some world leads to. *)
Definition decided_by_daemon (w : World) (c : Connection) : Prop :=
  ∀ binding decision, Decided binding decision ∈ conn_history c →
    ∃ w' clocks authorized, daemon_later fingerprint w w'
      ∧ (authorize_handshake_binding fingerprint binding clocks w').1 = Some authorized ∧ decision = Ok authorized.

(** C11: once the daemon has answered that a grant is retired, no connection whose
    authorization it decides afterwards is bound to the grant, whoever presents it, whatever
    an adversary makes of the streams and however the daemon, its reloads and other processes
    interleave. *)
Theorem retired_grant_gets_no_channel w id now w1 net i c grant client :
  daemon_world fingerprint w → 0 <= now → retire_session_grant fingerprint id now w = (Ok true, w1) →
  network_run honest net → net_connections net !! i = Some c → endpoint_asks (conn_endpoint c) = None →
  decided_by_daemon w1 c → grant_id grant = id →
  conn_program c ≠ Return (Ok (BindingSession grant client)).
Proof.
  intros Hd Hnow Hret Hnet Hc Ha Hdec Hid Hp. destruct (retired_gone fingerprint Hfp w id now w1 Hd Hnow Hret) as (s & bound & Hw & Hg & Hb).
  apply network_ok in Hnet. assert (Decided (BindingSession grant client) (Ok true) ∈ conn_history c) as Hin by (by eapply completed_decided).
  destruct (Hdec _ _ Hin) as (w2 & clocks & authorized & Hl & Hans & [= <-]).
  destruct (gone_later fingerprint Hfp id bound w1 s w2 Hw Hg Hb Hl) as (s2 & Hw2 & Hg2 & Hb2).
  by apply (gone_refused fingerprint Hfp id bound clocks w2 s2 grant client).
Qed.

End daemon.
