(* ===== verification/Membership.v ===== *)
(** * Conversation membership

    [crates/Konclave.DomainCore/src/model.rs] (members, [ConversationState],
    membership authorizations) and the membership half of [request_service.rs].

    A conversation is an immutable snapshot per MLS epoch;
    [apply_membership_authorization] builds the snapshot of the next epoch.  The
    abstract view of a snapshot, [membership_view], is a finite map from devices to
    roles together with the set of consumed invitations; [view_step] says what a
    membership change may do to it, and the refinement theorem says that the code
    does exactly that. *)

From S2P Require Import Prelude Identifiers.
Open Scope Z_scope.

(** ** Data *)

Record Member := Member_new {
  member_device_id : DeviceId;
  member_role : ConversationRole;
  member_joined_epoch : Z }.

Record RequestServiceChannel := mk_RequestServiceChannel {
  channel_conversation_id : ConversationId;
  operator_device_id : DeviceId;
  requester_device_id : DeviceId }.

Record ConversationState := mk_ConversationState {
  state_version : ProtocolVersion;
  state_conversation_id : ConversationId;
  state_epoch : Z;
  state_members : list Member;
  consumed_invitation_ids : list InvitationId;
  state_request_service : option RequestServiceChannel }.

Record AddMember := AddMember_new {
  add_device_id : DeviceId;
  add_role : ConversationRole;
  add_invitation_id : InvitationId;
  add_credential_binding_hash : CredentialBindingHash }.

Record RemoveMember := RemoveMember_new { remove_device_id : DeviceId }.

Record ChangeMemberRole := ChangeMemberRole_new {
  change_device_id : DeviceId;
  change_role : ConversationRole }.

Inductive MembershipChange :=
| Add (add : AddMember)
| Remove (remove : RemoveMember)
| ChangeRole (change : ChangeMemberRole).

Record MembershipAuthorization := MembershipAuthorization_new {
  auth_version : ProtocolVersion;
  auth_conversation_id : ConversationId;
  auth_parent_epoch : Z;
  auth_operation_id : MembershipOperationId;
  auth_change : MembershipChange }.

Global Instance Member_eq_dec : EqDecision Member.
Proof. solve_decision. Defined.
Global Instance RequestServiceChannel_eq_dec : EqDecision RequestServiceChannel.
Proof. solve_decision. Defined.
Global Instance ConversationState_eq_dec : EqDecision ConversationState.
Proof. solve_decision. Defined.

(** ** Operations *)

(** [ConversationState::member], on the member list. *)
Definition find_member (members : list Member) (device_id : DeviceId) : option Member :=
  List.find (fun m => bool_decide (member_device_id m = device_id)) members.

Definition state_member (s : ConversationState) (device_id : DeviceId) : option Member :=
  find_member (state_members s) device_id.

(** [RequestServiceChannel::new]. *)
Definition RequestServiceChannel_new (conversation_id : ConversationId)
    (operator requester : DeviceId) : result RequestServiceError RequestServiceChannel :=
  fail_if (bool_decide (operator = requester)) IdenticalEndpoints;;
  Ok (mk_RequestServiceChannel conversation_id operator requester).

(** The [for member in state.members()] loop of [validate_membership]. *)
Fixpoint validate_endpoints (ch : RequestServiceChannel) (members : list Member)
    : result RequestServiceError unit :=
  match members with
  | [] => Ok ()
  | m :: rest =>
      if bool_decide (member_device_id m = operator_device_id ch) then validate_endpoints ch rest
      else
        fail_if (bool_decide (member_device_id m ≠ requester_device_id ch)) ForeignMember;;
        fail_if (bool_decide (member_role m ≠ Member_role)) InvalidRequester;;
        validate_endpoints ch rest
  end.

(** [RequestServiceChannel::validate_membership]. *)
Definition validate_membership (ch : RequestServiceChannel) (s : ConversationState)
    : result RequestServiceError unit :=
  fail_if (bool_decide (state_conversation_id s ≠ channel_conversation_id ch))
    ConversationMismatch;;
  fail_if (bool_decide (member_role <$> state_member s (operator_device_id ch)
                        ≠ Some Administrator)) InvalidOperator;;
  validate_endpoints ch (state_members s).

Definition is_administrator (m : Member) : bool := bool_decide (member_role m = Administrator).

(** [ConversationState::new_with_request_service]. *)
Definition new_with_request_service (version : ProtocolVersion)
    (conversation_id : ConversationId) (epoch : Z) (members : list Member)
    (consumed : list InvitationId) (request_service : option RequestServiceChannel)
    : result KonclaveDomainError ConversationState :=
  require_length_range (len members) 1 MAX_MEMBERS "members";;
  require_length_range (len consumed) 0 MAX_CONSUMED_INVITATIONS "consumed_invitation_ids";;
  require_unique (member_device_id <$> members) "member_device_id";;
  require_unique consumed "consumed_invitation_id";;
  match List.find (fun m => epoch <? member_joined_epoch m) members with
  | Some m => Err (MemberJoinedAfterStateEpoch (member_joined_epoch m) epoch)
  | None =>
      fail_if (negb (existsb is_administrator members)) MissingAdministrator;;
      let state :=
        mk_ConversationState version conversation_id epoch members consumed request_service in
      match request_service with
      | None => Ok state
      | Some channel =>
          fail_if (bool_decide (version ≠ application_v1)) MembershipVersionMismatch;;
          map_err RequestService (validate_membership channel state);;
          Ok state
      end
  end.

(** [ConversationState::new]. *)
Definition ConversationState_new (version : ProtocolVersion) (conversation_id : ConversationId)
    (epoch : Z) (members : list Member) (consumed : list InvitationId)
    : result KonclaveDomainError ConversationState :=
  new_with_request_service version conversation_id epoch members consumed None.

(** [members.iter().position(|member| member.device_id == device_id)]. *)
Fixpoint position (members : list Member) (device_id : DeviceId) : option nat :=
  match members with
  | [] => None
  | m :: rest =>
      if bool_decide (member_device_id m = device_id) then Some 0%nat
      else S <$> position rest device_id
  end.

Definition administrator_count (members : list Member) : nat :=
  length (List.filter is_administrator members).

(** The [match authorization.change()] of [apply_membership_authorization]: the
    next member list and consumed invitations. *)
Definition apply_change (s : ConversationState) (change : MembershipChange) (new_epoch : Z)
    : result KonclaveDomainError (list Member * list InvitationId) :=
  let members := state_members s in
  let consumed := consumed_invitation_ids s in
  match change with
  | Add add =>
      fail_if (is_some (state_member s (add_device_id add))) MemberAlreadyExists;;
      fail_if (bool_decide (add_invitation_id add ∈ consumed)) InvitationAlreadyConsumed;;
      Ok (members ++ [Member_new (add_device_id add) (add_role add) new_epoch],
          consumed ++ [add_invitation_id add])
  | Remove remove =>
      index ← ok_or (position members (remove_device_id remove)) MemberNotFound;
      fail_if (is_some_and (members !! index) is_administrator
               && (administrator_count members =? 1)%nat) MissingAdministrator;;
      Ok (delete index members, consumed)
  | ChangeRole change =>
      index ← ok_or (position members (change_device_id change)) MemberNotFound;
      fail_if (is_some_and (members !! index) is_administrator
               && bool_decide (change_role change ≠ Administrator)
               && (administrator_count members =? 1)%nat) MissingAdministrator;;
      Ok (alter (fun m => Member_new (member_device_id m) (change_role change)
                            (member_joined_epoch m)) index members,
          consumed)
  end.

(** [ConversationState::apply_membership_authorization]. *)
Definition apply_membership_authorization (s : ConversationState)
    (authenticated_sender : DeviceId) (authorization : MembershipAuthorization) (new_epoch : Z)
    : result KonclaveDomainError ConversationState :=
  fail_if (bool_decide (auth_version authorization ≠ state_version s))
    MembershipVersionMismatch;;
  fail_if (bool_decide (auth_conversation_id authorization ≠ state_conversation_id s))
    MembershipConversationMismatch;;
  fail_if (negb (auth_parent_epoch authorization =? state_epoch s)) StaleMembershipEpoch;;
  fail_if (bool_decide (checked_add U64_MAX (state_epoch s) 1 ≠ Some new_epoch))
    InvalidMembershipEpochAdvance;;
  fail_if (bool_decide (member_role <$> state_member s authenticated_sender
                        ≠ Some Administrator)) UnauthorizedMembershipChange;;
  '(members, consumed) ← apply_change s (auth_change authorization) new_epoch;
  new_with_request_service (state_version s) (state_conversation_id s) new_epoch members consumed
    (state_request_service s).

(** ** The snapshot invariant *)

(** What a private requester/operator channel allows in a member list. *)
Definition channel_topology (ch : RequestServiceChannel) (members : list Member) : Prop :=
  (∃ m, m ∈ members ∧ member_device_id m = operator_device_id ch ∧ member_role m = Administrator)
  ∧ ∀ m, m ∈ members → member_device_id m ≠ operator_device_id ch →
      member_device_id m = requester_device_id ch ∧ member_role m = Member_role.

Record snapshot_valid (s : ConversationState) : Prop := {
  valid_member_count : 1 <= len (state_members s) <= MAX_MEMBERS;
  valid_consumed_count : len (consumed_invitation_ids s) <= MAX_CONSUMED_INVITATIONS;
  valid_unique_devices : NoDup (member_device_id <$> state_members s);
  valid_unique_invitations : NoDup (consumed_invitation_ids s);
  valid_joined : ∀ m, m ∈ state_members s → member_joined_epoch m <= state_epoch s;
  valid_administrator : ∃ m, m ∈ state_members s ∧ member_role m = Administrator;
  valid_channel : ∀ ch, state_request_service s = Some ch →
    state_version s = application_v1 ∧ state_conversation_id s = channel_conversation_id ch
    ∧ channel_topology ch (state_members s) }.

Lemma find_member_Some members d m :
  find_member members d = Some m → m ∈ members ∧ member_device_id m = d.
Proof.
  unfold find_member. intros H. apply find_some in H as [H1 H2]. bool_prop.
  split; [by apply list_elem_of_In|done].
Qed.

Lemma find_member_None members d :
  find_member members d = None ↔ ∀ m, m ∈ members → member_device_id m ≠ d.
Proof.
  unfold find_member. split.
  - intros H m Hm Hd. apply list_elem_of_In in Hm.
    pose proof (find_none _ _ H m Hm) as Hf. simpl in Hf. bool_prop. done.
  - intros H. destruct (List.find _ _) as [m|] eqn:E; [|done].
    apply find_some in E as [E1 E2]. bool_prop. apply list_elem_of_In in E1. naive_solver.
Qed.

Lemma find_member_unique members d m :
  NoDup (member_device_id <$> members) →
  find_member members d = Some m ↔ m ∈ members ∧ member_device_id m = d.
Proof.
  intros Hnd. split; [apply find_member_Some|]. intros [Hm Hd].
  destruct (find_member members d) as [m'|] eqn:E.
  - apply find_member_Some in E as [Hm' Hd'].
    apply list_elem_of_lookup in Hm as [i Hi]. apply list_elem_of_lookup in Hm' as [j Hj].
    assert (i = j) as ->; [|congruence].
    apply (NoDup_lookup (member_device_id <$> members) i j d Hnd);
      rewrite list_lookup_fmap, ?Hi, ?Hj; simpl; congruence.
  - exfalso. eapply find_member_None; eauto.
Qed.

Lemma validate_endpoints_Ok ch members u :
  validate_endpoints ch members = Ok u ↔
  ∀ m, m ∈ members → member_device_id m ≠ operator_device_id ch →
    member_device_id m = requester_device_id ch ∧ member_role m = Member_role.
Proof.
  destruct u. induction members as [|m rest IH]; simpl.
  - split; [|done]. intros _ m Hm. by apply elem_of_nil in Hm.
  - setoid_rewrite elem_of_cons. case_bool_decide as Hop.
    + rewrite IH. naive_solver.
    + rewrite bind_Ok. setoid_rewrite bind_Ok. setoid_rewrite fail_if_Ok.
      setoid_rewrite IH. setoid_rewrite bool_decide_eq_false. split.
      * intros (_ & H1 & _ & H2 & H3) m' [->|Hm']; [|naive_solver].
        split; by apply dec_stable.
      * intros H. exists (). split; [naive_solver|]. exists (). naive_solver.
Qed.

Lemma validate_membership_Ok ch s u :
  NoDup (member_device_id <$> state_members s) →
  validate_membership ch s = Ok u ↔
  state_conversation_id s = channel_conversation_id ch ∧ channel_topology ch (state_members s).
Proof.
  intros Hnd. destruct u. unfold validate_membership, channel_topology, state_member.
  rewrite bind_Ok. setoid_rewrite bind_Ok. setoid_rewrite fail_if_Ok.
  setoid_rewrite validate_endpoints_Ok. setoid_rewrite bool_decide_eq_false. split.
  - intros (_ & H1 & _ & H2 & H3). apply dec_stable in H1, H2.
    apply fmap_Some in H2 as (m & Hm & Hrole). apply find_member_Some in Hm as [].
    eauto 8.
  - intros (H1 & (m & Hm & Hd & Hr) & H3). exists (). split; [naive_solver|]. exists ().
    split; [|done]. intros Hn. apply Hn, fmap_Some. exists m.
    rewrite find_member_unique; auto.
Qed.

Lemma new_with_request_service_Ok v c e ms inv rs s :
  new_with_request_service v c e ms inv rs = Ok s ↔
  s = mk_ConversationState v c e ms inv rs ∧ snapshot_valid s.
Proof.
  unfold new_with_request_service. split.
  - intros H. inv_ok. destruct (List.find _ _) as [m|] eqn:Ef; [done|]. inv_ok.
    apply require_length_range_Ok in Hr, Hr0. apply require_unique_Ok in Hr1, Hr2.
    apply negb_false_iff, existsb_exists in Hr3 as (a & Ha & Hadm).
    apply list_elem_of_In in Ha. unfold is_administrator in Hadm. bool_prop.
    assert (Hs : s = mk_ConversationState v c e ms inv rs
      ∧ ∀ ch, rs = Some ch → v = application_v1 ∧ c = channel_conversation_id ch
                             ∧ channel_topology ch ms).
    { destruct rs as [ch|]; inv_ok; [|naive_solver]. bool_prop.
      apply validate_membership_Ok in Hr4 as []; [|done].
      apply dec_stable in Hr3. split; [congruence|]. intros ? [= <-]. auto. }
    destruct Hs as [-> Hch]. split; [done|]. split; simpl; try lia; eauto.
    intros m Hm. apply list_elem_of_In in Hm.
    pose proof (find_none _ _ Ef m Hm) as Hn. simpl in Hn. lia.
  - intros [-> [V1 V2 V3 V4 V5 V6 V7]]. simpl in *.
    rewrite (proj2 (require_length_range_Ok _ _ _ _ ()) V1).
    rewrite (proj2 (require_length_range_Ok _ _ _ _ ())); [|split; [apply len_nonneg|done]].
    rewrite (proj2 (require_unique_Ok _ _ ()) V3), (proj2 (require_unique_Ok _ _ ()) V4).
    cbn [mbind result_bind].
    destruct (List.find _ _) as [m|] eqn:Ef.
    { apply find_some in Ef as [Hm Hlt]. apply list_elem_of_In in Hm.
      specialize (V5 m Hm). lia. }
    replace (existsb is_administrator ms) with true.
    2:{ symmetry. apply existsb_exists. destruct V6 as (a & Ha & Hadm). exists a.
        unfold is_administrator. rewrite bool_decide_eq_true, <- list_elem_of_In. done. }
    simpl. destruct rs as [ch|]; [|done]. destruct (V7 ch eq_refl) as (-> & Hc & Htop).
    rewrite bool_decide_eq_false_2 by auto. simpl.
    set (st := mk_ConversationState _ _ _ _ _ _).
    assert (validate_membership ch st = Ok ()) as -> by (by apply validate_membership_Ok).
    done.
Qed.

(** ** The abstract view of a snapshot *)

Abbreviation member_map := (gmap DeviceId (ConversationRole * Z)).

Definition members_map (members : list Member) : member_map :=
  list_to_map ((fun m => (member_device_id m, (member_role m, member_joined_epoch m)))
               <$> members).

Record MembershipView := mk_MembershipView {
  view_version : ProtocolVersion;
  view_conversation : ConversationId;
  view_epoch : Z;
  view_members : member_map;
  view_consumed : gset InvitationId;
  view_channel : option RequestServiceChannel }.

Definition view_of (s : ConversationState) : MembershipView :=
  mk_MembershipView (state_version s) (state_conversation_id s) (state_epoch s)
    (members_map (state_members s)) (list_to_set (consumed_invitation_ids s))
    (state_request_service s).

(** What the three membership operations do to the finite map. *)
Inductive view_change (m : member_map) (c : gset InvitationId) (new_epoch : Z)
    : MembershipChange → member_map → gset InvitationId → Prop :=
| view_add add :
    m !! add_device_id add = None → add_invitation_id add ∉ c →
    view_change m c new_epoch (Add add)
      (<[add_device_id add := (add_role add, new_epoch)]> m) (c ∪ {[add_invitation_id add]})
| view_remove remove :
    is_Some (m !! remove_device_id remove) →
    view_change m c new_epoch (Remove remove) (delete (remove_device_id remove) m) c
| view_change_role change role joined :
    m !! change_device_id change = Some (role, joined) →
    view_change m c new_epoch (ChangeRole change)
      (<[change_device_id change := (change_role change, joined)]> m) c.

Definition has_administrator (m : member_map) : Prop :=
  ∃ d joined, m !! d = Some (Administrator, joined).

(** Well-formedness of a view: what every reachable membership satisfies. *)
Record view_ok (v : MembershipView) : Prop := {
  ok_administrator : has_administrator (view_members v);
  ok_members : Z.of_nat (size (view_members v)) <= MAX_MEMBERS;
  ok_consumed : Z.of_nat (size (view_consumed v)) <= MAX_CONSUMED_INVITATIONS;
  ok_channel : ∀ ch, view_channel v = Some ch →
    view_version v = application_v1 ∧ view_conversation v = channel_conversation_id ch
    ∧ (∃ joined, view_members v !! operator_device_id ch = Some (Administrator, joined))
    ∧ ∀ d role joined, view_members v !! d = Some (role, joined) → d ≠ operator_device_id ch →
        d = requester_device_id ch ∧ role = Member_role }.

(** One authorized membership transition, abstractly: a current administrator
    applies the change to the current epoch and the result is well formed. *)
Inductive view_step (v : MembershipView) (sender : DeviceId) (auth : MembershipAuthorization)
    (new_epoch : Z) : MembershipView → Prop :=
| view_step_intro m' c' joined :
    auth_version auth = view_version v →
    auth_conversation_id auth = view_conversation v →
    auth_parent_epoch auth = view_epoch v →
    new_epoch = view_epoch v + 1 → new_epoch <= U64_MAX →
    view_members v !! sender = Some (Administrator, joined) →
    view_change (view_members v) (view_consumed v) new_epoch (auth_change auth) m' c' →
    let v' := mk_MembershipView (view_version v) (view_conversation v) new_epoch m' c'
                (view_channel v) in
    view_ok v' → view_step v sender auth new_epoch v'.

Lemma members_map_fst members :
  ((fun m => (member_device_id m, (member_role m, member_joined_epoch m))) <$> members).*1
  = member_device_id <$> members.
Proof. rewrite <- list_fmap_compose. done. Qed.

Lemma lookup_members_map members d role joined :
  NoDup (member_device_id <$> members) →
  members_map members !! d = Some (role, joined) ↔ Member_new d role joined ∈ members.
Proof.
  intros Hnd. unfold members_map.
  rewrite <- elem_of_list_to_map by (by rewrite members_map_fst).
  rewrite list_elem_of_fmap. split.
  - intros ([? ? ?] & [= -> -> ->] & ?). done.
  - intros H. by exists (Member_new d role joined).
Qed.

Lemma lookup_members_map_find members d :
  NoDup (member_device_id <$> members) →
  members_map members !! d
  = (fun m => (member_role m, member_joined_epoch m)) <$> find_member members d.
Proof.
  intros Hnd. destruct (find_member members d) as [m|] eqn:E; simpl.
  - apply find_member_Some in E as [Hm <-]. apply lookup_members_map; [done|]. by destruct m.
  - destruct (_ !! d) as [[r j]|] eqn:El; [|done]. apply lookup_members_map in El; [|done].
    rewrite find_member_None in E. by destruct (E _ El).
Qed.

Lemma members_map_perm ms1 ms2 :
  NoDup (member_device_id <$> ms1) → ms1 ≡ₚ ms2 → members_map ms1 = members_map ms2.
Proof.
  intros Hnd Hp. apply list_to_map_proper; [by rewrite members_map_fst|by rewrite Hp].
Qed.

Lemma size_members_map members :
  NoDup (member_device_id <$> members) → Z.of_nat (size (members_map members)) = len members.
Proof.
  intros Hnd. unfold members_map, len.
  by rewrite map_size_list_to_map, length_fmap by (by rewrite members_map_fst).
Qed.

Lemma has_administrator_members members :
  NoDup (member_device_id <$> members) →
  has_administrator (members_map members) ↔ ∃ m, m ∈ members ∧ member_role m = Administrator.
Proof.
  intros Hnd. unfold has_administrator. setoid_rewrite (lookup_members_map _ _ _ _ Hnd). split.
  - intros (d & j & H). eauto.
  - intros ([d r j] & H & E). simpl in E. subst. eauto.
Qed.

(** A snapshot with unique devices and invitations and no future join is valid
    exactly when its view is well formed. *)
Lemma snapshot_valid_view s :
  NoDup (member_device_id <$> state_members s) → NoDup (consumed_invitation_ids s) →
  (∀ m, m ∈ state_members s → member_joined_epoch m <= state_epoch s) →
  snapshot_valid s ↔ view_ok (view_of s).
Proof.
  intros Hd Hi Hj.
  assert (Hc : Z.of_nat (size (view_consumed (view_of s))) = len (consumed_invitation_ids s)).
  { simpl. by rewrite size_list_to_set. }
  assert (Htop : ∀ ch, channel_topology ch (state_members s) ↔
    (∃ joined, view_members (view_of s) !! operator_device_id ch = Some (Administrator, joined))
    ∧ ∀ d role joined, view_members (view_of s) !! d = Some (role, joined) →
        d ≠ operator_device_id ch → d = requester_device_id ch ∧ role = Member_role).
  { intros ch. simpl. setoid_rewrite (lookup_members_map _ _ _ _ Hd). unfold channel_topology.
    f_equiv.
    - split; [|naive_solver]. intros ([d r j] & Hm & E1 & E2). simpl in *. subst. eauto.
    - split; [naive_solver|]. intros H [d r j] Hm. apply (H d r j Hm). }
  split.
  - intros [V1 V2 V3 V4 V5 V6 V7]. split; [|simpl; rewrite size_members_map by done; lia|lia|].
    + by apply has_administrator_members.
    + intros ch Hch. destruct (V7 ch Hch) as (?&?&?%Htop). auto.
  - intros [V1 V2 V3 V4]. simpl in V2. rewrite size_members_map in V2 by done.
    apply has_administrator_members in V1 as (m & Hm & Hr); [|done].
    split; eauto; [|lia|].
    + split; [|done]. destruct (state_members s); [by apply elem_of_nil in Hm|].
      unfold len. simpl. lia.
    + intros ch Hch. destruct (V4 ch Hch) as (?&?&?). rewrite Htop. auto.
Qed.

(** ** The code's list operations on the view *)

Lemma position_None members d :
  position members d = None ↔ ∀ m, m ∈ members → member_device_id m ≠ d.
Proof.
  induction members as [|m rest IH]; simpl.
  - split; [|done]. intros _ m Hm. by apply elem_of_nil in Hm.
  - setoid_rewrite elem_of_cons. case_bool_decide as Hm; [naive_solver|].
    rewrite fmap_None, IH. naive_solver.
Qed.

Lemma position_Some members d i :
  position members d = Some i → ∃ m, members !! i = Some m ∧ member_device_id m = d.
Proof.
  revert i. induction members as [|m rest IH]; simpl; [done|]. intros i.
  case_bool_decide as Hm; [intros [= <-]; by exists m|].
  intros (j & Hj & ->)%fmap_Some. by apply IH.
Qed.

Lemma alter_perm {A} (f : A → A) (l : list A) i x :
  l !! i = Some x → alter f i l ≡ₚ f x :: delete i l.
Proof.
  revert i. induction l as [|y l IH]; intros [|i] H; simplify_eq/=; [done|].
  rewrite (IH i H). apply Permutation_swap.
Qed.

Lemma administrator_count_perm ms1 ms2 :
  ms1 ≡ₚ ms2 → administrator_count ms1 = administrator_count ms2.
Proof.
  unfold administrator_count. induction 1; simpl; try congruence;
    repeat case_match; simpl; congruence.
Qed.

Lemma administrator_count_last m rest :
  is_administrator m = true →
  administrator_count (m :: rest) = 1%nat ↔ ∀ a, a ∈ rest → member_role a ≠ Administrator.
Proof.
  intros Hm. unfold administrator_count. simpl. rewrite Hm. simpl.
  transitivity (List.filter is_administrator rest = []).
  { destruct (List.filter _ rest); simpl; naive_solver. }
  split.
  - intros H a Ha Hr. assert (a ∈ List.filter is_administrator rest) as Hin.
    { apply list_elem_of_In, filter_In. rewrite <- list_elem_of_In. unfold is_administrator.
      by rewrite bool_decide_eq_true. }
    rewrite H in Hin. by apply elem_of_nil in Hin.
  - intros H. destruct (List.filter _ rest) as [|a l] eqn:E; [done|].
    assert (In a (List.filter is_administrator rest)) as Hin by (rewrite E; by left).
    apply filter_In in Hin as [Hin Ha]. unfold is_administrator in Ha. bool_prop.
    apply list_elem_of_In in Hin. naive_solver.
Qed.

Lemma position_view members d i :
  NoDup (member_device_id <$> members) → position members d = Some i →
  ∃ m, members !! i = Some m ∧ member_device_id m = d ∧ members ≡ₚ m :: delete i members
    ∧ members_map members !! d = Some (member_role m, member_joined_epoch m)
    ∧ NoDup (member_device_id <$> delete i members)
    ∧ members_map (delete i members) = delete d (members_map members).
Proof.
  intros Hnd Hp. destruct (position_Some _ _ _ Hp) as (m & Hi & Hd). exists m.
  pose proof (delete_Permutation members i m Hi) as Hperm.
  pose proof Hnd as Hnd'. rewrite Hperm in Hnd'. simpl in Hnd'.
  apply NoDup_cons in Hnd' as [Hnotin Hnd'].
  rewrite (members_map_perm members _ Hnd Hperm).
  change (members_map (m :: ?l)) with
    (<[member_device_id m := (member_role m, member_joined_epoch m)]> (members_map l)).
  rewrite Hd in *. rewrite lookup_insert_eq, delete_insert_id; [done|].
  apply not_elem_of_list_to_map_1. by rewrite members_map_fst.
Qed.

Lemma position_is_Some members d :
  NoDup (member_device_id <$> members) →
  is_Some (members_map members !! d) → ∃ i, position members d = Some i.
Proof.
  intros Hnd [[r j] H]. apply lookup_members_map in H; [|done].
  destruct (position members d) eqn:E; [eauto|]. rewrite position_None in E.
  by destruct (E _ H).
Qed.

(** The guard on the last administrator holds exactly when the list without the
    member at [i] still has an administrator, or that member is not one. *)
Lemma last_administrator_guard members i m :
  members !! i = Some m →
  (∃ a, a ∈ members ∧ member_role a = Administrator) →
  is_some_and (members !! i) is_administrator && (administrator_count members =? 1)%nat = false ↔
  ∃ a, a ∈ delete i members ∧ member_role a = Administrator.
Proof.
  intros Hi (b & Hb & Hbr). pose proof (delete_Permutation members i m Hi) as Hperm.
  rewrite Hi. simpl. rewrite (administrator_count_perm _ _ Hperm), andb_false_iff, Nat.eqb_neq.
  destruct (is_administrator m) eqn:Hm.
  - rewrite (administrator_count_last _ _ Hm). split.
    + intros [|Hne]; [done|]. destruct (decide (Exists (fun a => member_role a = Administrator)
        (delete i members))) as [He|He]; [by apply Exists_exists in He|].
      exfalso. apply Hne. intros a Ha Hr. apply He, Exists_exists. eauto.
    + intros (a & Ha & Hr). right. intros H. by apply (H a).
  - split; [|by left]. intros _. exists b. split; [|done]. rewrite Hperm in Hb.
    apply elem_of_cons in Hb as [->|]; [|done]. unfold is_administrator in Hm. bool_prop. done.
Qed.

Lemma view_change_deterministic m c e ch m1 c1 m2 c2 :
  view_change m c e ch m1 c1 → view_change m c e ch m2 c2 → m1 = m2 ∧ c1 = c2.
Proof. intros H1 H2. inversion H1; subst; inversion H2; subst; simplify_eq; auto. Qed.

(** Every operation of [apply_change] acts on the view as [view_change] and keeps
    the list-level part of the invariant. *)
Lemma apply_change_view s ch new_epoch ms' inv' :
  snapshot_valid s → new_epoch = state_epoch s + 1 →
  apply_change s ch new_epoch = Ok (ms', inv') →
  view_change (members_map (state_members s)) (list_to_set (consumed_invitation_ids s))
    new_epoch ch (members_map ms') (list_to_set inv')
  ∧ NoDup (member_device_id <$> ms') ∧ NoDup inv'
  ∧ ∀ m, m ∈ ms' → member_joined_epoch m <= new_epoch.
Proof.
  intros [_ _ Hd Hi Hj _ _] He H.
  assert (Hj' : ∀ m, m ∈ state_members s → member_joined_epoch m <= new_epoch)
    by (intros m Hm; specialize (Hj m Hm); lia).
  destruct ch as [add|remove|change]; unfold apply_change in H; inv_ok; subst ms' inv'.
  - unfold state_member in Hr. destruct (find_member _ _) eqn:Ef; [done|]. bool_prop.
    pose proof (proj1 (find_member_None _ _) Ef) as Hfresh.
    set (new := Member_new (add_device_id add) (add_role add) new_epoch).
    assert (Hnd : NoDup (member_device_id <$> (new :: state_members s))).
    { simpl. apply NoDup_cons. split; [|done]. rewrite list_elem_of_fmap.
      intros (m & E & Hm). by apply (Hfresh m Hm). }
    assert (Hperm : state_members s ++ [new] ≡ₚ new :: state_members s)
      by (by rewrite Permutation_app_comm).
    repeat split.
    + rewrite <- (members_map_perm _ _ Hnd (symmetry Hperm)), list_to_set_app_L. simpl.
      rewrite (right_id_L ∅ (∪)). apply view_add; [|set_solver].
      by rewrite lookup_members_map_find, Ef.
    + by rewrite Hperm.
    + apply NoDup_app. split; [done|]. split; [set_solver|]. apply NoDup_singleton.
    + intros m. rewrite elem_of_app, list_elem_of_singleton. intros [?| ->]; [auto|simpl; lia].
  - destruct (position_view _ _ _ Hd Hr) as (m & Hm & E & Hperm & Hl & Hnd & ->).
    split; [apply view_remove; rewrite Hl; eauto|]. split; [done|]. split; [done|].
    intros m' Hm'. apply Hj'. rewrite Hperm. by right.
  - destruct (position_view _ _ _ Hd Hr) as (m & Hm & E & Hperm & Hl & Hnd & Hdel).
    set (upd := fun m => Member_new (member_device_id m) (change_role change)
                           (member_joined_epoch m)).
    pose proof (alter_perm upd _ _ _ Hm) as Halt.
    assert (Hnd' : NoDup (member_device_id <$> alter upd r (state_members s))).
    { rewrite Halt. simpl. rewrite Hperm in Hd. done. }
    rewrite (members_map_perm _ _ Hnd' Halt).
    change (members_map (upd m :: ?l)) with
      (<[member_device_id m := (change_role change, member_joined_epoch m)]> (members_map l)).
    rewrite Hdel, E, insert_delete_eq.
    split; [by eapply view_change_role|]. split; [done|]. split; [done|].
    intros m'. rewrite Halt, elem_of_cons. intros [->|Hm'].
    + simpl. apply Hj'. rewrite Hperm. by left.
    + apply Hj'. rewrite Hperm. by right.
Qed.

Lemma has_administrator_delete members i d :
  NoDup (member_device_id <$> members) → position members d = Some i →
  has_administrator (delete d (members_map members)) ↔
  ∃ a, a ∈ delete i members ∧ member_role a = Administrator.
Proof.
  intros Hnd Hp. destruct (position_view _ _ _ Hnd Hp) as (m & _ & _ & _ & _ & Hnd' & <-).
  by apply has_administrator_members.
Qed.

(** Conversely a change that leaves an administrator is never refused by the
    guards of [apply_change]. *)
Lemma view_change_applies s ch new_epoch m' c' :
  snapshot_valid s →
  view_change (members_map (state_members s)) (list_to_set (consumed_invitation_ids s))
    new_epoch ch m' c' →
  has_administrator m' → ∃ r, apply_change s ch new_epoch = Ok r.
Proof.
  intros [_ _ Hd _ _ Hadm _] Hch Hm'. inversion Hch as [add H1 H2|remove H1|change r j H1]; subst;
    unfold apply_change.
  - rewrite lookup_members_map_find, fmap_None in H1 by done.
    unfold state_member. rewrite H1. simpl. rewrite bool_decide_eq_false_2 by set_solver. eauto.
  - destruct (position_is_Some _ _ Hd H1) as [i Hi]. rewrite Hi. simpl.
    destruct (position_view _ _ _ Hd Hi) as (m & Hm & _).
    apply (has_administrator_delete _ _ _ Hd Hi) in Hm'.
    rewrite (proj2 (last_administrator_guard _ _ _ Hm Hadm) Hm'). simpl. eauto.
  - destruct (position_is_Some _ _ Hd (mk_is_Some _ _ H1)) as [i Hi]. rewrite Hi. simpl.
    destruct (position_view _ _ _ Hd Hi) as (m & Hm & _).
    case_bool_decide as Hrole; [|rewrite andb_false_r; simpl; eauto]. rewrite andb_true_r.
    rewrite (proj2 (last_administrator_guard _ _ _ Hm Hadm)); [simpl; eauto|].
    apply (has_administrator_delete _ _ _ Hd Hi).
    destruct Hm' as (d & joined & Hl). exists d, joined.
    destruct (decide (d = change_device_id change)) as [->|Hne].
    + rewrite lookup_insert_eq in Hl. naive_solver.
    + by rewrite lookup_insert_ne in Hl; [rewrite lookup_delete_ne|].
Qed.

(** ** Transitions *)

(** The head guards of [apply_membership_authorization]. *)
Lemma apply_authorization_Ok s sender auth new_epoch s' :
  apply_membership_authorization s sender auth new_epoch = Ok s' ↔
  auth_version auth = state_version s ∧ auth_conversation_id auth = state_conversation_id s
  ∧ auth_parent_epoch auth = state_epoch s ∧ new_epoch = state_epoch s + 1
  ∧ new_epoch <= U64_MAX
  ∧ member_role <$> state_member s sender = Some Administrator
  ∧ ∃ ms inv, apply_change s (auth_change auth) new_epoch = Ok (ms, inv)
    ∧ s' = mk_ConversationState (state_version s) (state_conversation_id s) new_epoch ms inv
             (state_request_service s)
    ∧ snapshot_valid s'.
Proof.
  unfold apply_membership_authorization. split.
  - intros H. inv_ok. bool_prop.
    repeat match goal with H : ¬ (_ ≠ _) |- _ => apply dec_stable in H end.
    destruct r4 as [ms inv]. apply new_with_request_service_Ok in H as [-> Hv].
    apply checked_add_Some in Hr2. do 3 (split; [done|]). split; [lia|]. split; [lia|].
    split; [done|]. eauto 6.
  - intros (-> & -> & -> & -> & Hmax & Hrole & ms & inv & Hch & Hs & Hv).
    do 2 pass_guard by (by apply bool_decide_neq_false).
    pass_guard by (by rewrite Z.eqb_refl).
    do 2 pass_guard by (apply bool_decide_neq_false; rewrite ?checked_add_Some; by try lia).
    rewrite Hch. simpl. by apply new_with_request_service_Ok.
Qed.

(** One admitted event: the authenticated sender, the authorization it signed and
    the epoch the MLS commit produced. *)
Record MembershipEvent := mk_MembershipEvent {
  event_sender : DeviceId;
  event_authorization : MembershipAuthorization;
  event_new_epoch : Z }.

(** A sequence of membership changes, each applied to the snapshot the previous one
    produced. *)
Fixpoint apply_history (s : ConversationState) (events : list MembershipEvent)
    : result KonclaveDomainError ConversationState :=
  match events with
  | [] => Ok s
  | e :: rest =>
      s' ← apply_membership_authorization s (event_sender e) (event_authorization e)
             (event_new_epoch e);
      apply_history s' rest
  end.

(** The invitations a history consumes. *)
Definition added_invitations (events : list MembershipEvent) : list InvitationId :=
  omap (fun e => match auth_change (event_authorization e) with
                 | Add add => Some (add_invitation_id add)
                 | Remove _ | ChangeRole _ => None
                 end) events.

Lemma apply_change_consumed s ch new_epoch ms inv :
  apply_change s ch new_epoch = Ok (ms, inv) →
  inv = consumed_invitation_ids s
        ++ (match ch with Add add => [add_invitation_id add] | _ => [] end).
Proof.
  destruct ch; unfold apply_change; intros H; inv_ok; subst; by rewrite ?app_nil_r.
Qed.

Lemma apply_history_consumed s events s' :
  apply_history s events = Ok s' →
  consumed_invitation_ids s' = consumed_invitation_ids s ++ added_invitations events.
Proof.
  revert s. induction events as [|e rest IH]; simpl; intros s H; inv_ok.
  - subst. by rewrite app_nil_r.
  - apply IH in H. rewrite H.
    apply apply_authorization_Ok in Hr as (_&_&_&_&_&_& ms & inv & Hch & -> & _). simpl.
    apply apply_change_consumed in Hch as ->. rewrite <- app_assoc. f_equal.
    by destruct (auth_change _).
Qed.

Lemma apply_history_valid s events s' :
  snapshot_valid s → apply_history s events = Ok s' →
  snapshot_valid s' ∧ state_version s' = state_version s
  ∧ state_conversation_id s' = state_conversation_id s
  ∧ state_request_service s' = state_request_service s
  ∧ state_epoch s' = state_epoch s + len events.
Proof.
  revert s. induction events as [|e rest IH]; simpl; intros s Hv H; inv_ok.
  - subst. unfold len. simpl. split; [done|]. repeat split. lia.
  - apply apply_authorization_Ok in Hr as (_&_&_& Hne &_&_& ms & inv & _ & -> & Hv').
    destruct (IH _ Hv' H) as (?&E1&E2&E3&E4). simpl in *.
    split; [done|]. do 3 (split; [done|]). rewrite E4, Hne. unfold len. simpl. lia.
Qed.

Lemma sender_role_view s sender :
  snapshot_valid s →
  member_role <$> state_member s sender = Some Administrator ↔
  ∃ joined, view_members (view_of s) !! sender = Some (Administrator, joined).
Proof.
  intros [_ _ Hd _ _ _ _]. simpl. rewrite lookup_members_map_find by done.
  unfold state_member. destruct (find_member _ _) as [[d r j]|]; simpl; naive_solver.
Qed.

Lemma view_ok_of_valid s : snapshot_valid s → view_ok (view_of s).
Proof. intros Hv. apply snapshot_valid_view; [apply Hv..|done]. Qed.

(** ** Theorems *)

(** C1: Membership transitions refine the abstract membership map.  For a valid
    snapshot, [apply_membership_authorization] returns a snapshot with view [v'] if and
    only if [view_step] permits the transition to [v']: the sender is a current
    administrator, version, conversation and parent epoch match, the epoch advances by
    exactly one without overflow, the map changes at the named device only, an add
    consumes a fresh invitation, and the result still has an administrator, respects
    the 128-member and 1024-invitation bounds and any request-service channel. *)
Theorem membership_refines_view s sender auth new_epoch v' (Hvalid : snapshot_valid s) :
  (∃ s', apply_membership_authorization s sender auth new_epoch = Ok s' ∧ view_of s' = v') ↔
  view_step (view_of s) sender auth new_epoch v'.
Proof.
  split.
  - intros (s' & H & <-).
    apply apply_authorization_Ok in H as (E1&E2&E3&E4&Hmax&Hrole& ms & inv & Hch & -> & Hv').
    apply sender_role_view in Hrole as [j Hj]; [|done].
    destruct (apply_change_view _ _ _ _ _ Hvalid E4 Hch) as (Hview & _).
    eapply (view_step_intro (view_of s)); eauto. by apply view_ok_of_valid in Hv'.
  - inversion 1 as [m' c' j E1 E2 E3 E4 Hmax Hrole Hview w Hok]; subst w. simpl in *.
    destruct (view_change_applies _ _ _ _ _ Hvalid Hview (ok_administrator _ Hok))
      as [[ms inv] Hch].
    destruct (apply_change_view _ _ _ _ _ Hvalid E4 Hch) as (Hview' & N1 & N2 & N3).
    destruct (view_change_deterministic _ _ _ _ _ _ _ _ Hview Hview') as [-> ->].
    exists (mk_ConversationState (state_version s) (state_conversation_id s) new_epoch ms inv
              (state_request_service s)).
    split; [|done]. apply apply_authorization_Ok. do 5 (split; [done|]).
    split; [apply sender_role_view; eauto|].
    exists ms, inv. split; [done|]. split; [done|]. by apply snapshot_valid_view.
Qed.

(** Every snapshot a conversation reaches is valid.  Starting from any snapshot
    the constructor accepts, after any sequence of accepted membership authorizations
    devices and consumed invitations are unique, there is an administrator, the bounds
    hold, no member joined in the future and the channel topology holds; version,
    conversation and channel never change and the epoch counts the changes. *)
Theorem membership_history_invariant v c e ms inv rs s0 events s
    (Hnew : new_with_request_service v c e ms inv rs = Ok s0)
    (Hrun : apply_history s0 events = Ok s) :
  snapshot_valid s ∧ state_version s = v ∧ state_conversation_id s = c
  ∧ state_request_service s = rs ∧ state_epoch s = e + len events.
Proof.
  apply new_with_request_service_Ok in Hnew as [-> Hv].
  by destruct (apply_history_valid _ _ _ Hv Hrun) as (?&?&?&?&?).
Qed.

(** An invitation admits at most one device.  Along any history no two accepted
    adds use the same invitation, none uses an invitation consumed before, and the
    number of accepted adds is bounded by what is left of the 1024 consumed
    invitations a conversation may ever hold. *)
Theorem invitation_single_use s0 events s
    (Hvalid : snapshot_valid s0) (Hrun : apply_history s0 events = Ok s) :
  NoDup (added_invitations events)
  ∧ (∀ i, i ∈ added_invitations events → i ∉ consumed_invitation_ids s0)
  ∧ len (added_invitations events)
    <= MAX_CONSUMED_INVITATIONS - len (consumed_invitation_ids s0).
Proof.
  destruct (apply_history_valid _ _ _ Hvalid Hrun) as (Hv & _).
  pose proof (apply_history_consumed _ _ _ Hrun) as Hc.
  pose proof (valid_unique_invitations _ Hv) as Hnd. rewrite Hc in Hnd.
  apply NoDup_app in Hnd as (_ & Hdis & Hnd). split; [done|]. split.
  - intros i Hi Hi'. by apply (Hdis i).
  - pose proof (valid_consumed_count _ Hv) as Hlen. rewrite Hc, len_app in Hlen. lia.
Qed.

(** A request-service channel stays private.  In a conversation with a channel
    only the operator can change membership, and the only changes that can succeed
    admit the requester as an ordinary member, remove the requester, or leave every
    role as it is. *)
Theorem request_service_channel_changes s sender auth new_epoch s' ch
    (Hvalid : snapshot_valid s) (Hch : state_request_service s = Some ch)
    (Happly : apply_membership_authorization s sender auth new_epoch = Ok s') :
  sender = operator_device_id ch
  ∧ match auth_change auth with
    | Add add => add_device_id add = requester_device_id ch ∧ add_role add = Member_role
    | Remove remove => remove_device_id remove = requester_device_id ch
    | ChangeRole _ => view_members (view_of s') = view_members (view_of s)
    end.
Proof.
  apply apply_authorization_Ok in Happly as (_&_&_&Hne&_&Hrole& ms & inv & Hc & -> & Hv').
  destruct (apply_change_view _ _ _ _ _ Hvalid Hne Hc) as (Hview & _).
  apply sender_role_view in Hrole as [j Hj]; [|done].
  apply view_ok_of_valid in Hvalid, Hv'.
  destruct (ok_channel _ Hvalid ch Hch) as (_ & _ & [j1 Hop] & Hothers).
  destruct (ok_channel _ Hv' ch Hch) as (_ & _ & [j2 Hop'] & Hothers').
  split. { apply dec_stable. intros Hs. by destruct (Hothers _ _ _ Hj Hs). }
  simpl in *. clear Hc Hv'. revert Hview Hop' Hothers'.
  generalize (members_map ms) (list_to_set (C := gset InvitationId) inv).
  intros m' c' [add H1 H2|rm [[r jr] H1]|chg r jr H1] Hop' Hothers'.
  - eapply (Hothers' _ _ _ (lookup_insert_eq _ _ _)). congruence.
  - apply (Hothers _ r jr); [done|]. intros Eo. by rewrite <- Eo, lookup_delete_eq in Hop'.
  - apply insert_id. rewrite H1. do 2 f_equal.
    destruct (decide (change_device_id chg = operator_device_id ch)) as [Eo|Hno].
    + rewrite <- Eo, lookup_insert_eq in Hop'. congruence.
    + destruct (Hothers _ _ _ H1 Hno) as [_ ->].
      by destruct (Hothers' _ _ _ (lookup_insert_eq _ _ _) Hno) as [_ ->].
Qed.

(** ** Concrete inputs *)

Definition example_alice : DeviceId := repeat_id KDeviceId x01.
Definition example_bob : DeviceId := repeat_id KDeviceId x02.
Definition example_conversation : ConversationId := repeat_id KConversationId x03.
Definition example_channel : RequestServiceChannel :=
  mk_RequestServiceChannel example_conversation example_alice example_bob.

(** A channel whose operator is its only member, and the authorization that admits
    the requester. *)
Definition example_state : ConversationState :=
  mk_ConversationState application_v1 example_conversation 4
    [Member_new example_alice Administrator 0] [] (Some example_channel).
Definition example_invite : MembershipAuthorization :=
  MembershipAuthorization_new application_v1 example_conversation 4
    (repeat_id KMembershipOperationId x09)
    (Add (AddMember_new example_bob Member_role (repeat_id KInvitationId x05)
            (repeat_id KCredentialBindingHash x06))).
Definition example_joined : ConversationState :=
  mk_ConversationState application_v1 example_conversation 5
    [Member_new example_alice Administrator 0; Member_new example_bob Member_role 5]
    [repeat_id KInvitationId x05] (Some example_channel).
Definition example_event : MembershipEvent :=
  mk_MembershipEvent example_alice example_invite 5.

Lemma example_state_valid : snapshot_valid example_state.
Proof.
  apply (new_with_request_service_Ok application_v1 example_conversation 4
           [Member_new example_alice Administrator 0] [] (Some example_channel)).
  vm_compute. reflexivity.
Qed.

Lemma membership_refines_view_witness :
  view_step (view_of example_state) example_alice example_invite 5 (view_of example_joined).
Proof.
  apply (membership_refines_view example_state example_alice example_invite 5
           (view_of example_joined) example_state_valid).
  exists example_joined. split; [vm_compute|]; reflexivity.
Defined.

Lemma membership_history_invariant_witness :
  snapshot_valid example_joined ∧ state_epoch example_joined = 4 + len [example_event].
Proof.
  destruct (membership_history_invariant application_v1 example_conversation 4
      [Member_new example_alice Administrator 0] [] (Some example_channel)
      example_state [example_event] example_joined) as (H & _ & _ & _ & E).
  - vm_compute. reflexivity.
  - vm_compute. reflexivity.
  - split; [exact H | exact E].
Defined.

Lemma invitation_single_use_witness :
  apply_history example_state [example_event] = Ok example_joined
  ∧ NoDup (added_invitations [example_event]).
Proof.
  assert (H : apply_history example_state [example_event] = Ok example_joined)
    by (vm_compute; reflexivity).
  split; [exact H|].
  exact (proj1 (invitation_single_use example_state [example_event] example_joined
                  example_state_valid H)).
Defined.

Lemma request_service_channel_changes_witness :
  apply_membership_authorization example_state example_alice example_invite 5
    = Ok example_joined
  ∧ example_alice = operator_device_id example_channel.
Proof.
  assert (H : apply_membership_authorization example_state example_alice example_invite 5
              = Ok example_joined) by (vm_compute; reflexivity).
  split; [exact H|].
  exact (proj1 (request_service_channel_changes example_state example_alice example_invite 5
                  example_joined example_channel example_state_valid eq_refl H)).
Defined.
