(* ===== verification/CollaborationPolicy.v ===== *)
(** * Collaboration policies

    [crates/Konclave.DomainCore/src/collaboration_policy.rs]: the bundle two endpoints
    agree on, and the pure evaluator that intersects an accepted bundle with the local
    user's authority, the proven harness controls and the local restrictions.

    The constructors sort their collections and refuse duplicates; the evaluator looks
    targets and claims up with a binary search that relies on that order.  The theorems
    state the decision in terms of the collections the caller handed in, so the sort,
    the duplicate check and the search are all part of what is proved. *)

From S2P Require Import Prelude Identifiers.
Open Scope Z_scope.

Definition COLLABORATION_POLICY_BUNDLE_MAJOR : Z := 1.
Definition COLLABORATION_POLICY_BUNDLE_MINOR : Z := 0.
Definition MAX_COLLABORATION_POLICY_BUNDLE_BYTES : Z := 64 * 1024.
Definition MAX_COLLABORATION_POLICY_NAME_BYTES : Z := 128.
Definition MAX_COLLABORATION_POLICY_GUIDANCE_BYTES : Z := 32 * 1024.
Definition MAX_COLLABORATION_POLICY_STATEMENTS : Z := 256.
Definition MAX_COLLABORATION_POLICY_STATEMENT_ID_BYTES : Z := 128.
Definition MAX_COLLABORATION_POLICY_ACTION_BYTES : Z := 256.
Definition MAX_COLLABORATION_POLICY_RESOURCE_BYTES : Z := 256.
Definition MAX_COLLABORATION_POLICY_HARNESS_CLAIMS : Z := 64.
Definition MAX_COLLABORATION_POLICY_HARNESS_CLAIM_BYTES : Z := 256.

(** ** Text *)

Definition is_policy_separator (b : byte) : bool :=
  bool_decide (b = "."%byte) || bool_decide (b = "/"%byte).

Definition canonical_identifier_segment (segment : text) : bool :=
  is_some_and (head segment) is_ascii_alphanumeric
  && is_some_and (last segment) is_ascii_alphanumeric
  && forallb (fun b => is_ascii_lowercase b || is_ascii_digit b
                       || bool_decide (b = "-"%byte) || bool_decide (b = "_"%byte)) segment.

Definition policy_bounded_text (value : text) (field : string) (maximum : Z)
    : result KonclaveDomainError text :=
  fail_if (len value =? 0) (EmptyText field);;
  fail_if (maximum <? len value) (TextTooLong field maximum (len value));;
  Ok value.

Definition canonical_identifier (value : text) (field : string) (maximum : Z)
    : result KonclaveDomainError text :=
  value ← policy_bounded_text value field maximum;
  fail_if (negb (forallb is_ascii value)
           || existsb (fun segment => negb (canonical_identifier_segment segment))
                (split_at is_policy_separator value))
    (NonCanonicalText field);;
  Ok value.

Definition canonical_namespaced_identifier (value : text) (field : string) (maximum : Z)
    : result KonclaveDomainError text :=
  value ← canonical_identifier value field maximum;
  fail_if (negb (existsb (fun b => bool_decide (b = "."%byte)) value)
           && negb (existsb (fun b => bool_decide (b = "/"%byte)) value))
    (NonCanonicalText field);;
  Ok value.

Definition require_collection_bound (actual maximum : Z) (field : string)
    : result KonclaveDomainError unit :=
  fail_if (maximum <? actual) (OutOfRange field 0 maximum actual).

Definition require_optional_positive (value : option Z) (field : string)
    : result KonclaveDomainError unit :=
  fail_if (bool_decide (value = Some 0)) (ZeroValue field).

Definition validate_collaboration_policy_name (value : text) : result KonclaveDomainError unit :=
  canonical_identifier value "collaboration_policy_name" MAX_COLLABORATION_POLICY_NAME_BYTES;;
  Ok ().

(** ** Proposals, responses and revocations *)

Record CollaborationPolicyProposal := mk_CollaborationPolicyProposal {
  proposal_id : CollaborationPolicyProposalId;
  proposal_policy_digest : CollaborationPolicyDigest;
  canonical_bundle : bytes;
  replaces_policy_digest : option CollaborationPolicyDigest }.

Definition CollaborationPolicyProposal_new (proposal_id : CollaborationPolicyProposalId)
    (policy_digest : CollaborationPolicyDigest) (canonical_bundle : bytes)
    (replaces_policy_digest : option CollaborationPolicyDigest)
    : result KonclaveDomainError CollaborationPolicyProposal :=
  fail_if ((len canonical_bundle =? 0)
           || (MAX_COLLABORATION_POLICY_BUNDLE_BYTES <? len canonical_bundle))
    (OutOfRange "collaboration_policy_bundle" 1 MAX_COLLABORATION_POLICY_BUNDLE_BYTES
       (len canonical_bundle));;
  Ok (mk_CollaborationPolicyProposal proposal_id policy_digest canonical_bundle
        replaces_policy_digest).

Inductive CollaborationPolicyResponseOutcome := PolicyAccepted | PolicyRejected.

Record CollaborationPolicyResponse := mk_CollaborationPolicyResponse {
  response_proposal_id : CollaborationPolicyProposalId;
  response_policy_digest : CollaborationPolicyDigest;
  response_outcome : CollaborationPolicyResponseOutcome }.

Record CollaborationPolicyRevocation := mk_CollaborationPolicyRevocation {
  revoked_policy_digest : CollaborationPolicyDigest }.

(** ** Statements, limits and bundles *)

Inductive CollaborationPolicyEffect := Effect_Allow | Effect_Deny | Effect_RequireLocalApproval.
Global Instance CollaborationPolicyEffect_eq_dec : EqDecision CollaborationPolicyEffect.
Proof. solve_decision. Defined.

Record CollaborationPolicyStatement := mk_CollaborationPolicyStatement {
  statement_id : text;
  statement_effect : CollaborationPolicyEffect;
  statement_action : text;
  statement_resource : option text }.

Definition policy_resource (resource : option text)
    : result KonclaveDomainError (option text) :=
  opt_traverse (fun value =>
      canonical_namespaced_identifier value "collaboration_policy_resource"
        MAX_COLLABORATION_POLICY_RESOURCE_BYTES) resource.

Definition CollaborationPolicyStatement_new (statement_id : text)
    (effect : CollaborationPolicyEffect) (action : text) (resource : option text)
    : result KonclaveDomainError CollaborationPolicyStatement :=
  statement_id ← canonical_identifier statement_id "collaboration_policy_statement_id"
                   MAX_COLLABORATION_POLICY_STATEMENT_ID_BYTES;
  action ← canonical_namespaced_identifier action "collaboration_policy_action"
             MAX_COLLABORATION_POLICY_ACTION_BYTES;
  resource ← policy_resource resource;
  Ok (mk_CollaborationPolicyStatement statement_id effect action resource).

Record CollaborationPolicyLimits := mk_CollaborationPolicyLimits {
  duration_milliseconds : option Z;
  limit_turns : option Z;
  limit_tokens : option Z;
  limit_concurrent_requests : option Z }.

Definition CollaborationPolicyLimits_new (duration_milliseconds turns tokens
    concurrent_requests : option Z) : result KonclaveDomainError CollaborationPolicyLimits :=
  require_optional_positive duration_milliseconds "collaboration_policy_duration";;
  require_optional_positive turns "collaboration_policy_turns";;
  require_optional_positive tokens "collaboration_policy_tokens";;
  require_optional_positive concurrent_requests "collaboration_policy_concurrent_requests";;
  Ok (mk_CollaborationPolicyLimits duration_milliseconds turns tokens concurrent_requests).

Record CollaborationPolicyBundle := mk_CollaborationPolicyBundle {
  bundle_version : ProtocolVersion;
  bundle_name : text;
  bundle_guidance : option text;
  bundle_statements : list CollaborationPolicyStatement;
  required_harness_claims : list text;
  bundle_limits : CollaborationPolicyLimits }.

(** The bound, canonical form, sort and duplicate check both constructors apply to
    their harness claims; they differ in the field the bound reports. *)
Definition canonical_harness_claims (claims : list text) (bound_field : string)
    : result KonclaveDomainError (list text) :=
  require_collection_bound (len claims) MAX_COLLABORATION_POLICY_HARNESS_CLAIMS bound_field;;
  claims ← traverse (fun claim =>
      canonical_namespaced_identifier claim "collaboration_policy_harness_claim"
        MAX_COLLABORATION_POLICY_HARNESS_CLAIM_BYTES) claims;
  let claims := sort_by id bytes_compare claims in
  fail_if (adjacent_any (same_key id) claims)
    (DuplicateIdentifier "collaboration_policy_harness_claim");;
  Ok claims.

Definition CollaborationPolicyBundle_new (version : ProtocolVersion) (name : text)
    (guidance : option text) (statements : list CollaborationPolicyStatement)
    (required_harness_claims : list text) (limits : CollaborationPolicyLimits)
    : result KonclaveDomainError CollaborationPolicyBundle :=
  validate_collaboration_policy_name name;;
  guidance ← opt_traverse (fun value =>
      policy_bounded_text value "collaboration_policy_guidance"
        MAX_COLLABORATION_POLICY_GUIDANCE_BYTES) guidance;
  require_collection_bound (len statements) MAX_COLLABORATION_POLICY_STATEMENTS
    "collaboration_policy_statements";;
  let statements := sort_by statement_id bytes_compare statements in
  fail_if (adjacent_any (same_key statement_id) statements)
    (DuplicateIdentifier "collaboration_policy_statement_id");;
  required_harness_claims ←
    canonical_harness_claims required_harness_claims "collaboration_policy_harness_claims";
  Ok (mk_CollaborationPolicyBundle version name guidance statements required_harness_claims
        limits).

(** ** Evaluation *)

Record CollaborationPolicyTarget := mk_CollaborationPolicyTarget {
  target_action : text;
  target_resource : option text }.
Global Instance CollaborationPolicyTarget_eq_dec : EqDecision CollaborationPolicyTarget.
Proof. solve_decision. Defined.

Definition CollaborationPolicyTarget_new (action : text) (resource : option text)
    : result KonclaveDomainError CollaborationPolicyTarget :=
  action ← canonical_namespaced_identifier action "collaboration_policy_action"
             MAX_COLLABORATION_POLICY_ACTION_BYTES;
  resource ← policy_resource resource;
  Ok (mk_CollaborationPolicyTarget action resource).

Record CollaborationPolicyCost := mk_CollaborationPolicyCost {
  cost_turns : Z; cost_tokens : Z; cost_concurrent_requests : Z }.

Record CollaborationPolicyUsage := mk_CollaborationPolicyUsage {
  elapsed_milliseconds : Z; usage_turns : Z; usage_tokens : Z; usage_concurrent_requests : Z }.

Record CollaborationPolicyEvaluationRequest := mk_CollaborationPolicyEvaluationRequest {
  request_target : CollaborationPolicyTarget;
  request_cost : CollaborationPolicyCost;
  fresh_local_approval_proven : bool }.

Record CollaborationPolicyEvaluationContext := mk_CollaborationPolicyEvaluationContext {
  local_user_authority : list CollaborationPolicyTarget;
  proven_harness_claims : list text;
  proven_harness_controls : list CollaborationPolicyTarget;
  local_denials : list CollaborationPolicyTarget;
  local_approval_requirements : list CollaborationPolicyTarget }.

(** The sort key of a target: [left.action.cmp(..).then_with(|| left.resource.cmp(..))]. *)
Definition target_key (t : CollaborationPolicyTarget) : text * option text :=
  (target_action t, target_resource t).
Definition target_key_compare : text * option text -> text * option text -> comparison :=
  pair_compare bytes_compare (option_compare bytes_compare).

Definition canonicalize_targets (targets : list CollaborationPolicyTarget) (field : string)
    : result KonclaveDomainError (list CollaborationPolicyTarget) :=
  require_collection_bound (len targets) MAX_COLLABORATION_POLICY_STATEMENTS field;;
  let targets := sort_by target_key target_key_compare targets in
  fail_if (adjacent_any (fun left right => bool_decide (left = right)) targets)
    (DuplicateIdentifier field);;
  Ok targets.

Definition CollaborationPolicyEvaluationContext_new
    (local_user_authority : list CollaborationPolicyTarget) (proven_harness_claims : list text)
    (proven_harness_controls local_denials local_approval_requirements
       : list CollaborationPolicyTarget)
    : result KonclaveDomainError CollaborationPolicyEvaluationContext :=
  local_user_authority ←
    canonicalize_targets local_user_authority "collaboration_policy_local_authority";
  proven_harness_controls ←
    canonicalize_targets proven_harness_controls "collaboration_policy_harness_controls";
  local_denials ← canonicalize_targets local_denials "collaboration_policy_local_denials";
  local_approval_requirements ←
    canonicalize_targets local_approval_requirements
      "collaboration_policy_local_approval_requirements";
  proven_harness_claims ←
    canonical_harness_claims proven_harness_claims "collaboration_policy_proven_harness_claims";
  Ok (mk_CollaborationPolicyEvaluationContext local_user_authority proven_harness_claims
        proven_harness_controls local_denials local_approval_requirements).

Inductive CollaborationPolicyDenialReason :=
| NoMatchingStatement | PolicyDenied | LocalAuthorityMissing | HarnessClaimMissing
| HarnessControlMissing | LocalRestrictionDenied | DurationLimitExceeded | TurnLimitExceeded
| TokenLimitExceeded | ConcurrencyLimitExceeded.

Definition denial_code (reason : CollaborationPolicyDenialReason) : string :=
  match reason with
  | NoMatchingStatement => "no_matching_statement"
  | PolicyDenied => "policy_denied"
  | LocalAuthorityMissing => "local_authority_missing"
  | HarnessClaimMissing => "harness_claim_missing"
  | HarnessControlMissing => "harness_control_missing"
  | LocalRestrictionDenied => "local_restriction_denied"
  | DurationLimitExceeded => "duration_limit_exceeded"
  | TurnLimitExceeded => "turn_limit_exceeded"
  | TokenLimitExceeded => "token_limit_exceeded"
  | ConcurrencyLimitExceeded => "concurrency_limit_exceeded"
  end.

Inductive CollaborationPolicyDecision :=
| Decision_Allow
| Decision_RequireLocalApproval
| Decision_Deny (reason : CollaborationPolicyDenialReason).

Definition target_in (targets : list CollaborationPolicyTarget)
    (target : CollaborationPolicyTarget) : bool :=
  binary_search_by (fun candidate =>
      then_with (bytes_compare (target_action candidate) (target_action target))
        (option_compare bytes_compare (target_resource candidate) (target_resource target)))
    targets.

Definition stricter_effect (current : option CollaborationPolicyEffect)
    (candidate : CollaborationPolicyEffect) : CollaborationPolicyEffect :=
  match current, candidate with
  | Some Effect_Deny, _ | _, Effect_Deny => Effect_Deny
  | Some Effect_RequireLocalApproval, _ | _, Effect_RequireLocalApproval =>
      Effect_RequireLocalApproval
  | _, _ => Effect_Allow
  end.

Definition exceeds_u64 (current requested : Z) (limit : option Z) : bool :=
  is_some_and limit (fun limit =>
    is_none_or (checked_add U64_MAX current requested) (fun total => limit <? total)).

Definition exceeds_u32 (current requested : Z) (limit : option Z) : bool :=
  is_some_and limit (fun limit =>
    is_none_or (checked_add U32_MAX current requested) (fun total => limit <? total)).

Definition exceeded_limit (limits : CollaborationPolicyLimits) (usage : CollaborationPolicyUsage)
    (cost : CollaborationPolicyCost) : option CollaborationPolicyDenialReason :=
  if is_some_and (duration_milliseconds limits) (fun limit => limit <=? elapsed_milliseconds usage)
  then Some DurationLimitExceeded
  else if exceeds_u64 (usage_turns usage) (cost_turns cost) (limit_turns limits)
  then Some TurnLimitExceeded
  else if exceeds_u64 (usage_tokens usage) (cost_tokens cost) (limit_tokens limits)
  then Some TokenLimitExceeded
  else if exceeds_u32 (usage_concurrent_requests usage) (cost_concurrent_requests cost)
            (limit_concurrent_requests limits)
  then Some ConcurrencyLimitExceeded
  else None.

Definition statement_matches (target : CollaborationPolicyTarget)
    (statement : CollaborationPolicyStatement) : bool :=
  bool_decide (statement_action statement = target_action target)
  && bool_decide (statement_resource statement = target_resource target).

(** The [for statement in bundle.statements().iter().filter(..)] loop. *)
Definition matching_effect (statements : list CollaborationPolicyStatement)
    (target : CollaborationPolicyTarget) : option CollaborationPolicyEffect :=
  fold_left (fun effect statement =>
      if statement_matches target statement
      then Some (stricter_effect effect (statement_effect statement)) else effect)
    statements None.

Definition evaluate_collaboration_policy (bundle : CollaborationPolicyBundle)
    (context : CollaborationPolicyEvaluationContext)
    (request : CollaborationPolicyEvaluationRequest) (usage : CollaborationPolicyUsage)
    : CollaborationPolicyDecision :=
  let target := request_target request in
  match matching_effect (bundle_statements bundle) target with
  | None => Decision_Deny NoMatchingStatement
  | Some effect =>
      if bool_decide (effect = Effect_Deny) then Decision_Deny PolicyDenied
      else if target_in (local_denials context) target then Decision_Deny LocalRestrictionDenied
      else if negb (target_in (local_user_authority context) target)
      then Decision_Deny LocalAuthorityMissing
      else if existsb (fun claim =>
                negb (binary_search_by (fun candidate => bytes_compare candidate claim)
                        (proven_harness_claims context)))
                (required_harness_claims bundle)
      then Decision_Deny HarnessClaimMissing
      else if negb (target_in (proven_harness_controls context) target)
      then Decision_Deny HarnessControlMissing
      else match exceeded_limit (bundle_limits bundle) usage (request_cost request) with
           | Some reason => Decision_Deny reason
           | None =>
               if negb (fresh_local_approval_proven request)
                  && (bool_decide (effect = Effect_RequireLocalApproval)
                      || target_in (local_approval_requirements context) target)
               then Decision_RequireLocalApproval
               else Decision_Allow
           end
  end.

(** ** Canonical collections *)

Global Instance target_key_compare_total : TotalCompare target_key_compare.
Proof. apply _. Qed.

Global Instance target_key_inj : Inj (=) (=) target_key.
Proof. intros [??] [??] [= -> ->]. done. Qed.

(** An accepted collection is the caller's, strictly sorted. *)
Lemma canonicalize_targets_Ok targets field targets' :
  canonicalize_targets targets field = Ok targets' →
  targets' ≡ₚ targets ∧ StronglySorted (key_le target_key target_key_compare) targets'.
Proof.
  unfold canonicalize_targets. intros H. inv_ok. subst.
  split; [apply sort_by_perm|]. apply sort_by_sorted, _.
Qed.

Lemma canonical_namespaced_identifier_Ok value field maximum value' :
  canonical_namespaced_identifier value field maximum = Ok value' → value' = value.
Proof.
  unfold canonical_namespaced_identifier, canonical_identifier, policy_bounded_text.
  intros H. inv_ok. by subst.
Qed.

Lemma canonical_harness_claims_Ok claims field claims' :
  canonical_harness_claims claims field = Ok claims' ↔
  claims' = sort_by id bytes_compare claims
  ∧ len claims <= MAX_COLLABORATION_POLICY_HARNESS_CLAIMS
  ∧ (∀ c, c ∈ claims →
       canonical_namespaced_identifier c "collaboration_policy_harness_claim"
         MAX_COLLABORATION_POLICY_HARNESS_CLAIM_BYTES = Ok c)
  ∧ NoDup claims.
Proof.
  unfold canonical_harness_claims, require_collection_bound.
  pose proof (sort_by_duplicates id bytes_compare claims) as Hdup. rewrite list_fmap_id in Hdup.
  assert (∀ c c', canonical_namespaced_identifier c "collaboration_policy_harness_claim"
    MAX_COLLABORATION_POLICY_HARNESS_CLAIM_BYTES = Ok c' → c' = c) as Hid
    by (intros; by eapply canonical_namespaced_identifier_Ok).
  split.
  - intros H. inv_ok. apply (traverse_same _ _ _ Hid) in Hr0 as [-> Hc]. apply Hdup in Hr1.
    bool_prop. done.
  - intros (-> & Hlen & Hc & Hnd). pass_guard by (by apply Z.ltb_ge).
    rewrite (proj2 (traverse_same _ claims claims Hid)) by done. cbn [mbind result_bind].
    pass_guard by (by apply Hdup). done.
Qed.

Lemma target_in_spec targets target :
  StronglySorted (key_le target_key target_key_compare) targets →
  target_in targets target = true ↔ target ∈ targets.
Proof.
  intros Hs. unfold target_in.
  etransitivity; [apply (binary_search_by_spec target_key target_key_compare (target_key target));
                  exact Hs|].
  by rewrite (list_elem_of_fmap_inj target_key).
Qed.

Lemma claim_in_spec claims claim :
  StronglySorted (key_le id bytes_compare) claims →
  binary_search_by (fun candidate => bytes_compare candidate claim) claims = true
  ↔ claim ∈ claims.
Proof.
  intros Hs. etransitivity; [apply (binary_search_by_spec id bytes_compare claim); exact Hs|].
  by rewrite list_fmap_id.
Qed.

(** ** The decision as a specification *)

(** Some statement on exactly this target has the effect. *)
Definition policy_says (statements : list CollaborationPolicyStatement)
    (target : CollaborationPolicyTarget) (effect : CollaborationPolicyEffect) : Prop :=
  ∃ s, s ∈ statements ∧ statement_action s = target_action target
       ∧ statement_resource s = target_resource target ∧ statement_effect s = effect.

Definition within (used requested : Z) (limit : option Z) : Prop :=
  ∀ l, limit = Some l → used + requested <= l.

Definition within_limits (limits : CollaborationPolicyLimits) (usage : CollaborationPolicyUsage)
    (cost : CollaborationPolicyCost) : Prop :=
  (∀ l, duration_milliseconds limits = Some l → elapsed_milliseconds usage < l)
  ∧ within (usage_turns usage) (cost_turns cost) (limit_turns limits)
  ∧ within (usage_tokens usage) (cost_tokens cost) (limit_tokens limits)
  ∧ within (usage_concurrent_requests usage) (cost_concurrent_requests cost)
      (limit_concurrent_requests limits).

(** The widths of the limit fields. *)
Definition limits_typed (limits : CollaborationPolicyLimits) : Prop :=
  (∀ l, limit_turns limits = Some l → is_u64 l)
  ∧ (∀ l, limit_tokens limits = Some l → is_u64 l)
  ∧ (∀ l, limit_concurrent_requests limits = Some l → is_u32 l).

Lemma exceeds_spec max used requested limit :
  (∀ l, limit = Some l → 0 <= l <= max) →
  is_some_and limit (fun limit =>
    is_none_or (checked_add max used requested) (fun total => limit <? total)) = false
  ↔ within used requested limit.
Proof.
  intros Hl. unfold within. destruct limit as [l|]; simpl; [|naive_solver].
  specialize (Hl l eq_refl). unfold checked_add.
  destruct (Z.leb_spec (used + requested) max); simpl.
  - rewrite Z.ltb_ge. naive_solver.
  - split; [done|]. intros Hw. specialize (Hw l eq_refl). lia.
Qed.

Lemma exceeded_limit_spec limits usage cost :
  limits_typed limits → exceeded_limit limits usage cost = None ↔ within_limits limits usage cost.
Proof.
  intros (H1 & H2 & H3). unfold exceeded_limit, within_limits.
  rewrite <- (exceeds_spec _ _ _ _ H1), <- (exceeds_spec _ _ _ _ H2), <- (exceeds_spec _ _ _ _ H3).
  fold (exceeds_u64 (usage_turns usage) (cost_turns cost) (limit_turns limits)).
  fold (exceeds_u64 (usage_tokens usage) (cost_tokens cost) (limit_tokens limits)).
  fold (exceeds_u32 (usage_concurrent_requests usage) (cost_concurrent_requests cost)
          (limit_concurrent_requests limits)).
  assert (is_some_and (duration_milliseconds limits)
            (fun limit => limit <=? elapsed_milliseconds usage) = false
          ↔ ∀ l, duration_milliseconds limits = Some l → elapsed_milliseconds usage < l) as <-.
  { destruct (duration_milliseconds limits); simpl; [rewrite Z.leb_gt|]; naive_solver. }
  destruct (is_some_and _ _), (exceeds_u64 _ _ (limit_turns _)), (exceeds_u64 _ _ (limit_tokens _)),
    (exceeds_u32 _ _ _); naive_solver.
Qed.

(** The loop keeps the strictest effect of the statements seen. *)
Lemma matching_effect_app statements s target :
  matching_effect (statements ++ [s]) target =
  if statement_matches target s
  then Some (stricter_effect (matching_effect statements target) (statement_effect s))
  else matching_effect statements target.
Proof. unfold matching_effect. by rewrite fold_left_app. Qed.

Lemma policy_says_app statements s target effect :
  policy_says (statements ++ [s]) target effect ↔
  policy_says statements target effect
  ∨ (statement_matches target s = true ∧ statement_effect s = effect).
Proof.
  unfold policy_says, statement_matches. setoid_rewrite elem_of_app.
  setoid_rewrite list_elem_of_singleton. rewrite andb_true_iff, !bool_decide_eq_true. split.
  - intros (s' & [Hs| ->] & Ha & Hr & He); [left; by exists s'|by right].
  - intros [(s' & Hs & Ha & Hr & He)|[[Ha Hr] He]]; [exists s'|exists s]; eauto 10.
Qed.

Lemma matching_effect_spec statements target :
  match matching_effect statements target with
  | None => ∀ e, ¬ policy_says statements target e
  | Some Effect_Deny => policy_says statements target Effect_Deny
  | Some Effect_RequireLocalApproval =>
      policy_says statements target Effect_RequireLocalApproval
      ∧ ¬ policy_says statements target Effect_Deny
  | Some Effect_Allow =>
      policy_says statements target Effect_Allow
      ∧ ¬ policy_says statements target Effect_RequireLocalApproval
      ∧ ¬ policy_says statements target Effect_Deny
  end.
Proof.
  induction statements as [|s statements IH] using rev_ind.
  { simpl. intros e (s & Hs & _). by apply elem_of_nil in Hs. }
  rewrite matching_effect_app.
  pose proof (fun e => policy_says_app statements s target e) as Happ.
  destruct (statement_matches target s).
  - destruct (statement_effect s) eqn:E, (matching_effect statements target) as [[]|]; simpl;
      rewrite ?Happ; naive_solver.
  - destruct (matching_effect statements target) as [[]|]; rewrite ?Happ; [naive_solver..|].
    intros e. rewrite Happ. naive_solver.
Qed.

Global Instance policy_says_proper target effect :
  Proper ((≡ₚ) ==> iff) (λ statements, policy_says statements target effect).
Proof. intros l k Hp. unfold policy_says. by setoid_rewrite Hp. Qed.

(** Everything but local approval is in place. *)
Definition policy_opens (bundle : CollaborationPolicyBundle)
    (context : CollaborationPolicyEvaluationContext)
    (request : CollaborationPolicyEvaluationRequest) (usage : CollaborationPolicyUsage) : Prop :=
  let target := request_target request in
  (∃ effect, policy_says (bundle_statements bundle) target effect)
  ∧ ¬ (policy_says (bundle_statements bundle) target Effect_Deny)
  ∧ ¬ (target ∈ local_denials context)
  ∧ target ∈ local_user_authority context
  ∧ (∀ claim, claim ∈ required_harness_claims bundle → claim ∈ proven_harness_claims context)
  ∧ target ∈ proven_harness_controls context
  ∧ within_limits (bundle_limits bundle) usage (request_cost request).

(** The policy or the local user asks for approval of the target. *)
Definition approval_required (bundle : CollaborationPolicyBundle)
    (context : CollaborationPolicyEvaluationContext)
    (request : CollaborationPolicyEvaluationRequest) : Prop :=
  policy_says (bundle_statements bundle) (request_target request) Effect_RequireLocalApproval
  ∨ request_target request ∈ local_approval_requirements context.

(** What [CollaborationPolicyEvaluationContext_new] establishes. *)
Record context_ok (context : CollaborationPolicyEvaluationContext) : Prop := {
  ctx_authority : StronglySorted (key_le target_key target_key_compare)
                    (local_user_authority context);
  ctx_controls : StronglySorted (key_le target_key target_key_compare)
                   (proven_harness_controls context);
  ctx_denials : StronglySorted (key_le target_key target_key_compare) (local_denials context);
  ctx_approvals : StronglySorted (key_le target_key target_key_compare)
                    (local_approval_requirements context);
  ctx_claims : StronglySorted (key_le id bytes_compare) (proven_harness_claims context) }.

Lemma claims_missing_spec required proven :
  StronglySorted (key_le id bytes_compare) proven →
  existsb (fun claim => negb (binary_search_by (fun c => bytes_compare c claim) proven)) required
    = false
  ↔ ∀ claim, claim ∈ required → claim ∈ proven.
Proof.
  intros Hs. induction required as [|c required IH]; simpl.
  { split; [|done]. intros _ c Hc. by apply elem_of_nil in Hc. }
  rewrite orb_false_iff, negb_false_iff, claim_in_spec, IH by done.
  setoid_rewrite elem_of_cons. naive_solver.
Qed.

(** The decision, for a context in canonical order. *)
Lemma evaluate_cases bundle context request usage :
  context_ok context → limits_typed (bundle_limits bundle) →
  match evaluate_collaboration_policy bundle context request usage with
  | Decision_Allow =>
      policy_opens bundle context request usage
      ∧ (fresh_local_approval_proven request = true ∨ ¬ approval_required bundle context request)
  | Decision_RequireLocalApproval =>
      policy_opens bundle context request usage
      ∧ fresh_local_approval_proven request = false ∧ approval_required bundle context request
  | Decision_Deny _ => ¬ policy_opens bundle context request usage
  end.
Proof.
  intros Hctx Hlim. unfold evaluate_collaboration_policy, policy_opens, approval_required. cbv zeta.
  pose proof (matching_effect_spec (bundle_statements bundle) (request_target request)) as Heff.
  pose proof (exceeded_limit_spec (bundle_limits bundle) usage (request_cost request) Hlim) as Hex.
  pose proof (claims_missing_spec (required_harness_claims bundle) _ (ctx_claims _ Hctx)) as Hcl.
  pose proof (target_in_spec _ (request_target request) (ctx_denials _ Hctx)) as Hden.
  pose proof (target_in_spec _ (request_target request) (ctx_authority _ Hctx)) as Hauth.
  pose proof (target_in_spec _ (request_target request) (ctx_controls _ Hctx)) as Hctl.
  pose proof (target_in_spec _ (request_target request) (ctx_approvals _ Hctx)) as Happ.
  destruct (matching_effect _ _) as [effect|]; [|naive_solver].
  destruct (bool_decide_reflect (effect = Effect_Deny)) as [->|]; [naive_solver|].
  destruct (target_in (local_denials _) _); [naive_solver|].
  destruct (target_in (local_user_authority _) _); [|naive_solver].
  destruct (existsb _ _); [naive_solver|].
  destruct (target_in (proven_harness_controls _) _); [|naive_solver].
  destruct (exceeded_limit _ _ _); [naive_solver|]. simpl.
  destruct (fresh_local_approval_proven request), effect,
    (target_in (local_approval_requirements _) _); simpl; naive_solver.
Qed.

Lemma context_new_Ok authority proven controls denials approvals context :
  CollaborationPolicyEvaluationContext_new authority proven controls denials approvals
    = Ok context →
  context_ok context
  ∧ local_user_authority context ≡ₚ authority ∧ proven_harness_claims context ≡ₚ proven
  ∧ proven_harness_controls context ≡ₚ controls ∧ local_denials context ≡ₚ denials
  ∧ local_approval_requirements context ≡ₚ approvals.
Proof.
  unfold CollaborationPolicyEvaluationContext_new. intros H. inv_ok.
  apply canonicalize_targets_Ok in Hr as [P1 S1], Hr0 as [P2 S2], Hr1 as [P3 S3], Hr2 as [P4 S4].
  apply canonical_harness_claims_Ok in Hr3 as (-> & _). subst context.
  split; [constructor; simpl; try done; apply sort_by_sorted, _|]. simpl.
  rewrite sort_by_perm. done.
Qed.

Lemma bundle_new_Ok version name guidance statements claims limits bundle :
  CollaborationPolicyBundle_new version name guidance statements claims limits = Ok bundle ↔
  bundle = mk_CollaborationPolicyBundle version name guidance
             (sort_by statement_id bytes_compare statements) (sort_by id bytes_compare claims) limits
  ∧ is_ok (validate_collaboration_policy_name name) = true
  ∧ (∀ g, guidance = Some g → 0 < len g <= MAX_COLLABORATION_POLICY_GUIDANCE_BYTES)
  ∧ len statements <= MAX_COLLABORATION_POLICY_STATEMENTS
  ∧ NoDup (statement_id <$> statements)
  ∧ len claims <= MAX_COLLABORATION_POLICY_HARNESS_CLAIMS
  ∧ (∀ c, c ∈ claims →
       canonical_namespaced_identifier c "collaboration_policy_harness_claim"
         MAX_COLLABORATION_POLICY_HARNESS_CLAIM_BYTES = Ok c)
  ∧ NoDup claims.
Proof.
  unfold CollaborationPolicyBundle_new, require_collection_bound.
  pose proof (sort_by_duplicates statement_id bytes_compare statements) as Hdup. split.
  - intros H. inv_ok. apply canonical_harness_claims_Ok in Hr3 as (-> & Hlen & Hc & Hnd).
    apply Hdup in Hr2. bool_prop.
    apply opt_traverse_Ok in Hr0 as [[-> ->]|(g & g' & -> & -> & Hg)].
    + rewrite Hr. subst. split; [done|]. split; [done|]. split; [done|]. done.
    + unfold policy_bounded_text in Hg. inv_ok. bool_prop. subst. rewrite Hr.
      pose proof (len_nonneg g').
      split; [done|]. split; [done|]. split; [intros ? [= <-]; lia|]. done.
  - intros (-> & Hname & Hg & Hls & Hnd & Hclaims).
    destruct (validate_collaboration_policy_name name); [|done]. cbn [mbind result_bind].
    assert (opt_traverse (fun value => policy_bounded_text value "collaboration_policy_guidance"
        MAX_COLLABORATION_POLICY_GUIDANCE_BYTES) guidance = Ok guidance) as ->.
    { destruct guidance as [g|]; [|done]. specialize (Hg g eq_refl). simpl.
      unfold policy_bounded_text. pass_guard by lia. pass_guard by lia. done. }
    cbn [mbind result_bind]. pass_guard by lia. pass_guard by (by apply Hdup).
    by rewrite (proj2 (canonical_harness_claims_Ok claims _ _) (conj eq_refl Hclaims)).
Qed.

(** Sorting the collections does not change what the specification says. *)
Lemma policy_opens_perm version name guidance statements statements' claims claims' limits
    authority authority' proven proven' controls controls' denials denials' approvals approvals'
    request usage :
  statements ≡ₚ statements' → claims ≡ₚ claims' → authority ≡ₚ authority' → proven ≡ₚ proven' →
  controls ≡ₚ controls' → denials ≡ₚ denials' →
  policy_opens (mk_CollaborationPolicyBundle version name guidance statements claims limits)
    (mk_CollaborationPolicyEvaluationContext authority proven controls denials approvals)
    request usage
  ↔ policy_opens (mk_CollaborationPolicyBundle version name guidance statements' claims' limits)
      (mk_CollaborationPolicyEvaluationContext authority' proven' controls' denials' approvals')
      request usage.
Proof.
  intros Hs Hc Ha Hp Hk Hd. unfold policy_opens, policy_says. simpl.
  setoid_rewrite Hs. setoid_rewrite Hc. setoid_rewrite Hp. rewrite Ha, Hk, Hd. done.
Qed.

Lemma approval_required_perm bundle bundle' context context' request :
  bundle_statements bundle ≡ₚ bundle_statements bundle' →
  local_approval_requirements context ≡ₚ local_approval_requirements context' →
  approval_required bundle context request ↔ approval_required bundle' context' request.
Proof.
  intros Hs Ha. unfold approval_required, policy_says. setoid_rewrite Hs. by rewrite Ha.
Qed.

(** C18: The evaluator decides exactly the intersection the policy describes, in terms of
    the collections the two constructors were given.  An action is allowed just when some
    accepted statement covers the exact target and none denies it, no local restriction
    denies it, the local user's authority and the harness controls both list it, every
    required claim is proven, the request stays within every finite limit without wrapping,
    and approval was proven fresh or is not asked for; approval is requested just when only
    approval is missing, and everything else is denied. *)
Theorem evaluate_outcome version name guidance statements claims limits bundle
    authority proven controls denials approvals context request usage
    (Hbundle : CollaborationPolicyBundle_new version name guidance statements claims limits
               = Ok bundle)
    (Hcontext : CollaborationPolicyEvaluationContext_new authority proven controls denials approvals
                = Ok context)
    (Hlimits : limits_typed limits) :
  let bundle0 := mk_CollaborationPolicyBundle version name guidance statements claims limits in
  let context0 :=
    mk_CollaborationPolicyEvaluationContext authority proven controls denials approvals in
  let decision := evaluate_collaboration_policy bundle context request usage in
  (decision = Decision_Allow ↔
     policy_opens bundle0 context0 request usage
     ∧ (fresh_local_approval_proven request = true
        ∨ ¬ approval_required bundle0 context0 request))
  ∧ (decision = Decision_RequireLocalApproval ↔
       policy_opens bundle0 context0 request usage
       ∧ fresh_local_approval_proven request = false
       ∧ approval_required bundle0 context0 request).
Proof.
  cbv zeta. apply bundle_new_Ok in Hbundle as (-> & _).
  apply context_new_Ok in Hcontext as (Hctx & P1 & P2 & P3 & P4 & P5).
  destruct context as [authority' proven' controls' denials' approvals']; simpl in *.
  set (bundle := mk_CollaborationPolicyBundle version name guidance
    (sort_by statement_id bytes_compare statements) (sort_by id bytes_compare claims) limits).
  set (context := mk_CollaborationPolicyEvaluationContext authority' proven' controls' denials'
    approvals').
  pose proof (evaluate_cases bundle context request usage Hctx Hlimits) as Hcases.
  rewrite <- (policy_opens_perm version name guidance
    (sort_by statement_id bytes_compare statements) statements (sort_by id bytes_compare claims)
    claims limits authority' authority proven' proven controls' controls denials' denials
    approvals' approvals) by (done || apply sort_by_perm).
  rewrite <- (approval_required_perm bundle _ context) by (done || apply sort_by_perm).
  fold bundle context. clearbody bundle context. clear - Hcases.
  destruct (evaluate_collaboration_policy bundle context request usage),
    (fresh_local_approval_proven request); intuition discriminate.
Qed.

(** Less authority: fewer grants, claims and controls, more restrictions. *)
Record tightens (context context' : CollaborationPolicyEvaluationContext) : Prop := {
  tg_authority : local_user_authority context' ⊆ local_user_authority context;
  tg_claims : proven_harness_claims context' ⊆ proven_harness_claims context;
  tg_controls : proven_harness_controls context' ⊆ proven_harness_controls context;
  tg_denials : local_denials context ⊆ local_denials context';
  tg_approvals : local_approval_requirements context ⊆ local_approval_requirements context' }.

(** More of every budget is used. *)
Definition usage_grows (usage usage' : CollaborationPolicyUsage) : Prop :=
  elapsed_milliseconds usage <= elapsed_milliseconds usage'
  ∧ usage_turns usage <= usage_turns usage'
  ∧ usage_tokens usage <= usage_tokens usage'
  ∧ usage_concurrent_requests usage <= usage_concurrent_requests usage'.

Definition strictness (d : CollaborationPolicyDecision) : Z :=
  match d with
  | Decision_Allow => 0
  | Decision_RequireLocalApproval => 1
  | Decision_Deny _ => 2
  end.

Lemma within_limits_grow limits usage usage' cost :
  usage_grows usage usage' → within_limits limits usage' cost → within_limits limits usage cost.
Proof.
  intros (H1 & H2 & H3 & H4) (W1 & W2 & W3 & W4). unfold within_limits, within in *.
  split_and!; intros l Hl;
    [specialize (W1 l Hl)|specialize (W2 l Hl)|specialize (W3 l Hl)|specialize (W4 l Hl)]; lia.
Qed.

Lemma policy_opens_tightens bundle context context' request usage usage' :
  tightens context context' → usage_grows usage usage' →
  policy_opens bundle context' request usage' → policy_opens bundle context request usage.
Proof.
  intros [Ha Hc Hk Hd _] Hu (He & Hn & Hd' & Ha' & Hc' & Hk' & Hl).
  split; [done|]. split; [done|]. split; [auto|]. split; [auto|]. split; [auto|].
  split; [auto|]. by eapply within_limits_grow.
Qed.

(** Local context only restricts.  Withdrawing authority, claims or controls, adding
    denials or approval requirements, or consuming more of any budget never turns a
    decision of the same accepted bundle into a more permissive one. *)
Theorem local_controls_only_tighten bundle authority proven controls denials approvals
    authority' proven' controls' denials' approvals' context context' request usage usage'
    (Hcontext : CollaborationPolicyEvaluationContext_new authority proven controls denials approvals
                = Ok context)
    (Hcontext' : CollaborationPolicyEvaluationContext_new authority' proven' controls' denials'
                   approvals' = Ok context')
    (Htight : tightens
       (mk_CollaborationPolicyEvaluationContext authority proven controls denials approvals)
       (mk_CollaborationPolicyEvaluationContext authority' proven' controls' denials' approvals'))
    (Husage : usage_grows usage usage')
    (Hlimits : limits_typed (bundle_limits bundle)) :
  strictness (evaluate_collaboration_policy bundle context request usage)
  <= strictness (evaluate_collaboration_policy bundle context' request usage').
Proof.
  apply context_new_Ok in Hcontext as (Hctx & P1 & P2 & P3 & P4 & P5).
  apply context_new_Ok in Hcontext' as (Hctx' & Q1 & Q2 & Q3 & Q4 & Q5).
  assert (tightens context context') as Ht.
  { destruct Htight as [T1 T2 T3 T4 T5]; simpl in *.
    split; intros x; [rewrite P1, Q1|rewrite P2, Q2|rewrite P3, Q3|rewrite P4, Q4|rewrite P5, Q5];
      auto. }
  pose proof (evaluate_cases bundle context request usage Hctx Hlimits) as Hcase.
  pose proof (evaluate_cases bundle context' request usage' Hctx' Hlimits) as Hcase'.
  pose proof (policy_opens_tightens bundle _ _ request _ _ Ht Husage) as Hopens.
  assert (approval_required bundle context request → approval_required bundle context' request)
    as Happroval by (intros [?|?]; [by left|right; by apply (tg_approvals _ _ Ht)]).
  clear - Hcase Hcase' Hopens Happroval.
  destruct (evaluate_collaboration_policy bundle context request usage),
    (evaluate_collaboration_policy bundle context' request usage'); simpl; try lia;
    destruct (fresh_local_approval_proven request); intuition discriminate.
Qed.
