(* ===== verification/Application.v ===== *)
(** * Application messages, delivery receipts and request-service channels

    The application part of [crates/Konclave.DomainCore/src/model.rs] (directed requests,
    repeat-pairing content, [ApplicationContent], [ApplicationMessage]),
    [request_delivery.rs] (admission cutoffs, receipts and the fold over observed
    outcomes) and the application half of [request_service.rs]. *)

From S2P Require Import Prelude Identifiers Membership CollaborationPolicy.
Open Scope Z_scope.

(** ** Delivery outcomes and admission cutoffs *)

Definition MAX_REQUEST_ADMISSION_UNIX_MILLISECONDS : Z := 9007199254740991.

Record RequestAdmissionExpiry := mk_RequestAdmissionExpiry { unix_milliseconds : Z }.

Definition RequestAdmissionExpiry_new (unix_milliseconds : Z)
    : result RequestDeliveryError RequestAdmissionExpiry :=
  fail_if ((unix_milliseconds =? 0)
           || (MAX_REQUEST_ADMISSION_UNIX_MILLISECONDS <? unix_milliseconds)) InvalidExpiry;;
  Ok (mk_RequestAdmissionExpiry unix_milliseconds).

Definition admission_is_expired (expiry : RequestAdmissionExpiry) (now_unix_milliseconds : Z)
    : bool :=
  unix_milliseconds expiry <=? now_unix_milliseconds.

Inductive RequestDeliveryOutcome :=
| DeliveryAdmitted | Responded | ExpiredBeforeAdmission | EndedWithoutResponse.
Global Instance RequestDeliveryOutcome_eq_dec : EqDecision RequestDeliveryOutcome.
Proof. solve_decision. Defined.

(** [RequestDeliveryOutcome::wire_value] and [from_wire]. *)
Definition outcome_wire_value (outcome : RequestDeliveryOutcome) : Z :=
  match outcome with
  | DeliveryAdmitted => 1 | Responded => 2 | ExpiredBeforeAdmission => 3 | EndedWithoutResponse => 4
  end.

Definition outcome_from_wire (value : Z) : result RequestDeliveryError RequestDeliveryOutcome :=
  match value with
  | 1 => Ok DeliveryAdmitted
  | 2 => Ok Responded
  | 3 => Ok ExpiredBeforeAdmission
  | 4 => Ok EndedWithoutResponse
  | _ => Err UnknownOutcome
  end.

Definition observe_request_delivery (current : option RequestDeliveryOutcome)
    (observed : RequestDeliveryOutcome) : result RequestDeliveryError RequestDeliveryOutcome :=
  match current with
  | None => Ok observed
  | Some existing =>
      if bool_decide (existing = observed) then Ok existing
      else match existing, observed with
           | DeliveryAdmitted, ExpiredBeforeAdmission => Err ConflictingOutcome
           | DeliveryAdmitted, _ => Ok observed
           | existing, DeliveryAdmitted => Ok existing
           | _, _ => Err ConflictingOutcome
           end
  end.

(** ** Application content ([model.rs]) *)

Record RequestDeliveryOptions := mk_RequestDeliveryOptions {
  options_expiry : option RequestAdmissionExpiry }.

Record DirectedRequest := mk_DirectedRequest {
  directed_target_device_id : DeviceId;
  directed_body : text;
  directed_delivery : option RequestDeliveryOptions }.

Definition validate_application_text (body : text) (field : string)
    : result KonclaveDomainError text :=
  fail_if (len body =? 0) (EmptyText field);;
  fail_if (MAX_TEXT_BODY_BYTES <? len body) (TextTooLong field MAX_TEXT_BODY_BYTES (len body));;
  Ok body.

Definition DirectedRequest_new (target_device_id : DeviceId) (body : text)
    : result KonclaveDomainError DirectedRequest :=
  body ← validate_application_text body "directed_request_body";
  Ok (mk_DirectedRequest target_device_id body None).

Definition with_delivery (request : DirectedRequest) (options : RequestDeliveryOptions)
    : DirectedRequest :=
  mk_DirectedRequest (directed_target_device_id request) (directed_body request) (Some options).

Record RepeatPairingRequest := mk_RepeatPairingRequest {
  rpq_operation_id : RepeatPairingOperationId;
  rpq_target_device_id : DeviceId;
  rpq_new_conversation_id : ConversationId;
  rpq_expires_at_unix_seconds : Z }.

Definition RepeatPairingRequest_new (operation_id : RepeatPairingOperationId)
    (target_device_id : DeviceId) (new_conversation_id : ConversationId)
    (expires_at_unix_seconds : Z) : result KonclaveDomainError RepeatPairingRequest :=
  require_positive expires_at_unix_seconds "repeat_pairing_expires_at_unix_seconds";;
  Ok (mk_RepeatPairingRequest operation_id target_device_id new_conversation_id
        expires_at_unix_seconds).

Record RepeatPairingResponse := mk_RepeatPairingResponse {
  rpr_operation_id : RepeatPairingOperationId;
  rpr_requester_device_id : DeviceId;
  rpr_new_conversation_id : ConversationId;
  rpr_capability : text }.

Definition RepeatPairingResponse_new (operation_id : RepeatPairingOperationId)
    (requester_device_id : DeviceId) (new_conversation_id : ConversationId) (capability : text)
    : result KonclaveDomainError RepeatPairingResponse :=
  require_length_range (len capability) 1 MAX_REPEAT_PAIRING_CAPABILITY_BYTES
    "repeat_pairing_capability";;
  Ok (mk_RepeatPairingResponse operation_id requester_device_id new_conversation_id capability).

Inductive ApplicationContent :=
| Content_Text (body : text)
| Content_DirectedRequest (request : DirectedRequest)
| Content_RequestDeliveryOutcome (outcome : RequestDeliveryOutcome)
| Content_RepeatPairingRequest (request : RepeatPairingRequest)
| Content_RepeatPairingResponse (response : RepeatPairingResponse)
| Content_PolicyProposal (proposal : CollaborationPolicyProposal)
| Content_PolicyResponse (response : CollaborationPolicyResponse)
| Content_PolicyRevocation (revocation : CollaborationPolicyRevocation).

Definition is_internal (content : ApplicationContent) : bool :=
  match content with
  | Content_RepeatPairingRequest _ | Content_RepeatPairingResponse _ => true
  | _ => false
  end.

(** [ApplicationContent::text] and [::directed_request]. *)
Definition content_text (body : text) : result KonclaveDomainError ApplicationContent :=
  body ← validate_application_text body "text_body"; Ok (Content_Text body).

Definition content_directed_request (target_device_id : DeviceId) (body : text)
    : result KonclaveDomainError ApplicationContent :=
  request ← DirectedRequest_new target_device_id body; Ok (Content_DirectedRequest request).

Definition is_receipt (content : ApplicationContent) : bool :=
  match content with Content_RequestDeliveryOutcome _ => true | _ => false end.

Definition is_responded_receipt (content : ApplicationContent) : bool :=
  match content with Content_RequestDeliveryOutcome Responded => true | _ => false end.

Record ApplicationMessage := mk_ApplicationMessage {
  app_version : ProtocolVersion;
  app_message_id : MessageId;
  app_sender_counter : Z;
  app_sent_at_unix_milliseconds : Z;
  app_reply_to : option MessageId;
  app_content : ApplicationContent }.

Definition ApplicationMessage_new (version : ProtocolVersion) (message_id : MessageId)
    (sender_counter sent_at_unix_milliseconds : Z) (reply_to : option MessageId)
    (content : ApplicationContent) : result KonclaveDomainError ApplicationMessage :=
  fail_if (is_receipt content
           && (is_none reply_to || bool_decide (reply_to = Some message_id)
               || is_responded_receipt content)) (RequestDelivery InvalidReceipt);;
  require_positive sender_counter "sender_counter";;
  Ok (mk_ApplicationMessage version message_id sender_counter sent_at_unix_milliseconds reply_to
        content).

(** ** Receipts *)

Definition validate_request_delivery_receipt (original : ApplicationMessage)
    (authenticated_receipt_sender : DeviceId) (receipt : ApplicationMessage)
    : result RequestDeliveryError unit :=
  match app_content original, app_content receipt with
  | Content_DirectedRequest request, Content_RequestDeliveryOutcome outcome =>
      options ← ok_or (directed_delivery request) InvalidReceipt;
      fail_if (bool_decide (directed_target_device_id request ≠ authenticated_receipt_sender)
               || bool_decide (app_reply_to receipt ≠ Some (app_message_id original))
               || bool_decide (app_message_id receipt = app_message_id original)
               || bool_decide (outcome = Responded)
               || (bool_decide (outcome = ExpiredBeforeAdmission)
                   && is_none (options_expiry options))) InvalidReceipt;;
      match options_expiry options with
      | Some expiry =>
          fail_if ((bool_decide (outcome = DeliveryAdmitted) || bool_decide (outcome = ExpiredBeforeAdmission))
                   && negb (Bool.eqb (admission_is_expired expiry
                                        (app_sent_at_unix_milliseconds receipt))
                              (bool_decide (outcome = ExpiredBeforeAdmission)))) InvalidReceipt;;
          Ok ()
      | None => Ok ()
      end
  | _, _ => Err InvalidReceipt
  end.

(** ** Request-service applications ([request_service.rs]) *)

Inductive RequestServiceReplyDecision := ReplyNew | ReplyRetry.

Definition classify_request_service_reply (previous_reply : option MessageId)
    (candidate_reply : MessageId) : result RequestServiceError RequestServiceReplyDecision :=
  match previous_reply with
  | None => Ok ReplyNew
  | Some previous =>
      if bool_decide (previous = candidate_reply) then Ok ReplyRetry
      else Err ReplyAlreadyCompleted
  end.

Record RequestServiceRequest := mk_RequestServiceRequest {
  rsr_conversation_id : ConversationId;
  rsr_authenticated_sender : DeviceId;
  rsr_message : ApplicationMessage }.

(** The arm of [validate_application] for text and receipts. *)
Definition validate_reply (ch : RequestServiceChannel) (state : ConversationState)
    (authenticated_sender : DeviceId) (content : ApplicationContent)
    (reply_to : option MessageId) (original : option RequestServiceRequest)
    : result RequestServiceError unit :=
  fail_if (is_none reply_to) UnsolicitedText;;
  fail_if (bool_decide (authenticated_sender ≠ operator_device_id ch)) RequesterCannotReply;;
  fail_if (is_none (state_member state (requester_device_id ch))) SenderNotMember;;
  original ← ok_or original MissingRequest;
  fail_if (bool_decide (rsr_conversation_id original ≠ channel_conversation_id ch)
           || bool_decide (rsr_authenticated_sender original ≠ requester_device_id ch)
           || bool_decide (Some (app_message_id (rsr_message original)) ≠ reply_to)) InvalidReply;;
  match app_content (rsr_message original) with
  | Content_DirectedRequest request =>
      fail_if (bool_decide (directed_target_device_id request ≠ operator_device_id ch))
        InvalidReply;;
      fail_if (is_receipt content && is_none (directed_delivery request)) InvalidReply;;
      Ok ()
  | _ => Err InvalidReply
  end.

(** [RequestServiceChannel::validate_application]. *)
Definition validate_application (ch : RequestServiceChannel) (state : ConversationState)
    (authenticated_sender : DeviceId) (content : ApplicationContent)
    (reply_to : option MessageId) (original : option RequestServiceRequest)
    : result RequestServiceError unit :=
  validate_membership ch state;;
  fail_if (is_none (state_member state authenticated_sender)) SenderNotMember;;
  match content with
  | Content_DirectedRequest request =>
      fail_if (bool_decide (authenticated_sender ≠ requester_device_id ch))
        OperatorCannotRequest;;
      fail_if (bool_decide (directed_target_device_id request ≠ operator_device_id ch))
        InvalidTarget;;
      Ok ()
  | Content_Text _ | Content_RequestDeliveryOutcome _ =>
      validate_reply ch state authenticated_sender content reply_to original
  | Content_PolicyProposal _ | Content_PolicyResponse _ | Content_PolicyRevocation _ => Ok ()
  | Content_RepeatPairingRequest _ | Content_RepeatPairingResponse _ => Err UnsupportedOperation
  end.

(** ** Folding observed outcomes *)

(** The caller's fold over the receipts of one request, from [current]. *)
Fixpoint observe_all (current : option RequestDeliveryOutcome)
    (observed : list RequestDeliveryOutcome)
    : result RequestDeliveryError (option RequestDeliveryOutcome) :=
  match observed with
  | [] => Ok current
  | o :: rest => c ← observe_request_delivery current o; observe_all (Some c) rest
  end.

(** Nothing but [t] and admissions. *)
Definition only (t : RequestDeliveryOutcome) (observed : list RequestDeliveryOutcome) : Prop :=
  ∀ o, o ∈ observed → o = DeliveryAdmitted ∨ o = t.

Lemma only_nil t : only t [].
Proof. intros o Ho. by apply elem_of_nil in Ho. Qed.

Lemma only_cons t o l : only t (o :: l) ↔ (o = DeliveryAdmitted ∨ o = t) ∧ only t l.
Proof.
  unfold only. setoid_rewrite elem_of_cons. split.
  - intros H. split; auto.
  - intros [H Hl] o' [->|?]; auto.
Qed.

(** A terminal outcome stays, and anything but itself or a late admission conflicts. *)
Lemma observe_all_terminal t l r :
  t ≠ DeliveryAdmitted → observe_all (Some t) l = Ok r ↔ only t l ∧ r = Some t.
Proof.
  intros Ht. induction l as [|o l IH]; simpl.
  { split; [intros [= <-]; split; [apply only_nil|done]|by intros [_ ->]]. }
  rewrite only_cons. destruct t, o; simpl; rewrite ?IH; intuition congruence.
Qed.

Lemma observe_all_admitted l r :
  observe_all (Some DeliveryAdmitted) l = Ok r ↔
  (only DeliveryAdmitted l ∧ r = Some DeliveryAdmitted)
  ∨ ∃ t, (t = Responded ∨ t = EndedWithoutResponse) ∧ t ∈ l ∧ only t l ∧ r = Some t.
Proof.
  induction l as [|o l IH]; simpl.
  { split; [intros [= <-]; left; split; [apply only_nil|done]|].
    intros [[_ ->]|(t & _ & Ht & _)]; [done|by apply elem_of_nil in Ht]. }
  setoid_rewrite only_cons. setoid_rewrite elem_of_cons.
  destruct o; simpl; rewrite ?IH, ?observe_all_terminal by done.
  - split.
    + intros [[Hl ->]|(t & Ht & Hin & Hl & ->)]; [left; auto|right; exists t]. auto 10.
    + intros [[[_ Hl] ->]|(t & Ht & [->|Hin] & [_ Hl] & ->)]; [left; auto|by destruct Ht|].
      right. exists t. auto.
  - split; [intros [Hl ->]; right; exists Responded; auto 10|].
    intros [[[H _] _]|(t & Ht & _ & [H Hl] & ->)]; [by destruct H|].
    destruct H as [H|H]; by subst.
  - split; [done|]. intros [[[H _] _]|(t & Ht & _ & [H Hl] & ->)]; [by destruct H|].
    destruct Ht, H; by subst.
  - split; [intros [Hl ->]; right; exists EndedWithoutResponse; auto 10|].
    intros [[[H _] _]|(t & Ht & _ & [H Hl] & ->)]; [by destruct H|].
    destruct H as [H|H]; by subst.
Qed.

(** C36: What folding the receipts of one request yields.  The fold succeeds just when
    the observations agree on at most one terminal outcome, which is then the result
    wherever it stands among the admissions; only an observed expiry must come before
    every observed admission. *)
Theorem delivery_fold_exact l r :
  observe_all None l = Ok r ↔
  (l = [] ∧ r = None)
  ∨ (l ≠ [] ∧ only DeliveryAdmitted l ∧ r = Some DeliveryAdmitted)
  ∨ ∃ t, t ≠ DeliveryAdmitted ∧ t ∈ l ∧ only t l ∧ r = Some t
         ∧ (t = ExpiredBeforeAdmission → head l = Some ExpiredBeforeAdmission).
Proof.
  destruct l as [|o l]; simpl.
  { split; [intros [= <-]; auto|]. intros [[_ ->]|[[? _]|(t & _ & Ht & _)]]; [done..|].
    by apply elem_of_nil in Ht. }
  setoid_rewrite only_cons. setoid_rewrite elem_of_cons.
  destruct (decide (o = DeliveryAdmitted)) as [->|Ho].
  - rewrite observe_all_admitted. split.
    + intros [[Hl ->]|(t & Ht & Hin & Hl & ->)]; right; [left; auto|right].
      exists t. destruct Ht as [->| ->]; split_and!; auto; done.
    + intros [[? _]|[(_ & [_ Hl] & ->)|(t & Ht & Hin & [_ Hl] & -> & Hexp)]]; [done|auto|].
      right. exists t. destruct Hin as [?|Hin]; [done|].
      destruct t; [done|auto|by specialize (Hexp eq_refl)|auto].
  - rewrite observe_all_terminal by done. split.
    + intros [Hl ->]. right. right. exists o. split_and!; auto. by intros ->.
    + intros [[? _]|[(_ & [[?|?] _] & _)|(t & Ht & Hin & [[?|?] Hl] & -> & _)]]; by subst.
Qed.

(** Observing an admission and an expiry is accepted in one order and refused in the
    other. *)
Lemma delivery_order_matters :
  observe_all None [ExpiredBeforeAdmission; DeliveryAdmitted] = Ok (Some ExpiredBeforeAdmission)
  ∧ observe_all None [DeliveryAdmitted; ExpiredBeforeAdmission] = Err ConflictingOutcome.
Proof. done. Qed.

(** ** A request-service conversation *)

(** A log in which each message was accepted under the membership of its moment, with
    evidence taken from the log itself. *)
Inductive channel_log (ch : RequestServiceChannel) : list RequestServiceRequest → Prop :=
| channel_log_nil : channel_log ch []
| channel_log_snoc log state original m :
    channel_log ch log →
    (∀ o, original = Some o → o ∈ log) →
    validate_application ch state (rsr_authenticated_sender m) (app_content (rsr_message m))
      (app_reply_to (rsr_message m)) original = Ok () →
    channel_log ch (log ++ [m]).

(** The requester's request, addressed to the operator. *)
Definition channel_request (ch : RequestServiceChannel) (m : RequestServiceRequest)
    (request : DirectedRequest) : Prop :=
  rsr_authenticated_sender m = requester_device_id ch
  ∧ app_content (rsr_message m) = Content_DirectedRequest request
  ∧ directed_target_device_id request = operator_device_id ch.

(** The operator's answer to such a request of [before]. *)
Definition channel_answer (ch : RequestServiceChannel) (before : list RequestServiceRequest)
    (m : RequestServiceRequest) : Prop :=
  rsr_authenticated_sender m = operator_device_id ch
  ∧ ∃ q request, q ∈ before ∧ channel_request ch q request
     ∧ app_reply_to (rsr_message m) = Some (app_message_id (rsr_message q))
     ∧ (is_receipt (app_content (rsr_message m)) = true → is_Some (directed_delivery request)).

Definition channel_entry_ok (ch : RequestServiceChannel) (before : list RequestServiceRequest)
    (m : RequestServiceRequest) : Prop :=
  match app_content (rsr_message m) with
  | Content_DirectedRequest request => channel_request ch m request
  | Content_Text _ | Content_RequestDeliveryOutcome _ => channel_answer ch before m
  | Content_PolicyProposal _ | Content_PolicyResponse _ | Content_PolicyRevocation _ =>
      rsr_authenticated_sender m = operator_device_id ch
      ∨ rsr_authenticated_sender m = requester_device_id ch
  | Content_RepeatPairingRequest _ | Content_RepeatPairingResponse _ => False
  end.

Lemma endpoint_member ch state d :
  validate_membership ch state = Ok () → is_none (state_member state d) = false →
  d = operator_device_id ch ∨ d = requester_device_id ch.
Proof.
  unfold validate_membership, state_member. intros Hm Hd. inv_ok.
  destruct (find_member _ d) as [m|] eqn:E; [|done]. apply find_member_Some in E as [Hin <-].
  destruct (decide (member_device_id m = operator_device_id ch)); [by left|right].
  by apply (proj1 (validate_endpoints_Ok ch _ _) Hm m).
Qed.

Lemma validate_reply_Ok ch state sender content reply_to original :
  validate_reply ch state sender content reply_to original = Ok () →
  sender = operator_device_id ch
  ∧ ∃ q request, original = Some q ∧ channel_request ch q request
     ∧ reply_to = Some (app_message_id (rsr_message q))
     ∧ (is_receipt content = true → is_Some (directed_delivery request)).
Proof.
  unfold validate_reply, channel_request. intros H.
  destruct original as [q|]; [|by inv_ok]. simpl in H. inv_ok.
  destruct (app_content (rsr_message q)) as [|request| | | | | |] eqn:Eq; try done. inv_ok.
  bool_prop. destruct Hr2 as [[_ Hsender] Hid].
  apply dec_stable in Hr0, Hsender, Hid, Hr3. split; [done|]. exists q, request.
  split_and!; [done..|]. intros Hc. rewrite Hc in Hr4.
  destruct (directed_delivery request); [done|]. by destruct Hr4.
Qed.

Lemma validate_application_entry ch state original log m :
  (∀ o, original = Some o → o ∈ log) →
  validate_application ch state (rsr_authenticated_sender m) (app_content (rsr_message m))
    (app_reply_to (rsr_message m)) original = Ok () →
  channel_entry_ok ch log m.
Proof.
  unfold validate_application, channel_entry_ok. intros Hlog H. inv_ok. destruct r.
  assert (∀ content,
    validate_reply ch state (rsr_authenticated_sender m) content (app_reply_to (rsr_message m))
      original = Ok () → content = app_content (rsr_message m) → channel_answer ch log m) as Hreply.
  { intros content (Hs & q & request & Hq & Hreq & Hid & Hdel)%validate_reply_Ok ->.
    split; [done|]. exists q, request. auto. }
  destruct (app_content (rsr_message m)) as [body|request|outcome|?|?|?|?|?] eqn:Ec;
    try done; try (by eapply endpoint_member); try (by eapply Hreply).
  inv_ok. bool_prop. split_and!; [by apply dec_stable|done|by apply dec_stable].
Qed.

(** A request-service channel carries only the requester's requests and the
    operator's answers.  In any log in which every message was accepted by
    [validate_application] on evidence from the log itself, whatever the membership did
    in between: a request comes from the requester and targets the operator, a text or a
    receipt comes from the operator and answers an earlier request of the requester (one
    that asked for receipts, in the case of a receipt), policy traffic comes from one of
    the two endpoints, and no pairing operation occurs. *)
Theorem request_service_conversation ch log before m after
    (Hlog : channel_log ch log) (Hsplit : log = before ++ m :: after) :
  channel_entry_ok ch before m.
Proof.
  revert before after Hsplit. induction Hlog as [|log state original m' _ IH Hin Hok];
    intros before after Hsplit; [by destruct before|].
  destruct after as [|a after _] using rev_ind.
  - apply app_inj_tail in Hsplit as [-> ->]. by eapply validate_application_entry.
  - rewrite app_comm_cons, app_assoc in Hsplit. apply app_inj_tail in Hsplit as [-> _].
    by eapply IH.
Qed.
