(* ===== verification/RelayModel.v ===== *)
(** * Relay values

    The relay half of [crates/Konclave.DomainCore/src/model.rs] (envelopes, replay
    requests and pages, acknowledgments) and the enrollment values of
    [crates/Konclave.RelayAuthentication/src/lib.rs]. *)

From S2P Require Import Prelude Identifiers.
Open Scope Z_scope.

(** ** Envelopes *)

Inductive DeliveryClass :=
| KeyPackage | Welcome | GroupProposal | GroupCommit | GroupApplication | Pairing.

Global Instance DeliveryClass_eq_dec : EqDecision DeliveryClass.
Proof. solve_decision. Defined.

(** [DeliveryClass::as_str]. *)
Definition delivery_class_as_str (c : DeliveryClass) : string :=
  match c with
  | KeyPackage => "key_package"
  | Welcome => "welcome"
  | GroupProposal => "group_proposal"
  | GroupCommit => "group_commit"
  | GroupApplication => "group_application"
  | Pairing => "pairing"
  end.

Definition requires_parent_epoch (c : DeliveryClass) : bool :=
  match c with GroupProposal | GroupCommit => true | _ => false end.

Record RelayEnvelope := mk_RelayEnvelope {
  env_version : ProtocolVersion;
  env_routing_id : RoutingId;
  env_envelope_id : EnvelopeId;
  env_delivery_class : DeliveryClass;
  env_expected_parent_epoch : option Z;
  env_expires_at_unix_seconds : Z;
  env_payload : bytes }.

Global Instance RelayEnvelope_eq_dec : EqDecision RelayEnvelope.
Proof. solve_decision. Defined.

(** [RelayEnvelope::new]. *)
Definition RelayEnvelope_new (version : ProtocolVersion) (routing_id : RoutingId)
    (envelope_id : EnvelopeId) (delivery_class : DeliveryClass)
    (expected_parent_epoch : option Z) (expires_at : Z) (payload : bytes)
    : result KonclaveDomainError RelayEnvelope :=
  require_length_range (len payload) 1 MAX_RELAY_PAYLOAD_BYTES "relay_payload";;
  require_positive expires_at "expires_at_unix_seconds";;
  fail_if (negb (Bool.eqb (requires_parent_epoch delivery_class)
                          (is_some expected_parent_epoch)))
    (InvalidExpectedParentEpoch (delivery_class_as_str delivery_class));;
  Ok (mk_RelayEnvelope version routing_id envelope_id delivery_class expected_parent_epoch
        expires_at payload).

(** What every [RelayEnvelope] satisfies, its fields being private. *)
Record envelope_valid (e : RelayEnvelope) : Prop := {
  envelope_payload_bounds : 1 <= len (env_payload e) <= MAX_RELAY_PAYLOAD_BYTES;
  envelope_expiry_positive : env_expires_at_unix_seconds e ≠ 0;
  envelope_parent_epoch :
    requires_parent_epoch (env_delivery_class e) = is_some (env_expected_parent_epoch e) }.

Lemma RelayEnvelope_new_Ok v r i c p x payload e :
  RelayEnvelope_new v r i c p x payload = Ok e ↔
  e = mk_RelayEnvelope v r i c p x payload ∧ envelope_valid e.
Proof.
  unfold RelayEnvelope_new. split.
  - intros H. inv_ok. apply require_length_range_Ok in Hr. apply require_positive_Ok in Hr0.
    bool_prop. apply Bool.eqb_prop in Hr1. subst e. split; [done|]. by split.
  - intros [-> [V1 V2 V3]]. simpl in *.
    rewrite (proj2 (require_length_range_Ok _ _ _ _ ()) V1).
    rewrite (proj2 (require_positive_Ok _ _ ()) V2). simpl.
    pass_guard by (rewrite V3; by rewrite Bool.eqb_reflx). done.
Qed.

Record StoredRelayEnvelope := mk_StoredRelayEnvelope {
  stored_envelope : RelayEnvelope;
  stored_cursor : Z }.

Global Instance StoredRelayEnvelope_eq_dec : EqDecision StoredRelayEnvelope.
Proof. solve_decision. Defined.

(** [StoredRelayEnvelope::new]. *)
Definition StoredRelayEnvelope_new (envelope : RelayEnvelope) (cursor : Z)
    : result KonclaveDomainError StoredRelayEnvelope :=
  require_positive cursor "cursor";;
  Ok (mk_StoredRelayEnvelope envelope cursor).

(** ** Replay and acknowledgment *)

Record ReplayRequest := mk_ReplayRequest {
  replay_routing_id : RoutingId;
  replay_after_cursor : Z;
  replay_limit : Z }.

(** [ReplayRequest::new]. *)
Definition ReplayRequest_new (routing_id : RoutingId) (after_cursor limit : Z)
    : result KonclaveDomainError ReplayRequest :=
  require_length_range limit 1 MAX_REPLAY_PAGE_SIZE "replay_limit";;
  Ok (mk_ReplayRequest routing_id after_cursor limit).

Record ReplayPage := mk_ReplayPage {
  page_envelopes : list StoredRelayEnvelope;
  page_next_cursor : Z;
  page_has_more : bool }.

Global Instance ReplayPage_eq_dec : EqDecision ReplayPage.
Proof. solve_decision. Defined.

(** [envelopes.windows(2).any(|pair| pair[0].cursor >= pair[1].cursor)]. *)
Definition cursors_not_increasing (envelopes : list StoredRelayEnvelope) : bool :=
  adjacent_any (fun a b => stored_cursor b <=? stored_cursor a) envelopes.

(** [ReplayPage::new]. *)
Definition ReplayPage_new (envelopes : list StoredRelayEnvelope) (next_cursor : Z)
    (has_more : bool) : result KonclaveDomainError ReplayPage :=
  require_length_range (len envelopes) 0 MAX_REPLAY_PAGE_SIZE "replay_envelopes";;
  fail_if (cursors_not_increasing envelopes
           || is_some_and (last envelopes) (fun e => next_cursor <? stored_cursor e))
    InvalidReplayOrder;;
  Ok (mk_ReplayPage envelopes next_cursor has_more).

Record AcknowledgeRequest := mk_AcknowledgeRequest {
  ack_routing_id : RoutingId;
  ack_cursor : Z }.

(** [AcknowledgeRequest::new]. *)
Definition AcknowledgeRequest_new (routing_id : RoutingId) (cursor : Z)
    : result KonclaveDomainError AcknowledgeRequest :=
  require_positive cursor "cursor";;
  Ok (mk_AcknowledgeRequest routing_id cursor).

(** ** Relay authentication *)

Inductive RelayAuthenticationError :=
| AuthInvalidLength (field : string) (expected actual : Z).
Global Instance RelayAuthenticationError_eq_dec : EqDecision RelayAuthenticationError.
Proof. solve_decision. Defined.

(** [RelayPrincipalId::from_slice] and its siblings. *)
Definition auth_from_slice (k : id_kind) (value : bytes)
    : result RelayAuthenticationError (FixedBytes k) :=
  ok_or (fixed_of_slice k value)
    (AuthInvalidLength (id_field k) (Z.of_nat (id_length k)) (len value)).

Record RelayEnrollmentRequest := RelayEnrollmentRequest_new {
  enroll_version : ProtocolVersion;
  enroll_request_id : EnrollmentRequestId;
  enroll_principal_id : RelayPrincipalId }.

Inductive RelayEnrollmentOutcome := Registered | AlreadyRegistered.
Global Instance RelayEnrollmentOutcome_eq_dec : EqDecision RelayEnrollmentOutcome.
Proof. solve_decision. Defined.

Record RelayEnrollmentResponse := RelayEnrollmentResponse_new {
  response_version : ProtocolVersion;
  response_request_id : EnrollmentRequestId;
  response_principal_id : RelayPrincipalId;
  response_outcome : RelayEnrollmentOutcome }.
Global Instance RelayEnrollmentResponse_eq_dec : EqDecision RelayEnrollmentResponse.
Proof. solve_decision. Defined.
