(* ===== verification/Wire.v ===== *)
(** * Relay wire contracts

    [crates/Konclave.ProtocolContracts/src/v1/relay.rs], the part of [v1/common.rs]
    it uses, and [error.rs].

    The generated message types and their codec come from the Protocol Buffers
    library.  They enter as the classes [ProstFraming] and [ProstMessage]: what the
    source calls on them, and the one fact the Rust types give for free, that a
    decoded field is in the range of its type.  The byte-preserving encoders are the
    repository's own code and are modelled byte by byte; [read_fields] is a reference
    reader of the Protocol Buffers record syntax against which they are proved. *)

From S2P Require Import Prelude Identifiers RelayModel.
Open Scope Z_scope.

(** ** Errors *)

Inductive KonclaveProtocolError :=
| EncodedMessageTooLarge (contract : string) (maximum actual : Z)
| Decode (contract reason : string)
| MissingField (field : string)
| UnsupportedEnum (field : string) (value : Z)
| MissingVariant (field : string)
| NonCanonicalEncoding (contract : string)
| UnsupportedMajor (contract : string) (actual : Z)
| ProtocolDomain (source : KonclaveDomainError)
| ProtocolRelayAuthentication (source : RelayAuthenticationError).

Global Instance KonclaveProtocolError_eq_dec : EqDecision KonclaveProtocolError.
Proof. solve_decision. Defined.

(** ** Varints and length-delimited records *)

(** A [u64] loses seven bits per round, so both loops end within ten rounds. *)
Definition varint_rounds : nat := 10.

Fixpoint varint_length_loop (fuel : nat) (value length : Z) : Z :=
  match fuel with
  | O => length
  | S fuel =>
      if 0x80 <=? value then varint_length_loop fuel (Z.shiftr value 7) (length + 1) else length
  end.

Definition varint_length (value : Z) : Z := varint_length_loop varint_rounds value 1.

Fixpoint append_varint_loop (fuel : nat) (value : Z) (output : bytes) : bytes :=
  match fuel with
  | O => output
  | S fuel =>
      if 0x80 <=? value
      then append_varint_loop fuel (Z.shiftr value 7)
             (output ++ [u8 (Z.lor (Z.land value 0x7f) 0x80)])
      else output ++ [u8 value]
  end.

Definition append_varint (value : Z) (output : bytes) : bytes :=
  append_varint_loop varint_rounds value output.

Definition append_key (field_number wire_type : Z) (output : bytes) : bytes :=
  append_varint (Z.lor (Z.shiftl field_number 3) wire_type) output.

Definition append_varint_field (field_number value : Z) (output : bytes) : bytes :=
  append_varint value (append_key field_number 0 output).

Definition append_length_delimited (field_number : Z) (value output : bytes) : bytes :=
  append_varint (len value) (append_key field_number 2 output) ++ value.

Definition varint_field_length (value : Z) : Z := 1 + varint_length value.

Definition length_delimited_length (payload_length : Z) : result KonclaveProtocolError Z :=
  ok_or (l ← checked_add USIZE_MAX 1 (varint_length payload_length);
         checked_add USIZE_MAX l payload_length)
    (EncodedMessageTooLarge "ProtocolBuffers" USIZE_MAX USIZE_MAX).

Definition STORED_RELAY_ENVELOPE_MAX_BYTES : Z := MAX_RELAY_ENVELOPE_BYTES + 32.

Definition stored_preserving_length (encoded_envelope_length cursor : Z)
    : result KonclaveProtocolError Z :=
  l ← length_delimited_length encoded_envelope_length;
  ok_or (checked_add USIZE_MAX l (varint_field_length cursor))
    (EncodedMessageTooLarge "StoredRelayEnvelope" STORED_RELAY_ENVELOPE_MAX_BYTES USIZE_MAX).

(** ** Lemmas on varints *)

Lemma varint_low_bits v : 0 <= v → Z.lor (Z.land v 0x7f) 0x80 = v mod 128 + 128.
Proof.
  intros Hv. change 0x7f with (Z.ones 7). rewrite Z.land_ones by lia.
  assert (Hland : Z.land (v mod 2 ^ 7) 0x80 = 0).
  { apply Z.bits_inj'. intros n Hn. rewrite Z.land_spec, Z.bits_0. change 0x80 with (2 ^ 7).
    destruct (Z.eq_dec n 7) as [->|Hne].
    - by rewrite Z.mod_pow2_bits_high by lia.
    - rewrite Z.pow2_bits_false by lia. apply andb_false_r. }
  rewrite <- Z.lxor_lor by done. by rewrite <- Z.add_nocarry_lxor.
Qed.

Definition varint (value : Z) : bytes := append_varint value [].

Lemma append_varint_loop_app fuel v output :
  append_varint_loop fuel v output = output ++ append_varint_loop fuel v [].
Proof.
  revert v output. induction fuel as [|fuel IH]; intros v output; simpl; [by rewrite app_nil_r|].
  destruct (0x80 <=? v); [|done]. rewrite IH, (IH _ [_]). by rewrite app_assoc.
Qed.

Lemma append_varint_app v output : append_varint v output = output ++ varint v.
Proof. apply append_varint_loop_app. Qed.

Lemma varint_length_loop_spec fuel v n :
  0 <= v < 2 ^ (7 * Z.of_nat fuel) → (0 < fuel)%nat →
  varint_length_loop fuel v n = n - 1 + len (append_varint_loop fuel v []).
Proof.
  revert v n. induction fuel as [|fuel IH]; intros v n Hv Hf; [lia|].
  cbn [varint_length_loop append_varint_loop]. destruct (Z.leb_spec 0x80 v) as [Hge|Hlt].
  - rewrite append_varint_loop_app, len_app. rewrite Z.shiftr_div_pow2 by lia.
    assert (0 < fuel)%nat as Hf'.
    { destruct fuel; [|lia]. change (2 ^ (7 * Z.of_nat 1)) with 128 in Hv. lia. }
    rewrite IH; [unfold len; simpl; lia| |done].
    split; [apply Z.div_pos; lia|]. apply Z.div_lt_upper_bound; [lia|].
    rewrite <- Z.pow_add_r by lia. replace (7 + 7 * Z.of_nat fuel) with (7 * Z.of_nat (S fuel)) by lia.
    lia.
  - unfold len. simpl. lia.
Qed.

(** The length the encoder reserves is the length it writes. *)
Lemma varint_length_spec v : 0 <= v <= U64_MAX → varint_length v = len (varint v).
Proof.
  intros Hv. unfold varint_length, varint, append_varint. rewrite varint_length_loop_spec; [lia| |].
  - assert (U64_MAX < 2 ^ (7 * Z.of_nat varint_rounds)) by reflexivity. lia.
  - unfold varint_rounds. lia.
Qed.

(** The reference reader of a base-128 varint: at most ten groups of seven bits, low
    group first. *)
Fixpoint read_varint_loop (fuel : nat) (input : bytes) : option (Z * bytes) :=
  match fuel, input with
  | S fuel, b :: rest =>
      if byte_value b <? 128 then Some (byte_value b, rest)
      else '(high, rest) ← read_varint_loop fuel rest;
           Some (byte_value b - 128 + 128 * high, rest)
  | _, _ => None
  end.

Definition read_varint (input : bytes) : option (Z * bytes) :=
  read_varint_loop varint_rounds input.

Lemma read_varint_loop_append fuel v rest :
  0 <= v < 2 ^ (7 * Z.of_nat fuel) → (0 < fuel)%nat →
  read_varint_loop fuel (append_varint_loop fuel v [] ++ rest) = Some (v, rest).
Proof.
  revert v. induction fuel as [|fuel IH]; intros v Hv Hf; [lia|].
  cbn [append_varint_loop]. destruct (Z.leb_spec 0x80 v) as [Hge|Hlt].
  - rewrite append_varint_loop_app, varint_low_bits by lia. cbn [app read_varint_loop].
    pose proof (Z.mod_pos_bound v 128 ltac:(lia)).
    rewrite byte_value_u8 by lia. destruct (Z.ltb_spec (v mod 128 + 128) 128); [lia|].
    assert (0 < fuel)%nat as Hf'.
    { destruct fuel; [|lia]. change (2 ^ (7 * Z.of_nat 1)) with 128 in Hv. lia. }
    rewrite Z.shiftr_div_pow2 by lia. change (2 ^ 7) with 128.
    rewrite IH; [simpl; do 2 f_equal; pose proof (Z.div_mod v 128); lia| |done].
    split; [apply Z.div_pos; lia|]. apply Z.div_lt_upper_bound; [lia|].
    change 128 with (2 ^ 7). rewrite <- Z.pow_add_r by lia.
    replace (7 + 7 * Z.of_nat fuel) with (7 * Z.of_nat (S fuel)) by lia. lia.
  - cbn [app read_varint_loop]. rewrite byte_value_u8 by lia.
    destruct (Z.ltb_spec v 128); [done|lia].
Qed.

Lemma read_varint_append v rest :
  0 <= v <= U64_MAX → read_varint (varint v ++ rest) = Some (v, rest).
Proof.
  intros Hv. apply read_varint_loop_append; [|unfold varint_rounds; lia].
  assert (U64_MAX < 2 ^ (7 * Z.of_nat varint_rounds)) by reflexivity. lia.
Qed.

(** ** Generated messages and the Protocol Buffers library *)

Record WireProtocolVersion := mk_WireProtocolVersion { wire_major : Z; wire_minor : Z }.

Record WireRelayEnvelope := mk_WireRelayEnvelope {
  wire_version : option WireProtocolVersion;
  wire_routing_id : option bytes;
  wire_envelope_id : option bytes;
  wire_delivery_class : Z;
  wire_expected_parent_epoch : option Z;
  wire_expires_at_unix_seconds : Z;
  wire_payload : bytes }.

Record WireStoredRelayEnvelope := mk_WireStoredRelayEnvelope {
  wire_envelope : option WireRelayEnvelope;
  wire_cursor : Z }.

Record WireReplayPage := mk_WireReplayPage {
  wire_envelopes : list WireStoredRelayEnvelope;
  wire_next_cursor : Z;
  wire_has_more : bool }.

Record WireReplayRequest := mk_WireReplayRequest {
  wire_request_routing_id : option bytes;
  wire_after_cursor : Z;
  wire_limit : Z }.

Record WireAcknowledgeRequest := mk_WireAcknowledgeRequest {
  wire_ack_routing_id : option bytes;
  wire_ack_cursor : Z }.

Inductive WireType :=
| Varint | SixtyFourBit | LengthDelimited | StartGroup | EndGroup | ThirtyTwoBit.
Global Instance WireType_eq_dec : EqDecision WireType.
Proof. solve_decision. Defined.

(** The range of the generated struct's field types. *)
Class WireTyped (M : Type) := wire_typed : M → Prop.

Global Instance relay_envelope_typed : WireTyped WireRelayEnvelope := fun w =>
  (∀ v, wire_version w = Some v → is_u32 (wire_major v) ∧ is_u32 (wire_minor v))
  ∧ (∀ e, wire_expected_parent_epoch w = Some e → is_u64 e)
  ∧ is_u64 (wire_expires_at_unix_seconds w).
Global Instance stored_envelope_typed : WireTyped WireStoredRelayEnvelope := fun w =>
  is_u64 (wire_cursor w) ∧ ∀ e, wire_envelope w = Some e → wire_typed e.
Global Instance replay_page_typed : WireTyped WireReplayPage := fun w =>
  is_u64 (wire_next_cursor w) ∧ ∀ e, e ∈ wire_envelopes w → wire_typed e.
Global Instance replay_request_typed : WireTyped WireReplayRequest := fun w =>
  is_u64 (wire_after_cursor w) ∧ is_u32 (wire_limit w).
Global Instance acknowledge_request_typed : WireTyped WireAcknowledgeRequest := fun w =>
  is_u64 (wire_ack_cursor w).

(** [prost::Message] of one generated type. *)
Class ProstMessage (M : Type) `{WireTyped M} := {
  encode_to_vec : M → bytes;
  encoded_len : M → Z;
  prost_decode : bytes → result string M;
  prost_decode_typed : ∀ b m, prost_decode b = Ok m → wire_typed m }.

(** [prost::encoding]: reading a key and skipping the value that follows. *)
Class ProstFraming := {
  decode_key : bytes → option (Z * WireType * bytes);
  skip_field : WireType → Z → bytes → option bytes }.

Class Prost := {
  prost_framing :: ProstFraming;
  prost_relay_envelope :: ProstMessage WireRelayEnvelope;
  prost_stored_envelope :: ProstMessage WireStoredRelayEnvelope;
  prost_replay_page :: ProstMessage WireReplayPage;
  prost_replay_request :: ProstMessage WireReplayRequest;
  prost_acknowledge :: ProstMessage WireAcknowledgeRequest }.

(** ** Bounded decoding ([v1/common.rs]) *)

Definition MAX_PROTOBUF_TOP_LEVEL_FIELDS : Z := 4096.

Definition require_input_size (b : bytes) (maximum : Z) (contract : string)
    : result KonclaveProtocolError unit :=
  fail_if (maximum <? len b) (EncodedMessageTooLarge contract maximum (len b)).

Definition malformed_wire (contract : string) : KonclaveProtocolError :=
  Decode contract "invalid Protocol Buffers framing".

Definition require_field_count (actual : Z) : result KonclaveProtocolError unit :=
  fail_if (MAX_PROTOBUF_TOP_LEVEL_FIELDS <? actual)
    (ProtocolDomain (OutOfRange "protobuf_top_level_fields" 0 MAX_PROTOBUF_TOP_LEVEL_FIELDS
                       actual)).

Definition reject_group (wire_type : WireType) (contract : string)
    : result KonclaveProtocolError unit :=
  fail_if (bool_decide (wire_type = StartGroup) || bool_decide (wire_type = EndGroup))
    (malformed_wire contract).

(** The [for (index, (field_number, maximum, field)) in limits] loop. *)
Fixpoint count_limited_field (tag : Z) (limits : list (Z * Z * string)) (counts : list Z)
    : result KonclaveProtocolError (list Z) :=
  match limits, counts with
  | (field_number, maximum, field) :: limits', count :: counts' =>
      if tag =? field_number then
        fail_if (maximum <? count + 1)
          (ProtocolDomain (OutOfRange field 0 maximum (count + 1)));;
        rest ← count_limited_field tag limits' counts'; Ok (count + 1 :: rest)
      else rest ← count_limited_field tag limits' counts'; Ok (count :: rest)
  | _, _ => Ok []
  end.

(** The [while remaining.has_remaining()] loop.  [allowed] is the number of fields the
    count still admits, so the loop is structural in it and its base case is the
    refusal by [require_field_count]. *)
Fixpoint scan_fields `{ProstFraming} (allowed : nat) (contract : string)
    (limits : list (Z * Z * string)) (counts : list Z) (field_count : Z) (remaining : bytes)
    : result KonclaveProtocolError unit :=
  match remaining, allowed with
  | [], _ => Ok ()
  | _, O => Err (ProtocolDomain (OutOfRange "protobuf_top_level_fields" 0
                                   MAX_PROTOBUF_TOP_LEVEL_FIELDS (field_count + 1)))
  | _, S allowed =>
      require_field_count (field_count + 1);;
      '(tag, wire_type, after_key) ← ok_or (decode_key remaining) (malformed_wire contract);
      reject_group wire_type contract;;
      counts' ← (if bool_decide (wire_type = LengthDelimited)
                 then count_limited_field tag limits counts else Ok counts);
      rest ← ok_or (skip_field wire_type tag after_key) (malformed_wire contract);
      scan_fields allowed contract limits counts' (field_count + 1) rest
  end.

Definition require_repeated_field_limits `{ProstFraming} (b : bytes) (maximum_bytes : Z)
    (contract : string) (limits : list (Z * Z * string)) : result KonclaveProtocolError unit :=
  require_input_size b maximum_bytes contract;;
  scan_fields (Z.to_nat MAX_PROTOBUF_TOP_LEVEL_FIELDS) contract limits (replicate (length limits) 0) 0 b.

Definition decode_bounded {M} `{ProstFraming, WireTyped M, !ProstMessage M}
    (b : bytes) (maximum : Z) (contract : string) : result KonclaveProtocolError M :=
  require_repeated_field_limits b maximum contract [];;
  map_err (Decode contract) (prost_decode b).

Definition encode_bounded {M} `{WireTyped M, !ProstMessage M} (message : M) (maximum : Z)
    (contract : string) : result KonclaveProtocolError bytes :=
  fail_if (maximum <? encoded_len message)
    (EncodedMessageTooLarge contract maximum (encoded_len message));;
  Ok (encode_to_vec message).

Definition required {T} (value : option T) (field : string) : result KonclaveProtocolError T :=
  ok_or value (MissingField field).

Definition version_to_wire (v : ProtocolVersion) : WireProtocolVersion :=
  mk_WireProtocolVersion (major v) (minor v).

Definition version_from_wire (value : option WireProtocolVersion) (contract : string)
    : result KonclaveProtocolError ProtocolVersion :=
  value ← required value "version";
  fail_if (negb (wire_major value =? 1)) (UnsupportedMajor contract (wire_major value));;
  map_err ProtocolDomain (ProtocolVersion_new (wire_major value) (wire_minor value)).

(** [id_conversion!]. *)
Definition id_from_wire (k : id_kind) (value : option bytes) (field : string)
    : result KonclaveProtocolError (FixedBytes k) :=
  value ← required value field;
  map_err ProtocolDomain (from_slice k value).

(** ** Relay contracts ([v1/relay.rs]) *)

Definition RELAY_CONTRACT : string := "RelayEnvelope".

(** The generated enumeration's discriminants. *)
Definition delivery_class_to_wire (c : DeliveryClass) : Z :=
  match c with
  | KeyPackage => 1 | Welcome => 2 | GroupProposal => 3 | GroupCommit => 4
  | GroupApplication => 5 | Pairing => 6
  end.

Definition delivery_class_from_wire (value : Z) : result KonclaveProtocolError DeliveryClass :=
  match value with
  | 1 => Ok KeyPackage
  | 2 => Ok Welcome
  | 3 => Ok GroupProposal
  | 4 => Ok GroupCommit
  | 5 => Ok GroupApplication
  | 6 => Ok Pairing
  | _ => Err (UnsupportedEnum "delivery_class" value)
  end.

Definition relay_to_wire (e : RelayEnvelope) : WireRelayEnvelope :=
  mk_WireRelayEnvelope (Some (version_to_wire (env_version e)))
    (Some (as_bytes (env_routing_id e))) (Some (as_bytes (env_envelope_id e)))
    (delivery_class_to_wire (env_delivery_class e)) (env_expected_parent_epoch e)
    (env_expires_at_unix_seconds e) (env_payload e).

Definition stored_to_wire (s : StoredRelayEnvelope) : WireStoredRelayEnvelope :=
  mk_WireStoredRelayEnvelope (Some (relay_to_wire (stored_envelope s))) (stored_cursor s).

Definition require_encoded_size {M} `{WireTyped M, !ProstMessage M} (wire : M) (maximum : Z)
    (contract : string) : result KonclaveProtocolError unit :=
  fail_if (maximum <? encoded_len wire)
    (EncodedMessageTooLarge contract maximum (encoded_len wire)).

Section contracts.
Context `{P : Prost}.

Definition relay_from_wire (wire : WireRelayEnvelope)
    : result KonclaveProtocolError RelayEnvelope :=
  require_encoded_size wire MAX_RELAY_ENVELOPE_BYTES RELAY_CONTRACT;;
  fail_if ((len (wire_payload wire) =? 0) || (MAX_RELAY_PAYLOAD_BYTES <? len (wire_payload wire)))
    (ProtocolDomain (OutOfRange "relay_payload" 1 MAX_RELAY_PAYLOAD_BYTES
                       (len (wire_payload wire))));;
  version ← version_from_wire (wire_version wire) RELAY_CONTRACT;
  routing_id ← id_from_wire KRoutingId (wire_routing_id wire) "routing_id";
  envelope_id ← id_from_wire KEnvelopeId (wire_envelope_id wire) "envelope_id";
  delivery_class ← delivery_class_from_wire (wire_delivery_class wire);
  map_err ProtocolDomain
    (RelayEnvelope_new version routing_id envelope_id delivery_class
       (wire_expected_parent_epoch wire) (wire_expires_at_unix_seconds wire)
       (wire_payload wire)).

Definition stored_from_wire (wire : WireStoredRelayEnvelope)
    : result KonclaveProtocolError StoredRelayEnvelope :=
  require_encoded_size wire STORED_RELAY_ENVELOPE_MAX_BYTES "StoredRelayEnvelope";;
  wire_env ← required (wire_envelope wire) "stored_relay_envelope.envelope";
  envelope ← relay_from_wire wire_env;
  map_err ProtocolDomain (StoredRelayEnvelope_new envelope (wire_cursor wire)).

Definition encode_relay_envelope (value : RelayEnvelope) : result KonclaveProtocolError bytes :=
  encode_bounded (relay_to_wire value) MAX_RELAY_ENVELOPE_BYTES RELAY_CONTRACT.

Definition decode_relay_envelope (b : bytes) : result KonclaveProtocolError RelayEnvelope :=
  wire ← decode_bounded b MAX_RELAY_ENVELOPE_BYTES RELAY_CONTRACT;
  relay_from_wire wire.

Definition encode_stored_relay_envelope (value : StoredRelayEnvelope)
    : result KonclaveProtocolError bytes :=
  encode_bounded (stored_to_wire value) STORED_RELAY_ENVELOPE_MAX_BYTES "StoredRelayEnvelope".

Definition decode_stored_relay_envelope (b : bytes)
    : result KonclaveProtocolError StoredRelayEnvelope :=
  wire ← decode_bounded b STORED_RELAY_ENVELOPE_MAX_BYTES "StoredRelayEnvelope";
  stored_from_wire wire.

(** The two appends that write one stored envelope. *)
Definition append_stored (encoded_envelope : bytes) (cursor : Z) (output : bytes) : bytes :=
  append_varint_field 2 cursor (append_length_delimited 1 encoded_envelope output).

Definition encode_stored_relay_envelope_preserving (encoded_envelope : bytes) (cursor : Z)
    : result KonclaveProtocolError bytes :=
  envelope ← decode_relay_envelope encoded_envelope;
  map_err ProtocolDomain (StoredRelayEnvelope_new envelope cursor);;
  encoded_length ← stored_preserving_length (len encoded_envelope) cursor;
  fail_if (STORED_RELAY_ENVELOPE_MAX_BYTES <? encoded_length)
    (EncodedMessageTooLarge "StoredRelayEnvelope" STORED_RELAY_ENVELOPE_MAX_BYTES
       encoded_length);;
  Ok (append_stored encoded_envelope cursor []).

Definition page_too_large (actual : Z) : KonclaveProtocolError :=
  EncodedMessageTooLarge "ReplayPage" MAX_REPLAY_PAGE_BYTES actual.

(** The sizing loop of [encode_replay_page_preserving]: the last cursor seen, the
    accumulated length and the length of each stored envelope. *)
Fixpoint page_lengths (envelopes : list (bytes * Z)) (previous_cursor : option Z)
    (encoded_length : Z) : result KonclaveProtocolError (option Z * Z * list Z) :=
  match envelopes with
  | [] => Ok (previous_cursor, encoded_length, [])
  | (encoded_envelope, cursor) :: rest =>
      decode_relay_envelope encoded_envelope;;
      fail_if ((cursor =? 0) || is_some_and previous_cursor (fun previous => cursor <=? previous))
        (ProtocolDomain InvalidReplayOrder);;
      stored_length ← stored_preserving_length (len encoded_envelope) cursor;
      delimited ← length_delimited_length stored_length;
      encoded_length ← ok_or (checked_add USIZE_MAX encoded_length delimited)
                         (page_too_large USIZE_MAX);
      '(last_cursor, total, lengths) ← page_lengths rest (Some cursor) encoded_length;
      Ok (last_cursor, total, stored_length :: lengths)
  end.

(** The writing loop. *)
Fixpoint append_page_envelopes (envelopes : list (bytes * Z)) (stored_lengths : list Z)
    (output : bytes) : bytes :=
  match envelopes, stored_lengths with
  | (encoded_envelope, cursor) :: rest, stored_length :: lengths =>
      append_page_envelopes rest lengths
        (append_stored encoded_envelope cursor
           (append_varint stored_length (append_key 1 2 output)))
  | _, _ => output
  end.

Definition encode_replay_page_preserving (envelopes : list (bytes * Z)) (next_cursor : Z)
    (has_more : bool) : result KonclaveProtocolError bytes :=
  fail_if (MAX_REPLAY_PAGE_SIZE <? len envelopes)
    (ProtocolDomain (OutOfRange "replay_envelopes" 0 MAX_REPLAY_PAGE_SIZE (len envelopes)));;
  '(previous_cursor, encoded_length, stored_lengths) ← page_lengths envelopes None 0;
  fail_if (is_some_and previous_cursor (fun cursor => next_cursor <? cursor))
    (ProtocolDomain InvalidReplayOrder);;
  encoded_length ← (if negb (next_cursor =? 0)
                    then ok_or (checked_add USIZE_MAX encoded_length
                                  (varint_field_length next_cursor)) (page_too_large USIZE_MAX)
                    else Ok encoded_length);
  encoded_length ← (if has_more
                    then ok_or (checked_add USIZE_MAX encoded_length 2) (page_too_large USIZE_MAX)
                    else Ok encoded_length);
  fail_if (MAX_REPLAY_PAGE_BYTES <? encoded_length) (page_too_large encoded_length);;
  let output := append_page_envelopes envelopes stored_lengths [] in
  let output := if negb (next_cursor =? 0) then append_varint_field 2 next_cursor output
                else output in
  Ok (if has_more then append_varint_field 3 1 output else output).

Definition encode_replay_page (value : ReplayPage) : result KonclaveProtocolError bytes :=
  encode_bounded
    (mk_WireReplayPage (stored_to_wire <$> page_envelopes value) (page_next_cursor value)
       (page_has_more value)) MAX_REPLAY_PAGE_BYTES "ReplayPage".

Definition decode_replay_page (b : bytes) : result KonclaveProtocolError ReplayPage :=
  require_repeated_field_limits b MAX_REPLAY_PAGE_BYTES "ReplayPage"
    [(1, MAX_REPLAY_PAGE_SIZE, "replay_envelopes"%string)];;
  wire ← decode_bounded (M := WireReplayPage) b MAX_REPLAY_PAGE_BYTES "ReplayPage";
  fail_if (MAX_REPLAY_PAGE_SIZE <? len (wire_envelopes wire))
    (ProtocolDomain (OutOfRange "replay_envelopes" 0 MAX_REPLAY_PAGE_SIZE
                       (len (wire_envelopes wire))));;
  envelopes ← traverse stored_from_wire (wire_envelopes wire);
  map_err ProtocolDomain
    (ReplayPage_new envelopes (wire_next_cursor wire) (wire_has_more wire)).

Definition encode_replay_request (value : ReplayRequest) : result KonclaveProtocolError bytes :=
  encode_bounded
    (mk_WireReplayRequest (Some (as_bytes (replay_routing_id value))) (replay_after_cursor value)
       (replay_limit value)) MAX_RELAY_CONTROL_MESSAGE_BYTES "ReplayRequest".

Definition decode_replay_request (b : bytes) : result KonclaveProtocolError ReplayRequest :=
  wire ← decode_bounded (M := WireReplayRequest) b MAX_RELAY_CONTROL_MESSAGE_BYTES
           "ReplayRequest";
  routing_id ← id_from_wire KRoutingId (wire_request_routing_id wire) "routing_id";
  map_err ProtocolDomain (ReplayRequest_new routing_id (wire_after_cursor wire) (wire_limit wire)).

Definition encode_acknowledge_request (value : AcknowledgeRequest)
    : result KonclaveProtocolError bytes :=
  encode_bounded
    (mk_WireAcknowledgeRequest (Some (as_bytes (ack_routing_id value))) (ack_cursor value))
    MAX_RELAY_CONTROL_MESSAGE_BYTES "AcknowledgeRequest".

Definition decode_acknowledge_request (b : bytes)
    : result KonclaveProtocolError AcknowledgeRequest :=
  wire ← decode_bounded (M := WireAcknowledgeRequest) b MAX_RELAY_CONTROL_MESSAGE_BYTES
           "AcknowledgeRequest";
  routing_id ← id_from_wire KRoutingId (wire_ack_routing_id wire) "routing_id";
  map_err ProtocolDomain (AcknowledgeRequest_new routing_id (wire_ack_cursor wire)).
End contracts.
