(* ===== verification/WireProofs.v ===== *)
(** * Theorems on the relay wire contracts

    The reference reader of Protocol Buffers records, the round trip of the
    byte-preserving replay-page encoder through it, exactness of its length
    computation, and what a successfully decoded envelope satisfies. *)

From S2P Require Import Prelude Identifiers RelayModel Wire.
Open Scope Z_scope.

(** ** Reference reader *)

Inductive field_value := FVarint (v : Z) | FBytes (b : bytes).

(** One record: a varint key [field << 3 | wire_type], then a varint or a
    length-delimited value. *)
Definition read_field (input : bytes) : option (Z * field_value * bytes) :=
  '(key, rest) ← read_varint input;
  match Z.land key 7 with
  | 0 => '(v, rest) ← read_varint rest; Some (Z.shiftr key 3, FVarint v, rest)
  | 2 => '(n, rest) ← read_varint rest;
         if n <=? len rest
         then Some (Z.shiftr key 3, FBytes (take (Z.to_nat n) rest), drop (Z.to_nat n) rest)
         else None
  | _ => None
  end.

Fixpoint read_fields_loop (fuel : nat) (input : bytes) : option (list (Z * field_value)) :=
  match input, fuel with
  | [], _ => Some []
  | _, O => None
  | _, S fuel =>
      '(field, value, rest) ← read_field input;
      fields ← read_fields_loop fuel rest;
      Some ((field, value) :: fields)
  end.

(** A record takes at least one byte, so the input's length is enough fuel. *)
Definition read_fields (input : bytes) : option (list (Z * field_value)) :=
  read_fields_loop (length input) input.

(** The message [StoredRelayEnvelope { envelope = 1; cursor = 2 }], its nested
    envelope kept as bytes. *)
Definition stored_field (acc : bytes * Z) (f : Z * field_value) : bytes * Z :=
  match f with
  | (1, FBytes b) => (b, acc.2)
  | (2, FVarint v) => (acc.1, v)
  | _ => acc
  end.

Definition read_stored (input : bytes) : option (bytes * Z) :=
  foldl stored_field ([], 0) <$> read_fields input.

(** The message [ReplayPage { envelopes = 1; next_cursor = 2; has_more = 3 }]. *)
Definition page_field (acc : option (list (bytes * Z) * Z * bool)) (f : Z * field_value)
    : option (list (bytes * Z) * Z * bool) :=
  '(envelopes, next_cursor, has_more) ← acc;
  match f with
  | (1, FBytes b) => stored ← read_stored b; Some (envelopes ++ [stored], next_cursor, has_more)
  | (2, FVarint v) => Some (envelopes, v, has_more)
  | (3, FVarint v) => Some (envelopes, next_cursor, negb (v =? 0))
  | _ => Some (envelopes, next_cursor, has_more)
  end.

Definition read_page (input : bytes) : option (list (bytes * Z) * Z * bool) :=
  fields ← read_fields input;
  foldl page_field (Some ([], 0, false)) fields.

(** ** The encoders append *)

Definition varint_record (field value : Z) : bytes := varint (Z.lor (Z.shiftl field 3) 0) ++ varint value.
Definition bytes_record (field : Z) (value : bytes) : bytes :=
  varint (Z.lor (Z.shiftl field 3) 2) ++ varint (len value) ++ value.

Lemma append_varint_field_app f v output :
  append_varint_field f v output = output ++ varint_record f v.
Proof.
  unfold append_varint_field, append_key. rewrite !append_varint_app. by rewrite <- app_assoc.
Qed.

Lemma append_length_delimited_app f v output :
  append_length_delimited f v output = output ++ bytes_record f v.
Proof.
  unfold append_length_delimited, append_key, bytes_record. rewrite !append_varint_app.
  by rewrite <- !app_assoc.
Qed.

Lemma append_stored_app e c output :
  append_stored e c output = output ++ bytes_record 1 e ++ varint_record 2 c.
Proof.
  unfold append_stored. rewrite append_varint_field_app, append_length_delimited_app.
  by rewrite <- app_assoc.
Qed.

(** ** Lengths *)

Lemma checked_add_bind_Ok {E} max a b (e : E) c :
  ok_or (checked_add max a b) e = Ok c → c = a + b.
Proof. intros H. inv_ok. apply checked_add_Some in H. lia. Qed.

Lemma length_delimited_length_Ok n l :
  0 <= n <= U64_MAX → length_delimited_length n = Ok l → l = 1 + len (varint n) + n.
Proof.
  intros Hn H. unfold length_delimited_length in H. inv_ok.
  apply bind_Some in H as (m & Hm & H). apply checked_add_Some in Hm, H.
  rewrite varint_length_spec in Hm by done. lia.
Qed.

Lemma bytes_record_len v : len (bytes_record 1 v) = 1 + len (varint (len v)) + len v.
Proof.
  unfold bytes_record. rewrite !len_app. replace (len (varint _)) with 1 at 1 by reflexivity. lia.
Qed.

Lemma varint_record_len f v :
  f = 2 ∨ f = 3 → 0 <= v <= U64_MAX → len (varint_record f v) = varint_field_length v.
Proof.
  intros Hf Hv. unfold varint_record, varint_field_length. rewrite len_app, varint_length_spec by done.
  by destruct Hf as [-> | ->].
Qed.

Lemma stored_preserving_length_Ok n c l :
  0 <= n <= U64_MAX → stored_preserving_length n c = Ok l →
  l = 1 + len (varint n) + n + varint_field_length c.
Proof.
  intros Hn H. unfold stored_preserving_length in H. inv_ok.
  apply length_delimited_length_Ok in Hr; [|done]. apply checked_add_Some in H. lia.
Qed.

(** ** Reading back *)

Lemma take_drop_len (v rest : bytes) :
  take (Z.to_nat (len v)) (v ++ rest) = v ∧ drop (Z.to_nat (len v)) (v ++ rest) = rest.
Proof. unfold len. rewrite Nat2Z.id. by rewrite take_app_length, drop_app_length. Qed.

Lemma read_bytes_record v rest :
  len v <= U64_MAX → read_field (bytes_record 1 v ++ rest) = Some (1, FBytes v, rest).
Proof.
  intros Hv. unfold bytes_record, read_field. rewrite <- !app_assoc.
  rewrite read_varint_append by (vm_compute; split; congruence). cbn -[len varint read_varint].
  rewrite read_varint_append by (split; [apply len_nonneg|done]). cbn -[len varint].
  rewrite len_app. pose proof (len_nonneg rest). destruct (Z.leb_spec (len v) (len v + len rest)); [|lia].
  by destruct (take_drop_len v rest) as [-> ->].
Qed.

Lemma read_varint_record f v rest :
  f = 2 ∨ f = 3 → 0 <= v <= U64_MAX →
  read_field (varint_record f v ++ rest) = Some (f, FVarint v, rest).
Proof.
  intros Hf Hv. unfold varint_record, read_field. rewrite <- !app_assoc.
  destruct Hf as [-> | ->];
    (rewrite read_varint_append by (vm_compute; split; congruence);
     cbn -[varint read_varint]; by rewrite read_varint_append by done).
Qed.

Lemma read_fields_loop_more fuel fuel' input fields :
  read_fields_loop fuel input = Some fields → (fuel <= fuel')%nat →
  read_fields_loop fuel' input = Some fields.
Proof.
  revert fuel' input fields. induction fuel as [|fuel IH]; intros fuel' input fields.
  - destruct input; simpl; [|done]. intros [= <-] _. by destruct fuel'.
  - destruct input as [|b input]; [intros [= <-] _; by destruct fuel'|].
    destruct fuel' as [|fuel']; [lia|]. cbn [read_fields_loop]. intros H Hle.
    apply bind_Some in H as ([[f v] rest] & Hf & H). rewrite Hf. simpl in *.
    apply bind_Some in H as (fs & Hfs & H). rewrite (IH fuel' rest fs Hfs) by lia. done.
Qed.

Lemma read_fields_cons record f v rest fields :
  record ≠ [] → read_field (record ++ rest) = Some (f, v, rest) →
  read_fields rest = Some fields → read_fields (record ++ rest) = Some ((f, v) :: fields).
Proof.
  intros Hne Hf Hrest. unfold read_fields. destruct record as [|b record]; [done|].
  cbn [app length read_fields_loop]. change (b :: record ++ rest) with ((b :: record) ++ rest).
  rewrite Hf. simpl. rewrite (read_fields_loop_more (length rest) _ rest fields); [done|done|].
  rewrite length_app. lia.
Qed.

Lemma varint_ne v : varint v ≠ [].
Proof.
  unfold varint, append_varint, varint_rounds. generalize 9%nat as fuel. intros fuel.
  cbn [append_varint_loop]. destruct (0x80 <=? v); [rewrite append_varint_loop_app|];
    intros H; discriminate H.
Qed.

Lemma bytes_record_ne f v : bytes_record f v ≠ [].
Proof. unfold bytes_record. intros [H _]%app_eq_nil. by apply varint_ne in H. Qed.

Lemma varint_record_ne f v : varint_record f v ≠ [].
Proof. unfold varint_record. intros [H _]%app_eq_nil. by apply varint_ne in H. Qed.

Lemma read_stored_record e c :
  len e <= U64_MAX → 0 <= c <= U64_MAX →
  read_stored (bytes_record 1 e ++ varint_record 2 c) = Some (e, c).
Proof.
  intros He Hc. unfold read_stored.
  rewrite (read_fields_cons _ 1 (FBytes e) _ [(2, FVarint c)]);
    [done|apply bytes_record_ne|by apply read_bytes_record|].
  rewrite <- (app_nil_r (varint_record 2 c)).
  apply read_fields_cons; [apply varint_record_ne|apply read_varint_record; auto|done].
Qed.

(** ** The page encoder *)

Section page.
Context `{P : Prost}.

(** The bytes one stored envelope takes in a page. *)
Definition page_record (e : bytes * Z) : bytes :=
  bytes_record 1 (bytes_record 1 e.1 ++ varint_record 2 e.2).

Definition page_trailer (next_cursor : Z) (has_more : bool) : bytes :=
  (if negb (next_cursor =? 0) then varint_record 2 next_cursor else [])
  ++ (if has_more then varint_record 3 1 else []).

(** The inputs the callers pass: byte strings that fit in memory and [u64] cursors. *)
Definition page_inputs (envelopes : list (bytes * Z)) (next_cursor : Z) : Prop :=
  (∀ e c, (e, c) ∈ envelopes → len e <= MAX_RELAY_ENVELOPE_BYTES ∧ 0 <= c <= U64_MAX)
  ∧ 0 <= next_cursor <= U64_MAX.

Lemma append_varint_loop_len fuel n v :
  (1 <= n)%nat → 0 <= v < 2 ^ (7 * Z.of_nat n) →
  len (append_varint_loop fuel v []) <= Z.of_nat n.
Proof.
  revert n v. induction fuel as [|fuel IH]; intros n v Hn Hv; cbn [append_varint_loop].
  { unfold len. simpl. lia. }
  destruct (Z.leb_spec 0x80 v) as [Hge|Hlt]; [|unfold len; simpl; lia].
  rewrite append_varint_loop_app, len_app.
  destruct n as [|[|n]]; [lia|change (2 ^ (7 * Z.of_nat 1)) with 128 in Hv; lia|].
  rewrite Z.shiftr_div_pow2 by lia.
  enough (len (append_varint_loop fuel (v / 2 ^ 7) []) <= Z.of_nat (S n)) by (unfold len in *; simpl in *; lia).
  apply IH; [lia|]. split; [apply Z.div_pos; lia|]. apply Z.div_lt_upper_bound; [lia|].
  rewrite <- Z.pow_add_r by lia.
  replace (7 + 7 * Z.of_nat (S n)) with (7 * Z.of_nat (S (S n))) by lia. lia.
Qed.

Lemma varint_len_u64 v : 0 <= v <= U64_MAX → len (varint v) <= 10.
Proof.
  intros Hv. apply (append_varint_loop_len _ 10); [lia|].
  assert (U64_MAX < 2 ^ (7 * Z.of_nat 10)) by reflexivity. lia.
Qed.

Lemma varint_len_small v : 0 <= v < 2 ^ 21 → len (varint v) <= 3.
Proof. intros Hv. by apply (append_varint_loop_len _ 3); [lia|]. Qed.

Lemma stored_record_len e c :
  len e <= MAX_RELAY_ENVELOPE_BYTES → 0 <= c <= U64_MAX →
  len (bytes_record 1 e ++ varint_record 2 c)
  = 1 + len (varint (len e)) + len e + varint_field_length c.
Proof.
  intros He Hc. rewrite len_app, bytes_record_len, varint_record_len; [lia|auto|done].
Qed.

Lemma len_envelope_u64 (e : bytes) : len e <= MAX_RELAY_ENVELOPE_BYTES → 0 <= len e <= U64_MAX.
Proof.
  intros He. split; [apply len_nonneg|].
  assert (MAX_RELAY_ENVELOPE_BYTES <= U64_MAX) by (vm_compute; congruence). lia.
Qed.

Lemma page_record_u64 e c :
  len e <= MAX_RELAY_ENVELOPE_BYTES → 0 <= c <= U64_MAX →
  0 <= len (bytes_record 1 e ++ varint_record 2 c) < 2 ^ 21.
Proof.
  intros He Hc. pose proof (len_envelope_u64 e He) as He'.
  split; [apply len_nonneg|]. rewrite stored_record_len by done.
  unfold varint_field_length. rewrite varint_length_spec by done.
  pose proof (varint_len_u64 _ He'). pose proof (varint_len_u64 _ Hc).
  assert (MAX_RELAY_ENVELOPE_BYTES = 2 ^ 20) by reflexivity. lia.
Qed.

(** Writing with the computed lengths produces one record per envelope. *)
Lemma append_page_envelopes_spec envelopes previous total last total' lengths output :
  (∀ e c, (e, c) ∈ envelopes → len e <= MAX_RELAY_ENVELOPE_BYTES ∧ 0 <= c <= U64_MAX) →
  page_lengths envelopes previous total = Ok (last, total', lengths) →
  append_page_envelopes envelopes lengths output
    = output ++ concat (page_record <$> envelopes)
  ∧ total' = total + len (concat (page_record <$> envelopes)).
Proof.
  revert previous total total' lengths output.
  induction envelopes as [|[e c] rest IH]; intros previous total total' lengths output Hin H.
  { simpl in H. inv_ok. simplify_eq. simpl. unfold len. simpl. rewrite app_nil_r. split; [done|lia]. }
  destruct (Hin e c (list_elem_of_here _ _)) as [He Hc].
  cbn [page_lengths] in H. inv_ok. destruct r4 as [[last' total''] lengths'].
  simplify_eq. apply stored_preserving_length_Ok in Hr1; [|by apply len_envelope_u64].
  rewrite <- stored_record_len in Hr1 by done. subst r1.
  pose proof (page_record_u64 e c He Hc).
  apply length_delimited_length_Ok in Hr2; [|unfold U64_MAX; lia].
  apply checked_add_Some in Hr3.
  eapply IH in Hr4 as [Happ Htot]; [|by intros; apply Hin; right].
  change (page_record <$> (e, c) :: rest) with (page_record (e, c) :: (page_record <$> rest)).
  cbn [append_page_envelopes concat]. split.
  - rewrite Happ, append_stored_app. unfold append_key. rewrite !append_varint_app.
    change (page_record (e, c)) with (bytes_record 1 (bytes_record 1 e ++ varint_record 2 c)).
    unfold bytes_record at 3. by rewrite <- !app_assoc.
  - rewrite len_app. change (page_record (e, c)) with
      (bytes_record 1 (bytes_record 1 e ++ varint_record 2 c)).
    rewrite bytes_record_len. lia.
Qed.

(** Cursors strictly increase from [previous]. *)
Fixpoint increasing_from (previous : Z) (cursors : list Z) : Prop :=
  match cursors with
  | [] => True
  | c :: rest => previous < c ∧ increasing_from c rest
  end.

(** What the encoder requires of the envelopes it embeds. *)
Record page_accepted (envelopes : list (bytes * Z)) (next_cursor : Z) : Prop := {
  accepted_count : len envelopes <= MAX_REPLAY_PAGE_SIZE;
  accepted_decode : ∀ e c, (e, c) ∈ envelopes → is_ok (decode_relay_envelope e) = true;
  accepted_order : increasing_from 0 envelopes.*2;
  accepted_next : ∀ c, last envelopes.*2 = Some c → c <= next_cursor }.

Definition page_bytes (envelopes : list (bytes * Z)) (next_cursor : Z) (has_more : bool) : bytes :=
  concat (page_record <$> envelopes) ++ page_trailer next_cursor has_more.

Lemma last_cons_default {A} (x : A) l d :
  match last (x :: l) with Some y => Some y | None => d end
  = match last l with Some y => Some y | None => Some x end.
Proof. rewrite last_cons. by destruct (last l). Qed.

Lemma page_lengths_sound envelopes previous total last_cursor total' lengths :
  (∀ e c, (e, c) ∈ envelopes → len e <= MAX_RELAY_ENVELOPE_BYTES ∧ 0 <= c <= U64_MAX) →
  page_lengths envelopes previous total = Ok (last_cursor, total', lengths) →
  (∀ e c, (e, c) ∈ envelopes → is_ok (decode_relay_envelope e) = true)
  ∧ increasing_from (default 0 previous) envelopes.*2
  ∧ last_cursor = match last envelopes.*2 with Some c => Some c | None => previous end.
Proof.
  revert previous total total' lengths.
  induction envelopes as [|[e c] rest IH]; intros previous total total' lengths Hin H.
  { simpl in H. inv_ok. simplify_eq. simpl. split; [|done]. intros e c He. by apply elem_of_nil in He. }
  destruct (Hin e c (list_elem_of_here _ _)) as [He Hc].
  cbn [page_lengths] in H. inv_ok. destruct r4 as [[last' total''] lengths']. simplify_eq.
  eapply IH in Hr4 as (Hdec & Hinc & ->); [|by intros; apply Hin; right].
  rewrite fmap_cons, last_cons_default. split; [|split; [|done]].
  - intros e' c' [[= -> ->]|Hin']%elem_of_cons; [by rewrite Hr|by eapply Hdec].
  - simpl. split; [|done]. bool_prop. destruct previous; simpl in *; bool_prop; lia.
Qed.

Lemma length_delimited_length_complete n :
  0 <= n <= U64_MAX → 1 + len (varint n) + n <= USIZE_MAX →
  length_delimited_length n = Ok (1 + len (varint n) + n).
Proof.
  intros Hn Hmax. unfold length_delimited_length. rewrite varint_length_spec by done.
  pose proof (len_nonneg (varint n)).
  rewrite checked_add_fits by lia. simpl. by rewrite checked_add_fits by lia.
Qed.

Lemma stored_preserving_length_complete e c :
  len e <= MAX_RELAY_ENVELOPE_BYTES → 0 <= c <= U64_MAX →
  stored_preserving_length (len e) c = Ok (len (bytes_record 1 e ++ varint_record 2 c)).
Proof.
  intros He Hc. pose proof (page_record_u64 e c He Hc) as Hb.
  pose proof (len_envelope_u64 e He) as He'. unfold stored_preserving_length.
  rewrite stored_record_len in * by done. assert (2 ^ 21 <= USIZE_MAX) by (vm_compute; congruence).
  assert (0 <= varint_field_length c)
    by (unfold varint_field_length; rewrite varint_length_spec by done;
        pose proof (len_nonneg (varint c)); lia).
  rewrite length_delimited_length_complete by lia. cbn [mbind result_bind].
  by rewrite checked_add_fits by lia.
Qed.

Lemma page_lengths_complete envelopes previous total :
  (∀ e c, (e, c) ∈ envelopes → len e <= MAX_RELAY_ENVELOPE_BYTES ∧ 0 <= c <= U64_MAX) →
  (∀ e c, (e, c) ∈ envelopes → is_ok (decode_relay_envelope e) = true) →
  0 <= default 0 previous → increasing_from (default 0 previous) envelopes.*2 →
  total + len (concat (page_record <$> envelopes)) <= USIZE_MAX → 0 <= total →
  ∃ last_cursor total' lengths,
    page_lengths envelopes previous total = Ok (last_cursor, total', lengths).
Proof.
  revert previous total. induction envelopes as [|[e c] rest IH];
    intros previous total Hin Hdec Hprev Hinc Hmax Htotal; [simpl; eauto|].
  destruct (Hin e c (list_elem_of_here _ _)) as [He Hc].
  change (page_record <$> (e, c) :: rest) with (page_record (e, c) :: (page_record <$> rest)) in Hmax.
  cbn [concat] in Hmax. rewrite len_app in Hmax. unfold page_record at 1 in Hmax.
  rewrite bytes_record_len in Hmax. cbn [fst snd] in Hmax.
  pose proof (page_record_u64 e c He Hc) as Hb.
  pose proof (len_nonneg (concat (page_record <$> rest))).
  pose proof (len_nonneg (varint (len (bytes_record 1 e ++ varint_record 2 c)))).
  cbn [page_lengths]. pose proof (Hdec e c (list_elem_of_here _ _)) as Hd.
  destruct (decode_relay_envelope e); [|done]. cbn [mbind result_bind].
  simpl in Hinc. destruct Hinc as [Hlt Hinc].
  pass_guard by (destruct previous; simpl in *; lia).
  rewrite stored_preserving_length_complete by done. cbn [mbind result_bind].
  rewrite length_delimited_length_complete by (unfold U64_MAX; lia). cbn [mbind result_bind].
  rewrite checked_add_fits by lia.
  cbn [ok_or mbind result_bind].
  destruct (IH (Some c) (total + (1 + len (varint (len (bytes_record 1 e ++ varint_record 2 c)))
                                  + len (bytes_record 1 e ++ varint_record 2 c))))
    as (l & t & ls & ->); [by intros; apply Hin; right|by intros; eapply Hdec; right|simpl; lia|done|lia|lia|].
  simpl. eauto.
Qed.

Lemma page_trailer_len next_cursor has_more :
  0 <= next_cursor <= U64_MAX →
  len (page_trailer next_cursor has_more)
  = (if negb (next_cursor =? 0) then varint_field_length next_cursor else 0)
    + (if has_more then 2 else 0).
Proof.
  intros Hn. unfold page_trailer. rewrite len_app. f_equal.
  - destruct (negb _); [|done]. by apply varint_record_len; [left|].
  - by destruct has_more.
Qed.

Lemma varint_field_length_nonneg v : 0 <= v <= U64_MAX → 0 <= varint_field_length v.
Proof.
  intros Hv. unfold varint_field_length. rewrite varint_length_spec by done.
  pose proof (len_nonneg (varint v)). lia.
Qed.

(** The encoder succeeds exactly on accepted pages that fit, and writes one record per
    envelope followed by the trailer. *)
Lemma encode_page_Ok envelopes next_cursor has_more out
    (Hinputs : page_inputs envelopes next_cursor) :
  encode_replay_page_preserving envelopes next_cursor has_more = Ok out ↔
  page_accepted envelopes next_cursor
  ∧ len (page_bytes envelopes next_cursor has_more) <= MAX_REPLAY_PAGE_BYTES
  ∧ out = page_bytes envelopes next_cursor has_more.
Proof.
  destruct Hinputs as [Hin Hnext].
  pose proof (page_trailer_len next_cursor has_more Hnext) as Htrail.
  pose proof (varint_field_length_nonneg _ Hnext).
  unfold encode_replay_page_preserving, page_bytes. rewrite len_app, Htrail.
  unfold page_trailer. clear Htrail. generalize (negb (next_cursor =? 0)). intros nonzero.
  split.
  - intros H'. apply bind_Ok in H' as (? & Hr & H'). apply fail_if_Ok in Hr.
    apply bind_Ok in H' as ([[last_cursor total] lengths] & Hr0 & H').
    apply bind_Ok in H' as (? & Hr1 & H'). apply fail_if_Ok in Hr1.
    destruct (append_page_envelopes_spec _ _ _ _ _ _ [] Hin Hr0) as [Happ Htot].
    destruct (page_lengths_sound _ _ _ _ _ _ Hin Hr0) as (Hdec & Hinc & Hlast).
    rewrite Happ in H'. split.
    + split; [lia|done|done|]. intros c Hc. rewrite Hc in Hlast. subst last_cursor.
      simpl in *. lia.
    + destruct nonzero, has_more; inv_ok; subst out;
        repeat match goal with H : checked_add _ _ _ = Some _ |- _ => apply checked_add_Some in H end;
        rewrite ?append_varint_field_app, ?app_nil_r, <- ?app_assoc; (split; [lia|done]).
  - intros ([A1 A2 A3 A4] & Hlen & ->).
    assert (MAX_REPLAY_PAGE_BYTES <= USIZE_MAX) by (vm_compute; congruence).
    pose proof (len_nonneg (concat (page_record <$> envelopes))).
    destruct (page_lengths_complete envelopes None 0 Hin A2) as (lc & total & ls & Hpl);
      [simpl; lia|done|destruct nonzero, has_more; lia|lia|].
    destruct (append_page_envelopes_spec _ _ _ _ _ _ [] Hin Hpl) as [Happ Htot].
    destruct (page_lengths_sound _ _ _ _ _ _ Hin Hpl) as (_ & _ & Hlast).
    pass_guard by lia. rewrite Hpl. cbn [mbind result_bind]. rewrite Happ.
    pass_guard by (rewrite Hlast; destruct (last _) eqn:El; simpl;
                   [apply Z.ltb_ge; by apply A4|done]).
    destruct nonzero, has_more; cbv iota in Hlen |- *; cbn [mbind result_bind];
      repeat (rewrite checked_add_fits by lia; cbn [ok_or mbind result_bind]);
      cbn [mbind result_bind]; pass_guard by lia;
      rewrite ?append_varint_field_app, ?app_nil_r; by rewrite <- ?app_assoc.
Qed.

Definition trailer_fields (next_cursor : Z) (has_more : bool) : list (Z * field_value) :=
  (if negb (next_cursor =? 0) then [(2, FVarint next_cursor)] else [])
  ++ (if has_more then [(3, FVarint 1)] else []).

Definition page_envelope_field (e : bytes * Z) : Z * field_value :=
  (1, FBytes (bytes_record 1 e.1 ++ varint_record 2 e.2)).

Lemma read_trailer next_cursor has_more :
  0 <= next_cursor <= U64_MAX →
  read_fields (page_trailer next_cursor has_more) = Some (trailer_fields next_cursor has_more).
Proof.
  intros Hn. unfold page_trailer, trailer_fields.
  assert (Hmore : read_fields (if has_more then varint_record 3 1 else [])
                  = Some (if has_more then [(3, FVarint 1)] else [])) by (by destruct has_more).
  destruct (negb _); [|done]. apply read_fields_cons; [apply varint_record_ne| |done].
  apply read_varint_record; auto.
Qed.

Lemma read_page_fields envelopes next_cursor has_more :
  page_inputs envelopes next_cursor →
  read_fields (page_bytes envelopes next_cursor has_more)
  = Some ((page_envelope_field <$> envelopes) ++ trailer_fields next_cursor has_more).
Proof.
  intros [Hin Hn]. unfold page_bytes. induction envelopes as [|[e c] rest IH].
  { by apply read_trailer. }
  destruct (Hin e c (list_elem_of_here _ _)) as [He Hc].
  change (page_record <$> (e, c) :: rest) with (page_record (e, c) :: (page_record <$> rest)).
  cbn [concat]. rewrite <- app_assoc. apply read_fields_cons.
  - apply bytes_record_ne.
  - apply read_bytes_record. pose proof (page_record_u64 e c He Hc). cbn [fst snd]. unfold U64_MAX. lia.
  - apply IH. by intros; apply Hin; right.
Qed.

Lemma fold_page_envelopes envelopes fields acc next_cursor has_more :
  (∀ e c, (e, c) ∈ envelopes → len e <= MAX_RELAY_ENVELOPE_BYTES ∧ 0 <= c <= U64_MAX) →
  foldl page_field (Some (acc, next_cursor, has_more))
    ((page_envelope_field <$> envelopes) ++ fields)
  = foldl page_field (Some (acc ++ envelopes, next_cursor, has_more)) fields.
Proof.
  revert acc. induction envelopes as [|[e c] rest IH]; intros acc Hin; [by rewrite app_nil_r|].
  destruct (Hin e c (list_elem_of_here _ _)) as [He Hc].
  change (page_envelope_field <$> (e, c) :: rest)
    with (page_envelope_field (e, c) :: (page_envelope_field <$> rest)).
  cbn [app foldl]. unfold page_field at 2, page_envelope_field at 1. cbn [mbind option_bind fst snd].
  rewrite read_stored_record by (done || by apply len_envelope_u64). cbn [mbind option_bind].
  rewrite IH by (by intros; apply Hin; right). by rewrite <- app_assoc.
Qed.

(** The byte-preserving page encoder round-trips.  Given envelope encodings within
    the relay bound and [u64] cursors, whenever [encode_replay_page_preserving] succeeds
    the page has at most 100 decodable envelopes with positive strictly increasing
    cursors not above [next_cursor], its size is within 16 MiB, and a reader of the
    Protocol Buffers record syntax gets back exactly the original envelope byte strings
    (unknown fields included), their cursors, the next cursor and the continuation flag. *)
Theorem replay_page_roundtrip envelopes next_cursor has_more out
    (Hinputs : page_inputs envelopes next_cursor)
    (Hencode : encode_replay_page_preserving envelopes next_cursor has_more = Ok out) :
  page_accepted envelopes next_cursor ∧ len out <= MAX_REPLAY_PAGE_BYTES
  ∧ read_page out = Some (envelopes, next_cursor, has_more).
Proof.
  apply encode_page_Ok in Hencode as (Hacc & Hlen & ->); [|done].
  split; [done|]. split; [done|]. unfold read_page. rewrite read_page_fields by done.
  cbn [mbind option_bind]. destruct Hinputs as [Hin _].
  rewrite fold_page_envelopes by done. unfold trailer_fields.
  destruct (Z.eqb_spec next_cursor 0) as [->|Hn]; by destruct has_more.
Qed.
End page.

(** ** What a decoded envelope satisfies *)

(** The integer ranges and the version of an envelope that came off the wire. *)
Record envelope_ranges (e : RelayEnvelope) : Prop := {
  range_major : major (env_version e) = 1;
  range_minor : is_u32 (minor (env_version e));
  range_epoch : ∀ n, env_expected_parent_epoch e = Some n → is_u64 n;
  range_expiry : is_u64 (env_expires_at_unix_seconds e) }.

Section decoding.
Context `{P : Prost}.

Lemma relay_from_wire_Ok w e :
  wire_typed w → relay_from_wire w = Ok e → envelope_valid e ∧ envelope_ranges e.
Proof.
  intros (Hv & Hepoch & Hexp) H. unfold relay_from_wire in H. inv_ok.
  apply RelayEnvelope_new_Ok in H as [-> Hvalid]. split; [done|].
  unfold version_from_wire, ProtocolVersion_new in Hr1. inv_ok. unfold required in *. inv_ok.
  destruct (Hv _ Hr5). subst. bool_prop. by split; simpl.
Qed.

Lemma decode_relay_envelope_Ok b e :
  decode_relay_envelope b = Ok e →
  len b <= MAX_RELAY_ENVELOPE_BYTES ∧ envelope_valid e ∧ envelope_ranges e.
Proof.
  intros H. unfold decode_relay_envelope, decode_bounded, require_repeated_field_limits,
    require_input_size in H. inv_ok. bool_prop. split; [lia|].
  eapply relay_from_wire_Ok; [|done]. by eapply prost_decode_typed.
Qed.

Lemma delivery_class_wire_roundtrip c :
  delivery_class_from_wire (delivery_class_to_wire c) = Ok c.
Proof. by destruct c. Qed.

(** The domain-to-wire mapping of envelopes is invertible.  Every valid version-1
    envelope whose encoding is within the relay bound is rebuilt unchanged from its
    generated message, through every validation [relay_from_wire] performs. *)
Theorem relay_wire_roundtrip e
    (Hvalid : envelope_valid e) (Hmajor : major (env_version e) = 1)
    (Hsize : encoded_len (relay_to_wire e) <= MAX_RELAY_ENVELOPE_BYTES) :
  relay_from_wire (relay_to_wire e) = Ok e.
Proof.
  unfold relay_from_wire, require_encoded_size.
  pose proof (envelope_payload_bounds _ Hvalid) as [V1 V2].
  pass_guard by lia. pass_guard by (simpl; lia).
  destruct e as [[ma mi] r i c p x payload]. simpl in *. subst ma.
  unfold version_from_wire, ProtocolVersion_new, id_from_wire. simpl.
  rewrite !from_slice_as_bytes. simpl. rewrite delivery_class_wire_roundtrip. simpl.
  by rewrite (proj2 (RelayEnvelope_new_Ok _ _ _ _ _ _ _ _) (conj eq_refl Hvalid)).
Qed.
End decoding.
