(* ===== verification/PageDecoding.v ===== *)
(** * Decoding the replay pages the relay encodes

    The byte-preserving encoder writes a page record by record without the Protocol Buffers
    library; whoever receives the page decodes it with that library.  [ProstLaws] states
    what is relied on of the library for this, and [decode_page_bytes] that the decoder of
    [v1/relay.rs] returns the embedded envelopes with their cursors. *)

From S2P Require Import Prelude Identifiers RelayModel Wire WireProofs.
Open Scope Z_scope.

(** What the Protocol Buffers library documents of the records the relay writes.  A key is
    the field number and the wire type; skipping a value leaves what follows it; a message
    is decoded from its records, a repeated field in order; a message is encoded with its
    fields in order, a scalar of value zero left out; and the encoded length is the length of
    the encoding.  The library refuses input that nests too deeply, so an envelope that is
    embedded in a page, two messages further down, has to leave room: [embeddable] are the
    bytes that do. *)
Class ProstLaws `{Prost} := {
  embeddable : bytes → Prop;
  law_varint_key field rest : 1 <= field <= 3 →
    decode_key (varint (Z.lor (Z.shiftl field 3) 0) ++ rest) = Some (field, Varint, rest);
  law_bytes_key field rest : 1 <= field <= 3 →
    decode_key (varint (Z.lor (Z.shiftl field 3) 2) ++ rest) = Some (field, LengthDelimited, rest);
  law_skip_varint field v rest : 0 <= v <= U64_MAX →
    skip_field Varint field (varint v ++ rest) = Some rest;
  law_skip_bytes field v rest : len v <= U64_MAX →
    skip_field LengthDelimited field (varint (len v) ++ v ++ rest) = Some rest;
  law_decode_page (envelopes : list (bytes * Z)) (wires : list WireRelayEnvelope) next_cursor has_more :
    page_inputs envelopes next_cursor →
    Forall2 (fun e w => embeddable e.1 ∧ prost_decode e.1 = Ok w) envelopes wires →
    prost_decode (page_bytes envelopes next_cursor has_more)
    = Ok (mk_WireReplayPage
            (zip_with (fun e w => mk_WireStoredRelayEnvelope (Some w) e.2) envelopes wires) next_cursor has_more);
  law_encode_stored (w : WireRelayEnvelope) cursor :
    encode_to_vec (mk_WireStoredRelayEnvelope (Some w) cursor)
    = bytes_record 1 (encode_to_vec w) ++ (if cursor =? 0 then [] else varint_record 2 cursor);
  law_relay_len (w : WireRelayEnvelope) : encoded_len w = len (encode_to_vec w);
  law_stored_len (w : WireStoredRelayEnvelope) : encoded_len w = len (encode_to_vec w) }.

Section decoding.
Context `{P : Prost} `{L : !ProstLaws}.

(** ** The field scan *)

Lemma scan_bytes_record allowed contract limits counts counts' field_count v rest :
  len v <= U64_MAX → field_count + 1 <= MAX_PROTOBUF_TOP_LEVEL_FIELDS →
  count_limited_field 1 limits counts = Ok counts' →
  scan_fields (S allowed) contract limits counts field_count (bytes_record 1 v ++ rest)
  = scan_fields allowed contract limits counts' (field_count + 1) rest.
Proof.
  intros Hv Hc Hlim. destruct (bytes_record 1 v ++ rest) as [|b input] eqn:E.
  { apply app_eq_nil in E as [E _]. by apply bytes_record_ne in E. }
  cbn [scan_fields]. rewrite <- E. unfold require_field_count. pass_guard by lia.
  unfold bytes_record. rewrite <- !app_assoc, law_bytes_key by lia. cbn [ok_or mbind result_bind].
  replace (reject_group LengthDelimited contract) with (Ok () : result KonclaveProtocolError unit) by done. cbn [mbind result_bind].
  rewrite bool_decide_eq_true_2 by done. rewrite Hlim. cbn [mbind result_bind]. by rewrite law_skip_bytes.
Qed.

Lemma scan_varint_record allowed contract limits counts field_count field v rest :
  1 <= field <= 3 → 0 <= v <= U64_MAX → field_count + 1 <= MAX_PROTOBUF_TOP_LEVEL_FIELDS →
  scan_fields (S allowed) contract limits counts field_count (varint_record field v ++ rest)
  = scan_fields allowed contract limits counts (field_count + 1) rest.
Proof.
  intros Hf Hv Hc. destruct (varint_record field v ++ rest) as [|b input] eqn:E.
  { apply app_eq_nil in E as [E _]. by apply varint_record_ne in E. }
  cbn [scan_fields]. rewrite <- E. unfold require_field_count. pass_guard by lia.
  unfold varint_record. rewrite <- !app_assoc, law_varint_key by lia. cbn [ok_or mbind result_bind].
  replace (reject_group Varint contract) with (Ok () : result KonclaveProtocolError unit) by done. cbn [mbind result_bind].
  rewrite bool_decide_eq_false_2 by done. cbn [mbind result_bind]. by rewrite law_skip_varint.
Qed.

(** The limits admit [n] more records of the envelopes field. *)
Fixpoint admits (n : nat) (limits : list (Z * Z * string)) (counts : list Z) : Prop :=
  match n with
  | O => True
  | S n => ∃ counts', count_limited_field 1 limits counts = Ok counts' ∧ admits n limits counts'
  end.

Lemma admits_unlimited n : admits n [] [].
Proof. induction n as [|n IH]; cbn; [done|]. by exists []. Qed.

Lemma admits_within n maximum field count :
  count + Z.of_nat n <= maximum → admits n [(1, maximum, field)] [count].
Proof.
  revert count. induction n as [|n IH]; intros count Hn; cbn [admits]; [done|]. exists [count + 1].
  split; [cbn [count_limited_field]; rewrite Z.eqb_refl; by pass_guard by lia|]. apply IH. lia.
Qed.

Lemma scan_trailer allowed contract limits counts field_count next_cursor has_more :
  (2 <= allowed)%nat → 0 <= next_cursor <= U64_MAX → field_count + 2 <= MAX_PROTOBUF_TOP_LEVEL_FIELDS →
  scan_fields allowed contract limits counts field_count (page_trailer next_cursor has_more) = Ok ().
Proof.
  intros Ha Hn Hc. destruct allowed as [|[|allowed]]; [lia|lia|]. unfold page_trailer.
  assert (0 <= 1 <= U64_MAX) by (unfold U64_MAX; lia).
  assert (Hmore : ∀ k fc, fc + 1 <= MAX_PROTOBUF_TOP_LEVEL_FIELDS →
    scan_fields (S k) contract limits counts fc (if has_more then varint_record 3 1 else []) = Ok ()).
  { intros k fc Hfc. destruct has_more; [|done]. rewrite <- (app_nil_r (varint_record 3 1)).
    rewrite scan_varint_record by lia. by destruct k. }
  destruct (negb (next_cursor =? 0)); cbn [app]; [|apply Hmore; lia].
  rewrite scan_varint_record by lia. apply Hmore. lia.
Qed.

Lemma scan_page envelopes next_cursor has_more allowed contract limits counts field_count :
  page_inputs envelopes next_cursor → admits (length envelopes) limits counts →
  (length envelopes + 2 <= allowed)%nat →
  field_count + len envelopes + 2 <= MAX_PROTOBUF_TOP_LEVEL_FIELDS →
  scan_fields allowed contract limits counts field_count (page_bytes envelopes next_cursor has_more) = Ok ().
Proof.
  intros [Hin Hn]. revert allowed counts field_count.
  induction envelopes as [|[e c] envelopes IH]; intros allowed counts field_count Had Hal Hfc; unfold page_bytes.
  { cbn in *. apply scan_trailer; [lia|done|unfold len in Hfc; cbn in Hfc; lia]. }
  destruct Had as (counts' & Hcount & Had). cbn [length] in Hal. destruct allowed as [|allowed]; [lia|].
  unfold len in Hfc. cbn [length] in Hfc. destruct (Hin e c (list_elem_of_here _ _)) as [He Hc].
  rewrite fmap_cons. cbn [concat]. rewrite <- app_assoc. unfold page_record at 1. cbn [fst snd].
  pose proof (page_record_u64 e c He Hc). rewrite (scan_bytes_record _ _ _ _ counts'); [|unfold U64_MAX; lia|lia|done].
  apply IH; [by intros; apply Hin; right|done|lia|unfold len; lia].
Qed.

(** ** Messages *)

Lemma varint_len_positive v : 1 <= len (varint v).
Proof. pose proof (varint_ne v). destruct (varint v); [done|]. unfold len. cbn. lia. Qed.

Lemma decode_relay_inv e envelope :
  decode_relay_envelope e = Ok envelope →
  ∃ w, prost_decode e = Ok w ∧ relay_from_wire w = Ok envelope ∧ encoded_len w <= MAX_RELAY_ENVELOPE_BYTES.
Proof.
  unfold decode_relay_envelope, decode_bounded. intros H. apply bind_Ok in H as (w & Hw & H).
  apply bind_Ok in Hw as (? & _ & Hw). apply map_err_Ok in Hw. exists w. split_and!; [done|done|].
  unfold relay_from_wire, require_encoded_size in H. apply bind_Ok in H as (? & Hlen%fail_if_Ok & _). lia.
Qed.

Lemma stored_from_embedded w envelope cursor :
  relay_from_wire w = Ok envelope → encoded_len w <= MAX_RELAY_ENVELOPE_BYTES → 1 <= cursor <= U64_MAX →
  stored_from_wire (mk_WireStoredRelayEnvelope (Some w) cursor) = Ok (mk_StoredRelayEnvelope envelope cursor).
Proof.
  intros Hw Hlen Hc. unfold stored_from_wire, require_encoded_size.
  pass_guard by (rewrite law_stored_len, law_encode_stored, len_app, bytes_record_len;
    rewrite law_relay_len in Hlen; destruct (cursor =? 0) eqn:E; [lia|];
    rewrite varint_record_len by (auto || lia); unfold varint_field_length; rewrite varint_length_spec by lia;
    pose proof (varint_len_u64 cursor ltac:(lia)); unfold STORED_RELAY_ENVELOPE_MAX_BYTES;
    pose proof (varint_len_u64 _ (len_envelope_u64 (encode_to_vec w) Hlen)); lia).
  cbn [wire_envelope required ok_or mbind result_bind]. rewrite Hw. cbn [mbind result_bind wire_cursor].
  unfold StoredRelayEnvelope_new, require_positive. by pass_guard by lia.
Qed.

(** The message of a stored envelope that was embedded with its cursor. *)
Definition embeds (e : bytes * Z) (s : StoredRelayEnvelope) : Prop :=
  decode_relay_envelope e.1 = Ok (stored_envelope s) ∧ stored_cursor s = e.2.

Lemma embeds_wires envelopes stored :
  Forall2 embeds envelopes stored → (∀ e, e ∈ envelopes → embeddable e.1 ∧ 1 <= e.2 <= U64_MAX) →
  ∃ wires, Forall2 (fun e w => embeddable e.1 ∧ prost_decode e.1 = Ok w) envelopes wires
    ∧ traverse stored_from_wire (zip_with (fun e w => mk_WireStoredRelayEnvelope (Some w) e.2) envelopes wires) = Ok stored.
Proof.
  induction 1 as [|[e c] [envelope cursor] envelopes stored [Hd Hc] _ IH]; intros Hin; [by exists []|].
  destruct IH as (wires & Hws & Htr); [by intros; apply Hin; right|]. cbn in Hd, Hc. subst c.
  destruct (decode_relay_inv _ _ Hd) as (w & Hw & Hrw & Hlen). destruct (Hin (e, cursor) (list_elem_of_here _ _)) as [Hem Hc].
  exists (w :: wires). split; [by constructor|]. cbn [zip_with traverse snd].
  rewrite (stored_from_embedded w envelope cursor Hrw Hlen Hc). cbn [mbind result_bind]. by rewrite Htr.
Qed.

Lemma increasing_adjacent (stored : list StoredRelayEnvelope) previous :
  increasing_from previous (stored_cursor <$> stored) → cursors_not_increasing stored = false.
Proof.
  unfold cursors_not_increasing. revert previous. induction stored as [|s stored IH]; intros previous; [done|].
  destruct stored as [|s' stored]; [done|]. cbn [fmap list_fmap increasing_from]. intros (_ & Hlt & Hinc).
  cbn [adjacent_any]. apply orb_false_iff. split; [lia|]. apply (IH (stored_cursor s)). by split.
Qed.

Lemma embeds_cursors envelopes stored : Forall2 embeds envelopes stored → stored_cursor <$> stored = envelopes.*2.
Proof. induction 1 as [|e s es ss [_ Hc] _ IH]; [done|]. rewrite !fmap_cons. by rewrite Hc, IH. Qed.

(** The envelopes of an accepted page make a page of the domain. *)
Lemma accepted_page_new envelopes stored next_cursor has_more :
  page_accepted envelopes next_cursor → Forall2 embeds envelopes stored →
  ReplayPage_new stored next_cursor has_more = Ok (mk_ReplayPage stored next_cursor has_more).
Proof.
  intros [Hcount _ Horder Hnext] Hem. pose proof (Forall2_length _ _ _ Hem) as Hsame.
  pose proof (embeds_cursors _ _ Hem) as Hcur. unfold ReplayPage_new, require_length_range.
  pass_guard by (unfold len, MAX_REPLAY_PAGE_SIZE in *; lia).
  pass_guard by (rewrite (increasing_adjacent stored 0) by (by rewrite Hcur); cbn [orb];
    destruct (last stored) as [s|] eqn:El; [|done]; cbn [is_some_and]; apply Z.ltb_ge, Hnext; by rewrite <- Hcur, fmap_last, El).
  done.
Qed.

(** A page the encoder accepts, of embeddable envelopes, is decoded to the envelopes it embeds. *)
Lemma decode_page_bytes envelopes stored next_cursor has_more :
  page_inputs envelopes next_cursor → page_accepted envelopes next_cursor →
  len (page_bytes envelopes next_cursor has_more) <= MAX_REPLAY_PAGE_BYTES →
  Forall2 embeds envelopes stored → (∀ e, e ∈ envelopes → embeddable e.1 ∧ 1 <= e.2 <= U64_MAX) →
  decode_replay_page (page_bytes envelopes next_cursor has_more) = Ok (mk_ReplayPage stored next_cursor has_more).
Proof.
  intros Hinputs Hacc Hlen Hem Hin. pose proof (accepted_count _ _ Hacc) as Hcount.
  destruct (embeds_wires _ _ Hem Hin) as (wires & Hws & Htr). pose proof (Forall2_length _ _ _ Hws) as Hsame.
  assert (Hscan : ∀ limits, admits (length envelopes) limits (replicate (length limits) 0) →
    require_repeated_field_limits (page_bytes envelopes next_cursor has_more) MAX_REPLAY_PAGE_BYTES "ReplayPage" limits = Ok ()).
  { intros limits Had. unfold require_repeated_field_limits, require_input_size. pass_guard by lia.
    unfold len, MAX_REPLAY_PAGE_SIZE in Hcount.
    apply scan_page; [done|done|unfold MAX_PROTOBUF_TOP_LEVEL_FIELDS; lia|unfold MAX_PROTOBUF_TOP_LEVEL_FIELDS, len; lia]. }
  unfold decode_replay_page. rewrite Hscan by (apply admits_within; unfold len in Hcount; lia). cbn [mbind result_bind].
  unfold decode_bounded. rewrite Hscan by apply admits_unlimited. cbn [mbind result_bind].
  rewrite (law_decode_page envelopes wires next_cursor has_more Hinputs Hws). cbn [map_err mbind result_bind wire_envelopes].
  pass_guard by (unfold len in *; rewrite length_zip_with, <- Hsame, Nat.min_id; apply Z.ltb_ge; exact Hcount).
  rewrite Htr. cbn [mbind result_bind wire_next_cursor wire_has_more]. by rewrite (accepted_page_new envelopes).
Qed.
End decoding.
