(* ===== verification/ReferenceCodec.v ===== *)
(** * A reference codec

    A concrete instance of the Protocol Buffers parameter of [Wire]: the record syntax
    read by [read_fields], with the field numbers of [relay.proto] and [common.proto].
    It is not the library the program links; it instantiates the parameter in the
    concrete inputs that show the theorems' hypotheses can hold. *)

From S2P Require Import Prelude Identifiers RelayModel Wire WireProofs PageDecoding.
Open Scope Z_scope.

Definition last_bytes (field : Z) (fields : list (Z * field_value)) : option bytes :=
  last (omap (fun f => match f with
                       | (n, FBytes b) => if n =? field then Some b else None
                       | _ => None end) fields).

Definition last_varint (field : Z) (fields : list (Z * field_value)) : option Z :=
  last (omap (fun f => match f with
                       | (n, FVarint v) => if n =? field then Some (v mod 2 ^ 64) else None
                       | _ => None end) fields).

Definition as_u64 (value : option Z) : Z := default 0 value mod 2 ^ 64.
Definition as_u32 (value : option Z) : Z := default 0 value mod 2 ^ 32.

Definition decode_version (b : bytes) : option WireProtocolVersion :=
  fields ← read_fields b;
  Some (mk_WireProtocolVersion (as_u32 (last_varint 1 fields)) (as_u32 (last_varint 2 fields))).

Definition decode_id (b : bytes) : option bytes :=
  fields ← read_fields b; Some (default [] (last_bytes 1 fields)).

(** A nested message that is absent stays absent; a malformed one is an error. *)
Definition nested {A} (decode : bytes → option A) (value : option bytes) : option (option A) :=
  match value with None => Some None | Some b => Some <$> decode b end.

Definition decode_relay (b : bytes) : option WireRelayEnvelope :=
  fields ← read_fields b;
  version ← nested decode_version (last_bytes 1 fields);
  routing_id ← nested decode_id (last_bytes 2 fields);
  envelope_id ← nested decode_id (last_bytes 3 fields);
  Some (mk_WireRelayEnvelope version routing_id envelope_id (as_u32 (last_varint 4 fields))
          ((fun v => v mod 2 ^ 64) <$> last_varint 5 fields) (as_u64 (last_varint 6 fields))
          (default [] (last_bytes 7 fields))).

Definition decode_stored (b : bytes) : option WireStoredRelayEnvelope :=
  fields ← read_fields b;
  envelope ← nested decode_relay (last_bytes 1 fields);
  Some (mk_WireStoredRelayEnvelope envelope (as_u64 (last_varint 2 fields))).

Fixpoint decode_each (fields : list (Z * field_value)) : option (list WireStoredRelayEnvelope) :=
  match fields with
  | [] => Some []
  | (1, FBytes b) :: rest => s ← decode_stored b; ss ← decode_each rest; Some (s :: ss)
  | _ :: rest => decode_each rest
  end.

Definition decode_page (b : bytes) : option WireReplayPage :=
  fields ← read_fields b;
  envelopes ← decode_each fields;
  Some (mk_WireReplayPage envelopes (as_u64 (last_varint 2 fields))
          (negb (as_u64 (last_varint 3 fields) =? 0))).

Definition decode_request (b : bytes) : option WireReplayRequest :=
  fields ← read_fields b;
  routing_id ← nested decode_id (last_bytes 1 fields);
  Some (mk_WireReplayRequest routing_id (as_u64 (last_varint 2 fields))
          (as_u32 (last_varint 3 fields))).

Definition decode_ack (b : bytes) : option WireAcknowledgeRequest :=
  fields ← read_fields b;
  routing_id ← nested decode_id (last_bytes 1 fields);
  Some (mk_WireAcknowledgeRequest routing_id (as_u64 (last_varint 2 fields))).

(** Scalars equal to their default are not written. *)
Definition put_varint (field value : Z) : bytes :=
  if value =? 0 then [] else varint_record field value.
Definition put_bytes (field : Z) (value : bytes) : bytes :=
  if len value =? 0 then [] else bytes_record field value.
Definition put_message (field : Z) (value : option bytes) : bytes :=
  match value with None => [] | Some b => bytes_record field b end.
Definition put_optional (field : Z) (value : option Z) : bytes :=
  match value with None => [] | Some v => varint_record field v end.

Definition encode_version (v : WireProtocolVersion) : bytes :=
  put_varint 1 (wire_major v) ++ put_varint 2 (wire_minor v).

Definition encode_relay (w : WireRelayEnvelope) : bytes :=
  put_message 1 (encode_version <$> wire_version w)
  ++ put_message 2 (put_bytes 1 <$> wire_routing_id w)
  ++ put_message 3 (put_bytes 1 <$> wire_envelope_id w)
  ++ put_varint 4 (wire_delivery_class w) ++ put_optional 5 (wire_expected_parent_epoch w)
  ++ put_varint 6 (wire_expires_at_unix_seconds w) ++ put_bytes 7 (wire_payload w).

Definition encode_stored (w : WireStoredRelayEnvelope) : bytes :=
  put_message 1 (encode_relay <$> wire_envelope w) ++ put_varint 2 (wire_cursor w).

Definition encode_page (w : WireReplayPage) : bytes :=
  concat ((fun s => bytes_record 1 (encode_stored s)) <$> wire_envelopes w)
  ++ put_varint 2 (wire_next_cursor w) ++ (if wire_has_more w then varint_record 3 1 else []).

Definition encode_request (w : WireReplayRequest) : bytes :=
  put_message 1 (put_bytes 1 <$> wire_request_routing_id w)
  ++ put_varint 2 (wire_after_cursor w) ++ put_varint 3 (wire_limit w).

Definition encode_ack (w : WireAcknowledgeRequest) : bytes :=
  put_message 1 (put_bytes 1 <$> wire_ack_routing_id w) ++ put_varint 2 (wire_ack_cursor w).

(** Keys and values for the field scan; group records are not produced. *)
Definition wire_type_of (n : Z) : option WireType :=
  match n with
  | 0 => Some Varint | 1 => Some SixtyFourBit | 2 => Some LengthDelimited
  | 3 => Some StartGroup | 4 => Some EndGroup | 5 => Some ThirtyTwoBit | _ => None
  end.

Definition reference_decode_key (b : bytes) : option (Z * WireType * bytes) :=
  '(key, rest) ← read_varint b;
  wire_type ← wire_type_of (Z.land key 7);
  Some (Z.shiftr key 3, wire_type, rest).

Definition skip_bytes (n : Z) (b : bytes) : option bytes :=
  if n <=? len b then Some (drop (Z.to_nat n) b) else None.

Definition reference_skip_field (wire_type : WireType) (_ : Z) (b : bytes) : option bytes :=
  match wire_type with
  | Varint => snd <$> read_varint b
  | SixtyFourBit => skip_bytes 8 b
  | ThirtyTwoBit => skip_bytes 4 b
  | LengthDelimited => '(n, rest) ← read_varint b; skip_bytes n rest
  | StartGroup | EndGroup => None
  end.

Lemma as_u64_range v : is_u64 (as_u64 v).
Proof. unfold as_u64, is_u64, U64_MAX. pose proof (Z.mod_pos_bound (default 0 v) (2 ^ 64)). lia. Qed.
Lemma as_u32_range v : is_u32 (as_u32 v).
Proof. unfold as_u32, is_u32, U32_MAX. pose proof (Z.mod_pos_bound (default 0 v) (2 ^ 32)). lia. Qed.

Definition to_result {A} (o : option A) : result string A := ok_or o "malformed".

Ltac inv_some :=
  repeat match goal with
  | H : ok_or _ _ = Ok _ |- _ => apply ok_or_Ok in H
  | H : mbind _ _ = Some _ |- _ => apply bind_Some in H as (? & ? & H)
  | H : Some _ = Some _ |- _ => injection H as H; subst
  end.

Lemma nested_Some {A} (decode : bytes → option A) value a :
  nested decode value = Some (Some a) → ∃ b, decode b = Some a.
Proof.
  unfold nested. destruct value as [b|]; [|done]. intros H.
  apply fmap_Some in H as (w & Hw & [= ->]). eauto.
Qed.

Lemma decode_relay_typed b m : decode_relay b = Some m → wire_typed m.
Proof.
  unfold decode_relay. intros H. inv_some. split; [|split; [|apply as_u64_range]].
  - simpl. intros v ->.
    match goal with H : nested _ _ = Some (Some v) |- _ => apply nested_Some in H as [b' Hw] end.
    unfold decode_version in Hw. inv_some. split; apply as_u32_range.
  - simpl. intros e He. apply fmap_Some in He as (v & _ & ->).
    pose proof (Z.mod_pos_bound v (2 ^ 64)). unfold is_u64, U64_MAX. lia.
Qed.

Lemma decode_stored_typed b m : decode_stored b = Some m → wire_typed m.
Proof.
  unfold decode_stored. intros H. inv_some. split; [apply as_u64_range|].
  simpl. intros e ->.
  match goal with H : nested _ _ = Some (Some e) |- _ => apply nested_Some in H as [b' Hw] end.
  by eapply decode_relay_typed.
Qed.

Lemma decode_each_typed fields ms e : decode_each fields = Some ms → e ∈ ms → wire_typed e.
Proof.
  revert ms. induction fields as [|f rest IH]; intros ms H He; simpl in H.
  { simplify_eq. by apply elem_of_nil in He. }
  repeat case_match; inv_some; eauto.
  apply elem_of_cons in He as [->|He]; [by eapply decode_stored_typed|eauto].
Qed.

#[export] Program Instance reference_relay : ProstMessage WireRelayEnvelope := {|
  encode_to_vec := encode_relay;
  encoded_len w := len (encode_relay w);
  prost_decode b := to_result (decode_relay b) |}.
Next Obligation. intros. unfold to_result in *. inv_some. by eapply decode_relay_typed. Qed.

#[export] Program Instance reference_stored : ProstMessage WireStoredRelayEnvelope := {|
  encode_to_vec := encode_stored;
  encoded_len w := len (encode_stored w);
  prost_decode b := to_result (decode_stored b) |}.
Next Obligation. intros. unfold to_result in *. inv_some. by eapply decode_stored_typed. Qed.

#[export] Program Instance reference_page : ProstMessage WireReplayPage := {|
  encode_to_vec := encode_page;
  encoded_len w := len (encode_page w);
  prost_decode b := to_result (decode_page b) |}.
Next Obligation.
  intros. unfold to_result, decode_page in *. inv_some.
  split; [apply as_u64_range|]. simpl. intros. by eapply decode_each_typed.
Qed.

#[export] Program Instance reference_request : ProstMessage WireReplayRequest := {|
  encode_to_vec := encode_request;
  encoded_len w := len (encode_request w);
  prost_decode b := to_result (decode_request b) |}.
Next Obligation.
  intros. unfold to_result, decode_request in *. inv_some.
  split; [apply as_u64_range|apply as_u32_range].
Qed.

#[export] Program Instance reference_ack : ProstMessage WireAcknowledgeRequest := {|
  encode_to_vec := encode_ack;
  encoded_len w := len (encode_ack w);
  prost_decode b := to_result (decode_ack b) |}.
Next Obligation. intros. unfold to_result, decode_ack in *. inv_some. apply as_u64_range. Qed.

#[export] Instance reference_framing : ProstFraming := {|
  decode_key := reference_decode_key;
  skip_field := reference_skip_field |}.

#[export] Instance reference_prost : Prost := {|
  prost_framing := reference_framing;
  prost_relay_envelope := reference_relay;
  prost_stored_envelope := reference_stored;
  prost_replay_page := reference_page;
  prost_replay_request := reference_request;
  prost_acknowledge := reference_ack |}.

(** ** The laws of the codec *)

Lemma reference_key_cases field code type rest :
  1 <= field <= 3 → (code, type) = (0, Varint) ∨ (code, type) = (2, LengthDelimited) →
  reference_decode_key (varint (Z.lor (Z.shiftl field 3) code) ++ rest) = Some (field, type, rest).
Proof.
  intros Hf Hc. assert (field = 1 ∨ field = 2 ∨ field = 3) as Hcases by lia. unfold reference_decode_key.
  destruct Hc as [[= -> ->]|[= -> ->]], Hcases as [->|[->| ->]];
    (rewrite read_varint_append by (vm_compute; split; congruence); reflexivity).
Qed.

Lemma reference_skip_bytes field v rest :
  len v <= U64_MAX → reference_skip_field LengthDelimited field (varint (len v) ++ v ++ rest) = Some rest.
Proof.
  intros Hv. cbn [reference_skip_field]. rewrite read_varint_append by (split; [apply len_nonneg|done]). cbn.
  unfold skip_bytes. rewrite len_app. pose proof (len_nonneg rest).
  destruct (Z.leb_spec (len v) (len v + len rest)); [|lia]. by destruct (take_drop_len v rest) as [_ ->].
Qed.

Lemma as_u64_id v : 0 <= v <= U64_MAX → as_u64 (Some v) = v.
Proof. intros Hv. unfold as_u64. cbn. apply Z.mod_small. unfold U64_MAX in Hv. lia. Qed.

Lemma decode_stored_record e w c :
  len e <= MAX_RELAY_ENVELOPE_BYTES → 0 <= c <= U64_MAX → decode_relay e = Some w →
  decode_stored (bytes_record 1 e ++ varint_record 2 c) = Some (mk_WireStoredRelayEnvelope (Some w) c).
Proof.
  intros He Hc Hw. pose proof (len_envelope_u64 e He) as He'. unfold decode_stored.
  rewrite (read_fields_cons _ 1 (FBytes e) _ [(2, FVarint c)]); [|apply bytes_record_ne|apply read_bytes_record; lia|].
  2:{ rewrite <- (app_nil_r (varint_record 2 c)). apply read_fields_cons; [apply varint_record_ne|apply read_varint_record; auto|done]. }
  cbn [mbind option_bind]. unfold last_bytes, last_varint. cbn [omap list_omap Z.eqb Pos.eqb last nested]. rewrite Hw. cbn.
  do 2 f_equal. rewrite Z.mod_small by (unfold U64_MAX in Hc; lia). by apply as_u64_id.
Qed.

Lemma decode_each_app fields fields' envelopes :
  decode_each fields = Some envelopes → (∀ b, (1, FBytes b) ∉ fields') → decode_each (fields ++ fields') = Some envelopes.
Proof.
  intros Hd Hno. revert envelopes Hd. induction fields as [|f fields IH]; intros envelopes Hd.
  - injection Hd as <-. induction fields' as [|f fields' IH]; [done|].
    assert (decode_each fields' = Some []) as Hf by (apply IH; intros b Hb; apply (Hno b); by right).
    cbn. repeat case_match; try done. subst. by destruct (Hno _ (list_elem_of_here _ _)).
  - cbn in Hd |- *. repeat case_match; subst; try by apply IH.
    apply bind_Some in Hd as (s & Hs & Hd). apply bind_Some in Hd as (ss & Hss & [= <-]). rewrite Hs. cbn. by rewrite (IH _ Hss).
Qed.

Lemma decode_page_envelopes envelopes wires next_cursor :
  page_inputs envelopes next_cursor → Forall2 (fun e w => True ∧ to_result (decode_relay e.1) = Ok w) envelopes wires →
  decode_each (page_envelope_field <$> envelopes)
  = Some (zip_with (fun e w => mk_WireStoredRelayEnvelope (Some w) e.2) envelopes wires).
Proof.
  intros [Hin _]. induction 1 as [|[e c] w envelopes wires [_ Hw] _ IH]; [done|].
  destruct (Hin e c (list_elem_of_here _ _)) as [He Hc]. cbn in Hw. apply ok_or_Ok in Hw.
  rewrite fmap_cons. unfold page_envelope_field at 1. cbn [decode_each fst snd zip_with].
  rewrite (decode_stored_record e w c He Hc Hw). cbn [mbind option_bind].
  by rewrite IH by (by intros; apply Hin; right).
Qed.

(** The scalars after the envelopes. *)
Lemma page_scalars envelopes next_cursor has_more :
  0 <= next_cursor <= U64_MAX →
  let fields := (page_envelope_field <$> envelopes) ++ trailer_fields next_cursor has_more in
  as_u64 (last_varint 2 fields) = next_cursor ∧ negb (as_u64 (last_varint 3 fields) =? 0) = has_more.
Proof.
  intros Hn. cbv zeta. unfold last_varint. rewrite !omap_app.
  assert (∀ k, omap (fun f => match f with (n, FVarint v) => if n =? k then Some (v mod 2 ^ 64) else None | _ => None end)
    (page_envelope_field <$> envelopes) = []) as Hnil by (intros k; induction envelopes; done).
  rewrite !Hnil. cbn [app]. unfold trailer_fields.
  destruct (Z.eqb_spec next_cursor 0) as [->|Hne]; cbn [negb]; destruct has_more; cbn;
    rewrite ?(Z.mod_small next_cursor) by (unfold U64_MAX in Hn; lia); (split; [|done]); try done; by apply as_u64_id.
Qed.

#[export] Program Instance reference_laws : ProstLaws := {| embeddable := fun _ => True |}.
Next Obligation. intros. apply reference_key_cases; auto. Qed.
Next Obligation. intros. apply reference_key_cases; auto. Qed.
Next Obligation.
  intros field v rest Hv. change (snd <$> read_varint (varint v ++ rest) = Some rest). by rewrite read_varint_append.
Qed.
Next Obligation. intros. by apply reference_skip_bytes. Qed.
Next Obligation.
  intros envelopes wires next_cursor has_more Hin Hws. cbn. unfold decode_page. rewrite read_page_fields by done.
  cbn [mbind option_bind]. rewrite (decode_each_app _ _ _ (decode_page_envelopes _ _ _ Hin Hws)).
  - destruct (page_scalars envelopes next_cursor has_more (proj2 Hin)) as [E1 E2]. cbn [mbind option_bind]. by rewrite E1, E2.
  - intros b Hb. unfold trailer_fields in Hb. destruct (negb _), has_more; set_solver.
Qed.
Next Obligation. done. Qed.
Next Obligation. done. Qed.
Next Obligation. done. Qed.

(** ** Concrete inputs *)

Definition example_route : RoutingId := repeat_id KRoutingId x07.

Definition example_envelope (id : byte) (class : DeliveryClass) (epoch : option Z) : RelayEnvelope :=
  mk_RelayEnvelope application_v1 example_route (repeat_id KEnvelopeId id) class epoch 5000
    [x41; x42; id].

Definition example_encoding (e : RelayEnvelope) : bytes := encode_relay (relay_to_wire e).

Definition example_commit : RelayEnvelope := example_envelope x01 GroupCommit (Some 0).
Definition example_message : RelayEnvelope := example_envelope x02 GroupApplication None.

Lemma relay_wire_roundtrip_witness :
  relay_from_wire (relay_to_wire example_commit) = Ok example_commit.
Proof.
  apply (relay_wire_roundtrip example_commit).
  - split; vm_compute; congruence || (split; congruence).
  - reflexivity.
  - vm_compute. congruence.
Defined.

(** The second envelope carries an additive field the relay does not know. *)
Definition example_page : list (bytes * Z) :=
  [(example_encoding example_commit, 1);
   (example_encoding example_message ++ varint_record 100 7, 2)].

Lemma replay_page_roundtrip_witness :
  ∃ out, encode_replay_page_preserving example_page 2 true = Ok out
    ∧ read_page out = Some (example_page, 2, true).
Proof.
  destruct (encode_replay_page_preserving example_page 2 true) as [out|] eqn:E;
    [|vm_compute in E; discriminate E].
  exists out. split; [reflexivity|].
  apply (replay_page_roundtrip example_page 2 true out); [|exact E].
  split; [|vm_compute; split; congruence].
  intros e c [H|[H|H]%elem_of_cons]%elem_of_cons.
  - injection H as -> ->. vm_compute. repeat split; congruence.
  - injection H as -> ->. vm_compute. repeat split; congruence.
  - apply elem_of_nil in H. destruct H.
Defined.
