(* ===== verification/PolicyContract.v ===== *)
(** * The policy contract: canonical bytes and content identity

    [crates/Konclave.ProtocolContracts/src/v1/collaboration_policy.rs] and the policy part of
    [crates/Konclave.CryptographicCore/src/collaboration_policy.rs].

    A bundle is identified by a digest of its canonical encoding.  The generated message
    codec and SHA-256 are parameters; what is proved is that a decoded bundle
    re-encodes to exactly the bytes that were received, that an encoded bundle decodes to
    itself, and that two verified proposals with one digest carry one bundle. *)

From S2P Require Import Prelude Identifiers RelayModel Wire CollaborationPolicy.
Open Scope Z_scope.

(** ** Generated messages *)

Record WirePolicyStatement := mk_WirePolicyStatement {
  wire_statement_id : text;
  wire_effect : Z;
  wire_action : text;
  wire_resource : option text }.

Record WirePolicyLimits := mk_WirePolicyLimits {
  wire_duration_milliseconds : option Z;
  wire_turns : option Z;
  wire_tokens : option Z;
  wire_concurrent_requests : option Z }.

Record WirePolicyBundle := mk_WirePolicyBundle {
  wire_bundle_version : option WireProtocolVersion;
  wire_name : text;
  wire_guidance : option text;
  wire_statements : list WirePolicyStatement;
  wire_required_harness_claims : list text;
  wire_limits : option WirePolicyLimits }.

Record WirePolicyProposal := mk_WirePolicyProposal {
  wire_proposal_id : option bytes;
  wire_policy_digest : option bytes;
  wire_canonical_bundle : bytes;
  wire_replaces_policy_digest : option bytes }.

Record WirePolicyResponse := mk_WirePolicyResponse {
  wire_response_proposal_id : option bytes;
  wire_response_policy_digest : option bytes;
  wire_outcome : Z }.

Record WirePolicyRevocation := mk_WirePolicyRevocation {
  wire_revoked_policy_digest : option bytes }.

Definition wire_limits_typed (w : WirePolicyLimits) : Prop :=
  (∀ l, wire_duration_milliseconds w = Some l → is_u64 l)
  ∧ (∀ l, wire_turns w = Some l → is_u64 l)
  ∧ (∀ l, wire_tokens w = Some l → is_u64 l)
  ∧ (∀ l, wire_concurrent_requests w = Some l → is_u32 l).

Global Instance policy_bundle_typed : WireTyped WirePolicyBundle := fun w =>
  (∀ v, wire_bundle_version w = Some v → is_u32 (wire_major v) ∧ is_u32 (wire_minor v))
  ∧ ∀ l, wire_limits w = Some l → wire_limits_typed l.

(** ** Conversions *)

Definition POLICY_CONTRACT : string := "CollaborationPolicyBundle".

Definition effect_to_wire (effect : CollaborationPolicyEffect) : Z :=
  match effect with Effect_Allow => 1 | Effect_Deny => 2 | Effect_RequireLocalApproval => 3 end.

Definition effect_from_wire (value : Z) : result KonclaveProtocolError CollaborationPolicyEffect :=
  match value with
  | 1 => Ok Effect_Allow
  | 2 => Ok Effect_Deny
  | 3 => Ok Effect_RequireLocalApproval
  | _ => Err (UnsupportedEnum "collaboration_policy_effect" value)
  end.

Definition statement_to_wire (value : CollaborationPolicyStatement) : WirePolicyStatement :=
  mk_WirePolicyStatement (statement_id value) (effect_to_wire (statement_effect value))
    (statement_action value) (statement_resource value).

Definition statement_from_wire (value : WirePolicyStatement)
    : result KonclaveProtocolError CollaborationPolicyStatement :=
  effect ← effect_from_wire (wire_effect value);
  map_err ProtocolDomain
    (CollaborationPolicyStatement_new (wire_statement_id value) effect (wire_action value)
       (wire_resource value)).

Definition limits_to_wire (value : CollaborationPolicyLimits) : WirePolicyLimits :=
  mk_WirePolicyLimits (duration_milliseconds value) (limit_turns value) (limit_tokens value)
    (limit_concurrent_requests value).

Definition limits_from_wire (value : WirePolicyLimits)
    : result KonclaveProtocolError CollaborationPolicyLimits :=
  map_err ProtocolDomain
    (CollaborationPolicyLimits_new (wire_duration_milliseconds value) (wire_turns value)
       (wire_tokens value) (wire_concurrent_requests value)).

(** The message [encode_collaboration_policy_bundle] builds. *)
Definition bundle_to_wire (value : CollaborationPolicyBundle) : WirePolicyBundle :=
  mk_WirePolicyBundle (Some (version_to_wire (bundle_version value))) (bundle_name value)
    (bundle_guidance value) (statement_to_wire <$> bundle_statements value)
    (required_harness_claims value) (Some (limits_to_wire (bundle_limits value))).

Section codec.
Context `{ProstFraming, !ProstMessage WirePolicyBundle}.

Definition encode_collaboration_policy_bundle (value : CollaborationPolicyBundle)
    : result KonclaveProtocolError bytes :=
  fail_if (negb (major (bundle_version value) =? COLLABORATION_POLICY_BUNDLE_MAJOR))
    (UnsupportedMajor POLICY_CONTRACT (major (bundle_version value)));;
  encode_bounded (bundle_to_wire value) MAX_COLLABORATION_POLICY_BUNDLE_BYTES POLICY_CONTRACT.

Definition policy_field_limits : list (Z * Z * string) :=
  [(4, MAX_COLLABORATION_POLICY_STATEMENTS, "collaboration_policy_statements"%string);
   (5, MAX_COLLABORATION_POLICY_HARNESS_CLAIMS, "collaboration_policy_harness_claims"%string)].

Definition decode_collaboration_policy_bundle (b : bytes)
    : result KonclaveProtocolError CollaborationPolicyBundle :=
  require_repeated_field_limits b MAX_COLLABORATION_POLICY_BUNDLE_BYTES POLICY_CONTRACT
    policy_field_limits;;
  wire ← decode_bounded (M := WirePolicyBundle) b MAX_COLLABORATION_POLICY_BUNDLE_BYTES
           POLICY_CONTRACT;
  version ← version_from_wire (wire_bundle_version wire) POLICY_CONTRACT;
  statements ← traverse statement_from_wire (wire_statements wire);
  wire_limits ← required (wire_limits wire) "collaboration_policy.limits";
  limits ← limits_from_wire wire_limits;
  bundle ← map_err ProtocolDomain
    (CollaborationPolicyBundle_new version (wire_name wire) (wire_guidance wire) statements
       (wire_required_harness_claims wire) limits);
  canonical ← encode_collaboration_policy_bundle bundle;
  fail_if (bool_decide (canonical ≠ b)) (NonCanonicalEncoding POLICY_CONTRACT);;
  Ok bundle.

End codec.

Definition proposal_to_wire (value : CollaborationPolicyProposal) : WirePolicyProposal :=
  mk_WirePolicyProposal (Some (as_bytes (proposal_id value)))
    (Some (as_bytes (proposal_policy_digest value))) (canonical_bundle value)
    (as_bytes <$> replaces_policy_digest value).

Definition proposal_from_wire (value : WirePolicyProposal)
    : result KonclaveProtocolError CollaborationPolicyProposal :=
  proposal_id ← id_from_wire KCollaborationPolicyProposalId (wire_proposal_id value)
                  "collaboration_policy_proposal.proposal_id";
  policy_digest ← id_from_wire KCollaborationPolicyDigest (wire_policy_digest value)
                    "collaboration_policy_proposal.policy_digest";
  replaces ← opt_traverse (fun b =>
      map_err ProtocolDomain (from_slice KCollaborationPolicyDigest b))
               (wire_replaces_policy_digest value);
  map_err ProtocolDomain
    (CollaborationPolicyProposal_new proposal_id policy_digest (wire_canonical_bundle value)
       replaces).

Definition response_outcome_to_wire (outcome : CollaborationPolicyResponseOutcome) : Z :=
  match outcome with PolicyAccepted => 1 | PolicyRejected => 2 end.

Definition response_to_wire (value : CollaborationPolicyResponse) : WirePolicyResponse :=
  mk_WirePolicyResponse (Some (as_bytes (response_proposal_id value)))
    (Some (as_bytes (response_policy_digest value)))
    (response_outcome_to_wire (response_outcome value)).

Definition response_outcome_from_wire (value : Z)
    : result KonclaveProtocolError CollaborationPolicyResponseOutcome :=
  match value with
  | 1 => Ok PolicyAccepted
  | 2 => Ok PolicyRejected
  | _ => Err (UnsupportedEnum "collaboration_policy_response_outcome" value)
  end.

Definition response_from_wire (value : WirePolicyResponse)
    : result KonclaveProtocolError CollaborationPolicyResponse :=
  outcome ← response_outcome_from_wire (wire_outcome value);
  proposal_id ← id_from_wire KCollaborationPolicyProposalId (wire_response_proposal_id value)
                  "collaboration_policy_response.proposal_id";
  policy_digest ← id_from_wire KCollaborationPolicyDigest (wire_response_policy_digest value)
                    "collaboration_policy_response.policy_digest";
  Ok (mk_CollaborationPolicyResponse proposal_id policy_digest outcome).

Definition revocation_to_wire (value : CollaborationPolicyRevocation) : WirePolicyRevocation :=
  mk_WirePolicyRevocation (Some (as_bytes (revoked_policy_digest value))).

Definition revocation_from_wire (value : WirePolicyRevocation)
    : result KonclaveProtocolError CollaborationPolicyRevocation :=
  policy_digest ← id_from_wire KCollaborationPolicyDigest (wire_revoked_policy_digest value)
                    "collaboration_policy_revocation.policy_digest";
  Ok (mk_CollaborationPolicyRevocation policy_digest).

(** ** Digests ([CryptographicCore/src/collaboration_policy.rs]) *)

(** The failures these functions return. *)
Inductive KonclaveCryptographicError :=
| ProtocolContractFailure
| InvalidCollaborationPolicyDigest
| CryptographicDomain (source : KonclaveDomainError).

Definition COLLABORATION_POLICY_DIGEST_DOMAIN : bytes :=
  lit "konclave-collaboration-policy-bundle-digest-v1" ++ [x00].
Definition COLLABORATION_POLICY_PROPOSAL_MESSAGE_ID_DOMAIN : bytes :=
  lit "konclave-collaboration-policy-proposal-message-id-v1" ++ [x00].
Definition COLLABORATION_POLICY_RESPONSE_MESSAGE_ID_DOMAIN : bytes :=
  lit "konclave-collaboration-policy-response-message-id-v1" ++ [x00].

Section digests.
Context `{ProstFraming, !ProstMessage WirePolicyBundle} (sha256 : bytes -> bytes).

Definition derive_collaboration_policy_digest (bundle : CollaborationPolicyBundle)
    : result KonclaveCryptographicError CollaborationPolicyDigest :=
  canonical ← map_err (fun _ => ProtocolContractFailure)
                (encode_collaboration_policy_bundle bundle);
  map_err CryptographicDomain
    (from_slice KCollaborationPolicyDigest
       (sha256 (COLLABORATION_POLICY_DIGEST_DOMAIN ++ canonical))).

(** The decoded bundle of a [VerifiedCollaborationPolicyProposal]. *)
Definition verify_collaboration_policy_proposal (proposal : CollaborationPolicyProposal)
    : result KonclaveCryptographicError CollaborationPolicyBundle :=
  bundle ← map_err (fun _ => ProtocolContractFailure)
             (decode_collaboration_policy_bundle (canonical_bundle proposal));
  actual_digest ← derive_collaboration_policy_digest bundle;
  fail_if (bool_decide (actual_digest ≠ proposal_policy_digest proposal))
    InvalidCollaborationPolicyDigest;;
  Ok bundle.

End digests.

(** ** Round trip *)

(** The input is one length-delimited record per listed field number. *)
Fixpoint framed `{ProstFraming} (numbers : list Z) (b : bytes) : bool :=
  match numbers with
  | [] => bool_decide (b = [])
  | n :: numbers =>
      negb (bool_decide (b = [])) &&
      match decode_key b with
      | Some (tag, LengthDelimited, after) =>
          (tag =? n) && is_some_and (skip_field LengthDelimited tag after) (framed numbers)
      | _ => false
      end
  end.

(** The top-level records of a bundle message: one per present field and one per
    element of a repeated field; a name that is the default is not written. *)
Definition policy_field_numbers (w : WirePolicyBundle) : list Z :=
  (if is_some (wire_bundle_version w) then [1] else [])
  ++ (if len (wire_name w) =? 0 then [] else [2])
  ++ (if is_some (wire_guidance w) then [3] else [])
  ++ replicate (length (wire_statements w)) 4
  ++ replicate (length (wire_required_harness_claims w)) 5
  ++ (if is_some (wire_limits w) then [6] else []).

Definition occurrences (n : Z) (numbers : list Z) : Z := len (filter (fun m => m = n) numbers).

(** Every limited field stays within its bound over the rest of the input. *)
Definition limits_hold (limits : list (Z * Z * string)) (counts numbers : list Z) : Prop :=
  Forall2 (fun l c => c + occurrences l.1.1 numbers <= l.1.2) limits counts.

Lemma occurrences_cons n m numbers :
  occurrences n (m :: numbers) = (if m =? n then 1 else 0) + occurrences n numbers.
Proof.
  unfold occurrences, len. rewrite filter_cons.
  destruct (Z.eqb_spec m n); [rewrite decide_True by done|rewrite decide_False by done]; simpl; lia.
Qed.

Lemma count_limited_field_ok tag limits counts numbers :
  limits_hold limits counts (tag :: numbers) →
  ∃ counts', count_limited_field tag limits counts = Ok counts' ∧ limits_hold limits counts' numbers.
Proof.
  unfold limits_hold. revert counts. induction limits as [|[[n maximum] field] limits IH];
    intros counts H; inversion H as [|? c ? counts0 Hc Hrest]; subst; simpl in *.
  { eexists; split; [done|constructor]. }
  destruct (IH _ Hrest) as (counts' & -> & Hok).
  rewrite occurrences_cons in Hc. destruct (Z.eqb_spec tag n) as [->|Hne].
  - assert (0 <= occurrences n numbers) by apply len_nonneg.
    pass_guard by lia. eexists. split; [done|]. constructor; [simpl; lia|done].
  - eexists. split; [done|]. constructor; [simpl; lia|done].
Qed.

Lemma scan_framed `{ProstFraming} allowed contract limits counts field_count numbers b :
  framed numbers b = true → limits_hold limits counts numbers →
  (length numbers <= allowed)%nat →
  field_count + len numbers <= MAX_PROTOBUF_TOP_LEVEL_FIELDS →
  scan_fields allowed contract limits counts field_count b = Ok ().
Proof.
  revert allowed counts field_count b. induction numbers as [|n numbers IH];
    intros allowed counts field_count b Hf Hl Hlen Hcount; simpl in Hf.
  { bool_prop. subst. by destruct allowed. }
  apply andb_true_iff in Hf as [Hne Hf]. destruct b as [|x b]; [done|].
  destruct allowed as [|allowed]; [simpl in Hlen; lia|].
  cbn [scan_fields]. unfold require_field_count, reject_group.
  assert (len (n :: numbers) = 1 + len numbers) as Hn by (unfold len; simpl; lia).
  pose proof (len_nonneg numbers).
  pass_guard by lia.
  destruct (decode_key (x :: b)) as [[[tag []] after]|]; try done. simpl in Hf.
  destruct (skip_field LengthDelimited tag after) as [rest|] eqn:Es; [|by rewrite andb_false_r in Hf].
  simpl in Hf. apply andb_true_iff in Hf as [->%Z.eqb_eq Hf]. simpl.
  destruct (count_limited_field_ok n limits counts numbers Hl) as (counts' & -> & Hl'). simpl.
  rewrite Es. simpl. apply IH; [done..|simpl in Hlen; lia|lia].
Qed.

Lemma occurrences_app n l k : occurrences n (l ++ k) = occurrences n l + occurrences n k.
Proof. unfold occurrences. by rewrite filter_app, len_app. Qed.

Lemma occurrences_replicate n m k :
  occurrences n (replicate k m) = if m =? n then Z.of_nat k else 0.
Proof.
  induction k as [|k IH]; [by destruct (m =? n)|].
  simpl. rewrite occurrences_cons, IH. destruct (m =? n); lia.
Qed.

Lemma policy_fields_bounded w :
  len (wire_statements w) <= MAX_COLLABORATION_POLICY_STATEMENTS →
  len (wire_required_harness_claims w) <= MAX_COLLABORATION_POLICY_HARNESS_CLAIMS →
  len (policy_field_numbers w) <= 324
  ∧ limits_hold policy_field_limits [0; 0] (policy_field_numbers w).
Proof.
  unfold policy_field_numbers, limits_hold, policy_field_limits, len. intros Hs Hc.
  unfold MAX_COLLABORATION_POLICY_STATEMENTS, MAX_COLLABORATION_POLICY_HARNESS_CLAIMS in *.
  split.
  - rewrite !length_app, !length_replicate. repeat case_match; simpl; lia.
  - repeat constructor; simpl; rewrite !occurrences_app, !occurrences_replicate; simpl;
      repeat case_match; unfold occurrences, len; simpl; lia.
Qed.

(** A statement, and limits, as their constructors return them. *)
Definition statement_built (s : CollaborationPolicyStatement) : Prop :=
  ∃ id effect action resource, CollaborationPolicyStatement_new id effect action resource = Ok s.
Definition limits_built (l : CollaborationPolicyLimits) : Prop :=
  ∃ duration turns tokens concurrent,
    CollaborationPolicyLimits_new duration turns tokens concurrent = Ok l.

Lemma canonical_identifier_Ok value field maximum value' :
  canonical_identifier value field maximum = Ok value' → value' = value.
Proof. unfold canonical_identifier, policy_bounded_text. intros H. inv_ok. by subst. Qed.

Lemma policy_resource_Ok resource resource' :
  policy_resource resource = Ok resource' → resource' = resource.
Proof.
  unfold policy_resource. intros [[-> ->]|(a & b & -> & -> & Hb)]%opt_traverse_Ok; [done|].
  f_equal. by eapply canonical_namespaced_identifier_Ok.
Qed.

Lemma statement_wire_roundtrip s :
  statement_built s → statement_from_wire (statement_to_wire s) = Ok s.
Proof.
  intros (id & effect & action & resource & Hs). unfold statement_from_wire, statement_to_wire. simpl.
  assert (s = mk_CollaborationPolicyStatement id effect action resource) as ->.
  { unfold CollaborationPolicyStatement_new in Hs. inv_ok.
    apply canonical_identifier_Ok in Hr as ->.
    apply canonical_namespaced_identifier_Ok in Hr0 as ->. by apply policy_resource_Ok in Hr1 as ->. }
  destruct effect; simpl; by rewrite Hs.
Qed.

Lemma limits_wire_roundtrip l : limits_built l → limits_from_wire (limits_to_wire l) = Ok l.
Proof.
  intros (d & t & k & c & Hl). unfold limits_from_wire, limits_to_wire. simpl.
  assert (l = mk_CollaborationPolicyLimits d t k c) as ->
    by (unfold CollaborationPolicyLimits_new in Hl; by inv_ok).
  simpl. by rewrite Hl.
Qed.

(** Sorted input is what the constructor makes of any order of the same input. *)
Lemma bundle_new_perm version name guidance statements statements' claims claims' limits bundle :
  CollaborationPolicyBundle_new version name guidance statements claims limits = Ok bundle →
  statements ≡ₚ statements' → claims ≡ₚ claims' →
  CollaborationPolicyBundle_new version name guidance statements' claims' limits = Ok bundle.
Proof.
  rewrite !bundle_new_Ok. intros (-> & Hname & Hg & Hls & Hnd & Hlc & Hc & Hndc) Hs Hcl.
  rewrite (sort_by_perm_eq statement_id bytes_compare statements statements') by done.
  rewrite (sort_by_perm_eq id bytes_compare claims claims') by (by rewrite ?list_fmap_id).
  unfold len in *. rewrite <- (Permutation_length Hs), <- (Permutation_length Hcl).
  split_and!; try done; [by rewrite <- Hs| |by rewrite <- Hcl].
  intros c Hin. apply Hc. by rewrite Hcl.
Qed.

Section roundtrip.
Context `{ProstFraming, !ProstMessage WirePolicyBundle}.

Lemma decode_policy_Ok b bundle :
  decode_collaboration_policy_bundle b = Ok bundle →
  encode_collaboration_policy_bundle bundle = Ok b.
Proof.
  unfold decode_collaboration_policy_bundle. intros Hd. inv_ok. bool_prop. subst.
  match goal with H : ¬ (_ ≠ _) |- _ => apply dec_stable in H; by subst end.
Qed.

Lemma policy_scan contract limits numbers b :
  framed numbers b = true → len b <= MAX_COLLABORATION_POLICY_BUNDLE_BYTES → len numbers <= 324 →
  limits_hold limits (replicate (length limits) 0) numbers →
  require_repeated_field_limits b MAX_COLLABORATION_POLICY_BUNDLE_BYTES contract limits = Ok ().
Proof.
  intros Hf Hlen Hn Hl. unfold require_repeated_field_limits, require_input_size.
  pass_guard by lia. eapply scan_framed; [done..| |].
  - unfold len, MAX_PROTOBUF_TOP_LEVEL_FIELDS in *. lia.
  - unfold MAX_PROTOBUF_TOP_LEVEL_FIELDS. lia.
Qed.

Lemma statements_wire_roundtrip statements :
  Forall statement_built statements →
  traverse statement_from_wire (statement_to_wire <$> statements) = Ok statements.
Proof.
  intros Hs. apply traverse_Ok. induction Hs; [constructor|].
  constructor; [by apply statement_wire_roundtrip|done].
Qed.

Lemma encode_policy_Ok bundle :
  major (bundle_version bundle) = 1 →
  encoded_len (bundle_to_wire bundle) <= MAX_COLLABORATION_POLICY_BUNDLE_BYTES →
  encode_collaboration_policy_bundle bundle = Ok (encode_to_vec (bundle_to_wire bundle)).
Proof.
  intros Hv Hlen. unfold encode_collaboration_policy_bundle, encode_bounded.
  rewrite Hv. simpl. by pass_guard by lia.
Qed.

Lemma version_wire_roundtrip version contract :
  major version = 1 → version_from_wire (Some (version_to_wire version)) contract = Ok version.
Proof. destruct version. simpl. by intros ->. Qed.

(** C34: Canonical bundle bytes round-trip and do not depend on input order.  For a bundle
    built by the constructors whose message the Protocol Buffers library frames as one
    record per field and decodes to itself, within 64 KiB, encoding succeeds, decoding the
    bytes passes every count, canonical-form and re-encoding check and returns the bundle,
    and the same statements and claims in any other order build the same bundle, so the
    same bytes. *)
Theorem policy_bundle_roundtrip version name guidance statements claims limits bundle
    (Hstatements : Forall statement_built statements) (Hlimits : limits_built limits)
    (Hversion : major version = 1)
    (Hbundle : CollaborationPolicyBundle_new version name guidance statements claims limits
               = Ok bundle)
    (Hlength : encoded_len (bundle_to_wire bundle) = len (encode_to_vec (bundle_to_wire bundle)))
    (Hfits : len (encode_to_vec (bundle_to_wire bundle)) <= MAX_COLLABORATION_POLICY_BUNDLE_BYTES)
    (Hframed : framed (policy_field_numbers (bundle_to_wire bundle))
                 (encode_to_vec (bundle_to_wire bundle)) = true)
    (Hprost : prost_decode (encode_to_vec (bundle_to_wire bundle)) = Ok (bundle_to_wire bundle)) :
  ∃ b, encode_collaboration_policy_bundle bundle = Ok b
    ∧ decode_collaboration_policy_bundle b = Ok bundle
    ∧ ∀ statements' claims', statements ≡ₚ statements' → claims ≡ₚ claims' →
        CollaborationPolicyBundle_new version name guidance statements' claims' limits = Ok bundle.
Proof.
  exists (encode_to_vec (bundle_to_wire bundle)).
  pose proof (fun ss cs => bundle_new_perm _ _ _ _ ss _ cs _ _ Hbundle) as Hperm.
  pose proof (proj1 (bundle_new_Ok _ _ _ _ _ _ _) Hbundle) as (Hb & _ & _ & Hls & _ & Hlc & _).
  assert (encode_collaboration_policy_bundle bundle = Ok (encode_to_vec (bundle_to_wire bundle)))
    as Hencode by (apply encode_policy_Ok; [by rewrite Hb|lia]).
  split; [done|split; [|exact Hperm]].
  destruct (policy_fields_bounded (bundle_to_wire bundle)) as [Hcount Hcounts].
  { rewrite Hb. simpl. unfold len in *. by rewrite length_fmap, sort_by_perm. }
  { rewrite Hb. simpl. unfold len in *. by rewrite sort_by_perm. }
  unfold decode_collaboration_policy_bundle, decode_bounded.
  rewrite (policy_scan POLICY_CONTRACT policy_field_limits _ _ Hframed Hfits Hcount Hcounts).
  cbn [mbind result_bind].
  rewrite (policy_scan POLICY_CONTRACT [] _ _ Hframed Hfits Hcount) by constructor.
  cbn [mbind result_bind].
  rewrite Hprost. cbn [map_err mbind result_bind].
  revert Hencode. set (b := encode_to_vec _). generalize b. rewrite Hb. clear b. intros b Hencode.
  unfold bundle_to_wire at 1 2 3 4 5 6. cbn [wire_bundle_version wire_name wire_guidance
    wire_statements wire_required_harness_claims wire_limits bundle_version bundle_name
    bundle_guidance bundle_statements required_harness_claims bundle_limits].
  rewrite version_wire_roundtrip by done. cbn [mbind result_bind].
  rewrite statements_wire_roundtrip by (by rewrite sort_by_perm). cbn [required ok_or mbind result_bind].
  rewrite limits_wire_roundtrip by done. cbn [mbind result_bind].
  rewrite Hperm by (by rewrite sort_by_perm). cbn [map_err mbind result_bind]. rewrite Hb, Hencode.
  cbn [mbind result_bind]. by pass_guard by (by apply bool_decide_neq_false).
Qed.

(** C30: A digest pins the content.  Whenever a proposal verifies, its bundle re-encodes to
    exactly the carried bytes and derives the claimed digest; and if two verified proposals
    claim one digest then they carry the same bytes and the same bundle, or their two
    inputs are a SHA-256 collision. *)
Theorem verified_policy_identity sha256 p bundle
    (Hverified : verify_collaboration_policy_proposal sha256 p = Ok bundle) :
  encode_collaboration_policy_bundle bundle = Ok (canonical_bundle p)
  ∧ derive_collaboration_policy_digest sha256 bundle = Ok (proposal_policy_digest p)
  ∧ ∀ p' bundle', verify_collaboration_policy_proposal sha256 p' = Ok bundle' →
      proposal_policy_digest p' = proposal_policy_digest p →
      (canonical_bundle p' = canonical_bundle p ∧ bundle' = bundle)
      ∨ (canonical_bundle p' ≠ canonical_bundle p
         ∧ sha256 (COLLABORATION_POLICY_DIGEST_DOMAIN ++ canonical_bundle p')
           = sha256 (COLLABORATION_POLICY_DIGEST_DOMAIN ++ canonical_bundle p)).
Proof.
  assert (∀ q b, verify_collaboration_policy_proposal sha256 q = Ok b →
    decode_collaboration_policy_bundle (canonical_bundle q) = Ok b
    ∧ encode_collaboration_policy_bundle b = Ok (canonical_bundle q)
    ∧ derive_collaboration_policy_digest sha256 b = Ok (proposal_policy_digest q)
    ∧ sha256 (COLLABORATION_POLICY_DIGEST_DOMAIN ++ canonical_bundle q)
      = as_bytes (proposal_policy_digest q)) as Hv.
  { unfold verify_collaboration_policy_proposal. intros q b Hq. inv_ok. subst. bool_prop.
    match goal with H : ¬ (_ ≠ _) |- _ => apply dec_stable in H; subst end.
    apply decode_policy_Ok in Hr as He. split_and!; [done..|].
    unfold derive_collaboration_policy_digest in Hr0. rewrite He in Hr0. inv_ok.
    simplify_eq. symmetry. by apply from_slice_Ok in Hr0. }
  destruct (Hv p bundle Hverified) as (Hd & He & Hdig & Hsha). split_and!; [done..|].
  intros p' bundle' (Hd' & _ & _ & Hsha')%Hv Hsame.
  destruct (decide (canonical_bundle p' = canonical_bundle p)) as [Heq|Hne].
  - left. split; [done|]. rewrite Heq in Hd'. congruence.
  - right. split; [done|]. congruence.
Qed.
End roundtrip.
