(* ===== verification/ApplicationContract.v ===== *)
(** * The application contract and derived message identifiers

    [crates/Konclave.ProtocolContracts/src/v1/application.rs], the nested-field bound of
    [v1/common.rs], and the identifier derivations of
    [crates/Konclave.CryptographicCore/src/collaboration_policy.rs].

    The generated message type and the Protocol Buffers library are parameters, as in
    [Wire]; SHA-256 is a function argument. *)

From S2P Require Import Prelude Identifiers RelayModel Wire Membership.
From S2P Require Import CollaborationPolicy Application PolicyContract.
Open Scope Z_scope.

(** ** Generated messages *)

Record WireDirectedRequest := mk_WireDirectedRequest {
  wire_directed_target : option bytes;
  wire_directed_body : text;
  (** [RequestDeliveryOptions], holding its optional cutoff. *)
  wire_directed_delivery : option (option Z) }.

Record WireRepeatPairingRequest := mk_WireRepeatPairingRequest {
  wire_rpq_operation_id : option bytes;
  wire_rpq_target_device_id : option bytes;
  wire_rpq_new_conversation_id : option bytes;
  wire_rpq_expires_at_unix_seconds : Z }.

Record WireRepeatPairingResponse := mk_WireRepeatPairingResponse {
  wire_rpr_operation_id : option bytes;
  wire_rpr_requester_device_id : option bytes;
  wire_rpr_new_conversation_id : option bytes;
  wire_rpr_capability : text }.

Inductive WireContent :=
| Wire_Text (body : text)
| Wire_PolicyProposal (proposal : WirePolicyProposal)
| Wire_PolicyResponse (response : WirePolicyResponse)
| Wire_PolicyRevocation (revocation : WirePolicyRevocation)
| Wire_DirectedRequest (request : WireDirectedRequest)
| Wire_RepeatPairingRequest (request : WireRepeatPairingRequest)
| Wire_RepeatPairingResponse (response : WireRepeatPairingResponse)
| Wire_RequestDeliveryOutcome (outcome : Z).

Record WireApplicationMessage := mk_WireApplicationMessage {
  wire_app_version : option WireProtocolVersion;
  wire_app_message_id : option bytes;
  wire_app_sender_counter : Z;
  wire_app_sent_at_unix_milliseconds : Z;
  wire_app_reply_to : option bytes;
  wire_app_content : option WireContent }.

Global Instance application_typed : WireTyped WireApplicationMessage := fun w =>
  (∀ v, wire_app_version w = Some v → is_u32 (wire_major v) ∧ is_u32 (wire_minor v))
  ∧ is_u64 (wire_app_sender_counter w) ∧ is_u64 (wire_app_sent_at_unix_milliseconds w).

(** ** Nested field bounds ([v1/common.rs]) *)

(** [prost::decode_length_delimiter]. *)
Class ProstDelimiter := { decode_length_delimiter : bytes → option (Z * bytes) }.

Section scans.
Context `{ProstFraming, ProstDelimiter}.

Definition take_length_delimited (remaining : bytes) (contract : string)
    : result KonclaveProtocolError (bytes * bytes) :=
  '(length, remaining) ← ok_or (decode_length_delimiter remaining) (malformed_wire contract);
  fail_if (len remaining <? length) (malformed_wire contract);;
  Ok (take (Z.to_nat length) remaining, drop (Z.to_nat length) remaining).

(** The shape both loops share: [on_field] handles the value of the selected field. *)
Fixpoint scan_selected (allowed : nat) (contract : string) (selected : Z)
    (on_field : bytes → result KonclaveProtocolError unit) (field_count : Z) (remaining : bytes)
    : result KonclaveProtocolError unit :=
  match remaining, allowed with
  | [], _ => Ok ()
  | _, O => Err (ProtocolDomain (OutOfRange "protobuf_top_level_fields" 0
                                   MAX_PROTOBUF_TOP_LEVEL_FIELDS (field_count + 1)))
  | _, S allowed =>
      require_field_count (field_count + 1);;
      '(tag, wire_type, remaining) ← ok_or (decode_key remaining) (malformed_wire contract);
      reject_group wire_type contract;;
      remaining ←
        (if tag =? selected then
           fail_if (bool_decide (wire_type ≠ LengthDelimited)) (malformed_wire contract);;
           '(value, remaining) ← take_length_delimited remaining contract;
           on_field value;;
           Ok remaining
         else ok_or (skip_field wire_type tag remaining) (malformed_wire contract));
      scan_selected allowed contract selected on_field (field_count + 1) remaining
  end.

Definition require_bytes_field_limit (b : bytes) (contract : string) (target_field maximum : Z)
    (field : string) : result KonclaveProtocolError unit :=
  scan_selected (Z.to_nat MAX_PROTOBUF_TOP_LEVEL_FIELDS) contract target_field
    (fun value => fail_if (maximum <? len value)
                    (ProtocolDomain (OutOfRange field 1 maximum (len value)))) 0 b.

Definition require_nested_bytes_field_limit (b : bytes) (maximum_bytes : Z) (contract : string)
    (outer_field nested_field nested_maximum : Z) (field : string)
    : result KonclaveProtocolError unit :=
  require_input_size b maximum_bytes contract;;
  scan_selected (Z.to_nat MAX_PROTOBUF_TOP_LEVEL_FIELDS) contract outer_field
    (fun nested => require_bytes_field_limit nested contract nested_field nested_maximum field)
    0 b.

End scans.

(** ** Messages ([v1/application.rs]) *)

Definition APPLICATION_CONTRACT : string := "ApplicationMessage".

Definition content_to_wire (content : ApplicationContent) : WireContent :=
  match content with
  | Content_Text body => Wire_Text body
  | Content_DirectedRequest request =>
      Wire_DirectedRequest
        (mk_WireDirectedRequest (Some (as_bytes (directed_target_device_id request)))
           (directed_body request)
           ((fun options => unix_milliseconds <$> options_expiry options)
              <$> directed_delivery request))
  | Content_RequestDeliveryOutcome outcome =>
      Wire_RequestDeliveryOutcome (outcome_wire_value outcome)
  | Content_RepeatPairingRequest request =>
      Wire_RepeatPairingRequest
        (mk_WireRepeatPairingRequest (Some (as_bytes (rpq_operation_id request)))
           (Some (as_bytes (rpq_target_device_id request)))
           (Some (as_bytes (rpq_new_conversation_id request)))
           (rpq_expires_at_unix_seconds request))
  | Content_RepeatPairingResponse response =>
      Wire_RepeatPairingResponse
        (mk_WireRepeatPairingResponse (Some (as_bytes (rpr_operation_id response)))
           (Some (as_bytes (rpr_requester_device_id response)))
           (Some (as_bytes (rpr_new_conversation_id response)))
           (rpr_capability response))
  | Content_PolicyProposal proposal => Wire_PolicyProposal (proposal_to_wire proposal)
  | Content_PolicyResponse response => Wire_PolicyResponse (response_to_wire response)
  | Content_PolicyRevocation revocation => Wire_PolicyRevocation (revocation_to_wire revocation)
  end.

Definition application_to_wire (value : ApplicationMessage) : WireApplicationMessage :=
  mk_WireApplicationMessage (Some (version_to_wire (app_version value)))
    (Some (as_bytes (app_message_id value))) (app_sender_counter value)
    (app_sent_at_unix_milliseconds value) (as_bytes <$> app_reply_to value)
    (Some (content_to_wire (app_content value))).

Definition directed_from_wire (request : WireDirectedRequest)
    : result KonclaveProtocolError ApplicationContent :=
  target ← id_from_wire KDeviceId (wire_directed_target request) "device_id";
  directed ← map_err ProtocolDomain (DirectedRequest_new target (wire_directed_body request));
  match wire_directed_delivery request with
  | Some cutoff =>
      expiry ← map_err (fun e => ProtocolDomain (RequestDelivery e))
                 (opt_traverse RequestAdmissionExpiry_new cutoff);
      Ok (Content_DirectedRequest (with_delivery directed (mk_RequestDeliveryOptions expiry)))
  | None => Ok (Content_DirectedRequest directed)
  end.

Definition content_from_wire (content : WireContent)
    : result KonclaveProtocolError ApplicationContent :=
  match content with
  | Wire_Text body => map_err ProtocolDomain (content_text body)
  | Wire_DirectedRequest request => directed_from_wire request
  | Wire_RequestDeliveryOutcome outcome =>
      outcome ← map_err (fun e => ProtocolDomain (RequestDelivery e)) (outcome_from_wire outcome);
      Ok (Content_RequestDeliveryOutcome outcome)
  | Wire_RepeatPairingRequest request =>
      operation_id ← id_from_wire KRepeatPairingOperationId (wire_rpq_operation_id request)
                       "repeat_pairing_operation_id";
      target ← id_from_wire KDeviceId (wire_rpq_target_device_id request) "device_id";
      conversation ← id_from_wire KConversationId (wire_rpq_new_conversation_id request)
                       "conversation_id";
      request ← map_err ProtocolDomain
        (RepeatPairingRequest_new operation_id target conversation
           (wire_rpq_expires_at_unix_seconds request));
      Ok (Content_RepeatPairingRequest request)
  | Wire_RepeatPairingResponse response =>
      operation_id ← id_from_wire KRepeatPairingOperationId (wire_rpr_operation_id response)
                       "repeat_pairing_operation_id";
      requester ← id_from_wire KDeviceId (wire_rpr_requester_device_id response) "device_id";
      conversation ← id_from_wire KConversationId (wire_rpr_new_conversation_id response)
                       "conversation_id";
      response ← map_err ProtocolDomain
        (RepeatPairingResponse_new operation_id requester conversation
           (wire_rpr_capability response));
      Ok (Content_RepeatPairingResponse response)
  | Wire_PolicyProposal proposal =>
      proposal ← proposal_from_wire proposal; Ok (Content_PolicyProposal proposal)
  | Wire_PolicyResponse response =>
      response ← response_from_wire response; Ok (Content_PolicyResponse response)
  | Wire_PolicyRevocation revocation =>
      revocation ← revocation_from_wire revocation; Ok (Content_PolicyRevocation revocation)
  end.

(** What [decode_application_message] does with the decoded message. *)
Definition application_from_wire (wire : WireApplicationMessage)
    : result KonclaveProtocolError ApplicationMessage :=
  content ← match wire_app_content wire with
            | Some content => content_from_wire content
            | None => Err (MissingVariant "application_message.content")
            end;
  version ← version_from_wire (wire_app_version wire) APPLICATION_CONTRACT;
  message_id ← id_from_wire KMessageId (wire_app_message_id wire) "message_id";
  reply_to ← opt_traverse (fun b => id_from_wire KMessageId (Some b) "message_id")
               (wire_app_reply_to wire);
  map_err ProtocolDomain
    (ApplicationMessage_new version message_id (wire_app_sender_counter wire)
       (wire_app_sent_at_unix_milliseconds wire) reply_to content).

Section messages.
Context `{ProstFraming, ProstDelimiter, !ProstMessage WireApplicationMessage}.

Definition encode_application_message (value : ApplicationMessage)
    : result KonclaveProtocolError bytes :=
  encode_bounded (application_to_wire value) MAX_APPLICATION_MESSAGE_BYTES APPLICATION_CONTRACT.

Definition decode_application_message (b : bytes)
    : result KonclaveProtocolError ApplicationMessage :=
  require_nested_bytes_field_limit b MAX_APPLICATION_MESSAGE_BYTES APPLICATION_CONTRACT 11 3
    MAX_COLLABORATION_POLICY_BUNDLE_BYTES "collaboration_policy_bundle";;
  require_nested_bytes_field_limit b MAX_APPLICATION_MESSAGE_BYTES APPLICATION_CONTRACT 16 4
    MAX_REPEAT_PAIRING_CAPABILITY_BYTES "repeat_pairing_capability";;
  wire ← decode_bounded (M := WireApplicationMessage) b MAX_APPLICATION_MESSAGE_BYTES
           APPLICATION_CONTRACT;
  application_from_wire wire.

End messages.

(** ** Derived identifiers *)

Section identifiers.
Context (sha256 : bytes -> bytes).

(** [derive_exchange_message_id]: the leading sixteen bytes of the digest.  [None] is the
    panic of [copy_from_slice] on a shorter digest, which SHA-256 does not produce. *)
Definition derive_exchange_message_id (domain : bytes) (components : list bytes)
    : option MessageId :=
  fixed_of_slice KMessageId (take 16 (sha256 (domain ++ concat components))).

Definition derive_collaboration_policy_proposal_message_id (conversation_id : ConversationId)
    (device_id : DeviceId) (proposal_id : CollaborationPolicyProposalId) : option MessageId :=
  derive_exchange_message_id COLLABORATION_POLICY_PROPOSAL_MESSAGE_ID_DOMAIN
    [as_bytes conversation_id; as_bytes device_id; as_bytes proposal_id].

Definition derive_collaboration_policy_response_message_id (conversation_id : ConversationId)
    (device_id : DeviceId) (proposal_id : CollaborationPolicyProposalId) : option MessageId :=
  derive_exchange_message_id COLLABORATION_POLICY_RESPONSE_MESSAGE_ID_DOMAIN
    [as_bytes conversation_id; as_bytes device_id; as_bytes proposal_id].

Definition delivery_phase (outcome : RequestDeliveryOutcome) : byte :=
  if bool_decide (outcome ≠ DeliveryAdmitted) then x01 else x00.

Definition delivery_components (conversation_id : ConversationId) (request_message_id : MessageId)
    (responder : DeviceId) (outcome : RequestDeliveryOutcome) : list bytes :=
  [as_bytes conversation_id; as_bytes request_message_id; as_bytes responder;
   [delivery_phase outcome]].

Definition derive_request_delivery_identifiers (conversation_id : ConversationId)
    (request_message_id : MessageId) (responder : DeviceId) (outcome : RequestDeliveryOutcome)
    : option (MessageId * EnvelopeId) :=
  let components := delivery_components conversation_id request_message_id responder outcome in
  message ← derive_exchange_message_id
              (lit "konclave-request-delivery-message-v1" ++ [x00]) components;
  envelope ← derive_exchange_message_id
               (lit "konclave-request-delivery-envelope-v1" ++ [x00]) components;
  envelope ← fixed_of_slice KEnvelopeId (as_bytes envelope);
  Some (message, envelope).

End identifiers.

(** ** Round trip *)

(** What the content constructors establish. *)
Definition content_valid (content : ApplicationContent) : Prop :=
  match content with
  | Content_Text body => 1 <= len body <= MAX_TEXT_BODY_BYTES
  | Content_DirectedRequest request =>
      1 <= len (directed_body request) <= MAX_TEXT_BODY_BYTES
      ∧ ∀ options expiry, directed_delivery request = Some options →
          options_expiry options = Some expiry →
          1 <= unix_milliseconds expiry <= MAX_REQUEST_ADMISSION_UNIX_MILLISECONDS
  | Content_RepeatPairingRequest request => rpq_expires_at_unix_seconds request ≠ 0
  | Content_RepeatPairingResponse response =>
      1 <= len (rpr_capability response) <= MAX_REPEAT_PAIRING_CAPABILITY_BYTES
  | Content_PolicyProposal proposal =>
      1 <= len (canonical_bundle proposal) <= MAX_COLLABORATION_POLICY_BUNDLE_BYTES
  | _ => True
  end.

Record message_valid (m : ApplicationMessage) : Prop := {
  mv_counter : app_sender_counter m ≠ 0;
  mv_content : content_valid (app_content m);
  mv_receipt : is_receipt (app_content m) = true →
    is_Some (app_reply_to m) ∧ app_reply_to m ≠ Some (app_message_id m)
    ∧ app_content m ≠ Content_RequestDeliveryOutcome Responded }.

Lemma id_wire_roundtrip {k} (x : FixedBytes k) field :
  id_from_wire k (Some (as_bytes x)) field = Ok x.
Proof. unfold id_from_wire. simpl. by rewrite from_slice_as_bytes. Qed.

Lemma opt_traverse_roundtrip {E A B} (f : B → A) (g : A → result E B) (o : option B) :
  (∀ b, o = Some b → g (f b) = Ok b) → opt_traverse g (f <$> o) = Ok o.
Proof. intros Hg. destruct o as [b|]; simpl; [|done]. by rewrite Hg. Qed.

Lemma application_text_valid body field :
  1 <= len body <= MAX_TEXT_BODY_BYTES → validate_application_text body field = Ok body.
Proof. intros Hb. unfold validate_application_text. by do 2 pass_guard by lia. Qed.

Lemma directed_wire_roundtrip request :
  content_valid (Content_DirectedRequest request) →
  content_from_wire (content_to_wire (Content_DirectedRequest request))
  = Ok (Content_DirectedRequest request).
Proof.
  intros [Hbody Hexp]. simpl. unfold directed_from_wire, DirectedRequest_new. simpl.
  rewrite id_wire_roundtrip. cbn [mbind result_bind]. rewrite application_text_valid by done.
  destruct request as [target body [[expiry]|]]; simpl; [|done].
  rewrite (opt_traverse_roundtrip unix_milliseconds RequestAdmissionExpiry_new expiry); [done|].
  intros e ->. specialize (Hexp _ e eq_refl eq_refl). unfold RequestAdmissionExpiry_new.
  pass_guard by lia. by destruct e.
Qed.

Lemma content_wire_roundtrip content :
  content_valid content → content_from_wire (content_to_wire content) = Ok content.
Proof.
  destruct content as [body|request|outcome|request|response|proposal|response|[digest]];
    [|apply directed_wire_roundtrip|..]; simpl; intros Hc.
  - unfold content_text. by rewrite application_text_valid.
  - by destruct outcome.
  - rewrite !id_wire_roundtrip. cbn [mbind result_bind].
    unfold RepeatPairingRequest_new, require_positive. pass_guard by lia. by destruct request.
  - rewrite !id_wire_roundtrip. cbn [mbind result_bind].
    unfold RepeatPairingResponse_new, require_length_range. pass_guard by lia. by destruct response.
  - unfold proposal_from_wire, proposal_to_wire. simpl. rewrite !id_wire_roundtrip.
    cbn [mbind result_bind]. rewrite opt_traverse_roundtrip
      by (intros b _; by rewrite from_slice_as_bytes).
    cbn [mbind result_bind]. unfold CollaborationPolicyProposal_new. pass_guard by lia.
    by destruct proposal.
  - unfold response_from_wire, response_to_wire. simpl.
    destruct response as [p d []]; simpl; by rewrite !id_wire_roundtrip.
  - unfold revocation_from_wire. simpl. by rewrite id_wire_roundtrip.
Qed.

(** The domain-to-wire mapping of application messages is invertible: every valid
    version-1 message, whatever its content, is rebuilt unchanged from its generated
    message through every validation the decoder performs, receipts' correlation rules
    included. *)
Theorem application_wire_roundtrip m
    (Hvalid : message_valid m) (Hmajor : major (app_version m) = 1) :
  application_from_wire (application_to_wire m) = Ok m.
Proof.
  destruct Hvalid as [Hcounter Hcontent Hreceipt]. unfold application_from_wire.
  cbn [application_to_wire wire_app_content wire_app_version wire_app_message_id wire_app_reply_to
    wire_app_sender_counter wire_app_sent_at_unix_milliseconds].
  rewrite content_wire_roundtrip by done. cbn [mbind result_bind].
  rewrite version_wire_roundtrip by done. cbn [mbind result_bind].
  rewrite id_wire_roundtrip. cbn [mbind result_bind].
  rewrite opt_traverse_roundtrip by (intros b _; apply id_wire_roundtrip).
  cbn [mbind result_bind]. unfold ApplicationMessage_new, require_positive.
  destruct m as [version id counter sent reply content]; simpl in *.
  destruct (is_receipt content) eqn:Er; simpl.
  - destruct (Hreceipt eq_refl) as ([r ->] & Hself & Hresp).
    rewrite bool_decide_eq_false_2 by done. simpl.
    assert (is_responded_receipt content = false) as -> by (destruct content as [| |[]| | | | |]; done).
    simpl. by pass_guard by lia.
  - by pass_guard by lia.
Qed.

(** ** Identifiers bind their inputs *)

Lemma delivery_components_inj c r d o c' r' d' o' :
  concat (delivery_components c r d o) = concat (delivery_components c' r' d' o') →
  c = c' ∧ r = r' ∧ d = d' ∧ delivery_phase o = delivery_phase o'.
Proof.
  assert (∀ k (x y : FixedBytes k), length (as_bytes x) = length (as_bytes y)) as Hlen.
  { intros k x y. transitivity (id_length k); [|symmetry]; apply Nat.eqb_eq, bytes_length. }
  unfold delivery_components. simpl. intros Heq.
  apply app_inj_1 in Heq as [Hc Heq]; [|apply Hlen]. apply app_inj_1 in Heq as [Hr Heq]; [|apply Hlen].
  apply app_inj_1 in Heq as [Hd Heq]; [|apply Hlen]. apply as_bytes_inj in Hc, Hr, Hd.
  by injection Heq.
Qed.

Definition delivery_preimage (c : ConversationId) (r : MessageId) (d : DeviceId)
    (o : RequestDeliveryOutcome) : bytes :=
  (lit "konclave-request-delivery-message-v1" ++ [x00]) ++ concat (delivery_components c r d o).

Lemma fixed_of_slice_fits k b : length b = id_length k → ∃ x, fixed_of_slice k b = Some x.
Proof.
  intros Hb. destruct (fixed_of_slice k b) eqn:E; [eauto|]. by apply fixed_of_slice_None in E.
Qed.

Lemma derive_exchange_Some sha256 domain components :
  (16 <= length (sha256 (domain ++ concat components)))%nat →
  ∃ id, derive_exchange_message_id sha256 domain components = Some id.
Proof.
  intros Hl. apply fixed_of_slice_fits. rewrite length_take.
  change (id_length KMessageId) with 16%nat. lia.
Qed.

Lemma delivery_message_id sha256 c r d o ids :
  derive_request_delivery_identifiers sha256 c r d o = Some ids →
  as_bytes ids.1 = take 16 (sha256 (delivery_preimage c r d o)).
Proof.
  unfold derive_request_delivery_identifiers, derive_exchange_message_id. cbv zeta.
  intros (m & Hm & (e & _ & (e' & _ & [= <-])%bind_Some)%bind_Some)%bind_Some.
  by apply fixed_of_slice_Some in Hm.
Qed.

(** Receipt identifiers are stable per phase and bind their request.  With any digest
    of at least 16 bytes both identifiers exist; all terminal outcomes of a request share
    them, so contradictory terminal receipts collide on one message; and if two receipts
    share a message identifier then they are for the same conversation, request, responder
    and phase, or their two distinct inputs collide on the leading 16 bytes of the digest. *)
Theorem delivery_identifiers_bind sha256 c r d o
    (Hsha : ∀ b, (16 <= length (sha256 b))%nat) :
  ∃ ids, derive_request_delivery_identifiers sha256 c r d o = Some ids
  ∧ (∀ o', o ≠ DeliveryAdmitted → o' ≠ DeliveryAdmitted →
       derive_request_delivery_identifiers sha256 c r d o' = Some ids)
  ∧ ∀ c' r' d' o' ids', derive_request_delivery_identifiers sha256 c' r' d' o' = Some ids' →
      ids'.1 = ids.1 →
      (c' = c ∧ r' = r ∧ d' = d ∧ (o' = DeliveryAdmitted ↔ o = DeliveryAdmitted))
      ∨ (delivery_preimage c' r' d' o' ≠ delivery_preimage c r d o
         ∧ take 16 (sha256 (delivery_preimage c' r' d' o'))
           = take 16 (sha256 (delivery_preimage c r d o))).
Proof.
  assert (∃ ids, derive_request_delivery_identifiers sha256 c r d o = Some ids) as [ids Hids].
  { unfold derive_request_delivery_identifiers. cbv zeta.
    edestruct derive_exchange_Some as [m ->]; [apply Hsha|]. cbn [mbind option_bind].
    edestruct derive_exchange_Some as [e ->]; [apply Hsha|]. cbn [mbind option_bind].
    edestruct (fixed_of_slice_fits KEnvelopeId (as_bytes m)) as [e' ->]; [|by eexists].
    change (id_length KEnvelopeId) with (id_length KMessageId). apply Nat.eqb_eq, bytes_length. }
  exists ids. split; [done|]. split.
  - intros o' Ho Ho'. rewrite <- Hids. unfold derive_request_delivery_identifiers, delivery_components.
    assert (delivery_phase o' = delivery_phase o) as ->; [|done].
    unfold delivery_phase. by rewrite !bool_decide_eq_true_2.
  - intros c' r' d' o' ids' Hids' Hsame.
    apply delivery_message_id in Hids, Hids'.
    destruct (decide (delivery_preimage c' r' d' o' = delivery_preimage c r d o)) as [Heq|Hne].
    + left. apply app_inv_head in Heq. apply delivery_components_inj in Heq as (-> & -> & -> & Hp).
      split_and!; [done..|]. revert Hp. unfold delivery_phase. do 2 case_bool_decide; naive_solver.
    + right. split; [done|]. congruence.
Qed.
