(* ===== verification/PolicyExamples.v ===== *)
(** * Concrete policies, proposals and application messages

    A reference codec for the policy bundle, a bundle with two statements, and the
    application messages of one request-service exchange, executed on the model. *)

From S2P Require Import Prelude Identifiers RelayModel Membership Wire WireProofs ReferenceCodec.
From S2P Require Import CollaborationPolicy Application PolicyContract ApplicationContract.
Open Scope Z_scope.

(** ** A reference codec for bundles ([collaboration_policy.proto]) *)

Definition encode_statement (s : WirePolicyStatement) : bytes :=
  put_bytes 1 (wire_statement_id s) ++ put_varint 2 (wire_effect s) ++ put_bytes 3 (wire_action s)
  ++ put_message 4 (wire_resource s).

Definition encode_limits (l : WirePolicyLimits) : bytes :=
  put_optional 1 (wire_duration_milliseconds l) ++ put_optional 2 (wire_turns l)
  ++ put_optional 3 (wire_tokens l) ++ put_optional 4 (wire_concurrent_requests l).

Definition encode_bundle (w : WirePolicyBundle) : bytes :=
  put_message 1 (encode_version <$> wire_bundle_version w) ++ put_bytes 2 (wire_name w)
  ++ put_message 3 (wire_guidance w)
  ++ concat ((fun s => bytes_record 4 (encode_statement s)) <$> wire_statements w)
  ++ concat (bytes_record 5 <$> wire_required_harness_claims w)
  ++ put_message 6 (encode_limits <$> wire_limits w).

Definition decode_statement (b : bytes) : option WirePolicyStatement :=
  fields ← read_fields b;
  Some (mk_WirePolicyStatement (default [] (last_bytes 1 fields)) (as_u32 (last_varint 2 fields))
          (default [] (last_bytes 3 fields)) (last_bytes 4 fields)).

Definition optional_u64 (o : option Z) : option Z := (fun v => v mod 2 ^ 64) <$> o.
Definition optional_u32 (o : option Z) : option Z := (fun v => v mod 2 ^ 32) <$> o.

Definition decode_limits (b : bytes) : option WirePolicyLimits :=
  fields ← read_fields b;
  Some (mk_WirePolicyLimits (optional_u64 (last_varint 1 fields))
          (optional_u64 (last_varint 2 fields)) (optional_u64 (last_varint 3 fields))
          (optional_u32 (last_varint 4 fields))).

Definition all_bytes (field : Z) (fields : list (Z * field_value)) : list bytes :=
  omap (fun f => match f with
                 | (n, FBytes b) => if n =? field then Some b else None
                 | _ => None end) fields.

Definition decode_bundle (b : bytes) : option WirePolicyBundle :=
  fields ← read_fields b;
  version ← nested decode_version (last_bytes 1 fields);
  statements ← mapM decode_statement (all_bytes 4 fields);
  limits ← nested decode_limits (last_bytes 6 fields);
  Some (mk_WirePolicyBundle version (default [] (last_bytes 2 fields)) (last_bytes 3 fields)
          statements (all_bytes 5 fields) limits).

Lemma decode_bundle_typed b m : decode_bundle b = Some m → wire_typed m.
Proof.
  unfold decode_bundle. intros H. inv_some. split; simpl.
  - intros v ->. match goal with H : nested decode_version _ = Some (Some v) |- _ =>
      apply nested_Some in H as [b' Hw] end.
    unfold decode_version in Hw. inv_some. split; apply as_u32_range.
  - intros l ->. match goal with H : nested decode_limits _ = Some (Some l) |- _ =>
      apply nested_Some in H as [b' Hw] end.
    unfold decode_limits in Hw. inv_some.
    split_and!; simpl; intros l' (v & _ & ->)%fmap_Some; unfold is_u64, is_u32, U64_MAX, U32_MAX;
      pose proof (Z.mod_pos_bound v (2 ^ 64)); pose proof (Z.mod_pos_bound v (2 ^ 32)); lia.
Qed.

#[export] Program Instance reference_bundle : ProstMessage WirePolicyBundle := {|
  encode_to_vec := encode_bundle;
  encoded_len w := len (encode_bundle w);
  prost_decode b := to_result (decode_bundle b) |}.
Next Obligation. intros. unfold to_result in *. inv_some. by eapply decode_bundle_typed. Qed.

(** ** A policy *)

Definition modify_anywhere : CollaborationPolicyStatement :=
  mk_CollaborationPolicyStatement (lit "b-modify") Effect_RequireLocalApproval
    (lit "workspace.modify") None.
Definition read_repository : CollaborationPolicyStatement :=
  mk_CollaborationPolicyStatement (lit "a-read") Effect_Allow (lit "workspace.read")
    (Some (lit "repository/main")).

Definition policy_limits : CollaborationPolicyLimits :=
  mk_CollaborationPolicyLimits (Some 60000) (Some 10) None (Some 2).
Definition policy_claim : text := lit "harness.sandbox".

Definition policy_example : result KonclaveDomainError CollaborationPolicyBundle :=
  CollaborationPolicyBundle_new application_v1 (lit "pairing") None
    [modify_anywhere; read_repository] [policy_claim] policy_limits.

Definition policy_example_bundle : CollaborationPolicyBundle :=
  mk_CollaborationPolicyBundle application_v1 (lit "pairing") None
    [read_repository; modify_anywhere] [policy_claim] policy_limits.

Definition modify_target : CollaborationPolicyTarget :=
  mk_CollaborationPolicyTarget (lit "workspace.modify") None.
Definition read_target : CollaborationPolicyTarget :=
  mk_CollaborationPolicyTarget (lit "workspace.read") (Some (lit "repository/main")).

Definition policy_context (denials : list CollaborationPolicyTarget)
    : CollaborationPolicyEvaluationContext :=
  mk_CollaborationPolicyEvaluationContext [modify_target; read_target] [policy_claim]
    [modify_target; read_target] denials [].

Definition modify_request (fresh : bool) : CollaborationPolicyEvaluationRequest :=
  mk_CollaborationPolicyEvaluationRequest modify_target (mk_CollaborationPolicyCost 1 100 1) fresh.
Definition policy_usage : CollaborationPolicyUsage := mk_CollaborationPolicyUsage 10 9 0 1.

Lemma policy_limits_typed : limits_typed policy_limits.
Proof. unfold limits_typed, is_u64, is_u32. simpl. repeat split; simplify_eq; done. Qed.

Lemma evaluate_outcome_witness :
  evaluate_collaboration_policy policy_example_bundle (policy_context []) (modify_request false)
    policy_usage = Decision_RequireLocalApproval.
Proof.
  apply (evaluate_outcome application_v1 (lit "pairing") None [modify_anywhere; read_repository]
    [policy_claim] policy_limits policy_example_bundle [read_target; modify_target] [policy_claim]
    [modify_target; read_target] [] [] (policy_context []) (modify_request false) policy_usage).
  - vm_compute. reflexivity.
  - vm_compute. reflexivity.
  - apply policy_limits_typed.
  - split; [|split; [reflexivity|left; exists modify_anywhere; split; [left|done]]].
    split; [exists Effect_RequireLocalApproval, modify_anywhere; split; [left|done]|].
    split. { intros (s & Hs & _ & _ & He). apply elem_of_cons in Hs as [->|Hs]; [done|].
             apply list_elem_of_singleton in Hs as ->. done. }
    split; [apply not_elem_of_nil|]. split; [right; left|].
    split; [intros claim Hc; exact Hc|]. split; [left|].
    repeat split; simpl; intros l Hl; simplify_eq; simpl; lia.
Defined.

Lemma local_controls_only_tighten_witness :
  strictness (evaluate_collaboration_policy policy_example_bundle (policy_context [])
                (modify_request true) policy_usage) = 0
  ∧ strictness (evaluate_collaboration_policy policy_example_bundle
                  (policy_context [modify_target]) (modify_request true) policy_usage) = 2
  ∧ strictness (evaluate_collaboration_policy policy_example_bundle (policy_context [])
                  (modify_request true) policy_usage)
    <= strictness (evaluate_collaboration_policy policy_example_bundle
                     (policy_context [modify_target]) (modify_request true) policy_usage).
Proof.
  split; [vm_compute; reflexivity|]. split; [vm_compute; reflexivity|].
  apply (local_controls_only_tighten policy_example_bundle
    [modify_target; read_target] [policy_claim] [modify_target; read_target] [] []
    [modify_target; read_target] [policy_claim] [modify_target; read_target] [modify_target] []).
  - vm_compute. reflexivity.
  - vm_compute. reflexivity.
  - split; simpl; intros x Hx; (exact Hx || by apply elem_of_nil in Hx).
  - unfold usage_grows. lia.
  - apply policy_limits_typed.
Defined.

Lemma policy_bundle_roundtrip_witness :
  ∃ b, encode_collaboration_policy_bundle policy_example_bundle = Ok b
    ∧ decode_collaboration_policy_bundle b = Ok policy_example_bundle
    ∧ ∀ statements' claims',
        [modify_anywhere; read_repository] ≡ₚ statements' → [policy_claim] ≡ₚ claims' →
        CollaborationPolicyBundle_new application_v1 (lit "pairing") None statements' claims'
          policy_limits = Ok policy_example_bundle.
Proof.
  apply (policy_bundle_roundtrip application_v1 (lit "pairing") None
    [modify_anywhere; read_repository] [policy_claim] policy_limits policy_example_bundle).
  - repeat constructor; [exists (lit "b-modify"), Effect_RequireLocalApproval,
      (lit "workspace.modify"), None|exists (lit "a-read"), Effect_Allow, (lit "workspace.read"),
      (Some (lit "repository/main"))]; vm_compute; reflexivity.
  - exists (Some 60000), (Some 10), None, (Some 2). vm_compute. reflexivity.
  - reflexivity.
  - vm_compute. reflexivity.
  - reflexivity.
  - vm_compute. congruence.
  - vm_compute. reflexivity.
  - vm_compute. reflexivity.
Defined.

(** A stand-in digest: the last 32 bytes, in reverse. *)
Definition tail_digest (b : bytes) : bytes := take 32 (reverse b ++ replicate 32 x00).

Definition policy_example_bytes : bytes := encode_bundle (bundle_to_wire policy_example_bundle).
Definition policy_example_digest : CollaborationPolicyDigest :=
  default (repeat_id KCollaborationPolicyDigest x00)
    (fixed_of_slice KCollaborationPolicyDigest
       (tail_digest (COLLABORATION_POLICY_DIGEST_DOMAIN ++ policy_example_bytes))).
Definition policy_example_proposal : CollaborationPolicyProposal :=
  mk_CollaborationPolicyProposal (repeat_id KCollaborationPolicyProposalId x01)
    policy_example_digest policy_example_bytes None.

Lemma verified_policy_identity_witness :
  encode_collaboration_policy_bundle policy_example_bundle = Ok policy_example_bytes
  ∧ derive_collaboration_policy_digest tail_digest policy_example_bundle
    = Ok policy_example_digest.
Proof.
  assert (verify_collaboration_policy_proposal tail_digest policy_example_proposal
          = Ok policy_example_bundle) as Hv.
  { destruct (verify_collaboration_policy_proposal tail_digest policy_example_proposal) eqn:E;
      vm_compute in E; [|discriminate E]. injection E as <-. vm_compute. reflexivity. }
  destruct (verified_policy_identity tail_digest policy_example_proposal policy_example_bundle Hv)
    as (He & Hd & _).
  exact (conj He Hd).
Defined.

(** ** A request-service exchange *)

Definition exchange_request : ApplicationMessage :=
  mk_ApplicationMessage application_v1 (repeat_id KMessageId x21) 1 900 None
    (Content_DirectedRequest
       (mk_DirectedRequest (operator_device_id example_channel) (lit "please review")
          (Some (mk_RequestDeliveryOptions (Some (mk_RequestAdmissionExpiry 5000)))))).

Definition exchange_receipt : ApplicationMessage :=
  mk_ApplicationMessage application_v1 (repeat_id KMessageId x22) 1 950
    (Some (repeat_id KMessageId x21)) (Content_RequestDeliveryOutcome DeliveryAdmitted).

Definition exchange_answer : ApplicationMessage :=
  mk_ApplicationMessage application_v1 (repeat_id KMessageId x23) 2 990
    (Some (repeat_id KMessageId x21)) (Content_Text (lit "looks good")).

Definition logged (sender : DeviceId) (m : ApplicationMessage) : RequestServiceRequest :=
  mk_RequestServiceRequest (channel_conversation_id example_channel) sender m.

Definition exchange_log : list RequestServiceRequest :=
  [logged (requester_device_id example_channel) exchange_request;
   logged (operator_device_id example_channel) exchange_receipt;
   logged (operator_device_id example_channel) exchange_answer].

Lemma application_wire_roundtrip_witness :
  application_from_wire (application_to_wire exchange_receipt) = Ok exchange_receipt.
Proof.
  apply (application_wire_roundtrip exchange_receipt); [|reflexivity].
  split; simpl; [lia|done|]. intros _. split; [by eexists|]. split; [|done].
  intros H. apply (f_equal (option_map as_bytes)) in H. vm_compute in H. discriminate H.
Defined.

Lemma exchange_log_accepted : channel_log example_channel exchange_log.
Proof.
  set (q := logged (requester_device_id example_channel) exchange_request).
  assert (channel_log example_channel [q]) as H1.
  { apply (channel_log_snoc _ [] example_joined None); [constructor|done|].
    vm_compute. reflexivity. }
  assert (channel_log example_channel (take 2 exchange_log)) as H2.
  { apply (channel_log_snoc _ [q] example_joined (Some q)); [done| |vm_compute; reflexivity].
    intros o [= <-]. left. }
  apply (channel_log_snoc _ (take 2 exchange_log) example_joined (Some q));
    [done| |vm_compute; reflexivity].
  intros o [= <-]. left.
Qed.

Lemma request_service_conversation_witness :
  channel_answer example_channel (take 2 exchange_log)
    (logged (operator_device_id example_channel) exchange_answer).
Proof.
  apply (request_service_conversation example_channel exchange_log (take 2 exchange_log)
    (logged (operator_device_id example_channel) exchange_answer) []).
  - apply exchange_log_accepted.
  - reflexivity.
Defined.

Lemma delivery_identifiers_bind_witness :
  ∃ ids, derive_request_delivery_identifiers tail_digest example_conversation
           (repeat_id KMessageId x21) example_alice EndedWithoutResponse = Some ids
    ∧ derive_request_delivery_identifiers tail_digest example_conversation
        (repeat_id KMessageId x21) example_alice Responded = Some ids.
Proof.
  destruct (delivery_identifiers_bind tail_digest example_conversation (repeat_id KMessageId x21)
    example_alice EndedWithoutResponse) as (ids & Hids & Hterminal & _).
  - intros b. unfold tail_digest. rewrite length_take, length_app, length_replicate. lia.
  - exists ids. split; [exact Hids|]. apply Hterminal; done.
Defined.
