(* ===== verification/RelayStore.v ===== *)
(** * The durable relay store

    [crates/Konclave.RelayCore/src/sqlite.rs] (submission, replay, acknowledgment),
    [repository.rs] and [error.rs].

    The database is explicit state.  A table is a finite map on its primary key where
    it is only accessed by it, and a list of rows where it is also queried by range or
    by another column.  A blob column whose length the schema checks is the fixed-length
    identifier itself.  A transaction is a function from the database to a result; an
    error rolls it back, so the operations return the old database with it.  The other
    constraints of the schema (primary key, unique, foreign key, checks) are evaluated
    on insertion and their violation is the storage failure the code reports.  Failures
    of the storage engine itself (disk, lock, connection) are not represented. *)

From S2P Require Import Prelude Identifiers RelayModel Wire.
Open Scope Z_scope.

(** ** Errors *)

Inductive RelayError :=
| Unauthorized
| ExpiredEnvelope
| IdempotencyConflict
| EnvelopeEncodingMismatch
| StaleEpoch
| SequenceExhausted
| InvalidAcknowledgment
| EnrollmentConflict
| PrincipalCapacityExceeded
| ExpiredPairingRendezvous
| PairingRendezvousConflict
| PairingRendezvousUnavailable
| PairingRendezvousGlobalCapacityExceeded
| PairingRendezvousPrincipalCapacityExceeded
| InvalidShortCodeDeadline
| ExpiredShortCodeAttempt
| ShortCodeAttemptConflict
| ShortCodeAttemptUnavailable
| ShortCodeClaimRateLimited
| ShortCodeGlobalCapacityExceeded
| ShortCodeCreatorCapacityExceeded
| InvalidShortCodeStage
| PrincipalRevoked
| UnsupportedEnrollmentVersion
| ClockUnavailable
| StorageFailure (operation : string)
| UnsupportedSchemaVersion (actual : Z)
| InvalidStoredData
| RelayProtocol (source : KonclaveProtocolError)
| RelayDomain (source : KonclaveDomainError).

Global Instance RelayError_eq_dec : EqDecision RelayError.
Proof. solve_decision. Defined.

(** ** Tables *)

Record RouteRow := mk_RouteRow { next_cursor : Z; current_epoch : Z }.

Record EnvelopeRow := mk_EnvelopeRow {
  row_routing_id : RoutingId;
  row_cursor : Z;
  row_envelope_id : EnvelopeId;
  row_version_major : Z;
  row_version_minor : Z;
  row_delivery_class : Z;
  row_expected_parent_epoch : option Z;
  row_expires_at_unix_seconds : Z;
  row_encoded_envelope : bytes }.

Record RelayDb := mk_RelayDb {
  relay_route : gmap RoutingId RouteRow;
  relay_envelope : list EnvelopeRow;
  relay_acknowledgment : gmap (RoutingId * RelayPrincipalId) Z }.

Definition empty_db : RelayDb := mk_RelayDb ∅ [] ∅.

Global Instance RouteRow_eq_dec : EqDecision RouteRow.
Proof. solve_decision. Defined.
Global Instance EnvelopeRow_eq_dec : EqDecision EnvelopeRow.
Proof. solve_decision. Defined.

(** ** Integers *)

Definition to_sql_integer (value : Z) : result RelayError Z :=
  if value <=? I64_MAX then Ok value else Err SequenceExhausted.

Definition from_sql_integer (value : Z) : result RelayError Z :=
  if 0 <=? value then Ok value else Err InvalidStoredData.

Definition from_sql_u32 (value : Z) : result RelayError Z :=
  if (0 <=? value) && (value <=? U32_MAX) then Ok value else Err InvalidStoredData.

Lemma to_sql_integer_fits n : n <= I64_MAX → to_sql_integer n = Ok n.
Proof. unfold to_sql_integer. intros H. by destruct (Z.leb_spec n I64_MAX); [|lia]. Qed.

Lemma from_sql_integer_nonneg n : 0 <= n → from_sql_integer n = Ok n.
Proof. unfold from_sql_integer. intros H. by destruct (Z.leb_spec 0 n); [|lia]. Qed.

Lemma from_sql_u32_fits n : 0 <= n <= U32_MAX → from_sql_u32 n = Ok n.
Proof. unfold from_sql_u32. intros H. by replace (_ && _) with true by lia. Qed.

Definition delivery_class_to_sql (value : DeliveryClass) : Z :=
  match value with
  | KeyPackage => 1 | Welcome => 2 | GroupProposal => 3 | GroupCommit => 4
  | GroupApplication => 5 | Pairing => 6
  end.

Definition delivery_class_from_sql (value : Z) : result RelayError DeliveryClass :=
  match value with
  | 1 => Ok KeyPackage
  | 2 => Ok Welcome
  | 3 => Ok GroupProposal
  | 4 => Ok GroupCommit
  | 5 => Ok GroupApplication
  | 6 => Ok Pairing
  | _ => Err InvalidStoredData
  end.

Definition storage_failure (operation : string) : RelayError := StorageFailure operation.

(** ** Rows *)

(** Short-circuiting [&&] whose right operand may fail with [?]. *)
Definition and_then_check (a : bool) (b : result RelayError bool) : result RelayError bool :=
  if a then b else Ok false.

Definition optional_epoch_from_row (row : EnvelopeRow) : result RelayError (option Z) :=
  opt_traverse from_sql_integer (row_expected_parent_epoch row).

Definition row_metadata_matches (row : EnvelopeRow) (e : RelayEnvelope)
    : result RelayError bool :=
  and_then_check (bool_decide (row_routing_id row = env_routing_id e)) (
  and_then_check (bool_decide (row_envelope_id row = env_envelope_id e)) (
  version_major ← from_sql_u32 (row_version_major row);
  and_then_check (version_major =? major (env_version e)) (
  version_minor ← from_sql_u32 (row_version_minor row);
  and_then_check (version_minor =? minor (env_version e)) (
  class ← delivery_class_from_sql (row_delivery_class row);
  and_then_check (bool_decide (class = env_delivery_class e)) (
  epoch ← optional_epoch_from_row row;
  and_then_check (bool_decide (epoch = env_expected_parent_epoch e)) (
  expires ← from_sql_integer (row_expires_at_unix_seconds row);
  Ok (expires =? env_expires_at_unix_seconds e))))))).

(** The checks of [CREATE TABLE relay_envelope] that do not involve other rows. *)
Definition envelope_row_checks (row : EnvelopeRow) : bool :=
  (1 <=? row_cursor row)
  && (1 <=? row_version_major row) && (row_version_major row <=? U32_MAX)
  && (0 <=? row_version_minor row) && (row_version_minor row <=? U32_MAX)
  && (1 <=? row_delivery_class row) && (row_delivery_class row <=? 6)
  && (1 <=? row_expires_at_unix_seconds row)
  && (1 <=? len (row_encoded_envelope row)) && (len (row_encoded_envelope row) <=? 1048576)
  && (if (row_delivery_class row =? 3) || (row_delivery_class row =? 4)
      then is_some_and (row_expected_parent_epoch row) (fun e => 0 <=? e)
      else is_none (row_expected_parent_epoch row)).

(** [INSERT INTO relay_envelope]: primary key, unique envelope id, foreign key and
    checks. *)
Definition insert_envelope_row (db : RelayDb) (row : EnvelopeRow) : option RelayDb :=
  if envelope_row_checks row
     && negb (existsb (fun r => bool_decide (row_routing_id r = row_routing_id row)
                                && (row_cursor r =? row_cursor row)) (relay_envelope db))
     && negb (existsb (fun r => bool_decide (row_envelope_id r = row_envelope_id row))
                (relay_envelope db))
     && is_some (relay_route db !! row_routing_id row)
  then Some (mk_RelayDb (relay_route db) (relay_envelope db ++ [row]) (relay_acknowledgment db))
  else None.

(** ** Submission *)

Record SubmitResult := SubmitResult_new { submit_cursor : Z; submit_duplicate : bool }.
Record ExistingSubmission := mk_ExistingSubmission {
  existing_cursor : Z;
  existing_identical : bool }.

Definition set_route (db : RelayDb) (routing_id : RoutingId) (row : RouteRow) : RelayDb :=
  mk_RelayDb (<[routing_id := row]> (relay_route db)) (relay_envelope db)
    (relay_acknowledgment db).

(** [INSERT INTO relay_route .. ON CONFLICT(routing_id) DO NOTHING]. *)
Definition initialize_route (db : RelayDb) (routing_id : RoutingId) : RelayDb :=
  match relay_route db !! routing_id with
  | Some _ => db
  | None => set_route db routing_id (mk_RouteRow 1 0)
  end.

Definition in_envelope_bounds (length : Z) : bool :=
  (1 <=? length) && (length <=? MAX_RELAY_ENVELOPE_BYTES).

Section submission.
Context `{P : Prost}.

Definition find_existing (db : RelayDb) (envelope : RelayEnvelope) (encoded_envelope : bytes)
    : result RelayError (option ExistingSubmission) :=
  match List.find (fun r => bool_decide (row_envelope_id r = env_envelope_id envelope))
          (relay_envelope db) with
  | None => Ok None
  | Some row =>
      fail_if (negb (in_envelope_bounds (len (row_encoded_envelope row)))) InvalidStoredData;;
      stored_envelope ← map_err (fun _ => InvalidStoredData)
                          (decode_relay_envelope (row_encoded_envelope row));
      matches ← row_metadata_matches row stored_envelope;
      fail_if (negb matches) InvalidStoredData;;
      cursor ← from_sql_integer (row_cursor row);
      Ok (Some (mk_ExistingSubmission cursor
            (bool_decide (stored_envelope = envelope)
             && bool_decide (row_encoded_envelope row = encoded_envelope))))
  end.

Definition classify_allocation_failure (db : RelayDb) (envelope : RelayEnvelope)
    : result RelayError RelayError :=
  row ← ok_or (relay_route db !! env_routing_id envelope) (storage_failure "missing relay route");
  next ← from_sql_integer (next_cursor row);
  epoch ← from_sql_integer (current_epoch row);
  if (bool_decide (env_delivery_class envelope = GroupCommit)
      || bool_decide (env_delivery_class envelope = GroupProposal))
     && bool_decide (env_expected_parent_epoch envelope ≠ Some epoch)
  then Ok StaleEpoch
  else if (I64_MAX <=? next)
          || (bool_decide (env_delivery_class envelope = GroupCommit) && (I64_MAX <=? epoch))
  then Ok SequenceExhausted
  else Ok (storage_failure "relay sequence allocation").

(** The three [UPDATE relay_route .. RETURNING next_cursor - 1] statements. *)
Definition update_commit (db : RelayDb) (routing_id : RoutingId) (expected_epoch : Z)
    : option (Z * RelayDb) :=
  row ← relay_route db !! routing_id;
  if (current_epoch row =? expected_epoch) && (current_epoch row <? I64_MAX)
     && (next_cursor row <? I64_MAX)
  then Some (next_cursor row,
             set_route db routing_id (mk_RouteRow (next_cursor row + 1) (current_epoch row + 1)))
  else None.

Definition update_proposal (db : RelayDb) (routing_id : RoutingId) (expected_epoch : Z)
    : option (Z * RelayDb) :=
  row ← relay_route db !! routing_id;
  if (current_epoch row =? expected_epoch) && (next_cursor row <? I64_MAX)
  then Some (next_cursor row,
             set_route db routing_id (mk_RouteRow (next_cursor row + 1) (current_epoch row)))
  else None.

Definition update_other (db : RelayDb) (routing_id : RoutingId) : option (Z * RelayDb) :=
  row ← relay_route db !! routing_id;
  if next_cursor row <? I64_MAX
  then Some (next_cursor row,
             set_route db routing_id (mk_RouteRow (next_cursor row + 1) (current_epoch row)))
  else None.

Definition allocate_cursor (db : RelayDb) (envelope : RelayEnvelope)
    : result RelayError (Z * RelayDb) :=
  expected_epoch ← opt_traverse to_sql_integer (env_expected_parent_epoch envelope);
  updated ← match env_delivery_class envelope with
            | GroupCommit =>
                epoch ← ok_or expected_epoch StaleEpoch;
                Ok (update_commit db (env_routing_id envelope) epoch)
            | GroupProposal =>
                epoch ← ok_or expected_epoch StaleEpoch;
                Ok (update_proposal db (env_routing_id envelope) epoch)
            | KeyPackage | Welcome | GroupApplication | Pairing =>
                Ok (update_other db (env_routing_id envelope))
            end;
  match updated with
  | Some (cursor, db') => cursor ← from_sql_integer cursor; Ok (cursor, db')
  | None => e ← classify_allocation_failure db envelope; Err e
  end.

Definition insert_envelope (db : RelayDb) (envelope : RelayEnvelope) (encoded_envelope : bytes)
    (cursor : Z) : result RelayError RelayDb :=
  cursor ← to_sql_integer cursor;
  epoch ← opt_traverse to_sql_integer (env_expected_parent_epoch envelope);
  expires ← to_sql_integer (env_expires_at_unix_seconds envelope);
  ok_or (insert_envelope_row db
           (mk_EnvelopeRow (env_routing_id envelope) cursor (env_envelope_id envelope)
              (major (env_version envelope)) (minor (env_version envelope))
              (delivery_class_to_sql (env_delivery_class envelope)) epoch expires
              encoded_envelope))
    (storage_failure "envelope insert").

(** [RelayRepository::submit_encoded]. *)
Definition submit_encoded (db : RelayDb) (envelope : RelayEnvelope) (encoded_envelope : bytes)
    (now_unix_seconds : Z) : result RelayError SubmitResult * RelayDb :=
  transact db (
    decoded ← map_err RelayProtocol (decode_relay_envelope encoded_envelope);
    fail_if (bool_decide (decoded ≠ envelope)) EnvelopeEncodingMismatch;;
    let db1 := initialize_route db (env_routing_id envelope) in
    existing ← find_existing db1 envelope encoded_envelope;
    match existing with
    | Some existing =>
        fail_if (negb (existing_identical existing)) IdempotencyConflict;;
        Ok (SubmitResult_new (existing_cursor existing) true, db1)
    | None =>
        fail_if (env_expires_at_unix_seconds envelope <=? now_unix_seconds) ExpiredEnvelope;;
        '(cursor, db2) ← allocate_cursor db1 envelope;
        db3 ← insert_envelope db2 envelope encoded_envelope cursor;
        Ok (SubmitResult_new cursor false, db3)
    end).

(** [RelayRepository::submit], the default method of the trait. *)
Definition submit (db : RelayDb) (envelope : RelayEnvelope) (now_unix_seconds : Z)
    : result RelayError SubmitResult * RelayDb :=
  match map_err RelayProtocol (encode_relay_envelope envelope) with
  | Err e => (Err e, db)
  | Ok encoded => submit_encoded db envelope encoded now_unix_seconds
  end.

(** ** Acknowledgment *)

(** [RelayRepository::acknowledge]. *)
Definition acknowledge (db : RelayDb) (principal : RelayPrincipalId) (request : AcknowledgeRequest)
    : result RelayError Z * RelayDb :=
  transact db (
    highest ← opt_traverse from_sql_integer
                ((fun row => next_cursor row - 1) <$> relay_route db !! ack_routing_id request);
    fail_if (default 0 highest <? ack_cursor request) InvalidAcknowledgment;;
    requested ← to_sql_integer (ack_cursor request);
    let key := (ack_routing_id request, principal) in
    let cursor := match relay_acknowledgment db !! key with
                  | Some old => Z.max old requested
                  | None => requested
                  end in
    fail_if (negb ((1 <=? cursor) && is_some (relay_route db !! ack_routing_id request)))
      (storage_failure "acknowledgment update");;
    cursor ← from_sql_integer cursor;
    Ok (cursor, mk_RelayDb (relay_route db) (relay_envelope db)
                  (<[key := cursor]> (relay_acknowledgment db)))).

(** ** Replay *)

Definition REPLAY_PAGE_FIXED_WIRE_BUDGET : Z := 64.
Definition STORED_ENVELOPE_WIRE_OVERHEAD_BUDGET : Z := 32.

Record ReplaySelection := mk_ReplaySelection {
  selection_last_cursor : option Z;
  selection_count : Z;
  selection_has_more : bool }.

(** The loop of [select_replay_rows] over [(cursor, envelope_length)] rows. *)
Fixpoint select_loop (rows : list (Z * Z)) (limit used_bytes : Z) (last_cursor : option Z)
    (count : Z) : result RelayError ReplaySelection :=
  match rows with
  | [] => Ok (mk_ReplaySelection last_cursor count false)
  | (cursor, envelope_length) :: rest =>
      fail_if (negb (in_envelope_bounds envelope_length)) InvalidStoredData;;
      row_budget ← ok_or (checked_add USIZE_MAX envelope_length
                            STORED_ENVELOPE_WIRE_OVERHEAD_BUDGET) InvalidStoredData;
      next_used_bytes ← ok_or (checked_add USIZE_MAX used_bytes row_budget) InvalidStoredData;
      if (count =? limit) || (MAX_REPLAY_PAGE_BYTES <? next_used_bytes)
      then Ok (mk_ReplaySelection last_cursor count true)
      else
        cursor ← from_sql_integer cursor;
        select_loop rest limit next_used_bytes (Some cursor) (count + 1)
  end.

Definition select_replay_rows (rows : list (Z * Z)) (limit : Z) : result RelayError ReplaySelection :=
  selection ← select_loop rows limit REPLAY_PAGE_FIXED_WIRE_BUDGET None 0;
  fail_if (is_none (selection_last_cursor selection) && negb (len rows =? 0)) InvalidStoredData;;
  Ok selection.

Record ReplayEntry := mk_ReplayEntry { entry_encoded_envelope : bytes; entry_cursor : Z }.
Record ReplayEntries := mk_ReplayEntries {
  entries : list ReplayEntry;
  entries_next_cursor : Z;
  entries_has_more : bool }.

Definition replay_entry_from_row (row : EnvelopeRow) : result RelayError ReplayEntry :=
  fail_if (negb (in_envelope_bounds (len (row_encoded_envelope row)))) InvalidStoredData;;
  envelope ← map_err (fun _ => InvalidStoredData)
               (decode_relay_envelope (row_encoded_envelope row));
  matches ← row_metadata_matches row envelope;
  fail_if (negb matches) InvalidStoredData;;
  cursor ← from_sql_integer (row_cursor row);
  Ok (mk_ReplayEntry (row_encoded_envelope row) cursor).

(** [SELECT .. WHERE routing_id = ?1 AND cursor > ?2 [AND cursor <= ?3] ORDER BY cursor]. *)
Definition select_rows (db : RelayDb) (routing_id : RoutingId) (after : Z) (upto : option Z)
    : list EnvelopeRow :=
  sort_by row_cursor Z.compare
    (List.filter (fun r => bool_decide (row_routing_id r = routing_id) && (after <? row_cursor r)
                           && is_none_or upto (fun last => row_cursor r <=? last))
       (relay_envelope db)).

Definition load_replay_entries (db : RelayDb) (request : ReplayRequest)
    : result RelayError ReplayEntries :=
  let limit := replay_limit request in
  after ← to_sql_integer (replay_after_cursor request);
  let size_rows := (fun r => (row_cursor r, len (row_encoded_envelope r)))
                   <$> take (Z.to_nat (limit + 1))
                         (select_rows db (replay_routing_id request) after None) in
  selection ← select_replay_rows size_rows limit;
  match selection_last_cursor selection with
  | None => Ok (mk_ReplayEntries [] (replay_after_cursor request) false)
  | Some last_cursor =>
      last_sql ← to_sql_integer last_cursor;
      entries ← traverse replay_entry_from_row
                  (take (Z.to_nat (selection_count selection))
                     (select_rows db (replay_routing_id request) after (Some last_sql)));
      Ok (mk_ReplayEntries entries
            (default (replay_after_cursor request) (entry_cursor <$> last entries))
            (selection_has_more selection))
  end.

(** [RelayRepository::replay]. *)
Definition replay (db : RelayDb) (request : ReplayRequest) : result RelayError ReplayPage :=
  page ← load_replay_entries db request;
  envelopes ← traverse
                (fun entry =>
                   envelope ← map_err (fun _ => InvalidStoredData)
                                (decode_relay_envelope (entry_encoded_envelope entry));
                   map_err RelayDomain (StoredRelayEnvelope_new envelope (entry_cursor entry)))
                (entries page);
  map_err RelayDomain (ReplayPage_new envelopes (entries_next_cursor page) (entries_has_more page)).

Record EncodedReplayPage := mk_EncodedReplayPage {
  encoded_bytes : bytes;
  encoded_next_cursor : Z;
  encoded_has_more : bool;
  envelope_count : Z }.

(** [EncodedReplayPage::new]. *)
Definition EncodedReplayPage_new (b : bytes) (after_cursor next : Z) (has_more : bool)
    (envelope_count : Z) : result RelayError EncodedReplayPage :=
  fail_if ((MAX_REPLAY_PAGE_BYTES <? len b) || (MAX_REPLAY_PAGE_SIZE <? envelope_count))
    InvalidStoredData;;
  decoded ← map_err RelayProtocol (decode_replay_page b);
  fail_if (negb (page_next_cursor decoded =? next)
           || negb (Bool.eqb (page_has_more decoded) has_more)
           || negb (len (page_envelopes decoded) =? envelope_count)
           || (has_more && (envelope_count =? 0))
           || ((envelope_count =? 0) && negb (next =? after_cursor))
           || ((0 <? envelope_count) && (next <=? after_cursor))) InvalidStoredData;;
  Ok (mk_EncodedReplayPage b next has_more envelope_count).

(** [RelayRepository::replay_encoded]. *)
Definition replay_encoded (db : RelayDb) (request : ReplayRequest)
    : result RelayError EncodedReplayPage :=
  page ← load_replay_entries db request;
  b ← map_err RelayProtocol
        (encode_replay_page_preserving
           ((fun entry => (entry_encoded_envelope entry, entry_cursor entry)) <$> entries page)
           (entries_next_cursor page) (entries_has_more page));
  EncodedReplayPage_new b (replay_after_cursor request) (entries_next_cursor page)
    (entries_has_more page) (len (entries page)).

End submission.
