(* ===== verification/RelayStoreProofs.v ===== *)
(** * Correctness of the durable relay store

    The invariant of the database, its preservation by every operation, the exact
    outcome of a submission, and what follows for any history of operations: cursors
    without gaps, one commit per epoch, idempotent resubmission and monotone
    acknowledgments. *)

From S2P Require Import Prelude Identifiers RelayModel Wire WireProofs RelayStore.
Open Scope Z_scope.

(** ** The invariant *)

(** The rows of one route, in the order they were accepted. *)
Definition rows_of (db : RelayDb) (r : RoutingId) : list EnvelopeRow :=
  List.filter (fun row => bool_decide (row_routing_id row = r)) (relay_envelope db).

Definition is_commit_row (row : EnvelopeRow) : bool := row_delivery_class row =? 4.
Definition is_epoch_row (row : EnvelopeRow) : bool :=
  (row_delivery_class row =? 3) || (row_delivery_class row =? 4).

Definition commits (rows : list EnvelopeRow) : Z := len (List.filter is_commit_row rows).

(** Every proposal and commit names the number of commits before it as its parent
    epoch. *)
Fixpoint epochs_consistent (epoch : Z) (rows : list EnvelopeRow) : Prop :=
  match rows with
  | [] => True
  | row :: rest =>
      (is_epoch_row row = true → row_expected_parent_epoch row = Some epoch)
      ∧ epochs_consistent (if is_commit_row row then epoch + 1 else epoch) rest
  end.

(** The row [insert_envelope] writes. *)
Definition envelope_row (e : RelayEnvelope) (encoded : bytes) (cursor : Z) : EnvelopeRow :=
  mk_EnvelopeRow (env_routing_id e) cursor (env_envelope_id e) (major (env_version e))
    (minor (env_version e)) (delivery_class_to_sql (env_delivery_class e))
    (env_expected_parent_epoch e) (env_expires_at_unix_seconds e) encoded.

Section store.
Context `{P : Prost}.

Definition row_ok (row : EnvelopeRow) : Prop :=
  ∃ e, decode_relay_envelope (row_encoded_envelope row) = Ok e
    ∧ row = envelope_row e (row_encoded_envelope row) (row_cursor row)
    ∧ 1 <= len (row_encoded_envelope row).

Record store_ok (db : RelayDb) : Prop := {
  store_route : ∀ r row, relay_route db !! r = Some row →
    1 <= next_cursor row <= I64_MAX
    ∧ row_cursor <$> rows_of db r = seqZ 1 (next_cursor row - 1)
    ∧ current_epoch row = commits (rows_of db r);
  store_no_route : ∀ r, relay_route db !! r = None → rows_of db r = [];
  store_unique : NoDup (row_envelope_id <$> relay_envelope db);
  store_rows : ∀ row, row ∈ relay_envelope db → row_ok row;
  store_epochs : ∀ r, epochs_consistent 0 (rows_of db r);
  store_acks : ∀ r p c, relay_acknowledgment db !! (r, p) = Some c →
    ∃ row, relay_route db !! r = Some row ∧ 1 <= c < next_cursor row }.

(** ** Lemmas on rows *)

Lemma elem_of_rows_of db r row :
  row ∈ rows_of db r ↔ row ∈ relay_envelope db ∧ row_routing_id row = r.
Proof.
  unfold rows_of. rewrite list_elem_of_In, filter_In, <- list_elem_of_In.
  by rewrite bool_decide_eq_true.
Qed.

Lemma epochs_consistent_snoc epoch rows row :
  epochs_consistent epoch (rows ++ [row]) ↔
  epochs_consistent epoch rows
  ∧ (is_epoch_row row = true → row_expected_parent_epoch row = Some (epoch + commits rows)).
Proof.
  revert epoch. induction rows as [|r rows IH]; intros epoch; simpl.
  - unfold commits. rewrite Z.add_0_r. naive_solver.
  - rewrite IH. unfold commits. simpl. destruct (is_commit_row r); unfold len; simpl;
      rewrite ?Nat2Z.inj_succ.
    + replace (epoch + 1 + Z.of_nat (length (List.filter is_commit_row rows)))
        with (epoch + Z.succ (Z.of_nat (length (List.filter is_commit_row rows)))) by lia.
      naive_solver.
    + naive_solver.
Qed.

Lemma commits_snoc rows row :
  commits (rows ++ [row]) = commits rows + if is_commit_row row then 1 else 0.
Proof.
  unfold commits. rewrite List.filter_app, len_app. f_equal. simpl. by destruct (is_commit_row row).
Qed.

Lemma commits_bounds rows : 0 <= commits rows <= len rows.
Proof.
  unfold commits, len. split; [lia|]. induction rows as [|r rows IH]; simpl; [lia|].
  destruct (is_commit_row r); simpl; lia.
Qed.

Lemma delivery_class_sql_roundtrip c : delivery_class_from_sql (delivery_class_to_sql c) = Ok c.
Proof. by destruct c. Qed.

Lemma class_to_sql_commit c : (delivery_class_to_sql c =? 4) = bool_decide (c = GroupCommit).
Proof. by destruct c. Qed.

Lemma class_to_sql_epoch c :
  (delivery_class_to_sql c =? 3) || (delivery_class_to_sql c =? 4) = requires_parent_epoch c.
Proof. by destruct c. Qed.

Lemma opt_from_sql (o : option Z) :
  (∀ n, o = Some n → 0 <= n) → opt_traverse from_sql_integer o = Ok o.
Proof.
  destruct o as [n|]; [|done]. intros H. unfold opt_traverse, from_sql_integer. simpl.
  specialize (H n eq_refl). by destruct (Z.leb_spec 0 n); [|lia].
Qed.

(** Stored rows always agree with the envelope they decode to. *)
Lemma row_metadata_matches_own e encoded cursor :
  envelope_ranges e → row_metadata_matches (envelope_row e encoded cursor) e = Ok true.
Proof.
  intros [R1 R2 R3 R4]. unfold row_metadata_matches, envelope_row, and_then_check. simpl.
  rewrite !bool_decide_eq_true_2 by done. unfold from_sql_u32, optional_epoch_from_row. simpl.
  rewrite R1. simpl. destruct R2 as [R2 R2'].
  rewrite (proj2 (Z.leb_le _ _) R2), (proj2 (Z.leb_le _ _) R2'). simpl. rewrite Z.eqb_refl.
  rewrite delivery_class_sql_roundtrip. simpl. rewrite bool_decide_eq_true_2 by done.
  rewrite opt_from_sql by (intros n Hn; destruct (R3 n Hn); lia). simpl.
  rewrite bool_decide_eq_true_2 by done. unfold from_sql_integer.
  destruct R4 as [R4 _]. rewrite (proj2 (Z.leb_le _ _) R4). simpl. by rewrite Z.eqb_refl.
Qed.

Lemma envelope_bounds_ok b e :
  decode_relay_envelope b = Ok e → 1 <= len b → in_envelope_bounds (len b) = true.
Proof.
  intros Hd Hb. destruct (decode_relay_envelope_Ok b e Hd) as [Hlen _].
  unfold in_envelope_bounds. lia.
Qed.

(** A stored row is returned by the idempotency lookup as it was accepted. *)
Lemma find_existing_present db row e enc :
  store_ok db → row ∈ relay_envelope db → 0 <= row_cursor row →
  row_envelope_id row = env_envelope_id e →
  decode_relay_envelope enc = Ok e →
  find_existing db e enc
  = Ok (Some (mk_ExistingSubmission (row_cursor row)
                (bool_decide (row_encoded_envelope row = enc)))).
Proof.
  intros Hok Hin Hcur Hid Hdec. unfold find_existing.
  destruct (List.find _ _) as [row'|] eqn:Ef; cycle 1.
  { apply list_elem_of_In in Hin. pose proof (find_none _ _ Ef _ Hin) as Hn. simpl in Hn.
    bool_prop. done. }
  apply find_some in Ef as [Hin' Hid']. apply list_elem_of_In in Hin'. bool_prop.
  assert (row' = row) as ->.
  { apply list_elem_of_lookup in Hin as [i Hi]. apply list_elem_of_lookup in Hin' as [j Hj].
    assert (i = j) as ->; [|congruence].
    apply (NoDup_lookup (row_envelope_id <$> relay_envelope db) i j (env_envelope_id e)
             (store_unique _ Hok)); rewrite list_lookup_fmap, ?Hi, ?Hj; simpl; congruence. }
  destruct (store_rows _ Hok _ Hin) as (e' & Hd & Hrow & Hlen).
  destruct (decode_relay_envelope_Ok _ _ Hd) as (_ & _ & Hr).
  pass_guard by (by rewrite (envelope_bounds_ok _ _ Hd Hlen)).
  rewrite Hd. simpl. rewrite Hrow at 1. rewrite row_metadata_matches_own by done. simpl.
  unfold from_sql_integer. rewrite (proj2 (Z.leb_le _ _) Hcur). simpl.
  destruct (decide (row_encoded_envelope row = enc)) as [Heq|Hne].
  - rewrite (bool_decide_eq_true_2 (e' = e)) by congruence. by rewrite bool_decide_eq_true_2.
  - by rewrite (bool_decide_eq_false_2 (_ = enc)), andb_false_r by done.
Qed.

(** ** Submission *)

(** The route row after accepting [e]. *)
Definition advance (row : RouteRow) (e : RelayEnvelope) : RouteRow :=
  mk_RouteRow (next_cursor row + 1)
    (current_epoch row + if bool_decide (env_delivery_class e = GroupCommit) then 1 else 0).

(** What the route must satisfy for [e] to get a cursor. *)
Record admits (row : RouteRow) (e : RelayEnvelope) : Prop := {
  admits_epoch : requires_parent_epoch (env_delivery_class e) = true →
    env_expected_parent_epoch e = Some (current_epoch row);
  admits_cursor : next_cursor row < I64_MAX }.

Lemma admits_iff row e :
  admits row e ↔ (requires_parent_epoch (env_delivery_class e) = false
      ∨ env_expected_parent_epoch e = Some (current_epoch row)) ∧ next_cursor row < I64_MAX.
Proof.
  destruct (requires_parent_epoch (env_delivery_class e)) eqn:E; split.
  - intros [H1 H2]. auto.
  - intros [[?|H1] H2]; [done|]. by split.
  - intros [H1 H2]. auto.
  - intros [_ H2]. split; [|done]. congruence.
Qed.

Global Instance admits_dec row e : Decision (admits row e) :=
  decision_of_iff (admits_iff row e).

Lemma opt_to_sql (o : option Z) o' : opt_traverse to_sql_integer o = Ok o' → o' = o.
Proof.
  destruct o as [n|]; unfold opt_traverse, to_sql_integer; simpl; [|naive_solver].
  destruct (n <=? I64_MAX); simpl; naive_solver.
Qed.

Lemma opt_to_sql_fits (o : option Z) :
  (∀ n, o = Some n → n <= I64_MAX) → opt_traverse to_sql_integer o = Ok o.
Proof.
  destruct o as [n|]; [|done]. intros H. unfold opt_traverse, to_sql_integer. simpl.
  specialize (H n eq_refl). by destruct (Z.leb_spec n I64_MAX); [|lia].
Qed.

Lemma allocate_cursor_sound db e row c db' :
  relay_route db !! env_routing_id e = Some row → 0 <= next_cursor row →
  allocate_cursor db e = Ok (c, db') →
  admits row e ∧ c = next_cursor row ∧ db' = set_route db (env_routing_id e) (advance row e).
Proof.
  intros Hrow Hnext H. unfold allocate_cursor in H. apply bind_Ok in H as (ex & Hex & H).
  apply opt_to_sql in Hex. subst ex. apply bind_Ok in H as (u & Hu & H).
  assert (Hc : ∃ db0, u = Some (next_cursor row, db0)
    ∧ db0 = set_route db (env_routing_id e) (advance row e) ∧ admits row e).
  { destruct u as [[c0 db0]|]; [|inv_ok; done]. unfold advance.
    destruct (env_delivery_class e) eqn:Ec; inv_ok; unfold update_commit, update_proposal,
      update_other in *; rewrite Hrow in *; simpl in *; case_match eqn:Eg; simplify_eq; bool_prop;
      eexists; (split; [done|]); (split; [by rewrite ?Z.add_0_r|]);
      split; rewrite ?Ec; simpl; intros; try done; naive_solver. }
  destruct Hc as (db0 & -> & -> & Hadm). inv_ok. unfold from_sql_integer in Hr.
  destruct (0 <=? next_cursor row); naive_solver.
Qed.

Lemma allocate_cursor_complete db e row :
  relay_route db !! env_routing_id e = Some row → 0 <= next_cursor row →
  current_epoch row < next_cursor row → envelope_valid e → admits row e →
  allocate_cursor db e = Ok (next_cursor row, set_route db (env_routing_id e) (advance row e)).
Proof.
  intros Hrow Hnext Hlt [_ _ Hreq] [He Hcur]. unfold allocate_cursor.
  rewrite opt_to_sql_fits; cycle 1.
  { intros n Hn. rewrite Hn in *. simpl in Hreq. specialize (He Hreq). simplify_eq. lia. }
  simpl. unfold advance, update_commit, update_proposal, update_other. rewrite Hrow.
  assert (Hfrom : from_sql_integer (next_cursor row) = Ok (next_cursor row))
    by (unfold from_sql_integer; by rewrite (proj2 (Z.leb_le _ _) Hnext)).
  destruct (env_delivery_class e) eqn:Ec; simpl in *; try rewrite (He eq_refl); simpl;
    rewrite ?Z.eqb_refl; rewrite ?(proj2 (Z.ltb_lt (current_epoch row) I64_MAX)) by lia;
    rewrite (proj2 (Z.ltb_lt _ _) Hcur); simpl; rewrite Hfrom; simpl; by rewrite ?Z.add_0_r.
Qed.

(** When no cursor is allocated the error says why. *)
Lemma allocate_cursor_refused db e row :
  relay_route db !! env_routing_id e = Some row → 0 <= next_cursor row →
  0 <= current_epoch row < next_cursor row → envelope_valid e → ¬ admits row e →
  allocate_cursor db e = Err StaleEpoch ∨ allocate_cursor db e = Err SequenceExhausted.
Proof.
  intros Hrow Hnext [Hep Hlt] [_ _ Hreq] Hno. unfold allocate_cursor.
  destruct (opt_traverse to_sql_integer (env_expected_parent_epoch e)) as [o|err] eqn:Eo; cycle 1.
  { right. destruct (env_expected_parent_epoch e) as [n|]; [|done].
    unfold opt_traverse, to_sql_integer in Eo. simpl in Eo.
    destruct (n <=? I64_MAX); simpl in Eo; [done|]. by simplify_eq. }
  apply opt_to_sql in Eo as ->. cbn [mbind result_bind].
  assert (Hclass : classify_allocation_failure db e = Ok StaleEpoch
                   ∨ classify_allocation_failure db e = Ok SequenceExhausted).
  { unfold classify_allocation_failure, from_sql_integer. rewrite Hrow. simpl.
    rewrite (proj2 (Z.leb_le _ _) Hnext), (proj2 (Z.leb_le _ _) Hep). simpl.
    case_match eqn:Es; [by left|]. right. case_match eqn:Ef; [done|]. exfalso. apply Hno.
    split; [|lia]. intros Hr. destruct (env_delivery_class e) eqn:Ec; simpl in *; try done;
      bool_prop; by apply dec_stable. }
  unfold update_commit, update_proposal, update_other. rewrite Hrow. simpl.
  destruct (env_delivery_class e) eqn:Ec; simpl in *;
    try (destruct (env_expected_parent_epoch e) as [n|] eqn:En; [|done]); simpl;
    match goal with |- context [if ?b then _ else _] => destruct b eqn:Eg end; simpl;
    try (destruct Hclass as [-> | ->]; by auto);
    exfalso; apply Hno; bool_prop; destruct_and?; split; rewrite ?Ec, ?En; simpl; intros;
    done || lia || congruence.
Qed.

(** The database after accepting [e] at the head of its route. *)
Definition append_db (db : RelayDb) (e : RelayEnvelope) (enc : bytes) (row : RouteRow) : RelayDb :=
  mk_RelayDb (<[env_routing_id e := advance row e]> (relay_route db))
    (relay_envelope db ++ [envelope_row e enc (next_cursor row)]) (relay_acknowledgment db).

Lemma rows_of_append db e enc row r :
  rows_of (append_db db e enc row) r
  = rows_of db r ++ (if bool_decide (env_routing_id e = r)
                     then [envelope_row e enc (next_cursor row)] else []).
Proof. unfold rows_of. simpl. rewrite List.filter_app. simpl. by case_bool_decide. Qed.

Lemma initialize_route_lookup db r r' :
  relay_route (initialize_route db r) !! r'
  = if bool_decide (r = r')
    then Some (default (mk_RouteRow 1 0) (relay_route db !! r)) else relay_route db !! r'.
Proof.
  unfold initialize_route. destruct (relay_route db !! r) as [row|] eqn:E; simpl.
  - case_bool_decide; by subst.
  - case_bool_decide as Hr; [subst; apply lookup_insert_eq|by apply lookup_insert_ne].
Qed.

Lemma initialize_route_rows db r :
  relay_envelope (initialize_route db r) = relay_envelope db
  ∧ relay_acknowledgment (initialize_route db r) = relay_acknowledgment db.
Proof. unfold initialize_route. by destruct (_ !! _). Qed.

Lemma rows_of_initialize db r r' : rows_of (initialize_route db r) r' = rows_of db r'.
Proof. unfold rows_of. by rewrite (proj1 (initialize_route_rows db r)). Qed.

Lemma store_ok_initialize db r : store_ok db → store_ok (initialize_route db r).
Proof.
  intros Hok. destruct (initialize_route_rows db r) as [He Ha]. split; rewrite ?He, ?Ha.
  - intros r' row. rewrite rows_of_initialize, initialize_route_lookup.
    case_bool_decide as Hr; [subst r'|by apply store_route].
    intros [= <-]. destruct (relay_route db !! r) as [row|] eqn:E; simpl; [by apply store_route|].
    rewrite (store_no_route _ Hok r E). unfold I64_MAX. split; [lia|done].
  - intros r'. rewrite rows_of_initialize, initialize_route_lookup.
    case_bool_decide; [done|]. by apply store_no_route.
  - apply Hok.
  - apply Hok.
  - intros r'. rewrite rows_of_initialize. apply Hok.
  - intros r' p c Hc. destruct (store_acks _ Hok r' p c Hc) as (row & Hrow & Hb).
    exists row. split; [|done]. rewrite initialize_route_lookup. case_bool_decide; [|done].
    subst. by rewrite Hrow.
Qed.

Lemma envelope_row_ok e enc cursor :
  decode_relay_envelope enc = Ok e → 1 <= len enc → row_ok (envelope_row e enc cursor).
Proof. intros Hd Hl. exists e. by simpl. Qed.

Lemma store_ok_append db e enc row :
  store_ok db → relay_route db !! env_routing_id e = Some row →
  decode_relay_envelope enc = Ok e → 1 <= len enc → admits row e →
  env_envelope_id e ∉ row_envelope_id <$> relay_envelope db →
  store_ok (append_db db e enc row).
Proof.
  intros Hok Hrow Hd Hlen [Hadm Hmax] Hfresh.
  destruct (store_route _ Hok _ _ Hrow) as (Hnext & Hcur & Hep). split.
  - intros r row'. rewrite rows_of_append. simpl. case_bool_decide as Hr.
    + subst r. rewrite lookup_insert_eq. intros [= <-]. simpl.
      rewrite fmap_app, Hcur, commits_snoc, Hep. simpl. split; [lia|]. split.
      * rewrite Z.add_simpl_r. replace (next_cursor row) with (next_cursor row - 1 + 1) at 3 by lia.
        rewrite seqZ_snoc by lia. do 2 f_equal. lia.
      * f_equal. unfold is_commit_row. simpl. by rewrite class_to_sql_commit.
    + rewrite lookup_insert_ne, app_nil_r by done. by apply store_route.
  - intros r. rewrite rows_of_append. simpl. case_bool_decide as Hr.
    + subst r. by rewrite lookup_insert_eq.
    + rewrite lookup_insert_ne, app_nil_r by done. by apply store_no_route.
  - simpl. rewrite fmap_app. apply NoDup_app. split; [apply Hok|]. split; [set_solver|].
    apply NoDup_singleton.
  - simpl. intros row'. rewrite elem_of_app, list_elem_of_singleton.
    intros [Hin| ->]; [by apply Hok|by apply envelope_row_ok].
  - intros r. rewrite rows_of_append. case_bool_decide as Hr; [|rewrite app_nil_r; apply Hok].
    subst r. apply epochs_consistent_snoc. split; [apply Hok|]. unfold is_epoch_row. simpl.
    rewrite class_to_sql_epoch. intros Hreq. rewrite Z.add_0_l, <- Hep. by apply Hadm.
  - simpl. intros r p c Hc. destruct (store_acks _ Hok r p c Hc) as (row' & Hrow' & Hb).
    destruct (decide (env_routing_id e = r)) as [<-|Hne].
    + exists (advance row e). rewrite lookup_insert_eq. simplify_eq. simpl. split; [done|lia].
    + exists row'. by rewrite lookup_insert_ne.
Qed.

Lemma stored_row_route db row :
  store_ok db → row ∈ relay_envelope db →
  ∃ rr, relay_route db !! row_routing_id row = Some rr ∧ 1 <= row_cursor row < next_cursor rr.
Proof.
  intros Hok Hin. assert (Hr : row ∈ rows_of db (row_routing_id row)) by (by apply elem_of_rows_of).
  destruct (relay_route db !! row_routing_id row) as [rr|] eqn:E.
  - exists rr. split; [done|]. destruct (store_route _ Hok _ _ E) as (Hn & Hcur & _).
    assert (Hc : row_cursor row ∈ seqZ 1 (next_cursor rr - 1))
      by (rewrite <- Hcur; by apply list_elem_of_fmap_2).
    apply elem_of_seqZ in Hc. lia.
  - rewrite (store_no_route _ Hok _ E) in Hr. by apply elem_of_nil in Hr.
Qed.

Lemma find_existing_absent db e enc :
  env_envelope_id e ∉ row_envelope_id <$> relay_envelope db → find_existing db e enc = Ok None.
Proof.
  intros Hfresh. unfold find_existing. destruct (List.find _ _) as [row|] eqn:E; [|done].
  apply find_some in E as [Hin Hid]. apply list_elem_of_In in Hin. bool_prop.
  exfalso. apply Hfresh. rewrite <- Hid. by apply list_elem_of_fmap_2.
Qed.

Lemma insert_envelope_Ok db e enc cursor rr :
  store_ok db → decode_relay_envelope enc = Ok e → env_envelope_id e ∉ row_envelope_id <$> relay_envelope db →
  relay_route db !! env_routing_id e = Some rr → cursor = next_cursor rr →
  (∀ n, env_expected_parent_epoch e = Some n → n <= I64_MAX) → cursor <= I64_MAX →
  insert_envelope (set_route db (env_routing_id e) (advance rr e)) e enc cursor
  = if env_expires_at_unix_seconds e <=? I64_MAX
    then if 1 <=? len enc then Ok (append_db db e enc rr)
         else Err (storage_failure "envelope insert")
    else Err SequenceExhausted.
Proof.
  intros Hok Hdec Hfresh Hrr Hcur Hepoch Hmax.
  destruct (store_route _ Hok _ _ Hrr) as (Hn & Hcurs & _).
  destruct (decode_relay_envelope_Ok _ _ Hdec) as (Hlen & [_ Hexp Hreq] & [R1 [R2 R2'] R3 [R4 _]]).
  unfold insert_envelope. rewrite (to_sql_integer_fits cursor) by done. simpl. rewrite opt_to_sql_fits by done. simpl. unfold to_sql_integer.
  destruct (env_expires_at_unix_seconds e <=? I64_MAX); [|done]. simpl.
  unfold insert_envelope_row. simpl. rewrite lookup_insert_eq. simpl. rewrite andb_true_r.
  change (mk_EnvelopeRow (env_routing_id e) cursor (env_envelope_id e) (major (env_version e))
    (minor (env_version e)) (delivery_class_to_sql (env_delivery_class e))
    (env_expected_parent_epoch e) (env_expires_at_unix_seconds e) enc)
    with (envelope_row e enc cursor).
  assert (existsb (fun r => bool_decide (row_envelope_id r = env_envelope_id e))
            (relay_envelope db) = false) as ->.
  { apply not_true_iff_false. intros (r & Hin & Hr)%existsb_exists. bool_prop. apply Hfresh.
    rewrite <- Hr. apply list_elem_of_fmap_2. by apply list_elem_of_In. }
  assert (existsb (fun r => bool_decide (row_routing_id r = env_routing_id e)
            && (row_cursor r =? cursor)) (relay_envelope db) = false) as ->.
  { apply not_true_iff_false. intros (r & Hin & Hr)%existsb_exists. bool_prop. destruct Hr as [Hr Hc].
    apply list_elem_of_In in Hin. destruct (stored_row_route _ _ Hok Hin) as (rr' & Hrr' & Hb).
    rewrite Hr in Hrr'. simplify_eq. lia. }
  rewrite !andb_true_r. unfold append_db. rewrite Hcur.
  assert (Hchecks : envelope_row_checks (envelope_row e enc (next_cursor rr)) = (1 <=? len enc)).
  { unfold envelope_row_checks. simpl. rewrite class_to_sql_epoch, R1.
    assert (Hclass : 1 <= delivery_class_to_sql (env_delivery_class e) <= 6)
      by (destruct (env_delivery_class e); simpl; lia).
    assert (Hp : (if requires_parent_epoch (env_delivery_class e)
      then is_some_and (env_expected_parent_epoch e) (fun n => 0 <=? n)
      else is_none (env_expected_parent_epoch e)) = true).
    { rewrite Hreq. destruct (env_expected_parent_epoch e) as [n|] eqn:En; [|done]. simpl.
      destruct (R3 n eq_refl). lia. }
    rewrite Hp. unfold MAX_RELAY_ENVELOPE_BYTES in Hlen.
    assert (1 <= U32_MAX) by (vm_compute; congruence). lia. }
  rewrite Hchecks. by destruct (1 <=? len enc).
Qed.

Lemma initialize_route_present db r row :
  relay_route db !! r = Some row → initialize_route db r = db.
Proof. unfold initialize_route. by intros ->. Qed.

Lemma submit_mismatch db e enc now :
  decode_relay_envelope enc ≠ Ok e → ∃ err, submit_encoded db e enc now = (Err err, db).
Proof.
  intros Hne. unfold submit_encoded, transact.
  destruct (decode_relay_envelope enc) as [d|err]; simpl; [|eauto].
  rewrite bool_decide_eq_true_2 by congruence. simpl. eauto.
Qed.

Lemma submit_present db row e enc now :
  store_ok db → decode_relay_envelope enc = Ok e →
  row ∈ relay_envelope db → row_envelope_id row = env_envelope_id e →
  submit_encoded db e enc now
  = (if bool_decide (row_encoded_envelope row = enc)
     then Ok (SubmitResult_new (row_cursor row) true) else Err IdempotencyConflict, db).
Proof.
  intros Hok Hdec Hin Hid. destruct (stored_row_route _ _ Hok Hin) as (rr & Hrr & Hb).
  unfold submit_encoded. rewrite Hdec. cbn [map_err mbind result_bind].
  pass_guard by (by apply bool_decide_neq_false).
  destruct (initialize_route_rows db (env_routing_id e)) as [He _].
  rewrite (find_existing_present (initialize_route db (env_routing_id e)) row);
    [|by apply store_ok_initialize|by rewrite He|lia|done|done].
  cbn [mbind result_bind existing_identical existing_cursor].
  case_bool_decide as Heq; [|done]. simpl. f_equal.
  destruct (store_rows _ Hok _ Hin) as (e' & Hd & Hrow & _).
  apply initialize_route_present with rr. rewrite <- Hrr, Hrow. simpl. f_equal. congruence.
Qed.

(** The route row a submission finds. *)
Definition route_head (db : RelayDb) (r : RoutingId) : RouteRow :=
  default (mk_RouteRow 1 0) (relay_route db !! r).

Lemma route_head_spec db r :
  store_ok db → relay_route (initialize_route db r) !! r = Some (route_head db r)
  ∧ 1 <= next_cursor (route_head db r) <= I64_MAX
  ∧ 0 <= current_epoch (route_head db r) < next_cursor (route_head db r).
Proof.
  intros Hok. assert (Hl : relay_route (initialize_route db r) !! r = Some (route_head db r))
    by (rewrite initialize_route_lookup; by rewrite bool_decide_eq_true_2).
  split; [done|]. destruct (store_route _ (store_ok_initialize _ r Hok) _ _ Hl) as (Hn & Hc & He).
  split; [done|]. rewrite He. pose proof (commits_bounds (rows_of (initialize_route db r) r)) as Hb.
  apply (f_equal length) in Hc. rewrite length_fmap, length_seqZ in Hc. unfold len in Hb. lia.
Qed.

Lemma submit_absent db e enc now :
  store_ok db → decode_relay_envelope enc = Ok e →
  env_envelope_id e ∉ row_envelope_id <$> relay_envelope db →
  submit_encoded db e enc now
  = transact db (
      fail_if (env_expires_at_unix_seconds e <=? now) ExpiredEnvelope;;
      '(cursor, db2) ← allocate_cursor (initialize_route db (env_routing_id e)) e;
      db3 ← insert_envelope db2 e enc cursor;
      Ok (SubmitResult_new cursor false, db3)).
Proof.
  intros Hok Hdec Hfresh. unfold submit_encoded. rewrite Hdec. cbn [map_err mbind result_bind].
  pass_guard by (by apply bool_decide_neq_false). rewrite find_existing_absent; [done|].
  by rewrite (proj1 (initialize_route_rows _ _)).
Qed.

(** What a fresh envelope must satisfy to be stored. *)
Record storable (db : RelayDb) (e : RelayEnvelope) (enc : bytes) (now : Z) : Prop := {
  storable_live : now < env_expires_at_unix_seconds e <= I64_MAX;
  storable_route : admits (route_head db (env_routing_id e)) e;
  storable_bytes : 1 <= len enc }.

Lemma storable_iff db e enc now :
  storable db e enc now ↔ now < env_expires_at_unix_seconds e <= I64_MAX
    ∧ admits (route_head db (env_routing_id e)) e ∧ 1 <= len enc.
Proof. split; [by intros []|by intros (?&?&?)]. Qed.

Global Instance storable_dec db e enc now : Decision (storable db e enc now) :=
  decision_of_iff (storable_iff db e enc now).

Lemma submit_accepts db e enc now :
  store_ok db → decode_relay_envelope enc = Ok e →
  env_envelope_id e ∉ row_envelope_id <$> relay_envelope db → storable db e enc now →
  submit_encoded db e enc now
  = (Ok (SubmitResult_new (next_cursor (route_head db (env_routing_id e))) false),
     append_db (initialize_route db (env_routing_id e)) e enc
       (route_head db (env_routing_id e))).
Proof.
  intros Hok Hdec Hfresh [[Hnow Hexp] Hadm Hlen]. rewrite submit_absent by done.
  destruct (route_head_spec db (env_routing_id e) Hok) as (Hrow & Hn & He).
  destruct (decode_relay_envelope_Ok _ _ Hdec) as (_ & Hvalid & _).
  pass_guard by lia. rewrite (allocate_cursor_complete _ _ _ Hrow) by (done || lia).
  cbn [mbind result_bind]. rewrite (insert_envelope_Ok _ _ _ _ (route_head db (env_routing_id e))).
  - rewrite (proj2 (Z.leb_le _ _) Hexp), (proj2 (Z.leb_le _ _) Hlen). done.
  - by apply store_ok_initialize.
  - done.
  - by rewrite (proj1 (initialize_route_rows _ _)).
  - done.
  - done.
  - intros n Hep. destruct Hvalid as [_ _ Hreq]. rewrite Hep in Hreq. simpl in Hreq.
    pose proof (admits_epoch _ _ Hadm Hreq). simplify_eq. lia.
  - lia.
Qed.

Lemma submit_refuses db e enc now :
  store_ok db → decode_relay_envelope enc = Ok e →
  env_envelope_id e ∉ row_envelope_id <$> relay_envelope db → ¬ storable db e enc now →
  ∃ err, submit_encoded db e enc now = (Err err, db)
    ∧ err ∈ [ExpiredEnvelope; StaleEpoch; SequenceExhausted; StorageFailure "envelope insert"].
Proof.
  intros Hok Hdec Hfresh Hno. rewrite submit_absent by done.
  destruct (route_head_spec db (env_routing_id e) Hok) as (Hrow & Hn & He).
  destruct (decode_relay_envelope_Ok _ _ Hdec) as (_ & Hvalid & _).
  destruct (Z.leb_spec (env_expires_at_unix_seconds e) now) as [Hx|Hx].
  { eexists. split; [done|]. set_solver. }
  cbn [fail_if mbind result_bind]. set (rr := route_head db (env_routing_id e)) in *.
  destruct (allocate_cursor (initialize_route db (env_routing_id e)) e) as [[c db2]|err] eqn:Ea; cycle 1.
  { eexists. split; [done|].
    assert (Hna : ¬ admits rr e).
    { intros Hadm. rewrite (allocate_cursor_complete _ _ _ Hrow) in Ea by (done || lia). done. }
    destruct (allocate_cursor_refused _ _ _ Hrow ltac:(lia) He Hvalid Hna) as [E|E];
      rewrite E in Ea; simplify_eq; set_solver. }
  apply (allocate_cursor_sound _ _ _ _ _ Hrow) in Ea as (Hadm & -> & ->); [|lia].
  cbn [mbind result_bind]. rewrite (insert_envelope_Ok _ _ _ _ rr);
    [|by apply store_ok_initialize|done|by rewrite (proj1 (initialize_route_rows _ _))|done|done| |lia].
  - destruct (Z.leb_spec (env_expires_at_unix_seconds e) I64_MAX);
      [|eexists; split; [done|set_solver]].
    destruct (Z.leb_spec 1 (len enc)); [|eexists; split; [done|set_solver]].
    exfalso. apply Hno. by split.
  - intros n Hep. destruct Hvalid as [_ _ Hreq]. rewrite Hep in Hreq. simpl in Hreq.
    pose proof (admits_epoch _ _ Hadm Hreq). simplify_eq. lia.
Qed.

(** ** Acknowledgment *)

(** The cursor recorded after acknowledging [requested]. *)
Definition acknowledged (db : RelayDb) (r : RoutingId) (p : RelayPrincipalId) (requested : Z) : Z :=
  match relay_acknowledgment db !! (r, p) with
  | Some old => Z.max old requested
  | None => requested
  end.

Lemma acknowledge_cases db p req :
  store_ok db →
  let c := acknowledged db (ack_routing_id req) p (ack_cursor req) in
  (∃ row, relay_route db !! ack_routing_id req = Some row
    ∧ ack_cursor req < next_cursor row ∧ 1 <= c
    ∧ acknowledge db p req
      = (Ok c, mk_RelayDb (relay_route db) (relay_envelope db)
                 (<[(ack_routing_id req, p) := c]> (relay_acknowledgment db))))
  ∨ (¬ (∃ row, relay_route db !! ack_routing_id req = Some row
          ∧ 1 <= ack_cursor req < next_cursor row)
     ∧ ∃ err, acknowledge db p req = (Err err, db)).
Proof.
  intros Hok c. unfold acknowledge.
  destruct (relay_route db !! ack_routing_id req) as [row|] eqn:Hrow; cycle 1.
  { right. split; [naive_solver|]. simpl. destruct (0 <? ack_cursor req); simpl; [eauto|].
    destruct (to_sql_integer (ack_cursor req)); simpl; rewrite ?andb_false_r; simpl; eauto. }
  destruct (store_route _ Hok _ _ Hrow) as (Hn & _ & _).
  simpl. rewrite (from_sql_integer_nonneg (next_cursor row - 1)) by lia. simpl.
  destruct (Z.ltb_spec (next_cursor row - 1) (ack_cursor req)) as [Hgt|Hle]; simpl.
  { right. split; [|eauto]. intros (row' & [= <-] & ?). lia. }
  rewrite to_sql_integer_fits by lia. cbn [mbind result_bind]. rewrite andb_true_r.
  change (match relay_acknowledgment db !! (ack_routing_id req, p) with
          | Some old => Z.max old (ack_cursor req) | None => ack_cursor req end) with c.
  destruct (Z.leb_spec 1 c) as [H1|H1]; simpl.
  - left. exists row. split; [done|]. split; [lia|]. split; [done|].
    by rewrite from_sql_integer_nonneg by lia.
  - right. split; [|eauto]. intros (row' & [= <-] & ?). subst c. unfold acknowledged in H1.
    case_match; lia.
Qed.

(** ** Histories *)

Inductive relay_op :=
| OpSubmit (envelope : RelayEnvelope) (encoded : bytes) (now : Z)
| OpAcknowledge (principal : RelayPrincipalId) (request : AcknowledgeRequest).

Definition relay_step (db : RelayDb) (op : relay_op) : RelayDb :=
  match op with
  | OpSubmit e enc now => (submit_encoded db e enc now).2
  | OpAcknowledge p req => (acknowledge db p req).2
  end.

(** The database after a sequence of operations, accepted or refused. *)
Definition relay_run (db : RelayDb) (ops : list relay_op) : RelayDb := foldl relay_step db ops.

Lemma store_ok_empty : store_ok empty_db.
Proof.
  split; simpl; try done.
  - constructor.
  - intros row Hin. by apply elem_of_nil in Hin.
Qed.

(** What one submission does to the database. *)
Lemma submit_step db e enc now :
  store_ok db →
  (submit_encoded db e enc now).2 = db
  ∨ (decode_relay_envelope enc = Ok e
     ∧ (env_envelope_id e ∉ row_envelope_id <$> relay_envelope db) ∧ storable db e enc now
     ∧ (submit_encoded db e enc now).2
       = append_db (initialize_route db (env_routing_id e)) e enc
           (route_head db (env_routing_id e))).
Proof.
  intros Hok. destruct (decide (decode_relay_envelope enc = Ok e)) as [Hdec|Hne]; cycle 1.
  { left. destruct (submit_mismatch db e enc now Hne) as [err ->]. done. }
  destruct (decide (env_envelope_id e ∈ row_envelope_id <$> relay_envelope db)) as [Hin|Hfresh].
  { left. apply list_elem_of_fmap in Hin as (row & Hid & Hin).
    by rewrite (submit_present db row e enc now). }
  destruct (decide (storable db e enc now)) as [Hst|Hno].
  - right. by rewrite submit_accepts.
  - left. by destruct (submit_refuses db e enc now Hok Hdec Hfresh Hno) as (err & -> & _).
Qed.

Lemma store_ok_step db op : store_ok db → store_ok (relay_step db op).
Proof.
  intros Hok. destruct op as [e enc now|p req]; simpl.
  - destruct (submit_step db e enc now Hok) as [-> | (Hdec & Hfresh & [_ Hadm Hlen] & ->)]; [done|].
    apply store_ok_append; [by apply store_ok_initialize| |done|done|done|].
    + by apply route_head_spec.
    + by rewrite (proj1 (initialize_route_rows _ _)).
  - destruct (acknowledge_cases db p req Hok) as [(row & Hrow & Hlt & H1 & ->)|(_ & err & ->)];
      [|done].
    destruct Hok as [S1 S2 S3 S4 S5 S6]. split; simpl; try done.
    intros r p' c. destruct (decide ((ack_routing_id req, p) = (r, p'))) as [E|Hne].
    + simplify_eq. rewrite lookup_insert_eq. intros [= <-]. exists row. split; [done|].
      split; [done|]. unfold acknowledged in *. case_match eqn:Eold; [|done].
      destruct (S6 _ _ _ Eold) as (row' & Hrow' & ?). simplify_eq. lia.
    + rewrite lookup_insert_ne by done. apply S6.
Qed.

Lemma store_ok_run db ops : store_ok db → store_ok (relay_run db ops).
Proof.
  unfold relay_run. revert db. induction ops as [|op ops IH]; intros db Hok; simpl; [done|].
  by apply IH, store_ok_step.
Qed.

(** Nothing is ever removed or rewritten. *)
Lemma relay_run_prefix db ops :
  store_ok db → prefix (relay_envelope db) (relay_envelope (relay_run db ops)).
Proof.
  unfold relay_run. revert db. induction ops as [|op ops IH]; intros db Hok; simpl; [done|].
  transitivity (relay_envelope (relay_step db op)); [|by apply IH, store_ok_step].
  destruct op as [e enc now|p req]; simpl.
  - destruct (submit_step db e enc now Hok) as [-> | (_ & _ & _ & ->)]; [done|].
    simpl. rewrite (proj1 (initialize_route_rows _ _)). by eexists.
  - by destruct (acknowledge_cases db p req Hok) as [(row & _ & _ & _ & ->)|(_ & err & ->)].
Qed.

Lemma epochs_consistent_commits epoch rows :
  epochs_consistent epoch rows →
  row_expected_parent_epoch <$> List.filter is_commit_row rows
  = Some <$> seqZ epoch (commits rows).
Proof.
  revert epoch. induction rows as [|row rows IH]; intros epoch; [done|].
  intros [Hrow Hrest]. apply IH in Hrest. unfold commits in *. cbn [List.filter].
  destruct (is_commit_row row) eqn:Ec; [|done]. rewrite fmap_cons, Hrest.
  assert (Hr : is_epoch_row row = true)
    by (unfold is_epoch_row; unfold is_commit_row in Ec; rewrite Ec; apply orb_true_r).
  rewrite (Hrow Hr). unfold len. cbn [length]. rewrite Nat2Z.inj_succ, (seqZ_cons epoch) by lia.
  rewrite fmap_cons. do 3 f_equal; lia.
Qed.

Lemma acks_monotone db ops key c :
  store_ok db → relay_acknowledgment db !! key = Some c →
  ∃ c', relay_acknowledgment (relay_run db ops) !! key = Some c' ∧ c <= c'.
Proof.
  unfold relay_run. revert db c. induction ops as [|op ops IH]; intros db c Hok Hc; simpl.
  { exists c. split; [done|lia]. }
  assert (Hstep : ∃ c1, relay_acknowledgment (relay_step db op) !! key = Some c1 ∧ c <= c1).
  { destruct op as [e enc now|p req]; simpl.
    - destruct (submit_step db e enc now Hok) as [-> | (_ & _ & _ & ->)]; simpl;
        rewrite ?(proj2 (initialize_route_rows _ _)); exists c; (split; [done|lia]).
    - destruct (acknowledge_cases db p req Hok) as [(row & _ & _ & _ & ->)|(_ & err & ->)]; simpl;
        [|exists c; split; [done|lia]].
      destruct (decide ((ack_routing_id req, p) = key)) as [<-|Hne].
      + rewrite lookup_insert_eq. eexists. split; [done|]. unfold acknowledged. rewrite Hc. lia.
      + rewrite lookup_insert_ne by done. exists c. split; [done|lia]. }
  destruct Hstep as (c1 & Hc1 & Hle).
  destruct (IH _ _ (store_ok_step db op Hok) Hc1) as (c' & Hc' & ?). exists c'. split; [done|lia].
Qed.

(** ** Theorems *)

(** C16: The relay database is always consistent.  After any sequence of submissions and
    acknowledgments from the empty database, whatever their arguments and outcomes, each
    route's cursors are 1, 2, 3, .. without gap up to [next_cursor - 1], its epoch counts
    its commits, envelope identifiers are unique, every row decodes to an envelope that
    agrees with its columns, proposals and commits name the epoch they were accepted in,
    and no acknowledgment exceeds the highest cursor. *)
Theorem relay_store_invariant ops : store_ok (relay_run empty_db ops).
Proof. apply store_ok_run, store_ok_empty. Qed.

(** C25: The outcome of a submission is determined.  In any reachable database, for bytes
    that decode to the envelope: an identifier already stored returns the cursor it was
    given if the bytes are identical and a conflict otherwise, changing nothing; a fresh
    one that is live, representable, and admitted by its route (parent epoch equal to the
    route's current epoch for proposals and commits, cursor space left) is appended at the
    route's next cursor, advancing the epoch exactly for a commit; every other one is
    refused as expired, stale, exhausted or empty, changing nothing. *)
Theorem submit_outcome ops e enc now
    (Hdec : decode_relay_envelope enc = Ok e) :
  let db := relay_run empty_db ops in
  let row := route_head db (env_routing_id e) in
  (∀ stored, stored ∈ relay_envelope db → row_envelope_id stored = env_envelope_id e →
     submit_encoded db e enc now
     = (if bool_decide (row_encoded_envelope stored = enc)
        then Ok (SubmitResult_new (row_cursor stored) true) else Err IdempotencyConflict, db))
  ∧ (env_envelope_id e ∉ row_envelope_id <$> relay_envelope db →
     if decide (storable db e enc now)
     then submit_encoded db e enc now
          = (Ok (SubmitResult_new (next_cursor row) false),
             mk_RelayDb (<[env_routing_id e := advance row e]> (relay_route db))
               (relay_envelope db ++ [envelope_row e enc (next_cursor row)])
               (relay_acknowledgment db))
     else ∃ err, submit_encoded db e enc now = (Err err, db)
            ∧ err ∈ [ExpiredEnvelope; StaleEpoch; SequenceExhausted;
                     StorageFailure "envelope insert"]).
Proof.
  intros db row. pose proof (store_ok_run empty_db ops store_ok_empty) as Hok. split.
  - intros stored Hin Hid. by apply submit_present.
  - intros Hfresh. destruct (decide _) as [Hst|Hno]; [|by apply submit_refuses].
    unfold db, row. rewrite submit_accepts by done. unfold append_db.
    destruct (initialize_route_rows (relay_run empty_db ops) (env_routing_id e)) as [-> ->].
    do 2 f_equal. unfold initialize_route. destruct (_ !! _); [done|]. simpl.
    apply insert_insert_eq.
Qed.

(** Submission is idempotent for ever.  Once an encoding has been accepted with a
    cursor, then after any later operations by anyone, at any time and even past its
    expiry, resubmitting the same encoding returns the same cursor marked as a duplicate
    and leaves the database unchanged. *)
Theorem submit_idempotent ops e enc now result later now'
    (Hfirst : (submit_encoded (relay_run empty_db ops) e enc now).1 = Ok result) :
  let db := relay_run (submit_encoded (relay_run empty_db ops) e enc now).2 later in
  submit_encoded db e enc now' = (Ok (SubmitResult_new (submit_cursor result) true), db).
Proof.
  set (db0 := relay_run empty_db ops) in *. intros db.
  assert (Hok0 : store_ok db0) by apply store_ok_run, store_ok_empty.
  assert (Hok1 : store_ok (submit_encoded db0 e enc now).2)
    by (apply (store_ok_step db0 (OpSubmit e enc now)); done).
  assert (Hdec : decode_relay_envelope enc = Ok e).
  { apply dec_stable. intros Hne. destruct (submit_mismatch db0 e enc now Hne) as [err E].
    by rewrite E in Hfirst. }
  assert (Hrow : ∃ row, row ∈ relay_envelope (submit_encoded db0 e enc now).2
    ∧ row_envelope_id row = env_envelope_id e ∧ row_encoded_envelope row = enc
    ∧ row_cursor row = submit_cursor result).
  { destruct (decide (env_envelope_id e ∈ row_envelope_id <$> relay_envelope db0)) as [Hin|Hfresh].
    - apply list_elem_of_fmap in Hin as (row & Hid & Hin).
      rewrite (submit_present db0 row) in * by done. exists row. simpl in *.
      case_bool_decide; simplify_eq. auto.
    - destruct (decide (storable db0 e enc now)) as [Hst|Hno].
      + rewrite submit_accepts in * by done. simpl in *. simplify_eq.
        eexists. split; [apply elem_of_app; right; by apply list_elem_of_singleton|]. done.
      + destruct (submit_refuses db0 e enc now Hok0 Hdec Hfresh Hno) as (err & E & _).
        by rewrite E in Hfirst. }
  destruct Hrow as (row & Hin & Hid & Henc & Hcur).
  rewrite (submit_present db row e enc now');
    [|by apply store_ok_run|done|eapply elem_of_prefix; [done|by apply relay_run_prefix]|done].
  rewrite bool_decide_eq_true_2 by done. by rewrite Hcur.
Qed.

(** C28: Commits of a route are linear.  In every reachable database the parent epochs of
    a route's accepted commits, in cursor order, are 0, 1, 2, .. up to the route's current
    epoch, so no epoch is ever committed twice and none is skipped, whatever concurrent
    clients submit. *)
Theorem commits_linear ops r :
  let db := relay_run empty_db ops in
  row_expected_parent_epoch <$> List.filter is_commit_row (rows_of db r)
  = Some <$> seqZ 0 (current_epoch (route_head db r)).
Proof.
  intros db. assert (Hok : store_ok db) by apply store_ok_run, store_ok_empty.
  rewrite (epochs_consistent_commits 0) by apply Hok. do 2 f_equal.
  unfold route_head. destruct (relay_route db !! r) as [row|] eqn:E; simpl.
  - by destruct (store_route _ Hok _ _ E) as (_ & _ & ->).
  - by rewrite (store_no_route _ Hok _ E).
Qed.

(** Acknowledgments are monotone and bounded.  In any reachable database,
    acknowledging a cursor that the route has assigned succeeds with the larger of it and
    the principal's previous acknowledgment, changes that entry only, and no later
    operation ever lowers it. *)
Theorem acknowledge_monotone ops p req row later
    (Hroute : relay_route (relay_run empty_db ops) !! ack_routing_id req = Some row)
    (Hcursor : 1 <= ack_cursor req < next_cursor row) :
  let db := relay_run empty_db ops in
  let c := acknowledged db (ack_routing_id req) p (ack_cursor req) in
  acknowledge db p req
  = (Ok c, mk_RelayDb (relay_route db) (relay_envelope db)
             (<[(ack_routing_id req, p) := c]> (relay_acknowledgment db)))
  ∧ ack_cursor req <= c
  ∧ ∃ c', relay_acknowledgment (relay_run (acknowledge db p req).2 later)
            !! (ack_routing_id req, p) = Some c' ∧ c <= c'.
Proof.
  intros db c. pose proof (store_ok_run empty_db ops store_ok_empty) as Hok.
  destruct (acknowledge_cases db p req Hok) as [(row' & Hrow & _ & _ & E)|[Hno _]];
    [|exfalso; apply Hno; eauto].
  split; [done|]. split; [unfold c, acknowledged; case_match; lia|].
  assert (Hok1 : store_ok (acknowledge db p req).2)
    by (apply (store_ok_step db (OpAcknowledge p req)); done).
  rewrite E in *. simpl in *. apply acks_monotone; [done|]. simpl. apply lookup_insert_eq.
Qed.
End store.
