(* ===== verification/RelayReplay.v ===== *)
(** * Replay of the durable relay store

    What a replay page contains in any reachable database, that the page byte budget
    always leaves room for the encoder, and that paging, through [replay] or through the
    encoded pages a client decodes, reaches every envelope exactly once. *)

From S2P Require Import Prelude Identifiers RelayModel Wire WireProofs PageDecoding RelayStore RelayStoreProofs.
Open Scope Z_scope.

Section replay.
Context `{P : Prost}.

(** The envelopes a replay after [after] has to deliver. *)
Definition available (db : RelayDb) (r : RoutingId) (after : Z) : list EnvelopeRow :=
  drop (Z.to_nat after) (rows_of db r).

Lemma rows_contiguous db r :
  store_ok db → ∃ n, 0 <= n < I64_MAX ∧ row_cursor <$> rows_of db r = seqZ 1 n.
Proof.
  intros Hok. destruct (relay_route db !! r) as [row|] eqn:E.
  - destruct (store_route _ Hok _ _ E) as (Hn & Hc & _). exists (next_cursor row - 1).
    split; [lia|done].
  - rewrite (store_no_route _ Hok _ E). exists 0. split; [|done]. split; [done|reflexivity].
Qed.

Lemma available_contiguous db r after :
  store_ok db → 0 <= after →
  ∃ n, row_cursor <$> available db r after = seqZ (after + 1) n
    ∧ (n <= 0 ∨ after + n < I64_MAX).
Proof.
  intros Hok Ha. destruct (rows_contiguous db r Hok) as (n & Hn & Hc).
  exists (n - after). unfold available. rewrite (contiguous_drop _ _ _ _ _ Hc). split.
  - f_equal; lia.
  - lia.
Qed.

Lemma select_rows_available db r after :
  store_ok db → 0 <= after → select_rows db r after None = available db r after.
Proof.
  intros Hok Ha. destruct (rows_contiguous db r Hok) as (n & _ & Hc). unfold select_rows.
  rewrite (filter_ext_all _ (fun x => bool_decide (row_routing_id x = r) && (after <? row_cursor x)))
    by (intros x; simpl; by rewrite andb_true_r).
  rewrite <- filter_filter. fold (rows_of db r). rewrite (filter_above _ _ _ _ after Hc).
  replace (after + 1 - 1) with after by lia.
  apply sort_by_id; [apply Z_compare_total|]. eapply contiguous_sorted, contiguous_drop, Hc.
Qed.

Lemma select_rows_upto db r after k :
  store_ok db → 0 <= after →
  select_rows db r after (Some (after + Z.of_nat k)) = take k (available db r after).
Proof.
  intros Hok Ha. destruct (rows_contiguous db r Hok) as (n & _ & Hc).
  destruct (available_contiguous db r after Hok Ha) as (m & Hm & _). unfold select_rows.
  rewrite <- filter_filter, <- filter_filter. fold (rows_of db r).
  rewrite (filter_above _ _ _ _ after Hc). replace (after + 1 - 1) with after by lia.
  fold (available db r after). simpl is_none_or. rewrite (filter_upto _ _ _ _ _ Hm).
  replace (Z.to_nat (after + Z.of_nat k + 1 - (after + 1))) with k by lia.
  apply sort_by_id; [apply Z_compare_total|].
  assert (Hs := contiguous_sorted _ _ _ _ Hm).
  rewrite <- (take_drop k) in Hs. by apply StronglySorted_app_1_l in Hs.
Qed.

(** ** Selecting a page *)

Definition wire_budget (sizes : list Z) : Z :=
  foldr (fun size total => size + STORED_ENVELOPE_WIRE_OVERHEAD_BUDGET + total) 0 sizes.

Lemma select_loop_spec rows limit used last_cursor count :
  (∀ c size, (c, size) ∈ rows → 1 <= size <= MAX_RELAY_ENVELOPE_BYTES ∧ 0 <= c) →
  0 <= used <= MAX_REPLAY_PAGE_BYTES → count <= limit →
  ∃ k : nat, (k <= length rows)%nat
    ∧ select_loop rows limit used last_cursor count
      = Ok (mk_ReplaySelection
              (match last (take k rows).*1 with Some c => Some c | None => last_cursor end)
              (count + Z.of_nat k) (bool_decide (k < length rows)%nat))
    ∧ count + Z.of_nat k <= limit
    ∧ used + wire_budget (take k rows).*2 <= MAX_REPLAY_PAGE_BYTES
    ∧ ((k < length rows)%nat → k = 0%nat →
         count = limit ∨ MAX_REPLAY_PAGE_BYTES < used + MAX_RELAY_ENVELOPE_BYTES + 32).
Proof.
  revert used last_cursor count.
  induction rows as [|[c size] rows IH]; intros used last_cursor count Hin Hused Hcount.
  { exists 0%nat. simpl. rewrite Z.add_0_r. unfold bool_decide. simpl.
    split; [lia|]. split; [done|]. split; [lia|]. split; [lia|]. lia. }
  destruct (Hin c size (list_elem_of_here _ _)) as [Hsize Hc].
  assert (MAX_REPLAY_PAGE_BYTES + MAX_RELAY_ENVELOPE_BYTES + 32 <= USIZE_MAX)
    by (vm_compute; congruence).
  unfold STORED_ENVELOPE_WIRE_OVERHEAD_BUDGET in *.
  assert (Hstop : select_loop ((c, size) :: rows) limit used last_cursor count
    = if (count =? limit) || (MAX_REPLAY_PAGE_BYTES <? used + (size + 32))
      then Ok (mk_ReplaySelection last_cursor count true)
      else select_loop rows limit (used + (size + 32)) (Some c) (count + 1)).
  { cbn [select_loop]. pass_guard by (unfold in_envelope_bounds; lia).
    unfold STORED_ENVELOPE_WIRE_OVERHEAD_BUDGET.
    rewrite checked_add_fits by lia. cbn [ok_or mbind result_bind].
    rewrite checked_add_fits by lia. cbn [ok_or mbind result_bind].
    case_match; [done|]. by rewrite from_sql_integer_nonneg. }
  rewrite Hstop. destruct ((count =? limit) || _) eqn:Estop.
  - exists 0%nat. simpl. rewrite Z.add_0_r. split; [lia|]. rewrite ?bool_decide_eq_true_2 by lia.
    split; [done|]. split; [lia|]. split; [lia|]. intros _ _. bool_prop. lia.
  - bool_prop. destruct (IH (used + (size + 32)) (Some c) (count + 1))
      as (k & Hk & E & Hlim & Hbud & _); [by intros; apply Hin; right|lia|lia|].
    exists (S k). cbn [take length]. rewrite !fmap_cons. cbn [fst snd].
    split; [lia|]. split.
    + rewrite E. f_equal. f_equal.
      * by rewrite last_cons_default.
      * lia.
      * apply bool_decide_ext. lia.
    + split; [lia|]. split; [|lia].
      unfold wire_budget in *. cbn [foldr]. unfold STORED_ENVELOPE_WIRE_OVERHEAD_BUDGET in *. lia.
Qed.

Definition entry_of (row : EnvelopeRow) : ReplayEntry :=
  mk_ReplayEntry (row_encoded_envelope row) (row_cursor row).

Lemma replay_entry_of_row db row :
  store_ok db → row ∈ relay_envelope db → replay_entry_from_row row = Ok (entry_of row).
Proof.
  intros Hok Hrow. destruct (store_rows _ Hok _ Hrow) as (e & Hd & E & Hlen).
  destruct (stored_row_route _ _ Hok Hrow) as (rr & _ & Hcur).
  destruct (decode_relay_envelope_Ok _ _ Hd) as (_ & _ & Hr).
  unfold replay_entry_from_row. pass_guard by (by rewrite (envelope_bounds_ok _ _ Hd Hlen)).
  rewrite Hd. cbn [map_err mbind result_bind]. rewrite E at 1.
  rewrite row_metadata_matches_own by done. cbn [mbind result_bind].
  pass_guard by done. by rewrite from_sql_integer_nonneg by lia.
Qed.

Lemma replay_entries_of_rows db rows :
  store_ok db → (∀ row, row ∈ rows → row ∈ relay_envelope db) →
  traverse replay_entry_from_row rows = Ok (entry_of <$> rows).
Proof.
  intros Hok. induction rows as [|row rows IH]; intros Hin; [done|].
  cbn [traverse]. rewrite (replay_entry_of_row db) by first [done | apply Hin; constructor].
  cbn [mbind result_bind]. by rewrite IH by (by intros; apply Hin; right).
Qed.

Lemma last_cursor_of_take (rows : list EnvelopeRow) k m n :
  row_cursor <$> rows = seqZ k m → (0 < n <= length rows)%nat →
  last (row_cursor <$> take n rows) = Some (k + Z.of_nat n - 1).
Proof.
  intros Hm Hn. rewrite last_lookup, length_fmap, length_take_le by lia.
  rewrite fmap_take, Hm, lookup_take_lt by lia.
  apply (f_equal length) in Hm. rewrite length_fmap, length_seqZ in Hm.
  rewrite lookup_seqZ_lt by lia. f_equal. lia.
Qed.

Lemma available_stored db r after row :
  row ∈ available db r after → row ∈ relay_envelope db.
Proof.
  intros H. unfold available in H. apply list_elem_of_lookup in H as [i Hi].
  rewrite lookup_drop in Hi. apply list_elem_of_lookup_2 in Hi. by apply elem_of_rows_of in Hi as [? _].
Qed.

(** A replay delivers a non-empty prefix of what is available, within the limit and the
    byte budget, and says whether anything is left. *)
Lemma load_replay_entries_spec db r after limit :
  store_ok db → 0 <= after <= I64_MAX → 1 <= limit <= MAX_REPLAY_PAGE_SIZE →
  ∃ n : nat, let rows := available db r after in
    load_replay_entries db (mk_ReplayRequest r after limit)
    = Ok (mk_ReplayEntries (entry_of <$> take n rows) (after + Z.of_nat n)
            (bool_decide (n < length rows)%nat))
    ∧ (n <= length rows)%nat ∧ Z.of_nat n <= limit ∧ (rows ≠ [] → (0 < n)%nat)
    ∧ REPLAY_PAGE_FIXED_WIRE_BUDGET
      + wire_budget ((fun row => len (row_encoded_envelope row)) <$> take n rows)
      <= MAX_REPLAY_PAGE_BYTES.
Proof.
  intros Hok Hafter Hlimit. unfold load_replay_entries. cbn [replay_routing_id replay_after_cursor replay_limit].
  rewrite to_sql_integer_fits by lia. cbn [mbind result_bind].
  rewrite select_rows_available by (done || lia). set (rows := available db r after).
  destruct (available_contiguous db r after Hok ltac:(lia)) as (m & Hm & Hmax). fold rows in Hm.
  set (size_rows := (fun r0 => (row_cursor r0, len (row_encoded_envelope r0)))
                    <$> take (Z.to_nat (limit + 1)) rows).
  assert (Hstored : ∀ row, row ∈ rows → row ∈ relay_envelope db)
    by (intros row; apply available_stored).
  assert (Hin : ∀ c size, (c, size) ∈ size_rows → 1 <= size <= MAX_RELAY_ENVELOPE_BYTES ∧ 0 <= c).
  { intros c size Hc. apply list_elem_of_fmap in Hc as (row & [= -> ->] & Hrow).
    apply elem_of_take in Hrow as (i & Hi & _). apply list_elem_of_lookup_2, Hstored in Hi.
    destruct (store_rows _ Hok _ Hi) as (e & Hd & _ & Hlen).
    destruct (decode_relay_envelope_Ok _ _ Hd) as [? _].
    destruct (stored_row_route _ _ Hok Hi) as (rr & _ & ?). lia. }
  destruct (select_loop_spec size_rows limit REPLAY_PAGE_FIXED_WIRE_BUDGET None 0 Hin)
    as (n & Hn & E & Hlim & Hbud & Hprog); [vm_compute; split; congruence|lia|].
  assert (Hlen : length size_rows = Nat.min (Z.to_nat (limit + 1)) (length rows))
    by (unfold size_rows; by rewrite length_fmap, length_take).
  assert (Htake : take n size_rows
    = (fun r0 => (row_cursor r0, len (row_encoded_envelope r0))) <$> take n rows).
  { unfold size_rows. rewrite <- fmap_take, take_take. do 2 f_equal. lia. }
  assert (Hfst : (take n size_rows).*1 = row_cursor <$> take n rows)
    by (rewrite Htake, <- list_fmap_compose; done).
  rewrite Hfst in E. rewrite Htake, <- list_fmap_compose in Hbud.
  assert (Hpos : rows ≠ [] → (0 < n)%nat).
  { intros Hne. destruct n as [|n]; [|lia]. exfalso. destruct rows as [|row0 rows0]; [done|].
    assert (0 < length size_rows)%nat as Hs by (rewrite Hlen; simpl; lia).
    destruct (Hprog Hs eq_refl) as [?|Hb]; [lia|]. by vm_compute in Hb. }
  assert (Hmore : bool_decide (n < length size_rows)%nat = bool_decide (n < length rows)%nat)
    by (apply bool_decide_ext; lia).
  exists n. split; [|split; [lia|split; [lia|split; [done|done]]]].
  unfold select_replay_rows. rewrite E, Hmore. cbn [mbind result_bind selection_last_cursor].
  destruct n as [|n].
  - assert (rows = []) as Hnil by (destruct rows; [done|by specialize (Hpos ltac:(done)); lia]).
    pass_guard by (unfold len; rewrite Hlen, Hnil; simpl; rewrite Nat.min_0_r; done).
    rewrite Hnil. simpl. by rewrite Z.add_0_r.
  - rewrite (last_cursor_of_take rows (after + 1) m (S n) Hm ltac:(lia)).
    pass_guard by done. cbn [selection_last_cursor selection_count selection_has_more].
    replace (after + 1 + Z.of_nat (S n) - 1) with (after + Z.of_nat (S n)) by lia.
    assert (Hlast : length rows = Z.to_nat m)
      by (apply (f_equal length) in Hm; by rewrite length_fmap, length_seqZ in Hm).
    rewrite to_sql_integer_fits by lia. cbn [mbind result_bind].
    rewrite Z.add_0_l, Nat2Z.id, select_rows_upto by (done || lia). fold rows.
    rewrite take_take, Nat.min_id.
    rewrite (replay_entries_of_rows db) by (done || (intros row Hrow;
      apply elem_of_take in Hrow as (i & Hi & _); by eapply Hstored, list_elem_of_lookup_2)).
    cbn [mbind result_bind]. do 2 f_equal.
    rewrite <- fmap_last, <- list_fmap_compose.
    change (entry_cursor ∘ entry_of) with row_cursor.
    rewrite (last_cursor_of_take rows (after + 1) m (S n) Hm) by lia. simpl. lia.
Qed.

Lemma available_next db r after n :
  0 <= after → available db r (after + Z.of_nat n) = drop n (available db r after).
Proof. intros Ha. unfold available. rewrite drop_drop. f_equal. lia. Qed.

(** ** Encoding a page *)

Lemma page_record_budget e c :
  len e <= MAX_RELAY_ENVELOPE_BYTES → 0 <= c <= U64_MAX → len (page_record (e, c)) <= len e + 32.
Proof.
  intros He Hc. unfold page_record. cbn [fst snd]. rewrite bytes_record_len.
  pose proof (varint_len_small _ (page_record_u64 e c He Hc)).
  rewrite stored_record_len in * by done. unfold varint_field_length in *.
  rewrite varint_length_spec in * by done. pose proof (varint_len_u64 c Hc).
  assert (Hl : len (varint (len e)) <= 3).
  { apply varint_len_small. split; [apply len_nonneg|].
    assert (MAX_RELAY_ENVELOPE_BYTES < 2 ^ 21) by reflexivity. lia. }
  lia.
Qed.

Lemma page_records_budget (es : list (bytes * Z)) :
  (∀ e c, (e, c) ∈ es → len e <= MAX_RELAY_ENVELOPE_BYTES ∧ 0 <= c <= U64_MAX) →
  len (concat (page_record <$> es)) <= wire_budget ((fun e => len e.1) <$> es).
Proof.
  induction es as [|[e c] es IH]; intros Hin; [done|].
  rewrite !fmap_cons. cbn [concat]. rewrite len_app. unfold wire_budget. cbn [foldr].
  fold (wire_budget ((fun e => len e.1) <$> es)).
  destruct (Hin e c (list_elem_of_here _ _)) as [He Hc].
  pose proof (page_record_budget e c He Hc).
  specialize (IH ltac:(by intros; apply Hin; right)).
  unfold STORED_ENVELOPE_WIRE_OVERHEAD_BUDGET. cbn [fst]. lia.
Qed.

Lemma page_trailer_budget next_cursor has_more :
  0 <= next_cursor <= U64_MAX →
  len (page_trailer next_cursor has_more) <= REPLAY_PAGE_FIXED_WIRE_BUDGET.
Proof.
  intros Hn. rewrite page_trailer_len by done. unfold varint_field_length, REPLAY_PAGE_FIXED_WIRE_BUDGET.
  rewrite varint_length_spec by done. pose proof (varint_len_u64 _ Hn).
  destruct (negb _), has_more; lia.
Qed.

Lemma contiguous_increasing k n : increasing_from (k - 1) (seqZ k n).
Proof.
  unfold seqZ. revert k. generalize (Z.to_nat n) as m. intros m.
  assert (H : ∀ j k, increasing_from (Z.of_nat j + k - 1)
                       ((fun i => Z.of_nat i + k) <$> seq j m)); [|apply (H 0%nat)].
  induction m as [|m IH]; intros j k; simpl; [done|]. split; [lia|].
  specialize (IH (S j) k). replace (Z.of_nat j + k) with (Z.of_nat (S j) + k - 1) by lia. done.
Qed.

Lemma increasing_from_weaken a b cursors :
  a <= b → increasing_from b cursors → increasing_from a cursors.
Proof. destruct cursors as [|c cs]; simpl; [done|]. intros ? [? ?]. split; [lia|done]. Qed.

Lemma take_seqZ k m (n : nat) :
  (n <= Z.to_nat m)%nat → take n (seqZ k m) = seqZ k (Z.of_nat n).
Proof.
  intros Hn. destruct (Z.le_gt_cases 0 m) as [Hm|Hm]; [|by replace n with 0%nat by lia].
  replace m with (Z.of_nat n + (m - Z.of_nat n)) by lia.
  rewrite seqZ_app by lia. apply take_app_length'. rewrite length_seqZ. lia.
Qed.

Definition encodable (row : EnvelopeRow) : bytes * Z := (row_encoded_envelope row, row_cursor row).

Lemma encodable_rows db (rows : list EnvelopeRow) e c :
  store_ok db → (∀ row, row ∈ rows → row ∈ relay_envelope db) → (e, c) ∈ encodable <$> rows →
  is_ok (decode_relay_envelope e) = true ∧ len e <= MAX_RELAY_ENVELOPE_BYTES ∧ 0 <= c <= U64_MAX.
Proof.
  intros Hok Hstored Hc. apply list_elem_of_fmap in Hc as (row & [= -> ->] & Hrow).
  apply Hstored in Hrow. destruct (store_rows _ Hok _ Hrow) as (env & Hd & _).
  destruct (decode_relay_envelope_Ok _ _ Hd) as [? _].
  destruct (stored_row_route _ _ Hok Hrow) as (rr & Hrr & ?).
  destruct (store_route _ Hok _ _ Hrr) as (? & _). rewrite Hd.
  assert (I64_MAX <= U64_MAX) by (vm_compute; congruence). split; [done|lia].
Qed.

(** Contiguous stored rows within the byte budget are accepted by the encoder. *)
Lemma contiguous_rows_encode db (rows : list EnvelopeRow) after has_more :
  store_ok db → (∀ row, row ∈ rows → row ∈ relay_envelope db) → 0 <= after →
  row_cursor <$> rows = seqZ (after + 1) (len rows) → len rows <= MAX_REPLAY_PAGE_SIZE →
  after + len rows <= U64_MAX →
  REPLAY_PAGE_FIXED_WIRE_BUDGET + wire_budget ((fun row => len (row_encoded_envelope row)) <$> rows)
  <= MAX_REPLAY_PAGE_BYTES →
  ∃ out, encode_replay_page_preserving (encodable <$> rows) (after + len rows) has_more = Ok out
    ∧ len out <= MAX_REPLAY_PAGE_BYTES.
Proof.
  intros Hok Hstored Ha Hcur Hcount Hmax Hbud. set (es := encodable <$> rows).
  assert (Hin : ∀ e c, (e, c) ∈ es → _) by (intros e c; apply (encodable_rows db rows e c Hok Hstored)).
  assert (Hes2 : es.*2 = seqZ (after + 1) (len rows))
    by (rewrite <- Hcur; unfold es; by rewrite <- list_fmap_compose).
  pose proof (len_nonneg rows).
  assert (Hinputs : page_inputs es (after + len rows))
    by (split; [intros e c Hc; by apply Hin in Hc as (_ & ?)|lia]).
  assert (Hsize : len (page_bytes es (after + len rows) has_more) <= MAX_REPLAY_PAGE_BYTES).
  { unfold page_bytes. rewrite len_app.
    pose proof (page_records_budget es (proj1 Hinputs)) as Hrec.
    pose proof (page_trailer_budget _ has_more (proj2 Hinputs)).
    unfold es in Hrec at 2. rewrite <- list_fmap_compose in Hrec.
    change ((fun e : bytes * Z => len e.1) ∘ encodable)
      with (fun row => len (row_encoded_envelope row)) in Hrec. lia. }
  eexists. split; [|exact Hsize]. apply encode_page_Ok; [done|]. split; [|done]. split.
  - unfold es, len in *. by rewrite length_fmap.
  - intros e c Hc. by apply Hin in Hc as (? & _).
  - rewrite Hes2. eapply increasing_from_weaken, contiguous_increasing. lia.
  - intros c Hc. rewrite Hes2 in Hc. apply last_Some_elem_of, elem_of_seqZ in Hc. lia.
Qed.

(** ** Paging through a route *)

(** The page a client reads from the answer of the relay, which carries the bytes of
    [replay_encoded]. *)
Definition client_replay (db : RelayDb) (request : ReplayRequest) : option ReplayPage :=
  match replay_encoded db request with
  | Ok page => match decode_replay_page (encoded_bytes page) with Ok page => Some page | Err _ => None end
  | Err _ => None
  end.

(** The page of a caller in the process of the relay. *)
Definition process_replay (db : RelayDb) (request : ReplayRequest) : option ReplayPage :=
  match replay db request with Ok page => Some page | Err _ => None end.

(** Following [next_cursor] while there is more. *)
Fixpoint follow (fetch : ReplayRequest → option ReplayPage) (r : RoutingId) (limit : Z) (fuel : nat) (after : Z)
    : option (list StoredRelayEnvelope) :=
  match fuel with
  | O => None
  | S fuel =>
      page ← fetch (mk_ReplayRequest r after limit);
      if page_has_more page
      then (page_envelopes page ++.) <$> follow fetch r limit fuel (page_next_cursor page)
      else Some (page_envelopes page)
  end.

(** The stored envelope of a row, decoded from the bytes of the row. *)
Definition delivers (row : EnvelopeRow) (s : StoredRelayEnvelope) : Prop :=
  decode_relay_envelope (row_encoded_envelope row) = Ok (stored_envelope s) ∧ stored_cursor s = row_cursor row.

Lemma rows_delivered db (rows : list EnvelopeRow) :
  store_ok db → (∀ row, row ∈ rows → row ∈ relay_envelope db) → ∃ stored, Forall2 delivers rows stored.
Proof.
  intros Hok. induction rows as [|row rows IH]; intros Hin; [by exists []|].
  destruct IH as [stored Hst]; [by intros; apply Hin; right|].
  destruct (store_rows _ Hok row (Hin row (list_elem_of_here _ _))) as (e & Hd & _).
  exists (mk_StoredRelayEnvelope e (row_cursor row) :: stored). by constructor.
Qed.

Lemma delivers_embeds rows stored : Forall2 delivers rows stored → Forall2 embeds (encodable <$> rows) stored.
Proof. intros H. by apply Forall2_fmap_l. Qed.

Lemma delivered_entries db rows stored :
  store_ok db → (∀ row, row ∈ rows → row ∈ relay_envelope db) → Forall2 delivers rows stored →
  traverse (fun entry =>
              envelope ← map_err (fun _ => InvalidStoredData) (decode_relay_envelope (entry_encoded_envelope entry));
              map_err RelayDomain (StoredRelayEnvelope_new envelope (entry_cursor entry)))
    (entry_of <$> rows) = Ok stored.
Proof.
  intros Hok Hin Hst. induction Hst as [|row [e c] rows stored [Hd Hc] _ IH]; [done|]. rewrite fmap_cons. cbn [traverse].
  rewrite IH by (by intros; apply Hin; right). cbn in Hd, Hc. cbn [entry_of entry_encoded_envelope entry_cursor]. rewrite Hd. cbn [map_err mbind result_bind].
  destruct (stored_row_route _ _ Hok (Hin row (list_elem_of_here _ _))) as (rr & _ & Hcur).
  unfold StoredRelayEnvelope_new, require_positive. pass_guard by lia. cbn [map_err mbind result_bind].
  by rewrite Hc.
Qed.

(** The page of a request: the first of the available envelopes, decoded. *)
Lemma replay_page_spec db r after limit stored :
  store_ok db → 0 <= after <= I64_MAX → 1 <= limit <= MAX_REPLAY_PAGE_SIZE →
  Forall2 delivers (available db r after) stored →
  ∃ n : nat, let rows := available db r after in
    let page := mk_ReplayPage (take n stored) (after + Z.of_nat n) (bool_decide (n < length rows)%nat) in
    (n <= length rows)%nat ∧ (rows ≠ [] → (0 < n)%nat) ∧ after + Z.of_nat n <= I64_MAX
    ∧ replay db (mk_ReplayRequest r after limit) = Ok page
    ∧ ∃ out, encode_replay_page_preserving (encodable <$> take n rows) (after + Z.of_nat n)
               (bool_decide (n < length rows)%nat) = Ok out
      ∧ replay_encoded db (mk_ReplayRequest r after limit)
        = EncodedReplayPage_new out after (after + Z.of_nat n) (bool_decide (n < length rows)%nat) (Z.of_nat n)
      ∧ page_inputs (encodable <$> take n rows) (after + Z.of_nat n).
Proof.
  intros Hok Hafter Hlimit Hst.
  destruct (load_replay_entries_spec db r after limit Hok Hafter Hlimit) as (n & E & Hn & Hlim & Hpos & Hbud).
  exists n. cbv zeta. set (rows := available db r after) in *.
  destruct (available_contiguous db r after Hok ltac:(lia)) as (m & Hm & Hmax). fold rows in Hm.
  pose proof Hm as Hlen. apply (f_equal length) in Hlen. rewrite length_fmap, length_seqZ in Hlen.
  assert (I64_MAX <= U64_MAX) by (vm_compute; congruence).
  assert (Hl : len (take n rows) = Z.of_nat n) by (unfold len; rewrite length_take_le; lia).
  assert (Hin : ∀ row, row ∈ take n rows → row ∈ relay_envelope db).
  { intros row Hrow. apply elem_of_take in Hrow as (i & Hi & _). by eapply available_stored, list_elem_of_lookup_2. }
  destruct (contiguous_rows_encode db (take n rows) after (bool_decide (n < length rows)%nat))
    as (out & Hout & _); [done|done|lia| |lia|lia|done|].
  { rewrite Hl, fmap_take, Hm. apply take_seqZ. lia. }
  rewrite Hl in Hout.
  assert (Hinputs : page_inputs (encodable <$> take n rows) (after + Z.of_nat n)).
  { split; [|lia]. intros e c Hc. by destruct (encodable_rows db (take n rows) e c Hok Hin Hc) as (_ & ?). }
  pose proof (Forall2_take _ _ _ n Hst) as Hst'. split_and!; [lia|done|lia| |].
  - unfold replay. rewrite E. cbn [mbind result_bind entries entries_next_cursor entries_has_more].
    rewrite (delivered_entries db _ (take n stored)) by done. cbn [mbind result_bind].
    apply (encode_page_Ok _ _ _ _ Hinputs) in Hout as [Hacc _].
    by rewrite (accepted_page_new (encodable <$> take n rows)) by (done || by apply delivers_embeds).
  - exists out. split; [done|]. split; [|done]. unfold replay_encoded. rewrite E.
    cbn [mbind result_bind entries entries_next_cursor entries_has_more replay_after_cursor]. rewrite <- list_fmap_compose.
    change ((fun entry => (entry_encoded_envelope entry, entry_cursor entry)) ∘ entry_of) with encodable.
    rewrite Hout. cbn [map_err mbind result_bind]. f_equal. unfold len. rewrite length_fmap, length_take_le; lia.
Qed.

(** A client whose pages are the first of what is available gets everything. *)
Lemma follow_all fetch db r limit fuel after stored :
  store_ok db → 0 <= after <= I64_MAX → (length stored < fuel)%nat → length stored = length (available db r after) →
  (∀ k, (k <= length stored)%nat → after + Z.of_nat k <= I64_MAX → ∃ n : nat,
    (k + n <= length stored)%nat ∧ ((k < length stored)%nat → (0 < n)%nat) ∧ after + Z.of_nat (k + n) <= I64_MAX
    ∧ fetch (mk_ReplayRequest r (after + Z.of_nat k) limit)
      = Some (mk_ReplayPage (take n (drop k stored)) (after + Z.of_nat (k + n)) (bool_decide (k + n < length stored)%nat))) →
  follow fetch r limit fuel after = Some stored.
Proof.
  intros Hok Ha Hfuel Hlen Hfetch.
  assert (H : ∀ fuel k, (k <= length stored)%nat → after + Z.of_nat k <= I64_MAX → (length stored - k < fuel)%nat →
    follow fetch r limit fuel (after + Z.of_nat k) = Some (drop k stored)).
  { clear fuel Hfuel. induction fuel as [|fuel IH]; intros k Hk Hmax Hfuel; [lia|]. cbn [follow].
    destruct (Hfetch k Hk Hmax) as (n & Hn & Hpos & Hmax' & ->). cbn [mbind option_bind page_has_more page_envelopes page_next_cursor].
    case_bool_decide as Hmore.
    - rewrite IH by lia. cbn. by rewrite <- drop_drop, take_drop.
    - f_equal. apply take_ge. rewrite length_drop. lia. }
  specialize (H fuel 0%nat). rewrite Z.add_0_r in H. apply H; lia.
Qed.
End replay.

Section paging.
Context `{P : Prost} `{L : !ProstLaws}.

(** The answer of the relay is decoded to the page it was made of. *)
Lemma client_page db r after limit stored :
  store_ok db → 0 <= after <= I64_MAX → 1 <= limit <= MAX_REPLAY_PAGE_SIZE →
  Forall2 delivers (available db r after) stored →
  (∀ row, row ∈ available db r after → embeddable (row_encoded_envelope row)) →
  client_replay db (mk_ReplayRequest r after limit) = process_replay db (mk_ReplayRequest r after limit).
Proof.
  intros Hok Hafter Hlimit Hst Hem. unfold client_replay, process_replay.
  destruct (replay_page_spec db r after limit stored Hok Hafter Hlimit Hst)
    as (n & Hn & Hpos & Hmax & -> & out & Hout & -> & Hinputs).
  set (rows := available db r after) in *. apply (encode_page_Ok _ _ _ _ Hinputs) in Hout as (Hacc & Hsize & ->).
  assert (Hdec : decode_replay_page (page_bytes (encodable <$> take n rows) (after + Z.of_nat n) (bool_decide (n < length rows)%nat))
    = Ok (mk_ReplayPage (take n stored) (after + Z.of_nat n) (bool_decide (n < length rows)%nat))).
  { apply decode_page_bytes; [done|done|done|by apply delivers_embeds, Forall2_take|].
    intros e (row & -> & Hrow)%list_elem_of_fmap. apply elem_of_take in Hrow as (i & Hi & _).
    apply list_elem_of_lookup_2 in Hi. split; [by apply Hem|]. cbn. apply available_stored in Hi.
    destruct (stored_row_route _ _ Hok Hi) as (rr & Hrr & ?). destruct (store_route _ Hok _ _ Hrr) as (? & _).
    assert (I64_MAX <= U64_MAX) by (vm_compute; congruence). lia. }
  pose proof (Forall2_length _ _ _ Hst) as Hlen. fold rows in Hlen.
  assert (Hcount : len (take n stored) = Z.of_nat n) by (unfold len; rewrite length_take_le; lia).
  pose proof (accepted_count _ _ Hacc) as Hc. unfold len in Hc. rewrite length_fmap, length_take_le in Hc by lia.
  unfold EncodedReplayPage_new. pass_guard by lia. rewrite Hdec. cbn [map_err mbind result_bind].
  cbn [page_next_cursor page_has_more page_envelopes]. rewrite Hcount, !Z.eqb_refl, Bool.eqb_reflx. cbn [negb orb].
  assert (Hmore : bool_decide (n < length rows)%nat = true → (0 < n)%nat)
    by (intros Hlt%bool_decide_eq_true; apply Hpos; intros Hnil; rewrite Hnil in Hlt; cbn in Hlt; lia).
  pass_guard by (destruct (bool_decide _); [specialize (Hmore eq_refl)|]; lia).
  cbn [encoded_bytes]. by rewrite Hdec.
Qed.

(** C15: Paging through a route delivers everything exactly once.  In any reachable
    database, from any starting cursor and with any page limit, a caller that follows
    [next_cursor] while [has_more] is set gets no failing page, stops after finitely many
    pages and has received exactly the envelopes stored after the starting cursor, each
    decoded from its stored bytes and with its cursor, in cursor order, without gap or
    repetition.  A client that decodes the encoded pages the relay answers with receives the
    same, provided no envelope nests so deeply that the decoder refuses it inside a page. *)
Theorem replay_delivers_all ops r after limit
    (Hafter : 0 <= after <= I64_MAX) (Hlimit : 1 <= limit <= MAX_REPLAY_PAGE_SIZE) :
  let db := relay_run empty_db ops in
  let rows := available db r after in
  row_cursor <$> rows = seqZ (after + 1) (len rows)
  ∧ ∃ stored, Forall2 delivers rows stored
    ∧ follow (process_replay db) r limit (S (length rows)) after = Some stored
    ∧ ((∀ row, row ∈ rows → embeddable (row_encoded_envelope row)) →
       follow (client_replay db) r limit (S (length rows)) after = Some stored).
Proof.
  intros db rows. assert (Hok : store_ok db) by apply store_ok_run, store_ok_empty. split.
  { destruct (available_contiguous db r after Hok ltac:(lia)) as (n & Hn & _). fold rows in Hn.
    pose proof Hn as Hlen. apply (f_equal length) in Hlen. rewrite length_fmap, length_seqZ in Hlen.
    rewrite Hn. unfold len, seqZ. do 2 f_equal. lia. }
  destruct (rows_delivered db rows Hok) as [stored Hst]; [intros row; apply available_stored|].
  pose proof (Forall2_length _ _ _ Hst) as Hlen. exists stored.
  assert (Hdrop : ∀ k, Forall2 delivers (available db r (after + Z.of_nat k)) (drop k stored)).
  { intros k. rewrite available_next by lia. by apply Forall2_drop. }
  assert (Hpages : ∀ k, (k <= length stored)%nat → after + Z.of_nat k <= I64_MAX → ∃ n : nat,
    (k + n <= length stored)%nat ∧ ((k < length stored)%nat → (0 < n)%nat) ∧ after + Z.of_nat (k + n) <= I64_MAX
    ∧ process_replay db (mk_ReplayRequest r (after + Z.of_nat k) limit)
      = Some (mk_ReplayPage (take n (drop k stored)) (after + Z.of_nat (k + n)) (bool_decide (k + n < length stored)%nat))).
  { intros k Hk Hmax. destruct (replay_page_spec db r (after + Z.of_nat k) limit (drop k stored) Hok ltac:(lia) Hlimit (Hdrop k))
      as (n & Hn & Hpos & Hmax' & Hpage & _). pose proof (Forall2_length _ _ _ (Hdrop k)) as Hl. rewrite length_drop in Hl.
    exists n. split_and!; [lia| |lia|].
    - intros Hlt. apply Hpos. intros Hnil. rewrite Hnil in Hl. cbn in Hl. lia.
    - unfold process_replay. rewrite Hpage. do 2 f_equal; [lia|]. apply bool_decide_ext. lia. }
  split_and!; [done|by apply (follow_all _ db); [|lia|lia|..]|].
  intros Hem. apply (follow_all _ db); [done|lia|lia|done|]. intros k Hk Hmax.
  destruct (Hpages k Hk Hmax) as (n & ? & ? & ? & Hpage). exists n. split_and!; [done..|]. rewrite <- Hpage.
  apply (client_page db r _ limit (drop k stored)); [done|lia|done|done|]. intros row Hrow. apply Hem.
  rewrite available_next in Hrow by lia.
  apply list_elem_of_lookup in Hrow as [i Hi]. rewrite lookup_drop in Hi. by eapply list_elem_of_lookup_2.
Qed.
End paging.
