(* ===== verification/RelayExamples.v ===== *)
(** * Concrete runs of the relay

    A commit, an application message and an acknowledgment executed on the model with
    the reference codec; they show that the hypotheses of the relay theorems hold on
    real inputs. *)

From S2P Require Import Prelude Identifiers RelayModel Wire WireProofs ReferenceCodec.
From S2P Require Import RelayStore RelayStoreProofs RelayReplay.
Open Scope Z_scope.

Definition example_principal : RelayPrincipalId := repeat_id KRelayPrincipalId x0a.

Definition example_ops : list relay_op :=
  [OpSubmit example_commit (example_encoding example_commit) 100;
   OpSubmit example_message (example_encoding example_message) 100].

Definition example_ack : AcknowledgeRequest := mk_AcknowledgeRequest example_route 1.

Lemma submit_outcome_witness :
  decode_relay_envelope (example_encoding example_message) = Ok example_message
  ∧ (submit_encoded (relay_run empty_db example_ops) example_message
       (example_encoding example_message) 9000).1
    = Ok (SubmitResult_new 2 true).
Proof.
  assert (Hdec : decode_relay_envelope (example_encoding example_message) = Ok example_message)
    by (vm_compute; reflexivity).
  split; [exact Hdec|].
  destruct (submit_outcome example_ops example_message (example_encoding example_message) 9000 Hdec)
    as [Hpresent _].
  rewrite (Hpresent (envelope_row example_message (example_encoding example_message) 2)).
  - vm_compute. reflexivity.
  - right. left.
  - reflexivity.
Defined.

Lemma submit_idempotent_witness :
  (submit_encoded (relay_run empty_db []) example_commit (example_encoding example_commit) 100).1
    = Ok (SubmitResult_new 1 false)
  ∧ (submit_encoded
       (relay_run (submit_encoded (relay_run empty_db []) example_commit
                     (example_encoding example_commit) 100).2
          [OpAcknowledge example_principal example_ack])
       example_commit (example_encoding example_commit) 999999).1
    = Ok (SubmitResult_new 1 true).
Proof.
  assert (Hfirst : (submit_encoded (relay_run empty_db []) example_commit
                      (example_encoding example_commit) 100).1 = Ok (SubmitResult_new 1 false))
    by (vm_compute; reflexivity).
  split; [exact Hfirst|].
  rewrite (submit_idempotent [] example_commit (example_encoding example_commit) 100
             (SubmitResult_new 1 false) [OpAcknowledge example_principal example_ack] 999999 Hfirst).
  reflexivity.
Defined.

Lemma acknowledge_monotone_witness :
  relay_route (relay_run empty_db example_ops) !! example_route = Some (mk_RouteRow 3 1)
  ∧ (acknowledge (relay_run empty_db example_ops) example_principal example_ack).1 = Ok 1.
Proof.
  assert (Hroute : relay_route (relay_run empty_db example_ops) !! example_route
                   = Some (mk_RouteRow 3 1)) by (vm_compute; reflexivity).
  split; [exact Hroute|].
  destruct (acknowledge_monotone example_ops example_principal example_ack (mk_RouteRow 3 1)
              example_ops Hroute) as [E _]; [vm_compute; split; congruence|].
  rewrite E. vm_compute. reflexivity.
Defined.

(** One envelope a page. *)
Lemma replay_delivers_all_witness :
  follow (client_replay (relay_run empty_db example_ops)) example_route 1 3 0
  = Some [mk_StoredRelayEnvelope example_commit 1; mk_StoredRelayEnvelope example_message 2].
Proof.
  destruct (replay_delivers_all example_ops example_route 0 1) as (_ & stored & _ & E1 & E2);
    [vm_compute; split; congruence|vm_compute; split; congruence|].
  transitivity (Some stored); [apply E2; intros row _; exact I|].
  rewrite <- E1. vm_compute. reflexivity.
Defined.
