(* ===== verification/Rendezvous.v ===== *)
(** * Pairing rendezvous

    [crates/Konclave.DomainCore/src/pairing_rendezvous.rs],
    [crates/Konclave.RelayCore/src/pairing_rendezvous.rs] and the rendezvous half of
    [sqlite.rs]: opaque encrypted records that a relay keeps until one reader takes
    them.  The table is a finite map on the lookup identifier. *)

From S2P Require Import Prelude Identifiers RelayModel Wire RelayStore.
Open Scope Z_scope.

(** ** Records *)

Definition MAX_PAIRING_RENDEZVOUS_CIPHERTEXT_BYTES : Z := 8 * 1024 + 16.

Record PairingRendezvousRecord := mk_PairingRendezvousRecord {
  rv_version : ProtocolVersion;
  rv_lookup_id : PairingRendezvousId;
  rv_expires_at_unix_seconds : Z;
  rv_nonce : PairingRendezvousNonce;
  rv_ciphertext : bytes }.
Global Instance PairingRendezvousRecord_eq_dec : EqDecision PairingRendezvousRecord.
Proof. solve_decision. Defined.

(** [PairingRendezvousRecord::new]. *)
Definition PairingRendezvousRecord_new (version : ProtocolVersion)
    (lookup_id : PairingRendezvousId) (expires_at : Z) (nonce : PairingRendezvousNonce)
    (ciphertext : bytes) : result KonclaveDomainError PairingRendezvousRecord :=
  fail_if (expires_at =? 0) (ZeroValue "pairing_rendezvous_expiry");;
  fail_if (negb ((16 <=? len ciphertext)
                 && (len ciphertext <=? MAX_PAIRING_RENDEZVOUS_CIPHERTEXT_BYTES)))
    (OutOfRange "pairing_rendezvous_ciphertext" 16 MAX_PAIRING_RENDEZVOUS_CIPHERTEXT_BYTES
       (len ciphertext));;
  Ok (mk_PairingRendezvousRecord version lookup_id expires_at nonce ciphertext).

Record PairingRendezvousTakeRequest := PairingRendezvousTakeRequest_new {
  take_version : ProtocolVersion;
  take_lookup_id : PairingRendezvousId }.

Record StoredPairingRendezvous := StoredPairingRendezvous_new {
  rv_owner : RelayPrincipalId;
  rv_record : PairingRendezvousRecord }.

(** ** Decisions *)

Definition MAX_ACTIVE_PAIRING_RENDEZVOUS : Z := 10000.
Definition MAX_ACTIVE_PAIRING_RENDEZVOUS_PER_PRINCIPAL : Z := 32.

Inductive PairingRendezvousPublishDecision := RvInsert | RvIdentical | RvReplaceExpired.
Global Instance PairingRendezvousPublishDecision_eq_dec : EqDecision PairingRendezvousPublishDecision.
Proof. solve_decision. Defined.

Inductive PairingRendezvousPublishOutcome := RvPublished | RvAlreadyPublished.

Definition rv_expired (now : Z) (stored : StoredPairingRendezvous) : bool :=
  rv_expires_at_unix_seconds (rv_record stored) <=? now.

Definition decide_pairing_rendezvous_publish (principal : RelayPrincipalId)
    (candidate : PairingRendezvousRecord) (existing : option StoredPairingRendezvous)
    (now active_global_count active_principal_count : Z)
    : result RelayError PairingRendezvousPublishDecision :=
  fail_if (rv_expires_at_unix_seconds candidate <=? now) ExpiredPairingRendezvous;;
  let replaces_expired := is_some_and existing (rv_expired now) in
  match (if replaces_expired then None else existing) with
  | Some existing =>
      if bool_decide (rv_owner existing = principal) && bool_decide (rv_record existing = candidate)
      then Ok RvIdentical else Err PairingRendezvousConflict
  | None =>
      fail_if (MAX_ACTIVE_PAIRING_RENDEZVOUS <=? active_global_count)
        PairingRendezvousGlobalCapacityExceeded;;
      fail_if (MAX_ACTIVE_PAIRING_RENDEZVOUS_PER_PRINCIPAL <=? active_principal_count)
        PairingRendezvousPrincipalCapacityExceeded;;
      Ok (if replaces_expired then RvReplaceExpired else RvInsert)
  end.

Definition decide_pairing_rendezvous_take (existing : option StoredPairingRendezvous) (now : Z)
    : result RelayError unit :=
  existing ← ok_or existing PairingRendezvousUnavailable;
  fail_if (rv_expired now existing) PairingRendezvousUnavailable.

(** ** The table *)

Record RendezvousRow := mk_RendezvousRow {
  rvrow_owner : RelayPrincipalId;
  rvrow_version_major : Z;
  rvrow_version_minor : Z;
  rvrow_expires_at : Z;
  rvrow_nonce : PairingRendezvousNonce;
  rvrow_ciphertext : bytes }.

Abbreviation rendezvous_table := (gmap PairingRendezvousId RendezvousRow).

Definition cleanup_expired_pairing_rendezvous (t : rendezvous_table) (now : Z)
    (excluded : option PairingRendezvousId) : result RelayError rendezvous_table :=
  now ← to_sql_integer now;
  Ok (filter (fun kv => ¬ (rvrow_expires_at kv.2 <= now ∧ excluded ≠ Some kv.1)) t).

Definition active_pairing_rendezvous_counts (t : rendezvous_table) (principal : RelayPrincipalId)
    (now : Z) : result RelayError (Z * Z) :=
  now ← to_sql_integer now;
  let active : rendezvous_table := filter (fun kv => now < rvrow_expires_at kv.2) t in
  Ok (Z.of_nat (size active),
      Z.of_nat (size (filter (fun kv => rvrow_owner kv.2 = principal) active))).

Definition load_pairing_rendezvous (t : rendezvous_table) (lookup_id : PairingRendezvousId)
    : result RelayError (option StoredPairingRendezvous) :=
  match t !! lookup_id with
  | None => Ok None
  | Some row =>
      version_major ← from_sql_u32 (rvrow_version_major row);
      version_minor ← from_sql_u32 (rvrow_version_minor row);
      version ← map_err (fun _ => InvalidStoredData)
                  (ProtocolVersion_new version_major version_minor);
      expires ← from_sql_integer (rvrow_expires_at row);
      record ← map_err (fun _ => InvalidStoredData)
                 (PairingRendezvousRecord_new version lookup_id expires (rvrow_nonce row)
                    (rvrow_ciphertext row));
      Ok (Some (StoredPairingRendezvous_new (rvrow_owner row) record))
  end.

(** The checks of [CREATE TABLE relay_pairing_rendezvous]. *)
Definition rendezvous_row_checks (row : RendezvousRow) : bool :=
  (1 <=? rvrow_version_major row) && (rvrow_version_major row <=? U32_MAX)
  && (0 <=? rvrow_version_minor row) && (rvrow_version_minor row <=? U32_MAX)
  && (1 <=? rvrow_expires_at row)
  && (16 <=? len (rvrow_ciphertext row)) && (len (rvrow_ciphertext row) <=? 8208).

Definition insert_pairing_rendezvous (t : rendezvous_table) (principal : RelayPrincipalId)
    (record : PairingRendezvousRecord) : result RelayError rendezvous_table :=
  expires ← to_sql_integer (rv_expires_at_unix_seconds record);
  let row := mk_RendezvousRow principal (major (rv_version record)) (minor (rv_version record))
               expires (rv_nonce record) (rv_ciphertext record) in
  fail_if (negb (rendezvous_row_checks row && is_none (t !! rv_lookup_id record)))
    (storage_failure "pairing rendezvous insert");;
  Ok (<[rv_lookup_id record := row]> t).

(** [publish_pairing_rendezvous]. *)
Definition publish_pairing_rendezvous (t : rendezvous_table) (principal : RelayPrincipalId)
    (record : PairingRendezvousRecord) (now : Z)
    : result RelayError PairingRendezvousPublishOutcome * rendezvous_table :=
  transact t (
    fail_if (rv_expires_at_unix_seconds record <=? now) ExpiredPairingRendezvous;;
    t1 ← cleanup_expired_pairing_rendezvous t now (Some (rv_lookup_id record));
    existing ← load_pairing_rendezvous t1 (rv_lookup_id record);
    '(active_global, active_principal) ←
      (if is_none_or existing (rv_expired now)
       then active_pairing_rendezvous_counts t1 principal now else Ok (0, 0));
    decision ← decide_pairing_rendezvous_publish principal record existing now active_global
                 active_principal;
    match decision with
    | RvIdentical => Ok (RvAlreadyPublished, t1)
    | RvInsert =>
        t2 ← insert_pairing_rendezvous t1 principal record; Ok (RvPublished, t2)
    | RvReplaceExpired =>
        t2 ← insert_pairing_rendezvous (delete (rv_lookup_id record) t1) principal record;
        Ok (RvPublished, t2)
    end).

(** [take_pairing_rendezvous].  An expired record is deleted in a committed
    transaction although the caller gets an error. *)
Definition take_pairing_rendezvous (t : rendezvous_table) (request : PairingRendezvousTakeRequest)
    (now : Z) : result RelayError PairingRendezvousRecord * rendezvous_table :=
  let id := take_lookup_id request in
  match cleanup_expired_pairing_rendezvous t now (Some id) with
  | Err e => (Err e, t)
  | Ok t1 =>
      match load_pairing_rendezvous t1 id with
      | Err e => (Err e, t)
      | Ok existing =>
          match decide_pairing_rendezvous_take existing now, existing with
          | Err e, _ =>
              if is_some_and existing (rv_expired now) then (Err e, delete id t1) else (Err e, t)
          | Ok _, None => (Err PairingRendezvousUnavailable, t)
          | Ok _, Some stored =>
              if is_some (t1 !! id) then (Ok (rv_record stored), delete id t1)
              else (Err (storage_failure "pairing rendezvous atomic take outcome"), t)
          end
      end
  end.

(** ** The table invariant *)

Record rendezvous_ok (t : rendezvous_table) : Prop := {
  rv_rows_checked : ∀ id row, t !! id = Some row → rendezvous_row_checks row = true;
  rv_global_bound : Z.of_nat (size t) <= MAX_ACTIVE_PAIRING_RENDEZVOUS;
  rv_owner_bound : ∀ p,
    Z.of_nat (size (filter (fun kv => rvrow_owner kv.2 = p) t))
    <= MAX_ACTIVE_PAIRING_RENDEZVOUS_PER_PRINCIPAL }.

(** The record a row stands for. *)
Definition record_of (id : PairingRendezvousId) (row : RendezvousRow) : PairingRendezvousRecord :=
  mk_PairingRendezvousRecord
    (mk_ProtocolVersion (rvrow_version_major row) (rvrow_version_minor row)) id
    (rvrow_expires_at row) (rvrow_nonce row) (rvrow_ciphertext row).

Definition row_of (p : RelayPrincipalId) (record : PairingRendezvousRecord) : RendezvousRow :=
  mk_RendezvousRow p (major (rv_version record)) (minor (rv_version record))
    (rv_expires_at_unix_seconds record) (rv_nonce record) (rv_ciphertext record).

Lemma record_of_row_of p record : record_of (rv_lookup_id record) (row_of p record) = record.
Proof. by destruct record as [[] ? ? ? ?]. Qed.

Lemma load_checked t id row :
  t !! id = Some row → rendezvous_row_checks row = true →
  load_pairing_rendezvous t id
  = Ok (Some (StoredPairingRendezvous_new (rvrow_owner row) (record_of id row))).
Proof.
  intros Hl Hc. unfold load_pairing_rendezvous. rewrite Hl. unfold rendezvous_row_checks in Hc.
  bool_prop. destruct_and!.
  rewrite !from_sql_u32_fits by lia. cbn [mbind result_bind].
  unfold ProtocolVersion_new, PairingRendezvousRecord_new, MAX_PAIRING_RENDEZVOUS_CIPHERTEXT_BYTES.
  pass_guard by lia. cbn [map_err]. cbn [mbind result_bind].
  rewrite from_sql_integer_nonneg by lia. cbn [mbind result_bind].
  pass_guard by lia. pass_guard by lia. done.
Qed.

(** Cleanup keeps the excluded record and what has not expired. *)
Lemma cleanup_lookup t now excluded t' id row :
  cleanup_expired_pairing_rendezvous t now excluded = Ok t' →
  t' !! id = Some row ↔ t !! id = Some row ∧ (excluded = Some id ∨ now < rvrow_expires_at row).
Proof.
  unfold cleanup_expired_pairing_rendezvous, to_sql_integer. intros H. inv_ok. subst.
  rewrite map_lookup_filter_Some. simpl. split.
  - intros [Hl Hn]. split; [done|]. destruct (decide (excluded = Some id)); [by left|].
    right. apply Z.nle_gt. naive_solver.
  - intros [Hl Hn]. split; [done|]. intros [? ?]. destruct Hn; [done|lia].
Qed.

Lemma cleanup_subseteq t now excluded t' :
  cleanup_expired_pairing_rendezvous t now excluded = Ok t' → t' ⊆ t.
Proof.
  intros H. apply map_subseteq_spec. intros id row Hl. by apply (cleanup_lookup _ _ _ _ _ _ H).
Qed.

Lemma rendezvous_ok_subseteq t t' : t' ⊆ t → rendezvous_ok t → rendezvous_ok t'.
Proof.
  intros Hsub [R1 R2 R3]. split.
  - intros id row Hl. eapply R1, lookup_weaken; eauto.
  - pose proof (map_subseteq_size _ _ Hsub). lia.
  - intros p. specialize (R3 p).
    pose proof (map_subseteq_size _ _ (map_filter_subseteq_mono
      (fun kv => rvrow_owner kv.2 = p) _ _ Hsub)). lia.
Qed.

Lemma cleanup_ok t now excluded t' :
  rendezvous_ok t → cleanup_expired_pairing_rendezvous t now excluded = Ok t' → rendezvous_ok t'.
Proof. intros Hok H. eapply rendezvous_ok_subseteq; [by eapply cleanup_subseteq|done]. Qed.

(** ** What the operations do *)

(** Once the requested identifier is out of the way, everything left after cleanup is
    active, so the counts bound the table itself. *)
Lemma cleaned_active t now id t' :
  cleanup_expired_pairing_rendezvous t now (Some id) = Ok t' →
  delete id t' ⊆ filter (fun kv => now < rvrow_expires_at kv.2) t'.
Proof.
  intros H. apply map_subseteq_spec. intros id' row Hl. apply lookup_delete_Some in Hl as [Hne Hl].
  apply map_lookup_filter_Some. split; [done|]. simpl.
  apply (cleanup_lookup _ _ _ _ _ _ H) in Hl as [_ [[= ->]|?]]; done.
Qed.

Lemma counts_Ok t p now g n :
  active_pairing_rendezvous_counts t p now = Ok (g, n) →
  let active : rendezvous_table := filter (fun kv => now < rvrow_expires_at kv.2) t in
  g = Z.of_nat (size active)
  ∧ n = Z.of_nat (size (filter (fun kv => rvrow_owner kv.2 = p) active)).
Proof.
  unfold active_pairing_rendezvous_counts, to_sql_integer. intros H. inv_ok. by subst.
Qed.

Lemma insert_rendezvous_Ok t p record t' :
  insert_pairing_rendezvous t p record = Ok t' →
  t !! rv_lookup_id record = None ∧ rendezvous_row_checks (row_of p record) = true
  ∧ rv_expires_at_unix_seconds record <= I64_MAX
  ∧ t' = <[rv_lookup_id record := row_of p record]> t.
Proof.
  unfold insert_pairing_rendezvous, to_sql_integer. intros H. inv_ok. subst. bool_prop.
  destruct Hr0 as [Hc Hn]. destruct (t !! rv_lookup_id record); [done|]. auto.
Qed.

(** The three ways a publish can end. *)
Inductive publish_effect (t : rendezvous_table) (p : RelayPrincipalId)
    (record : PairingRendezvousRecord)
    : result RelayError PairingRendezvousPublishOutcome → rendezvous_table → Prop :=
| publish_refused err : publish_effect t p record (Err err) t
| publish_repeated t1 :
    t1 ⊆ t → t1 !! rv_lookup_id record = Some (row_of p record) →
    publish_effect t p record (Ok RvAlreadyPublished) t1
| publish_inserted t1 :
    t1 ⊆ t → t1 !! rv_lookup_id record = None →
    rendezvous_row_checks (row_of p record) = true →
    rv_expires_at_unix_seconds record <= I64_MAX →
    Z.of_nat (size t1) < MAX_ACTIVE_PAIRING_RENDEZVOUS →
    Z.of_nat (size (filter (fun kv => rvrow_owner kv.2 = p) t1))
      < MAX_ACTIVE_PAIRING_RENDEZVOUS_PER_PRINCIPAL →
    publish_effect t p record (Ok RvPublished)
      (<[rv_lookup_id record := row_of p record]> t1).

Lemma publish_inserts t p record now t1 t2 g n :
  cleanup_expired_pairing_rendezvous t now (Some (rv_lookup_id record)) = Ok t1 →
  active_pairing_rendezvous_counts t1 p now = Ok (g, n) →
  g < MAX_ACTIVE_PAIRING_RENDEZVOUS → n < MAX_ACTIVE_PAIRING_RENDEZVOUS_PER_PRINCIPAL →
  insert_pairing_rendezvous (delete (rv_lookup_id record) t1) p record = Ok t2 →
  publish_effect t p record (Ok RvPublished) t2.
Proof.
  intros Hclean Hcounts Hg Hn Hins. apply counts_Ok in Hcounts as [-> ->].
  pose proof (cleaned_active _ _ _ _ Hclean) as Hact.
  apply insert_rendezvous_Ok in Hins as (Hnone & Hchk & Hexp & ->).
  pose proof (map_subseteq_size _ _ Hact).
  pose proof (map_subseteq_size _ _ (map_filter_subseteq_mono
    (fun kv => rvrow_owner kv.2 = p) _ _ Hact)).
  apply publish_inserted; [|done|done|done|lia|lia].
  etransitivity; [apply delete_subseteq|by eapply cleanup_subseteq].
Qed.

Lemma publish_effect_sound t p record now :
  rendezvous_ok t →
  publish_effect t p record (publish_pairing_rendezvous t p record now).1
    (publish_pairing_rendezvous t p record now).2.
Proof.
  intros Hok. unfold publish_pairing_rendezvous.
  match goal with |- context [transact t ?m] => destruct m as [[out t']|err] eqn:E end;
    [|apply publish_refused].
  simpl. apply bind_Ok in E as (? & Hexp & E). apply bind_Ok in E as (t1 & Hclean & E).
  apply bind_Ok in E as (existing & Hload & E). apply bind_Ok in E as ([g n] & Hcounts & E).
  apply bind_Ok in E as (decision & Hdec & E).
  unfold decide_pairing_rendezvous_publish in Hdec. apply bind_Ok in Hdec as (? & _ & Hdec).
  destruct (t1 !! rv_lookup_id record) as [row|] eqn:Hl.
  - rewrite (load_checked _ _ _ Hl) in Hload
      by (eapply (rv_rows_checked _ (cleanup_ok _ _ _ _ Hok Hclean)); done).
    injection Hload as <-. simpl in *.
    destruct (rv_expired now _) eqn:Hx; inv_ok; subst; inv_ok.
    + simplify_eq. eapply publish_inserts; [done|done|lia|lia|done].
    + simplify_eq. bool_prop. destruct Hb as [Ho Hrec]. eapply publish_repeated;
        [by eapply cleanup_subseteq|]. rewrite Hl. f_equal. rewrite <- Hrec, <- Ho. by destruct row.
  - unfold load_pairing_rendezvous in Hload. rewrite Hl in Hload. injection Hload as <-.
    simpl in *. inv_ok. subst. inv_ok. simplify_eq.
    eapply publish_inserts; [done|done|lia|lia|]. by rewrite delete_id.
Qed.

Lemma publish_effect_ok t p record out t' :
  rendezvous_ok t → publish_effect t p record out t' → rendezvous_ok t'.
Proof.
  intros Hok [err|t1 Hsub _|t1 Hsub Hnone Hchk _ Hg Hn].
  - done.
  - by eapply rendezvous_ok_subseteq.
  - apply (rendezvous_ok_subseteq _ _ Hsub) in Hok. destruct Hok as [R1 R2 R3]. split.
    + intros id row. destruct (decide (rv_lookup_id record = id)) as [<-|Hne].
      * rewrite lookup_insert_eq. by intros [= <-].
      * rewrite lookup_insert_ne by done. apply R1.
    + rewrite map_size_insert_None by done. lia.
    + intros p'. destruct (decide (p = p')) as [<-|Hne].
      * rewrite map_filter_insert_True by done. rewrite map_size_insert_None; [lia|].
        apply map_lookup_filter_None. by left.
      * rewrite map_filter_insert_not' by (done || congruence). apply R3.
Qed.

(** The ways a take can end. *)
Inductive take_effect (t : rendezvous_table) (id : PairingRendezvousId)
    : result RelayError PairingRendezvousRecord → rendezvous_table → Prop :=
| take_refused err t' : t' ⊆ t → take_effect t id (Err err) t'
| take_consumed row t' :
    t !! id = Some row → t' ⊆ t → t' !! id = None → take_effect t id (Ok (record_of id row)) t'.

Lemma take_effect_sound t request now :
  rendezvous_ok t →
  take_effect t (take_lookup_id request) (take_pairing_rendezvous t request now).1
    (take_pairing_rendezvous t request now).2.
Proof.
  intros Hok. unfold take_pairing_rendezvous. set (id := take_lookup_id request).
  destruct (cleanup_expired_pairing_rendezvous t now (Some id)) as [t1|err] eqn:Hclean;
    [|by apply take_refused].
  pose proof (cleanup_subseteq _ _ _ _ Hclean) as Hsub.
  assert (Hdel : delete id t1 ⊆ t) by (etransitivity; [apply delete_subseteq|done]).
  destruct (t1 !! id) as [row|] eqn:Hl.
  - rewrite (load_checked _ _ _ Hl)
      by (eapply (rv_rows_checked _ (cleanup_ok _ _ _ _ Hok Hclean)); done).
    unfold decide_pairing_rendezvous_take. simpl. destruct (rv_expired now _); simpl.
    + by apply take_refused.
    + apply take_consumed; [by eapply lookup_weaken|done|apply lookup_delete_eq].
  - unfold load_pairing_rendezvous. rewrite Hl. simpl. by apply take_refused.
Qed.

(** ** Histories *)

Inductive rendezvous_op :=
| RvPublishOp (principal : RelayPrincipalId) (record : PairingRendezvousRecord) (now : Z)
| RvTakeOp (request : PairingRendezvousTakeRequest) (now : Z).

(** What a caller observes. *)
Inductive rendezvous_event :=
| RvPublishEvent (principal : RelayPrincipalId) (record : PairingRendezvousRecord)
    (outcome : result RelayError PairingRendezvousPublishOutcome)
| RvTakeEvent (id : PairingRendezvousId) (outcome : result RelayError PairingRendezvousRecord).

Definition rendezvous_step (t : rendezvous_table) (op : rendezvous_op)
    : rendezvous_event * rendezvous_table :=
  match op with
  | RvPublishOp p record now =>
      let r := publish_pairing_rendezvous t p record now in (RvPublishEvent p record r.1, r.2)
  | RvTakeOp request now =>
      let r := take_pairing_rendezvous t request now in
      (RvTakeEvent (take_lookup_id request) r.1, r.2)
  end.

Fixpoint rendezvous_run (t : rendezvous_table) (ops : list rendezvous_op)
    : list rendezvous_event * rendezvous_table :=
  match ops with
  | [] => ([], t)
  | op :: ops =>
      let r := rendezvous_step t op in
      let rest := rendezvous_run r.2 ops in (r.1 :: rest.1, rest.2)
  end.

(** The specification: a mailbox per identifier.  A publication fills it, a successful
    take must find exactly the publication that is there and empties it. *)
Abbreviation mailbox := (gmap PairingRendezvousId (RelayPrincipalId * PairingRendezvousRecord)).

Definition mailbox_step (m : mailbox) (event : rendezvous_event) : option mailbox :=
  match event with
  | RvPublishEvent p record (Ok RvPublished) => Some (<[rv_lookup_id record := (p, record)]> m)
  | RvPublishEvent p record (Ok RvAlreadyPublished) =>
      if bool_decide (m !! rv_lookup_id record = Some (p, record)) then Some m else None
  | RvPublishEvent _ _ (Err _) => Some m
  | RvTakeEvent id (Ok record) =>
      if bool_decide (snd <$> m !! id = Some record) then Some (delete id m) else None
  | RvTakeEvent _ (Err _) => Some m
  end.

Fixpoint mailbox_run (m : mailbox) (events : list rendezvous_event) : option mailbox :=
  match events with
  | [] => Some m
  | event :: events => m ← mailbox_step m event; mailbox_run m events
  end.

(** Every stored row is the publication the mailbox holds. *)
Definition mailbox_simulates (t : rendezvous_table) (m : mailbox) : Prop :=
  ∀ id row, t !! id = Some row → m !! id = Some (rvrow_owner row, record_of id row).

Lemma mailbox_simulates_subseteq t t' m :
  t' ⊆ t → mailbox_simulates t m → mailbox_simulates t' m.
Proof. intros Hsub Hs id row Hl. apply Hs. by eapply lookup_weaken. Qed.

Lemma rendezvous_step_simulates t m op :
  rendezvous_ok t → mailbox_simulates t m →
  rendezvous_ok (rendezvous_step t op).2
  ∧ ∃ m', mailbox_step m (rendezvous_step t op).1 = Some m'
      ∧ mailbox_simulates (rendezvous_step t op).2 m'.
Proof.
  intros Hok Hs. destruct op as [p record now|request now]; cbn [rendezvous_step fst snd].
  - pose proof (publish_effect_sound t p record now Hok) as He.
    split; [by eapply publish_effect_ok|].
    destruct He as [err|t1 Hsub Hl|t1 Hsub Hnone Hchk _ _ _]; simpl.
    + eauto.
    + assert (Hm : m !! rv_lookup_id record = Some (p, record)).
      { rewrite (Hs _ (row_of p record)) by (by eapply lookup_weaken).
        by rewrite record_of_row_of. }
      rewrite bool_decide_eq_true_2 by done. exists m.
      split; [done|]. by eapply mailbox_simulates_subseteq.
    + eexists. split; [done|]. intros id row.
      destruct (decide (rv_lookup_id record = id)) as [<-|Hne].
      * rewrite !lookup_insert_eq. intros [= <-]. by rewrite record_of_row_of.
      * rewrite !lookup_insert_ne by done. intros Hl. apply Hs. by eapply lookup_weaken.
  - destruct (take_effect_sound t request now Hok) as [err t' Hsub|row t' Hl Hsub Hnone]; simpl.
    + split; [by eapply rendezvous_ok_subseteq|]. exists m.
      split; [done|]. by eapply mailbox_simulates_subseteq.
    + split; [by eapply rendezvous_ok_subseteq|]. rewrite (Hs _ _ Hl). simpl.
      rewrite bool_decide_eq_true_2 by done. eexists. split; [done|].
      intros id row' Hl'. rewrite lookup_delete_ne by congruence. apply Hs. by eapply lookup_weaken.
Qed.

Lemma rendezvous_run_simulates t m ops :
  rendezvous_ok t → mailbox_simulates t m →
  rendezvous_ok (rendezvous_run t ops).2
  ∧ is_Some (mailbox_run m (rendezvous_run t ops).1).
Proof.
  revert t m. induction ops as [|op ops IH]; intros t m Hok Hs; simpl; [eauto|].
  destruct (rendezvous_step_simulates t m op Hok Hs) as (Hok' & m' & -> & Hs'). by apply IH.
Qed.

Lemma rendezvous_ok_empty : rendezvous_ok ∅.
Proof. split; [done|done|]. intros p. rewrite map_filter_empty. done. Qed.

(** ** Theorems *)

(** A rendezvous record is delivered at most once.  Every history of publishes and
    takes from the empty table is accepted by the one-slot-per-identifier mailbox: a
    successful take returns exactly the record of the latest accepted publication under
    that identifier, which no other take has returned since, and a publish reported as
    already present finds the identical record of the same principal. *)
Theorem rendezvous_refines_mailbox ops :
  is_Some (mailbox_run ∅ (rendezvous_run ∅ ops).1).
Proof. by apply (rendezvous_run_simulates ∅ ∅ ops rendezvous_ok_empty). Qed.

(** Rendezvous storage is bounded.  After any history, with any clock readings, the
    table holds at most 10000 records, at most 32 of one principal, and every row passes
    the schema's checks. *)
Theorem rendezvous_bounded ops : rendezvous_ok (rendezvous_run ∅ ops).2.
Proof. by apply (rendezvous_run_simulates ∅ ∅ ops rendezvous_ok_empty). Qed.

(** What is published can be taken.  After any history, a record whose publication
    was accepted is returned unchanged by a take before its expiry, and a second take
    finds nothing. *)
Theorem rendezvous_publish_take ops p record now now' request
    (Hpublish : (publish_pairing_rendezvous (rendezvous_run ∅ ops).2 p record now).1
                = Ok RvPublished)
    (Hrequest : take_lookup_id request = rv_lookup_id record)
    (Hlive : now' < rv_expires_at_unix_seconds record) :
  let t := (publish_pairing_rendezvous (rendezvous_run ∅ ops).2 p record now).2 in
  let taken := take_pairing_rendezvous t request now' in
  taken.1 = Ok record
  ∧ (take_pairing_rendezvous taken.2 request now').1 = Err PairingRendezvousUnavailable.
Proof.
  intros t taken.
  destruct (rendezvous_run_simulates ∅ ∅ ops rendezvous_ok_empty ltac:(done)) as [Hok _].
  pose proof (publish_effect_sound _ p record now Hok) as He.
  assert (Hok' := publish_effect_ok _ _ _ _ _ Hok He). fold t in He, Hok'. rewrite Hpublish in He.
  inversion He as [| |t1 Hsub Hnone Hchk Hexp _ _ E1 E2]; subst.
  assert (Hclean : ∀ t0 : rendezvous_table, ∃ t2,
    cleanup_expired_pairing_rendezvous t0 now' (Some (rv_lookup_id record)) = Ok t2).
  { intros t0. unfold cleanup_expired_pairing_rendezvous. rewrite to_sql_integer_fits by lia. eauto. }
  assert (Htaken : ∃ t2, taken = (Ok record, delete (rv_lookup_id record) t2)).
  { unfold taken, take_pairing_rendezvous. rewrite Hrequest.
    destruct (Hclean t) as [t2 Ht2]. rewrite Ht2.
    assert (Hl : t2 !! rv_lookup_id record = Some (row_of p record)).
    { apply (cleanup_lookup _ _ _ _ _ _ Ht2). rewrite <- E2, lookup_insert_eq. auto. }
    rewrite (load_checked _ _ _ Hl Hchk). unfold decide_pairing_rendezvous_take, rv_expired. simpl.
    rewrite (proj2 (Z.leb_gt _ _) Hlive). simpl. rewrite Hl, record_of_row_of. simpl. eauto. }
  destruct Htaken as [t2 ->]. split; [done|]. cbn [snd].
  unfold take_pairing_rendezvous. rewrite Hrequest.
  destruct (Hclean (delete (rv_lookup_id record) t2)) as [t3 Ht3]. rewrite Ht3.
  assert (Hl : t3 !! rv_lookup_id record = None).
  { apply eq_None_not_Some. intros [row Hl]. apply (cleanup_lookup _ _ _ _ _ _ Ht3) in Hl as [Hl _].
    by rewrite lookup_delete_eq in Hl. }
  unfold load_pairing_rendezvous. by rewrite Hl.
Qed.

(** ** Concrete input *)

Definition example_rendezvous : PairingRendezvousRecord :=
  mk_PairingRendezvousRecord application_v1 (repeat_id KPairingRendezvousId x21) 900
    (repeat_id KPairingRendezvousNonce x22) (replicate 16 x23).

Definition example_owner : RelayPrincipalId := repeat_id KRelayPrincipalId x24.

Lemma rendezvous_publish_take_witness :
  (publish_pairing_rendezvous (rendezvous_run ∅ []).2 example_owner example_rendezvous 100).1
    = Ok RvPublished
  ∧ (take_pairing_rendezvous
       (publish_pairing_rendezvous (rendezvous_run ∅ []).2 example_owner example_rendezvous 100).2
       (PairingRendezvousTakeRequest_new application_v1 (repeat_id KPairingRendezvousId x21)) 200).1
    = Ok example_rendezvous.
Proof.
  assert (Hp : (publish_pairing_rendezvous (rendezvous_run ∅ []).2 example_owner
                  example_rendezvous 100).1 = Ok RvPublished) by (vm_compute; reflexivity).
  split; [exact Hp|].
  apply (rendezvous_publish_take [] example_owner example_rendezvous 100 200
    (PairingRendezvousTakeRequest_new application_v1 (repeat_id KPairingRendezvousId x21)) Hp);
    vm_compute; reflexivity.
Defined.
