(* ===== verification/RelayPrincipals.v ===== *)
(** * Dynamic relay principals

    The [RelayPrincipalRegistry] half of [crates/Konclave.RelayCore/src/sqlite.rs] and
    [DynamicRelayAuthorizer] of [service.rs]: self-hosted registration of client
    principals, their revocation, and the authorization decision built on them.  The
    table is a finite map on the principal; its unique request identifier is part of
    the invariant. *)

From S2P Require Import Prelude Identifiers RelayModel Wire RelayStore.
Open Scope Z_scope.

Definition MAX_ACTIVE_DYNAMIC_PRINCIPALS : Z := 1024.
Definition MAX_DYNAMIC_PRINCIPAL_RECORDS : Z := 4096.

Record PrincipalRow := mk_PrincipalRow {
  principal_request_id : EnrollmentRequestId;
  principal_status : Z }.
Global Instance PrincipalRow_eq_dec : EqDecision PrincipalRow.
Proof. solve_decision. Defined.

Abbreviation principal_table := (gmap RelayPrincipalId PrincipalRow).

Definition active_principals (t : principal_table) : Z :=
  Z.of_nat (size (filter (fun kv => principal_status kv.2 = 1) t)).
Definition principal_records (t : principal_table) : Z := Z.of_nat (size t).

(** A row with this principal or this request identifier exists. *)
Definition principal_conflict (t : principal_table) (request : RelayEnrollmentRequest) : bool :=
  is_some (t !! enroll_principal_id request)
  || existsb (fun kv => bool_decide (principal_request_id kv.2 = enroll_request_id request))
       (map_to_list t).

(** [INSERT .. SELECT .. WHERE .. ON CONFLICT DO NOTHING]: the number of rows inserted
    and the table. *)
Definition insert_principal (t : principal_table) (request : RelayEnrollmentRequest)
    : Z * principal_table :=
  if (active_principals t <? MAX_ACTIVE_DYNAMIC_PRINCIPALS)
     && (principal_records t <? MAX_DYNAMIC_PRINCIPAL_RECORDS)
     && negb (principal_conflict t request)
  then (1, <[enroll_principal_id request := mk_PrincipalRow (enroll_request_id request) 1]> t)
  else (0, t).

(** The [for row in &rows] loop of [classify_principal_registration]: the row of this
    exact request decides. *)
Fixpoint classify_rows (rows : list (RelayPrincipalId * PrincipalRow))
    (request : RelayEnrollmentRequest) : option (result RelayError RelayEnrollmentOutcome) :=
  match rows with
  | [] => None
  | (principal, row) :: rest =>
      if bool_decide (principal = enroll_principal_id request)
         && bool_decide (principal_request_id row = enroll_request_id request)
      then Some (match principal_status row with
                 | 1 => Ok AlreadyRegistered
                 | 2 => Err PrincipalRevoked
                 | _ => Err InvalidStoredData
                 end)
      else classify_rows rest request
  end.

Definition classify_principal_registration (t : principal_table) (request : RelayEnrollmentRequest)
    : result RelayError RelayEnrollmentOutcome :=
  let rows :=
    take 2 (List.filter
              (fun kv => bool_decide (kv.1 = enroll_principal_id request)
                         || bool_decide (principal_request_id kv.2 = enroll_request_id request))
              (map_to_list t)) in
  match classify_rows rows request with
  | Some outcome => outcome
  | None =>
      fail_if (negb (len rows =? 0)) EnrollmentConflict;;
      if (MAX_ACTIVE_DYNAMIC_PRINCIPALS <=? active_principals t)
         || (MAX_DYNAMIC_PRINCIPAL_RECORDS <=? principal_records t)
      then Err PrincipalCapacityExceeded
      else Err (storage_failure "dynamic principal registration outcome")
  end.

(** [register_principal]. *)
Definition register_principal (t : principal_table) (request : RelayEnrollmentRequest)
    : result RelayError RelayEnrollmentResponse * principal_table :=
  if negb (major (enroll_version request) =? 1) then (Err UnsupportedEnrollmentVersion, t)
  else
    let '(inserted, t') := insert_principal t request in
    (outcome ← (if inserted =? 1 then Ok Registered
                else classify_principal_registration t' request);
     Ok (RelayEnrollmentResponse_new (enroll_version request) (enroll_request_id request)
           (enroll_principal_id request) outcome), t').

(** [is_principal_active]. *)
Definition is_principal_active (t : principal_table) (principal : RelayPrincipalId)
    : result RelayError bool :=
  match principal_status <$> t !! principal with
  | None | Some 2 => Ok false
  | Some 1 => Ok true
  | Some _ => Err InvalidStoredData
  end.

(** [revoke_principal]. *)
Definition revoke_principal (t : principal_table) (principal : RelayPrincipalId)
    : result RelayError bool * principal_table :=
  match t !! principal with
  | Some row =>
      if principal_status row =? 1
      then (Ok true, <[principal := mk_PrincipalRow (principal_request_id row) 2]> t)
      else (Ok false, t)
  | None => (Ok false, t)
  end.

(** ** Invariant *)

Record principals_ok (t : principal_table) : Prop := {
  principals_status : ∀ p row, t !! p = Some row →
    principal_status row = 1 ∨ principal_status row = 2;
  principals_requests : ∀ p q row row', t !! p = Some row → t !! q = Some row' →
    principal_request_id row = principal_request_id row' → p = q;
  principals_active : active_principals t <= MAX_ACTIVE_DYNAMIC_PRINCIPALS;
  principals_total : principal_records t <= MAX_DYNAMIC_PRINCIPAL_RECORDS }.

Lemma principal_conflict_false t request :
  principal_conflict t request = false ↔
  t !! enroll_principal_id request = None
  ∧ ∀ p row, t !! p = Some row → principal_request_id row ≠ enroll_request_id request.
Proof.
  unfold principal_conflict. rewrite orb_false_iff. f_equiv.
  - destruct (t !! _); naive_solver.
  - rewrite <- not_true_iff_false, existsb_exists. split.
    + intros H p row Hl E. apply H. exists (p, row). rewrite <- list_elem_of_In.
      split; [by apply elem_of_map_to_list|]. by rewrite bool_decide_eq_true.
    + intros H ([p row] & Hin & E). bool_prop. apply list_elem_of_In, elem_of_map_to_list in Hin.
      by apply (H p row).
Qed.

Lemma principals_ok_empty : principals_ok ∅.
Proof. by split. Qed.

Lemma insert_principal_ok t request : principals_ok t → principals_ok (insert_principal t request).2.
Proof.
  intros Hok. unfold insert_principal. destruct (_ && _) eqn:E; [|done]. bool_prop.
  destruct E as [[Ha Ht] Hc]. apply principal_conflict_false in Hc as [Hnone Hfresh].
  destruct Hok as [P1 P2 P3 P4]. cbn [snd]. split.
  - intros p row. destruct (decide (enroll_principal_id request = p)) as [<-|Hne];
      [rewrite lookup_insert_eq; intros [= <-]; by left|rewrite lookup_insert_ne by done; apply P1].
  - intros p q row row' Hp Hq E.
    destruct (decide (enroll_principal_id request = p)) as [<-|Hnp],
      (decide (enroll_principal_id request = q)) as [<-|Hnq]; simplify_map_eq; try done.
    + by destruct (Hfresh q row' Hq).
    + by destruct (Hfresh p row Hp).
    + by eapply P2.
  - unfold active_principals in *. rewrite map_filter_insert_True by done.
    rewrite map_size_insert_None; [lia|]. apply map_lookup_filter_None. by left.
  - unfold principal_records in *. rewrite map_size_insert_None by done. lia.
Qed.

Lemma register_table t request :
  (register_principal t request).2 = t
  ∨ (register_principal t request).2 = (insert_principal t request).2.
Proof.
  unfold register_principal. destruct (negb _); [by left|]. right.
  by destruct (insert_principal t request).
Qed.

Lemma revoke_principal_ok t p : principals_ok t → principals_ok (revoke_principal t p).2.
Proof.
  intros Hok. unfold revoke_principal. destruct (t !! p) as [row|] eqn:Hl; [|done].
  destruct (Z.eqb_spec (principal_status row) 1) as [Hs|]; [|done]. cbn [snd].
  destruct Hok as [P1 P2 P3 P4]. split.
  - intros q row'. destruct (decide (p = q)) as [<-|Hne];
      [rewrite lookup_insert_eq; intros [= <-]; by right|rewrite lookup_insert_ne by done; apply P1].
  - intros a b ra rb Ha Hb E.
    destruct (decide (p = a)) as [<-|Hna], (decide (p = b)) as [<-|Hnb]; simplify_map_eq; try done;
      by eapply P2.
  - unfold active_principals in *. rewrite map_filter_insert_False by (simpl; lia).
    etransitivity; [|exact P3]. apply Nat2Z.inj_le, map_subseteq_size, map_filter_subseteq_mono,
      delete_subseteq.
  - unfold principal_records in *. rewrite map_size_insert_Some by eauto. done.
Qed.

(** ** Histories *)

Inductive principal_op :=
| RegisterOp (request : RelayEnrollmentRequest)
| RevokeOp (principal : RelayPrincipalId).

Definition principal_step (t : principal_table) (op : principal_op) : principal_table :=
  match op with
  | RegisterOp request => (register_principal t request).2
  | RevokeOp p => (revoke_principal t p).2
  end.

Definition principal_run (t : principal_table) (ops : list principal_op) : principal_table :=
  foldl principal_step t ops.

Lemma principal_step_ok t op : principals_ok t → principals_ok (principal_step t op).
Proof.
  intros Hok. destruct op as [request|p]; simpl; [|by apply revoke_principal_ok].
  destruct (register_table t request) as [-> | ->]; [done|]. by apply insert_principal_ok.
Qed.

Lemma principal_run_ok t ops : principals_ok t → principals_ok (principal_run t ops).
Proof.
  unfold principal_run. revert t. induction ops as [|op ops IH]; intros t Hok; simpl; [done|].
  by apply IH, principal_step_ok.
Qed.

Lemma revoked_row_stays t ops p row :
  t !! p = Some row → principal_status row = 2 → principal_run t ops !! p = Some row.
Proof.
  unfold principal_run. revert t. induction ops as [|op ops IH]; intros t Hl Hs; simpl; [done|].
  apply IH; [|done]. destruct op as [request|q]; simpl.
  - destruct (register_table t request) as [-> | ->]; [done|]. unfold insert_principal.
    destruct (_ && _) eqn:E; [|done]. bool_prop. destruct E as [_ Hc].
    apply principal_conflict_false in Hc as [Hnone _]. simpl. rewrite lookup_insert_ne; [done|].
    congruence.
  - unfold revoke_principal. destruct (t !! q) as [row'|] eqn:Hq; [|done].
    destruct (Z.eqb_spec (principal_status row') 1); [|done]. simpl. rewrite lookup_insert_ne; [done|].
    intros ->. simplify_eq. lia.
Qed.

(** ** Classification of a refused registration *)

(** The rows a conflicting registration reads. *)
Definition conflict_rows (t : principal_table) (request : RelayEnrollmentRequest)
    : list (RelayPrincipalId * PrincipalRow) :=
  List.filter (fun kv => bool_decide (kv.1 = enroll_principal_id request)
                         || bool_decide (principal_request_id kv.2 = enroll_request_id request))
    (map_to_list t).

Lemma elem_of_conflict_rows t request p row :
  (p, row) ∈ conflict_rows t request ↔
  t !! p = Some row ∧ (p = enroll_principal_id request
                       ∨ principal_request_id row = enroll_request_id request).
Proof.
  unfold conflict_rows. rewrite list_elem_of_In, filter_In, <- list_elem_of_In, elem_of_map_to_list.
  rewrite orb_true_iff, !bool_decide_eq_true. done.
Qed.

Lemma conflict_rows_nonempty t request :
  principal_conflict t request = true → take 2 (conflict_rows t request) ≠ [].
Proof.
  intros Hc Hnil. assert (Hempty : conflict_rows t request = [])
    by (destruct (conflict_rows t request); done).
  enough (principal_conflict t request = false) by congruence. apply principal_conflict_false.
  assert (Hno : ∀ p row, (p, row) ∉ conflict_rows t request)
    by (intros p row; rewrite Hempty; apply not_elem_of_nil).
  split.
  - apply eq_None_not_Some. intros [row Hl]. eapply Hno, elem_of_conflict_rows. eauto.
  - intros p row Hl E. eapply Hno, elem_of_conflict_rows. eauto.
Qed.

Lemma classify_rows_none rows request :
  (∀ p row, (p, row) ∈ rows → ¬ (p = enroll_principal_id request
                                 ∧ principal_request_id row = enroll_request_id request)) →
  classify_rows rows request = None.
Proof.
  induction rows as [|[p row] rows IH]; intros H; simpl; [done|].
  destruct (bool_decide _ && bool_decide _) eqn:E; [|apply IH; by intros; apply H; right].
  bool_prop. by destruct (H p row (list_elem_of_here _ _)).
Qed.

Lemma classify_rows_some rows request o :
  classify_rows rows request = Some (Ok o) →
  ∃ p row, (p, row) ∈ rows ∧ p = enroll_principal_id request ∧ principal_status row = 1.
Proof.
  induction rows as [|[p row] rows IH]; simpl; [done|].
  destruct (bool_decide _ && bool_decide _) eqn:E.
  - bool_prop. destruct E as [-> _]. intros H. eexists _, row. split; [left|]. split; [done|].
    destruct (principal_status row) as [|[]|]; try done; by repeat case_match.
  - intros (q & row' & Hin & ?)%IH. exists q, row'. split; [by right|done].
Qed.

(** The registration of the exact same request is the only conflicting row. *)
Lemma conflict_rows_exact t request row :
  principals_ok t → t !! enroll_principal_id request = Some row →
  principal_request_id row = enroll_request_id request →
  ∃ rest, take 2 (conflict_rows t request) = (enroll_principal_id request, row) :: rest.
Proof.
  intros Hok Hl E. assert (Hin : (enroll_principal_id request, row) ∈ conflict_rows t request)
    by (apply elem_of_conflict_rows; eauto).
  destruct (conflict_rows t request) as [|[q row'] rest] eqn:Er; [by apply elem_of_nil in Hin|].
  assert (Hq : (q, row') ∈ conflict_rows t request) by (rewrite Er; left).
  apply elem_of_conflict_rows in Hq as [Hl' Hq].
  assert (q = enroll_principal_id request) as ->.
  { destruct Hq as [|Hreq]; [done|]. eapply (principals_requests _ Hok); eauto. congruence. }
  simplify_eq. simpl. eauto.
Qed.

(** ** Theorems *)

(** Registration has exactly these outcomes.  In any reachable registry a version-1
    request for the very same principal and request identifier reports the existing
    registration, or its revocation, and changes nothing; one that shares only the
    principal or only the identifier is a conflict; a fresh one is registered while fewer
    than 1024 are active and fewer than 4096 are recorded, and refused for capacity
    otherwise.  Stored-data and storage errors never occur. *)
Theorem register_outcome ops request (Hversion : major (enroll_version request) = 1) :
  let t := principal_run ∅ ops in
  let reply o := RelayEnrollmentResponse_new (enroll_version request) (enroll_request_id request)
                   (enroll_principal_id request) o in
  register_principal t request
  = if principal_conflict t request
    then (match t !! enroll_principal_id request with
          | Some row =>
              if bool_decide (principal_request_id row = enroll_request_id request)
              then if principal_status row =? 1 then Ok (reply AlreadyRegistered)
                   else Err PrincipalRevoked
              else Err EnrollmentConflict
          | None => Err EnrollmentConflict
          end, t)
    else if (active_principals t <? MAX_ACTIVE_DYNAMIC_PRINCIPALS)
            && (principal_records t <? MAX_DYNAMIC_PRINCIPAL_RECORDS)
    then (Ok (reply Registered),
          <[enroll_principal_id request := mk_PrincipalRow (enroll_request_id request) 1]> t)
    else (Err PrincipalCapacityExceeded, t).
Proof.
  intros t reply. pose proof (principal_run_ok ∅ ops principals_ok_empty) as Hok. fold t in Hok.
  unfold register_principal, insert_principal. rewrite Hversion. cbn [negb Z.eqb Pos.eqb].
  destruct (principal_conflict t request) eqn:Hc.
  - rewrite andb_false_r. cbn [Z.eqb]. f_equal. unfold classify_principal_registration.
    fold (conflict_rows t request).
    destruct (t !! enroll_principal_id request) as [row|] eqn:Hl.
    + case_bool_decide as Hreq.
      * destruct (conflict_rows_exact t request row Hok Hl Hreq) as [rest ->].
        simpl. rewrite !bool_decide_eq_true_2 by done. simpl.
        by destruct (principals_status _ Hok _ _ Hl) as [-> | ->].
      * rewrite classify_rows_none; [|intros p row' Hin [-> E]; apply elem_of_take in Hin as (i & Hi & _);
          apply list_elem_of_lookup_2, elem_of_conflict_rows in Hi as [Hl' _]; congruence].
        pose proof (conflict_rows_nonempty t request Hc).
        destruct (take 2 (conflict_rows t request)); [done|]. done.
    + rewrite classify_rows_none; [|intros p row' Hin [-> E]; apply elem_of_take in Hin as (i & Hi & _);
        apply list_elem_of_lookup_2, elem_of_conflict_rows in Hi as [Hl' _]; congruence].
      pose proof (conflict_rows_nonempty t request Hc).
      destruct (take 2 (conflict_rows t request)); [done|]. done.
  - rewrite andb_true_r. destruct (_ && _) eqn:Ecap; [done|]. cbn [Z.eqb]. f_equal.
    unfold classify_principal_registration. fold (conflict_rows t request).
    assert (Hnil : conflict_rows t request = []).
    { apply principal_conflict_false in Hc as [Hnone Hfresh].
      destruct (conflict_rows t request) as [|[p row] rest] eqn:E; [done|].
      assert (Hin : (p, row) ∈ conflict_rows t request) by (rewrite E; left).
      apply elem_of_conflict_rows in Hin as [Hl [-> | Hreq]]; [congruence|by destruct (Hfresh p row)]. }
    rewrite Hnil. simpl. bool_prop.
    replace (_ || _) with true; [done|]. symmetry. lia.
Qed.

(** Revocation is permanent.  Once a principal has been revoked, after any later
    registrations and revocations it is not active and no registration of it succeeds. *)
Theorem revocation_permanent ops p later
    (Hrevoked : (revoke_principal (principal_run ∅ ops) p).1 = Ok true) :
  let t := principal_run (revoke_principal (principal_run ∅ ops) p).2 later in
  is_principal_active t p = Ok false
  ∧ ∀ request, enroll_principal_id request = p → is_ok (register_principal t request).1 = false.
Proof.
  intros t. assert (Hrow : ∃ row, t !! p = Some row ∧ principal_status row = 2).
  { unfold t, revoke_principal in *. destruct (principal_run ∅ ops !! p) as [row|]; [|done].
    destruct (principal_status row =? 1); [|done]. exists (mk_PrincipalRow (principal_request_id row) 2). split; [|done]. cbn [snd].
    apply revoked_row_stays; [apply lookup_insert_eq|done]. }
  destruct Hrow as (row & Hl & Hs). split; [unfold is_principal_active; by rewrite Hl; simpl; rewrite Hs|].
  intros request <-. unfold register_principal. destruct (negb _); [done|].
  unfold insert_principal, principal_conflict. rewrite Hl. simpl. rewrite andb_false_r. simpl.
  unfold classify_principal_registration. fold (conflict_rows t request).
  destruct (classify_rows _ request) as [[o|e]|] eqn:Ec; [|done|].
  - exfalso. apply classify_rows_some in Ec as (q & row' & Hin & -> & Hst).
    apply elem_of_take in Hin as (i & Hi & _).
    apply list_elem_of_lookup_2, elem_of_conflict_rows in Hi as [Hl' _]. simplify_eq.
    by rewrite Hs in Hst.
  - destruct (fail_if _ _); [|done]. simpl. by destruct (_ || _).
Qed.

(** ** Concrete inputs *)

Definition example_enrollment : RelayEnrollmentRequest :=
  RelayEnrollmentRequest_new application_v1 (repeat_id KEnrollmentRequestId x31)
    (repeat_id KRelayPrincipalId x32).

Lemma register_outcome_witness :
  (register_principal (principal_run ∅ [RegisterOp example_enrollment]) example_enrollment).1
  = Ok (RelayEnrollmentResponse_new application_v1 (repeat_id KEnrollmentRequestId x31)
          (repeat_id KRelayPrincipalId x32) AlreadyRegistered).
Proof.
  rewrite (register_outcome [RegisterOp example_enrollment] example_enrollment eq_refl).
  vm_compute. reflexivity.
Defined.

Lemma revocation_permanent_witness :
  (revoke_principal (principal_run ∅ [RegisterOp example_enrollment])
     (repeat_id KRelayPrincipalId x32)).1 = Ok true
  ∧ is_principal_active
      (principal_run (revoke_principal (principal_run ∅ [RegisterOp example_enrollment])
                        (repeat_id KRelayPrincipalId x32)).2 [RegisterOp example_enrollment])
      (repeat_id KRelayPrincipalId x32) = Ok false.
Proof.
  assert (H : (revoke_principal (principal_run ∅ [RegisterOp example_enrollment])
                 (repeat_id KRelayPrincipalId x32)).1 = Ok true) by (vm_compute; reflexivity).
  split; [exact H|].
  exact (proj1 (revocation_permanent [RegisterOp example_enrollment]
                  (repeat_id KRelayPrincipalId x32) [RegisterOp example_enrollment] H)).
Defined.
