(* ===== verification/ShortCode.v ===== *)
(** * Short-code pairing attempts at the relay

    [crates/Konclave.DomainCore/src/short_code_relay.rs],
    [crates/Konclave.RelayCore/src/short_code_pairing.rs] and the short-code half of
    [sqlite.rs]: a creator publishes an attempt under a locator, one claimant claims it,
    the two exchange opaque stages in a fixed order, and the claimant takes the
    capability once both have confirmed.  The three tables are finite maps on their
    primary keys. *)

From S2P Require Import Prelude Identifiers RelayModel Wire RelayStore.
Open Scope Z_scope.

(** ** Requests, stages and snapshots *)

Definition MAX_SHORT_CODE_RELAY_PAYLOAD_BYTES : Z := 9 * 1024.
Definition MAX_SHORT_CODE_RELAY_STAGES : Z := 7.

Inductive ShortCodeRelayStage :=
| CredentialRequest
| CredentialResponse
| ClaimantFinalization
| CreatorIdentity
| CreatorConfirmation
| ClaimantConfirmation
| Capability.
Global Instance ShortCodeRelayStage_eq_dec : EqDecision ShortCodeRelayStage.
Proof. solve_decision. Defined.

(** The discriminant of the enumeration, which is also its derived order. *)
Definition short_code_stage_to_sql (stage : ShortCodeRelayStage) : Z :=
  match stage with
  | CredentialRequest => 1
  | CredentialResponse => 2
  | ClaimantFinalization => 3
  | CreatorIdentity => 4
  | CreatorConfirmation => 5
  | ClaimantConfirmation => 6
  | Capability => 7
  end.

Definition short_code_stage_from_sql (value : Z) : result RelayError ShortCodeRelayStage :=
  match value with
  | 1 => Ok CredentialRequest
  | 2 => Ok CredentialResponse
  | 3 => Ok ClaimantFinalization
  | 4 => Ok CreatorIdentity
  | 5 => Ok CreatorConfirmation
  | 6 => Ok ClaimantConfirmation
  | 7 => Ok Capability
  | _ => Err InvalidStoredData
  end.

Definition validate_payload (payload : bytes) : result KonclaveDomainError unit :=
  fail_if (negb ((1 <=? len payload) && (len payload <=? MAX_SHORT_CODE_RELAY_PAYLOAD_BYTES)))
    (OutOfRange "short_code_pairing_payload" 1 MAX_SHORT_CODE_RELAY_PAYLOAD_BYTES (len payload)).

Record ShortCodeAttemptPublishRequest := mk_ShortCodeAttemptPublishRequest {
  scp_version : ProtocolVersion;
  scp_locator : ShortCodePairingLocator;
  scp_attempt_id : ShortCodePairingAttemptId;
  scp_deadline_unix_seconds : Z }.
Global Instance ShortCodeAttemptPublishRequest_eq_dec : EqDecision ShortCodeAttemptPublishRequest.
Proof. solve_decision. Defined.

(** [ShortCodeAttemptPublishRequest::new]. *)
Definition ShortCodeAttemptPublishRequest_new (version : ProtocolVersion)
    (locator : ShortCodePairingLocator) (attempt_id : ShortCodePairingAttemptId) (deadline : Z)
    : result KonclaveDomainError ShortCodeAttemptPublishRequest :=
  fail_if (deadline =? 0) (ZeroValue "short_code_pairing_deadline");;
  Ok (mk_ShortCodeAttemptPublishRequest version locator attempt_id deadline).

Record ShortCodeAttemptClaimRequest := mk_ShortCodeAttemptClaimRequest {
  scc_version : ProtocolVersion;
  scc_locator : ShortCodePairingLocator;
  scc_payload : bytes }.

(** [ShortCodeAttemptClaimRequest::new]. *)
Definition ShortCodeAttemptClaimRequest_new (version : ProtocolVersion)
    (locator : ShortCodePairingLocator) (payload : bytes)
    : result KonclaveDomainError ShortCodeAttemptClaimRequest :=
  validate_payload payload;;
  Ok (mk_ShortCodeAttemptClaimRequest version locator payload).

Record ShortCodeAttemptMessageRequest := mk_ShortCodeAttemptMessageRequest {
  scm_version : ProtocolVersion;
  scm_attempt_id : ShortCodePairingAttemptId;
  scm_stage : ShortCodeRelayStage;
  scm_payload : bytes }.

(** [ShortCodeAttemptMessageRequest::new]. *)
Definition ShortCodeAttemptMessageRequest_new (version : ProtocolVersion)
    (attempt_id : ShortCodePairingAttemptId) (stage : ShortCodeRelayStage) (payload : bytes)
    : result KonclaveDomainError ShortCodeAttemptMessageRequest :=
  validate_payload payload;;
  Ok (mk_ShortCodeAttemptMessageRequest version attempt_id stage payload).

Record ShortCodeAttemptReadRequest := ShortCodeAttemptReadRequest_new {
  scr_version : ProtocolVersion;
  scr_attempt_id : ShortCodePairingAttemptId }.

Record ShortCodeCapabilityTakeRequest := ShortCodeCapabilityTakeRequest_new {
  sct_version : ProtocolVersion;
  sct_attempt_id : ShortCodePairingAttemptId;
  sct_take_id : ShortCodeCapabilityTakeId }.

Record ShortCodeRelayMessage := mk_ShortCodeRelayMessage {
  relay_message_stage : ShortCodeRelayStage;
  relay_message_payload : bytes }.

(** [ShortCodeRelayMessage::new]. *)
Definition ShortCodeRelayMessage_new (stage : ShortCodeRelayStage) (payload : bytes)
    : result KonclaveDomainError ShortCodeRelayMessage :=
  validate_payload payload;; Ok (mk_ShortCodeRelayMessage stage payload).

Record ShortCodeAttemptSnapshot := mk_ShortCodeAttemptSnapshot {
  snap_version : ProtocolVersion;
  snap_attempt_id : ShortCodePairingAttemptId;
  snap_deadline_unix_seconds : Z;
  snap_cancelled : bool;
  snap_capability_consumed : bool;
  snap_messages : list ShortCodeRelayMessage }.

Definition stage_compare (x y : ShortCodeRelayStage) : comparison :=
  Z.compare (short_code_stage_to_sql x) (short_code_stage_to_sql y).

(** [ShortCodeAttemptSnapshot::new]. *)
Definition ShortCodeAttemptSnapshot_new (version : ProtocolVersion)
    (attempt_id : ShortCodePairingAttemptId) (deadline : Z) (cancelled capability_consumed : bool)
    (messages : list ShortCodeRelayMessage)
    : result KonclaveDomainError ShortCodeAttemptSnapshot :=
  fail_if (deadline =? 0) (ZeroValue "short_code_pairing_deadline");;
  fail_if (MAX_SHORT_CODE_RELAY_STAGES <? len messages)
    (OutOfRange "short_code_pairing_stages" 0 MAX_SHORT_CODE_RELAY_STAGES (len messages));;
  let messages := sort_by relay_message_stage stage_compare messages in
  fail_if (adjacent_any (same_key relay_message_stage) messages)
    (DuplicateIdentifier "short_code_pairing_stage");;
  Ok (mk_ShortCodeAttemptSnapshot version attempt_id deadline cancelled capability_consumed
        messages).

(** [ShortCodeAttemptSnapshot::message]. *)
Definition snapshot_message (snapshot : ShortCodeAttemptSnapshot) (stage : ShortCodeRelayStage)
    : option bytes :=
  relay_message_payload <$>
    head (filter (fun m => relay_message_stage m = stage) (snap_messages snapshot)).

(** ** One attempt in memory

    The [BTreeMap] of stages is a finite map whose order of iteration is [all_stages]. *)

Definition all_stages : list ShortCodeRelayStage :=
  [CredentialRequest; CredentialResponse; ClaimantFinalization; CreatorIdentity;
   CreatorConfirmation; ClaimantConfirmation; Capability].

Global Instance ShortCodeRelayStage_countable : Countable ShortCodeRelayStage.
Proof.
  refine (inj_countable' short_code_stage_to_sql
    (fun n => match short_code_stage_from_sql n with Ok s => s | Err _ => Capability end) _).
  by intros [].
Defined.

Record StoredShortCodeAttempt := mk_StoredShortCodeAttempt {
  sca_owner : RelayPrincipalId;
  sca_claimant : option RelayPrincipalId;
  sca_publish : ShortCodeAttemptPublishRequest;
  sca_messages : gmap ShortCodeRelayStage bytes;
  sca_cancelled : bool;
  sca_capability_take_id : option ShortCodeCapabilityTakeId }.

(** [StoredShortCodeAttempt::new]. *)
Definition StoredShortCodeAttempt_new (owner : RelayPrincipalId)
    (publish : ShortCodeAttemptPublishRequest) : StoredShortCodeAttempt :=
  mk_StoredShortCodeAttempt owner None publish ∅ false None.

Definition sca_message (a : StoredShortCodeAttempt) (stage : ShortCodeRelayStage) : option bytes :=
  sca_messages a !! stage.

Definition capability_consumed (a : StoredShortCodeAttempt) : bool :=
  is_some (sca_capability_take_id a).

Definition set_claim (a : StoredShortCodeAttempt) (claimant : RelayPrincipalId) (payload : bytes)
    : result RelayError StoredShortCodeAttempt :=
  fail_if (is_some (sca_claimant a) || is_some (sca_message a CredentialRequest))
    InvalidStoredData;;
  Ok (mk_StoredShortCodeAttempt (sca_owner a) (Some claimant) (sca_publish a)
        (<[CredentialRequest := payload]> (sca_messages a)) (sca_cancelled a)
        (sca_capability_take_id a)).

Definition insert_message (a : StoredShortCodeAttempt) (stage : ShortCodeRelayStage)
    (payload : bytes) : result RelayError StoredShortCodeAttempt :=
  fail_if (bool_decide (stage = CredentialRequest) || is_some (sca_message a stage))
    InvalidStoredData;;
  Ok (mk_StoredShortCodeAttempt (sca_owner a) (sca_claimant a) (sca_publish a)
        (<[stage := payload]> (sca_messages a)) (sca_cancelled a) (sca_capability_take_id a)).

Definition cancel (a : StoredShortCodeAttempt) : StoredShortCodeAttempt :=
  mk_StoredShortCodeAttempt (sca_owner a) (sca_claimant a) (sca_publish a) (sca_messages a) true
    (sca_capability_take_id a).

Definition consume_capability (a : StoredShortCodeAttempt) (take_id : ShortCodeCapabilityTakeId)
    : StoredShortCodeAttempt :=
  mk_StoredShortCodeAttempt (sca_owner a) (sca_claimant a) (sca_publish a) (sca_messages a)
    (sca_cancelled a) (Some take_id).

(** ** Decisions *)

Definition MAX_ACTIVE_SHORT_CODE_ATTEMPTS : Z := 1000.
Definition MAX_ACTIVE_SHORT_CODE_ATTEMPTS_PER_CREATOR : Z := 8.
Definition MAX_SHORT_CODE_CLAIMS_PER_PRINCIPAL_WINDOW : Z := 10.
Definition MAX_SHORT_CODE_CLAIMS_PER_LOCATOR_WINDOW : Z := 5.
Definition SHORT_CODE_CLAIM_WINDOW_SECONDS : Z := 10 * 60.
Definition SHORT_CODE_ATTEMPT_LIFETIME_SECONDS : Z := 10 * 60.

Inductive ShortCodePublishDecision := ScPublishInsert | ScPublishIdentical.
Inductive ShortCodeClaimDecision := ScClaim | ScClaimIdentical.
Inductive ShortCodeMessageDecision := ScMessageInsert | ScMessageIdentical.
Inductive ShortCodeCapabilityDecision := ScConsume | ScTakeIdentical.
Global Instance ShortCodeClaimDecision_eq_dec : EqDecision ShortCodeClaimDecision.
Proof. solve_decision. Defined.

Definition decide_short_code_publish (principal : RelayPrincipalId)
    (request : ShortCodeAttemptPublishRequest) (existing : option StoredShortCodeAttempt)
    (now active_global_count active_creator_count : Z)
    : result RelayError ShortCodePublishDecision :=
  fail_if (scp_deadline_unix_seconds request <=? now) ExpiredShortCodeAttempt;;
  fail_if (saturating_add U64_MAX now SHORT_CODE_ATTEMPT_LIFETIME_SECONDS
             <? scp_deadline_unix_seconds request) InvalidShortCodeDeadline;;
  match existing with
  | Some existing =>
      if bool_decide (sca_owner existing = principal)
         && bool_decide (sca_publish existing = request)
      then Ok ScPublishIdentical else Err ShortCodeAttemptConflict
  | None =>
      fail_if (MAX_ACTIVE_SHORT_CODE_ATTEMPTS <=? active_global_count)
        ShortCodeGlobalCapacityExceeded;;
      fail_if (MAX_ACTIVE_SHORT_CODE_ATTEMPTS_PER_CREATOR <=? active_creator_count)
        ShortCodeCreatorCapacityExceeded;;
      Ok ScPublishInsert
  end.

(** The part of [decide_short_code_claim] that runs before the rate limits: an error or
    an identical retry ends the decision. *)
Definition claim_before_limits (principal : RelayPrincipalId)
    (request : ShortCodeAttemptClaimRequest) (existing : option StoredShortCodeAttempt)
    : option (result RelayError ShortCodeClaimDecision) :=
  match existing with
  | Some existing =>
      if bool_decide (scp_version (sca_publish existing) ≠ scc_version request)
      then Some (Err ShortCodeAttemptUnavailable)
      else if bool_decide (sca_claimant existing = Some principal)
              && bool_decide (sca_message existing CredentialRequest = Some (scc_payload request))
      then Some (Ok ScClaimIdentical)
      else None
  | None => None
  end.

Definition decide_short_code_claim (principal : RelayPrincipalId)
    (request : ShortCodeAttemptClaimRequest) (existing : option StoredShortCodeAttempt)
    (now principal_window_count locator_window_count : Z)
    : result RelayError ShortCodeClaimDecision :=
  match claim_before_limits principal request existing with
  | Some decision => decision
  | None =>
      fail_if (MAX_SHORT_CODE_CLAIMS_PER_PRINCIPAL_WINDOW <=? principal_window_count)
        ShortCodeClaimRateLimited;;
      fail_if (MAX_SHORT_CODE_CLAIMS_PER_LOCATOR_WINDOW <=? locator_window_count)
        ShortCodeAttemptUnavailable;;
      existing ← ok_or existing ShortCodeAttemptUnavailable;
      fail_if ((scp_deadline_unix_seconds (sca_publish existing) <=? now)
               || sca_cancelled existing
               || capability_consumed existing
               || bool_decide (sca_owner existing = principal)
               || is_some (sca_claimant existing)) ShortCodeAttemptUnavailable;;
      Ok ScClaim
  end.

Definition stage_owner (existing : StoredShortCodeAttempt) (stage : ShortCodeRelayStage)
    : RelayPrincipalId :=
  match stage with
  | CredentialRequest | ClaimantFinalization | ClaimantConfirmation =>
      default (sca_owner existing) (sca_claimant existing)
  | CredentialResponse | CreatorIdentity | CreatorConfirmation | Capability =>
      sca_owner existing
  end.

Definition stage_dependencies_satisfied (existing : StoredShortCodeAttempt)
    (stage : ShortCodeRelayStage) : bool :=
  let has stage := is_some (sca_message existing stage) in
  match stage with
  | CredentialRequest => false
  | CredentialResponse => has CredentialRequest
  | ClaimantFinalization => has CredentialResponse
  | CreatorIdentity => has ClaimantFinalization
  | CreatorConfirmation | ClaimantConfirmation => has CreatorIdentity
  | Capability => has CreatorConfirmation && has ClaimantConfirmation
  end.

Definition decide_short_code_message (principal : RelayPrincipalId)
    (request : ShortCodeAttemptMessageRequest) (existing : StoredShortCodeAttempt) (now : Z)
    : result RelayError ShortCodeMessageDecision :=
  fail_if (bool_decide (scp_version (sca_publish existing) ≠ scm_version request)
           || (scp_deadline_unix_seconds (sca_publish existing) <=? now)
           || sca_cancelled existing) ShortCodeAttemptUnavailable;;
  match sca_message existing (scm_stage request) with
  | Some payload =>
      if bool_decide (payload = scm_payload request)
         && bool_decide (stage_owner existing (scm_stage request) = principal)
      then Ok ScMessageIdentical else Err ShortCodeAttemptConflict
  | None =>
      fail_if (capability_consumed existing) ShortCodeAttemptUnavailable;;
      fail_if (bool_decide (stage_owner existing (scm_stage request) ≠ principal)
               || negb (stage_dependencies_satisfied existing (scm_stage request)))
        InvalidShortCodeStage;;
      Ok ScMessageInsert
  end.

Definition authorize_short_code_read (principal : RelayPrincipalId)
    (request : ShortCodeAttemptReadRequest) (existing : StoredShortCodeAttempt) (now : Z)
    : result RelayError unit :=
  fail_if (bool_decide (scp_version (sca_publish existing) ≠ scr_version request)
           || (scp_deadline_unix_seconds (sca_publish existing) <=? now)
           || sca_cancelled existing
           || (bool_decide (principal ≠ sca_owner existing)
               && bool_decide (Some principal ≠ sca_claimant existing)))
    ShortCodeAttemptUnavailable.

Definition authorize_short_code_cancel (principal : RelayPrincipalId)
    (request : ShortCodeAttemptReadRequest) (existing : StoredShortCodeAttempt)
    : result RelayError unit :=
  if bool_decide (scp_version (sca_publish existing) = scr_version request)
     && (bool_decide (principal = sca_owner existing)
         || bool_decide (Some principal = sca_claimant existing))
  then Ok () else Err ShortCodeAttemptUnavailable.

Definition decide_short_code_capability_take (principal : RelayPrincipalId)
    (request : ShortCodeCapabilityTakeRequest) (existing : StoredShortCodeAttempt) (now : Z)
    : result RelayError ShortCodeCapabilityDecision :=
  fail_if (bool_decide (scp_version (sca_publish existing) ≠ sct_version request)
           || (scp_deadline_unix_seconds (sca_publish existing) <=? now)
           || sca_cancelled existing
           || bool_decide (Some principal ≠ sca_claimant existing)
           || is_none (sca_message existing CreatorConfirmation)
           || is_none (sca_message existing ClaimantConfirmation)
           || is_none (sca_message existing Capability)) ShortCodeAttemptUnavailable;;
  match sca_capability_take_id existing with
  | None => Ok ScConsume
  | Some take_id =>
      if bool_decide (take_id = sct_take_id request) then Ok ScTakeIdentical
      else Err ShortCodeAttemptUnavailable
  end.

(** ** The tables

    Blob columns are typed by the length their check imposes, so the two spellings of
    [capability_take_id] that [load_short_code_attempt] also rejects (text of sixteen
    characters, a blob of another length) do not arise. *)

Record AttemptRow := mk_AttemptRow {
  arow_attempt_id : ShortCodePairingAttemptId;
  arow_owner : RelayPrincipalId;
  arow_claimant : option RelayPrincipalId;
  arow_version_major : Z;
  arow_version_minor : Z;
  arow_deadline : Z;
  arow_cancelled : Z;
  arow_capability_consumed : Z;
  arow_capability_take_id : option ShortCodeCapabilityTakeId }.

Record ShortCodeDb := mk_ShortCodeDb {
  short_code_attempt : gmap ShortCodePairingLocator AttemptRow;
  short_code_message : gmap (ShortCodePairingAttemptId * Z) bytes;
  short_code_claim_rate : gmap (ShortCodePairingLocator * RelayPrincipalId * Z) Z }.

Definition empty_short_code_db : ShortCodeDb := mk_ShortCodeDb ∅ ∅ ∅.

Definition sql_bool (value : Z) : result RelayError bool :=
  match value with 0 => Ok false | 1 => Ok true | _ => Err InvalidStoredData end.

Definition short_code_claim_window (now : Z) : result RelayError Z :=
  to_sql_integer (now - now mod SHORT_CODE_CLAIM_WINDOW_SECONDS).

(** Deleting an attempt deletes its messages ([ON DELETE CASCADE]). *)
Definition cleanup_short_code_state (db : ShortCodeDb) (now : Z) : result RelayError ShortCodeDb :=
  deadline ← to_sql_integer now;
  window ← short_code_claim_window now;
  let expired : gmap ShortCodePairingLocator AttemptRow :=
    filter (fun kv => arow_deadline kv.2 <= deadline) (short_code_attempt db) in
  let deleted := (fun kv => arow_attempt_id kv.2) <$> map_to_list expired in
  Ok (mk_ShortCodeDb
        (filter (fun kv => ¬ arow_deadline kv.2 <= deadline) (short_code_attempt db))
        (filter (fun kv => kv.1.1 ∉ deleted) (short_code_message db))
        (filter (fun kv => ¬ kv.1.2 < window) (short_code_claim_rate db))).

Definition active_short_code_counts (db : ShortCodeDb) (principal : RelayPrincipalId) (now : Z)
    : result RelayError (Z * Z) :=
  now ← to_sql_integer now;
  let active : gmap ShortCodePairingLocator AttemptRow :=
    filter (fun kv => now < arow_deadline kv.2 ∧ arow_cancelled kv.2 = 0)
      (short_code_attempt db) in
  Ok (Z.of_nat (size active),
      Z.of_nat (size (filter (fun kv => arow_owner kv.2 = principal) active))).

(** [sum(attempts) FILTER (WHERE ..)] over the rows of one window. *)
Definition sum_attempts
    (rows : gmap (ShortCodePairingLocator * RelayPrincipalId * Z) Z) : Z :=
  map_fold (fun _ attempts total => attempts + total) 0 rows.

Definition principal_attempts (db : ShortCodeDb) (principal : RelayPrincipalId) (window : Z) : Z :=
  sum_attempts (filter (fun kv => kv.1.2 = window ∧ kv.1.1.2 = principal)
                  (short_code_claim_rate db)).

Definition locator_attempts (db : ShortCodeDb) (locator : ShortCodePairingLocator) (window : Z)
    : Z :=
  sum_attempts (filter (fun kv => kv.1.2 = window ∧ kv.1.1.1 = locator)
                  (short_code_claim_rate db)).

Definition to_usize (value : Z) : result RelayError Z :=
  if 0 <=? value then Ok value else Err InvalidStoredData.

Definition short_code_claim_counts (db : ShortCodeDb) (principal : RelayPrincipalId)
    (locator : ShortCodePairingLocator) (now : Z) : result RelayError (Z * Z) :=
  window ← short_code_claim_window now;
  by_principal ← to_usize (principal_attempts db principal window);
  by_locator ← to_usize (locator_attempts db locator window);
  Ok (by_principal, by_locator).

(** The upsert, with the checks of [relay_short_code_claim_rate]. *)
Definition record_short_code_claim (db : ShortCodeDb) (principal : RelayPrincipalId)
    (locator : ShortCodePairingLocator) (now : Z) : result RelayError ShortCodeDb :=
  window ← short_code_claim_window now;
  let key := (locator, principal, window) in
  let attempts := match short_code_claim_rate db !! key with
                  | None => 1 | Some attempts => attempts + 1 end in
  fail_if (negb ((0 <=? window) && (1 <=? attempts) && (attempts <=? 5)))
    (storage_failure "short-code claim rate update");;
  Ok (mk_ShortCodeDb (short_code_attempt db) (short_code_message db)
        (<[key := attempts]> (short_code_claim_rate db))).

Definition attempt_id_used (db : ShortCodeDb) (id : ShortCodePairingAttemptId) : bool :=
  bool_decide (map_Exists (fun _ row => arow_attempt_id row = id) (short_code_attempt db)).

(** The checks of [relay_short_code_attempt]. *)
Definition attempt_row_checks (row : AttemptRow) : bool :=
  (1 <=? arow_version_major row) && (arow_version_major row <=? U32_MAX)
  && (0 <=? arow_version_minor row) && (arow_version_minor row <=? U32_MAX)
  && (1 <=? arow_deadline row)
  && ((arow_cancelled row =? 0) || (arow_cancelled row =? 1))
  && ((arow_capability_consumed row =? 0) || (arow_capability_consumed row =? 1)).

Definition set_attempts (db : ShortCodeDb) (t : gmap ShortCodePairingLocator AttemptRow)
    : ShortCodeDb :=
  mk_ShortCodeDb t (short_code_message db) (short_code_claim_rate db).

Definition insert_short_code_attempt (db : ShortCodeDb) (principal : RelayPrincipalId)
    (request : ShortCodeAttemptPublishRequest) : result RelayError ShortCodeDb :=
  deadline ← to_sql_integer (scp_deadline_unix_seconds request);
  let row := mk_AttemptRow (scp_attempt_id request) principal None (major (scp_version request))
               (minor (scp_version request)) deadline 0 0 None in
  fail_if (negb (attempt_row_checks row
                 && is_none (short_code_attempt db !! scp_locator request)
                 && negb (attempt_id_used db (scp_attempt_id request))))
    (storage_failure "short-code attempt insert");;
  Ok (set_attempts db (<[scp_locator request := row]> (short_code_attempt db))).

(** Insertion into [relay_short_code_message] with its key, foreign key and checks. *)
Definition insert_message_row (db : ShortCodeDb) (id : ShortCodePairingAttemptId) (stage : Z)
    (payload : bytes) (operation : string) : result RelayError ShortCodeDb :=
  fail_if (negb ((1 <=? stage) && (stage <=? 7)
                 && (1 <=? len payload) && (len payload <=? 9216)
                 && is_none (short_code_message db !! (id, stage))
                 && attempt_id_used db id))
    (storage_failure operation);;
  Ok (mk_ShortCodeDb (short_code_attempt db) (<[(id, stage) := payload]> (short_code_message db))
        (short_code_claim_rate db)).

(** [UPDATE relay_short_code_attempt SET .. WHERE ..] with the number of rows affected. *)
Definition update_attempts (db : ShortCodeDb) (P : AttemptRow -> bool)
    (f : AttemptRow -> AttemptRow) : Z * ShortCodeDb :=
  (Z.of_nat (size (filter (fun kv => P kv.2 = true) (short_code_attempt db))),
   set_attempts db ((fun row => if P row then f row else row) <$> short_code_attempt db)).

Definition with_claimant (claimant : RelayPrincipalId) (row : AttemptRow) : AttemptRow :=
  mk_AttemptRow (arow_attempt_id row) (arow_owner row) (Some claimant) (arow_version_major row)
    (arow_version_minor row) (arow_deadline row) (arow_cancelled row)
    (arow_capability_consumed row) (arow_capability_take_id row).

Definition with_cancelled (row : AttemptRow) : AttemptRow :=
  mk_AttemptRow (arow_attempt_id row) (arow_owner row) (arow_claimant row)
    (arow_version_major row) (arow_version_minor row) (arow_deadline row) 1
    (arow_capability_consumed row) (arow_capability_take_id row).

Definition with_consumed (take_id : ShortCodeCapabilityTakeId) (row : AttemptRow) : AttemptRow :=
  mk_AttemptRow (arow_attempt_id row) (arow_owner row) (arow_claimant row)
    (arow_version_major row) (arow_version_minor row) (arow_deadline row) (arow_cancelled row)
    1 (Some take_id).

Definition update_short_code_claim (db : ShortCodeDb) (attempt_id : ShortCodePairingAttemptId)
    (claimant : RelayPrincipalId) (payload : bytes) : result RelayError ShortCodeDb :=
  let '(updated, db) :=
    update_attempts db
      (fun row => bool_decide (arow_attempt_id row = attempt_id) && is_none (arow_claimant row))
      (with_claimant claimant) in
  fail_if (negb (updated =? 1)) (storage_failure "short-code claimant outcome");;
  insert_message_row db attempt_id (short_code_stage_to_sql CredentialRequest) payload
    "short-code credential request insert".

Definition insert_short_code_message (db : ShortCodeDb) (request : ShortCodeAttemptMessageRequest)
    : result RelayError ShortCodeDb :=
  insert_message_row db (scm_attempt_id request) (short_code_stage_to_sql (scm_stage request))
    (scm_payload request) "short-code message insert".

(** ** Loading an attempt *)

(** [WHERE (?1 IS NOT NULL AND locator = ?1) OR (?2 IS NOT NULL AND attempt_id = ?2)]. *)
Definition attempt_matches (locator : option ShortCodePairingLocator)
    (attempt_id : option ShortCodePairingAttemptId)
    (kv : ShortCodePairingLocator * AttemptRow) : bool :=
  is_some_and locator (fun l => bool_decide (kv.1 = l))
  || is_some_and attempt_id (fun id => bool_decide (arow_attempt_id kv.2 = id)).

Definition select_attempts (db : ShortCodeDb) (locator : option ShortCodePairingLocator)
    (attempt_id : option ShortCodePairingAttemptId)
    : list (ShortCodePairingLocator * AttemptRow) :=
  take 2 (map_to_list
    (filter (fun kv => attempt_matches locator attempt_id kv = true) (short_code_attempt db))).

(** [SELECT stage, payload .. WHERE attempt_id = ?1 ORDER BY stage]. *)
Definition select_messages (db : ShortCodeDb) (id : ShortCodePairingAttemptId)
    : list (Z * bytes) :=
  sort_by fst Z.compare
    ((fun kv => (kv.1.2, kv.2)) <$>
       map_to_list (filter (fun kv => kv.1.1 = id) (short_code_message db))).

Fixpoint load_messages (rows : list (Z * bytes)) (claimant : option RelayPrincipalId)
    (stored : StoredShortCodeAttempt) : result RelayError StoredShortCodeAttempt :=
  match rows with
  | [] => Ok stored
  | (stage, payload) :: rows =>
      stage ← short_code_stage_from_sql stage;
      map_err (fun _ => InvalidStoredData) (ShortCodeRelayMessage_new stage payload);;
      stored ← (if bool_decide (stage = CredentialRequest)
                then claimant ← ok_or claimant InvalidStoredData;
                     set_claim stored claimant payload
                else insert_message stored stage payload);
      load_messages rows claimant stored
  end.

Definition load_attempt_row (db : ShortCodeDb) (locator : ShortCodePairingLocator)
    (row : AttemptRow) : result RelayError StoredShortCodeAttempt :=
  version_major ← from_sql_u32 (arow_version_major row);
  version_minor ← from_sql_u32 (arow_version_minor row);
  version ← map_err RelayDomain (ProtocolVersion_new version_major version_minor);
  deadline ← from_sql_integer (arow_deadline row);
  publish ← map_err RelayDomain
              (ShortCodeAttemptPublishRequest_new version locator (arow_attempt_id row) deadline);
  cancelled ← sql_bool (arow_cancelled row);
  consumed ← sql_bool (arow_capability_consumed row);
  fail_if (negb (Bool.eqb consumed (is_some (arow_capability_take_id row)))) InvalidStoredData;;
  stored ← load_messages (select_messages db (arow_attempt_id row)) (arow_claimant row)
             (StoredShortCodeAttempt_new (arow_owner row) publish);
  fail_if (negb (Bool.eqb (is_some (arow_claimant row))
                   (is_some (sca_message stored CredentialRequest)))) InvalidStoredData;;
  let stored := if cancelled : bool then cancel stored else stored in
  Ok (match arow_capability_take_id row with
      | Some take_id => consume_capability stored take_id
      | None => stored
      end).

Definition load_short_code_attempt (db : ShortCodeDb) (locator : option ShortCodePairingLocator)
    (attempt_id : option ShortCodePairingAttemptId)
    : result RelayError (option StoredShortCodeAttempt) :=
  let rows := select_attempts db locator attempt_id in
  fail_if (1 <? len rows) ShortCodeAttemptConflict;;
  match rows with
  | [] => Ok None
  | (locator, row) :: _ => Some <$> load_attempt_row db locator row
  end.

(** [BTreeMap::iter]. *)
Definition stages_of (a : StoredShortCodeAttempt) : list (ShortCodeRelayStage * bytes) :=
  omap (fun stage => pair stage <$> sca_message a stage) all_stages.

Definition short_code_snapshot (stored : StoredShortCodeAttempt)
    : result RelayError ShortCodeAttemptSnapshot :=
  messages ← map_err RelayDomain (traverse (fun sp => ShortCodeRelayMessage_new sp.1 sp.2)
               (filter (fun sp => sp.1 ≠ Capability) (stages_of stored)));
  map_err RelayDomain (ShortCodeAttemptSnapshot_new (scp_version (sca_publish stored))
    (scp_attempt_id (sca_publish stored)) (scp_deadline_unix_seconds (sca_publish stored))
    (sca_cancelled stored) (capability_consumed stored) messages).

(** ** Operations of [ShortCodePairingRepository] *)

Inductive ShortCodeAttemptPublishOutcome := AttemptPublished | AttemptAlreadyPublished.
Inductive ShortCodeAttemptMessageOutcome := MessagePublished | MessageAlreadyPublished.

Definition publish_short_code_attempt (db : ShortCodeDb) (principal : RelayPrincipalId)
    (request : ShortCodeAttemptPublishRequest) (now : Z)
    : result RelayError ShortCodeAttemptPublishOutcome * ShortCodeDb :=
  transact db (
    fail_if (scp_deadline_unix_seconds request <=? now) ExpiredShortCodeAttempt;;
    db1 ← cleanup_short_code_state db now;
    existing ← load_short_code_attempt db1 (Some (scp_locator request))
                 (Some (scp_attempt_id request));
    '(active_global, active_creator) ← active_short_code_counts db1 principal now;
    decision ← decide_short_code_publish principal request existing now active_global
                 active_creator;
    match decision with
    | ScPublishIdentical => Ok (AttemptAlreadyPublished, db1)
    | ScPublishInsert =>
        db2 ← insert_short_code_attempt db1 principal request; Ok (AttemptPublished, db2)
    end).

(** What a claim reads before it decides. *)
Definition claim_inputs (db : ShortCodeDb) (principal : RelayPrincipalId)
    (request : ShortCodeAttemptClaimRequest) (now : Z)
    : result RelayError (ShortCodeDb * option StoredShortCodeAttempt * (Z * Z)) :=
  db1 ← cleanup_short_code_state db now;
  existing ← load_short_code_attempt db1 (Some (scc_locator request)) None;
  counts ← short_code_claim_counts db1 principal (scc_locator request) now;
  Ok (db1, existing, counts).

(** What an accepted claim writes and returns. *)
Definition accept_claim (db1 : ShortCodeDb) (principal : RelayPrincipalId)
    (request : ShortCodeAttemptClaimRequest) (now : Z) (decision : ShortCodeClaimDecision)
    (existing : option StoredShortCodeAttempt)
    : result RelayError (ShortCodeAttemptSnapshot * ShortCodeDb) :=
  db2 ← match decision with
        | ScClaimIdentical => Ok db1
        | ScClaim =>
            recorded ← record_short_code_claim db1 principal (scc_locator request) now;
            attempt ← ok_or existing ShortCodeAttemptUnavailable;
            update_short_code_claim recorded (scp_attempt_id (sca_publish attempt)) principal
              (scc_payload request)
        end;
  attempt ← ok_or existing ShortCodeAttemptUnavailable;
  stored ← load_short_code_attempt db2 None (Some (scp_attempt_id (sca_publish attempt)));
  stored ← ok_or stored InvalidStoredData;
  snapshot ← short_code_snapshot stored;
  Ok (snapshot, db2).

(** A refused claim counts against the limits when they still allow it: that row is
    committed although the caller gets the error. *)
Definition claim_short_code_attempt (db : ShortCodeDb) (principal : RelayPrincipalId)
    (request : ShortCodeAttemptClaimRequest) (now : Z)
    : result RelayError ShortCodeAttemptSnapshot * ShortCodeDb :=
  match claim_inputs db principal request now with
  | Err error => (Err error, db)
  | Ok (db1, existing, (by_principal, by_locator)) =>
      match decide_short_code_claim principal request existing now by_principal by_locator with
      | Ok decision => transact db (accept_claim db1 principal request now decision existing)
      | Err error =>
          if bool_decide (error = ShortCodeAttemptUnavailable)
             && (by_principal <? MAX_SHORT_CODE_CLAIMS_PER_PRINCIPAL_WINDOW)
             && (by_locator <? MAX_SHORT_CODE_CLAIMS_PER_LOCATOR_WINDOW)
          then match record_short_code_claim db1 principal (scc_locator request) now with
               | Ok db2 => (Err error, db2)
               | Err failure => (Err failure, db)
               end
          else (Err error, db)
      end
  end.

Definition publish_short_code_message (db : ShortCodeDb) (principal : RelayPrincipalId)
    (request : ShortCodeAttemptMessageRequest) (now : Z)
    : result RelayError ShortCodeAttemptMessageOutcome * ShortCodeDb :=
  transact db (
    db1 ← cleanup_short_code_state db now;
    existing ← load_short_code_attempt db1 None (Some (scm_attempt_id request));
    existing ← ok_or existing ShortCodeAttemptUnavailable;
    decision ← decide_short_code_message principal request existing now;
    match decision with
    | ScMessageIdentical => Ok (MessageAlreadyPublished, db1)
    | ScMessageInsert =>
        db2 ← insert_short_code_message db1 request; Ok (MessagePublished, db2)
    end).

Definition read_short_code_attempt (db : ShortCodeDb) (principal : RelayPrincipalId)
    (request : ShortCodeAttemptReadRequest) (now : Z)
    : result RelayError ShortCodeAttemptSnapshot * ShortCodeDb :=
  transact db (
    db1 ← cleanup_short_code_state db now;
    stored ← load_short_code_attempt db1 None (Some (scr_attempt_id request));
    stored ← ok_or stored ShortCodeAttemptUnavailable;
    authorize_short_code_read principal request stored now;;
    snapshot ← short_code_snapshot stored;
    Ok (snapshot, db1)).

Definition cancel_short_code_attempt (db : ShortCodeDb) (principal : RelayPrincipalId)
    (request : ShortCodeAttemptReadRequest) (now : Z) : result RelayError unit * ShortCodeDb :=
  transact db (
    db1 ← cleanup_short_code_state db now;
    stored ← load_short_code_attempt db1 None (Some (scr_attempt_id request));
    stored ← ok_or stored ShortCodeAttemptUnavailable;
    authorize_short_code_cancel principal request stored;;
    Ok (tt, (update_attempts db1
               (fun row => bool_decide (arow_attempt_id row = scr_attempt_id request))
               with_cancelled).2)).

Definition take_short_code_capability (db : ShortCodeDb) (principal : RelayPrincipalId)
    (request : ShortCodeCapabilityTakeRequest) (now : Z) : result RelayError bytes * ShortCodeDb :=
  transact db (
    db1 ← cleanup_short_code_state db now;
    stored ← load_short_code_attempt db1 None (Some (sct_attempt_id request));
    stored ← ok_or stored ShortCodeAttemptUnavailable;
    decision ← decide_short_code_capability_take principal request stored now;
    payload ← ok_or (sca_message stored Capability) InvalidStoredData;
    match decision with
    | ScTakeIdentical => Ok (payload, db1)
    | ScConsume =>
        let '(updated, db2) :=
          update_attempts db1
            (fun row => bool_decide (arow_attempt_id row = sct_attempt_id request)
                        && (arow_capability_consumed row =? 0)
                        && is_none (arow_capability_take_id row))
            (with_consumed (sct_take_id request)) in
        fail_if (negb (updated =? 1)) (storage_failure "short-code capability outcome");;
        Ok (payload, db2)
    end).
