(* ===== verification/ShortCodeProofs.v ===== *)
(** * Correctness of the short-code relay

    The invariant of the three tables, what loading an attempt gives, and the
    refinement of the SQL operations by an abstract handshake. *)

From S2P Require Import Prelude Identifiers RelayModel Wire RelayStore ShortCode.
Open Scope Z_scope.

(** ** The table invariant *)

(** The payload stored for a stage. *)
Definition stage_payload (db : ShortCodeDb) (id : ShortCodePairingAttemptId)
    (stage : ShortCodeRelayStage) : option bytes :=
  short_code_message db !! (id, short_code_stage_to_sql stage).

(** The stages that must be stored before a stage. *)
Definition prerequisites (stage : ShortCodeRelayStage) : list ShortCodeRelayStage :=
  match stage with
  | CredentialRequest => []
  | CredentialResponse => [CredentialRequest]
  | ClaimantFinalization => [CredentialResponse]
  | CreatorIdentity => [ClaimantFinalization]
  | CreatorConfirmation | ClaimantConfirmation => [CreatorIdentity]
  | Capability => [CreatorConfirmation; ClaimantConfirmation]
  end.

Record attempt_ok (db : ShortCodeDb) (row : AttemptRow) : Prop := {
  at_checks : attempt_row_checks row = true;
  at_consumed : arow_capability_consumed row = (if is_some (arow_capability_take_id row)
                                                then 1 else 0);
  at_claimed : is_Some (arow_claimant row)
               ↔ is_Some (stage_payload db (arow_attempt_id row) CredentialRequest);
  at_distinct : arow_claimant row ≠ Some (arow_owner row);
  at_ordered : ∀ s s', is_Some (stage_payload db (arow_attempt_id row) s) →
    s' ∈ prerequisites s → is_Some (stage_payload db (arow_attempt_id row) s');
  at_taken : is_Some (arow_capability_take_id row) →
    is_Some (stage_payload db (arow_attempt_id row) Capability) }.

Definition active_row (row : AttemptRow) : Prop := arow_cancelled row = 0.
Global Instance active_row_dec row : Decision (active_row row) := decide (arow_cancelled row = 0).

Record short_code_ok (db : ShortCodeDb) : Prop := {
  sc_rows : ∀ l row, short_code_attempt db !! l = Some row → attempt_ok db row;
  sc_unique : ∀ l l' row row',
    short_code_attempt db !! l = Some row → short_code_attempt db !! l' = Some row' →
    arow_attempt_id row = arow_attempt_id row' → l = l';
  sc_messages : ∀ id n payload, short_code_message db !! (id, n) = Some payload →
    1 <= n <= 7 ∧ 1 <= len payload <= MAX_SHORT_CODE_RELAY_PAYLOAD_BYTES
    ∧ ∃ l row, short_code_attempt db !! l = Some row ∧ arow_attempt_id row = id;
  sc_rates : ∀ l p w n, short_code_claim_rate db !! (l, p, w) = Some n → 1 <= n;
  sc_global : Z.of_nat (size (filter (fun kv => active_row kv.2) (short_code_attempt db)))
              <= MAX_ACTIVE_SHORT_CODE_ATTEMPTS;
  sc_creator : ∀ p,
    Z.of_nat (size (filter (fun kv => arow_owner kv.2 = p)
                      (filter (fun kv => active_row kv.2) (short_code_attempt db))))
    <= MAX_ACTIVE_SHORT_CODE_ATTEMPTS_PER_CREATOR;
  sc_by_principal : ∀ p w,
    principal_attempts db p w <= MAX_SHORT_CODE_CLAIMS_PER_PRINCIPAL_WINDOW;
  sc_by_locator : ∀ l w, locator_attempts db l w <= MAX_SHORT_CODE_CLAIMS_PER_LOCATOR_WINDOW }.

Lemma stage_sql_roundtrip s : short_code_stage_from_sql (short_code_stage_to_sql s) = Ok s.
Proof. by destruct s. Qed.

Lemma stage_sql_range n :
  1 <= n <= 7 → ∃ s, n = short_code_stage_to_sql s.
Proof.
  intros Hn. destruct (short_code_stage_from_sql n) as [s|] eqn:E.
  - exists s. unfold short_code_stage_from_sql in E. repeat case_match; simplify_eq; done.
  - exfalso. assert (n = 1 ∨ n = 2 ∨ n = 3 ∨ n = 4 ∨ n = 5 ∨ n = 6 ∨ n = 7) by lia.
    naive_solver.
Qed.

Global Instance stage_to_sql_inj : Inj (=) (=) short_code_stage_to_sql.
Proof. intros s s' H. destruct s, s'; done. Qed.

Lemma elem_of_all_stages s : s ∈ all_stages.
Proof. destruct s; set_solver. Qed.

(** ** Loading *)

(** The stages stored for an attempt, in order. *)
Definition stage_list (db : ShortCodeDb) (id : ShortCodePairingAttemptId)
    : list (ShortCodeRelayStage * bytes) :=
  omap (fun stage => pair stage <$> stage_payload db id stage) all_stages.

(** The attempt a row stands for. *)
Definition stored_of (db : ShortCodeDb) (l : ShortCodePairingLocator) (row : AttemptRow)
    : StoredShortCodeAttempt :=
  mk_StoredShortCodeAttempt (arow_owner row) (arow_claimant row)
    (mk_ShortCodeAttemptPublishRequest
       (mk_ProtocolVersion (arow_version_major row) (arow_version_minor row)) l
       (arow_attempt_id row) (arow_deadline row))
    (list_to_map (stage_list db (arow_attempt_id row)))
    (bool_decide (arow_cancelled row = 1)) (arow_capability_take_id row).

Lemma elem_of_stage_list db id s p : (s, p) ∈ stage_list db id ↔ stage_payload db id s = Some p.
Proof.
  unfold stage_list. rewrite list_elem_of_omap. split.
  - intros (s' & _ & Hp). destruct (stage_payload db id s') eqn:E; simplify_option_eq. done.
  - intros Hp. exists s. rewrite Hp. split; [apply elem_of_all_stages|done].
Qed.

(** [omap] keeps the order of the stages. *)
Lemma stage_list_stages db id :
  (stage_list db id).*1 = filter (fun s => is_Some (stage_payload db id s)) all_stages.
Proof.
  unfold stage_list. induction all_stages as [|s l IH]; [done|]. rewrite filter_cons. csimpl.
  destruct (stage_payload db id s); csimpl; by rewrite IH.
Qed.

Lemma stage_list_NoDup db id : NoDup (stage_list db id).*1.
Proof.
  rewrite stage_list_stages. apply NoDup_filter. by apply (bool_decide_unpack (NoDup all_stages)).
Qed.

Lemma stored_of_message db l row s :
  sca_message (stored_of db l row) s = stage_payload db (arow_attempt_id row) s.
Proof.
  unfold sca_message, stored_of. simpl.
  destruct (stage_payload db (arow_attempt_id row) s) as [p|] eqn:E.
  - apply elem_of_list_to_map_1; [apply stage_list_NoDup|]. by apply elem_of_stage_list.
  - apply not_elem_of_list_to_map_1. rewrite list_elem_of_fmap. intros ([s' p] & -> & Hin).
    apply elem_of_stage_list in Hin. simpl in E. congruence.
Qed.

Definition sql_message (sp : ShortCodeRelayStage * bytes) : Z * bytes :=
  (short_code_stage_to_sql sp.1, sp.2).

Lemma all_stages_sorted (P : ShortCodeRelayStage → Prop) `{∀ s, Decision (P s)} :
  StronglySorted (key_lt id stage_compare) (filter P all_stages).
Proof.
  assert (StronglySorted (key_lt id stage_compare) all_stages) as Hs
    by (repeat constructor).
  induction Hs as [|s l Hl IH Hs]; [constructor|]. rewrite filter_cons.
  destruct (decide (P s)); [|done]. constructor; [done|].
  apply Forall_forall. intros s' [_ Hin]%list_elem_of_filter. rewrite Forall_forall in Hs. by apply Hs.
Qed.

Lemma stage_list_sorted db id :
  StronglySorted (key_lt fst Z.compare) (sql_message <$> stage_list db id).
Proof.
  pose proof (all_stages_sorted (fun s => is_Some (stage_payload db id s))) as Hs.
  rewrite <- stage_list_stages in Hs. induction (stage_list db id) as [|[s p] l IH]; [constructor|].
  rewrite fmap_cons in *. inversion Hs as [|?? Hl Hx]; subst. constructor; [by apply IH|].
  apply Forall_fmap, Forall_forall. intros [s' p'] Hin. rewrite Forall_forall in Hx.
  apply (Hx s'). apply list_elem_of_fmap. by exists (s', p').
Qed.

(** The query for the messages of an attempt returns its stages in order. *)
Lemma select_messages_ok db id :
  short_code_ok db → select_messages db id = sql_message <$> stage_list db id.
Proof.
  intros Hok. unfold select_messages. rewrite (sort_by_perm_eq _ _ _ (sql_message <$> stage_list db id)).
  - apply (sort_by_id fst Z.compare), stage_list_sorted.
  - rewrite <- list_fmap_compose. apply NoDup_fmap_2_strong; [|apply NoDup_map_to_list].
    intros [[i n] p] [[i' n'] p'] H1%elem_of_map_to_list H2%elem_of_map_to_list. simpl. intros ->.
    apply map_lookup_filter_Some in H1 as [H1 Hi], H2 as [H2 Hi']. simpl in *. subst.
    congruence.
  - apply NoDup_Permutation.
    + apply NoDup_fmap_2_strong; [|apply NoDup_map_to_list].
      intros [[i n] p] [[i' n'] p'] H1%elem_of_map_to_list H2%elem_of_map_to_list. simpl.
      intros [= -> ->].
      apply map_lookup_filter_Some in H1 as [H1 Hi], H2 as [H2 Hi']. simpl in *. congruence.
    + eapply NoDup_fmap_1, (strictly_sorted_NoDup fst Z.compare), stage_list_sorted.
    + intros [n p]. rewrite !list_elem_of_fmap. split.
      * intros ([[i n'] p'] & [= -> ->] & Hin). apply elem_of_map_to_list in Hin.
        apply map_lookup_filter_Some in Hin as [Hin Hi]. simpl in Hi. subst i.
        destruct (sc_messages _ Hok _ _ _ Hin) as (Hrange & _).
        destruct (stage_sql_range n' Hrange) as [s ->]. exists (s, p').
        split; [done|]. by apply elem_of_stage_list.
      * intros ([s p'] & [= -> ->] & Hin). apply elem_of_stage_list in Hin.
        exists ((id, short_code_stage_to_sql s), p'). split; [done|].
        apply elem_of_map_to_list, map_lookup_filter_Some. done.
Qed.

(** Reading the stages one by one builds the map of all of them. *)
Lemma load_messages_spec ms claimant stored :
  NoDup ms.*1 →
  (∀ s p, (s, p) ∈ ms → 1 <= len p <= MAX_SHORT_CODE_RELAY_PAYLOAD_BYTES
                        ∧ sca_message stored s = None) →
  (CredentialRequest ∈ ms.*1 → is_Some claimant ∧ sca_claimant stored = None) →
  load_messages (sql_message <$> ms) claimant stored
  = Ok (mk_StoredShortCodeAttempt (sca_owner stored)
          (if decide (CredentialRequest ∈ ms.*1) then claimant else sca_claimant stored)
          (sca_publish stored) (list_to_map ms ∪ sca_messages stored) (sca_cancelled stored)
          (sca_capability_take_id stored)).
Proof.
  revert stored. induction ms as [|[s p] ms IH]; intros stored Hnd Hms Hclaim.
  { destruct stored. simpl. f_equal. f_equal. by rewrite (left_id_L ∅ (∪)). }
  rewrite !fmap_cons in *. apply NoDup_cons in Hnd as [Hnin Hnd]. simpl in Hnin.
  destruct (Hms s p) as [Hlen Hnone]; [left|].
  cbn [load_messages sql_message fst snd]. rewrite stage_sql_roundtrip. cbn [mbind result_bind].
  unfold ShortCodeRelayMessage_new, validate_payload. pass_guard by (bool_prop; lia).
  assert (∀ messages : gmap ShortCodeRelayStage bytes,
    list_to_map ms ∪ <[s:=p]> messages = list_to_map ((s, p) :: ms) ∪ messages) as Hunion.
  { intros messages. simpl. rewrite <- insert_union_r; [by rewrite insert_union_l|].
    by apply not_elem_of_list_to_map_1. }
  assert (∀ s' p', (s', p') ∈ ms → s' ≠ s) as Hne.
  { intros s' p' Hin ->. apply Hnin, list_elem_of_fmap. by exists (s, p'). }
  case_bool_decide as Hs.
  - subst s. destruct Hclaim as [[c ->] Hc]; [left|]. cbn [ok_or mbind result_bind].
    unfold set_claim. rewrite Hc, Hnone. cbn [is_some orb fail_if mbind result_bind].
    rewrite IH; [|done| |done].
    + simpl. rewrite Hunion. by rewrite decide_False by done.
    + intros s' p' Hin. destruct (Hms s' p') as [? Hn]; [by right|]. split; [done|].
      unfold sca_message in *. simpl. rewrite lookup_insert_ne by (symmetry; by eapply Hne). done.
  - unfold insert_message. rewrite Hnone, bool_decide_eq_false_2 by done.
    cbn [is_some orb fail_if mbind result_bind]. rewrite IH; [|done| |].
    + simpl. rewrite Hunion. f_equal. f_equal. apply decide_ext. set_solver.
    + intros s' p' Hin. destruct (Hms s' p') as [? Hn]; [by right|]. split; [done|].
      unfold sca_message in *. simpl. rewrite lookup_insert_ne by (symmetry; by eapply Hne). done.
    + intros Hin. apply Hclaim. by right.
Qed.

Lemma attempt_checks_ok db row :
  attempt_ok db row →
  1 <= arow_version_major row <= U32_MAX ∧ 0 <= arow_version_minor row <= U32_MAX
  ∧ 1 <= arow_deadline row ∧ (arow_cancelled row = 0 ∨ arow_cancelled row = 1).
Proof.
  intros [Hc _ _ _ _ _]. unfold attempt_row_checks in Hc. bool_prop. destruct_and!. lia.
Qed.

(** A row of a well-formed database loads to the attempt it stands for. *)
Lemma load_attempt_row_ok db l row :
  short_code_ok db → short_code_attempt db !! l = Some row →
  load_attempt_row db l row = Ok (stored_of db l row).
Proof.
  intros Hok Hl. pose proof (sc_rows _ Hok _ _ Hl) as Hrow.
  destruct (attempt_checks_ok _ _ Hrow) as (Hma & Hmi & Hd & Hc).
  unfold load_attempt_row. rewrite !from_sql_u32_fits by lia. cbn [mbind result_bind].
  unfold ProtocolVersion_new, ShortCodeAttemptPublishRequest_new.
  pass_guard by lia. cbn [map_err]. cbn [mbind result_bind].
  rewrite from_sql_integer_nonneg by lia. cbn [mbind result_bind]. pass_guard by lia.
  cbn [map_err]. cbn [mbind result_bind].
  assert (sql_bool (arow_cancelled row) = Ok (bool_decide (arow_cancelled row = 1))) as ->
    by (destruct Hc as [-> | ->]; done).
  assert (sql_bool (arow_capability_consumed row) = Ok (is_some (arow_capability_take_id row))) as ->
    by (rewrite (at_consumed _ _ Hrow); by destruct (arow_capability_take_id row)).
  cbn [mbind result_bind]. rewrite Bool.eqb_reflx. cbn [negb fail_if mbind result_bind].
  rewrite (select_messages_ok _ _ Hok).
  assert (CredentialRequest ∈ (stage_list db (arow_attempt_id row)).*1 ↔ is_Some (arow_claimant row))
    as Hclaim.
  { rewrite (at_claimed _ _ Hrow), stage_list_stages, list_elem_of_filter.
    split; [by intros []|]. split; [done|apply elem_of_all_stages]. }
  rewrite load_messages_spec; [|apply stage_list_NoDup| |].
  - cbn [mbind result_bind]. simpl.
    rewrite (right_id_L ∅ (∪)).
    pose proof (stored_of_message db l row CredentialRequest) as Hmsg.
    unfold sca_message, stored_of in Hmsg |- *. simpl in Hmsg |- *. rewrite Hmsg.
    assert (is_some (arow_claimant row)
      = is_some (stage_payload db (arow_attempt_id row) CredentialRequest)) as ->
      by (apply is_some_iff, Hrow).
    rewrite Bool.eqb_reflx. cbn [negb fail_if mbind result_bind].
    assert ((if decide (CredentialRequest ∈ (stage_list db (arow_attempt_id row)).*1)
             then arow_claimant row else None) = arow_claimant row) as ->.
    { destruct (decide _) as [|Hn]; [done|]. rewrite Hclaim in Hn.
      destruct (arow_claimant row); [|done]. exfalso. eauto. }
    unfold cancel, consume_capability.
    destruct (bool_decide (arow_cancelled row = 1)), (arow_capability_take_id row); done.
  - intros s p Hin. apply elem_of_stage_list in Hin.
    destruct (sc_messages _ Hok _ _ _ Hin) as (_ & Hlen & _). done.
  - intros Hin. split; [by apply Hclaim|done].
Qed.

(** What the lookup query returns: nothing when no row matches, the only match, or a
    conflict when two rows do. *)
Lemma load_attempt_cases db loc id :
  short_code_ok db →
  let t := short_code_attempt db in
  match load_short_code_attempt db loc id with
  | Ok None => ∀ l row, t !! l = Some row → attempt_matches loc id (l, row) = false
  | Ok (Some stored) =>
      ∃ l row, t !! l = Some row ∧ attempt_matches loc id (l, row) = true
        ∧ stored = stored_of db l row
        ∧ ∀ l' row', t !! l' = Some row' → attempt_matches loc id (l', row') = true → l' = l
  | Err e =>
      e = ShortCodeAttemptConflict
      ∧ ∃ l row l' row', t !! l = Some row ∧ t !! l' = Some row' ∧ l ≠ l'
        ∧ attempt_matches loc id (l, row) = true ∧ attempt_matches loc id (l', row') = true
  end.
Proof.
  intros Hok t. unfold load_short_code_attempt, select_attempts. fold t.
  set (sel := filter (fun kv => attempt_matches loc id kv = true) t).
  assert (∀ l row, (l, row) ∈ map_to_list sel
    ↔ t !! l = Some row ∧ attempt_matches loc id (l, row) = true) as Hsel.
  { intros l row. rewrite elem_of_map_to_list. unfold sel. by rewrite map_lookup_filter_Some. }
  pose proof (NoDup_fst_map_to_list sel) as Hnd.
  destruct (map_to_list sel) as [|[l row] [|[l' row'] rest]]; simpl.
  - intros l row Hl. apply not_true_is_false. intros Hm.
    assert ((l, row) ∈ @nil (ShortCodePairingLocator * AttemptRow)) by (by apply Hsel). set_solver.
  - destruct (proj1 (Hsel l row)) as [Hl Hm]; [left|].
    rewrite (load_attempt_row_ok _ _ _ Hok Hl). simpl. exists l, row. split_and!; try done.
    intros l' row' Hl' Hm'. assert ((l', row') ∈ [(l, row)]) as Hin by (by apply Hsel).
    apply list_elem_of_singleton in Hin. by simplify_eq.
  - destruct (proj1 (Hsel l row)) as [Hl Hm]; [left|].
    destruct (proj1 (Hsel l' row')) as [Hl' Hm']; [right; left|].
    split; [done|]. exists l, row, l', row'. split_and!; try done.
    rewrite !fmap_cons in Hnd. apply NoDup_cons in Hnd as [Hn _]. set_solver.
Qed.

Lemma load_by_id db l row :
  short_code_ok db → short_code_attempt db !! l = Some row →
  load_short_code_attempt db None (Some (arow_attempt_id row)) = Ok (Some (stored_of db l row)).
Proof.
  intros Hok Hl. pose proof (load_attempt_cases db None (Some (arow_attempt_id row)) Hok) as H.
  assert (attempt_matches None (Some (arow_attempt_id row)) (l, row) = true) as Hm
    by (unfold attempt_matches; simpl; by rewrite bool_decide_eq_true_2).
  destruct (load_short_code_attempt _ _ _) as [[stored|]|e]; simpl in H.
  - destruct H as (l' & row' & Hl' & Hm' & -> & Hu).
    assert (l = l') as <- by (by eapply Hu). by simplify_eq.
  - by rewrite (H _ _ Hl) in Hm.
  - destruct H as (_ & l1 & row1 & l2 & row2 & H1 & H2 & Hne & M1 & M2).
    unfold attempt_matches in M1, M2. simpl in M1, M2. bool_prop.
    destruct Hne. eapply (sc_unique _ Hok); eauto. congruence.
Qed.

(** Looking up by identifier: nothing or the one row with it. *)
Lemma load_by_id_Ok db id o :
  short_code_ok db → load_short_code_attempt db None (Some id) = Ok o →
  (o = None ∧ ∀ l row, short_code_attempt db !! l = Some row → arow_attempt_id row ≠ id)
  ∨ (∃ l row, o = Some (stored_of db l row) ∧ short_code_attempt db !! l = Some row
      ∧ arow_attempt_id row = id).
Proof.
  intros Hok Hload. pose proof (load_attempt_cases db None (Some id) Hok) as H.
  rewrite Hload in H. destruct o as [stored|]; simpl in H.
  - destruct H as (l & row & Hl & Hm & -> & _). right. exists l, row.
    unfold attempt_matches in Hm. simpl in Hm. by bool_prop.
  - left. split; [done|]. intros l row Hl Heq. specialize (H _ _ Hl).
    unfold attempt_matches in H. simpl in H. by bool_prop.
Qed.

Lemma load_by_locator db l :
  short_code_ok db →
  load_short_code_attempt db (Some l) None = Ok (stored_of db l <$> short_code_attempt db !! l).
Proof.
  intros Hok. pose proof (load_attempt_cases db (Some l) None Hok) as H.
  assert (∀ l' row, attempt_matches (Some l) None (l', row) = true ↔ l' = l) as Hm.
  { intros. unfold attempt_matches. simpl. rewrite orb_false_r. by bool_prop. }
  destruct (load_short_code_attempt _ _ _) as [[stored|]|e]; simpl in H.
  - destruct H as (l' & row' & Hl' & Hm' & -> & _). apply Hm in Hm' as ->. by rewrite Hl'.
  - destruct (short_code_attempt db !! l) as [row|] eqn:E; [|done].
    specialize (H _ _ E). by rewrite (proj2 (Hm l row) eq_refl) in H.
  - destruct H as (_ & l1 & row1 & l2 & row2 & _ & _ & Hne & M1%Hm & M2%Hm). congruence.
Qed.

(** ** Counting claims *)

Section counting.
Implicit Types (m : gmap (ShortCodePairingLocator * RelayPrincipalId * Z) Z).

Lemma sum_attempts_insert m k n : m !! k = None → sum_attempts (<[k := n]> m) = n + sum_attempts m.
Proof. intros Hk. unfold sum_attempts. rewrite map_fold_insert_L; [done| |done]. intros. lia. Qed.

Lemma sum_attempts_delete m k n :
  m !! k = Some n → sum_attempts m = n + sum_attempts (delete k m).
Proof.
  intros Hk. rewrite <- (insert_delete_id m k n) at 1 by done.
  by rewrite sum_attempts_insert by apply lookup_delete_eq.
Qed.

Lemma sum_attempts_nonneg m : (∀ k n, m !! k = Some n → 1 <= n) → 0 <= sum_attempts m.
Proof.
  induction m as [|k n m Hk IH] using map_ind; [done|]. intros Hm.
  rewrite sum_attempts_insert by done.
  assert (1 <= n) by (apply (Hm k); apply lookup_insert_eq).
  assert (0 <= sum_attempts m); [|lia]. apply IH. intros k' n' Hk'. apply (Hm k').
  rewrite lookup_insert_ne; [done|]. congruence.
Qed.

(** One more attempt under a key raises the sum by one. *)
Lemma sum_attempts_bump m k :
  sum_attempts (<[k := default 0 (m !! k) + 1]> m) = sum_attempts m + 1.
Proof.
  destruct (m !! k) as [n|] eqn:E; simpl; [|rewrite sum_attempts_insert by done; lia].
  rewrite <- insert_delete_eq, sum_attempts_insert by apply lookup_delete_eq.
  rewrite (sum_attempts_delete m k n E). lia.
Qed.

Context (Q : ShortCodePairingLocator * RelayPrincipalId → Prop) `{∀ lp, Decision (Q lp)}.

Definition window_attempts m (w : Z) : Z :=
  sum_attempts (filter (fun kv => kv.1.2 = w ∧ Q kv.1.1) m).

Lemma window_attempts_bump m l p w w' :
  window_attempts (<[(l, p, w) := default 0 (m !! (l, p, w)) + 1]> m) w'
  = window_attempts m w' + (if bool_decide (w = w' ∧ Q (l, p)) then 1 else 0).
Proof.
  unfold window_attempts. case_bool_decide as Hq.
  - rewrite map_filter_insert_True by done.
    assert (m !! (l, p, w) = filter (fun kv => kv.1.2 = w' ∧ Q kv.1.1) m !! (l, p, w)) as ->.
    { destruct (m !! (l, p, w)) as [n|] eqn:E; symmetry.
      - by apply map_lookup_filter_Some.
      - apply map_lookup_filter_None. by left. }
    apply sum_attempts_bump.
  - rewrite map_filter_insert_not by (intros ? Hsel; by apply Hq). lia.
Qed.

Lemma window_attempts_clean m window w :
  window_attempts (filter (fun kv => ¬ kv.1.2 < window) m) w
  = (if decide (w < window) then 0 else window_attempts m w).
Proof.
  unfold window_attempts. rewrite map_filter_filter. destruct (decide (w < window)) as [Hw|Hw].
  - rewrite (proj2 (map_empty _)); [done|]. intros k. apply map_lookup_filter_None. right.
    intros n _ [[] ?]. simpl in *. lia.
  - f_equal. apply map_filter_ext. intros k n _. simpl. split; [naive_solver|].
    intros [? ?]. split; [done|]. lia.
Qed.

(** The attempts of one key are among those of any selection that contains it. *)
Lemma window_attempts_key m l p w :
  (∀ k n, m !! k = Some n → 1 <= n) → Q (l, p) → default 0 (m !! (l, p, w)) <= window_attempts m w.
Proof.
  intros Hm Hq. unfold window_attempts. set (f := filter _ m).
  assert (∀ k n, f !! k = Some n → 1 <= n) as Hf.
  { intros k n [? _]%map_lookup_filter_Some. eauto. }
  destruct (m !! (l, p, w)) as [n|] eqn:E; simpl; [|by apply sum_attempts_nonneg].
  assert (f !! (l, p, w) = Some n) as Hk by (by apply map_lookup_filter_Some).
  rewrite (sum_attempts_delete _ _ _ Hk).
  enough (0 <= sum_attempts (delete (l, p, w) f)) by lia.
  apply sum_attempts_nonneg. intros k n' [? ?]%lookup_delete_Some. eauto.
Qed.

Lemma window_attempts_nonneg m w :
  (∀ k n, m !! k = Some n → 1 <= n) → 0 <= window_attempts m w.
Proof.
  intros Hm. apply sum_attempts_nonneg. intros k n [? _]%map_lookup_filter_Some. eauto.
Qed.
End counting.

Lemma principal_attempts_window db p w :
  principal_attempts db p w = window_attempts (fun lp => lp.2 = p) (short_code_claim_rate db) w.
Proof. done. Qed.

Lemma locator_attempts_window db l w :
  locator_attempts db l w = window_attempts (fun lp => lp.1 = l) (short_code_claim_rate db) w.
Proof. done. Qed.

(** ** Cleanup *)

Lemma attempt_ok_ext db db' row :
  (∀ s, stage_payload db' (arow_attempt_id row) s = stage_payload db (arow_attempt_id row) s) →
  attempt_ok db row → attempt_ok db' row.
Proof.
  intros Hext [H1 H2 H3 H4 H5 H6]. split; try done.
  - by rewrite Hext.
  - intros s s'. rewrite !Hext. apply H5.
  - by rewrite Hext.
Qed.

Lemma stored_of_ext db db' l row :
  (∀ s, stage_payload db' (arow_attempt_id row) s = stage_payload db (arow_attempt_id row) s) →
  stored_of db' l row = stored_of db l row.
Proof.
  intros Hext. unfold stored_of. do 2 f_equal. unfold stage_list.
  induction all_stages as [|s ss IH]; [done|]. csimpl. by rewrite Hext, IH.
Qed.

Definition claim_window (now : Z) : Z := now - now mod SHORT_CODE_CLAIM_WINDOW_SECONDS.

Record cleaned (db : ShortCodeDb) (now : Z) (db1 : ShortCodeDb) : Prop := {
  cl_attempts : short_code_attempt db1
                = filter (fun kv => now < arow_deadline kv.2) (short_code_attempt db);
  cl_payload : ∀ l row s, short_code_attempt db1 !! l = Some row →
    stage_payload db1 (arow_attempt_id row) s = stage_payload db (arow_attempt_id row) s;
  cl_rates : short_code_claim_rate db1
             = filter (fun kv => ¬ kv.1.2 < claim_window now) (short_code_claim_rate db);
  cl_now : now <= I64_MAX;
  cl_ok : short_code_ok db1 }.

Lemma cleaned_lookup db now db1 l row :
  cleaned db now db1 →
  short_code_attempt db1 !! l = Some row
  ↔ short_code_attempt db !! l = Some row ∧ now < arow_deadline row.
Proof. intros Hc. rewrite (cl_attempts _ _ _ Hc). by rewrite map_lookup_filter_Some. Qed.

Lemma filter_size_mono {V} (P : ShortCodePairingLocator * V → Prop) `{∀ kv, Decision (P kv)}
    (m m' : gmap ShortCodePairingLocator V) :
  m' ⊆ m → (size (filter P m') <= size (filter P m))%nat.
Proof. intros Hsub. by apply map_subseteq_size, map_filter_subseteq_mono. Qed.

(** What survives: the live rows, and exactly their messages. *)
Lemma cleanup_tables db now db1 :
  short_code_ok db → cleanup_short_code_state db now = Ok db1 →
  now <= I64_MAX
  ∧ short_code_attempt db1
    = filter (fun kv => now < arow_deadline kv.2) (short_code_attempt db)
  ∧ short_code_claim_rate db1
    = filter (fun kv => ¬ kv.1.2 < claim_window now) (short_code_claim_rate db)
  ∧ ∀ id n payload, short_code_message db1 !! (id, n) = Some payload
    ↔ short_code_message db !! (id, n) = Some payload
      ∧ ∃ l row, short_code_attempt db1 !! l = Some row ∧ arow_attempt_id row = id.
Proof.
  intros Hok. unfold cleanup_short_code_state, short_code_claim_window, to_sql_integer.
  intros H. inv_ok. subst r r0 db1. bool_prop. simpl. split; [done|].
  assert (∀ l row, filter (fun kv => ¬ arow_deadline kv.2 <= now) (short_code_attempt db) !! l = Some row
    ↔ short_code_attempt db !! l = Some row ∧ now < arow_deadline row) as Hlook.
  { intros l row. rewrite map_lookup_filter_Some. simpl. by rewrite Z.nle_gt. }
  split; [apply map_filter_ext; intros; simpl; lia|]. split; [done|].
  intros id n payload. rewrite map_lookup_filter_Some. simpl. apply and_congr_l. intros Hin.
  destruct (sc_messages _ Hok _ _ _ Hin) as (_ & _ & l & row & Hl & Hid).
  rewrite list_elem_of_fmap. split.
  - intros Hnot. exists l, row. split; [|done]. apply Hlook. split; [done|].
    apply Z.nle_gt. intros Hd. apply Hnot. exists (l, row). split; [done|].
    by apply elem_of_map_to_list, map_lookup_filter_Some.
  - intros (l' & row' & [Hl' Hd']%Hlook & Hid') ([l2 row2] & Heq & Hin2).
    apply elem_of_map_to_list, map_lookup_filter_Some in Hin2 as [Hl2 Hd2]. simpl in *.
    assert (l2 = l') as -> by (eapply (sc_unique _ Hok); eauto; congruence).
    simplify_eq. lia.
Qed.

Lemma cleanup_cleaned db now db1 :
  short_code_ok db → cleanup_short_code_state db now = Ok db1 → cleaned db now db1.
Proof.
  intros Hok H. apply (cleanup_tables _ _ _ Hok) in H as (Hnow & Hatt & Hrates & Hmsg).
  assert (∀ l row, short_code_attempt db1 !! l = Some row
    ↔ short_code_attempt db !! l = Some row ∧ now < arow_deadline row) as Hlook.
  { intros l row. rewrite Hatt. by rewrite map_lookup_filter_Some. }
  assert (∀ l row s, short_code_attempt db1 !! l = Some row →
    stage_payload db1 (arow_attempt_id row) s = stage_payload db (arow_attempt_id row) s) as Hpay.
  { intros l row s Hl. unfold stage_payload. apply option_eq. intros p. rewrite Hmsg. naive_solver. }
  assert (short_code_attempt db1 ⊆ short_code_attempt db) as Hsub.
  { rewrite Hatt. apply map_filter_subseteq. }
  split; try done. split.
  - intros l row Hl. eapply attempt_ok_ext; [intros s; by eapply Hpay|].
    apply Hlook in Hl as [Hl _]. by eapply (sc_rows _ Hok).
  - intros l l' row row' [? _]%Hlook [? _]%Hlook. by apply (sc_unique _ Hok).
  - intros id n p [Hin Hrow]%Hmsg. destruct (sc_messages _ Hok _ _ _ Hin) as (? & ? & _). done.
  - rewrite Hrates. intros l p w n [? _]%map_lookup_filter_Some. by eapply (sc_rates _ Hok).
  - pose proof (filter_size_mono (fun kv => active_row kv.2) _ _ Hsub).
    pose proof (sc_global _ Hok). lia.
  - intros p. pose proof (map_filter_subseteq_mono (fun kv => active_row kv.2) _ _ Hsub) as Hsub'.
    pose proof (filter_size_mono (fun kv => arow_owner kv.2 = p) _ _ Hsub').
    pose proof (sc_creator _ Hok p). lia.
  - intros p w. pose proof (sc_by_principal _ Hok p w) as Hb.
    rewrite principal_attempts_window in *. rewrite Hrates, window_attempts_clean.
    destruct (decide _); [done|lia].
  - intros l w. pose proof (sc_by_locator _ Hok l w) as Hb.
    rewrite locator_attempts_window in *. rewrite Hrates, window_attempts_clean.
    destruct (decide _); [done|lia].
Qed.

(** ** Writes preserve the invariant *)

Lemma size_filter_update (P : ShortCodePairingLocator * AttemptRow → Prop)
    `{∀ kv, Decision (P kv)} (t : gmap ShortCodePairingLocator AttemptRow) l row row' :
  t !! l = Some row → (P (l, row') → P (l, row)) →
  (size (filter P (<[l := row']> t)) <= size (filter P t))%nat.
Proof.
  intros Hl HP. rewrite map_filter_insert. destruct (decide (P (l, row'))) as [HP'|].
  - rewrite map_size_insert_Some; [done|]. exists row. apply map_lookup_filter_Some. auto.
  - apply filter_size_mono, delete_subseteq.
Qed.

(** Rewriting one row, possibly adding stages to its attempt. *)
Lemma ok_update db db' l row row' :
  short_code_ok db → short_code_attempt db !! l = Some row →
  arow_attempt_id row' = arow_attempt_id row → arow_owner row' = arow_owner row →
  (active_row row' → active_row row) →
  short_code_attempt db' = <[l := row']> (short_code_attempt db) →
  short_code_claim_rate db' = short_code_claim_rate db →
  (∀ id n p, short_code_message db' !! (id, n) = Some p →
     short_code_message db !! (id, n) = Some p
     ∨ id = arow_attempt_id row ∧ 1 <= n <= 7
       ∧ 1 <= len p <= MAX_SHORT_CODE_RELAY_PAYLOAD_BYTES) →
  (∀ id n, id ≠ arow_attempt_id row →
     short_code_message db' !! (id, n) = short_code_message db !! (id, n)) →
  attempt_ok db' row' → short_code_ok db'.
Proof.
  intros Hok Hl Hid Howner Hact Hatt Hrates Hmsg Hother Hrow'.
  assert (∀ l2 row2, short_code_attempt db' !! l2 = Some row2 →
    l2 = l ∧ row2 = row'
    ∨ l2 ≠ l ∧ short_code_attempt db !! l2 = Some row2
      ∧ arow_attempt_id row2 ≠ arow_attempt_id row) as Hcase.
  { intros l2 row2. rewrite Hatt, lookup_insert_Some. intros [[<- <-]|[Hne Hl2]]; [by left|].
    right. split_and!; [done|done|]. intros Heq. apply Hne. by eapply (sc_unique _ Hok). }
  split.
  - intros l2 row2 [[-> ->]|(Hne & Hl2 & Hid2)]%Hcase; [done|].
    eapply attempt_ok_ext; [|by eapply (sc_rows _ Hok)]. intros s. by apply Hother.
  - intros l2 l3 row2 row3 [[-> ->]|(N2 & Hl2 & I2)]%Hcase [[-> ->]|(N3 & Hl3 & I3)]%Hcase;
      try congruence. by eapply (sc_unique _ Hok).
  - intros id n p [Hin|(-> & ? & ?)]%Hmsg.
    + destruct (sc_messages _ Hok _ _ _ Hin) as (? & ? & l2 & row2 & Hl2 & Hid2).
      split; [done|]; split; [done|]. destruct (decide (l2 = l)) as [->|Hne].
      * exists l, row'. rewrite Hatt, lookup_insert_eq. split; [done|]. congruence.
      * exists l2, row2. by rewrite Hatt, lookup_insert_ne.
    + split; [done|]; split; [done|]. exists l, row'. by rewrite Hatt, lookup_insert_eq.
  - rewrite Hrates. apply (sc_rates _ Hok).
  - rewrite Hatt. etransitivity; [|apply (sc_global _ Hok)]. apply inj_le.
    by eapply size_filter_update.
  - intros p. rewrite Hatt. etransitivity; [|apply (sc_creator _ Hok p)]. apply inj_le.
    rewrite !map_filter_filter. eapply size_filter_update; [done|]. simpl.
    rewrite Howner. naive_solver.
  - intros p w. unfold principal_attempts. rewrite Hrates. apply (sc_by_principal _ Hok).
  - intros l2 w. unfold locator_attempts. rewrite Hrates. apply (sc_by_locator _ Hok).
Qed.

(** Publishing: a fresh row for an identifier that has no messages. *)
Lemma ok_insert db l row :
  short_code_ok db → short_code_attempt db !! l = None →
  (∀ l' row', short_code_attempt db !! l' = Some row' → arow_attempt_id row' ≠ arow_attempt_id row) →
  attempt_row_checks row = true → arow_claimant row = None →
  arow_capability_take_id row = None → arow_capability_consumed row = 0 →
  Z.of_nat (size (filter (fun kv => active_row kv.2) (short_code_attempt db)))
    < MAX_ACTIVE_SHORT_CODE_ATTEMPTS →
  Z.of_nat (size (filter (fun kv => arow_owner kv.2 = arow_owner row)
                    (filter (fun kv => active_row kv.2) (short_code_attempt db))))
    < MAX_ACTIVE_SHORT_CODE_ATTEMPTS_PER_CREATOR →
  short_code_ok (set_attempts db (<[l := row]> (short_code_attempt db))).
Proof.
  intros Hok Hl Hfresh Hchk Hclaim Htake Hcons Hg Hc.
  assert (∀ n, short_code_message db !! (arow_attempt_id row, n) = None) as Hnone.
  { intros n. apply eq_None_not_Some. intros [p Hp].
    destruct (sc_messages _ Hok _ _ _ Hp) as (_ & _ & l' & row' & Hl' & Hid').
    by eapply Hfresh. }
  assert (∀ P `{∀ kv, Decision (P kv)}, (size (filter P (<[l := row]> (short_code_attempt db)))
    <= S (size (filter P (short_code_attempt db))))%nat) as Hsize.
  { intros P ?. rewrite map_filter_insert. destruct (decide _).
    - rewrite map_size_insert. case_match; simpl; lia.
    - rewrite delete_id by done. lia. }
  split; simpl; try apply Hok.
  - intros l' row' [[<- <-]|[Hne Hl']]%lookup_insert_Some.
    + split; unfold stage_payload; simpl; rewrite ?Hclaim, ?Htake; try done.
      * setoid_rewrite Hnone. split; by intros [].
      * intros s s'. rewrite Hnone. by intros [].
    + eapply attempt_ok_ext; [|by eapply (sc_rows _ Hok)]. done.
  - intros l1 l2 r1 r2 [[<- <-]|[N1 H1]]%lookup_insert_Some [[<- <-]|[N2 H2]]%lookup_insert_Some Heq;
      [done| | |by eapply (sc_unique _ Hok)]; exfalso; by eapply Hfresh.
  - intros id n p Hin. destruct (sc_messages _ Hok _ _ _ Hin) as (? & ? & l' & row' & Hl' & Hid').
    split; [done|]; split; [done|]. exists l', row'. split; [|done]. rewrite lookup_insert_ne; congruence.
  - specialize (Hsize (fun kv => active_row kv.2) _). lia.
  - intros p. rewrite map_filter_filter in *.
    destruct (decide (p = arow_owner row)) as [->|Hne].
    + match goal with |- context [filter ?P (<[l := row]> _)] => specialize (Hsize P _) end. lia.
    + rewrite map_filter_insert, decide_False by naive_solver.
      rewrite delete_id by done. pose proof (sc_creator _ Hok p) as Hp. by rewrite map_filter_filter in Hp.
Qed.

Lemma record_claim_Ok db p l now db' :
  record_short_code_claim db p l now = Ok db' →
  let k := (l, p, claim_window now) in
  db' = mk_ShortCodeDb (short_code_attempt db) (short_code_message db)
          (<[k := default 0 (short_code_claim_rate db !! k) + 1]> (short_code_claim_rate db)).
Proof.
  unfold record_short_code_claim, short_code_claim_window, to_sql_integer. intros H. inv_ok.
  subst r. subst db'. simpl. fold (claim_window now) in *.
  by destruct (short_code_claim_rate db !! (l, p, claim_window now)).
Qed.

(** Below both limits one more claim keeps the sums within them. *)
Lemma ok_record db p l now db' :
  short_code_ok db → record_short_code_claim db p l now = Ok db' →
  principal_attempts db p (claim_window now) < MAX_SHORT_CODE_CLAIMS_PER_PRINCIPAL_WINDOW →
  locator_attempts db l (claim_window now) < MAX_SHORT_CODE_CLAIMS_PER_LOCATOR_WINDOW →
  short_code_ok db'.
Proof.
  intros Hok ->%record_claim_Ok Hp Hl. split; simpl; try apply Hok.
  - intros l' row Hrow. eapply attempt_ok_ext; [|by eapply (sc_rows _ Hok)]. done.
  - intros l' p' w n [[_ <-]|[_ Hn]]%lookup_insert_Some; [|by eapply (sc_rates _ Hok)].
    destruct (short_code_claim_rate db !! (l, p, claim_window now)) as [n|] eqn:E; simpl; [|lia].
    pose proof (sc_rates _ Hok _ _ _ _ E). lia.
  - intros p' w. rewrite principal_attempts_window. simpl. rewrite window_attempts_bump.
    rewrite <- principal_attempts_window. pose proof (sc_by_principal _ Hok p' w).
    case_bool_decide as Hc; [|lia]. destruct Hc as [<- <-]. simpl in *. lia.
  - intros l' w. rewrite locator_attempts_window. simpl. rewrite window_attempts_bump.
    rewrite <- locator_attempts_window. pose proof (sc_by_locator _ Hok l' w).
    case_bool_decide as Hc; [|lia]. destruct Hc as [<- <-]. simpl in *. lia.
Qed.

(** The check on the counter column never fires below the limits. *)
Lemma record_claim_succeeds db p l now :
  short_code_ok db → 0 <= now <= I64_MAX →
  locator_attempts db l (claim_window now) < MAX_SHORT_CODE_CLAIMS_PER_LOCATOR_WINDOW →
  ∃ db', record_short_code_claim db p l now = Ok db'.
Proof.
  intros Hok Hnow Hl. unfold record_short_code_claim, short_code_claim_window.
  fold (claim_window now).
  assert (0 <= claim_window now <= now) as Hw.
  { unfold claim_window, SHORT_CODE_CLAIM_WINDOW_SECONDS.
    pose proof (Z.mod_le now (10 * 60)). pose proof (Z.mod_pos_bound now (10 * 60)). lia. }
  rewrite to_sql_integer_fits by lia. cbn [mbind result_bind].
  rewrite locator_attempts_window in Hl. unfold MAX_SHORT_CODE_CLAIMS_PER_LOCATOR_WINDOW in Hl.
  pose proof (window_attempts_key (fun lp => lp.1 = l) (short_code_claim_rate db) l p
    (claim_window now)) as Hkey.
  pose proof (sc_rates _ Hok l p (claim_window now)) as Hn.
  destruct (short_code_claim_rate db !! (l, p, claim_window now)) as [n|]; simpl in Hkey.
  - specialize (Hn n eq_refl). assert (n <= 4) by
      (etransitivity; [apply Hkey; [|done]|lia]; intros [[? ?] ?]; apply (sc_rates _ Hok)).
    pass_guard by lia. eauto.
  - pass_guard by lia. eauto.
Qed.

(** An update keyed by the attempt identifier touches one row. *)
Lemma update_attempts_one db l row (P : AttemptRow → bool) f :
  short_code_ok db → short_code_attempt db !! l = Some row →
  (∀ row', P row' = true → arow_attempt_id row' = arow_attempt_id row) → P row = true →
  update_attempts db P f = (1, set_attempts db (<[l := f row]> (short_code_attempt db))).
Proof.
  intros Hok Hl HP Hrow. unfold update_attempts. f_equal.
  - assert (filter (fun kv => P kv.2 = true) (short_code_attempt db) = {[l := row]}) as ->.
    { apply map_eq. intros l'. apply option_eq. intros row'.
      rewrite map_lookup_filter_Some, lookup_singleton_Some. simpl. split.
      - intros [Hl' Hp']. assert (l' = l) as -> by (eapply (sc_unique _ Hok); eauto).
        split; [done|]. congruence.
      - intros [<- <-]. done. }
    by rewrite map_size_singleton.
  - f_equal. apply map_eq. intros l'. rewrite lookup_fmap. destruct (decide (l' = l)) as [->|Hne].
    + rewrite Hl, lookup_insert_eq. simpl. by rewrite Hrow.
    + rewrite lookup_insert_ne by done. destruct (short_code_attempt db !! l') as [row'|] eqn:E; [|done].
      simpl. destruct (P row') eqn:Ep; [|done]. destruct Hne. eapply (sc_unique _ Hok); eauto.
Qed.

Lemma attempt_id_used_true db id :
  attempt_id_used db id = true
  ↔ ∃ l row, short_code_attempt db !! l = Some row ∧ arow_attempt_id row = id.
Proof.
  unfold attempt_id_used. rewrite bool_decide_eq_true. split.
  - intros (l & row & Hl & Hid). eauto.
  - intros (l & row & Hl & Hid). exists l, row. done.
Qed.

Lemma insert_message_row_Ok db id n p op db' :
  insert_message_row db id n p op = Ok db' →
  1 <= n <= 7 ∧ 1 <= len p <= MAX_SHORT_CODE_RELAY_PAYLOAD_BYTES
  ∧ short_code_message db !! (id, n) = None
  ∧ db' = mk_ShortCodeDb (short_code_attempt db) (<[(id, n) := p]> (short_code_message db))
            (short_code_claim_rate db).
Proof.
  unfold insert_message_row. intros H. inv_ok. subst db'. bool_prop. destruct_and!.
  unfold MAX_SHORT_CODE_RELAY_PAYLOAD_BYTES. split_and!; try lia; [|done].
  by destruct (short_code_message db !! (id, n)).
Qed.
