(* ===== verification/Handshake.v ===== *)
(** * The short-code handshake as an abstract protocol

    The contract of [ShortCodePairingRepository]: a map from attempt identifiers to
    attempts, changed only by the labelled steps of [handshake].  The SQL operations of
    [ShortCode.v] refine it, and what a claimant can take is decided on its traces. *)

From S2P Require Import Prelude Identifiers RelayModel Wire RelayStore ShortCode ShortCodeProofs.
Open Scope Z_scope.

(** ** The protocol *)

Abbreviation handshake_state := (gmap ShortCodePairingAttemptId StoredShortCodeAttempt).

(** What one request made visible. *)
Inductive handshake_event :=
| Published (creator : RelayPrincipalId) (request : ShortCodeAttemptPublishRequest)
| Claimed (claimant : RelayPrincipalId) (id : ShortCodePairingAttemptId) (payload : bytes)
| Sent (sender : RelayPrincipalId) (id : ShortCodePairingAttemptId)
    (stage : ShortCodeRelayStage) (payload : bytes)
| Cancelled (participant : RelayPrincipalId) (id : ShortCodePairingAttemptId)
| Taken (claimant : RelayPrincipalId) (id : ShortCodePairingAttemptId)
    (take_id : ShortCodeCapabilityTakeId) (payload : bytes)
| Repeated
| Refused.

Definition attempt_deadline (a : StoredShortCodeAttempt) : Z :=
  scp_deadline_unix_seconds (sca_publish a).

(** The attempts whose deadline has not passed. *)
Definition live (now : Z) (m : handshake_state) : handshake_state :=
  filter (fun kv => now < attempt_deadline kv.2) m.

Definition claimed_by (a : StoredShortCodeAttempt) (p : RelayPrincipalId) (payload : bytes)
    : StoredShortCodeAttempt :=
  mk_StoredShortCodeAttempt (sca_owner a) (Some p) (sca_publish a)
    (<[CredentialRequest := payload]> (sca_messages a)) (sca_cancelled a)
    (sca_capability_take_id a).

Definition with_stage (a : StoredShortCodeAttempt) (s : ShortCodeRelayStage) (payload : bytes)
    : StoredShortCodeAttempt :=
  mk_StoredShortCodeAttempt (sca_owner a) (sca_claimant a) (sca_publish a)
    (<[s := payload]> (sca_messages a)) (sca_cancelled a) (sca_capability_take_id a).

(** Who must send a stage. *)
Definition sender_of (a : StoredShortCodeAttempt) (s : ShortCodeRelayStage)
    : option RelayPrincipalId :=
  match s with
  | CredentialRequest | ClaimantFinalization | ClaimantConfirmation => sca_claimant a
  | _ => Some (sca_owner a)
  end.

Definition participant (a : StoredShortCodeAttempt) (p : RelayPrincipalId) : Prop :=
  p = sca_owner a ∨ sca_claimant a = Some p.

Inductive handshake (now : Z) (m : handshake_state)
    : handshake_event → handshake_state → Prop :=
| hs_publish p request :
    now < scp_deadline_unix_seconds request <= now + SHORT_CODE_ATTEMPT_LIFETIME_SECONDS →
    live now m !! scp_attempt_id request = None →
    (∀ id a, live now m !! id = Some a → scp_locator (sca_publish a) ≠ scp_locator request) →
    handshake now m (Published p request)
      (<[scp_attempt_id request := StoredShortCodeAttempt_new p request]> (live now m))
| hs_claim p id a payload :
    live now m !! id = Some a → sca_cancelled a = false → sca_claimant a = None →
    sca_owner a ≠ p →
    handshake now m (Claimed p id payload) (<[id := claimed_by a p payload]> (live now m))
| hs_claim_again p id a payload :
    live now m !! id = Some a → sca_claimant a = Some p →
    sca_message a CredentialRequest = Some payload →
    handshake now m (Claimed p id payload) (live now m)
| hs_send p id a s payload :
    live now m !! id = Some a → sca_cancelled a = false → sca_capability_take_id a = None →
    s ≠ CredentialRequest → sender_of a s = Some p → sca_message a s = None →
    (∀ s', s' ∈ prerequisites s → is_Some (sca_message a s')) →
    handshake now m (Sent p id s payload) (<[id := with_stage a s payload]> (live now m))
| hs_cancel p id a :
    live now m !! id = Some a → participant a p →
    handshake now m (Cancelled p id) (<[id := cancel a]> (live now m))
| hs_take p id a take_id payload :
    live now m !! id = Some a → sca_cancelled a = false → sca_claimant a = Some p →
    is_Some (sca_message a CreatorConfirmation) → is_Some (sca_message a ClaimantConfirmation) →
    sca_message a Capability = Some payload →
    sca_capability_take_id a = None ∨ sca_capability_take_id a = Some take_id →
    handshake now m (Taken p id take_id payload)
      (<[id := consume_capability a take_id]> (live now m))
| hs_repeat : handshake now m Repeated (live now m)
| hs_refuse : handshake now m Refused m
| hs_refuse_late : handshake now m Refused (live now m).

(** ** Requests *)

Inductive short_code_op :=
| OpPublishAttempt (p : RelayPrincipalId) (request : ShortCodeAttemptPublishRequest)
| OpClaimAttempt (p : RelayPrincipalId) (request : ShortCodeAttemptClaimRequest)
| OpPublishMessage (p : RelayPrincipalId) (request : ShortCodeAttemptMessageRequest)
| OpReadAttempt (p : RelayPrincipalId) (request : ShortCodeAttemptReadRequest)
| OpCancelAttempt (p : RelayPrincipalId) (request : ShortCodeAttemptReadRequest)
| OpTakeCapability (p : RelayPrincipalId) (request : ShortCodeCapabilityTakeRequest).

(** Run one request at a time of the clock; the event is read off its answer. *)
Definition short_code_step (db : ShortCodeDb) (now : Z) (op : short_code_op)
    : handshake_event * ShortCodeDb :=
  match op with
  | OpPublishAttempt p request =>
      let '(r, db') := publish_short_code_attempt db p request now in
      (match r with
       | Ok AttemptPublished => Published p request
       | Ok AttemptAlreadyPublished => Repeated
       | Err _ => Refused
       end, db')
  | OpClaimAttempt p request =>
      let '(r, db') := claim_short_code_attempt db p request now in
      (match r with
       | Ok snapshot => Claimed p (snap_attempt_id snapshot) (scc_payload request)
       | Err _ => Refused
       end, db')
  | OpPublishMessage p request =>
      let '(r, db') := publish_short_code_message db p request now in
      (match r with
       | Ok MessagePublished =>
           Sent p (scm_attempt_id request) (scm_stage request) (scm_payload request)
       | Ok MessageAlreadyPublished => Repeated
       | Err _ => Refused
       end, db')
  | OpReadAttempt p request =>
      let '(r, db') := read_short_code_attempt db p request now in
      (match r with Ok _ => Repeated | Err _ => Refused end, db')
  | OpCancelAttempt p request =>
      let '(r, db') := cancel_short_code_attempt db p request now in
      (match r with Ok _ => Cancelled p (scr_attempt_id request) | Err _ => Refused end, db')
  | OpTakeCapability p request =>
      let '(r, db') := take_short_code_capability db p request now in
      (match r with
       | Ok payload => Taken p (sct_attempt_id request) (sct_take_id request) payload
       | Err _ => Refused
       end, db')
  end.

(** A history of timed requests and the events it made visible, oldest first. *)
Fixpoint short_code_run (db : ShortCodeDb) (ops : list (Z * short_code_op))
    : list (Z * handshake_event) * ShortCodeDb :=
  match ops with
  | [] => ([], db)
  | (now, op) :: ops =>
      let '(ev, db') := short_code_step db now op in
      let '(evs, db'') := short_code_run db' ops in
      ((now, ev) :: evs, db'')
  end.

Inductive handshakes : handshake_state → list (Z * handshake_event) → handshake_state → Prop :=
| handshakes_nil m : handshakes m [] m
| handshakes_cons m now ev m' evs m'' :
    handshake now m ev m' → handshakes m' evs m'' → handshakes m ((now, ev) :: evs) m''.

(** The attempts a database stands for. *)
Definition represents (db : ShortCodeDb) (m : handshake_state) : Prop :=
  ∀ id a, m !! id = Some a
  ↔ ∃ l row, short_code_attempt db !! l = Some row ∧ arow_attempt_id row = id
      ∧ a = stored_of db l row.

(** ** How the tables represent the protocol state *)

Lemma represents_row db m l row :
  represents db m → short_code_attempt db !! l = Some row →
  m !! arow_attempt_id row = Some (stored_of db l row).
Proof. intros Hrep Hl. apply Hrep. eauto. Qed.

Lemma represents_live db m now db1 :
  represents db m → cleaned db now db1 → represents db1 (live now m).
Proof.
  intros Hrep Hc id a. unfold live. rewrite map_lookup_filter_Some. rewrite (Hrep id a). simpl.
  assert (∀ l row, short_code_attempt db1 !! l = Some row → stored_of db1 l row = stored_of db l row)
    as Hext by (intros l row Hl; apply stored_of_ext; intros s; by eapply (cl_payload _ _ _ Hc)).
  split.
  - intros [(l & row & Hl & Hid & ->) Hd]. exists l, row.
    assert (short_code_attempt db1 !! l = Some row) as Hl1 by (by apply (cleaned_lookup _ _ _ _ _ Hc)).
    by rewrite (Hext _ _ Hl1).
  - intros (l & row & Hl1 & Hid & ->). pose proof (proj1 (cleaned_lookup _ _ _ _ _ Hc) Hl1) as [Hl Hd].
    split; [|done]. exists l, row. by rewrite (Hext _ _ Hl1).
Qed.

(** Rewriting one row changes one attempt. *)
Lemma represents_update db m db' l row row' :
  short_code_ok db → represents db m → short_code_attempt db !! l = Some row →
  arow_attempt_id row' = arow_attempt_id row →
  short_code_attempt db' = <[l := row']> (short_code_attempt db) →
  (∀ id n, id ≠ arow_attempt_id row →
     short_code_message db' !! (id, n) = short_code_message db !! (id, n)) →
  represents db' (<[arow_attempt_id row := stored_of db' l row']> m).
Proof.
  intros Hok Hrep Hl Hid Hatt Hother id a. rewrite lookup_insert_Some, (Hrep id a), Hatt. split.
  - intros [[<- <-]|(Hne & l2 & row2 & Hl2 & Hid2 & ->)].
    + exists l, row'. by rewrite lookup_insert_eq.
    + exists l2, row2. rewrite lookup_insert_ne by (intros ->; simplify_eq; congruence).
      split_and!; try done. symmetry. apply stored_of_ext. intros s. apply Hother. congruence.
  - intros (l2 & row2 & [[<- <-]|[Hne Hl2]]%lookup_insert_Some & Hid2 & ->).
    + left. split; [congruence|done].
    + right. assert (arow_attempt_id row2 ≠ arow_attempt_id row) as Hne2.
      { intros Heq. apply Hne. by eapply (sc_unique _ Hok). }
      split; [congruence|]. exists l2, row2. split_and!; try done. apply stored_of_ext.
      intros s. by apply Hother.
Qed.

(** A request that only cleans up leaves the live attempts. *)
Lemma cleaned_step db m now db1 :
  represents db m → cleaned db now db1 → short_code_ok db1 ∧ represents db1 (live now m).
Proof. intros Hrep Hc. split; [apply Hc|by eapply represents_live]. Qed.

Definition step_refines (db : ShortCodeDb) (m : handshake_state) (now : Z)
    (step : handshake_event * ShortCodeDb) : Prop :=
  short_code_ok step.2 ∧ ∃ m', handshake now m step.1 m' ∧ represents step.2 m'.

Lemma step_refused db m now : short_code_ok db → represents db m → step_refines db m now (Refused, db).
Proof. intros Hok Hrep. split; [done|]. exists m. split; [constructor|done]. Qed.

Lemma step_repeated db m now db1 :
  represents db m → cleaned db now db1 → step_refines db m now (Repeated, db1).
Proof.
  intros Hrep Hc. destruct (cleaned_step _ _ _ _ Hrep Hc) as [? ?]. split; [done|].
  exists (live now m). split; [constructor|done].
Qed.

(** ** Each request refines a step *)

(** Rewrite one row of the cleaned database and take the step that matches. *)
Lemma step_updates db m now db1 db' l row row' ev a' :
  short_code_ok db1 → represents db1 (live now m) →
  short_code_attempt db1 !! l = Some row →
  arow_attempt_id row' = arow_attempt_id row → arow_owner row' = arow_owner row →
  (active_row row' → active_row row) →
  short_code_attempt db' = <[l := row']> (short_code_attempt db1) →
  short_code_claim_rate db' = short_code_claim_rate db1 →
  (∀ id n p, short_code_message db' !! (id, n) = Some p →
     short_code_message db1 !! (id, n) = Some p
     ∨ id = arow_attempt_id row ∧ 1 <= n <= 7
       ∧ 1 <= len p <= MAX_SHORT_CODE_RELAY_PAYLOAD_BYTES) →
  (∀ id n, id ≠ arow_attempt_id row →
     short_code_message db' !! (id, n) = short_code_message db1 !! (id, n)) →
  attempt_ok db' row' → stored_of db' l row' = a' →
  handshake now m ev (<[arow_attempt_id row := a']> (live now m)) →
  step_refines db m now (ev, db').
Proof.
  intros Hok1 Hrep1 Hl Hid Howner Hact Hatt Hrates Hmsg Hother Hrow' <- Hstep.
  split; [by eapply (ok_update db1)|]. eexists. split; [exact Hstep|].
  by apply (represents_update db1).
Qed.

(** After cleanup the capacity query counts every row that is not cancelled. *)
Lemma counts_cleaned db now db1 p :
  cleaned db now db1 →
  active_short_code_counts db1 p now
  = Ok (Z.of_nat (size (filter (fun kv => active_row kv.2) (short_code_attempt db1))),
        Z.of_nat (size (filter (fun kv => arow_owner kv.2 = p)
          (filter (fun kv => active_row kv.2) (short_code_attempt db1))))).
Proof.
  intros Hc. unfold active_short_code_counts. rewrite to_sql_integer_fits by apply Hc.
  cbn [mbind result_bind].
  rewrite (proj1 (map_filter_ext (fun kv => now < arow_deadline kv.2 ∧ arow_cancelled kv.2 = 0)
    (fun kv => active_row kv.2) (short_code_attempt db1))); [done|].
  intros l row Hl. simpl. apply (cleaned_lookup _ _ _ _ _ Hc) in Hl as [_ Hd].
  unfold active_row. tauto.
Qed.

Lemma represents_insert db m l row :
  represents db m → short_code_attempt db !! l = None →
  (∀ l' row', short_code_attempt db !! l' = Some row' → arow_attempt_id row' ≠ arow_attempt_id row) →
  represents (set_attempts db (<[l := row]> (short_code_attempt db)))
    (<[arow_attempt_id row := stored_of db l row]> m).
Proof.
  intros Hrep Hl Hfresh id a. rewrite lookup_insert_Some, (Hrep id a). simpl. split.
  - intros [[<- <-]|(Hne & l2 & row2 & Hl2 & Hid2 & ->)].
    + exists l, row. by rewrite lookup_insert_eq.
    + exists l2, row2. rewrite lookup_insert_ne by congruence. done.
  - intros (l2 & row2 & [[<- <-]|[Hne Hl2]]%lookup_insert_Some & <- & ->); [by left|right].
    split; [|by eauto]. intros Heq. by apply (Hfresh _ _ Hl2).
Qed.

(** No stored message: the attempt is as published. *)
Lemma stored_of_fresh db p request :
  short_code_ok db →
  (∀ l row, short_code_attempt db !! l = Some row → arow_attempt_id row ≠ scp_attempt_id request) →
  stored_of db (scp_locator request)
    (mk_AttemptRow (scp_attempt_id request) p None (major (scp_version request))
       (minor (scp_version request)) (scp_deadline_unix_seconds request) 0 0 None)
  = StoredShortCodeAttempt_new p request.
Proof.
  intros Hok Hfresh. unfold stored_of, StoredShortCodeAttempt_new. simpl.
  assert (stage_list db (scp_attempt_id request) = []) as ->.
  { destruct (stage_list db (scp_attempt_id request)) as [|[s q] ms] eqn:E; [done|].
    assert ((s, q) ∈ stage_list db (scp_attempt_id request)) as Hin by (rewrite E; left).
    apply elem_of_stage_list in Hin.
    destruct (sc_messages _ Hok _ _ _ Hin) as (_ & _ & l & row & Hl & Hid).
    by destruct (Hfresh _ _ Hl). }
  by destruct request as [[] ? ? ?].
Qed.

Lemma publish_attempt_step db m p request now :
  short_code_ok db → represents db m →
  step_refines db m now (short_code_step db now (OpPublishAttempt p request)).
Proof.
  intros Hok Hrep. unfold short_code_step, publish_short_code_attempt.
  match goal with |- context [transact db ?m] => destruct m as [[out db']|err] eqn:E end;
    [|by apply step_refused].
  simpl. apply bind_Ok in E as (? & Hexp & E). apply bind_Ok in E as (db1 & Hclean & E).
  apply (cleanup_cleaned _ _ _ Hok) in Hclean as Hc.
  destruct (cleaned_step _ _ _ _ Hrep Hc) as [Hok1 Hrep1].
  apply bind_Ok in E as (existing & Hload & E). rewrite (counts_cleaned _ _ _ p Hc) in E.
  cbn [mbind result_bind] in E. apply bind_Ok in E as (decision & Hdec & E).
  destruct decision; [|simplify_eq; by apply step_repeated].
  unfold decide_short_code_publish, saturating_add in Hdec.
  apply bind_Ok in Hdec as (? & Hd1 & Hdec). apply bind_Ok in Hdec as (? & Hd2 & Hdec).
  destruct existing as [existing|]; [by case_match|].
  pose proof (load_attempt_cases db1 (Some (scp_locator request)) (Some (scp_attempt_id request)) Hok1)
    as Hcases. rewrite Hload in Hcases. simpl in Hcases.
  assert (∀ l row, short_code_attempt db1 !! l = Some row →
    l ≠ scp_locator request ∧ arow_attempt_id row ≠ scp_attempt_id request) as Hfresh.
  { intros l row Hl. specialize (Hcases _ _ Hl). unfold attempt_matches in Hcases. simpl in Hcases.
    by bool_prop. }
  apply bind_Ok in E as (db2 & Hins & E). injection E as <- <-.
  unfold insert_short_code_attempt, to_sql_integer in Hins. inv_ok. subst r db2. bool_prop.
  destruct_and!. split; simpl.
  - apply ok_insert; simpl; try done; [|by intros l row [_ ?]%Hfresh].
    by destruct (short_code_attempt db1 !! scp_locator request).
  - eexists. split; [apply hs_publish; [lia| |]|].
    + apply eq_None_not_Some. intros [a Ha]. apply Hrep1 in Ha as (l & row & Hl & Hid & _).
      by destruct (Hfresh _ _ Hl).
    + intros id a (l & row & Hl & Hid & ->)%Hrep1. by destruct (Hfresh _ _ Hl).
    + rewrite <- (stored_of_fresh db1) by (done || by intros l row [_ ?]%Hfresh).
      apply represents_insert; [done| |by intros l row [_ ?]%Hfresh].
      by destruct (short_code_attempt db1 !! scp_locator request).
Qed.

Lemma stage_map_lookup db id s :
  (list_to_map (stage_list db id) : gmap ShortCodeRelayStage bytes) !! s = stage_payload db id s.
Proof.
  pose proof (stored_of_message db (repeat_id KShortCodePairingLocator x00)
    (mk_AttemptRow id (repeat_id KRelayPrincipalId x00) None 1 0 1 0 0 None) s) as H. exact H.
Qed.

(** Adding one message adds one stage. *)
Lemma stage_map_insert db db' id s payload :
  short_code_message db' = <[(id, short_code_stage_to_sql s) := payload]> (short_code_message db) →
  (list_to_map (stage_list db' id) : gmap ShortCodeRelayStage bytes)
  = <[s := payload]> (list_to_map (stage_list db id)).
Proof.
  intros Hmsg. apply map_eq. intros s'. rewrite stage_map_lookup. unfold stage_payload.
  rewrite Hmsg. destruct (decide (s' = s)) as [->|Hne]; [by rewrite !lookup_insert_eq|].
  rewrite !lookup_insert_ne by (done || intros [= ?%(inj _)]; congruence).
  by rewrite stage_map_lookup.
Qed.

Lemma dependencies_true a s :
  stage_dependencies_satisfied a s = true ↔
  s ≠ CredentialRequest ∧ ∀ s', s' ∈ prerequisites s → is_Some (sca_message a s').
Proof.
  destruct s; simpl; rewrite ?andb_true_iff, ?is_some_true; try (split; [|naive_solver]);
    try (intros H; split; [done|]; set_solver).
  all: set_solver.
Qed.

(** Every later stage implies the credential request, hence a claimant. *)
Lemma credential_request_first db row s :
  attempt_ok db row → is_Some (stage_payload db (arow_attempt_id row) s) →
  is_Some (arow_claimant row).
Proof.
  intros Hrow Hs. apply (at_claimed _ _ Hrow).
  pose proof (at_ordered _ _ Hrow) as Hord.
  assert (is_Some (stage_payload db (arow_attempt_id row) CreatorIdentity) →
    is_Some (stage_payload db (arow_attempt_id row) CredentialRequest)) as Hid.
  { intros H4. apply (Hord CredentialResponse); [|set_solver].
    apply (Hord ClaimantFinalization); [|set_solver]. apply (Hord CreatorIdentity); [done|set_solver]. }
  destruct s; [done|by apply (Hord CredentialResponse); [|set_solver]| |by apply Hid|..].
  - apply (Hord CredentialResponse); [|set_solver].
    by apply (Hord ClaimantFinalization); [|set_solver].
  - apply Hid. by apply (Hord CreatorConfirmation); [|set_solver].
  - apply Hid. by apply (Hord ClaimantConfirmation); [|set_solver].
  - apply Hid, (Hord CreatorConfirmation); [|set_solver].
    by apply (Hord Capability); [|set_solver].
Qed.

(** A satisfied prerequisite names the sender without the fallback of [stage_owner]. *)
Lemma stage_owner_sender db l row s :
  attempt_ok db row → stage_dependencies_satisfied (stored_of db l row) s = true →
  sender_of (stored_of db l row) s = Some (stage_owner (stored_of db l row) s).
Proof.
  intros Hrow [Hs Hpre]%dependencies_true.
  assert (∀ s', s' ∈ prerequisites s → is_Some (arow_claimant row)) as Hclaim.
  { intros s' Hin. eapply (credential_request_first db row s'); [done|].
    rewrite <- (stored_of_message db l). eauto. }
  destruct s; try done; simpl;
    (edestruct Hclaim as [c ->]; [simpl; left|done]).
Qed.

(** What a transaction that loads one attempt by its identifier works on. *)
Record located (db : ShortCodeDb) (m : handshake_state) (now : Z) (id : ShortCodePairingAttemptId)
    (db1 : ShortCodeDb) (l : ShortCodePairingLocator) (row : AttemptRow) : Prop := {
  loc_cleaned : cleaned db now db1;
  loc_represents : represents db1 (live now m);
  loc_row : short_code_attempt db1 !! l = Some row;
  loc_id : arow_attempt_id row = id;
  loc_ok : attempt_ok db1 row;
  loc_state : live now m !! arow_attempt_id row = Some (stored_of db1 l row) }.

Lemma open_request {A} db m now id e (k : ShortCodeDb → StoredShortCodeAttempt → result RelayError A) r :
  short_code_ok db → represents db m →
  (db1 ← cleanup_short_code_state db now;
   stored ← load_short_code_attempt db1 None (Some id);
   stored ← ok_or stored e; k db1 stored) = Ok r →
  ∃ db1 l row, located db m now id db1 l row ∧ k db1 (stored_of db1 l row) = Ok r.
Proof.
  intros Hok Hrep H. apply bind_Ok in H as (db1 & Hclean & H).
  apply (cleanup_cleaned _ _ _ Hok) in Hclean as Hc.
  destruct (cleaned_step _ _ _ _ Hrep Hc) as [Hok1 Hrep1].
  apply bind_Ok in H as (o & Hload & H). apply bind_Ok in H as (stored & Ho & H).
  apply ok_or_Ok in Ho as ->.
  apply (load_by_id_Ok _ _ _ Hok1) in Hload as [[? _]|(l & row & Heq & Hl & Hid)]; [done|].
  injection Heq as ->. exists db1, l, row. split; [|done].
  split; [done..|by eapply (sc_rows _ Hok1)|by apply represents_row].
Qed.

(** Split a request into its refusal and its effect. *)
Ltac by_outcome :=
  match goal with |- context [transact ?db ?m] => destruct m as [[out db']|err] eqn:E end;
    [|by apply step_refused]; cbn [transact].

Lemma read_attempt_step db m p request now :
  short_code_ok db → represents db m →
  step_refines db m now (short_code_step db now (OpReadAttempt p request)).
Proof.
  intros Hok Hrep. unfold short_code_step, read_short_code_attempt. by_outcome.
  apply (open_request _ m) in E as (db1 & l & row & [Hc Hrep1 Hl Hid Hrow Hm] & E); [|done|done].
  inv_ok. simplify_eq. by apply step_repeated.
Qed.

Lemma cancel_attempt_step db m p request now :
  short_code_ok db → represents db m →
  step_refines db m now (short_code_step db now (OpCancelAttempt p request)).
Proof.
  intros Hok Hrep. unfold short_code_step, cancel_short_code_attempt. by_outcome.
  apply (open_request _ m) in E as (db1 & l & row & [Hc Hrep1 Hl Hid Hrow Hm] & E); [|done|done].
  apply bind_Ok in E as ([] & Hauth & E).
  rewrite (update_attempts_one _ l row) in E; [|apply Hc|done|..];
    [|intros row'; rewrite bool_decide_eq_true; congruence|by rewrite bool_decide_eq_true].
  injection E as <- <-.
  unfold authorize_short_code_cancel in Hauth. case_match eqn:Ha; [|done].
  bool_prop. destruct Ha as [_ Hpart].
  eapply (step_updates db m now db1 _ l row (with_cancelled row) _ (cancel (stored_of db1 l row)));
    try done; [apply Hc|..].
  - auto.
  - eapply attempt_ok_ext; [done|]. destruct Hrow as [H1 H2 H3 H4 H5 H6]. split; try done.
    unfold attempt_row_checks in *. simpl. bool_prop. tauto.
  - rewrite <- Hid. apply hs_cancel; [done|]. unfold participant. simpl in *. naive_solver.
Qed.

(** The stored stages after one insertion. *)
Lemma stage_payload_insert db db' id s payload s' :
  short_code_message db' = <[(id, short_code_stage_to_sql s) := payload]> (short_code_message db) →
  stage_payload db' id s' = if decide (s' = s) then Some payload else stage_payload db id s'.
Proof.
  intros Hmsg. unfold stage_payload. rewrite Hmsg. destruct (decide (s' = s)) as [->|Hne].
  - by rewrite lookup_insert_eq.
  - rewrite lookup_insert_ne; [done|]. intros [= ?%(inj _)]. congruence.
Qed.

(** A stage whose prerequisites are stored keeps the attempt ordered. *)
Lemma ordered_insert db db' id s payload :
  short_code_message db' = <[(id, short_code_stage_to_sql s) := payload]> (short_code_message db) →
  (∀ s1 s2, is_Some (stage_payload db id s1) → s2 ∈ prerequisites s1 →
     is_Some (stage_payload db id s2)) →
  (∀ s', s' ∈ prerequisites s → is_Some (stage_payload db id s')) →
  ∀ s1 s2, is_Some (stage_payload db' id s1) → s2 ∈ prerequisites s1 →
    is_Some (stage_payload db' id s2).
Proof.
  intros Hmsg Hord Hpre s1 s2. rewrite !(stage_payload_insert _ _ _ _ _ _ Hmsg).
  destruct (decide (s2 = s)); [done|]. destruct (decide (s1 = s)) as [->|]; [auto|]. apply Hord.
Qed.

(** Both kinds of insertion write one message of the attempt. *)
Lemma messages_insert db db' id s payload :
  short_code_message db' = <[(id, short_code_stage_to_sql s) := payload]> (short_code_message db) →
  1 <= len payload <= MAX_SHORT_CODE_RELAY_PAYLOAD_BYTES →
  (∀ id' n p, short_code_message db' !! (id', n) = Some p →
     short_code_message db !! (id', n) = Some p
     ∨ id' = id ∧ 1 <= n <= 7 ∧ 1 <= len p <= MAX_SHORT_CODE_RELAY_PAYLOAD_BYTES)
  ∧ (∀ id' n, id' ≠ id → short_code_message db' !! (id', n) = short_code_message db !! (id', n)).
Proof.
  intros Hmsg Hlen. rewrite Hmsg. split.
  - intros id' n p [[[= <- <-] <-]|[_ ?]]%lookup_insert_Some; [right|by left].
    split; [done|]; split; [destruct s; simpl; lia|done].
  - intros id' n Hne. rewrite lookup_insert_ne; [done|]. congruence.
Qed.

Lemma publish_message_step db m p request now :
  short_code_ok db → represents db m →
  step_refines db m now (short_code_step db now (OpPublishMessage p request)).
Proof.
  intros Hok Hrep. unfold short_code_step, publish_short_code_message. by_outcome.
  apply (open_request _ m) in E as (db1 & l & row & [Hc Hrep1 Hl Hid Hrow Hm] & E); [|done|done].
  apply bind_Ok in E as (decision & Hdec & E).
  destruct decision; [|simplify_eq; by apply step_repeated].
  apply bind_Ok in E as (db2 & Hins & E). injection E as <- <-.
  destruct request as [version id s payload]. simpl in *. subst id.
  unfold decide_short_code_message in Hdec. simpl in Hdec.
  apply bind_Ok in Hdec as (? & Hlive & Hdec). rewrite stored_of_message in Hdec.
  destruct (stage_payload db1 (arow_attempt_id row) s) eqn:Hs; [by case_match|].
  apply bind_Ok in Hdec as (? & Hcons & Hdec). apply bind_Ok in Hdec as (? & Hrole & _).
  rewrite fail_if_Ok in Hlive, Hcons, Hrole. bool_prop. destruct Hrole as [Hp Hdep].
  apply dec_stable in Hp.
  pose proof (stage_owner_sender _ _ _ _ Hrow Hdep) as Hsender.
  apply dependencies_true in Hdep as [Hs1 Hpre].
  apply insert_message_row_Ok in Hins as (Hn & Hlen & _ & ->).
  set (db2 := mk_ShortCodeDb _ _ _).
  assert (short_code_message db2 = <[(arow_attempt_id row, short_code_stage_to_sql s) := payload]>
    (short_code_message db1)) as Hmsg by done.
  destruct (messages_insert _ _ _ _ _ Hmsg Hlen) as [Hmsg1 Hmsg2].
  eapply (step_updates db m now db1 db2 l row row _ (with_stage (stored_of db1 l row) s payload));
    try done; [apply Hc|..].
  - by rewrite insert_id.
  - destruct Hrow as [H1 H2 H3 H4 H5 H6]. split; try done.
    + by rewrite (stage_payload_insert _ _ _ _ _ _ Hmsg), decide_False.
    + apply (ordered_insert _ _ _ _ _ Hmsg H5). intros s'. rewrite <- (stored_of_message db1 l). auto.
    + intros Ht. rewrite (stage_payload_insert _ _ _ _ _ _ Hmsg). destruct (decide _); auto.
  - unfold stored_of, with_stage. simpl. f_equal. by apply stage_map_insert.
  - apply hs_send; try done.
    + apply bool_decide_eq_false_2, Hlive.
    + unfold capability_consumed in Hcons. by destruct (sca_capability_take_id _).
    + by rewrite Hsender, Hp.
    + by rewrite stored_of_message.
Qed.

Lemma take_capability_step db m p request now :
  short_code_ok db → represents db m →
  step_refines db m now (short_code_step db now (OpTakeCapability p request)).
Proof.
  intros Hok Hrep. unfold short_code_step, take_short_code_capability. by_outcome.
  apply (open_request _ m) in E as (db1 & l & row & [Hc Hrep1 Hl Hid Hrow Hm] & E); [|done|done].
  apply bind_Ok in E as (decision & Hdec & E). apply bind_Ok in E as (payload & Hpay & E).
  apply ok_or_Ok in Hpay. unfold decide_short_code_capability_take in Hdec.
  apply bind_Ok in Hdec as (? & Hguard & Hdec). rewrite fail_if_Ok in Hguard. bool_prop.
  destruct Hguard as [[[[[[_ _] Hlive] Hclaim] Hc5] Hc6] _]. apply dec_stable in Hclaim.
  assert (∀ take_id, take_id = sct_take_id request →
    sca_capability_take_id (stored_of db1 l row) = None
    ∨ sca_capability_take_id (stored_of db1 l row) = Some take_id →
    handshake now m (Taken p (arow_attempt_id row) take_id payload)
      (<[arow_attempt_id row := consume_capability (stored_of db1 l row) take_id]> (live now m)))
    as Hstep.
  { intros take_id -> Htake. apply hs_take; try done;
      [by destruct (sca_message _ CreatorConfirmation)
      |by destruct (sca_message _ ClaimantConfirmation)]. }
  destruct (arow_capability_take_id row) as [take_id|] eqn:Htake; simpl in Hdec; rewrite Htake in Hdec.
  - case_bool_decide; [|done]. injection Hdec as <-. injection E as <- <-. rewrite <- Hid.
    split; [apply Hc|]. eexists. split; [apply Hstep; [done|right; simpl; congruence]|].
    rewrite insert_id; [done|]. rewrite Hm. f_equal. unfold consume_capability. simpl.
    unfold stored_of. f_equal. congruence.
  - injection Hdec as <-.
    rewrite (update_attempts_one _ l row) in E; [|apply Hc|done|..].
    2:{ intros row' Hrow'. bool_prop. destruct Hrow' as [[-> _] _]. done. }
    2:{ bool_prop. by rewrite (at_consumed _ _ Hrow), Htake. }
    injection E as <- <-. rewrite <- Hid.
    eapply (step_updates db m now db1 _ l row (with_consumed (sct_take_id request) row));
      try done; [apply Hc|by intros ???; left| |by apply Hstep; [|left]].
    destruct Hrow as [H1 H2 H3 H4 H5 H6]. split; try done.
    + unfold attempt_row_checks in *. simpl. bool_prop. tauto.
    + intros _. change (is_Some (stage_payload db1 (arow_attempt_id row) Capability)).
      rewrite <- (stored_of_message db1 l), Hpay. done.
Qed.

Lemma claim_counts_Ok db p l now cp cl :
  short_code_claim_counts db p l now = Ok (cp, cl) →
  cp = principal_attempts db p (claim_window now) ∧ cl = locator_attempts db l (claim_window now).
Proof.
  unfold short_code_claim_counts, short_code_claim_window, to_sql_integer, to_usize.
  intros H. inv_ok. by simplify_eq.
Qed.

Lemma claim_inputs_Ok db m p request now db1 existing cp cl :
  short_code_ok db → represents db m →
  claim_inputs db p request now = Ok (db1, existing, (cp, cl)) →
  cleaned db now db1 ∧ represents db1 (live now m)
  ∧ existing = stored_of db1 (scc_locator request) <$> short_code_attempt db1 !! scc_locator request
  ∧ cp = principal_attempts db1 p (claim_window now)
  ∧ cl = locator_attempts db1 (scc_locator request) (claim_window now).
Proof.
  intros Hok Hrep H. unfold claim_inputs in H. apply bind_Ok in H as (d & Hclean & H).
  apply (cleanup_cleaned _ _ _ Hok) in Hclean as Hc. apply bind_Ok in H as (e & Hload & H).
  apply bind_Ok in H as ([cp' cl'] & Hcounts & H). simplify_eq.
  rewrite load_by_locator in Hload by apply Hc. injection Hload as <-.
  apply claim_counts_Ok in Hcounts as [-> ->]. split_and!; try done. by eapply represents_live.
Qed.

Lemma snapshot_attempt_id stored snapshot :
  short_code_snapshot stored = Ok snapshot →
  snap_attempt_id snapshot = scp_attempt_id (sca_publish stored).
Proof.
  unfold short_code_snapshot, ShortCodeAttemptSnapshot_new. intros H. inv_ok. by subst snapshot.
Qed.

(** What a decision to claim says about the attempt and the limits. *)
Lemma decide_claim_Ok p request existing now cp cl decision :
  decide_short_code_claim p request existing now cp cl = Ok decision →
  ∃ a, existing = Some a
  ∧ match decision with
    | ScClaimIdentical =>
        sca_claimant a = Some p ∧ sca_message a CredentialRequest = Some (scc_payload request)
    | ScClaim =>
        cp < MAX_SHORT_CODE_CLAIMS_PER_PRINCIPAL_WINDOW
        ∧ cl < MAX_SHORT_CODE_CLAIMS_PER_LOCATOR_WINDOW
        ∧ sca_cancelled a = false ∧ sca_capability_take_id a = None ∧ sca_owner a ≠ p
        ∧ sca_claimant a = None
    end.
Proof.
  unfold decide_short_code_claim, claim_before_limits, capability_consumed.
  destruct existing as [a|].
  - destruct (bool_decide (scp_version _ ≠ _)) eqn:Hv; [done|].
    destruct (bool_decide (sca_claimant a = Some p) && _) eqn:Hi.
    + intros [= <-]. exists a. by bool_prop.
    + intros H. inv_ok. subst decision. simplify_eq. exists r1. split; [done|].
      destruct (sca_claimant r1), (sca_capability_take_id r1); bool_prop; naive_solver.
  - intros H. by inv_ok.
Qed.

(** A first claim records the claimant and its credential request. *)
Lemma update_claim_Ok db l row p payload db' :
  short_code_ok db → short_code_attempt db !! l = Some row → arow_claimant row = None →
  update_short_code_claim db (arow_attempt_id row) p payload = Ok db' →
  1 <= len payload <= MAX_SHORT_CODE_RELAY_PAYLOAD_BYTES
  ∧ db' = mk_ShortCodeDb (<[l := with_claimant p row]> (short_code_attempt db))
            (<[(arow_attempt_id row, 1) := payload]> (short_code_message db))
            (short_code_claim_rate db).
Proof.
  intros Hok Hl Hnone H. unfold update_short_code_claim in H.
  rewrite (update_attempts_one _ l row) in H; [|done|done|..].
  - cbn [fail_if Z.eqb Pos.eqb negb mbind result_bind] in H.
    apply insert_message_row_Ok in H as (_ & Hlen & _ & ->). done.
  - intros row' Hrow'. bool_prop. by destruct Hrow'.
  - bool_prop. by rewrite Hnone.
Qed.

Lemma attempt_ok_claimed db db' row p payload :
  attempt_ok db row → arow_claimant row = None → arow_owner row ≠ p →
  short_code_message db' = <[(arow_attempt_id row, 1) := payload]> (short_code_message db) →
  attempt_ok db' (with_claimant p row).
Proof.
  intros [H1 H2 H3 H4 H5 H6] Hnone Howner Hmsg.
  assert (short_code_message db'
    = <[(arow_attempt_id row, short_code_stage_to_sql CredentialRequest) := payload]>
        (short_code_message db)) as Hmsg' by done.
  pose proof (stage_payload_insert _ _ _ _ _ CredentialRequest Hmsg') as Hcred.
  rewrite decide_True in Hcred by done. split; simpl; try done.
  - congruence.
  - by apply (ordered_insert _ _ _ _ _ Hmsg'); [|set_solver].
  - intros Ht. rewrite (stage_payload_insert _ _ _ _ _ _ Hmsg'), decide_False by done. auto.
Qed.

(** The first claim: one more recorded attempt, a claimant and its first stage. *)
Lemma first_claim_step db m p request now db1 row rec db2 :
  let l := scc_locator request in
  short_code_ok db1 → represents db1 (live now m) → short_code_attempt db1 !! l = Some row →
  principal_attempts db1 p (claim_window now) < MAX_SHORT_CODE_CLAIMS_PER_PRINCIPAL_WINDOW →
  locator_attempts db1 l (claim_window now) < MAX_SHORT_CODE_CLAIMS_PER_LOCATOR_WINDOW →
  sca_cancelled (stored_of db1 l row) = false → arow_owner row ≠ p → arow_claimant row = None →
  record_short_code_claim db1 p l now = Ok rec →
  update_short_code_claim rec (arow_attempt_id row) p (scc_payload request) = Ok db2 →
  step_refines db m now (Claimed p (arow_attempt_id row) (scc_payload request), db2)
  ∧ short_code_attempt db2 !! l = Some (with_claimant p row).
Proof.
  intros l Hok1 Hrep1 Hl Hp Hlo Hlive Howner Hclaim Hrec Hupd.
  pose proof (ok_record _ _ _ _ _ Hok1 Hrec Hp Hlo) as Hokr. apply record_claim_Ok in Hrec.
  assert (short_code_attempt rec !! l = Some row) as Hlr by (by rewrite Hrec).
  apply (update_claim_Ok _ _ _ _ _ _ Hokr Hlr Hclaim) in Hupd as [Hlen ->].
  set (db2 := mk_ShortCodeDb _ _ _).
  assert (short_code_message db2
    = <[(arow_attempt_id row, short_code_stage_to_sql CredentialRequest) := scc_payload request]>
        (short_code_message rec)) as Hmsg by done.
  destruct (messages_insert _ _ _ _ _ Hmsg Hlen) as [Hmsg1 Hmsg2].
  split; [|by unfold db2; simpl; rewrite lookup_insert_eq].
  eapply (step_updates db m now rec db2 l row (with_claimant p row) _
    (claimed_by (stored_of db1 l row) p (scc_payload request))); try done.
  - by rewrite Hrec.
  - eapply attempt_ok_claimed; [by eapply (sc_rows _ Hokr)|exact Hclaim|exact Howner|exact Hmsg].
  - unfold stored_of, claimed_by. simpl. f_equal. rewrite (stage_map_insert rec db2 _ _ _ Hmsg).
    by rewrite Hrec.
  - apply hs_claim; try done. by apply represents_row.
Qed.

Lemma accept_claim_step db m p request now db1 decision existing cp cl snapshot db' :
  cleaned db now db1 → represents db1 (live now m) →
  existing = stored_of db1 (scc_locator request) <$> short_code_attempt db1 !! scc_locator request →
  cp = principal_attempts db1 p (claim_window now) →
  cl = locator_attempts db1 (scc_locator request) (claim_window now) →
  decide_short_code_claim p request existing now cp cl = Ok decision →
  accept_claim db1 p request now decision existing = Ok (snapshot, db') →
  step_refines db m now (Claimed p (snap_attempt_id snapshot) (scc_payload request), db').
Proof.
  intros Hc Hrep1 Hex -> -> Hdec E. set (l := scc_locator request) in *.
  apply decide_claim_Ok in Hdec as (a & Ha & Hdec). subst existing.
  destruct (short_code_attempt db1 !! l) as [row|] eqn:Hl; [|done]. injection Ha as <-.
  pose proof (represents_row _ _ _ _ Hrep1 Hl) as Hm. pose proof (cl_ok _ _ _ Hc) as Hok1.
  unfold accept_claim in E. apply bind_Ok in E as (db2 & Hw & E). cbn [fmap option_fmap option_map] in E.
  apply bind_Ok in E as (? & [= <-]%ok_or_Ok & E). apply bind_Ok in E as (o & Hload & E).
  apply bind_Ok in E as (stored & [= ->]%ok_or_Ok & E). apply bind_Ok in E as (snap & Hsnap & E).
  injection E as <- <-. simpl in Hload. destruct decision.
  - destruct Hdec as (Hp & Hlo & Hlive & Htake & Howner & Hclaim).
    apply bind_Ok in Hw as (rec & Hrec & Hw). apply bind_Ok in Hw as (? & [= <-]%ok_or_Ok & Hw).
    destruct (first_claim_step db m p request now db1 row rec db2) as [Hstep Hl2]; try done.
    pose proof (load_by_id db2 _ _ (proj1 Hstep) Hl2) as Hload2. simpl in Hload2.
    rewrite Hload2 in Hload. injection Hload as <-.
    by rewrite (snapshot_attempt_id _ _ Hsnap).
  - destruct Hdec as (Hclaim & Hcred). injection Hw as <-.
    rewrite (load_by_id db1 l row Hok1 Hl) in Hload.
    injection Hload as <-. rewrite (snapshot_attempt_id _ _ Hsnap). simpl.
    split; [done|]. exists (live now m). split; [by eapply hs_claim_again|done].
Qed.

Lemma claim_attempt_step db m p request now :
  short_code_ok db → represents db m →
  step_refines db m now (short_code_step db now (OpClaimAttempt p request)).
Proof.
  intros Hok Hrep. unfold short_code_step, claim_short_code_attempt.
  destruct (claim_inputs db p request now) as [[[db1 existing] [cp cl]]|e] eqn:Hin;
    [|by apply step_refused].
  apply (claim_inputs_Ok _ m) in Hin as (Hc & Hrep1 & Hex & Hcp & Hcl); [|done|done].
  destruct (decide_short_code_claim p request existing now cp cl) as [decision|e] eqn:Hdec.
  - by_outcome. by eapply accept_claim_step.
  - match goal with |- context [if ?b then _ else _] => destruct b eqn:Hb end; [|by apply step_refused].
    destruct (record_short_code_claim db1 p (scc_locator request) now) as [db2|e'] eqn:Hrec;
      [|by apply step_refused].
    bool_prop. destruct Hb as [[_ Hp] Hlo]. subst cp cl.
    split; [by eapply (ok_record db1); [apply Hc|..]|]. exists (live now m). split; [constructor|].
    by rewrite (record_claim_Ok _ _ _ _ _ Hrec).
Qed.

Lemma short_code_step_refines db m now op :
  short_code_ok db → represents db m → step_refines db m now (short_code_step db now op).
Proof.
  destruct op; [apply publish_attempt_step|apply claim_attempt_step|apply publish_message_step
    |apply read_attempt_step|apply cancel_attempt_step|apply take_capability_step].
Qed.

Lemma short_code_ok_empty : short_code_ok empty_short_code_db.
Proof.
  split; simpl; try done; intros; exfalso;
    by (eapply lookup_empty_Some; eassumption).
Qed.

Lemma short_code_run_refines db m ops :
  short_code_ok db → represents db m →
  ∃ m', handshakes m (short_code_run db ops).1 m'
    ∧ represents (short_code_run db ops).2 m' ∧ short_code_ok (short_code_run db ops).2.
Proof.
  revert db m. induction ops as [|[now op] ops IH]; intros db m Hok Hrep; simpl.
  { exists m. split; [constructor|done]. }
  pose proof (short_code_step_refines db m now op Hok Hrep) as (Hok' & m1 & Hstep & Hrep').
  destruct (short_code_step db now op) as [ev db']. simpl in *.
  destruct (IH db' m1 Hok' Hrep') as (m2 & Hrun & Hrep2 & Hok2).
  destruct (short_code_run db' ops) as [evs db'']. simpl in *.
  exists m2. split; [by econstructor|done].
Qed.

Lemma represents_empty : represents empty_short_code_db ∅.
Proof.
  intros id a. split; [by intros ?%lookup_empty_Some|].
  intros (l & row & Hl & _). simpl in Hl. by apply lookup_empty_Some in Hl.
Qed.

(** C17: The SQL operations refine the abstract handshake.  Whatever requests the relay
    receives and whatever its clock says, the answers are the labels of a run of
    [handshake] from the empty state, and the tables at the end represent its final
    state: attempts are published under fresh identifiers and locators, claimed once by
    a principal other than the creator, extended stage by stage by the right sender once
    the prerequisites are stored, and consumed under one take identifier. *)
Theorem short_code_refines_handshake ops :
  ∃ m, handshakes ∅ (short_code_run empty_short_code_db ops).1 m
    ∧ represents (short_code_run empty_short_code_db ops).2 m.
Proof.
  destruct (short_code_run_refines empty_short_code_db ∅ ops) as (m & Hrun & Hrep & _);
    [apply short_code_ok_empty|apply represents_empty|]. eauto.
Qed.

(** Capacity.  After any history at most 1000 attempts are neither cancelled nor
    deleted, and at most 8 of one creator; in any claim window a principal has at most 10
    recorded claims and a locator at most 5. *)
Theorem short_code_bounded ops :
  let db := (short_code_run empty_short_code_db ops).2 in
  let active := filter (fun kv => arow_cancelled kv.2 = 0) (short_code_attempt db) in
  Z.of_nat (size active) <= 1000
  ∧ (∀ p, Z.of_nat (size (filter (fun kv => arow_owner kv.2 = p) active)) <= 8)
  ∧ (∀ p w, principal_attempts db p w <= 10)
  ∧ (∀ l w, locator_attempts db l w <= 5).
Proof.
  destruct (short_code_run_refines empty_short_code_db ∅ ops) as (m & _ & _ & Hok);
    [apply short_code_ok_empty|apply represents_empty|].
  split; [apply (sc_global _ Hok)|]. split; [apply (sc_creator _ Hok)|].
  split; [apply (sc_by_principal _ Hok)|apply (sc_by_locator _ Hok)].
Qed.

(** ** What a trace documents *)

(** The events since its publication justify everything an attempt holds. *)
Record documents (since : list (Z * handshake_event)) (id : ShortCodePairingAttemptId)
    (a : StoredShortCodeAttempt) : Prop := {
  doc_claim : ∀ c, sca_claimant a = Some c →
    c ≠ sca_owner a ∧ ∃ q, Claimed c id q ∈ since.*2;
  doc_stage : ∀ s q, s ≠ CredentialRequest → sca_message a s = Some q →
    ∃ sender, sender_of a s = Some sender ∧ Sent sender id s q ∈ since.*2;
  doc_cancel : sca_cancelled a = false → ∀ p, Cancelled p id ∉ since.*2;
  doc_take : ∀ p t c, Taken p id t c ∈ since.*2 →
    sca_claimant a = Some p ∧ sca_capability_take_id a = Some t
    ∧ sca_message a Capability = Some c;
  doc_publish : ∀ p r, Published p r ∈ since.*2 → scp_attempt_id r ≠ id }.

Definition justified (trace : list (Z * handshake_event)) (m : handshake_state) : Prop :=
  ∀ id a, m !! id = Some a →
  ∃ before t since,
    trace = before ++ (t, Published (sca_owner a) (sca_publish a)) :: since
    ∧ scp_attempt_id (sca_publish a) = id ∧ documents since id a.

(** The attempt an event is about. *)
Definition subject (ev : handshake_event) : option ShortCodePairingAttemptId :=
  match ev with
  | Published _ r => Some (scp_attempt_id r)
  | Claimed _ id _ | Sent _ id _ _ | Cancelled _ id | Taken _ id _ _ => Some id
  | Repeated | Refused => None
  end.

Lemma elem_of_snoc_events (since : list (Z * handshake_event)) now ev e :
  e ∈ (since ++ [(now, ev)]).*2 ↔ e ∈ since.*2 ∨ e = ev.
Proof. rewrite fmap_app, elem_of_app. simpl. by rewrite list_elem_of_singleton. Qed.

Lemma documents_other since id a now ev :
  subject ev ≠ Some id → documents since id a → documents (since ++ [(now, ev)]) id a.
Proof.
  intros Hsub [H1 H2 H3 H4 H5].
  split; intros *; setoid_rewrite elem_of_snoc_events.
  - intros [? [q ?]]%H1. eauto.
  - intros Hs (sender & ? & ?)%H2; [|done]. eauto.
  - intros Hl p [?|<-]; [by eapply H3|done].
  - intros [?|<-]; [by eapply H4|done].
  - intros [?|<-]; [by eapply H5|]. simpl in Hsub. congruence.
Qed.

Lemma justified_live trace m now : justified trace m → justified trace (live now m).
Proof. intros Hj id a [Hm _]%map_lookup_filter_Some. by apply Hj. Qed.

Lemma justified_entry trace id a now ev :
  (∃ before t since, trace = before ++ (t, Published (sca_owner a) (sca_publish a)) :: since
     ∧ scp_attempt_id (sca_publish a) = id ∧ documents (since ++ [(now, ev)]) id a) →
  ∃ before t since,
    trace ++ [(now, ev)] = before ++ (t, Published (sca_owner a) (sca_publish a)) :: since
    ∧ scp_attempt_id (sca_publish a) = id ∧ documents since id a.
Proof.
  intros (before & t & since & -> & Hid & Hdoc). exists before, t, (since ++ [(now, ev)]).
  by rewrite <- app_assoc.
Qed.

Lemma justified_other trace m now ev :
  justified trace m → (∀ id a, m !! id = Some a → subject ev ≠ Some id) →
  justified (trace ++ [(now, ev)]) m.
Proof.
  intros Hj Hsub id a Hm. apply justified_entry.
  destruct (Hj _ _ Hm) as (before & t & since & -> & Hid & Hdoc).
  exists before, t, since. split_and!; try done. apply documents_other; [|done]. by eapply Hsub.
Qed.

Lemma justified_update trace m now ev id a a' :
  justified trace m → m !! id = Some a → subject ev = Some id →
  sca_owner a' = sca_owner a → sca_publish a' = sca_publish a →
  (∀ since, documents since id a → documents (since ++ [(now, ev)]) id a') →
  justified (trace ++ [(now, ev)]) (<[id := a']> m).
Proof.
  intros Hj Hm Hsub Howner Hpub Hdoc' id2 a2 [[<- <-]|[Hne Hm2]]%lookup_insert_Some;
    apply justified_entry.
  - destruct (Hj _ _ Hm) as (before & t & since & -> & Hid & Hdoc).
    exists before, t, since. rewrite Howner, Hpub. auto.
  - destruct (Hj _ _ Hm2) as (before & t & since & -> & Hid & Hdoc).
    exists before, t, since. split_and!; try done. apply documents_other; [|done]. congruence.
Qed.

(** Each step keeps its attempt documented. *)
Section steps.
Context (since : list (Z * handshake_event)) (id : ShortCodePairingAttemptId) (now : Z).
Context (a : StoredShortCodeAttempt) (Hdoc : documents since id a).

Ltac open_documents :=
  destruct Hdoc as [H1 H2 H3 H4 H5]; split; intros *; setoid_rewrite elem_of_snoc_events.

Lemma documents_claim p payload :
  sca_claimant a = None → sca_owner a ≠ p →
  documents (since ++ [(now, Claimed p id payload)]) id (claimed_by a p payload).
Proof.
  intros Hnone Hne. open_documents.
  - simpl. intros [= <-]. eauto.
  - intros Hs Hq. unfold sca_message in Hq. simpl in Hq. rewrite lookup_insert_ne in Hq by done.
    destruct (H2 _ _ Hs Hq) as (sender & Hsend & Hin). exists sender. split; [|by left].
    destruct s; try done; simpl in *; congruence.
  - intros Hl p' [?|?]; [by eapply H3|done].
  - intros [(? & _)%H4|?]; [congruence|done].
  - intros [?|?]; [by eapply H5|done].
Qed.

Lemma documents_claim_again p payload :
  documents (since ++ [(now, Claimed p id payload)]) id a.
Proof.
  open_documents.
  - intros [? [q ?]]%H1. eauto.
  - intros Hs (sender & ? & ?)%H2; [|done]. eauto.
  - intros Hl p' [?|?]; [by eapply H3|done].
  - intros [?|?]; [by eapply H4|done].
  - intros [?|?]; [by eapply H5|done].
Qed.

Lemma documents_send p s payload :
  sender_of a s = Some p → sca_message a s = None → sca_capability_take_id a = None →
  s ≠ CredentialRequest →
  documents (since ++ [(now, Sent p id s payload)]) id (with_stage a s payload).
Proof.
  intros Hsend Hnone Htake Hs. open_documents.
  - intros [? [q ?]]%H1. eauto.
  - intros Hs' Hq. unfold sca_message in Hq. simpl in Hq.
    assert (∀ s, sender_of (with_stage a s0 payload) s = sender_of a s) as Heq by (by intros []).
    apply lookup_insert_Some in Hq as [[<- <-]|[Hne Hq]]; [by eauto|].
    destruct (H2 _ _ Hs' Hq) as (sender & ? & ?). eauto.
  - intros Hl p' [?|?]; [by eapply H3|done].
  - intros [(? & ? & ?)%H4|?]; [congruence|done].
  - intros [?|?]; [by eapply H5|done].
Qed.

Lemma documents_cancel p : documents (since ++ [(now, Cancelled p id)]) id (cancel a).
Proof.
  open_documents.
  - intros [? [q ?]]%H1. eauto.
  - intros Hs (sender & ? & ?)%H2; [|done]. exists sender. split; [by destruct s|by left].
  - done.
  - intros [?|?]; [by eapply H4|done].
  - intros [?|?]; [by eapply H5|done].
Qed.

Lemma documents_taken p take_id payload :
  sca_claimant a = Some p → sca_message a Capability = Some payload →
  sca_capability_take_id a = None ∨ sca_capability_take_id a = Some take_id →
  documents (since ++ [(now, Taken p id take_id payload)]) id (consume_capability a take_id).
Proof.
  intros Hp Hpay Htake. open_documents.
  - intros [? [q ?]]%H1. eauto.
  - intros Hs (sender & ? & ?)%H2; [|done]. exists sender. split; [by destruct s|by left].
  - intros Hl p' [?|?]; [by eapply H3|done].
  - intros [(? & Ht & ?)%H4|[= -> -> ->]]; [|done]. split_and!; try done. simpl.
    destruct Htake; congruence.
  - intros [?|?]; [by eapply H5|done].
Qed.
End steps.

Lemma justified_step trace m now ev m' :
  justified trace m → handshake now m ev m' → justified (trace ++ [(now, ev)]) m'.
Proof.
  intros Hj Hstep. pose proof (justified_live _ _ now Hj) as Hjl.
  destruct Hstep as [p r Hdl Hid Hloc|p id a q Ha|p id a q Ha|p id a s q Ha|p id a Ha
    |p id a t q Ha| | |].
  - intros id a [[<- <-]|[Hne Hm]]%lookup_insert_Some.
    + exists trace, now, []. split_and!; [done|done|]. split; simpl; try done; set_solver.
    + apply justified_entry. destruct (Hjl _ _ Hm) as (before & t & since & -> & Hi & Hdoc).
      exists before, t, since. split_and!; try done. apply documents_other; [simpl; congruence|done].
  - apply (justified_update _ _ _ _ _ a); try done. intros. by apply documents_claim.
  - rewrite <- (insert_id (live now m) id a) by done.
    apply (justified_update _ _ _ _ _ a); try done. intros. by apply documents_claim_again.
  - apply (justified_update _ _ _ _ _ a); try done. intros. by apply documents_send.
  - apply (justified_update _ _ _ _ _ a); try done. intros. by apply documents_cancel.
  - apply (justified_update _ _ _ _ _ a); try done. intros. by apply documents_taken.
  - by apply justified_other.
  - by apply justified_other.
  - by apply justified_other.
Qed.

Lemma justified_run trace m evs m' :
  justified trace m → handshakes m evs m' → justified (trace ++ evs) m'.
Proof.
  intros Hj Hrun. revert trace Hj. induction Hrun as [m|m now ev m1 evs m2 Hstep Hrun IH];
    intros trace Hj; [by rewrite app_nil_r|].
  rewrite cons_middle, app_assoc. apply IH. by eapply justified_step.
Qed.

Lemma handshakes_app m evs evs' m' :
  handshakes m (evs ++ evs') m' → ∃ m1, handshakes m evs m1 ∧ handshakes m1 evs' m'.
Proof.
  revert m. induction evs as [|[now ev] evs IH]; intros m H; simpl in H.
  { exists m. split; [constructor|done]. }
  inversion H as [|? ? ? m1 ? ? Hstep Hrun]; subst. destruct (IH _ Hrun) as (m2 & ? & ?).
  exists m2. split; [by econstructor|done].
Qed.

(** C2: A capability is released only by a complete handshake.  Whenever some history
    makes the relay hand out a capability, the trace before it contains the publication
    of that attempt, not followed by another one under the same identifier or by a
    cancellation, and since then: a claim by the principal that takes it, who is not the
    creator; the confirmations of both; and the creator's own message carrying exactly
    the bytes handed out.  Every earlier release of the attempt went to the same
    principal under the same take identifier with the same bytes. *)
Theorem capability_needs_handshake ops pre now p id take_id payload post
    (Htrace : (short_code_run empty_short_code_db ops).1
              = pre ++ (now, Taken p id take_id payload) :: post) :
  ∃ before t creator request since q5 q6,
    pre = before ++ (t, Published creator request) :: since
    ∧ scp_attempt_id request = id ∧ now < scp_deadline_unix_seconds request ∧ creator ≠ p
    ∧ (∃ q, Claimed p id q ∈ since.*2)
    ∧ Sent creator id CreatorConfirmation q5 ∈ since.*2
    ∧ Sent p id ClaimantConfirmation q6 ∈ since.*2
    ∧ Sent creator id Capability payload ∈ since.*2
    ∧ (∀ p', Cancelled p' id ∉ since.*2)
    ∧ (∀ p' r, Published p' r ∈ since.*2 → scp_attempt_id r ≠ id)
    ∧ (∀ p' t' c', Taken p' id t' c' ∈ since.*2 → p' = p ∧ t' = take_id ∧ c' = payload).
Proof.
  destruct (short_code_run_refines empty_short_code_db ∅ ops) as (m & Hrun & _ & _);
    [apply short_code_ok_empty|apply represents_empty|].
  rewrite Htrace in Hrun. apply handshakes_app in Hrun as (m1 & Hpre & Hpost).
  assert (justified [] ∅) as Hj0 by (by intros ?? ?%lookup_empty_Some).
  pose proof (justified_run [] ∅ pre m1 Hj0 Hpre) as Hj. simpl in Hj.
  inversion Hpost as [|? ? ? m2 ? ? Hstep _]; subst.
  inversion Hstep as [| | | | |? ? a ? ? Ha Hlive Hp [q5 H5] [q6 H6] H7 Htake| | |]; subst.
  apply map_lookup_filter_Some in Ha as [Ha Hd]. simpl in Hd.
  destruct (Hj _ _ Ha) as (before & t & since & -> & Hid & [D1 D2 D3 D4 D5]).
  destruct (D1 _ Hp) as [Hne Hq].
  destruct (D2 CreatorConfirmation q5) as (? & [= <-] & Hs5); [done..|].
  destruct (D2 ClaimantConfirmation q6) as (? & Hc6 & Hs6); [done..|]. simpl in Hc6.
  rewrite Hp in Hc6. injection Hc6 as <-.
  destruct (D2 Capability payload) as (? & [= <-] & Hs7); [done..|].
  exists before, t, (sca_owner a), (sca_publish a), since, q5, q6.
  split_and!; try done; [by apply D3|].
  intros p' t' c' (? & ? & ?)%D4. destruct Htake; split_and!; congruence.
Qed.
