(* ===== verification/ShortCodeLimits.v ===== *)
(** * Limits and answers of the short-code relay

    Rate limiting over whole histories, the exact answers of reads and takes, and what a
    rate-limited principal can still learn. *)

From S2P Require Import Prelude Identifiers RelayModel Wire RelayStore.
From S2P Require Import ShortCode ShortCodeProofs Handshake.
Open Scope Z_scope.

(** ** Snapshots *)

(** The stages a snapshot shows: all but the capability, in order. *)
Definition visible_stages (a : StoredShortCodeAttempt) : list ShortCodeRelayMessage :=
  (fun sp => mk_ShortCodeRelayMessage sp.1 sp.2) <$>
    filter (fun sp => sp.1 ≠ Capability) (stages_of a).

Definition snapshot_of (a : StoredShortCodeAttempt) : ShortCodeAttemptSnapshot :=
  mk_ShortCodeAttemptSnapshot (scp_version (sca_publish a)) (scp_attempt_id (sca_publish a))
    (scp_deadline_unix_seconds (sca_publish a)) (sca_cancelled a) (capability_consumed a)
    (visible_stages a).

Lemma elem_of_stages_of a s p : (s, p) ∈ stages_of a ↔ sca_message a s = Some p.
Proof.
  unfold stages_of. rewrite list_elem_of_omap. split.
  - intros (s' & _ & Hp). destruct (sca_message a s') eqn:E; simplify_option_eq. done.
  - intros Hp. exists s. rewrite Hp. split; [apply elem_of_all_stages|done].
Qed.

Lemma stages_of_keys a :
  (stages_of a).*1 = filter (fun s => is_Some (sca_message a s)) all_stages.
Proof.
  unfold stages_of. induction all_stages as [|s l IH]; [done|]. rewrite filter_cons. csimpl.
  destruct (sca_message a s); csimpl; by rewrite IH.
Qed.

Lemma visible_stages_sorted a :
  StronglySorted (key_lt relay_message_stage stage_compare) (visible_stages a).
Proof.
  pose proof (all_stages_sorted (fun s => is_Some (sca_message a s))) as Hs.
  rewrite <- stages_of_keys in Hs. unfold visible_stages.
  induction (stages_of a) as [|[s p] l IH]; [constructor|].
  rewrite fmap_cons in Hs. inversion Hs as [|?? Hl Hx]; subst. rewrite filter_cons.
  destruct (decide _); [|by apply IH]. rewrite fmap_cons. constructor; [by apply IH|].
  apply Forall_fmap, Forall_forall. intros [s' p'] [_ Hin]%list_elem_of_filter.
  rewrite Forall_forall in Hx. apply (Hx s'), list_elem_of_fmap. by exists (s', p').
Qed.

Lemma visible_stages_len a : len (visible_stages a) <= MAX_SHORT_CODE_RELAY_STAGES.
Proof.
  unfold visible_stages, len. rewrite length_fmap.
  assert (length (stages_of a) <= length all_stages)%nat as Hlen.
  { rewrite <- (length_fmap fst), stages_of_keys. apply length_filter. }
  pose proof (length_filter (fun sp => sp.1 ≠ Capability) (stages_of a)).
  unfold MAX_SHORT_CODE_RELAY_STAGES. simpl in Hlen. lia.
Qed.

Global Instance stage_compare_total : TotalCompare stage_compare.
Proof.
  split; unfold stage_compare.
  - intros x y. rewrite Z.compare_eq_iff. split; [apply (inj _)|congruence].
  - intros x y. apply Z.compare_antisym.
  - intros x y z. rewrite !Z.compare_lt_iff. lia.
Qed.

(** The snapshot of a stored attempt always exists. *)
Lemma snapshot_succeeds db l row :
  short_code_ok db → short_code_attempt db !! l = Some row →
  short_code_snapshot (stored_of db l row) = Ok (snapshot_of (stored_of db l row)).
Proof.
  intros Hok Hl. unfold short_code_snapshot. set (a := stored_of db l row).
  destruct (attempt_checks_ok _ _ (sc_rows _ Hok _ _ Hl)) as (_ & _ & Hd & _).
  assert (traverse (fun sp => ShortCodeRelayMessage_new sp.1 sp.2)
            (filter (fun sp => sp.1 ≠ Capability) (stages_of a)) = Ok (visible_stages a)) as ->.
  { apply traverse_Ok. apply Forall2_fmap_r, Forall_Forall2_diag, Forall_forall.
    intros [s p] [_ Hin]%list_elem_of_filter. apply elem_of_stages_of in Hin.
    unfold a in Hin. rewrite stored_of_message in Hin.
    destruct (sc_messages _ Hok _ _ _ Hin) as (_ & Hlen & _). simpl.
    unfold ShortCodeRelayMessage_new, validate_payload. by pass_guard by (bool_prop; lia). }
  cbn [map_err]. cbn [mbind result_bind]. unfold ShortCodeAttemptSnapshot_new.
  pass_guard by (simpl; lia). pass_guard by (pose proof (visible_stages_len a); lia).
  rewrite (sort_by_id _ stage_compare) by apply visible_stages_sorted.
  rewrite (fail_if_pass (adjacent_any _ _)); [done|].
  apply (sorted_adjacent_strict relay_message_stage stage_compare); [|apply visible_stages_sorted].
  rewrite <- (sort_by_id _ stage_compare (visible_stages a)) by apply visible_stages_sorted.
  apply sort_by_sorted, _.
Qed.

(** ** Rate limits over histories *)

(** The principal and locator of a claim that passes both limits and is not a retry of
    the claimant's own request: a guess at a code. *)
Definition guess (db : ShortCodeDb) (now : Z) (op : short_code_op)
    : option (ShortCodePairingLocator * RelayPrincipalId) :=
  match op with
  | OpClaimAttempt p request =>
      match claim_inputs db p request now with
      | Ok (_, existing, (cp, cl)) =>
          if (cp <? MAX_SHORT_CODE_CLAIMS_PER_PRINCIPAL_WINDOW)
             && (cl <? MAX_SHORT_CODE_CLAIMS_PER_LOCATOR_WINDOW)
             && bool_decide (claim_before_limits p request existing ≠ Some (Ok ScClaimIdentical))
          then Some (scc_locator request, p) else None
      | Err _ => None
      end
  | _ => None
  end.

(** The guesses of a history with their times. *)
Fixpoint guesses (db : ShortCodeDb) (ops : list (Z * short_code_op))
    : list (Z * (ShortCodePairingLocator * RelayPrincipalId)) :=
  match ops with
  | [] => []
  | (now, op) :: ops =>
      let rest := guesses (short_code_step db now op).2 ops in
      match guess db now op with
      | Some lp => (now, lp) :: rest
      | None => rest
      end
  end.

(** Requests as their constructors admit them, at the times of a clock that does not run
    backwards. *)
Definition request_valid (op : short_code_op) : Prop :=
  match op with
  | OpClaimAttempt _ request => 1 <= len (scc_payload request) <= MAX_SHORT_CODE_RELAY_PAYLOAD_BYTES
  | _ => True
  end.

Fixpoint clock_ordered (from : Z) (ops : list (Z * short_code_op)) : Prop :=
  match ops with
  | [] => True
  | (now, op) :: ops => from <= now ∧ request_valid op ∧ clock_ordered now ops
  end.

Section rates.
Context (Q : ShortCodePairingLocator * RelayPrincipalId → Prop) `{∀ lp, Decision (Q lp)}.

Abbreviation selected db w := (window_attempts Q (short_code_claim_rate db) w).

Lemma selected_cleaned db now db1 w :
  cleaned db now db1 → claim_window now <= w → selected db1 w = selected db w.
Proof.
  intros Hc Hw. rewrite (cl_rates _ _ _ Hc), window_attempts_clean.
  rewrite decide_False; [done|lia].
Qed.

Lemma insert_message_row_rates db id n q op db' w :
  insert_message_row db id n q op = Ok db' → selected db' w = selected db w.
Proof. by intros (_ & _ & _ & ->)%insert_message_row_Ok. Qed.

(** Requests other than claims leave the counters of current windows alone. *)
Lemma quiet_step db m now op w :
  short_code_ok db → represents db m → claim_window now <= w →
  (∀ p request, op ≠ OpClaimAttempt p request) →
  selected (short_code_step db now op).2 w = selected db w.
Proof.
  intros Hok Hrep Hw Hop. destruct op as [p r|p r|p r|p r|p r|p r]; [|by destruct (Hop p r)|..];
    unfold short_code_step, publish_short_code_attempt, publish_short_code_message,
      read_short_code_attempt, cancel_short_code_attempt, take_short_code_capability;
    (match goal with |- context [transact db ?m] => destruct m as [[out db']|err] eqn:E end;
       [|done]); cbn [transact snd].
  - apply bind_Ok in E as (? & _ & E). apply bind_Ok in E as (db1 & Hclean & E).
    apply (cleanup_cleaned _ _ _ Hok) in Hclean as Hc. rewrite <- (selected_cleaned _ _ _ _ Hc Hw).
    apply bind_Ok in E as (existing & _ & E). apply bind_Ok in E as ([g c] & _ & E).
    apply bind_Ok in E as ([] & _ & E); [|by simplify_eq].
    unfold insert_short_code_attempt in E. inv_ok. by simplify_eq.
  - apply (open_request _ m) in E as (db1 & l & row & [Hc _ _ _ _ _] & E); [|done|done].
    rewrite <- (selected_cleaned _ _ _ _ Hc Hw). apply bind_Ok in E as ([] & _ & E); [|by simplify_eq].
    apply bind_Ok in E as (db2 & Hins & E). simplify_eq. by eapply insert_message_row_rates.
  - apply (open_request _ m) in E as (db1 & l & row & [Hc _ _ _ _ _] & E); [|done|done].
    rewrite <- (selected_cleaned _ _ _ _ Hc Hw). inv_ok. by simplify_eq.
  - apply (open_request _ m) in E as (db1 & l & row & [Hc _ _ _ _ _] & E); [|done|done].
    rewrite <- (selected_cleaned _ _ _ _ Hc Hw). inv_ok. by simplify_eq.
  - apply (open_request _ m) in E as (db1 & l & row & [Hc _ _ _ _ _] & E); [|done|done].
    rewrite <- (selected_cleaned _ _ _ _ Hc Hw). apply bind_Ok in E as ([] & _ & E);
      unfold update_attempts in E; inv_ok; by simplify_eq.
Qed.

Lemma update_claim_succeeds db l row p payload :
  short_code_ok db → short_code_attempt db !! l = Some row → arow_claimant row = None →
  1 <= len payload <= MAX_SHORT_CODE_RELAY_PAYLOAD_BYTES →
  ∃ db', update_short_code_claim db (arow_attempt_id row) p payload = Ok db'.
Proof.
  intros Hok Hl Hnone Hlen. unfold update_short_code_claim.
  rewrite (update_attempts_one _ l row); [|done|done|..].
  2:{ intros row' Hrow'. bool_prop. by destruct Hrow'. }
  2:{ bool_prop. by rewrite Hnone. }
  cbn [fail_if Z.eqb Pos.eqb negb mbind result_bind]. unfold insert_message_row.
  set (db1 := set_attempts _ _).
  assert (attempt_id_used db1 (arow_attempt_id row) = true) as ->.
  { apply attempt_id_used_true. exists l, (with_claimant p row). simpl.
    by rewrite lookup_insert_eq. }
  assert (is_none (short_code_message db1 !! (arow_attempt_id row, 1)) = true) as Hfree.
  { destruct (short_code_message db1 !! (arow_attempt_id row, 1)) as [q|] eqn:E; [|done].
    assert (is_Some (arow_claimant row)) as [? ?]; [|congruence].
    apply (at_claimed _ _ (sc_rows _ Hok _ _ Hl)). unfold stage_payload. simpl in *. by rewrite E. }
  change (short_code_stage_to_sql CredentialRequest) with 1. rewrite Hfree.
  unfold MAX_SHORT_CODE_RELAY_PAYLOAD_BYTES in Hlen.
  pass_guard by (bool_prop; lia). eauto.
Qed.

(** An admitted first claim goes through. *)
Lemma accept_first_claim db1 m p request now row :
  let l := scc_locator request in
  short_code_ok db1 → represents db1 (live now m) → 0 <= now <= I64_MAX →
  short_code_attempt db1 !! l = Some row →
  1 <= len (scc_payload request) <= MAX_SHORT_CODE_RELAY_PAYLOAD_BYTES →
  principal_attempts db1 p (claim_window now) < MAX_SHORT_CODE_CLAIMS_PER_PRINCIPAL_WINDOW →
  locator_attempts db1 l (claim_window now) < MAX_SHORT_CODE_CLAIMS_PER_LOCATOR_WINDOW →
  arow_owner row ≠ p → arow_claimant row = None → sca_cancelled (stored_of db1 l row) = false →
  ∃ rec db2, record_short_code_claim db1 p l now = Ok rec
    ∧ short_code_claim_rate db2 = short_code_claim_rate rec
    ∧ accept_claim db1 p request now ScClaim (Some (stored_of db1 l row))
      = Ok (snapshot_of (stored_of db2 l (with_claimant p row)), db2).
Proof.
  intros l Hok Hrep Hnow Hl Hlen Hp Hlo Howner Hclaim Hlive.
  destruct (record_claim_succeeds db1 p l now) as [rec Hrec]; [done..|].
  pose proof (ok_record _ _ _ _ _ Hok Hrec Hp Hlo) as Hokr.
  pose proof (record_claim_Ok _ _ _ _ _ Hrec) as Heq.
  assert (short_code_attempt rec !! l = Some row) as Hlr by (by rewrite Heq).
  destruct (update_claim_succeeds rec l row p (scc_payload request)) as [db2 Hupd]; [done..|].
  destruct (first_claim_step db1 m p request now db1 row rec db2) as [[Hok2 _] Hl2]; [done..|].
  exists rec, db2. split; [done|].
  split; [by apply (update_claim_Ok _ _ _ _ _ _ Hokr Hlr Hclaim) in Hupd as [_ ->]|].
  unfold accept_claim. cbn [ok_or]. fold l. rewrite Hrec. cbn [mbind result_bind].
  change (scp_attempt_id (sca_publish (stored_of db1 l row))) with (arow_attempt_id row).
  rewrite Hupd. cbn [mbind result_bind].
  pose proof (load_by_id db2 l (with_claimant p row) Hok2 Hl2) as Hload. simpl in Hload.
  rewrite Hload. cbn [mbind result_bind ok_or].
  by rewrite (snapshot_succeeds db2 l (with_claimant p row) Hok2 Hl2).
Qed.

(** The three ways a claim is decided. *)
Lemma decide_claim_cases p request existing now cp cl :
  let limits := (cp <? MAX_SHORT_CODE_CLAIMS_PER_PRINCIPAL_WINDOW)
                && (cl <? MAX_SHORT_CODE_CLAIMS_PER_LOCATOR_WINDOW) in
  let decided := decide_short_code_claim p request existing now cp cl in
  (claim_before_limits p request existing = Some (Ok ScClaimIdentical)
     ∧ decided = Ok ScClaimIdentical)
  ∨ (claim_before_limits p request existing ≠ Some (Ok ScClaimIdentical)
     ∧ ((limits = true ∧ (decided = Err ShortCodeAttemptUnavailable ∨ decided = Ok ScClaim))
        ∨ (limits = false ∧ ∃ e, decided = Err e))).
Proof.
  intros limits decided. unfold decided, decide_short_code_claim.
  assert (claim_before_limits p request existing = None
    ∨ claim_before_limits p request existing = Some (Err ShortCodeAttemptUnavailable)
    ∨ claim_before_limits p request existing = Some (Ok ScClaimIdentical)) as Hcases.
  { unfold claim_before_limits. destruct existing; [|by left]. repeat case_match; auto. }
  destruct Hcases as [-> | [-> | ->]]; [right|right|left]; (split; [done|]); [| |done].
  - unfold limits. destruct (Z.leb_spec MAX_SHORT_CODE_CLAIMS_PER_PRINCIPAL_WINDOW cp) as [Hc|Hc];
      simpl.
    { right. rewrite (proj2 (Z.ltb_ge _ _) Hc). eauto. }
    rewrite (proj2 (Z.ltb_lt _ _) Hc).
    destruct (Z.leb_spec MAX_SHORT_CODE_CLAIMS_PER_LOCATOR_WINDOW cl) as [Hl|Hl]; simpl.
    { right. rewrite (proj2 (Z.ltb_ge _ _) Hl). eauto. }
    rewrite (proj2 (Z.ltb_lt _ _) Hl). left. split; [done|].
    destruct existing as [a|]; simpl; [|by left].
    match goal with |- context [fail_if ?b _] => destruct b end; simpl; auto.
  - destruct limits; [left|right]; eauto.
Qed.

(** The counters count the guesses. *)
Lemma guess_counted db m now op w :
  short_code_ok db → represents db m → 0 <= now → request_valid op → claim_window now <= w →
  selected (short_code_step db now op).2 w
  = selected db w + match guess db now op with
                    | Some lp => if bool_decide (claim_window now = w ∧ Q lp) then 1 else 0
                    | None => 0
                    end.
Proof.
  intros Hok Hrep Hnow Hvalid Hw.
  destruct op as [p r|p r|p r|p r|p r|p r]; try (rewrite (quiet_step db m) by done; simpl; lia).
  unfold short_code_step, claim_short_code_attempt, guess.
  destruct (claim_inputs db p r now) as [[[db1 existing] [cp cl]]|e] eqn:Hin; [|simpl; lia].
  apply (claim_inputs_Ok _ m) in Hin as (Hc & Hrep1 & Hex & Hcp & Hcl); [|done|done].
  rewrite <- (selected_cleaned _ _ _ _ Hc Hw).
  assert (∀ rec, record_short_code_claim db1 p (scc_locator r) now = Ok rec →
    selected rec w = selected db1 w
      + (if bool_decide (claim_window now = w ∧ Q (scc_locator r, p)) then 1 else 0)) as Hbump.
  { intros rec ->%record_claim_Ok. simpl. apply window_attempts_bump. }
  destruct (decide_claim_cases p r existing now cp cl) as [[Hid Hdec]|[Hid [[Hlim Hdec]|[Hlim [e Hdec]]]]].
  - rewrite Hid, Hdec, bool_decide_eq_false_2, andb_false_r by naive_solver.
    rewrite Z.add_0_r. destruct (accept_claim _ _ _ _ _ _) as [[snap db']|e] eqn:E; simpl;
      [|by rewrite <- (selected_cleaned _ _ _ _ Hc Hw)].
    unfold accept_claim in E. inv_ok. by simplify_eq.
  - rewrite Hlim, (bool_decide_eq_true_2 (claim_before_limits p r existing ≠ _)) by done.
    cbn [andb]. apply andb_true_iff in Hlim as [Hp%Z.ltb_lt Hl%Z.ltb_lt].
    destruct Hdec as [Hdec|Hdec].
    + rewrite Hdec, bool_decide_eq_true_2 by done. rewrite (proj2 (Z.ltb_lt _ _) Hp).
      rewrite (proj2 (Z.ltb_lt _ _) Hl). cbn [andb]. subst cl.
      destruct (record_claim_succeeds db1 p (scc_locator r) now) as [rec Hrec];
        [apply Hc|split; [done|apply Hc]|done|]. rewrite Hrec. by apply Hbump.
    + rewrite Hdec. apply decide_claim_Ok in Hdec as (a & -> & _ & _ & Hlive & _ & Howner & Hclaim).
      symmetry in Hex. apply fmap_Some in Hex as (row & Hl1 & ->). subst cp cl.
      destruct (accept_first_claim db1 m p r now row) as (rec & db2 & Hrec & Hrates & ->);
        [apply Hc|done|split; [done|apply Hc]|done..|]. cbn [transact snd].
      rewrite Hrates. by apply Hbump.
  - rewrite Hlim, Hdec. cbn [andb]. rewrite Z.add_0_r.
    assert (bool_decide (e = ShortCodeAttemptUnavailable)
      && (cp <? MAX_SHORT_CODE_CLAIMS_PER_PRINCIPAL_WINDOW)
      && (cl <? MAX_SHORT_CODE_CLAIMS_PER_LOCATOR_WINDOW) = false) as ->
      by (by rewrite <- andb_assoc, Hlim, andb_false_r).
    simpl. by rewrite <- (selected_cleaned _ _ _ _ Hc Hw).
Qed.

Definition count_guesses (w : Z) (log : list (Z * (ShortCodePairingLocator * RelayPrincipalId))) : Z :=
  len (filter (fun g => claim_window g.1 = w ∧ Q g.2) log).

Context (bound : Z) (Hbound : ∀ db w, short_code_ok db → selected db w <= bound).

Lemma claim_window_mono t t' : t <= t' → claim_window t <= claim_window t'.
Proof.
  intros Ht. unfold claim_window, SHORT_CODE_CLAIM_WINDOW_SECONDS.
  pose proof (Z.div_mod t 600). pose proof (Z.div_mod t' 600).
  pose proof (Z.div_le_mono t t' 600). change (10 * 60) with 600. lia.
Qed.

Lemma guesses_within from ops db m w :
  short_code_ok db → represents db m → 0 <= from → clock_ordered from ops →
  (w < claim_window from → count_guesses w (guesses db ops) = 0)
  ∧ (claim_window from <= w → selected db w + count_guesses w (guesses db ops) <= bound).
Proof.
  revert from db m. induction ops as [|[now op] ops IH]; intros from db m Hok Hrep Hfrom Hclock.
  { split; [done|]. intros _. pose proof (Hbound db w Hok). unfold count_guesses, len. simpl. lia. }
  destruct Hclock as (Hnow & Hvalid & Hclock). pose proof (claim_window_mono _ _ Hnow) as Hmono.
  pose proof (short_code_step_refines db m now op Hok Hrep) as (Hok' & m' & _ & Hrep').
  destruct (IH now _ m' Hok' Hrep') as [Hpast Hcur]; [lia|done|].
  pose proof (Hbound db w Hok) as Hb. unfold count_guesses, len in *.
  assert (length (filter (fun g => claim_window g.1 = w ∧ Q g.2) (guesses db ((now, op) :: ops)))
    = (length (filter (fun g => claim_window g.1 = w ∧ Q g.2) (guesses (short_code_step db now op).2 ops))
       + match guess db now op with
         | Some lp => if bool_decide (claim_window now = w ∧ Q lp) then 1 else 0
         | None => 0
         end)%nat) as ->.
  { cbn [guesses]. destruct (guess db now op) as [lp|]; [|lia]. rewrite filter_cons. simpl.
    case_bool_decide; case_decide; simpl; try done; lia. }
  destruct (decide (claim_window now <= w)) as [Hw|Hw].
  - pose proof (guess_counted db m now op w Hok Hrep) as Hg. specialize (Hcur Hw).
    rewrite Hg in Hcur by (lia || done).
    split; [lia|]. intros _. destruct (guess db now op); [case_bool_decide|]; lia.
  - specialize (Hpast ltac:(lia)).
    destruct (guess db now op); [rewrite bool_decide_eq_false_2 by lia|]; split; lia.
Qed.

Lemma guesses_bounded ops w :
  clock_ordered 0 ops → count_guesses w (guesses empty_short_code_db ops) <= bound.
Proof.
  intros Hclock. pose proof (Hbound _ w short_code_ok_empty) as H0.
  destruct (guesses_within 0 ops empty_short_code_db ∅ w) as [Hpast Hcur];
    [apply short_code_ok_empty|apply represents_empty|done|done|].
  assert (selected empty_short_code_db w = 0) as Hs by done. rewrite Hs in *.
  destruct (decide (w < claim_window 0)); [rewrite Hpast by done|]; lia.
Qed.

(** Ten minutes from any second on meet at most two windows. *)
Lemma span_windows t t' :
  t <= t' < t + SHORT_CODE_CLAIM_WINDOW_SECONDS →
  claim_window t' = claim_window t ∨ claim_window t' = claim_window t + SHORT_CODE_CLAIM_WINDOW_SECONDS.
Proof.
  unfold claim_window, SHORT_CODE_CLAIM_WINDOW_SECONDS. change (10 * 60) with 600. intros Ht.
  pose proof (Z.div_mod t 600). pose proof (Z.div_mod t' 600). pose proof (Z.mod_pos_bound t 600).
  pose proof (Z.mod_pos_bound t' 600). lia.
Qed.

Lemma guesses_span_bounded ops t :
  clock_ordered 0 ops →
  len (filter (fun g => t <= g.1 < t + SHORT_CODE_CLAIM_WINDOW_SECONDS ∧ Q g.2) (guesses empty_short_code_db ops)) <= 2 * bound.
Proof.
  intros Hclock. pose proof (guesses_bounded ops (claim_window t) Hclock) as H1.
  pose proof (guesses_bounded ops (claim_window t + SHORT_CODE_CLAIM_WINDOW_SECONDS) Hclock) as H2.
  unfold count_guesses, len in *.
  enough (∀ log : list (Z * (ShortCodePairingLocator * RelayPrincipalId)),
    len (filter (fun g => t <= g.1 < t + SHORT_CODE_CLAIM_WINDOW_SECONDS ∧ Q g.2) log)
    <= len (filter (fun g => claim_window g.1 = claim_window t ∧ Q g.2) log)
       + len (filter (fun g => claim_window g.1 = claim_window t + SHORT_CODE_CLAIM_WINDOW_SECONDS ∧ Q g.2) log)) as Hall.
  { specialize (Hall (guesses empty_short_code_db ops)). unfold len in Hall. lia. }
  unfold len. intros log. induction log as [|g log IH]; [done|]. rewrite !filter_cons.
  destruct (decide (t <= g.1 < _ ∧ _)) as [[Hg Hq]|].
  - destruct (span_windows t g.1 Hg) as [Hw|Hw].
    + rewrite (decide_True (P := claim_window g.1 = claim_window t ∧ Q g.2)) by done. cbn [length].
      destruct (decide _); cbn [length]; lia.
    + rewrite (decide_True (P := claim_window g.1 = claim_window t + _ ∧ Q g.2)) by done. cbn [length].
      destruct (decide _); cbn [length]; lia.
  - destruct (decide (claim_window g.1 = claim_window t ∧ _)), (decide (claim_window g.1 = claim_window t + _ ∧ _));
      cbn [length]; lia.
Qed.
End rates.

(** C31: Guessing codes is rate limited.  Over any history of well-formed requests under
    a clock that does not run backwards, the claims that pass the limits and are not
    retries number at most 10 per principal and at most 5 per locator in each window of ten
    minutes aligned to the clock, so at most 20 and 10 in ten minutes from any second on;
    expiry and cleanup of the counters do not let a window start over. *)
Theorem guesses_rate_limited ops
    (Hclock : clock_ordered 0 ops) :
  let log := guesses empty_short_code_db ops in
  (∀ p w, len (filter (fun g => claim_window g.1 = w ∧ g.2.2 = p) log) <= 10)
  ∧ (∀ l w, len (filter (fun g => claim_window g.1 = w ∧ g.2.1 = l) log) <= 5)
  ∧ (∀ p t, len (filter (fun g => t <= g.1 < t + 600 ∧ g.2.2 = p) log) <= 20)
  ∧ (∀ l t, len (filter (fun g => t <= g.1 < t + 600 ∧ g.2.1 = l) log) <= 10).
Proof.
  cbv zeta.
  assert (∀ p db w, short_code_ok db → window_attempts (fun lp => lp.2 = p) (short_code_claim_rate db) w <= 10) as Hp
    by (intros p db w Hok; apply (sc_by_principal db Hok p)).
  assert (∀ l db w, short_code_ok db → window_attempts (fun lp => lp.1 = l) (short_code_claim_rate db) w <= 5) as Hl
    by (intros l db w Hok; apply (sc_by_locator db Hok l)).
  split_and!.
  - intros p w. by apply (guesses_bounded (fun lp => lp.2 = p) 10 (Hp p)).
  - intros l w. by apply (guesses_bounded (fun lp => lp.1 = l) 5 (Hl l)).
  - intros p t. by apply (guesses_span_bounded (fun lp => lp.2 = p) 10 (Hp p)).
  - intros l t. by apply (guesses_span_bounded (fun lp => lp.1 = l) 5 (Hl l)).
Qed.

(** ** Exact answers *)

(** A live attempt of the database that a request of its version addresses. *)
Record addresses (db : ShortCodeDb) (now : Z) (version : ProtocolVersion)
    (id : ShortCodePairingAttemptId) (l : ShortCodePairingLocator) (row : AttemptRow) : Prop := {
  ad_row : short_code_attempt db !! l = Some row;
  ad_id : arow_attempt_id row = id;
  ad_version : version = mk_ProtocolVersion (arow_version_major row) (arow_version_minor row);
  ad_live : now < arow_deadline row;
  ad_active : arow_cancelled row = 0 }.

Lemma cleanup_succeeds db now :
  0 <= now <= I64_MAX → ∃ db1, cleanup_short_code_state db now = Ok db1.
Proof.
  intros Hnow. unfold cleanup_short_code_state, short_code_claim_window.
  rewrite (to_sql_integer_fits now) by lia. cbn [mbind result_bind].
  rewrite to_sql_integer_fits; [eauto|]. unfold SHORT_CODE_CLAIM_WINDOW_SECONDS.
  pose proof (Z.mod_pos_bound now (10 * 60)). lia.
Qed.

(** Loading in a fresh transaction finds the live row with the identifier, if any. *)
Lemma transaction_loads db now id :
  short_code_ok db → 0 <= now <= I64_MAX →
  ∃ db1, cleanup_short_code_state db now = Ok db1 ∧ cleaned db now db1
  ∧ ((∃ l row, short_code_attempt db !! l = Some row ∧ arow_attempt_id row = id
        ∧ now < arow_deadline row ∧ short_code_attempt db1 !! l = Some row
        ∧ stored_of db1 l row = stored_of db l row
        ∧ load_short_code_attempt db1 None (Some id) = Ok (Some (stored_of db l row)))
     ∨ ((∀ l row, short_code_attempt db !! l = Some row → arow_attempt_id row = id →
          arow_deadline row <= now)
        ∧ load_short_code_attempt db1 None (Some id) = Ok None)).
Proof.
  intros Hok Hnow. destruct (cleanup_succeeds db now Hnow) as [db1 Hclean].
  exists db1. split; [done|]. apply (cleanup_cleaned _ _ _ Hok) in Hclean as Hc.
  split; [done|]. pose proof (cl_ok _ _ _ Hc) as Hok1.
  pose proof (load_attempt_cases db1 None (Some id) Hok1) as Hcases.
  assert (∀ l row, attempt_matches None (Some id) (l, row) = true ↔ arow_attempt_id row = id) as Hm.
  { intros. unfold attempt_matches. simpl. by rewrite bool_decide_eq_true. }
  destruct (load_short_code_attempt db1 None (Some id)) as [[st|]|e]; simpl in Hcases.
  - destruct Hcases as (l & row & Hl & Hid%Hm & -> & _). left. exists l, row.
    pose proof (proj1 (cleaned_lookup _ _ _ _ _ Hc) Hl) as [Hl0 Hd].
    assert (stored_of db1 l row = stored_of db l row) as Heq
      by (apply stored_of_ext; intros s; by eapply (cl_payload _ _ _ Hc)).
    by rewrite Heq.
  - right. split; [|done]. intros l row Hl Hid. apply Z.nlt_ge. intros Hd.
    assert (short_code_attempt db1 !! l = Some row) as Hl1 by (by apply (cleaned_lookup _ _ _ _ _ Hc)).
    specialize (Hcases _ _ Hl1). by rewrite (proj2 (Hm l row) Hid) in Hcases.
  - exfalso. destruct Hcases as (_ & l & row & l' & row' & Hl & Hl' & Hne & M%Hm & M'%Hm).
    apply Hne. eapply (sc_unique _ Hok1); eauto. congruence.
Qed.

Definition releasable (db : ShortCodeDb) (p : RelayPrincipalId)
    (request : ShortCodeCapabilityTakeRequest) (now : Z) (payload : bytes) : Prop :=
  ∃ l row, addresses db now (sct_version request) (sct_attempt_id request) l row
  ∧ arow_claimant row = Some p
  ∧ is_Some (stage_payload db (arow_attempt_id row) CreatorConfirmation)
  ∧ is_Some (stage_payload db (arow_attempt_id row) ClaimantConfirmation)
  ∧ stage_payload db (arow_attempt_id row) Capability = Some payload
  ∧ (arow_capability_take_id row = None ∨ arow_capability_take_id row = Some (sct_take_id request)).

Lemma reachable_ok ops : short_code_ok (short_code_run empty_short_code_db ops).2.
Proof.
  destruct (short_code_run_refines empty_short_code_db ∅ ops) as (m & _ & _ & Hok);
    [apply short_code_ok_empty|apply represents_empty|]. done.
Qed.

Lemma active_not_cancelled db row : attempt_ok db row → arow_cancelled row ≠ 1 → arow_cancelled row = 0.
Proof. intros Hrow Hne. destruct (attempt_checks_ok _ _ Hrow) as (_ & _ & _ & Hc). lia. Qed.

(** The guard of a take is the readiness of the attempt. *)
Lemma decide_take_iff db l row p request now :
  attempt_ok db row →
  is_ok (decide_short_code_capability_take p request (stored_of db l row) now) = true
  ↔ sct_version request = mk_ProtocolVersion (arow_version_major row) (arow_version_minor row)
    ∧ now < arow_deadline row ∧ arow_cancelled row = 0 ∧ arow_claimant row = Some p
    ∧ is_Some (stage_payload db (arow_attempt_id row) CreatorConfirmation)
    ∧ is_Some (stage_payload db (arow_attempt_id row) ClaimantConfirmation)
    ∧ is_Some (stage_payload db (arow_attempt_id row) Capability)
    ∧ (arow_capability_take_id row = None ∨ arow_capability_take_id row = Some (sct_take_id request)).
Proof.
  intros Hrow. unfold decide_short_code_capability_take. rewrite !stored_of_message. simpl.
  destruct (attempt_checks_ok _ _ Hrow) as (_ & _ & _ & Hc).
  destruct (stage_payload db (arow_attempt_id row) CreatorConfirmation),
    (stage_payload db (arow_attempt_id row) ClaimantConfirmation),
    (stage_payload db (arow_attempt_id row) Capability); simpl;
    rewrite ?orb_true_r; cbn [fail_if mbind result_bind is_ok];
    try (split; [done|]; intros (_ & _ & _ & _ & [? ?] & [? ?] & [? ?] & _); done).
  rewrite !orb_false_r.
  match goal with |- context [fail_if ?b _] => destruct b eqn:Hb end;
    cbn [fail_if mbind result_bind is_ok]; bool_prop.
  - split; [done|]. intros (Hv & ? & ? & Hcl & _).
    destruct Hb as [[[?|?]|?]|?]; [congruence|lia|lia|congruence].
  - destruct Hb as [[[Hv Hd] Hcan] Hcl]. apply dec_stable in Hv, Hcl.
    assert (arow_cancelled row = 0) by lia.
    destruct (arow_capability_take_id row) as [t|]; [case_bool_decide as Ht|]; simpl.
    + split; [|done]. intros _. split_and!; (done || congruence || (right; congruence)).
    + split; [done|]. intros (_ & _ & _ & _ & _ & _ & _ & [?|[= ?]]); congruence.
    + split; [|done]. intros _. split_and!; (done || congruence || by left).
Qed.

(** Consuming or repeating: the transaction of a ready attempt commits. *)
Lemma take_commits db p request now l row q :
  short_code_ok db → 0 <= now <= I64_MAX →
  short_code_attempt db !! l = Some row → arow_attempt_id row = sct_attempt_id request →
  now < arow_deadline row →
  is_ok (decide_short_code_capability_take p request (stored_of db l row) now) = true →
  stage_payload db (arow_attempt_id row) Capability = Some q →
  (take_short_code_capability db p request now).1 = Ok q.
Proof.
  intros Hok Hnow Hl Hid Hd Hready Hq. unfold take_short_code_capability.
  destruct (transaction_loads db now (sct_attempt_id request) Hok Hnow) as
    (db1 & -> & Hc & [(l' & row' & Hl' & Hid' & _ & Hl1 & _ & Hload)|[Hnone _]]).
  2:{ pose proof (Hnone _ _ Hl Hid). lia. }
  assert (l' = l) as -> by (eapply (sc_unique _ Hok); eauto; congruence). simplify_eq.
  cbn [mbind result_bind]. rewrite Hload. cbn [mbind result_bind ok_or].
  destruct (decide_short_code_capability_take p request (stored_of db l row) now) as [dec|] eqn:Hdec;
    [|done]. cbn [mbind result_bind]. rewrite stored_of_message, Hq. cbn [mbind result_bind ok_or].
  destruct dec; [|done].
  rewrite (update_attempts_one db1 l row); [done|apply Hc|done| |].
  - intros row2 Hrow2. bool_prop. destruct Hrow2 as [[-> _] _]. done.
  - assert (arow_capability_take_id row = None) as Htake.
    { unfold decide_short_code_capability_take in Hdec. inv_ok. simpl in Hdec.
      destruct (arow_capability_take_id row); [by case_bool_decide|done]. }
    bool_prop. by rewrite (at_consumed _ _ (sc_rows _ Hok _ _ Hl)), Htake.
Qed.

(** The exact answer of a capability retrieval.  After any history, the claimant of
    a live, uncancelled, mutually confirmed attempt gets its capability, under a first
    take identifier or again under the same one; every other request is answered
    unavailable and changes nothing. *)
Theorem take_outcome ops p request now
    (Hnow : 0 <= now <= I64_MAX) :
  let db := (short_code_run empty_short_code_db ops).2 in
  (∀ payload, releasable db p request now payload →
     (take_short_code_capability db p request now).1 = Ok payload)
  ∧ ((∀ payload, ¬ releasable db p request now payload) →
     take_short_code_capability db p request now = (Err ShortCodeAttemptUnavailable, db)).
Proof.
  intros db. pose proof (reachable_ok ops : short_code_ok db) as Hok. split.
  - intros q (l & row & [Hl Hid Hv Hd Hcan] & Hcl & H5 & H6 & H7 & Ht).
    apply (take_commits db p request now l row); try done.
    apply (decide_take_iff db l row p request now (sc_rows _ Hok _ _ Hl)). by rewrite H7.
  - intros Hnot. unfold take_short_code_capability.
    destruct (transaction_loads db now (sct_attempt_id request) Hok Hnow) as
      (db1 & -> & Hc & [(l & row & Hl & Hid & Hd & _ & _ & Hload)|[_ Hload]]);
      cbn [mbind result_bind]; rewrite Hload; cbn [mbind result_bind ok_or]; [|done].
    pose proof (decide_take_iff db l row p request now (sc_rows _ Hok _ _ Hl)) as Hiff.
    destruct (decide_short_code_capability_take p request (stored_of db l row) now) as [dec|e] eqn:Hdec.
    + destruct (proj1 Hiff eq_refl) as (Hv & _ & Hcan & Hcl & H5 & H6 & [q7 H7] & Ht).
      destruct (Hnot q7). by exists l, row.
    + cbn [mbind result_bind transact]. unfold decide_short_code_capability_take in Hdec.
      match type of Hdec with context [fail_if ?b _] => destruct b end; simpl in Hdec;
        repeat case_match; by simplify_eq.
Qed.

Lemma snapshot_of_message a s :
  snapshot_message (snapshot_of a) s = if decide (s = Capability) then None else sca_message a s.
Proof.
  unfold snapshot_message. cbn [snap_messages snapshot_of].
  assert (∀ q, mk_ShortCodeRelayMessage s q ∈ visible_stages a
    ↔ s ≠ Capability ∧ sca_message a s = Some q) as Hin.
  { intros q. unfold visible_stages. rewrite list_elem_of_fmap. split.
    - intros ([s' q'] & [= -> ->] & [Hs Hq]%list_elem_of_filter). split; [done|].
      by apply elem_of_stages_of.
    - intros [Hs Hq]. exists (s, q). split; [done|]. apply list_elem_of_filter. split; [done|].
      by apply elem_of_stages_of. }
  destruct (filter _ (visible_stages a)) as [|[s' q] ms] eqn:E; simpl.
  - destruct (decide (s = Capability)); [done|]. destruct (sca_message a s) as [q|] eqn:Hq; [|done].
    assert (mk_ShortCodeRelayMessage s q ∈ filter (fun m => relay_message_stage m = s) (visible_stages a))
      as Hm by (apply list_elem_of_filter; split; [done|by apply Hin]).
    rewrite E in Hm. by apply elem_of_nil in Hm.
  - assert (mk_ShortCodeRelayMessage s' q
      ∈ filter (fun m => relay_message_stage m = s) (visible_stages a)) as Hm by (rewrite E; left).
    apply list_elem_of_filter in Hm as [Hs Hm]. simpl in Hs. subst s'.
    apply Hin in Hm as [Hne Hq]. by rewrite decide_False.
Qed.

(** The exact answer of a participant's read.  After any history, the creator or the
    claimant of a live, uncancelled attempt gets a snapshot that shows every stored stage
    except the capability, which only a take can release; anyone else, or any other
    attempt, is answered unavailable and nothing changes. *)
Theorem read_outcome ops p request now
    (Hnow : 0 <= now <= I64_MAX) :
  let db := (short_code_run empty_short_code_db ops).2 in
  let entitled l row := addresses db now (scr_version request) (scr_attempt_id request) l row
                        ∧ (p = arow_owner row ∨ arow_claimant row = Some p) in
  (∀ l row, entitled l row →
     ∃ snapshot, (read_short_code_attempt db p request now).1 = Ok snapshot
       ∧ ∀ s, snapshot_message snapshot s
              = if decide (s = Capability) then None
                else stage_payload db (scr_attempt_id request) s)
  ∧ ((∀ l row, ¬ entitled l row) →
     read_short_code_attempt db p request now = (Err ShortCodeAttemptUnavailable, db)).
Proof.
  intros db entitled. pose proof (reachable_ok ops : short_code_ok db) as Hok.
  unfold read_short_code_attempt.
  destruct (transaction_loads db now (scr_attempt_id request) Hok Hnow) as
    (db1 & -> & Hc & [(l & row & Hl & Hid & Hd & Hl1 & Heq & Hload)|[Hnone Hload]]);
    cbn [mbind result_bind]; rewrite Hload; cbn [mbind result_bind ok_or].
  2:{ split; [|done]. intros l row [[Hl Hid _ Hd _] _]. specialize (Hnone _ _ Hl Hid). lia. }
  unfold authorize_short_code_read. simpl.
  pose proof (snapshot_succeeds db1 l row (cl_ok _ _ _ Hc) Hl1) as Hsnap. rewrite Heq in Hsnap.
  match goal with |- context [fail_if ?b _] => destruct b eqn:Hb end;
    cbn [fail_if mbind result_bind]; bool_prop.
  - split; [|done]. intros l' row' [[Hl' Hid' Hv _ Hcan] Hp].
    assert (l' = l) as -> by (eapply (sc_unique _ Hok); eauto; congruence). simplify_eq.
    exfalso. destruct Hb as [[[?|?]|?]|[? ?]]; [congruence|lia|lia|]. destruct Hp; congruence.
  - rewrite Hsnap. cbn [mbind result_bind transact fst]. split.
    + intros _ _ _. eexists. split; [done|]. intros s. by rewrite snapshot_of_message, stored_of_message, Hid.
    + intros Hnot. destruct (Hnot l row). destruct Hb as [[[Hv ?] Hcan] Hp].
      apply dec_stable in Hv. split; [|].
      * split; try done. eapply active_not_cancelled; [by eapply (sc_rows _ Hok)|done].
      * destruct Hp as [Hp|Hp]; apply dec_stable in Hp; [by left|by right].
Qed.

Lemma claim_counts_succeed db p l now :
  short_code_ok db → 0 <= now <= I64_MAX →
  short_code_claim_counts db p l now
  = Ok (principal_attempts db p (claim_window now), locator_attempts db l (claim_window now)).
Proof.
  intros Hok Hnow. unfold short_code_claim_counts, short_code_claim_window, to_usize.
  fold (claim_window now). rewrite to_sql_integer_fits.
  2:{ unfold claim_window, SHORT_CODE_CLAIM_WINDOW_SECONDS.
      pose proof (Z.mod_pos_bound now (10 * 60)). lia. }
  assert (∀ k n, short_code_claim_rate db !! k = Some n → 1 <= n) as Hr
    by (intros [[? ?] ?]; apply (sc_rates _ Hok)).
  assert (0 <= principal_attempts db p (claim_window now)) as Hp%Z.leb_le
    by (rewrite principal_attempts_window; by apply window_attempts_nonneg).
  assert (0 <= locator_attempts db l (claim_window now)) as Hl%Z.leb_le
    by (rewrite locator_attempts_window; by apply window_attempts_nonneg).
  cbn [mbind result_bind]. rewrite Hp. cbn [mbind result_bind]. by rewrite Hl.
Qed.

(** C40: What a rate-limited principal is told.  Once the claims of a principal reached
    the limit of the window, a further claim is answered unavailable when a live attempt
    is published under the locator with another protocol version than the request's, and
    rate-limited when no attempt is published under it: the version check runs before
    the limit, so the answer depends on whether the locator exists. *)
Theorem rate_limited_probe ops p request now
    (Hnow : 0 <= now <= I64_MAX) :
  let db := (short_code_run empty_short_code_db ops).2 in
  let attempt := short_code_attempt db !! scc_locator request in
  principal_attempts db p (claim_window now) = 10 →
  (∀ row, attempt = Some row → now < arow_deadline row →
     scc_version request ≠ mk_ProtocolVersion (arow_version_major row) (arow_version_minor row) →
     claim_short_code_attempt db p request now = (Err ShortCodeAttemptUnavailable, db))
  ∧ (attempt = None → claim_short_code_attempt db p request now = (Err ShortCodeClaimRateLimited, db)).
Proof.
  intros db attempt Hcount. pose proof (reachable_ok ops : short_code_ok db) as Hok.
  unfold claim_short_code_attempt, claim_inputs.
  destruct (cleanup_succeeds db now Hnow) as [db1 Hclean]. rewrite Hclean. cbn [mbind result_bind].
  apply (cleanup_cleaned _ _ _ Hok) in Hclean as Hc. pose proof (cl_ok _ _ _ Hc) as Hok1.
  rewrite load_by_locator by done. cbn [mbind result_bind].
  rewrite (claim_counts_succeed db1) by done. cbn [mbind result_bind].
  assert (principal_attempts db1 p (claim_window now) = 10) as ->.
  { rewrite <- Hcount, !principal_attempts_window. by apply (selected_cleaned _ db now). }
  unfold decide_short_code_claim. split.
  - intros row Hrow Hd Hv.
    assert (short_code_attempt db1 !! scc_locator request = Some row) as ->
      by (by apply (cleaned_lookup _ _ _ _ _ Hc)). simpl.
    by rewrite bool_decide_eq_true_2 by (simpl; congruence).
  - intros Hnone. assert (short_code_attempt db1 !! scc_locator request = None) as ->; [|done].
    apply eq_None_not_Some. intros [row Hrow]. apply (cleaned_lookup _ _ _ _ _ Hc) in Hrow as [Hrow _].
    unfold attempt in Hnone. congruence.
Qed.
