(* ===== verification/ShortCodeExamples.v ===== *)
(** * Concrete runs of the short-code relay

    A complete handshake, and a principal that exhausts its claims, executed on the
    model. *)

From S2P Require Import Prelude Identifiers RelayModel Wire RelayStore.
From S2P Require Import ShortCode ShortCodeProofs Handshake ShortCodeLimits.
Open Scope Z_scope.

Definition pairing_creator : RelayPrincipalId := repeat_id KRelayPrincipalId x01.
Definition pairing_claimant : RelayPrincipalId := repeat_id KRelayPrincipalId x02.
Definition pairing_locator : ShortCodePairingLocator := repeat_id KShortCodePairingLocator x03.
Definition pairing_attempt : ShortCodePairingAttemptId := repeat_id KShortCodePairingAttemptId x04.
Definition pairing_take : ShortCodeCapabilityTakeId := repeat_id KShortCodeCapabilityTakeId x05.

Definition pairing_publish : ShortCodeAttemptPublishRequest :=
  mk_ShortCodeAttemptPublishRequest application_v1 pairing_locator pairing_attempt 1300.

Definition send_stage (p : RelayPrincipalId) (stage : ShortCodeRelayStage) (b : byte)
    : short_code_op :=
  OpPublishMessage p (mk_ShortCodeAttemptMessageRequest application_v1 pairing_attempt stage [b]).

Definition take_request : ShortCodeCapabilityTakeRequest :=
  ShortCodeCapabilityTakeRequest_new application_v1 pairing_attempt pairing_take.

(** Up to the capability. *)
Definition handshake_ops : list (Z * short_code_op) :=
  [(1000, OpPublishAttempt pairing_creator pairing_publish);
   (1001, OpClaimAttempt pairing_claimant
            (mk_ShortCodeAttemptClaimRequest application_v1 pairing_locator [x10]));
   (1002, send_stage pairing_creator CredentialResponse x11);
   (1003, send_stage pairing_claimant ClaimantFinalization x12);
   (1004, send_stage pairing_creator CreatorIdentity x13);
   (1005, send_stage pairing_claimant ClaimantConfirmation x15);
   (1006, send_stage pairing_creator CreatorConfirmation x14);
   (1007, send_stage pairing_creator Capability x16)].

Definition take_ops : list (Z * short_code_op) :=
  handshake_ops ++ [(1008, OpTakeCapability pairing_claimant take_request)].

Definition handshake_events : list (Z * handshake_event) :=
  [(1000, Published pairing_creator pairing_publish);
   (1001, Claimed pairing_claimant pairing_attempt [x10]);
   (1002, Sent pairing_creator pairing_attempt CredentialResponse [x11]);
   (1003, Sent pairing_claimant pairing_attempt ClaimantFinalization [x12]);
   (1004, Sent pairing_creator pairing_attempt CreatorIdentity [x13]);
   (1005, Sent pairing_claimant pairing_attempt ClaimantConfirmation [x15]);
   (1006, Sent pairing_creator pairing_attempt CreatorConfirmation [x14]);
   (1007, Sent pairing_creator pairing_attempt Capability [x16])].

Lemma capability_needs_handshake_witness :
  ∃ before t creator request since q5 q6,
    handshake_events = before ++ (t, Published creator request) :: since
    ∧ scp_attempt_id request = pairing_attempt ∧ 1008 < scp_deadline_unix_seconds request
    ∧ creator ≠ pairing_claimant
    ∧ (∃ q, Claimed pairing_claimant pairing_attempt q ∈ since.*2)
    ∧ Sent creator pairing_attempt CreatorConfirmation q5 ∈ since.*2
    ∧ Sent pairing_claimant pairing_attempt ClaimantConfirmation q6 ∈ since.*2
    ∧ Sent creator pairing_attempt Capability [x16] ∈ since.*2
    ∧ (∀ p', Cancelled p' pairing_attempt ∉ since.*2)
    ∧ (∀ p' r, Published p' r ∈ since.*2 → scp_attempt_id r ≠ pairing_attempt)
    ∧ (∀ p' t' c', Taken p' pairing_attempt t' c' ∈ since.*2 →
         p' = pairing_claimant ∧ t' = pairing_take ∧ c' = [x16]).
Proof.
  apply (capability_needs_handshake take_ops handshake_events 1008 pairing_claimant pairing_attempt
    pairing_take [x16] []).
  vm_compute. reflexivity.
Defined.

Lemma take_outcome_witness :
  (take_short_code_capability (short_code_run empty_short_code_db handshake_ops).2
     pairing_claimant take_request 1008).1 = Ok [x16].
Proof.
  apply (take_outcome handshake_ops pairing_claimant take_request 1008); [unfold I64_MAX; lia|].
  exists pairing_locator,
    (mk_AttemptRow pairing_attempt pairing_creator (Some pairing_claimant) 1 0 1300 0 0 None).
  split; [split; [vm_compute; reflexivity|reflexivity|vm_compute; reflexivity|simpl; lia|reflexivity]|].
  split; [reflexivity|]. split; [exists [x14]; vm_compute; reflexivity|].
  split; [exists [x15]; vm_compute; reflexivity|].
  split; [vm_compute; reflexivity|by left].
Defined.

Lemma read_outcome_witness :
  ∃ snapshot,
    (read_short_code_attempt (short_code_run empty_short_code_db handshake_ops).2 pairing_claimant
       (ShortCodeAttemptReadRequest_new application_v1 pairing_attempt) 1008).1 = Ok snapshot
    ∧ ∀ s, snapshot_message snapshot s
           = if decide (s = Capability) then None
             else stage_payload (short_code_run empty_short_code_db handshake_ops).2
                    pairing_attempt s.
Proof.
  apply (read_outcome handshake_ops pairing_claimant
    (ShortCodeAttemptReadRequest_new application_v1 pairing_attempt) 1008
    ltac:(unfold I64_MAX; lia)) with
    (l := pairing_locator)
    (row := mk_AttemptRow pairing_attempt pairing_creator (Some pairing_claimant) 1 0 1300 0 0 None).
  split; [|by right].
  split; [vm_compute; reflexivity|reflexivity|vm_compute; reflexivity|simpl; lia|reflexivity].
Defined.

(** Ten claims of unpublished locators. *)
Definition probe_claim (version : ProtocolVersion) (b : byte) : ShortCodeAttemptClaimRequest :=
  mk_ShortCodeAttemptClaimRequest version (repeat_id KShortCodePairingLocator b) [x10].

Definition exhausting_ops : list (Z * short_code_op) :=
  (1000, OpPublishAttempt pairing_creator pairing_publish) ::
  ((fun b => (1001, OpClaimAttempt pairing_claimant (probe_claim application_v1 b))) <$>
     [x20; x21; x22; x23; x24; x25; x26; x27; x28; x29; x2a]).

Lemma guesses_rate_limited_witness :
  len (filter (fun g => claim_window g.1 = 600 ∧ g.2.2 = pairing_claimant)
         (guesses empty_short_code_db exhausting_ops)) <= 10
  ∧ len (guesses empty_short_code_db exhausting_ops) = 10.
Proof.
  split; [|vm_compute; reflexivity].
  refine (proj1 (guesses_rate_limited exhausting_ops _) pairing_claimant 600).
  cbn. unfold MAX_SHORT_CODE_RELAY_PAYLOAD_BYTES, len. cbn. lia.
Defined.

(** The limit of the windows is not one of every ten minutes: claims in the last second of
    a window and in the first second of the next pass twice the limits, of one principal and
    of one locator. *)
Definition boundary_ops (locators : list byte) : list (Z * short_code_op) :=
  ((fun b => (1199, OpClaimAttempt pairing_claimant (probe_claim application_v1 b))) <$> locators)
  ++ ((fun b => (1200, OpClaimAttempt pairing_claimant (probe_claim application_v1 b))) <$> locators).

Example guesses_double_across_boundary :
  len (filter (fun g => 1199 <= g.1 < 1799 ∧ g.2.2 = pairing_claimant)
         (guesses empty_short_code_db (boundary_ops [x20; x21; x22; x23; x24; x25; x26; x27; x28; x29; x2a]))) = 20
  ∧ len (filter (fun g => 1199 <= g.1 < 1799 ∧ g.2.1 = repeat_id KShortCodePairingLocator x20)
           (guesses empty_short_code_db (boundary_ops (replicate 6 x20)))) = 10.
Proof. split; vm_compute; reflexivity. Qed.

Definition other_version : ProtocolVersion := mk_ProtocolVersion 1 7.

Lemma rate_limited_probe_witness :
  (claim_short_code_attempt (short_code_run empty_short_code_db exhausting_ops).2 pairing_claimant
     (probe_claim other_version x03) 1002).1 = Err ShortCodeAttemptUnavailable
  ∧ (claim_short_code_attempt (short_code_run empty_short_code_db exhausting_ops).2 pairing_claimant
       (probe_claim other_version x2b) 1002).1 = Err ShortCodeClaimRateLimited.
Proof.
  split.
  - rewrite (proj1 (rate_limited_probe exhausting_ops pairing_claimant (probe_claim other_version x03)
      1002 ltac:(unfold I64_MAX; lia) ltac:(vm_compute; reflexivity))
      (mk_AttemptRow pairing_attempt pairing_creator None 1 0 1300 0 0 None)); [reflexivity|..].
    + vm_compute. reflexivity.
    + simpl. lia.
    + done.
  - rewrite (proj2 (rate_limited_probe exhausting_ops pairing_claimant (probe_claim other_version x2b)
      1002 ltac:(unfold I64_MAX; lia) ltac:(vm_compute; reflexivity))); [reflexivity|].
    vm_compute. reflexivity.
Defined.
