(* ===== verification/RelayService.v ===== *)
(** * The authorization-enforcing relay service

    [crates/Konclave.RelayCore/src/service.rs], the traits of [repository.rs], and
    [apps/Konclave.CommunityRelay/src/access.rs] and [application.rs]: who may do what,
    checked before the repository is touched, and the notifications an accepted
    submission causes.  The application is a set of tasks that give way at their awaits: a
    submission awaits its authorization, then its transaction, then hands the notification
    to the broadcast channel.

    The traits are type classes over the type of the database handle; all handles of one
    relay share one database, so an authorizer is given the current one.  A reading of
    the clock is an argument of the call that takes it. *)

From S2P Require Import Prelude Identifiers RelayModel Wire WireProofs RelayStore RelayStoreProofs.
From S2P Require Import Rendezvous RelayPrincipals ShortCode.
Open Scope Z_scope.

(** ** Traits *)

Inductive RelayPermission := PermitSend | PermitReplay | PermitAcknowledge.
Global Instance RelayPermission_eq_dec : EqDecision RelayPermission.
Proof. solve_decision. Defined.
Global Instance RelayPermission_countable : Countable RelayPermission.
Proof.
  refine (inj_countable' (fun p => match p with
      | PermitSend => 0 | PermitReplay => 1 | PermitAcknowledge => 2 end)
    (fun n => match n with 0 => PermitSend | 1 => PermitReplay | _ => PermitAcknowledge end) _).
  by intros [].
Defined.

(** Trait [RelayRepository]; [submit] is its provided method. *)
Class RelayRepository (R : Type) := {
  repo_submit_encoded : R → RelayEnvelope → bytes → Z → result RelayError SubmitResult * R;
  repo_replay : R → ReplayRequest → result RelayError ReplayPage;
  repo_replay_encoded : R → ReplayRequest → result RelayError EncodedReplayPage;
  repo_acknowledge : R → RelayPrincipalId → AcknowledgeRequest → result RelayError Z * R }.

(** Trait [RelayPrincipalRegistry]. *)
Class RelayPrincipalRegistry (R : Type) := {
  registry_register : R → RelayEnrollmentRequest → result RelayError RelayEnrollmentResponse * R;
  registry_is_active : R → RelayPrincipalId → result RelayError bool;
  registry_revoke : R → RelayPrincipalId → result RelayError bool * R }.

(** Trait [RelayAuthorizer]. *)
Class RelayAuthorizer (A R : Type) :=
  authorize : A → R → RelayPrincipalId → RoutingId → RelayPermission → result RelayError unit.

(** ** Authorizers *)

Inductive DynamicRelayAuthorizer := DynamicRelayAuthorizer_new.

Global Instance dynamic_authorizer {R} `{RelayPrincipalRegistry R}
    : RelayAuthorizer DynamicRelayAuthorizer R :=
  fun _ registry principal _ _ =>
    active ← registry_is_active registry principal;
    if active : bool then Ok () else Err Unauthorized.

Inductive RouteGrant := AnyRoute | ExactRoute (route : RoutingId).
Global Instance RouteGrant_eq_dec : EqDecision RouteGrant.
Proof. solve_decision. Defined.
Global Instance RouteGrant_countable : Countable RouteGrant.
Proof.
  refine (inj_countable' (fun g => match g with AnyRoute => None | ExactRoute r => Some r end)
    (fun o => match o with None => AnyRoute | Some r => ExactRoute r end) _).
  by intros [].
Defined.

Abbreviation Grant := (RouteGrant * RelayPermission)%type.

Record StaticRelayAccess := mk_StaticRelayAccess {
  access_grants : gmap RelayPrincipalId (gset Grant);
  enrollment_authority : option (FixedBytes KRelayEnrollmentAuthorityId) }.

Definition is_authorized (access : StaticRelayAccess) (principal : RelayPrincipalId)
    (routing_id : RoutingId) (permission : RelayPermission) : bool :=
  is_some_and (access_grants access !! principal) (fun grants =>
    bool_decide ((AnyRoute, permission) ∈ grants)
    || bool_decide ((ExactRoute routing_id, permission) ∈ grants)).

Definition contains_principal (access : StaticRelayAccess) (principal : RelayPrincipalId) : bool :=
  is_some (access_grants access !! principal).

Global Instance static_authorizer {R} : RelayAuthorizer StaticRelayAccess R :=
  fun access _ principal routing_id permission =>
    if is_authorized access principal routing_id permission then Ok () else Err Unauthorized.

Record RelayAccess := RelayAccess_new { static_access : StaticRelayAccess }.

Global Instance access_authorizer {R} `{RelayPrincipalRegistry R} : RelayAuthorizer RelayAccess R :=
  fun access registry principal routing_id permission =>
    if is_authorized (static_access access) principal routing_id permission then Ok ()
    else authorize DynamicRelayAuthorizer_new registry principal routing_id permission.

(** [RelayAccess::authenticate_data_plane] after the bearer token has been turned into a
    principal. *)
Definition authenticate_data_plane {R} `{RelayPrincipalRegistry R} (access : RelayAccess)
    (registry : R) (principal : RelayPrincipalId) : result RelayError RelayPrincipalId :=
  if contains_principal (static_access access) principal then Ok principal
  else
    active ← registry_is_active registry principal;
    if active : bool then Ok principal else Err Unauthorized.

(** ** The access document *)

Record GrantDocument := mk_GrantDocument {
  grant_route : text;
  grant_permissions : list RelayPermission }.
Record PrincipalDocument := mk_PrincipalDocument {
  document_principal : text;
  document_grants : list GrantDocument }.
Record AccessDocument := mk_AccessDocument {
  document_version : Z;
  document_principals : list PrincipalDocument;
  document_enrollment : option text }.

Definition ACCESS_DOCUMENT_VERSION : Z := 2.
Definition MAX_PRINCIPALS : Z := 1024.
Definition MAX_GRANTS_PER_PRINCIPAL : Z := 1024.
Definition MAX_TOTAL_GRANTS : Z := 8192.

(** [ensure!(condition, message)]. *)
Definition ensure (condition : bool) (message : string) : result string unit :=
  fail_if (negb condition) message.

Section document.
(** The base64 engine of the [base64] crate. *)
Context (url_safe_no_pad_decode : text → option bytes).

(** [decode_fixed] followed by the [from_slice] of its callers. *)
Definition decode_fixed (k : id_kind) (value : text) (field : string)
    : result string (FixedBytes k) :=
  let expected := Z.of_nat (id_length k) in
  ensure (len value =? (expected * 8 + 5) / 6) (field +:+ " has an invalid encoded length");;
  decoded ← ok_or (url_safe_no_pad_decode value) ("decoding " +:+ field);
  ensure (len decoded =? expected) (field +:+ " has an invalid length");;
  ok_or (fixed_of_slice k decoded) ("validating " +:+ field).

Definition decode_principal_id (value : text) : result string RelayPrincipalId :=
  decode_fixed KRelayPrincipalId value "relay principal".

Definition decode_enrollment_authority (value : text)
    : result string (FixedBytes KRelayEnrollmentAuthorityId) :=
  decode_fixed KRelayEnrollmentAuthorityId value "relay enrollment authority".

Definition decode_route (value : text) : result string RouteGrant :=
  if bool_decide (value = lit "*") then Ok AnyRoute
  else route ← decode_fixed KRoutingId value "relay route"; Ok (ExactRoute route).

(** The [for permission in grant.permissions] loop. *)
Fixpoint add_permissions (route : RouteGrant) (permissions : list RelayPermission)
    (grants : gset Grant) (total : Z) : result string (gset Grant * Z) :=
  match permissions with
  | [] => Ok (grants, total)
  | permission :: permissions =>
      ensure (bool_decide ((route, permission) ∉ grants))
        "relay access document contains a duplicate grant";;
      total ← ok_or (checked_add USIZE_MAX total 1) "relay access grant count overflow";
      ensure (total <=? MAX_TOTAL_GRANTS) "relay access document contains too many grants";;
      add_permissions route permissions ({[(route, permission)]} ∪ grants) total
  end.

(** The [for grant in principal.grants] loop. *)
Fixpoint add_grants (documents : list GrantDocument) (grants : gset Grant) (total : Z)
    : result string (gset Grant * Z) :=
  match documents with
  | [] => Ok (grants, total)
  | grant :: documents =>
      ensure (negb (len (grant_permissions grant) =? 0) && (len (grant_permissions grant) <=? 3))
        "relay access permission count is outside the supported range";;
      route ← decode_route (grant_route grant);
      '(grants, total) ← add_permissions route (grant_permissions grant) grants total;
      add_grants documents grants total
  end.

(** The [for principal in document.principals] loop. *)
Fixpoint add_principals (documents : list PrincipalDocument)
    (grants_by_principal : gmap RelayPrincipalId (gset Grant)) (total : Z)
    : result string (gmap RelayPrincipalId (gset Grant)) :=
  match documents with
  | [] => Ok grants_by_principal
  | principal :: documents =>
      ensure (negb (len (document_grants principal) =? 0)
              && (len (document_grants principal) <=? MAX_GRANTS_PER_PRINCIPAL))
        "relay access grant count is outside the supported range";;
      principal_id ← decode_principal_id (document_principal principal);
      '(grants, total) ← add_grants (document_grants principal) ∅ total;
      ensure (is_none (grants_by_principal !! principal_id))
        "relay access document contains a duplicate principal";;
      add_principals documents (<[principal_id := grants]> grants_by_principal) total
  end.

(** [StaticRelayAccess::from_bytes] on the parsed document. *)
Definition from_document (document : AccessDocument) : result string StaticRelayAccess :=
  ensure ((1 <=? document_version document)
          && (document_version document <=? ACCESS_DOCUMENT_VERSION))
    "unsupported relay access document version";;
  ensure ((document_version document =? ACCESS_DOCUMENT_VERSION)
          || is_none (document_enrollment document))
    "version 1 relay access documents cannot configure enrollment";;
  ensure (len (document_principals document) <=? MAX_PRINCIPALS)
    "relay access principal count is outside the supported range";;
  authority ← opt_traverse decode_enrollment_authority (document_enrollment document);
  ensure (negb (len (document_principals document) =? 0) || is_some authority)
    "relay access document must configure a principal or enrollment authority";;
  grants ← add_principals (document_principals document) ∅ 0;
  Ok (mk_StaticRelayAccess grants authority).
End document.

(** ** The service *)

Section service.
Context `{P : Prost} {R A : Type} `{RelayRepository R, RelayPrincipalRegistry R, RelayAuthorizer A R}.

(** [RelayRepository::submit]. *)
Definition repo_submit (r : R) (envelope : RelayEnvelope) (now : Z)
    : result RelayError SubmitResult * R :=
  match map_err RelayProtocol (encode_relay_envelope envelope) with
  | Err e => (Err e, r)
  | Ok encoded => repo_submit_encoded r envelope encoded now
  end.

(** Run a repository call after a check; a failed check leaves the repository alone. *)
Definition guarded {X Y} (check : result RelayError X) (r : R) (k : X → result RelayError Y * R)
    : result RelayError Y * R :=
  match check with Err e => (Err e, r) | Ok x => k x end.

(** [RelayService::submit]. *)
Definition service_submit (a : A) (clock : result RelayError Z) (r : R)
    (principal : RelayPrincipalId) (envelope : RelayEnvelope) : result RelayError SubmitResult * R :=
  guarded (authorize a r principal (env_routing_id envelope) PermitSend;; clock) r
    (fun now => repo_submit r envelope now).

(** [RelayService::submit_encoded]. *)
Definition service_submit_encoded (a : A) (clock : result RelayError Z) (r : R)
    (principal : RelayPrincipalId) (encoded_envelope : bytes) : result RelayError SubmitResult * R :=
  guarded (map_err RelayProtocol (decode_relay_envelope encoded_envelope)) r (fun envelope =>
  guarded (authorize a r principal (env_routing_id envelope) PermitSend;; clock) r (fun now =>
  repo_submit_encoded r envelope encoded_envelope now)).

(** [RelayService::replay]. *)
Definition service_replay (a : A) (r : R) (principal : RelayPrincipalId) (request : ReplayRequest)
    : result RelayError ReplayPage :=
  authorize a r principal (replay_routing_id request) PermitReplay;; repo_replay r request.

(** [RelayService::replay_encoded]. *)
Definition service_replay_encoded (a : A) (r : R) (principal : RelayPrincipalId)
    (request : ReplayRequest) : result RelayError EncodedReplayPage :=
  authorize a r principal (replay_routing_id request) PermitReplay;; repo_replay_encoded r request.

(** [RelayService::acknowledge]. *)
Definition service_acknowledge (a : A) (r : R) (principal : RelayPrincipalId)
    (request : AcknowledgeRequest) : result RelayError Z * R :=
  guarded (authorize a r principal (ack_routing_id request) PermitAcknowledge) r
    (fun _ => repo_acknowledge r principal request).

(** ** The application *)

Record RelayEvent := mk_RelayEvent { event_routing_id : RoutingId; event_cursor : Z }.

(** [RelayApplication::publish_if_new]. *)
Definition publish_if_new (routing_id : RoutingId) (outcome : SubmitResult) : list RelayEvent :=
  if submit_duplicate outcome then [] else [mk_RelayEvent routing_id (submit_cursor outcome)].

(** Requests run concurrently and give way to each other at their awaits.  A request is a
    task: the part of it that is still to run, up to its next await. *)
Inductive RelayAnswer :=
| AnswerSubmit (answer : result RelayError SubmitResult)
| AnswerAcknowledge (answer : result RelayError Z)
| AnswerRegister (answer : result RelayError RelayEnrollmentResponse)
| AnswerRevoke (answer : result RelayError bool).

Inductive RelayTask :=
| SubmitTask (p : RelayPrincipalId) (envelope : RelayEnvelope)
| SubmitEncodedTask (p : RelayPrincipalId) (encoded : bytes)
| StoringTask (envelope : RelayEnvelope) (encoded : bytes) (now : Z)
| PublishingTask (routing_id : RoutingId) (outcome : SubmitResult)
| AcknowledgeTask (p : RelayPrincipalId) (request : AcknowledgeRequest)
| AcknowledgingTask (p : RelayPrincipalId) (request : AcknowledgeRequest)
| RegisterTask (request : RelayEnrollmentRequest)
| RevokeTask (p : RelayPrincipalId)
| FinishedTask (answer : RelayAnswer)
| DroppedTask.

(** [RelayApplication::submit] up to the transaction of the repository: the authorization
    is awaited, then the clock is read and the envelope encoded. *)
Definition submit_authorized (a : A) (clock : result RelayError Z) (r : R)
    (principal : RelayPrincipalId) (envelope : RelayEnvelope) : RelayTask :=
  match authorize a r principal (env_routing_id envelope) PermitSend;;
        now ← clock;
        encoded ← map_err RelayProtocol (encode_relay_envelope envelope);
        Ok (encoded, now)
  with
  | Ok (encoded, now) => StoringTask envelope encoded now
  | Err e => FinishedTask (AnswerSubmit (Err e))
  end.

(** The same of [RelayApplication::submit_encoded], which stores the bytes it was given. *)
Definition submit_encoded_authorized (a : A) (clock : result RelayError Z) (r : R)
    (principal : RelayPrincipalId) (encoded : bytes) : RelayTask :=
  match envelope ← map_err RelayProtocol (decode_relay_envelope encoded);
        authorize a r principal (env_routing_id envelope) PermitSend;;
        now ← clock;
        Ok (envelope, now)
  with
  | Ok (envelope, now) => StoringTask envelope encoded now
  | Err e => FinishedTask (AnswerSubmit (Err e))
  end.

(** One task up to its next await: the rest of it, the database, and the notifications
    handed to the broadcast channel. *)
Definition relay_task_step (a : A) (clock : result RelayError Z) (r : R) (task : RelayTask)
    : RelayTask * R * list RelayEvent :=
  match task with
  | SubmitTask p envelope => (submit_authorized a clock r p envelope, r, [])
  | SubmitEncodedTask p encoded => (submit_encoded_authorized a clock r p encoded, r, [])
  | StoringTask envelope encoded now =>
      let '(outcome, r') := repo_submit_encoded r envelope encoded now in
      (match outcome with
       | Ok result => PublishingTask (env_routing_id envelope) result
       | Err e => FinishedTask (AnswerSubmit (Err e))
       end, r', [])
  | PublishingTask routing_id outcome =>
      (FinishedTask (AnswerSubmit (Ok outcome)), r, publish_if_new routing_id outcome)
  | AcknowledgeTask p request =>
      (match authorize a r p (ack_routing_id request) PermitAcknowledge with
       | Ok _ => AcknowledgingTask p request
       | Err e => FinishedTask (AnswerAcknowledge (Err e))
       end, r, [])
  | AcknowledgingTask p request =>
      let '(answer, r') := repo_acknowledge r p request in
      (FinishedTask (AnswerAcknowledge answer), r', [])
  | RegisterTask request =>
      let '(answer, r') := registry_register r request in (FinishedTask (AnswerRegister answer), r', [])
  | RevokeTask p =>
      let '(answer, r') := registry_revoke r p in (FinishedTask (AnswerRevoke answer), r', [])
  | FinishedTask _ | DroppedTask => (task, r, [])
  end.

(** The relay with the requests it is serving, the notifications handed to the channel and
    those of submissions that were dropped after their transaction committed. *)
Record RelaySystem := mk_RelaySystem {
  sys_repo : R;
  sys_tasks : list RelayTask;
  sys_sent : list RelayEvent;
  sys_lost : list RelayEvent }.

(** The requests the application is called with. *)
Inductive RelayCall :=
| CallSubmit (p : RelayPrincipalId) (envelope : RelayEnvelope)
| CallSubmitEncoded (p : RelayPrincipalId) (encoded : bytes)
| CallAcknowledge (p : RelayPrincipalId) (request : AcknowledgeRequest)
| CallRegister (request : RelayEnrollmentRequest)
| CallRevoke (p : RelayPrincipalId).

Definition called (call : RelayCall) : RelayTask :=
  match call with
  | CallSubmit p envelope => SubmitTask p envelope
  | CallSubmitEncoded p encoded => SubmitEncodedTask p encoded
  | CallAcknowledge p request => AcknowledgeTask p request
  | CallRegister request => RegisterTask request
  | CallRevoke p => RevokeTask p
  end.

(** What happens next: a call arrives, a task resumes with what the clock reads, or the
    future of a task is dropped at its await, its connection being closed. *)
Inductive RelayAction :=
| Arrive (call : RelayCall)
| Resume (i : nat) (clock : result RelayError Z)
| Abandon (i : nat).

(** The notification a task has committed to and not sent. *)
Definition unannounced (task : RelayTask) : list RelayEvent :=
  match task with
  | PublishingTask routing_id outcome => publish_if_new routing_id outcome
  | _ => []
  end.

Definition serving_step (a : A) (s : RelaySystem) (action : RelayAction) : RelaySystem :=
  match action with
  | Arrive call => mk_RelaySystem (sys_repo s) (sys_tasks s ++ [called call]) (sys_sent s) (sys_lost s)
  | Resume i clock =>
      match sys_tasks s !! i with
      | Some task =>
          let '(task', r', events) := relay_task_step a clock (sys_repo s) task in
          mk_RelaySystem r' (<[i := task']> (sys_tasks s)) (sys_sent s ++ events) (sys_lost s)
      | None => s
      end
  | Abandon i =>
      match sys_tasks s !! i with
      | Some task =>
          mk_RelaySystem (sys_repo s) (<[i := DroppedTask]> (sys_tasks s)) (sys_sent s)
            (sys_lost s ++ unannounced task)
      | None => s
      end
  end.

Definition serving_run (a : A) (s : RelaySystem) (actions : list RelayAction) : RelaySystem :=
  foldl (serving_step a) s actions.

Definition serving_start (r : R) : RelaySystem := mk_RelaySystem r [] [] [].
End service.
Global Arguments RelaySystem : clear implicits.

(** ** What a repository promises its clients *)

Class RelayRepositoryContract (R : Type) `{Prost, RelayRepository R, RelayPrincipalRegistry R} := {
  repo_ok : R → Prop;
  repo_log : R → list (RoutingId * Z * bytes);
  law_submit r e b now : repo_ok r →
    let '(outcome, r') := repo_submit_encoded r e b now in
    repo_ok r'
    ∧ repo_log r' = repo_log r ++ match outcome with
                                  | Ok result =>
                                      if submit_duplicate result then []
                                      else [(env_routing_id e, submit_cursor result, b)]
                                  | Err _ => []
                                  end;
  law_acknowledge r p request : repo_ok r →
    repo_ok (repo_acknowledge r p request).2
    ∧ repo_log (repo_acknowledge r p request).2 = repo_log r;
  law_register r request : repo_ok r →
    repo_ok (registry_register r request).2
    ∧ repo_log (registry_register r request).2 = repo_log r;
  law_revoke r p : repo_ok r →
    repo_ok (registry_revoke r p).2 ∧ repo_log (registry_revoke r p).2 = repo_log r;
  law_unique r : repo_ok r → NoDup (fst <$> repo_log r) }.

Section client.
Context `{P : Prost} {R A : Type} `{HR : RelayRepository R, HG : RelayPrincipalRegistry R}.
Context `{HA : RelayAuthorizer A R} `{HC : !RelayRepositoryContract R}.

(** The submission of some bytes by a principal, before it is authorized. *)
Definition submits (task : RelayTask) (p : RelayPrincipalId) (b : bytes) : Prop :=
  match task with
  | SubmitTask q e => q = p ∧ encode_relay_envelope e = Ok b
  | SubmitEncodedTask q b' => q = p ∧ b' = b
  | _ => False
  end.

Definition entry_event (entry : RoutingId * Z * bytes) : RelayEvent :=
  mk_RelayEvent entry.1.1 entry.1.2.

(** What a task does up to its next await: the entries it logs are those it is now bound to
    announce, only a storing task logs, and it came from an authorized submission. *)
Record task_effect (a : A) (r : R) (task task' : RelayTask) (r' : R) (events : list RelayEvent) : Prop := {
  effect_ok : repo_ok r';
  effect_log : ∃ new, repo_log r' = repo_log r ++ new
    ∧ events ++ unannounced task' = unannounced task ++ (entry_event <$> new)
    ∧ ∀ entry, entry ∈ new → ∃ e b now cursor, task = StoringTask e b now
        ∧ entry = (env_routing_id e, cursor, b);
  effect_storing : ∀ e b now, task' = StoringTask e b now →
    task = task' ∨ ∃ p, submits task p b ∧ authorize a r p (env_routing_id e) PermitSend = Ok () }.

Lemma effect_silent a r task task' r' events :
  repo_ok r' → repo_log r' = repo_log r → events ++ unannounced task' = unannounced task →
  (∀ e b now, task' = StoringTask e b now →
    task = task' ∨ ∃ p, submits task p b ∧ authorize a r p (env_routing_id e) PermitSend = Ok ()) →
  task_effect a r task task' r' events.
Proof.
  intros Hok Hlog Hev Hst. split; [done| |done]. exists []. rewrite !app_nil_r. split_and!; [done|done|].
  intros ? Hin. by apply elem_of_nil in Hin.
Qed.

Lemma submit_authorized_inv a clock r p e e' b now :
  submit_authorized a clock r p e = StoringTask e' b now →
  e' = e ∧ encode_relay_envelope e = Ok b ∧ authorize a r p (env_routing_id e) PermitSend = Ok ().
Proof.
  unfold submit_authorized. destruct (authorize a r p _ _) as [[]|]; [|done].
  destruct clock; [|done]. cbn. destruct (encode_relay_envelope e); [|done]. cbn. by intros [= <- <- _].
Qed.

Lemma submit_encoded_authorized_inv a clock r p b e' b' now :
  submit_encoded_authorized a clock r p b = StoringTask e' b' now →
  b' = b ∧ authorize a r p (env_routing_id e') PermitSend = Ok ().
Proof.
  unfold submit_encoded_authorized. destruct (decode_relay_envelope b) as [e|]; [|done]. cbn.
  destruct (authorize a r p _ _) as [[]|] eqn:Ha; [|done]. destruct clock; [|done]. cbn. by intros [= <- <- _].
Qed.

Lemma authorized_unannounced a clock r p e : unannounced (submit_authorized a clock r p e) = [].
Proof.
  unfold submit_authorized. match goal with |- unannounced match ?m with _ => _ end = [] => by destruct m as [[]|] end.
Qed.

Lemma encoded_authorized_unannounced a clock r p b : unannounced (submit_encoded_authorized a clock r p b) = [].
Proof.
  unfold submit_encoded_authorized. match goal with |- unannounced match ?m with _ => _ end = [] => by destruct m as [[]|] end.
Qed.

Lemma storing_effect a r e b now :
  repo_ok r →
  let '(outcome, r') := repo_submit_encoded r e b now in
  task_effect a r (StoringTask e b now)
    (match outcome with
     | Ok result => PublishingTask (env_routing_id e) result
     | Err err => FinishedTask (AnswerSubmit (Err err))
     end) r' [].
Proof.
  intros Hok. pose proof (law_submit r e b now Hok) as Hlaw.
  destruct (repo_submit_encoded r e b now) as [outcome r']. destruct Hlaw as [Hok' Hlog].
  split; [done| |by destruct outcome]. eexists. split_and!; [exact Hlog| |].
  - destruct outcome as [result|]; [|done]. cbn. unfold publish_if_new. by destruct (submit_duplicate result).
  - intros entry Hin. destruct outcome as [result|]; [|by apply elem_of_nil in Hin].
    destruct (submit_duplicate result); [by apply elem_of_nil in Hin|].
    apply list_elem_of_singleton in Hin as ->. by exists e, b, now, (submit_cursor result).
Qed.

Lemma relay_task_step_effect a clock r task :
  repo_ok r →
  let '(task', r', events) := relay_task_step a clock r task in task_effect a r task task' r' events.
Proof.
  intros Hok. destruct task as [p e|p b|e b now|route outcome|p request|p request|request|p|answer|]; cbn.
  - apply effect_silent; [done|done|apply authorized_unannounced|].
    intros e' b now Heq. right. apply submit_authorized_inv in Heq as (-> & Henc & Ha). by exists p.
  - apply effect_silent; [done|done|apply encoded_authorized_unannounced|].
    intros e' b' now Heq. right. apply submit_encoded_authorized_inv in Heq as (-> & Ha). by exists p.
  - pose proof (storing_effect a r e b now Hok). by destruct (repo_submit_encoded r e b now).
  - apply effect_silent; [done|done|by rewrite app_nil_r|done].
  - destruct (authorize a r p _ _); by apply effect_silent.
  - destruct (law_acknowledge r p request Hok). destruct (repo_acknowledge r p request). by apply effect_silent.
  - destruct (law_register r request Hok). destruct (registry_register r request). by apply effect_silent.
  - destruct (law_revoke r p Hok). destruct (registry_revoke r p). by apply effect_silent.
  - by apply effect_silent.
  - by apply effect_silent.
Qed.

(** Replacing one task exchanges what it owes. *)
Lemma unannounced_insert (tasks : list RelayTask) i task task' :
  tasks !! i = Some task →
  unannounced task ++ (<[i := task']> tasks ≫= unannounced) ≡ₚ unannounced task' ++ (tasks ≫= unannounced).
Proof.
  intros Hi. rewrite <- (take_drop_middle tasks i task Hi) at 2.
  rewrite insert_take_drop by (by eapply lookup_lt_Some). rewrite !bind_app. cbn. solve_Permutation.
Qed.

(** A submission of [b] by [p] was authorized on [route] in the course of a run, at a
    moment when the log did not have [entry]. *)
Definition permitted (a : A) (r : R) (actions : list RelayAction) (p : RelayPrincipalId) (route : RoutingId)
    (b : bytes) (absent : list (RoutingId * Z * bytes) → Prop) : Prop :=
  ∃ pre i clock post task, actions = pre ++ Resume i clock :: post
    ∧ sys_tasks (serving_run a (serving_start r) pre) !! i = Some task ∧ submits task p b
    ∧ authorize a (sys_repo (serving_run a (serving_start r) pre)) p route PermitSend = Ok ()
    ∧ absent (repo_log (sys_repo (serving_run a (serving_start r) pre))).

Lemma permitted_snoc a r actions action p route b absent :
  permitted a r actions p route b absent → permitted a r (actions ++ [action]) p route b absent.
Proof.
  intros (pre & i & clock & post & task & -> & H). exists pre, i, clock, (post ++ [action]), task.
  by rewrite <- app_assoc.
Qed.

Lemma permitted_absent a r actions p route b (Q Q' : list (RoutingId * Z * bytes) → Prop) :
  (∀ l, Q l → Q' l) → permitted a r actions p route b Q → permitted a r actions p route b Q'.
Proof. intros HQ (pre & i & clock & post & task & ? & ? & ? & ? & ?). exists pre, i, clock, post, task. split_and!; auto. Qed.

(** What every run from a repository with an empty log keeps. *)
Record serving_ok (a : A) (r : R) (actions : list RelayAction) (s : RelaySystem R) : Prop := {
  serving_repo : repo_ok (sys_repo s);
  serving_storing : ∀ e b now, StoringTask e b now ∈ sys_tasks s →
    ∃ p, permitted a r actions p (env_routing_id e) b (fun log => log `prefix_of` repo_log (sys_repo s));
  serving_logged : ∀ route cursor b, (route, cursor, b) ∈ repo_log (sys_repo s) →
    ∃ p, permitted a r actions p route b (fun log => (route, cursor, b) ∉ log);
  serving_announced : sys_sent s ++ (sys_tasks s ≫= unannounced) ++ sys_lost s
    ≡ₚ entry_event <$> repo_log (sys_repo s) }.

Lemma serving_ok_start a r : repo_ok r → repo_log r = [] → serving_ok a r [] (serving_start r).
Proof. intros Hok Hlog. split; cbn; [done|by intros ??? ?%elem_of_nil|rewrite Hlog; by intros ??? ?%elem_of_nil|by rewrite Hlog]. Qed.

Lemma insert_storing (tasks : list RelayTask) i task' e b now :
  StoringTask e b now ∈ <[i := task']> tasks → task' = StoringTask e b now ∨ StoringTask e b now ∈ tasks.
Proof.
  intros [j Hj]%list_elem_of_lookup. apply list_lookup_insert_Some in Hj as [(_ & <- & _)|(_ & Hj)]; [by left|].
  right. by eapply list_elem_of_lookup_2.
Qed.

Lemma serving_ok_resume a r actions s i clock task :
  s = serving_run a (serving_start r) actions → serving_ok a r actions s → sys_tasks s !! i = Some task →
  let '(task', r', events) := relay_task_step a clock (sys_repo s) task in
  serving_ok a r (actions ++ [Resume i clock])
    (mk_RelaySystem r' (<[i := task']> (sys_tasks s)) (sys_sent s ++ events) (sys_lost s)).
Proof.
  intros Hs [Hok Hst Hlg Han] Hi. pose proof (relay_task_step_effect a clock (sys_repo s) task Hok) as Heff.
  destruct (relay_task_step a clock (sys_repo s) task) as [[task' r'] events].
  destruct Heff as [Hok' (new & Hlog & Hev & Hnew) Hst']. split; cbn [sys_repo sys_tasks sys_sent sys_lost].
  - done.
  - intros e b now [Ht|Hin]%insert_storing.
    + destruct (Hst' e b now Ht) as [Heq|(p & Hsub & Ha)].
      * rewrite Ht in Heq. subst task. apply list_elem_of_lookup_2 in Hi. destruct (Hst e b now Hi) as [p Hp].
        exists p. apply permitted_snoc. eapply permitted_absent; [|exact Hp]. intros l Hl. cbn in *. rewrite Hlog. by apply prefix_app_r.
      * exists p, actions, i, clock, [], task. rewrite <- Hs. split_and!; [done|done|done|done|]. rewrite Hlog. by apply prefix_app_r.
    + destruct (Hst e b now Hin) as [p Hp]. exists p. apply permitted_snoc. eapply permitted_absent; [|exact Hp].
      intros l Hl. cbn in *. rewrite Hlog. by apply prefix_app_r.
  - intros route cursor b Hin. rewrite Hlog in Hin. apply elem_of_app in Hin as [Hin|Hin].
    { destruct (Hlg _ _ _ Hin) as [p Hp]. exists p. by apply permitted_snoc. }
    destruct (Hnew _ Hin) as (e & b' & now & cursor' & -> & Heq). injection Heq as -> -> ->.
    apply list_elem_of_lookup_2 in Hi. destruct (Hst _ _ _ Hi) as [p Hp]. exists p. apply permitted_snoc.
    eapply permitted_absent; [|exact Hp]. intros l [l' Hl] Hold. cbn in *. pose proof (law_unique r' Hok') as Hnd.
    rewrite Hlog, fmap_app in Hnd. apply NoDup_app in Hnd as (_ & Hnd & _).
    apply (Hnd (env_routing_id e, cursor')); apply list_elem_of_fmap; [|by eexists; split; [|exact Hin]].
    eexists; split; [|rewrite Hl; apply elem_of_app; left; exact Hold]; done.
  - rewrite Hlog, fmap_app, <- Han. pose proof (unannounced_insert _ _ _ task' Hi) as Hp.
    apply (Permutation_app_inv_l (unannounced task)). transitivity
      (sys_sent s ++ events ++ (unannounced task ++ (<[i := task']> (sys_tasks s) ≫= unannounced)) ++ sys_lost s);
      [solve_Permutation|]. rewrite Hp. transitivity
      (sys_sent s ++ (events ++ unannounced task') ++ (sys_tasks s ≫= unannounced) ++ sys_lost s); [solve_Permutation|].
    rewrite Hev. solve_Permutation.
Qed.

Lemma serving_run_ok a r actions :
  repo_ok r → repo_log r = [] → serving_ok a r actions (serving_run a (serving_start r) actions).
Proof.
  intros Hok Hlog. induction actions as [|action actions IH] using rev_ind; [by apply serving_ok_start|].
  unfold serving_run. rewrite foldl_app. fold (serving_run a (serving_start r) actions). cbn.
  pose proof IH as [Hok' Hst Hlg Han]. destruct action as [call|i clock|i]; cbn.
  - split; cbn [sys_repo sys_tasks sys_sent sys_lost]; [done| | |].
    + intros e b now [Hin|Hin]%elem_of_app; [|apply list_elem_of_singleton in Hin; by destruct call].
      destruct (Hst _ _ _ Hin) as [p Hp]. exists p. by apply permitted_snoc.
    + intros route cursor b Hin. destruct (Hlg _ _ _ Hin) as [p Hp]. exists p. by apply permitted_snoc.
    + rewrite <- Han, bind_app. replace ([called call] ≫= unannounced) with (@nil RelayEvent) by (by destruct call).
      by rewrite app_nil_r.
  - destruct (sys_tasks _ !! i) as [task|] eqn:Hi.
    + pose proof (serving_ok_resume a r actions _ i clock task eq_refl IH Hi) as H.
      by destruct (relay_task_step a clock _ task) as [[task' r'] events].
    + split; [done| | |done].
      * intros e b now Hin. destruct (Hst _ _ _ Hin) as [p Hp]. exists p. by apply permitted_snoc.
      * intros route cursor b Hin. destruct (Hlg _ _ _ Hin) as [p Hp]. exists p. by apply permitted_snoc.
  - destruct (sys_tasks _ !! i) as [task|] eqn:Hi; split; cbn [sys_repo sys_tasks sys_sent sys_lost]; try done.
    + intros e b now [Ht|Hin]%insert_storing; [done|]. destruct (Hst _ _ _ Hin) as [p Hp]. exists p. by apply permitted_snoc.
    + intros route cursor b Hin. destruct (Hlg _ _ _ Hin) as [p Hp]. exists p. by apply permitted_snoc.
    + rewrite <- Han. pose proof (unannounced_insert _ _ _ DroppedTask Hi) as Hp. cbn in Hp.
      rewrite <- Hp. solve_Permutation.
    + intros e b now Hin. destruct (Hst _ _ _ Hin) as [p Hp]. exists p. by apply permitted_snoc.
    + intros route cursor b Hin. destruct (Hlg _ _ _ Hin) as [p Hp]. exists p. by apply permitted_snoc.
Qed.

(** A submission nothing interrupts is the call of the service followed by its
    notification. *)
Lemma submit_uninterrupted a clock r p e :
  let s := serving_run a (serving_start r) (Arrive (CallSubmit p e) :: replicate 3 (Resume 0 clock)) in
  let '(answer, r') := service_submit a clock r p e in
  sys_repo s = r' ∧ sys_tasks s = [FinishedTask (AnswerSubmit answer)]
  ∧ sys_sent s = match answer with Ok outcome => publish_if_new (env_routing_id e) outcome | Err _ => [] end.
Proof.
  unfold serving_run, service_submit, guarded, repo_submit. cbn. unfold submit_authorized.
  destruct (authorize a r p _ _) as [[]|]; [|done]. destruct clock as [now|]; [|done]. cbn.
  destruct (encode_relay_envelope e) as [b|]; [|done]. cbn.
  destruct (repo_submit_encoded r e b now) as [[outcome|] r']; done.
Qed.

Lemma submit_encoded_uninterrupted a clock r p b :
  let s := serving_run a (serving_start r) (Arrive (CallSubmitEncoded p b) :: replicate 3 (Resume 0 clock)) in
  let '(answer, r') := service_submit_encoded a clock r p b in
  sys_repo s = r' ∧ sys_tasks s = [FinishedTask (AnswerSubmit answer)]
  ∧ (∀ e outcome, decode_relay_envelope b = Ok e → answer = Ok outcome →
      sys_sent s = publish_if_new (env_routing_id e) outcome).
Proof.
  unfold serving_run, service_submit_encoded, guarded. cbn. unfold submit_encoded_authorized.
  destruct (decode_relay_envelope b) as [e|]; [|done]. cbn.
  destruct (authorize a r p _ _) as [[]|]; [|done]. destruct clock as [now|]; [|done]. cbn.
  destruct (repo_submit_encoded r e b now) as [[outcome|] r']; cbn; [|done]. split_and!; [done|done|].
  by intros ?? [= <-] [= <-].
Qed.

Lemma acknowledge_uninterrupted a clock r p request :
  let s := serving_run a (serving_start r) (Arrive (CallAcknowledge p request) :: replicate 2 (Resume 0 clock)) in
  let '(answer, r') := service_acknowledge a r p request in
  sys_repo s = r' ∧ sys_tasks s = [FinishedTask (AnswerAcknowledge answer)] ∧ sys_sent s = [].
Proof.
  unfold serving_run, service_acknowledge, guarded. cbn.
  destruct (authorize a r p _ _) as [[]|]; [|done]. cbn. by destruct (repo_acknowledge r p request) as [answer r'].
Qed.
End client.

(** ** The SQLite repository discharges the contract *)

Record SqliteRelayRepository := mk_SqliteRelayRepository {
  sq_relay : RelayDb;
  sq_principals : principal_table;
  sq_rendezvous : rendezvous_table;
  sq_short_codes : ShortCodeDb }.

Definition empty_repository : SqliteRelayRepository :=
  mk_SqliteRelayRepository empty_db ∅ ∅ empty_short_code_db.

Definition set_relay (r : SqliteRelayRepository) (db : RelayDb) : SqliteRelayRepository :=
  mk_SqliteRelayRepository db (sq_principals r) (sq_rendezvous r) (sq_short_codes r).
Definition set_principals (r : SqliteRelayRepository) (t : principal_table) : SqliteRelayRepository :=
  mk_SqliteRelayRepository (sq_relay r) t (sq_rendezvous r) (sq_short_codes r).

Section sqlite.
Context `{P : Prost}.

Global Instance sqlite_repository : RelayRepository SqliteRelayRepository := {
  repo_submit_encoded r e b now :=
    let '(outcome, db) := submit_encoded (sq_relay r) e b now in (outcome, set_relay r db);
  repo_replay r request := replay (sq_relay r) request;
  repo_replay_encoded r request := replay_encoded (sq_relay r) request;
  repo_acknowledge r p request :=
    let '(outcome, db) := acknowledge (sq_relay r) p request in (outcome, set_relay r db) }.
End sqlite.

Global Instance sqlite_registry : RelayPrincipalRegistry SqliteRelayRepository := {
  registry_register r request :=
    let '(outcome, t) := register_principal (sq_principals r) request in (outcome, set_principals r t);
  registry_is_active r p := is_principal_active (sq_principals r) p;
  registry_revoke r p :=
    let '(outcome, t) := revoke_principal (sq_principals r) p in (outcome, set_principals r t) }.

Definition log_entry (row : EnvelopeRow) : RoutingId * Z * bytes :=
  (row_routing_id row, row_cursor row, row_encoded_envelope row).

Section sqlite_contract.
Context `{P : Prost}.

Lemma sqlite_submit_logs db e b now :
  store_ok db →
  let '(outcome, db') := submit_encoded db e b now in
  store_ok db'
  ∧ log_entry <$> relay_envelope db'
    = (log_entry <$> relay_envelope db)
      ++ match outcome with
         | Ok result => if submit_duplicate result then []
                        else [(env_routing_id e, submit_cursor result, b)]
         | Err _ => []
         end.
Proof.
  intros Hok. pose proof (store_ok_step db (OpSubmit e b now) Hok) as Hok'. simpl in Hok'.
  destruct (decide (decode_relay_envelope b = Ok e)) as [Hdec|Hne]; cycle 1.
  { destruct (submit_mismatch db e b now Hne) as [err ->]. by rewrite app_nil_r. }
  destruct (decide (env_envelope_id e ∈ row_envelope_id <$> relay_envelope db)) as [Hin|Hfresh].
  { apply list_elem_of_fmap in Hin as (row & Hid & Hin).
    rewrite (submit_present db row e b now) by done.
    match goal with |- context [if ?c then _ else _] => destruct c end; simpl; by rewrite app_nil_r. }
  destruct (decide (storable db e b now)) as [Hst|Hno].
  - rewrite submit_accepts in * by done. split; [done|]. simpl.
    by rewrite (proj1 (initialize_route_rows _ _)), fmap_app.
  - destruct (submit_refuses db e b now Hok Hdec Hfresh Hno) as (err & -> & _). by rewrite app_nil_r.
Qed.

(** The cursors of a route differ, so routes and cursors identify the rows. *)
Lemma route_cursors_unique (rows : list EnvelopeRow) :
  (∀ r, NoDup (row_cursor <$> List.filter (fun row => bool_decide (row_routing_id row = r)) rows)) →
  NoDup (fst <$> (log_entry <$> rows)).
Proof.
  induction rows as [|row rows IH]; intros Hnd; [constructor|]. cbn. constructor.
  - intros Hin. rewrite <- list_fmap_compose in Hin. apply list_elem_of_fmap in Hin as (row' & Heq & Hin). cbn in Heq.
    injection Heq as Hr Hc. specialize (Hnd (row_routing_id row)). cbn in Hnd. rewrite bool_decide_eq_true_2 in Hnd by done.
    cbn in Hnd. apply NoDup_cons in Hnd as [Hnd _]. apply Hnd. rewrite Hc. apply list_elem_of_fmap_2.
    apply list_elem_of_In, filter_In. split; [by apply list_elem_of_In|]. by apply bool_decide_eq_true_2.
  - apply IH. intros r. specialize (Hnd r). cbn in Hnd. destruct (bool_decide _); [|done]. cbn in Hnd.
    by apply NoDup_cons in Hnd as [_ Hnd].
Qed.

Lemma store_log_unique db : store_ok db → NoDup (fst <$> (log_entry <$> relay_envelope db)).
Proof.
  intros Hok. apply route_cursors_unique. intros r. fold (rows_of db r).
  destruct (relay_route db !! r) as [row|] eqn:Hr.
  - destruct (store_route _ Hok r row Hr) as (_ & -> & _). apply NoDup_seqZ.
  - rewrite (store_no_route _ Hok r Hr). constructor.
Qed.

Global Program Instance sqlite_contract : RelayRepositoryContract SqliteRelayRepository := {
  repo_ok r := store_ok (sq_relay r);
  repo_log r := log_entry <$> relay_envelope (sq_relay r) }.
Next Obligation.
  intros r e b now Hok. simpl. pose proof (sqlite_submit_logs (sq_relay r) e b now Hok) as H.
  by destruct (submit_encoded (sq_relay r) e b now).
Qed.
Next Obligation.
  intros r p request Hok. simpl.
  pose proof (store_ok_step (sq_relay r) (OpAcknowledge p request) Hok) as Hok'. simpl in Hok'.
  destruct (acknowledge_cases (sq_relay r) p request Hok) as [(row & _ & _ & _ & Heq)|(_ & err & Heq)];
    rewrite Heq in *; done.
Qed.
Next Obligation. intros r request Hok. simpl. by destruct (register_principal _ _). Qed.
Next Obligation. intros r p Hok. simpl. by destruct (revoke_principal _ _). Qed.
Next Obligation. intros r Hok. by apply store_log_unique. Qed.
End sqlite_contract.

(** ** Theorems *)

Section theorems.
Context `{P : Prost}.
Implicit Types (r : SqliteRelayRepository) (access : RelayAccess).

Lemma relay_task_step_principals access clock r task :
  ∃ ops, sq_principals (relay_task_step access clock r task).1.2 = principal_run (sq_principals r) ops.
Proof.
  destruct task as [p e|p b|e b now|route outcome|p request|p request|request|p|answer|]; try by exists [].
  - exists []. simpl. by destruct (submit_encoded _ _ _ _).
  - exists []. simpl. by destruct (acknowledge _ _ _).
  - exists [RegisterOp request]. simpl. by destruct (register_principal _ _).
  - exists [RevokeOp p]. simpl. by destruct (revoke_principal _ _).
Qed.

(** Only registrations and revocations touch the registry. *)
Lemma run_principals access s actions :
  ∃ ops, sq_principals (sys_repo (serving_run access s actions)) = principal_run (sq_principals (sys_repo s)) ops.
Proof.
  induction actions as [|action actions [ops IH]] using rev_ind; [by exists []|].
  unfold serving_run. rewrite foldl_app. fold (serving_run access s actions). cbn [foldl].
  destruct action as [call|i clock|i]; cbn [serving_step].
  - by exists ops.
  - destruct (sys_tasks _ !! i) as [task|]; [|by exists ops].
    destruct (relay_task_step_principals access clock (sys_repo (serving_run access s actions)) task) as [ops' H].
    destruct (relay_task_step _ _ _ _) as [[task' r'] events]. exists (ops ++ ops'). cbn in *.
    rewrite H, IH. unfold principal_run. by rewrite foldl_app.
  - exists ops. by destruct (sys_tasks _ !! i).
Qed.

(** An authorization under [RelayAccess] comes from a static grant or an active
    registration. *)
Lemma access_authorized access r p route perm :
  authorize access r p route perm = Ok () ↔
  is_authorized (static_access access) p route perm = true
  ∨ is_principal_active (sq_principals r) p = Ok true.
Proof.
  unfold authorize, access_authorizer, authorize, dynamic_authorizer. simpl.
  destruct (is_authorized _ _ _ _); [naive_solver|].
  destruct (is_principal_active (sq_principals r) p) as [[]|]; simpl; naive_solver.
Qed.

(** The notification of a stored envelope. *)
Definition row_event (row : EnvelopeRow) : RelayEvent := mk_RelayEvent (row_routing_id row) (row_cursor row).

(** C29: Everything the relay stores and announces is accounted for, however the requests
    it serves interleave at their awaits and whichever of them are dropped.  Every stored
    envelope was submitted, byte for byte, by a principal whose authorization was checked
    while the envelope was not yet stored, and that held then a static grant to send on its
    route or an active registration.  The notifications sent, those of the submissions
    that have committed and not resumed, and those of submissions dropped in between are
    together one for each stored envelope, with its route and cursor, in some order: nothing
    is announced that is not stored and nothing is announced twice. *)
Theorem relay_audit access actions :
  let s := serving_run access (serving_start empty_repository) actions in
  let stored := relay_envelope (sq_relay (sys_repo s)) in
  sys_sent s ++ (sys_tasks s ≫= unannounced) ++ sys_lost s ≡ₚ row_event <$> stored
  ∧ NoDup (row_event <$> stored)
  ∧ Forall (fun row =>
      ∃ pre i clock post task p, actions = pre ++ Resume i clock :: post
      ∧ (let before := serving_run access (serving_start empty_repository) pre in
        sys_tasks before !! i = Some task ∧ submits task p (row_encoded_envelope row)
        ∧ (row ∉ relay_envelope (sq_relay (sys_repo before)))
        ∧ (is_authorized (static_access access) p (row_routing_id row) PermitSend = true
           ∨ is_principal_active (sq_principals (sys_repo before)) p = Ok true))) stored.
Proof.
  intros s stored.
  destruct (serving_run_ok access empty_repository actions) as [Hok _ Hlg Han]; [apply store_ok_empty|done|].
  fold s in Hok, Hlg, Han. cbn in Han. rewrite <- list_fmap_compose in Han. split_and!; [exact Han| |].
  - pose proof (store_log_unique _ Hok) as Hnd. rewrite <- list_fmap_compose in Hnd.
    apply NoDup_fmap_1 with (f := fun event => (event_routing_id event, event_cursor event)).
    rewrite <- list_fmap_compose. exact Hnd.
  - apply Forall_forall. intros row Hin.
    destruct (Hlg (row_routing_id row) (row_cursor row) (row_encoded_envelope row))
      as (p & pre & i & clock & post & task & Heq & Hi & Hsub & Ha & Hno).
    { cbn. apply list_elem_of_fmap. by exists row. }
    exists pre, i, clock, post, task, p. split; [done|]. cbv zeta. split_and!; [done|done| |by apply access_authorized].
    intros Hold. apply Hno. cbn. apply list_elem_of_fmap. by exists row.
Qed.

(** Every data-plane request of a principal answers unauthorized and changes nothing. *)
Definition locked_out access r (p : RelayPrincipalId) : Prop :=
  (∀ clock e, service_submit access clock r p e = (Err Unauthorized, r))
  ∧ (∀ clock b e, decode_relay_envelope b = Ok e →
       service_submit_encoded access clock r p b = (Err Unauthorized, r))
  ∧ (∀ request, service_replay access r p request = Err Unauthorized)
  ∧ (∀ request, service_replay_encoded access r p request = Err Unauthorized)
  ∧ (∀ request, service_acknowledge access r p request = (Err Unauthorized, r))
  ∧ authenticate_data_plane access r p = Err Unauthorized.

Lemma inactive_locked_out access r p :
  contains_principal (static_access access) p = false →
  is_principal_active (sq_principals r) p = Ok false → locked_out access r p.
Proof.
  intros Hstatic Hinactive.
  assert (∀ route perm, authorize access r p route perm = Err Unauthorized) as Hauth.
  { intros route perm. unfold authorize, access_authorizer, authorize, dynamic_authorizer. simpl.
    rewrite Hinactive. unfold is_authorized. unfold contains_principal in Hstatic.
    by destruct (access_grants (static_access access) !! p). }
  unfold locked_out, service_submit, service_submit_encoded, service_replay,
    service_replay_encoded, service_acknowledge, guarded, authenticate_data_plane.
  split_and!; intros; rewrite ?Hauth; try done.
  - match goal with Hd : decode_relay_envelope _ = _ |- _ => rewrite Hd end. cbn [map_err].
    by rewrite Hauth.
  - rewrite Hstatic. simpl. by rewrite Hinactive.
Qed.

(** The relay at the moment the registry revokes a principal. *)
Definition revoked_now (p : RelayPrincipalId) (s : RelaySystem SqliteRelayRepository)
    : RelaySystem SqliteRelayRepository :=
  mk_RelaySystem (registry_revoke (sys_repo s) p).2 (sys_tasks s) (sys_sent s) (sys_lost s).

(** C32: Revocation locks a principal out of every surface for good.  A principal without
    static grants that was active and is revoked is refused on submission, replay,
    acknowledgment and authentication, with the database unchanged, however the history
    continues and interleaves: re-registration included. *)
Theorem revoked_locked_out access actions later p
    (Hstatic : contains_principal (static_access access) p = false)
    (Hactive : is_principal_active
                 (sq_principals (sys_repo (serving_run access (serving_start empty_repository) actions))) p = Ok true) :
  let revoked := revoked_now p (serving_run access (serving_start empty_repository) actions) in
  locked_out access (sys_repo (serving_run access revoked later)) p.
Proof.
  intros revoked. apply inactive_locked_out; [done|]. destruct (run_principals access revoked later) as [ops ->].
  unfold is_principal_active in Hactive.
  destruct (sq_principals (sys_repo (serving_run access (serving_start empty_repository) actions)) !! p)
    as [row|] eqn:Hrow; [|done]. simpl in Hactive.
  assert (principal_status row = 1) as Hs.
  { destruct (principal_status row) as [|[[]|[]|]|]; done. }
  assert (sq_principals (sys_repo revoked) !! p = Some (mk_PrincipalRow (principal_request_id row) 2)) as Hrev.
  { unfold revoked, revoked_now. simpl. unfold revoke_principal. rewrite Hrow, Hs. simpl. by rewrite lookup_insert_eq. }
  unfold is_principal_active. by rewrite (revoked_row_stays _ ops p _ Hrev).
Qed.
End theorems.

(** ** The access document grants what it says *)

Section document_grants.
Context (decode : text → option bytes).

Lemma add_permissions_grants route perms grants total grants' total' :
  add_permissions route perms grants total = Ok (grants', total') →
  ∀ g, g ∈ grants' ↔ g ∈ grants ∨ g.1 = route ∧ g.2 ∈ perms.
Proof.
  revert grants total. induction perms as [|perm perms IH]; intros grants total H g; simpl in H.
  { simplify_eq. rewrite elem_of_nil. tauto. }
  unfold ensure in H. inv_ok. rewrite (IH _ _ H g). destruct g as [gr gp]. simpl. set_solver.
Qed.

Lemma add_grants_grants docs grants total grants' total' :
  add_grants decode docs grants total = Ok (grants', total') →
  ∀ g, g ∈ grants' ↔ g ∈ grants
    ∨ ∃ doc, doc ∈ docs ∧ decode_route decode (grant_route doc) = Ok g.1
        ∧ g.2 ∈ grant_permissions doc.
Proof.
  revert grants total. induction docs as [|doc docs IH]; intros grants total H g; simpl in H.
  { simplify_eq. split; [by left|]. intros [?|(? & ?%elem_of_nil & _)]; done. }
  unfold ensure in H. apply bind_Ok in H as (? & _ & H). apply bind_Ok in H as (route & Hroute & H).
  apply bind_Ok in H as ([grants1 total1] & Hperm & H). rewrite (IH _ _ H g).
  rewrite (add_permissions_grants _ _ _ _ _ _ Hperm g). setoid_rewrite elem_of_cons.
  split.
  - intros [[?|[<- ?]]|(d & ? & ? & ?)]; [by left|right; eauto|right; eauto].
  - intros [?|(d & [->|Hin] & Hr & Hp)]; [by left; left| |right; eauto].
    rewrite Hroute in Hr. injection Hr as ->. by left; right.
Qed.

(** The grants a list of principal documents spells out. *)
Definition document_allows (docs : list PrincipalDocument) (p : RelayPrincipalId) (g : Grant) : Prop :=
  ∃ pd doc, pd ∈ docs ∧ decode_principal_id decode (document_principal pd) = Ok p
    ∧ doc ∈ document_grants pd ∧ decode_route decode (grant_route doc) = Ok g.1
    ∧ g.2 ∈ grant_permissions doc.

Lemma add_principals_grants docs m total m' :
  add_principals decode docs m total = Ok m' →
  ∀ p g, (∃ grants, m' !! p = Some grants ∧ g ∈ grants)
    ↔ (∃ grants, m !! p = Some grants ∧ g ∈ grants) ∨ document_allows docs p g.
Proof.
  revert m total. induction docs as [|pd docs IH]; intros m total H p g; simpl in H.
  { simplify_eq. split; [by left|]. intros [?|(? & ? & ?%elem_of_nil & _)]; done. }
  unfold ensure in H. apply bind_Ok in H as (? & _ & H). apply bind_Ok in H as (id & Hid & H).
  apply bind_Ok in H as ([grants total1] & Hgr & H). apply bind_Ok in H as (? & Hfresh & H).
  apply fail_if_Ok in Hfresh. apply negb_false_iff in Hfresh.
  pose proof (add_grants_grants _ _ _ _ _ Hgr g) as Hg.
  rewrite (IH _ _ H p g). unfold document_allows. split.
  - intros [(gs & Hp & Hin)|(pd' & doc & ? & ?)]; [|right; exists pd', doc; set_solver].
    apply lookup_insert_Some in Hp as [[<- <-]|[_ Hp]]; [|by left; eauto].
    apply Hg in Hin as [?%not_elem_of_empty|(doc & ? & ? & ?)]; [done|].
    right. exists pd, doc. set_solver.
  - intros [(gs & Hp & Hin)|(pd' & doc & [->|Hin]%elem_of_cons & Hd & Hdoc)].
    + left. exists gs. rewrite lookup_insert_ne; [done|]. intros ->. by rewrite Hp in Hfresh.
    + left. rewrite Hid in Hd. injection Hd as ->. exists grants. rewrite lookup_insert_eq.
      split; [done|]. apply Hg. right. by exists doc.
    + right. by exists pd', doc.
Qed.
End document_grants.

(** The startup access document grants exactly what it says.  When a document is
    accepted, a principal is statically authorized for a route and an action if and only
    if some entry of the document names that principal and grants that action on that
    route or on every route. *)
Theorem access_document_exact decode document access
    (Haccepted : from_document decode document = Ok access) p route perm :
  is_authorized access p route perm = true ↔
  document_allows decode (document_principals document) p (AnyRoute, perm)
  ∨ document_allows decode (document_principals document) p (ExactRoute route, perm).
Proof.
  unfold from_document, ensure in Haccepted. inv_ok. subst access.
  match goal with H : add_principals _ _ _ _ = Ok _ |- _ =>
    pose proof (add_principals_grants decode _ _ _ _ H p) as Hgrants end.
  unfold is_authorized. simpl.
  assert (∀ g, document_allows decode (document_principals document) p g
    ↔ ∃ grants, r4 !! p = Some grants ∧ g ∈ grants) as Hiff.
  { intros g. rewrite Hgrants. split; [by right|].
    intros [(gs & ?%lookup_empty_Some & _)|?]; done. }
  rewrite !Hiff. destruct (r4 !! p) as [grants|]; simpl; [|naive_solver].
  bool_prop. naive_solver.
Qed.
