(* ===== verification/ServiceExamples.v ===== *)
(** * Concrete runs of the relay service

    A registration and its revocation, two interleaved submissions, and an access document
    with one wildcard grant. *)

From S2P Require Import Prelude Identifiers RelayModel Wire WireProofs ReferenceCodec RelayStore.
From S2P Require Import RelayStoreProofs RelayPrincipals RelayService.
Open Scope Z_scope.

Definition no_static_access : RelayAccess := RelayAccess_new (mk_StaticRelayAccess ∅ None).

Definition registered_principal : RelayPrincipalId := enroll_principal_id example_enrollment.

(** A registration, as a request that runs to its end. *)
Definition example_registration (i : nat) : list RelayAction :=
  [Arrive (CallRegister example_enrollment); Resume i (Ok 100)].

Lemma revoked_locked_out_witness :
  locked_out no_static_access
    (sys_repo (serving_run no_static_access
       (revoked_now registered_principal
          (serving_run no_static_access (serving_start empty_repository) (example_registration 0)))
       (example_registration 1))) registered_principal.
Proof.
  apply (revoked_locked_out no_static_access (example_registration 0) (example_registration 1)
    registered_principal).
  - vm_compute. reflexivity.
  - vm_compute. reflexivity.
Defined.

(** Two submissions interleaved: both are authorized, then the principal is revoked, then
    both transactions commit; the second is announced first and the first is dropped before
    it announces. *)
Definition interleaved_submissions : list RelayAction :=
  example_registration 0
  ++ [Arrive (CallSubmit registered_principal example_commit);
      Arrive (CallSubmitEncoded registered_principal (example_encoding example_message));
      Resume 1 (Ok 100); Resume 2 (Ok 100);
      Arrive (CallRevoke registered_principal); Resume 3 (Ok 100);
      Resume 1 (Ok 100); Resume 2 (Ok 100);
      Resume 2 (Ok 100); Abandon 1].

Example interleaved_submissions_run :
  let s := serving_run no_static_access (serving_start empty_repository) interleaved_submissions in
  row_event <$> relay_envelope (sq_relay (sys_repo s)) = [mk_RelayEvent example_route 1; mk_RelayEvent example_route 2]
  ∧ sys_sent s = [mk_RelayEvent example_route 2] ∧ sys_lost s = [mk_RelayEvent example_route 1]
  ∧ is_principal_active (sq_principals (sys_repo s)) registered_principal = Ok false.
Proof. split_and!; vm_compute; reflexivity. Qed.

(** The encoding of 32 zero bytes is 43 letters A. *)
Definition zero_decode (value : text) : option bytes :=
  if bool_decide (value = replicate 43 x41) then Some (replicate 32 x00) else None.

Definition wildcard_document : AccessDocument :=
  mk_AccessDocument 1
    [mk_PrincipalDocument (replicate 43 x41) [mk_GrantDocument (lit "*") [PermitSend; PermitReplay]]]
    None.

Definition zero_principal : RelayPrincipalId := repeat_id KRelayPrincipalId x00.

Definition wildcard_access : StaticRelayAccess :=
  mk_StaticRelayAccess {[zero_principal := {[(AnyRoute, PermitSend); (AnyRoute, PermitReplay)]}]} None.

Lemma access_document_exact_witness :
  is_authorized wildcard_access zero_principal (repeat_id KRoutingId x09) PermitReplay = true.
Proof.
  apply (access_document_exact zero_decode wildcard_document wildcard_access).
  - vm_compute. reflexivity.
  - left. exists (mk_PrincipalDocument (replicate 43 x41)
      [mk_GrantDocument (lit "*") [PermitSend; PermitReplay]]),
      (mk_GrantDocument (lit "*") [PermitSend; PermitReplay]).
    split; [left|]. split; [vm_compute; reflexivity|]. split; [left|].
    split; [vm_compute; reflexivity|]. right. left.
Defined.
