(* ===== verification/A2AContracts.v ===== *)
(** * A2A requests and their mapping onto Konclave requests

    [crates/Konclave.A2AContracts/src/identifier.rs] and the request half of
    [initial_profile.rs], and [crates/Konclave.A2ADomain/src] ([identifiers.rs],
    [task_state.rs], [mapping.rs], [error.rs]).

    The generated message types are records with the fields of [a2a.proto]; the
    contents of a JSON value or structure are opaque, since the profile only asks
    whether a structure is empty.  SHA-256 is the class [Sha256]. *)

From Stdlib Require Import Eqdep_dec.
From S2P Require Import Prelude Identifiers.
Open Scope Z_scope.

Definition MAX_A2A_IDENTIFIER_BYTES : Z := 128.
Definition MAX_A2A_TEXT_BYTES : Z := 64 * 1024.
Definition DEFAULT_A2A_LIST_PAGE_SIZE : Z := 50.
Definition DEFAULT_A2A_LIST_ARTIFACT_PAGE_SIZE : Z := 8.
Definition MAX_A2A_LIST_PAGE_SIZE : Z := 256.
Definition MAX_A2A_LIST_ARTIFACT_PAGE_SIZE : Z := 8.
Definition MAX_A2A_LIST_PAGE_TOKEN_BYTES : Z := 128.
Definition MAX_A2A_HISTORY_LENGTH : Z := 1.
Definition A2A_TEXT_MEDIA_TYPE : text := lit "text/plain".

(** ** Errors *)

Inductive A2AContractError :=
| A2AEncodedMessageTooLarge (maximum actual : Z)
| A2AMalformedEncoding
| A2AMissingField (field : string)
| A2AUnsupportedField (field : string)
| A2AContractInvalidIdentifier (field : string)
| A2AInvalidText (field : string)
| A2ADuplicateValue (field : string)
| A2AOutOfRange (field : string)
| A2AContractTenantMismatch
| A2AInvalidInterfaceUrl
| A2ARequiredExtensionUnsupported.

Inductive A2ADomainError :=
| A2AInvalidIdentifier (kind : string)
| A2ATenantMismatch
| A2AContextMismatch
| A2AUnsupportedTaskState
| A2APartIndexOutOfRange.

Global Instance A2AContractError_eq_dec : EqDecision A2AContractError.
Proof. solve_decision. Defined.
Global Instance A2ADomainError_eq_dec : EqDecision A2ADomainError.
Proof. solve_decision. Defined.

(** ** Identifiers *)

Definition is_identifier_byte (b : byte) : bool :=
  is_ascii_alphanumeric b || bool_decide (b = "-"%byte) || bool_decide (b = "_"%byte)
  || bool_decide (b = "."%byte) || bool_decide (b = ":"%byte).

(** [A2AIdentifier::parse_for_field]; the wrapper holds the accepted string. *)
Definition A2AIdentifier_parse_for_field (value : text) (field : string)
    : result A2AContractError text :=
  if (len value =? 0) || (MAX_A2A_IDENTIFIER_BYTES <? len value)
     || negb (forallb is_identifier_byte value)
  then Err (A2AContractInvalidIdentifier field)
  else Ok value.

(** The invocations of [define_identifier!], and [A2ATaskId]. *)
Inductive a2a_kind := KAgent | KContext | KMessage | KArtifact | KTenant | KTask.

Definition a2a_kind_name (k : a2a_kind) : string :=
  match k with
  | KAgent => "agent"
  | KContext => "context"
  | KMessage => "message"
  | KArtifact => "artifact"
  | KTenant => "tenant"
  | KTask => "task"
  end.

Definition is_lower_hex (b : byte) : bool := is_ascii_digit b || byte_in "a" "f" b.

(** What [$name::parse] and [A2ATaskId::parse] accept. *)
Definition a2a_id_valid (k : a2a_kind) (value : text) : bool :=
  match k with
  | KTask => (len value =? 32) && forallb is_lower_hex value
  | _ => true
  end && is_ok (A2AIdentifier_parse_for_field value "a2a_identifier").

(** One identifier: a string its parser accepts.  As for [FixedBytes], the boolean
    proof is unique, so identifiers are equal when their strings are. *)
Record A2AId (k : a2a_kind) := mk_A2AId {
  as_str : text;
  as_str_valid : a2a_id_valid k as_str = true }.
Arguments mk_A2AId {k} as_str as_str_valid.
Arguments as_str {k} a.
Arguments as_str_valid {k} a.

Abbreviation A2AAgentId := (A2AId KAgent).
Abbreviation A2AContextId := (A2AId KContext).
Abbreviation A2AMessageId := (A2AId KMessage).
Abbreviation A2AArtifactId := (A2AId KArtifact).
Abbreviation A2ATenantId := (A2AId KTenant).
Abbreviation A2ATaskId := (A2AId KTask).

Definition A2AId_parse (k : a2a_kind) (value : text) : result A2ADomainError (A2AId k) :=
  match bool_dec (a2a_id_valid k value) true with
  | left H => Ok (mk_A2AId value H)
  | right _ => Err (A2AInvalidIdentifier (a2a_kind_name k))
  end.

Lemma as_str_inj {k} (x y : A2AId k) : as_str x = as_str y → x = y.
Proof.
  destruct x as [xs Hx], y as [ys Hy]. simpl. intros ->. f_equal. apply UIP_dec. apply bool_dec.
Qed.

Global Instance A2AId_eq_dec k : EqDecision (A2AId k).
Proof.
  intros x y. destruct (decide (as_str x = as_str y)) as [H|H].
  - left. by apply as_str_inj.
  - right. congruence.
Defined.

Lemma A2AId_parse_as_str {k} (x : A2AId k) : A2AId_parse k (as_str x) = Ok x.
Proof.
  unfold A2AId_parse. destruct (bool_dec _ _) as [H|H]; [f_equal; by apply as_str_inj|].
  exfalso. apply H, as_str_valid.
Qed.

Lemma A2AId_parse_Ok k value x : A2AId_parse k value = Ok x ↔ as_str x = value.
Proof.
  split; [|intros <-; apply A2AId_parse_as_str].
  unfold A2AId_parse. destruct (bool_dec _ _); [by intros [= <-]|done].
Qed.

Lemma as_str_length {k} (x : A2AId k) : 0 < len (as_str x) <= MAX_A2A_IDENTIFIER_BYTES.
Proof.
  pose proof (as_str_valid x) as H. unfold a2a_id_valid, A2AIdentifier_parse_for_field in H.
  apply andb_true_iff in H as [_ H].
  destruct ((len (as_str x) =? 0) || (MAX_A2A_IDENTIFIER_BYTES <? len (as_str x))) eqn:E; [done|].
  bool_prop. pose proof (len_nonneg (as_str x)). lia.
Qed.

(** ** Task identifiers *)

Definition hex_digit (n : Z) : byte := default "0"%byte (nth_error (lit "0123456789abcdef") (Z.to_nat n)).

Fixpoint hex_encode (value : bytes) : text :=
  match value with
  | [] => []
  | b :: rest => hex_digit (Z.shiftr (byte_value b) 4) :: hex_digit (Z.land (byte_value b) 15)
                 :: hex_encode rest
  end.

Definition task_id_from_request_message_id (value : MessageId)
    : result A2ADomainError A2ATaskId :=
  A2AId_parse KTask (hex_encode (as_bytes value)).

(** [None] is the [unreachable!()] arm. *)
Definition decode_nibble (value : byte) : option Z :=
  if is_ascii_digit value then Some (byte_value value - byte_value "0")
  else if byte_in "a" "f" value then Some (byte_value value - byte_value "a" + 10)
  else None.

(** The loop over [chunks_exact(2)]. *)
Fixpoint decode_pairs (value : text) : option bytes :=
  match value with
  | hi :: lo :: rest =>
      h ← decode_nibble hi;
      l ← decode_nibble lo;
      bs ← decode_pairs rest;
      Some (u8 (Z.lor (Z.shiftl h 4) l) :: bs)
  | _ => Some []
  end.

Definition task_request_message_id (task_id : A2ATaskId) : option MessageId :=
  bs ← decode_pairs (as_str task_id);
  fixed_of_slice KMessageId bs.

(** ** Task states *)

Inductive A2ATaskState :=
| Submitted | Working | Completed | Failed | Canceled | InputRequired | Rejected | AuthRequired.

Global Instance A2ATaskState_eq_dec : EqDecision A2ATaskState.
Proof. solve_decision. Defined.

(** The generated enumeration, by its numbers. *)
Definition A2ATaskState_to_wire (s : A2ATaskState) : Z :=
  match s with
  | Submitted => 1 | Working => 2 | Completed => 3 | Failed => 4
  | Canceled => 5 | InputRequired => 6 | Rejected => 7 | AuthRequired => 8
  end.

Definition A2ATaskState_from_wire (value : Z) : result A2ADomainError A2ATaskState :=
  match value with
  | 1 => Ok Submitted
  | 2 => Ok Working
  | 3 => Ok Completed
  | 4 => Ok Failed
  | 5 => Ok Canceled
  | 6 => Ok InputRequired
  | 7 => Ok Rejected
  | 8 => Ok AuthRequired
  | _ => Err A2AUnsupportedTaskState
  end.

(** ** Generated request messages *)

(** [google.protobuf.Struct] and its values; only strings are looked into. *)
Inductive PbValue :=
| PbString (value : text)
| PbOther (value : bytes).

Global Instance PbValue_eq_dec : EqDecision PbValue.
Proof. solve_decision. Defined.

Abbreviation PbStruct := (gmap text PbValue).

Inductive PartContent :=
| PartText (value : text)
| PartRaw (value : bytes)
| PartUrl (value : text)
| PartData (value : bytes).

Record WirePart := mk_WirePart {
  part_content : option PartContent;
  part_metadata : option PbStruct;
  part_filename : text;
  part_media_type : text }.

Record WireMessage := mk_WireMessage {
  message_message_id : text;
  message_context_id : text;
  message_task_id : text;
  message_role : Z;
  message_parts : list WirePart;
  message_metadata : option PbStruct;
  message_extensions : list text;
  message_reference_task_ids : list text }.

Record WireSendMessageConfiguration := mk_WireSendMessageConfiguration {
  accepted_output_modes : list text;
  task_push_notification_config : option bytes;
  configuration_history_length : option Z;
  configuration_return_immediately : bool }.

Record WireSendMessageRequest := mk_WireSendMessageRequest {
  send_tenant : text;
  send_message_field : option WireMessage;
  send_configuration : option WireSendMessageConfiguration;
  send_metadata : option PbStruct }.

Record WireGetTaskRequest := mk_WireGetTaskRequest {
  get_tenant : text; get_id : text; get_history_length : option Z }.

Record WireSubscribeToTaskRequest := mk_WireSubscribeToTaskRequest {
  subscribe_tenant : text; subscribe_id : text }.

Record WireListTasksRequest := mk_WireListTasksRequest {
  list_tenant : text;
  list_context_id : text;
  list_status : Z;
  list_page_size : option Z;
  list_page_token : text;
  list_history_length : option Z;
  list_status_timestamp_after : option Z;
  list_include_artifacts : option bool }.

(** ** The initial profile *)

Record InitialSendMessageRequest := mk_InitialSendMessageRequest {
  initial_tenant : option text;
  initial_message_id : text;
  initial_context_id : option text;
  initial_text : text;
  initial_return_immediately : bool;
  initial_history_length : option Z }.

Record InitialGetTaskRequest := mk_InitialGetTaskRequest {
  get_request_tenant : option text;
  get_request_task_id : text;
  get_request_history_length : option Z }.

Record InitialListTasksRequest := mk_InitialListTasksRequest {
  list_request_tenant : option text;
  list_request_page_size : Z;
  list_request_page_token : option text;
  list_request_include_artifacts : bool }.

Record InitialSubscribeToTaskRequest := mk_InitialSubscribeToTaskRequest {
  subscribe_request_tenant : option text;
  subscribe_request_task_id : text }.

Definition require_encoded_bound (encoded : bytes) (maximum : Z) : result A2AContractError unit :=
  fail_if (maximum <? len encoded) (A2AEncodedMessageTooLarge maximum (len encoded)).

Definition validate_identifier (value : text) (field : string) : result A2AContractError text :=
  A2AIdentifier_parse_for_field value field.

Definition optional_identifier (value : text) (field : string)
    : result A2AContractError (option text) :=
  if len value =? 0 then Ok None else Some <$> validate_identifier value field.

Definition validate_tenant (tenant : text) (expected_tenant : option text)
    : result A2AContractError (option text) :=
  match expected_tenant with
  | Some expected =>
      validate_identifier expected "expected_tenant";;
      fail_if (bool_decide (tenant ≠ expected)) A2AContractTenantMismatch;;
      Ok (Some tenant)
  | None => if len tenant =? 0 then Ok None else Err A2AContractTenantMismatch
  end.

Definition validate_text (value : text) (field : string) : result A2AContractError text :=
  if (len value =? 0) || (MAX_A2A_TEXT_BYTES <? len value)
  then Err (A2AInvalidText field) else Ok value.

Definition validate_history_length (value : option Z) : result A2AContractError (option Z) :=
  match value with
  | None => Ok None
  | Some value =>
      if (0 <=? value) && (value <=? MAX_A2A_HISTORY_LENGTH) then Ok (Some value)
      else Err (A2AOutOfRange "history_length")
  end.

Definition validate_page_size (value : option Z) : result A2AContractError Z :=
  match value with
  | None => Ok DEFAULT_A2A_LIST_PAGE_SIZE
  | Some value =>
      if (1 <=? value) && (value <=? MAX_A2A_LIST_PAGE_SIZE) then Ok value
      else Err (A2AOutOfRange "page_size")
  end.

Definition validate_page_token (value : text) (field : string)
    : result A2AContractError (option text) :=
  if len value =? 0 then Ok None
  else if (MAX_A2A_LIST_PAGE_TOKEN_BYTES <? len value)
          || negb (forallb (fun b => is_ascii_lowercase b || is_ascii_digit b
                                     || bool_decide (b = "."%byte) || bool_decide (b = "-"%byte))
                     value)
  then Err (A2AOutOfRange field)
  else Ok (Some value).

Definition require_empty_struct (value : option PbStruct) (field : string)
    : result A2AContractError unit :=
  fail_if (is_some_and value (fun fields => negb (bool_decide (fields = ∅))))
    (A2AUnsupportedField field).

(** [Role::User as i32]. *)
Definition ROLE_USER : Z := 1.

Definition validate_initial_send_message_request (request : WireSendMessageRequest)
    (expected_tenant : option text) : result A2AContractError InitialSendMessageRequest :=
  tenant ← validate_tenant (send_tenant request) expected_tenant;
  require_empty_struct (send_metadata request) "send_message.metadata";;
  message ← ok_or (send_message_field request) (A2AMissingField "send_message.message");
  message_id ← validate_identifier (message_message_id message) "message.message_id";
  context_id ← optional_identifier (message_context_id message) "message.context_id";
  fail_if (negb (len (message_task_id message) =? 0)) (A2AUnsupportedField "message.task_id");;
  fail_if (negb (message_role message =? ROLE_USER)) (A2AUnsupportedField "message.role");;
  fail_if (negb (len (message_extensions message) =? 0))
    (A2AUnsupportedField "message.extensions");;
  fail_if (negb (len (message_reference_task_ids message) =? 0))
    (A2AUnsupportedField "message.reference_task_ids");;
  require_empty_struct (message_metadata message) "message.metadata";;
  fail_if (negb (len (message_parts message) =? 1)) (A2AUnsupportedField "message.parts");;
  part ← ok_or (head (message_parts message)) (A2AMissingField "message.parts");
  require_empty_struct (part_metadata part) "part.metadata";;
  fail_if (negb (len (part_filename part) =? 0)) (A2AUnsupportedField "part.filename");;
  fail_if (negb (len (part_media_type part) =? 0)
           && bool_decide (part_media_type part ≠ A2A_TEXT_MEDIA_TYPE))
    (A2AUnsupportedField "part.media_type");;
  value ← match part_content part with
          | Some (PartText value) => validate_text value "part.text"
          | Some _ => Err (A2AUnsupportedField "part.content")
          | None => Err (A2AMissingField "part.content")
          end;
  '(return_immediately, history_length) ←
    match send_configuration request with
    | Some configuration =>
        fail_if (is_some (task_push_notification_config configuration))
          (A2AUnsupportedField "configuration.task_push_notification_config");;
        fail_if ((1 <? len (accepted_output_modes configuration))
                 || is_some_and (head (accepted_output_modes configuration))
                      (fun mode => bool_decide (mode ≠ A2A_TEXT_MEDIA_TYPE)))
          (A2AUnsupportedField "configuration.accepted_output_modes");;
        history_length ← validate_history_length (configuration_history_length configuration);
        Ok (configuration_return_immediately configuration, history_length)
    | None => Ok (false, None)
    end;
  Ok (mk_InitialSendMessageRequest tenant message_id context_id value return_immediately
        history_length).

(** [InitialSendMessageRequest::into_wire]; [None] is the [unreachable!()] arm. *)
Definition InitialSendMessageRequest_into_wire (request : InitialSendMessageRequest)
    : option WireSendMessageRequest :=
  history_length ← match initial_history_length request with
                   | Some 0 => Some (Some 0)
                   | Some 1 => Some (Some 1)
                   | None => Some None
                   | Some _ => None
                   end;
  Some (mk_WireSendMessageRequest (default [] (initial_tenant request))
          (Some (mk_WireMessage (initial_message_id request)
                   (default [] (initial_context_id request)) [] ROLE_USER
                   [mk_WirePart (Some (PartText (initial_text request))) None []
                      A2A_TEXT_MEDIA_TYPE]
                   None [] []))
          (Some (mk_WireSendMessageConfiguration [A2A_TEXT_MEDIA_TYPE] None history_length
                   (initial_return_immediately request)))
          None).

Definition validate_initial_get_task_request (request : WireGetTaskRequest)
    (expected_tenant : option text) : result A2AContractError InitialGetTaskRequest :=
  tenant ← validate_tenant (get_tenant request) expected_tenant;
  task_id ← validate_identifier (get_id request) "get_task.id";
  history_length ← validate_history_length (get_history_length request);
  Ok (mk_InitialGetTaskRequest tenant task_id history_length).

Definition validate_initial_subscribe_to_task_request (request : WireSubscribeToTaskRequest)
    (expected_tenant : option text) : result A2AContractError InitialSubscribeToTaskRequest :=
  tenant ← validate_tenant (subscribe_tenant request) expected_tenant;
  task_id ← validate_identifier (subscribe_id request) "subscribe_to_task.id";
  Ok (mk_InitialSubscribeToTaskRequest tenant task_id).

Definition validate_initial_list_tasks_request (request : WireListTasksRequest)
    (expected_tenant : option text) : result A2AContractError InitialListTasksRequest :=
  fail_if (negb (len (list_context_id request) =? 0)) (A2AUnsupportedField "list_tasks.context_id");;
  fail_if (negb (list_status request =? 0)) (A2AUnsupportedField "list_tasks.status");;
  fail_if (is_some (list_history_length request))
    (A2AUnsupportedField "list_tasks.history_length");;
  fail_if (is_some (list_status_timestamp_after request))
    (A2AUnsupportedField "list_tasks.status_timestamp_after");;
  let include_artifacts := default false (list_include_artifacts request) in
  page_size ← match list_page_size request, include_artifacts with
              | None, true => Ok DEFAULT_A2A_LIST_ARTIFACT_PAGE_SIZE
              | value, _ => validate_page_size value
              end;
  fail_if (include_artifacts && (MAX_A2A_LIST_ARTIFACT_PAGE_SIZE <? page_size))
    (A2AOutOfRange "list_tasks.page_size");;
  tenant ← validate_tenant (list_tenant request) expected_tenant;
  page_token ← validate_page_token (list_page_token request) "list_tasks.page_token";
  Ok (mk_InitialListTasksRequest tenant page_size page_token include_artifacts).

(** ** Mapping onto a route *)

Definition TASK_MAPPING_DOMAIN : bytes := lit "konclave-a2a-task-mapping-v1" ++ [x00].

Record A2AAgentRoute := mk_A2AAgentRoute {
  route_agent_id : A2AAgentId;
  route_context_id : A2AContextId;
  route_tenant : option A2ATenantId;
  route_conversation_id : ConversationId;
  route_target_device_id : DeviceId }.

Record A2ADirectedRequestMapping := mk_A2ADirectedRequestMapping {
  mapping_agent_id : A2AAgentId;
  mapping_context_id : A2AContextId;
  mapping_tenant : option A2ATenantId;
  mapping_source_message_id : A2AMessageId;
  mapping_task_id : A2ATaskId;
  mapping_conversation_id : ConversationId;
  mapping_target_device_id : DeviceId;
  mapping_request_message_id : MessageId;
  mapping_part_index : Z;
  mapping_text : text;
  mapping_return_immediately : bool;
  mapping_history_length : option Z }.

Record A2ATaskLookup := mk_A2ATaskLookup {
  lookup_agent_id : A2AAgentId;
  lookup_task_id : A2ATaskId;
  lookup_tenant : option A2ATenantId;
  lookup_history_length : option Z }.

Record A2ATaskListLookup := mk_A2ATaskListLookup {
  list_lookup_agent_id : A2AAgentId;
  list_lookup_context_id : A2AContextId;
  list_lookup_tenant : option A2ATenantId;
  list_lookup_page_size : Z;
  list_lookup_page_token : option text;
  list_lookup_include_artifacts : bool }.

Definition require_tenant (route : A2AAgentRoute) (request : option text)
    : result A2ADomainError unit :=
  if bool_decide (as_str <$> route_tenant route = request) then Ok tt else Err A2ATenantMismatch.

Definition A2APartIndex_from_position (position : Z) : result A2ADomainError Z :=
  if position <=? 65535 then Ok position else Err A2APartIndexOutOfRange.

(** The bytes [append_component] feeds to the hash. *)
Definition append_component (value : option text) : result A2ADomainError bytes :=
  let value := default [] value in
  fail_if (65535 <? len value) (A2AInvalidIdentifier "task_mapping");;
  Ok (be_bytes 2 (len value) ++ value).

Section mapping.
Context `{Sha256}.

Definition derive_task_mapping (route : A2AAgentRoute) (context_id : A2AContextId)
    (source_message_id : A2AMessageId) : result A2ADomainError (A2ATaskId * MessageId) :=
  tenant ← append_component (as_str <$> route_tenant route);
  agent ← append_component (Some (as_str (route_agent_id route)));
  context ← append_component (Some (as_str context_id));
  source ← append_component (Some (as_str source_message_id));
  let digest := sha256 (TASK_MAPPING_DOMAIN ++ tenant ++ agent ++ context ++ source
                          ++ as_bytes (route_conversation_id route)
                          ++ as_bytes (route_target_device_id route)) in
  request_message_id ← ok_or (fixed_of_slice KMessageId (take 16 digest))
                         (A2AInvalidIdentifier "task_mapping");
  task_id ← task_id_from_request_message_id request_message_id;
  Ok (task_id, request_message_id).

Definition map_initial_send_message (route : A2AAgentRoute) (request : InitialSendMessageRequest)
    : result A2ADomainError A2ADirectedRequestMapping :=
  require_tenant route (initial_tenant request);;
  context_id ← match initial_context_id request with
               | Some context =>
                   context ← A2AId_parse KContext context;
                   fail_if (bool_decide (context ≠ route_context_id route)) A2AContextMismatch;;
                   Ok context
               | None => Ok (route_context_id route)
               end;
  source_message_id ← A2AId_parse KMessage (initial_message_id request);
  '(task_id, request_message_id) ← derive_task_mapping route context_id source_message_id;
  part_index ← A2APartIndex_from_position 0;
  Ok (mk_A2ADirectedRequestMapping (route_agent_id route) context_id (route_tenant route)
        source_message_id task_id (route_conversation_id route) (route_target_device_id route)
        request_message_id part_index (initial_text request)
        (initial_return_immediately request) (initial_history_length request)).

Definition map_initial_streaming_message (route : A2AAgentRoute)
    (request : InitialSendMessageRequest) : result A2ADomainError A2ADirectedRequestMapping :=
  m ← map_initial_send_message route request;
  Ok (mk_A2ADirectedRequestMapping (mapping_agent_id m) (mapping_context_id m)
        (mapping_tenant m) (mapping_source_message_id m) (mapping_task_id m)
        (mapping_conversation_id m) (mapping_target_device_id m) (mapping_request_message_id m)
        (mapping_part_index m) (mapping_text m) false (mapping_history_length m)).

End mapping.

Definition map_initial_get_task (route : A2AAgentRoute) (request : InitialGetTaskRequest)
    : result A2ADomainError A2ATaskLookup :=
  require_tenant route (get_request_tenant request);;
  task_id ← A2AId_parse KTask (get_request_task_id request);
  Ok (mk_A2ATaskLookup (route_agent_id route) task_id (route_tenant route)
        (get_request_history_length request)).

Definition map_initial_subscribe_to_task (route : A2AAgentRoute)
    (request : InitialSubscribeToTaskRequest) : result A2ADomainError A2ATaskLookup :=
  require_tenant route (subscribe_request_tenant request);;
  task_id ← A2AId_parse KTask (subscribe_request_task_id request);
  Ok (mk_A2ATaskLookup (route_agent_id route) task_id (route_tenant route) None).

Definition map_initial_list_tasks (route : A2AAgentRoute) (request : InitialListTasksRequest)
    : result A2ADomainError A2ATaskListLookup :=
  require_tenant route (list_request_tenant request);;
  Ok (mk_A2ATaskListLookup (route_agent_id route) (route_context_id route) (route_tenant route)
        (list_request_page_size request) (list_request_page_token request)
        (list_request_include_artifacts request)).

(** ** Task identifiers name request messages *)

Lemma hex_byte b :
  decode_nibble (hex_digit (Z.shiftr (byte_value b) 4)) = Some (Z.shiftr (byte_value b) 4)
  ∧ decode_nibble (hex_digit (Z.land (byte_value b) 15)) = Some (Z.land (byte_value b) 15)
  ∧ u8 (Z.lor (Z.shiftl (Z.shiftr (byte_value b) 4) 4) (Z.land (byte_value b) 15)) = b
  ∧ is_lower_hex (hex_digit (Z.shiftr (byte_value b) 4)) = true
  ∧ is_lower_hex (hex_digit (Z.land (byte_value b) 15)) = true.
Proof. destruct b; vm_compute; done. Qed.

Lemma lower_hex_nibble b :
  is_lower_hex b = true → is_identifier_byte b = true
  ∧ ∃ n, decode_nibble b = Some n ∧ 0 <= n < 16 ∧ hex_digit n = b.
Proof. destruct b; vm_compute; intros H; try discriminate H; (split; [done|]); eexists; (split; [done|]); done. Qed.

Lemma hex_pair_nibbles h l :
  0 <= h < 16 → 0 <= l < 16 →
  Z.shiftr (byte_value (u8 (Z.lor (Z.shiftl h 4) l))) 4 = h
  ∧ Z.land (byte_value (u8 (Z.lor (Z.shiftl h 4) l))) 15 = l.
Proof.
  intros Hh Hl.
  assert (∀ n, 0 <= n < 16 → n ∈ seqZ 0 16) as In by (intros n; rewrite elem_of_seqZ; lia).
  assert (Forall (λ h, Forall (λ l,
    Z.shiftr (byte_value (u8 (Z.lor (Z.shiftl h 4) l))) 4 = h
    ∧ Z.land (byte_value (u8 (Z.lor (Z.shiftl h 4) l))) 15 = l) (seqZ 0 16)) (seqZ 0 16)) as F.
  { apply (bool_decide_unpack _). vm_compute. exact I. }
  rewrite Forall_forall in F. specialize (F h (In h Hh)).
  rewrite Forall_forall in F. exact (F l (In l Hl)).
Qed.

Lemma hex_encode_length bs : length (hex_encode bs) = (2 * length bs)%nat.
Proof. induction bs; simpl; lia. Qed.

Lemma hex_encode_lower bs : forallb is_lower_hex (hex_encode bs) = true.
Proof.
  induction bs as [|b bs IH]; [done|]. destruct (hex_byte b) as (_ & _ & _ & H1 & H2).
  cbn [hex_encode forallb]. by rewrite H1, H2, IH.
Qed.

Lemma decode_hex_encode bs : decode_pairs (hex_encode bs) = Some bs.
Proof.
  induction bs as [|b bs IH]; [done|]. destruct (hex_byte b) as (H1 & H2 & H3 & _).
  cbn [hex_encode decode_pairs]. by rewrite H1, H2, IH; simpl; rewrite H3.
Qed.

Lemma decode_pairs_hex n value :
  length value = (2 * n)%nat → forallb is_lower_hex value = true →
  ∃ bs, decode_pairs value = Some bs ∧ hex_encode bs = value ∧ length bs = n.
Proof.
  revert value. induction n as [|n IH]; intros [|hi [|lo rest]]; simpl; try lia.
  { intros _ _. by exists []. }
  intros Hl. rewrite !andb_true_iff. intros (Hhi & Hlo & Hr).
  destruct (IH rest) as (bs & Hbs & Henc & Hlen); [lia|done|].
  destruct (lower_hex_nibble hi Hhi) as (_ & h & Hh & Hh16 & <-).
  destruct (lower_hex_nibble lo Hlo) as (_ & l & Hlw & Hl16 & <-).
  rewrite Hh, Hlw, Hbs. simpl. eexists. split; [done|]. cbn [hex_encode length].
  destruct (hex_pair_nibbles h l Hh16 Hl16) as [-> ->]. by rewrite Henc, Hlen.
Qed.

Lemma lower_hex_task_valid value :
  length value = 32%nat → forallb is_lower_hex value = true → a2a_id_valid KTask value = true.
Proof.
  intros Hl Hh. unfold a2a_id_valid, A2AIdentifier_parse_for_field, len. rewrite Hl, Hh.
  assert (forallb is_identifier_byte value = true) as ->; [|done].
  rewrite forallb_forall in Hh |- *. intros b Hb. by apply lower_hex_nibble, Hh.
Qed.

(** A task identifier is the spelling of exactly one request message. *)
Lemma task_id_request_message t m :
  task_request_message_id t = Some m ↔ task_id_from_request_message_id m = Ok t.
Proof.
  unfold task_request_message_id, task_id_from_request_message_id. rewrite A2AId_parse_Ok. split.
  - intros (bs & Hbs & Hm)%bind_Some. apply fixed_of_slice_Some in Hm as ->.
    pose proof (as_str_valid t) as Hv. unfold a2a_id_valid in Hv.
    rewrite !andb_true_iff in Hv. destruct Hv as [[Hlen Hhex] _].
    destruct (decode_pairs_hex 16 (as_str t)) as (bs' & Hbs' & Henc & _); [unfold len in *; lia|done|].
    simplify_eq. done.
  - intros ->. rewrite decode_hex_encode. simpl. apply fixed_of_slice_as_bytes.
Qed.

Lemma task_request_message_total t : is_Some (task_request_message_id t).
Proof.
  pose proof (as_str_valid t) as Hv. unfold a2a_id_valid in Hv.
  rewrite !andb_true_iff in Hv. destruct Hv as [[Hlen Hhex] _].
  destruct (decode_pairs_hex 16 (as_str t)) as (bs & Hbs & _ & Hl); [unfold len in *; lia|done|].
  unfold task_request_message_id. rewrite Hbs. simpl.
  destruct (fixed_of_slice KMessageId bs) eqn:E; [eauto|]. by apply fixed_of_slice_None in E.
Qed.

Lemma task_id_from_message_total m : ∃ t, task_id_from_request_message_id m = Ok t.
Proof.
  unfold task_id_from_request_message_id, A2AId_parse.
  destruct (bool_dec _ _) as [H|H]; [eauto|]. exfalso. apply H.
  apply lower_hex_task_valid; [|apply hex_encode_lower].
  rewrite hex_encode_length. pose proof (bytes_length m) as L. apply Nat.eqb_eq in L. by rewrite L.
Qed.

(** ** The mapping binds the request *)

Section binding.
Context `{Sha256}.

(** What the mapping hashes, once the lengths are known to fit. *)
Definition mapping_component (value : text) : bytes := be_bytes 2 (len value) ++ value.

Definition mapping_preimage (route : A2AAgentRoute) (context_id : A2AContextId)
    (source_message_id : A2AMessageId) : bytes :=
  TASK_MAPPING_DOMAIN
    ++ mapping_component (default [] (as_str <$> route_tenant route))
    ++ mapping_component (as_str (route_agent_id route))
    ++ mapping_component (as_str context_id)
    ++ mapping_component (as_str source_message_id)
    ++ as_bytes (route_conversation_id route) ++ as_bytes (route_target_device_id route).

Lemma tenant_str_length (o : option A2ATenantId) :
  len (default [] (as_str <$> o)) <= MAX_A2A_IDENTIFIER_BYTES.
Proof. destruct o as [t|]; [apply as_str_length|]. done. Qed.

Lemma tenant_str_inj (o o' : option A2ATenantId) :
  default [] (as_str <$> o) = default [] (as_str <$> o') → o = o'.
Proof.
  destruct o as [t|], o' as [t'|]; simpl; [intros E%as_str_inj; by subst|..|done].
  - intros E. pose proof (as_str_length t) as L. rewrite E in L. unfold len in L. simpl in L. lia.
  - intros E. pose proof (as_str_length t') as L. rewrite <- E in L. unfold len in L. simpl in L. lia.
Qed.

Lemma append_component_Ok value :
  len (default [] value) <= MAX_A2A_IDENTIFIER_BYTES →
  append_component value = Ok (mapping_component (default [] value)).
Proof.
  intros Hl. unfold append_component. unfold MAX_A2A_IDENTIFIER_BYTES in Hl.
  pass_guard by (apply Z.ltb_ge; lia). done.
Qed.

Lemma mapping_component_inj (x y r s : bytes) :
  len x <= MAX_A2A_IDENTIFIER_BYTES → len y <= MAX_A2A_IDENTIFIER_BYTES →
  mapping_component x ++ r = mapping_component y ++ s → x = y ∧ r = s.
Proof.
  unfold mapping_component, MAX_A2A_IDENTIFIER_BYTES. rewrite <- !(assoc_L (++)).
  intros Hx Hy. apply prefixed_inj; simpl; lia.
Qed.

Lemma mapping_preimage_inj r c s r' c' s' :
  mapping_preimage r c s = mapping_preimage r' c' s' →
  route_tenant r = route_tenant r' ∧ route_agent_id r = route_agent_id r' ∧ c = c' ∧ s = s'
  ∧ route_conversation_id r = route_conversation_id r'
  ∧ route_target_device_id r = route_target_device_id r'.
Proof.
  unfold mapping_preimage. intros E%app_inv_head.
  apply mapping_component_inj in E as [E1 E]; [|apply tenant_str_length..].
  do 3 (let E' := fresh "E" in
        apply mapping_component_inj in E as [E' E]; [|apply as_str_length..]; apply as_str_inj in E').
  apply app_inj_1 in E as [E6 E7].
  2:{ pose proof (bytes_length (route_conversation_id r)) as L1.
      pose proof (bytes_length (route_conversation_id r')) as L2.
      apply Nat.eqb_eq in L1, L2. congruence. }
  apply as_bytes_inj in E6, E7. apply tenant_str_inj in E1. naive_solver.
Qed.

Lemma derive_task_mapping_spec r c s :
  ∃ t m, derive_task_mapping r c s = Ok (t, m)
    ∧ task_request_message_id t = Some m
    ∧ as_bytes m = take 16 (sha256 (mapping_preimage r c s)).
Proof.
  unfold derive_task_mapping.
  rewrite (append_component_Ok (as_str <$> _)) by apply tenant_str_length.
  rewrite !(append_component_Ok (Some _)) by apply as_str_length.
  cbn [mbind result_bind]. change (sha256 _) with (sha256 (mapping_preimage r c s)).
  destruct (fixed_of_slice KMessageId _) as [m|] eqn:E.
  2:{ apply fixed_of_slice_None in E. rewrite length_take, sha256_length in E. done. }
  simpl. destruct (task_id_from_message_total m) as [t Ht]. rewrite Ht. simpl.
  exists t, m. split; [done|]. split; [by apply task_id_request_message|].
  by apply fixed_of_slice_Some in E.
Qed.

End binding.

(** ** Validated requests *)

Lemma validate_identifier_Ok value field r :
  validate_identifier value field = Ok r ↔
  r = value ∧ 0 < len value <= MAX_A2A_IDENTIFIER_BYTES ∧ forallb is_identifier_byte value = true.
Proof.
  unfold validate_identifier, A2AIdentifier_parse_for_field.
  pose proof (len_nonneg value). destruct (_ || _) eqn:E; bool_prop; [|naive_solver lia].
  split; [done|]. intros (_ & Hl & Hb). rewrite Hb in E. naive_solver lia.
Qed.

Lemma identifier_parse k value field :
  k ≠ KTask → validate_identifier value field = Ok value ↔ ∃ x, A2AId_parse k value = Ok x.
Proof.
  intros Hk. rewrite validate_identifier_Ok. split.
  - intros (_ & Hl & Hb). unfold A2AId_parse. destruct (bool_dec _ _) as [H|H]; [eauto|].
    exfalso. apply H. unfold a2a_id_valid.
    replace (match k with KTask => _ | _ => true end) with true by (by destruct k).
    assert (A2AIdentifier_parse_for_field value "a2a_identifier" = Ok value) as ->; [|done].
    by apply (validate_identifier_Ok value "a2a_identifier").
  - intros [x Hx]. apply A2AId_parse_Ok in Hx as <-. split; [done|]. split; [apply as_str_length|].
    pose proof (as_str_valid x) as Hv. apply andb_true_iff in Hv as [_ Hv].
    destruct (A2AIdentifier_parse_for_field (as_str x) "a2a_identifier") eqn:E; [|done].
    by apply (validate_identifier_Ok (as_str x) "a2a_identifier") in E as (_ & _ & ?).
Qed.

Lemma optional_identifier_Ok value field r :
  optional_identifier value field = Ok r →
  optional_identifier (default [] r) field = Ok r.
Proof.
  unfold optional_identifier. destruct (len value =? 0) eqn:E; [by intros [= <-]|].
  intros (v & Hv & ->)%fmap_Ok. apply validate_identifier_Ok in Hv as Hv'. destruct Hv' as [-> _].
  simpl. by rewrite E, Hv.
Qed.

Lemma validate_tenant_Ok tenant expected r :
  validate_tenant tenant expected = Ok r → r = expected ∧ validate_tenant (default [] r) expected = Ok r.
Proof.
  unfold validate_tenant. destruct expected as [e|].
  - intros H. inv_ok. subst. apply bool_decide_eq_false in Hr0. apply dec_stable in Hr0 as ->.
    split; [done|]. simpl. rewrite Hr. simpl. by pass_guard by (by apply bool_decide_neq_false).
  - destruct (len tenant =? 0); [|done]. by intros [= <-].
Qed.

Lemma validate_history_length_Ok value r :
  validate_history_length value = Ok r →
  r = value ∧ (r = None ∨ r = Some 0 ∨ r = Some 1).
Proof.
  unfold validate_history_length, MAX_A2A_HISTORY_LENGTH. destruct value as [v|]; [|naive_solver].
  destruct (_ && _) eqn:E; [|done]. intros [= <-]. bool_prop. split; [done|].
  assert (v = 0 ∨ v = 1) as [->| ->] by lia; auto.
Qed.

Lemma validate_text_Ok value field r :
  validate_text value field = Ok r ↔ r = value ∧ 0 < len value <= MAX_A2A_TEXT_BYTES.
Proof.
  unfold validate_text. pose proof (len_nonneg value).
  destruct (_ || _) eqn:E; bool_prop; naive_solver lia.
Qed.

(** What the profile guarantees of a request it accepted. *)
Record send_request_ok (r : InitialSendMessageRequest) (expected : option text) : Prop := {
  ok_send_tenant : initial_tenant r = expected;
  ok_send_tenant_again : validate_tenant (default [] expected) expected = Ok expected;
  ok_send_message_id : validate_identifier (initial_message_id r) "message.message_id"
                       = Ok (initial_message_id r);
  ok_send_context : optional_identifier (default [] (initial_context_id r)) "message.context_id"
                    = Ok (initial_context_id r);
  ok_send_text : 0 < len (initial_text r) <= MAX_A2A_TEXT_BYTES;
  ok_send_history : initial_history_length r = None ∨ initial_history_length r = Some 0
                    ∨ initial_history_length r = Some 1 }.

Lemma validate_send_ok w expected r :
  validate_initial_send_message_request w expected = Ok r → send_request_ok r expected.
Proof.
  unfold validate_initial_send_message_request. intros H.
  apply bind_Ok in H as (tenant & Ht & H). apply bind_Ok in H as ([] & _ & H).
  apply bind_Ok in H as (message & _ & H). apply bind_Ok in H as (id & Hid & H).
  apply bind_Ok in H as (context & Hctx & H). do 6 (apply bind_Ok in H as (? & _ & H)).
  apply bind_Ok in H as (part & _ & H). do 3 (apply bind_Ok in H as (? & _ & H)).
  apply bind_Ok in H as (value & Hvalue & H). apply bind_Ok in H as ([imm history] & Hc & H).
  injection H as <-.
  apply validate_tenant_Ok in Ht as [-> Ht]. apply validate_identifier_Ok in Hid as Hid'.
  destruct Hid' as [-> Hid']. apply optional_identifier_Ok in Hctx. split; simpl; try done.
  - destruct (part_content part) as [[]|]; try done. by apply validate_text_Ok in Hvalue as [-> ?].
  - destruct (send_configuration w); inv_ok; [|naive_solver].
    apply validate_history_length_Ok in Hr1 as [_ ?]. congruence.
Qed.

Lemma send_ok_validates r expected w :
  send_request_ok r expected → InitialSendMessageRequest_into_wire r = Some w →
  validate_initial_send_message_request w expected = Ok r.
Proof.
  intros [Ht Ht' Hid Hctx Htext Hh] Hw. destruct r as [tenant id ctx value imm history]. simpl in *.
  subst tenant. unfold InitialSendMessageRequest_into_wire in Hw.
  apply bind_Some in Hw as (h & Hhh & [= <-]). simpl in *.
  assert (h = history) as -> by (by destruct Hh as [->|[->| ->]]; simplify_eq).
  unfold validate_initial_send_message_request. simpl.
  rewrite Ht'. simpl. rewrite Hid. simpl. rewrite Hctx. simpl.
  assert (validate_text value "part.text" = Ok value) as -> by (by apply validate_text_Ok). simpl.
  by destruct Hh as [->|[->| ->]].
Qed.

(** A request the initial profile accepted can be sent on: the outbound encoder
    never reaches its unreachable arm, and validating what it produced under the same
    tenant gives back the same request. *)
Theorem send_message_roundtrip w expected r
    (Hr : validate_initial_send_message_request w expected = Ok r) :
  ∃ w', InitialSendMessageRequest_into_wire r = Some w'
      ∧ validate_initial_send_message_request w' expected = Ok r.
Proof.
  apply validate_send_ok in Hr.
  assert (∃ w', InitialSendMessageRequest_into_wire r = Some w') as [w' Hw'].
  { unfold InitialSendMessageRequest_into_wire.
    destruct (ok_send_history _ _ Hr) as [->|[->| ->]]; eauto. }
  exists w'. split; [done|]. by apply send_ok_validates.
Qed.

Section mapped.
Context `{Sha256}.

Lemma map_send_Ok route r m :
  map_initial_send_message route r = Ok m ↔
  as_str <$> route_tenant route = initial_tenant r
  ∧ (initial_context_id r = None ∨ initial_context_id r = Some (as_str (route_context_id route)))
  ∧ ∃ source t rid, A2AId_parse KMessage (initial_message_id r) = Ok source
    ∧ derive_task_mapping route (route_context_id route) source = Ok (t, rid)
    ∧ m = mk_A2ADirectedRequestMapping (route_agent_id route) (route_context_id route)
            (route_tenant route) source t (route_conversation_id route)
            (route_target_device_id route) rid 0 (initial_text r)
            (initial_return_immediately r) (initial_history_length r).
Proof.
  unfold map_initial_send_message, require_tenant. case_bool_decide as Ht.
  2:{ split; [done|]. by intros [? _]. }
  cbn [mbind result_bind]. rewrite bind_Ok. split.
  - intros (c & Hc & Hm). split; [done|].
    assert (c = route_context_id route
      ∧ (initial_context_id r = None ∨ initial_context_id r = Some (as_str (route_context_id route))))
      as [-> Hctx].
    { destruct (initial_context_id r) as [s|]; [|by simplify_eq; auto].
      apply bind_Ok in Hc as (c0 & Hr & Hc). apply bind_Ok in Hc as ([] & Hr0 & [= ->]).
      apply fail_if_Ok in Hr0.
      bool_prop. apply dec_stable in Hr0 as ->. apply A2AId_parse_Ok in Hr as <-. auto. }
    split; [done|]. apply bind_Ok in Hm as (source & Hs & Hm).
    apply bind_Ok in Hm as ([t rid] & Ht' & Hm). simpl in Hm. injection Hm as <-. eauto 10.
  - intros (_ & Hctx & source & t & rid & Hs & Hd & ->). exists (route_context_id route).
    split; [|by rewrite Hs; simpl; rewrite Hd].
    destruct Hctx as [->| ->]; [done|]. rewrite A2AId_parse_as_str. simpl.
    by pass_guard by (by apply bool_decide_neq_false).
Qed.

(** A message is mapped exactly when its tenant is the route's, its context is the
    route's or absent, and its identifier parses; the task then addresses the
    conversation and device of the route, and its identifier spells the Konclave request
    message.  Two mapped messages have the same task identifier only if they agree on
    tenant, agent, context, source message, conversation and target device, or exhibit a
    collision of the truncated SHA-256; a repeated message keeps its identifiers. *)
Theorem a2a_mapping_binds route r :
  (is_ok (map_initial_send_message route r) = true ↔
     as_str <$> route_tenant route = initial_tenant r
     ∧ (initial_context_id r = None ∨ initial_context_id r = Some (as_str (route_context_id route)))
     ∧ is_ok (A2AId_parse KMessage (initial_message_id r)) = true)
  ∧ ∀ m, map_initial_send_message route r = Ok m →
    mapping_conversation_id m = route_conversation_id route
    ∧ mapping_target_device_id m = route_target_device_id route
    ∧ task_request_message_id (mapping_task_id m) = Some (mapping_request_message_id m)
    ∧ ∀ route' r' m', map_initial_send_message route' r' = Ok m' →
        (route' = route → initial_message_id r' = initial_message_id r →
           mapping_task_id m' = mapping_task_id m)
        ∧ (mapping_task_id m' = mapping_task_id m →
           let p := mapping_preimage route (route_context_id route) (mapping_source_message_id m) in
           let p' := mapping_preimage route' (route_context_id route') (mapping_source_message_id m') in
           (mapping_tenant m' = mapping_tenant m ∧ mapping_agent_id m' = mapping_agent_id m
            ∧ mapping_context_id m' = mapping_context_id m
            ∧ mapping_source_message_id m' = mapping_source_message_id m
            ∧ mapping_conversation_id m' = mapping_conversation_id m
            ∧ mapping_target_device_id m' = mapping_target_device_id m)
           ∨ (p' ≠ p ∧ take 16 (sha256 p') = take 16 (sha256 p))).
Proof.
  split.
  - destruct (map_initial_send_message route r) as [m|e] eqn:E; simpl.
    + apply map_send_Ok in E as (? & ? & s & ? & ? & Hs & _). rewrite Hs. simpl. tauto.
    + split; [done|]. intros (Ht & Hc & Hs).
      destruct (A2AId_parse KMessage (initial_message_id r)) as [s|] eqn:Es; [|done].
      destruct (derive_task_mapping_spec route (route_context_id route) s) as (t & rid & Hd & _).
      assert (∃ m, map_initial_send_message route r = Ok m) as [m Hm]; [|by rewrite E in Hm].
      eexists. apply map_send_Ok. split; [done|]. split; [done|]. eauto 10.
  - intros m Hm. apply map_send_Ok in Hm as (_ & _ & s & t & rid & Hs & Hd & ->).
    destruct (derive_task_mapping_spec route (route_context_id route) s) as (t0 & m0 & Hd0 & Hrid & Hb).
    rewrite Hd in Hd0. injection Hd0 as <- <-. split; [done|]. split; [done|]. split; [done|].
    intros route' r' m' Hm'. apply map_send_Ok in Hm' as (_ & _ & s' & t' & rid' & Hs' & Hd' & ->).
    simpl. split; [intros -> Hid; rewrite Hid in Hs'; congruence|]. intros ->.
    destruct (derive_task_mapping_spec route' (route_context_id route') s') as (t0 & m0 & Hd0 & Hrid' & Hb').
    rewrite Hd' in Hd0. injection Hd0 as <- <-. rewrite Hrid in Hrid'. injection Hrid' as <-.
    destruct (decide (mapping_preimage route' (route_context_id route') s'
                      = mapping_preimage route (route_context_id route) s)) as [Heq|Hne].
    + left. apply mapping_preimage_inj in Heq. naive_solver.
    + right. split; [done|]. congruence.
Qed.

End mapped.
