(* ===== verification/A2AArtifacts.v ===== *)
(** * The artifact profile of [Konclave.A2AContracts]

    [artifact.rs]: which artifacts a task may publish, how their structured data is put
    into canonical form, and the encrypted object references with the data AES-GCM
    authenticates for them.  [serde_json], the generated ProtoJSON code, the URL parser and
    base64 are third-party and enter as the classes [ArtifactJson] and [ReferenceCodec]. *)

From S2P Require Import Prelude TextModel BoundedDocuments Identifiers A2AContracts.
Open Scope Z_scope.

(** ** Bounds *)

Definition MAX_A2A_ARTIFACT_NAME_BYTES : Z := 128.
Definition MAX_A2A_ARTIFACT_DESCRIPTION_BYTES : Z := 1024.
Definition MAX_A2A_ARTIFACT_FILENAME_BYTES : Z := 255.
Definition MAX_A2A_ARTIFACT_MEDIA_TYPE_BYTES : Z := 127.
Definition MAX_A2A_ARTIFACT_PARTS : Z := 8.
Definition MAX_A2A_ARTIFACTS_PER_TASK : Z := 8.
Definition MAX_A2A_ARTIFACT_INLINE_BYTES : Z := 64 * 1024.
Definition MAX_A2A_CANONICAL_ARTIFACT_BYTES : Z := 192 * 1024.
Definition MAX_A2A_ARTIFACT_REFERENCE_PLAINTEXT_BYTES : Z := 64 * 1024 * 1024.
Definition MAX_A2A_ARTIFACT_JSON_DEPTH : Z := 32.
Definition MAX_A2A_ARTIFACT_JSON_VALUES : Z := 1024.
Definition A2A_ENCRYPTED_ARTIFACT_REFERENCE_PREFIX : text := lit "konclave-aes256gcm-v1".
Definition A2A_ARTIFACT_OBJECT_AAD_DOMAIN : bytes := lit "konclave-a2a-artifact-object-v1" ++ [x00].
Definition A2A_ENCRYPTED_ARTIFACT_KEY_BYTES : Z := 32.
Definition A2A_ENCRYPTED_ARTIFACT_NONCE_BYTES : Z := 12.

(** ** Generated message *)

Record WireArtifact := mk_WireArtifact {
  wire_artifact_id : text;
  wire_artifact_name : text;
  wire_artifact_description : text;
  wire_artifact_parts : list WirePart;
  wire_artifact_metadata : option PbStruct;
  wire_artifact_extensions : list text }.

(** ** Canonical JSON *)

(** [BTreeMap::insert]: sorted by key, the last value of a key wins. *)
Fixpoint btree_insert {A} (k : text) (x : A) (l : list (text * A)) : list (text * A) :=
  match l with
  | [] => [(k, x)]
  | (k', y) :: rest =>
      match bytes_compare k k' with
      | Lt => (k, x) :: l
      | Eq => (k, x) :: rest
      | Gt => (k', y) :: btree_insert k x rest
      end
  end.

(** [into_iter().collect::<BTreeMap<_, _>>()]. *)
Definition btree_collect {A} (l : list (text * A)) : list (text * A) :=
  foldl (fun m e => btree_insert e.1 e.2 m) [] l.

Fixpoint sort_json (value : json) : json :=
  match value with
  | JArray values => JArray (map sort_json values)
  | JObject values => JObject (btree_collect (map (fun m => (m.1, sort_json m.2)) values))
  | value => value
  end.

(** The iterators over the values of an array and the members of an object, with the
    counter they share. *)
Section canonical_values.
Context (canonicalize : json -> Z -> result A2AContractError (json * Z)).

Fixpoint canonicalize_values (values : list json) (count : Z)
    : result A2AContractError (list json * Z) :=
  match values with
  | [] => Ok ([], count)
  | value :: rest =>
      '(value, count) ← canonicalize value count;
      '(rest, count) ← canonicalize_values rest count;
      Ok (value :: rest, count)
  end.

Fixpoint canonicalize_members (members : list (text * json)) (count : Z)
    : result A2AContractError (list (text * json) * Z) :=
  match members with
  | [] => Ok ([], count)
  | member :: rest =>
      '(value, count) ← canonicalize member.2 count;
      '(rest, count) ← canonicalize_members rest count;
      Ok ((member.1, value) :: rest, count)
  end.

End canonical_values.

(** The recursion stops at the depth bound, so [MAX_A2A_ARTIFACT_JSON_DEPTH + 1] nested
    calls are enough. *)
Fixpoint canonicalize_json_at (fuel : nat) (value : json) (depth : Z) (count : Z)
    : result A2AContractError (json * Z) :=
  fail_if (MAX_A2A_ARTIFACT_JSON_DEPTH <? depth) (A2AOutOfRange "artifact.part.data");;
  count ← ok_or (checked_add USIZE_MAX count 1) (A2AOutOfRange "artifact.part.data");
  fail_if (MAX_A2A_ARTIFACT_JSON_VALUES <? count) (A2AOutOfRange "artifact.part.data");;
  match fuel with
  | O => Err (A2AOutOfRange "artifact.part.data")
  | S fuel =>
      match value with
      | JArray values =>
          '(values, count) ← canonicalize_values (fun v c => canonicalize_json_at fuel v (depth + 1) c)
                               values count;
          Ok (JArray values, count)
      | JObject members =>
          '(members, count) ← canonicalize_members
                                (fun v c => canonicalize_json_at fuel v (depth + 1) c)
                                (btree_collect members) count;
          Ok (JObject members, count)
      | value => Ok (value, count)
      end
  end.

Definition canonicalize_json (value : json) : result A2AContractError (json * Z) :=
  canonicalize_json_at (Z.to_nat (MAX_A2A_ARTIFACT_JSON_DEPTH + 1)) value 0 0.

(** ** Fields *)

Definition validate_optional_display (value : text) (maximum : Z) (field : string)
    : result A2AContractError unit :=
  fail_if ((maximum <? len value)
           || (negb (len value =? 0) && negb (is_trimmed value))
           || existsb is_control (chars value)) (A2AInvalidText field).

Definition validate_filename (value : text) : result A2AContractError unit :=
  if len value =? 0 then Ok tt
  else fail_if ((MAX_A2A_ARTIFACT_FILENAME_BYTES <? len value)
                || bool_decide (value = lit ".")
                || bool_decide (value = lit "..")
                || negb (is_trimmed value)
                || bool_decide (last value = Some "."%byte)
                || existsb (fun c => is_control c || (c =? 47) || (c =? 92) || (c =? 58)) (chars value))
         (A2AInvalidText "artifact.part.filename").

Definition media_type_token (b : byte) : bool :=
  is_ascii_lowercase b || is_ascii_digit b
  || existsb (fun c => bool_decide (b = c)) ["!"; "#"; "$"; "&"; "^"; "_"; "."; "+"; "-"]%byte.

Definition validate_media_type (value : text) (field : string) : result A2AContractError unit :=
  fail_if ((len value =? 0) || (MAX_A2A_ARTIFACT_MEDIA_TYPE_BYTES <? len value)
           || negb (forallb is_ascii value) || existsb is_ascii_uppercase value)
    (A2AInvalidText field);;
  match split_at (fun b => bool_decide (b = "/"%byte)) value with
  | [type; subtype] =>
      fail_if ((len type =? 0) || (len subtype =? 0)
               || bool_decide (type = lit "*") || bool_decide (subtype = lit "*")
               || negb (forallb media_type_token type) || negb (forallb media_type_token subtype))
        (A2AInvalidText field)
  | _ => Err (A2AInvalidText field)
  end.

Definition add_inline_bytes (total additional : Z) : result A2AContractError Z :=
  total ← ok_or (checked_add USIZE_MAX total additional) (A2AOutOfRange "artifact.inline_bytes");
  fail_if (MAX_A2A_ARTIFACT_INLINE_BYTES <? total) (A2AOutOfRange "artifact.inline_bytes");;
  Ok total.

(** ** Encrypted references *)

(** What the source reads of a parsed [Url]. *)
Record ParsedUrl := mk_ParsedUrl {
  url_scheme : text;
  url_has_host : bool;
  url_username : text;
  url_password : option text;
  url_query : option text;
  url_path_segments : option (list text);
  url_fragment : option text;
  url_as_str : text;
  (** After [set_fragment(None)]. *)
  url_without_fragment : text }.

(** [Url::parse] and [URL_SAFE_NO_PAD]. *)
Class ReferenceCodec := {
  url_parse : text -> option ParsedUrl;
  base64url_decode : text -> option bytes;
  base64url_encode : bytes -> text }.

Record InitialA2AEncryptedArtifactReference := mk_EncryptedArtifactReference {
  reference_request_url : text;
  reference_ciphertext_digest : bytes;
  reference_key : bytes;
  reference_nonce : bytes;
  reference_plaintext_bytes : Z }.

Section references.
Context `{ReferenceCodec}.

Definition decode_base64url (value : text) (expected_bytes : Z) : result A2AContractError bytes :=
  decoded ← ok_or (base64url_decode value) A2AInvalidInterfaceUrl;
  fail_if (negb (len decoded =? expected_bytes) || bool_decide (base64url_encode decoded ≠ value))
    A2AInvalidInterfaceUrl;;
  Ok decoded.

(** The digest segment and the segment before it. *)
Definition reference_digest (segments : list text) : result A2AContractError text :=
  match reverse segments with
  | digest :: before :: _ =>
      fail_if (bool_decide (before ≠ lit "sha256") || negb (len digest =? 64)
               || negb (forallb is_lower_hex digest)) A2AInvalidInterfaceUrl;;
      Ok digest
  | _ => Err A2AInvalidInterfaceUrl
  end.

Definition is_ascii_control (b : byte) : bool := byte_in x00 x1f b || bool_decide (b = x7f).

Definition parse_initial_encrypted_artifact_reference (value : text)
    : result A2AContractError InitialA2AEncryptedArtifactReference :=
  fail_if (existsb (fun b => is_ascii_control b || bool_decide (b = x5c)) value)
    A2AInvalidInterfaceUrl;;
  url ← ok_or (url_parse value) A2AInvalidInterfaceUrl;
  fail_if (bool_decide (url_scheme url ≠ lit "https") || negb (url_has_host url)
           || negb (len (url_username url) =? 0) || is_some (url_password url)
           || is_some (url_query url) || bool_decide (url_as_str url ≠ value)) A2AInvalidInterfaceUrl;;
  segments ← ok_or (url_path_segments url) A2AInvalidInterfaceUrl;
  digest ← reference_digest segments;
  fragment ← ok_or (url_fragment url) A2AInvalidInterfaceUrl;
  match split_at (fun b => bool_decide (b = "."%byte)) fragment with
  | prefix :: fields =>
      fail_if (bool_decide (prefix ≠ A2A_ENCRYPTED_ARTIFACT_REFERENCE_PREFIX)) A2AInvalidInterfaceUrl;;
      key ← ok_or (fields !! 0%nat) A2AInvalidInterfaceUrl;
      key ← decode_base64url key A2A_ENCRYPTED_ARTIFACT_KEY_BYTES;
      nonce ← ok_or (fields !! 1%nat) A2AInvalidInterfaceUrl;
      nonce ← decode_base64url nonce A2A_ENCRYPTED_ARTIFACT_NONCE_BYTES;
      size ← ok_or (fields !! 2%nat) A2AInvalidInterfaceUrl;
      fail_if (is_some (fields !! 3%nat) || bool_decide (head size = Some "0"%byte)) A2AInvalidInterfaceUrl;;
      plaintext_bytes ← ok_or (parse_u64 size) A2AInvalidInterfaceUrl;
      fail_if (negb ((1 <=? plaintext_bytes)
                     && (plaintext_bytes <=? MAX_A2A_ARTIFACT_REFERENCE_PLAINTEXT_BYTES)))
        A2AInvalidInterfaceUrl;;
      ciphertext_digest ← ok_or (decode_pairs digest) A2AInvalidInterfaceUrl;
      Ok (mk_EncryptedArtifactReference (url_without_fragment url) ciphertext_digest key nonce
            plaintext_bytes)
  | [] => Err A2AInvalidInterfaceUrl
  end.

Definition validate_encrypted_reference (value : text) : result A2AContractError unit :=
  parse_initial_encrypted_artifact_reference value;; Ok tt.

End references.

(** ** Artifacts *)

(** [serde_json] and the generated (de)serializers. *)
Class ArtifactJson := {
  parse_json : bytes -> option json;
  json_to_vec : json -> option bytes;
  artifact_to_value : WireArtifact -> option json;
  artifact_from_slice : bytes -> option WireArtifact;
  data_to_value : bytes -> option json;
  data_from_value : json -> option bytes }.

Record InitialA2AArtifact := mk_InitialA2AArtifact {
  artifact_wire : WireArtifact;
  artifact_canonical_json : bytes }.

Section artifacts.
Context `{ReferenceCodec} `{ArtifactJson}.

Definition with_media_type (p : WirePart) (content : option PartContent) (media_type : text) : WirePart :=
  mk_WirePart content None (part_filename p) media_type.

(** The part as [validate_part] leaves it, and the inline bytes so far. *)
Definition validate_part (part : WirePart) (inline_bytes : Z)
    : result A2AContractError (WirePart * Z) :=
  require_empty_struct (part_metadata part) "artifact.part.metadata";;
  validate_filename (part_filename part);;
  match part_content part with
  | Some (PartText value) =>
      fail_if (len value =? 0) (A2AInvalidText "artifact.part.text");;
      inline_bytes ← add_inline_bytes inline_bytes (len value);
      if len (part_media_type part) =? 0
      then Ok (with_media_type part (Some (PartText value)) A2A_TEXT_MEDIA_TYPE, inline_bytes)
      else
        validate_media_type (part_media_type part) "artifact.part.media_type";;
        fail_if (negb (bool_decide (take 5 (part_media_type part) = lit "text/")))
          (A2AUnsupportedField "artifact.part.media_type");;
        Ok (with_media_type part (Some (PartText value)) (part_media_type part), inline_bytes)
  | Some (PartRaw value) =>
      fail_if ((len value =? 0) || (len (part_media_type part) =? 0)) (A2AMissingField "artifact.part.raw");;
      validate_media_type (part_media_type part) "artifact.part.media_type";;
      inline_bytes ← add_inline_bytes inline_bytes (len value);
      Ok (with_media_type part (Some (PartRaw value)) (part_media_type part), inline_bytes)
  | Some (PartData data) =>
      fail_if (negb (len (part_media_type part) =? 0)
               && bool_decide (part_media_type part ≠ lit "application/json"))
        (A2AUnsupportedField "artifact.part.media_type");;
      value ← ok_or (data_to_value data) A2AMalformedEncoding;
      '(value, _) ← canonicalize_json value;
      encoded ← ok_or (json_to_vec value) A2AMalformedEncoding;
      inline_bytes ← add_inline_bytes inline_bytes (len encoded);
      data ← ok_or (data_from_value value) A2AMalformedEncoding;
      Ok (with_media_type part (Some (PartData data)) (lit "application/json"), inline_bytes)
  | Some (PartUrl url) =>
      fail_if (len (part_media_type part) =? 0) (A2AMissingField "artifact.part.media_type");;
      validate_media_type (part_media_type part) "artifact.part.media_type";;
      validate_encrypted_reference url;;
      Ok (with_media_type part (Some (PartUrl url)) (part_media_type part), inline_bytes)
  | None => Err (A2AMissingField "artifact.part.content")
  end.

Fixpoint validate_parts (parts : list WirePart) (inline_bytes : Z)
    : result A2AContractError (list WirePart) :=
  match parts with
  | [] => Ok []
  | part :: rest =>
      '(part, inline_bytes) ← validate_part part inline_bytes;
      rest ← validate_parts rest inline_bytes;
      Ok (part :: rest)
  end.

Definition validate_initial_artifact (artifact : WireArtifact)
    : result A2AContractError InitialA2AArtifact :=
  validate_identifier (wire_artifact_id artifact) "artifact.artifact_id";;
  validate_optional_display (wire_artifact_name artifact) MAX_A2A_ARTIFACT_NAME_BYTES "artifact.name";;
  validate_optional_display (wire_artifact_description artifact) MAX_A2A_ARTIFACT_DESCRIPTION_BYTES
    "artifact.description";;
  fail_if (len (wire_artifact_parts artifact) =? 0) (A2AMissingField "artifact.parts");;
  fail_if (MAX_A2A_ARTIFACT_PARTS <? len (wire_artifact_parts artifact)) (A2AOutOfRange "artifact.parts");;
  require_empty_struct (wire_artifact_metadata artifact) "artifact.metadata";;
  fail_if (negb (len (wire_artifact_extensions artifact) =? 0)) (A2AUnsupportedField "artifact.extensions");;
  parts ← validate_parts (wire_artifact_parts artifact) 0;
  let artifact := mk_WireArtifact (wire_artifact_id artifact) (wire_artifact_name artifact)
                    (wire_artifact_description artifact) parts None
                    (wire_artifact_extensions artifact) in
  canonical_value ← ok_or (artifact_to_value artifact) A2AMalformedEncoding;
  canonical_json ← ok_or (json_to_vec (sort_json canonical_value)) A2AMalformedEncoding;
  require_encoded_bound canonical_json MAX_A2A_CANONICAL_ARTIFACT_BYTES;;
  wire ← ok_or (artifact_from_slice canonical_json) A2AMalformedEncoding;
  Ok (mk_InitialA2AArtifact wire canonical_json).

Definition decode_initial_artifact_json (encoded : bytes) : result A2AContractError InitialA2AArtifact :=
  require_encoded_bound encoded MAX_A2A_CANONICAL_ARTIFACT_BYTES;;
  artifact ← map_err (fun _ => A2AMalformedEncoding)
               (deserialize_strict parse_json artifact_from_slice encoded MAX_A2A_CANONICAL_ARTIFACT_BYTES);
  validate_initial_artifact artifact.

End artifacts.

(** ** Reference descriptors *)

Record InitialA2AArtifactReferenceDescriptor := mk_ReferenceDescriptor {
  descriptor_artifact_id : text;
  descriptor_part_index : Z;
  descriptor_media_type : text;
  descriptor_filename : text;
  descriptor_plaintext_bytes : Z }.

Definition InitialA2AArtifactReferenceDescriptor_new (artifact_id : text) (part_index : Z)
    (media_type filename : text) (plaintext_bytes : Z)
    : result A2AContractError InitialA2AArtifactReferenceDescriptor :=
  artifact_id ← A2AIdentifier_parse_for_field artifact_id "a2a_identifier";
  fail_if ((MAX_A2A_ARTIFACT_PARTS <=? part_index) || (plaintext_bytes =? 0)
           || (MAX_A2A_ARTIFACT_REFERENCE_PLAINTEXT_BYTES <? plaintext_bytes))
    (A2AOutOfRange "artifact.reference");;
  validate_media_type media_type "artifact.part.media_type";;
  validate_filename filename;;
  fail_if (65535 <? part_index) (A2AOutOfRange "artifact.reference.part_index");;
  Ok (mk_ReferenceDescriptor artifact_id part_index media_type filename plaintext_bytes).

Definition append_u16_component (value : bytes) : result A2AContractError bytes :=
  fail_if (65535 <? len value) (A2AOutOfRange "artifact.reference");;
  Ok (be_bytes 2 (len value) ++ value).

Definition associated_data (d : InitialA2AArtifactReferenceDescriptor) : result A2AContractError bytes :=
  artifact_id ← append_u16_component (descriptor_artifact_id d);
  media_type ← append_u16_component (descriptor_media_type d);
  filename ← append_u16_component (descriptor_filename d);
  Ok (A2A_ARTIFACT_OBJECT_AAD_DOMAIN ++ artifact_id ++ be_bytes 2 (descriptor_part_index d)
      ++ media_type ++ filename ++ be_bytes 8 (descriptor_plaintext_bytes d)).

(** ** Canonical JSON is bounded sorting *)

Fixpoint json_nodes (v : json) : Z :=
  match v with
  | JArray l => 1 + foldr (fun x n => json_nodes x + n) 0 l
  | JObject l => 1 + foldr (fun m n => json_nodes m.2 + n) 0 l
  | _ => 1
  end.

Fixpoint json_depth (v : json) : Z :=
  match v with
  | JArray l => foldr (fun x n => Z.max (1 + json_depth x) n) 0 l
  | JObject l => foldr (fun m n => Z.max (1 + json_depth m.2) n) 0 l
  | _ => 0
  end.

Lemma json_nodes_pos v : 1 <= json_nodes v.
Proof.
  induction v as [| | | |l IH|l IH] using json_ind'; simpl; try lia.
  - assert (0 <= foldr (fun x n => json_nodes x + n) 0 l); [|lia].
    induction IH; simpl; lia.
  - assert (0 <= foldr (fun (m : text * json) n => json_nodes m.2 + n) 0 l); [|lia].
    induction IH; simpl; lia.
Qed.

Lemma btree_insert_map {A B} (f : A → B) k x (l : list (text * A)) :
  btree_insert k (f x) (map (fun m => (m.1, f m.2)) l) = map (fun m => (m.1, f m.2)) (btree_insert k x l).
Proof.
  induction l as [|[k' y] l IH]; simpl; [done|]. destruct (bytes_compare k k'); simpl; by rewrite ?IH.
Qed.

Lemma btree_collect_map {A B} (f : A → B) (l : list (text * A)) :
  btree_collect (map (fun m => (m.1, f m.2)) l) = map (fun m => (m.1, f m.2)) (btree_collect l).
Proof.
  unfold btree_collect. change (@nil (text * B)) with (map (fun m : text * A => (m.1, f m.2)) []).
  generalize (@nil (text * A)). induction l as [|[k x] l IH]; intros acc; simpl; [done|].
  by rewrite btree_insert_map, IH.
Qed.

Lemma btree_insert_Forall {A} (P : text * A → Prop) k x l :
  P (k, x) → Forall P l → Forall P (btree_insert k x l).
Proof.
  intros Hx. induction 1 as [|[k' y] l Hy Hl IH]; simpl; [by repeat constructor|].
  destruct (bytes_compare k k'); by repeat constructor.
Qed.

Lemma btree_collect_Forall {A} (P : text * A → Prop) l : Forall P l → Forall P (btree_collect l).
Proof.
  unfold btree_collect. assert (Forall P []) as Hnil by constructor. revert Hnil.
  generalize (@nil (text * A)). intros acc Hacc Hl. revert acc Hacc.
  induction Hl as [|[k x] l Hx Hl IH]; intros acc Hacc; simpl; [done|].
  apply IH. by apply btree_insert_Forall.
Qed.

(** Within the bounds, from depth [d] and count [c]. *)
Definition fits (d c : Z) (v : json) : bool :=
  (d + json_depth v <=? MAX_A2A_ARTIFACT_JSON_DEPTH) && (c + json_nodes v <=? MAX_A2A_ARTIFACT_JSON_VALUES).

Definition canonical_at (can : json → Z → result A2AContractError (json * Z)) (d : Z) (v : json) : Prop :=
  ∀ c, can v c = if fits d c (sort_json v) then Ok (sort_json v, c + json_nodes (sort_json v))
                 else Err (A2AOutOfRange "artifact.part.data").

Lemma fits_spec d c v :
  fits d c v = true ↔ d + json_depth v <= MAX_A2A_ARTIFACT_JSON_DEPTH
                      ∧ c + json_nodes v <= MAX_A2A_ARTIFACT_JSON_VALUES.
Proof. unfold fits. by rewrite andb_true_iff, !Z.leb_le. Qed.

Lemma sum_nodes_nonneg {A} (f : A → json) l : 0 <= foldr (fun x n => json_nodes (f x) + n) 0 l.
Proof. induction l as [|x l IH]; simpl; [done|]. pose proof (json_nodes_pos (f x)). lia. Qed.

(** The children of a node at depth [d]: [JArray] and [JObject] hold the same sorted
    values, so one argument serves both. *)
Lemma canonicalize_values_spec can d l c :
  Forall (canonical_at can (d + 1)) l → d <= MAX_A2A_ARTIFACT_JSON_DEPTH → c <= MAX_A2A_ARTIFACT_JSON_VALUES →
  let depth := foldr (fun x n => Z.max (1 + json_depth (sort_json x)) n) 0 l in
  let nodes := foldr (fun x n => json_nodes (sort_json x) + n) 0 l in
  canonicalize_values can l c
  = if (d + depth <=? MAX_A2A_ARTIFACT_JSON_DEPTH) && (c + nodes <=? MAX_A2A_ARTIFACT_JSON_VALUES)
    then Ok (map sort_json l, c + nodes) else Err (A2AOutOfRange "artifact.part.data").
Proof.
  intros Hl Hd. revert c. induction Hl as [|x l Hx Hl IH]; intros c Hc; cbv zeta; simpl.
  { rewrite !Z.add_0_r, !(proj2 (Z.leb_le _ _)) by done. done. }
  rewrite Hx. pose proof (sum_nodes_nonneg sort_json l) as Hn. specialize (IH (c + json_nodes (sort_json x))).
  destruct (fits (d + 1) c (sort_json x)) eqn:Hf.
  - apply fits_spec in Hf as [Hf1 Hf2]. cbn [mbind result_bind]. rewrite IH by done. cbv zeta.
    destruct (Z.leb_spec (d + foldr (fun x n => Z.max (1 + json_depth (sort_json x)) n) 0 l) MAX_A2A_ARTIFACT_JSON_DEPTH),
      (Z.leb_spec (c + json_nodes (sort_json x) + foldr (fun x n => json_nodes (sort_json x) + n) 0 l) MAX_A2A_ARTIFACT_JSON_VALUES);
      cbn [andb mbind result_bind].
    + rewrite !(proj2 (Z.leb_le _ _)) by lia. cbn [andb]. by rewrite Z.add_assoc.
    + rewrite (proj2 (Z.leb_gt (c + _) _)) by lia. by rewrite andb_false_r.
    + rewrite (proj2 (Z.leb_gt (d + _) _)) by lia. done.
    + rewrite (proj2 (Z.leb_gt (d + _) _)) by lia. done.
  - cbn [mbind result_bind]. destruct (_ && _) eqn:Hb; [|done]. exfalso.
    apply andb_true_iff in Hb as [Hb1 Hb2]. apply Z.leb_le in Hb1, Hb2.
    apply not_true_iff_false in Hf. apply Hf, fits_spec. lia.
Qed.

Lemma canonicalize_members_values can l c :
  canonicalize_members can l c
  = '(values, c) ← canonicalize_values can (map snd l) c; Ok (zip (map fst l) values, c).
Proof.
  revert c. induction l as [|m l IH]; intros c; simpl; [done|].
  destruct (can m.2 c) as [[v c']|]; [|done]. cbn [mbind result_bind]. rewrite IH.
  by destruct (canonicalize_values can (map snd l) c') as [[vs c'']|].
Qed.

Lemma zip_map_members {A B} (f : A → B) (l : list (text * A)) :
  zip (map fst l) (map f (map snd l)) = map (fun m => (m.1, f m.2)) l.
Proof. induction l as [|[k x] l IH]; simpl; [done|]. by rewrite IH. Qed.

Lemma foldr_map {A B C} (f : A → B) (g : B → C → C) z l : foldr g z (map f l) = foldr (fun x => g (f x)) z l.
Proof. induction l as [|x l IH]; simpl; [done|]. by rewrite IH. Qed.

Lemma json_depth_nonneg v : 0 <= json_depth v.
Proof. destruct v as [| | | |l|l]; simpl; try done; induction l; simpl; lia. Qed.

(** The step common to all shapes: the two bounds, then the children. *)
Lemma canonicalize_enter {A} (d c : Z) (k : Z → result A2AContractError A) :
  d <= MAX_A2A_ARTIFACT_JSON_DEPTH → c + 1 <= MAX_A2A_ARTIFACT_JSON_VALUES →
  (fail_if (MAX_A2A_ARTIFACT_JSON_DEPTH <? d) (A2AOutOfRange "artifact.part.data");;
   count ← ok_or (checked_add USIZE_MAX c 1) (A2AOutOfRange "artifact.part.data");
   fail_if (MAX_A2A_ARTIFACT_JSON_VALUES <? count) (A2AOutOfRange "artifact.part.data");; k count)
  = k (c + 1).
Proof.
  unfold MAX_A2A_ARTIFACT_JSON_DEPTH, MAX_A2A_ARTIFACT_JSON_VALUES. intros Hd Hc.
  pass_guard by (by apply Z.ltb_ge). rewrite checked_add_fits by (unfold USIZE_MAX, U64_MAX; lia).
  cbn [ok_or mbind result_bind]. by pass_guard by (by apply Z.ltb_ge).
Qed.

Lemma canonicalize_refused {A} (d c : Z) (k : Z → result A2AContractError A) :
  MAX_A2A_ARTIFACT_JSON_DEPTH < d ∨ MAX_A2A_ARTIFACT_JSON_VALUES < c + 1 →
  (fail_if (MAX_A2A_ARTIFACT_JSON_DEPTH <? d) (A2AOutOfRange "artifact.part.data");;
   count ← ok_or (checked_add USIZE_MAX c 1) (A2AOutOfRange "artifact.part.data");
   fail_if (MAX_A2A_ARTIFACT_JSON_VALUES <? count) (A2AOutOfRange "artifact.part.data");; k count)
  = Err (A2AOutOfRange "artifact.part.data").
Proof.
  intros Hr. destruct (Z.ltb_spec MAX_A2A_ARTIFACT_JSON_DEPTH d) as [|Hd]; [done|]. cbn [fail_if mbind result_bind].
  unfold checked_add. destruct (c + 1 <=? USIZE_MAX); [|done]. cbn [ok_or mbind result_bind].
  by rewrite (proj2 (Z.ltb_lt _ _)) by lia.
Qed.

Lemma canonicalize_json_spec fuel v d :
  MAX_A2A_ARTIFACT_JSON_DEPTH < d + Z.of_nat fuel →
  canonical_at (fun v c => canonicalize_json_at fuel v d c) d v.
Proof.
  revert v d. induction fuel as [|fuel IH]; intros v d Hfuel c.
  { cbn [canonicalize_json_at]. rewrite canonicalize_refused by (left; lia).
    destruct (fits _ _ _) eqn:Hf; [|done]. apply fits_spec in Hf. pose proof (json_depth_nonneg (sort_json v)). lia. }
  cbn [canonicalize_json_at]. pose proof (json_depth_nonneg (sort_json v)). pose proof (json_nodes_pos (sort_json v)).
  destruct (decide (MAX_A2A_ARTIFACT_JSON_DEPTH < d ∨ MAX_A2A_ARTIFACT_JSON_VALUES < c + 1)) as [Hr|Hr].
  { rewrite canonicalize_refused by done. destruct (fits _ _ _) eqn:Hf; [|done]. apply fits_spec in Hf. lia. }
  rewrite canonicalize_enter by lia.
  assert (∀ l, Forall (canonical_at (fun v c => canonicalize_json_at fuel v (d + 1) c) (d + 1)) l) as Hall
    by (intros l; apply Forall_true; intros x; apply IH; lia).
  destruct v as [|b|n|s|l|l]; try (by rewrite (proj2 (fits_spec _ _ _)) by (simpl; lia)).
  - rewrite (canonicalize_values_spec _ d l (c + 1) (Hall l)) by lia. cbv zeta. unfold fits. cbn [sort_json json_depth json_nodes].
    rewrite !foldr_map, Z.add_assoc. by destruct (_ && _).
  - rewrite canonicalize_members_values, (canonicalize_values_spec _ d _ (c + 1) (Hall _)) by lia. cbv zeta.
    unfold fits. cbn [sort_json json_depth json_nodes].
    rewrite (btree_collect_map sort_json), !foldr_map, Z.add_assoc. cbn [snd].
    destruct (_ && _); [|done]. cbn [mbind result_bind]. by rewrite zip_map_members.
Qed.

(** *** Sorted members *)

Abbreviation member_lt := (key_lt fst bytes_compare).

Lemma btree_insert_sorted {A} k (x : A) l :
  StronglySorted member_lt l → StronglySorted member_lt (btree_insert k x l).
Proof.
  induction 1 as [|[k' y] l Hl IH Hy]; simpl; [repeat constructor|].
  destruct (bytes_compare k k') eqn:E.
  - apply (compare_eq bytes_compare) in E as ->. constructor; [done|].
    eapply Forall_impl; [exact Hy|]. intros m Hm. exact Hm.
  - constructor; [by constructor|]. constructor; [exact E|].
    eapply Forall_impl; [exact Hy|]. intros m Hm. by eapply (compare_lt_trans bytes_compare).
  - constructor; [done|]. apply btree_insert_Forall; [|done]. by apply (compare_gt_lt bytes_compare).
Qed.

Lemma btree_collect_sorted {A} (l : list (text * A)) : StronglySorted member_lt (btree_collect l).
Proof.
  unfold btree_collect. assert (StronglySorted (key_lt fst bytes_compare) (@nil (text * A))) as Hnil by constructor.
  revert Hnil. generalize (@nil (text * A)). induction l as [|m l IH]; intros acc Hacc; simpl; [done|].
  by apply IH, btree_insert_sorted.
Qed.

Lemma btree_insert_last {A} k (x : A) l :
  Forall (fun m => bytes_compare m.1 k = Lt) l → btree_insert k x l = l ++ [(k, x)].
Proof.
  induction 1 as [|[k' y] l Hy _ IH]; simpl; [done|]. simpl in Hy.
  apply (compare_gt_lt bytes_compare) in Hy. by rewrite Hy, IH.
Qed.

Lemma btree_collect_id {A} (l : list (text * A)) : StronglySorted member_lt l → btree_collect l = l.
Proof.
  intros Hl. unfold btree_collect. change l with ([] ++ l) at 2. revert Hl.
  assert (∀ acc, StronglySorted member_lt (acc ++ l) → foldl (fun m e => btree_insert e.1 e.2 m) acc l = acc ++ l) as Hgen.
  2:{ intros Hl. by apply Hgen. }
  induction l as [|[k x] l IH]; intros acc Hs; simpl; [by rewrite app_nil_r|].
  rewrite btree_insert_last.
  - rewrite IH; rewrite <- (assoc_L (++)); done.
  - apply Forall_forall. intros m Hm.
    apply (StronglySorted_app_1_elem_of _ _ _ m (k, x) Hs Hm). left.
Qed.

Lemma sort_json_idem v : sort_json (sort_json v) = sort_json v.
Proof.
  induction v as [| | | |l IH|l IH] using json_ind'; simpl; try done.
  - f_equal. induction IH as [|x l Hx _ IH]; simpl; [done|]. by rewrite Hx, IH.
  - f_equal. rewrite !(btree_collect_map sort_json), btree_collect_id.
    + rewrite map_map. apply btree_collect_Forall in IH. revert IH.
      generalize (btree_collect l). intros m IH. apply map_ext_Forall. rewrite List.Forall_forall. rewrite Forall_forall in IH.
      intros x Hx%list_elem_of_In. simpl. by rewrite IH.
    + apply btree_collect_sorted.
Qed.

(** Putting the structured data of an artifact into canonical form is sorting the
    members of every object, [sort_json], for data nested at most 32 deep with at most
    1024 values, and is refused for all other data; the number of nested calls is bounded
    by the depth bound whatever the data.  Canonical data stays as it is. *)
Theorem canonicalize_is_bounded_sort value :
  canonicalize_json value
  = (if fits 0 0 (sort_json value) then Ok (sort_json value, json_nodes (sort_json value))
     else Err (A2AOutOfRange "artifact.part.data"))
  ∧ ∀ v n, canonicalize_json value = Ok (v, n) → canonicalize_json v = Ok (v, n).
Proof.
  assert (∀ v, canonicalize_json v
    = if fits 0 0 (sort_json v) then Ok (sort_json v, json_nodes (sort_json v))
      else Err (A2AOutOfRange "artifact.part.data")) as Hspec
    by (intros v; by apply canonicalize_json_spec).
  split; [done|]. intros v n. rewrite Hspec. destruct (fits _ _ _) eqn:Hf; [|done].
  intros [= <- <-]. by rewrite Hspec, sort_json_idem, Hf.
Qed.

(** ** Associated data *)

Lemma A2AIdentifier_parse_len value field v :
  A2AIdentifier_parse_for_field value field = Ok v → v = value ∧ len value <= MAX_A2A_IDENTIFIER_BYTES.
Proof. unfold A2AIdentifier_parse_for_field. intros E. inv_ok. subst. bool_prop. split; [done|]. lia. Qed.

Record descriptor_ok (d : InitialA2AArtifactReferenceDescriptor) : Prop := {
  ok_descriptor_id : len (descriptor_artifact_id d) <= MAX_A2A_IDENTIFIER_BYTES;
  ok_descriptor_index : descriptor_part_index d < MAX_A2A_ARTIFACT_PARTS;
  ok_descriptor_media : len (descriptor_media_type d) <= MAX_A2A_ARTIFACT_MEDIA_TYPE_BYTES;
  ok_descriptor_file : len (descriptor_filename d) <= MAX_A2A_ARTIFACT_FILENAME_BYTES;
  ok_descriptor_size : descriptor_plaintext_bytes d <= MAX_A2A_ARTIFACT_REFERENCE_PLAINTEXT_BYTES }.

Lemma validate_media_type_len value field :
  validate_media_type value field = Ok () → len value <= MAX_A2A_ARTIFACT_MEDIA_TYPE_BYTES.
Proof. unfold validate_media_type. intros E. inv_ok. bool_prop. lia. Qed.

Lemma validate_filename_len value :
  validate_filename value = Ok () → len value <= MAX_A2A_ARTIFACT_FILENAME_BYTES.
Proof.
  unfold validate_filename. intros E. inv_ok; bool_prop; unfold MAX_A2A_ARTIFACT_FILENAME_BYTES in *; lia.
Qed.

Lemma descriptor_new_ok a i m f p d :
  InitialA2AArtifactReferenceDescriptor_new a i m f p = Ok d →
  d = mk_ReferenceDescriptor a i m f p ∧ descriptor_ok d.
Proof.
  intros E. unfold InitialA2AArtifactReferenceDescriptor_new in E.
  apply bind_Ok in E as (a' & Ha & E). apply A2AIdentifier_parse_len in Ha as [-> Hl].
  apply bind_Ok in E as ([] & Hg & E). apply bind_Ok in E as ([] & Hm%validate_media_type_len & E).
  apply bind_Ok in E as ([] & Hf%validate_filename_len & E). inv_ok. subst. bool_prop.
  split; [done|]. split; simpl; lia.
Qed.

Lemma append_u16_component_Ok value :
  len value <= 65535 → append_u16_component value = Ok (be_bytes 2 (len value) ++ value).
Proof. intros Hl. unfold append_u16_component. by pass_guard by (by apply Z.ltb_ge). Qed.

Lemma associated_data_Ok d :
  descriptor_ok d →
  associated_data d = Ok (A2A_ARTIFACT_OBJECT_AAD_DOMAIN
    ++ (be_bytes 2 (len (descriptor_artifact_id d)) ++ descriptor_artifact_id d)
    ++ be_bytes 2 (descriptor_part_index d)
    ++ (be_bytes 2 (len (descriptor_media_type d)) ++ descriptor_media_type d)
    ++ (be_bytes 2 (len (descriptor_filename d)) ++ descriptor_filename d)
    ++ be_bytes 8 (descriptor_plaintext_bytes d)).
Proof.
  intros [H1 _ H2 H3 _]. unfold associated_data.
  unfold MAX_A2A_IDENTIFIER_BYTES, MAX_A2A_ARTIFACT_MEDIA_TYPE_BYTES, MAX_A2A_ARTIFACT_FILENAME_BYTES in *.
  by rewrite !append_u16_component_Ok by lia.
Qed.

Lemma u16_component_inj (x y r s : bytes) :
  len x <= 65535 → len y <= 65535 →
  (be_bytes 2 (len x) ++ x) ++ r = (be_bytes 2 (len y) ++ y) ++ s → x = y ∧ r = s.
Proof. intros Hx Hy. rewrite <- !(assoc_L (++)). apply prefixed_inj; simpl; lia. Qed.

(** Every descriptor the constructor accepts has associated data, and AES-GCM is
    given different associated data for different descriptors: an encrypted object can
    only be opened as the artifact, part, media type, filename and length it was made
    for. *)
Theorem artifact_reference_binds a i m f p d a' i' m' f' p' d' :
  0 <= i → 0 <= p → 0 <= i' → 0 <= p' →
  InitialA2AArtifactReferenceDescriptor_new a i m f p = Ok d →
  InitialA2AArtifactReferenceDescriptor_new a' i' m' f' p' = Ok d' →
  is_ok (associated_data d) = true
  ∧ (associated_data d = associated_data d' → a = a' ∧ i = i' ∧ m = m' ∧ f = f' ∧ p = p').
Proof.
  intros Hi Hp Hi' Hp' [-> Hd]%descriptor_new_ok [-> Hd']%descriptor_new_ok.
  rewrite (associated_data_Ok _ Hd), (associated_data_Ok _ Hd'). split; [done|]. intros E%Ok_inj%app_inv_head.
  destruct Hd as [L1 L2 L3 L4 L5], Hd' as [L1' L2' L3' L4' L5'].
  cbn [descriptor_artifact_id descriptor_part_index descriptor_media_type descriptor_filename
    descriptor_plaintext_bytes] in *.
  unfold MAX_A2A_IDENTIFIER_BYTES, MAX_A2A_ARTIFACT_MEDIA_TYPE_BYTES, MAX_A2A_ARTIFACT_FILENAME_BYTES,
    MAX_A2A_ARTIFACT_PARTS, MAX_A2A_ARTIFACT_REFERENCE_PLAINTEXT_BYTES in *.
  apply u16_component_inj in E as [-> E]; [|lia..].
  apply app_inj_1 in E as [Ei E]; [|by rewrite !be_bytes_length].
  apply be_bytes_inj in Ei as ->; [|simpl; lia..].
  apply u16_component_inj in E as [-> E]; [|lia..]. apply u16_component_inj in E as [-> E]; [|lia..].
  apply be_bytes_inj in E as ->; [done|simpl; lia..].
Qed.
