(* ===== verification/A2ATaskModel.v ===== *)
(** * A2A tasks and their transition policy

    [crates/Konclave.A2ATaskStore/src]: [model.rs] and [record.rs] (tasks, messages,
    artifacts, their identity digests), [policy.rs] (state machine, retries, durable
    shape, status history), [error.rs] and the value types of [store.rs].  Accessors of
    the source are the projections of the records. *)

From S2P Require Import Prelude Identifiers A2AContracts.
Open Scope Z_scope.

Definition TASK_IDENTITY_DOMAIN : bytes := lit "konclave-a2a-task-identity-v1" ++ [x00].
Definition MESSAGE_IDENTITY_DOMAIN : bytes := lit "konclave-a2a-task-message-v1" ++ [x00].
Definition ARTIFACT_IDENTITY_DOMAIN : bytes := lit "konclave-a2a-task-artifact-v1" ++ [x00].
Definition MAX_A2A_STORED_ARTIFACT_BYTES : Z := 1024 * 1024.
Definition MAX_A2A_TERMINAL_REASON_BYTES : Z := 64.

(** ** Errors *)

Inductive A2ATaskStoreError :=
| InvalidConfiguration
| NotFound
| Conflict
| InvalidTransition
| CapacityExceeded
| CorruptData
| Storage.

Global Instance A2ATaskStoreError_eq_dec : EqDecision A2ATaskStoreError.
Proof. solve_decision. Defined.

(** ** Tasks, messages and artifacts *)

Record A2ATaskKey := A2ATaskKey_new {
  agent_id : A2AAgentId;
  tenant : option A2ATenantId;
  task_id : A2ATaskId }.

Global Instance A2ATaskKey_eq_dec : EqDecision A2ATaskKey.
Proof. solve_decision. Defined.

Record A2ATaskCreation := mk_A2ATaskCreation {
  creation_key : A2ATaskKey;
  creation_context_id : A2AContextId;
  creation_source_message_id : A2AMessageId;
  creation_conversation_id : ConversationId;
  creation_target_device_id : DeviceId;
  creation_request_message_id : MessageId;
  creation_request_text : text;
  creation_return_immediately : bool;
  creation_history_length : option Z;
  creation_created_at : Z }.

(** [A2ATaskCreation::from_mapping]. *)
Definition A2ATaskCreation_from_mapping (m : A2ADirectedRequestMapping) (created_at : Z)
    : A2ATaskCreation :=
  mk_A2ATaskCreation
    (A2ATaskKey_new (mapping_agent_id m) (mapping_tenant m) (mapping_task_id m))
    (mapping_context_id m) (mapping_source_message_id m) (mapping_conversation_id m)
    (mapping_target_device_id m) (mapping_request_message_id m) (mapping_text m)
    (mapping_return_immediately m) (mapping_history_length m) created_at.

Inductive A2ATaskMessageRole := User | Agent.

Global Instance A2ATaskMessageRole_eq_dec : EqDecision A2ATaskMessageRole.
Proof. solve_decision. Defined.

Record A2ATaskMessage := mk_A2ATaskMessage {
  message_key : A2ATaskKey;
  message_id : A2AMessageId;
  message_sender : A2ATaskMessageRole;
  message_text : text;
  message_recorded_at : Z }.

Definition A2ATaskMessage_new (key : A2ATaskKey) (id : A2AMessageId) (role : A2ATaskMessageRole)
    (value : text) (recorded_at : Z) : result A2ATaskStoreError A2ATaskMessage :=
  fail_if ((len value =? 0) || (MAX_A2A_TEXT_BYTES <? len value)) InvalidConfiguration;;
  Ok (mk_A2ATaskMessage key id role value recorded_at).

Record A2ATaskArtifact := mk_A2ATaskArtifact {
  artifact_key : A2ATaskKey;
  artifact_id : A2AArtifactId;
  artifact_canonical_bytes : bytes;
  artifact_content_digest : bytes;
  artifact_complete : bool;
  artifact_recorded_at : Z }.

(** [A2ATerminalReason::parse]; the wrapper holds the accepted string. *)
Definition terminal_reason_valid (value : text) : bool :=
  negb ((len value =? 0) || (MAX_A2A_TERMINAL_REASON_BYTES <? len value)
        || negb (forallb (fun b => is_ascii_lowercase b || is_ascii_digit b
                                   || bool_decide (b = "_"%byte)) value)).

Record A2ATerminalReason := mk_A2ATerminalReason {
  reason_str : text;
  reason_valid : terminal_reason_valid reason_str = true }.

Definition A2ATerminalReason_parse (value : text) : result A2ATaskStoreError A2ATerminalReason :=
  match bool_dec (terminal_reason_valid value) true with
  | left H => Ok (mk_A2ATerminalReason value H)
  | right _ => Err InvalidConfiguration
  end.

Record A2ATaskTransition := A2ATaskTransition_new {
  transition_key : A2ATaskKey;
  transition_expected_generation : Z;
  transition_state : A2ATaskState;
  transition_terminal_reason : option A2ATerminalReason;
  transition_occurred_at : Z }.

(** ** Identity digests *)

(** [append_bytes] cannot fail on the bounded values it is given: the [unreachable!()]
    arm needs four gigabytes. *)
Definition append_bytes (value : bytes) : bytes := be_bytes 4 (len value) ++ value.

Definition tenant_value (key : A2ATaskKey) : text := default [] (as_str <$> tenant key).

Definition append_task_key (key : A2ATaskKey) : bytes :=
  append_bytes (tenant_value key) ++ append_bytes (as_str (agent_id key))
  ++ append_bytes (as_str (task_id key)).

Definition bool_byte (b : bool) : byte := if b then x01 else x00.

Section digests.
Context `{Sha256}.

Definition text_digest (value : text) : bytes := sha256 value.

(** What identifies a task, as the bytes that are hashed. *)
Definition task_identity_preimage (key : A2ATaskKey) (context_id : A2AContextId)
    (source_message_id : A2AMessageId) (conversation_id : ConversationId)
    (target_device_id : DeviceId) (request_message_id : MessageId) (return_immediately : bool)
    (history_length : option Z) (request_text_digest : bytes) : bytes :=
  TASK_IDENTITY_DOMAIN ++ append_task_key key
  ++ append_bytes (as_str context_id) ++ append_bytes (as_str source_message_id)
  ++ as_bytes conversation_id ++ as_bytes target_device_id ++ as_bytes request_message_id
  ++ [bool_byte return_immediately]
  ++ match history_length with
     | Some value => [x01] ++ be_bytes 4 value
     | None => [x00]
     end
  ++ request_text_digest.

Definition task_identity_digest (key : A2ATaskKey) (context_id : A2AContextId)
    (source_message_id : A2AMessageId) (conversation_id : ConversationId)
    (target_device_id : DeviceId) (request_message_id : MessageId) (return_immediately : bool)
    (history_length : option Z) (request_text_digest : bytes) : bytes :=
  sha256 (task_identity_preimage key context_id source_message_id conversation_id target_device_id
            request_message_id return_immediately history_length request_text_digest).

Definition creation_request_text_digest (c : A2ATaskCreation) : bytes :=
  text_digest (creation_request_text c).

Definition creation_identity_preimage (c : A2ATaskCreation) : bytes :=
  task_identity_preimage (creation_key c) (creation_context_id c) (creation_source_message_id c)
    (creation_conversation_id c) (creation_target_device_id c) (creation_request_message_id c)
    (creation_return_immediately c) (creation_history_length c) (creation_request_text_digest c).

Definition creation_identity_digest (c : A2ATaskCreation) : bytes :=
  task_identity_digest (creation_key c) (creation_context_id c) (creation_source_message_id c)
    (creation_conversation_id c) (creation_target_device_id c) (creation_request_message_id c)
    (creation_return_immediately c) (creation_history_length c) (creation_request_text_digest c).

Definition message_identity_digest (m : A2ATaskMessage) : bytes :=
  sha256 (MESSAGE_IDENTITY_DOMAIN ++ append_task_key (message_key m)
          ++ append_bytes (as_str (message_id m))
          ++ [match message_sender m with User => x01 | Agent => x02 end]
          ++ append_bytes (message_text m)).

Definition A2ATaskArtifact_new (key : A2ATaskKey) (id : A2AArtifactId) (canonical_bytes : bytes)
    (complete : bool) (recorded_at : Z) : result A2ATaskStoreError A2ATaskArtifact :=
  fail_if ((len canonical_bytes =? 0) || (MAX_A2A_STORED_ARTIFACT_BYTES <? len canonical_bytes))
    InvalidConfiguration;;
  Ok (mk_A2ATaskArtifact key id canonical_bytes (sha256 canonical_bytes) complete recorded_at).

Definition artifact_identity_digest (a : A2ATaskArtifact) : bytes :=
  sha256 (ARTIFACT_IDENTITY_DOMAIN ++ append_task_key (artifact_key a)
          ++ append_bytes (as_str (artifact_id a)) ++ artifact_content_digest a
          ++ [bool_byte (artifact_complete a)]).

End digests.

(** ** Records *)

Record A2ATaskRecord := A2ATaskRecord_new {
  record_key : A2ATaskKey;
  record_context_id : A2AContextId;
  record_source_message_id : A2AMessageId;
  record_conversation_id : ConversationId;
  record_target_device_id : DeviceId;
  record_request_message_id : MessageId;
  record_identity_digest : bytes;
  record_request_text_digest : bytes;
  record_request_text : option text;
  record_return_immediately : bool;
  record_history_length : option Z;
  record_state : A2ATaskState;
  record_generation : Z;
  record_created_at : Z;
  record_updated_at : Z;
  record_terminal_at : option Z;
  record_terminal_reason : option A2ATerminalReason;
  record_content_pruned : bool }.

Definition retained_identity_is_valid `{Sha256} (r : A2ATaskRecord) : bool :=
  if is_some_and (record_request_text r)
       (fun value => bool_decide (text_digest value ≠ record_request_text_digest r))
  then false
  else bool_decide (task_identity_digest (record_key r) (record_context_id r)
         (record_source_message_id r) (record_conversation_id r) (record_target_device_id r)
         (record_request_message_id r) (record_return_immediately r) (record_history_length r)
         (record_request_text_digest r) = record_identity_digest r).

Record StoredA2ATaskStatus := StoredA2ATaskStatus_new {
  status_generation : Z;
  status_state : A2ATaskState;
  status_terminal_reason : option A2ATerminalReason;
  status_occurred_at : Z }.

Record StoredA2ATaskMessage := StoredA2ATaskMessage_new {
  stored_message_sequence : Z;
  stored_message_id : A2AMessageId;
  stored_message_role : A2ATaskMessageRole;
  stored_message_text : text;
  stored_message_recorded_at : Z }.

Record StoredA2ATaskArtifact := StoredA2ATaskArtifact_new {
  stored_artifact_sequence : Z;
  stored_artifact_id : A2AArtifactId;
  stored_artifact_content_digest : bytes;
  stored_artifact_canonical_bytes : bytes;
  stored_artifact_complete : bool;
  stored_artifact_recorded_at : Z }.

(** ** Policy *)

Inductive A2ATaskTransitionPlan := Existing | Apply | RequireCompletionEvidence.

Global Instance A2ATaskTransitionPlan_eq_dec : EqDecision A2ATaskTransitionPlan.
Proof. solve_decision. Defined.

Definition validate_completion_evidence (plan : A2ATaskTransitionPlan)
    (has_completion_evidence : bool) : result A2ATaskStoreError unit :=
  fail_if (bool_decide (plan = RequireCompletionEvidence) && negb has_completion_evidence)
    InvalidTransition.

Definition a2a_task_state_is_terminal (s : A2ATaskState) : bool :=
  match s with Completed | Failed | Canceled | Rejected => true | _ => false end.

Definition a2a_task_state_transition_is_allowed (previous next : A2ATaskState) : bool :=
  match previous with
  | Submitted =>
      match next with Working | Completed | Failed | Rejected | Canceled => true | _ => false end
  | Working =>
      match next with Completed | Failed | Rejected | Canceled => true | _ => false end
  | _ => false
  end.

Definition a2a_task_status_reason_is_valid (s : A2ATaskState) (reason : option A2ATerminalReason)
    : bool :=
  match s with
  | Submitted | Working | Completed => is_none reason
  | Failed | Canceled | Rejected => is_some reason
  | InputRequired | AuthRequired => false
  end.

Definition plan_a2a_task_transition (current : A2ATaskRecord) (t : A2ATaskTransition)
    : result A2ATaskStoreError A2ATaskTransitionPlan :=
  fail_if (bool_decide (record_key current ≠ transition_key t)) Conflict;;
  if bool_decide (record_generation current ≠ transition_expected_generation t) then
    if is_some_and (checked_add U64_MAX (transition_expected_generation t) 1)
         (fun generation => generation =? record_generation current)
       && bool_decide (record_state current = transition_state t)
       && bool_decide (reason_str <$> record_terminal_reason current
                       = reason_str <$> transition_terminal_reason t)
    then Ok Existing
    else Err Conflict
  else
    fail_if (negb (a2a_task_state_transition_is_allowed (record_state current) (transition_state t))
             || negb (a2a_task_status_reason_is_valid (transition_state t)
                        (transition_terminal_reason t))
             || (transition_occurred_at t <? record_updated_at current)) InvalidTransition;;
    Ok (if bool_decide (transition_state t = Completed) then RequireCompletionEvidence else Apply).

(** The derived order of [Option<u64>], as [>]. *)
Definition option_gt (x y : option Z) : bool :=
  match option_compare Z.compare x y with Gt => true | _ => false end.

Definition validate_a2a_task_shape (s : A2ATaskState) (generation updated_at : Z)
    (terminal_at : option Z) (terminal_reason : option A2ATerminalReason) (content_pruned : bool)
    (content_expires_at tombstone_expires_at : option Z) : result A2ATaskStoreError unit :=
  let terminal := a2a_task_state_is_terminal s in
  fail_if ((2 <? generation)
    || (terminal && (bool_decide (terminal_at ≠ Some updated_at)
                     || is_none content_expires_at
                     || is_none tombstone_expires_at
                     || option_gt terminal_at content_expires_at
                     || option_gt content_expires_at tombstone_expires_at))
    || (negb terminal && (is_some terminal_at
                          || is_some terminal_reason
                          || content_pruned
                          || is_some content_expires_at
                          || is_some tombstone_expires_at))
    || negb (a2a_task_status_reason_is_valid s terminal_reason)) CorruptData.

(** The loop of [validate_a2a_task_status_history] over [statuses.iter().enumerate()]. *)
Fixpoint check_statuses (created_at : Z) (index : Z) (previous_state : option A2ATaskState)
    (previous_time : Z) (statuses : list StoredA2ATaskStatus) : result A2ATaskStoreError unit :=
  match statuses with
  | [] => Ok tt
  | status :: rest =>
      fail_if (negb (status_generation status =? index)
        || (status_occurred_at status <? previous_time)
        || ((index =? 0) && (bool_decide (status_state status ≠ Submitted)
                             || is_some (status_terminal_reason status)
                             || negb (status_occurred_at status =? created_at)))
        || negb (a2a_task_status_reason_is_valid (status_state status)
                   (status_terminal_reason status))
        || is_some_and previous_state (fun previous =>
             negb (a2a_task_state_transition_is_allowed previous (status_state status))))
        CorruptData;;
      check_statuses created_at (index + 1) (Some (status_state status))
        (status_occurred_at status) rest
  end.

Definition validate_a2a_task_status_history (task : A2ATaskRecord)
    (statuses : list StoredA2ATaskStatus) : result A2ATaskStoreError unit :=
  expected_length ← ok_or (checked_add U64_MAX (record_generation task) 1) CorruptData;
  fail_if (negb (len statuses =? expected_length) || (len statuses =? 0) || (3 <? len statuses))
    CorruptData;;
  check_statuses (record_created_at task) 0 None 0 statuses;;
  last ← ok_or (last statuses) CorruptData;
  fail_if (bool_decide (status_state last ≠ record_state task)
           || negb (status_generation last =? record_generation task)
           || negb (status_occurred_at last =? record_updated_at task)
           || bool_decide (reason_str <$> status_terminal_reason last
                           ≠ reason_str <$> record_terminal_reason task)) CorruptData.

(** ** Store values *)

Inductive CreateA2ATaskOutcome :=
| TaskCreated (r : A2ATaskRecord)
| TaskExisting (r : A2ATaskRecord).

Inductive TransitionA2ATaskOutcome :=
| TransitionApplied (r : A2ATaskRecord)
| TransitionExisting (r : A2ATaskRecord).

Inductive AppendA2ATaskRecordOutcome :=
| Appended (sequence : Z)
| AppendExisting (sequence : Z).

Record A2ATaskPruneOutcome := mk_A2ATaskPruneOutcome {
  pruned_task_payloads : Z;
  removed_tombstones : Z }.

Record A2ATaskListCursor := A2ATaskListCursor_new {
  cursor_created_at : Z;
  cursor_task_id : A2ATaskId }.

Record A2ATaskListQuery := mk_A2ATaskListQuery {
  query_agent_id : A2AAgentId;
  query_tenant : option A2ATenantId;
  query_context_id : A2AContextId;
  query_page_size : Z;
  query_cursor : option A2ATaskListCursor }.

Definition A2ATaskListQuery_new (agent_id : A2AAgentId) (tenant : option A2ATenantId)
    (context_id : A2AContextId) (page_size : Z) (cursor : option A2ATaskListCursor)
    : result A2ATaskStoreError A2ATaskListQuery :=
  fail_if ((page_size =? 0) || (256 <? page_size)) InvalidConfiguration;;
  Ok (mk_A2ATaskListQuery agent_id tenant context_id page_size cursor).

Record A2ATaskSnapshot := A2ATaskSnapshot_new {
  snapshot_task : A2ATaskRecord;
  snapshot_messages : list StoredA2ATaskMessage;
  snapshot_artifacts : list StoredA2ATaskArtifact }.

Record A2ATaskStreamUpdates := A2ATaskStreamUpdates_new {
  updates_task : A2ATaskRecord;
  updates_statuses : list StoredA2ATaskStatus;
  updates_artifacts : list StoredA2ATaskArtifact;
  updates_messages : list StoredA2ATaskMessage }.

Record A2ATaskListPage := A2ATaskListPage_new {
  page_tasks : list A2ATaskRecord;
  page_next_cursor : option A2ATaskListCursor;
  page_page_size : Z;
  page_total_size : Z }.

Record A2ATaskWithArtifacts := A2ATaskWithArtifacts_new {
  with_artifacts_task : A2ATaskRecord;
  with_artifacts_artifacts : list StoredA2ATaskArtifact }.

Record A2ATaskArtifactListPage := A2ATaskArtifactListPage_new {
  artifact_page_tasks : list A2ATaskWithArtifacts;
  artifact_page_next_cursor : option A2ATaskListCursor;
  artifact_page_page_size : Z;
  artifact_page_total_size : Z }.
