(* ===== verification/A2AStore.v ===== *)
(** * The SQLite store of A2A tasks

    [crates/Konclave.A2ATaskStoreSqlite/src/lib.rs].

    The database is explicit state in the style of [RelayStore]: the tables with one row
    per task or context are finite maps on their primary key, the tables with several
    rows per task are lists of rows in insertion order, selected by [filter] and ordered
    by [sort_by].  Deleting a task cascades to its status, message and artifact rows.
    A violated primary key or uniqueness constraint is [Conflict] and any other
    constraint [Storage], as [map_insert_error] decides; failures of the storage engine,
    the schema check and the connection pragmas are not represented. *)

From S2P Require Import Prelude Identifiers A2AContracts A2ATaskModel.
Open Scope Z_scope.

Definition MAX_PAGE_SIZE : Z := 256.
Definition HARD_MAX_TASKS : Z := 100000.
Definition HARD_MAX_PAYLOAD_BYTES : Z := 1024 * 1024 * 1024.
Definition HARD_MAX_RETENTION_MILLISECONDS : Z := 10 * 365 * 24 * 60 * 60 * 1000.
Definition HARD_MAX_BUSY_TIMEOUT_MILLISECONDS : Z := 60000.
Definition HARD_MAX_PRUNE_BATCH : Z := 1024.

Record A2ASqliteTaskStoreConfig := mk_A2ASqliteTaskStoreConfig {
  max_tasks : Z;
  max_messages_per_task : Z;
  max_artifacts_per_task : Z;
  max_payload_bytes : Z;
  max_prune_batch : Z;
  content_retention_milliseconds : Z;
  idempotency_retention_milliseconds : Z;
  busy_timeout_milliseconds : Z }.

Definition A2ASqliteTaskStoreConfig_default : A2ASqliteTaskStoreConfig :=
  mk_A2ASqliteTaskStoreConfig 1024 256 64 (64 * 1024 * 1024) 256 (7 * 24 * 60 * 60 * 1000)
    (30 * 24 * 60 * 60 * 1000) 5000.

Definition A2ASqliteTaskStoreConfig_validate (c : A2ASqliteTaskStoreConfig)
    : result A2ATaskStoreError A2ASqliteTaskStoreConfig :=
  fail_if ((max_tasks c =? 0) || (HARD_MAX_TASKS <? max_tasks c)
    || (max_messages_per_task c <? 2) || (MAX_PAGE_SIZE <? max_messages_per_task c)
    || (max_artifacts_per_task c =? 0) || (MAX_PAGE_SIZE <? max_artifacts_per_task c)
    || (max_payload_bytes c =? 0) || (HARD_MAX_PAYLOAD_BYTES <? max_payload_bytes c)
    || (max_prune_batch c =? 0) || (HARD_MAX_PRUNE_BATCH <? max_prune_batch c)
    || (content_retention_milliseconds c =? 0)
    || (HARD_MAX_RETENTION_MILLISECONDS <? content_retention_milliseconds c)
    || (idempotency_retention_milliseconds c <=? content_retention_milliseconds c)
    || (HARD_MAX_RETENTION_MILLISECONDS <? idempotency_retention_milliseconds c)
    || (busy_timeout_milliseconds c =? 0)
    || (HARD_MAX_BUSY_TIMEOUT_MILLISECONDS <? busy_timeout_milliseconds c))
    InvalidConfiguration;;
  Ok c.

(** ** Tables *)

(** [(agent_id, tenant_id, task_id)], and [(agent_id, tenant_id, context_id)]. *)
Abbreviation TaskPk := (text * text * text)%type.
Abbreviation ContextPk := (text * text * text)%type.

Record ContextRow := mk_ContextRow {
  crow_conversation_id : ConversationId;
  crow_target_device_id : DeviceId;
  crow_created_at : Z }.

Record TaskRow := mk_TaskRow {
  trow_context_id : text;
  trow_source_message_id : text;
  trow_conversation_id : ConversationId;
  trow_target_device_id : DeviceId;
  trow_request_message_id : MessageId;
  trow_identity_digest : bytes;
  trow_return_immediately : Z;
  trow_history_length : option Z;
  trow_state : Z;
  trow_generation : Z;
  trow_created_at : Z;
  trow_updated_at : Z;
  trow_terminal_at : option Z;
  trow_terminal_reason : option text;
  trow_content_pruned : Z;
  trow_content_expires_at : option Z;
  trow_tombstone_expires_at : option Z;
  trow_request_text_digest : bytes }.

Record StatusRow := mk_StatusRow {
  srow_task : TaskPk;
  srow_generation : Z;
  srow_state : Z;
  srow_terminal_reason : option text;
  srow_occurred_at : Z }.

Record MessageRow := mk_MessageRow {
  mrow_task : TaskPk;
  mrow_sequence : Z;
  mrow_message_id : text;
  mrow_role : Z;
  mrow_text : text;
  mrow_identity_digest : bytes;
  mrow_recorded_at : Z }.

Record ArtifactRow := mk_ArtifactRow {
  artrow_task : TaskPk;
  artrow_sequence : Z;
  artrow_artifact_id : text;
  artrow_content_digest : bytes;
  artrow_canonical_bytes : bytes;
  artrow_complete : Z;
  artrow_identity_digest : bytes;
  artrow_recorded_at : Z }.

Record A2ADb := mk_A2ADb {
  a2a_context : gmap ContextPk ContextRow;
  a2a_task : gmap TaskPk TaskRow;
  a2a_task_status : list StatusRow;
  a2a_task_message : list MessageRow;
  a2a_task_artifact : list ArtifactRow }.

Definition empty_a2a_db : A2ADb := mk_A2ADb ∅ ∅ [] [] [].

(** [WHERE agent_id = ?1 AND tenant_id = ?2 AND task_id = ?3]. *)
Definition task_pk (key : A2ATaskKey) : TaskPk :=
  (as_str (agent_id key), tenant_value key, as_str (task_id key)).

Definition context_pk (key : A2ATaskKey) (context_id : text) : ContextPk :=
  (as_str (agent_id key), tenant_value key, context_id).

(** The context a task row refers to. *)
Definition row_context_pk (pk : TaskPk) (row : TaskRow) : ContextPk :=
  (pk.1.1, pk.1.2, trow_context_id row).

Definition statuses_for (db : A2ADb) (pk : TaskPk) : list StatusRow :=
  filter (fun r => srow_task r = pk) (a2a_task_status db).
Definition messages_for (db : A2ADb) (pk : TaskPk) : list MessageRow :=
  filter (fun r => mrow_task r = pk) (a2a_task_message db).
Definition artifacts_for (db : A2ADb) (pk : TaskPk) : list ArtifactRow :=
  filter (fun r => artrow_task r = pk) (a2a_task_artifact db).

(** ** Column encodings *)

Definition state_code (s : A2ATaskState) : Z :=
  match s with
  | Submitted => 1 | Working => 2 | Completed => 3 | Failed => 4
  | Canceled => 5 | InputRequired => 6 | Rejected => 7 | AuthRequired => 8
  end.

Definition state_from_code (value : Z) : result A2ATaskStoreError A2ATaskState :=
  match value with
  | 1 => Ok Submitted
  | 2 => Ok Working
  | 3 => Ok Completed
  | 4 => Ok Failed
  | 5 => Ok Canceled
  | 6 => Ok InputRequired
  | 7 => Ok Rejected
  | 8 => Ok AuthRequired
  | _ => Err CorruptData
  end.

Definition role_code (role : A2ATaskMessageRole) : Z :=
  match role with User => 1 | Agent => 2 end.

Definition role_from_code (value : Z) : result A2ATaskStoreError A2ATaskMessageRole :=
  match value with
  | 1 => Ok User
  | 2 => Ok Agent
  | _ => Err CorruptData
  end.

Definition parse_bool (value : Z) : result A2ATaskStoreError bool :=
  match value with
  | 0 => Ok false
  | 1 => Ok true
  | _ => Err CorruptData
  end.

(** [i64::from(bool)]. *)
Definition bool_sql (b : bool) : Z := if b then 1 else 0.

Definition to_sql (value : Z) : result A2ATaskStoreError Z :=
  if value <=? I64_MAX then Ok value else Err InvalidConfiguration.

Definition from_sql (value : Z) : result A2ATaskStoreError Z :=
  if 0 <=? value then Ok value else Err CorruptData.

(** [A2ATerminalReason::parse(..).map_err(|_| CorruptData)]. *)
Definition reason_from_sql (value : option text) : result A2ATaskStoreError (option A2ATerminalReason) :=
  map_err (fun _ => CorruptData) (opt_traverse A2ATerminalReason_parse value).

Definition parse_column (k : a2a_kind) (value : text) : result A2ATaskStoreError (A2AId k) :=
  map_err (fun _ => CorruptData) (A2AId_parse k value).

(** [try_into::<[u8; 32]>()]. *)
Definition digest_from_sql (value : bytes) : result A2ATaskStoreError bytes :=
  if len value =? 32 then Ok value else Err CorruptData.

Definition task_key_from_storage (agent_id tenant_id task_id : text)
    : result A2ATaskStoreError A2ATaskKey :=
  agent ← parse_column KAgent agent_id;
  tenant ← (if len tenant_id =? 0 then Ok None else Some <$> parse_column KTenant tenant_id);
  task ← parse_column KTask task_id;
  Ok (A2ATaskKey_new agent tenant task).

(** ** Insertion *)

Definition constraint (holds : bool) (violation : A2ATaskStoreError)
    : result A2ATaskStoreError unit :=
  fail_if (negb holds) violation.

Definition insert_status (db : A2ADb) (key : A2ATaskKey) (generation : Z) (s : A2ATaskState)
    (reason : option A2ATerminalReason) (occurred_at : Z) : result A2ATaskStoreError A2ADb :=
  generation ← to_sql generation;
  occurred_at ← to_sql occurred_at;
  let row := mk_StatusRow (task_pk key) generation (state_code s) (reason_str <$> reason)
               occurred_at in
  constraint (negb (existsb (fun r => bool_decide (srow_task r = srow_task row)
                                      && (srow_generation r =? srow_generation row))
                      (a2a_task_status db))) Conflict;;
  constraint (is_some (a2a_task db !! srow_task row)) Storage;;
  Ok (mk_A2ADb (a2a_context db) (a2a_task db) (a2a_task_status db ++ [row])
        (a2a_task_message db) (a2a_task_artifact db)).

Section store.
Context `{Sha256} (config : A2ASqliteTaskStoreConfig).

Definition insert_message (db : A2ADb) (message : A2ATaskMessage) (sequence : Z)
    : result A2ATaskStoreError A2ADb :=
  sequence ← to_sql sequence;
  recorded_at ← to_sql (message_recorded_at message);
  let row := mk_MessageRow (task_pk (message_key message)) sequence (as_str (message_id message))
               (role_code (message_sender message)) (message_text message)
               (message_identity_digest message) recorded_at in
  constraint (len (mrow_identity_digest row) =? 32) Storage;;
  constraint (negb (existsb (fun r => bool_decide (mrow_task r = mrow_task row)
                                      && ((mrow_sequence r =? mrow_sequence row)
                                          || bool_decide (mrow_message_id r = mrow_message_id row)))
                      (a2a_task_message db))) Conflict;;
  constraint (is_some (a2a_task db !! mrow_task row)) Storage;;
  Ok (mk_A2ADb (a2a_context db) (a2a_task db) (a2a_task_status db)
        (a2a_task_message db ++ [row]) (a2a_task_artifact db)).

Definition insert_artifact (db : A2ADb) (artifact : A2ATaskArtifact) (sequence : Z)
    : result A2ATaskStoreError A2ADb :=
  sequence ← to_sql sequence;
  recorded_at ← to_sql (artifact_recorded_at artifact);
  let row := mk_ArtifactRow (task_pk (artifact_key artifact)) sequence
               (as_str (artifact_id artifact)) (artifact_content_digest artifact)
               (artifact_canonical_bytes artifact) (bool_sql (artifact_complete artifact))
               (artifact_identity_digest artifact) recorded_at in
  constraint ((len (artrow_content_digest row) =? 32) && (len (artrow_identity_digest row) =? 32))
    Storage;;
  constraint (negb (existsb (fun r => bool_decide (artrow_task r = artrow_task row)
                                      && ((artrow_sequence r =? artrow_sequence row)
                                          || bool_decide (artrow_artifact_id r
                                                          = artrow_artifact_id row)))
                      (a2a_task_artifact db))) Conflict;;
  constraint (is_some (a2a_task db !! artrow_task row)) Storage;;
  Ok (mk_A2ADb (a2a_context db) (a2a_task db) (a2a_task_status db) (a2a_task_message db)
        (a2a_task_artifact db ++ [row])).

(** ** Loading *)

Definition status_of_row (row : StatusRow) : result A2ATaskStoreError StoredA2ATaskStatus :=
  generation ← from_sql (srow_generation row);
  s ← state_from_code (srow_state row);
  reason ← reason_from_sql (srow_terminal_reason row);
  occurred_at ← from_sql (srow_occurred_at row);
  Ok (StoredA2ATaskStatus_new generation s reason occurred_at).

Definition verify_status_history (db : A2ADb) (task : A2ATaskRecord)
    : result A2ATaskStoreError unit :=
  let rows := take 4 (sort_by srow_generation Z.compare
                        (statuses_for db (task_pk (record_key task)))) in
  statuses ← traverse status_of_row rows;
  validate_a2a_task_status_history task statuses.

Definition verify_context_binding (db : A2ADb) (task : A2ATaskRecord)
    : result A2ATaskStoreError unit :=
  context ← ok_or (a2a_context db !! context_pk (record_key task) (as_str (record_context_id task)))
              CorruptData;
  fail_if (bool_decide (crow_conversation_id context ≠ record_conversation_id task)
           || bool_decide (crow_target_device_id context ≠ record_target_device_id task)) CorruptData.

(** The checks that the loaders of messages share: the row is a message again and its
    digest is the stored one. *)
Definition message_of_row (key : A2ATaskKey) (row : MessageRow)
    : result A2ATaskStoreError A2ATaskMessage :=
  id ← parse_column KMessage (mrow_message_id row);
  role ← role_from_code (mrow_role row);
  recorded_at ← from_sql (mrow_recorded_at row);
  message ← map_err (fun _ => CorruptData)
              (A2ATaskMessage_new key id role (mrow_text row) recorded_at);
  fail_if (bool_decide (message_identity_digest message ≠ mrow_identity_digest row)) CorruptData;;
  Ok message.

Definition stored_message (sequence : Z) (m : A2ATaskMessage) : StoredA2ATaskMessage :=
  StoredA2ATaskMessage_new sequence (message_id m) (message_sender m) (message_text m)
    (message_recorded_at m).

Definition load_message_at_sequence (db : A2ADb) (key : A2ATaskKey) (sequence : Z)
    : result A2ATaskStoreError (option StoredA2ATaskMessage) :=
  sequence_sql ← to_sql sequence;
  match List.find (fun r => mrow_sequence r =? sequence_sql) (messages_for db (task_pk key)) with
  | None => Ok None
  | Some row => message ← message_of_row key row; Ok (Some (stored_message sequence message))
  end.

Definition load_task_optional (db : A2ADb) (key : A2ATaskKey)
    : result A2ATaskStoreError (option A2ATaskRecord) :=
  match a2a_task db !! task_pk key with
  | None => Ok None
  | Some row =>
      let request_text :=
        if trow_content_pruned row =? 0
        then mrow_text <$> List.find (fun r => mrow_sequence r =? 1) (messages_for db (task_pk key))
        else None in
      terminal_reason ← reason_from_sql (trow_terminal_reason row);
      content_pruned ← parse_bool (trow_content_pruned row);
      content_expires_at ← opt_traverse from_sql (trow_content_expires_at row);
      tombstone_expires_at ← opt_traverse from_sql (trow_tombstone_expires_at row);
      fail_if ((negb content_pruned && is_none request_text)
               || is_some_and request_text
                    (fun value => (len value =? 0) || (64 * 1024 <? len value))) CorruptData;;
      s ← state_from_code (trow_state row);
      terminal_at ← opt_traverse from_sql (trow_terminal_at row);
      generation ← from_sql (trow_generation row);
      updated_at ← from_sql (trow_updated_at row);
      validate_a2a_task_shape s generation updated_at terminal_at terminal_reason content_pruned
        content_expires_at tombstone_expires_at;;
      context_id ← parse_column KContext (trow_context_id row);
      source_message_id ← parse_column KMessage (trow_source_message_id row);
      identity_digest ← digest_from_sql (trow_identity_digest row);
      request_text_digest ← digest_from_sql (trow_request_text_digest row);
      return_immediately ← parse_bool (trow_return_immediately row);
      history_length ← opt_traverse (fun v => v ← from_sql v;
                                              if v <=? U32_MAX then Ok v else Err CorruptData)
                         (trow_history_length row);
      created_at ← from_sql (trow_created_at row);
      let record := A2ATaskRecord_new key context_id source_message_id
                      (trow_conversation_id row) (trow_target_device_id row)
                      (trow_request_message_id row) identity_digest request_text_digest
                      request_text return_immediately history_length s generation created_at
                      updated_at terminal_at terminal_reason content_pruned in
      fail_if (bool_decide (task_request_message_id (task_id (record_key record))
                            ≠ Some (record_request_message_id record))
               || negb (retained_identity_is_valid record)) CorruptData;;
      verify_context_binding db record;;
      (if record_content_pruned record then Ok tt
       else
         initial ← load_message_at_sequence db (record_key record) 1;
         initial ← ok_or initial CorruptData;
         fail_if (negb (stored_message_sequence initial =? 1)
                  || bool_decide (stored_message_role initial ≠ User)
                  || bool_decide (stored_message_id initial ≠ record_source_message_id record)
                  || bool_decide (stored_message_text initial
                                  ≠ default [] (record_request_text record))) CorruptData);;
      verify_status_history db record;;
      Ok (Some record)
  end.

Definition load_task (db : A2ADb) (key : A2ATaskKey) : result A2ATaskStoreError A2ATaskRecord :=
  task ← load_task_optional db key;
  ok_or task NotFound.

(** The loop of [load_status_updates]. *)
Fixpoint collect_updates (expected_generation : Z) (rows : list StatusRow)
    : result A2ATaskStoreError (list StoredA2ATaskStatus) :=
  match rows with
  | [] => Ok []
  | row :: rest =>
      status ← status_of_row row;
      fail_if (negb (status_generation status =? expected_generation)
               || negb (a2a_task_status_reason_is_valid (status_state status)
                          (status_terminal_reason status))) CorruptData;;
      expected_generation ← ok_or (checked_add U64_MAX expected_generation 1) CorruptData;
      updates ← collect_updates expected_generation rest;
      Ok (status :: updates)
  end.

Definition load_status_updates (db : A2ADb) (key : A2ATaskKey) (after_generation : Z)
    : result A2ATaskStoreError (list StoredA2ATaskStatus) :=
  after ← to_sql after_generation;
  let rows := take 3 (sort_by srow_generation Z.compare
                        (List.filter (fun r => after <? srow_generation r)
                           (statuses_for db (task_pk key)))) in
  expected_generation ← ok_or (checked_add U64_MAX after_generation 1) CorruptData;
  collect_updates expected_generation rows.

Definition has_completion_evidence (db : A2ADb) (key : A2ATaskKey) : bool :=
  existsb (fun r => mrow_role r =? 2) (messages_for db (task_pk key))
  || existsb (fun r => artrow_complete r =? 1) (artifacts_for db (task_pk key)).

Definition existing_message (db : A2ADb) (key : A2ATaskKey) (id : A2AMessageId)
    : result A2ATaskStoreError (option (Z * bytes)) :=
  match List.find (fun r => bool_decide (mrow_message_id r = as_str id))
          (messages_for db (task_pk key)) with
  | None => Ok None
  | Some row =>
      role ← role_from_code (mrow_role row);
      recorded_at ← from_sql (mrow_recorded_at row);
      message ← map_err (fun _ => CorruptData)
                  (A2ATaskMessage_new key id role (mrow_text row) recorded_at);
      let digest := message_identity_digest message in
      fail_if (bool_decide (digest ≠ mrow_identity_digest row)) CorruptData;;
      sequence ← from_sql (mrow_sequence row);
      Ok (Some (sequence, digest))
  end.

Definition existing_artifact (db : A2ADb) (key : A2ATaskKey) (id : A2AArtifactId)
    : result A2ATaskStoreError (option (Z * bytes)) :=
  match List.find (fun r => bool_decide (artrow_artifact_id r = as_str id))
          (artifacts_for db (task_pk key)) with
  | None => Ok None
  | Some row =>
      complete ← parse_bool (artrow_complete row);
      recorded_at ← from_sql (artrow_recorded_at row);
      artifact ← map_err (fun _ => CorruptData)
                   (A2ATaskArtifact_new key id (artrow_canonical_bytes row) complete recorded_at);
      let digest := artifact_identity_digest artifact in
      fail_if (bool_decide (artifact_content_digest artifact ≠ artrow_content_digest row)
               || bool_decide (digest ≠ artrow_identity_digest row)) CorruptData;;
      sequence ← from_sql (artrow_sequence row);
      Ok (Some (sequence, digest))
  end.

(** [record_count] of the message and of the artifact table. *)
Definition message_count (db : A2ADb) (key : A2ATaskKey) : Z := len (messages_for db (task_pk key)).
Definition artifact_count (db : A2ADb) (key : A2ATaskKey) : Z := len (artifacts_for db (task_pk key)).

(** The loop of [load_messages]. *)
Fixpoint collect_messages (key : A2ATaskKey) (previous_sequence : option Z)
    (rows : list MessageRow) : result A2ATaskStoreError (list StoredA2ATaskMessage) :=
  match rows with
  | [] => Ok []
  | row :: rest =>
      sequence ← from_sql (mrow_sequence row);
      fail_if (is_some_and previous_sequence (fun previous =>
                 bool_decide (checked_add U64_MAX previous 1 ≠ Some sequence))) CorruptData;;
      message ← message_of_row key row;
      messages ← collect_messages key (Some sequence) rest;
      Ok (stored_message sequence message :: messages)
  end.

(** [ORDER BY sequence DESC LIMIT ?4], then [ORDER BY sequence]. *)
Definition load_messages (db : A2ADb) (key : A2ATaskKey) (limit : Z)
    : result A2ATaskStoreError (list StoredA2ATaskMessage) :=
  fail_if (I64_MAX <? limit) InvalidConfiguration;;
  let newest := take (Z.to_nat limit)
                  (sort_by mrow_sequence (fun x y => Z.compare y x) (messages_for db (task_pk key))) in
  collect_messages key None (sort_by mrow_sequence Z.compare newest).

(** The loop of [load_artifacts] and [load_artifacts_after]. *)
Fixpoint collect_artifacts (key : A2ATaskKey) (expected_sequence : Z) (rows : list ArtifactRow)
    : result A2ATaskStoreError (list StoredA2ATaskArtifact) :=
  match rows with
  | [] => Ok []
  | row :: rest =>
      sequence ← from_sql (artrow_sequence row);
      fail_if (negb (sequence =? expected_sequence)) CorruptData;;
      id ← parse_column KArtifact (artrow_artifact_id row);
      complete ← parse_bool (artrow_complete row);
      recorded_at ← from_sql (artrow_recorded_at row);
      artifact ← map_err (fun _ => CorruptData)
                   (A2ATaskArtifact_new key id (artrow_canonical_bytes row) complete recorded_at);
      fail_if (bool_decide (artifact_content_digest artifact ≠ artrow_content_digest row)
               || bool_decide (artifact_identity_digest artifact ≠ artrow_identity_digest row))
        CorruptData;;
      expected_sequence ← ok_or (checked_add U64_MAX expected_sequence 1) CorruptData;
      artifacts ← collect_artifacts key expected_sequence rest;
      Ok (StoredA2ATaskArtifact_new sequence (artifact_id artifact)
            (artifact_content_digest artifact) (artrow_canonical_bytes row)
            (artifact_complete artifact) (artifact_recorded_at artifact) :: artifacts)
  end.

Definition load_artifacts (db : A2ADb) (key : A2ATaskKey) (limit : Z)
    : result A2ATaskStoreError (list StoredA2ATaskArtifact) :=
  fail_if (I64_MAX <? limit) InvalidConfiguration;;
  collect_artifacts key 1
    (take (Z.to_nat limit) (sort_by artrow_sequence Z.compare (artifacts_for db (task_pk key)))).

Definition load_artifacts_after (db : A2ADb) (key : A2ATaskKey) (after_sequence limit : Z)
    : result A2ATaskStoreError (list StoredA2ATaskArtifact) :=
  after ← to_sql after_sequence;
  fail_if (I64_MAX <? limit) InvalidConfiguration;;
  expected_sequence ← ok_or (checked_add U64_MAX after_sequence 1) CorruptData;
  collect_artifacts key expected_sequence
    (take (Z.to_nat limit)
       (sort_by artrow_sequence Z.compare
          (List.filter (fun r => after <? artrow_sequence r) (artifacts_for db (task_pk key))))).

(** ** Capacity *)

Definition sum_len {A} (f : A -> bytes) (l : list A) : Z :=
  foldr (fun r total => len (f r) + total) 0 l.

Definition retained_payload_bytes (db : A2ADb) : Z :=
  sum_len mrow_text (a2a_task_message db) + sum_len artrow_canonical_bytes (a2a_task_artifact db).

Definition require_task_capacity (db : A2ADb) : result A2ATaskStoreError unit :=
  fail_if (max_tasks config <=? Z.of_nat (size (a2a_task db))) CapacityExceeded.

Definition require_payload_capacity (db : A2ADb) (additional : Z) : result A2ATaskStoreError unit :=
  fail_if (is_none_or (checked_add USIZE_MAX (retained_payload_bytes db) additional)
             (fun total => max_payload_bytes config <? total)) CapacityExceeded.

Definition validate_page_limit (limit configured : Z) : result A2ATaskStoreError unit :=
  fail_if ((limit =? 0) || (configured <? limit) || (MAX_PAGE_SIZE <? limit)) InvalidConfiguration.

Definition validate_list_page_size (limit : Z) : result A2ATaskStoreError unit :=
  fail_if ((limit =? 0) || (MAX_PAGE_SIZE <? limit)) InvalidConfiguration.

Definition validate_artifact_read_limit (limit configured : Z) : result A2ATaskStoreError Z :=
  if (limit =? 0) || (MAX_PAGE_SIZE <? limit) then Err InvalidConfiguration
  else Ok (Z.min limit configured).

(** ** Retention *)

Inductive RetentionKind := Payload | Tombstone.

Record RetentionCandidate := mk_RetentionCandidate {
  candidate_key : A2ATaskKey;
  candidate_kind : RetentionKind }.

(** One row of the [UNION ALL]: the sort key
    [(deadline, terminal_at, kind, agent_id, tenant_id, task_id)]. *)
Abbreviation RetentionRow := (Z * (option Z * (Z * TaskPk)))%type.

Definition pk_compare : TaskPk -> TaskPk -> comparison :=
  pair_compare (pair_compare bytes_compare bytes_compare) bytes_compare.

Definition retention_compare : RetentionRow -> RetentionRow -> comparison :=
  pair_compare Z.compare
    (pair_compare (option_compare Z.compare) (pair_compare Z.compare pk_compare)).

Definition retention_row (now : Z) (entry : TaskPk * TaskRow) : option RetentionRow :=
  let '(pk, row) := entry in
  let due kind deadline :=
    d ← deadline;
    if d <=? now then Some (d, (trow_terminal_at row, (kind, pk))) else None in
  if trow_content_pruned row =? 0 then due 1 (trow_content_expires_at row)
  else if trow_content_pruned row =? 1 then due 2 (trow_tombstone_expires_at row)
  else None.

Definition next_retention_candidate (db : A2ADb) (now : Z)
    : result A2ATaskStoreError (option RetentionCandidate) :=
  now ← to_sql now;
  match head (sort_by id retention_compare
                (omap (retention_row now) (map_to_list (a2a_task db)))) with
  | None => Ok None
  | Some (_, (_, (kind, (agent, tenant, task)))) =>
      key ← task_key_from_storage agent tenant task;
      kind ← match kind with
             | 1 => Ok Payload
             | 2 => Ok Tombstone
             | _ => Err CorruptData
             end;
      Ok (Some (mk_RetentionCandidate key kind))
  end.

Definition delete_payloads (db : A2ADb) (key : A2ATaskKey) : A2ADb :=
  mk_A2ADb (a2a_context db) (a2a_task db) (a2a_task_status db)
    (filter (fun r => mrow_task r ≠ task_pk key) (a2a_task_message db))
    (filter (fun r => artrow_task r ≠ task_pk key) (a2a_task_artifact db)).

Definition set_pruned (row : TaskRow) : TaskRow :=
  mk_TaskRow (trow_context_id row) (trow_source_message_id row) (trow_conversation_id row)
    (trow_target_device_id row) (trow_request_message_id row) (trow_identity_digest row)
    (trow_return_immediately row) (trow_history_length row) (trow_state row) (trow_generation row)
    (trow_created_at row) (trow_updated_at row) (trow_terminal_at row) (trow_terminal_reason row)
    1 (trow_content_expires_at row) (trow_tombstone_expires_at row) (trow_request_text_digest row).

(** [UPDATE a2a_task SET content_pruned = 1]; the row must exist. *)
Definition mark_pruned (db : A2ADb) (key : A2ATaskKey) : result A2ATaskStoreError A2ADb :=
  row ← ok_or (a2a_task db !! task_pk key) CorruptData;
  Ok (mk_A2ADb (a2a_context db) (<[task_pk key := set_pruned row]> (a2a_task db))
        (a2a_task_status db) (a2a_task_message db) (a2a_task_artifact db)).

(** [DELETE FROM a2a_task], with [ON DELETE CASCADE]; the row must exist. *)
Definition delete_task (db : A2ADb) (key : A2ATaskKey) : result A2ATaskStoreError A2ADb :=
  ok_or (a2a_task db !! task_pk key) CorruptData;;
  Ok (mk_A2ADb (a2a_context db) (delete (task_pk key) (a2a_task db))
        (filter (fun r => srow_task r ≠ task_pk key) (a2a_task_status db))
        (filter (fun r => mrow_task r ≠ task_pk key) (a2a_task_message db))
        (filter (fun r => artrow_task r ≠ task_pk key) (a2a_task_artifact db))).

(** [DELETE FROM a2a_context WHERE NOT EXISTS ..]. *)
Definition context_used (tasks : gmap TaskPk TaskRow) (pk : ContextPk) : bool :=
  existsb (fun entry => bool_decide (row_context_pk entry.1 entry.2 = pk)) (map_to_list tasks).

Definition delete_orphan_contexts (db : A2ADb) : A2ADb :=
  mk_A2ADb (filter (fun entry => context_used (a2a_task db) entry.1 = true) (a2a_context db))
    (a2a_task db) (a2a_task_status db) (a2a_task_message db) (a2a_task_artifact db).

(** The loop [for _ in 0..config.max_prune_batch]. *)
Fixpoint prune_loop (rounds : nat) (db : A2ADb) (now : Z) (outcome : A2ATaskPruneOutcome)
    : result A2ATaskStoreError (A2ATaskPruneOutcome * A2ADb) :=
  match rounds with
  | O => Ok (outcome, db)
  | S rounds =>
      candidate ← next_retention_candidate db now;
      match candidate with
      | None => Ok (outcome, db)
      | Some candidate =>
          match candidate_kind candidate with
          | Payload =>
              db ← mark_pruned (delete_payloads db (candidate_key candidate))
                     (candidate_key candidate);
              prune_loop rounds db now
                (mk_A2ATaskPruneOutcome (pruned_task_payloads outcome + 1)
                   (removed_tombstones outcome))
          | Tombstone =>
              db ← delete_task db (candidate_key candidate);
              prune_loop rounds db now
                (mk_A2ATaskPruneOutcome (pruned_task_payloads outcome)
                   (removed_tombstones outcome + 1))
          end
      end
  end.

Definition prune_in (db : A2ADb) (now : Z)
    : result A2ATaskStoreError (A2ATaskPruneOutcome * A2ADb) :=
  '(outcome, db) ← prune_loop (Z.to_nat (max_prune_batch config)) db now
                     (mk_A2ATaskPruneOutcome 0 0);
  Ok (outcome, delete_orphan_contexts db).

Definition prune (db : A2ADb) (now : Z) : result A2ATaskStoreError A2ATaskPruneOutcome * A2ADb :=
  transact db (prune_in db now).

(** ** Creation *)

Definition ensure_context_binding (db : A2ADb) (c : A2ATaskCreation)
    : result A2ATaskStoreError A2ADb :=
  let pk := context_pk (creation_key c) (as_str (creation_context_id c)) in
  match a2a_context db !! pk with
  | Some row =>
      fail_if (bool_decide (crow_conversation_id row ≠ creation_conversation_id c)
               || bool_decide (crow_target_device_id row ≠ creation_target_device_id c)) Conflict;;
      Ok db
  | None =>
      fail_if (context_used (a2a_task db) pk) CorruptData;;
      fail_if (max_tasks config <=? Z.of_nat (size (a2a_context db))) CapacityExceeded;;
      created_at ← to_sql (creation_created_at c);
      Ok (mk_A2ADb (<[pk := mk_ContextRow (creation_conversation_id c)
                              (creation_target_device_id c) created_at]> (a2a_context db))
            (a2a_task db) (a2a_task_status db) (a2a_task_message db) (a2a_task_artifact db))
  end.

(** [INSERT INTO a2a_task]. *)
Definition insert_task (db : A2ADb) (c : A2ATaskCreation) : result A2ATaskStoreError A2ADb :=
  created_at ← to_sql (creation_created_at c);
  let pk := task_pk (creation_key c) in
  let row := mk_TaskRow (as_str (creation_context_id c)) (as_str (creation_source_message_id c))
               (creation_conversation_id c) (creation_target_device_id c)
               (creation_request_message_id c) (creation_identity_digest c)
               (bool_sql (creation_return_immediately c)) (creation_history_length c) 1 0
               created_at created_at None None 0 None None (creation_request_text_digest c) in
  constraint ((len (trow_identity_digest row) =? 32) && (len (trow_request_text_digest row) =? 32))
    Storage;;
  constraint (is_none (a2a_task db !! pk)) Conflict;;
  constraint (is_some (a2a_context db !! row_context_pk pk row)) Storage;;
  Ok (mk_A2ADb (a2a_context db) (<[pk := row]> (a2a_task db)) (a2a_task_status db)
        (a2a_task_message db) (a2a_task_artifact db)).

Definition create_task (db : A2ADb) (c : A2ATaskCreation)
    : result A2ATaskStoreError CreateA2ATaskOutcome * A2ADb :=
  let identity_digest := creation_identity_digest c in
  transact db (
    initial_message ← A2ATaskMessage_new (creation_key c) (creation_source_message_id c) User
                        (creation_request_text c) (creation_created_at c);
    '(_, db) ← prune_in db (creation_created_at c);
    db ← ensure_context_binding db c;
    existing ← load_task_optional db (creation_key c);
    match existing with
    | Some existing =>
        if bool_decide (record_identity_digest existing = identity_digest)
        then Ok (TaskExisting existing, db)
        else Err Conflict
    | None =>
        require_task_capacity db;;
        require_payload_capacity db (len (message_text initial_message));;
        db ← insert_task db c;
        db ← insert_status db (creation_key c) 0 Submitted None (creation_created_at c);
        db ← insert_message db initial_message 1;
        task ← load_task db (creation_key c);
        Ok (TaskCreated task, db)
    end).

Definition get_task (db : A2ADb) (key : A2ATaskKey) : result A2ATaskStoreError A2ATaskRecord :=
  load_task db key.

(** ** Transitions *)

(** [UPDATE a2a_task .. WHERE .. AND generation = ?11]: the number of changed rows is
    one or none. *)
Definition update_task (db : A2ADb) (key : A2ATaskKey) (s : A2ATaskState)
    (generation updated_at : Z) (terminal_at : option Z) (reason : option A2ATerminalReason)
    (content_expires_at tombstone_expires_at : option Z) (expected_generation : Z)
    : option A2ADb :=
  row ← a2a_task db !! task_pk key;
  if trow_generation row =? expected_generation then
    Some (mk_A2ADb (a2a_context db)
      (<[task_pk key := mk_TaskRow (trow_context_id row) (trow_source_message_id row)
           (trow_conversation_id row) (trow_target_device_id row) (trow_request_message_id row)
           (trow_identity_digest row) (trow_return_immediately row) (trow_history_length row)
           (state_code s) generation (trow_created_at row) updated_at terminal_at
           (reason_str <$> reason) (trow_content_pruned row) content_expires_at
           tombstone_expires_at (trow_request_text_digest row)]> (a2a_task db))
      (a2a_task_status db) (a2a_task_message db) (a2a_task_artifact db))
  else None.

Definition transition_deadlines (t : A2ATaskTransition)
    : result A2ATaskStoreError (option Z * option Z * option Z) :=
  if a2a_task_state_is_terminal (transition_state t) then
    let terminal_at := transition_occurred_at t in
    content ← ok_or (checked_add U64_MAX terminal_at (content_retention_milliseconds config))
                InvalidConfiguration;
    tombstone ← ok_or (checked_add U64_MAX terminal_at (idempotency_retention_milliseconds config))
                  InvalidConfiguration;
    Ok (Some terminal_at, Some content, Some tombstone)
  else Ok (None, None, None).

Definition transition_task (db : A2ADb) (t : A2ATaskTransition)
    : result A2ATaskStoreError TransitionA2ATaskOutcome * A2ADb :=
  transact db (
    current ← load_task db (transition_key t);
    plan ← plan_a2a_task_transition current t;
    if bool_decide (plan = Existing) then Ok (TransitionExisting current, db)
    else
      (if bool_decide (plan = RequireCompletionEvidence)
       then validate_completion_evidence plan (has_completion_evidence db (record_key current))
       else Ok tt);;
      generation ← ok_or (checked_add U64_MAX (record_generation current) 1) CorruptData;
      '(terminal_at, content_expires_at, tombstone_expires_at) ← transition_deadlines t;
      generation_sql ← to_sql generation;
      updated_at ← to_sql (transition_occurred_at t);
      terminal_at ← opt_traverse to_sql terminal_at;
      content_expires_at ← opt_traverse to_sql content_expires_at;
      tombstone_expires_at ← opt_traverse to_sql tombstone_expires_at;
      current_generation ← to_sql (record_generation current);
      db ← ok_or (update_task db (transition_key t) (transition_state t) generation_sql updated_at
                    terminal_at (transition_terminal_reason t) content_expires_at
                    tombstone_expires_at current_generation) Conflict;
      db ← insert_status db (transition_key t) generation (transition_state t)
             (transition_terminal_reason t) (transition_occurred_at t);
      task ← load_task db (transition_key t);
      Ok (TransitionApplied task, db)).

(** ** Messages and artifacts *)

Definition append_message (db : A2ADb) (message : A2ATaskMessage) (now : Z)
    : result A2ATaskStoreError AppendA2ATaskRecordOutcome * A2ADb :=
  let digest := message_identity_digest message in
  transact db (
    '(_, db) ← prune_in db now;
    task ← load_task db (message_key message);
    existing ← existing_message db (message_key message) (message_id message);
    match existing with
    | Some (sequence, existing_digest) =>
        if bool_decide (existing_digest = digest) then Ok (AppendExisting sequence, db)
        else Err Conflict
    | None =>
        fail_if (a2a_task_state_is_terminal (record_state task) || record_content_pruned task)
          InvalidTransition;;
        let count := message_count db (message_key message) in
        fail_if (max_messages_per_task config <=? count) CapacityExceeded;;
        require_payload_capacity db (len (message_text message));;
        sequence ← ok_or (checked_add U64_MAX count 1) CorruptData;
        db ← insert_message db message sequence;
        Ok (Appended sequence, db)
    end).

Definition append_artifact_in_state (db : A2ADb) (artifact : A2ATaskArtifact) (now : Z)
    (require_working : bool) (maximum_artifacts : Z)
    : result A2ATaskStoreError AppendA2ATaskRecordOutcome * A2ADb :=
  transact db (
    fail_if ((maximum_artifacts =? 0) || (MAX_PAGE_SIZE <? maximum_artifacts))
      InvalidConfiguration;;
    let maximum_artifacts := Z.min maximum_artifacts (max_artifacts_per_task config) in
    let digest := artifact_identity_digest artifact in
    '(_, db) ← prune_in db now;
    task ← load_task db (artifact_key artifact);
    existing ← existing_artifact db (artifact_key artifact) (artifact_id artifact);
    match existing with
    | Some (sequence, existing_digest) =>
        if bool_decide (existing_digest = digest) then Ok (AppendExisting sequence, db)
        else Err Conflict
    | None =>
        fail_if (a2a_task_state_is_terminal (record_state task) || record_content_pruned task
                 || (require_working && bool_decide (record_state task ≠ Working)))
          InvalidTransition;;
        let count := artifact_count db (artifact_key artifact) in
        fail_if (maximum_artifacts <=? count) CapacityExceeded;;
        require_payload_capacity db (len (artifact_canonical_bytes artifact));;
        sequence ← ok_or (checked_add U64_MAX count 1) CorruptData;
        db ← insert_artifact db artifact sequence;
        Ok (Appended sequence, db)
    end).

Definition append_artifact (db : A2ADb) (artifact : A2ATaskArtifact) (now : Z)
    : result A2ATaskStoreError AppendA2ATaskRecordOutcome * A2ADb :=
  append_artifact_in_state db artifact now false (max_artifacts_per_task config).

Definition append_working_artifact (db : A2ADb) (artifact : A2ATaskArtifact) (now : Z)
    (maximum_artifacts : Z) : result A2ATaskStoreError AppendA2ATaskRecordOutcome * A2ADb :=
  append_artifact_in_state db artifact now true maximum_artifacts.

(** ** Reading *)

Definition status_updates (db : A2ADb) (key : A2ATaskKey) (after_generation : Z)
    : result A2ATaskStoreError (list StoredA2ATaskStatus) :=
  task ← load_task db key;
  fail_if (record_generation task <? after_generation) CorruptData;;
  load_status_updates db key after_generation.

Definition messages (db : A2ADb) (key : A2ATaskKey) (limit : Z)
    : result A2ATaskStoreError (list StoredA2ATaskMessage) :=
  validate_page_limit limit (max_messages_per_task config);;
  task ← load_task db key;
  if record_content_pruned task then Ok [] else load_messages db key limit.

Definition task_with_messages (db : A2ADb) (key : A2ATaskKey) (limit : Z)
    : result A2ATaskStoreError (A2ATaskRecord * list StoredA2ATaskMessage) :=
  validate_page_limit limit (max_messages_per_task config);;
  task ← load_task db key;
  messages ← (if record_content_pruned task then Ok [] else load_messages db key limit);
  Ok (task, messages).

Definition task_snapshot (db : A2ADb) (key : A2ATaskKey) (message_limit artifact_limit : Z)
    : result A2ATaskStoreError A2ATaskSnapshot :=
  validate_page_limit message_limit (max_messages_per_task config);;
  artifact_limit ← validate_artifact_read_limit artifact_limit (max_artifacts_per_task config);
  task ← load_task db key;
  if record_content_pruned task then Ok (A2ATaskSnapshot_new task [] [])
  else
    messages ← load_messages db key message_limit;
    artifacts ← load_artifacts db key artifact_limit;
    Ok (A2ATaskSnapshot_new task messages artifacts).

Definition stream_updates (db : A2ADb) (key : A2ATaskKey)
    (after_generation after_artifact_sequence message_limit artifact_limit : Z)
    : result A2ATaskStoreError A2ATaskStreamUpdates :=
  validate_page_limit message_limit (max_messages_per_task config);;
  artifact_limit ← validate_artifact_read_limit artifact_limit (max_artifacts_per_task config);
  task ← load_task db key;
  fail_if (record_generation task <? after_generation) CorruptData;;
  statuses ← load_status_updates db key after_generation;
  if record_content_pruned task then
    fail_if (negb (after_artifact_sequence =? 0)) CorruptData;;
    Ok (A2ATaskStreamUpdates_new task statuses [] [])
  else
    fail_if (artifact_count db key <? after_artifact_sequence) CorruptData;;
    artifacts ← load_artifacts_after db key after_artifact_sequence artifact_limit;
    messages ← load_messages db key message_limit;
    Ok (A2ATaskStreamUpdates_new task statuses artifacts messages).

Definition artifacts (db : A2ADb) (key : A2ATaskKey) (limit : Z)
    : result A2ATaskStoreError (list StoredA2ATaskArtifact) :=
  validate_page_limit limit (max_artifacts_per_task config);;
  task ← load_task db key;
  if record_content_pruned task then Ok [] else load_artifacts db key limit.

(** ** Listing *)

Definition query_key (query : A2ATaskListQuery) (id : A2ATaskId) : A2ATaskKey :=
  A2ATaskKey_new (query_agent_id query) (query_tenant query) id.

(** [WHERE agent_id = ?1 AND tenant_id = ?2 AND context_id = ?3 AND content_pruned = 0]. *)
Definition in_scope (query : A2ATaskListQuery) (entry : TaskPk * TaskRow) : bool :=
  bool_decide (entry.1.1.1 = as_str (query_agent_id query))
  && bool_decide (entry.1.1.2 = default [] (as_str <$> query_tenant query))
  && bool_decide (trow_context_id entry.2 = as_str (query_context_id query))
  && (trow_content_pruned entry.2 =? 0).

(** [created_at < ?4 OR (created_at = ?4 AND task_id < ?5)]. *)
Definition before_cursor (created_at : Z) (id : text) (entry : TaskPk * TaskRow) : bool :=
  (trow_created_at entry.2 <? created_at)
  || ((trow_created_at entry.2 =? created_at)
      && bool_decide (bytes_compare entry.1.2 id = Lt)).

(** [ORDER BY created_at_unix_milliseconds DESC, task_id DESC]. *)
Definition list_key (entry : TaskPk * TaskRow) : Z * text := (trow_created_at entry.2, entry.1.2).
Definition list_compare_desc (x y : Z * text) : comparison :=
  pair_compare Z.compare bytes_compare y x.

Definition load_task_page_rows (db : A2ADb) (query : A2ATaskListQuery)
    : result A2ATaskStoreError (list (text * Z)) :=
  limit ← ok_or (checked_add USIZE_MAX (query_page_size query) 1) InvalidConfiguration;
  fail_if (I64_MAX <? limit) InvalidConfiguration;;
  let visible := List.filter (in_scope query) (map_to_list (a2a_task db)) in
  selected ← match query_cursor query with
             | Some cursor =>
                 created_at ← to_sql (cursor_created_at cursor);
                 Ok (List.filter (before_cursor created_at (as_str (cursor_task_id cursor))) visible)
             | None => Ok visible
             end;
  traverse (fun entry => created_at ← from_sql (trow_created_at entry.2); Ok (entry.1.2, created_at))
    (take (Z.to_nat limit) (sort_by list_key list_compare_desc selected)).

Definition load_task_page (db : A2ADb) (query : A2ATaskListQuery)
    : result A2ATaskStoreError (list A2ATaskRecord * option A2ATaskListCursor * Z) :=
  let total_size := len (List.filter (in_scope query) (map_to_list (a2a_task db))) in
  rows ← load_task_page_rows db query;
  let has_more := query_page_size query <? len rows in
  let rows := take (Z.to_nat (query_page_size query)) rows in
  tasks ← traverse (fun row => id ← parse_column KTask row.1; load_task db (query_key query id)) rows;
  let next_cursor :=
    if has_more
    then (fun task => A2ATaskListCursor_new (record_created_at task)
                        (task_id (record_key task))) <$> last tasks
    else None in
  Ok (tasks, next_cursor, total_size).

Definition list_tasks (db : A2ADb) (query : A2ATaskListQuery)
    : result A2ATaskStoreError A2ATaskListPage :=
  validate_list_page_size (query_page_size query);;
  '(tasks, next_cursor, total_size) ← load_task_page db query;
  Ok (A2ATaskListPage_new tasks next_cursor (query_page_size query) total_size).

Definition list_tasks_with_artifacts (db : A2ADb) (query : A2ATaskListQuery) (artifact_limit : Z)
    : result A2ATaskStoreError A2ATaskArtifactListPage :=
  validate_list_page_size (query_page_size query);;
  artifact_limit ← validate_artifact_read_limit artifact_limit (max_artifacts_per_task config);
  '(tasks, next_cursor, total_size) ← load_task_page db query;
  tasks ← traverse (fun task =>
            artifacts ← load_artifacts db (record_key task) artifact_limit;
            Ok (A2ATaskWithArtifacts_new task artifacts)) tasks;
  Ok (A2ATaskArtifactListPage_new tasks next_cursor (query_page_size query) total_size).

(** ** Opening *)

(** [SELECT COALESCE(max(record_count), 0) FROM (.. GROUP BY task)]. *)
Definition max_group {A} (pk : A -> TaskPk) (l : list A) : Z :=
  foldr (fun r acc => Z.max (len (filter (fun r' => pk r' = pk r) l)) acc) 0 l.

Definition invalid_context_relationship (db : A2ADb) : bool :=
  existsb (fun entry => negb (context_used (a2a_task db) entry.1)) (map_to_list (a2a_context db))
  || existsb (fun entry => match a2a_context db !! row_context_pk entry.1 entry.2 with
                           | None => true
                           | Some c =>
                               bool_decide (crow_conversation_id c ≠ trow_conversation_id entry.2)
                               || bool_decide (crow_target_device_id c
                                               ≠ trow_target_device_id entry.2)
                           end) (map_to_list (a2a_task db)).

Definition verify_store_bounds (db : A2ADb) : result A2ATaskStoreError unit :=
  fail_if ((max_tasks config <? Z.of_nat (size (a2a_task db)))
    || (max_tasks config <? Z.of_nat (size (a2a_context db)))
    || (max_messages_per_task config <? max_group mrow_task (a2a_task_message db))
    || (max_artifacts_per_task config <? max_group artrow_task (a2a_task_artifact db))
    || (max_payload_bytes config <? retained_payload_bytes db)) CapacityExceeded;;
  fail_if (invalid_context_relationship db) CorruptData.

End store.
