(* ===== verification/A2AStoreSpec.v ===== *)
(** * What the A2A task store represents

    The abstract state of the store is a map from tasks to their views: immutable
    identity, status history, retention deadlines, and messages and artifacts unless
    they were pruned.  [tasks_represent] relates it to the tables of [A2AStore]; the lemmas
    below show what each query returns on tables that represent a well-formed state. *)

From S2P Require Import Prelude Identifiers A2AContracts A2ATaskModel A2AStore.
Open Scope Z_scope.

(** ** Views *)

Record TaskContent := mk_TaskContent {
  content_messages : list A2ATaskMessage;
  content_artifacts : list A2ATaskArtifact }.

Record TaskView := mk_TaskView {
  view_key : A2ATaskKey;
  view_context_id : A2AContextId;
  view_source_message_id : A2AMessageId;
  view_conversation_id : ConversationId;
  view_target_device_id : DeviceId;
  view_request_message_id : MessageId;
  view_request_text_digest : bytes;
  view_return_immediately : bool;
  view_history_length : option Z;
  view_created_at : Z;
  (** The statuses after submission, oldest first. *)
  view_later : list StoredA2ATaskStatus;
  (** When the content and the tombstone expire, once terminal. *)
  view_deadlines : option (Z * Z);
  (** [None] once the content was pruned. *)
  view_content : option TaskContent }.

Abbreviation task_views := (gmap TaskPk TaskView).

Definition initial_status (v : TaskView) : StoredA2ATaskStatus :=
  StoredA2ATaskStatus_new 0 Submitted None (view_created_at v).

Definition view_statuses (v : TaskView) : list StoredA2ATaskStatus := initial_status v :: view_later v.

Definition current_status (v : TaskView) : StoredA2ATaskStatus :=
  default (initial_status v) (last (view_later v)).

Definition view_state (v : TaskView) : A2ATaskState := status_state (current_status v).
Definition view_terminal (v : TaskView) : bool := a2a_task_state_is_terminal (view_state v).
Definition view_pruned (v : TaskView) : bool := is_none (view_content v).
Definition view_messages (v : TaskView) : list A2ATaskMessage :=
  from_option content_messages [] (view_content v).
Definition view_artifacts (v : TaskView) : list A2ATaskArtifact :=
  from_option content_artifacts [] (view_content v).
Definition view_context_pk (v : TaskView) : ContextPk :=
  context_pk (view_key v) (as_str (view_context_id v)).

Definition view_payload (v : TaskView) : Z :=
  sum_len message_text (view_messages v) + sum_len artifact_canonical_bytes (view_artifacts v).
Definition views_payload (s : task_views) : Z := map_fold (fun _ v total => view_payload v + total) 0 s.
Definition views_contexts (s : task_views) : gset ContextPk :=
  map_to_set (fun _ v => view_context_pk v) s.

(** ** Changes of a view *)

Definition set_content (v : TaskView) (c : option TaskContent) : TaskView :=
  mk_TaskView (view_key v) (view_context_id v) (view_source_message_id v) (view_conversation_id v)
    (view_target_device_id v) (view_request_message_id v) (view_request_text_digest v)
    (view_return_immediately v) (view_history_length v) (view_created_at v) (view_later v)
    (view_deadlines v) c.

Definition prune_content (v : TaskView) : TaskView := set_content v None.

Definition add_message (v : TaskView) (m : A2ATaskMessage) : TaskView :=
  set_content v ((fun c => mk_TaskContent (content_messages c ++ [m]) (content_artifacts c))
                   <$> view_content v).

Definition add_artifact (v : TaskView) (a : A2ATaskArtifact) : TaskView :=
  set_content v ((fun c => mk_TaskContent (content_messages c) (content_artifacts c ++ [a]))
                   <$> view_content v).

Definition add_status (v : TaskView) (t : StoredA2ATaskStatus) (deadlines : option (Z * Z))
    : TaskView :=
  mk_TaskView (view_key v) (view_context_id v) (view_source_message_id v) (view_conversation_id v)
    (view_target_device_id v) (view_request_message_id v) (view_request_text_digest v)
    (view_return_immediately v) (view_history_length v) (view_created_at v) (view_later v ++ [t])
    deadlines (view_content v).

Definition new_view `{Sha256} (c : A2ATaskCreation) : TaskView :=
  mk_TaskView (creation_key c) (creation_context_id c) (creation_source_message_id c)
    (creation_conversation_id c) (creation_target_device_id c) (creation_request_message_id c)
    (creation_request_text_digest c) (creation_return_immediately c) (creation_history_length c)
    (creation_created_at c) [] None
    (Some (mk_TaskContent
             [mk_A2ATaskMessage (creation_key c) (creation_source_message_id c) User
                (creation_request_text c) (creation_created_at c)] [])).

(** ** Well-formed views *)

Section spec.
Context `{Sha256} (config : A2ASqliteTaskStoreConfig).

(** One status follows another. *)
Record status_follows (s t : StoredA2ATaskStatus) : Prop := {
  follows_generation : status_generation t = status_generation s + 1;
  follows_allowed : a2a_task_state_transition_is_allowed (status_state s) (status_state t) = true;
  follows_reason : a2a_task_status_reason_is_valid (status_state t) (status_terminal_reason t) = true;
  follows_time : status_occurred_at s <= status_occurred_at t <= I64_MAX }.

Fixpoint status_path (s : StoredA2ATaskStatus) (later : list StoredA2ATaskStatus) : Prop :=
  match later with
  | [] => True
  | t :: later => status_follows s t ∧ status_path t later
  end.

Record message_ok (key : A2ATaskKey) (m : A2ATaskMessage) : Prop := {
  ok_message_key : message_key m = key;
  ok_message_text : 0 < len (message_text m) <= MAX_A2A_TEXT_BYTES;
  ok_message_time : 0 <= message_recorded_at m <= I64_MAX }.

Record artifact_ok (key : A2ATaskKey) (a : A2ATaskArtifact) : Prop := {
  ok_artifact_key : artifact_key a = key;
  ok_artifact_bytes : 0 < len (artifact_canonical_bytes a) <= MAX_A2A_STORED_ARTIFACT_BYTES;
  ok_artifact_digest : artifact_content_digest a = sha256 (artifact_canonical_bytes a);
  ok_artifact_time : 0 <= artifact_recorded_at a <= I64_MAX }.

(** The request opens the conversation. *)
Definition request_message (v : TaskView) (request : text) : A2ATaskMessage :=
  mk_A2ATaskMessage (view_key v) (view_source_message_id v) User request (view_created_at v).

Record content_ok (v : TaskView) (c : TaskContent) : Prop := {
  ok_request : ∃ request rest, content_messages c = request_message v request :: rest
                 ∧ sha256 request = view_request_text_digest v;
  ok_messages : Forall (message_ok (view_key v)) (content_messages c);
  ok_message_ids : NoDup (message_id <$> content_messages c);
  ok_message_count : len (content_messages c) <= max_messages_per_task config;
  ok_artifacts : Forall (artifact_ok (view_key v)) (content_artifacts c);
  ok_artifact_ids : NoDup (artifact_id <$> content_artifacts c);
  ok_artifact_count : len (content_artifacts c) <= max_artifacts_per_task config }.

Record view_ok (pk : TaskPk) (v : TaskView) : Prop := {
  ok_pk : task_pk (view_key v) = pk;
  ok_request_id : task_request_message_id (task_id (view_key v)) = Some (view_request_message_id v);
  ok_digest : len (view_request_text_digest v) = 32;
  ok_history : ∀ h, view_history_length v = Some h → is_u32 h;
  ok_created : 0 <= view_created_at v <= I64_MAX;
  ok_path : status_path (initial_status v) (view_later v);
  ok_deadlines : if view_terminal v
                 then view_deadlines v
                      = Some (status_occurred_at (current_status v) + content_retention_milliseconds config,
                              status_occurred_at (current_status v) + idempotency_retention_milliseconds config)
                      ∧ status_occurred_at (current_status v) + idempotency_retention_milliseconds config
                        <= I64_MAX
                 else view_deadlines v = None;
  ok_content : ∀ c, view_content v = Some c → content_ok v c;
  ok_pruned : view_content v = None → view_terminal v = true }.

(** The whole store. *)
Record tasks_ok (s : task_views) : Prop := {
  ok_views : ∀ pk v, s !! pk = Some v → view_ok pk v;
  ok_size : Z.of_nat (size s) <= max_tasks config;
  ok_payload : views_payload s <= max_payload_bytes config }.

(** ** Rows *)

Definition view_identity_digest (v : TaskView) : bytes :=
  task_identity_digest (view_key v) (view_context_id v) (view_source_message_id v)
    (view_conversation_id v) (view_target_device_id v) (view_request_message_id v)
    (view_return_immediately v) (view_history_length v) (view_request_text_digest v).

Definition task_row_of (v : TaskView) : TaskRow :=
  let c := current_status v in
  mk_TaskRow (as_str (view_context_id v)) (as_str (view_source_message_id v))
    (view_conversation_id v) (view_target_device_id v) (view_request_message_id v)
    (view_identity_digest v) (bool_sql (view_return_immediately v)) (view_history_length v)
    (state_code (status_state c)) (status_generation c) (view_created_at v) (status_occurred_at c)
    (if view_terminal v then Some (status_occurred_at c) else None)
    (reason_str <$> status_terminal_reason c) (bool_sql (view_pruned v))
    (fst <$> view_deadlines v) (snd <$> view_deadlines v) (view_request_text_digest v).

Definition status_row_of (pk : TaskPk) (s : StoredA2ATaskStatus) : StatusRow :=
  mk_StatusRow pk (status_generation s) (state_code (status_state s))
    (reason_str <$> status_terminal_reason s) (status_occurred_at s).

Definition message_row_of (pk : TaskPk) (i : nat) (m : A2ATaskMessage) : MessageRow :=
  mk_MessageRow pk (Z.of_nat i + 1) (as_str (message_id m)) (role_code (message_sender m))
    (message_text m) (message_identity_digest m) (message_recorded_at m).

Definition artifact_row_of (pk : TaskPk) (i : nat) (a : A2ATaskArtifact) : ArtifactRow :=
  mk_ArtifactRow pk (Z.of_nat i + 1) (as_str (artifact_id a)) (artifact_content_digest a)
    (artifact_canonical_bytes a) (bool_sql (artifact_complete a)) (artifact_identity_digest a)
    (artifact_recorded_at a).

Record tasks_represent (db : A2ADb) (s : task_views) : Prop := {
  rep_tasks : a2a_task db = task_row_of <$> s;
  rep_statuses : ∀ pk, statuses_for db pk
                 = from_option (fun v => status_row_of pk <$> view_statuses v) [] (s !! pk);
  rep_messages : ∀ pk, messages_for db pk
                 = from_option (fun v => imap (message_row_of pk) (view_messages v)) [] (s !! pk);
  rep_artifacts : ∀ pk, artifacts_for db pk
                  = from_option (fun v => imap (artifact_row_of pk) (view_artifacts v)) [] (s !! pk);
  rep_payload : retained_payload_bytes db = views_payload s;
  rep_bindings : ∀ pk v, s !! pk = Some v → ∃ row, a2a_context db !! view_context_pk v = Some row
                 ∧ crow_conversation_id row = view_conversation_id v
                 ∧ crow_target_device_id row = view_target_device_id v }.

(** Between operations every context has a task. *)
Definition store_represents (db : A2ADb) (s : task_views) : Prop :=
  tasks_represent db s ∧ dom (a2a_context db) = views_contexts s.

(** What a reader sees of a task. *)
Definition record_of (v : TaskView) : A2ATaskRecord :=
  let c := current_status v in
  A2ATaskRecord_new (view_key v) (view_context_id v) (view_source_message_id v)
    (view_conversation_id v) (view_target_device_id v) (view_request_message_id v)
    (view_identity_digest v) (view_request_text_digest v)
    (message_text <$> head (view_messages v)) (view_return_immediately v) (view_history_length v)
    (status_state c) (status_generation c) (view_created_at v) (status_occurred_at c)
    (if view_terminal v then Some (status_occurred_at c) else None)
    (status_terminal_reason c) (view_pruned v).

(** ** Operations on the abstract state

    What each write of the store is meant to do, once retention has been applied. *)

Definition creation_context_pk (c : A2ATaskCreation) : ContextPk :=
  context_pk (creation_key c) (as_str (creation_context_id c)).

(** A task of the same context goes to another conversation or device. *)
Definition bound_elsewhere (s : task_views) (c : A2ATaskCreation) : Prop :=
  map_Exists (fun _ v => view_context_pk v = creation_context_pk c
                         ∧ (view_conversation_id v ≠ creation_conversation_id c
                            ∨ view_target_device_id v ≠ creation_target_device_id c)) s.

Definition create_spec (s : task_views) (c : A2ATaskCreation)
    : result A2ATaskStoreError (CreateA2ATaskOutcome * task_views) :=
  fail_if (bool_decide (bound_elsewhere s c)) Conflict;;
  fail_if (bool_decide (creation_context_pk c ∉ views_contexts s)
           && (max_tasks config <=? Z.of_nat (size (views_contexts s)))) CapacityExceeded;;
  match s !! task_pk (creation_key c) with
  | Some v =>
      if bool_decide (view_identity_digest v = creation_identity_digest c)
      then Ok (TaskExisting (record_of v), s) else Err Conflict
  | None =>
      fail_if (max_tasks config <=? Z.of_nat (size s)) CapacityExceeded;;
      fail_if (max_payload_bytes config <? views_payload s + len (creation_request_text c))
        CapacityExceeded;;
      Ok (TaskCreated (record_of (new_view c)), <[task_pk (creation_key c) := new_view c]> s)
  end.

Definition status_of_transition (v : TaskView) (t : A2ATaskTransition) : StoredA2ATaskStatus :=
  StoredA2ATaskStatus_new (status_generation (current_status v) + 1) (transition_state t)
    (transition_terminal_reason t) (transition_occurred_at t).

(** An Agent message or a complete artifact. *)
Definition view_evidence (v : TaskView) : bool :=
  existsb (fun m => bool_decide (message_sender m = Agent)) (view_messages v)
  || existsb artifact_complete (view_artifacts v).

(** The retention deadlines a status sets. *)
Definition status_deadlines (t : StoredA2ATaskStatus) : option (Z * Z) :=
  if a2a_task_state_is_terminal (status_state t)
  then Some (status_occurred_at t + content_retention_milliseconds config,
             status_occurred_at t + idempotency_retention_milliseconds config)
  else None.

(** The last time a terminal status can have, so that its deadlines can be stored. *)
Definition transition_time_fits (t : A2ATaskTransition) : bool :=
  if a2a_task_state_is_terminal (transition_state t)
  then transition_occurred_at t + idempotency_retention_milliseconds config <=? I64_MAX
  else transition_occurred_at t <=? I64_MAX.

Definition transition_spec (s : task_views) (t : A2ATaskTransition)
    : result A2ATaskStoreError (TransitionA2ATaskOutcome * task_views) :=
  v ← ok_or (s !! task_pk (transition_key t)) NotFound;
  let c := current_status v in
  if bool_decide (status_generation c ≠ transition_expected_generation t) then
    if (transition_expected_generation t + 1 =? status_generation c)
       && bool_decide (status_state c = transition_state t)
       && bool_decide (reason_str <$> status_terminal_reason c
                       = reason_str <$> transition_terminal_reason t)
    then Ok (TransitionExisting (record_of v), s) else Err Conflict
  else
    fail_if (negb (a2a_task_state_transition_is_allowed (status_state c) (transition_state t))
             || negb (a2a_task_status_reason_is_valid (transition_state t)
                        (transition_terminal_reason t))
             || (transition_occurred_at t <? status_occurred_at c)
             || (bool_decide (transition_state t = Completed) && negb (view_evidence v)))
      InvalidTransition;;
    fail_if (negb (transition_time_fits t)) InvalidConfiguration;;
    let status := status_of_transition v t in
    let v' := add_status v status (status_deadlines status) in
    Ok (TransitionApplied (record_of v'), <[task_pk (transition_key t) := v']> s).

Definition message_spec (s : task_views) (m : A2ATaskMessage)
    : result A2ATaskStoreError (AppendA2ATaskRecordOutcome * task_views) :=
  v ← ok_or (s !! task_pk (message_key m)) NotFound;
  match list_find (fun m' => message_id m' = message_id m) (view_messages v) with
  | Some (i, m') =>
      if bool_decide (message_identity_digest m' = message_identity_digest m)
      then Ok (AppendExisting (Z.of_nat i + 1), s) else Err Conflict
  | None =>
      fail_if (view_terminal v) InvalidTransition;;
      fail_if (max_messages_per_task config <=? len (view_messages v)) CapacityExceeded;;
      fail_if (max_payload_bytes config <? views_payload s + len (message_text m)) CapacityExceeded;;
      fail_if (I64_MAX <? message_recorded_at m) InvalidConfiguration;;
      Ok (Appended (len (view_messages v) + 1), <[task_pk (message_key m) := add_message v m]> s)
  end.

Definition artifact_spec (s : task_views) (a : A2ATaskArtifact) (require_working : bool)
    (maximum_artifacts : Z) : result A2ATaskStoreError (AppendA2ATaskRecordOutcome * task_views) :=
  v ← ok_or (s !! task_pk (artifact_key a)) NotFound;
  match list_find (fun a' => artifact_id a' = artifact_id a) (view_artifacts v) with
  | Some (i, a') =>
      if bool_decide (artifact_identity_digest a' = artifact_identity_digest a)
      then Ok (AppendExisting (Z.of_nat i + 1), s) else Err Conflict
  | None =>
      fail_if (view_terminal v || (require_working && bool_decide (view_state v ≠ Working)))
        InvalidTransition;;
      fail_if (Z.min maximum_artifacts (max_artifacts_per_task config) <=? len (view_artifacts v))
        CapacityExceeded;;
      fail_if (max_payload_bytes config <? views_payload s + len (artifact_canonical_bytes a))
        CapacityExceeded;;
      fail_if (I64_MAX <? artifact_recorded_at a) InvalidConfiguration;;
      Ok (Appended (len (view_artifacts v) + 1), <[task_pk (artifact_key a) := add_artifact v a]> s)
  end.

(** ** Encodings *)

Lemma state_code_roundtrip s : state_from_code (state_code s) = Ok s.
Proof. by destruct s. Qed.

Lemma role_code_roundtrip r : role_from_code (role_code r) = Ok r.
Proof. by destruct r. Qed.

Lemma parse_bool_sql b : parse_bool (bool_sql b) = Ok b.
Proof. by destruct b. Qed.

Lemma to_sql_fits n : n <= I64_MAX → to_sql n = Ok n.
Proof. unfold to_sql. intros. by destruct (Z.leb_spec n I64_MAX); [|lia]. Qed.

Lemma to_sql_Ok n m : to_sql n = Ok m ↔ m = n ∧ n <= I64_MAX.
Proof. unfold to_sql. destruct (Z.leb_spec n I64_MAX); naive_solver lia. Qed.

Lemma from_sql_nonneg n : 0 <= n → from_sql n = Ok n.
Proof. unfold from_sql. intros. by destruct (Z.leb_spec 0 n); [|lia]. Qed.

Lemma reason_str_inj (x y : A2ATerminalReason) : reason_str x = reason_str y → x = y.
Proof.
  destruct x as [xs Hx], y as [ys Hy]. simpl. intros ->. f_equal.
  apply Eqdep_dec.UIP_dec, bool_dec.
Qed.

Lemma reason_fmap_inj (x y : option A2ATerminalReason) :
  reason_str <$> x = reason_str <$> y → x = y.
Proof. destruct x, y; simpl; try done. intros [= E]. by rewrite (reason_str_inj _ _ E). Qed.

Lemma reason_sql_roundtrip r : reason_from_sql (reason_str <$> r) = Ok r.
Proof.
  destruct r as [r|]; [|done]. unfold reason_from_sql, A2ATerminalReason_parse. simpl.
  destruct (bool_dec _ _) as [E|E]; [|exfalso; apply E, reason_valid].
  simpl. do 2 f_equal. by apply reason_str_inj.
Qed.

Lemma parse_column_as_str {k} (x : A2AId k) : parse_column k (as_str x) = Ok x.
Proof. unfold parse_column. by rewrite A2AId_parse_as_str. Qed.

Lemma task_pk_inj key key' : task_pk key = task_pk key' → key = key'.
Proof.
  destruct key as [a t i], key' as [a' t' i']. unfold task_pk, tenant_value. simpl.
  intros [= Ha%as_str_inj Ht%tenant_str_inj Hi%as_str_inj]. congruence.
Qed.

Lemma task_key_roundtrip key :
  task_key_from_storage (as_str (agent_id key)) (tenant_value key) (as_str (task_id key)) = Ok key.
Proof.
  destruct key as [a t i]. unfold task_key_from_storage, tenant_value. simpl.
  rewrite parse_column_as_str. simpl. destruct t as [t|]; simpl.
  - destruct (Z.eqb_spec (len (as_str t)) 0) as [E|_]; [pose proof (as_str_length t); lia|].
    by rewrite !parse_column_as_str.
  - by rewrite parse_column_as_str.
Qed.

(** ** Status paths *)

Lemma status_path_snoc s l t :
  status_path s (l ++ [t]) ↔ status_path s l ∧ status_follows (default s (last l)) t.
Proof.
  revert s. induction l as [|a l IH]; intros s; simpl; [tauto|].
  rewrite IH, last_cons. destruct (last l); simpl; tauto.
Qed.

Lemma status_path_facts s l :
  status_path s l →
  status_generation (default s (last l)) = status_generation s + len l
  ∧ status_occurred_at s <= status_occurred_at (default s (last l))
  ∧ Forall (λ t, status_generation s < status_generation t ∧ status_occurred_at s <= status_occurred_at t
              ∧ status_occurred_at t <= I64_MAX
              ∧ a2a_task_status_reason_is_valid (status_state t) (status_terminal_reason t) = true) l
  ∧ StronglySorted (key_lt status_generation Z.compare) l.
Proof.
  revert s. induction l as [|t l IH]; intros s; simpl.
  { intros _. unfold len. simpl. repeat split; try lia; constructor. }
  intros [[Hg Ha Hr Ht] Hp]. destruct (IH t Hp) as (Hgen & Htime & Hall & Hsort).
  rewrite last_cons.
  replace (default s (match last l with Some y => Some y | None => Some t end))
    with (default t (last l)) by (by destruct (last l)).
  rewrite Hgen, Hg. unfold len in *. simpl length. rewrite Nat2Z.inj_succ.
  split; [lia|]. split; [lia|]. split.
  - constructor; [split; [lia|]; split; [lia|]; split; [lia|done]|].
    eapply Forall_impl; [exact Hall|]. simpl. intros u (? & ? & ? & ?). repeat split; try lia; done.
  - constructor; [done|]. eapply Forall_impl; [exact Hall|]. simpl. intros u (? & _).
    unfold key_lt. apply Z.compare_lt_iff. lia.
Qed.

Lemma status_path_terminal s l :
  a2a_task_state_is_terminal (status_state s) = true → status_path s l → l = [].
Proof. destruct l as [|t l]; [done|]. simpl. intros Hs [[_ Ha _ _] _]. by destruct (status_state s). Qed.

Lemma status_path_short s l : status_state s = Submitted → status_path s l → len l <= 2.
Proof.
  intros Hs Hp. destruct l as [|t [|u [|w l]]]; unfold len; simpl; try lia. exfalso.
  destruct Hp as ([_ H1 _ _] & [_ H2 _ _] & [_ H3 _ _] & _). rewrite Hs in H1.
  destruct (status_state t), (status_state u), (status_state w); done.
Qed.

Lemma check_statuses_path created index s l :
  status_path s l → index = status_generation s + 1 → 0 < index →
  check_statuses created index (Some (status_state s)) (status_occurred_at s) l = Ok tt.
Proof.
  revert index s. induction l as [|t l IH]; intros index s; simpl; [done|].
  intros [[Hg Ha Hr Ht] Hp] -> Hpos.
  pass_guard by (rewrite Hg, Hr, Ha, Z.eqb_refl; simpl;
    destruct (Z.ltb_spec (status_occurred_at t) (status_occurred_at s)); [lia|];
    destruct (Z.eqb_spec (status_generation s + 1) 0); [lia|done]).
  apply IH; [done|lia..].
Qed.

(** ** Reading a represented store *)

Lemma status_row_roundtrip pk t :
  0 <= status_generation t → 0 <= status_occurred_at t →
  status_of_row (status_row_of pk t) = Ok t.
Proof.
  intros Hg Ho. unfold status_of_row. simpl.
  rewrite (from_sql_nonneg _ Hg), state_code_roundtrip, reason_sql_roundtrip, (from_sql_nonneg _ Ho).
  by destruct t.
Qed.

Lemma view_statuses_facts pk v :
  view_ok pk v →
  Forall (λ t, 0 <= status_generation t ∧ 0 <= status_occurred_at t
            ∧ a2a_task_status_reason_is_valid (status_state t) (status_terminal_reason t) = true)
    (view_statuses v)
  ∧ StronglySorted (key_lt status_generation Z.compare) (view_statuses v)
  ∧ len (view_statuses v) = status_generation (current_status v) + 1
  ∧ len (view_statuses v) <= 3
  ∧ view_created_at v <= status_occurred_at (current_status v).
Proof.
  intros Hv. pose proof (ok_created _ _ Hv) as Hc. pose proof (ok_path _ _ Hv) as Hp.
  destruct (status_path_facts _ _ Hp) as (Hgen & Htime & Hall & Hsort).
  pose proof (status_path_short (initial_status v) _ eq_refl Hp) as Hshort.
  unfold view_statuses, current_status. rewrite Hgen. simpl in *.
  split; [constructor; [simpl; split; [lia|]; split; [lia|done]|]|].
  { eapply Forall_impl; [exact Hall|]. simpl. intros t (? & ? & ? & ?). repeat split; try lia; done. }
  split; [constructor; [done|]|].
  { eapply Forall_impl; [exact Hall|]. simpl. intros t (? & _).
    unfold key_lt. by apply Z.compare_lt_iff. }
  unfold len in *. simpl. split; [lia|]. split; [lia|done].
Qed.

Lemma last_view_statuses v : last (view_statuses v) = Some (current_status v).
Proof. unfold view_statuses, current_status. rewrite last_cons. by destruct (last (view_later v)). Qed.

Lemma sorted_fmap_rows pk l :
  StronglySorted (key_lt status_generation Z.compare) l →
  StronglySorted (key_lt srow_generation Z.compare) (status_row_of pk <$> l).
Proof.
  induction 1 as [|t l Hl IH Ht]; simpl; constructor; [done|].
  rewrite Forall_fmap. eapply Forall_impl; [exact Ht|]. done.
Qed.

Lemma traverse_status_rows pk l :
  Forall (λ t, 0 <= status_generation t ∧ 0 <= status_occurred_at t
            ∧ a2a_task_status_reason_is_valid (status_state t) (status_terminal_reason t) = true) l →
  traverse status_of_row (status_row_of pk <$> l) = Ok l.
Proof.
  induction 1 as [|t l (Hg & Ho & _) _ IH]; [done|]. cbn [fmap list_fmap traverse].
  rewrite status_row_roundtrip by done. simpl. rewrite IH. done.
Qed.

Lemma check_view_statuses pk v :
  view_ok pk v → check_statuses (view_created_at v) 0 None 0 (view_statuses v) = Ok tt.
Proof.
  intros Hv. unfold view_statuses. cbn [check_statuses].
  pass_guard by (simpl; pose proof (ok_created _ _ Hv);
    destruct (Z.ltb_spec (view_created_at v) 0); [lia|by rewrite Z.eqb_refl]).
  apply (check_statuses_path _ _ (initial_status v)); [apply (ok_path _ _ Hv)|done..].
Qed.

Lemma verify_status_history_ok db s pk v :
  tasks_represent db s → s !! pk = Some v → view_ok pk v →
  verify_status_history db (record_of v) = Ok tt.
Proof.
  intros Hrep Hs Hv. unfold verify_status_history. simpl.
  rewrite (ok_pk _ _ Hv), (rep_statuses _ _ Hrep), Hs. cbn [from_option].
  destruct (view_statuses_facts pk v Hv) as (Hall & Hsort & Hlen & Hshort & Htime).
  rewrite (sort_by_id srow_generation Z.compare) by (by apply sorted_fmap_rows).
  rewrite take_ge by (rewrite length_fmap; unfold len in *; lia).
  rewrite traverse_status_rows by done. cbn [mbind result_bind].
  unfold validate_a2a_task_status_history. cbn [record_of record_generation].
  rewrite checked_add_fits by (unfold U64_MAX, len in *; lia). cbn [ok_or mbind result_bind].
  pass_guard by (rewrite Hlen, Z.eqb_refl; unfold len in *; simpl in *;
    destruct (Z.eqb_spec (status_generation (current_status v) + 1) 0);
    destruct (Z.ltb_spec 3 (status_generation (current_status v) + 1)); simpl; lia).
  change (record_created_at _) with (view_created_at v). rewrite (check_view_statuses pk) by done. cbn [mbind result_bind].
  rewrite last_view_statuses. cbn [ok_or mbind result_bind].
  apply fail_if_pass. simpl. rewrite !Z.eqb_refl, !bool_decide_neq_false by done. done.
Qed.

Lemma message_row_roundtrip key i m :
  message_ok key m → message_of_row key (message_row_of (task_pk key) i m) = Ok m.
Proof.
  intros [<- Ht Hr]. unfold message_of_row. simpl.
  rewrite parse_column_as_str, role_code_roundtrip, (from_sql_nonneg _ (proj1 Hr)).
  cbn [mbind result_bind]. unfold A2ATaskMessage_new.
  pass_guard by (apply orb_false_iff; split; [apply Z.eqb_neq|apply Z.ltb_ge]; lia).
  cbn [map_err mbind result_bind].
  pass_guard by (by apply bool_decide_neq_false; destruct m). by destruct m.
Qed.

Lemma view_content_request pk v c :
  view_ok pk v → view_content v = Some c →
  ∃ request rest, view_messages v = request_message v request :: rest
    ∧ sha256 request = view_request_text_digest v
    ∧ message_ok (view_key v) (request_message v request).
Proof.
  intros Hv Hc. destruct (ok_content _ _ Hv c Hc) as [(request & rest & Hm & Hd) Hall _ _ _ _ _].
  exists request, rest. unfold view_messages. rewrite Hc. simpl. split; [done|]. split; [done|].
  rewrite Hm in Hall. by inversion Hall.
Qed.

Lemma load_first_message db s pk v c :
  tasks_represent db s → s !! pk = Some v → view_ok pk v → view_content v = Some c →
  load_message_at_sequence db (view_key v) 1
  = Ok (stored_message 1 <$> head (view_messages v)).
Proof.
  intros Hrep Hs Hv Hc. destruct (view_content_request pk v c Hv Hc) as (request & rest & Hm & _ & Hok).
  unfold load_message_at_sequence. rewrite to_sql_fits by done. cbn [mbind result_bind].
  rewrite (ok_pk _ _ Hv), (rep_messages _ _ Hrep), Hs. cbn [from_option]. rewrite Hm.
  cbn [imap List.find message_row_of mrow_sequence]. change (Z.of_nat 0 + 1 =? 1) with true. cbv iota.
  rewrite <- (ok_pk _ _ Hv). rewrite message_row_roundtrip by done. done.
Qed.

Lemma verify_context_ok db s pk v :
  tasks_represent db s → s !! pk = Some v → verify_context_binding db (record_of v) = Ok tt.
Proof.
  intros Hrep Hs. destruct (rep_bindings _ _ Hrep pk v Hs) as (row & Hrow & Hc & Ht).
  unfold verify_context_binding. simpl. unfold view_context_pk in Hrow. rewrite Hrow.
  cbn [ok_or mbind result_bind]. apply fail_if_pass. by rewrite !bool_decide_neq_false.
Qed.

Lemma opt_traverse_from_sql o :
  (∀ x, o = Some x → 0 <= x) → opt_traverse from_sql o = Ok o.
Proof. destruct o as [x|]; [|done]. intros Hx. simpl. by rewrite from_sql_nonneg by auto. Qed.

(** A configuration that [open] accepts; the fields are unsigned. *)
Record store_config_ok : Prop := {
  config_tasks : 0 < max_tasks config <= HARD_MAX_TASKS;
  config_messages : 2 <= max_messages_per_task config <= MAX_PAGE_SIZE;
  config_artifacts : 0 < max_artifacts_per_task config <= MAX_PAGE_SIZE;
  config_payload : 0 < max_payload_bytes config <= HARD_MAX_PAYLOAD_BYTES;
  config_batch : 0 < max_prune_batch config <= HARD_MAX_PRUNE_BATCH;
  config_content : 0 < content_retention_milliseconds config;
  config_idempotency : content_retention_milliseconds config < idempotency_retention_milliseconds config
                       <= HARD_MAX_RETENTION_MILLISECONDS }.

Lemma config_validate_ok :
  0 <= max_tasks config → 0 <= max_artifacts_per_task config → 0 <= max_payload_bytes config →
  0 <= max_prune_batch config → 0 <= content_retention_milliseconds config →
  A2ASqliteTaskStoreConfig_validate config = Ok config → store_config_ok.
Proof.
  intros ????? Hv. unfold A2ASqliteTaskStoreConfig_validate in Hv. inv_ok. bool_prop.
  split; lia.
Qed.

Lemma current_status_facts pk v :
  view_ok pk v →
  0 <= status_generation (current_status v) <= 2
  ∧ 0 <= status_occurred_at (current_status v) <= I64_MAX
  ∧ a2a_task_status_reason_is_valid (view_state v) (status_terminal_reason (current_status v)) = true.
Proof.
  intros Hv. destruct (view_statuses_facts pk v Hv) as (Hall & _ & Hlen & Hshort & Htime).
  pose proof (last_view_statuses v) as Hl. apply last_Some_elem_of in Hl.
  rewrite Forall_forall in Hall. destruct (Hall _ Hl) as (? & ? & ?).
  split; [lia|]. split; [|done]. split; [lia|]. unfold view_statuses in Hl.
  apply elem_of_cons in Hl as [->|Hl]; [apply (ok_created _ _ Hv)|].
  destruct (status_path_facts _ _ (ok_path _ _ Hv)) as (_ & _ & Hall' & _).
  rewrite Forall_forall in Hall'. by apply Hall'.
Qed.

Lemma view_shape_ok pk v :
  store_config_ok → view_ok pk v →
  validate_a2a_task_shape (view_state v) (status_generation (current_status v))
    (status_occurred_at (current_status v))
    (if view_terminal v then Some (status_occurred_at (current_status v)) else None)
    (status_terminal_reason (current_status v)) (view_pruned v)
    (fst <$> view_deadlines v) (snd <$> view_deadlines v) = Ok tt.
Proof.
  intros Hcfg Hv. destruct (current_status_facts pk v Hv) as (Hg & Ho & Hr).
  pose proof (ok_deadlines _ _ Hv) as Hd. pose proof (ok_pruned _ _ Hv) as Hp.
  destruct Hcfg as [_ _ _ _ _ Hcc Hci].
  unfold validate_a2a_task_shape. apply fail_if_pass. rewrite Hr. fold (view_terminal v).
  destruct (Z.ltb_spec 2 (status_generation (current_status v))) as [?|_]; [lia|].
  destruct (view_terminal v) eqn:Et.
  - destruct Hd as [-> _]. rewrite bool_decide_neq_false by done. simpl. unfold option_gt. simpl.
    rewrite !(proj2 (Z.compare_lt_iff _ _)) by lia. done.
  - rewrite Hd. simpl. assert (view_pruned v = false) as ->.
    { unfold view_pruned. destruct (view_content v); [done|]. by specialize (Hp eq_refl). }
    assert (status_terminal_reason (current_status v) = None) as ->; [|done].
    unfold view_terminal, view_state in *.
    destruct (status_state (current_status v)), (status_terminal_reason (current_status v)); done.
Qed.

Lemma retained_identity_ok pk v :
  view_ok pk v → retained_identity_is_valid (record_of v) = true.
Proof.
  intros Hv. unfold retained_identity_is_valid. cbn [record_of record_request_text].
  replace (is_some_and _ _) with false.
  { by apply bool_decide_eq_true. }
  symmetry. unfold view_messages. destruct (view_content v) as [c|] eqn:Hc; [|done].
  destruct (view_content_request pk v c Hv Hc) as (request & rest & Hm & Hd & _).
  unfold view_messages in Hm. rewrite Hc in Hm. simpl in Hm |- *. rewrite Hm. simpl.
  by apply bool_decide_neq_false.
Qed.

Lemma view_times_nonneg pk v o x :
  store_config_ok → view_ok pk v →
  o ∈ [fst <$> view_deadlines v; snd <$> view_deadlines v;
       if view_terminal v then Some (status_occurred_at (current_status v)) else None] →
  o = Some x → 0 <= x.
Proof.
  intros Hcfg Hv Ho ->. destruct (current_status_facts pk v Hv) as (_ & Htime & _).
  pose proof (ok_deadlines _ _ Hv) as Hd. destruct Hcfg as [_ _ _ _ _ Hcc Hci].
  destruct (view_terminal v).
  - destruct Hd as [Hd _]. rewrite Hd in Ho. simpl in Ho.
    rewrite !elem_of_cons, elem_of_nil in Ho. destruct Ho as [[= ->]|[[= ->]|[[= ->]|[]]]]; lia.
  - rewrite Hd in Ho. simpl in Ho. rewrite !elem_of_cons, elem_of_nil in Ho. naive_solver.
Qed.

Lemma request_text_retained pk v :
  view_ok pk v →
  (negb (view_pruned v) && is_none (message_text <$> head (view_messages v)))
  || is_some_and (message_text <$> head (view_messages v))
       (λ value, (len value =? 0) || (64 * 1024 <? len value)) = false.
Proof.
  intros Hv. unfold view_pruned, view_messages. destruct (view_content v) as [c|] eqn:Hc; [|done].
  destruct (view_content_request pk v c Hv Hc) as (request & rest & Hm & _ & [_ Ht _]).
  unfold view_messages in Hm. rewrite Hc in Hm. simpl in Hm |- *. rewrite Hm. simpl in Ht |- *.
  unfold MAX_A2A_TEXT_BYTES in Ht. apply orb_false_iff. split; [apply Z.eqb_neq|apply Z.ltb_ge]; lia.
Qed.

Lemma digest_from_sql_ok d : len d = 32 → digest_from_sql d = Ok d.
Proof. unfold digest_from_sql. by intros ->. Qed.

Lemma sha256_len b : len (sha256 b) = 32.
Proof. unfold len. by rewrite sha256_length. Qed.

Lemma message_digest_len m : len (message_identity_digest m) = 32.
Proof. apply sha256_len. Qed.

Lemma artifact_digest_len a : len (artifact_identity_digest a) = 32.
Proof. apply sha256_len. Qed.

Lemma digest_identity_ok v : digest_from_sql (view_identity_digest v) = Ok (view_identity_digest v).
Proof. apply digest_from_sql_ok, sha256_len. Qed.

Lemma history_from_sql_ok o :
  (∀ h, o = Some h → is_u32 h) →
  opt_traverse (λ v, v ← from_sql v; if v <=? U32_MAX then Ok v else Err CorruptData) o = Ok o.
Proof.
  destruct o as [h|]; [|done]. intros Hh. destruct (Hh h eq_refl). simpl.
  rewrite from_sql_nonneg by done. simpl. by destruct (Z.leb_spec h U32_MAX); [|lia].
Qed.

Lemma first_message_check db s pk v :
  tasks_represent db s → s !! pk = Some v → view_ok pk v →
  (if record_content_pruned (record_of v) then Ok tt
   else
     initial ← load_message_at_sequence db (record_key (record_of v)) 1;
     initial ← ok_or initial CorruptData;
     fail_if (negb (stored_message_sequence initial =? 1)
              || bool_decide (stored_message_role initial ≠ User)
              || bool_decide (stored_message_id initial ≠ record_source_message_id (record_of v))
              || bool_decide (stored_message_text initial
                              ≠ default [] (record_request_text (record_of v)))) CorruptData) = Ok tt.
Proof.
  intros Hrep Hs Hv. cbn [record_of record_content_pruned record_key]. unfold view_pruned.
  destruct (view_content v) as [c|] eqn:Hc; [|done]. simpl.
  rewrite (load_first_message db s pk v c) by done.
  destruct (view_content_request pk v c Hv Hc) as (request & rest & -> & _). simpl.
  apply fail_if_pass. by rewrite !bool_decide_neq_false.
Qed.

Lemma load_task_present db s pk v :
  store_config_ok → tasks_represent db s → s !! pk = Some v → view_ok pk v →
  load_task_optional db (view_key v) = Ok (Some (record_of v)).
Proof.
  intros Hcfg Hrep Hs Hv. destruct (current_status_facts pk v Hv) as (Hg & Ho & Hr).
  pose proof (ok_deadlines _ _ Hv) as Hd. pose proof (ok_created _ _ Hv) as Hcr.
  unfold load_task_optional. rewrite (ok_pk _ _ Hv), (rep_tasks _ _ Hrep), lookup_fmap, Hs.
  cbn [fmap option_fmap option_map]. cbv zeta.
  assert ((if trow_content_pruned (task_row_of v) =? 0
           then mrow_text <$> List.find (λ r, mrow_sequence r =? 1) (messages_for db pk)
           else None) = message_text <$> head (view_messages v)) as ->.
  { simpl. unfold view_pruned. rewrite (rep_messages _ _ Hrep), Hs. cbn [from_option].
    destruct (view_content v) as [c|] eqn:Hc; simpl.
    - destruct (view_content_request pk v c Hv Hc) as (request & rest & -> & _). done.
    - unfold view_messages. by rewrite Hc. }
  cbn [task_row_of trow_terminal_reason trow_content_pruned trow_content_expires_at
    trow_tombstone_expires_at trow_state trow_terminal_at trow_generation trow_updated_at
    trow_context_id trow_source_message_id trow_identity_digest trow_request_text_digest
    trow_return_immediately trow_history_length trow_created_at].
  rewrite reason_sql_roundtrip, !parse_bool_sql, state_code_roundtrip, !parse_column_as_str.
  rewrite !opt_traverse_from_sql
    by (intros x Hx; revert Hx; eapply view_times_nonneg; [done..|]; set_solver).
  rewrite !from_sql_nonneg by lia. cbn [mbind result_bind].
  rewrite (fail_if_pass (_ || _)) by (by eapply request_text_retained).
  cbn [mbind result_bind]. fold (view_state v). rewrite (view_shape_ok pk) by done.
  cbn [mbind result_bind]. rewrite digest_identity_ok, (digest_from_sql_ok _ (ok_digest _ _ Hv)).
  cbn [mbind result_bind]. rewrite (history_from_sql_ok _ (ok_history _ _ Hv)).
  cbn [mbind result_bind].
  change (A2ATaskRecord_new _ _ _ _ _ _ _ _ _ _ _ _ _ _ _ _ _ _) with (record_of v).
  rewrite (retained_identity_ok pk) by done.
  pass_guard by (simpl; by rewrite (ok_request_id _ _ Hv), bool_decide_neq_false).
  rewrite (verify_context_ok db s pk) by done. cbn [mbind result_bind].
  rewrite (first_message_check db s pk) by done. cbn [mbind result_bind].
  by rewrite (verify_status_history_ok db s pk).
Qed.

End spec.
