(* ===== verification/A2AStoreProofs.v ===== *)
(** * The A2A task store implements its abstract state

    What every query of [A2AStore] returns on tables that represent a well-formed
    abstract state, and that every write keeps the tables representing one. *)

From S2P Require Import Prelude Identifiers A2AContracts A2ATaskModel A2AStore A2AStoreSpec.
Open Scope Z_scope.

Section store.
Context `{Sha256} (config : A2ASqliteTaskStoreConfig) (Hcfg : store_config_ok config).

(** ** Queries *)

Lemma load_task_optional_spec db s key :
  tasks_represent db s → tasks_ok config s →
  load_task_optional db key = Ok (record_of <$> s !! task_pk key).
Proof.
  intros Hrep Hok. destruct (s !! task_pk key) as [v|] eqn:Hs; simpl.
  - pose proof (ok_views _ _ Hok _ _ Hs) as Hv. pose proof (ok_pk _ _ _ Hv) as Hpk.
    apply task_pk_inj in Hpk as Hkey. rewrite <- Hkey. by eapply load_task_present.
  - unfold load_task_optional. by rewrite (rep_tasks _ _ Hrep), lookup_fmap, Hs.
Qed.

Lemma load_task_spec db s key :
  tasks_represent db s → tasks_ok config s →
  load_task db key = match s !! task_pk key with Some v => Ok (record_of v) | None => Err NotFound end.
Proof.
  intros Hrep Hok. unfold load_task. rewrite (load_task_optional_spec db s) by done. simpl.
  by destruct (s !! task_pk key).
Qed.

Lemma view_key_of s key v : tasks_ok config s → s !! task_pk key = Some v → view_key v = key.
Proof. intros Hok Hs. apply task_pk_inj, (ok_pk _ _ _ (ok_views _ _ Hok _ _ Hs)). Qed.

Lemma status_path_numbers s l :
  status_path s l → status_generation <$> s :: l = seqZ (status_generation s) (len l + 1).
Proof.
  revert s. induction l as [|t l IH]; intros s Hp; [done|].
  destruct Hp as [[Hg _ _ _] Hp]. rewrite fmap_cons, (IH t Hp), Hg.
  rewrite (seqZ_cons _ (len (t :: l) + 1)) by (unfold len; lia). f_equal.
  f_equal; unfold len; simpl; lia.
Qed.

Lemma view_statuses_numbers pk v :
  view_ok config pk v → status_generation <$> view_statuses v = seqZ 0 (len (view_statuses v)).
Proof.
  intros Hv. unfold view_statuses. rewrite (status_path_numbers _ _ (ok_path _ _ _ Hv)). simpl.
  f_equal. unfold len. simpl. lia.
Qed.

Lemma collect_updates_rows pk expected n l :
  Forall (λ t, 0 <= status_generation t ∧ 0 <= status_occurred_at t
            ∧ a2a_task_status_reason_is_valid (status_state t) (status_terminal_reason t) = true) l →
  status_generation <$> l = seqZ expected n → expected + n < U64_MAX →
  collect_updates expected (status_row_of pk <$> l) = Ok l.
Proof.
  intros Hall. revert expected n. induction Hall as [|t l (Hg & Ho & Hr) _ IH]; intros e n Hl Hn; [done|].
  destruct (seqZ_cons_inv _ _ _ _ _ Hl) as (Hpos & Ht & Hrest). rewrite fmap_cons.
  cbn [collect_updates]. rewrite status_row_roundtrip by done. cbn [mbind result_bind].
  pass_guard by (by rewrite Ht, Z.eqb_refl, Hr).
  rewrite checked_add_fits by lia. cbn [ok_or mbind result_bind].
  rewrite (IH _ _ Hrest) by lia. done.
Qed.

Lemma fmap_list_filter {A B} (f : A → B) (p : B → bool) (l : list A) :
  List.filter p (f <$> l) = f <$> List.filter (λ x, p (f x)) l.
Proof. induction l as [|x l IH]; [done|]. rewrite fmap_cons. simpl. destruct (p (f x)); simpl; by rewrite IH. Qed.

Lemma load_status_updates_spec db s key v after :
  tasks_represent db s → tasks_ok config s → s !! task_pk key = Some v →
  0 <= after <= status_generation (current_status v) →
  load_status_updates db key after = Ok (drop (Z.to_nat (after + 1)) (view_statuses v)).
Proof.
  intros Hrep Hok Hs Ha. pose proof (ok_views _ _ Hok _ _ Hs) as Hv.
  destruct (view_statuses_facts _ _ _ Hv) as (Hall & Hsort & Hlen & Hshort & _).
  pose proof (view_statuses_numbers _ _ Hv) as Hnum.
  unfold load_status_updates. rewrite to_sql_fits by (unfold I64_MAX; lia). cbn [mbind result_bind].
  rewrite (rep_statuses _ _ Hrep), Hs. cbn [from_option].
  rewrite fmap_list_filter. cbn [status_row_of srow_generation].
  rewrite (filter_above _ _ 0 _ after Hnum). replace (after + 1 - 0) with (after + 1) by lia.
  rewrite (sort_by_id srow_generation Z.compare)
    by (by apply sorted_fmap_rows; rewrite <- (take_drop (Z.to_nat (after + 1))) in Hsort;
        apply StronglySorted_app_1_r in Hsort).
  rewrite take_ge by (rewrite length_fmap, length_drop; unfold len in *; lia).
  rewrite checked_add_fits by (unfold U64_MAX; lia). cbn [ok_or mbind result_bind].
  pose proof (contiguous_drop _ _ _ _ (Z.to_nat (after + 1)) Hnum) as Hd.
  replace (0 + Z.of_nat (Z.to_nat (after + 1))) with (after + 1) in Hd by lia.
  eapply collect_updates_rows; [by apply Forall_drop|exact Hd|].
  unfold U64_MAX, len in *. lia.
Qed.

Definition stored_messages (l : list A2ATaskMessage) : list StoredA2ATaskMessage :=
  imap (λ i m, stored_message (Z.of_nat i + 1) m) l.

Definition stored_artifact (sequence : Z) (a : A2ATaskArtifact) : StoredA2ATaskArtifact :=
  StoredA2ATaskArtifact_new sequence (artifact_id a) (artifact_content_digest a)
    (artifact_canonical_bytes a) (artifact_complete a) (artifact_recorded_at a).

Definition stored_artifacts (l : list A2ATaskArtifact) : list StoredA2ATaskArtifact :=
  imap (λ i a, stored_artifact (Z.of_nat i + 1) a) l.

Lemma collect_messages_rows key k previous l :
  Forall (message_ok key) l → Z.of_nat k + len l < U64_MAX →
  (∀ p, previous = Some p → p = Z.of_nat k) →
  collect_messages key previous (imap (λ i, message_row_of (task_pk key) (k + i)) l)
  = Ok (imap (λ i m, stored_message (Z.of_nat (k + i) + 1) m) l).
Proof.
  intros Hall. revert k previous. induction Hall as [|m l Hm _ IH]; intros k previous Hk Hp; [done|].
  cbn [imap collect_messages]. cbn [message_row_of mrow_sequence].
  rewrite from_sql_nonneg by lia. cbn [mbind result_bind].
  pass_guard by (destruct previous as [p|]; [|done]; simpl; rewrite (Hp p eq_refl);
    apply bool_decide_neq_false; rewrite checked_add_fits by (unfold len in *; lia);
    f_equal; lia).
  rewrite message_row_roundtrip by done. cbn [mbind result_bind].
  assert (imap ((λ i, message_row_of (task_pk key) (k + i)) ∘ S) l
          = imap (λ i, message_row_of (task_pk key) (S k + i)) l) as ->.
  { apply imap_ext. intros i x _. simpl. do 2 f_equal; lia. }
  rewrite IH; [|unfold len in *; simpl in *; lia|intros p [= <-]; lia].
  cbn [mbind result_bind]. do 2 f_equal. apply imap_ext. intros i x _. simpl. do 2 f_equal; lia.
Qed.

Lemma message_rows_sorted pk l : StronglySorted (key_lt mrow_sequence Z.compare) (imap (message_row_of pk) l).
Proof. eapply contiguous_sorted, imap_numbers. done. Qed.

Lemma artifact_rows_sorted pk l :
  StronglySorted (key_lt artrow_sequence Z.compare) (imap (artifact_row_of pk) l).
Proof. eapply contiguous_sorted, imap_numbers. done. Qed.

Lemma sorted_drop {A K} (key : A → K) cmp k (l : list A) :
  StronglySorted (key_lt key cmp) l → StronglySorted (key_lt key cmp) (drop k l).
Proof. intros Hl. rewrite <- (take_drop k) in Hl. by apply StronglySorted_app_1_r in Hl. Qed.

Lemma sorted_take {A K} (key : A → K) cmp k (l : list A) :
  StronglySorted (key_lt key cmp) l → StronglySorted (key_lt key cmp) (take k l).
Proof. intros Hl. rewrite <- (take_drop k) in Hl. by apply StronglySorted_app_1_l in Hl. Qed.

(** The newest [limit] messages, oldest first. *)
Definition newest {A} (limit : Z) (l : list A) : list A := drop (length l - Z.to_nat limit) l.

Lemma load_task_messages_spec db s key v limit :
  tasks_represent db s → tasks_ok config s → s !! task_pk key = Some v →
  0 <= limit <= MAX_PAGE_SIZE →
  load_messages db key limit = Ok (newest limit (stored_messages (view_messages v))).
Proof.
  intros Hrep Hok Hs Hl. pose proof (ok_views _ _ Hok _ _ Hs) as Hv.
  pose proof (view_key_of _ _ _ Hok Hs) as Hkey.
  unfold load_messages. pass_guard by (apply Z.ltb_ge; unfold MAX_PAGE_SIZE, I64_MAX in *; lia).
  rewrite (rep_messages _ _ Hrep), Hs. cbn [from_option].
  rewrite (sort_by_desc mrow_sequence Z.compare) by apply message_rows_sorted.
  rewrite take_reverse, length_imap.
  set (k := (length (view_messages v) - Z.to_nat limit)%nat).
  rewrite (sort_by_perm_eq mrow_sequence Z.compare _ (drop k (imap (message_row_of (task_pk key)) (view_messages v)))).
  2:{ rewrite reverse_Permutation. apply (strictly_sorted_NoDup mrow_sequence Z.compare).
      apply sorted_drop, message_rows_sorted. }
  2:{ apply reverse_Permutation. }
  rewrite (sort_by_id mrow_sequence Z.compare) by apply sorted_drop, message_rows_sorted.
  rewrite drop_imap, collect_messages_rows; [| | |done].
  - unfold newest, stored_messages. by rewrite length_imap, drop_imap.
  - unfold view_messages. destruct (view_content v) as [c|] eqn:Hc; simpl; [|by rewrite drop_nil].
    apply Forall_drop. rewrite <- Hkey. apply (ok_messages _ _ _ (ok_content _ _ _ Hv c Hc)).
  - assert (len (view_messages v) <= MAX_PAGE_SIZE) as Hb.
    { unfold view_messages. destruct (view_content v) as [c|] eqn:Hc; simpl; [|done].
      pose proof (ok_message_count _ _ _ (ok_content _ _ _ Hv c Hc)).
      pose proof (config_messages _ Hcfg). lia. }
    unfold len in *. rewrite length_drop. subst k. unfold MAX_PAGE_SIZE, U64_MAX in *. lia.
Qed.

Lemma collect_artifacts_rows key k l :
  Forall (artifact_ok key) l → Z.of_nat k + len l < I64_MAX →
  collect_artifacts key (Z.of_nat k + 1) (imap (λ i, artifact_row_of (task_pk key) (k + i)) l)
  = Ok (imap (λ i a, stored_artifact (Z.of_nat (k + i) + 1) a) l).
Proof.
  intros Hall. revert k. induction Hall as [|a l Ha _ IH]; intros k Hk; [done|].
  destruct Ha as [Hkey Hb Hd Ht].
  cbn [imap collect_artifacts]. cbn [artifact_row_of artrow_sequence artrow_artifact_id
    artrow_complete artrow_recorded_at artrow_canonical_bytes artrow_content_digest
    artrow_identity_digest].
  rewrite !from_sql_nonneg by lia. cbn [mbind result_bind].
  pass_guard by (apply negb_false_iff, Z.eqb_eq; lia).
  rewrite parse_column_as_str, parse_bool_sql. cbn [mbind result_bind].
  unfold A2ATaskArtifact_new.
  pass_guard by (apply orb_false_iff; split; [apply Z.eqb_neq|apply Z.ltb_ge]; lia).
  cbn [map_err mbind result_bind].
  assert (mk_A2ATaskArtifact key (artifact_id a) (artifact_canonical_bytes a)
            (sha256 (artifact_canonical_bytes a)) (artifact_complete a) (artifact_recorded_at a) = a)
    as -> by (rewrite <- Hkey, <- Hd; by destruct a).
  pass_guard by (by rewrite !bool_decide_neq_false).
  rewrite checked_add_fits by (unfold len, I64_MAX, U64_MAX in *; lia).
  cbn [ok_or mbind result_bind].
  assert (imap ((λ i, artifact_row_of (task_pk key) (k + i)) ∘ S) l
          = imap (λ i, artifact_row_of (task_pk key) (S k + i)) l) as ->.
  { apply imap_ext. intros i x _. simpl. do 2 f_equal; lia. }
  replace (Z.of_nat k + 1 + 1) with (Z.of_nat (S k) + 1) by lia.
  rewrite IH by (unfold len in *; simpl in *; lia). cbn [mbind result_bind].
  rewrite Nat.add_0_r. do 2 f_equal.
  apply imap_ext. intros i x _. simpl. do 2 f_equal; lia.
Qed.

Lemma view_artifacts_ok pk v :
  view_ok config pk v →
  Forall (artifact_ok (view_key v)) (view_artifacts v) ∧ len (view_artifacts v) <= MAX_PAGE_SIZE.
Proof.
  intros Hv. unfold view_artifacts. destruct (view_content v) as [c|] eqn:Hc; simpl; [|by split].
  pose proof (ok_content _ _ _ Hv c Hc) as Hcc. split; [apply (ok_artifacts _ _ _ Hcc)|].
  pose proof (ok_artifact_count _ _ _ Hcc). pose proof (config_artifacts _ Hcfg). lia.
Qed.

Lemma load_artifacts_after_spec db s key v after limit :
  tasks_represent db s → tasks_ok config s → s !! task_pk key = Some v →
  0 <= limit <= MAX_PAGE_SIZE → 0 <= after <= MAX_PAGE_SIZE →
  load_artifacts_after db key after limit
  = Ok (take (Z.to_nat limit) (drop (Z.to_nat after) (stored_artifacts (view_artifacts v)))).
Proof.
  intros Hrep Hok Hs Hl Ha. pose proof (ok_views _ _ Hok _ _ Hs) as Hv.
  destruct (view_artifacts_ok _ _ Hv) as [Hall Hlen].
  rewrite (view_key_of _ _ _ Hok Hs) in Hall.
  unfold load_artifacts_after. unfold MAX_PAGE_SIZE in *.
  rewrite to_sql_fits by (unfold I64_MAX; lia). cbn [mbind result_bind].
  pass_guard by (apply Z.ltb_ge; unfold I64_MAX; lia).
  rewrite checked_add_fits by (unfold U64_MAX; lia). cbn [ok_or mbind result_bind].
  rewrite (rep_artifacts _ _ Hrep), Hs. cbn [from_option].
  rewrite (filter_above _ _ 1 (len (view_artifacts v))) by (by apply imap_numbers).
  replace (after + 1 - 1) with after by lia.
  rewrite (sort_by_id artrow_sequence Z.compare) by apply sorted_drop, artifact_rows_sorted.
  set (k := Z.to_nat after).
  rewrite drop_imap. replace (after + 1) with (Z.of_nat k + 1) by lia.
  unfold stored_artifacts. rewrite drop_imap.
  rewrite !take_imap. rewrite collect_artifacts_rows; [done| |].
  - by apply Forall_take, Forall_drop.
  - unfold len in *. rewrite length_take, length_drop. unfold I64_MAX. lia.
Qed.

Lemma load_artifacts_spec db s key v limit :
  tasks_represent db s → tasks_ok config s → s !! task_pk key = Some v →
  0 <= limit <= MAX_PAGE_SIZE →
  load_artifacts db key limit
  = Ok (take (Z.to_nat limit) (stored_artifacts (view_artifacts v))).
Proof.
  intros Hrep Hok Hs Hl. pose proof (ok_views _ _ Hok _ _ Hs) as Hv.
  destruct (view_artifacts_ok _ _ Hv) as [Hall Hlen].
  rewrite (view_key_of _ _ _ Hok Hs) in Hall.
  unfold load_artifacts. unfold MAX_PAGE_SIZE in *.
  pass_guard by (apply Z.ltb_ge; unfold I64_MAX; lia).
  rewrite (rep_artifacts _ _ Hrep), Hs. cbn [from_option].
  rewrite (sort_by_id artrow_sequence Z.compare) by apply artifact_rows_sorted.
  unfold stored_artifacts. rewrite !take_imap.
  rewrite (collect_artifacts_rows key 0); [done|by apply Forall_take|].
  unfold len in *. rewrite length_take. unfold I64_MAX. lia.
Qed.

Lemma view_messages_ok pk v :
  view_ok config pk v →
  Forall (message_ok (view_key v)) (view_messages v)
  ∧ len (view_messages v) <= max_messages_per_task config.
Proof.
  intros Hv. pose proof (config_messages _ Hcfg). unfold view_messages.
  destruct (view_content v) as [c|] eqn:Hc; simpl; [|split; [done|unfold len; simpl; lia]].
  pose proof (ok_content _ _ _ Hv c Hc) as Hcc. split; [apply (ok_messages _ _ _ Hcc)|].
  apply (ok_message_count _ _ _ Hcc).
Qed.

Lemma existing_message_spec db s key v id :
  tasks_represent db s → tasks_ok config s → s !! task_pk key = Some v →
  existing_message db key id
  = Ok ((λ im, (Z.of_nat im.1 + 1, message_identity_digest im.2))
          <$> list_find (λ m, message_id m = id) (view_messages v)).
Proof.
  intros Hrep Hok Hs. pose proof (ok_views _ _ Hok _ _ Hs) as Hv.
  pose proof (view_key_of _ _ _ Hok Hs) as Hkey. destruct (view_messages_ok _ _ Hv) as [Hall _].
  unfold existing_message. rewrite (rep_messages _ _ Hrep), Hs. cbn [from_option].
  rewrite (find_imap _ (λ m, message_id m = id))
    by (intros i m; apply bool_decide_ext; split; [apply as_str_inj|by intros <-]).
  destruct (list_find _ _) as [[i m]|] eqn:Hf; [|done]. cbn [fmap option_fmap option_map fst snd].
  apply list_find_Some in Hf as (Hi & Hid & _). apply list_elem_of_lookup_2 in Hi.
  rewrite Forall_forall in Hall. destruct (Hall m Hi) as [Hk Ht Hr]. rewrite Hkey in Hk.
  cbn [message_row_of mrow_role mrow_recorded_at mrow_text mrow_identity_digest mrow_sequence].
  rewrite role_code_roundtrip, !from_sql_nonneg by lia. cbn [mbind result_bind].
  unfold A2ATaskMessage_new.
  pass_guard by (apply orb_false_iff; split; [apply Z.eqb_neq|apply Z.ltb_ge]; lia).
  cbn [map_err mbind result_bind].
  assert (mk_A2ATaskMessage key id (message_sender m) (message_text m) (message_recorded_at m) = m)
    as -> by (destruct m; simpl in *; congruence).
  by pass_guard by (by apply bool_decide_neq_false).
Qed.

Lemma existing_artifact_spec db s key v id :
  tasks_represent db s → tasks_ok config s → s !! task_pk key = Some v →
  existing_artifact db key id
  = Ok ((λ ia, (Z.of_nat ia.1 + 1, artifact_identity_digest ia.2))
          <$> list_find (λ a, artifact_id a = id) (view_artifacts v)).
Proof.
  intros Hrep Hok Hs. pose proof (ok_views _ _ Hok _ _ Hs) as Hv.
  pose proof (view_key_of _ _ _ Hok Hs) as Hkey. destruct (view_artifacts_ok _ _ Hv) as [Hall _].
  unfold existing_artifact. rewrite (rep_artifacts _ _ Hrep), Hs. cbn [from_option].
  rewrite (find_imap _ (λ a, artifact_id a = id))
    by (intros i a; apply bool_decide_ext; split; [apply as_str_inj|by intros <-]).
  destruct (list_find _ _) as [[i a]|] eqn:Hf; [|done]. cbn [fmap option_fmap option_map fst snd].
  apply list_find_Some in Hf as (Hi & Hid & _). apply list_elem_of_lookup_2 in Hi.
  rewrite Forall_forall in Hall. destruct (Hall a Hi) as [Hk Hb Hd Hr]. rewrite Hkey in Hk.
  cbn [artifact_row_of artrow_complete artrow_recorded_at artrow_canonical_bytes
    artrow_content_digest artrow_identity_digest artrow_sequence].
  rewrite parse_bool_sql, !from_sql_nonneg by lia. cbn [mbind result_bind].
  unfold A2ATaskArtifact_new.
  pass_guard by (apply orb_false_iff; split; [apply Z.eqb_neq|apply Z.ltb_ge]; lia).
  cbn [map_err mbind result_bind].
  assert (mk_A2ATaskArtifact key id (artifact_canonical_bytes a)
            (sha256 (artifact_canonical_bytes a)) (artifact_complete a) (artifact_recorded_at a) = a)
    as -> by (destruct a; simpl in *; congruence).
  by pass_guard by (by rewrite !bool_decide_neq_false).
Qed.

Lemma evidence_spec db s key v :
  tasks_represent db s → s !! task_pk key = Some v →
  has_completion_evidence db key = view_evidence v.
Proof.
  intros Hrep Hs. unfold has_completion_evidence, view_evidence.
  rewrite (rep_messages _ _ Hrep), (rep_artifacts _ _ Hrep), Hs. cbn [from_option]. f_equal.
  - apply existsb_imap. intros i m. simpl. by destruct (message_sender m).
  - apply existsb_imap. intros i a. simpl. by destruct (artifact_complete a).
Qed.

Lemma message_count_spec db s key v :
  tasks_represent db s → s !! task_pk key = Some v → message_count db key = len (view_messages v).
Proof.
  intros Hrep Hs. unfold message_count. rewrite (rep_messages _ _ Hrep), Hs. cbn [from_option].
  unfold len. by rewrite length_imap.
Qed.

Lemma artifact_count_spec db s key v :
  tasks_represent db s → s !! task_pk key = Some v → artifact_count db key = len (view_artifacts v).
Proof.
  intros Hrep Hs. unfold artifact_count. rewrite (rep_artifacts _ _ Hrep), Hs. cbn [from_option].
  unfold len. by rewrite length_imap.
Qed.

(** ** Payload accounting *)

Lemma sum_len_app {A} (f : A → bytes) l k : sum_len f (l ++ k) = sum_len f l + sum_len f k.
Proof. unfold sum_len. induction l as [|x l IH]; simpl; [done|]. rewrite IH. lia. Qed.

Lemma sum_len_nonneg {A} (f : A → bytes) l : 0 <= sum_len f l.
Proof. unfold sum_len. induction l as [|x l IH]; simpl; [done|]. pose proof (len_nonneg (f x)). lia. Qed.

Lemma sum_len_split {A} (f : A → bytes) (P : A → Prop) `{∀ x, Decision (P x)} l :
  sum_len f l = sum_len f (filter P l) + sum_len f (filter (λ x, ¬ P x) l).
Proof.
  unfold sum_len. induction l as [|x l IH]; simpl; [done|]. rewrite !filter_cons.
  destruct (decide (P x)).
  - rewrite (decide_False (P := ¬ P x)) by tauto. simpl. lia.
  - rewrite (decide_True (P := ¬ P x)) by tauto. simpl. lia.
Qed.

Lemma sum_len_imap {A B} (g : nat → A → B) (f : B → bytes) (h : A → bytes) l :
  (∀ i x, f (g i x) = h x) → sum_len f (imap g l) = sum_len h l.
Proof.
  revert g. induction l as [|x l IH]; intros g Hg; [done|]. unfold sum_len in *. cbn [imap foldr].
  rewrite Hg, (IH (g ∘ S)); [done|]. intros. apply Hg.
Qed.

Lemma views_payload_insert (s : task_views) pk v :
  s !! pk = None → views_payload (<[pk := v]> s) = view_payload v + views_payload s.
Proof. intros Hs. unfold views_payload. rewrite map_fold_insert_L; [done| |done]. intros. lia. Qed.

Lemma views_payload_delete (s : task_views) pk v :
  s !! pk = Some v → views_payload s = view_payload v + views_payload (delete pk s).
Proof.
  intros Hs. rewrite <- (insert_delete_id s pk v Hs) at 1.
  apply views_payload_insert, lookup_delete_eq.
Qed.

Lemma views_payload_update (s : task_views) pk v v' :
  s !! pk = Some v →
  views_payload (<[pk := v']> s) = views_payload s - view_payload v + view_payload v'.
Proof.
  intros Hs. rewrite (views_payload_delete s pk v Hs), <- (insert_delete_eq s pk v').
  rewrite views_payload_insert by apply lookup_delete_eq. lia.
Qed.

(** ** Writes *)

Lemma existsb_for {A} (f : A → TaskPk) pk (q : A → bool) l :
  existsb (λ r, bool_decide (f r = pk) && q r) l = existsb q (filter (λ r, f r = pk) l).
Proof.
  induction l as [|x l IH]; [done|]. cbn [existsb]. rewrite filter_cons, IH.
  case_bool_decide; [by rewrite decide_True|by rewrite decide_False].
Qed.

(** Replacing the view of one task, for tables that changed only its rows. *)
Lemma represent_update db db' s pk v :
  tasks_represent db s →
  a2a_task db' = <[pk := task_row_of v]> (a2a_task db) →
  (∀ pk', statuses_for db' pk' = if decide (pk' = pk) then status_row_of pk <$> view_statuses v
                                 else statuses_for db pk') →
  (∀ pk', messages_for db' pk' = if decide (pk' = pk) then imap (message_row_of pk) (view_messages v)
                                 else messages_for db pk') →
  (∀ pk', artifacts_for db' pk' = if decide (pk' = pk) then imap (artifact_row_of pk) (view_artifacts v)
                                  else artifacts_for db pk') →
  retained_payload_bytes db' = views_payload (<[pk := v]> s) →
  a2a_context db ⊆ a2a_context db' →
  (∃ row, a2a_context db' !! view_context_pk v = Some row
     ∧ crow_conversation_id row = view_conversation_id v
     ∧ crow_target_device_id row = view_target_device_id v) →
  tasks_represent db' (<[pk := v]> s).
Proof.
  intros [Ht Hs Hm Ha Hp Hb] Ht' Hs' Hm' Ha' Hp' Hc Hb'. split.
  - by rewrite Ht', Ht, fmap_insert.
  - intros pk'. rewrite Hs', lookup_insert. case_decide as E; [subst; by rewrite decide_True|].
    by rewrite decide_False, Hs.
  - intros pk'. rewrite Hm', lookup_insert. case_decide as E; [subst; by rewrite decide_True|].
    by rewrite decide_False, Hm.
  - intros pk'. rewrite Ha', lookup_insert. case_decide as E; [subst; by rewrite decide_True|].
    by rewrite decide_False, Ha.
  - done.
  - intros pk' v' [[-> ->]|[_ Hv']]%lookup_insert_Some; [done|].
    destruct (Hb _ _ Hv') as (row & Hrow & ?). exists row. split; [|done].
    by eapply lookup_weaken.
Qed.

Lemma rows_snoc {A} (f : A → TaskPk) pk l row :
  f row = pk → ∀ pk',
  filter (λ r, f r = pk') (l ++ [row])
  = if decide (pk' = pk) then filter (λ r, f r = pk) l ++ [row] else filter (λ r, f r = pk') l.
Proof.
  intros Hrow pk'. rewrite filter_app. case_decide as E.
  - subst pk'. by rewrite filter_cons_True.
  - rewrite filter_cons_False by congruence. by rewrite app_nil_r.
Qed.

Lemma rows_removed {A} (f : A → TaskPk) pk (l : list A) pk' :
  filter (λ r, f r = pk') (filter (λ r, f r ≠ pk) l)
  = if decide (pk' = pk) then [] else filter (λ r, f r = pk') l.
Proof.
  rewrite list_filter_filter. case_decide as E.
  - subst pk'. induction l as [|x l IH]; [done|]. rewrite filter_cons_False by tauto. done.
  - apply list_filter_iff. intros x. split; [tauto|]. intros <-. done.
Qed.

Lemma same_rows {A} (R : TaskPk → A) pk (x : A) : R pk = x → ∀ pk', R pk' = if decide (pk' = pk) then x else R pk'.
Proof. intros <- pk'. case_decide; by subst. Qed.

Lemma view_messages_add v c m :
  view_content v = Some c → view_messages (add_message v m) = view_messages v ++ [m].
Proof. intros Hc. unfold view_messages, add_message. simpl. by rewrite Hc. Qed.

Lemma view_artifacts_add v c a :
  view_content v = Some c → view_artifacts (add_artifact v a) = view_artifacts v ++ [a].
Proof. intros Hc. unfold view_artifacts, add_artifact. simpl. by rewrite Hc. Qed.

Lemma task_row_set_content v c c' :
  view_content v = Some c → task_row_of (set_content v (Some c')) = task_row_of v.
Proof. intros Hc. unfold task_row_of, view_pruned. simpl. by rewrite Hc. Qed.

Lemma represented_row db s pk v :
  tasks_represent db s → s !! pk = Some v → a2a_task db !! pk = Some (task_row_of v).
Proof. intros Hrep Hs. by rewrite (rep_tasks _ _ Hrep), lookup_fmap, Hs. Qed.

Lemma insert_message_spec db s key v c m :
  tasks_represent db s → tasks_ok config s → s !! task_pk key = Some v → view_content v = Some c →
  message_ok key m → message_id m ∉ (message_id <$> view_messages v) →
  ∃ db', insert_message db m (len (view_messages v) + 1) = Ok db'
    ∧ tasks_represent db' (<[task_pk key := add_message v m]> s)
    ∧ a2a_context db' = a2a_context db.
Proof.
  intros Hrep Hok Hs Hc [Hk Ht Hr] Hid. pose proof (ok_views _ _ Hok _ _ Hs) as Hv.
  destruct (view_messages_ok _ _ Hv) as [_ Hlen]. pose proof (config_messages _ Hcfg) as Hm.
  unfold MAX_PAGE_SIZE in Hm. unfold insert_message.
  rewrite !to_sql_fits by (unfold I64_MAX in *; lia). cbn [mbind result_bind]. unfold constraint.
  pass_guard by (simpl; by rewrite message_digest_len).
  rewrite (fail_if_pass (negb (negb _))); cycle 1.
  { rewrite negb_involutive. cbn [mrow_task mrow_sequence mrow_message_id]. rewrite Hk.
    rewrite (existsb_for mrow_task (task_pk key)). fold (messages_for db (task_pk key)).
    rewrite (rep_messages _ _ Hrep), Hs. cbn [from_option]. apply not_true_is_false.
    rewrite existsb_exists. intros (r & Hin & Hr'). apply list_elem_of_In in Hin.
    apply list_elem_of_lookup in Hin as [i Hi]. rewrite list_lookup_imap in Hi.
    destruct (view_messages v !! i) as [m'|] eqn:Hm'; [|done]. injection Hi as <-.
    apply orb_true_iff in Hr' as [E|E].
    - apply Z.eqb_eq in E. simpl in E. apply lookup_lt_Some in Hm'. unfold len in E. lia.
    - apply bool_decide_eq_true in E. apply as_str_inj in E. apply Hid. rewrite <- E.
      apply list_elem_of_fmap_2. by eapply list_elem_of_lookup_2. }
  cbn [mbind result_bind mrow_task]. rewrite Hk, (represented_row _ _ _ _ Hrep Hs).
  pass_guard by done. eexists. split; [done|]. split; [|done].
  eapply represent_update; [done|..]; cbn [a2a_task a2a_context].
  - unfold add_message. rewrite Hc. simpl. rewrite (task_row_set_content _ _ _ Hc).
    symmetry. apply insert_id. by eapply represented_row.
  - apply same_rows. unfold statuses_for. cbn [a2a_task_status].
    fold (statuses_for db (task_pk key)). by rewrite (rep_statuses _ _ Hrep), Hs.
  - unfold messages_for. cbn [a2a_task_message]. intros pk'.
    rewrite (rows_snoc mrow_task (task_pk key)) by done. fold (messages_for db (task_pk key)).
    rewrite (rep_messages _ _ Hrep), Hs. cbn [from_option].
    rewrite (view_messages_add _ _ _ Hc), imap_app. simpl. rewrite Nat.add_0_r. done.
  - apply same_rows. unfold artifacts_for. cbn [a2a_task_artifact].
    fold (artifacts_for db (task_pk key)). rewrite (rep_artifacts _ _ Hrep), Hs.
    unfold view_artifacts, add_message. simpl. by rewrite Hc.
  - unfold retained_payload_bytes. cbn [a2a_task_message a2a_task_artifact].
    rewrite (views_payload_update _ _ v) by done. rewrite <- (rep_payload _ _ Hrep).
    unfold retained_payload_bytes, view_payload. rewrite (view_messages_add _ _ _ Hc).
    rewrite !sum_len_app. unfold view_artifacts, add_message. simpl. rewrite Hc. simpl. lia.
  - done.
  - apply (rep_bindings _ _ Hrep _ _ Hs).
Qed.

Lemma insert_artifact_spec db s key v c a :
  tasks_represent db s → tasks_ok config s → s !! task_pk key = Some v → view_content v = Some c →
  artifact_ok key a → artifact_id a ∉ (artifact_id <$> view_artifacts v) →
  ∃ db', insert_artifact db a (len (view_artifacts v) + 1) = Ok db'
    ∧ tasks_represent db' (<[task_pk key := add_artifact v a]> s)
    ∧ a2a_context db' = a2a_context db.
Proof.
  intros Hrep Hok Hs Hc [Hk Hb Hd Hr] Hid. pose proof (ok_views _ _ Hok _ _ Hs) as Hv.
  destruct (view_artifacts_ok _ _ Hv) as [_ Hlen]. unfold MAX_PAGE_SIZE in Hlen.
  unfold insert_artifact.
  rewrite !to_sql_fits by (unfold I64_MAX in *; lia). cbn [mbind result_bind]. unfold constraint.
  pass_guard by (simpl; by rewrite artifact_digest_len, Hd, sha256_len).
  rewrite (fail_if_pass (negb (negb _))); cycle 1.
  { rewrite negb_involutive. cbn [artrow_task artrow_sequence artrow_artifact_id]. rewrite Hk.
    rewrite (existsb_for artrow_task (task_pk key)). fold (artifacts_for db (task_pk key)).
    rewrite (rep_artifacts _ _ Hrep), Hs. cbn [from_option]. apply not_true_is_false.
    rewrite existsb_exists. intros (r & Hin & Hr'). apply list_elem_of_In in Hin.
    apply list_elem_of_lookup in Hin as [i Hi]. rewrite list_lookup_imap in Hi.
    destruct (view_artifacts v !! i) as [a'|] eqn:Ha'; [|done]. injection Hi as <-.
    apply orb_true_iff in Hr' as [E|E].
    - apply Z.eqb_eq in E. simpl in E. apply lookup_lt_Some in Ha'. unfold len in E. lia.
    - apply bool_decide_eq_true in E. apply as_str_inj in E. apply Hid. rewrite <- E.
      apply list_elem_of_fmap_2. by eapply list_elem_of_lookup_2. }
  cbn [mbind result_bind artrow_task]. rewrite Hk, (represented_row _ _ _ _ Hrep Hs).
  pass_guard by done. eexists. split; [done|]. split; [|done].
  eapply represent_update; [done|..]; cbn [a2a_task a2a_context].
  - unfold add_artifact. rewrite Hc. simpl. rewrite (task_row_set_content _ _ _ Hc).
    symmetry. apply insert_id. by eapply represented_row.
  - apply same_rows. unfold statuses_for. cbn [a2a_task_status].
    fold (statuses_for db (task_pk key)). by rewrite (rep_statuses _ _ Hrep), Hs.
  - apply same_rows. unfold messages_for. cbn [a2a_task_message].
    fold (messages_for db (task_pk key)). rewrite (rep_messages _ _ Hrep), Hs.
    unfold view_messages, add_artifact. simpl. by rewrite Hc.
  - unfold artifacts_for. cbn [a2a_task_artifact]. intros pk'.
    rewrite (rows_snoc artrow_task (task_pk key)) by done. fold (artifacts_for db (task_pk key)).
    rewrite (rep_artifacts _ _ Hrep), Hs. cbn [from_option].
    rewrite (view_artifacts_add _ _ _ Hc), imap_app. simpl. rewrite Nat.add_0_r. done.
  - unfold retained_payload_bytes. cbn [a2a_task_message a2a_task_artifact].
    rewrite (views_payload_update _ _ v) by done. rewrite <- (rep_payload _ _ Hrep).
    unfold retained_payload_bytes, view_payload. rewrite (view_artifacts_add _ _ _ Hc).
    rewrite !sum_len_app. unfold view_messages, add_artifact. simpl. rewrite Hc. simpl. lia.
  - done.
  - apply (rep_bindings _ _ Hrep _ _ Hs).
Qed.

(** [UPDATE a2a_task] and [INSERT INTO a2a_task_status] of one transition. *)
Lemma record_status_spec db s key v t deadlines :
  tasks_represent db s → tasks_ok config s → s !! task_pk key = Some v →
  status_follows (current_status v) t →
  let terminal_at := if a2a_task_state_is_terminal (status_state t)
                     then Some (status_occurred_at t) else None in
  ∃ db1 db2,
    update_task db key (status_state t) (status_generation t) (status_occurred_at t) terminal_at
      (status_terminal_reason t) (fst <$> deadlines) (snd <$> deadlines)
      (status_generation (current_status v)) = Some db1
    ∧ insert_status db1 key (status_generation t) (status_state t) (status_terminal_reason t)
        (status_occurred_at t) = Ok db2
    ∧ tasks_represent db2 (<[task_pk key := add_status v t deadlines]> s)
    ∧ a2a_context db2 = a2a_context db.
Proof.
  intros Hrep Hok Hs Hf. pose proof (ok_views _ _ Hok _ _ Hs) as Hv.
  destruct (current_status_facts _ _ _ Hv) as (Hg & Ho & _). destruct Hf as [Hg' Ha Hr Ht].
  destruct (view_statuses_facts _ _ _ Hv) as (_ & _ & Hlen & _ & _).
  cbv zeta. unfold update_task. rewrite (represented_row _ _ _ _ Hrep Hs).
  cbn [mbind option_bind task_row_of trow_generation]. rewrite Z.eqb_refl.
  do 2 eexists. split; [done|]. split.
  { unfold insert_status. rewrite !to_sql_fits by (unfold I64_MAX in *; lia).
    cbn [mbind result_bind]. unfold constraint. rewrite (fail_if_pass (negb (negb _))); cycle 1.
    { rewrite negb_involutive. cbn [srow_task srow_generation a2a_task_status].
      rewrite (existsb_for srow_task (task_pk key)). fold (statuses_for db (task_pk key)).
      rewrite (rep_statuses _ _ Hrep), Hs. cbn [from_option]. apply not_true_is_false.
      rewrite existsb_exists. intros (r & Hin & Hr'). apply list_elem_of_In in Hin.
      apply list_elem_of_fmap in Hin as (u & -> & Hu). apply Z.eqb_eq in Hr'. simpl in Hr'.
      assert (status_generation u ∈ seqZ 0 (len (view_statuses v))) as Hin.
      { rewrite <- (view_statuses_numbers _ _ Hv). by apply list_elem_of_fmap_2. }
      apply elem_of_seqZ in Hin. lia. }
    cbn [mbind result_bind srow_task a2a_task]. rewrite lookup_insert_eq.
    by pass_guard by done. }
  split; [|done]. eapply represent_update; [done|..]; cbn [a2a_task a2a_context].
  - f_equal. unfold task_row_of, view_terminal, view_state, current_status, add_status. simpl.
    by rewrite last_snoc.
  - unfold statuses_for. cbn [a2a_task_status]. intros pk'.
    rewrite (rows_snoc srow_task (task_pk key)) by done. fold (statuses_for db (task_pk key)).
    rewrite (rep_statuses _ _ Hrep), Hs. cbn [from_option].
    unfold view_statuses. simpl. rewrite fmap_app. done.
  - apply same_rows. unfold messages_for. cbn [a2a_task_message].
    fold (messages_for db (task_pk key)). by rewrite (rep_messages _ _ Hrep), Hs.
  - apply same_rows. unfold artifacts_for. cbn [a2a_task_artifact].
    fold (artifacts_for db (task_pk key)). by rewrite (rep_artifacts _ _ Hrep), Hs.
  - rewrite (views_payload_update _ _ v) by done. rewrite <- (rep_payload _ _ Hrep).
    unfold retained_payload_bytes, view_payload. simpl. unfold view_messages, view_artifacts. simpl. lia.
  - done.
  - apply (rep_bindings _ _ Hrep _ _ Hs).
Qed.

(** The three insertions of [create_task]. *)
Lemma insert_new_task_spec db s c row :
  tasks_represent db s → s !! task_pk (creation_key c) = None →
  0 <= creation_created_at c <= I64_MAX →
  a2a_context db !! context_pk (creation_key c) (as_str (creation_context_id c)) = Some row →
  crow_conversation_id row = creation_conversation_id c →
  crow_target_device_id row = creation_target_device_id c →
  ∃ db1 db2 db3,
    insert_task db c = Ok db1
    ∧ insert_status db1 (creation_key c) 0 Submitted None (creation_created_at c) = Ok db2
    ∧ insert_message db2 (mk_A2ATaskMessage (creation_key c) (creation_source_message_id c) User
        (creation_request_text c) (creation_created_at c)) 1 = Ok db3
    ∧ tasks_represent db3 (<[task_pk (creation_key c) := new_view c]> s)
    ∧ a2a_context db3 = a2a_context db.
Proof.
  intros Hrep Hs Ht Hrow Hc1 Hc2. set (pk := task_pk (creation_key c)) in *.
  assert (statuses_for db pk = [] ∧ messages_for db pk = [] ∧ artifacts_for db pk = []) as (Hns & Hnm & Hna).
  { by rewrite (rep_statuses _ _ Hrep), (rep_messages _ _ Hrep), (rep_artifacts _ _ Hrep), Hs. }
  unfold insert_task. rewrite to_sql_fits by lia. cbn [mbind result_bind]. unfold constraint.
  pass_guard by (simpl; unfold creation_identity_digest, task_identity_digest,
    creation_request_text_digest, text_digest; by rewrite !sha256_len).
  fold pk. pass_guard by (by rewrite (rep_tasks _ _ Hrep), lookup_fmap, Hs).
  pass_guard by (unfold row_context_pk; simpl; unfold context_pk in Hrow; by rewrite Hrow).
  do 3 eexists. split; [done|]. unfold insert_status. rewrite !to_sql_fits by (done || lia).
  cbn [mbind result_bind]. unfold constraint. split.
  { rewrite (fail_if_pass (negb (negb _))); cycle 1.
    { rewrite negb_involutive. cbn [srow_task srow_generation a2a_task_status]. fold pk.
      rewrite (existsb_for srow_task pk). fold (statuses_for db pk). by rewrite Hns. }
    cbn [mbind result_bind srow_task a2a_task]. fold pk. rewrite lookup_insert_eq.
    by pass_guard by done. }
  split.
  { unfold insert_message. rewrite !to_sql_fits by (done || (simpl; lia)). cbn [mbind result_bind].
    unfold constraint. pass_guard by (simpl; by rewrite message_digest_len).
    rewrite (fail_if_pass (negb (negb _))); cycle 1.
    { rewrite negb_involutive. cbn [mrow_task mrow_sequence mrow_message_id a2a_task_message message_key].
      fold pk. rewrite (existsb_for mrow_task pk). fold (messages_for db pk). by rewrite Hnm. }
    cbn [mbind result_bind mrow_task a2a_task message_key]. fold pk. rewrite lookup_insert_eq.
    by pass_guard by done. }
  split; [|done]. eapply (represent_update db); [done|..]; cbn [a2a_task a2a_context].
  - f_equal.
  - unfold statuses_for. cbn [a2a_task_status]. intros pk'. rewrite (rows_snoc srow_task pk) by done.
    fold (statuses_for db pk). by rewrite Hns.
  - unfold messages_for. cbn [a2a_task_message]. intros pk'. rewrite (rows_snoc mrow_task pk) by done.
    fold (messages_for db pk). by rewrite Hnm.
  - by apply same_rows.
  - rewrite views_payload_insert by done. rewrite <- (rep_payload _ _ Hrep).
    unfold retained_payload_bytes, view_payload. cbn [a2a_task_message a2a_task_artifact].
    rewrite sum_len_app. unfold view_messages, view_artifacts. simpl. lia.
  - done.
  - exists row. done.
Qed.

(** ** Well-formedness is kept *)

Lemma view_ok_content pk v c c' :
  view_ok config pk v → view_content v = Some c → content_ok config v c' →
  view_ok config pk (set_content v (Some c')).
Proof.
  intros [] Hc [Hreq Hm Hmi Hmc Ha Hai Hac]. split; try done. intros c'' [= <-]. split; done.
Qed.

Lemma view_ok_add_message pk v c m :
  view_ok config pk v → view_content v = Some c → message_ok (view_key v) m →
  message_id m ∉ (message_id <$> view_messages v) → len (view_messages v) < max_messages_per_task config →
  view_ok config pk (add_message v m).
Proof.
  intros Hv Hc Hm Hid Hlen. unfold add_message. rewrite Hc. simpl.
  destruct (ok_content _ _ _ Hv c Hc) as [(request & rest & Hreq & Hd) Hall Hnd Hcnt Ha Hai Hac].
  unfold view_messages in Hid, Hlen. rewrite Hc in Hid, Hlen. simpl in Hid, Hlen.
  eapply view_ok_content; [done..|]. split; simpl; try done.
  - exists request, (rest ++ [m]). by rewrite Hreq.
  - apply Forall_app. split; [done|by constructor].
  - rewrite fmap_app. apply NoDup_app. split; [done|]. split; [|repeat constructor; set_solver].
    intros x Hx Hx'. simpl in Hx'. apply list_elem_of_singleton in Hx'. by subst.
  - rewrite len_app. unfold len in *. simpl. lia.
Qed.

Lemma view_ok_add_artifact pk v c a :
  view_ok config pk v → view_content v = Some c → artifact_ok (view_key v) a →
  artifact_id a ∉ (artifact_id <$> view_artifacts v) →
  len (view_artifacts v) < max_artifacts_per_task config →
  view_ok config pk (add_artifact v a).
Proof.
  intros Hv Hc Ha Hid Hlen. unfold add_artifact. rewrite Hc. simpl.
  destruct (ok_content _ _ _ Hv c Hc) as [Hreq Hall Hnd Hcnt Has Hai Hac].
  unfold view_artifacts in Hid, Hlen. rewrite Hc in Hid, Hlen. simpl in Hid, Hlen.
  eapply view_ok_content; [done..|]. split; simpl; try done.
  - apply Forall_app. split; [done|by constructor].
  - rewrite fmap_app. apply NoDup_app. split; [done|]. split; [|repeat constructor; set_solver].
    intros x Hx Hx'. simpl in Hx'. apply list_elem_of_singleton in Hx'. by subst.
  - rewrite len_app. unfold len in *. simpl. lia.
Qed.

Lemma view_ok_prune pk v : view_ok config pk v → view_terminal v = true → view_ok config pk (prune_content v).
Proof. intros [] Ht. split; done. Qed.

Lemma current_add_status v t d : current_status (add_status v t d) = t.
Proof. unfold current_status, add_status. simpl. by rewrite last_snoc. Qed.

Lemma view_ok_add_status pk v t :
  view_ok config pk v → status_follows (current_status v) t →
  (a2a_task_state_is_terminal (status_state t) = true →
     status_occurred_at t + idempotency_retention_milliseconds config <= I64_MAX) →
  view_ok config pk (add_status v t (status_deadlines config t)).
Proof.
  intros Hv Hf Hmax. assert (view_terminal v = false) as Hnt.
  { destruct Hf as [_ Ha _ _]. unfold view_terminal, view_state.
    by destruct (status_state (current_status v)). }
  destruct Hv as [Hpk Hrid Hd Hh Hcr Hp Hdl Hc Hpr]. split; try done.
  - simpl. apply status_path_snoc. split; [done|exact Hf].
  - unfold view_terminal, view_state. rewrite current_add_status. simpl. unfold status_deadlines.
    destruct (a2a_task_state_is_terminal (status_state t)) eqn:E; [split; [done|by apply Hmax]|done].
  - intros c Hc'. destruct (Hc c Hc') as [Hreq Hm Hmi Hmc Ha Hai Hac]. split; done.
  - intros Hc'. simpl in Hc'. specialize (Hpr Hc'). congruence.
Qed.

(** What the store is given: the values a Rust caller can build. *)
Record creation_ok (c : A2ATaskCreation) : Prop := {
  ok_creation_request : task_request_message_id (task_id (creation_key c))
                        = Some (creation_request_message_id c);
  ok_creation_history : ∀ h, creation_history_length c = Some h → is_u32 h;
  ok_creation_time : 0 <= creation_created_at c }.

Lemma view_ok_new c :
  creation_ok c → creation_created_at c <= I64_MAX →
  0 < len (creation_request_text c) <= MAX_A2A_TEXT_BYTES →
  view_ok config (task_pk (creation_key c)) (new_view c).
Proof.
  intros [Hr Hh Ht] Ht' Htext. pose proof (config_messages _ Hcfg) as Hm.
  pose proof (config_artifacts _ Hcfg) as Ha. split; simpl; try done.
  - apply sha256_len.
  - intros c' [= <-]. split; simpl; try (unfold len; simpl; lia); try done.
    + eexists _, []. split; [done|]. done.
    + repeat constructor; simpl; try done; lia.
    + repeat constructor. set_solver.
    + constructor.
Qed.

Lemma tasks_ok_update s pk v v' :
  tasks_ok config s → s !! pk = Some v → view_ok config pk v' →
  views_payload s - view_payload v + view_payload v' <= max_payload_bytes config →
  tasks_ok config (<[pk := v']> s).
Proof.
  intros [Hv Hsz Hp] Hs Hv' Hpay. split.
  - intros pk' v'' [[-> ->]|[_ Hs']]%lookup_insert_Some; [done|by apply Hv].
  - rewrite map_size_insert_Some; [done|]. by eexists.
  - by rewrite (views_payload_update _ _ v).
Qed.

Lemma tasks_ok_insert s pk v :
  tasks_ok config s → s !! pk = None → view_ok config pk v →
  Z.of_nat (size s) < max_tasks config →
  views_payload s + view_payload v <= max_payload_bytes config →
  tasks_ok config (<[pk := v]> s).
Proof.
  intros [Hv Hsz Hp] Hs Hv' Hsize Hpay. split.
  - intros pk' v'' [[-> ->]|[_ Hs']]%lookup_insert_Some; [done|by apply Hv].
  - rewrite map_size_insert_None by done. lia.
  - rewrite views_payload_insert by done. lia.
Qed.

Lemma view_payload_nonneg v : 0 <= view_payload v.
Proof.
  unfold view_payload. pose proof (sum_len_nonneg message_text (view_messages v)).
  pose proof (sum_len_nonneg artifact_canonical_bytes (view_artifacts v)). lia.
Qed.

Lemma tasks_ok_delete s pk v :
  tasks_ok config s → s !! pk = Some v → tasks_ok config (delete pk s).
Proof.
  intros [Hv Hsz Hp] Hs. split.
  - intros pk' v' [_ Hs']%lookup_delete_Some. by apply Hv.
  - rewrite map_size_delete_Some by done. lia.
  - pose proof (views_payload_delete _ _ _ Hs). pose proof (view_payload_nonneg v). lia.
Qed.

End store.
