(* ===== verification/A2AStoreOps.v ===== *)
(** * Operations of the A2A task store

    Each operation of [A2AStore] on tables that represent an abstract state: what it
    answers and which state the tables represent afterwards.  [task_step] collects these
    into one labelled transition system on the abstract state. *)

From S2P Require Import Prelude Identifiers A2AContracts A2ATaskModel A2AStore A2AStoreSpec A2AStoreProofs.
Open Scope Z_scope.

Section operations.
Context `{Sha256} (config : A2ASqliteTaskStoreConfig) (Hcfg : store_config_ok config).

(** ** Retention *)

(** One row of work for the sweep at [now]. *)
Inductive prune_step (now : Z) (s : task_views) : task_views → Prop :=
| prune_payload pk v dc dt :
    s !! pk = Some v → view_pruned v = false → view_deadlines v = Some (dc, dt) → dc <= now →
    prune_step now s (<[pk := prune_content v]> s)
| prune_tombstone pk v dc dt :
    s !! pk = Some v → view_pruned v = true → view_deadlines v = Some (dc, dt) → dt <= now →
    prune_step now s (delete pk s).

Definition prune_due (now : Z) (v : TaskView) : Prop :=
  ∃ dc dt, view_deadlines v = Some (dc, dt) ∧ (if view_pruned v then dt else dc) <= now.

Global Instance retention_compare_total : TotalCompare retention_compare.
Proof. unfold retention_compare, pk_compare. apply _. Qed.

Lemma retention_row_view now pk v :
  retention_row now (pk, task_row_of v)
  = '(dc, dt) ← view_deadlines v;
    let d := if view_pruned v then dt else dc in
    if d <=? now
    then Some (d, (trow_terminal_at (task_row_of v), (if view_pruned v then 2 else 1, pk)))
    else None.
Proof.
  unfold retention_row. cbn [task_row_of trow_content_pruned trow_content_expires_at
    trow_tombstone_expires_at]. destruct (view_pruned v), (view_deadlines v) as [[dc dt]|]; done.
Qed.

Lemma next_candidate_spec db s now :
  tasks_represent db s → tasks_ok config s → now <= I64_MAX →
  (next_retention_candidate db now = Ok None ∧ ∀ pk v, s !! pk = Some v → ¬ prune_due now v)
  ∨ ∃ key v, s !! task_pk key = Some v ∧ prune_due now v
      ∧ next_retention_candidate db now
        = Ok (Some (mk_RetentionCandidate key (if view_pruned v then Tombstone else Payload))).
Proof.
  intros Hrep Hok Hnow. unfold next_retention_candidate. rewrite to_sql_fits by done.
  cbn [mbind result_bind]. set (rows := omap (retention_row now) (map_to_list (a2a_task db))).
  assert (∀ r, r ∈ rows ↔ ∃ pk v, s !! pk = Some v ∧ retention_row now (pk, task_row_of v) = Some r) as Hrows.
  { intros r. unfold rows. rewrite list_elem_of_omap. split.
    - intros ([pk row] & Hin & Hr). apply elem_of_map_to_list in Hin.
      rewrite (rep_tasks _ _ Hrep), lookup_fmap in Hin. apply fmap_Some in Hin as (v & Hv & ->). eauto.
    - intros (pk & v & Hv & Hr). exists (pk, task_row_of v). split; [|done].
      apply elem_of_map_to_list. by eapply represented_row. }
  pose proof (sort_by_perm id retention_compare rows) as Hperm.
  destruct (sort_by id retention_compare rows) as [|r sorted] eqn:Hsort; cbn [head].
  - left. split; [done|]. intros pk v Hv (dc & dt & Hd & Hle).
    apply Permutation_nil_l in Hperm.
    assert (∃ r, r ∈ rows) as [r Hr]; [|rewrite <- Hperm in Hr; by apply elem_of_nil in Hr].
    eexists. apply Hrows. exists pk, v. split; [done|]. rewrite retention_row_view, Hd. simpl.
    destruct (Z.leb_spec (if view_pruned v then dt else dc) now); [done|lia].
  - right. assert (r ∈ rows) as (pk & v & Hv & Hr)%Hrows by (rewrite <- Hperm; left).
    rewrite retention_row_view in Hr. destruct (view_deadlines v) as [[dc dt]|] eqn:Hd; [|done].
    simpl in Hr. destruct (Z.leb_spec (if view_pruned v then dt else dc) now); [|done].
    injection Hr as <-. pose proof (ok_views _ _ Hok _ _ Hv) as Hvok.
    pose proof (ok_pk _ _ _ Hvok) as Hpk. exists (view_key v), v. rewrite Hpk. split; [done|].
    split; [by exists dc, dt|]. rewrite <- Hpk. unfold task_pk. rewrite task_key_roundtrip. simpl.
    by destruct (view_pruned v).
Qed.

Lemma sum_removed {A} (row : nat → A → MessageRow) (l : list MessageRow) pk (k : list A) h :
  filter (λ r, mrow_task r = pk) l = imap row k → (∀ i x, mrow_text (row i x) = h x) →
  sum_len mrow_text (filter (λ r, mrow_task r ≠ pk) l) = sum_len mrow_text l - sum_len h k.
Proof.
  intros Hl Hh. rewrite (sum_len_split mrow_text (λ r, mrow_task r = pk) l), Hl.
  rewrite (sum_len_imap row mrow_text h) by done. lia.
Qed.

Lemma sum_removed_artifacts {A} (row : nat → A → ArtifactRow) (l : list ArtifactRow) pk (k : list A) h :
  filter (λ r, artrow_task r = pk) l = imap row k → (∀ i x, artrow_canonical_bytes (row i x) = h x) →
  sum_len artrow_canonical_bytes (filter (λ r, artrow_task r ≠ pk) l)
  = sum_len artrow_canonical_bytes l - sum_len h k.
Proof.
  intros Hl Hh. rewrite (sum_len_split artrow_canonical_bytes (λ r, artrow_task r = pk) l), Hl.
  rewrite (sum_len_imap row artrow_canonical_bytes h) by done. lia.
Qed.

Lemma rep_messages_at db s pk v :
  tasks_represent db s → s !! pk = Some v →
  filter (λ r, mrow_task r = pk) (a2a_task_message db) = imap (message_row_of pk) (view_messages v).
Proof. intros Hrep Hs. fold (messages_for db pk). by rewrite (rep_messages _ _ Hrep), Hs. Qed.

Lemma rep_artifacts_at db s pk v :
  tasks_represent db s → s !! pk = Some v →
  filter (λ r, artrow_task r = pk) (a2a_task_artifact db) = imap (artifact_row_of pk) (view_artifacts v).
Proof. intros Hrep Hs. fold (artifacts_for db pk). by rewrite (rep_artifacts _ _ Hrep), Hs. Qed.

Lemma prune_payload_spec db s key v :
  tasks_represent db s → s !! task_pk key = Some v →
  ∃ db', mark_pruned (delete_payloads db key) key = Ok db'
    ∧ tasks_represent db' (<[task_pk key := prune_content v]> s)
    ∧ a2a_context db' = a2a_context db.
Proof.
  intros Hrep Hs. unfold mark_pruned. cbn [delete_payloads a2a_task].
  rewrite (represented_row _ _ _ _ Hrep Hs). cbn [ok_or mbind result_bind].
  eexists. split; [done|]. split; [|done].
  eapply (represent_update db); [done|..]; cbn [a2a_task a2a_context].
  - done.
  - apply same_rows. unfold statuses_for. cbn [delete_payloads a2a_task_status].
    fold (statuses_for db (task_pk key)). by rewrite (rep_statuses _ _ Hrep), Hs.
  - intros pk'. unfold messages_for. cbn [delete_payloads a2a_task_message]. by rewrite rows_removed.
  - intros pk'. unfold artifacts_for. cbn [delete_payloads a2a_task_artifact]. by rewrite rows_removed.
  - rewrite (views_payload_update _ _ v) by done. rewrite <- (rep_payload _ _ Hrep).
    unfold retained_payload_bytes, view_payload. cbn [delete_payloads a2a_task_message a2a_task_artifact].
    rewrite (sum_removed _ _ _ _ message_text (rep_messages_at _ _ _ _ Hrep Hs)) by done.
    rewrite (sum_removed_artifacts _ _ _ _ artifact_canonical_bytes (rep_artifacts_at _ _ _ _ Hrep Hs))
      by done.
    unfold view_messages, view_artifacts. simpl. lia.
  - done.
  - apply (rep_bindings _ _ Hrep _ _ Hs).
Qed.

Lemma prune_tombstone_spec db s key v :
  tasks_represent db s → s !! task_pk key = Some v →
  ∃ db', delete_task db key = Ok db'
    ∧ tasks_represent db' (delete (task_pk key) s)
    ∧ a2a_context db' = a2a_context db.
Proof.
  intros Hrep Hs. unfold delete_task. rewrite (represented_row _ _ _ _ Hrep Hs).
  cbn [ok_or mbind result_bind]. eexists. split; [done|]. split; [|done]. split.
  - cbn [a2a_task]. by rewrite (rep_tasks _ _ Hrep), fmap_delete.
  - intros pk'. unfold statuses_for. cbn [a2a_task_status]. rewrite rows_removed, lookup_delete.
    case_decide as E; [subst; by rewrite decide_True|]. rewrite decide_False by done.
    apply (rep_statuses _ _ Hrep).
  - intros pk'. unfold messages_for. cbn [a2a_task_message]. rewrite rows_removed, lookup_delete.
    case_decide as E; [subst; by rewrite decide_True|]. rewrite decide_False by done.
    apply (rep_messages _ _ Hrep).
  - intros pk'. unfold artifacts_for. cbn [a2a_task_artifact]. rewrite rows_removed, lookup_delete.
    case_decide as E; [subst; by rewrite decide_True|]. rewrite decide_False by done.
    apply (rep_artifacts _ _ Hrep).
  - pose proof (views_payload_delete _ _ _ Hs) as Hp. rewrite <- (rep_payload _ _ Hrep) in Hp.
    unfold retained_payload_bytes, view_payload in *. cbn [a2a_task_message a2a_task_artifact].
    rewrite (sum_removed _ _ _ _ message_text (rep_messages_at _ _ _ _ Hrep Hs)) by done.
    rewrite (sum_removed_artifacts _ _ _ _ artifact_canonical_bytes (rep_artifacts_at _ _ _ _ Hrep Hs))
      by done. lia.
  - intros pk' v' [_ Hs']%lookup_delete_Some. apply (rep_bindings _ _ Hrep _ _ Hs').
Qed.

Lemma view_due_terminal pk v now :
  view_ok config pk v → prune_due now v → view_terminal v = true.
Proof.
  intros Hv (dc & dt & Hd & _). pose proof (ok_deadlines _ _ _ Hv) as Hdl.
  destruct (view_terminal v); [done|]. congruence.
Qed.

Lemma prune_payload_shrinks s v :
  views_payload s - view_payload v + view_payload (prune_content v) <= views_payload s.
Proof.
  pose proof (view_payload_nonneg v) as Hv. unfold view_payload at 2.
  unfold view_messages, view_artifacts. simpl. lia.
Qed.

Lemma prune_step_ok now s s' : tasks_ok config s → prune_step now s s' → tasks_ok config s'.
Proof.
  intros Hok [pk v dc dt Hs Hp Hd Hle|pk v dc dt Hs Hp Hd Hle]; [|by eapply tasks_ok_delete].
  pose proof (ok_views _ _ Hok _ _ Hs) as Hv. eapply tasks_ok_update; [done..| |].
  - eapply view_ok_prune; [done..|]. eapply view_due_terminal; [done|]. exists dc, dt.
    split; [done|]. by rewrite Hp.
  - pose proof (prune_payload_shrinks s v). pose proof (ok_payload _ _ Hok). lia.
Qed.

Lemma prune_loop_spec rounds db s now out :
  tasks_represent db s → tasks_ok config s → now <= I64_MAX →
  ∃ out' db' s' k,
    prune_loop rounds db now out = Ok (out', db')
    ∧ tasks_represent db' s' ∧ tasks_ok config s' ∧ a2a_context db' = a2a_context db
    ∧ nsteps (prune_step now) k s s'
    ∧ pruned_task_payloads out' + removed_tombstones out'
      = pruned_task_payloads out + removed_tombstones out + Z.of_nat k
    ∧ (k <= rounds)%nat
    ∧ ((k < rounds)%nat → ∀ pk v, s' !! pk = Some v → ¬ prune_due now v).
Proof.
  revert db s out. induction rounds as [|rounds IH]; intros db s out Hrep Hok Hnow.
  { exists out, db, s, 0%nat. split_and!; try done; try lia. constructor. }
  cbn [prune_loop]. destruct (next_candidate_spec db s now Hrep Hok Hnow)
    as [[-> Hnone]|(key & v & Hs & Hdue & ->)]; cbn [mbind result_bind].
  { exists out, db, s, 0%nat. split_and!; try done; try lia. constructor. }
  cbn [candidate_kind candidate_key].
  assert (∃ s1, prune_step now s s1 ∧
    if view_pruned v then s1 = delete (task_pk key) s else s1 = <[task_pk key := prune_content v]> s)
    as (s1 & Hstep & Hs1).
  { destruct Hdue as (dc & dt & Hd & Hle). destruct (view_pruned v) eqn:Hp.
    - eexists. split; [|done]. by eapply prune_tombstone.
    - eexists. split; [|done]. by eapply prune_payload. }
  pose proof (prune_step_ok _ _ _ Hok Hstep) as Hok1.
  destruct (view_pruned v) eqn:Hp; subst s1.
  - destruct (prune_tombstone_spec db s key v Hrep Hs) as (db1 & -> & Hrep1 & Hctx).
    cbn [mbind result_bind].
    edestruct (IH db1 _ (mk_A2ATaskPruneOutcome (pruned_task_payloads out) (removed_tombstones out + 1))
      Hrep1 Hok1 Hnow) as (out' & db' & s' & k & Hl & Hrep' & Hok' & Hctx' & Hk & Hcount & Hle & Hfull).
    exists out', db', s', (S k). rewrite Hl. simpl in Hcount.
    split; [done|]. split; [done|]. split; [done|]. split; [by rewrite Hctx', Hctx|].
    split; [by econstructor|]. split; [lia|]. split; [lia|]. intros. eapply Hfull; [lia|done].
  - destruct (prune_payload_spec db s key v Hrep Hs) as (db1 & -> & Hrep1 & Hctx).
    cbn [mbind result_bind].
    edestruct (IH db1 _ (mk_A2ATaskPruneOutcome (pruned_task_payloads out + 1) (removed_tombstones out))
      Hrep1 Hok1 Hnow) as (out' & db' & s' & k & Hl & Hrep' & Hok' & Hctx' & Hk & Hcount & Hle & Hfull).
    exists out', db', s', (S k). rewrite Hl. simpl in Hcount.
    split; [done|]. split; [done|]. split; [done|]. split; [by rewrite Hctx', Hctx|].
    split; [by econstructor|]. split; [lia|]. split; [lia|]. intros. eapply Hfull; [lia|done].
Qed.

Lemma row_context_view pk v :
  task_pk (view_key v) = pk → row_context_pk pk (task_row_of v) = view_context_pk v.
Proof. by intros <-. Qed.

Lemma context_used_spec db s cpk :
  tasks_represent db s → tasks_ok config s →
  context_used (a2a_task db) cpk = true ↔ cpk ∈ views_contexts s.
Proof.
  intros Hrep Hok. unfold context_used, views_contexts. rewrite existsb_exists, elem_of_map_to_set.
  split.
  - intros ([pk row] & Hin & E). apply list_elem_of_In, elem_of_map_to_list in Hin.
    rewrite (rep_tasks _ _ Hrep), lookup_fmap in Hin. apply fmap_Some in Hin as (v & Hv & ->).
    apply bool_decide_eq_true in E. exists pk, v. split; [done|]. simpl in E.
    by rewrite row_context_view in E by apply (ok_pk _ _ _ (ok_views _ _ Hok _ _ Hv)).
  - intros (pk & v & Hv & <-). exists (pk, task_row_of v). split.
    + apply list_elem_of_In, elem_of_map_to_list. by eapply represented_row.
    + apply bool_decide_eq_true. simpl.
      apply row_context_view, (ok_pk _ _ _ (ok_views _ _ Hok _ _ Hv)).
Qed.

Lemma delete_orphans_spec db s :
  tasks_represent db s → tasks_ok config s → store_represents (delete_orphan_contexts db) s.
Proof.
  intros Hrep Hok.
  assert (∀ cpk row, a2a_context (delete_orphan_contexts db) !! cpk = Some row
            ↔ a2a_context db !! cpk = Some row ∧ cpk ∈ views_contexts s) as Hctx.
  { intros cpk row. cbn [delete_orphan_contexts a2a_context]. rewrite map_lookup_filter_Some. simpl.
    by rewrite (context_used_spec db s). }
  assert (∀ pk v, s !! pk = Some v → view_context_pk v ∈ views_contexts s) as Hin.
  { intros pk v Hs. apply elem_of_map_to_set. eauto. }
  split.
  - destruct Hrep as [Ht Hs Hm Ha Hp Hb]. split; try done.
    intros pk v Hv. destruct (Hb pk v Hv) as (row & Hrow & ?). exists row. split; [|done].
    apply Hctx. eauto.
  - apply set_eq. intros cpk. rewrite elem_of_dom. split.
    + intros [row Hrow]. by apply Hctx in Hrow as [_ ?].
    + intros Hc. pose proof Hc as Hc'. apply elem_of_map_to_set in Hc' as (pk & v & Hv & <-).
      destruct (rep_bindings _ _ Hrep _ _ Hv) as (row & Hrow & _). exists row. apply Hctx. done.
Qed.

Lemma prune_in_spec db s now :
  tasks_represent db s → tasks_ok config s → now <= I64_MAX →
  ∃ out db' s' k,
    prune_in config db now = Ok (out, db')
    ∧ store_represents db' s' ∧ tasks_ok config s'
    ∧ nsteps (prune_step now) k s s'
    ∧ pruned_task_payloads out + removed_tombstones out = Z.of_nat k
    ∧ Z.of_nat k <= max_prune_batch config
    ∧ (Z.of_nat k < max_prune_batch config → ∀ pk v, s' !! pk = Some v → ¬ prune_due now v).
Proof.
  intros Hrep Hok Hnow. unfold prune_in. pose proof (config_batch _ Hcfg) as Hb.
  destruct (prune_loop_spec (Z.to_nat (max_prune_batch config)) db s now
    (mk_A2ATaskPruneOutcome 0 0) Hrep Hok Hnow)
    as (out & db' & s' & k & -> & Hrep' & Hok' & _ & Hk & Hcount & Hle & Hfull).
  cbn [mbind result_bind]. simpl in Hcount. exists out, (delete_orphan_contexts db'), s', k.
  split; [done|]. split; [by apply delete_orphans_spec|]. split; [done|]. split; [done|].
  split; [lia|]. split; [lia|]. intros Hlt. apply Hfull. lia.
Qed.

Lemma prune_in_late db now : I64_MAX < now → prune_in config db now = Err InvalidConfiguration.
Proof.
  intros Hnow. pose proof (config_batch _ Hcfg) as Hb. unfold prune_in.
  destruct (Z.to_nat (max_prune_batch config)) as [|n] eqn:E; [lia|]. cbn [prune_loop].
  unfold next_retention_candidate, to_sql. by destruct (Z.leb_spec now I64_MAX); [lia|].
Qed.

(** ** Creation *)

Lemma size_contexts db s : store_represents db s → size (a2a_context db) = size (views_contexts s).
Proof. intros [_ Hdom]. by rewrite <- Hdom, size_dom. Qed.

Lemma context_present db s c :
  store_represents db s →
  is_Some (a2a_context db !! creation_context_pk c) ↔ creation_context_pk c ∈ views_contexts s.
Proof. intros [_ Hdom]. by rewrite <- Hdom, elem_of_dom. Qed.

Lemma bound_elsewhere_row db s c row :
  store_represents db s → a2a_context db !! creation_context_pk c = Some row →
  bound_elsewhere s c ↔ crow_conversation_id row ≠ creation_conversation_id c
                        ∨ crow_target_device_id row ≠ creation_target_device_id c.
Proof.
  intros [Hrep Hdom] Hrow. unfold bound_elsewhere. split.
  - intros (pk & v & Hv & Hc & Hne). destruct (rep_bindings _ _ Hrep _ _ Hv) as (row' & Hrow' & H1 & H2).
    rewrite Hc, Hrow in Hrow'. injection Hrow' as <-. by rewrite H1, H2.
  - intros Hne. assert (creation_context_pk c ∈ views_contexts s) as Hin.
    { rewrite <- Hdom. by apply elem_of_dom_2 in Hrow. }
    apply elem_of_map_to_set in Hin as (pk & v & Hv & Hc).
    destruct (rep_bindings _ _ Hrep _ _ Hv) as (row' & Hrow' & H1 & H2).
    rewrite Hc, Hrow in Hrow'. injection Hrow' as <-. exists pk, v. by rewrite <- H1, <- H2.
Qed.

Lemma not_bound_elsewhere_new s c :
  creation_context_pk c ∉ views_contexts s → ¬ bound_elsewhere s c.
Proof.
  intros Hc (pk & v & Hv & Hcv & _). apply Hc. apply elem_of_map_to_set. eauto.
Qed.

Lemma contexts_insert s pk v :
  s !! pk = None → views_contexts (<[pk := v]> s) = {[view_context_pk v]} ∪ views_contexts s.
Proof. intros Hs. unfold views_contexts. by apply map_to_set_insert_L. Qed.

Lemma contexts_update s pk v v' :
  s !! pk = Some v → view_context_pk v' = view_context_pk v →
  views_contexts (<[pk := v']> s) = views_contexts s.
Proof.
  intros Hs Hc. rewrite <- (insert_delete_id s pk v Hs) at 2. rewrite <- (insert_delete_eq s pk v').
  rewrite !contexts_insert by apply lookup_delete_eq. by rewrite Hc.
Qed.

(** The context row of the creation exists after [ensure_context_binding]. *)
Lemma ensure_context_spec db s c :
  store_represents db s → tasks_ok config s → creation_created_at c <= I64_MAX →
  (bound_elsewhere s c ∧ ensure_context_binding config db c = Err Conflict)
  ∨ (¬ bound_elsewhere s c ∧
     ((bool_decide (creation_context_pk c ∉ views_contexts s)
       && (max_tasks config <=? Z.of_nat (size (views_contexts s))) = true
       ∧ ensure_context_binding config db c = Err CapacityExceeded)
      ∨ (bool_decide (creation_context_pk c ∉ views_contexts s)
         && (max_tasks config <=? Z.of_nat (size (views_contexts s))) = false
         ∧ ∃ db' row, ensure_context_binding config db c = Ok db'
           ∧ tasks_represent db' s
           ∧ dom (a2a_context db') = {[creation_context_pk c]} ∪ views_contexts s
           ∧ a2a_context db' !! creation_context_pk c = Some row
           ∧ crow_conversation_id row = creation_conversation_id c
           ∧ crow_target_device_id row = creation_target_device_id c))).
Proof.
  intros Hst Hok Ht. unfold ensure_context_binding. fold (creation_context_pk c).
  pose proof (context_present db s c Hst) as Hpres. destruct Hst as [Hrep Hdom] eqn:Hst'.
  destruct (a2a_context db !! creation_context_pk c) as [row|] eqn:Hrow.
  - pose proof (bound_elsewhere_row db s c row Hst Hrow) as Hbound.
    assert (creation_context_pk c ∈ views_contexts s) as Hin by (apply Hpres; eauto).
    rewrite (bool_decide_eq_false_2 (creation_context_pk c ∉ views_contexts s)) by tauto.
    destruct (decide (bound_elsewhere s c)) as [Hb|Hb].
    + left. split; [done|]. apply Hbound in Hb. rewrite (proj2 (fail_if_Err _ _ Conflict)); [done|].
      split; [|done]. apply orb_true_iff. rewrite !bool_decide_eq_true. done.
    + right. split; [done|]. right. split; [done|]. rewrite Hbound in Hb.
      exists db, row. pass_guard by (apply orb_false_iff; rewrite !bool_decide_eq_false; tauto).
      split; [done|]. split; [done|]. split; [set_solver|]. split; [done|].
      split; apply dec_stable; tauto.
  - assert (creation_context_pk c ∉ views_contexts s) as Hin.
    { intros Hin. apply Hpres in Hin as [? ?]. done. }
    right. split; [by apply not_bound_elsewhere_new|].
    rewrite (bool_decide_eq_true_2 (creation_context_pk c ∉ views_contexts s)) by done.
    pass_guard by (apply not_true_is_false; by rewrite (context_used_spec db s) by done).
    rewrite (size_contexts db s) by done. cbn [andb].
    destruct (max_tasks config <=? Z.of_nat (size (views_contexts s))) eqn:Hsz; [by left|right].
    split; [done|]. cbn [fail_if mbind result_bind]. rewrite to_sql_fits by done. cbn [mbind result_bind].
    eexists _, _. split; [done|]. cbn [a2a_context]. rewrite lookup_insert_eq.
    split; [|split; [by rewrite dom_insert_L, Hdom|done]].
    destruct Hrep as [Htk Hs Hm Ha Hp Hb]. split; try done. intros pk v Hv.
    destruct (Hb pk v Hv) as (row & Hr & ?). exists row. split; [|done]. cbn [a2a_context].
    rewrite lookup_insert_ne; [done|]. intros E. rewrite <- E in Hr. congruence.
Qed.

(** One operation of the store does what the abstract operation says: the same answer,
    and tables that represent the state it leads to; an error leaves the tables alone. *)
Definition refines {A} (db : A2ADb) (step : result A2ATaskStoreError A * A2ADb)
    (spec : result A2ATaskStoreError (A * task_views)) : Prop :=
  match spec with
  | Ok (out, s) => step.1 = Ok out ∧ store_represents step.2 s ∧ tasks_ok config s
  | Err e => step = (Err e, db)
  end.

(** What one retention sweep may have done: at most a batch of steps, and all that were
    due if it did less. *)
Definition swept (now : Z) (s s' : task_views) : Prop :=
  ∃ k, nsteps (prune_step now) k s s' ∧ Z.of_nat k <= max_prune_batch config
     ∧ (Z.of_nat k < max_prune_batch config → ∀ pk v, s' !! pk = Some v → ¬ prune_due now v).

Lemma prune_sweeps db s now :
  store_represents db s → tasks_ok config s → now <= I64_MAX →
  ∃ out db' s', prune_in config db now = Ok (out, db') ∧ store_represents db' s'
    ∧ tasks_ok config s' ∧ swept now s s'.
Proof.
  intros [Hrep _] Hok Hnow.
  destruct (prune_in_spec db s now Hrep Hok Hnow) as (out & db' & s' & k & Hp & Hst & Hok' & Hk & _ & Hle & Hfull).
  exists out, db', s'. split; [done|]. split; [done|]. split; [done|]. by exists k.
Qed.

(** Nothing that survives a sweep changes but by losing its content. *)
Lemma prune_step_view now s s' pk v :
  prune_step now s s' → s' !! pk = Some v →
  s !! pk = Some v ∨ ∃ v0, s !! pk = Some v0 ∧ v = prune_content v0.
Proof.
  intros [pk' v' dc dt Hs _ _ _|pk' v' dc dt Hs _ _ _] Hv.
  - apply lookup_insert_Some in Hv as [[-> <-]|[_ Hv]]; eauto.
  - apply lookup_delete_Some in Hv as [_ Hv]. eauto.
Qed.

Lemma prune_steps_view now k s s' pk v :
  nsteps (prune_step now) k s s' → s' !! pk = Some v →
  ∃ v0, s !! pk = Some v0 ∧ (v = v0 ∨ v = prune_content v0).
Proof.
  intros Hk. induction Hk as [s|k s s1 s' Hstep Hk IH]; intros Hv; [eauto|].
  destruct (IH Hv) as (v1 & Hv1 & E). destruct (prune_step_view _ _ _ _ _ Hstep Hv1) as [?|(v0 & ? & ->)].
  - eauto.
  - exists v0. split; [done|]. right. by destruct E as [->| ->].
Qed.

Lemma swept_view now s s' pk v :
  swept now s s' → s' !! pk = Some v →
  ∃ v0, s !! pk = Some v0 ∧ (v = v0 ∨ v = prune_content v0).
Proof. intros (k & Hk & _). by eapply prune_steps_view. Qed.

Lemma payload_capacity db s additional :
  tasks_represent db s → tasks_ok config s → 0 <= additional <= MAX_A2A_STORED_ARTIFACT_BYTES →
  require_payload_capacity config db additional
  = fail_if (max_payload_bytes config <? views_payload s + additional) CapacityExceeded.
Proof.
  intros Hrep Hok Ha. unfold require_payload_capacity. rewrite (rep_payload _ _ Hrep).
  pose proof (ok_payload _ _ Hok). pose proof (config_payload _ Hcfg).
  rewrite checked_add_fits; [done|].
  unfold USIZE_MAX, U64_MAX, MAX_A2A_STORED_ARTIFACT_BYTES, HARD_MAX_PAYLOAD_BYTES in *. lia.
Qed.

Lemma A2ATaskMessage_new_Ok key id role value recorded_at :
  0 < len value <= MAX_A2A_TEXT_BYTES →
  A2ATaskMessage_new key id role value recorded_at = Ok (mk_A2ATaskMessage key id role value recorded_at).
Proof.
  intros Hl. unfold A2ATaskMessage_new.
  by pass_guard by (apply orb_false_iff; split; [apply Z.eqb_neq|apply Z.ltb_ge]; lia).
Qed.

Lemma create_new_refines db db1 s c row :
  tasks_represent db1 s → tasks_ok config s → creation_ok c → creation_created_at c <= I64_MAX →
  0 < len (creation_request_text c) <= MAX_A2A_TEXT_BYTES →
  s !! task_pk (creation_key c) = None →
  dom (a2a_context db1) = {[creation_context_pk c]} ∪ views_contexts s →
  a2a_context db1 !! creation_context_pk c = Some row →
  crow_conversation_id row = creation_conversation_id c →
  crow_target_device_id row = creation_target_device_id c →
  refines db (transact db (
    require_task_capacity config db1;;
    require_payload_capacity config db1 (len (creation_request_text c));;
    db ← insert_task db1 c;
    db ← insert_status db (creation_key c) 0 Submitted None (creation_created_at c);
    db ← insert_message db (mk_A2ATaskMessage (creation_key c) (creation_source_message_id c) User
        (creation_request_text c) (creation_created_at c)) 1;
    task ← load_task db (creation_key c);
    Ok (TaskCreated task, db)))
  (fail_if (max_tasks config <=? Z.of_nat (size s)) CapacityExceeded;;
   fail_if (max_payload_bytes config <? views_payload s + len (creation_request_text c))
     CapacityExceeded;;
   Ok (TaskCreated (record_of (new_view c)), <[task_pk (creation_key c) := new_view c]> s)).
Proof.
  intros Hrep Hok Hc Ht Htext Hnone Hdom Hrow Hr1 Hr2.
  unfold require_task_capacity. rewrite (rep_tasks _ _ Hrep), map_size_fmap.
  destruct (max_tasks config <=? Z.of_nat (size s)) eqn:Hsz; [done|]. cbn [fail_if mbind result_bind].
  rewrite (payload_capacity db1 s) by (done || unfold MAX_A2A_TEXT_BYTES, MAX_A2A_STORED_ARTIFACT_BYTES in *; lia).
  destruct (max_payload_bytes config <? _) eqn:Hpay; [done|]. cbn [fail_if mbind result_bind].
  destruct Hc as [Hc1 Hc2 Hc3] eqn:Hc'.
  destruct (insert_new_task_spec db1 s c row) as (d1 & d2 & d3 & -> & H2 & H3 & Hrep' & Hctx);
    [done..|lia|done|done|done|].
  cbn [mbind result_bind]. rewrite H2. cbn [mbind result_bind]. rewrite H3. cbn [mbind result_bind].
  assert (tasks_ok config (<[task_pk (creation_key c) := new_view c]> s)) as Hok'.
  { apply tasks_ok_insert; [done..|by apply view_ok_new|bool_prop; lia|]. bool_prop.
    unfold view_payload, view_messages, view_artifacts. simpl. lia. }
  rewrite (load_task_spec config Hcfg d3 _ (creation_key c) Hrep' Hok'), lookup_insert_eq.
  cbn [mbind result_bind]. split; [done|]. split; [|done]. split; [done|]. simpl.
  rewrite Hctx, Hdom, contexts_insert by done. done.
Qed.

Lemma create_task_refines db s c :
  store_represents db s → tasks_ok config s → creation_ok c → creation_created_at c <= I64_MAX →
  0 < len (creation_request_text c) <= MAX_A2A_TEXT_BYTES →
  (∀ v, s !! task_pk (creation_key c) = Some v →
        view_identity_digest v = creation_identity_digest c → view_context_pk v = creation_context_pk c) →
  ∃ s1, swept (creation_created_at c) s s1 ∧ tasks_ok config s1
    ∧ refines db (create_task config db c) (create_spec config s1 c).
Proof.
  intros Hst Hok Hc Ht Htext Hcoll. unfold create_task.
  rewrite A2ATaskMessage_new_Ok by done. cbn [mbind result_bind].
  destruct (prune_sweeps db s (creation_created_at c) Hst Hok Ht) as (out & db0 & s1 & -> & Hst1 & Hok1 & Hsw).
  exists s1. split; [done|]. split; [done|]. cbn [mbind result_bind]. unfold create_spec.
  destruct (ensure_context_spec db0 s1 c Hst1 Hok1 Ht)
    as [[Hb ->]|[Hb [[-> ->]|(-> & db1 & row & -> & Hrep1 & Hdom & Hrow & Hr1 & Hr2)]]].
  { by rewrite (bool_decide_eq_true_2 (bound_elsewhere s1 c)). }
  { by rewrite (bool_decide_eq_false_2 (bound_elsewhere s1 c)). }
  rewrite (bool_decide_eq_false_2 (bound_elsewhere s1 c)) by done. cbn [fail_if mbind result_bind].
  rewrite (load_task_optional_spec config Hcfg db1 s1) by done. cbn [mbind result_bind].
  destruct (s1 !! task_pk (creation_key c)) as [v|] eqn:Hs1; cbn [fmap option_fmap option_map].
  - cbn [record_of record_identity_digest]. case_bool_decide as Hd; [|done]. cbn [transact].
    split; [done|]. split; [|done]. split; [done|]. simpl. rewrite Hdom.
    destruct (swept_view _ _ _ _ _ Hsw Hs1) as (v0 & Hv0 & E).
    assert (view_context_pk v = creation_context_pk c) as <-.
    { destruct E as [->| ->]; [by apply Hcoll|]. apply (Hcoll v0 Hv0). exact Hd. }
    assert (view_context_pk v ∈ views_contexts s1) by (apply elem_of_map_to_set; eauto).
    set_solver.
  - cbn [message_text]. by eapply create_new_refines.
Qed.

(** ** Transitions *)

Lemma represents_update_contexts db db' s pk v v' :
  store_represents db s → s !! pk = Some v → view_context_pk v' = view_context_pk v →
  tasks_represent db' (<[pk := v']> s) → a2a_context db' = a2a_context db →
  store_represents db' (<[pk := v']> s).
Proof.
  intros [_ Hdom] Hs Hc Hrep Hctx. split; [done|].
  by rewrite Hctx, Hdom, (contexts_update _ _ v).
Qed.

(** The plan of [policy.rs] on a represented task. *)
Lemma plan_spec pk v t :
  view_ok config pk v → view_key v = transition_key t →
  plan_a2a_task_transition (record_of v) t
  = (let c := current_status v in
     if bool_decide (status_generation c ≠ transition_expected_generation t) then
       if (transition_expected_generation t + 1 =? status_generation c)
          && bool_decide (status_state c = transition_state t)
          && bool_decide (reason_str <$> status_terminal_reason c
                          = reason_str <$> transition_terminal_reason t)
       then Ok Existing else Err Conflict
     else
       fail_if (negb (a2a_task_state_transition_is_allowed (status_state c) (transition_state t))
                || negb (a2a_task_status_reason_is_valid (transition_state t)
                           (transition_terminal_reason t))
                || (transition_occurred_at t <? status_occurred_at c)) InvalidTransition;;
       Ok (if bool_decide (transition_state t = Completed) then RequireCompletionEvidence else Apply)).
Proof.
  intros Hv Hk. destruct (current_status_facts _ _ _ Hv) as (Hg & _ & _).
  unfold plan_a2a_task_transition. cbn [record_of record_key record_generation record_state
    record_terminal_reason record_updated_at]. rewrite Hk.
  pass_guard by (by apply bool_decide_neq_false). cbv zeta.
  assert (is_some_and (checked_add U64_MAX (transition_expected_generation t) 1)
            (λ generation, generation =? status_generation (current_status v))
          = (transition_expected_generation t + 1 =? status_generation (current_status v))) as ->; [|done].
  unfold checked_add. destruct (Z.leb_spec (transition_expected_generation t + 1) U64_MAX); [done|].
  simpl. symmetry. apply Z.eqb_neq. unfold U64_MAX in *. lia.
Qed.

Lemma transition_deadlines_fit t :
  0 <= transition_occurred_at t → transition_time_fits config t = true →
  transition_occurred_at t <= I64_MAX
  ∧ (a2a_task_state_is_terminal (transition_state t) = true →
       transition_occurred_at t + idempotency_retention_milliseconds config <= I64_MAX).
Proof.
  pose proof (config_content _ Hcfg). pose proof (config_idempotency _ Hcfg).
  unfold transition_time_fits. destruct (a2a_task_state_is_terminal (transition_state t)); bool_prop;
    split; try done; lia.
Qed.

(** Writing the new status: the deadlines are computed, stored and read back. *)
Lemma transition_write_spec db s v t :
  store_represents db s → tasks_ok config s → s !! task_pk (transition_key t) = Some v →
  0 <= transition_occurred_at t →
  status_follows (current_status v) (status_of_transition v t) ∨ I64_MAX < transition_occurred_at t →
  refines db (transact db (
      generation ← ok_or (checked_add U64_MAX (status_generation (current_status v)) 1) CorruptData;
      '(terminal_at, content_expires_at, tombstone_expires_at) ← transition_deadlines config t;
      generation_sql ← to_sql generation;
      updated_at ← to_sql (transition_occurred_at t);
      terminal_at ← opt_traverse to_sql terminal_at;
      content_expires_at ← opt_traverse to_sql content_expires_at;
      tombstone_expires_at ← opt_traverse to_sql tombstone_expires_at;
      current_generation ← to_sql (status_generation (current_status v));
      db ← ok_or (update_task db (transition_key t) (transition_state t) generation_sql updated_at
                    terminal_at (transition_terminal_reason t) content_expires_at
                    tombstone_expires_at current_generation) Conflict;
      db ← insert_status db (transition_key t) generation (transition_state t)
             (transition_terminal_reason t) (transition_occurred_at t);
      task ← load_task db (transition_key t);
      Ok (TransitionApplied task, db)))
   (fail_if (negb (transition_time_fits config t)) InvalidConfiguration;;
    let status := status_of_transition v t in
    let v' := add_status v status (status_deadlines config status) in
    Ok (TransitionApplied (record_of v'), <[task_pk (transition_key t) := v']> s)).
Proof.
  intros Hst Hok Hs Hpos Hf. pose proof (ok_views _ _ Hok _ _ Hs) as Hv.
  destruct (current_status_facts _ _ _ Hv) as (Hg & _ & _).
  pose proof (config_content _ Hcfg) as Hcc. pose proof (config_idempotency _ Hcfg) as Hci.
  rewrite checked_add_fits by (unfold U64_MAX; lia). cbn [ok_or mbind result_bind].
  destruct (transition_time_fits config t) eqn:Hfit; cbn [negb fail_if mbind result_bind].
  - destruct (transition_deadlines_fit t Hpos Hfit) as [Hle Hterm].
    destruct Hf as [Hf|?]; [|lia].
    destruct (record_status_spec config db s (transition_key t) v (status_of_transition v t)
      (status_deadlines config (status_of_transition v t)) (proj1 Hst) Hok Hs Hf)
      as (db1 & db2 & Hu & Hi & Hrep & Hctx).
    cbn [status_of_transition status_state status_generation status_occurred_at
      status_terminal_reason] in Hu, Hi.
    assert (tasks_ok config (<[task_pk (transition_key t) := add_status v (status_of_transition v t)
             (status_deadlines config (status_of_transition v t))]> s)) as Hok'.
    { eapply tasks_ok_update; [done..|by apply view_ok_add_status|].
      pose proof (ok_payload _ _ Hok). unfold view_payload, view_messages, view_artifacts. simpl. lia. }
    unfold transition_deadlines, status_deadlines in *. cbn [status_of_transition status_state
      status_occurred_at] in *.
    destruct (a2a_task_state_is_terminal (transition_state t)).
    + specialize (Hterm eq_refl). rewrite !checked_add_fits by (unfold I64_MAX, U64_MAX in *; lia).
      cbn [ok_or mbind result_bind opt_traverse]. rewrite !to_sql_fits by (unfold I64_MAX in *; lia).
      cbn [fmap result_fmap mbind result_bind]. cbn [fmap option_fmap option_map fst snd] in Hu.
      rewrite Hu. cbn [ok_or mbind result_bind]. rewrite Hi. cbn [mbind result_bind].
      rewrite (load_task_spec config Hcfg db2 _ (transition_key t) Hrep Hok'), lookup_insert_eq.
      cbn [mbind result_bind transact]. split; [done|]. split; [|done].
      by eapply (represents_update_contexts db).
    + cbn [mbind result_bind opt_traverse]. rewrite !to_sql_fits by (unfold I64_MAX in *; lia).
      cbn [mbind result_bind]. cbn [fmap option_fmap option_map] in Hu.
      rewrite Hu. cbn [ok_or mbind result_bind]. rewrite Hi. cbn [mbind result_bind].
      rewrite (load_task_spec config Hcfg db2 _ (transition_key t) Hrep Hok'), lookup_insert_eq.
      cbn [mbind result_bind transact]. split; [done|]. split; [|done].
      by eapply (represents_update_contexts db).
  - clear Hf. unfold transition_time_fits in Hfit. unfold transition_deadlines.
    destruct (a2a_task_state_is_terminal (transition_state t)); apply Z.leb_gt in Hfit.
    + unfold checked_add.
      destruct (Z.leb_spec (transition_occurred_at t + content_retention_milliseconds config) U64_MAX); [|done].
      destruct (Z.leb_spec (transition_occurred_at t + idempotency_retention_milliseconds config) U64_MAX); [|done].
      cbn [ok_or mbind result_bind opt_traverse]. rewrite (to_sql_fits (_ + 1)) by (unfold I64_MAX; lia).
      cbn [mbind result_bind]. unfold to_sql.
      destruct (Z.leb_spec (transition_occurred_at t) I64_MAX); [|done].
      destruct (Z.leb_spec (transition_occurred_at t + content_retention_milliseconds config) I64_MAX); [|done].
      destruct (Z.leb_spec (transition_occurred_at t + idempotency_retention_milliseconds config) I64_MAX); [lia|done].
    + cbn [mbind result_bind]. rewrite (to_sql_fits (_ + 1)) by (unfold I64_MAX; lia).
      cbn [mbind result_bind]. unfold to_sql.
      destruct (Z.leb_spec (transition_occurred_at t) I64_MAX); [lia|done].
Qed.

Lemma transition_task_refines db s t :
  store_represents db s → tasks_ok config s → 0 <= transition_occurred_at t →
  refines db (transition_task config db t) (transition_spec config s t).
Proof.
  intros Hst Hok Hpos. unfold transition_task, transition_spec.
  rewrite (load_task_spec config Hcfg db s) by (apply Hst || done).
  destruct (s !! task_pk (transition_key t)) as [v|] eqn:Hs; [|done]. cbn [ok_or mbind result_bind].
  pose proof (ok_views _ _ Hok _ _ Hs) as Hv. pose proof (view_key_of _ _ _ _ Hok Hs) as Hkey.
  rewrite (plan_spec _ _ _ Hv Hkey). cbv zeta.
  destruct (bool_decide (status_generation (current_status v) ≠ transition_expected_generation t)).
  { destruct (_ && _ && _); [|done]. split; [done|]. by split. }
  destruct (negb (a2a_task_state_transition_is_allowed _ _)
            || negb (a2a_task_status_reason_is_valid _ _) || (_ <? _)) eqn:Hguard; [done|].
  cbn [orb fail_if mbind result_bind]. apply orb_false_iff in Hguard as [Hguard Htime].
  apply orb_false_iff in Hguard as [Hal Hre]. apply negb_false_iff in Hal, Hre. apply Z.ltb_ge in Htime.
  cbn [record_of record_key record_generation]. rewrite Hkey, (evidence_spec db s _ v (proj1 Hst) Hs).
  assert (status_follows (current_status v) (status_of_transition v t)
          ∨ I64_MAX < transition_occurred_at t) as Hf.
  { destruct (Z.le_gt_cases (transition_occurred_at t) I64_MAX); [left|by right].
    split; simpl; done || lia. }
  pose proof (transition_write_spec db s v t Hst Hok Hs Hpos Hf) as Hw.
  destruct (decide (transition_state t = Completed)) as [Hc|Hc].
  - rewrite (bool_decide_eq_true_2 (transition_state t = Completed)) by done. cbn [andb].
    rewrite (bool_decide_eq_false_2 (RequireCompletionEvidence = Existing)) by done.
    rewrite (bool_decide_eq_true_2 (RequireCompletionEvidence = RequireCompletionEvidence)) by done.
    unfold validate_completion_evidence. rewrite bool_decide_eq_true_2 by done. cbn [andb].
    destruct (view_evidence v); [|done]. cbn [negb fail_if mbind result_bind]. exact Hw.
  - rewrite (bool_decide_eq_false_2 (transition_state t = Completed)) by done. cbn [andb].
    rewrite (bool_decide_eq_false_2 (Apply = Existing)) by done.
    rewrite (bool_decide_eq_false_2 (Apply = RequireCompletionEvidence)) by done.
    cbn [fail_if mbind result_bind]. exact Hw.
Qed.

(** ** Messages and artifacts *)

Record message_typed (m : A2ATaskMessage) : Prop := {
  typed_message_text : 0 < len (message_text m) <= MAX_A2A_TEXT_BYTES;
  typed_message_time : 0 <= message_recorded_at m }.

Record artifact_typed (a : A2ATaskArtifact) : Prop := {
  typed_artifact_bytes : 0 < len (artifact_canonical_bytes a) <= MAX_A2A_STORED_ARTIFACT_BYTES;
  typed_artifact_digest : artifact_content_digest a = sha256 (artifact_canonical_bytes a);
  typed_artifact_time : 0 <= artifact_recorded_at a }.

Lemma list_find_None_fmap {A B} `{EqDecision B} (f : A → B) (y : B) (l : list A) :
  list_find (λ x, f x = y) l = None → y ∉ (f <$> l).
Proof.
  rewrite list_find_None, Forall_forall. intros Hl (x & -> & Hx)%list_elem_of_fmap.
  by apply (Hl x).
Qed.

Lemma active_content pk v : view_ok config pk v → view_terminal v = false → ∃ c, view_content v = Some c.
Proof.
  intros Hv Ht. destruct (view_content v) as [c|] eqn:E; [eauto|].
  pose proof (ok_pruned _ _ _ Hv E). congruence.
Qed.

Lemma terminal_or_pruned pk v : view_ok config pk v → view_terminal v || view_pruned v = view_terminal v.
Proof.
  intros Hv. unfold view_pruned. destruct (view_content v) eqn:E; simpl; [apply orb_false_r|].
  by rewrite (ok_pruned _ _ _ Hv E).
Qed.

Lemma insert_message_late db m n : I64_MAX < message_recorded_at m → n <= I64_MAX → insert_message db m n = Err InvalidConfiguration.
Proof.
  intros Hm Hn. unfold insert_message. rewrite (to_sql_fits n) by done. simpl. unfold to_sql.
  by destruct (Z.leb_spec (message_recorded_at m) I64_MAX); [lia|].
Qed.

Lemma insert_artifact_late db a n : I64_MAX < artifact_recorded_at a → n <= I64_MAX → insert_artifact db a n = Err InvalidConfiguration.
Proof.
  intros Ha Hn. unfold insert_artifact. rewrite (to_sql_fits n) by done. simpl. unfold to_sql.
  by destruct (Z.leb_spec (artifact_recorded_at a) I64_MAX); [lia|].
Qed.

Lemma append_message_refines db s m now :
  store_represents db s → tasks_ok config s → message_typed m → now <= I64_MAX →
  ∃ s1, swept now s s1 ∧ tasks_ok config s1
    ∧ refines db (append_message config db m now) (message_spec config s1 m).
Proof.
  intros Hst0 Hok0 [Htext Hpos] Hnow. unfold append_message.
  destruct (prune_sweeps db s now Hst0 Hok0 Hnow) as (out & db1 & s1 & -> & Hst & Hok & Hsw).
  exists s1. split; [done|]. split; [done|]. cbn [mbind result_bind]. unfold message_spec.
  rewrite (load_task_spec config Hcfg db1 s1) by (apply Hst || done).
  destruct (s1 !! task_pk (message_key m)) as [v|] eqn:Hs; [|done]. cbn [ok_or mbind result_bind].
  pose proof (ok_views _ _ Hok _ _ Hs) as Hv. pose proof (view_key_of _ _ _ _ Hok Hs) as Hkey.
  rewrite (existing_message_spec config Hcfg db1 s1 _ v) by (apply Hst || done). cbn [mbind result_bind].
  destruct (list_find _ _) as [[i m']|] eqn:Hfind; cbn [fmap option_fmap option_map fst snd].
  { case_bool_decide; [|done]. split; [done|]. by split. }
  apply list_find_None_fmap in Hfind.
  change (record_state (record_of v)) with (view_state v). fold (view_terminal v).
  change (record_content_pruned (record_of v)) with (view_pruned v).
  rewrite (terminal_or_pruned _ _ Hv). destruct (view_terminal v) eqn:Hterm; [done|].
  cbn [fail_if mbind result_bind]. destruct (active_content _ _ Hv Hterm) as [c Hc].
  rewrite (message_count_spec db1 s1 _ v) by (apply Hst || done).
  destruct (max_messages_per_task config <=? len (view_messages v)) eqn:Hcount; [done|].
  cbn [fail_if mbind result_bind]. apply Z.leb_gt in Hcount.
  rewrite (payload_capacity db1 s1)
    by (apply Hst || done || unfold MAX_A2A_TEXT_BYTES, MAX_A2A_STORED_ARTIFACT_BYTES in *; lia).
  destruct (max_payload_bytes config <? _) eqn:Hpay; [done|]. cbn [fail_if mbind result_bind].
  apply Z.ltb_ge in Hpay. pose proof (config_messages _ Hcfg) as Hm. unfold MAX_PAGE_SIZE in Hm.
  rewrite checked_add_fits by (unfold U64_MAX; lia). cbn [ok_or mbind result_bind].
  destruct (Z.ltb_spec I64_MAX (message_recorded_at m)) as [Hlate|Htime].
  { rewrite insert_message_late by (unfold I64_MAX in *; lia). done. }
  assert (message_ok (view_key v) m) as Hmok by (split; done || lia).
  destruct (insert_message_spec config Hcfg db1 s1 (message_key m) v c m) as (db2 & -> & Hrep & Hctx);
    [apply Hst|done..|by rewrite <- Hkey at 1|done|].
  cbn [fail_if mbind result_bind transact]. split; [done|]. split.
  - eapply (represents_update_contexts db1); done.
  - eapply tasks_ok_update; [done..|by eapply view_ok_add_message|].
    unfold view_payload. rewrite (view_messages_add _ _ _ Hc), sum_len_app.
    unfold view_artifacts, add_message. rewrite Hc. simpl. lia.
Qed.

Lemma append_artifact_refines db s a now working maximum :
  store_represents db s → tasks_ok config s → artifact_typed a → now <= I64_MAX →
  1 <= maximum <= MAX_PAGE_SIZE →
  ∃ s1, swept now s s1 ∧ tasks_ok config s1
    ∧ refines db (append_artifact_in_state config db a now working maximum)
        (artifact_spec config s1 a working maximum).
Proof.
  intros Hst0 Hok0 [Hbytes Hdig Hpos] Hnow Hmax. unfold append_artifact_in_state.
  pass_guard by (apply orb_false_iff; split; [apply Z.eqb_neq|apply Z.ltb_ge]; lia). cbv zeta.
  destruct (prune_sweeps db s now Hst0 Hok0 Hnow) as (out & db1 & s1 & -> & Hst & Hok & Hsw).
  exists s1. split; [done|]. split; [done|]. cbn [mbind result_bind]. unfold artifact_spec.
  rewrite (load_task_spec config Hcfg db1 s1) by (apply Hst || done).
  destruct (s1 !! task_pk (artifact_key a)) as [v|] eqn:Hs; [|done]. cbn [ok_or mbind result_bind].
  pose proof (ok_views _ _ Hok _ _ Hs) as Hv. pose proof (view_key_of _ _ _ _ Hok Hs) as Hkey.
  rewrite (existing_artifact_spec config Hcfg db1 s1 _ v) by (apply Hst || done). cbn [mbind result_bind].
  destruct (list_find _ _) as [[i a']|] eqn:Hfind; cbn [fmap option_fmap option_map fst snd].
  { case_bool_decide; [|done]. split; [done|]. by split. }
  apply list_find_None_fmap in Hfind.
  change (record_state (record_of v)) with (view_state v). fold (view_terminal v).
  change (record_content_pruned (record_of v)) with (view_pruned v).
  rewrite (terminal_or_pruned _ _ Hv).
  destruct (view_terminal v || (working && bool_decide (view_state v ≠ Working))) eqn:Hguard; [done|].
  apply orb_false_iff in Hguard as [Hterm _].
  cbn [fail_if mbind result_bind]. destruct (active_content _ _ Hv Hterm) as [c Hc].
  rewrite (artifact_count_spec db1 s1 _ v) by (apply Hst || done).
  destruct (Z.min maximum (max_artifacts_per_task config) <=? len (view_artifacts v)) eqn:Hcount; [done|].
  cbn [fail_if mbind result_bind]. apply Z.leb_gt in Hcount.
  rewrite (payload_capacity db1 s1) by (apply Hst || done || lia).
  destruct (max_payload_bytes config <? _) eqn:Hpay; [done|]. cbn [fail_if mbind result_bind].
  apply Z.ltb_ge in Hpay. pose proof (config_artifacts _ Hcfg) as Hm. unfold MAX_PAGE_SIZE in Hm, Hmax.
  rewrite checked_add_fits by (unfold U64_MAX; lia). cbn [ok_or mbind result_bind].
  destruct (Z.ltb_spec I64_MAX (artifact_recorded_at a)) as [Hlate|Htime].
  { rewrite insert_artifact_late by (unfold I64_MAX in *; lia). done. }
  assert (artifact_ok (view_key v) a) as Haok by (split; done || lia).
  destruct (insert_artifact_spec config Hcfg db1 s1 (artifact_key a) v c a) as (db2 & -> & Hrep & Hctx);
    [apply Hst|done..|by rewrite <- Hkey at 1|done|].
  cbn [fail_if mbind result_bind transact]. split; [done|]. split.
  - eapply (represents_update_contexts db1); done.
  - eapply tasks_ok_update; [done..|eapply view_ok_add_artifact; done || lia|].
    unfold view_payload. rewrite (view_artifacts_add _ _ _ Hc), sum_len_app.
    unfold view_messages, add_artifact. rewrite Hc. simpl. lia.
Qed.

Lemma prune_refines db s now :
  store_represents db s → tasks_ok config s → now <= I64_MAX →
  ∃ out s1, swept now s s1 ∧ tasks_ok config s1
    ∧ (prune config db now).1 = Ok out ∧ store_represents (prune config db now).2 s1.
Proof.
  intros Hst Hok Hnow. unfold prune.
  destruct (prune_sweeps db s now Hst Hok Hnow) as (out & db1 & s1 & -> & Hst1 & Hok1 & Hsw).
  exists out, s1. done.
Qed.

End operations.
