(* ===== verification/A2AStoreRun.v ===== *)
(** * Histories of the A2A task store

    [task_op] are the calls that write; [a2a_run] performs a sequence of them and
    [task_steps] is the abstract system they implement.  The theorems hold for every
    sequence of these calls.  The calls that only read are outside [task_op]: what they
    answer on the tables of a history is stated where they are used, among it that
    [status_updates] answers corrupt data for a generation the task has not reached. *)

From S2P Require Import Prelude Identifiers A2AContracts A2ATaskModel A2AStore A2AStoreSpec A2AStoreProofs A2AStoreOps.
Open Scope Z_scope.

(** ** Identity digests *)

Lemma fixed_app_inj {k} (x y : FixedBytes k) (r s : bytes) :
  as_bytes x ++ r = as_bytes y ++ s → x = y ∧ r = s.
Proof.
  pose proof (bytes_length x) as L1. pose proof (bytes_length y) as L2. apply Nat.eqb_eq in L1, L2.
  intros [E ->]%app_inj_1; [|congruence]. by apply as_bytes_inj in E.
Qed.

Lemma append_bytes_inj (x y r s : bytes) :
  len x <= MAX_A2A_IDENTIFIER_BYTES → len y <= MAX_A2A_IDENTIFIER_BYTES →
  append_bytes x ++ r = append_bytes y ++ s → x = y ∧ r = s.
Proof.
  unfold append_bytes, MAX_A2A_IDENTIFIER_BYTES. rewrite <- !(assoc_L (++)).
  intros Hx Hy. apply prefixed_inj; simpl; lia.
Qed.

Lemma append_id_inj {k k'} (x : A2AId k) (y : A2AId k') (r s : bytes) :
  append_bytes (as_str x) ++ r = append_bytes (as_str y) ++ s → as_str x = as_str y ∧ r = s.
Proof. apply append_bytes_inj; apply as_str_length. Qed.

Lemma append_task_key_inj key key' (r s : bytes) :
  append_task_key key ++ r = append_task_key key' ++ s → key = key' ∧ r = s.
Proof.
  unfold append_task_key. rewrite <- !(assoc_L (++)).
  intros [E1 E]%append_bytes_inj; [|apply tenant_str_length..].
  apply append_id_inj in E as [E2%as_str_inj E]. apply append_id_inj in E as [E3%as_str_inj E].
  apply tenant_str_inj in E1. destruct key, key'. simpl in *. by subst.
Qed.

(** The identity hashed for a task determines every field it is made of. *)
Lemma task_identity_preimage_inj key ctx src conv dev rid ret h d key' ctx' src' conv' dev' rid' ret' h' d' :
  (∀ n, h = Some n → is_u32 n) → (∀ n, h' = Some n → is_u32 n) →
  task_identity_preimage key ctx src conv dev rid ret h d
  = task_identity_preimage key' ctx' src' conv' dev' rid' ret' h' d' →
  key = key' ∧ ctx = ctx' ∧ src = src' ∧ conv = conv' ∧ dev = dev' ∧ rid = rid' ∧ ret = ret'
  ∧ h = h' ∧ d = d'.
Proof.
  intros Hh Hh'. unfold task_identity_preimage. intros E%app_inv_head.
  apply append_task_key_inj in E as [-> E]. apply append_id_inj in E as [->%as_str_inj E].
  apply append_id_inj in E as [->%as_str_inj E].
  do 3 apply fixed_app_inj in E as [-> E]. apply app_inj_1 in E as [[= E1] E]; [|done].
  assert (ret = ret') as -> by (by destruct ret, ret').
  destruct h as [n|], h' as [n'|]; try discriminate; [|by injection E as ->].
  rewrite <- !(assoc_L (++)) in E. apply app_inv_head in E.
  apply app_inj_1 in E as [E ->]; [|by rewrite !be_bytes_length].
  specialize (Hh n eq_refl). specialize (Hh' n' eq_refl). unfold is_u32, U32_MAX in *.
  apply be_bytes_inj in E; [by subst|simpl; lia..].
Qed.

(** ** Calls and answers *)

(** The calls that write. *)
Inductive task_op :=
| OpCreate (c : A2ATaskCreation)
| OpTransition (t : A2ATaskTransition)
| OpMessage (m : A2ATaskMessage) (now : Z)
| OpArtifact (a : A2ATaskArtifact) (now : Z)
| OpWorkingArtifact (a : A2ATaskArtifact) (now maximum : Z)
| OpPrune (now : Z).

Inductive task_answer :=
| ACreate (o : CreateA2ATaskOutcome)
| ATransition (o : TransitionA2ATaskOutcome)
| AAppend (o : AppendA2ATaskRecordOutcome)
| APrune (o : A2ATaskPruneOutcome).

Abbreviation task_result := (result A2ATaskStoreError task_answer).

Section run.
Context `{Sha256} (config : A2ASqliteTaskStoreConfig).

Definition a2a_step (db : A2ADb) (op : task_op) : task_result * A2ADb :=
  match op with
  | OpCreate c => let '(r, db) := create_task config db c in (ACreate <$> r, db)
  | OpTransition t => let '(r, db) := transition_task config db t in (ATransition <$> r, db)
  | OpMessage m now => let '(r, db) := append_message config db m now in (AAppend <$> r, db)
  | OpArtifact a now => let '(r, db) := append_artifact config db a now in (AAppend <$> r, db)
  | OpWorkingArtifact a now maximum =>
      let '(r, db) := append_working_artifact config db a now maximum in (AAppend <$> r, db)
  | OpPrune now => let '(r, db) := prune config db now in (APrune <$> r, db)
  end.

Fixpoint a2a_run (db : A2ADb) (ops : list task_op) : list task_result * A2ADb :=
  match ops with
  | [] => ([], db)
  | op :: ops =>
      let '(r, db) := a2a_step db op in
      let '(rs, db) := a2a_run db ops in
      (r :: rs, db)
  end.

(** What the types of the arguments guarantee. *)
Definition op_typed (op : task_op) : Prop :=
  match op with
  | OpCreate c => creation_ok c
  | OpTransition t => 0 <= transition_occurred_at t
  | OpMessage m now => message_typed m
  | OpArtifact a now => artifact_typed a
  | OpWorkingArtifact a now maximum => artifact_typed a ∧ 0 <= maximum
  | OpPrune now => True
  end.

(** Arguments the store refuses before looking at its tables: an empty or oversized
    text, a time or a limit that cannot be stored. *)
Definition op_refused (op : task_op) : Prop :=
  match op with
  | OpCreate c => ¬ 0 < len (creation_request_text c) <= MAX_A2A_TEXT_BYTES
                  ∨ I64_MAX < creation_created_at c
  | OpTransition t => False
  | OpMessage _ now | OpArtifact _ now | OpPrune now => I64_MAX < now
  | OpWorkingArtifact _ now maximum => I64_MAX < now ∨ ¬ 1 <= maximum <= MAX_PAGE_SIZE
  end.

(** ** The abstract system *)

(** Success moves to the new state, an error stays. *)
Definition outcome {A} (wrap : A → task_answer) (s : task_views)
    (spec : result A2ATaskStoreError (A * task_views)) : task_result * task_views :=
  match spec with Ok (a, s') => (Ok (wrap a), s') | Err e => (Err e, s) end.

Inductive task_step (s : task_views) : task_op → task_result → task_views → Prop :=
| step_refused op : op_refused op → task_step s op (Err InvalidConfiguration) s
| step_create c s1 r s' :
    ¬ op_refused (OpCreate c) → swept config (creation_created_at c) s s1 →
    outcome ACreate s (create_spec config s1 c) = (r, s') →
    task_step s (OpCreate c) r s'
| step_transition t r s' :
    outcome ATransition s (transition_spec config s t) = (r, s') →
    task_step s (OpTransition t) r s'
| step_message m now s1 r s' :
    ¬ op_refused (OpMessage m now) → swept config now s s1 →
    outcome AAppend s (message_spec config s1 m) = (r, s') →
    task_step s (OpMessage m now) r s'
| step_artifact a now s1 r s' :
    ¬ op_refused (OpArtifact a now) → swept config now s s1 →
    outcome AAppend s (artifact_spec config s1 a false (max_artifacts_per_task config)) = (r, s') →
    task_step s (OpArtifact a now) r s'
| step_working_artifact a now maximum s1 r s' :
    ¬ op_refused (OpWorkingArtifact a now maximum) → swept config now s s1 →
    outcome AAppend s (artifact_spec config s1 a true maximum) = (r, s') →
    task_step s (OpWorkingArtifact a now maximum) r s'
| step_prune now out s1 :
    ¬ op_refused (OpPrune now) → swept config now s s1 → task_step s (OpPrune now) (Ok (APrune out)) s1.

Inductive task_steps : task_views → list task_op → list task_result → task_views → Prop :=
| steps_nil s : task_steps s [] [] s
| steps_cons s op r s1 ops rs s2 :
    task_step s op r s1 → task_steps s1 ops rs s2 → task_steps s (op :: ops) (r :: rs) s2.

(** ** Every call is a step *)

Context (Hcfg : store_config_ok config).

Lemma refines_outcome {A} (wrap : A → task_answer) db s (step : result A2ATaskStoreError A * A2ADb) spec :
  store_represents db s → tasks_ok config s → refines config db step spec →
  (wrap <$> step.1, step.2).1 = (outcome wrap s spec).1
  ∧ store_represents step.2 (outcome wrap s spec).2 ∧ tasks_ok config (outcome wrap s spec).2.
Proof.
  intros Hst Hok Href. unfold refines in Href. destruct spec as [[a s']|e]; simpl.
  - destruct Href as (-> & ? & ?). done.
  - rewrite Href. done.
Qed.

Lemma prune_late db now : I64_MAX < now → prune config db now = (Err InvalidConfiguration, db).
Proof. intros Hn. unfold prune. by rewrite prune_in_late. Qed.

Lemma create_refused db c :
  op_refused (OpCreate c) → create_task config db c = (Err InvalidConfiguration, db).
Proof.
  intros Hr. unfold create_task.
  destruct (decide (0 < len (creation_request_text c) <= MAX_A2A_TEXT_BYTES)) as [Ht|Ht].
  - rewrite A2ATaskMessage_new_Ok by done. cbn [mbind result_bind].
    rewrite prune_in_late; [done..|]. destruct Hr; [tauto|done].
  - unfold A2ATaskMessage_new. pose proof (len_nonneg (creation_request_text c)).
    rewrite (proj2 (fail_if_Err _ _ InvalidConfiguration)); [done|]. split; [|done].
    apply orb_true_iff. rewrite Z.eqb_eq, Z.ltb_lt. lia.
Qed.

Lemma append_message_late db m now :
  I64_MAX < now → append_message config db m now = (Err InvalidConfiguration, db).
Proof. intros Hn. unfold append_message. by rewrite prune_in_late. Qed.

Lemma append_artifact_refused db a now working maximum :
  0 <= maximum → I64_MAX < now ∨ ¬ 1 <= maximum <= MAX_PAGE_SIZE →
  append_artifact_in_state config db a now working maximum = (Err InvalidConfiguration, db).
Proof.
  intros Hpos Hr. unfold append_artifact_in_state.
  destruct (decide (1 <= maximum <= MAX_PAGE_SIZE)) as [Hm|Hm].
  - pass_guard by (apply orb_false_iff; split; [apply Z.eqb_neq|apply Z.ltb_ge]; lia). cbv zeta.
    rewrite prune_in_late; [done..|]. destruct Hr; [done|tauto].
  - rewrite (proj2 (fail_if_Err _ _ InvalidConfiguration)); [done|]. split; [|done].
    apply orb_true_iff. rewrite Z.eqb_eq, Z.ltb_lt. lia.
Qed.

(** The digest tells this creation from the stored task with its identifier. *)
Definition distinguished (s : task_views) (op : task_op) : Prop :=
  match op with
  | OpCreate c => ∀ v, s !! task_pk (creation_key c) = Some v →
      view_identity_digest v = creation_identity_digest c → view_context_pk v = creation_context_pk c
  | _ => True
  end.

Lemma pair_eta {A B} (x : A * B) : x = (x.1, x.2).
Proof. by destruct x. Qed.

Lemma a2a_step_refines db s op :
  store_represents db s → tasks_ok config s → op_typed op → distinguished s op →
  ∃ s', task_step s op (a2a_step db op).1 s' ∧ store_represents (a2a_step db op).2 s'
      ∧ tasks_ok config s'.
Proof.
  intros Hst Hok Htyped Hdist.
  destruct op as [c|t|m now|a now|a now maximum|now]; cbn [a2a_step].
  - rewrite (pair_eta (create_task config db c)). cbn [fst snd].
    destruct (decide (0 < len (creation_request_text c) <= MAX_A2A_TEXT_BYTES)) as [Htext|Htext];
      [destruct (Z.le_gt_cases (creation_created_at c) I64_MAX) as [Ht|Ht]|].
    2,3: rewrite create_refused by (simpl; tauto); exists s; split; [apply step_refused; simpl; tauto|done].
    destruct (create_task_refines config Hcfg db s c Hst Hok Htyped Ht Htext Hdist) as (s1 & Hsw & _ & Href).
    destruct (refines_outcome ACreate db s _ _ Hst Hok Href) as (Hr & Hst' & Hok'). cbn [fst] in Hr.
    eexists. split; [|split; [exact Hst'|exact Hok']]. rewrite Hr.
    eapply step_create; [|exact Hsw|apply pair_eta]. simpl. intros [?|?]; [tauto|lia].
  - rewrite (pair_eta (transition_task config db t)). cbn [fst snd].
    pose proof (transition_task_refines config Hcfg db s t Hst Hok Htyped) as Href.
    destruct (refines_outcome ATransition db s _ _ Hst Hok Href) as (Hr & Hst' & Hok'). cbn [fst] in Hr.
    eexists. split; [|split; [exact Hst'|exact Hok']]. rewrite Hr. eapply step_transition, pair_eta.
  - rewrite (pair_eta (append_message config db m now)). cbn [fst snd].
    destruct (Z.le_gt_cases now I64_MAX) as [Hn|Hn].
    2:{ rewrite append_message_late by done. exists s. split; [by apply step_refused|done]. }
    destruct (append_message_refines config Hcfg db s m now Hst Hok Htyped Hn) as (s1 & Hsw & _ & Href).
    destruct (refines_outcome AAppend db s _ _ Hst Hok Href) as (Hr & Hst' & Hok'). cbn [fst] in Hr.
    eexists. split; [|split; [exact Hst'|exact Hok']]. rewrite Hr.
    eapply step_message; [simpl; lia|exact Hsw|apply pair_eta].
  - rewrite (pair_eta (append_artifact config db a now)). cbn [fst snd]. unfold append_artifact.
    pose proof (config_artifacts _ Hcfg) as Hma.
    destruct (Z.le_gt_cases now I64_MAX) as [Hn|Hn].
    2:{ rewrite append_artifact_refused by (done || lia || auto). exists s. split; [by apply step_refused|done]. }
    destruct (append_artifact_refines config Hcfg db s a now false (max_artifacts_per_task config)
      Hst Hok Htyped Hn) as (s1 & Hsw & _ & Href); [lia|].
    destruct (refines_outcome AAppend db s _ _ Hst Hok Href) as (Hr & Hst' & Hok'). cbn [fst] in Hr.
    eexists. split; [|split; [exact Hst'|exact Hok']]. rewrite Hr.
    eapply step_artifact; [simpl; lia|exact Hsw|apply pair_eta].
  - rewrite (pair_eta (append_working_artifact config db a now maximum)). cbn [fst snd].
    unfold append_working_artifact. destruct Htyped as [Htyped Hpos].
    destruct (decide (I64_MAX < now ∨ ¬ 1 <= maximum <= MAX_PAGE_SIZE)) as [Hr|Hr].
    { rewrite append_artifact_refused by done. exists s. split; [by apply step_refused|done]. }
    destruct (append_artifact_refines config Hcfg db s a now true maximum Hst Hok Htyped)
      as (s1 & Hsw & _ & Href); [lia|apply dec_stable; tauto|].
    destruct (refines_outcome AAppend db s _ _ Hst Hok Href) as (Hr' & Hst' & Hok'). cbn [fst] in Hr'.
    eexists. split; [|split; [exact Hst'|exact Hok']]. rewrite Hr'.
    eapply step_working_artifact; [exact Hr|exact Hsw|apply pair_eta].
  - rewrite (pair_eta (prune config db now)). cbn [fst snd].
    destruct (Z.le_gt_cases now I64_MAX) as [Hn|Hn].
    2:{ rewrite prune_late by done. exists s. split; [by apply step_refused|done]. }
    destruct (prune_refines config Hcfg db s now Hst Hok Hn) as (out & s1 & Hsw & Hok1 & Hout & Hst1).
    exists s1. split; [|done]. rewrite Hout. apply step_prune; [simpl; lia|done].
Qed.

(** ** What a step changes *)

Definition op_time (op : task_op) : Z :=
  match op with
  | OpCreate c => creation_created_at c
  | OpTransition t => transition_occurred_at t
  | OpMessage _ now | OpArtifact _ now | OpWorkingArtifact _ now _ | OpPrune now => now
  end.

(** A write to a task that is not terminal. *)
Inductive view_write (v : TaskView) : TaskView → Prop :=
| write_message m : view_terminal v = false → view_write v (add_message v m)
| write_artifact a : view_terminal v = false → view_write v (add_artifact v a)
| write_status t d :
    view_terminal v = false → (status_state t = Completed → view_evidence v = true) →
    view_write v (add_status v t d).

(** Apart from the sweep, a step writes one task or creates one. *)
Inductive step_write (op : task_op) (s : task_views) : task_views → Prop :=
| write_nothing : step_write op s s
| write_new c : op = OpCreate c → s !! task_pk (creation_key c) = None →
    step_write op s (<[task_pk (creation_key c) := new_view c]> s)
| write_view pk v w : s !! pk = Some v → view_write v w → step_write op s (<[pk := w]> s).

Lemma outcome_Ok {A} (wrap : A → task_answer) s spec r s' :
  outcome wrap s spec = (r, s') →
  (∃ e, spec = Err e ∧ r = Err e ∧ s' = s) ∨ (∃ a, spec = Ok (a, s') ∧ r = Ok (wrap a)).
Proof. destruct spec as [[a s1]|e]; intros [= <- <-]; eauto. Qed.

Lemma create_spec_write s c a s' : create_spec config s c = Ok (a, s') → step_write (OpCreate c) s s'.
Proof.
  unfold create_spec. intros E. inv_ok. destruct (s !! task_pk _) eqn:Hs; inv_ok; subst; [constructor|].
  by eapply write_new.
Qed.

Lemma allowed_not_terminal x y :
  a2a_task_state_transition_is_allowed x y = true → a2a_task_state_is_terminal x = false.
Proof. by destruct x. Qed.

Lemma transition_spec_write op s t a s' : transition_spec config s t = Ok (a, s') → step_write op s s'.
Proof.
  unfold transition_spec. intros E. inv_ok; subst; [constructor|].
  rewrite !orb_false_iff, !negb_false_iff in *. destruct Hr0 as [[[Ha _] _] Hev].
  eapply write_view; [done|]. apply write_status.
  - by eapply allowed_not_terminal.
  - simpl. intros Hc. rewrite (bool_decide_eq_true_2 _ Hc) in Hev. by destruct (view_evidence _).
Qed.

Lemma message_spec_write op s m a s' : message_spec config s m = Ok (a, s') → step_write op s s'.
Proof.
  unfold message_spec. intros E. inv_ok. destruct (list_find _ _) as [[i m']|]; inv_ok; subst; [constructor|].
  eapply write_view; [done|]. by apply write_message.
Qed.

Lemma artifact_spec_write op s x working maximum a s' :
  artifact_spec config s x working maximum = Ok (a, s') → step_write op s s'.
Proof.
  unfold artifact_spec. intros E. inv_ok. destruct (list_find _ _) as [[i x']|]; inv_ok; subst; [constructor|].
  eapply write_view; [done|]. apply write_artifact. by apply orb_false_iff in Hr0 as [? _].
Qed.

(** Every step is retention work followed by at most one write. *)
Lemma task_step_shape s op r s' :
  task_step s op r s' → ∃ k s1, nsteps (prune_step (op_time op)) k s s1 ∧ step_write op s1 s'.
Proof.
  intros Hstep. destruct Hstep as [op|c s1 r s' _ (k & Hk & _) E|t r s' E|m now s1 r s' _ (k & Hk & _) E
    |a now s1 r s' _ (k & Hk & _) E|a now maximum s1 r s' _ (k & Hk & _) E|now out s1 _ (k & Hk & _)].
  1: exists 0%nat, s; split; constructor.
  6: exists k, s1; split; [done|constructor].
  all: apply outcome_Ok in E as [(e & _ & _ & ->)|(o & E & _)];
    [exists 0%nat, s; split; constructor|].
  - exists k, s1. split; [done|]. by eapply create_spec_write.
  - exists 0%nat, s. split; [constructor|]. by eapply transition_spec_write.
  - exists k, s1. split; [done|]. by eapply message_spec_write.
  - exists k, s1. split; [done|]. by eapply artifact_spec_write.
  - exists k, s1. split; [done|]. by eapply artifact_spec_write.
Qed.

(** ** How a task changes *)

(** The fields of a view that never change. *)
Definition identity_of (v : TaskView) : TaskView :=
  mk_TaskView (view_key v) (view_context_id v) (view_source_message_id v) (view_conversation_id v)
    (view_target_device_id v) (view_request_message_id v) (view_request_text_digest v)
    (view_return_immediately v) (view_history_length v) (view_created_at v) [] None None.

(** Statuses are appended until the task is terminal; content is appended until then and
    may be dropped afterwards. *)
Record view_extends (v w : TaskView) : Prop := {
  extends_identity : identity_of w = identity_of v;
  extends_statuses : view_later v `prefix_of` view_later w;
  extends_terminal : view_terminal v = true →
    view_later w = view_later v ∧ view_deadlines w = view_deadlines v;
  extends_content : ∀ c, view_content w = Some c → ∃ c0, view_content v = Some c0
    ∧ content_messages c0 `prefix_of` content_messages c
    ∧ content_artifacts c0 `prefix_of` content_artifacts c
    ∧ (view_terminal v = true → c = c0) }.

Lemma view_extends_refl v : view_extends v v.
Proof. split; [done..|]. intros c Hc. by exists c. Qed.

Lemma view_terminal_later v w :
  view_later w = view_later v → view_terminal w = view_terminal v.
Proof. unfold view_terminal, view_state, current_status. intros ->. by destruct (last (view_later v)). Qed.

Lemma view_extends_trans u v w : view_extends u v → view_extends v w → view_extends u w.
Proof.
  intros [Hi Hs Ht Hc] [Hi' Hs' Ht' Hc']. split.
  - congruence.
  - by etransitivity.
  - intros Hu. destruct (Ht Hu) as [El Ed]. destruct Ht' as [El' Ed']; [|split; congruence].
    by rewrite (view_terminal_later u v El).
  - intros c Hw. destruct (Hc' c Hw) as (c1 & Hv & Hm1 & Ha1 & E1).
    destruct (Hc c1 Hv) as (c0 & Hu & Hm0 & Ha0 & E0). exists c0.
    split_and!; [done|by etransitivity..|]. intros Hterm. rewrite <- (E0 Hterm). apply E1.
    by rewrite (view_terminal_later u v (proj1 (Ht Hterm))).
Qed.

Lemma extends_prune v : view_extends v (prune_content v).
Proof. by split. Qed.

Lemma extends_write v w : view_write v w → view_extends v w.
Proof.
  intros [m Hv|a Hv|t d Hv _]; (split; [done|simpl|rewrite Hv; discriminate|simpl]);
    try done; try by apply prefix_app_r.
  - intros c Hc. apply fmap_Some in Hc as (c0 & -> & ->). exists c0. simpl.
    split_and!; [done|by apply prefix_app_r|done|]. by rewrite Hv.
  - intros c Hc. apply fmap_Some in Hc as (c0 & -> & ->). exists c0. simpl.
    split_and!; [done..|by apply prefix_app_r|]. by rewrite Hv.
  - intros c Hc. by exists c.
Qed.

(** What a sweep at [now] leaves of a task. *)
Definition content_due (now : Z) (v : TaskView) : Prop :=
  ∃ dc dt, view_deadlines v = Some (dc, dt) ∧ dc <= now.
Definition tombstone_due (now : Z) (v : TaskView) : Prop :=
  ∃ dc dt, view_deadlines v = Some (dc, dt) ∧ dt <= now.

Lemma prune_steps_keep now k s s' pk v :
  nsteps (prune_step now) k s s' → s !! pk = Some v →
  s' !! pk = Some v
  ∨ (s' !! pk = Some (prune_content v) ∧ view_pruned v = false ∧ content_due now v)
  ∨ (s' !! pk = None ∧ tombstone_due now v).
Proof.
  intros Hk. revert v. induction Hk as [s|k s s1 s' Hstep Hk IH]; intros v Hv; [auto|].
  assert (∀ s2 s3, nsteps (prune_step now) k s2 s3 → s2 !! pk = None → s3 !! pk = None) as Hgone.
  { intros s2 s3 Hn Hnone. destruct (s3 !! pk) as [w|] eqn:E; [|done].
    destruct (prune_steps_view _ _ _ _ _ _ Hn E) as (v0 & ? & _). congruence. }
  destruct Hstep as [pk' v' dc dt Hs Hp Hd Hle|pk' v' dc dt Hs Hp Hd Hle].
  - destruct (decide (pk' = pk)) as [->|Hne]; [|by apply IH; rewrite lookup_insert_ne].
    rewrite Hs in Hv. injection Hv as ->. right.
    destruct (IH (prune_content v)) as [E|[(_ & E & _)|(E & Ht)]]; [by rewrite lookup_insert_eq|..].
    + left. split; [done|]. split; [done|]. by exists dc, dt.
    + discriminate.
    + right. split; [done|]. exact Ht.
  - destruct (decide (pk' = pk)) as [->|Hne]; [|by apply IH; rewrite lookup_delete_ne].
    rewrite Hs in Hv. injection Hv as ->. right. right. split; [|by exists dc, dt].
    eapply Hgone; [done|]. apply lookup_delete_eq.
Qed.

Lemma write_keeps op s s' pk v :
  step_write op s s' → s !! pk = Some v →
  ∃ w, s' !! pk = Some w ∧ view_extends v w ∧ view_pruned w = view_pruned v.
Proof.
  intros Hw Hv. destruct Hw as [|c _ Hnone|pk' v' w Hv' Hw].
  - eauto using view_extends_refl.
  - exists v. rewrite lookup_insert_ne by congruence. auto using view_extends_refl.
  - destruct (decide (pk' = pk)) as [->|Hne].
    + exists w. rewrite lookup_insert_eq. rewrite Hv' in Hv. injection Hv as ->.
      split; [done|]. split; [by apply extends_write|]. unfold view_pruned.
      destruct Hw; simpl; by destruct (view_content v).
    + exists v. rewrite lookup_insert_ne by done. auto using view_extends_refl.
Qed.

(** One call leaves a task in place, dropping its content only when that is due, or
    removes it when its tombstone is due. *)
Lemma task_step_keeps s op r s' pk v :
  task_step s op r s' → s !! pk = Some v →
  (∃ w, s' !! pk = Some w ∧ view_extends v w
        ∧ (view_pruned w = true → view_pruned v = true ∨ content_due (op_time op) v))
  ∨ (tombstone_due (op_time op) v
     ∧ (s' !! pk = None ∨ ∃ c, op = OpCreate c ∧ s' !! pk = Some (new_view c))).
Proof.
  intros (k & s1 & Hk & Hw)%task_step_shape Hv.
  destruct (prune_steps_keep _ _ _ _ _ _ Hk Hv) as [Hs1|[(Hs1 & Hp & Hdue)|(Hs1 & Hdue)]].
  - left. destruct (write_keeps _ _ _ _ _ Hw Hs1) as (w & ? & ? & Hpw). exists w.
    split_and!; [done..|]. rewrite Hpw. auto.
  - left. destruct (write_keeps _ _ _ _ _ Hw Hs1) as (w & ? & ? & Hpw). exists w.
    split_and!; [done|eapply view_extends_trans; [apply extends_prune|done]|auto].
  - right. split; [done|]. destruct Hw as [|c Hop Hnone|pk' v' w Hv' _]; [auto|..].
    + destruct (decide (task_pk (creation_key c) = pk)) as [<-|Hne].
      * right. exists c. by rewrite lookup_insert_eq.
      * left. by rewrite lookup_insert_ne.
    + left. rewrite lookup_insert_ne; [done|]. congruence.
Qed.

(** Every task was created by a call, and keeps the identity it was created with. *)
Definition originates (ops : list task_op) (s : task_views) : Prop :=
  ∀ pk v, s !! pk = Some v → ∃ c, OpCreate c ∈ ops ∧ op_typed (OpCreate c) ∧ identity_of v = identity_of (new_view c).

Lemma task_step_originates ops s op r s' :
  originates ops s → op ∈ ops → op_typed op → task_step s op r s' → originates ops s'.
Proof.
  intros Ho Hop Htyped (k & s1 & Hk & Hw)%task_step_shape.
  assert (originates ops s1) as Ho1.
  { intros pk v Hv. destruct (prune_steps_view _ _ _ _ _ _ Hk Hv) as (v0 & Hv0 & E).
    destruct (Ho pk v0 Hv0) as (c & ? & ? & ?). exists c. destruct E as [->| ->]; done. }
  intros pk v Hv. destruct Hw as [|c -> _|pk' v' w Hv' Hw]; [by eapply Ho1|..].
  - apply lookup_insert_Some in Hv as [[_ <-]|[_ Hv]]; [|by eapply Ho1]. exists c. done.
  - apply lookup_insert_Some in Hv as [[_ <-]|[_ Hv]]; [|by eapply Ho1].
    destruct (Ho1 _ _ Hv') as (c & ? & ? & ?). exists c. split_and!; [done..|].
    rewrite (extends_identity _ _ (extends_write _ _ Hw)). done.
Qed.

(** SHA-256 does not confuse two of the creations of this run. *)
Definition collision_free (ops : list task_op) : Prop :=
  ∀ c c', OpCreate c ∈ ops → OpCreate c' ∈ ops →
    creation_identity_digest c = creation_identity_digest c' →
    creation_identity_preimage c = creation_identity_preimage c'.

Lemma creation_preimage_context c c' :
  creation_ok c → creation_ok c' → creation_identity_preimage c = creation_identity_preimage c' →
  creation_context_pk c = creation_context_pk c'.
Proof.
  intros Hc Hc' E. unfold creation_context_pk. unfold creation_identity_preimage in E.
  apply task_identity_preimage_inj in E as (-> & -> & _);
    [done|apply (ok_creation_history _ Hc)|apply (ok_creation_history _ Hc')].
Qed.

Lemma originates_distinguished ops s op :
  collision_free ops → originates ops s → op ∈ ops → op_typed op → distinguished s op.
Proof.
  intros Hfree Ho Hop Htyped. destruct op as [c| | | | |]; try done.
  intros v Hv Hd. destruct (Ho _ _ Hv) as (c0 & Hc0 & Hok0 & Hid).
  pose proof (f_equal view_identity_digest Hid) as Hdig. pose proof (f_equal view_context_pk Hid) as Hctx.
  assert (creation_context_pk c0 = creation_context_pk c) as <-.
  { apply creation_preimage_context; [done..|]. apply Hfree; [done..|].
    rewrite <- Hd. symmetry. exact Hdig. }
  exact Hctx.
Qed.

(** ** Runs *)

Lemma a2a_run_app db ops ops' :
  a2a_run db (ops ++ ops')
  = ((a2a_run db ops).1 ++ (a2a_run (a2a_run db ops).2 ops').1, (a2a_run (a2a_run db ops).2 ops').2).
Proof.
  revert db. induction ops as [|op ops IH]; intros db; simpl; [by destruct (a2a_run db ops')|].
  destruct (a2a_step db op) as [r db1]. specialize (IH db1).
  destruct (a2a_run db1 (ops ++ ops')) as [rs db2]. destruct (a2a_run db1 ops) as [rs' db3].
  simpl in *. injection IH as -> ->. done.
Qed.

Lemma a2a_run_refines ops all db s :
  collision_free all → ops ⊆ all → Forall op_typed ops → originates all s →
  store_represents db s → tasks_ok config s →
  ∃ s', task_steps s ops (a2a_run db ops).1 s' ∧ store_represents (a2a_run db ops).2 s'
      ∧ tasks_ok config s' ∧ originates all s'.
Proof.
  intros Hfree. revert db s. induction ops as [|op ops IH]; intros db s Hsub Htyped Ho Hst Hok.
  { exists s. split; [constructor|done]. }
  apply Forall_cons in Htyped as [Htyped Htyped'].
  assert (op ∈ all) as Hop by set_solver.
  destruct (a2a_step_refines db s op Hst Hok Htyped) as (s1 & Hstep & Hst1 & Hok1).
  { by eapply originates_distinguished. }
  simpl. destruct (a2a_step db op) as [r db1]. simpl in *.
  destruct (IH db1 s1) as (s2 & Hsteps & Hst2 & Hok2 & Ho2); [set_solver|done| |done..|].
  { by eapply task_step_originates. }
  destruct (a2a_run db1 ops) as [rs db2]. simpl in *. exists s2.
  split; [by econstructor|done].
Qed.

Lemma empty_represents : store_represents empty_a2a_db ∅.
Proof.
  split; [|done]. split; simpl; try done.
Qed.

Lemma empty_tasks_ok : tasks_ok config ∅.
Proof.
  pose proof (config_tasks _ Hcfg). pose proof (config_payload _ Hcfg).
  split; [done|..]; unfold views_payload; rewrite ?map_size_empty, ?map_fold_empty; lia.
Qed.

Lemma max_group_le {A} (f : A → TaskPk) (l : list A) n :
  0 <= n → (∀ pk, len (filter (fun r => f r = pk) l) <= n) → max_group f l <= n.
Proof.
  intros Hn Hall. unfold max_group. generalize l at 2. intros l'.
  induction l' as [|x l' IH]; simpl; [done|]. specialize (Hall (f x)). lia.
Qed.

Lemma views_contexts_size s : (size (views_contexts s) <= size s)%nat.
Proof.
  induction s as [|pk v s Hs IH] using map_ind; [done|].
  rewrite contexts_insert, map_size_insert_None by done.
  rewrite size_union_alt, size_singleton. etrans; [apply Nat.add_le_mono_l, subseteq_size, subseteq_difference_l; done|].
  simpl. lia.
Qed.

Lemma represented_message_groups db s pk :
  tasks_represent db s → tasks_ok config s → len (messages_for db pk) <= max_messages_per_task config.
Proof.
  intros Hrep Hok. pose proof (config_messages _ Hcfg). rewrite (rep_messages _ _ Hrep).
  destruct (s !! pk) as [v|] eqn:Hv; simpl; [|unfold len; simpl; lia].
  unfold len, view_messages. rewrite length_imap.
  destruct (view_content v) as [c|] eqn:Hc; simpl; [|lia].
  apply (ok_message_count _ _ _ (ok_content _ _ _ (ok_views _ _ Hok _ _ Hv) c Hc)).
Qed.

Lemma represented_artifact_groups db s pk :
  tasks_represent db s → tasks_ok config s → len (artifacts_for db pk) <= max_artifacts_per_task config.
Proof.
  intros Hrep Hok. pose proof (config_artifacts _ Hcfg). rewrite (rep_artifacts _ _ Hrep).
  destruct (s !! pk) as [v|] eqn:Hv; simpl; [|unfold len; simpl; lia].
  unfold len, view_artifacts. rewrite length_imap.
  destruct (view_content v) as [c|] eqn:Hc; simpl; [|lia].
  apply (ok_artifact_count _ _ _ (ok_content _ _ _ (ok_views _ _ Hok _ _ Hv) c Hc)).
Qed.

Lemma represented_contexts_valid db s :
  store_represents db s → tasks_ok config s → invalid_context_relationship db = false.
Proof.
  intros [Hrep Hdom] Hok. unfold invalid_context_relationship. apply orb_false_iff. split.
  - apply not_true_is_false. rewrite existsb_exists. intros ([cpk row] & Hin & E). simpl in E.
    apply list_elem_of_In, elem_of_map_to_list in Hin.
    rewrite (proj2 (context_used_spec config db s cpk Hrep Hok)) in E; [done|].
    rewrite <- Hdom. by eapply elem_of_dom_2.
  - apply not_true_is_false. rewrite existsb_exists. intros ([pk row] & Hin & E). simpl in E.
    apply list_elem_of_In, elem_of_map_to_list in Hin.
    rewrite (rep_tasks _ _ Hrep), lookup_fmap in Hin. apply fmap_Some in Hin as (v & Hv & ->).
    rewrite row_context_view in E by apply (ok_pk _ _ _ (ok_views _ _ Hok _ _ Hv)).
    destruct (rep_bindings _ _ Hrep pk v Hv) as (c & Hc & E1 & E2). rewrite Hc, E1, E2 in E. simpl in E.
    by rewrite !bool_decide_neq_false in E.
Qed.

(** Tables that represent a well-formed state can be opened again. *)
Lemma verify_bounds_ok db s :
  store_represents db s → tasks_ok config s → verify_store_bounds config db = Ok ().
Proof.
  intros Hst Hok. pose proof Hst as [Hrep _]. unfold verify_store_bounds.
  pose proof (config_messages _ Hcfg). pose proof (config_artifacts _ Hcfg).
  pose proof (ok_size _ _ Hok). pose proof (ok_payload _ _ Hok). pose proof (views_contexts_size s).
  rewrite (size_contexts db s Hst), (rep_tasks _ _ Hrep), map_size_fmap, (rep_payload _ _ Hrep).
  assert (max_group mrow_task (a2a_task_message db) <= max_messages_per_task config).
  { apply max_group_le; [lia|]. intros pk. by apply (represented_message_groups db s pk). }
  assert (max_group artrow_task (a2a_task_artifact db) <= max_artifacts_per_task config).
  { apply max_group_le; [lia|]. intros pk. by apply (represented_artifact_groups db s pk). }
  pass_guard by (rewrite !orb_false_iff, !Z.ltb_ge; lia).
  by rewrite (represented_contexts_valid db s).
Qed.

(** The errors that mean the tables are damaged. *)
Definition is_damage (e : A2ATaskStoreError) : bool :=
  match e with CorruptData | Storage => true | _ => false end.

Definition undamaged {A} (x : result A2ATaskStoreError A) : Prop :=
  match x with Ok _ => True | Err e => is_damage e = false end.

Lemma undamaged_bind {A B} (m : result A2ATaskStoreError A) (k : A → result A2ATaskStoreError B) :
  undamaged m → (∀ a, undamaged (k a)) → undamaged (mbind k m).
Proof. destruct m; simpl; auto. Qed.

Lemma undamaged_guard {B} b e (k : result A2ATaskStoreError B) :
  is_damage e = false → undamaged k → undamaged (fail_if b e;; k).
Proof. by destruct b. Qed.

Lemma undamaged_ok_or {A} (o : option A) e : is_damage e = false → undamaged (ok_or o e).
Proof. by destruct o. Qed.

Lemma undamaged_Err {A} e : is_damage e = false → undamaged (A := A) (Err e).
Proof. done. Qed.

Lemma undamaged_if {A} (b : bool) (x y : result A2ATaskStoreError A) :
  undamaged x → undamaged y → undamaged (if b then x else y).
Proof. by destruct b. Qed.

Ltac undamaged :=
  cbv zeta;
  lazymatch goal with
  | |- undamaged (Ok _) => exact I
  | |- undamaged (Err _) => apply undamaged_Err; reflexivity
  | |- undamaged (fail_if _ _;; _) => apply undamaged_guard; [reflexivity|undamaged]
  | |- undamaged (mbind _ (ok_or _ _)) =>
      apply undamaged_bind; [apply undamaged_ok_or; reflexivity|intros ?; undamaged]
  | |- undamaged (if _ then _ else _) => apply undamaged_if; undamaged
  | |- undamaged (match ?o with Some _ => _ | None => _ end) => destruct o as [?|]; undamaged
  | |- undamaged (match ?p with pair _ _ => _ end) => destruct p; undamaged
  | |- _ => idtac
  end.

Lemma create_spec_undamaged s c : undamaged (create_spec config s c).
Proof. unfold create_spec. undamaged. Qed.

Lemma transition_spec_undamaged s t : undamaged (transition_spec config s t).
Proof. unfold transition_spec. undamaged. Qed.

Lemma message_spec_undamaged s m : undamaged (message_spec config s m).
Proof. unfold message_spec. undamaged. Qed.

Lemma artifact_spec_undamaged s a working maximum : undamaged (artifact_spec config s a working maximum).
Proof. unfold artifact_spec. undamaged. Qed.

Lemma outcome_undamaged {A} (wrap : A → task_answer) s spec r s' :
  outcome wrap s spec = (r, s') → undamaged spec → undamaged r.
Proof. intros [(e & -> & -> & _)|(a & -> & ->)]%outcome_Ok; done. Qed.

Lemma task_step_undamaged s op r s' : task_step s op r s' → undamaged r.
Proof.
  intros Hstep. destruct Hstep; [exact (eq_refl false)|eapply outcome_undamaged; [eassumption|]..|exact I].
  - apply create_spec_undamaged.
  - apply transition_spec_undamaged.
  - apply message_spec_undamaged.
  - apply artifact_spec_undamaged.
  - apply artifact_spec_undamaged.
Qed.

Lemma task_steps_undamaged s ops rs s' : task_steps s ops rs s' → Forall undamaged rs.
Proof. induction 1; constructor; [by eapply task_step_undamaged|done]. Qed.

End run.
