(* ===== verification/A2ALifecycle.v ===== *)
(** * What callers of the A2A task store rely on

    Theorems about every sequence of calls from an empty store, stated with the store's
    own queries: the store implements the abstract system, a task's history only grows and
    is kept for its retention periods, and a creation may be repeated. *)

From S2P Require Import Prelude Identifiers A2AContracts A2ATaskModel A2AStore A2AStoreSpec A2AStoreProofs A2AStoreOps A2AStoreRun.
Open Scope Z_scope.

Section lifecycle.
Context `{Sha256} (config : A2ASqliteTaskStoreConfig) (Hcfg : store_config_ok config).

(** The tables after a run. *)
Definition tables_after (ops : list task_op) : A2ADb := (a2a_run config empty_a2a_db ops).2.

Lemma run_state ops :
  Forall op_typed ops → collision_free ops →
  ∃ s, task_steps config ∅ ops (a2a_run config empty_a2a_db ops).1 s
    ∧ store_represents (tables_after ops) s ∧ tasks_ok config s ∧ originates ops s.
Proof.
  intros Htyped Hfree. unfold tables_after.
  apply (a2a_run_refines config Hcfg ops ops empty_a2a_db ∅);
    [assumption|reflexivity|assumption|done|apply empty_represents|by apply empty_tasks_ok].
Qed.

Lemma tables_after_snoc ops op : tables_after (ops ++ [op]) = (a2a_step config (tables_after ops) op).2.
Proof.
  unfold tables_after. rewrite a2a_run_app. simpl. by destruct (a2a_step _ _ op).
Qed.

(** C7: For every sequence of the calls that write, the answers and the tables of the SQLite
    task store are those of the abstract task system started empty: each call performs at
    most a batch of due retention work and then the abstract operation, or is refused or
    fails and changes nothing.  No answer of these calls reports corrupt or failed storage,
    and the tables pass the checks made when the store is opened again.  Calls that only
    read are not part of the sequence. *)
Theorem a2a_store_refines ops :
  Forall op_typed ops → collision_free ops →
  let '(answers, db) := a2a_run config empty_a2a_db ops in
  ∃ s, task_steps config ∅ ops answers s ∧ store_represents db s ∧ tasks_ok config s
    ∧ Forall undamaged answers ∧ verify_store_bounds config db = Ok ().
Proof.
  intros Htyped Hfree. destruct (run_state ops Htyped Hfree) as (s & Hsteps & Hst & Hok & _).
  unfold tables_after in Hst. destruct (a2a_run config empty_a2a_db ops) as [answers db].
  exists s. split_and!; [done..|by eapply task_steps_undamaged|by eapply verify_bounds_ok].
Qed.

(** ** One more call *)

Lemma run_step ops op :
  Forall op_typed (ops ++ [op]) → collision_free (ops ++ [op]) →
  ∃ s s', store_represents (tables_after ops) s ∧ tasks_ok config s
    ∧ store_represents (tables_after (ops ++ [op])) s' ∧ tasks_ok config s'
    ∧ task_step config s op (a2a_step config (tables_after ops) op).1 s'.
Proof.
  intros Htyped Hfree. pose proof Htyped as [Ht1 [Ht2 _]%Forall_cons]%Forall_app.
  destruct (a2a_run_refines config Hcfg ops (ops ++ [op]) empty_a2a_db ∅) as (s & _ & Hst & Hok & Ho);
    [assumption|set_solver|assumption|done|apply empty_represents|by apply empty_tasks_ok|].
  destruct (a2a_step_refines config Hcfg (tables_after ops) s op Hst Hok Ht2) as (s' & Hstep & Hst' & Hok').
  { eapply originates_distinguished; [done..|set_solver|done]. }
  exists s, s'. rewrite tables_after_snoc. done.
Qed.

(** What [get_task] may show later of a task it showed once. *)
Record record_extends (r r' : A2ATaskRecord) : Prop := {
  later_key : record_key r' = record_key r;
  later_context : record_context_id r' = record_context_id r;
  later_source : record_source_message_id r' = record_source_message_id r;
  later_conversation : record_conversation_id r' = record_conversation_id r;
  later_target : record_target_device_id r' = record_target_device_id r;
  later_digest : record_identity_digest r' = record_identity_digest r;
  later_created : record_created_at r' = record_created_at r;
  later_generation : record_generation r <= record_generation r';
  later_updated : record_updated_at r <= record_updated_at r';
  later_terminal : a2a_task_state_is_terminal (record_state r) = true →
    record_state r' = record_state r ∧ record_generation r' = record_generation r
    ∧ record_terminal_at r' = record_terminal_at r
    ∧ record_terminal_reason r' = record_terminal_reason r;
  later_text : record_content_pruned r' = false → record_request_text r' = record_request_text r }.

Lemma get_task_view db s key :
  store_represents db s → tasks_ok config s →
  get_task db key = match s !! task_pk key with Some v => Ok (record_of v) | None => Err NotFound end.
Proof. intros [Hrep _] Hok. unfold get_task. by eapply load_task_spec. Qed.

Lemma path_drop s l k : status_path s (l ++ k) → status_path (default s (last l)) k.
Proof.
  revert s. induction l as [|t l IH]; intros s; simpl; [done|]. intros [_ Hp]. apply IH in Hp.
  destruct l as [|u l]; [done|]. rewrite last_cons_cons. rewrite last_cons in *. by destruct (last l).
Qed.

Lemma extends_record pk v w :
  view_ok config pk v → view_ok config pk w → view_extends v w → record_extends (record_of v) (record_of w).
Proof.
  intros Hv Hw [Hid [k Hk] Hterm Hcontent].
  assert (view_created_at w = view_created_at v) as Hcr by exact (f_equal view_created_at Hid).
  assert (current_status w = default (current_status v) (last k)) as Hcur.
  { unfold current_status, initial_status. rewrite Hk, Hcr. rewrite last_app. by destruct (last k), (last (view_later v)). }
  pose proof (ok_path _ _ _ Hw) as Hp. rewrite Hk in Hp. apply path_drop in Hp.
  replace (default (initial_status w) (last (view_later v))) with (current_status v) in Hp
    by (unfold current_status, initial_status; by rewrite Hcr).
  destruct (status_path_facts _ _ Hp) as (Hg & Ht & _). rewrite <- Hcur in Hg, Ht.
  split; cbn [record_of record_key record_context_id record_source_message_id record_conversation_id
    record_target_device_id record_identity_digest record_created_at record_generation record_updated_at
    record_state record_terminal_at record_terminal_reason record_content_pruned record_request_text];
    try (injection Hid; intros; congruence).
  - exact (f_equal view_identity_digest Hid).
  - rewrite Hg. unfold len. lia.
  - simpl. intros Hvt. destruct (Hterm Hvt) as [Hl _].
    assert (current_status w = current_status v) as E
      by (unfold current_status, initial_status; by rewrite Hl, Hcr).
    unfold view_terminal, view_state. by rewrite E.
  - simpl. unfold view_pruned, view_messages. destruct (view_content w) as [c|] eqn:Hc; [|done].
    intros _. destruct (Hcontent c eq_refl) as (c0 & Hc0 & [m Hm] & _). rewrite Hc0. simpl.
    destruct (ok_request _ _ _ (ok_content _ _ _ Hv c0 Hc0)) as (q & rest & E & _).
    by rewrite Hm, E.
Qed.

Lemma status_updates_view db s key v :
  store_represents db s → tasks_ok config s → s !! task_pk key = Some v →
  status_updates db key 0 = Ok (view_later v).
Proof.
  intros [Hrep Hd] Hok Hs. unfold status_updates.
  rewrite (load_task_spec config Hcfg db s key Hrep Hok), Hs. cbn [mbind result_bind record_of record_generation].
  destruct (status_path_facts _ _ (ok_path _ _ _ (ok_views _ _ Hok _ _ Hs))) as (Hg & _).
  fold (current_status v) in Hg. simpl in Hg. unfold len in Hg.
  pass_guard by (apply Z.ltb_ge; lia).
  rewrite (load_status_updates_spec config db s key v) by (done || lia). done.
Qed.

Lemma terminal_deadlines pk v dc dt :
  view_ok config pk v → view_deadlines v = Some (dc, dt) →
  ∃ t, record_terminal_at (record_of v) = Some t
    ∧ dc = t + content_retention_milliseconds config
    ∧ dt = t + idempotency_retention_milliseconds config.
Proof.
  intros Hv Hd. pose proof (ok_deadlines _ _ _ Hv) as H1. simpl.
  destruct (view_terminal v); [|congruence]. destruct H1 as [H1 _]. rewrite Hd in H1.
  injection H1 as -> ->. eauto.
Qed.

(** C27: A task that [get_task] shows is still shown after one more call, with the same
    identity, a status history that has the old one as a prefix, an unchanged status once
    it is terminal and the same request; its content is dropped no earlier than the
    content retention after it became terminal, and the task is removed no earlier than
    the idempotency retention after that. *)
Theorem a2a_tasks_retained ops op key task :
  Forall op_typed (ops ++ [op]) → collision_free (ops ++ [op]) →
  get_task (tables_after ops) key = Ok task →
  let db := tables_after ops in
  let db' := tables_after (ops ++ [op]) in
  (∃ task' history history', get_task db' key = Ok task' ∧ record_extends task task'
     ∧ status_updates db key 0 = Ok history ∧ status_updates db' key 0 = Ok history'
     ∧ history `prefix_of` history'
     ∧ (record_content_pruned task' = true → record_content_pruned task = false →
        ∃ t, record_terminal_at task = Some t ∧ t + content_retention_milliseconds config <= op_time op))
  ∨ (∃ t, record_terminal_at task = Some t ∧ t + idempotency_retention_milliseconds config <= op_time op).
Proof.
  intros Htyped Hfree Hget. destruct (run_step ops op Htyped Hfree) as (s & s' & Hst & Hok & Hst' & Hok' & Hstep).
  cbv zeta. rewrite (get_task_view _ s key Hst Hok) in Hget.
  destruct (s !! task_pk key) as [v|] eqn:Hs; [|done]. injection Hget as <-.
  pose proof (ok_views _ _ Hok _ _ Hs) as Hv.
  destruct (task_step_keeps _ _ _ _ _ _ _ Hstep Hs) as [(w & Hs' & Hext & Hpr)|[(dc & dt & Hd & Hle) _]].
  - left. exists (record_of w), (view_later v), (view_later w).
    rewrite (get_task_view _ s' key Hst' Hok'), Hs'.
    rewrite (status_updates_view _ s key v), (status_updates_view _ s' key w) by assumption.
    split_and!; try reflexivity.
    + eapply extends_record; [done| |done]. by apply (ok_views _ _ Hok').
    + apply (extends_statuses _ _ Hext).
    + simpl. intros Hpw Hpv. destruct (Hpr Hpw) as [?|(dc & dt & Hd & Hle)]; [congruence|].
      destruct (terminal_deadlines _ _ _ _ Hv Hd) as (t & ? & -> & ->). eauto.
  - right. destruct (terminal_deadlines _ _ _ _ Hv Hd) as (t & ? & -> & ->). eauto.
Qed.

(** ** The life of a task *)

(** The states a task can have gone through since it was submitted. *)
Definition lifecycle_shape (states : list A2ATaskState) : Prop :=
  states = [] ∨ states = [Working]
  ∨ ∃ final, a2a_task_state_is_terminal final = true ∧ (states = [final] ∨ states = [Working; final]).

Lemma path_lifecycle s l :
  status_state s = Submitted → status_path s l → lifecycle_shape (status_state <$> l).
Proof.
  unfold lifecycle_shape. intros Hs Hp. pose proof (status_path_short s l Hs Hp) as Hl.
  destruct l as [|t [|u [|w l]]]; [by left|..].
  - destruct Hp as [[_ Ha _ _] _]. rewrite Hs in Ha. destruct (status_state t) eqn:E; try done; simpl;
      rewrite E; (by right; left) || (right; right; eexists; split; [|by left]; done).
  - destruct Hp as [[_ Ha _ _] [[_ Ha' _ _] _]]. rewrite Hs in Ha.
    destruct (status_state t) eqn:E; try done. simpl. rewrite E.
    right. right. exists (status_state u). split; [|by right]. by destruct (status_state u).
  - exfalso. unfold len in Hl. simpl in Hl. lia.
Qed.

(** A task counts as completed only with an answer. *)
Definition completed_answered (s : task_views) : Prop :=
  ∀ pk v, s !! pk = Some v → view_state v = Completed → view_pruned v = false → view_evidence v = true.

Lemma write_answered v w :
  view_write v w → view_state w = Completed → view_evidence w = true.
Proof.
  intros [m Hv|a Hv|t d Hv Ht] Hc.
  - exfalso. unfold view_terminal in Hv. by rewrite (Hc : view_state v = _) in Hv.
  - exfalso. unfold view_terminal in Hv. by rewrite (Hc : view_state v = _) in Hv.
  - apply Ht. revert Hc. unfold view_state, current_status. simpl. by rewrite last_snoc.
Qed.

Lemma step_answered s op r s' :
  task_step config s op r s' → completed_answered s → completed_answered s'.
Proof.
  intros (k & s1 & Hk & Hw)%task_step_shape Ha.
  assert (completed_answered s1) as Ha1.
  { intros pk v Hv Hc Hp. destruct (prune_steps_view _ _ _ _ _ _ Hk Hv) as (v0 & Hv0 & [->| ->]);
      [by eapply Ha|done]. }
  intros pk v Hv Hc Hp. destruct Hw as [|c _ _|pk' v' w Hv' Hw]; [by eapply Ha1|..].
  - apply lookup_insert_Some in Hv as [[_ <-]|[_ Hv]]; [done|by eapply Ha1].
  - apply lookup_insert_Some in Hv as [[_ <-]|[_ Hv]]; [by eapply write_answered|by eapply Ha1].
Qed.

Lemma steps_answered s ops rs s' :
  task_steps config s ops rs s' → completed_answered s → completed_answered s'.
Proof. induction 1; eauto using step_answered. Qed.

Lemma path_times s l :
  status_path s l → StronglySorted Z.le (status_occurred_at <$> s :: l).
Proof.
  revert s. induction l as [|t l IH]; intros s; simpl; [by repeat constructor|].
  intros [[_ _ _ Ht] Hp]. specialize (IH t Hp). simpl in IH. constructor; [done|].
  constructor; [lia|]. apply StronglySorted_inv in IH as [_ IH].
  eapply Forall_impl; [exact IH|]. simpl. intros x ?. lia.
Qed.

(** After every sequence of calls, each task's status history is that of the
    lifecycle: submitted, possibly working, then at most one final status; generations
    count up from one, times never go back, a reason is present exactly on failed,
    canceled and rejected, and the task row shows the last of them.  A completed task has
    an Agent message or a complete artifact, for as long as its content is kept. *)
Theorem a2a_lifecycle ops key task :
  Forall op_typed ops → collision_free ops → get_task (tables_after ops) key = Ok task →
  ∃ later, status_updates (tables_after ops) key 0 = Ok later
    ∧ lifecycle_shape (status_state <$> later)
    ∧ status_generation <$> later = seqZ 1 (len later)
    ∧ StronglySorted Z.le (record_created_at task :: (status_occurred_at <$> later))
    ∧ Forall (fun t => a2a_task_status_reason_is_valid (status_state t) (status_terminal_reason t) = true) later
    ∧ record_state task = default Submitted (last (status_state <$> later))
    ∧ record_generation task = len later
    ∧ (record_state task = Completed → record_content_pruned task = false →
       has_completion_evidence (tables_after ops) key = true).
Proof.
  intros Htyped Hfree Hget. destruct (run_state ops Htyped Hfree) as (s & Hsteps & Hst & Hok & _).
  rewrite (get_task_view _ s key Hst Hok) in Hget.
  destruct (s !! task_pk key) as [v|] eqn:Hs; [|done]. injection Hget as <-.
  pose proof (ok_views _ _ Hok _ _ Hs) as Hv. pose proof (ok_path _ _ _ Hv) as Hp.
  destruct (status_path_facts _ _ Hp) as (Hg & _ & Hall & _). fold (current_status v) in Hg.
  exists (view_later v). split_and!.
  - by apply (status_updates_view _ s).
  - by apply (path_lifecycle (initial_status v)).
  - pose proof (status_path_numbers _ _ Hp) as Hn.
    rewrite seqZ_cons in Hn by (pose proof (len_nonneg (view_later v)); lia).
    apply (f_equal tail) in Hn. etransitivity; [exact Hn|]. cbn [tail]. f_equal; simpl; lia.
  - by apply (path_times (initial_status v)).
  - eapply Forall_impl; [exact Hall|]. simpl. tauto.
  - simpl. rewrite fmap_last. unfold current_status. by destruct (last (view_later v)).
  - simpl. rewrite Hg. simpl. lia.
  - simpl. intros Hc Hpr. rewrite (evidence_spec _ s key v (proj1 Hst) Hs).
    eapply (steps_answered _ _ _ _ Hsteps); [|done..]. intros pk' v' Hv'. by rewrite lookup_empty in Hv'.
Qed.

(** ** Repeating a creation *)

Lemma bindings_agree db s pk v pk' v' :
  tasks_represent db s → s !! pk = Some v → s !! pk' = Some v' →
  view_context_pk v = view_context_pk v' →
  view_conversation_id v = view_conversation_id v' ∧ view_target_device_id v = view_target_device_id v'.
Proof.
  intros Hrep Hv Hv' E. destruct (rep_bindings _ _ Hrep _ _ Hv) as (row & Hr & H1 & H2).
  destruct (rep_bindings _ _ Hrep _ _ Hv') as (row' & Hr' & H1' & H2'). rewrite E in Hr.
  rewrite Hr in Hr'. injection Hr' as <-. split; congruence.
Qed.

Lemma not_bound_elsewhere_again db s s1 now c v :
  tasks_represent db s → swept config now s s1 → s !! task_pk (creation_key c) = Some v →
  view_context_pk v = creation_context_pk c → view_conversation_id v = creation_conversation_id c →
  view_target_device_id v = creation_target_device_id c → ¬ bound_elsewhere s1 c.
Proof.
  intros Hrep Hsw Hv Hctx Hconv Hdev (pk' & v' & Hv' & Hc' & Hne).
  destruct (swept_view _ _ _ _ _ _ Hsw Hv') as (v0 & Hv0 & E).
  assert (view_context_pk v' = view_context_pk v0 ∧ view_conversation_id v' = view_conversation_id v0
          ∧ view_target_device_id v' = view_target_device_id v0) as (E1 & E2 & E3) by (by destruct E as [->| ->]).
  destruct (bindings_agree _ _ _ _ _ _ Hrep Hv Hv0) as [Ec Ed]; [congruence|].
  destruct Hne as [Hne|Hne]; apply Hne; congruence.
Qed.

Lemma swept_survives now s s1 pk v :
  swept config now s s1 → s !! pk = Some v → ¬ tombstone_due now v →
  ∃ w, s1 !! pk = Some w ∧ view_extends v w.
Proof.
  intros (k & Hk & _) Hv Hnot.
  destruct (prune_steps_keep _ _ _ _ _ _ Hk Hv) as [E|[(E & _)|(_ & Hdue)]]; [..|done].
  - eauto using view_extends_refl.
  - eauto using extends_prune.
Qed.

(** The same identity means the same route. *)
Lemma origin_route ops s c v :
  collision_free ops → originates ops s → OpCreate c ∈ ops → creation_ok c →
  s !! task_pk (creation_key c) = Some v → view_identity_digest v = creation_identity_digest c →
  view_context_pk v = creation_context_pk c ∧ view_conversation_id v = creation_conversation_id c
  ∧ view_target_device_id v = creation_target_device_id c.
Proof.
  intros Hfree Ho Hop Hc Hv Hd. destruct (Ho _ _ Hv) as (c0 & Hc0 & Hok0 & Hid).
  assert (creation_identity_preimage c0 = creation_identity_preimage c) as E.
  { apply Hfree; [assumption..|]. rewrite <- Hd. symmetry. exact (f_equal view_identity_digest Hid). }
  unfold creation_identity_preimage in E.
  apply task_identity_preimage_inj in E as (Ek & Ec & _ & Ev & Et & _);
    [|apply (ok_creation_history _ Hok0)|apply (ok_creation_history _ Hc)].
  unfold view_context_pk, creation_context_pk.
  assert (view_key v = creation_key c0 ∧ view_context_id v = creation_context_id c0
    ∧ view_conversation_id v = creation_conversation_id c0
    ∧ view_target_device_id v = creation_target_device_id c0) as (-> & -> & -> & ->)
    by (injection Hid; intros; split_and!; assumption).
  rewrite Ek, Ec, Ev, Et. split_and!; reflexivity.
Qed.

(** What creating a task answers when its identifier is taken. *)
Lemma create_spec_taken s c v :
  s !! task_pk (creation_key c) = Some v →
  (view_identity_digest v = creation_identity_digest c → ¬ bound_elsewhere s c →
   view_context_pk v = creation_context_pk c → create_spec config s c = Ok (TaskExisting (record_of v), s))
  ∧ (view_identity_digest v ≠ creation_identity_digest c →
     create_spec config s c = Err Conflict ∨ create_spec config s c = Err CapacityExceeded).
Proof.
  intros Hv. unfold create_spec. rewrite Hv. split.
  - intros Hd Hb Hctx. rewrite (bool_decide_eq_false_2 (bound_elsewhere s c)) by done.
    cbn [fail_if mbind result_bind].
    rewrite (bool_decide_eq_false_2 (creation_context_pk c ∉ views_contexts s)).
    + simpl. by rewrite bool_decide_eq_true_2.
    + intros Hn. apply Hn. apply elem_of_map_to_set. eauto.
  - intros Hd. rewrite (bool_decide_eq_false_2 (view_identity_digest v = _)) by done.
    destruct (bool_decide (bound_elsewhere s c)); [by left|]. simpl.
    destruct (_ && _); [by right|by left].
Qed.

(** Creating a task whose identifier a stored task has, at any time before its
    tombstone expires, never creates or changes a task: when the two have the same
    identity the answer is the stored task as it is now, otherwise the call fails and the
    tables are as before. *)
Theorem a2a_create_idempotent ops c task :
  let op := OpCreate c in
  let db := tables_after ops in
  let '(answer, db') := create_task config db c in
  Forall op_typed (ops ++ [op]) → collision_free (ops ++ [op]) → ¬ op_refused op →
  get_task db (creation_key c) = Ok task →
  (∀ t, record_terminal_at task = Some t →
        creation_created_at c < t + idempotency_retention_milliseconds config) →
  if bool_decide (record_identity_digest task = creation_identity_digest c) then
    ∃ task', answer = Ok (TaskExisting task') ∧ record_extends task task'
      ∧ get_task db' (creation_key c) = Ok task'
  else (answer = Err Conflict ∨ answer = Err CapacityExceeded) ∧ db' = db.
Proof.
  cbv zeta. destruct (create_task config (tables_after ops) c) as [answer db'] eqn:Hcreate.
  intros Htyped Hfree Href Hget Hlive.
  pose proof Htyped as [Ht1 [Ht2 _]%Forall_cons]%Forall_app.
  destruct (a2a_run_refines config Hcfg ops (ops ++ [OpCreate c]) empty_a2a_db ∅) as (s & _ & Hst & Hok & Ho);
    [assumption|set_solver|assumption|done|apply empty_represents|by apply empty_tasks_ok|].
  fold (tables_after ops) in Hst.
  assert (OpCreate c ∈ ops ++ [OpCreate c]) as Hin by set_solver.
  rewrite (get_task_view _ s _ Hst Hok) in Hget.
  destruct (s !! task_pk (creation_key c)) as [v|] eqn:Hv; [|done]. injection Hget as <-.
  destruct (create_task_refines config Hcfg (tables_after ops) s c Hst Hok Ht2) as (s1 & Hsw & Hok1 & Hrefine).
  { destruct (Z.le_gt_cases (creation_created_at c) I64_MAX); [done|]. exfalso. apply Href. by right. }
  { apply dec_stable. intros ?. apply Href. by left. }
  { intros v' Hv'. by eapply (originates_distinguished _ s (OpCreate c) Hfree Ho Hin Ht2). }
  rewrite Hcreate in Hrefine.
  destruct (swept_survives _ _ _ _ _ Hsw Hv) as (w & Hw & Hext).
  { intros (dc & dt & Hd & Hle).
    destruct (terminal_deadlines _ _ _ _ (ok_views _ _ Hok _ _ Hv) Hd) as (t & Ht & -> & ->).
    specialize (Hlive t Ht). lia. }
  assert (view_identity_digest w = view_identity_digest v) as Hdw
    by exact (f_equal view_identity_digest (extends_identity _ _ Hext)).
  assert (view_context_pk w = view_context_pk v) as Hcw
    by exact (f_equal view_context_pk (extends_identity _ _ Hext)).
  destruct (create_spec_taken s1 c w Hw) as [Hsame Hdiff]. cbn [record_of record_identity_digest].
  case_bool_decide as Hd.
  - destruct (origin_route _ s c v Hfree Ho Hin Ht2 Hv Hd) as (Ec & Ev & Et).
    rewrite Hsame in Hrefine;
      [|congruence|eapply not_bound_elsewhere_again; [apply Hst|done..]|congruence].
    destruct Hrefine as (E & Hst1 & _). simpl in E, Hst1. exists (record_of w). split; [done|].
    split; [|by rewrite (get_task_view _ s1 _ Hst1 Hok1), Hw].
    eapply extends_record; [by apply (ok_views _ _ Hok)|by apply (ok_views _ _ Hok1)|done].
  - destruct Hdiff as [E|E]; [congruence|..]; rewrite E in Hrefine; simpl in Hrefine;
      injection Hrefine as -> ->; auto.
Qed.

End lifecycle.
