(* ===== verification/A2AListing.v ===== *)
(** * Listing A2A tasks

    Following the cursors of [list_tasks] visits every visible task of a context exactly
    once, newest first, and ends. *)

From S2P Require Import Prelude Identifiers A2AContracts A2ATaskModel A2AStore A2AStoreSpec A2AStoreProofs A2AStoreOps A2AStoreRun A2ALifecycle.
Open Scope Z_scope.

(** ** What a listing shows *)

(** A task of the context, with its content. *)
Definition visible (query : A2ATaskListQuery) (entry : TaskPk * TaskView) : bool :=
  bool_decide (entry.1.1.1 = as_str (query_agent_id query))
  && bool_decide (entry.1.1.2 = default [] (as_str <$> query_tenant query))
  && bool_decide (as_str (view_context_id entry.2) = as_str (query_context_id query))
  && negb (view_pruned entry.2).

Definition entry_key (entry : TaskPk * TaskView) : Z * text := (view_created_at entry.2, entry.1.2).

Global Instance list_compare_desc_total : TotalCompare list_compare_desc.
Proof. apply (flip_compare_total (pair_compare Z.compare bytes_compare)). apply _. Qed.

(** Newest first. *)
Definition listed (query : A2ATaskListQuery) (s : task_views) : list (TaskPk * TaskView) :=
  sort_by entry_key list_compare_desc (List.filter (visible query) (map_to_list s)).

Definition after_cursor (cursor : A2ATaskListCursor) (entry : TaskPk * TaskView) : bool :=
  bool_decide (list_compare_desc (cursor_created_at cursor, as_str (cursor_task_id cursor))
                 (entry_key entry) = Lt).

(** What is left for a query. *)
Definition remaining (query : A2ATaskListQuery) (s : task_views) : list (TaskPk * TaskView) :=
  match query_cursor query with
  | Some cursor => List.filter (after_cursor cursor) (listed query s)
  | None => listed query s
  end.

Section listing.
Context `{Sha256} (config : A2ASqliteTaskStoreConfig) (Hcfg : store_config_ok config).

Definition as_row (entry : TaskPk * TaskView) : TaskPk * TaskRow := (entry.1, task_row_of entry.2).

Lemma in_scope_row query e : in_scope query (as_row e) = visible query e.
Proof. unfold in_scope, visible, as_row. simpl. by destruct (view_pruned e.2). Qed.

Lemma before_cursor_row cursor e :
  before_cursor (cursor_created_at cursor) (as_str (cursor_task_id cursor)) (as_row e)
  = after_cursor cursor e.
Proof.
  unfold before_cursor, after_cursor, list_compare_desc, pair_compare, entry_key. simpl.
  rewrite Z.ltb_compare. destruct (view_created_at e.2 ?= _) eqn:E.
  - apply Z.compare_eq_iff in E. rewrite E, Z.eqb_refl. done.
  - done.
  - apply Z.compare_gt_iff in E. simpl. replace (view_created_at e.2 =? cursor_created_at cursor) with false; [done|].
    symmetry. apply Z.eqb_neq. lia.
Qed.

Lemma visible_keys query s :
  NoDup (entry_key <$> List.filter (visible query) (map_to_list s)).
Proof.
  apply NoDup_fmap_2_strong.
  - intros [[[a t] i] v] [[[a' t'] i'] v'] Hx Hy [= _ ->].
    apply list_elem_of_In, filter_In in Hx as [Hx Hvx]. apply list_elem_of_In, filter_In in Hy as [Hy Hvy].
    apply list_elem_of_In, elem_of_map_to_list in Hx. apply list_elem_of_In, elem_of_map_to_list in Hy.
    unfold visible in Hvx, Hvy. rewrite !andb_true_iff, !bool_decide_eq_true in Hvx, Hvy. simpl in *.
    destruct Hvx as [[[-> ->] _] _], Hvy as [[[-> ->] _] _]. rewrite Hx in Hy. by injection Hy as ->.
  - apply NoDup_ListNoDup, List.NoDup_filter, NoDup_ListNoDup, NoDup_map_to_list.
Qed.

Lemma listed_sorted query s : StronglySorted (key_lt entry_key list_compare_desc) (listed query s).
Proof.
  apply NoDup_strictly_sorted; [apply _|apply sort_by_sorted, _|]. unfold listed. rewrite sort_by_perm.
  apply visible_keys.
Qed.

Lemma elem_of_listed query s pk v :
  (pk, v) ∈ listed query s ↔ s !! pk = Some v ∧ visible query (pk, v) = true.
Proof.
  unfold listed. rewrite (sort_by_perm entry_key list_compare_desc).
  rewrite list_elem_of_In, filter_In, <- list_elem_of_In, elem_of_map_to_list. done.
Qed.

Lemma filter_fmap_rows (p : TaskPk * TaskRow → bool) (q : TaskPk * TaskView → bool) l :
  (∀ e, p (as_row e) = q e) → List.filter p (as_row <$> l) = as_row <$> List.filter q l.
Proof.
  intros Hpq. induction l as [|e l IH]; [done|]. rewrite fmap_cons. cbn [List.filter].
  rewrite Hpq, IH. by destruct (q e).
Qed.

(** The rows of the listing query, before its limit. *)
Lemma listed_rows db s query (q : TaskPk * TaskView → bool) (p : TaskPk * TaskRow → bool) :
  tasks_represent db s → (∀ e, p (as_row e) = q e) →
  sort_by list_key list_compare_desc (List.filter p (List.filter (in_scope query) (map_to_list (a2a_task db))))
  = as_row <$> List.filter q (listed query s).
Proof.
  intros Hrep Hpq. rewrite (rep_tasks _ _ Hrep), map_to_list_fmap.
  change (prod_map id task_row_of <$> map_to_list s) with (as_row <$> map_to_list s).
  rewrite (filter_fmap_rows _ (visible query)) by apply in_scope_row.
  rewrite (filter_fmap_rows _ q) by done. rewrite sort_by_fmap.
  change (list_key ∘ as_row) with entry_key.
  by rewrite (sort_by_filter entry_key list_compare_desc q) by apply visible_keys.
Qed.

(** One page. *)
Definition entry_record (entry : TaskPk * TaskView) : A2ATaskRecord := record_of entry.2.
Definition entry_cursor (r : A2ATaskRecord) : A2ATaskListCursor :=
  A2ATaskListCursor_new (record_created_at r) (task_id (record_key r)).

Lemma load_listed db s query l :
  tasks_represent db s → tasks_ok config s → (∀ e, e ∈ l → e ∈ listed query s) →
  traverse (fun row => id ← parse_column KTask row.1; load_task db (query_key query id))
    ((fun e => (e.1.2, view_created_at e.2)) <$> l) = Ok (entry_record <$> l).
Proof.
  intros Hrep Hok. induction l as [|[pk v] l IH]; intros Hl; [done|].
  assert ((pk, v) ∈ listed query s) as Hin by (apply Hl; left).
  apply elem_of_listed in Hin as [Hs Hvis].
  pose proof (ok_views _ _ Hok _ _ Hs) as Hv. pose proof (ok_pk _ _ _ Hv) as <-.
  unfold visible in Hvis. rewrite !andb_true_iff, !bool_decide_eq_true in Hvis.
  destruct Hvis as [[[Ha Ht] _] _]. simpl in Ha, Ht. apply as_str_inj in Ha. apply tenant_str_inj in Ht.
  rewrite fmap_cons. cbn [traverse fst snd]. change ((task_pk (view_key v)).2) with (as_str (task_id (view_key v))).
  rewrite parse_column_as_str. cbn [mbind result_bind].
  assert (query_key query (task_id (view_key v)) = view_key v) as ->
    by (unfold query_key; rewrite <- Ha, <- Ht; by destruct (view_key v)).
  rewrite (load_task_spec config Hcfg db s _ Hrep Hok), Hs. cbn [mbind result_bind].
  rewrite IH; [done|]. intros e He. apply Hl. by right.
Qed.

Lemma remaining_listed query s e : e ∈ remaining query s → e ∈ listed query s.
Proof.
  unfold remaining. destruct (query_cursor query); [|done].
  rewrite !list_elem_of_In, filter_In. tauto.
Qed.

Record query_ok (query : A2ATaskListQuery) : Prop := {
  ok_query_size : 1 <= query_page_size query <= MAX_PAGE_SIZE;
  ok_query_cursor : ∀ c, query_cursor query = Some c → cursor_created_at c <= I64_MAX }.

Lemma page_rows_spec db s query :
  tasks_represent db s → tasks_ok config s → query_ok query →
  load_task_page_rows db query
  = Ok ((fun e => (e.1.2, view_created_at e.2)) <$> take (Z.to_nat (query_page_size query + 1)) (remaining query s)).
Proof.
  intros Hrep Hok [Hsize Hcur]. unfold load_task_page_rows, MAX_PAGE_SIZE in *.
  rewrite checked_add_fits by (unfold USIZE_MAX, U64_MAX; lia). cbn [ok_or mbind result_bind].
  pass_guard by (apply Z.ltb_ge; unfold I64_MAX; lia). cbv zeta.
  assert (∀ l, (∀ e, e ∈ l → e ∈ listed query s) →
    traverse (fun entry : TaskPk * TaskRow => created_at ← from_sql (trow_created_at entry.2); Ok (entry.1.2, created_at))
      (as_row <$> l) = Ok ((fun e => (e.1.2, view_created_at e.2)) <$> l)) as Htrav.
  { induction l as [|[pk v] l IH]; intros Hl; [done|]. rewrite !fmap_cons. cbn [traverse as_row fst snd].
    assert ((pk, v) ∈ listed query s) as [Hs _]%elem_of_listed by (apply Hl; left).
    pose proof (ok_created _ _ _ (ok_views _ _ Hok _ _ Hs)) as Hc.
    cbn [task_row_of trow_created_at]. rewrite from_sql_nonneg by lia. cbn [mbind result_bind].
    rewrite IH; [done|]. intros e He. apply Hl. by right. }
  unfold remaining. destruct (query_cursor query) as [c|] eqn:Hq.
  - rewrite to_sql_fits by (by apply Hcur). cbn [mbind result_bind].
    rewrite (listed_rows db s query (after_cursor c)) by (done || apply before_cursor_row).
    rewrite <- fmap_take. apply Htrav. intros e He. apply (remaining_listed query s e). unfold remaining.
    rewrite Hq. apply elem_of_take in He as (i & Hi & _). by eapply list_elem_of_lookup_2.
  - cbn [mbind result_bind].
    rewrite <- (filter_all (λ _, true) (List.filter (in_scope query) _)) by done.
    rewrite (listed_rows db s query (λ _, true)) by done. rewrite filter_all by done.
    rewrite <- fmap_take. apply Htrav. intros e He. apply elem_of_take in He as (i & Hi & _). by eapply list_elem_of_lookup_2.
Qed.

Lemma total_size_spec db s query :
  tasks_represent db s →
  len (List.filter (in_scope query) (map_to_list (a2a_task db))) = len (listed query s).
Proof.
  intros Hrep. rewrite (rep_tasks _ _ Hrep), map_to_list_fmap.
  change (prod_map id task_row_of <$> map_to_list s) with (as_row <$> map_to_list s).
  rewrite (filter_fmap_rows _ (visible query)) by apply in_scope_row. unfold len. rewrite length_fmap.
  unfold listed. by rewrite (sort_by_perm entry_key list_compare_desc).
Qed.

(** The cursor after a page: where its last task is, if tasks are left. *)
Definition next_cursor_of (query : A2ATaskListQuery) (s : task_views) : option A2ATaskListCursor :=
  if query_page_size query <? len (remaining query s)
  then (fun e => entry_cursor (entry_record e)) <$> last (take (Z.to_nat (query_page_size query)) (remaining query s))
  else None.

Lemma load_page_spec db s query :
  tasks_represent db s → tasks_ok config s → query_ok query →
  load_task_page db query
  = Ok (entry_record <$> take (Z.to_nat (query_page_size query)) (remaining query s),
        next_cursor_of query s, len (listed query s)).
Proof.
  intros Hrep Hok Hq. pose proof (ok_query_size _ Hq) as Hsize. unfold load_task_page.
  rewrite (total_size_spec db s query Hrep), (page_rows_spec db s query Hrep Hok Hq). cbn [mbind result_bind].
  rewrite <- fmap_take, take_take.
  replace (Z.to_nat (query_page_size query) `min` Z.to_nat (query_page_size query + 1))%nat
    with (Z.to_nat (query_page_size query)) by lia.
  rewrite (load_listed db s query _ Hrep Hok).
  2:{ intros e He. apply elem_of_take in He as (i & Hi & _).
      apply remaining_listed. by eapply list_elem_of_lookup_2. }
  cbn [mbind result_bind]. unfold next_cursor_of. do 3 f_equal.
  unfold len. rewrite length_fmap, length_take.
  destruct (Z.ltb_spec (query_page_size query) (Z.of_nat (length (remaining query s)))) as [Hlt|Hge].
  - rewrite (proj2 (Z.ltb_lt _ _)) by lia. rewrite fmap_last. by destruct (last _).
  - by rewrite (proj2 (Z.ltb_ge _ _)) by lia.
Qed.

(** ** Following the cursors *)

Definition with_cursor (query : A2ATaskListQuery) (cursor : option A2ATaskListCursor) : A2ATaskListQuery :=
  mk_A2ATaskListQuery (query_agent_id query) (query_tenant query) (query_context_id query)
    (query_page_size query) cursor.

(** A client that asks for page after page until there is no cursor. *)
Fixpoint list_all (pages : nat) (db : A2ADb) (query : A2ATaskListQuery)
    : result A2ATaskStoreError (list A2ATaskRecord) :=
  match pages with
  | O => Err CapacityExceeded
  | S pages =>
      page ← list_tasks db query;
      match page_next_cursor page with
      | None => Ok (page_tasks page)
      | Some cursor =>
          rest ← list_all pages db (with_cursor query (Some cursor));
          Ok (page_tasks page ++ rest)
      end
  end.

Lemma list_tasks_spec db s query :
  tasks_represent db s → tasks_ok config s → query_ok query →
  list_tasks db query
  = Ok (A2ATaskListPage_new (entry_record <$> take (Z.to_nat (query_page_size query)) (remaining query s))
          (next_cursor_of query s) (query_page_size query) (len (listed query s))).
Proof.
  intros Hrep Hok Hq. pose proof (ok_query_size _ Hq). unfold list_tasks, validate_list_page_size.
  pass_guard by (apply orb_false_iff; rewrite Z.eqb_neq, Z.ltb_ge; lia).
  by rewrite (load_page_spec db s query Hrep Hok Hq).
Qed.

Lemma remaining_sorted query s : StronglySorted (key_lt entry_key list_compare_desc) (remaining query s).
Proof.
  unfold remaining. destruct (query_cursor query); [apply sorted_filter|]; apply listed_sorted.
Qed.

(** A cursor at a remaining task leaves what comes after it. *)
Lemma remaining_after query s e i c :
  remaining query s !! i = Some e →
  (cursor_created_at c, as_str (cursor_task_id c)) = entry_key e →
  remaining (with_cursor query (Some c)) s = drop (S i) (remaining query s).
Proof.
  intros Hi Hc. rewrite <- (filter_after_lookup entry_key list_compare_desc _ i e (remaining_sorted query s) Hi).
  unfold remaining at 1. cbn [with_cursor query_cursor].
  change (listed (with_cursor query (Some c)) s) with (listed query s).
  unfold after_cursor. rewrite Hc.
  apply list_elem_of_lookup_2 in Hi. unfold remaining in *. destruct (query_cursor query) as [c0|]; [|done].
  rewrite filter_filter. apply filter_ext_all. intros y.
  apply list_elem_of_In, filter_In in Hi as [_ Hi]. unfold after_cursor in Hi.
  apply bool_decide_eq_true in Hi. symmetry. apply andb_true_r_impl. intros Hy.
  apply bool_decide_eq_true in Hy. apply bool_decide_eq_true. by eapply (compare_lt_trans list_compare_desc).
Qed.

Lemma remaining_next query s c :
  tasks_ok config s → query_ok query → next_cursor_of query s = Some c →
  remaining (with_cursor query (Some c)) s = drop (Z.to_nat (query_page_size query)) (remaining query s)
  ∧ query_ok (with_cursor query (Some c)) ∧ query_page_size query < len (remaining query s).
Proof.
  intros Hok [Hsize Hcur] Hnext. unfold next_cursor_of in Hnext.
  destruct (Z.ltb_spec (query_page_size query) (len (remaining query s))) as [Hlt|]; [|done].
  apply fmap_Some in Hnext as ([pk v] & He & ->). rewrite last_lookup in He.
  unfold len in Hlt. rewrite length_take, Nat.min_l in He by lia.
  rewrite lookup_take_lt in He by lia.
  assert ((pk, v) ∈ listed query s) as [Hs _]%elem_of_listed
    by (eapply remaining_listed, list_elem_of_lookup_2, He).
  pose proof (ok_views _ _ Hok _ _ Hs) as Hv. pose proof (ok_pk _ _ _ Hv) as <-.
  rewrite (remaining_after query s _ _ _ He) by done. split; [f_equal; lia|]. split; [|done].
  split; [done|]. intros c [= <-]. apply (ok_created _ _ _ Hv).
Qed.

Lemma list_all_remaining pages db s query :
  tasks_represent db s → tasks_ok config s → query_ok query →
  (length (remaining query s) < pages)%nat →
  list_all pages db query = Ok (entry_record <$> remaining query s).
Proof.
  intros Hrep Hok. revert query. induction pages as [|pages IH]; intros query Hq Hp; [lia|].
  cbn [list_all]. rewrite (list_tasks_spec db s query Hrep Hok Hq).
  cbn [mbind result_bind page_next_cursor page_tasks]. pose proof (ok_query_size _ Hq) as Hsize.
  destruct (next_cursor_of query s) as [c|] eqn:Hnext.
  - destruct (remaining_next query s c Hok Hq Hnext) as (Hrest & Hq' & Hlt). unfold len in Hlt.
    rewrite IH; [|done|rewrite Hrest, length_drop; lia]. cbn [mbind result_bind].
    by rewrite Hrest, <- fmap_app, take_drop.
  - unfold next_cursor_of in Hnext.
    destruct (Z.ltb_spec (query_page_size query) (len (remaining query s))) as [Hlt|Hge].
    + apply fmap_None in Hnext. rewrite last_None in Hnext. unfold len in Hlt.
      apply (f_equal length) in Hnext. rewrite length_take in Hnext. simpl in Hnext. lia.
    + unfold len in Hge. by rewrite take_ge by lia.
Qed.

(** Newest first, ties by identifier. *)
Definition newer (r r' : A2ATaskRecord) : Prop :=
  list_compare_desc (record_created_at r, as_str (task_id (record_key r)))
    (record_created_at r', as_str (task_id (record_key r'))) = Lt.

Lemma listed_newer query s : tasks_ok config s → StronglySorted newer (entry_record <$> listed query s).
Proof.
  intros Hok. assert (Forall (fun e => view_ok config e.1 e.2) (listed query s)) as Hall.
  { apply Forall_forall. intros [pk v] [Hs _]%elem_of_listed. by apply (ok_views _ _ Hok). }
  pose proof (listed_sorted query s) as Hsort. revert Hall.
  induction Hsort as [|e l Hl IH He]; intros Hall; [constructor|].
  apply Forall_cons in Hall as [Hv Hall]. rewrite fmap_cons. constructor; [by apply IH|].
  rewrite Forall_fmap. apply Forall_forall. intros e' Hin.
  rewrite Forall_forall in He. specialize (He e' Hin). unfold key_lt, entry_key in He.
  rewrite Forall_forall in Hall. specialize (Hall e' Hin).
  rewrite <- (ok_pk _ _ _ Hv), <- (ok_pk _ _ _ Hall) in He. exact He.
Qed.

(** What the listing of a context shows of the store. *)
Definition task_visible (query : A2ATaskListQuery) (r : A2ATaskRecord) : Prop :=
  agent_id (record_key r) = query_agent_id query ∧ tenant (record_key r) = query_tenant query
  ∧ record_context_id r = query_context_id query ∧ record_content_pruned r = false.

Lemma elem_of_listed_records query db s r :
  store_represents db s → tasks_ok config s →
  r ∈ entry_record <$> listed query s ↔ get_task db (record_key r) = Ok r ∧ task_visible query r.
Proof.
  intros Hst Hok. rewrite list_elem_of_fmap, (get_task_view config Hcfg db s) by done. split.
  - intros ([pk v] & -> & [Hs Hvis]%elem_of_listed). cbn [entry_record snd record_of record_key].
    rewrite (ok_pk _ _ _ (ok_views _ _ Hok _ _ Hs)), Hs. split; [done|].
    rewrite <- (ok_pk _ _ _ (ok_views _ _ Hok _ _ Hs)) in Hvis.
    unfold visible in Hvis. rewrite !andb_true_iff, !bool_decide_eq_true, negb_true_iff in Hvis.
    destruct Hvis as [[[Ha Ht] Hc] Hp]. unfold task_visible. cbn [record_of record_key record_context_id record_content_pruned].
    simpl in Ha, Ht, Hc. apply as_str_inj in Ha, Hc. by apply tenant_str_inj in Ht.
  - intros [Hget (Ha & Ht & Hc & Hp)]. destruct (s !! task_pk (record_key r)) as [v|] eqn:Hs; [|done].
    injection Hget as <-. exists (task_pk (view_key v), v). split; [done|]. apply elem_of_listed.
    split; [done|]. unfold visible. cbn [record_of record_key record_context_id record_content_pruned] in *.
    cbn [fst snd task_pk]. rewrite Hp, Hc, <- Ha, <- Ht. by rewrite !bool_decide_eq_true_2.
Qed.

(** C26: After every sequence of calls, a client that follows the cursors of [list_tasks]
    gets, after at most one page more than there are tasks, exactly the tasks of the
    context that [get_task] shows with their content, each once and newest first; every
    page reports their number. *)
Theorem a2a_list_complete ops query :
  Forall op_typed ops → collision_free ops → query_ok query → query_cursor query = None →
  let db := tables_after config ops in
  ∃ all, (∀ pages, (length all < pages)%nat → list_all pages db query = Ok all)
    ∧ StronglySorted newer all
    ∧ (∀ r, r ∈ all ↔ get_task db (record_key r) = Ok r ∧ task_visible query r)
    ∧ ∀ cursor, query_ok (with_cursor query cursor) →
        ∃ page, list_tasks db (with_cursor query cursor) = Ok page ∧ page_total_size page = len all.
Proof.
  intros Htyped Hfree Hq Hnone db. destruct (run_state config Hcfg ops Htyped Hfree) as (s & _ & Hst & Hok & _).
  exists (entry_record <$> listed query s). split_and!.
  - intros pages Hp. rewrite length_fmap in Hp.
    assert (remaining query s = listed query s) as E by (unfold remaining; by rewrite Hnone).
    rewrite <- E in *. by apply list_all_remaining; [apply Hst|..].
  - by apply listed_newer.
  - intros r. by apply elem_of_listed_records.
  - intros cursor Hq'. rewrite (list_tasks_spec db s _ (proj1 Hst) Hok Hq').
    eexists. split; [done|]. cbn [page_total_size]. unfold len. rewrite length_fmap. done.
Qed.

End listing.
