(* ===== verification/A2AExamples.v ===== *)
(** * One A2A task from request to completion

    A digest that folds its input into 32 bytes stands for SHA-256; a request is mapped,
    stored, worked on, answered and completed on the executable model, and the theorems are
    applied to that run. *)

From S2P Require Import Prelude TextModel BoundedDocuments Identifiers A2AContracts A2AArtifacts A2ATaskModel A2AStore.
From S2P Require Import A2AStoreSpec A2AStoreProofs A2AStoreOps A2AStoreRun A2ALifecycle A2AListing.
Open Scope Z_scope.

(** ** A folding digest *)

Definition mix (digest : bytes) (b : byte) : bytes :=
  match digest with
  | x :: rest => rest ++ [u8 (Z.lxor (3 * byte_value x + 1) (byte_value b))]
  | [] => []
  end.

Definition fold_digest (value : bytes) : bytes := foldl mix (replicate 32 x00) value.

Lemma mix_length digest b : length (mix digest b) = length digest.
Proof. destruct digest; simpl; [done|]. rewrite length_app. simpl. lia. Qed.

Lemma fold_digest_length value : length (fold_digest value) = 32%nat.
Proof.
  unfold fold_digest. assert (length (replicate 32 x00) = 32%nat) as Hl by done. revert Hl.
  generalize (replicate 32 x00). induction value as [|b value IH]; intros digest Hl; simpl; [done|].
  apply IH. by rewrite mix_length.
Qed.

Local Instance example_sha : Sha256 := {| sha256 := fold_digest; sha256_length := fold_digest_length |}.

(** ** A route and a request *)

Definition example_agent : A2AAgentId := @mk_A2AId KAgent (lit "agent") eq_refl.
Definition example_context : A2AContextId := @mk_A2AId KContext (lit "context") eq_refl.
Definition example_source : A2AMessageId := @mk_A2AId KMessage (lit "m-1") eq_refl.
Definition example_reply : A2AMessageId := @mk_A2AId KMessage (lit "m-2") eq_refl.
Definition example_conversation : ConversationId := @from_bytes KConversationId (replicate 32 x07) eq_refl.
Definition example_device : DeviceId := @from_bytes KDeviceId (replicate 32 x08) eq_refl.
Definition example_request_id : MessageId := @from_bytes KMessageId (replicate 16 x12) eq_refl.
Definition example_task_id : A2ATaskId := @mk_A2AId KTask (hex_encode (replicate 16 x12)) eq_refl.

Definition example_key : A2ATaskKey := A2ATaskKey_new example_agent None example_task_id.

Definition example_creation (now : Z) : A2ATaskCreation :=
  mk_A2ATaskCreation example_key example_context example_source example_conversation
    example_device example_request_id (lit "hello") false (Some 1) now.

Definition example_config : A2ASqliteTaskStoreConfig := A2ASqliteTaskStoreConfig_default.

Lemma example_config_ok : store_config_ok example_config.
Proof. by split. Qed.

Definition example_answer : A2ATaskMessage :=
  mk_A2ATaskMessage example_key example_reply Agent (lit "done") 1200.

Definition example_ops : list task_op :=
  [OpCreate (example_creation 1000);
   OpTransition (A2ATaskTransition_new example_key 0 Working None 1100);
   OpMessage example_answer 1200;
   OpTransition (A2ATaskTransition_new example_key 1 Completed None 1300)].

Lemma example_creation_ok now : 0 <= now → creation_ok (example_creation now).
Proof. intros Hn. split; [reflexivity| |done]. intros h [= <-]. done. Qed.

Lemma example_ops_typed : Forall op_typed example_ops.
Proof. constructor; [by apply example_creation_ok|]. by repeat constructor. Qed.

Lemma example_collision_free ops :
  (∀ c, OpCreate c ∈ ops → ∃ now, c = example_creation now) → collision_free ops.
Proof. intros Hops c c' Hc Hc' _. destruct (Hops c Hc) as [? ->], (Hops c' Hc') as [? ->]. done. Qed.

Lemma example_ops_creations c : OpCreate c ∈ example_ops → ∃ now, c = example_creation now.
Proof.
  unfold example_ops. rewrite !elem_of_cons, elem_of_nil.
  intros [[= ->]|[E|[E|[E|[]]]]]; try discriminate E. by exists 1000.
Qed.

(** ** Contract and mapping *)

Definition example_wire : WireSendMessageRequest :=
  mk_WireSendMessageRequest [] (Some (mk_WireMessage (lit "m-1") (lit "context") [] 1
    [mk_WirePart (Some (PartText (lit "hello"))) None [] []] None [] [])) None None.

Definition example_request : InitialSendMessageRequest :=
  match validate_initial_send_message_request example_wire None with
  | Ok r => r
  | Err _ => mk_InitialSendMessageRequest None [] None [] false None
  end.

Lemma send_message_roundtrip_witness :
  ∃ w', InitialSendMessageRequest_into_wire example_request = Some w'
      ∧ validate_initial_send_message_request w' None = Ok example_request.
Proof. apply (send_message_roundtrip example_wire None). vm_compute. reflexivity. Defined.

Definition example_route : A2AAgentRoute :=
  mk_A2AAgentRoute example_agent example_context None example_conversation example_device.

Lemma a2a_mapping_binds_witness :
  is_ok (map_initial_send_message example_route example_request) = true
  ∧ ∀ m, map_initial_send_message example_route example_request = Ok m →
      mapping_conversation_id m = example_conversation ∧ mapping_target_device_id m = example_device.
Proof.
  destruct (a2a_mapping_binds example_route example_request) as [_ Hbinds].
  split; [vm_compute; reflexivity|]. intros m Hm. destruct (Hbinds m Hm) as (? & ? & _). done.
Defined.

(** ** The run *)

Lemma a2a_store_refines_witness :
  (λ r, match r with Ok _ => true | Err _ => false end)
    <$> (a2a_run example_config empty_a2a_db example_ops).1 = [true; true; true; true]
  ∧ let '(answers, db) := a2a_run example_config empty_a2a_db example_ops in
    ∃ s, task_steps example_config ∅ example_ops answers s ∧ store_represents db s
      ∧ tasks_ok example_config s ∧ Forall undamaged answers
      ∧ verify_store_bounds example_config db = Ok ().
Proof.
  split; [vm_compute; reflexivity|].
  apply (a2a_store_refines example_config example_config_ok).
  - apply example_ops_typed.
  - apply example_collision_free, example_ops_creations.
Defined.

(** The completed task, as [get_task] shows it. *)
Definition example_task : A2ATaskRecord :=
  match get_task (tables_after example_config example_ops) example_key with
  | Ok r => r
  | Err _ => record_of (new_view (example_creation 0))
  end.

Lemma example_task_stored :
  get_task (tables_after example_config example_ops) example_key = Ok example_task.
Proof. vm_compute. reflexivity. Qed.

(** Eight days later: the content retention has passed, the tombstone is kept. *)
Definition example_later : Z := 1300 + 8 * 24 * 60 * 60 * 1000.

Lemma a2a_tasks_retained_witness :
  let db := tables_after example_config example_ops in
  let db' := tables_after example_config (example_ops ++ [OpPrune example_later]) in
  ((λ r, record_content_pruned r) <$> get_task db' example_key = Ok true)
  ∧ ((∃ task' history history', get_task db' example_key = Ok task'
       ∧ record_extends example_task task'
       ∧ status_updates db example_key 0 = Ok history ∧ status_updates db' example_key 0 = Ok history'
       ∧ history `prefix_of` history'
       ∧ (record_content_pruned task' = true → record_content_pruned example_task = false →
          ∃ t, record_terminal_at example_task = Some t
             ∧ t + content_retention_milliseconds example_config <= example_later))
     ∨ (∃ t, record_terminal_at example_task = Some t
          ∧ t + idempotency_retention_milliseconds example_config <= example_later)).
Proof.
  intros db db'. split; [vm_compute; reflexivity|].
  refine (a2a_tasks_retained example_config example_config_ok example_ops (OpPrune example_later)
            example_key example_task _ _ _).
  - apply Forall_app. split; [apply example_ops_typed|by repeat constructor].
  - apply example_collision_free. intros c. rewrite elem_of_app, list_elem_of_singleton.
    intros [Hc|Hc]; [by apply example_ops_creations|done].
  - exact example_task_stored.
Defined.

Lemma a2a_lifecycle_witness :
  ∃ later, status_updates (tables_after example_config example_ops) example_key 0 = Ok later
    ∧ status_state <$> later = [Working; Completed]
    ∧ has_completion_evidence (tables_after example_config example_ops) example_key = true.
Proof.
  destruct (a2a_lifecycle example_config example_config_ok example_ops example_key example_task)
    as (later & Hlater & _ & _ & _ & _ & _ & _ & Hev).
  - apply example_ops_typed.
  - apply example_collision_free, example_ops_creations.
  - exact example_task_stored.
  - exists later. split; [exact Hlater|]. split; [|apply Hev; vm_compute; reflexivity].
    vm_compute in Hlater. injection Hlater as <-. vm_compute. reflexivity.
Defined.

Lemma a2a_create_idempotent_witness :
  let '(answer, db') := create_task example_config (tables_after example_config example_ops)
                          (example_creation 2000) in
  ∃ task', answer = Ok (TaskExisting task') ∧ record_extends example_task task'
    ∧ get_task db' example_key = Ok task'.
Proof.
  pose proof (a2a_create_idempotent example_config example_config_ok example_ops (example_creation 2000)
    example_task) as Hcreate. cbv zeta in Hcreate.
  destruct (create_task example_config (tables_after example_config example_ops) (example_creation 2000))
    as [answer db'].
  assert (record_identity_digest example_task = creation_identity_digest (example_creation 2000)) as Hd
    by (vm_compute; reflexivity).
  rewrite (bool_decide_eq_true_2 _ Hd) in Hcreate. apply Hcreate.
  - apply Forall_app. split; [apply example_ops_typed|]. constructor; [|constructor].
    by apply example_creation_ok.
  - apply example_collision_free. intros c. rewrite elem_of_app, list_elem_of_singleton.
    intros [Hc|[= ->]]; [by apply example_ops_creations|eauto].
  - intros [Hn|Hn]; [apply Hn|]; clear -Hn; unfold MAX_A2A_TEXT_BYTES, I64_MAX, len in *; simpl in *; lia.
  - exact example_task_stored.
  - intros t Ht. vm_compute in Ht. injection Ht as <-. vm_compute. reflexivity.
Defined.

(** ** Listing *)

Definition example_query : A2ATaskListQuery :=
  mk_A2ATaskListQuery example_agent None example_context 1 None.

Lemma a2a_list_complete_witness :
  list_all 2 (tables_after example_config example_ops) example_query = Ok [example_task]
  ∧ ∃ all : list A2ATaskRecord, ∀ r, r ∈ all ↔ get_task (tables_after example_config example_ops) (record_key r) = Ok r
                          ∧ task_visible example_query r.
Proof.
  split; [vm_compute; reflexivity|].
  destruct (a2a_list_complete example_config example_config_ok example_ops example_query)
    as (all & _ & _ & Hall & _).
  - apply example_ops_typed.
  - apply example_collision_free, example_ops_creations.
  - by split.
  - reflexivity.
  - exists all. exact Hall.
Defined.

(** ** References *)

Lemma artifact_reference_binds_witness :
  ∃ d d', InitialA2AArtifactReferenceDescriptor_new (lit "a") 0 (lit "text/plain") [] 10 = Ok d
    ∧ InitialA2AArtifactReferenceDescriptor_new (lit "a") 1 (lit "text/plain") [] 10 = Ok d'
    ∧ associated_data d ≠ associated_data d'.
Proof.
  do 2 eexists. split; [vm_compute; reflexivity|]. split; [vm_compute; reflexivity|].
  intros E.
  destruct (artifact_reference_binds (lit "a") 0 (lit "text/plain") [] 10
              (mk_ReferenceDescriptor (lit "a") 0 (lit "text/plain") [] 10)
              (lit "a") 1 (lit "text/plain") [] 10
              (mk_ReferenceDescriptor (lit "a") 1 (lit "text/plain") [] 10)) as [_ Hbinds];
    [lia..|vm_compute; reflexivity|vm_compute; reflexivity|].
  destruct (Hbinds E) as (_ & Hi & _). discriminate Hi.
Defined.
