(* ===== verification/AuthorizationExamples.v ===== *)
(** * A store and a daemon that run

    A store with one issuer issues, replays and revokes a grant, and a daemon on it serves and
    retires one; the theorems on the store and on the daemon are applied to these runs.  A
    folded digest stands for SHA-256, and a decoder that reads the first bytes of a document
    for the credential documents of the authenticator. *)

From S2P Require Import Prelude Identifiers LocalGrants AuthorizationStore AuthorizationOps AuthorizationSpec.
From S2P Require Import AuthorizationCodec AuthorizationSteps AuthorizationInvariant AuthorizationProofs.
From S2P Require Import AuthorizationHistory AuthorizationTheorems AuthorizationRuntime AuthorizationRuntimeProofs.
From S2P Require Import AuthorizationDaemon A2AExamples.
Open Scope Z_scope.

Local Instance auth_sha : Sha256 := {| sha256 := fold_digest; sha256_length := fold_digest_length |}.
Local Instance auth_documents : WebAuthnDocuments := {| decode_document d := Some (1, PROVIDER_ID, take 16 d) |}.

(** ** Values *)

Definition auth_fp : bytes := replicate 32 x09.

Lemma auth_fp_ok : fingerprint_ok auth_fp.
Proof. done. Qed.

Definition identifier (b : byte) : checked (array_ok 16) := mk_checked (replicate 16 b) eq_refl.
Definition auth_public_key (b : byte) : Ed25519PublicKey := @from_bytes KEd25519PublicKey (replicate 32 b) eq_refl.
Definition auth_version : IssuerKeyVersion := mk_checked 1 eq_refl.
Definition auth_profile : ServiceProfileId := mk_checked (lit "alice") eq_refl.
Definition trusted : AuthorizationEvidenceSet := mk_checked 1 eq_refl.
Definition auth_policy_version : AuthorizationPolicyVersion := mk_checked 1 eq_refl.
Definition auth_policy : AuthorizationPolicy := mk_checked (mk_PolicyClauses auth_policy_version [trusted]) eq_refl.
Definition auth_issuer : InstalledIssuerRegistration :=
  mk_InstalledIssuerRegistration (identifier x07) auth_version (mk_IssuerRegistration (auth_public_key x08) Copilot AuthAll).

Definition auth_claims (id : byte) (issued : Z) : SessionGrantClaims :=
  mk_SessionGrantClaims (identifier id) (identifier x07) auth_version auth_profile (auth_public_key x0a) Copilot trusted
    auth_policy_version issued 9000 ALL_CAPABILITIES.
Definition auth_grant : SessionGrant := mk_checked (auth_claims x01 1100) eq_refl.
Definition auth_key : GrantIssuanceKey := mk_GrantIssuanceKey (identifier x01) (identifier x01).

(** ** The store *)

Definition state0 : AuthState := bootstrapped auth_policy [auth_issuer] 1000.
Definition store0 : AuthTables := tables_of auth_fp state0.

Lemma store0_bootstrap : bootstrap auth_fp auth_policy [auth_issuer] 1000 = Ok (store0, 1).
Proof. vm_compute. reflexivity. Qed.

Lemma store0_reachable : reachable auth_fp store0.
Proof. apply (reachable_bootstrap _ auth_policy [auth_issuer] 1000 _ 1); [lia|apply store0_bootstrap]. Qed.

(** After the grant is issued. *)
Definition store1 : AuthTables := (run_call auth_fp 1 (CallIssue auth_key auth_grant 1100) store0).2.1.

Lemma store1_reachable : reachable auth_fp store1.
Proof. apply (reachable_call _ store0); [apply store0_reachable|done]. Qed.

(** After it is revoked. *)
Definition store2 : AuthTables := (run_call auth_fp 2 (CallRevoke (identifier x01) 1200) store1).2.1.

Lemma store2_reachable : reachable auth_fp store2.
Proof. apply (reachable_call _ store1); [apply store1_reachable|done]. Qed.

Lemma revoked_once : revoke_grant auth_fp 2 store1 (identifier x01) 1200 = (Ok (mk_AuthorizationMutation 3 Applied), (store2, 3)).
Proof. vm_compute. reflexivity. Qed.

(** ** The theorems on the store *)

Lemma authorization_store_refines_witness :
  ∃ s, store1 = tables_of auth_fp s ∧ state_ok s
       ∧ run_call auth_fp 2 (CallSuspend auth_profile 1200) store1
         = encoded auth_fp (spec_call 2 (CallSuspend auth_profile 1200) s)
       ∧ state_ok (spec_call 2 (CallSuspend auth_profile 1200) s).2.1.
Proof.
  apply (authorization_store_refines auth_fp store1 2 (CallSuspend auth_profile 1200)); [apply auth_fp_ok|apply store1_reachable|cbn; lia].
Defined.

Lemma authorization_tables_well_typed_witness :
  (∀ row, row ∈ t_grants store2 → grant_row_checks row = true ∧ grant_cells_fit row)
  ∧ foreign_key_violation store2 = false.
Proof.
  destruct (authorization_tables_well_typed auth_fp store2 eq_refl store2_reachable) as (_ & _ & H1 & _ & _ & _ & _ & H2 & _).
  by split.
Defined.

Lemma snapshot_authorized_witness :
  match load_snapshot auth_fp 2 store1 1200 None with
  | (Ok snapshot, _) => snapshot_grants snapshot = [auth_grant] ∧ snapshot_backs 1200 snapshot auth_grant
  | (Err _, _) => False
  end.
Proof.
  destruct (load_snapshot auth_fp 2 store1 1200 None) as [[snapshot|e] rest] eqn:E; [|vm_compute in E; discriminate].
  destruct (snapshot_authorized auth_fp store1 2 1200 None snapshot rest) as (Hs & _ & _); [apply auth_fp_ok|apply store1_reachable|lia|exact E|].
  assert (snapshot_grants snapshot = [auth_grant]) as Hg.
  { vm_compute in E. injection E as <- _. vm_compute. reflexivity. }
  split; [done|]. apply Hs. rewrite Hg. left.
Defined.

Lemma generation_counts_changes_witness :
  let '(r, (db', g)) := run_call auth_fp 3 (CallSuspend auth_profile 1300) store2 in
  r = Ok (AnswerMutation (mk_AuthorizationMutation 4 Applied)) ∧ t_generation db' = 4 ∧ last (t_audit db') = Some (4, 5, 1300) ∧ 3 <= g.
Proof.
  destruct (run_call auth_fp 3 (CallSuspend auth_profile 1300) store2) as [r [db' g]] eqn:E.
  destruct (generation_counts_changes auth_fp store2 3 (CallSuspend auth_profile 1300) r db' g) as (H1 & _ & _);
    [apply auth_fp_ok|apply store2_reachable|cbn; lia|exact E|].
  vm_compute in E. injection E as <- <- <-. by split_and!.
Defined.

(** The profile is suspended and resumed before the snapshot. *)
Definition store3 : AuthTables := (run_call auth_fp 3 (CallSuspend auth_profile 1300) store2).2.1.
Definition store4 : AuthTables := (run_call auth_fp 4 (CallResume auth_profile 1400) store3).2.1.

Lemma revocation_is_final_witness :
  match load_snapshot auth_fp 5 store4 1500 None with
  | (Ok snapshot, _) => identifier x01 ∉ grant_id <$> snapshot_grants snapshot
  | (Err _, _) => False
  end.
Proof.
  destruct (load_snapshot auth_fp 5 store4 1500 None) as [[snapshot|e] rest] eqn:E; [|vm_compute in E; discriminate].
  apply (revocation_is_final auth_fp store1 2 (identifier x01) 1200 (mk_AuthorizationMutation 3 Applied) store2 3 store4 5 1500
    None snapshot rest); [apply auth_fp_ok|apply store1_reachable|lia|lia|exact revoked_once| |exact E].
  apply (later_call _ _ store3); [|cbn; lia]. apply (later_call _ _ store2); [|cbn; lia]. apply later_now.
Defined.

(** The retry of the revoked grant is answered with that grant; the recovery read does not
    find it. *)
Lemma ended_grant_replays_witness :
  ∃ db', issue_grant_for_request auth_fp 3 store2 auth_key auth_grant 1500
         = (Ok (mk_GrantIssuanceResult (mk_AuthorizationMutation (t_generation db') Unchanged) auth_grant), (db', t_generation db'))
         ∧ (active_grant_for_request auth_fp 3 store2 (grant_issuer_key_id auth_grant) (grant_issuer_key_version auth_grant)
              auth_key 1500).1 = Ok None.
Proof.
  destruct (load_grant_by_issuance store2 (grant_issuer_key_id auth_grant) (grant_issuer_key_version auth_grant) auth_key)
    as [[stored|]|] eqn:E; [|vm_compute in E; discriminate|vm_compute in E; discriminate].
  assert (stored = mk_StoredGrant auth_grant StateRevoked (Some 3)) as ->.
  { assert (Ok (Some stored) = (Ok (Some (mk_StoredGrant auth_grant StateRevoked (Some 3))) : store_result _)) as Heq
      by (rewrite <- E; vm_compute; reflexivity). by injection Heq. }
  destruct (ended_grant_replays auth_fp store2 3 auth_key auth_grant 1500 (mk_StoredGrant auth_grant StateRevoked (Some 3)))
    as (db' & H1 & H2 & _); [apply auth_fp_ok|apply store2_reachable|unfold I64_MAX; lia| | | |exact E|vm_compute; reflexivity|].
  1-3: vm_compute; intuition discriminate.
  exists db'. split; [exact H1|]. rewrite H2. reflexivity.
Defined.

(** ** The daemon *)

Definition state1 : AuthState := (spec_call 1 (CallIssue auth_key auth_grant 1100) state0).2.1.

(** A daemon started on the store with the grant. *)
Definition world0 : World :=
  mk_World store1 2 (project (spec_snapshot 1150 state1)
    (mk_GrantRegistry (registry_entry <$> s_issuers state1) (live_grants 1150 state1))) [] [] [].

Lemma world0_opened : open_runtime auth_fp store1 1150 = Ok (Ok world0).
Proof. vm_compute. reflexivity. Qed.

Lemma world0_daemon : daemon_world auth_fp world0.
Proof. apply (daemon_open _ store1 1150); [apply store1_reachable|lia|apply world0_opened]. Qed.

(** The revocation by another process reaches the daemon with the next reload. *)
Definition reloaded : World :=
  interfere auth_fp (interfere auth_fp (set_store (store2, w_observed world0) world0) (OtherSnapshot 1250 None)) (OtherPublish 0).

Lemma revoked_grant_not_served_witness :
  grant_interruption (w_runtime world0) auth_grant 1200 = None
  ∧ grant_interruption (w_runtime reloaded) auth_grant 1300 ≠ None.
Proof.
  split; [vm_compute; reflexivity|].
  apply (revoked_grant_not_served auth_fp auth_fp_ok world0 2 (identifier x01) 1200 (mk_AuthorizationMutation 3 Applied) store2 3);
    [apply world0_daemon|lia|exact revoked_once| |vm_compute; discriminate|vm_compute; reflexivity].
  apply (later_others _ _ (interfere auth_fp (set_store (store2, w_observed world0) world0) (OtherSnapshot 1250 None))); [|exact I].
  apply later_others; [apply later_same|cbn; lia].
Defined.

(** A reload reads the store before a retirement and publishes after it. *)
Definition racing : World :=
  with_turns [] [mk_Turn [OtherSnapshot 1160 None] InTime; mk_Turn [OtherPublish 0] InTime; mk_Turn [OtherPublish 0] InTime] world0.

Lemma racing_daemon : daemon_world auth_fp racing.
Proof.
  apply daemon_turns; [apply world0_daemon|]. intros t Ht i Hi. repeat (apply elem_of_cons in Ht as [->|Ht];
    [repeat (apply elem_of_cons in Hi as [->|Hi]; [cbn; lia || exact I|]); by apply not_elem_of_nil in Hi|]).
  by apply not_elem_of_nil in Ht.
Qed.

Definition raced : World := interfere auth_fp (retire_session_grant auth_fp (identifier x01) 1200 racing).2 (OtherPublish 0).

Lemma retired_grant_not_served_witness :
  (retire_session_grant auth_fp (identifier x01) 1200 racing).1 = Ok true
  ∧ grant_interruption (w_runtime raced) auth_grant 1300 ≠ None.
Proof.
  assert ((retire_session_grant auth_fp (identifier x01) 1200 racing).1 = Ok true) as E by (vm_compute; reflexivity).
  split; [exact E|].
  apply (retired_grant_not_served auth_fp auth_fp_ok racing (identifier x01) 1200
    (retire_session_grant auth_fp (identifier x01) 1200 racing).2); [apply racing_daemon|lia| | |vm_compute; reflexivity].
  - rewrite (surjective_pairing (retire_session_grant auth_fp (identifier x01) 1200 racing)) at 1. by rewrite E.
  - apply later_others; [apply later_same|exact I].
Defined.

(** A daemon whose storage failed. *)
Definition failed : World := interfere auth_fp world0 (OtherFailure (RuntimeStore AuthStorageUnavailable)).

Lemma reload_recovers_witness :
  grant_interruption (w_runtime failed) auth_grant 1200 = Some AuthorizationUnavailable
  ∧ ∃ w' grants, reload_pass auth_fp 1200 failed = (None, w') ∧ load_active_grants (w_store w') 1200 = Ok grants
      ∧ (∀ grant, grant_interruption (w_runtime w') grant 1200 = None ↔ grant ∈ grants).
Proof.
  split; [vm_compute; reflexivity|].
  destruct (reload_recovers auth_fp auth_fp_ok failed 1200) as (w' & grants & H1 & _ & _ & H2 & H3);
    [apply daemon_others; [apply world0_daemon|exact I]|vm_compute; reflexivity|unfold I64_MAX; lia|vm_compute; reflexivity|
     vm_compute; reflexivity|]. exists w', grants. exact (conj H1 (conj H2 H3)).
Defined.

(** A second grant. *)
Definition second_grant : SessionGrant := mk_checked (auth_claims x02 1200) eq_refl.

Lemma context_agrees_with_store_witness :
  match load_snapshot auth_fp 2 store1 1200 None with
  | (Ok snapshot, _) =>
      issuance_context (project snapshot empty_registry) (identifier x07) auth_version auth_profile Copilot trusted
      = Ok (mk_GrantIssuanceContext 2 auth_policy_version)
  | (Err _, _) => False
  end.
Proof.
  destruct (load_snapshot auth_fp 2 store1 1200 None) as [[snapshot|e] [db' g]] eqn:E; [|vm_compute in E; discriminate].
  change (issuance_context (project snapshot empty_registry) (grant_issuer_key_id second_grant)
    (grant_issuer_key_version second_grant) (grant_profile second_grant) (grant_harness second_grant) (grant_evidence second_grant)
    = Ok (mk_GrantIssuanceContext 2 auth_policy_version)).
  pose proof (context_agrees_with_store auth_fp auth_fp_ok store1 2 1200 None snapshot db' g empty_registry second_grant world0) as H.
  destruct (validate_grant_authority db' second_grant) as [?|e] eqn:Ev;
    [|vm_compute in E; injection E as <- <- <-; vm_compute in Ev; discriminate].
  rewrite H; [|apply store1_reachable|lia|exact E|]; vm_compute in E; injection E as <- <- <-; vm_compute; reflexivity.
Defined.

Definition second_request : GrantRequest :=
  mk_GrantRequest (identifier x07) auth_version (mk_GrantIssuanceKey (identifier x03) (identifier x04)) None auth_profile
    (auth_public_key x0a) Copilot trusted None ALL_CAPABILITIES 1200 9000.

(** The first identifier drawn is taken. *)
Definition drawing : World := with_turns [Some (identifier x01); Some (identifier x02)] [] world0.

Lemma drawing_daemon : daemon_world auth_fp drawing.
Proof.
  apply (daemon_turns auth_fp world0 _ [] world0_daemon). intros t Ht. destruct (not_elem_of_nil t Ht).
Qed.

Lemma issued_grant_served_witness :
  (issue_grant_locked auth_fp second_request drawing).1 = Ok second_grant
  ∧ served second_request second_grant (issue_grant_locked auth_fp second_request drawing).2.
Proof.
  assert ((issue_grant_locked auth_fp second_request drawing).1 = Ok second_grant) as E by (vm_compute; reflexivity).
  split; [exact E|].
  apply (issued_grant_served auth_fp auth_fp_ok drawing second_request second_grant
    (issue_grant_locked auth_fp second_request drawing).2).
  - apply drawing_daemon.
  - reflexivity.
  - cbn; lia.
  - vm_compute; reflexivity.
  - rewrite <- E. apply surjective_pairing.
Defined.

Lemma projection_never_invalid_witness :
  (∃ started, Ok (E := AuthorizationRuntimeError) world0 = Ok started)
  ∧ (refresh_locked auth_fp 1200 2 world0).1 ≠ Err InvalidProjection.
Proof.
  apply (projection_never_invalid auth_fp auth_fp_ok store1 1150 (Ok world0) world0 1200 2);
    [apply store1_reachable|lia|apply world0_opened|apply world0_daemon|lia].
Defined.
