(* ===== verification/HandshakeExamples.v ===== *)
(** * A handshake that runs

    A session client and a service exchange their four messages in a network, once with the
    authorizer for the grant and once, after the daemon has retired it, against it; the
    theorems on handshakes are applied to these runs.  A signature is the key followed by a
    folded digest of the message. *)

From S2P Require Import Prelude Identifiers LocalFraming LocalGrants AuthorizationStore AuthorizationSpec AuthorizationRuntime.
From S2P Require Import AuthorizationDaemon AuthorizationMessages AuthorizationHandshake AuthorizationAgreement AuthorizationExchange.
From S2P Require Import A2AExamples AuthorizationExamples.
Open Scope Z_scope.

Local Existing Instance auth_sha.
Local Existing Instance auth_documents.

Lemma toy_signature_length (key : Ed25519PublicKey) (m : bytes) :
  (length (as_bytes key ++ fold_digest m) =? 64)%nat = true.
Proof. rewrite length_app, fold_digest_length, (proj1 (Nat.eqb_eq _ _) (bytes_length key)). reflexivity. Qed.

Definition toy_signature (key : Ed25519PublicKey) (m : bytes) : Ed25519Signature :=
  @from_bytes KEd25519Signature (as_bytes key ++ fold_digest m) (toy_signature_length key m).

Local Instance toy_signatures : LocalServiceSignatures :=
  {| identity_sign key m := Some (toy_signature key m);
     verify_local_service_signature key m s := bool_decide (as_bytes s = as_bytes key ++ fold_digest m) |}.

Lemma toy_works : provider_works.
Proof. intros key m. exists (toy_signature key m). split; [reflexivity|]. by apply bool_decide_eq_true. Qed.

(** ** Messages *)

Definition random_bytes (b : byte) : LocalServiceChallenge := mk_checked (replicate 32 b) eq_refl.
Definition service_key : Ed25519PublicKey := auth_public_key x0b.
Definition session_key : Ed25519PublicKey := auth_public_key x0a.
Definition session_binding : AuthorizationBinding := BindingSession auth_grant (identifier x05).

Lemma session_fits : binding_fits session_binding.
Proof. split; vm_compute; discriminate. Qed.

(** ** Two parties *)

Definition session_party : Party := mk_Party session_key 4 (Some (random_bytes x01)) (fun _ => Ok false).
Definition service_party (decision : result LocalServiceTransportError bool) : Party :=
  mk_Party service_key 9 (Some (random_bytes x02)) (fun _ => decision).

Lemma session_ready : party_ready session_party.
Proof. split; [split; vm_compute; congruence|discriminate]. Qed.

Lemma service_ready decision : party_ready (service_party decision).
Proof. split; [split; vm_compute; congruence|discriminate]. Qed.

Lemma exchange_delivers_witness :
  exchange id session_party (service_party (Ok true)) session_binding service_key
  = (Return (Ok session_binding), Return (Ok session_binding)).
Proof.
  exact (exchange_delivers session_party (service_party (Ok true)) session_binding toy_works session_ready
           (service_ready (Ok true)) session_fits eq_refl).
Defined.

Lemma rejection_read_as_acceptance_witness :
  exchange accept_instead session_party (service_party (Ok false)) session_binding service_key
  = (Return (Ok session_binding), Return (Err UnauthenticClient)).
Proof.
  exact (rejection_read_as_acceptance session_party (service_party (Ok false)) session_binding toy_works session_ready
           (service_ready (Ok false)) session_fits eq_refl eq_refl).
Defined.

(** ** A network *)

(** The valid signatures of a run were made in it. *)
Definition presents_forgery (net : Network) (action : Action) : bool :=
  match action with
  | AuthorizationHandshake.Turn i Computed =>
      match net_connections net !! i with
      | Some c =>
          match conn_program c with
          | Verify key m s _ => verify_local_service_signature key m s && negb (bool_decide ((key, m) ∈ net_signed net))
          | _ => false
          end
      | None => false
      end
  | _ => false
  end.

Fixpoint run_actions (net : Network) (actions : list Action) : option Network :=
  match actions with
  | [] => Some net
  | action :: actions => if presents_forgery net action then None else run_actions (act net action) actions
  end.

Lemma run_actions_network honest net actions net' :
  network_run honest net → Forall action_ok actions → run_actions net actions = Some net' → network_run honest net'.
Proof.
  intros Hn Ha. revert net Hn. induction Ha as [|action actions Ho _ IH]; intros net Hn Hr; [by injection Hr as <-|].
  cbn [run_actions] in Hr. destruct (presents_forgery net action) eqn:Ef; [done|]. apply (IH (act net action)); [|done].
  apply network_act; [done|done|]. intros (i & c & key & m & s & k & -> & Hc & Hp & Hv & _ & Hno). cbn [presents_forgery] in Ef.
  rewrite Hc, Hp, Hv, bool_decide_eq_false_2 in Ef by done. done.
Qed.

Definition client_nonce : LocalServiceChallenge := default (random_bytes x00)
  (match (next_challenge 0 (Some (random_bytes x01))).1 with Ok c => Some c | Err _ => None end).
Definition service_nonce : LocalServiceChallenge := default (random_bytes x00)
  (match (next_challenge 0 (Some (random_bytes x02))).1 with Ok c => Some c | Err _ => None end).
Definition session_transcript : AuthorizationTranscript :=
  mk_AuthorizationTranscript session_binding client_nonce service_nonce service_key.

(** Connection 0 is the service and connection 1 the client, each in a process of its own. *)
Definition relayed_actions (authorized : bool) : list Action :=
  [ Open 0 (ServiceEnd service_key);
    Open 1 (SessionClient auth_grant (identifier x05) session_key service_key);
    AuthorizationHandshake.Turn 1 (Randomness (Some (random_bytes x01)));
    AuthorizationHandshake.Turn 1 (StreamTakes true);
    AuthorizationHandshake.Turn 0 (StreamHolds (frame_of (hello_of session_binding client_nonce)));
    AuthorizationHandshake.Turn 0 (Randomness (Some (random_bytes x02)));
    AuthorizationHandshake.Turn 0 (StreamTakes true);
    AuthorizationHandshake.Turn 1 (StreamHolds (frame_of (ServiceChallenge service_key service_nonce)));
    AuthorizationHandshake.Turn 1 Computed;
    AuthorizationHandshake.Turn 1 (StreamTakes true);
    AuthorizationHandshake.Turn 0
      (StreamHolds (frame_of (ClientAuth (toy_signature session_key (client_signing_message session_transcript)))));
    AuthorizationHandshake.Turn 0 Computed;
    AuthorizationHandshake.Turn 0 (AuthorizerSays (Ok authorized));
    AuthorizationHandshake.Turn 0 Computed;
    AuthorizationHandshake.Turn 0 (StreamTakes true);
    AuthorizationHandshake.Turn 1
      (StreamHolds (frame_of (decision_message authorized (toy_signature service_key (service_signing_message session_transcript)))));
    AuthorizationHandshake.Turn 1 Computed ].

Definition relayed (authorized : bool) : Network :=
  default empty_network (run_actions empty_network (relayed_actions authorized)).

Lemma relayed_run authorized honest : network_run honest (relayed authorized).
Proof.
  apply (run_actions_network honest empty_network (relayed_actions authorized)); [constructor| |].
  - unfold relayed_actions. repeat (apply Forall_cons; split; [solve [exact I|exact session_fits]|]). by apply Forall_nil.
  - destruct authorized; vm_compute; reflexivity.
Qed.

Definition connection (net : Network) (i : nat) : Connection :=
  default (mk_Connection 0 (ServiceEnd service_key) (Return (Err HandshakeTimeout)) []) (net_connections net !! i).

Lemma service_agrees_with_client_witness :
  conn_program (connection (relayed true) 0) = Return (Ok session_binding)
  ∧ ∃ j d, net_connections (relayed true) !! j = Some d
      ∧ endpoint_asks (conn_endpoint d) = Some (session_binding, service_key).
Proof.
  assert (conn_program (connection (relayed true) 0) = Return (Ok session_binding)) as E by (vm_compute; reflexivity).
  split; [exact E|].
  destruct (service_agrees_with_client (fun _ => True) (relayed true) 0 (connection (relayed true) 0) session_binding)
    as (_ & j & d & cc & sc & Hd & Ha & _); [apply relayed_run|vm_compute; reflexivity|vm_compute; reflexivity|exact E|exact I|].
  exists j, d. split; [exact Hd|exact Ha].
Defined.

Lemma client_agrees_with_service_witness :
  conn_program (connection (relayed true) 1) = Return (Ok session_binding)
  ∧ ∃ i c, net_connections (relayed true) !! i = Some c ∧ endpoint_identity (conn_endpoint c) = service_key.
Proof.
  assert (conn_program (connection (relayed true) 1) = Return (Ok session_binding)) as E by (vm_compute; reflexivity).
  split; [exact E|].
  destruct (client_agrees_with_service (fun _ => True) (relayed true) 1 (connection (relayed true) 1) session_binding service_key
    session_binding) as (_ & i & c & cc & sc & a & Hc & _ & Hid & _);
    [apply relayed_run|vm_compute; reflexivity|vm_compute; reflexivity|exact E|exact I|]. exists i, c. split; [exact Hc|exact Hid].
Defined.

(** ** A retired grant *)

Definition retired_world : World := (retire_session_grant auth_fp (identifier x01) 1200 racing).2.

Lemma service_full_decided identity binding cc sc decision b d :
  Decided b d ∈ service_full identity binding cc sc decision → b = binding ∧ d = decision.
Proof.
  unfold service_full. rewrite !elem_of_cons. intros [E|[[= -> ->]|[E|[E|E%not_elem_of_nil]]]]; by try discriminate E.
Qed.

Lemma refused_by_daemon : decided_by_daemon auth_fp retired_world (connection (relayed false) 0).
Proof.
  intros binding decision Hin. exists retired_world, [1300], false.
  assert (binding = session_binding ∧ decision = Ok false) as [-> ->].
  { assert (conn_history (connection (relayed false) 0)
      = service_full service_key session_binding client_nonce service_nonce (Ok false)) as Eh by (vm_compute; reflexivity).
    rewrite Eh in Hin. exact (service_full_decided _ _ _ _ _ _ _ Hin). }
  split; [apply later_same|]. split; [vm_compute; reflexivity|reflexivity].
Qed.

Lemma retired_grant_gets_no_channel_witness :
  (retire_session_grant auth_fp (identifier x01) 1200 racing).1 = Ok true
  ∧ conn_program (connection (relayed false) 0) ≠ Return (Ok session_binding).
Proof.
  assert ((retire_session_grant auth_fp (identifier x01) 1200 racing).1 = Ok true) as E by (vm_compute; reflexivity).
  split; [exact E|].
  apply (retired_grant_gets_no_channel auth_fp (fun _ => True) auth_fp_ok racing (identifier x01) 1200 retired_world (relayed false) 0);
    [apply racing_daemon|lia| |apply relayed_run|vm_compute; reflexivity|vm_compute; reflexivity|apply refused_by_daemon|vm_compute; reflexivity].
  rewrite (surjective_pairing (retire_session_grant auth_fp (identifier x01) 1200 racing)) at 1. by rewrite E.
Defined.
