(* ===== verification/AddressBookExamples.v ===== *)
(** * An address book that is filled and raced

    A cipher that appends a folded digest of the nonce, the associated data and the plaintext
    stands for AES-256-GCM; the theorems on the address book and on the alias operations are
    applied to runs of the executable model. *)

From S2P Require Import Prelude Identifiers SecretStorage TrustedDevices AddressBook AddressBookProofs TrustedAliases A2AExamples.
Open Scope Z_scope.

Local Instance book_sha : Sha256 := {| sha256 := fold_digest; sha256_length := fold_digest_length |}.

Definition example_tag (nonce aad plaintext : bytes) : bytes := take 16 (fold_digest (nonce ++ aad ++ plaintext)).

Local Instance example_aead : Aead := {|
  aead_seal nonce aad plaintext := Some (plaintext ++ example_tag nonce aad plaintext);
  aead_open nonce aad ciphertext :=
    let plaintext := take (length ciphertext - 16) ciphertext in
    if bool_decide (drop (length ciphertext - 16) ciphertext = example_tag nonce aad plaintext)
    then Some plaintext else None |}.

Lemma example_tag_length nonce aad plaintext : length (example_tag nonce aad plaintext) = 16%nat.
Proof. unfold example_tag. rewrite length_take, fold_digest_length. done. Qed.

Lemma example_aead_laws : aead_laws.
Proof.
  split.
  - intros nonce aad plaintext _ _. by eexists.
  - intros nonce aad plaintext ciphertext [= <-]. unfold len, TAG_BYTES. rewrite length_app, example_tag_length. lia.
  - intros nonce aad plaintext ciphertext [= <-]. cbn [aead_open example_aead].
    rewrite length_app, example_tag_length. replace (length plaintext + 16 - 16)%nat with (length plaintext) by lia.
    rewrite drop_app_length, take_app_length. by rewrite bool_decide_eq_true_2.
Qed.

Definition example_nonce : bytes := replicate 12 x05.

(** ** Numbered devices *)

Definition example_profile : bytes := lit "profile".

Lemma example_profile_short : 0 < len example_profile <= 1024.
Proof. done. Qed.

Lemma numbered_length n : (length (be_bytes 32 n) =? 32)%nat = true.
Proof. by rewrite be_bytes_length. Qed.

Definition numbered_device (n : Z) : DeviceId := @from_bytes KDeviceId (be_bytes 32 n) (numbered_length n).
Definition numbered_root (n : Z) : Ed25519PublicKey := @from_bytes KEd25519PublicKey (be_bytes 32 n) (numbered_length n).

Definition numbered_alias (n : Z) : TrustedDeviceAlias :=
  match TrustedDeviceAlias_parse [u8 (97 + n / 16); u8 (97 + n mod 16)] with
  | Ok alias => alias
  | Err _ => @mk_TrustedDeviceAlias (lit "x") eq_refl
  end.

Definition numbered_binding (n : Z) : TrustedDeviceBinding :=
  mk_TrustedDeviceBinding (numbered_alias n) (numbered_device n) (numbered_root n).

Definition numbered_evidence (n : Z) : list TrustedDeviceEvidence :=
  [mk_TrustedDeviceEvidence example_conversation (numbered_device n) (numbered_root n) true].

Lemma numbered_resolves n :
  resolve_trusted_device (numbered_binding n) (numbered_evidence n)
  = Ok (mk_TrustedDeviceResolution (numbered_device n) (numbered_root n) example_conversation).
Proof.
  unfold resolve_trusted_device, trusted_device_binding_status, numbered_evidence. cbn [foldl].
  unfold see. cbn. rewrite bool_decide_eq_false_2 by auto. rewrite !bool_decide_eq_true_2 by done. done.
Qed.

Lemma numbered_device_inj i j : 0 <= i < 300 → 0 <= j < 300 → numbered_device i = numbered_device j → i = j.
Proof.
  intros Hi Hj E%(f_equal as_bytes). assert (300 < 256 ^ Z.of_nat 32) by done.
  apply (be_bytes_inj 32); [lia|lia|exact E].
Qed.

Definition numbered_aliases : list text := (fun n => alias_str (numbered_alias (Z.of_nat n))) <$> seq 0 257.

Lemma numbered_aliases_distinct : NoDup numbered_aliases.
Proof. apply all_unique_spec. vm_compute. reflexivity. Qed.

Lemma numbered_alias_inj i j :
  0 <= i <= 256 → 0 <= j <= 256 → alias_str (numbered_alias i) = alias_str (numbered_alias j) → i = j.
Proof.
  intros Hi Hj E. pose proof numbered_aliases_distinct as H.
  assert (∀ k, 0 <= k <= 256 → numbered_aliases !! Z.to_nat k = Some (alias_str (numbered_alias k))) as Hk.
  { intros k Hk. unfold numbered_aliases. rewrite list_lookup_fmap, lookup_seq_lt by lia. cbn [fmap option_fmap option_map].
    by rewrite Nat.add_0_l, Z2Nat.id by lia. }
  pose proof (Hk i Hi) as Hi'. rewrite E in Hi'. pose proof (NoDup_lookup _ _ _ _ H Hi' (Hk j Hj)). lia.
Qed.

Lemma numbered_new n (book : list TrustedDeviceBinding) :
  0 <= n <= 256 → (∀ b, b ∈ book → ∃ i, 0 <= i < n ∧ b = numbered_binding i) →
  ∀ b, b ∈ book → binding_alias b ≠ numbered_alias n ∧ binding_device_id b ≠ numbered_device n.
Proof.
  intros Hn Hbook b Hb. destruct (Hbook b Hb) as (i & Hi & ->). split; intros E.
  - assert (i = n) by (apply numbered_alias_inj; [lia..|]; exact (f_equal alias_str E)). lia.
  - assert (i = n) by (apply numbered_device_inj; [lia..|exact E]). lia.
Qed.

(** Storing the numbered bindings one after the other fills the book. *)
Lemma numbered_step db book n :
  0 <= n < 256 → tables_reachable example_profile db → represents example_profile db book → len book = n →
  (∀ b, b ∈ book → ∃ i, 0 <= i < n ∧ b = numbered_binding i) →
  ∃ db' book', tables_reachable example_profile db' ∧ represents example_profile db' book' ∧ len book' = n + 1
    ∧ ∀ b, b ∈ book' → ∃ i, 0 <= i < n + 1 ∧ b = numbered_binding i.
Proof.
  intros Hn Hreach Hrep Hlen Hbook. pose proof (numbered_new n book ltac:(lia) Hbook) as Hnew.
  assert (0 < len example_profile <= 1024) as Hp by done. assert (len example_nonce = NONCE_BYTES) as Hnonce by done.
  pose proof (store_refines example_aead_laws example_profile Hp db book (numbered_binding n) (numbered_evidence n)
                _ _ Hrep Hnonce Hnonce) as Hs.
  destruct (store_trusted_device_binding _ _ _ _ _ _) as [answer db'] eqn:E. destruct Hs as (book' & Hs & Hrep').
  exists db', book'.
  assert (len (rebound (numbered_binding n) book) = n + 1) as Hlen'.
  { unfold len. rewrite (Permutation_length (rebound_perm _ _)), filter_all; [unfold len in Hlen; simpl; lia|].
    intros b Hb. destruct (Hnew b Hb). unfold replaced, by_alias, by_device. by rewrite !bool_decide_eq_false_2. }
  split; [by eapply (tables_stored _ db); [exact Hreach| | |exact E]; intros ? [= <-]|]. split; [done|].
  pose proof (numbered_resolves n) as Hr.
  inversion Hs as [e Hr'|? _ Hin|? b _ Hb _ Ea _|? _ _ Hroom|? _ _ Hfull]; subst.
  - congruence.
  - by destruct (Hnew _ Hin).
  - by destruct (Hnew b Hb).
  - split; [done|]. intros b [->|(Hb & _)]%rebound_elem; [exists (len book); split; [lia|done]|].
    destruct (Hbook b Hb) as (i & ? & ->). exists i. split; [lia|done].
  - unfold MAX_TRUSTED_DEVICE_BINDINGS in Hfull. lia.
Qed.

Lemma numbered_books (n : nat) :
  (n <= 256)%nat →
  ∃ db book, tables_reachable example_profile db ∧ represents example_profile db book ∧ len book = Z.of_nat n
    ∧ ∀ b, b ∈ book → ∃ i, 0 <= i < Z.of_nat n ∧ b = numbered_binding i.
Proof.
  induction n as [|n IH]; intros Hn.
  - destruct (initialize_trusted_device_schema example_profile (Some example_nonce)) as [db|] eqn:E;
      [|vm_compute in E; discriminate].
    exists db, []. split; [by eapply tables_initialized; [|exact E]; intros ? [= <-]|].
    split; [by apply (initialize_represents _ example_nonce)|]. split; [done|]. intros b Hb. by apply elem_of_nil in Hb.
  - destruct IH as (db & book & Hreach & Hrep & Hlen & Hbook); [lia|].
    destruct (numbered_step db book (Z.of_nat n) ltac:(lia) Hreach Hrep Hlen Hbook) as (db' & book' & ? & ? & ? & Hb).
    exists db', book'. replace (Z.of_nat (S n)) with (Z.of_nat n + 1) by lia. done.
Qed.

Lemma full_book_reports_corruption_witness :
  ∃ db, tables_reachable example_profile db
    ∧ store_trusted_device_binding example_profile db (numbered_binding 256) (numbered_evidence 256)
        (Some example_nonce) (Some example_nonce) = (Err ProfileCorruptData, db).
Proof.
  destruct (numbered_books 256) as (db & book & Hreach & Hrep & Hlen & Hbook); [lia|]. exists db. split; [exact Hreach|].
  apply (full_book_reports_corruption example_aead_laws example_profile example_profile_short db book _ _
           (mk_TrustedDeviceResolution (numbered_device 256) (numbered_root 256) example_conversation));
    [exact Hreach|exact (load_represented example_aead_laws example_profile db book Hrep)|exact Hlen
    |apply numbered_resolves|apply (numbered_new 256); [lia|exact Hbook]|reflexivity|reflexivity].
Defined.

(** ** Two devices that want the same alias *)

Definition example_member (n : Z) : MemberBinding := mk_MemberBinding (numbered_device n) (numbered_root n) true.

(** This device is number 0; the conversation also has the devices 1 and 2. *)
Definition example_conversations : list (ConversationId * LocalConversation) :=
  [(example_conversation,
    mk_LocalConversation [numbered_device 0; numbered_device 1; numbered_device 2]
      [example_member 0; example_member 1; example_member 2])].

Lemma example_conversations_sorted : StronglySorted (key_lt fst id_compare) example_conversations.
Proof. repeat constructor. Qed.

Definition empty_tables : AddressTables :=
  default (mk_AddressTables [] None)
    (match initialize_trusted_device_schema example_profile (Some example_nonce) with Ok db => Some db | Err _ => None end).

Lemma empty_tables_reachable : tables_reachable example_profile empty_tables.
Proof.
  eapply (tables_initialized _ (Some example_nonce)); [by intros ? [= <-]|]. vm_compute. reflexivity.
Qed.

Definition example_set (db : AddressTables) (n : Z) : result CoordinatorError TrustedDeviceAliasDecision * AddressTables :=
  set_trusted_device_alias example_conversations (numbered_device 0) example_profile db (numbered_device n)
    (numbered_alias 7) (Some example_nonce) (Some example_nonce).

Definition first_tables : AddressTables := (example_set empty_tables 1).2.

Definition example_prepared (db : AddressTables) (n : Z) : TrustedDeviceBinding * list TrustedDeviceEvidence :=
  match prepare_trusted_device_alias example_conversations (numbered_device 0) example_profile db
          (numbered_device n) (numbered_alias 7) with
  | Ok prepared => prepared
  | Err _ => (numbered_binding 0, [])
  end.

Definition example_commit (db : AddressTables) (prepared : TrustedDeviceBinding * list TrustedDeviceEvidence) :=
  commit_trusted_device_alias example_profile db prepared (Some example_nonce) (Some example_nonce).

Lemma address_book_refines_witness :
  ∃ book answer db' book',
    store_trusted_device_binding example_profile empty_tables (numbered_binding 1) (numbered_evidence 1)
      (Some example_nonce) (Some example_nonce) = (answer, db')
    ∧ book_step (numbered_evidence 1) (numbered_binding 1) book answer book'
    ∧ load_trusted_device_bindings_from example_profile db' = Ok book'.
Proof.
  destruct (address_book_refines example_aead_laws example_profile example_profile_short empty_tables (numbered_binding 1)
              (numbered_evidence 1) example_nonce example_nonce empty_tables_reachable eq_refl eq_refl)
    as (book & answer & db' & book' & _ & _ & E & Hs & Hl & _).
  exists book, answer, db', book'. exact (conj E (conj Hs Hl)).
Defined.

Lemma set_alias_outcome_witness :
  ∃ root, attested_root example_conversations (numbered_device 0) (numbered_device 1) root
    ∧ trusted_device_binding example_profile first_tables (numbered_alias 7)
      = Ok (mk_TrustedDeviceBinding (numbered_alias 7) (numbered_device 1) root).
Proof.
  assert (example_set empty_tables 1 = (Ok AliasInsert, first_tables)) as E by (vm_compute; reflexivity).
  unfold example_set in E.
  pose proof (set_alias_outcome example_conversations (numbered_device 0) example_conversations_sorted
              example_aead_laws example_profile example_profile_short empty_tables (numbered_device 1) (numbered_alias 7)
              example_nonce example_nonce AliasInsert first_tables empty_tables_reachable) as H.
  specialize (H eq_refl eq_refl).
  specialize (H E).
  destruct H as (root & Ha & Hb & _).
  exists root. exact (conj Ha Hb).
Defined.

Lemma resolve_alias_outcome_witness :
  ∃ b r, trusted_device_binding example_profile first_tables (numbered_alias 7) = Ok b
    ∧ resolve_trusted_device_alias example_conversations (numbered_device 0) example_profile first_tables
        (numbered_alias 7) = Ok r
    ∧ verify_repeat_pairing_peer example_conversations (numbered_device 0) (resolution_bootstrap r)
        (resolution_device_id r) (resolution_root r) = Ok ().
Proof.
  destruct (trusted_device_binding example_profile first_tables (numbered_alias 7)) as [b|] eqn:Hb;
    [|vm_compute in Hb; discriminate].
  destruct (trusted_device_evidence example_conversations (numbered_device 0) {[binding_device_id b]})
    as [evidence|] eqn:He; [|vm_compute in Hb; injection Hb as <-; vm_compute in He; discriminate].
  destruct (resolve_trusted_device_alias example_conversations (numbered_device 0) example_profile first_tables
              (numbered_alias 7)) as [r|] eqn:Hr; [|vm_compute in Hr; discriminate].
  exists b, r. split; [reflexivity|]. split; [reflexivity|].
  apply (resolve_alias_outcome example_conversations (numbered_device 0) example_conversations_sorted
           example_profile first_tables (numbered_alias 7) b evidence r Hb He). exact Hr.
Defined.

Lemma alias_race_witness :
  ∃ db2, example_commit first_tables (example_prepared empty_tables 2) = (Ok AliasRebindStale, db2)
    ∧ example_commit first_tables (example_prepared first_tables 2)
      = (Err (CoordinatorProfile ProfileTrustedDeviceAliasConflict), first_tables).
Proof.
  assert (example_set empty_tables 1 = (Ok AliasInsert, first_tables)) as Hset by (vm_compute; reflexivity).
  assert (prepare_trusted_device_alias example_conversations (numbered_device 0) example_profile empty_tables
            (numbered_device 2) (numbered_alias 7) = Ok (example_prepared empty_tables 2)) as Hp
    by (vm_compute; reflexivity).
  assert (prepare_trusted_device_alias example_conversations (numbered_device 0) example_profile first_tables
            (numbered_device 2) (numbered_alias 7) = Ok (example_prepared first_tables 2)) as Hf
    by (vm_compute; reflexivity).
  assert (example_commit empty_tables (example_prepared empty_tables 2)
          = (Ok AliasInsert, (example_commit empty_tables (example_prepared empty_tables 2)).2)) as Hc
    by (vm_compute; reflexivity).
  unfold example_set in Hset. unfold example_commit in *.
  assert (numbered_device 1 ≠ numbered_device 2) as Hne by (intros E%numbered_device_inj; lia).
  destruct (alias_race example_conversations (numbered_device 0) example_conversations_sorted example_aead_laws
              example_profile example_profile_short empty_tables (numbered_device 1) (numbered_device 2) (numbered_alias 7)
              example_nonce example_nonce _ _ _ first_tables empty_tables_reachable Hne eq_refl eq_refl Hp Hc Hset Hf)
    as (_ & Hlate & db2 & Hearly & _).
  exists db2. exact (conj Hearly Hlate).
Defined.
