(* ===== verification/A2ASources.v ===== *)
(** * Where the contents of the task store come from

    Every task, status, message and artifact of the store was written by one of the calls
    of its history ([sourced]).  The second half gives the answers of the compound reads
    that the gateway makes, in terms of the abstract state. *)

From S2P Require Import Prelude Identifiers A2AContracts A2ATaskModel A2AStore A2AStoreSpec A2AStoreProofs A2AStoreOps A2AStoreRun A2ALifecycle.
Open Scope Z_scope.

Section sources.
Context `{Sha256} (config : A2ASqliteTaskStoreConfig) (Hcfg : store_config_ok config).

Definition creation_message (c : A2ATaskCreation) : A2ATaskMessage :=
  mk_A2ATaskMessage (creation_key c) (creation_source_message_id c) User (creation_request_text c)
    (creation_created_at c).

Definition status_from (v : TaskView) (t : A2ATaskTransition) (status : StoredA2ATaskStatus) : Prop :=
  transition_key t = view_key v ∧ status_state status = transition_state t
  ∧ status_terminal_reason status = transition_terminal_reason t
  ∧ status_occurred_at status = transition_occurred_at t.

Definition artifact_call (ops : list task_op) (a : A2ATaskArtifact) : Prop :=
  (∃ now, OpArtifact a now ∈ ops) ∨ ∃ now maximum, OpWorkingArtifact a now maximum ∈ ops.

Record view_from (ops : list task_op) (c : A2ATaskCreation) (v : TaskView) : Prop := {
  from_created : OpCreate c ∈ ops;
  from_identity : identity_of v = identity_of (new_view c);
  from_messages : ∀ content, view_content v = Some content →
    ∃ rest, content_messages content = creation_message c :: rest
      ∧ ∀ m, m ∈ rest → ∃ now, OpMessage m now ∈ ops;
  from_artifacts : ∀ a, a ∈ view_artifacts v → artifact_call ops a;
  from_statuses : ∀ status, status ∈ view_later v → ∃ t, OpTransition t ∈ ops ∧ status_from v t status }.

Definition sourced (ops : list task_op) (s : task_views) : Prop :=
  ∀ pk v, s !! pk = Some v → ∃ c, view_from ops c v.

Lemma view_from_new ops c : OpCreate c ∈ ops → view_from ops c (new_view c).
Proof.
  intros Hc. split; [done..| | |].
  - intros content [= <-]. exists []. split; [done|]. intros m Hm. by apply elem_of_nil in Hm.
  - intros a Ha. by apply elem_of_nil in Ha.
  - intros t Ht. by apply elem_of_nil in Ht.
Qed.

Lemma view_from_prune ops c v : view_from ops c v → view_from ops c (prune_content v).
Proof.
  intros [Hc Hi Hm Ha Hs]. split; [done..|intros a Hin; by apply elem_of_nil in Hin|done].
Qed.

Lemma view_from_message ops c v m now :
  view_from ops c v → OpMessage m now ∈ ops → view_from ops c (add_message v m).
Proof.
  intros [Hc Hi Hm Ha Hs] Hop. split; [done..| | |done].
  - intros content (c0 & Hc0 & ->)%fmap_Some. destruct (Hm c0 Hc0) as (rest & E & Hrest).
    exists (rest ++ [m]). simpl. split; [by rewrite E|].
    intros m' [Hm'|Hm'%list_elem_of_singleton]%elem_of_app; [auto|]. subst m'. eauto.
  - intros a Hin. apply Ha. unfold view_artifacts, add_message in Hin |- *. simpl in Hin.
    destruct (view_content v); exact Hin.
Qed.

Lemma view_from_artifact ops c v a :
  view_from ops c v → artifact_call ops a → view_from ops c (add_artifact v a).
Proof.
  intros [Hc Hi Hm Ha Hs] Hop. split; [done..| | |done].
  - intros content (c0 & Hc0 & ->)%fmap_Some. exact (Hm c0 Hc0).
  - intros a' Hin. unfold view_artifacts, add_artifact in Hin, Ha. simpl in Hin.
    destruct (view_content v); [|by apply elem_of_nil in Hin]. simpl in Hin, Ha.
    apply elem_of_app in Hin as [Hin|Hin%list_elem_of_singleton]; [auto|]. by subst.
Qed.

Lemma view_from_status ops c v t d :
  view_from ops c v → OpTransition t ∈ ops → transition_key t = view_key v →
  view_from ops c (add_status v (status_of_transition v t) d).
Proof.
  intros [Hc Hi Hm Ha Hs] Hop Hkey. split; [done..|].
  intros status [Hin|Hin%list_elem_of_singleton]%elem_of_app; [by apply Hs|]. subst status.
  exists t. done.
Qed.

Lemma sourced_update ops s pk c v : sourced ops s → view_from ops c v → sourced ops (<[pk := v]> s).
Proof. intros Hs Hv pk' v' [[_ <-]|[_ Hl]]%lookup_insert_Some; eauto. Qed.

Lemma sourced_swept ops now s s' : sourced ops s → swept config now s s' → sourced ops s'.
Proof.
  intros Hs Hsw pk v Hv. destruct (swept_view _ _ _ _ _ _ Hsw Hv) as (v0 & Hv0 & E).
  destruct (Hs pk v0 Hv0) as [c Hc]. exists c. destruct E as [->| ->]; [done|by apply view_from_prune].
Qed.

Lemma create_spec_sourced ops s c a s' :
  sourced ops s → OpCreate c ∈ ops → create_spec config s c = Ok (a, s') → sourced ops s'.
Proof.
  intros Hs Hop. unfold create_spec. intros E. inv_ok. destruct (s !! task_pk _); inv_ok; subst; [done|].
  eapply sourced_update; [done|]. by apply view_from_new.
Qed.

Lemma transition_spec_sourced ops s t a s' :
  tasks_ok config s → sourced ops s → OpTransition t ∈ ops → transition_spec config s t = Ok (a, s') →
  sourced ops s'.
Proof.
  intros Hok Hs Hop. unfold transition_spec. intros E. inv_ok; subst; [done|].
  match goal with Hv : s !! _ = Some ?v |- _ =>
    destruct (Hs _ _ Hv) as [c Hc]; eapply sourced_update; [done|];
    apply view_from_status; [exact Hc|done|symmetry; by eapply view_key_of]
  end.
Qed.

Lemma message_spec_sourced ops s m now a s' :
  sourced ops s → OpMessage m now ∈ ops → message_spec config s m = Ok (a, s') → sourced ops s'.
Proof.
  intros Hs Hop. unfold message_spec. intros E. inv_ok. destruct (list_find _ _) as [[i m']|]; inv_ok; subst; [done|].
  match goal with Hv : s !! _ = Some ?v |- _ => destruct (Hs _ _ Hv) as [c Hc] end.
  eapply sourced_update; [done|]. by eapply view_from_message.
Qed.

Lemma artifact_spec_sourced ops s x working maximum a s' :
  sourced ops s → artifact_call ops x → artifact_spec config s x working maximum = Ok (a, s') → sourced ops s'.
Proof.
  intros Hs Hop. unfold artifact_spec. intros E. inv_ok. destruct (list_find _ _) as [[i x']|]; inv_ok; subst; [done|].
  match goal with Hv : s !! _ = Some ?v |- _ => destruct (Hs _ _ Hv) as [c Hc] end.
  eapply sourced_update; [done|]. by apply view_from_artifact.
Qed.

Lemma task_step_sourced ops s op r s' :
  tasks_ok config s → sourced ops s → op ∈ ops → task_step config s op r s' → sourced ops s'.
Proof.
  intros Hok Hs Hop Hstep. destruct Hstep as [op _|c s1 r s' _ Hsw E|t r s' E|m now s1 r s' _ Hsw E
    |a now s1 r s' _ Hsw E|a now maximum s1 r s' _ Hsw E|now out s1 _ Hsw]; [done|..].
  all: try (pose proof (sourced_swept _ _ _ _ Hs Hsw) as Hs1).
  all: try (apply outcome_Ok in E as [(e & _ & _ & ->)|(x & E & _)]; [done|]).
  - by eapply create_spec_sourced.
  - by eapply transition_spec_sourced.
  - by eapply message_spec_sourced.
  - eapply artifact_spec_sourced; [done| |done]. left. eauto.
  - eapply artifact_spec_sourced; [done| |done]. right. eauto.
  - done.
Qed.

Lemma sourced_empty ops : sourced ops ∅.
Proof. by intros pk v Hv. Qed.

Lemma run_sourced ops all db s :
  collision_free all → ops ⊆ all → Forall op_typed ops → originates all s → sourced all s →
  store_represents db s → tasks_ok config s →
  ∃ s', store_represents (a2a_run config db ops).2 s' ∧ tasks_ok config s' ∧ originates all s' ∧ sourced all s'.
Proof.
  intros Hfree. revert db s. induction ops as [|op ops IH]; intros db s Hsub Htyped Ho Hsrc Hst Hok; [eauto|].
  apply Forall_cons in Htyped as [Htyped Htyped'].
  assert (op ∈ all) as Hop by set_solver.
  destruct (a2a_step_refines config Hcfg db s op Hst Hok Htyped) as (s1 & Hstep & Hst1 & Hok1).
  { by eapply originates_distinguished. }
  simpl. destruct (a2a_step config db op) as [r db1]. simpl in *.
  destruct (IH db1 s1) as (s2 & Hst2 & Hok2 & Ho2 & Hs2); [set_solver|done|..|done|done|].
  { exact (task_step_originates config all s op _ s1 Ho Hop Htyped Hstep). }
  { exact (task_step_sourced all s op _ s1 Hok Hsrc Hop Hstep). }
  destruct (a2a_run config db1 ops) as [rs db2]. simpl in *. eauto.
Qed.

(** The abstract state after a run, with the source of everything in it. *)
Lemma sourced_state ops :
  Forall op_typed ops → collision_free ops →
  ∃ s, store_represents (tables_after config ops) s ∧ tasks_ok config s ∧ originates ops s ∧ sourced ops s.
Proof.
  intros Htyped Hfree. apply (run_sourced ops ops empty_a2a_db ∅);
    [assumption|reflexivity|assumption|done|apply sourced_empty|apply empty_represents|by apply empty_tasks_ok].
Qed.

(** One more call, with the state before and after it. *)
Lemma run_step_sourced ops op :
  Forall op_typed (ops ++ [op]) → collision_free (ops ++ [op]) →
  ∃ s s', store_represents (tables_after config ops) s ∧ tasks_ok config s ∧ sourced (ops ++ [op]) s
    ∧ store_represents (tables_after config (ops ++ [op])) s' ∧ tasks_ok config s' ∧ sourced (ops ++ [op]) s'
    ∧ task_step config s op (a2a_step config (tables_after config ops) op).1 s'.
Proof.
  intros Htyped Hfree. pose proof Htyped as [Ht1 [Ht2 _]%Forall_cons]%Forall_app.
  assert (op ∈ ops ++ [op]) as Hop by set_solver.
  destruct (run_sourced ops (ops ++ [op]) empty_a2a_db ∅) as (s & Hst & Hok & Ho & Hs);
    [assumption|set_solver|assumption|done|apply sourced_empty|apply empty_represents|by apply empty_tasks_ok|].
  destruct (a2a_step_refines config Hcfg (tables_after config ops) s op Hst Hok Ht2) as (s' & Hstep & Hst' & Hok').
  { exact (originates_distinguished _ _ _ Hfree Ho Hop Ht2). }
  exists s, s'. rewrite tables_after_snoc. split_and!; try done.
  exact (task_step_sourced _ s op _ s' Hok Hs Hop Hstep).
Qed.

Lemma create_spec_view s c o s' :
  create_spec config s c = Ok (o, s') →
  ∃ v, s' !! task_pk (creation_key c) = Some v
    ∧ (o = TaskCreated (record_of v) ∨ o = TaskExisting (record_of v)).
Proof.
  unfold create_spec. intros E. inv_ok. destruct (s !! task_pk _) as [v|] eqn:Hv; inv_ok; subst; [eauto|].
  eexists. rewrite lookup_insert_eq. eauto.
Qed.

(** ** Answers of the compound reads *)

Lemma validate_page_limit_Ok limit configured u :
  validate_page_limit limit configured = Ok u → 0 <= limit → 1 <= limit <= MAX_PAGE_SIZE.
Proof.
  unfold validate_page_limit. intros E%fail_if_Ok Hl. rewrite !orb_false_iff, Z.eqb_neq, !Z.ltb_ge in E. lia.
Qed.

Lemma validate_artifact_read_limit_Ok limit configured n :
  validate_artifact_read_limit limit configured = Ok n → 0 <= limit →
  n = Z.min limit configured ∧ n <= MAX_PAGE_SIZE.
Proof.
  unfold validate_artifact_read_limit. destruct (_ || _) eqn:E; [done|]. intros [= <-] Hl.
  rewrite orb_false_iff, Z.eqb_neq, Z.ltb_ge in E. lia.
Qed.

Lemma pruned_empty v : view_pruned v = true → view_messages v = [] ∧ view_artifacts v = [].
Proof. unfold view_pruned, view_messages, view_artifacts. by destruct (view_content v). Qed.

Lemma task_snapshot_Ok db s key messages_limit artifacts_limit snapshot :
  store_represents db s → tasks_ok config s → 0 <= messages_limit → 0 <= artifacts_limit →
  task_snapshot config db key messages_limit artifacts_limit = Ok snapshot →
  ∃ v, s !! task_pk key = Some v ∧ snapshot_task snapshot = record_of v
    ∧ snapshot_messages snapshot = newest messages_limit (stored_messages (view_messages v))
    ∧ snapshot_artifacts snapshot
      = take (Z.to_nat (Z.min artifacts_limit (max_artifacts_per_task config)))
          (stored_artifacts (view_artifacts v)).
Proof.
  intros [Hrep Hd] Hok Hm Ha E. unfold task_snapshot in E.
  apply bind_Ok in E as (u & E1 & E). apply (fun H => validate_page_limit_Ok _ _ _ H Hm) in E1.
  apply bind_Ok in E as (n & E2 & E). apply (fun H => validate_artifact_read_limit_Ok _ _ _ H Ha) in E2 as [-> E2].
  rewrite (load_task_spec config Hcfg db s key Hrep Hok) in E.
  destruct (s !! task_pk key) as [v|] eqn:Hv; [|done]. cbn [mbind result_bind] in E. exists v.
  pose proof (config_artifacts _ Hcfg) as Hca.
  change (record_content_pruned (record_of v)) with (view_pruned v) in E.
  destruct (view_pruned v) eqn:Hp.
  - injection E as <-. destruct (pruned_empty v Hp) as [-> ->]. split_and!; try done; try lia;
      unfold newest, stored_artifacts; simpl; by rewrite ?drop_nil, ?take_nil.
  - rewrite (load_task_messages_spec config Hcfg db s key v) in E by (done || lia).
    cbn [mbind result_bind] in E.
    rewrite (load_artifacts_spec config Hcfg db s key v) in E by (done || lia). by injection E as <-.
Qed.

Lemma stream_updates_Ok db s key generation sequence messages_limit artifacts_limit updates :
  store_represents db s → tasks_ok config s → 0 <= messages_limit → 0 <= artifacts_limit →
  0 <= generation → 0 <= sequence →
  stream_updates config db key generation sequence messages_limit artifacts_limit = Ok updates →
  ∃ v, s !! task_pk key = Some v ∧ updates_task updates = record_of v
    ∧ generation <= status_generation (current_status v)
    ∧ sequence <= len (view_artifacts v)
    ∧ updates_statuses updates = drop (Z.to_nat (generation + 1)) (view_statuses v)
    ∧ updates_messages updates = newest messages_limit (stored_messages (view_messages v))
    ∧ updates_artifacts updates
      = take (Z.to_nat (Z.min artifacts_limit (max_artifacts_per_task config)))
          (drop (Z.to_nat sequence) (stored_artifacts (view_artifacts v))).
Proof.
  intros [Hrep Hd] Hok Hm Ha Hg Hs E. unfold stream_updates in E.
  apply bind_Ok in E as (u & E1 & E). apply (fun H => validate_page_limit_Ok _ _ _ H Hm) in E1.
  apply bind_Ok in E as (n & E2 & E). apply (fun H => validate_artifact_read_limit_Ok _ _ _ H Ha) in E2 as [-> E2].
  rewrite (load_task_spec config Hcfg db s key Hrep Hok) in E.
  destruct (s !! task_pk key) as [v|] eqn:Hv; [|done]. cbn [mbind result_bind] in E. exists v.
  apply bind_Ok in E as ([] & E3%fail_if_Ok & E). apply Z.ltb_ge in E3.
  change (record_generation (record_of v)) with (status_generation (current_status v)) in E3.
  rewrite (load_status_updates_spec config db s key v) in E by (done || lia). cbn [mbind result_bind] in E.
  change (record_content_pruned (record_of v)) with (view_pruned v) in E.
  pose proof (config_artifacts _ Hcfg) as Hca.
  destruct (view_pruned v) eqn:Hp.
  - apply bind_Ok in E as ([] & E4%fail_if_Ok & [= <-]). apply negb_false_iff, Z.eqb_eq in E4 as ->.
    destruct (pruned_empty v Hp) as [-> ->]. split_and!; try done; try lia;
      unfold newest, stored_artifacts; simpl; by rewrite ?drop_nil, ?take_nil.
  - rewrite (artifact_count_spec db s key v Hrep Hv) in E.
    apply bind_Ok in E as ([] & E4%fail_if_Ok & E). apply Z.ltb_ge in E4.
    destruct (view_artifacts_ok config Hcfg _ _ (ok_views _ _ Hok _ _ Hv)) as [_ Hlen].
    rewrite (load_artifacts_after_spec config Hcfg db s key v) in E by (done || lia).
    cbn [mbind result_bind] in E.
    rewrite (load_task_messages_spec config Hcfg db s key v) in E by (done || lia). by injection E as <-.
Qed.

End sources.
