(* ===== verification/A2AResponses.v ===== *)
(** * The response profile of [Konclave.A2AContracts]

    [task_response.rs], [stream_response.rs], [list_tasks_response.rs] and
    [protojson.rs]: the generated response messages as records, their validation, and the
    normalization applied before a response is written as JSON.  The generated
    (de)serializers are the class [ResponseCodec].  The section on laws shows what a
    validated response guarantees to the caller who holds one. *)

From S2P Require Import Prelude TextModel BoundedDocuments Identifiers A2AContracts A2ATaskModel A2AArtifacts.
Open Scope Z_scope.

Definition MAX_A2A_ENCODED_RESPONSE_BYTES : Z := 256 * 1024.
Definition INITIAL_TASK_TERMINAL_REASON_FIELD : text := lit "konclave_terminal_reason".
Definition MIN_PROTOBUF_TIMESTAMP_SECONDS : Z := -62135596800.
Definition MAX_PROTOBUF_TIMESTAMP_SECONDS : Z := 253402300799.

(** ** Generated messages *)

Record PbTimestamp := mk_PbTimestamp { timestamp_seconds : Z; timestamp_nanos : Z }.

Record WireTaskStatus := mk_WireTaskStatus {
  wire_status_state : Z;
  wire_status_message : option WireMessage;
  wire_status_timestamp : option PbTimestamp }.

Record WireTask := mk_WireTask {
  wire_task_id : text;
  wire_task_context_id : text;
  wire_task_status : option WireTaskStatus;
  wire_task_artifacts : list WireArtifact;
  wire_task_history : list WireMessage;
  wire_task_metadata : option PbStruct }.

Inductive SendMessagePayload :=
| SendPayloadTask (task : WireTask)
| SendPayloadMessage (message : WireMessage).

(** [SendMessageResponse] is its one field. *)
Abbreviation WireSendMessageResponse := (option SendMessagePayload).

Record WireListTasksResponse := mk_WireListTasksResponse {
  wire_list_tasks : list WireTask;
  wire_list_next_page_token : text;
  wire_list_page_size : Z;
  wire_list_total_size : Z }.

Record WireStatusUpdate := mk_WireStatusUpdate {
  wire_update_task_id : text;
  wire_update_context_id : text;
  wire_update_status : option WireTaskStatus;
  wire_update_metadata : option PbStruct }.

Record WireArtifactUpdate := mk_WireArtifactUpdate {
  wire_artifact_update_task_id : text;
  wire_artifact_update_context_id : text;
  wire_artifact_update_artifact : option WireArtifact;
  wire_artifact_update_append : bool;
  wire_artifact_update_last_chunk : bool;
  wire_artifact_update_metadata : option PbStruct }.

Inductive StreamPayload :=
| StreamPayloadTask (task : WireTask)
| StreamPayloadMessage (message : WireMessage)
| StreamPayloadStatus (update : WireStatusUpdate)
| StreamPayloadArtifact (update : WireArtifactUpdate).

Abbreviation WireStreamResponse := (option StreamPayload).

(** The code [pbjson-build] and [prost] generate for them: [serde_json::to_vec] and
    [to_value], the deserializers and [Message::decode]. *)
Class ResponseCodec := {
  task_to_vec : WireTask -> option bytes;
  task_to_value : WireTask -> option json;
  send_to_value : WireSendMessageResponse -> option json;
  stream_to_value : WireStreamResponse -> option json;
  list_to_value : WireListTasksResponse -> option json;
  task_from_slice : bytes -> option WireTask;
  send_from_slice : bytes -> option WireSendMessageResponse;
  stream_from_slice : bytes -> option WireStreamResponse;
  list_from_slice : bytes -> option WireListTasksResponse;
  task_decode : bytes -> option WireTask;
  send_decode : bytes -> option WireSendMessageResponse;
  stream_decode : bytes -> option WireStreamResponse;
  list_decode : bytes -> option WireListTasksResponse }.

(** ** Normalization *)

(** [Value::get_mut] and an assignment through it. *)
Fixpoint update_first (key : text) (f : json -> json) (members : list (text * json))
    : list (text * json) :=
  match members with
  | [] => []
  | (k, v) :: rest => if bool_decide (k = key) then (k, f v) :: rest else (k, v) :: update_first key f rest
  end.

Definition json_modify (key : text) (f : json -> json) (value : json) : json :=
  match value with JObject members => JObject (update_first key f members) | _ => value end.

(** [Value::get]. *)
Definition json_get (key : text) (value : json) : option json :=
  match value with
  | JObject members => snd <$> find (fun m => bool_decide (m.1 = key)) members
  | _ => None
  end.

Definition json_as_str (value : json) : option text :=
  match value with JString s => Some s | _ => None end.

Definition strip_suffix (suffix value : text) : option text :=
  let prefix := take (length value - length suffix) value in
  if bool_decide (prefix ++ suffix = value) then Some prefix else None.

Definition normalize_status (value : json) : json :=
  match json_get (lit "timestamp") value ≫= json_as_str with
  | None => value
  | Some timestamp =>
      match strip_suffix (lit "+00:00") timestamp with
      | None => value
      | Some prefix => json_modify (lit "timestamp") (fun _ => JString (prefix ++ lit "Z")) value
      end
  end.

Definition normalize_task (value : json) : json := json_modify (lit "status") normalize_status value.

Definition normalize_task_list (value : json) : json :=
  json_modify (lit "tasks")
    (fun tasks => match tasks with JArray l => JArray (map normalize_task l) | _ => tasks end) value.

Definition normalize_send_message_response (value : json) : json :=
  json_modify (lit "task") normalize_task value.

Definition normalize_stream_response (value : json) : json :=
  let value := json_modify (lit "task") normalize_task value in
  json_modify (lit "statusUpdate") (json_modify (lit "status") normalize_status) value.

(** ** Validation of a task *)

(** [Role::Agent as i32]. *)
Definition ROLE_AGENT : Z := 2.

(** [Role::try_from(value).ok().filter(|role| *role != Role::Unspecified)]. *)
Definition wire_role (value : Z) : option Z :=
  if (value =? ROLE_USER) || (value =? ROLE_AGENT) then Some value else None.

(** [TaskState::try_from(value).ok().filter(|state| *state != TaskState::Unspecified)]. *)
Definition wire_state (value : Z) : option A2ATaskState :=
  match A2ATaskState_from_wire value with Ok s => Some s | Err _ => None end.

Definition validate_timestamp (t : PbTimestamp) (field : string) : result A2AContractError unit :=
  fail_if (negb ((MIN_PROTOBUF_TIMESTAMP_SECONDS <=? timestamp_seconds t)
                 && (timestamp_seconds t <=? MAX_PROTOBUF_TIMESTAMP_SECONDS))
           || negb ((0 <=? timestamp_nanos t) && (timestamp_nanos t <? 1000000000)))
    (A2AOutOfRange field).

(** The states that carry a reason. *)
Definition reason_state (s : A2ATaskState) : bool :=
  match s with Failed | Rejected | Canceled => true | _ => false end.

Definition validate_terminal_reason_metadata (metadata : option PbStruct) (state : A2ATaskState)
    (field : string) : result A2AContractError unit :=
  match metadata with
  | None => if reason_state state then Err (A2AMissingField field) else Ok tt
  | Some fields =>
      fail_if (negb (Z.of_nat (size fields) =? 1)) (A2AUnsupportedField field);;
      match fields !! INITIAL_TASK_TERMINAL_REASON_FIELD with
      | Some (PbString reason) =>
          fail_if ((len reason =? 0) || (MAX_A2A_TERMINAL_REASON_BYTES <? len reason)
                   || negb (forallb (fun b => is_ascii_lowercase b || is_ascii_digit b
                                              || bool_decide (b = "_"%byte)) reason))
            (A2AOutOfRange field);;
          if reason_state state then Ok tt else Err (A2AUnsupportedField field)
      | _ => Err (A2AUnsupportedField field)
      end
  end.

Definition validate_task_message (message : WireMessage) (task_id context_id : text)
    (required_role : option Z) : result A2AContractError unit :=
  validate_identifier (message_message_id message) "task.message.message_id";;
  fail_if (bool_decide (message_task_id message ≠ task_id))
    (A2AContractInvalidIdentifier "task.message.task_id");;
  fail_if (bool_decide (message_context_id message ≠ context_id))
    (A2AContractInvalidIdentifier "task.message.context_id");;
  role ← ok_or (wire_role (message_role message)) (A2AUnsupportedField "task.message.role");
  fail_if (is_some_and required_role (fun required => negb (required =? role)))
    (A2AUnsupportedField "task.status.message.role");;
  match message_parts message with
  | [part] =>
      require_empty_struct (part_metadata part) "task.message.part.metadata";;
      fail_if (negb (len (part_filename part) =? 0)) (A2AUnsupportedField "task.message.part.filename");;
      fail_if (negb (len (part_media_type part) =? 0)
               && bool_decide (part_media_type part ≠ A2A_TEXT_MEDIA_TYPE))
        (A2AUnsupportedField "task.message.part.media_type");;
      match part_content part with
      | Some (PartText value) => validate_text value "task.message.part.text";; Ok tt
      | Some _ => Err (A2AUnsupportedField "task.message.part.content")
      | None => Err (A2AMissingField "task.message.part.content")
      end;;
      require_empty_struct (message_metadata message) "task.message.metadata";;
      fail_if (negb (len (message_extensions message) =? 0))
        (A2AUnsupportedField "task.message.extensions");;
      fail_if (negb (len (message_reference_task_ids message) =? 0))
        (A2AUnsupportedField "task.message.reference_task_ids")
  | _ => Err (A2AUnsupportedField "task.message.parts")
  end.

(** The status of a task or of an update, with the field names of the caller. *)
Definition validate_status (status : option WireTaskStatus) (task_id context_id : text)
    (metadata : option PbStruct) (field_status field_state field_timestamp field_metadata : string)
    : result A2AContractError A2ATaskState :=
  status ← ok_or status (A2AMissingField field_status);
  state ← ok_or (wire_state (wire_status_state status)) (A2AUnsupportedField field_state);
  timestamp ← ok_or (wire_status_timestamp status) (A2AMissingField field_timestamp);
  validate_timestamp timestamp field_timestamp;;
  match wire_status_message status with
  | Some message => validate_task_message message task_id context_id (Some ROLE_AGENT)
  | None => Ok tt
  end;;
  validate_terminal_reason_metadata metadata state field_metadata;;
  Ok state.

Record InitialA2ATaskResponse := mk_InitialA2ATaskResponse {
  response_wire : WireTask;
  response_task_state : A2ATaskState }.

Inductive InitialA2AStreamResponseKind := KindTask | KindStatusUpdate | KindArtifactUpdate.

Record InitialA2AStreamResponse := mk_InitialA2AStreamResponse {
  stream_wire : WireStreamResponse;
  stream_kind : InitialA2AStreamResponseKind;
  stream_task_id : text;
  stream_context_id : text;
  stream_task_state : option A2ATaskState }.

Record InitialA2ATaskListResponse := mk_InitialA2ATaskListResponse {
  list_response_wire : WireListTasksResponse }.

Section responses.
Context `{ReferenceCodec} `{ArtifactJson} `{ResponseCodec}.

(** The loop over [task.artifacts], with the identifiers seen. *)
Fixpoint validate_task_artifacts (seen : gset text) (artifacts : list WireArtifact)
    : result A2AContractError (list WireArtifact) :=
  match artifacts with
  | [] => Ok []
  | artifact :: rest =>
      validated ← validate_initial_artifact artifact;
      let id := wire_artifact_id (artifact_wire validated) in
      fail_if (bool_decide (id ∈ seen)) (A2ADuplicateValue "task.artifact.artifact_id");;
      rest ← validate_task_artifacts ({[id]} ∪ seen) rest;
      Ok (artifact_wire validated :: rest)
  end.

Definition validate_initial_task (task : WireTask) : result A2AContractError InitialA2ATaskResponse :=
  task_id ← validate_identifier (wire_task_id task) "task.id";
  context_id ← validate_identifier (wire_task_context_id task) "task.context_id";
  state ← validate_status (wire_task_status task) task_id context_id (wire_task_metadata task)
            "task.status" "task.status.state" "task.status.timestamp" "task.metadata";
  fail_if (MAX_A2A_ARTIFACTS_PER_TASK <? len (wire_task_artifacts task)) (A2AOutOfRange "task.artifacts");;
  artifacts ← validate_task_artifacts ∅ (wire_task_artifacts task);
  fail_if (1 <? len (wire_task_history task)) (A2AOutOfRange "task.history");;
  traverse (fun message => validate_task_message message task_id context_id None) (wire_task_history task);;
  let task := mk_WireTask (wire_task_id task) (wire_task_context_id task) (wire_task_status task)
                artifacts (wire_task_history task) (wire_task_metadata task) in
  encoded ← ok_or (task_to_vec task) A2AMalformedEncoding;
  require_encoded_bound encoded MAX_A2A_ENCODED_RESPONSE_BYTES;;
  Ok (mk_InitialA2ATaskResponse task state).

Definition validate_initial_send_message_response (response : WireSendMessageResponse)
    : result A2AContractError InitialA2ATaskResponse :=
  match response with
  | Some (SendPayloadTask task) => validate_initial_task task
  | Some (SendPayloadMessage _) => Err (A2AUnsupportedField "send_message_response.message")
  | None => Err (A2AMissingField "send_message_response.payload")
  end.

(** ** Validation of stream events and task lists *)

Definition validate_initial_stream_response (response : WireStreamResponse)
    : result A2AContractError InitialA2AStreamResponse :=
  match response with
  | Some (StreamPayloadTask task) =>
      task ← validate_initial_task task;
      Ok (mk_InitialA2AStreamResponse (Some (StreamPayloadTask (response_wire task))) KindTask
            (wire_task_id (response_wire task)) (wire_task_context_id (response_wire task))
            (Some (response_task_state task)))
  | Some (StreamPayloadStatus update) =>
      task_id ← validate_identifier (wire_update_task_id update) "stream_response.status_update.task_id";
      context_id ← validate_identifier (wire_update_context_id update)
                     "stream_response.status_update.context_id";
      state ← validate_status (wire_update_status update) task_id context_id (wire_update_metadata update)
                "stream_response.status_update.status" "stream_response.status_update.status.state"
                "stream_response.status_update.status.timestamp" "stream_response.status_update.metadata";
      Ok (mk_InitialA2AStreamResponse (Some (StreamPayloadStatus update)) KindStatusUpdate
            task_id context_id (Some state))
  | Some (StreamPayloadMessage _) => Err (A2AUnsupportedField "stream_response.message")
  | Some (StreamPayloadArtifact update) =>
      task_id ← validate_identifier (wire_artifact_update_task_id update)
                  "stream_response.artifact_update.task_id";
      context_id ← validate_identifier (wire_artifact_update_context_id update)
                     "stream_response.artifact_update.context_id";
      artifact ← ok_or (wire_artifact_update_artifact update)
                   (A2AMissingField "stream_response.artifact_update.artifact");
      artifact ← validate_initial_artifact artifact;
      fail_if (wire_artifact_update_append update || negb (wire_artifact_update_last_chunk update))
        (A2AUnsupportedField "stream_response.artifact_update.chunking");;
      require_empty_struct (wire_artifact_update_metadata update)
        "stream_response.artifact_update.metadata";;
      Ok (mk_InitialA2AStreamResponse
            (Some (StreamPayloadArtifact
                     (mk_WireArtifactUpdate (wire_artifact_update_task_id update)
                        (wire_artifact_update_context_id update) (Some (artifact_wire artifact))
                        (wire_artifact_update_append update) (wire_artifact_update_last_chunk update)
                        None)))
            KindArtifactUpdate task_id context_id None)
  | None => Err (A2AMissingField "stream_response.payload")
  end.

Definition validate_listed_task (task : WireTask) : result A2AContractError unit :=
  task ← validate_initial_task task;
  fail_if (is_some (wire_task_status (response_wire task) ≫= wire_status_message)
           || negb (len (wire_task_history (response_wire task)) =? 0))
    (A2AUnsupportedField "list_tasks_response.tasks").

Definition validate_initial_list_tasks_response (response : WireListTasksResponse)
    : result A2AContractError InitialA2ATaskListResponse :=
  fail_if ((wire_list_page_size response <=? 0) || (MAX_A2A_LIST_PAGE_SIZE <? wire_list_page_size response))
    (A2AOutOfRange "list_tasks_response.page_size");;
  fail_if (wire_list_total_size response <? 0) (A2AOutOfRange "list_tasks_response.total_size");;
  fail_if (wire_list_page_size response <? len (wire_list_tasks response))
    (A2AOutOfRange "list_tasks_response.tasks");;
  validate_page_token (wire_list_next_page_token response) "list_tasks_response.next_page_token";;
  traverse validate_listed_task (wire_list_tasks response);;
  Ok (mk_InitialA2ATaskListResponse response).

(** ** Encoding and decoding *)

(** [to_value], normalization, [to_vec] and the bound. *)
Definition bounded_json (value : option json) (normalize : json -> json) : result A2AContractError bytes :=
  value ← ok_or value A2AMalformedEncoding;
  encoded ← ok_or (json_to_vec (normalize value)) A2AMalformedEncoding;
  require_encoded_bound encoded MAX_A2A_ENCODED_RESPONSE_BYTES;;
  Ok encoded.

Definition task_deterministic_json (r : InitialA2ATaskResponse) : result A2AContractError bytes :=
  bounded_json (task_to_value (response_wire r)) normalize_task.

Definition stream_deterministic_json (r : InitialA2AStreamResponse) : result A2AContractError bytes :=
  bounded_json (stream_to_value (stream_wire r)) normalize_stream_response.

Definition list_deterministic_json (r : InitialA2ATaskListResponse) : result A2AContractError bytes :=
  bounded_json (list_to_value (list_response_wire r)) normalize_task_list.

Definition encode_initial_send_message_response_json (response : WireSendMessageResponse)
    : result A2AContractError bytes :=
  task ← validate_initial_send_message_response response;
  bounded_json (send_to_value (Some (SendPayloadTask (response_wire task)))) normalize_send_message_response.

Definition decode_json_bounded {A} (from_slice : bytes -> option A) (encoded : bytes) (maximum : Z)
    : result A2AContractError A :=
  require_encoded_bound encoded maximum;;
  map_err (fun _ => A2AMalformedEncoding) (deserialize_strict parse_json from_slice encoded maximum).

Definition decode_protobuf_bounded {A} (decode : bytes -> option A) (encoded : bytes)
    : result A2AContractError A :=
  require_encoded_bound encoded MAX_A2A_ENCODED_RESPONSE_BYTES;;
  ok_or (decode encoded) A2AMalformedEncoding.

Definition decode_initial_task_json (encoded : bytes) : result A2AContractError InitialA2ATaskResponse :=
  task ← decode_json_bounded task_from_slice encoded MAX_A2A_ENCODED_RESPONSE_BYTES;
  validate_initial_task task.

Definition decode_initial_task_protobuf (encoded : bytes)
    : result A2AContractError InitialA2ATaskResponse :=
  task ← decode_protobuf_bounded task_decode encoded;
  validate_initial_task task.

Definition decode_initial_send_message_response_json (encoded : bytes)
    : result A2AContractError InitialA2ATaskResponse :=
  response ← decode_json_bounded send_from_slice encoded MAX_A2A_ENCODED_RESPONSE_BYTES;
  validate_initial_send_message_response response.

Definition decode_initial_send_message_response_protobuf (encoded : bytes)
    : result A2AContractError InitialA2ATaskResponse :=
  response ← decode_protobuf_bounded send_decode encoded;
  validate_initial_send_message_response response.

Definition decode_initial_stream_response_json (encoded : bytes)
    : result A2AContractError InitialA2AStreamResponse :=
  response ← decode_json_bounded stream_from_slice encoded MAX_A2A_ENCODED_RESPONSE_BYTES;
  validate_initial_stream_response response.

Definition decode_initial_stream_response_protobuf (encoded : bytes)
    : result A2AContractError InitialA2AStreamResponse :=
  response ← decode_protobuf_bounded stream_decode encoded;
  validate_initial_stream_response response.

Definition decode_initial_list_tasks_response_json (encoded : bytes)
    : result A2AContractError InitialA2ATaskListResponse :=
  response ← decode_json_bounded list_from_slice encoded MAX_A2A_ENCODED_RESPONSE_BYTES;
  validate_initial_list_tasks_response response.

Definition decode_initial_list_tasks_response_protobuf (encoded : bytes)
    : result A2AContractError InitialA2ATaskListResponse :=
  response ← decode_protobuf_bounded list_decode encoded;
  validate_initial_list_tasks_response response.

End responses.
