(* ===== verification/A2AArtifactForm.v ===== *)
(** * Canonical artifacts

    The canonical JSON of a validated artifact is a fixed point: validating the artifact
    again, or decoding its canonical JSON, gives the same artifact.  The store keeps only the
    canonical bytes, so this is what lets the gateway show an artifact it accepted. *)

From S2P Require Import Prelude TextModel BoundedDocuments Identifiers A2AContracts A2AArtifacts.
Open Scope Z_scope.

(** What the source relies on of [serde_json] and the generated code. *)
Record artifact_json_laws `{ArtifactJson} : Prop := {
  (** A document without repeated keys is read back as it was written. *)
  law_parse : ∀ v b, json_unique v → json_to_vec v = Some b → parse_json b = Some v;
  (** Structured data that was read from JSON is written back as the same JSON. *)
  law_data : ∀ d v d', data_to_value d = Some v → data_from_value (sort_json v) = Some d' →
    data_to_value d' = Some (sort_json v);
  (** An artifact is read back as it was written, member order apart, if its structured data was
      read from JSON. *)
  law_artifact : ∀ a v b,
    Forall (fun p => ∀ d, part_content p = Some (PartData d) → ∃ value, data_from_value value = Some d)
      (wire_artifact_parts a) →
    artifact_to_value a = Some v → json_to_vec (sort_json v) = Some b → artifact_from_slice b = Some a }.

(** ** Sorted documents have no repeated keys *)

Lemma sorted_keys_nodup {A} (l : list (text * A)) : StronglySorted member_lt l → NoDup (fst <$> l).
Proof.
  induction 1 as [|m l _ IH Hm]; simpl; constructor; [|done].
  intros (m' & E & Hin)%list_elem_of_fmap. rewrite Forall_forall in Hm. specialize (Hm m' Hin).
  unfold key_lt in Hm. rewrite E, (compare_refl bytes_compare) in Hm. done.
Qed.

Lemma sort_json_unique v : json_unique (sort_json v).
Proof.
  induction v as [| | | |l IH|l IH] using json_ind'; simpl; try constructor.
  - apply Forall_fmap. exact IH.
  - apply sorted_keys_nodup, btree_collect_sorted.
  - apply btree_collect_Forall. apply (Forall_fmap (fun m : text * json => (m.1, sort_json m.2))). exact IH.
Qed.

Section form.
Context `{ReferenceCodec} `{ArtifactJson} (laws : artifact_json_laws).

Definition data_read (p : WirePart) : Prop :=
  ∀ d, part_content p = Some (PartData d) → ∃ value, data_from_value value = Some d.

Lemma canonicalize_value value :
  canonicalize_json value
  = if fits 0 0 (sort_json value) then Ok (sort_json value, json_nodes (sort_json value))
    else Err (A2AOutOfRange "artifact.part.data").
Proof. by apply canonicalize_json_spec. Qed.

(** ** A validated part validates as itself *)

Lemma validate_part_again p n p' n' :
  validate_part p n = Ok (p', n') → validate_part p' n = Ok (p', n') ∧ data_read p'.
Proof.
  intros E. unfold validate_part in E. apply bind_Ok in E as ([] & _ & E). apply bind_Ok in E as ([] & Hf & E).
  destruct (part_content p) as [[value|value|url|data]|]; [..|done].
  - apply bind_Ok in E as ([] & Hlen & E). apply bind_Ok in E as (m & Hm & E).
    destruct (len (part_media_type p) =? 0) eqn:Hmt.
    + injection E as <- <-. split; [|done]. unfold validate_part. simpl. rewrite Hf. simpl. rewrite Hlen. simpl.
      by rewrite Hm.
    + apply bind_Ok in E as ([] & Hv & E). apply bind_Ok in E as ([] & Ht & [= <- <-]). split; [|done].
      unfold validate_part. simpl. rewrite Hf. simpl. rewrite Hlen. simpl. rewrite Hm. simpl.
      rewrite Hmt, Hv. simpl. by rewrite Ht.
  - apply bind_Ok in E as ([] & Hlen & E). apply bind_Ok in E as ([] & Hv & E). apply bind_Ok in E as (m & Hm & [= <- <-]).
    split; [|done]. unfold validate_part. simpl. rewrite Hf. simpl. rewrite Hlen. simpl. rewrite Hv. simpl. by rewrite Hm.
  - apply bind_Ok in E as ([] & Hlen & E). apply bind_Ok in E as ([] & Hv & E). apply bind_Ok in E as ([] & Hr & [= <- <-]).
    split; [|done]. unfold validate_part. simpl. rewrite Hf. simpl. rewrite Hlen. simpl. rewrite Hv. simpl. by rewrite Hr.
  - apply bind_Ok in E as ([] & _ & E). apply bind_Ok in E as (value & Hvalue%ok_or_Ok & E).
    apply bind_Ok in E as ([v k] & Hc & E). rewrite canonicalize_value in Hc.
    destruct (fits 0 0 (sort_json value)) eqn:Hfits; [|done]. injection Hc as <- <-.
    apply bind_Ok in E as (encoded & Henc & E). apply bind_Ok in E as (m & Hm & E).
    apply bind_Ok in E as (d & Hd%ok_or_Ok & [= <- <-]).
    split; [|intros d' [= <-]; eauto]. unfold validate_part. simpl. rewrite Hf. simpl.
    rewrite (law_data laws _ _ _ Hvalue Hd). cbn [ok_or mbind result_bind].
    rewrite canonicalize_value, sort_json_idem, Hfits. cbn [mbind result_bind]. rewrite Henc. cbn [mbind result_bind].
    rewrite Hm. cbn [mbind result_bind]. by rewrite Hd.
Qed.

Lemma validate_parts_again parts : ∀ n parts',
  validate_parts parts n = Ok parts' → validate_parts parts' n = Ok parts' ∧ Forall data_read parts'
    ∧ length parts' = length parts.
Proof.
  induction parts as [|p parts IH]; intros n parts' E; simpl in E; [injection E as <-; by split_and!|].
  apply bind_Ok in E as ([p' n'] & Hp & E). apply bind_Ok in E as (rest & Hrest & [= <-]).
  destruct (validate_part_again _ _ _ _ Hp) as [Hp' Hd]. destruct (IH _ _ Hrest) as (Hr & Hdr & Hl).
  split_and!; [|by constructor|by simpl; rewrite Hl]. simpl. rewrite Hp'. cbn [mbind result_bind]. by rewrite Hr.
Qed.

(** ** Artifacts *)

(** The canonical form of an artifact is stable: an artifact the profile accepts
    validates again as itself, and its canonical JSON decodes to the same artifact with the
    same canonical JSON, so what the store keeps is what was published. *)
Theorem artifact_canonical_roundtrip w a :
  validate_initial_artifact w = Ok a →
  validate_initial_artifact (artifact_wire a) = Ok a
  ∧ decode_initial_artifact_json (artifact_canonical_json a) = Ok a.
Proof.
  intros E. unfold validate_initial_artifact in E.
  apply bind_Ok in E as (id & Hid & E). apply bind_Ok in E as ([] & Hname & E).
  apply bind_Ok in E as ([] & Hdesc & E). apply bind_Ok in E as ([] & Hp0 & E).
  apply bind_Ok in E as ([] & Hp8 & E). apply bind_Ok in E as ([] & _ & E).
  apply bind_Ok in E as ([] & Hext & E). apply bind_Ok in E as (parts & Hparts & E). cbv zeta in E.
  apply bind_Ok in E as (value & Hvalue & E). apply bind_Ok in E as (canonical & Hcan & E).
  apply bind_Ok in E as ([] & Hbound & E). apply bind_Ok in E as (wire & Hwire%ok_or_Ok & [= <-]).
  destruct (validate_parts_again _ _ _ Hparts) as (Hagain & Hread & Hlen).
  pose proof Hvalue as Hvalue'. apply ok_or_Ok in Hvalue'. pose proof Hcan as Hcan'. apply ok_or_Ok in Hcan'.
  set (normal := mk_WireArtifact _ _ _ parts None _) in *.
  pose proof (law_artifact laws normal value canonical Hread Hvalue' Hcan') as Hfrom.
  rewrite Hfrom in Hwire. injection Hwire as <-.
  simpl artifact_wire. simpl artifact_canonical_json.
  assert (validate_initial_artifact normal = Ok (mk_InitialA2AArtifact normal canonical)) as Hval.
  { unfold validate_initial_artifact. unfold normal at 1 2 3 4 5 6 7 8 9 10 11 12.
    cbn [wire_artifact_id wire_artifact_name wire_artifact_description wire_artifact_parts
      wire_artifact_metadata wire_artifact_extensions].
    assert (len parts = len (wire_artifact_parts w)) as -> by (unfold len; by rewrite Hlen).
    rewrite Hid. cbn [mbind result_bind]. rewrite Hname. cbn [mbind result_bind]. rewrite Hdesc.
    cbn [mbind result_bind]. rewrite Hp0. cbn [mbind result_bind]. rewrite Hp8. cbn [mbind result_bind].
    cbn [require_empty_struct is_some_and fail_if]. cbn [mbind result_bind]. rewrite Hext. cbn [mbind result_bind].
    rewrite Hagain. cbn [mbind result_bind]. cbv zeta. fold normal. rewrite Hvalue. cbn [mbind result_bind]. rewrite Hcan.
    cbn [mbind result_bind]. rewrite Hbound. cbn [mbind result_bind].
    fold normal. by rewrite Hfrom. }
  split; [exact Hval|]. unfold decode_initial_artifact_json. rewrite Hbound. cbn [mbind result_bind].
  unfold deserialize_strict, reject_duplicate_json_keys.
  apply fail_if_Ok in Hbound. rewrite Hbound. cbn [fail_if mbind result_bind].
  rewrite (law_parse laws _ _ (sort_json_unique value) Hcan').
  rewrite (proj2 (unique_json_spec _) (sort_json_unique value)). cbn [negb fail_if mbind result_bind].
  rewrite Hfrom. exact Hval.
Qed.

End form.
