(* ===== verification/A2AEffects.v ===== *)
(** * Programs of the A2A gateway process

    The asynchronous functions of the gateway and the bridge, as programs: a tree of the
    effects they await, each with its continuation.  Between two effects of one program
    any other program of the process, or of another process on the same task store, may
    act; [A2ASystem] gives these interleavings.  [store_call] is the trait
    [A2ATaskStore] of [Konclave.A2ATaskStore/src/store.rs], answered here by the SQLite
    store. *)

From S2P Require Import Prelude Identifiers A2AContracts A2ATaskModel A2AStore A2AStoreRun A2AResponses.
Open Scope Z_scope.

(** ** The task store *)

Inductive store_call : Type -> Type :=
| CreateTask (c : A2ATaskCreation) : store_call CreateA2ATaskOutcome
| GetTask (key : A2ATaskKey) : store_call A2ATaskRecord
| ListTasks (query : A2ATaskListQuery) : store_call A2ATaskListPage
| ListTasksWithArtifacts (query : A2ATaskListQuery) (artifact_limit : Z) : store_call A2ATaskArtifactListPage
| TransitionTask (t : A2ATaskTransition) : store_call TransitionA2ATaskOutcome
| AppendMessage (m : A2ATaskMessage) (now : Z) : store_call AppendA2ATaskRecordOutcome
| AppendWorkingArtifact (a : A2ATaskArtifact) (now maximum : Z) : store_call AppendA2ATaskRecordOutcome
| TaskSnapshot (key : A2ATaskKey) (message_limit artifact_limit : Z) : store_call A2ATaskSnapshot
| StreamUpdates (key : A2ATaskKey) (after_generation after_artifact_sequence message_limit artifact_limit : Z)
    : store_call A2ATaskStreamUpdates
| PruneTasks (now : Z) : store_call A2ATaskPruneOutcome.

Section calls.
Context `{Sha256} (config : A2ASqliteTaskStoreConfig).

Definition call_run {X} (call : store_call X) (db : A2ADb) : result A2ATaskStoreError X * A2ADb :=
  match call with
  | CreateTask c => create_task config db c
  | GetTask key => (get_task db key, db)
  | ListTasks query => (list_tasks db query, db)
  | ListTasksWithArtifacts query limit => (list_tasks_with_artifacts config db query limit, db)
  | TransitionTask t => transition_task config db t
  | AppendMessage m now => append_message config db m now
  | AppendWorkingArtifact a now maximum => append_working_artifact config db a now maximum
  | TaskSnapshot key messages artifacts => (task_snapshot config db key messages artifacts, db)
  | StreamUpdates key generation sequence messages artifacts =>
      (stream_updates config db key generation sequence messages artifacts, db)
  | PruneTasks now => prune config db now
  end.

(** The write a call makes. *)
Definition call_op {X} (call : store_call X) : option task_op :=
  match call with
  | CreateTask c => Some (OpCreate c)
  | TransitionTask t => Some (OpTransition t)
  | AppendMessage m now => Some (OpMessage m now)
  | AppendWorkingArtifact a now maximum => Some (OpWorkingArtifact a now maximum)
  | PruneTasks now => Some (OpPrune now)
  | _ => None
  end.

Lemma call_run_step {X} (call : store_call X) db :
  (call_run call db).2 = match call_op call with Some op => (a2a_step config db op).2 | None => db end.
Proof.
  destruct call; simpl; try done.
  - by destruct (create_task config db c).
  - by destruct (transition_task config db t).
  - by destruct (append_message config db m now).
  - by destruct (append_working_artifact config db a now maximum).
  - by destruct (prune config db now).
Qed.

End calls.

(** ** The local service and the outside *)

Inductive A2AKonclaveLocalServiceError := LocalUnavailable | LocalRequestRejected | LocalInvalidResponse.

Record LocalRequest := mk_LocalRequest {
  local_request_id : bytes;
  local_operation : text;
  local_payload : bytes }.

Inductive A2AGatewayError :=
| GatewayInvalidConfiguration
| GatewayContract
| GatewayRouteMismatch
| GatewayInvalidRequest
| GatewayTaskNotFound
| GatewayConflict
| GatewayCapacityExceeded
| GatewayInvalidTaskProjection
| GatewayResponseTooLarge
| GatewayStorageUnavailable
| GatewayClockUnavailable
| GatewaySubmissionUnavailable
| GatewayResponseWaitExpired
| GatewayUnsupportedOperation.

Global Instance A2AGatewayError_eq_dec : EqDecision A2AGatewayError.
Proof. solve_decision. Defined.

(** What a client of the gateway receives. *)
Inductive gateway_output :=
| OutTask (r : InitialA2ATaskResponse)
| OutTasks (r : InitialA2ATaskListResponse)
| OutEvent (r : InitialA2AStreamResponse)
| OutPublished
| OutError (e : A2AGatewayError).

(** In-process state of the bridge that only decides whether work is started: its
    shutdown flag, its table of observers and its semaphore. *)
Inductive probe :=
| ShutdownRequested
| ObserverRunning (key : A2ATaskKey)
| ObserverSlotFree.

(** ** Programs *)

Inductive prog (A : Type) : Type :=
| Ret (a : A)
| Call {X : Type} (call : store_call X) (k : result A2ATaskStoreError X -> prog A)
(** [clock.now_unix_milliseconds()]. *)
| Clock (k : option Z -> prog A)
(** Whether the deadline of the operation has passed. *)
| Elapsed (k : bool -> prog A)
| Probe (q : probe) (k : bool -> prog A)
(** [sequence.fetch_update(.., checked_add(1))]. *)
| Sequence (k : option Z -> prog A)
| Request (r : LocalRequest) (k : result A2AKonclaveLocalServiceError bytes -> prog A)
(** [tokio::spawn] of an observer. *)
| Spawn (key : A2ATaskKey) (after_cursor : Z) (k : prog A)
| Emit (o : gateway_output) (k : prog A).
Arguments Ret {A} a.
Arguments Call {A X} call k.
Arguments Clock {A} k.
Arguments Elapsed {A} k.
Arguments Probe {A} q k.
Arguments Sequence {A} k.
Arguments Request {A} r k.
Arguments Spawn {A} key after_cursor k.
Arguments Emit {A} o k.

Fixpoint prog_bind {A B} (p : prog A) (f : A -> prog B) : prog B :=
  match p with
  | Ret a => f a
  | Call call k => Call call (fun x => prog_bind (k x) f)
  | Clock k => Clock (fun x => prog_bind (k x) f)
  | Elapsed k => Elapsed (fun x => prog_bind (k x) f)
  | Probe q k => Probe q (fun x => prog_bind (k x) f)
  | Sequence k => Sequence (fun x => prog_bind (k x) f)
  | Request r k => Request r (fun x => prog_bind (k x) f)
  | Spawn key after_cursor k => Spawn key after_cursor (prog_bind k f)
  | Emit o k => Emit o (prog_bind k f)
  end.

Global Instance prog_mret : MRet prog := fun A a => Ret a.
Global Instance prog_mbind : MBind prog := fun A B f p => prog_bind p f.

(** An asynchronous function that returns a [Result], and [.await?]. *)
Abbreviation progR E A := (prog (result E A)).

Definition prog_try {E A B} (p : progR E A) (f : A -> progR E B) : progR E B :=
  prog_bind p (fun r => match r with Ok a => f a | Err e => Ret (Err e) end).

Notation "x ←? p ; k" := (prog_try p (fun x => k)) (at level 20, p at level 100, k at level 200).
Notation "' pat ←? p ; k" := (prog_try p (fun x => match x with pat => k end))
  (at level 20, pat pattern, p at level 100, k at level 200).

(** [?] on a plain [Result]. *)
Definition lift {E A} (r : result E A) : progR E A := Ret r.

Definition store {E X} (map_error : A2ATaskStoreError -> E) (call : store_call X) : progR E X :=
  Call call (fun r => Ret (map_err map_error r)).

Definition clock_now {E} (e : E) : progR E Z := Clock (fun now => Ret (ok_or now e)).

(** [timeout_at(deadline, p).await]: the deadline may cut the program while it waits for
    an effect, which still happens although its result is dropped. *)
Definition until {A} (p : prog (option A)) : prog (option A) :=
  Elapsed (fun passed => if passed then Ret None else p).

Fixpoint timeout_at {A} (p : prog A) : prog (option A) :=
  match p with
  | Ret a => Ret (Some a)
  | Call call k => Call call (fun x => until (timeout_at (k x)))
  | Clock k => Clock (fun x => until (timeout_at (k x)))
  | Elapsed k => Elapsed (fun x => until (timeout_at (k x)))
  | Probe q k => Probe q (fun x => until (timeout_at (k x)))
  | Sequence k => Sequence (fun x => until (timeout_at (k x)))
  | Request r k => Request r (fun x => until (timeout_at (k x)))
  | Spawn key after_cursor k => Spawn key after_cursor (until (timeout_at k))
  | Emit o k => Emit o (until (timeout_at k))
  end.
