(* ===== verification/A2AGateway.v ===== *)
(** * The application core of [Konclave.A2AGateway]

    [projection.rs] (how a stored task becomes a response), [artifact_publication.rs] and
    [application.rs] (the operations offered to HTTP handlers).  An operation is a program
    of [A2AEffects]; [tokio::task::spawn_blocking] is the call it runs, and the deadline
    of an operation is the effect [Elapsed].  The submitter is a parameter: [A2ABridge]
    provides it. *)

From S2P Require Import Prelude TextModel Identifiers A2AContracts A2ATaskModel A2AStore A2AArtifacts A2AResponses A2AEffects.
Open Scope Z_scope.

(** ** Projection *)

Definition map_projection_error (e : A2AContractError) : A2AGatewayError :=
  match e with
  | A2AEncodedMessageTooLarge _ _ => GatewayResponseTooLarge
  | _ => GatewayInvalidTaskProjection
  end.

Definition timestamp (unix_milliseconds : Z) : result A2AGatewayError PbTimestamp :=
  let seconds := unix_milliseconds / 1000 in
  fail_if (I64_MAX <? seconds) GatewayInvalidTaskProjection;;
  let nanos := unix_milliseconds mod 1000 * 1000000 in
  fail_if (2147483647 <? nanos) GatewayInvalidTaskProjection;;
  Ok (mk_PbTimestamp seconds nanos).

Definition response_state (s : A2ATaskState) : bool :=
  match s with
  | Completed | Failed | Canceled | InputRequired | Rejected | AuthRequired => true
  | Submitted | Working => false
  end.

Definition terminal_reason_metadata (reason : option A2ATerminalReason) : option PbStruct :=
  (fun r => {[INITIAL_TASK_TERMINAL_REASON_FIELD := PbString (reason_str r)]}) <$> reason.

Definition project_message (message : StoredA2ATaskMessage) (task_id context_id : text) : WireMessage :=
  mk_WireMessage (as_str (stored_message_id message)) context_id task_id
    (match stored_message_role message with User => ROLE_USER | Agent => ROLE_AGENT end)
    [mk_WirePart (Some (PartText (stored_message_text message))) None [] A2A_TEXT_MEDIA_TYPE]
    None [] [].

(** [iter().rev().find(|message| message.role() == Agent)]. *)
Definition last_agent (messages : list StoredA2ATaskMessage) : option StoredA2ATaskMessage :=
  find (fun m => bool_decide (stored_message_role m = Agent)) (reverse messages).

Section projection.
Context `{ReferenceCodec} `{ArtifactJson} `{ResponseCodec}.

Definition project_artifacts (artifacts : list StoredA2ATaskArtifact)
    : result A2AGatewayError (list WireArtifact) :=
  fail_if (MAX_A2A_ARTIFACTS_PER_TASK <? len artifacts) GatewayInvalidTaskProjection;;
  traverse (fun artifact =>
    fail_if (negb (stored_artifact_complete artifact)) GatewayInvalidTaskProjection;;
    artifact ← map_err map_projection_error
                 (decode_initial_artifact_json (stored_artifact_canonical_bytes artifact));
    Ok (artifact_wire artifact)) artifacts.

Definition project_task (record : A2ATaskRecord) (messages : list StoredA2ATaskMessage)
    (artifacts : list StoredA2ATaskArtifact) (history_length : option (option Z))
    (include_status_message : bool) : result A2AGatewayError WireTask :=
  let has_artifacts := negb (len artifacts =? 0) in
  let task_id := as_str (task_id (record_key record)) in
  let context_id := as_str (record_context_id record) in
  let wire_messages := (fun m => project_message m task_id context_id) <$> messages in
  let agent_message := (fun m => project_message m task_id context_id) <$> last_agent messages in
  fail_if (is_some history_length && bool_decide (record_state record = Completed)
           && negb (record_content_pruned record) && is_none agent_message && negb has_artifacts)
    GatewayInvalidTaskProjection;;
  let status_message :=
    if include_status_message && response_state (record_state record) then agent_message else None in
  let history :=
    match history_length with
    | Some history_length =>
        let requested_history := default 1 history_length in
        if requested_history =? 0 then []
        else reverse (take (Z.to_nat (Z.min requested_history 1)) (reverse wire_messages))
    | None => []
    end in
  artifacts ← project_artifacts artifacts;
  t ← timestamp (record_updated_at record);
  Ok (mk_WireTask task_id context_id
        (Some (mk_WireTaskStatus (A2ATaskState_to_wire (record_state record)) status_message (Some t)))
        artifacts history (terminal_reason_metadata (record_terminal_reason record))).

Definition project_get_task (record : A2ATaskRecord) (messages : list StoredA2ATaskMessage)
    (artifacts : list StoredA2ATaskArtifact) (history_length : option Z)
    : result A2AGatewayError InitialA2ATaskResponse :=
  task ← project_task record messages artifacts (Some history_length) true;
  map_err map_projection_error (validate_initial_task task).

Definition project_list_tasks (records : list (A2ATaskRecord * list StoredA2ATaskArtifact))
    (next_page_token : option text) (page_size total_size : Z)
    : result A2AGatewayError InitialA2ATaskListResponse :=
  tasks ← traverse (fun '(record, artifacts) => project_task record [] artifacts None false) records;
  fail_if (2147483647 <? page_size) GatewayInvalidTaskProjection;;
  fail_if (2147483647 <? total_size) GatewayInvalidTaskProjection;;
  response ← map_err map_projection_error
               (validate_initial_list_tasks_response
                  (mk_WireListTasksResponse tasks (default [] next_page_token) page_size total_size));
  map_err map_projection_error (list_deterministic_json response);;
  Ok response.

Definition project_stream_task (record : A2ATaskRecord) (messages : list StoredA2ATaskMessage)
    (artifacts : list StoredA2ATaskArtifact) (history_length : option Z)
    : result A2AGatewayError InitialA2AStreamResponse :=
  task ← project_task record messages artifacts (Some history_length) true;
  map_err map_projection_error (validate_initial_stream_response (Some (StreamPayloadTask task))).

Definition project_status_update (task_id context_id : text) (status : StoredA2ATaskStatus)
    (messages : list StoredA2ATaskMessage) (completion_has_artifact : bool)
    : result A2AGatewayError InitialA2AStreamResponse :=
  let status_message :=
    if response_state (status_state status)
    then (fun m => project_message m task_id context_id) <$> last_agent messages else None in
  fail_if (bool_decide (status_state status = Completed) && is_none status_message
           && negb completion_has_artifact) GatewayInvalidTaskProjection;;
  t ← timestamp (status_occurred_at status);
  map_err map_projection_error
    (validate_initial_stream_response
       (Some (StreamPayloadStatus
                (mk_WireStatusUpdate task_id context_id
                   (Some (mk_WireTaskStatus (A2ATaskState_to_wire (status_state status)) status_message
                            (Some t)))
                   (terminal_reason_metadata (status_terminal_reason status)))))).

Definition project_artifact_update (task_id context_id : text) (artifact : StoredA2ATaskArtifact)
    : result A2AGatewayError InitialA2AStreamResponse :=
  let complete := stored_artifact_complete artifact in
  artifact ← map_err (fun _ => GatewayInvalidTaskProjection)
               (decode_initial_artifact_json (stored_artifact_canonical_bytes artifact));
  map_err map_projection_error
    (validate_initial_stream_response
       (Some (StreamPayloadArtifact
                (mk_WireArtifactUpdate task_id context_id (Some (artifact_wire artifact)) false complete
                   None)))).

End projection.

(** ** Page tokens *)

Definition PAGE_TOKEN_PREFIX : text := lit "v1".
Definition is_dot (b : byte) : bool := bool_decide (b = "."%byte).

Definition encode_page_token (cursor : A2ATaskListCursor) : text :=
  PAGE_TOKEN_PREFIX ++ lit "." ++ format_u64 (cursor_created_at cursor) ++ lit "."
    ++ as_str (cursor_task_id cursor).

Definition decode_page_token (value : option text)
    : result A2AGatewayError (option A2ATaskListCursor) :=
  match value with
  | None => Ok None
  | Some value =>
      match split_at is_dot value with
      | prefix :: segments =>
          fail_if (bool_decide (prefix ≠ PAGE_TOKEN_PREFIX)) GatewayInvalidRequest;;
          match segments with
          | [created_at; id] =>
              created_at ← ok_or (parse_u64 created_at) GatewayInvalidRequest;
              id ← map_err (fun _ => GatewayInvalidRequest) (A2AId_parse KTask id);
              Ok (Some (A2ATaskListCursor_new created_at id))
          | _ => Err GatewayInvalidRequest
          end
      | [] => Err GatewayInvalidRequest
      end
  end.

Definition map_store_error (e : A2ATaskStoreError) : A2AGatewayError :=
  match e with
  | InvalidConfiguration => GatewayInvalidConfiguration
  | InvalidTransition => GatewayInvalidTaskProjection
  | NotFound => GatewayTaskNotFound
  | Conflict => GatewayConflict
  | CapacityExceeded => GatewayCapacityExceeded
  | CorruptData => GatewayInvalidTaskProjection
  | Storage => GatewayStorageUnavailable
  end.

(** ** The application *)

Definition MAX_RESPONSE_WAIT : Z := 5 * 60 * 1000000000.
Definition MAX_RESPONSE_POLL : Z := 1000000000.

(** Durations are in nanoseconds. *)
Record A2AGatewayWaitConfig := mk_A2AGatewayWaitConfig { wait_timeout : Z; wait_poll_interval : Z }.

Definition A2AGatewayWaitConfig_new (timeout poll_interval : Z)
    : result A2AGatewayError A2AGatewayWaitConfig :=
  fail_if ((timeout =? 0) || (MAX_RESPONSE_WAIT <? timeout) || (poll_interval =? 0)
           || (MAX_RESPONSE_POLL <? poll_interval) || (timeout <? poll_interval))
    GatewayInvalidConfiguration;;
  Ok (mk_A2AGatewayWaitConfig timeout poll_interval).

Record A2ATaskSubmission := mk_A2ATaskSubmission {
  submission_key : A2ATaskKey;
  submission_source_message_id : A2AMessageId;
  submission_conversation_id : ConversationId;
  submission_target_device_id : DeviceId;
  submission_request_message_id : MessageId;
  submission_text : text }.

Definition submission_from_record (record : A2ATaskRecord) : result A2AGatewayError A2ATaskSubmission :=
  text ← ok_or (record_request_text record) GatewayInvalidTaskProjection;
  Ok (mk_A2ATaskSubmission (record_key record) (record_source_message_id record)
        (record_conversation_id record) (record_target_device_id record)
        (record_request_message_id record) text).

Inductive A2ATaskSubmissionError := SubmissionFailed.

(** The trait [A2ATaskSubmitter]. *)
Class A2ATaskSubmitter := submit : A2ATaskSubmission -> progR A2ATaskSubmissionError unit.

Record PreparedTask := mk_PreparedTask {
  prepared_key : A2ATaskKey;
  prepared_history_length : option Z }.

Record TaskStreamState := mk_TaskStreamState {
  stream_state_key : A2ATaskKey;
  stream_state_task_id : text;
  stream_state_context_id : text;
  stream_state_generation : Z;
  stream_state_artifact_sequence : Z;
  stream_state_has_complete_artifact : bool;
  stream_state_finished : bool;
  stream_state_pending : list InitialA2AStreamResponse }.

Definition outcome_record (o : CreateA2ATaskOutcome) : A2ATaskRecord :=
  match o with TaskCreated r | TaskExisting r => r end.

Section gateway.
Context `{Sha256} `{ReferenceCodec} `{ArtifactJson} `{ResponseCodec} `{A2ATaskSubmitter}.
Context (route : A2AAgentRoute) (wait : A2AGatewayWaitConfig).

(** Polls that fit before the deadline, each after [poll_interval], and one more. *)
Definition max_polls : nat := Z.to_nat (wait_timeout wait / wait_poll_interval wait + 2).

Definition prune_visible_tasks : progR A2AGatewayError unit :=
  now ←? clock_now GatewayClockUnavailable;
  _ ←? store map_store_error (PruneTasks now);
  Ret (Ok tt).

Definition project_current (key : A2ATaskKey) (history_length : option Z)
    : progR A2AGatewayError InitialA2ATaskResponse :=
  snapshot ←? store map_store_error (TaskSnapshot key 2 (MAX_A2A_ARTIFACTS_PER_TASK + 1));
  if record_content_pruned (snapshot_task snapshot) then Ret (Err GatewayTaskNotFound)
  else Ret (project_get_task (snapshot_task snapshot) (snapshot_messages snapshot)
              (snapshot_artifacts snapshot) history_length).

Definition prepare_task (request : InitialSendMessageRequest) (streaming : bool)
    : progR A2AGatewayError PreparedTask :=
  mapping ←? lift (map_err (fun _ => GatewayRouteMismatch)
                     (if streaming then map_initial_streaming_message route request
                      else map_initial_send_message route request));
  created_at ←? clock_now GatewayClockUnavailable;
  outcome ←? store map_store_error (CreateTask (A2ATaskCreation_from_mapping mapping created_at));
  let record := outcome_record outcome in
  let prepared := mk_PreparedTask (record_key record) (initial_history_length request) in
  if match record_state record with Submitted | Working => true | _ => false end then
    submission ←? lift (submission_from_record record);
    submitted ← timeout_at (submit submission);
    match submitted with
    | None => Ret (Err GatewayResponseWaitExpired)
    | Some (Err _) => Ret (Err GatewaySubmissionUnavailable)
    | Some (Ok _) => Ret (Ok prepared)
    end
  else Ret (Ok prepared).

(** [response_ready] is [response_state] on the wire enumeration. *)
Fixpoint wait_response (polls : nat) (prepared : PreparedTask)
    : progR A2AGatewayError InitialA2ATaskResponse :=
  match polls with
  | O => Ret (Err GatewayResponseWaitExpired)
  | S polls =>
      task ←? project_current (prepared_key prepared) (prepared_history_length prepared);
      if response_state (response_task_state task) then Ret (Ok task)
      else wait_response polls prepared
  end.

Definition or_expired {A} (r : option (result A2AGatewayError A)) : result A2AGatewayError A :=
  match r with Some r => r | None => Err GatewayResponseWaitExpired end.

Definition send_message (request : InitialSendMessageRequest)
    : progR A2AGatewayError InitialA2ATaskResponse :=
  prepared ←? prepare_task request false;
  r ← timeout_at (if initial_return_immediately request
                  then project_current (prepared_key prepared) (prepared_history_length prepared)
                  else wait_response max_polls prepared);
  Ret (or_expired r).

Definition route_key (id : A2ATaskId) : A2ATaskKey :=
  A2ATaskKey_new (route_agent_id route) (route_tenant route) id.

Definition lookup_key (lookup : A2ATaskLookup) : A2ATaskKey :=
  A2ATaskKey_new (lookup_agent_id lookup) (lookup_tenant lookup) (lookup_task_id lookup).

Definition gateway_get_task (request : InitialGetTaskRequest)
    : progR A2AGatewayError InitialA2ATaskResponse :=
  _ ←? prune_visible_tasks;
  lookup ←? lift (map_err (fun _ => GatewayRouteMismatch) (map_initial_get_task route request));
  project_current (lookup_key lookup) (lookup_history_length lookup).

Definition gateway_list_tasks (request : InitialListTasksRequest)
    : progR A2AGatewayError InitialA2ATaskListResponse :=
  _ ←? prune_visible_tasks;
  lookup ←? lift (map_err (fun _ => GatewayRouteMismatch) (map_initial_list_tasks route request));
  cursor ←? lift (decode_page_token (list_lookup_page_token lookup));
  query ←? lift (map_err (fun _ => GatewayInvalidRequest)
                   (A2ATaskListQuery_new (list_lookup_agent_id lookup) (list_lookup_tenant lookup)
                      (list_lookup_context_id lookup) (list_lookup_page_size lookup) cursor));
  if list_lookup_include_artifacts lookup then
    page ←? store map_store_error (ListTasksWithArtifacts query (MAX_A2A_ARTIFACTS_PER_TASK + 1));
    Ret (project_list_tasks
           ((fun t => (with_artifacts_task t, with_artifacts_artifacts t)) <$> artifact_page_tasks page)
           (encode_page_token <$> artifact_page_next_cursor page)
           (artifact_page_page_size page) (artifact_page_total_size page))
  else
    page ←? store map_store_error (ListTasks query);
    Ret (project_list_tasks ((fun t => (t, [])) <$> page_tasks page)
           (encode_page_token <$> page_next_cursor page) (page_page_size page) (page_total_size page)).

(** ** Streams *)

Definition stream_snapshot (key : A2ATaskKey) (history_length : option Z)
    : progR A2AGatewayError (InitialA2AStreamResponse * Z * Z) :=
  snapshot ←? store map_store_error (TaskSnapshot key 2 (MAX_A2A_ARTIFACTS_PER_TASK + 1));
  let record := snapshot_task snapshot in
  if record_content_pruned record then Ret (Err GatewayTaskNotFound)
  else
    let artifact_sequence := default 0 (stored_artifact_sequence <$> last (snapshot_artifacts snapshot)) in
    event ←? lift (project_stream_task record (snapshot_messages snapshot) (snapshot_artifacts snapshot)
                     history_length);
    Ret (Ok (event, record_generation record, artifact_sequence)).

Definition poll_updates (key : A2ATaskKey) (after_generation after_artifact_sequence : Z)
    : progR A2AGatewayError A2ATaskStreamUpdates :=
  updates ←? store map_store_error
               (StreamUpdates key after_generation after_artifact_sequence 2 (MAX_A2A_ARTIFACTS_PER_TASK + 1));
  if record_content_pruned (updates_task updates) then Ret (Err GatewayTaskNotFound)
  else Ret (Ok updates).

Definition push_pending (st : TaskStreamState) (generation artifact_sequence : Z)
    (has_complete_artifact finished : bool) (event : InitialA2AStreamResponse) : TaskStreamState :=
  mk_TaskStreamState (stream_state_key st) (stream_state_task_id st) (stream_state_context_id st)
    generation artifact_sequence has_complete_artifact finished (stream_state_pending st ++ [event]).

(** The two loops of the stream over one batch of updates. *)
Fixpoint absorb_artifacts (st : TaskStreamState) (artifacts : list StoredA2ATaskArtifact)
    : result A2AGatewayError TaskStreamState :=
  match artifacts with
  | [] => Ok st
  | artifact :: rest =>
      fail_if (MAX_A2A_ARTIFACTS_PER_TASK <=? stream_state_artifact_sequence st) GatewayResponseTooLarge;;
      event ← project_artifact_update (stream_state_task_id st) (stream_state_context_id st) artifact;
      absorb_artifacts (push_pending st (stream_state_generation st) (stored_artifact_sequence artifact) true
                          (stream_state_finished st) event) rest
  end.

Fixpoint absorb_statuses (st : TaskStreamState) (messages : list StoredA2ATaskMessage)
    (statuses : list StoredA2ATaskStatus) : result A2AGatewayError TaskStreamState :=
  match statuses with
  | [] => Ok st
  | update :: rest =>
      event ← project_status_update (stream_state_task_id st) (stream_state_context_id st) update messages
                (stream_state_has_complete_artifact st);
      absorb_statuses
        (push_pending st (status_generation update) (stream_state_artifact_sequence st)
           (stream_state_has_complete_artifact st)
           (stream_state_finished st || is_some_and (stream_task_state event) response_state) event)
        messages rest
  end.

Definition absorb_updates (st : TaskStreamState) (updates : A2ATaskStreamUpdates)
    : result A2AGatewayError TaskStreamState :=
  st ← absorb_artifacts st (updates_artifacts updates);
  absorb_statuses st (updates_messages updates) (updates_statuses updates).

Fixpoint emit_events (events : list InitialA2AStreamResponse) (k : prog unit) : prog unit :=
  match events with [] => k | event :: rest => Emit (OutEvent event) (emit_events rest k) end.

Definition drained (st : TaskStreamState) : TaskStreamState :=
  mk_TaskStreamState (stream_state_key st) (stream_state_task_id st) (stream_state_context_id st)
    (stream_state_generation st) (stream_state_artifact_sequence st)
    (stream_state_has_complete_artifact st) (stream_state_finished st) [].

(** [try_unfold]: the pending events, then a poll, until the stream is finished, its
    deadline has passed or it fails. *)
Fixpoint stream_loop (polls : nat) (st : TaskStreamState) : prog unit :=
  emit_events (stream_state_pending st)
    (if stream_state_finished st then Ret tt
     else
       match polls with
       | O => Ret tt
       | S polls =>
           Elapsed (fun passed => if passed then Ret tt else
           Elapsed (fun passed => if passed then Ret tt else
           prog_bind (poll_updates (stream_state_key st) (stream_state_generation st)
                        (stream_state_artifact_sequence st)) (fun r =>
           match r ≫= absorb_updates (drained st) with
           | Err e => Emit (OutError e) (Ret tt)
           | Ok st => stream_loop polls st
           end)))
       end).

Definition stream_has_artifacts (event : InitialA2AStreamResponse) : bool :=
  match stream_wire event with
  | Some (StreamPayloadTask task) => negb (len (wire_task_artifacts task) =? 0)
  | _ => false
  end.

Definition stream_start (key : A2ATaskKey) (initial : InitialA2AStreamResponse)
    (generation artifact_sequence : Z) : TaskStreamState :=
  mk_TaskStreamState key (stream_task_id initial) (stream_context_id initial) generation
    artifact_sequence (stream_has_artifacts initial)
    (is_some_and (stream_task_state initial) response_state) [initial].

Definition stream_task (key : A2ATaskKey) (history_length : option Z) (reject_terminal : bool)
    : progR A2AGatewayError TaskStreamState :=
  '(initial, generation, artifact_sequence) ←? stream_snapshot key history_length;
  if reject_terminal && is_some_and (stream_task_state initial) a2a_task_state_is_terminal
  then Ret (Err GatewayUnsupportedOperation)
  else Ret (Ok (stream_start key initial generation artifact_sequence)).

Definition send_streaming_message (request : InitialSendMessageRequest)
    : progR A2AGatewayError TaskStreamState :=
  prepared ←? prepare_task request true;
  stream_task (prepared_key prepared) (prepared_history_length prepared) false.

Definition subscribe_to_task (request : InitialSubscribeToTaskRequest)
    : progR A2AGatewayError TaskStreamState :=
  _ ←? prune_visible_tasks;
  lookup ←? lift (map_err (fun _ => GatewayRouteMismatch) (map_initial_subscribe_to_task route request));
  stream_task (lookup_key lookup) (Some 1) true.

(** ** Publishing artifacts *)

Definition publish (id : A2ATaskId) (artifact : InitialA2AArtifact) : progR A2AGatewayError unit :=
  let key := route_key id in
  artifact_id ←? lift (map_err (fun _ => GatewayInvalidRequest)
                         (A2AId_parse KArtifact (wire_artifact_id (artifact_wire artifact))));
  task ←? store map_store_error (GetTask key);
  if bool_decide (record_context_id task ≠ route_context_id route)
     || bool_decide (record_conversation_id task ≠ route_conversation_id route)
     || bool_decide (record_target_device_id task ≠ route_target_device_id route)
  then Ret (Err GatewayTaskNotFound)
  else
    recorded_at ←? clock_now GatewayClockUnavailable;
    artifact ←? lift (map_err map_store_error
                        (A2ATaskArtifact_new key artifact_id (artifact_canonical_json artifact) true
                           recorded_at));
    _ ←? store map_store_error (AppendWorkingArtifact artifact recorded_at MAX_A2A_ARTIFACTS_PER_TASK);
    Ret (Ok tt).

Definition publish_json (id : text) (artifact_json : bytes) : progR A2AGatewayError unit :=
  id ←? lift (map_err (fun _ => GatewayInvalidRequest) (A2AId_parse KTask id));
  artifact ←? lift (map_err (fun _ => GatewayInvalidRequest) (decode_initial_artifact_json artifact_json));
  publish id artifact.

End gateway.
