(* ===== verification/A2ABridge.v ===== *)
(** * The bridge of [Konclave.A2AKonclaveBridge]

    [lib.rs]: a submitted task becomes one directed request to the local Konclave service;
    an observer then reads the conversation until the exact response arrives and completes
    the task with it.  Requests to the local service and calls of the task store are
    effects; [serde] code is the class [BridgeJson].  The shutdown flag, the observer table,
    the semaphore and the submission locks only decide whether work is started: their
    answers are arbitrary here. *)

From S2P Require Import Prelude TextModel BoundedDocuments Identifiers A2AContracts A2ATaskModel A2AStore A2AArtifacts A2AResponses A2AEffects A2AGateway.
Open Scope Z_scope.

Definition SEND_DIRECTED_REQUEST_OPERATION : text := lit "send_directed_request".
Definition READ_MESSAGES_OPERATION : text := lit "read_messages".
Definition SYNC_MESSAGES_OPERATION : text := lit "sync_messages".
Definition WATCH_MESSAGES_OPERATION : text := lit "watch_messages".
Definition OBSERVATION_REQUEST_DOMAIN : bytes := lit "konclave-a2a-observation-request-v1" ++ [x00].
Definition MAX_HISTORY_PAGE : Z := 100.
Definition MAX_CONCURRENT_OBSERVERS : Z := 1024.
Definition MAX_OBSERVATION_TIMEOUT : Z := 24 * 60 * 60 * 1000000000.
Definition MAX_RETRY_DELAY : Z := 5 * 1000000000.
Definition MAX_RPC_PAYLOAD_BYTES : Z := 1048576.
Definition RESPONSE_OUT_OF_BOUNDS_REASON : text := lit "konclave_response_out_of_bounds".
Definition REQUEST_REJECTED_REASON : text := lit "konclave_request_rejected".

Inductive A2AKonclaveBridgeError :=
| BridgeInvalidConfiguration
| BridgeLocalServiceUnavailable
| BridgeRequestIdentityUnavailable
| BridgeRequestRejected
| BridgeInvalidLocalResponse
| BridgeTaskStateUnavailable
| BridgeShutdownDeadlineExceeded.

(** Durations are in nanoseconds. *)
Record A2AKonclaveBridgeConfig := mk_A2AKonclaveBridgeConfig {
  observation_timeout : Z;
  retry_delay : Z;
  history_page_size : Z;
  max_concurrent_observers : Z }.

Definition A2AKonclaveBridgeConfig_new (observation_timeout retry_delay history_page_size
    max_concurrent_observers : Z) : result A2AKonclaveBridgeError A2AKonclaveBridgeConfig :=
  fail_if ((observation_timeout =? 0) || (MAX_OBSERVATION_TIMEOUT <? observation_timeout)
           || (retry_delay =? 0) || (MAX_RETRY_DELAY <? retry_delay)
           || (observation_timeout <? retry_delay)
           || (history_page_size =? 0) || (MAX_HISTORY_PAGE <? history_page_size)
           || (max_concurrent_observers =? 0) || (MAX_CONCURRENT_OBSERVERS <? max_concurrent_observers))
    BridgeInvalidConfiguration;;
  Ok (mk_A2AKonclaveBridgeConfig observation_timeout retry_delay history_page_size
        max_concurrent_observers).

(** ** Messages of the local service *)

Record SendDirectedRequest := mk_SendDirectedRequest {
  directed_conversation_id : text;
  directed_message_id : text;
  directed_target_device_id : text;
  directed_text : text }.

Record SentMessage := mk_SentMessage {
  sent_conversation_id : text;
  sent_message_id : text;
  sent_sender_counter : Z;
  sent_cursor : Z }.

Record ReadMessages := mk_ReadMessages {
  read_conversation_id : text; read_after_cursor : Z; read_limit : Z }.

Record ObservedMessage := mk_ObservedMessage {
  observed_conversation_id : text;
  observed_message_id : text;
  observed_envelope_id : text;
  observed_sender_device_id : text;
  observed_epoch : Z;
  observed_sender_counter : Z;
  observed_sent_at : Z;
  observed_reply_to_message_id : option text;
  observed_cursor : Z;
  observed_direction : text;
  observed_content_type : text;
  observed_text : option text;
  observed_target_device_id : option text;
  observed_proposal_id : option text;
  observed_policy_digest : option text;
  observed_replaces_policy_digest : option text;
  observed_outcome : option text;
  observed_duplicate : bool }.

Record MessagePage := mk_MessagePage {
  page_messages : list ObservedMessage;
  page_has_more : bool }.

(** [serde_json::to_vec] of the requests and the derived deserializers. *)
Class BridgeJson := {
  encode_send_directed : SendDirectedRequest -> option bytes;
  encode_read_messages : ReadMessages -> option bytes;
  encode_conversation_operation : text -> option bytes;
  sent_from_slice : bytes -> option SentMessage;
  page_from_slice : bytes -> option MessagePage }.

(** [BoundedVec<ObservedMessage, MAX_HISTORY_PAGE>]. *)
Definition bounded_page `{BridgeJson} (encoded : bytes) : option MessagePage :=
  page ← page_from_slice encoded;
  if MAX_HISTORY_PAGE <? len (page_messages page) then None else Some page.

Definition message_text_or_empty (m : ObservedMessage) : text := default [] (observed_text m).

(** [decode_lowercase_hex::<N>(value).is_some()]. *)
Definition decode_lowercase_hex (n : Z) (value : text) : option bytes :=
  if negb (len value =? n * 2) || negb (forallb is_lower_hex value) then None else decode_pairs value.

Definition valid_shape (m : ObservedMessage) : bool :=
  is_some (decode_lowercase_hex 32 (observed_conversation_id m))
  && is_some (decode_lowercase_hex 16 (observed_message_id m))
  && is_some (decode_lowercase_hex 16 (observed_envelope_id m))
  && is_some (decode_lowercase_hex 32 (observed_sender_device_id m))
  && is_none_or (observed_reply_to_message_id m) (fun value => is_some (decode_lowercase_hex 16 value))
  && (bool_decide (observed_direction m = lit "inbound") || bool_decide (observed_direction m = lit "outbound"))
  && (if bool_decide (observed_content_type m = lit "text")
      then is_some_and (observed_text m) (fun value => negb (len value =? 0))
           && is_none (observed_target_device_id m) && is_none (observed_proposal_id m)
           && is_none (observed_policy_digest m) && is_none (observed_replaces_policy_digest m)
           && is_none (observed_outcome m)
      else true).

Record ExpectedResponse := mk_ExpectedResponse {
  expected_conversation_id : text;
  expected_sender_device_id : text;
  expected_reply_to_message_id : text }.

Definition is_exact_response (expected : ExpectedResponse) (m : ObservedMessage) : bool :=
  bool_decide (observed_conversation_id m = expected_conversation_id expected)
  && bool_decide (observed_sender_device_id m = expected_sender_device_id expected)
  && bool_decide (observed_direction m = lit "inbound")
  && bool_decide (observed_content_type m = lit "text")
  && bool_decide (observed_reply_to_message_id m = Some (expected_reply_to_message_id expected)).

Definition exact_response (expected : ExpectedResponse) (messages : list ObservedMessage)
    : option ObservedMessage :=
  find (is_exact_response expected) messages.

Definition maximum_cursor (initial : Z) (messages : list ObservedMessage) : Z :=
  foldl (fun a m => Z.max a (observed_cursor m)) initial messages.

Definition expected_response (record : A2ATaskRecord) : ExpectedResponse :=
  mk_ExpectedResponse (hex_encode (as_bytes (record_conversation_id record)))
    (hex_encode (as_bytes (record_target_device_id record)))
    (hex_encode (as_bytes (record_request_message_id record))).

(** ** Task states *)

(** [is_terminal] of the bridge. *)
Definition bridge_terminal (s : A2ATaskState) : bool := response_state s.

Inductive TaskTransitionResult := TargetState | DifferentState.

Global Instance TaskTransitionResult_eq_dec : EqDecision TaskTransitionResult.
Proof. solve_decision. Defined.

Definition map_local_error (e : A2AKonclaveLocalServiceError) : A2AKonclaveBridgeError :=
  match e with
  | LocalUnavailable => BridgeLocalServiceUnavailable
  | LocalRequestRejected => BridgeRequestRejected
  | LocalInvalidResponse => BridgeInvalidLocalResponse
  end.

Definition bridge_store_error (e : A2ATaskStoreError) : A2AKonclaveBridgeError :=
  BridgeTaskStateUnavailable.

Definition transition_record (o : TransitionA2ATaskOutcome) : A2ATaskRecord :=
  match o with TransitionApplied r | TransitionExisting r => r end.

(** The loop of [transition_task], with the tries left. *)
Fixpoint transition_tries (tries : nat) (key : A2ATaskKey) (state : A2ATaskState)
    (reason : option A2ATerminalReason) (allowed_sources : list A2ATaskState)
    : progR A2AKonclaveBridgeError TaskTransitionResult :=
  match tries with
  | O => Ret (Err BridgeTaskStateUnavailable)
  | S tries =>
      record ←? store bridge_store_error (GetTask key);
      if bool_decide (record_state record = state) then Ret (Ok TargetState)
      else if bridge_terminal (record_state record)
              || negb (bool_decide (record_state record ∈ allowed_sources))
      then Ret (Ok DifferentState)
      else
        now ←? clock_now BridgeTaskStateUnavailable;
        Call (TransitionTask (A2ATaskTransition_new key (record_generation record) state reason now))
          (fun r =>
             match r with
             | Ok outcome =>
                 Ret (Ok (if bool_decide (record_state (transition_record outcome) = state)
                          then TargetState else DifferentState))
             | Err Conflict => transition_tries tries key state reason allowed_sources
             | Err e => Ret (Err (bridge_store_error e))
             end)
  end.

Definition bridge_transition_task (key : A2ATaskKey) (state : A2ATaskState)
    (reason : option A2ATerminalReason) (allowed_sources : list A2ATaskState)
    : progR A2AKonclaveBridgeError TaskTransitionResult :=
  transition_tries 2 key state reason allowed_sources.

Definition reached (r : TaskTransitionResult) : result A2AKonclaveBridgeError unit :=
  match r with TargetState => Ok tt | DifferentState => Err BridgeTaskStateUnavailable end.

Definition complete (key : A2ATaskKey) (response : ObservedMessage)
    : progR A2AKonclaveBridgeError unit :=
  if MAX_A2A_TEXT_BYTES <? len (message_text_or_empty response) then
    reason ←? lift (map_err bridge_store_error (A2ATerminalReason_parse RESPONSE_OUT_OF_BOUNDS_REASON));
    outcome ←? bridge_transition_task key Failed (Some reason) [Submitted; Working];
    lift (reached outcome)
  else
    message_id ←? lift (map_err (fun _ => BridgeInvalidLocalResponse)
                          (A2AId_parse KMessage (observed_message_id response)));
    now ←? clock_now BridgeTaskStateUnavailable;
    message ←? lift (map_err bridge_store_error
                       (A2ATaskMessage_new key message_id Agent (message_text_or_empty response) now));
    _ ←? store bridge_store_error (AppendMessage message now);
    outcome ←? bridge_transition_task key Completed None [Submitted; Working];
    lift (reached outcome).

Section bridge.
Context `{Sha256} `{ArtifactJson} `{BridgeJson} (config : A2AKonclaveBridgeConfig) (nonce : bytes).

(** ** Requests to the local service *)

Definition observation_preimage (sequence : Z) (key : A2ATaskKey) (operation : text) : bytes :=
  OBSERVATION_REQUEST_DOMAIN ++ nonce ++ be_bytes 8 sequence ++ as_str (task_id key) ++ operation.

(** [ObservationRequestIds::next]. *)
Definition next_request_id (key : A2ATaskKey) (operation : text) : progR A2AKonclaveBridgeError bytes :=
  Sequence (fun sequence =>
    Ret (sequence ← ok_or sequence BridgeLocalServiceUnavailable;
         Ok (take 16 (sha256 (observation_preimage sequence key operation))))).

Definition local_request (r : LocalRequest) : progR A2AKonclaveBridgeError bytes :=
  Request r (fun answer => Ret (map_err map_local_error answer)).

Definition request_page (key : A2ATaskKey) (operation : text) (payload : bytes)
    : progR A2AKonclaveBridgeError MessagePage :=
  request_id ←? next_request_id key operation;
  response ←? local_request (mk_LocalRequest request_id operation payload);
  page ←? lift (map_err (fun _ => BridgeInvalidLocalResponse)
                  (deserialize_strict parse_json bounded_page response MAX_RPC_PAYLOAD_BYTES));
  if (history_page_size config <? len (page_messages page))
     || existsb (fun m => negb (valid_shape m)) (page_messages page)
  then Ret (Err BridgeInvalidLocalResponse)
  else Ret (Ok page).

Definition read_messages (key : A2ATaskKey) (conversation_id : text) (after_cursor : Z)
    : progR A2AKonclaveBridgeError MessagePage :=
  payload ←? lift (ok_or (encode_read_messages
                            (mk_ReadMessages conversation_id after_cursor (history_page_size config)))
                     BridgeInvalidConfiguration);
  request_page key READ_MESSAGES_OPERATION payload.

Definition conversation_operation (key : A2ATaskKey) (conversation_id operation : text)
    : progR A2AKonclaveBridgeError MessagePage :=
  payload ←? lift (ok_or (encode_conversation_operation conversation_id) BridgeInvalidConfiguration);
  request_page key operation payload.

Definition send_directed_request (submission : A2ATaskSubmission)
    : progR A2AKonclaveBridgeError SentMessage :=
  let expected_conversation := hex_encode (as_bytes (submission_conversation_id submission)) in
  let expected_message := hex_encode (as_bytes (submission_request_message_id submission)) in
  payload ←? lift (ok_or (encode_send_directed
                            (mk_SendDirectedRequest expected_conversation expected_message
                               (hex_encode (as_bytes (submission_target_device_id submission)))
                               (submission_text submission)))
                     BridgeInvalidConfiguration);
  response ←? local_request
                (mk_LocalRequest (as_bytes (submission_request_message_id submission))
                   SEND_DIRECTED_REQUEST_OPERATION payload);
  sent ←? lift (map_err (fun _ => BridgeInvalidLocalResponse)
                  (deserialize_strict parse_json sent_from_slice response MAX_RPC_PAYLOAD_BYTES));
  if bool_decide (sent_conversation_id sent ≠ expected_conversation)
     || bool_decide (sent_message_id sent ≠ expected_message)
  then Ret (Err BridgeInvalidLocalResponse)
  else Ret (Ok sent).

(** ** Observing *)

(** What follows a page: [Some] when the loop goes on, with the cursor to go on from and
    whether it restarts from the history. *)
Definition observe_page (key : A2ATaskKey) (expected : ExpectedResponse) (after_cursor : Z)
    (page : MessagePage) : prog (option (Z * bool)) :=
  match exact_response expected (page_messages page) with
  | Some response =>
      completed ← complete key response;
      Ret (if is_ok completed then None else Some (after_cursor, true))
  | None => Ret (Some (maximum_cursor after_cursor (page_messages page), page_has_more page))
  end.

(** One operation of the loop: an error goes back to the start after [retry_delay]. *)
Definition observe_with (key : A2ATaskKey) (expected : ExpectedResponse) (after_cursor : Z)
    (operation : progR A2AKonclaveBridgeError MessagePage) : prog (option (Z * bool)) :=
  page ← operation;
  match page with
  | Ok page => observe_page key expected after_cursor page
  | Err _ => Ret (Some (after_cursor, true))
  end.

Fixpoint observe_loop (rounds : nat) (key : A2ATaskKey) (expected : ExpectedResponse)
    (after_cursor : Z) : prog unit :=
  match rounds with
  | O => Ret tt
  | S rounds =>
      let again := observe_loop rounds key expected in
      let conversation_id := expected_conversation_id expected in
      next ← observe_with key expected after_cursor (read_messages key conversation_id after_cursor);
      match next with
      | None => Ret tt
      | Some (after_cursor, true) => again after_cursor
      | Some (after_cursor, false) =>
          next ← observe_with key expected after_cursor
                   (conversation_operation key conversation_id SYNC_MESSAGES_OPERATION);
          match next with
          | None => Ret tt
          | Some (after_cursor, true) => again after_cursor
          | Some (after_cursor, false) =>
              next ← observe_with key expected after_cursor
                       (conversation_operation key conversation_id WATCH_MESSAGES_OPERATION);
              match next with
              | None => Ret tt
              | Some (after_cursor, _) => again after_cursor
              end
          end
      end
  end.

Definition observe (rounds : nat) (key : A2ATaskKey) (after_cursor : Z) : prog unit :=
  Call (GetTask key) (fun r =>
    match r with
    | Err _ => Ret tt
    | Ok record =>
        if bridge_terminal (record_state record) then Ret tt
        else observe_loop rounds key (expected_response record) after_cursor
    end).

(** [Observer::run]: shutdown, or the observation deadline, ends it at any point. *)
Definition run_observer (rounds : nat) (key : A2ATaskKey) (after_cursor : Z) : prog unit :=
  Probe ShutdownRequested (fun stop =>
    if stop then Ret tt
    else _ ← timeout_at (observe rounds key after_cursor); Ret tt).

(** ** Submitting *)

Definition task_state (key : A2ATaskKey) : progR A2AKonclaveBridgeError A2ATaskState :=
  record ←? store bridge_store_error (GetTask key);
  Ret (Ok (record_state record)).

Definition mark_working (key : A2ATaskKey) : progR A2AKonclaveBridgeError bool :=
  outcome ←? bridge_transition_task key Working None [Submitted];
  Ret (Ok (bool_decide (outcome = TargetState))).

Definition mark_rejected_if_unaccepted (key : A2ATaskKey) : progR A2AKonclaveBridgeError bool :=
  record ←? store bridge_store_error (GetTask key);
  if bool_decide (record_state record = Rejected) then Ret (Ok true)
  else if bool_decide (record_state record ≠ Submitted) then Ret (Ok false)
  else
    reason ←? lift (map_err bridge_store_error (A2ATerminalReason_parse REQUEST_REJECTED_REASON));
    outcome ←? bridge_transition_task key Rejected (Some reason) [Submitted];
    Ret (Ok (bool_decide (outcome = TargetState))).

Definition start_observer (key : A2ATaskKey) (after_cursor : Z)
    : progR A2AKonclaveBridgeError unit :=
  Probe ShutdownRequested (fun stop =>
    if stop then Ret (Err BridgeLocalServiceUnavailable)
    else Probe (ObserverRunning key) (fun running =>
    if running then Ret (Ok tt)
    else Probe ShutdownRequested (fun stop =>
    if stop then Ret (Err BridgeLocalServiceUnavailable)
    else Spawn key after_cursor (Ret (Ok tt))))).

(** [.map_err(|_| A2ATaskSubmissionError)]. *)
Definition submission_result {A} (p : progR A2AKonclaveBridgeError A) : progR A2ATaskSubmissionError A :=
  r ← p; Ret (map_err (fun _ => SubmissionFailed) r).

Definition submit_locked (submission : A2ATaskSubmission) : progR A2ATaskSubmissionError unit :=
  let key := submission_key submission in
  Probe ShutdownRequested (fun stop =>
  if stop then Ret (Err SubmissionFailed) else
  state ←? submission_result (task_state key);
  if bridge_terminal state then Ret (Ok tt) else
  Probe (ObserverRunning key) (fun running =>
  if running then Ret (Ok tt) else
  Probe ObserverSlotFree (fun free =>
  if negb free then Ret (Err SubmissionFailed) else
  sent ← send_directed_request submission;
  match sent with
  | Err BridgeRequestRejected =>
      rejected ←? submission_result (mark_rejected_if_unaccepted key);
      Ret (if rejected : bool then Ok tt else Err SubmissionFailed)
  | Err _ => Ret (Err SubmissionFailed)
  | Ok sent =>
      working ←? submission_result (mark_working key);
      if working : bool then submission_result (start_observer key (sent_cursor sent))
      else Ret (Ok tt)
  end))).

End bridge.
