(* ===== verification/A2ASystem.v ===== *)
(** * The gateway process

    The operations of one gateway on its route and the observers of its bridge run
    concurrently; a step of the system is a step of one of these programs or the arrival of
    a client call, and no other writer of the task store takes part.  A state of the system
    is the trace of what happened and the programs that still run; the tables are those the
    writes of the trace produce.
    [wp] is a weakest precondition for one program among others: between two effects the
    trace may have grown by whatever the others are allowed to do.  [sys_sound] lifts
    it to every reachable state. *)

From S2P Require Import Prelude TextModel BoundedDocuments Identifiers A2AContracts A2ATaskModel A2AStore A2AStoreSpec A2AStoreRun A2ALifecycle A2AArtifacts A2AResponses A2AEffects A2AGateway A2ABridge.
Open Scope Z_scope.

(** ** Traces *)

Inductive client_call :=
| ClientSend (request : InitialSendMessageRequest)
| ClientStream (request : InitialSendMessageRequest)
| ClientGet (request : InitialGetTaskRequest)
| ClientList (request : InitialListTasksRequest)
| ClientSubscribe (request : InitialSubscribeToTaskRequest)
| ClientPublish (id : text) (artifact_json : bytes).

Inductive event :=
| EvClient (c : client_call)
| EvStore (op : task_op)
| EvLocal (r : LocalRequest) (answer : result A2AKonclaveLocalServiceError bytes)
| EvSpawn (key : A2ATaskKey) (after_cursor : Z)
| EvOut (o : gateway_output).

Abbreviation trace := (list event).

Definition event_op (e : event) : option task_op := match e with EvStore op => Some op | _ => None end.
Definition trace_ops (tr : trace) : list task_op := omap event_op tr.

Lemma trace_ops_app tr tr' : trace_ops (tr ++ tr') = trace_ops tr ++ trace_ops tr'.
Proof. apply omap_app. Qed.

Lemma elem_of_trace_ops op tr : op ∈ trace_ops tr ↔ EvStore op ∈ tr.
Proof.
  unfold trace_ops. rewrite list_elem_of_omap. split.
  - intros (e & He & E). destruct e; try discriminate. by injection E as ->.
  - intros He. by exists (EvStore op).
Qed.

Definition call_events {X} (call : store_call X) : trace :=
  match call_op call with Some op => [EvStore op] | None => [] end.

(** ** Weakest preconditions *)

Section logic.
Context `{Sha256} (config : A2ASqliteTaskStoreConfig).

Definition tables (tr : trace) : A2ADb := tables_after config (trace_ops tr).

(** What each event has to be justified by: the trace before it. *)
Context (justified : trace → event → Prop).

Definition valid (tr : trace) : Prop := ∀ pre e post, tr = pre ++ e :: post → justified pre e.

Record live (tr : trace) : Prop := {
  live_valid : valid tr;
  live_free : collision_free (trace_ops tr) }.

Definition later (tr tr' : trace) : Prop := tr `prefix_of` tr' ∧ live tr'.

(** The program adds these events and goes on. *)
Definition performs (tr evs : trace) (k : trace → Prop) : Prop :=
  (∀ e, e ∈ evs → justified tr e) ∧ (live (tr ++ evs) → k (tr ++ evs)).

Fixpoint wp {A} (p : prog A) (tr : trace) (Q : trace → A → Prop) : Prop :=
  match p with
  | Ret a => Q tr a
  | Call call k => ∀ tr', later tr tr' →
      performs tr' (call_events call) (fun tr'' => wp (k (call_run config call (tables tr')).1) tr'' Q)
  | Clock k => ∀ tr' now, later tr tr' → (∀ n, now = Some n → is_u64 n) → wp (k now) tr' Q
  | Elapsed k => ∀ tr' b, later tr tr' → wp (k b) tr' Q
  | Probe q k => ∀ tr' b, later tr tr' → wp (k b) tr' Q
  | Sequence k => ∀ tr' s, later tr tr' → wp (k s) tr' Q
  | Request r k => ∀ tr' answer, later tr tr' →
      performs tr' [EvLocal r answer] (fun tr'' => wp (k answer) tr'' Q)
  | Spawn key cursor k => ∀ tr', later tr tr' → performs tr' [EvSpawn key cursor] (fun tr'' => wp k tr'' Q)
  | Emit o k => ∀ tr', later tr tr' → performs tr' [EvOut o] (fun tr'' => wp k tr'' Q)
  end.

Lemma valid_prefix tr tr' : valid (tr ++ tr') → valid tr.
Proof. intros Hv pre e post ->. apply (Hv pre e (post ++ tr')). by rewrite <- (assoc_L (++)). Qed.

Lemma valid_snoc tr e : valid tr → justified tr e → valid (tr ++ [e]).
Proof.
  intros Hv Hj pre e' post E. destruct post as [|x post _] using rev_ind.
  - apply app_inj_tail in E as [-> [= ->]]. done.
  - apply (Hv pre e' post). rewrite app_comm_cons, (assoc_L (++)) in E. by apply app_inj_tail in E as [-> _].
Qed.

Lemma valid_elem tr e : valid tr → e ∈ tr → ∃ pre post, tr = pre ++ e :: post ∧ justified pre e.
Proof. intros Hv (pre & post & ->)%list_elem_of_split. exists pre, post. split; [done|]. by eapply Hv. Qed.

Lemma collision_free_sub ops ops' : ops ⊆ ops' → collision_free ops' → collision_free ops.
Proof. intros Hs Hf c c' Hc Hc'. apply Hf; by apply Hs. Qed.

Lemma free_prefix tr tr' : collision_free (trace_ops (tr ++ tr')) → collision_free (trace_ops tr).
Proof. rewrite trace_ops_app. apply collision_free_sub. set_solver. Qed.

Lemma live_prefix tr tr' : live (tr ++ tr') → live tr.
Proof. intros [Hv Hf]. split; [by eapply valid_prefix|by eapply free_prefix]. Qed.

Lemma later_refl tr : live tr → later tr tr.
Proof. by split. Qed.

Lemma later_trans tr1 tr2 tr3 : later tr1 tr2 → later tr2 tr3 → later tr1 tr3.
Proof. intros [H1 _] [H2 H3]. split; [by etransitivity|done]. Qed.

Lemma later_app tr tr' evs : later tr tr' → live (tr' ++ evs) → later tr (tr' ++ evs).
Proof. intros [H1 _] H2. split; [|done]. by apply prefix_app_r. Qed.

Lemma later_live tr tr' : later tr tr' → live tr'.
Proof. by intros [_ ?]. Qed.

Lemma performs_mono tr evs (k k' : trace → Prop) :
  (live (tr ++ evs) → k (tr ++ evs) → k' (tr ++ evs)) → performs tr evs k → performs tr evs k'.
Proof. intros Hk [Hj Hp]. split; auto. Qed.

Lemma wp_conseq {A} (p : prog A) tr tr' (Q Q' : trace → A → Prop) :
  later tr tr' → (∀ t t' a, later t t' → Q t a → Q' t' a) → wp p tr Q → wp p tr' Q'.
Proof.
  intros Hl HQ. revert tr tr' Hl.
  induction p as [a|X call k IH|k IH|k IH|q k IH|k IH|r k IH|key cursor k IH|o k IH];
    intros tr tr' Hl; simpl; intros Hp; [by eapply HQ|..]; intros; 
    match goal with H : later tr' ?t |- _ =>
      pose proof (later_trans _ _ _ Hl H) as Hl'; pose proof (later_refl _ (later_live _ _ H)) as Hr end;
    try (eapply performs_mono; [|by eauto]; intros Hlive; eapply IH; [by apply later_refl]);
    (eapply IH; [exact Hr|by eauto]).
Qed.

Lemma wp_bind {A B} (p : prog A) (f : A → prog B) tr Q :
  wp p tr (fun tr' a => wp (f a) tr' Q) → wp (prog_bind p f) tr Q.
Proof.
  revert tr. induction p; intros tr; simpl; intros Hp; [done|..]; intros;
    try (eapply performs_mono; [|by eauto]); eauto.
Qed.

Lemma wp_impl {A} (p : prog A) tr (Q Q' : trace → A → Prop) :
  (∀ tr' a, Q tr' a → Q' tr' a) → wp p tr Q → wp p tr Q'.
Proof.
  intros HQ. revert tr. induction p; intros tr; simpl; intros Hp; [by apply HQ|..]; intros;
    try (eapply performs_mono; [|by eauto]); eauto.
Qed.

(** When a program ends, the trace is a live extension of the one it started on. *)
Lemma wp_frame {A} (p : prog A) tr Q :
  live tr → wp p tr Q → wp p tr (fun tr' a => later tr tr' ∧ Q tr' a).
Proof.
  intros Hl. cut (∀ tr0, later tr0 tr → wp p tr Q → wp p tr (fun tr' a => later tr0 tr' ∧ Q tr' a));
    [intros Hcut; apply Hcut; by apply later_refl|]. revert tr Hl.
  induction p as [a|X call k IH|k IH|k IH|q k IH|k IH|r k IH|key cursor k IH|o k IH];
    intros tr Hl tr0 Hl0; simpl; intros Hp; [done|..]; intros;
    match goal with H : later tr ?t |- _ =>
      pose proof (later_trans _ _ _ Hl0 H) as Hl'; pose proof (later_live _ _ H) as Hlive end;
    try (eapply performs_mono; [|by eauto]; intros Hlive'; apply IH; [done|by apply later_app]);
    (apply IH; by eauto).
Qed.

Lemma wp_then {A B} (p : prog A) (f : A → prog B) tr R Q :
  live tr → wp p tr R → (∀ tr' a, later tr tr' → R tr' a → wp (f a) tr' Q) → wp (prog_bind p f) tr Q.
Proof.
  intros Hl Hp Hf. apply wp_bind. apply (wp_frame p tr R Hl) in Hp.
  eapply wp_impl; [|exact Hp]. intros tr' a [? ?]. auto.
Qed.

Lemma wp_try {E A B} (p : progR E A) (f : A → progR E B) tr R Q :
  live tr → wp p tr R → (∀ tr' a, later tr tr' → R tr' (Ok a) → wp (f a) tr' Q) →
  (∀ tr' e, later tr tr' → R tr' (Err e) → Q tr' (Err e)) → wp (prog_try p f) tr Q.
Proof. intros Hl Hp Hok Herr. eapply wp_then; [done..|]. intros tr' [a|e] Hlater HR; simpl; auto. Qed.

Lemma wp_lift {E A} (r : result E A) tr (Q : trace → result E A → Prop) : Q tr r → wp (lift r) tr Q.
Proof. done. Qed.

Lemma wp_clock {E} (e : E) tr (Q : trace → result E Z → Prop) :
  (∀ tr' n, later tr tr' → is_u64 n → Q tr' (Ok n)) → (∀ tr', later tr tr' → Q tr' (Err e)) →
  wp (clock_now e) tr Q.
Proof. intros Hok Herr. simpl. intros tr' [n|] Hl Hn; simpl; auto. Qed.

Lemma wp_call_read {X B} (call : store_call X) (k : result A2ATaskStoreError X → prog B) tr Q :
  call_op call = None →
  (∀ tr', later tr tr' → wp (k (call_run config call (tables tr')).1) tr' Q) → wp (Call call k) tr Q.
Proof.
  intros Hc HQ. simpl. intros tr' Hl. unfold call_events. rewrite Hc. split.
  - intros e He. by apply elem_of_nil in He.
  - rewrite app_nil_r. auto.
Qed.

Lemma wp_call_write {X B} (call : store_call X) op (k : result A2ATaskStoreError X → prog B) tr Q :
  call_op call = Some op →
  (∀ tr', later tr tr' → justified tr' (EvStore op)) →
  (∀ tr', later tr tr' → live (tr' ++ [EvStore op]) →
     wp (k (call_run config call (tables tr')).1) (tr' ++ [EvStore op]) Q) →
  wp (Call call k) tr Q.
Proof.
  intros Hc Hj HQ. simpl. intros tr' Hl. unfold call_events. rewrite Hc. split; [|auto].
  intros e He%list_elem_of_singleton. subst e. auto.
Qed.

Lemma wp_read {E X} (f : A2ATaskStoreError → E) (call : store_call X) tr Q :
  call_op call = None →
  (∀ tr', later tr tr' → Q tr' (map_err f (call_run config call (tables tr')).1)) →
  wp (store f call) tr Q.
Proof. intros. by apply wp_call_read. Qed.

Lemma wp_write {E X} (f : A2ATaskStoreError → E) (call : store_call X) op tr Q :
  call_op call = Some op →
  (∀ tr', later tr tr' → justified tr' (EvStore op)) →
  (∀ tr', later tr tr' → live (tr' ++ [EvStore op]) →
     Q (tr' ++ [EvStore op]) (map_err f (call_run config call (tables tr')).1)) →
  wp (store f call) tr Q.
Proof. intros. by eapply wp_call_write. Qed.

(** A program that may be cut where it waits. *)
Lemma wp_until {A} (p : prog (option A)) tr (Q : trace → option A → Prop) :
  (∀ t, later tr t → Q t None) → (∀ t, later tr t → wp p t Q) → wp (until p) tr Q.
Proof. simpl. intros HN Hp t [] Hl; [by apply HN|by apply Hp]. Qed.

Lemma wp_timeout {A} (p : prog A) tr (Q : trace → option A → Prop) :
  live tr → (∀ t t' r, later t t' → Q t r → Q t' r) → (∀ t, later tr t → Q t None) →
  wp p tr (fun t a => Q t (Some a)) → wp (timeout_at p) tr Q.
Proof.
  intros Hl HQ. revert tr Hl.
  assert (∀ (q : prog A) (tr tr' : trace), later tr tr' → wp q tr (fun t a => Q t (Some a)) →
    wp q tr' (fun t a => Q t (Some a))) as Hmono.
  { intros q tr tr' Hl Hq. eapply wp_conseq; [exact Hl| |exact Hq]. intros t t' a Ht. by apply HQ. }
  assert (∀ (q : prog A) (tr tr' : trace),
    (∀ t, live t → (∀ t', later t t' → Q t' None) → wp q t (fun t a => Q t (Some a)) → wp (timeout_at q) t Q) →
    (∀ t, later tr t → Q t None) → later tr tr' → wp q tr' (fun t a => Q t (Some a)) →
    wp (until (timeout_at q)) tr' Q) as Hcut.
  { intros q tr tr' IH HN Hl Hq. apply wp_until; [intros t Ht; apply HN; by eapply later_trans|].
    intros t Ht. apply IH; [by eapply later_live| |by eapply Hmono].
    intros t' Ht'. apply HN. by eapply later_trans; [|eapply later_trans]. }
  induction p as [a|X call k IH|k IH|k IH|q k IH|k IH|r k IH|key cursor k IH|o k IH];
    intros tr Hl HN; cbn [timeout_at wp]; intros Hp; [done|..]; intros;
    try (eapply performs_mono; [|by eauto]; intros Hlive Hk);
    (eapply Hcut; [by eauto|exact HN|(by eapply later_app) || eassumption|by eauto]).
Qed.

End logic.

(** ** The system *)

Section system.
Context `{Sha256} `{ReferenceCodec} `{ArtifactJson} `{ResponseCodec} `{BridgeJson}.
Context (config : A2ASqliteTaskStoreConfig) (route : A2AAgentRoute) (wait : A2AGatewayWaitConfig)
  (bridge_config : A2AKonclaveBridgeConfig) (nonce : bytes).

Local Instance bridge_submitter : A2ATaskSubmitter := submit_locked.

Definition answer {A} (out : A → gateway_output) (p : progR A2AGatewayError A) : prog unit :=
  prog_bind p (fun r => Emit (match r with Ok a => out a | Err e => OutError e end) (Ret tt)).

Definition streamed (p : progR A2AGatewayError TaskStreamState) : prog unit :=
  prog_bind p (fun r => match r with
                        | Ok st => stream_loop (max_polls wait) st
                        | Err e => Emit (OutError e) (Ret tt)
                        end).

Definition handler (c : client_call) : prog unit :=
  match c with
  | ClientSend request => answer OutTask (send_message route wait request)
  | ClientStream request => streamed (send_streaming_message route request)
  | ClientGet request => answer OutTask (gateway_get_task route request)
  | ClientList request => answer OutTasks (gateway_list_tasks route request)
  | ClientSubscribe request => streamed (subscribe_to_task route request)
  | ClientPublish id artifact_json => answer (fun _ => OutPublished) (publish_json route id artifact_json)
  end.

(** Requests pass the contract before an operation sees them. *)
Definition client_ok (c : client_call) : Prop :=
  match c with
  | ClientSend request | ClientStream request =>
      ∃ w, validate_initial_send_message_request w (as_str <$> route_tenant route) = Ok request
  | _ => True
  end.

(** One effect of a program: its events, the programs it starts, and what is left. *)
Inductive proc_step (tr : trace) : prog unit → trace → list (prog unit) → prog unit → Prop :=
| proc_call {X} (call : store_call X) k :
    proc_step tr (Call call k) (call_events call) [] (k (call_run config call (tables config tr)).1)
| proc_clock k now : (∀ n, now = Some n → is_u64 n) → proc_step tr (Clock k) [] [] (k now)
| proc_elapsed k b : proc_step tr (Elapsed k) [] [] (k b)
| proc_probe q k b : proc_step tr (Probe q k) [] [] (k b)
| proc_sequence k s : proc_step tr (Sequence k) [] [] (k s)
| proc_request r k a : proc_step tr (Request r k) [EvLocal r a] [] (k a)
| proc_spawn key cursor k rounds :
    proc_step tr (Spawn key cursor k) [EvSpawn key cursor]
      [run_observer bridge_config nonce rounds key cursor] k
| proc_emit o k : proc_step tr (Emit o k) [EvOut o] [] k.

Abbreviation sys := (trace * list (prog unit))%type.

Inductive sys_step : sys → sys → Prop :=
| sys_client tr ps c : client_ok c → sys_step (tr, ps) (tr ++ [EvClient c], ps ++ [handler c])
| sys_run tr ps p ps' evs new p' :
    proc_step tr p evs new p' → sys_step (tr, ps ++ p :: ps') (tr ++ evs, ps ++ p' :: ps' ++ new)
(** A client leaves, or the process is stopped. *)
| sys_drop tr ps p ps' : sys_step (tr, ps ++ p :: ps') (tr, ps ++ ps').

Definition reachable : sys → Prop := rtc sys_step ([], []).

Section soundness.
Context (justified : trace → event → Prop).

Definition runs (p : prog unit) (tr : trace) : Prop := wp config justified p tr (fun _ _ => True).

Context (Hclient : ∀ tr c, client_ok c → justified tr (EvClient c)).
Context (Hhandler : ∀ tr c, live justified tr → EvClient c ∈ tr → runs (handler c) tr).
Context (Hobserver : ∀ tr key cursor rounds, live justified tr → EvSpawn key cursor ∈ tr →
  runs (run_observer bridge_config nonce rounds key cursor) tr).

Lemma runs_later p tr tr' : later justified tr tr' → runs p tr → runs p tr'.
Proof. intros Hl. by apply wp_conseq. Qed.

Lemma valid_events tr evs :
  (length evs <= 1)%nat → valid justified tr → (∀ e, e ∈ evs → justified tr e) → valid justified (tr ++ evs).
Proof.
  destruct evs as [|e [|]]; simpl; intros Hlen Hv He; [by rewrite app_nil_r|..|lia].
  apply valid_snoc; [done|]. apply He. by left.
Qed.

Lemma call_events_length {X} (call : store_call X) : (length (call_events call) <= 1)%nat.
Proof. unfold call_events. destruct (call_op call); simpl; lia. Qed.

Lemma proc_step_runs tr p evs new p' :
  live justified tr → proc_step tr p evs new p' → runs p tr →
  valid justified (tr ++ evs)
  ∧ (live justified (tr ++ evs) → runs p' (tr ++ evs) ∧ Forall (fun q => runs q (tr ++ evs)) new).
Proof.
  intros Hl Hstep Hp. pose proof (live_valid _ _ Hl) as Hv. pose proof (later_refl _ _ Hl) as Hr.
  destruct Hstep; simpl in Hp;
    try (rewrite app_nil_r; split; [done|]; intros _; split; [by apply Hp|done]);
    destruct (Hp tr) as [Hj Hk] || destruct (Hp tr a) as [Hj Hk]; try done;
    (split; [apply valid_events; [apply call_events_length || (simpl; lia)|done..]|]);
    intros Hl'; (split; [by apply Hk|]); try done.
  constructor; [|done]. apply Hobserver; [done|]. apply elem_of_app. right. by left.
Qed.

Lemma sys_sound s :
  reachable s → collision_free (trace_ops s.1) → valid justified s.1 ∧ Forall (fun p => runs p s.1) s.2.
Proof.
  revert s. refine (rtc_ind_r _ _ _ _); [|intros s s' _ Hstep IH].
  { intros _. split; [|done]. intros pre e post E. by destruct pre. }
  destruct Hstep as [tr ps c Hc|tr ps p ps' evs new p' Hstep|tr ps p ps']; simpl in *; intros Hf.
  - destruct IH as [Hv Hps]; [by eapply free_prefix|].
    assert (live justified (tr ++ [EvClient c])) as Hl by (split; [apply valid_snoc|]; auto).
    split; [apply Hl|]. apply Forall_app. split.
    + eapply Forall_impl; [exact Hps|]. intros p. apply runs_later. split; [by apply prefix_app_r|done].
    + constructor; [|done]. apply Hhandler; [done|]. apply elem_of_app. right. by left.
  - destruct IH as [Hv [Hps [Hp Hps']%Forall_cons]%Forall_app]; [by eapply free_prefix|].
    assert (live justified tr) as Hl by (split; [done|by eapply free_prefix]).
    destruct (proc_step_runs tr p evs new p' Hl Hstep Hp) as [Hv' Hrest].
    assert (live justified (tr ++ evs)) as Hl' by by split. destruct (Hrest Hl') as [Hp' Hnew].
    assert (later justified tr (tr ++ evs)) as Hlater by (split; [by apply prefix_app_r|done]).
    split; [done|]. apply Forall_app. split; [|constructor; [done|apply Forall_app; split; [|done]]];
      (eapply Forall_impl; [eassumption|]; intros q; by apply runs_later).
  - destruct IH as [Hv [Hps [_ Hps']%Forall_cons]%Forall_app]; [done|]. split; [done|]. by apply Forall_app.
Qed.

End soundness.

End system.
