(* ===== verification/A2AAuthenticity.v ===== *)
(** * What the gateway shows and sends is authentic

    Every event of a run of the gateway process is justified by earlier events: a task by a
    client's request, a directed request by the durable task it carries, a status by the
    answer of the local service it reports, and every message in a response by the
    client's own request or by the exact response that the addressed device gave in the
    task's conversation.  [event_justified] states this per event; the operations of the
    gateway and the bridge are verified against it with the [wp] of [A2ASystem]. *)

From S2P Require Import Prelude TextModel BoundedDocuments Identifiers A2AContracts A2ATaskModel A2AStore A2AStoreSpec A2AStoreProofs A2AStoreOps A2AStoreRun A2ALifecycle A2ASources A2AArtifacts A2AResponses A2AEffects A2AGateway A2ABridge A2ASystem.
Open Scope Z_scope.

(** ** The messages of an output *)

Definition task_wire_messages (t : WireTask) : list (text * WireMessage) :=
  (fun m => (wire_task_id t, m))
    <$> (option_list (wire_task_status t ≫= wire_status_message) ++ wire_task_history t).

Definition output_messages (o : gateway_output) : list (text * WireMessage) :=
  match o with
  | OutTask r => task_wire_messages (response_wire r)
  | OutTasks r => mjoin (task_wire_messages <$> wire_list_tasks (list_response_wire r))
  | OutEvent r =>
      match stream_wire r with
      | Some (StreamPayloadTask t) => task_wire_messages t
      | Some (StreamPayloadStatus u) =>
          (fun m => (wire_update_task_id u, m)) <$> option_list (wire_update_status u ≫= wire_status_message)
      | Some (StreamPayloadMessage m) => [(message_task_id m, m)]
      | Some (StreamPayloadArtifact _) | None => []
      end
  | OutPublished | OutError _ => []
  end.

Section authenticity.
Context `{Sha256} `{ReferenceCodec} `{ArtifactJson} `{ResponseCodec} `{BridgeJson}.
Context (config : A2ASqliteTaskStoreConfig) (Hcfg : store_config_ok config).
Context (route : A2AAgentRoute) (wait : A2AGatewayWaitConfig)
  (bridge_config : A2AKonclaveBridgeConfig) (nonce : bytes).

(** ** Justifications *)

(** The response a task waits for. *)
Definition expected_for (id : A2ATaskId) : ExpectedResponse :=
  mk_ExpectedResponse (hex_encode (as_bytes (route_conversation_id route)))
    (hex_encode (as_bytes (route_target_device_id route))) (as_str id).

(** The message is an inbound text from the device of the route, in its conversation, in
    reply to the request that carried the task. *)
Definition answers_task (id : A2ATaskId) (m : ObservedMessage) : Prop :=
  observed_conversation_id m = hex_encode (as_bytes (route_conversation_id route))
  ∧ observed_sender_device_id m = hex_encode (as_bytes (route_target_device_id route))
  ∧ observed_direction m = lit "inbound" ∧ observed_content_type m = lit "text"
  ∧ observed_reply_to_message_id m = Some (as_str id).

(** The local service reported this exact response to the task. *)
Definition response_seen (tr : trace) (id : A2ATaskId) (message_id value : text) : Prop :=
  ∃ r encoded page m, EvLocal r (Ok encoded) ∈ tr
    ∧ local_operation r ≠ SEND_DIRECTED_REQUEST_OPERATION
    ∧ deserialize_strict parse_json bounded_page encoded MAX_RPC_PAYLOAD_BYTES = Ok page
    ∧ m ∈ page_messages page ∧ answers_task id m
    ∧ observed_message_id m = message_id ∧ message_text_or_empty m = value.

Definition mapped (streaming : bool) (request : InitialSendMessageRequest) :=
  if streaming then map_initial_streaming_message route request else map_initial_send_message route request.

(** A client asked for this task. *)
Definition asked (tr : trace) (c : A2ATaskCreation) : Prop :=
  ∃ (streaming : bool) request mapping now,
    EvClient (if streaming then ClientStream request else ClientSend request) ∈ tr
    ∧ mapped streaming request = Ok mapping ∧ c = A2ATaskCreation_from_mapping mapping now.

(** The directed request that carries a task. *)
Definition directs (r : LocalRequest) (c : A2ATaskCreation) : Prop :=
  local_request_id r = as_bytes (creation_request_message_id c)
  ∧ encode_send_directed
      (mk_SendDirectedRequest (hex_encode (as_bytes (route_conversation_id route)))
         (hex_encode (as_bytes (creation_request_message_id c)))
         (hex_encode (as_bytes (route_target_device_id route))) (creation_request_text c))
    = Some (local_payload r).

(** The local service answered the directed request of a task. *)
Definition answered (tr : trace) (id : A2ATaskId) (P : result A2AKonclaveLocalServiceError bytes → Prop) : Prop :=
  ∃ r a c, EvLocal r a ∈ tr ∧ local_operation r = SEND_DIRECTED_REQUEST_OPERATION
    ∧ OpCreate c ∈ trace_ops tr ∧ creation_key c = route_key route id ∧ directs r c ∧ P a.

(** Why a task may change its state. *)
Definition status_justified (tr : trace) (id : A2ATaskId) (state : A2ATaskState)
    (reason : option text) : Prop :=
  match state with
  | Working => reason = None ∧ answered tr id (fun a => is_ok a = true)
  | Completed => reason = None
      ∧ ∃ message_id value, response_seen tr id message_id value ∧ len value <= MAX_A2A_TEXT_BYTES
  | Failed => reason = Some RESPONSE_OUT_OF_BOUNDS_REASON
      ∧ ∃ message_id value, response_seen tr id message_id value ∧ MAX_A2A_TEXT_BYTES < len value
  | Rejected => reason = Some REQUEST_REJECTED_REASON
      ∧ answered tr id (fun a => a = Err LocalRequestRejected)
  | _ => False
  end.

(** A harness published this artifact for the task. *)
Definition published (tr : trace) (a : A2ATaskArtifact) : Prop :=
  ∃ id document artifact, EvClient (ClientPublish (as_str id) document) ∈ tr
    ∧ decode_initial_artifact_json document = Ok artifact
    ∧ artifact_key a = route_key route id
    ∧ as_str (artifact_id a) = wire_artifact_id (artifact_wire artifact)
    ∧ artifact_canonical_bytes a = artifact_canonical_json artifact ∧ artifact_complete a = true.

Definition write_justified (tr : trace) (op : task_op) : Prop :=
  match op with
  | OpCreate c => asked tr c
  | OpTransition t => ∃ id, transition_key t = route_key route id
      ∧ status_justified tr id (transition_state t) (reason_str <$> transition_terminal_reason t)
  | OpMessage m _ => ∃ id, message_key m = route_key route id ∧ message_sender m = Agent
      ∧ response_seen tr id (as_str (message_id m)) (message_text m)
  | OpWorkingArtifact a _ maximum => published tr a ∧ maximum = MAX_A2A_ARTIFACTS_PER_TASK
  | OpArtifact _ _ => False
  | OpPrune _ => True
  end.

(** A message shown for a task: the client's request or the agent's response. *)
Definition message_authentic (tr : trace) (id : A2ATaskId) (m : WireMessage) : Prop :=
  ∃ value, message_parts m = [mk_WirePart (Some (PartText value)) None [] A2A_TEXT_MEDIA_TYPE]
    ∧ message_task_id m = as_str id
    ∧ ((message_role m = ROLE_AGENT ∧ response_seen tr id (message_message_id m) value)
       ∨ (message_role m = ROLE_USER ∧ ∃ c, asked tr c ∧ creation_key c = route_key route id
            ∧ as_str (creation_source_message_id c) = message_message_id m
            ∧ creation_request_text c = value)).

Definition event_justified (tr : trace) (e : event) : Prop :=
  match e with
  | EvClient c => client_ok route c
  | EvStore op => op_typed op ∧ write_justified tr op
  | EvLocal r _ => local_operation r = SEND_DIRECTED_REQUEST_OPERATION →
      ∃ c, OpCreate c ∈ trace_ops tr ∧ directs r c
  | EvSpawn _ _ => True
  | EvOut o => ∀ shown m, (shown, m) ∈ output_messages o →
      ∃ id, shown = as_str id ∧ message_authentic tr id m
  end.

Abbreviation live := (live event_justified).
Abbreviation later := (later event_justified).
Abbreviation wp := (wp config event_justified).
Abbreviation tables := (tables config).

(** ** Justifications last *)

Lemma response_seen_mono tr tr' id message_id value :
  tr `prefix_of` tr' → response_seen tr id message_id value → response_seen tr' id message_id value.
Proof.
  intros [k ->] (r & encoded & page & m & Hr & Hrest). exists r, encoded, page, m.
  split; [|exact Hrest]. apply elem_of_app. by left.
Qed.

Lemma asked_mono tr tr' c : tr `prefix_of` tr' → asked tr c → asked tr' c.
Proof.
  intros [k ->] (streaming & request & mapping & now & Hr & Hrest). exists streaming, request, mapping, now.
  split; [|exact Hrest]. apply elem_of_app. by left.
Qed.

Lemma ops_mono tr tr' op : tr `prefix_of` tr' → op ∈ trace_ops tr → op ∈ trace_ops tr'.
Proof. intros [k ->] Hop. rewrite trace_ops_app. apply elem_of_app. by left. Qed.

Lemma answered_mono tr tr' id P : tr `prefix_of` tr' → answered tr id P → answered tr' id P.
Proof.
  intros Hpre (r & a & c & Hr & Hop & Hc & Hrest). exists r, a, c. split.
  - destruct Hpre as [k ->]. apply elem_of_app. by left.
  - split; [done|]. split; [by eapply ops_mono|done].
Qed.

Lemma status_justified_mono tr tr' id state reason :
  tr `prefix_of` tr' → status_justified tr id state reason → status_justified tr' id state reason.
Proof.
  intros Hpre. destruct state; simpl; try done.
  - intros [? ?]. split; [done|]. by eapply answered_mono.
  - intros (? & i & x & ? & ?). split; [done|]. exists i, x. split; [by eapply response_seen_mono|done].
  - intros (? & i & x & ? & ?). split; [done|]. exists i, x. split; [by eapply response_seen_mono|done].
  - intros [? ?]. split; [done|]. by eapply answered_mono.
Qed.

Lemma published_mono tr tr' a : tr `prefix_of` tr' → published tr a → published tr' a.
Proof.
  intros [k ->] (id & d & x & He & Hrest). exists id, d, x. split; [|exact Hrest]. apply elem_of_app. by left.
Qed.

Lemma write_justified_mono tr tr' op : tr `prefix_of` tr' → write_justified tr op → write_justified tr' op.
Proof.
  intros Hpre. destruct op as [c|t|m now|a now|a now maximum|now]; simpl; try done.
  - by apply asked_mono.
  - intros (id & ? & ?). exists id. split; [done|]. by eapply status_justified_mono.
  - intros (id & ? & ? & ?). exists id. split; [done|]. split; [done|]. by eapply response_seen_mono.
  - intros [? ?]. split; [|done]. by eapply published_mono.
Qed.

Lemma message_authentic_mono tr tr' id m :
  tr `prefix_of` tr' → message_authentic tr id m → message_authentic tr' id m.
Proof.
  intros Hpre (value & Hp & Ht & Hor). exists value. split; [done|]. split; [done|].
  destruct Hor as [[? ?]|(? & c & ? & ?)]; [left|right]; (split; [done|]).
  - by eapply response_seen_mono.
  - exists c. split; [by eapply asked_mono|done].
Qed.

(** Every write of the trace is typed and justified by the trace. *)
Lemma live_writes tr op : live tr → op ∈ trace_ops tr → op_typed op ∧ write_justified tr op.
Proof.
  intros [Hv _] Hop%elem_of_trace_ops. destruct (valid_elem _ _ _ Hv Hop) as (pre & post & -> & [Ht Hw]).
  split; [done|]. eapply write_justified_mono; [|exact Hw]. by apply prefix_app_r.
Qed.

Lemma live_typed tr : live tr → Forall op_typed (trace_ops tr).
Proof. intros Hl. apply Forall_forall. intros op Hop. by eapply live_writes. Qed.

Lemma live_state tr :
  live tr → ∃ s, store_represents (tables tr) s ∧ tasks_ok config s ∧ sourced (trace_ops tr) s.
Proof.
  intros Hl. destruct (sourced_state config Hcfg (trace_ops tr)) as (s & ? & ? & _ & ?);
    [by apply live_typed|apply Hl|eauto].
Qed.

(** ** What the store holds *)

Lemma task_id_spells id rid :
  task_request_message_id id = Some rid → hex_encode (as_bytes rid) = as_str id.
Proof. intros Hid%task_id_request_message. by apply A2AId_parse_Ok in Hid as <-. Qed.

Lemma mapped_facts streaming request m :
  mapped streaming request = Ok m →
  mapping_agent_id m = route_agent_id route ∧ mapping_tenant m = route_tenant route
  ∧ mapping_context_id m = route_context_id route
  ∧ mapping_conversation_id m = route_conversation_id route
  ∧ mapping_target_device_id m = route_target_device_id route
  ∧ task_request_message_id (mapping_task_id m) = Some (mapping_request_message_id m)
  ∧ as_str (mapping_source_message_id m) = initial_message_id request
  ∧ mapping_text m = initial_text request
  ∧ mapping_history_length m = initial_history_length request.
Proof.
  intros Hm. assert (∃ m0, map_initial_send_message route request = Ok m0
    ∧ m = mk_A2ADirectedRequestMapping (mapping_agent_id m0) (mapping_context_id m0)
        (mapping_tenant m0) (mapping_source_message_id m0) (mapping_task_id m0)
        (mapping_conversation_id m0) (mapping_target_device_id m0) (mapping_request_message_id m0)
        (mapping_part_index m0) (mapping_text m0) (mapping_return_immediately m) (mapping_history_length m0))
    as (m0 & Hm0 & ->).
  { destruct streaming; simpl in Hm.
    - apply bind_Ok in Hm as (m0 & Hm0 & [= <-]). by exists m0.
    - exists m. split; [done|]. by destruct m. }
  apply map_send_Ok in Hm0 as (_ & _ & source & t & rid & Hs & Hd & ->). simpl.
  destruct (derive_task_mapping_spec route (route_context_id route) source) as (t0 & rid0 & Hd0 & Hrid & _).
  rewrite Hd in Hd0. injection Hd0 as <- <-. apply A2AId_parse_Ok in Hs as <-. done.
Qed.

(** A task that a client asked for goes to the route. *)
Record creation_routed (c : A2ATaskCreation) (id : A2ATaskId) : Prop := {
  routed_key : creation_key c = route_key route id;
  routed_context : creation_context_id c = route_context_id route;
  routed_conversation : creation_conversation_id c = route_conversation_id route;
  routed_target : creation_target_device_id c = route_target_device_id route;
  routed_request : task_request_message_id id = Some (creation_request_message_id c) }.

Lemma asked_routed tr c : asked tr c → ∃ id, creation_routed c id.
Proof.
  intros (streaming & request & m & now & _ & Hm & ->).
  destruct (mapped_facts _ _ _ Hm) as (Ha & Ht & Hc & Hconv & Htgt & Hr & _).
  exists (mapping_task_id m). split; simpl; try done. by rewrite Ha, Ht.
Qed.

(** A stored task, the identifier it has and the request it was created by. *)
Record view_routed (tr : trace) (v : TaskView) (id : A2ATaskId) (c : A2ATaskCreation) : Prop := {
  vr_key : view_key v = route_key route id;
  vr_context : view_context_id v = route_context_id route;
  vr_conversation : view_conversation_id v = route_conversation_id route;
  vr_target : view_target_device_id v = route_target_device_id route;
  vr_spells : hex_encode (as_bytes (view_request_message_id v)) = as_str id;
  vr_asked : asked tr c;
  vr_routed : creation_routed c id;
  vr_request : view_request_message_id v = creation_request_message_id c;
  vr_from : view_from (trace_ops tr) c v }.

Lemma view_is_routed tr s pk v :
  live tr → sourced (trace_ops tr) s → s !! pk = Some v → ∃ id c, view_routed tr v id c.
Proof.
  intros Hl Hs Hv. destruct (Hs pk v Hv) as [c Hc]. pose proof (from_created _ _ _ Hc) as Hop.
  destruct (live_writes tr _ Hl Hop) as [_ Ha]. simpl in Ha. destruct (asked_routed tr c Ha) as [id Hid].
  pose proof (from_identity _ _ _ Hc) as E. exists id, c.
  assert (view_key v = creation_key c) as E1 by exact (f_equal view_key E).
  assert (view_request_message_id v = creation_request_message_id c) as E2
    by exact (f_equal view_request_message_id E).
  pose proof (f_equal view_context_id E) as E3. pose proof (f_equal view_conversation_id E) as E4.
  pose proof (f_equal view_target_device_id E) as E5. simpl in E3, E4, E5.
  destruct Hid as [R1 R2 R3 R4 R5]. split; try congruence; try done. rewrite E2. by apply task_id_spells.
Qed.

Lemma view_message_authentic tr v id c m i context :
  live tr → view_routed tr v id c → m ∈ view_messages v → message_key m = view_key v →
  message_authentic tr id (project_message (stored_message i m) (as_str id) context).
Proof.
  intros Hl Hr Hm Hkey. unfold view_messages in Hm.
  destruct (view_content v) as [content|] eqn:Hcontent; [|by apply elem_of_nil in Hm]. simpl in Hm.
  destruct (from_messages _ _ _ (vr_from _ _ _ _ Hr) content Hcontent) as (rest & E & Hrest).
  rewrite E in Hm. exists (message_text m). split; [done|]. split; [done|].
  apply elem_of_cons in Hm as [->|Hm].
  - right. split; [done|]. exists c. split; [apply (vr_asked _ _ _ _ Hr)|].
    split; [apply (routed_key _ _ (vr_routed _ _ _ _ Hr))|done].
  - destruct (Hrest m Hm) as [now Hop]. destruct (live_writes tr _ Hl Hop) as [_ (id' & Hk & Hs & Hseen)].
    left. simpl. rewrite Hs. split; [done|].
    assert (id' = id) as ->; [|done]. rewrite Hkey, (vr_key _ _ _ _ Hr) in Hk. by injection Hk.
Qed.

(** What the programs learn from a record they read. *)
Record record_authentic (tr : trace) (key : A2ATaskKey) (r : A2ATaskRecord) (id : A2ATaskId) : Prop := {
  ra_route : key = route_key route id;
  ra_key : record_key r = key;
  ra_context : record_context_id r = route_context_id route;
  ra_conversation : record_conversation_id r = route_conversation_id route;
  ra_target : record_target_device_id r = route_target_device_id route;
  ra_spells : hex_encode (as_bytes (record_request_message_id r)) = as_str id;
  ra_text : ∀ value, record_request_text r = Some value →
    ∃ c, OpCreate c ∈ trace_ops tr ∧ creation_key c = key
      ∧ creation_request_message_id c = record_request_message_id r ∧ creation_request_text c = value }.

Lemma view_record_authentic tr v id c :
  view_routed tr v id c → record_authentic tr (view_key v) (record_of v) id.
Proof.
  intros []. split; try done. intros value Hvalue.
  change (message_text <$> head (view_messages v) = Some value) in Hvalue. unfold view_messages in Hvalue.
  destruct (view_content v) as [content|] eqn:Hcontent; [|done]. simpl in Hvalue.
  destruct vr_from0 as [Hc _ Hm _ _]. destruct (Hm content Hcontent) as (rest & E & _). rewrite E in Hvalue.
  injection Hvalue as <-. exists c. split; [done|]. split; [|done].
  rewrite vr_key0. apply (routed_key _ _ vr_routed0).
Qed.

Lemma record_authentic_mono tr tr' key r id :
  tr `prefix_of` tr' → record_authentic tr key r id → record_authentic tr' key r id.
Proof.
  intros Hpre []. split; try done. intros value Hv. destruct (ra_text0 value Hv) as (c & ? & ?).
  exists c. split; [by eapply ops_mono|done].
Qed.

Lemma get_task_authentic tr key r :
  live tr → get_task (tables tr) key = Ok r → ∃ id, record_authentic tr key r id.
Proof.
  intros Hl E. destruct (live_state tr Hl) as (s & Hst & Hok & Hs).
  rewrite (get_task_view config Hcfg _ s key Hst Hok) in E.
  destruct (s !! task_pk key) as [v|] eqn:Hv; [|done]. injection E as <-.
  destruct (view_is_routed tr s _ v Hl Hs Hv) as (id & c & Hr). exists id.
  rewrite <- (view_key_of config s key v Hok Hv). by eapply view_record_authentic.
Qed.

Lemma create_authentic tr c o :
  live (tr ++ [EvStore (OpCreate c)]) → (create_task config (tables tr) c).1 = Ok o →
  ∃ id, record_authentic (tr ++ [EvStore (OpCreate c)]) (record_key (outcome_record o)) (outcome_record o) id.
Proof.
  intros Hl E. pose proof (live_typed _ Hl) as Ht. pose proof (live_free _ _ Hl) as Hf.
  rewrite trace_ops_app in Ht, Hf.
  destruct (run_step_sourced config Hcfg _ _ Ht Hf) as (s & s' & _ & _ & _ & _ & Hok' & Hs' & Hstep).
  cbn [a2a_step] in Hstep. unfold A2ASystem.tables in E.
  destruct (create_task config (tables_after config (trace_ops tr)) c) as [r db']. simpl in E, Hstep. subst r.
  inversion Hstep as [|c0 s1 r s2 _ Hsw Ho| | | | |]; subst.
  apply outcome_Ok in Ho as [(e & _ & ? & _)|(a & Hspec & [= <-])]; [done|].
  destruct (create_spec_view _ _ _ _ _ Hspec) as (v & Hv & Hrec).
  assert (outcome_record o = record_of v) as -> by by destruct Hrec as [->| ->].
  assert (sourced (trace_ops (tr ++ [EvStore (OpCreate c)])) s') as Hs2 by by rewrite trace_ops_app.
  destruct (view_is_routed _ s' _ v Hl Hs2 Hv) as (id & c' & Hr). exists id.
  exact (view_record_authentic _ _ _ _ Hr).
Qed.

Lemma elem_of_stored_messages i x l :
  stored_messages l !! i = Some x → ∃ m, m ∈ l ∧ x = stored_message (Z.of_nat i + 1) m.
Proof.
  unfold stored_messages. rewrite list_lookup_imap. intros (m & Hm & ->)%fmap_Some.
  exists m. split; [|done]. by eapply list_elem_of_lookup_2.
Qed.

(** The messages that a snapshot or a batch of updates carries. *)
Definition messages_authentic (tr : trace) (id : A2ATaskId) (l : list StoredA2ATaskMessage) : Prop :=
  ∀ x context, x ∈ l → message_authentic tr id (project_message x (as_str id) context).

Lemma newest_authentic tr s pk v id c n :
  live tr → tasks_ok config s → s !! pk = Some v → view_routed tr v id c →
  messages_authentic tr id (newest n (stored_messages (view_messages v))).
Proof.
  intros Hl Hok Hv Hr x context Hx. unfold newest in Hx.
  apply list_elem_of_lookup in Hx as [i Hx]. rewrite lookup_drop in Hx.
  apply elem_of_stored_messages in Hx as (m & Hm & ->).
  destruct (view_messages_ok config Hcfg _ _ (ok_views _ _ Hok _ _ Hv)) as [Hall _].
  rewrite Forall_forall in Hall. eapply view_message_authentic; [done..|]. apply (ok_message_key _ _ (Hall m Hm)).
Qed.

Lemma snapshot_authentic tr key n k snapshot :
  live tr → 0 <= n → 0 <= k → task_snapshot config (tables tr) key n k = Ok snapshot →
  ∃ id, record_authentic tr key (snapshot_task snapshot) id
    ∧ messages_authentic tr id (snapshot_messages snapshot).
Proof.
  intros Hl Hn Hk E. destruct (live_state tr Hl) as (s & Hst & Hok & Hs).
  destruct (task_snapshot_Ok config Hcfg _ s key n k snapshot Hst Hok Hn Hk E) as (v & Hv & -> & -> & _).
  destruct (view_is_routed tr s _ v Hl Hs Hv) as (id & c & Hr). exists id. split.
  - rewrite <- (view_key_of config s key v Hok Hv). by eapply view_record_authentic.
  - by eapply newest_authentic.
Qed.

Lemma updates_authentic tr key g q n k updates :
  live tr → 0 <= n → 0 <= k → 0 <= g → 0 <= q →
  stream_updates config (tables tr) key g q n k = Ok updates →
  ∃ id, key = route_key route id ∧ messages_authentic tr id (updates_messages updates)
    ∧ Forall (fun t => 0 <= status_generation t) (updates_statuses updates)
    ∧ Forall (fun a => 0 <= stored_artifact_sequence a) (updates_artifacts updates).
Proof.
  intros Hl Hn Hk Hg Hq E. destruct (live_state tr Hl) as (s & Hst & Hok & Hs).
  destruct (stream_updates_Ok config Hcfg _ s key g q n k updates Hst Hok Hn Hk Hg Hq E)
    as (v & Hv & _ & _ & _ & -> & -> & ->).
  destruct (view_is_routed tr s _ v Hl Hs Hv) as (id & c & Hr). exists id.
  rewrite <- (view_key_of config s key v Hok Hv). split; [apply (vr_key _ _ _ _ Hr)|].
  split; [by eapply newest_authentic|]. split.
  - apply Forall_drop. pose proof (view_statuses_numbers config _ v (ok_views _ _ Hok _ _ Hv)) as E1.
    apply Forall_forall. intros t Ht. apply (list_elem_of_fmap_2 status_generation) in Ht.
    rewrite E1 in Ht. apply elem_of_seqZ in Ht. lia.
  - apply Forall_take, Forall_drop, Forall_lookup. intros i a. unfold stored_artifacts.
    rewrite list_lookup_imap. intros (a0 & _ & ->)%fmap_Some. simpl. lia.
Qed.

(** ** The bridge *)

(** Nothing is promised about the result; the effects are justified. *)
Definition anything {A} (tr : trace) (a : A) : Prop := True.

Lemma prefix_of_later tr tr' : later tr tr' → tr `prefix_of` tr'.
Proof. by intros [? _]. Qed.

Lemma live_of_later tr tr' : later tr tr' → live tr'.
Proof. by intros [_ ?]. Qed.

(** The trace only grew. *)
Ltac grown :=
  lazymatch goal with
  | |- ?a `prefix_of` ?a => reflexivity
  | |- ?a `prefix_of` ?b =>
      first [apply prefix_app_r; grown
            |match goal with L : A2ASystem.later _ a ?c |- _ =>
               etransitivity; [exact (prefix_of_later _ _ L)|grown] end]
  end.

Lemma wp_transition_tries tries key state reason sources tr id :
  live tr → key = route_key route id → status_justified tr id state (reason_str <$> reason) →
  wp (transition_tries tries key state reason sources) tr anything.
Proof.
  intros Hl -> Hj. revert tr Hl Hj. induction tries as [|tries IH]; intros tr Hl Hj; [done|].
  cbn [transition_tries]. eapply (wp_try _ _ _ _ _ anything); [done|by apply wp_read| |done].
  intros tr1 record L1 _. destruct (bool_decide _); [done|]. destruct (_ || _); [done|].
  eapply (wp_try _ _ _ _ _ (λ _ r, ∀ n, r = Ok n → is_u64 n)); [by eapply live_of_later| | |done].
  { apply wp_clock; [intros ? n _ Hn ? [= ->]; done|done]. }
  intros tr2 now L2 Hnow. specialize (Hnow now eq_refl). eapply wp_call_write; [done|..].
  - intros tr3 L3. split; [apply Hnow|]. exists id. split; [done|].
    eapply status_justified_mono; [|exact Hj]. grown.
  - intros tr3 L3 Hl3. simpl. destruct (transition_task _ _ _) as [[o|e] db']; [done|]. simpl.
    destruct e; try done. apply IH; [done|]. eapply status_justified_mono; [|exact Hj].
    do 3 (etransitivity; [by eapply prefix_of_later|]). by apply prefix_app_r.
Qed.

(** What a clock reading guarantees. *)
Definition clock_ok {E} (tr : trace) (r : result E Z) : Prop := ∀ n, r = Ok n → is_u64 n.

Lemma wp_clock_ok {E} (e : E) tr : wp (clock_now e) tr clock_ok.
Proof. apply wp_clock; [intros ? n _ Hn ? [= ->]; done|done]. Qed.

Lemma terminal_reason_parse_Ok value r : A2ATerminalReason_parse value = Ok r → reason_str r = value.
Proof. unfold A2ATerminalReason_parse. destruct (bool_dec _ _); [|done]. by intros [= <-]. Qed.

Lemma A2ATaskMessage_new_typed key id role value now m :
  A2ATaskMessage_new key id role value now = Ok m → 0 <= now →
  m = mk_A2ATaskMessage key id role value now ∧ message_typed m.
Proof.
  unfold A2ATaskMessage_new. intros E Hn. apply bind_Ok in E as ([] & E1%fail_if_Ok & [= <-]).
  split; [done|]. rewrite orb_false_iff, Z.eqb_neq, Z.ltb_ge in E1. pose proof (len_nonneg value).
  split; simpl; lia.
Qed.

Lemma wp_complete key id response tr :
  live tr → key = route_key route id →
  response_seen tr id (observed_message_id response) (message_text_or_empty response) →
  wp (complete key response) tr anything.
Proof.
  intros Hl -> Hseen. unfold complete.
  destruct (MAX_A2A_TEXT_BYTES <? len (message_text_or_empty response)) eqn:Hlen.
  - eapply (wp_try _ _ _ _ _ (λ _ r, ∀ x, r = Ok x → reason_str x = RESPONSE_OUT_OF_BOUNDS_REASON)); [done| | |done].
    { apply wp_lift. intros x Hx%map_err_Ok. by apply terminal_reason_parse_Ok. }
    intros tr1 reason L1 Hreason. specialize (Hreason reason eq_refl).
    eapply (wp_try _ _ _ _ _ anything); [by eapply live_of_later| |done|done].
    eapply wp_transition_tries; [by eapply live_of_later|done|]. simpl. rewrite Hreason. split; [done|].
    eexists _, _. split; [eapply response_seen_mono; [|exact Hseen]; grown|lia].
  - apply Z.ltb_ge in Hlen.
    eapply (wp_try _ _ _ _ _ (λ _ r, ∀ x, r = Ok x → as_str x = observed_message_id response)); [done| | |done].
    { apply wp_lift. intros x Hx%map_err_Ok. by apply A2AId_parse_Ok in Hx. }
    intros tr1 mid L1 Hmid. specialize (Hmid mid eq_refl).
    eapply (wp_try _ _ _ _ _ clock_ok); [by eapply live_of_later|apply wp_clock_ok| |done].
    intros tr2 now L2 Hnow. specialize (Hnow now eq_refl).
    eapply (wp_try _ _ _ _ _ (λ _ r, ∀ m, r = Ok m →
      m = mk_A2ATaskMessage (route_key route id) mid Agent (message_text_or_empty response) now
      ∧ message_typed m)); [by eapply live_of_later| | |done].
    { apply wp_lift. intros m Hm%map_err_Ok. apply (A2ATaskMessage_new_typed _ _ _ _ _ _ Hm), Hnow. }
    intros tr3 m L3 Hm. destruct (Hm m eq_refl) as [-> Htyped].
    eapply (wp_try _ _ _ _ _ anything); [by eapply live_of_later| | |done].
    { eapply wp_write; [done| |done]. intros tr4 L4. split; [done|]. exists id. split; [done|]. split; [done|].
      simpl. rewrite Hmid. eapply response_seen_mono; [|exact Hseen]. grown. }
    intros tr4 outcome L4 _. eapply (wp_try _ _ _ _ _ anything); [by eapply live_of_later| |done|done].
    eapply wp_transition_tries; [by eapply live_of_later|done|]. simpl. split; [done|].
    eexists _, _. split; [eapply response_seen_mono; [|exact Hseen]; grown|lia].
Qed.

(** ** Observing *)

(** A page the local service answered. *)
Definition page_seen (tr : trace) (page : MessagePage) : Prop :=
  ∃ r encoded, EvLocal r (Ok encoded) ∈ tr ∧ local_operation r ≠ SEND_DIRECTED_REQUEST_OPERATION
    ∧ deserialize_strict parse_json bounded_page encoded MAX_RPC_PAYLOAD_BYTES = Ok page.

Lemma exact_response_answers id m : is_exact_response (expected_for id) m = true → answers_task id m.
Proof.
  unfold is_exact_response, answers_task. rewrite !andb_true_iff, !bool_decide_eq_true.
  intros [[[[? ?] ?] ?] ?]. by split_and!.
Qed.

Lemma page_seen_response tr page id m :
  page_seen tr page → exact_response (expected_for id) (page_messages page) = Some m →
  response_seen tr id (observed_message_id m) (message_text_or_empty m).
Proof.
  intros (r & encoded & Hr & Hop & Hd) Hm. apply find_some in Hm as [Hin Hm].
  apply exact_response_answers in Hm. exists r, encoded, page, m.
  repeat (split; [done|]). split; [by apply list_elem_of_In|done].
Qed.

Definition page_post (tr : trace) (r : result A2AKonclaveBridgeError MessagePage) : Prop :=
  ∀ page, r = Ok page → page_seen tr page.

Lemma wp_request_page key operation payload tr :
  live tr → operation ≠ SEND_DIRECTED_REQUEST_OPERATION →
  wp (request_page bridge_config nonce key operation payload) tr page_post.
Proof.
  intros Hl Hop. unfold request_page.
  eapply (wp_try _ _ _ _ _ anything); [done|by intros ? ? _| |by intros ? ? _ _ ?].
  intros tr1 request_id L1 _.
  eapply (wp_try _ _ _ _ _ (λ tr' r, ∀ encoded, r = Ok encoded →
    EvLocal (mk_LocalRequest request_id operation payload) (Ok encoded) ∈ tr'));
    [by eapply live_of_later| | |by intros ? ? _ _ ?].
  { simpl. intros tr2 answer L2. split; [|].
    - intros e He%list_elem_of_singleton. subst e. intros E. by destruct (Hop E).
    - intros _ encoded E. apply map_err_Ok in E as ->. apply elem_of_app. right. by left. }
  intros tr2 encoded L2 He. specialize (He encoded eq_refl).
  eapply (wp_try _ _ _ _ _ (λ _ r, r = map_err (fun _ => BridgeInvalidLocalResponse)
    (deserialize_strict parse_json bounded_page encoded MAX_RPC_PAYLOAD_BYTES)));
    [by eapply live_of_later|done| |by intros ? ? _ _ ?].
  intros tr3 page L3 Hpage. symmetry in Hpage. apply map_err_Ok in Hpage. destruct (_ || _); [by intros ? [=]|].
  intros ? [= <-]. exists (mk_LocalRequest request_id operation payload), encoded. split; [|done].
  destruct (prefix_of_later _ _ L3) as [k ->]. apply elem_of_app. by left.
Qed.

Lemma wp_read_messages key conversation cursor tr :
  live tr → wp (read_messages bridge_config nonce key conversation cursor) tr page_post.
Proof.
  intros Hl. unfold read_messages. eapply (wp_try _ _ _ _ _ anything); [done|exact I| |by intros ? ? _ _ ?].
  intros tr1 payload L1 _. apply wp_request_page; [by eapply live_of_later|by vm_compute].
Qed.

Lemma wp_conversation_operation key conversation operation tr :
  live tr → operation ≠ SEND_DIRECTED_REQUEST_OPERATION →
  wp (conversation_operation bridge_config nonce key conversation operation) tr page_post.
Proof.
  intros Hl Hop. unfold conversation_operation.
  eapply (wp_try _ _ _ _ _ anything); [done|exact I| |by intros ? ? _ _ ?].
  intros tr1 payload L1 _. apply wp_request_page; [by eapply live_of_later|done].
Qed.

Lemma wp_observe_with key id cursor operation tr :
  live tr → key = route_key route id → wp operation tr page_post →
  wp (observe_with key (expected_for id) cursor operation) tr anything.
Proof.
  intros Hl Hkey Hop. unfold observe_with. eapply wp_then; [done|exact Hop|].
  intros tr1 [page|e] L1 Hpage; [|done]. specialize (Hpage page eq_refl). unfold observe_page.
  destruct (exact_response _ _) as [m|] eqn:Hm; [|done].
  eapply (wp_then _ _ _ _ _ anything); [by eapply live_of_later| |done].
  eapply wp_complete; [by eapply live_of_later|done|]. by eapply page_seen_response.
Qed.

Lemma wp_observe_loop rounds key id cursor tr :
  live tr → key = route_key route id →
  wp (observe_loop bridge_config nonce rounds key (expected_for id) cursor) tr anything.
Proof.
  intros Hl Hkey. revert tr cursor Hl. induction rounds as [|rounds IH]; intros tr cursor Hl; [done|].
  cbn [observe_loop]. eapply (wp_then _ _ _ _ _ anything); [done| |].
  { apply wp_observe_with; [done..|]. by apply wp_read_messages. }
  intros tr1 [[cursor1 []]|] L1 _; [apply IH; by eapply live_of_later| |done].
  eapply (wp_then _ _ _ _ _ anything); [by eapply live_of_later| |].
  { apply wp_observe_with; [by eapply live_of_later|done|].
    apply wp_conversation_operation; [by eapply live_of_later|by vm_compute]. }
  intros tr2 [[cursor2 []]|] L2 _; [apply IH; by eapply live_of_later| |done].
  eapply (wp_then _ _ _ _ _ anything); [by eapply live_of_later| |].
  { apply wp_observe_with; [by eapply live_of_later|done|].
    apply wp_conversation_operation; [by eapply live_of_later|by vm_compute]. }
  intros tr3 [[cursor3 more]|] L3 _; [apply IH; by eapply live_of_later|done].
Qed.

Lemma expected_response_for tr key r id :
  record_authentic tr key r id → expected_response r = expected_for id.
Proof. intros []. unfold expected_response, expected_for. congruence. Qed.

Lemma wp_run_observer rounds key cursor tr :
  live tr → wp (run_observer bridge_config nonce rounds key cursor) tr anything.
Proof.
  intros Hl. unfold run_observer. intros tr1 stop L1. destruct stop; [done|].
  eapply (wp_then _ _ _ _ _ anything); [by eapply live_of_later| |done].
  apply wp_timeout; [by eapply live_of_later|done|done|].
  unfold observe. apply wp_call_read; [done|]. intros tr2 L2. simpl.
  destruct (get_task _ key) as [record|e] eqn:Hr; [|done]. destruct (bridge_terminal _); [done|].
  destruct (get_task_authentic tr2 key record) as [id Hid]; [by eapply live_of_later|done|].
  rewrite (expected_response_for _ _ _ _ Hid).
  apply wp_observe_loop; [by eapply live_of_later|apply (ra_route _ _ _ _ Hid)].
Qed.

(** ** Submitting *)

(** A submission carries a durable task. *)
Definition submission_authentic (tr : trace) (x : A2ATaskSubmission) (id : A2ATaskId) : Prop :=
  ∃ c, OpCreate c ∈ trace_ops tr ∧ creation_key c = route_key route id
    ∧ submission_key x = route_key route id
    ∧ submission_conversation_id x = route_conversation_id route
    ∧ submission_target_device_id x = route_target_device_id route
    ∧ submission_request_message_id x = creation_request_message_id c
    ∧ submission_text x = creation_request_text c.

Lemma submission_of_record tr r id x :
  record_authentic tr (record_key r) r id → submission_from_record r = Ok x → submission_authentic tr x id.
Proof.
  intros [] Hx. unfold submission_from_record in Hx. apply bind_Ok in Hx as (value & Hv & [= <-]).
  apply ok_or_Ok in Hv. destruct (ra_text0 value Hv) as (c & Hc & Hk & Hr & Ht). exists c. simpl.
  split_and!; congruence.
Qed.

Lemma submission_authentic_mono tr tr' x id :
  tr `prefix_of` tr' → submission_authentic tr x id → submission_authentic tr' x id.
Proof. intros Hpre (c & Hc & Hrest). exists c. split; [by eapply ops_mono|exact Hrest]. Qed.

(** What the answer to a directed request lets the bridge conclude. *)
Definition sent_post (id : A2ATaskId) (tr : trace) (r : result A2AKonclaveBridgeError SentMessage) : Prop :=
  match r with
  | Ok _ => answered tr id (fun a => is_ok a = true)
  | Err BridgeRequestRejected => answered tr id (fun a => a = Err LocalRequestRejected)
  | Err _ => True
  end.

Lemma wp_send_directed_request x id tr :
  live tr → submission_authentic tr x id → wp (send_directed_request x) tr (sent_post id).
Proof.
  intros Hl (c & Hc & Hk & _ & Hconv & Htgt & Hrid & Htext). unfold send_directed_request.
  rewrite Hconv, Htgt, Hrid, Htext. cbv zeta.
  eapply (wp_try _ _ _ _ _ (λ _ r, r = ok_or (encode_send_directed _) BridgeInvalidConfiguration));
    [done|done| |by intros ? e _ Hr; destruct (encode_send_directed _); simplify_eq/=].
  intros tr1 payload L1 Hp. symmetry in Hp. apply ok_or_Ok in Hp.
  set (r := mk_LocalRequest _ _ payload).
  assert (directs r c) as Hd by (split; [done|exact Hp]).
  eapply (wp_try _ _ _ _ _ (λ tr' b, match b with
    | Ok _ => answered tr' id (fun a => is_ok a = true)
    | Err BridgeRequestRejected => answered tr' id (fun a => a = Err LocalRequestRejected)
    | Err _ => True end)); [by eapply live_of_later| | |by intros ? []].
  { intros tr2 a L2. assert (OpCreate c ∈ trace_ops tr2) as Hc2 by (eapply ops_mono; [|exact Hc]; grown). split.
    - intros e He%list_elem_of_singleton. subst e. intros _. eauto.
    - intros _. assert (∀ P : result A2AKonclaveLocalServiceError bytes → Prop, P a →
        answered (tr2 ++ [EvLocal r a]) id P) as Hans.
      { intros P HP. exists r, a, c. split; [apply elem_of_app; right; by left|]. split; [done|].
        split; [eapply ops_mono; [|exact Hc2]; grown|done]. }
      simpl. destruct a as [b|[]]; simpl; auto. }
  intros tr2 encoded L2 Hans. eapply (wp_try _ _ _ _ _ (λ _ r, r ≠ Err BridgeRequestRejected)).
  - by eapply live_of_later.
  - apply wp_lift. by destruct (deserialize_strict _ _ _ _).
  - intros tr3 sent L3 _. destruct (_ || _); [done|]. simpl. eapply answered_mono; [|exact Hans]. grown.
  - intros tr3 e L3 He. by destruct e.
Qed.

Lemma wp_mark_working key id tr :
  live tr → key = route_key route id → answered tr id (fun a => is_ok a = true) →
  wp (mark_working key) tr anything.
Proof.
  intros Hl -> Hans. unfold mark_working. eapply (wp_try _ _ _ _ _ anything); [done| |done|done].
  eapply wp_transition_tries; [done..|]. by split.
Qed.

Lemma wp_mark_rejected key id tr :
  live tr → key = route_key route id → answered tr id (fun a => a = Err LocalRequestRejected) →
  wp (mark_rejected_if_unaccepted key) tr anything.
Proof.
  intros Hl -> Hans. unfold mark_rejected_if_unaccepted.
  eapply (wp_try _ _ _ _ _ anything); [done|by apply wp_read| |done].
  intros tr1 record L1 _. destruct (bool_decide _); [done|]. destruct (bool_decide _); [done|].
  eapply (wp_try _ _ _ _ _ (λ _ r, ∀ x, r = Ok x → reason_str x = REQUEST_REJECTED_REASON));
    [by eapply live_of_later| | |done].
  { apply wp_lift. intros x Hx%map_err_Ok. by apply terminal_reason_parse_Ok. }
  intros tr2 reason L2 Hreason. specialize (Hreason reason eq_refl).
  eapply (wp_try _ _ _ _ _ anything); [by eapply live_of_later| |done|done].
  eapply wp_transition_tries; [by eapply live_of_later|done|]. simpl. rewrite Hreason. split; [done|].
  eapply answered_mono; [|exact Hans]. grown.
Qed.

Lemma wp_start_observer key cursor tr : live tr → wp (start_observer key cursor) tr anything.
Proof.
  intros Hl. unfold start_observer. intros tr1 [] L1; [done|]. intros tr2 [] L2; [done|].
  intros tr3 [] L3; [done|]. intros tr4 L4. split; [|done].
  intros e He%list_elem_of_singleton. by subst e.
Qed.

Lemma wp_submission_result {A} (p : progR A2AKonclaveBridgeError A) tr :
  live tr → wp p tr anything → wp (submission_result p) tr anything.
Proof. intros Hl Hp. by eapply wp_then. Qed.

Lemma wp_submit x id tr :
  live tr → submission_authentic tr x id → wp (submit_locked x) tr anything.
Proof.
  intros Hl Hx. unfold submit_locked. intros tr1 [] L1; [done|].
  assert (submission_key x = route_key route id) as Hkey by (by destruct Hx as (c & _ & _ & ? & _)).
  eapply (wp_try _ _ _ _ _ anything); [by eapply live_of_later| | |done].
  { apply wp_submission_result; [by eapply live_of_later|]. unfold task_state.
    eapply (wp_try _ _ _ _ _ anything); [by eapply live_of_later|by apply wp_read|done|done]. }
  intros tr2 state L2 _. destruct (bridge_terminal state); [done|].
  intros tr3 [] L3; [done|]. intros tr4 [] L4; [|done]. simpl negb. cbv iota.
  eapply (wp_then _ _ _ _ _ (sent_post id)); [by eapply live_of_later| |].
  { apply wp_send_directed_request; [by eapply live_of_later|]. eapply submission_authentic_mono; [|exact Hx]. grown. }
  intros tr5 [sent|e] L5 Hpost; simpl in Hpost.
  - eapply (wp_try _ _ _ _ _ anything); [by eapply live_of_later| | |done].
    { apply wp_submission_result; [by eapply live_of_later|].
      eapply wp_mark_working; [by eapply live_of_later|done..]. }
    intros tr6 [] L6 _; [|done]. apply wp_submission_result; [by eapply live_of_later|].
    apply wp_start_observer. by eapply live_of_later.
  - destruct e; try done. eapply (wp_try _ _ _ _ _ anything); [by eapply live_of_later| |done|done].
    apply wp_submission_result; [by eapply live_of_later|].
    eapply wp_mark_rejected; [by eapply live_of_later|done..].
Qed.

(** ** Responses show only authentic messages *)

Definition shows (tr : trace) (l : list (text * WireMessage)) : Prop :=
  ∀ shown m, (shown, m) ∈ l → ∃ id, shown = as_str id ∧ message_authentic tr id m.

Lemma shows_mono tr tr' l : tr `prefix_of` tr' → shows tr l → shows tr' l.
Proof.
  intros Hpre Hl shown m Hm. destruct (Hl shown m Hm) as (id & ? & ?). exists id. split; [done|].
  by eapply message_authentic_mono.
Qed.

Lemma shows_nil tr : shows tr [].
Proof. intros shown m Hm. by apply elem_of_nil in Hm. Qed.

Lemma shows_task tr id l :
  (∀ m, m ∈ l → message_authentic tr id m) → shows tr ((fun m => (as_str id, m)) <$> l).
Proof. intros Hl shown m (x & [= -> ->] & Hx)%list_elem_of_fmap. exists id. auto. Qed.

Lemma last_agent_elem messages m : last_agent messages = Some m → m ∈ messages.
Proof. intros [Hm _]%find_some. apply elem_of_reverse. by apply list_elem_of_In. Qed.

Lemma last_agent_authentic tr id context messages m :
  messages_authentic tr id messages →
  m ∈ option_list ((fun x => project_message x (as_str id) context) <$> last_agent messages) →
  message_authentic tr id m.
Proof.
  intros Hall Hm. destruct (last_agent messages) as [x|] eqn:Hx; [|by apply elem_of_nil in Hm].
  apply list_elem_of_singleton in Hm as ->. apply Hall. by apply last_agent_elem.
Qed.

Lemma project_task_shows tr id record messages artifacts history include t :
  task_id (record_key record) = id → messages_authentic tr id messages →
  project_task record messages artifacts history include = Ok t → wire_task_id t = as_str id ∧ shows tr (task_wire_messages t).
Proof.
  intros <- Hall E. unfold project_task in E. cbv zeta in E. apply bind_Ok in E as (u & _ & E).
  apply bind_Ok in E as (arts & _ & E). apply bind_Ok in E as (ts & _ & E). injection E as <-.
  split; [done|]. unfold task_wire_messages. simpl. apply shows_task. intros m [Hm|Hm]%elem_of_app.
  - destruct (include && _); [|by apply elem_of_nil in Hm]. by eapply last_agent_authentic.
  - destruct history as [h|]; [|by apply elem_of_nil in Hm].
    destruct (default 1 h =? 0); [by apply elem_of_nil in Hm|].
    rewrite elem_of_reverse, elem_of_take in Hm. destruct Hm as (i & Hi%list_elem_of_lookup_2 & _).
    rewrite elem_of_reverse in Hi. apply list_elem_of_fmap in Hi as (x & -> & Hx).
    by apply Hall.
Qed.

Lemma validate_task_wire t r :
  validate_initial_task t = Ok r →
  wire_task_id (response_wire r) = wire_task_id t
  ∧ wire_task_context_id (response_wire r) = wire_task_context_id t
  ∧ wire_task_status (response_wire r) = wire_task_status t
  ∧ wire_task_history (response_wire r) = wire_task_history t
  ∧ wire_task_metadata (response_wire r) = wire_task_metadata t.
Proof.
  unfold validate_initial_task. intros E. do 7 (apply bind_Ok in E as (? & _ & E)). cbv zeta in E.
  do 2 (apply bind_Ok in E as (? & _ & E)). by injection E as <-.
Qed.

(** ** The operations of the gateway *)

Definition task_post (tr : trace) (r : result A2AGatewayError InitialA2ATaskResponse) : Prop :=
  ∀ t, r = Ok t → shows tr (task_wire_messages (response_wire t)).

Lemma shows_response tr t r :
  validate_initial_task t = Ok r → shows tr (task_wire_messages t) →
  shows tr (task_wire_messages (response_wire r)).
Proof.
  intros Hr Hs. destruct (validate_task_wire t r Hr) as (E1 & _ & E2 & E3 & _).
  unfold task_wire_messages in *. by rewrite E1, E2, E3.
Qed.

Lemma wp_project_current key history tr : live tr → wp (project_current key history) tr task_post.
Proof.
  intros Hl. unfold project_current.
  eapply (wp_try _ _ _ _ _ (λ tr' r, ∀ x, r = Ok x → ∃ id, record_authentic tr' key (snapshot_task x) id
    ∧ messages_authentic tr' id (snapshot_messages x))); [done| | |by intros ? ? _ _ ?].
  { apply wp_read; [done|]. intros tr1 L1 x Hx%map_err_Ok.
    eapply (snapshot_authentic _ _ _ _ _ (live_of_later _ _ L1)); [| |exact Hx]; done. }
  intros tr1 snapshot L1 Hsn. destruct (Hsn snapshot eq_refl) as (id & Hrec & Hms).
  destruct (record_content_pruned _); [by intros ? [=]|]. intros r Hr. unfold project_get_task in Hr.
  apply bind_Ok in Hr as (t & Ht & Hr%map_err_Ok). eapply shows_response; [done|].
  eapply project_task_shows; [|exact Hms|exact Ht].
  rewrite (ra_key _ _ _ _ Hrec), (ra_route _ _ _ _ Hrec). done.
Qed.

Lemma live_client tr c : live tr → EvClient c ∈ tr → client_ok route c.
Proof. intros [Hv _] Hc. by destruct (valid_elem _ _ _ Hv Hc) as (pre & post & _ & ?). Qed.

Lemma request_history streaming tr request :
  live tr → EvClient (if streaming : bool then ClientStream request else ClientSend request) ∈ tr →
  ∀ h, initial_history_length request = Some h → is_u32 h.
Proof.
  intros Hl Hc%live_client h Hh; [|done].
  assert (∃ w, validate_initial_send_message_request w (as_str <$> route_tenant route) = Ok request) as [w Hw]
    by by destruct streaming.
  apply validate_send_ok in Hw. destruct (ok_send_history _ _ Hw) as [E|[E|E]]; rewrite E in Hh;
    simplify_eq; unfold is_u32, U32_MAX; lia.
Qed.

Lemma wp_prepare_task `{A2ATaskSubmitter} request streaming tr :
  (∀ x id t, live t → submission_authentic t x id → wp (submit x) t anything) →
  live tr → EvClient (if streaming : bool then ClientStream request else ClientSend request) ∈ tr →
  wp (prepare_task route request streaming) tr anything.
Proof.
  intros Hsubmit Hl Hc. unfold prepare_task.
  eapply (wp_try _ _ _ _ _ (λ _ r, ∀ m, r = Ok m → mapped streaming request = Ok m)); [done| | |done].
  { apply wp_lift. by intros m Hm%map_err_Ok. }
  intros tr1 m L1 Hm. specialize (Hm m eq_refl).
  eapply (wp_try _ _ _ _ _ clock_ok); [by eapply live_of_later|apply wp_clock_ok| |done].
  intros tr2 now L2 Hnow. specialize (Hnow now eq_refl). set (c := A2ATaskCreation_from_mapping m now).
  assert (∀ t, tr `prefix_of` t → asked t c) as Hasked.
  { intros t [k ->]. exists streaming, request, m, now. split; [apply elem_of_app; by left|done]. }
  destruct (mapped_facts _ _ _ Hm) as (_ & _ & _ & _ & _ & Hrid & _ & _ & Hhist).
  eapply (wp_try _ _ _ _ _ (λ tr' r, ∀ o, r = Ok o →
    ∃ id, record_authentic tr' (record_key (outcome_record o)) (outcome_record o) id));
    [by eapply live_of_later| | |done].
  { eapply wp_write; [done|..].
    - intros tr3 L3. split; [|apply Hasked; grown]. split; simpl; [done| |apply Hnow].
      rewrite Hhist. by eapply request_history.
    - intros tr3 L3 Hl3 o Ho%map_err_Ok. by apply create_authentic. }
  intros tr3 o L3 Ho. destruct (Ho o eq_refl) as [id Hrec]. cbv zeta.
  destruct (match record_state _ with Submitted | Working => _ | _ => _ end); [|done].
  eapply (wp_try _ _ _ _ _ (λ tr' r, ∀ x, r = Ok x → submission_authentic tr' x id));
    [by eapply live_of_later| | |done].
  { apply wp_lift. intros x Hx. by eapply submission_of_record. }
  intros tr4 x L4 Hx. specialize (Hx x eq_refl).
  eapply (wp_then _ _ _ _ _ anything); [by eapply live_of_later| |by intros ? [[]|]].
  apply wp_timeout; [by eapply live_of_later|done|done|].
  eapply wp_impl; [|eapply Hsubmit; [by eapply live_of_later|exact Hx]]. done.
Qed.

Lemma task_post_mono t t' r : later t t' → task_post t r → task_post t' r.
Proof. intros L Hr x Hx. eapply shows_mono; [by eapply prefix_of_later|auto]. Qed.

Lemma wp_wait_response polls prepared tr : live tr → wp (wait_response polls prepared) tr task_post.
Proof.
  revert tr. induction polls as [|polls IH]; intros tr Hl; [by intros t [=]|]. cbn [wait_response].
  eapply wp_try; [done|by apply wp_project_current| |by intros ? ? _ _ t [=]].
  intros tr1 task L1 Htask. destruct (response_state _); [exact Htask|]. apply IH. by eapply live_of_later.
Qed.

Lemma wp_send_message `{A2ATaskSubmitter} request tr :
  (∀ x id t, live t → submission_authentic t x id → wp (submit x) t anything) →
  live tr → EvClient (ClientSend request) ∈ tr → wp (send_message route wait request) tr task_post.
Proof.
  intros Hsubmit Hl Hc. unfold send_message.
  eapply (wp_try _ _ _ _ _ anything); [done|by apply wp_prepare_task| |by intros ? ? _ _ t [=]].
  intros tr1 prepared L1 _.
  eapply (wp_then _ _ _ _ _ (λ t r, task_post t (or_expired r))); [by eapply live_of_later| |].
  - apply wp_timeout; [by eapply live_of_later|intros t t' r; apply task_post_mono|by intros t _ x [=]|].
    eapply wp_impl; [|destruct (initial_return_immediately request);
      [apply wp_project_current|apply wp_wait_response]; by eapply live_of_later]. done.
  - intros tr2 r L2 Hr. exact Hr.
Qed.

Lemma wp_prune_visible tr : live tr → wp prune_visible_tasks tr anything.
Proof.
  intros Hl. unfold prune_visible_tasks. eapply wp_try; [done|apply wp_clock_ok| |done].
  intros tr1 now L1 _. eapply (wp_try _ _ _ _ _ anything); [by eapply live_of_later| |done|done].
  by eapply wp_write.
Qed.

Lemma wp_get_task request tr : live tr → wp (gateway_get_task route request) tr task_post.
Proof.
  intros Hl. unfold gateway_get_task.
  eapply (wp_try _ _ _ _ _ anything); [done|by apply wp_prune_visible| |by intros ? ? _ _ t [=]].
  intros tr1 [] L1 _. eapply (wp_try _ _ _ _ _ anything); [by eapply live_of_later|done| |by intros ? ? _ _ t [=]].
  intros tr2 lookup L2 _. apply wp_project_current. by eapply live_of_later.
Qed.

(** A list shows no messages. *)
Lemma project_list_shows_nothing records token page_size total r :
  project_list_tasks records token page_size total = Ok r → output_messages (OutTasks r) = [].
Proof.
  unfold project_list_tasks. intros E. apply bind_Ok in E as (tasks & Ht & E).
  do 2 (apply bind_Ok in E as (? & _ & E)). apply bind_Ok in E as (resp & Hr%map_err_Ok & E).
  apply bind_Ok in E as (? & _ & [= <-]). unfold validate_initial_list_tasks_response in Hr.
  do 5 (apply bind_Ok in Hr as (? & _ & Hr)). injection Hr as <-. simpl.
  apply traverse_Ok in Ht. induction Ht as [|[record artifacts] t records tasks Hproj _ IH]; [done|].
  change (task_wire_messages t ++ mjoin (task_wire_messages <$> tasks) = []). rewrite IH, app_nil_r. unfold project_task in Hproj. cbv zeta in Hproj.
  apply bind_Ok in Hproj as (? & _ & Hproj). apply bind_Ok in Hproj as (? & _ & Hproj).
  apply bind_Ok in Hproj as (? & _ & [= <-]). done.
Qed.

Lemma wp_list_tasks request tr :
  live tr →
  wp (gateway_list_tasks route request) tr (λ tr' r, ∀ x, r = Ok x → output_messages (OutTasks x) = []).
Proof.
  intros Hl. unfold gateway_list_tasks.
  eapply (wp_try _ _ _ _ _ anything); [done|by apply wp_prune_visible| |by intros ? ? _ _ ? [=]].
  intros tr1 [] L1 _. eapply (wp_try _ _ _ _ _ anything); [by eapply live_of_later|done| |by intros ? ? _ _ ? [=]].
  intros tr2 lookup L2 _. eapply (wp_try _ _ _ _ _ anything); [by eapply live_of_later|done| |by intros ? ? _ _ ? [=]].
  intros tr3 cursor L3 _. eapply (wp_try _ _ _ _ _ anything); [by eapply live_of_later|done| |by intros ? ? _ _ ? [=]].
  intros tr4 query L4 _. destruct (list_lookup_include_artifacts lookup);
    (eapply (wp_try _ _ _ _ _ anything); [by eapply live_of_later|by apply wp_read| |by intros ? ? _ _ ? [=]]);
    intros tr5 page L5 _ x Hx; by eapply project_list_shows_nothing.
Qed.

Lemma A2ATaskArtifact_new_typed key id canonical full now a :
  A2ATaskArtifact_new key id canonical full now = Ok a → 0 <= now →
  artifact_key a = key ∧ artifact_id a = id ∧ artifact_canonical_bytes a = canonical
  ∧ artifact_complete a = full ∧ artifact_typed a.
Proof.
  unfold A2ATaskArtifact_new. intros E Hn. apply bind_Ok in E as ([] & E1%fail_if_Ok & [= <-]).
  rewrite orb_false_iff, Z.eqb_neq, Z.ltb_ge in E1. pose proof (len_nonneg canonical).
  split_and!; try done. split; simpl; [lia|done|done].
Qed.

Lemma wp_publish_json id document tr :
  live tr → EvClient (ClientPublish id document) ∈ tr → wp (publish_json route id document) tr anything.
Proof.
  intros Hl Hc. unfold publish_json.
  eapply (wp_try _ _ _ _ _ (λ _ r, ∀ x, r = Ok x → as_str x = id)); [done| | |done].
  { apply wp_lift. intros x Hx%map_err_Ok. by apply A2AId_parse_Ok in Hx. }
  intros tr1 tid L1 Htid. specialize (Htid tid eq_refl).
  eapply (wp_try _ _ _ _ _ (λ _ r, ∀ x, r = Ok x → decode_initial_artifact_json document = Ok x));
    [by eapply live_of_later| | |done].
  { apply wp_lift. by intros x Hx%map_err_Ok. }
  intros tr2 artifact L2 Hart. specialize (Hart artifact eq_refl). unfold publish. cbv zeta.
  eapply (wp_try _ _ _ _ _ (λ _ r, ∀ x, r = Ok x → as_str x = wire_artifact_id (artifact_wire artifact)));
    [by eapply live_of_later| | |done].
  { apply wp_lift. intros x Hx%map_err_Ok. by apply A2AId_parse_Ok in Hx. }
  intros tr3 aid L3 Haid. specialize (Haid aid eq_refl).
  eapply (wp_try _ _ _ _ _ anything); [by eapply live_of_later|by apply wp_read| |done].
  intros tr4 task L4 _. destruct (_ || _); [done|].
  eapply (wp_try _ _ _ _ _ clock_ok); [by eapply live_of_later|apply wp_clock_ok| |done].
  intros tr5 now L5 Hnow. specialize (Hnow now eq_refl).
  eapply (wp_try _ _ _ _ _ (λ _ r, ∀ a, r = Ok a → artifact_key a = route_key route tid ∧ artifact_id a = aid
    ∧ artifact_canonical_bytes a = artifact_canonical_json artifact ∧ artifact_complete a = true
    ∧ artifact_typed a)); [by eapply live_of_later| | |done].
  { apply wp_lift. intros a Ha%map_err_Ok. apply (A2ATaskArtifact_new_typed _ _ _ _ _ _ Ha), Hnow. }
  intros tr6 a L6 Ha. destruct (Ha a eq_refl) as (E1 & E2 & E3 & E4 & Htyped).
  eapply (wp_try _ _ _ _ _ anything); [by eapply live_of_later| |done|done].
  eapply wp_write; [done| |done]. intros tr7 L7. split; [split; [done|by vm_compute]|]. split; [|done].
  exists tid, document, artifact. rewrite E2. split_and!; try done. rewrite Htid.
  assert (tr `prefix_of` tr7) as [k ->] by grown. apply elem_of_app. by left.
Qed.

(** ** Streams *)

Definition event_shows (tr : trace) (e : InitialA2AStreamResponse) : Prop :=
  shows tr (output_messages (OutEvent e)).

Definition stream_ok (tr : trace) (id : A2ATaskId) (st : TaskStreamState) : Prop :=
  stream_state_key st = route_key route id ∧ stream_state_task_id st = as_str id
  ∧ 0 <= stream_state_generation st ∧ 0 <= stream_state_artifact_sequence st
  ∧ Forall (event_shows tr) (stream_state_pending st).

Lemma stream_snapshot_shows tr id record messages artifacts history e :
  task_id (record_key record) = id → messages_authentic tr id messages →
  project_stream_task record messages artifacts history = Ok e →
  stream_task_id e = as_str id ∧ event_shows tr e.
Proof.
  intros Hid Hall E. unfold project_stream_task in E. apply bind_Ok in E as (t & Ht & E%map_err_Ok).
  simpl in E. apply bind_Ok in E as (r & Hr & [= <-]). simpl.
  destruct (project_task_shows _ _ _ _ _ _ _ _ Hid Hall Ht) as [Hwid Hs].
  destruct (validate_task_wire _ _ Hr) as (E1 & _). split; [by rewrite E1|]. unfold event_shows. simpl.
  by eapply shows_response.
Qed.

Lemma status_update_shows tr id context status messages b e :
  messages_authentic tr id messages →
  project_status_update (as_str id) context status messages b = Ok e → event_shows tr e.
Proof.
  intros Hall E. unfold project_status_update in E. cbv zeta in E. apply bind_Ok in E as (? & _ & E).
  apply bind_Ok in E as (ts & _ & E%map_err_Ok). simpl in E. do 3 (apply bind_Ok in E as (? & _ & E)).
  injection E as <-. unfold event_shows. simpl. apply shows_task. intros m Hm.
  destruct (response_state _); [|by apply elem_of_nil in Hm]. by eapply last_agent_authentic.
Qed.

Lemma artifact_update_shows tr id context a e : project_artifact_update id context a = Ok e → event_shows tr e.
Proof.
  intros E. unfold project_artifact_update in E. cbv zeta in E. apply bind_Ok in E as (x & _ & E%map_err_Ok).
  simpl in E. do 2 (apply bind_Ok in E as (? & _ & E)). apply bind_Ok in E as (y & _ & E).
  apply bind_Ok in E as (? & _ & E). injection E as <-. apply shows_nil.
Qed.

Lemma push_pending_ok tr id st g q b f e :
  stream_ok tr id st → 0 <= g → 0 <= q → event_shows tr e → stream_ok tr id (push_pending st g q b f e).
Proof. intros (? & ? & ? & ? & ?) ? ? ?. repeat split; try done. simpl. apply Forall_app. auto. Qed.

Lemma absorb_artifacts_ok tr id l : ∀ st st',
  stream_ok tr id st → Forall (fun a => 0 <= stored_artifact_sequence a) l →
  absorb_artifacts st l = Ok st' → stream_ok tr id st'.
Proof.
  induction l as [|a l IH]; intros st st' Hst Hl E; simpl in E; [by injection E as <-|].
  apply Forall_cons in Hl as [Ha Hl]. apply bind_Ok in E as (? & _ & E). apply bind_Ok in E as (e & He & E).
  eapply IH; [|done|exact E]. apply push_pending_ok; [done|apply Hst|done|by eapply artifact_update_shows].
Qed.

Lemma absorb_statuses_ok tr id messages l : ∀ st st',
  stream_ok tr id st → messages_authentic tr id messages → Forall (fun t => 0 <= status_generation t) l →
  absorb_statuses st messages l = Ok st' → stream_ok tr id st'.
Proof.
  induction l as [|t l IH]; intros st st' Hst Hm Hl E; simpl in E; [by injection E as <-|].
  apply Forall_cons in Hl as [Ht Hl]. apply bind_Ok in E as (e & He & E).
  eapply IH; [|done|done|exact E]. destruct Hst as (H1' & H2' & H3' & H4' & H5').
  apply push_pending_ok; [done..|]. rewrite H2' in He. by eapply status_update_shows.
Qed.

Lemma stream_ok_mono tr tr' id st : tr `prefix_of` tr' → stream_ok tr id st → stream_ok tr' id st.
Proof.
  intros Hpre (? & ? & ? & ? & Hp). split_and!; try done. eapply Forall_impl; [exact Hp|].
  intros e. by apply shows_mono.
Qed.

Lemma wp_poll_updates st id tr :
  live tr → stream_ok tr id st →
  wp (poll_updates (stream_state_key st) (stream_state_generation st) (stream_state_artifact_sequence st)) tr
    (λ tr' r, ∀ u st', r = Ok u → absorb_updates (drained st) u = Ok st' → stream_ok tr' id st').
Proof.
  intros Hl (Hk & Htid & Hg & Hq & _). unfold poll_updates.
  eapply (wp_try _ _ _ _ _ (λ tr' r, ∀ u, r = Ok u → messages_authentic tr' id (updates_messages u)
    ∧ Forall (fun t => 0 <= status_generation t) (updates_statuses u)
    ∧ Forall (fun a => 0 <= stored_artifact_sequence a) (updates_artifacts u))); [done| | |done].
  { apply wp_read; [done|]. intros tr1 L1 u Hu%map_err_Ok.
    edestruct (updates_authentic tr1) as (id' & Hk' & ? & ? & ?); [by eapply live_of_later| | | | |exact Hu|];
      [done..|]. rewrite Hk in Hk'. injection Hk' as <-. done. }
  intros tr1 u L1 Hu. destruct (Hu u eq_refl) as (Hm & Hs & Ha). destruct (record_content_pruned _); [done|].
  intros u' st' [= <-] E. unfold absorb_updates in E. apply bind_Ok in E as (st1 & E1 & E2).
  eapply absorb_statuses_ok; [|exact Hm|exact Hs|exact E2]. eapply absorb_artifacts_ok; [|exact Ha|exact E1].
  by repeat split.
Qed.

Lemma wp_emit_events events (k : prog unit) tr :
  live tr → Forall (event_shows tr) events → (∀ tr', later tr tr' → wp k tr' anything) →
  wp (emit_events events k) tr anything.
Proof.
  revert tr. induction events as [|e events IH]; intros tr Hl Hall Hk; [by apply Hk, later_refl|].
  apply Forall_cons in Hall as [He Hall]. intros tr1 L1. split.
  - intros ev Hev%list_elem_of_singleton. subst ev. eapply shows_mono; [|exact He]. grown.
  - intros Hl1. assert (later tr (tr1 ++ [EvOut (OutEvent e)])) as L2 by by eapply later_app.
    apply IH; [done| |intros tr2 L3; apply Hk; by eapply later_trans].
    eapply Forall_impl; [exact Hall|]. intros x. apply shows_mono. by eapply prefix_of_later.
Qed.

Lemma wp_stream_loop polls id st tr :
  live tr → stream_ok tr id st → wp (stream_loop polls st) tr anything.
Proof.
  revert tr st. induction polls as [|polls IH]; intros tr st Hl Hst; cbn [stream_loop];
    (apply wp_emit_events; [done|apply Hst|]); intros tr1 L1; destruct (stream_state_finished st); try done.
  intros tr2 [] L2; [done|]. intros tr3 [] L3; [done|].
  eapply wp_then; [by eapply live_of_later|apply (wp_poll_updates st id); [by eapply live_of_later|]|].
  { eapply stream_ok_mono; [|exact Hst]. grown. }
  intros tr4 r L4 Hr. destruct (r ≫= absorb_updates (drained st)) as [st'|e] eqn:E.
  - apply bind_Ok in E as (u & -> & E). apply IH; [by eapply live_of_later|by eapply Hr].
  - intros tr5 L5. split; [|done]. intros ev Hev%list_elem_of_singleton. subst ev. apply shows_nil.
Qed.

Definition stream_post (tr : trace) (r : result A2AGatewayError TaskStreamState) : Prop :=
  ∀ st, r = Ok st → ∃ id, stream_ok tr id st.

Lemma wp_stream_task key history reject tr : live tr → wp (stream_task key history reject) tr stream_post.
Proof.
  intros Hl. unfold stream_task.
  eapply (wp_try _ _ _ _ _ (λ tr' r, ∀ e g q, r = Ok (e, g, q) → ∃ id, key = route_key route id
    ∧ stream_task_id e = as_str id ∧ event_shows tr' e ∧ 0 <= g ∧ 0 <= q)); [done| | |by intros ? ? _ _ ? [=]].
  - unfold stream_snapshot.
    eapply (wp_try _ _ _ _ _ (λ tr' r, ∀ x, r = Ok x → ∃ id, record_authentic tr' key (snapshot_task x) id
      ∧ messages_authentic tr' id (snapshot_messages x) ∧ 0 <= record_generation (snapshot_task x)
      ∧ Forall (fun a => 0 <= stored_artifact_sequence a) (snapshot_artifacts x))); [done| | |by intros ? ? _ _ ? ? ? [=]].
    { apply wp_read; [done|]. intros tr1 L1 x Hx%map_err_Ok. simpl in Hx.
      pose proof (live_of_later _ _ L1) as Hl1.
      edestruct (snapshot_authentic tr1 key) as (id & Hrec & Hms); [done| | |exact Hx|]; [done..|].
      exists id. split; [done|]. split; [done|].
      destruct (live_state tr1 Hl1) as (s & Hst & Hok & _).
      edestruct (task_snapshot_Ok config Hcfg (tables tr1) s key) as (v & Hv & E1 & _ & E2);
        [done|done| | |exact Hx|]; [done..|].
      rewrite E1, E2. split.
      - destruct (status_path_facts _ _ (ok_path _ _ _ (ok_views _ _ Hok _ _ Hv))) as (Hg & _).
        fold (current_status v) in Hg. simpl in Hg. simpl. rewrite Hg. unfold len. lia.
      - apply Forall_take, Forall_lookup. intros i a. unfold stored_artifacts.
        rewrite list_lookup_imap. intros (a0 & _ & ->)%fmap_Some. simpl. lia. }
    intros tr1 x L1 Hx. destruct (Hx x eq_refl) as (id & Hrec & Hms & Hg & Hq).
    destruct (record_content_pruned _); [by intros ? ? ? [=]|]. cbv zeta.
    eapply (wp_try _ _ _ _ _ (λ tr' r, ∀ e, r = Ok e → stream_task_id e = as_str id ∧ event_shows tr' e));
      [by eapply live_of_later| | |by intros ? ? _ _ ? ? ? [=]].
    { apply wp_lift. intros e He. eapply stream_snapshot_shows; [|exact Hms|exact He].
      rewrite (ra_key _ _ _ _ Hrec), (ra_route _ _ _ _ Hrec). done. }
    intros tr2 e L2 He. destruct (He e eq_refl) as [Hid He']. intros ? ? ? [= <- <- <-]. exists id.
    split_and!; try done; [apply (ra_route _ _ _ _ Hrec)|].
    destruct (last _) as [a|] eqn:Hlast; [|done]. simpl. apply last_Some_elem_of in Hlast.
    rewrite Forall_forall in Hq. by apply Hq.
  - intros tr1 [[e g] q] L1 He. destruct (He e g q eq_refl) as (id & -> & Hid & He' & Hg & Hq).
    destruct (reject && _); [by intros ? [=]|]. intros st [= <-]. exists id. split_and!; try done.
    by constructor.
Qed.

(** ** Every run *)

Lemma wp_answer {A} (out : A → gateway_output) (p : progR A2AGatewayError A) tr :
  live tr → wp p tr (λ tr' r, ∀ a, r = Ok a → shows tr' (output_messages (out a))) → wp (answer out p) tr anything.
Proof.
  intros Hl Hp. eapply wp_then; [done|exact Hp|]. intros tr1 r L1 Hr tr2 L2. split; [|done].
  intros e He%list_elem_of_singleton. subst e. destruct r as [a|e]; [|apply shows_nil].
  eapply shows_mono; [|by apply Hr]. grown.
Qed.

Lemma wp_streamed (p : progR A2AGatewayError TaskStreamState) tr :
  live tr → wp p tr stream_post → wp (streamed wait p) tr anything.
Proof.
  intros Hl Hp. eapply wp_then; [done|exact Hp|]. intros tr1 [st|e] L1 Hr.
  - destruct (Hr st eq_refl) as [id Hst]. eapply wp_stream_loop; [by eapply live_of_later|done].
  - intros tr2 L2. split; [|done]. intros ev Hev%list_elem_of_singleton. subst ev. apply shows_nil.
Qed.

Lemma wp_handler c tr : live tr → EvClient c ∈ tr → wp (handler route wait c) tr anything.
Proof.
  intros Hl Hc. destruct c as [request|request|request|request|request|id document]; cbn [handler].
  - apply wp_answer; [done|]. apply wp_send_message; [|done..]. intros x id t. apply wp_submit.
  - apply wp_streamed; [done|]. unfold send_streaming_message.
    eapply (wp_try _ _ _ _ _ anything); [done|apply (wp_prepare_task request true); [|done..]| |by intros ? ? _ _ ? [=]].
    { intros x id t. apply wp_submit. }
    intros tr1 prepared L1 _. apply wp_stream_task. by eapply live_of_later.
  - apply wp_answer; [done|]. by apply wp_get_task.
  - apply wp_answer; [done|]. eapply wp_impl; [|by apply wp_list_tasks]. intros tr' r Hr a Ha.
    rewrite (Hr a Ha). apply shows_nil.
  - apply wp_streamed; [done|]. unfold subscribe_to_task.
    eapply (wp_try _ _ _ _ _ anything); [done|by apply wp_prune_visible| |by intros ? ? _ _ ? [=]].
    intros tr1 [] L1 _. eapply (wp_try _ _ _ _ _ anything); [by eapply live_of_later|done| |by intros ? ? _ _ ? [=]].
    intros tr2 lookup L2 _. apply wp_stream_task. by eapply live_of_later.
  - apply wp_answer; [done|]. eapply wp_impl; [|by apply wp_publish_json]. intros tr' r _ a _. apply shows_nil.
Qed.

Lemma reachable_live tr ps :
  reachable config route wait bridge_config nonce (tr, ps) → collision_free (trace_ops tr) → live tr.
Proof.
  intros Hr Hf. split; [|done].
  apply (sys_sound config route wait bridge_config nonce event_justified) with (s := (tr, ps)); try done.
  - intros tr' c. apply wp_handler.
  - intros tr' key cursor rounds Hl _. by apply wp_run_observer.
Qed.

(** C8: In every run of the gateway process, with any interleaving of its operations
    and observers and any answers of the local service, a message that a response or a
    stream event shows for a task is either the request a client sent for that task, or
    the text that the local service reported as an inbound text message, in the
    conversation of the route, from the device of the route, in reply to the request of
    that very task. *)
Theorem gateway_shows_authentic tr ps o shown m :
  reachable config route wait bridge_config nonce (tr, ps) → collision_free (trace_ops tr) →
  EvOut o ∈ tr → (shown, m) ∈ output_messages o →
  ∃ id, shown = as_str id ∧ message_authentic tr id m.
Proof.
  intros Hr Hf Ho Hm. pose proof (reachable_live tr ps Hr Hf) as [Hv _].
  destruct (valid_elem _ _ _ Hv Ho) as (pre & post & -> & Hj).
  destruct (Hj shown m Hm) as (id & -> & Ha). exists id. split; [done|].
  eapply message_authentic_mono; [|exact Ha]. by apply prefix_app_r.
Qed.

(** In every run, a directed request is sent to the local service only for a task
    that a client asked for and that is already durable, and it carries the route's
    conversation and device, the message identifier of the task and the client's text. *)
Theorem bridge_sends_authentic pre r a post ps :
  reachable config route wait bridge_config nonce (pre ++ EvLocal r a :: post, ps) →
  collision_free (trace_ops (pre ++ EvLocal r a :: post)) →
  local_operation r = SEND_DIRECTED_REQUEST_OPERATION →
  ∃ c, OpCreate c ∈ trace_ops pre ∧ asked pre c ∧ directs r c.
Proof.
  intros Hr Hf Hop. pose proof (reachable_live _ ps Hr Hf) as Hl.
  destruct (live_valid _ _ Hl pre _ post eq_refl Hop) as (c & Hc & Hd). exists c.
  split; [done|]. split; [|done]. by apply (live_writes pre (OpCreate c) (live_prefix _ _ _ Hl)).
Qed.

(** A durable task of the route that a client asked for. *)
Record task_authentic (tr : trace) (pk : TaskPk) (row : TaskRow) (id : A2ATaskId) : Prop := {
  ta_key : pk = task_pk (route_key route id);
  ta_context : trow_context_id row = as_str (route_context_id route);
  ta_conversation : trow_conversation_id row = route_conversation_id route;
  ta_target : trow_target_device_id row = route_target_device_id route;
  ta_request : hex_encode (as_bytes (trow_request_message_id row)) = as_str id;
  ta_asked : ∃ c, OpCreate c ∈ trace_ops tr ∧ asked tr c ∧ creation_key c = route_key route id
    ∧ creation_request_message_id c = trow_request_message_id row;
  ta_state : ∃ status, status ∈ a2a_task_status (tables tr) ∧ srow_task status = pk
    ∧ srow_generation status = trow_generation row ∧ srow_state status = trow_state row
    ∧ srow_terminal_reason status = trow_terminal_reason row }.

(** A row of the status history of a task: its submission, or a justified change. *)
Definition status_authentic (tr : trace) (row : StatusRow) (id : A2ATaskId) : Prop :=
  (srow_generation row = 0 ∧ srow_state row = state_code Submitted ∧ srow_terminal_reason row = None)
  ∨ (0 < srow_generation row
     ∧ ∃ state, srow_state row = state_code state ∧ status_justified tr id state (srow_terminal_reason row)).

Lemma view_status_row tr s pk v row :
  tasks_represent (tables tr) s → s !! pk = Some v →
  row ∈ statuses_for (tables tr) pk ↔ ∃ status, status ∈ view_statuses v ∧ row = status_row_of pk status.
Proof.
  intros Hrep Hv. rewrite (rep_statuses _ _ Hrep pk), Hv. cbn [from_option]. rewrite list_elem_of_fmap. naive_solver.
Qed.

Lemma view_task_authentic tr s pk v id c :
  tasks_represent (tables tr) s → tasks_ok config s → s !! pk = Some v → view_routed tr v id c →
  task_authentic tr pk (task_row_of v) id.
Proof.
  intros Hrep Hok Hv Hr. pose proof (ok_pk _ _ _ (ok_views _ _ Hok _ _ Hv)) as Hpk. rewrite (vr_key _ _ _ _ Hr) in Hpk.
  split; cbn [task_row_of trow_context_id trow_conversation_id trow_target_device_id trow_request_message_id trow_generation
    trow_state trow_terminal_reason].
  - done.
  - by rewrite (vr_context _ _ _ _ Hr).
  - apply (vr_conversation _ _ _ _ Hr).
  - apply (vr_target _ _ _ _ Hr).
  - apply (vr_spells _ _ _ _ Hr).
  - exists c. split_and!; [apply (from_created _ _ _ (vr_from _ _ _ _ Hr))|apply (vr_asked _ _ _ _ Hr)| |].
    + rewrite <- (vr_key _ _ _ _ Hr). exact (eq_sym (f_equal view_key (from_identity _ _ _ (vr_from _ _ _ _ Hr)))).
    + by rewrite (vr_request _ _ _ _ Hr).
  - exists (status_row_of pk (current_status v)). split_and!; [|done..].
    assert (status_row_of pk (current_status v) ∈ statuses_for (tables tr) pk) as Hin.
    { apply (view_status_row tr s pk v _ Hrep Hv). exists (current_status v). split; [|done].
      apply last_Some_elem_of, last_view_statuses. }
    unfold statuses_for in Hin. by apply list_elem_of_filter in Hin as [_ Hin].
Qed.

Lemma view_status_authentic tr s pk v row :
  live tr → tasks_represent (tables tr) s → tasks_ok config s → sourced (trace_ops tr) s → s !! pk = Some v →
  row ∈ statuses_for (tables tr) pk → ∃ id, pk = task_pk (route_key route id) ∧ status_authentic tr row id.
Proof.
  intros Hl Hrep Hok Hs Hv Hin. apply (view_status_row tr s pk v _ Hrep Hv) in Hin as (status & Hst & ->).
  pose proof (ok_views _ _ Hok _ _ Hv) as Hvok. pose proof (ok_pk _ _ _ Hvok) as Hpk.
  destruct (view_is_routed tr s _ v Hl Hs Hv) as (id & c & Hr).
  apply elem_of_cons in Hst as [->|Hst].
  { exists id. rewrite <- (vr_key _ _ _ _ Hr). split; [done|by left]. }
  destruct (from_statuses _ _ _ (vr_from _ _ _ _ Hr) status Hst) as (t & Hop & Hk & E1 & E2 & _).
  destruct (live_writes tr _ Hl Hop) as [_ (id' & Hk' & Hj)]. exists id'. rewrite <- Hk', Hk. split; [done|]. right.
  destruct (status_path_facts _ _ (ok_path _ _ _ Hvok)) as (_ & _ & Hall & _). rewrite Forall_forall in Hall.
  destruct (Hall _ Hst) as [Hg _]. split; [exact Hg|]. exists (status_state status). split; [done|]. cbn. by rewrite E1, E2.
Qed.

(** C9: In every run, every task of the store is one a client asked for, under the agent,
    the tenant, the context, the conversation and the device of the route, and its state is
    that of a row of its history; and every row of every history is of such a task and
    either its submission or justified by what happened: working by an accepted directed
    request of this task, rejected by a refused one, completed by an exact response of at
    most the allowed length, failed by one that is longer.  No other status occurs. *)
Theorem task_states_authentic tr ps :
  reachable config route wait bridge_config nonce (tr, ps) → collision_free (trace_ops tr) →
  (∀ pk row, a2a_task (tables tr) !! pk = Some row → ∃ id, task_authentic tr pk row id)
  ∧ (∀ row, row ∈ a2a_task_status (tables tr) →
      ∃ id, srow_task row = task_pk (route_key route id) ∧ is_Some (a2a_task (tables tr) !! srow_task row)
            ∧ status_authentic tr row id).
Proof.
  intros Hr Hf. pose proof (reachable_live tr ps Hr Hf) as Hl.
  destruct (live_state tr Hl) as (s & [Hrep _] & Hok & Hs). split.
  - intros pk row Hrow. rewrite (rep_tasks _ _ Hrep), lookup_fmap in Hrow.
    apply fmap_Some in Hrow as (v & Hv & ->). destruct (view_is_routed tr s _ v Hl Hs Hv) as (id & c & Hrt).
    exists id. by eapply view_task_authentic.
  - intros row Hin. assert (row ∈ statuses_for (tables tr) (srow_task row)) as Hfor by by apply list_elem_of_filter.
    destruct (s !! srow_task row) as [v|] eqn:Hv.
    2:{ rewrite (rep_statuses _ _ Hrep), Hv in Hfor. by apply elem_of_nil in Hfor. }
    destruct (view_status_authentic tr s _ v row Hl Hrep Hok Hs Hv Hfor) as (id & Hk & Ha). exists id. split_and!; [done| |done].
    rewrite (rep_tasks _ _ Hrep), lookup_fmap, Hv. by eexists.
Qed.

End authenticity.
