(* ===== verification/A2ASystemExamples.v ===== *)
(** * A run of the gateway process

    Concrete codecs stand for the generated and third-party code, and a scheduler runs the
    programs of the process: a client sends a message, the bridge sends the directed
    request, its observer reads the exact response and completes the task, and the client
    gets it.  The theorems on the process are applied to this run. *)

From S2P Require Import Prelude TextModel BoundedDocuments Identifiers A2AContracts A2AArtifacts A2ATaskModel A2AStore.
From S2P Require Import A2AStoreSpec A2AStoreRun A2ALifecycle A2AResponses A2AArtifactForm A2AEffects A2AGateway A2ABridge A2ASystem A2AAuthenticity A2AExamples.
Open Scope Z_scope.

#[local] Existing Instance example_sha.

(** ** A codec for JSON values *)

Fixpoint enc_text (t : text) : bytes := match t with [] => [x00] | b :: t => x01 :: b :: enc_text t end.

Fixpoint dec_text (b : bytes) : option (text * bytes) :=
  match b with
  | x00 :: r => Some ([], r)
  | x01 :: c :: r => prod_map (cons c) id <$> dec_text r
  | _ => None
  end.

Definition enc_many {A} (e : A → bytes) (l : list A) : bytes := foldr (fun a r => x01 :: e a ++ r) [x00] l.

Fixpoint dec_many {A} (d : bytes → option (A * bytes)) (n : nat) (b : bytes) : option (list A * bytes) :=
  match n, b with
  | S _, x00 :: r => Some ([], r)
  | S n, x01 :: r => match d r with
                     | Some (a, r) => prod_map (cons a) id <$> dec_many d n r
                     | None => None
                     end
  | _, _ => None
  end.

Fixpoint enc_json (v : json) : bytes :=
  match v with
  | JNull => [x00]
  | JBool b => [x01; if b then x01 else x00]
  | JNumber n => x02 :: enc_text n
  | JString s => x03 :: enc_text s
  | JArray l => x04 :: enc_many enc_json l
  | JObject l => x05 :: enc_many (fun m => enc_text m.1 ++ enc_json m.2) l
  end.

Fixpoint dec_json (n : nat) (b : bytes) : option (json * bytes) :=
  match n, b with
  | S _, x00 :: r => Some (JNull, r)
  | S _, x01 :: x00 :: r => Some (JBool false, r)
  | S _, x01 :: x01 :: r => Some (JBool true, r)
  | S _, x02 :: r => prod_map JNumber id <$> dec_text r
  | S _, x03 :: r => prod_map JString id <$> dec_text r
  | S n, x04 :: r => prod_map JArray id <$> dec_many (dec_json n) (length r) r
  | S n, x05 :: r =>
      prod_map JObject id <$>
        dec_many (fun r => match dec_text r with
                           | Some (k, r) => prod_map (pair k) id <$> dec_json n r
                           | None => None
                           end) (length r) r
  | _, _ => None
  end.

Lemma dec_enc_text t r : dec_text (enc_text t ++ r) = Some (t, r).
Proof. induction t as [|b t IH]; simpl; [done|]. by rewrite IH. Qed.

Lemma dec_enc_many {A} (e : A → bytes) d l n r :
  (∀ a r, a ∈ l → d (e a ++ r) = Some (a, r)) → (length (enc_many e l) <= n)%nat →
  dec_many d n (enc_many e l ++ r) = Some (l, r).
Proof.
  revert n. induction l as [|a l IH]; intros n Hd Hn; (destruct n as [|n]; [simpl in Hn; lia|]); simpl; [done|].
  simpl in Hn. rewrite length_app in Hn. rewrite <- (assoc_L (++)), Hd by by left.
  rewrite IH; [done| |lia]. intros a' r' Ha'. apply Hd. by right.
Qed.

Lemma enc_many_elem {A} (e : A → bytes) l a : a ∈ l → (length (e a) < length (enc_many e l))%nat.
Proof. induction 1 as [a l|a a' l _ IH]; simpl; rewrite length_app; lia. Qed.

Lemma dec_enc_json v : ∀ n r, (length (enc_json v) <= n)%nat → dec_json n (enc_json v ++ r) = Some (v, r).
Proof.
  induction v as [|b|t|t|l IH|l IH] using json_ind'; intros n r Hn;
    (destruct n as [|n]; [simpl in Hn; lia|]); cbn [enc_json] in *; simpl in Hn; simpl;
    [done|by destruct b|by rewrite dec_enc_text..| |]; rewrite Forall_forall in IH;
    rewrite dec_enc_many; try done; try (rewrite length_app; lia).
  - intros a r' Ha. apply IH; [done|]. pose proof (enc_many_elem enc_json l a Ha). lia.
  - intros [k v] r' Ha. simpl. rewrite <- (assoc_L (++)), dec_enc_text.
    pose proof (enc_many_elem (fun m => enc_text m.1 ++ enc_json m.2) l _ Ha) as Hl. simpl in Hl.
    rewrite length_app in Hl. rewrite (IH _ Ha); [done|]. simpl. lia.
Qed.

Definition json_document (b : bytes) : option json :=
  match dec_json (length b) b with Some (v, []) => Some v | _ => None end.

Lemma json_document_enc v : json_document (enc_json v) = Some v.
Proof. unfold json_document. pose proof (dec_enc_json v _ [] (le_n _)) as E. rewrite app_nil_r in E. by rewrite E. Qed.

(** ** Codecs of artifacts, responses and local messages *)

(** Artifacts of text and data parts; the structured data of a part is its document. *)
Definition part_to_value (p : WirePart) : option json :=
  match p with
  | mk_WirePart (Some (PartText t)) None filename media_type =>
      Some (JObject [(lit "text", JString t); (lit "mediaType", JString media_type);
                     (lit "filename", JString filename)])
  | mk_WirePart (Some (PartData d)) None filename media_type =>
      Some (JObject [(lit "data", JString d); (lit "mediaType", JString media_type);
                     (lit "filename", JString filename)])
  | _ => None
  end.

Definition part_from_value (v : json) : option WirePart :=
  match json_get (lit "filename") v, json_get (lit "mediaType") v with
  | Some (JString filename), Some (JString media_type) =>
      match json_get (lit "text") v, json_get (lit "data") v with
      | Some (JString t), None => Some (mk_WirePart (Some (PartText t)) None filename media_type)
      | None, Some (JString d) => Some (mk_WirePart (Some (PartData d)) None filename media_type)
      | _, _ => None
      end
  | _, _ => None
  end.

Definition text_artifact_to_value (a : WireArtifact) : option json :=
  match a with
  | mk_WireArtifact id name description parts None [] =>
      parts ← mapM part_to_value parts;
      Some (JObject [(lit "artifactId", JString id); (lit "name", JString name);
                     (lit "description", JString description); (lit "parts", JArray parts)])
  | _ => None
  end.

Definition text_artifact_from_value (v : json) : option WireArtifact :=
  match json_get (lit "artifactId") v, json_get (lit "name") v, json_get (lit "description") v,
        json_get (lit "parts") v with
  | Some (JString id), Some (JString name), Some (JString description), Some (JArray parts) =>
      parts ← mapM part_from_value parts;
      Some (mk_WireArtifact id name description parts None [])
  | _, _, _, _ => None
  end.

Local Instance example_artifacts : ArtifactJson := {|
  parse_json := json_document;
  json_to_vec := fun v => Some (enc_json v);
  artifact_to_value := text_artifact_to_value;
  artifact_from_slice := fun b => json_document b ≫= text_artifact_from_value;
  data_to_value := json_document;
  data_from_value := fun v => Some (enc_json v) |}.

Lemma part_value_again p v : part_to_value p = Some v → part_from_value (sort_json v) = Some p.
Proof. intros E. destruct p as [[[t| | |d]|] [] filename media_type]; try discriminate E; by injection E as <-. Qed.

Lemma parts_value_again parts values :
  mapM part_to_value parts = Some values → mapM part_from_value (map sort_json values) = Some parts.
Proof.
  intros E%mapM_Some_1. apply mapM_Some_2. induction E as [|p v parts values Hp _ IH]; simpl; constructor; [|done].
  by apply part_value_again.
Qed.

Lemma example_artifact_laws : artifact_json_laws.
Proof.
  split; simpl.
  - intros v b _ [= <-]. apply json_document_enc.
  - intros d v d' _ [= <-]. apply json_document_enc.
  - intros a v b _ E [= <-]. rewrite json_document_enc. simpl.
    destruct a as [id name description parts [] []]; try discriminate E. unfold text_artifact_to_value in E.
    destruct (mapM part_to_value parts) as [values|] eqn:Hv; [|done]. injection E as <-.
    apply parts_value_again in Hv.
    transitivity (mapM part_from_value (map sort_json values)
      ≫= (fun parts => Some (mk_WireArtifact id name description parts None []))); [done|by rewrite Hv].
Qed.

Local Instance example_references : ReferenceCodec := {|
  url_parse := fun _ => None; base64url_decode := fun _ => None; base64url_encode := id |}.

(** A response is summarized by its task identifiers. *)
Local Instance example_responses : ResponseCodec := {|
  task_to_vec := fun t => Some (wire_task_id t);
  task_to_value := fun t => Some (JString (wire_task_id t));
  send_to_value := fun _ => None;
  stream_to_value := fun _ => None;
  list_to_value := fun r => Some (JArray ((JString ∘ wire_task_id) <$> wire_list_tasks r));
  task_from_slice := fun _ => None;
  send_from_slice := fun _ => None;
  stream_from_slice := fun _ => None;
  list_from_slice := fun _ => None;
  task_decode := fun _ => None;
  send_decode := fun _ => None;
  stream_decode := fun _ => None;
  list_decode := fun _ => None |}.

Definition observed_from_value (v : json) : option ObservedMessage :=
  match v with
  | JArray [JString conversation; JString id; JString sender; JString reply; JString t] =>
      Some (mk_ObservedMessage conversation id id sender 1 1 0 (Some reply) 2 (lit "inbound") (lit "text")
              (Some t) None None None None None false)
  | _ => None
  end.

Local Instance example_bridge : BridgeJson := {|
  encode_send_directed := fun r =>
    Some (enc_json (JArray [JString (directed_conversation_id r); JString (directed_message_id r);
                            JString (directed_target_device_id r); JString (directed_text r)]));
  encode_read_messages := fun r =>
    Some (enc_json (JArray [JString (read_conversation_id r); JNumber (format_u64 (read_after_cursor r));
                            JNumber (format_u64 (read_limit r))]));
  encode_conversation_operation := fun conversation => Some (enc_json (JString conversation));
  sent_from_slice := fun b =>
    match json_document b with
    | Some (JArray [JString conversation; JString id]) => Some (mk_SentMessage conversation id 1 1)
    | _ => None
    end;
  page_from_slice := fun b =>
    match json_document b with
    | Some (JArray values) =>
        messages ← mapM observed_from_value values; Some (mk_MessagePage messages false)
    | _ => None
    end |}.

Definition example_artifact : WireArtifact :=
  mk_WireArtifact (lit "report") (lit "Report") []
    [mk_WirePart (Some (PartText (lit "ready"))) None [] [];
     mk_WirePart (Some (PartData (enc_json (JObject [(lit "b", JNull); (lit "a", JBool true)])))) None [] []]
    None [].

Lemma artifact_canonical_roundtrip_witness :
  ∃ a, validate_initial_artifact example_artifact = Ok a
    ∧ artifact_wire a ≠ example_artifact
    ∧ validate_initial_artifact (artifact_wire a) = Ok a
    ∧ decode_initial_artifact_json (artifact_canonical_json a) = Ok a.
Proof.
  destruct (validate_initial_artifact example_artifact) as [a|e] eqn:E; [|by vm_compute in E].
  exists a. split; [done|]. split.
  - vm_compute in E. injection E as <-. vm_compute. discriminate.
  - exact (artifact_canonical_roundtrip example_artifact_laws example_artifact a E).
Defined.

(** ** A scheduler *)

Record environment := mk_environment {
  env_now : Z;
  env_answer : LocalRequest → result A2AKonclaveLocalServiceError bytes;
  env_probe : probe → bool;
  env_rounds : nat }.

Section scheduler.
Context (config : A2ASqliteTaskStoreConfig) (route : A2AAgentRoute) (wait : A2AGatewayWaitConfig)
  (bridge_config : A2AKonclaveBridgeConfig) (nonce : bytes) (env : environment).

Definition proc_run (tr : trace) (p : prog unit) : option (trace * list (prog unit) * prog unit) :=
  match p with
  | Ret _ => None
  | Call call k => Some (call_events call, [], k (call_run config call (tables config tr)).1)
  | Clock k => Some ([], [], k (Some (env_now env)))
  | Elapsed k => Some ([], [], k false)
  | Probe q k => Some ([], [], k (env_probe env q))
  | Sequence k => Some ([], [], k (Some 1))
  | Request r k => Some ([EvLocal r (env_answer env r)], [], k (env_answer env r))
  | Spawn key cursor k =>
      Some ([EvSpawn key cursor], [run_observer bridge_config nonce (env_rounds env) key cursor], k)
  | Emit o k => Some ([EvOut o], [], k)
  end.

(** A client's call starts, or the program at this place makes its next effect. *)
Definition sys_run_step (s : trace * list (prog unit)) (turn : client_call + nat) : trace * list (prog unit) :=
  let '(tr, ps) := s in
  match turn with
  | inl c => (tr ++ [EvClient c], ps ++ [handler route wait c])
  | inr i =>
      match ps !! i with
      | None => s
      | Some p =>
          match proc_run tr p with
          | None => s
          | Some (evs, new, p') => (tr ++ evs, take i ps ++ p' :: drop (S i) ps ++ new)
          end
      end
  end.

Definition sys_runs (turns : list (client_call + nat)) : trace * list (prog unit) := foldl sys_run_step ([], []) turns.

Lemma proc_run_step tr p evs new p' :
  is_u64 (env_now env) → proc_run tr p = Some (evs, new, p') →
  proc_step config bridge_config nonce tr p evs new p'.
Proof. intros Hnow E. destruct p; simpl in E; [done|..]; injection E as <- <- <-; constructor. by intros n [= <-]. Qed.

Lemma sys_runs_reachable turns :
  is_u64 (env_now env) → (∀ c, inl c ∈ turns → client_ok route c) →
  reachable config route wait bridge_config nonce (sys_runs turns).
Proof.
  intros Hnow. induction turns as [|turn turns IH] using rev_ind; intros Hc; [apply rtc_refl|].
  unfold sys_runs. rewrite foldl_snoc. eapply (transitivity (R := rtc _)).
  { apply IH. intros c Hin. apply Hc. apply elem_of_app. by left. }
  fold (sys_runs turns). destruct (sys_runs turns) as [tr ps]. destruct turn as [c|i]; simpl.
  { apply rtc_once, sys_client, Hc. apply elem_of_app. right. by left. }
  destruct (ps !! i) as [p|] eqn:Hp; [|apply rtc_refl].
  destruct (proc_run tr p) as [[[evs new] p']|] eqn:Hrun; [|apply rtc_refl].
  apply rtc_once. apply (proc_run_step _ _ _ _ _ Hnow) in Hrun.
  pose proof (sys_run config route wait bridge_config nonce tr (take i ps) p (drop (S i) ps) evs new p' Hrun) as Hs.
  by rewrite (take_drop_middle ps i p Hp) in Hs.
Qed.

End scheduler.

(** ** The run *)

Definition example_wait : A2AGatewayWaitConfig := mk_A2AGatewayWaitConfig 1000000000 500000000.
Definition example_bridge_config : A2AKonclaveBridgeConfig := mk_A2AKonclaveBridgeConfig 1000000000 1000000 10 4.

(** The identifier of the request message, which names the task. *)
Definition example_message : text :=
  match map_initial_send_message example_route example_request with
  | Ok m => as_str (mapping_task_id m)
  | Err _ => []
  end.

(** The local service accepts the directed request and reports one exact response. *)
Definition example_local (r : LocalRequest) : result A2AKonclaveLocalServiceError bytes :=
  let conversation := JString (hex_encode (as_bytes example_conversation)) in
  if bool_decide (local_operation r = SEND_DIRECTED_REQUEST_OPERATION)
  then Ok (enc_json (JArray [conversation; JString example_message]))
  else Ok (enc_json (JArray [JArray [conversation; JString (hex_encode (replicate 16 x33));
                                     JString (hex_encode (as_bytes example_device));
                                     JString example_message; JString (lit "done")]])).

Definition example_env : environment :=
  mk_environment 1000 example_local
    (fun q => match q with ObserverSlotFree => true | _ => false end) 3.

Definition immediate_wire : WireSendMessageRequest :=
  mk_WireSendMessageRequest [] (send_message_field example_wire)
    (Some (mk_WireSendMessageConfiguration [] None None true)) None.

Definition immediate_request : InitialSendMessageRequest :=
  match validate_initial_send_message_request immediate_wire None with
  | Ok r => r
  | Err _ => example_request
  end.

Definition example_turns : list (client_call + nat) :=
  inl (ClientSend immediate_request) :: replicate 60 (inr 0%nat) ++ replicate 60 (inr 1%nat)
    ++ inl (ClientGet (mk_InitialGetTaskRequest None example_message None)) :: replicate 20 (inr 2%nat).

Definition example_trace : trace :=
  (sys_runs example_config example_route example_wait example_bridge_config [] example_env example_turns).1.

Definition example_programs : list (prog unit) :=
  (sys_runs example_config example_route example_wait example_bridge_config [] example_env example_turns).2.

Lemma example_client_ok c : inl c ∈ example_turns → client_ok example_route c.
Proof.
  assert (∀ n i, (inl c : client_call + nat) ∉ replicate n (inr i)) as Hr
    by (intros n i Hin; by apply elem_of_replicate in Hin as [? _]).
  unfold example_turns. rewrite elem_of_cons, elem_of_app, elem_of_app, elem_of_cons.
  intros [E|[[]%Hr|[[]%Hr|[E|[]%Hr]]]]; injection E as ->; [|done].
  exists immediate_wire. vm_compute. reflexivity.
Qed.

Lemma example_reachable :
  reachable example_config example_route example_wait example_bridge_config [] (example_trace, example_programs).
Proof.
  unfold example_trace, example_programs. rewrite <- surjective_pairing.
  apply sys_runs_reachable; [by split|]. apply example_client_ok.
Qed.

Definition op_creation (op : task_op) : option A2ATaskCreation := match op with OpCreate c => Some c | _ => None end.

Lemma example_trace_free : collision_free (trace_ops example_trace).
Proof.
  assert (∀ c, OpCreate c ∈ trace_ops example_trace → c ∈ omap op_creation (trace_ops example_trace)) as Hin.
  { intros c Hc. apply list_elem_of_omap. by exists (OpCreate c). }
  assert (∃ c, omap op_creation (trace_ops example_trace) = [c]) as [c0 E] by (eexists; vm_compute; reflexivity).
  rewrite E in Hin. intros c c' Hc%Hin Hc'%Hin _. apply list_elem_of_singleton in Hc, Hc'. by subst.
Qed.

(** The answer to the last request, and the first message it shows. *)
Definition last_output (tr : trace) : gateway_output :=
  match last tr with Some (EvOut o) => o | _ => OutPublished end.

Definition example_output : gateway_output := last_output example_trace.

Definition example_shown : text * WireMessage :=
  default ([], mk_WireMessage [] [] [] 0 [] None [] []) (head (output_messages example_output)).

Lemma gateway_shows_authentic_witness :
  message_parts example_shown.2 = [mk_WirePart (Some (PartText (lit "done"))) None [] A2A_TEXT_MEDIA_TYPE]
  ∧ ∃ id, example_shown.1 = as_str id ∧ message_authentic example_route example_trace id example_shown.2.
Proof.
  split; [vm_compute; reflexivity|].
  apply (gateway_shows_authentic example_config example_config_ok example_route example_wait
           example_bridge_config [] example_trace example_programs example_output).
  - apply example_reachable.
  - apply example_trace_free.
  - apply list_elem_of_lookup. exists 11%nat. vm_compute. reflexivity.
  - apply list_elem_of_lookup. exists 0%nat. vm_compute. reflexivity.
Defined.

Definition request_at (tr : trace) (i : nat) : LocalRequest :=
  match tr !! i with Some (EvLocal r _) => r | _ => mk_LocalRequest [] [] [] end.

Definition example_directed : LocalRequest := request_at example_trace 2.

Lemma bridge_sends_authentic_witness :
  ∃ c, OpCreate c ∈ trace_ops (take 2 example_trace) ∧ asked example_route (take 2 example_trace) c
    ∧ directs example_route example_directed c.
Proof.
  assert (example_trace = take 2 example_trace ++ EvLocal example_directed (example_local example_directed)
            :: drop 3 example_trace) as E by (vm_compute; reflexivity).
  apply (bridge_sends_authentic example_config example_config_ok example_route example_wait
           example_bridge_config [] (take 2 example_trace) example_directed (example_local example_directed)
           (drop 3 example_trace) example_programs).
  - rewrite <- E. apply example_reachable.
  - rewrite <- E. apply example_trace_free.
  - vm_compute. reflexivity.
Defined.

Definition example_task_key : A2ATaskKey :=
  match map_initial_send_message example_route example_request with
  | Ok m => route_key example_route (mapping_task_id m)
  | Err _ => example_key
  end.

Definition example_status_rows : list StatusRow := a2a_task_status (tables example_config example_trace).

Definition example_completed : StatusRow := mk_StatusRow (task_pk example_task_key) 2 (state_code Completed) None 1000.

Lemma task_states_authentic_witness :
  srow_state <$> example_status_rows = state_code <$> [Submitted; Working; Completed]
  ∧ (∃ id, srow_task example_completed = task_pk (route_key example_route id)
       ∧ is_Some (a2a_task (tables example_config example_trace) !! srow_task example_completed)
       ∧ status_authentic example_route example_trace example_completed id)
  ∧ ∃ row id, a2a_task (tables example_config example_trace) !! task_pk example_task_key = Some row
              ∧ task_authentic example_config example_route example_trace (task_pk example_task_key) row id.
Proof.
  destruct (task_states_authentic example_config example_config_ok example_route example_wait
    example_bridge_config [] example_trace example_programs example_reachable example_trace_free) as [Htasks Hstatuses].
  split; [vm_compute; reflexivity|]. split.
  - apply Hstatuses. apply list_elem_of_lookup. exists 2%nat. vm_compute. reflexivity.
  - destruct (a2a_task (tables example_config example_trace) !! task_pk example_task_key) as [row|] eqn:E;
      [|vm_compute in E; discriminate E].
    destruct (Htasks _ _ E) as [id Hid]. exists row, id. split; [reflexivity|exact Hid].
Defined.
